(* ===== verification/_CoqProject ===== *)
-Q . S2P
Prelude.v
GoBytes.v
KV.v
Base64.v
Json.v
StateVector.v
MultiStateVector.v
Conversation.v
MessagePart.v
Ring.v
Partition.v
Partitioner.v
Float64.v
Session.v
Relationship.v
Manager.v
Effects.v
Halting.v
Bucket.v
BlockStore.v
CheckedRounds.v
FileMessage.v
FtCypher.v
ReceivedTransfer.v
Processor.v
Received.v
SentTransfer.v
Sent.v
FileTransfer.v
MessageBuffer.v
Fingerprints.v
Services.v
MeteredBuffer.v
Handler.v
SingleMessage.v
SingleResponse.v
SingleRequest.v
CommandStore.v
ReplayBlocker.v
Lease.v
LeaseOps.v
LeaseThread.v
MapSyntax.v
ByteKV.v
Base64Raw.v
Patch.v
Instances.v
TxFile.v
RemoteWriter.v
InternalKV.v
Collector.v
CollectiveSync.v
StoredMaps.v
FileTree.v
Convergence.v
LateWrite.v
Attempts.v
SyncKV.v
MutedUsers.v
GroupStore.v
GroupMessage.v
GroupManager.v
GroupRequest.v
