(* ===== verification/Prelude.v ===== *)
(** * Verification of the xx network client

    The client library of the xx network sends messages through a mix network
    (cMix).  On top of the network it has end-to-end channels between partners,
    file transfers, single-use requests, and a versioned store in which every
    part keeps its state over restarts and that the devices of one user can
    synchronise.  This development models the parts that
    carry that logic, translated from the Go sources under [src/], and proves
    what makes them correct.

    ** How the code is modelled

    A Go unsigned integer is a [Z] with the wrap of its width ([u8], [u32],
    [u64], [i64], below); a Go [int] is a [Z] where the sizes of the code keep
    it small.  Bytes are [Strings.Byte.byte]; a [[]byte] that aliases another
    is a [slice] of a backing array ([GoBytes]).  Maps are [gmap]s; where the
    order of a Go map's iteration shows, it is a parameter.  Objects that
    several places share through pointers live in a heap (a list or a map of
    places), in [Partition], [Relationship], [Received], [Sent],
    [SingleRequest] and [Lease].  Code without state that can fail is a [result] ([Ok], [Err]
    or [Panic], below); code that changes a store or an object is an [act]
    ([Effects]), whose outcome keeps the state reached when an error is
    returned, and says when the program panics.  Threads that interleave are
    tasks of a pool with a step relation ([Handler]), each call under a lock
    one step.  Packages outside the
    repository are classes with the laws their documentation promises: [EKV]
    and [ByteKV] (storage), [RemoteStore] (the shared files of the devices),
    [AEAD], [SessionCrypto], [E2ECrypto], [FtCrypto], [SuCrypto]
    (cryptography), [Sih] (service hashes), [CmixFormats] (cMix messages),
    [Ephemeral] (address windows); each has a concrete instance on which the
    witnesses of the theorems evaluate.

    ** Files, in dependency order

    - This file: machine integers, [result], transition systems, lists.
    - [GoBytes], [Base64], [Json], [Float64], [Effects]: what the code uses of
      Go's standard library, and the monad of stateful code; [Halting]: the
      store a program leaves when it stops after some of its writes.
    - [KV]: [collective/versioned/kv.go], [object.go]: prefixes, versioned keys,
      upgrades.  Everything below stores through it.
    - [StateVector], [MultiStateVector]: [storage/utility/stateVector.go],
      [multiStateVector.go]: bit vectors of used keys, packed states.
    - [Conversation], [Ring], [MessagePart], [Partition], [Partitioner]:
      [e2e/parse]: message identifiers, the buffer of received messages, the
      byte format of parts, reassembly, and cutting and handling of messages.
    - [Session], [Relationship], [Manager]: [e2e/ratchet/partner]: the keys of one
      session, the sessions of one direction, the two directions of a partner.
    - [Bucket], [BlockStore], [CheckedRounds]: [storage/utility/bucket.go],
      [bucketParams.go], [blockStore.go] and
      [cmix/identity/receptionID/store/checkedRounds.go]: stored rate limits,
      lists stored in blocks, the rounds an identity has looked at.
    - [FileMessage], [FtCypher], [ReceivedTransfer], [Processor], [Received],
      [SentTransfer], [Sent], [FileTransfer]: [fileTransfer]: part messages,
      fingerprints and keys of a transfer, the two sides of a transfer, the
      lists of transfers and their start-up, the manager.
    - [MessageBuffer], [MeteredBuffer], [Fingerprints], [Services], [Handler]:
      [storage/utility/messageBuffer.go] and [cmix/message]: the buffer of
      messages in process, the processors by fingerprint and by service, and
      the threads that give messages to them.
    - [SingleMessage], [SingleResponse], [SingleRequest]: [single]: message formats
      and collation, the response, the request and its listener.
    - [CommandStore], [ReplayBlocker], [MutedUsers], [Lease], [LeaseOps], [LeaseThread]:
      [channels/commandStore.go], [replayBlocker.go], [mutedUsers.go], [lease.go]: the commands of
      a channel (pins, mutes), the refusal of old replays, the muted users, the sorted list of
      leases with what all its operations keep, and the thread that undoes and
      replays actions.
    - [MapSyntax], [ByteKV], [Base64Raw], [Patch], [Instances], [TxFile],
      [RemoteWriter], [InternalKV], [Collector]: [collective]: the names of map
      files, the store of bytes, mutations and their merge, identities of
      devices, the encrypted files, the transaction log with its buffer and
      thread, the operations on keys and maps, and the collector.
    - [GroupStore], [GroupMessage], [GroupManager], [GroupRequest]: [groupChat]: groups
      and their storage, messages to all members, joining, leaving and services,
      the making of groups and the requests to members.
    - [SyncKV]: [collective/synckv.go]: the versioned store the client uses, with
      its synchronised prefixes; [Attempts]: [cmix/attempts]: the statistics
      of sending.
    - [CollectiveSync], [StoredMaps], [FileTree], [Convergence], [LateWrite]: the devices
      together, as steps of a system of which the remote store and the stores
      of the devices are the state; maps as finite maps; a remote store in
      memory; convergence, and what a clock that is behind does to it.

    Definitions keep the names of the source: [T_m] is the method [m] of [T].

    ** What is proved

    - End to end: [file_delivered] (any covering selection of a file's packets,
      in any order, gives the file), [Partitioner_delivers] (the parts of a
      message, in any order, give the message once), [request_delivered] and
      [response_delivered] (single-use requests and responses are handed over
      exactly once when all messages arrive), [group_conversation] (members of a
      group that was made and joined receive each other's messages),
      [managers_exchange] (every key one end of a new channel takes is known
      to the other end, which decrypts with it) and [Session_ends_agree],
      [collective_converges] (devices that have collected hold the same data,
      the newest of what was written), which [collective_settles] (the threads
      of the logs alone, run until none of them can act, settle the system in a
      bounded number of steps and lose nothing) and [device_agrees] (what a
      store holds at any moment) stand beside.
    - Refinements: [StateVector_refines_set], [Partition_refines_reassembly],
      [ReceivedTransfer_refines], [SentTransfer_refines], [MessageBuffer_refines],
      [ReplayBlocker_refines], [CheckedRounds_refines], [stored_map_refines],
      [synckv_refines], [MutedUsers_refines], [GroupStore_refines],
      [GroupManager_refines] relate runs of operations, restarts included, to an abstract state (a set
      of keys, a map of messages, the parts of a file; for [ReplayBlocker] the
      last command accepted of each kind in the history, for [CheckedRounds]
      the list of rounds in the order checked, pruned and restored);
      [fingerprints_used_once] also compares with a flat map,
      [Collator_collates] with a reference.
    - Safety and invariants over all reachable states:
      [messages_kept_until_processed] (over every interleaving of the locked
      calls of the reception threads), [Session_keys_handed_out_once],
      [cyphers_used_once], [NewOrLoadReceived_resumes], [NewOrLoadSent_resumes],
      [response_callback_once], [kv_Set_isolated],
      [BlockStore_keeps_newest], [lease_system_ordered] (the lease list stays
      sorted, in step with its map and with what storage holds, ends and
      triggers included, but for leases a start has put off); progress:
      [recheck_drains] (a recheck that runs alone), [lease_iteration_runs].
    - Storage and formats: [loadBuffer_spec]; [lease_restart],
      [synchronised_reopens],
      [messageParts_roundtrip], [map_keys_detected], [StateVector_save_load],
      [Session_save_load] and others stand beside their components.
    - Behaviour on every branch: [MultiStateVector_set_complete],
      [Conversation_recovers_ids], [Services_get_exact], [attempts_optimal],
      [calculateLeaseTrigger_spec], [lease_round]; also [Partitioner_splits],
      [Ring_window], [getKeyForSending_finds], [manager_Receive_once].
    - Where the code does not do what it means to: [max_request_truncated],
      [late_write_diverges] (two devices keep different values for ever), [loadBuffer_spec];
      [interrupted_unmute_forgets] and [interrupted_add_locks] (the whole
      operation on a store that stops after its first write); [partial_group_lost], [oversized_group_message],
      [oversized_part_panics], [lease_iteration_runs], [lease_alarm_lost],
      [interrupted_removal_panics], [replay_lowers_round],
      [MultiStateVector_capacity], [default_services_ignored],
      [NewOrLoadReceived_panics], [NewOrLoadSent_empty_file_panics],
      [Partition_restart_panics], [bucket_fill_lost], [bucket_params_restart].

    Theorems about storage assume that the store works (the [EKVLaws] and a
    reliable store); the error branches of the store are in the definitions.

    ** Recursion

    Loops of the source that are not structural take fuel: the length of what
    they consume (the payload in [partitionRest], the file in [partitionLoop],
    the text in the JSON parser, the number of blocks in [nextAvailable_loop],
    the number of messages in [nextLoop]); each has a lemma that the fuel the
    caller passes is enough.  [makeIDsLoop], which runs until the random source
    gives a fitting identity, consumes the list of values the source gives.

    ** Not modelled

    The transport itself (gateways, rounds, polling, registration), the sending
    and the event model of channels, direct messages, authentication requests, user discovery,
    connections, notifications, backup; the remote stores themselves; the batching
    and progress threads of file transfers; protobuf encodings; logging,
    printing and metrics.  Cryptographic strength is not a subject: the classes
    state correctness of the primitives only.  Locks are not modelled as such:
    an operation under a lock is one step.  A write to a synchronised key or map
    is one step too, although the log is locked for reading only, the channel
    to the thread of the log has no bound, and closing a sent transfer (its
    files, then its place in the list) is one step.  The convergence of devices
    is proved for clocks that are not behind what a device has applied,
    restarts of devices whose log is idle, and remote operations that succeed.
    Times are instants: where [lease.go] compares two [time.Time] values with
    [==], their locations, which JSON keeps, are taken to agree. *)

From stdpp Require Export base gmap list strings numbers pretty option.
From Stdlib Require Export Strings.Byte.

#[global] Open Scope Z_scope.
#[global] Set Default Goal Selector "!".

(** ** Machine integers

    A Go unsigned integer of width [w] is a [Z] in [0, 2^w); every arithmetic
    operation of the source is followed by the wrap of its type. *)

Definition wrapu (w z : Z) : Z := z mod 2 ^ w.
Definition wraps (w z : Z) : Z := (z + 2 ^ (w - 1)) mod 2 ^ w - 2 ^ (w - 1).

Declare Scope go_scope.
Delimit Scope go_scope with go.
Abbreviation u8 := (wrapu 8).
Abbreviation u16 := (wrapu 16).
Abbreviation u32 := (wrapu 32).
Abbreviation u64 := (wrapu 64).
Abbreviation i64 := (wraps 64).

Definition is_u (w z : Z) : Prop := 0 <= z < 2 ^ w.

Lemma wrapu_range w z : 0 <= w -> is_u w (wrapu w z).
Proof. intros. apply Z.mod_pos_bound. lia. Qed.

Lemma wrapu_small w z : is_u w z -> wrapu w z = z.
Proof. apply Z.mod_small. Qed.

Lemma wraps_small w z : 0 < w -> - 2 ^ (w - 1) <= z < 2 ^ (w - 1) -> wraps w z = z.
Proof.
  intros Hw Hz. unfold wraps. rewrite Z.mod_small; [lia|].
  replace (2 ^ w) with (2 * 2 ^ (w - 1)); [lia|].
  rewrite <- Z.pow_succ_r by lia. f_equal. lia.
Qed.

Lemma wraps_wrapu w z : 0 < w -> wraps w (wrapu w z) = wraps w z.
Proof.
  intros Hw. unfold wraps, wrapu. by rewrite Zplus_mod_idemp_l.
Qed.

Lemma wrapu_wraps w z : 0 < w -> wrapu w (wraps w z) = wrapu w z.
Proof.
  intros Hw. unfold wraps, wrapu.
  rewrite Zminus_mod_idemp_l. f_equal. lia.
Qed.

Lemma wrapu_idemp w z : wrapu w (wrapu w z) = wrapu w z.
Proof. unfold wrapu. apply Zmod_mod. Qed.

(** [zlia] is [lia] with division and remainder by constants expanded. *)
Ltac zlia := unfold wrapu, wraps, is_u in *; Z.to_euclidean_division_equations; lia.

(** Evaluates both sides of an equation. *)
Ltac vm_refl := match goal with |- ?x = ?y => exact (@eq_refl _ y <: x = y) end.

(** Go's [^x], [x << n] and [x >> n] on [uint64].  A shift count of 64 or more
    gives 0, which is what these expressions give. *)
Definition not64 (x : Z) : Z := Z.lxor x (Z.ones 64).
Definition shl64 (x n : Z) : Z := wrapu 64 (Z.shiftl x n).
Definition shr64 (x n : Z) : Z := Z.shiftr x n.

Lemma testbit_high w x n : is_u w x -> 0 <= w <= n -> Z.testbit x n = false.
Proof.
  intros Hx Hn. rewrite <- (Z.mod_small x (2 ^ w)) by done.
  apply Z.mod_pow2_bits_high. lia.
Qed.

Lemma is_u_testbit w x :
  0 <= w -> 0 <= x -> (forall n, w <= n -> Z.testbit x n = false) -> is_u w x.
Proof.
  intros Hw Hx Hbits. split; [done|].
  destruct (decide (x = 0)) as [->|]; [lia|].
  apply Z.log2_lt_pow2; [lia|].
  destruct (decide (Z.log2 x < w)); [done|].
  specialize (Hbits (Z.log2 x)). rewrite Z.bit_log2 in Hbits by lia.
  by specialize (Hbits ltac:(lia)).
Qed.

Lemma testbit_wrapu w x n :
  0 <= w -> Z.testbit (wrapu w x) n = bool_decide (n < w) && Z.testbit x n.
Proof.
  intros Hw. unfold wrapu. case_bool_decide.
  - destruct (decide (0 <= n)).
    + by rewrite Z.mod_pow2_bits_low by lia.
    + by rewrite !Z.testbit_neg_r by lia.
  - by rewrite Z.mod_pow2_bits_high by lia.
Qed.

Lemma testbit_not64 x n : 0 <= n < 64 -> Z.testbit (not64 x) n = negb (Z.testbit x n).
Proof.
  intros Hn. unfold not64. rewrite Z.lxor_spec, Z.ones_spec_low by lia.
  by destruct (Z.testbit x n).
Qed.

Lemma is_u_not64 x : is_u 64 x -> is_u 64 (not64 x).
Proof.
  intros Hx. apply is_u_testbit; [lia| |].
  - apply Z.lxor_nonneg. split; [done|]. destruct Hx. lia.
  - intros n Hn. unfold not64. rewrite Z.lxor_spec, Z.ones_spec_high by lia.
    by rewrite (testbit_high 64 x n) by (done || lia).
Qed.

Lemma is_u_shr64 w x n : 0 <= w -> 0 <= n -> is_u w x -> is_u w (shr64 x n).
Proof.
  intros Hw Hn Hx. apply is_u_testbit; [lia| |].
  - apply Z.shiftr_nonneg. apply Hx.
  - intros m Hm. unfold shr64. rewrite Z.shiftr_spec by lia.
    apply (testbit_high w); [done|lia].
Qed.

Lemma is_u_lor w x y : 0 <= w -> is_u w x -> is_u w y -> is_u w (Z.lor x y).
Proof.
  intros Hw Hx Hy. apply is_u_testbit; [lia| |].
  - apply Z.lor_nonneg. split; [apply Hx|apply Hy].
  - intros n Hn. rewrite Z.lor_spec.
    by rewrite (testbit_high w x n), (testbit_high w y n) by (done || lia).
Qed.

Lemma is_u_land w x y : 0 <= w -> is_u w x -> 0 <= y -> is_u w (Z.land x y).
Proof.
  intros Hw Hx Hy. apply is_u_testbit; [lia| |].
  - apply Z.land_nonneg. left. apply Hx.
  - intros n Hn. rewrite Z.land_spec.
    by rewrite (testbit_high w x n) by (done || lia).
Qed.

Lemma land_1_testbit x n : 0 <= n -> (Z.land (Z.shiftr x n) 1 =? 1) = Z.testbit x n.
Proof.
  intros Hn. change 1 with (Z.ones 1) at 1. rewrite Z.land_ones by lia.
  rewrite Z.testbit_eqb, Z.shiftr_div_pow2 by lia. done.
Qed.

Create HintDb goint.
#[export] Hint Resolve wrapu_range is_u_lor is_u_land is_u_not64 is_u_shr64 : goint.

(** ** Errors, panics and results

    [errors.Errorf] and the wrapped errors are values of [error]: the format's
    name with its integer arguments, and the wrapped error if there is one.
    [Panic] is [jww.FATAL.Panicf], a slice index out of range, a division by
    zero or any other run-time panic: the operation does not return. *)

Inductive error :=
| Errorf (fmt : string) (args : list Z)
| Wrapf (fmt : string) (args : list Z) (cause : error).

#[export] Instance error_eq_dec : EqDecision error.
Proof. solve_decision. Defined.

Inductive result (A : Type) :=
| Ok (a : A)
| Err (e : error)
| Panic.
Arguments Ok {A} a.
Arguments Err {A} e.
Arguments Panic {A}.

#[export] Instance result_eq_dec {A} `{EqDecision A} : EqDecision (result A).
Proof. solve_decision. Defined.

#[export] Instance result_ret : MRet result := fun A a => Ok a.
#[export] Instance result_bind : MBind result := fun A B f r =>
  match r with
  | Ok a => f a
  | Err e => Err e
  | Panic => Panic
  end.
#[export] Instance result_fmap : FMap result := fun A B f r =>
  match r with
  | Ok a => Ok (f a)
  | Err e => Err e
  | Panic => Panic
  end.

(** [x, ok := l[i]] of a slice read: out of range panics. *)
Definition index {A} (l : list A) (i : Z) : result A :=
  match (if i <? 0 then None else l !! Z.to_nat i) with
  | Some a => Ok a
  | None => Panic
  end.

(** [l[i] = x]: out of range panics. *)
Definition store_at {A} (l : list A) (i : Z) (x : A) : result (list A) :=
  if (0 <=? i) && (i <? Z.of_nat (length l)) then Ok (<[Z.to_nat i := x]> l) else Panic.

(** [errors.Errorf(fmt, args, err)]: keeps the wrapped error. *)
Definition wrap_err {A} (fmt : string) (args : list Z) (r : result A) : result A :=
  match r with
  | Err e => Err (Wrapf fmt args e)
  | _ => r
  end.

(** [if err != nil { jww.FATAL.Panicf(...) }] *)
Definition must {A} (r : result A) : result A :=
  match r with
  | Err _ => Panic
  | _ => r
  end.

Definition is_ok {A} (r : result A) : bool :=
  match r with Ok _ => true | _ => false end.

Lemma bind_Ok {A B} (r : result A) (f : A -> result B) b :
  mbind f r = Ok b <-> exists a, r = Ok a /\ f a = Ok b.
Proof.
  split.
  - destruct r; try done. intros H. by exists a.
  - by intros (a & -> & H).
Qed.

Lemma must_Ok {A} (r : result A) a : must r = Ok a <-> r = Ok a.
Proof. by destruct r. Qed.

Lemma index_Ok {A} (l : list A) i a :
  index l i = Ok a <-> 0 <= i /\ l !! Z.to_nat i = Some a.
Proof.
  unfold index. destruct (Z.ltb_spec i 0).
  - split; [done|]. intros []. lia.
  - destruct (l !! Z.to_nat i); split; intros; destruct_and?; simplify_eq; auto.
Qed.

Lemma index_in_range {A} (l : list A) i :
  0 <= i < Z.of_nat (length l) -> exists a, index l i = Ok a /\ l !! Z.to_nat i = Some a.
Proof.
  intros Hi. destruct (lookup_lt_is_Some_2 l (Z.to_nat i)) as [a Ha]; [lia|].
  exists a. rewrite index_Ok. split; [split|]; done || lia.
Qed.

Lemma index_out_of_range {A} (l : list A) i :
  i < 0 \/ Z.of_nat (length l) <= i -> index l i = Panic.
Proof.
  intros Hi. unfold index. destruct (Z.ltb_spec i 0); [done|].
  by rewrite (lookup_ge_None_2 l (Z.to_nat i)) by lia.
Qed.

Lemma store_at_Ok {A} (l l' : list A) i x :
  store_at l i x = Ok l' <->
  0 <= i < Z.of_nat (length l) /\ l' = <[Z.to_nat i := x]> l.
Proof.
  unfold store_at.
  destruct (Z.leb_spec 0 i), (Z.ltb_spec i (Z.of_nat (length l))); simpl;
    split; intros; destruct_and?; simplify_eq; try done; lia.
Qed.

(** Reads and writes at a position given as a [nat]. *)
Lemma index_nat {A} (l : list A) (i : nat) x : l !! i = Some x -> index l (Z.of_nat i) = Ok x.
Proof. intros Hx. apply index_Ok. split; [lia|]. by rewrite Nat2Z.id. Qed.

Lemma store_at_nat {A} (l : list A) (i : nat) x :
  (i < length l)%nat -> store_at l (Z.of_nat i) x = Ok (<[i := x]> l).
Proof. intros Hi. apply store_at_Ok. rewrite Nat2Z.id. split; [lia|done]. Qed.

(** Splits every [Ok] equation of a bind in the context. *)
Ltac simpl_result :=
  repeat match goal with
  | H : mbind _ _ = Ok _ |- _ =>
      let a := fresh "a" in let Ha := fresh "Ha" in
      apply bind_Ok in H as (a & Ha & H)
  | H : must _ = Ok _ |- _ => rewrite must_Ok in H
  | H : Ok _ = Ok _ |- _ => injection H as H
  | H : mret _ = Ok _ |- _ => injection H as H
  | H : Err _ = Ok _ |- _ => discriminate H
  | H : Panic = Ok _ |- _ => discriminate H
  | H : ?p = (_, _) |- _ => is_var p; subst p
  | H : (_, _) = (_, _) |- _ => injection H as H
  end.

(** ** Reachability: zero, one or several steps *)

Inductive star {St : Type} (step : St -> St -> Prop) : St -> St -> Prop :=
| star_refl s : star step s s
| star_step s1 s2 s3 : step s1 s2 -> star step s2 s3 -> star step s1 s3.

Lemma star_invariant {St} (step : St -> St -> Prop) (I : St -> Prop) :
  (forall s s', I s -> step s s' -> I s') ->
  forall s s', star step s s' -> I s -> I s'.
Proof. intros Hstep s s' Hs. induction Hs; eauto. Qed.

Lemma star_trans {St} (step : St -> St -> Prop) s1 s2 s3 : star step s1 s2 -> star step s2 s3 -> star step s1 s3.
Proof. induction 1; eauto using star. Qed.

Lemma star_snoc {St} (step : St -> St -> Prop) s1 s2 s3 : star step s1 s2 -> step s2 s3 -> star step s1 s3.
Proof. induction 1; intros Hs; eauto using star. Qed.

(** ** Integer ranges of a loop [for i := a; i < b; i++] *)

Definition zseq (a b : Z) : list Z := seqZ a (b - a).

Lemma elem_of_zseq a b k : k ∈ zseq a b <-> a <= k < b.
Proof. unfold zseq. rewrite elem_of_seqZ. lia. Qed.

Lemma zseq_nil a b : b <= a -> zseq a b = [].
Proof. intros. unfold zseq. apply seqZ_nil. lia. Qed.

Lemma zseq_cons a b : a < b -> zseq a b = a :: zseq (a + 1) b.
Proof.
  intros. unfold zseq. rewrite seqZ_cons by lia. f_equal. f_equal; lia.
Qed.

Lemma zseq_app a b c : a <= b <= c -> zseq a c = zseq a b ++ zseq b c.
Proof.
  intros. unfold zseq. replace (c - a) with ((b - a) + (c - b)) by lia.
  rewrite seqZ_app by lia. by replace (a + (b - a)) with b by lia.
Qed.

Lemma NoDup_zseq a b : NoDup (zseq a b).
Proof. apply NoDup_seqZ. Qed.

Lemma length_zseq a b : length (zseq a b) = Z.to_nat (b - a).
Proof. apply length_seqZ. Qed.

(** ** Counting the elements of a list that satisfy a boolean test *)

Fixpoint count {A} (p : A -> bool) (l : list A) : Z :=
  match l with
  | [] => 0
  | x :: l => Z.b2z (p x) + count p l
  end.

Lemma count_nonneg {A} (p : A -> bool) l : 0 <= count p l.
Proof. induction l as [|x l IH]; simpl; [lia|]. destruct (p x); simpl; lia. Qed.

Lemma count_le_length {A} (p : A -> bool) l : count p l <= Z.of_nat (length l).
Proof. induction l as [|x l IH]; simpl; [lia|]. destruct (p x); simpl; lia. Qed.

Lemma count_ext {A} (p q : A -> bool) l :
  (forall x, x ∈ l -> p x = q x) -> count p l = count q l.
Proof.
  induction l as [|x l IH]; intros Hpq; simpl; [done|].
  rewrite (Hpq x) by set_solver. rewrite IH; set_solver.
Qed.

Lemma count_app {A} (p : A -> bool) l1 l2 : count p (l1 ++ l2) = count p l1 + count p l2.
Proof. induction l1 as [|x l1 IH]; simpl; lia. Qed.

Lemma count_filter {A} (p : A -> bool) l :
  Z.of_nat (length (filter (fun x => p x = true) l)) = count p l.
Proof.
  induction l as [|x l IH]; simpl; [done|]. rewrite filter_cons.
  case_decide as Hp; simpl; [rewrite Hp|rewrite (not_true_is_false _ Hp)]; simpl; lia.
Qed.

Lemma count_pos {A} (p : A -> bool) l : 0 < count p l <-> exists x, x ∈ l /\ p x = true.
Proof.
  induction l as [|x l IH]; simpl.
  - split; [lia|]. intros (x & Hx & _). by apply not_elem_of_nil in Hx.
  - pose proof (count_nonneg p l). destruct (p x) eqn:E; simpl.
    + split; [|lia]. intros _. exists x. split; [left|done].
    + rewrite Z.add_0_l, IH. split; intros (y & Hy & Hpy); exists y.
      * split; [by right|done].
      * apply elem_of_cons in Hy as [->|Hy]; [congruence|done].
Qed.

(** Changing the test at one element of a duplicate-free list. *)
Lemma count_update {A} `{EqDecision A} (p q : A -> bool) l k :
  NoDup l -> k ∈ l -> (forall x, x ≠ k -> p x = q x) ->
  count p l = count q l + Z.b2z (p k) - Z.b2z (q k).
Proof.
  intros Hnd Hk Hpq. induction Hnd as [|x l Hx Hnd IH]; [by apply not_elem_of_nil in Hk|].
  simpl. apply elem_of_cons in Hk as [->|Hk].
  - rewrite (count_ext p q l); [lia|]. intros y Hy. apply Hpq. by intros ->.
  - rewrite IH, (Hpq x) by (done || by intros ->). lia.
Qed.

(** ** Filtering *)

Lemma filter_none {A} (P : A -> Prop) `{forall x, Decision (P x)} (l : list A) :
  (forall x, x ∈ l -> ¬ P x) -> filter P l = [].
Proof.
  induction l as [|x l IH]; intros Hl; [done|].
  rewrite filter_cons_False by (apply Hl; left). apply IH. intros y Hy. apply Hl. by right.
Qed.

Lemma list_filter_app {A} (P : A -> Prop) `{forall x, Decision (P x)} (l1 l2 : list A) :
  filter P (l1 ++ l2) = filter P l1 ++ filter P l2.
Proof.
  induction l1 as [|x l1 IH]; [done|]. simpl. rewrite !filter_cons, IH.
  by case_decide.
Qed.

Lemma filter_ext_in {A} (P Q : A -> Prop) `{forall x, Decision (P x)} `{forall x, Decision (Q x)}
    (l : list A) :
  (forall x, x ∈ l -> P x <-> Q x) -> filter P l = filter Q l.
Proof.
  induction l as [|x l IH]; intros Hl; [done|]. rewrite !filter_cons.
  rewrite IH by (intros; apply Hl; by right).
  pose proof (Hl x ltac:(left)). do 2 case_decide; tauto || done.
Qed.

Lemma length_filter_complement {A} (P : A -> Prop) `{forall x, Decision (P x)} (l : list A) :
  (length (filter P l) + length (filter (fun x => ¬ P x) l))%nat = length l.
Proof.
  induction l as [|x l IH]; [done|]. rewrite !filter_cons.
  destruct (decide (P x)); [rewrite (decide_False (P := ¬ P x)) by tauto|
                            rewrite (decide_True (P := ¬ P x)) by tauto]; simpl; lia.
Qed.

(** ** Iterating over a map

    [for k := range m] visits every key once, in an order that the language
    leaves open: the order is a parameter with this property. *)

Class MapOrder {K V : Type} `{Countable K} (iter : gmap K V -> list K) : Prop := {
  map_order_nodup m : NoDup (iter m);
  map_order_elem m k : k ∈ iter m <-> is_Some (m !! k);
}.

Definition keysInOrder {K V : Type} `{Countable K} (m : gmap K V) : list K := (map_to_list m).*1.

#[export] Instance keysInOrder_ok {K V} `{Countable K} : MapOrder (K := K) (V := V) keysInOrder.
Proof.
  split; unfold keysInOrder; [intros; apply NoDup_fst_map_to_list|]. intros m k.
  rewrite list_elem_of_fmap. split.
  - intros ([k' x] & -> & Hin). apply elem_of_map_to_list in Hin. by exists x.
  - intros [x Hx]. exists (k, x). split; [done|]. by apply elem_of_map_to_list.
Qed.

Lemma NoDup_keys_disjoint {A} (l : list A) x l' : NoDup (l ++ x :: l') -> x ∉ l.
Proof. intros Hnd Hx. apply list.NoDup_app in Hnd as (_ & Hd & _). by apply (Hd x Hx); left. Qed.
