(* ===== verification/GoBytes.v ===== *)
(** * Bytes, byte slices and fixed-width encodings

    What the client uses of Go's [[]byte], [encoding/binary], [bytes.Buffer]
    and [time.Time]: bytes, little- and big-endian integers, and slices as
    views into a backing array, so that a write through one slice is seen
    through every other slice of the same array. *)

From S2P Require Import Prelude.

(** ** Bytes *)

Definition Z_of_byte (b : byte) : Z := Z.of_N (Byte.to_N b).
Definition byte_of_Z (z : Z) : byte := default x00 (Byte.of_N (Z.to_N (z mod 256))).

#[export] Instance byte_eq_dec : EqDecision byte := Byte.byte_eq_dec.
#[export] Instance byte_countable : Countable byte :=
  inj_countable Byte.to_N Byte.of_N Byte.of_to_N.

Lemma Z_of_byte_range b : 0 <= Z_of_byte b < 256.
Proof. unfold Z_of_byte. pose proof (Byte.to_N_bounded b). lia. Qed.

Lemma Z_of_byte_of_Z z : Z_of_byte (byte_of_Z z) = z mod 256.
Proof.
  unfold Z_of_byte, byte_of_Z.
  pose proof (Z.mod_pos_bound z 256 ltac:(lia)).
  pose proof (Byte.to_of_N_option_map (Z.to_N (z mod 256))) as Hof.
  destruct (Byte.of_N (Z.to_N (z mod 256))) as [b|]; simpl in *.
  - destruct (N.leb_spec (Z.to_N (z mod 256)) 255); [|done].
    injection Hof as ->. lia.
  - destruct (N.leb_spec (Z.to_N (z mod 256)) 255); [done|]. lia.
Qed.

Lemma byte_of_Z_of_byte b : byte_of_Z (Z_of_byte b) = b.
Proof.
  unfold byte_of_Z. rewrite Z.mod_small by apply Z_of_byte_range.
  unfold Z_of_byte. by rewrite N2Z.id, Byte.of_to_N.
Qed.

Lemma Z_of_byte_inj a b : Z_of_byte a = Z_of_byte b -> a = b.
Proof. intros H. by rewrite <- (byte_of_Z_of_byte a), H, byte_of_Z_of_byte. Qed.

(** ** Fixed-width integers *)

Fixpoint le_encode (n : nat) (z : Z) : list byte :=
  match n with
  | O => []
  | S n => byte_of_Z z :: le_encode n (z / 256)
  end.

Fixpoint le_decode (bs : list byte) : Z :=
  match bs with
  | [] => 0
  | b :: bs => Z_of_byte b + 256 * le_decode bs
  end.

Definition be_encode (n : nat) (z : Z) : list byte := reverse (le_encode n z).
Definition be_decode (bs : list byte) : Z := le_decode (reverse bs).

Lemma length_le_encode n z : length (le_encode n z) = n.
Proof. revert z. induction n as [|n IH]; intros z; simpl; [done|]. by rewrite IH. Qed.

Lemma length_be_encode n z : length (be_encode n z) = n.
Proof. unfold be_encode. by rewrite length_reverse, length_le_encode. Qed.

Lemma le_decode_encode n z : le_decode (le_encode n z) = z mod 256 ^ Z.of_nat n.
Proof.
  revert z. induction n as [|n IH]; intros z.
  - simpl. by rewrite Z.pow_0_r, Z.mod_1_r.
  - cbn [le_encode le_decode]. rewrite IH, Z_of_byte_of_Z, Nat2Z.inj_succ, Z.pow_succ_r by lia.
    by rewrite Z.rem_mul_r by lia.
Qed.

Lemma le_decode_range bs : 0 <= le_decode bs < 256 ^ Z.of_nat (length bs).
Proof.
  induction bs as [|b bs IH]; [done|]. cbn [le_decode length].
  rewrite Nat2Z.inj_succ, Z.pow_succ_r by lia.
  pose proof (Z_of_byte_range b). lia.
Qed.

Lemma le_encode_decode bs : le_encode (length bs) (le_decode bs) = bs.
Proof.
  induction bs as [|b bs IH]; [done|]. cbn [le_decode length le_encode].
  pose proof (Z_of_byte_range b). f_equal.
  - apply Z_of_byte_inj. rewrite Z_of_byte_of_Z. zlia.
  - replace ((Z_of_byte b + 256 * le_decode bs) / 256) with (le_decode bs) by zlia. done.
Qed.

Lemma be_decode_encode n z : be_decode (be_encode n z) = z mod 256 ^ Z.of_nat n.
Proof. unfold be_decode, be_encode. by rewrite reverse_involutive, le_decode_encode. Qed.

Lemma be_encode_decode bs : be_encode (length bs) (be_decode bs) = bs.
Proof.
  unfold be_decode, be_encode.
  rewrite <- (length_reverse bs), le_encode_decode. apply reverse_involutive.
Qed.

Lemma be_decode_range bs : 0 <= be_decode bs < 256 ^ Z.of_nat (length bs).
Proof. unfold be_decode. rewrite <- (length_reverse bs). apply le_decode_range. Qed.

Lemma pow256 n : 256 ^ Z.of_nat n = 2 ^ (8 * Z.of_nat n).
Proof. by rewrite Z.pow_mul_r by lia. Qed.

Lemma le_decode_encode_u n z : is_u (8 * Z.of_nat n) z -> le_decode (le_encode n z) = z.
Proof. intros Hz. rewrite le_decode_encode, pow256. by apply wrapu_small. Qed.

Lemma be_decode_encode_u n z : is_u (8 * Z.of_nat n) z -> be_decode (be_encode n z) = z.
Proof. intros Hz. rewrite be_decode_encode, pow256. by apply wrapu_small. Qed.

(** ** A byte form of numbers, for examples

    The binary digits, lowest first. *)

Fixpoint posBytes (p : positive) : list byte :=
  match p with
  | xI p => x01 :: posBytes p
  | xO p => x00 :: posBytes p
  | xH => []
  end.

Fixpoint bytesPos (b : list byte) : positive :=
  match b with
  | [] => xH
  | x00 :: b => xO (bytesPos b)
  | _ :: b => xI (bytesPos b)
  end.

Lemma bytesPos_posBytes p : bytesPos (posBytes p) = p.
Proof. induction p as [p IH|p IH|]; simpl; congruence. Qed.

(** ** Timestamps

    A [time.Time] is its number of nanoseconds since the Unix epoch; location
    and monotonic reading play no part in the modelled code. *)

Definition Time := Z.

(** [time.Time{}]: January 1, year 1, 00:00:00 UTC. *)
Definition zeroTime : Time := -62135596800 * 1000000000.

(** [t.UnixNano()] *)
Definition UnixNano (t : Time) : Z := i64 t.

(** [time.Unix(0, int64(x))] of a [uint64] [x]. *)
Definition time_of_u64 (x : Z) : Time := i64 x.

Lemma time_u64_roundtrip t :
  - 2 ^ 63 <= t < 2 ^ 63 -> time_of_u64 (u64 (UnixNano t)) = t.
Proof.
  intros Ht. unfold time_of_u64, UnixNano.
  rewrite wraps_wrapu by lia.
  assert (wraps 64 t = t) as Ht' by (apply wraps_small; lia). by rewrite !Ht'.
Qed.

(** ** Byte slices as views of a backing array *)

(** A slice header: the offset in the backing array and the length.  The
    capacity is what is left of the array after the offset. *)
Record slice := Slice { s_off : nat; s_len : nat }.

#[export] Instance slice_eq_dec : EqDecision slice.
Proof. solve_decision. Defined.

Definition s_cap (mem : list byte) (s : slice) : nat := length mem - s_off s.

(** The slice of a whole array. *)
Definition whole (mem : list byte) : slice := Slice 0 (length mem).

(** [s[a:b]]: the bounds are checked against the capacity. *)
Definition reslice (mem : list byte) (s : slice) (a b : Z) : result slice :=
  if (0 <=? a) && (a <=? b) && (b <=? Z.of_nat (s_cap mem s))
  then Ok (Slice (s_off s + Z.to_nat a) (Z.to_nat (b - a)))
  else Panic.

(** The bytes a slice shows. *)
Definition sread (mem : list byte) (s : slice) : list byte :=
  take (s_len s) (drop (s_off s) mem).

(** The array with [bs] written at an offset. *)
Definition splice (mem : list byte) (off : nat) (bs : list byte) : list byte :=
  take off mem ++ bs ++ drop (off + length bs) mem.

(** [copy(s, src)]: copies the shorter of the two lengths. *)
Definition scopy (mem : list byte) (s : slice) (src : list byte) : list byte :=
  splice mem (s_off s) (take (s_len s) src).

(** [s[i] = b] *)
Definition sset (mem : list byte) (s : slice) (i : nat) (b : byte) : result (list byte) :=
  if decide (i < s_len s)%nat then Ok (splice mem (s_off s + i) [b]) else Panic.

(** [s[i]] *)
Definition sget (mem : list byte) (s : slice) (i : nat) : result byte :=
  match sread mem s !! i with
  | Some b => Ok b
  | None => Panic
  end.

(** [binary.BigEndian.PutUint32(s, z)] and the like for [n] bytes: panics when
    the slice is shorter. *)
Definition sput_be (n : nat) (mem : list byte) (s : slice) (z : Z) : result (list byte) :=
  if decide (n <= s_len s)%nat then Ok (splice mem (s_off s) (be_encode n z)) else Panic.

Definition sget_be (n : nat) (mem : list byte) (s : slice) : result Z :=
  if decide (n <= s_len s)%nat then Ok (be_decode (take n (sread mem s))) else Panic.

(** [binary.LittleEndian.Uint32(b)] and the like on a plain byte string. *)
Definition get_le (n : nat) (bs : list byte) : result Z :=
  if decide (n <= length bs)%nat then Ok (le_decode (take n bs)) else Panic.

Definition get_be (n : nat) (bs : list byte) : result Z :=
  if decide (n <= length bs)%nat then Ok (be_decode (take n bs)) else Panic.

(** [copy(arr[:], src)] into a zeroed array of [n] bytes. *)
Definition array_of (n : nat) (src : list byte) : list byte :=
  take n src ++ replicate (n - length src) x00.

Lemma array_of_length (n : nat) (l : list byte) : length l = n -> array_of n l = l.
Proof. intros <-. unfold array_of. rewrite firstn_all, Nat.sub_diag. apply app_nil_r. Qed.

Lemma length_array_of n src : length (array_of n src) = n.
Proof. unfold array_of. rewrite length_app, length_take, length_replicate. lia. Qed.

Lemma array_of_id n src : length src = n -> array_of n src = src.
Proof.
  intros <-. unfold array_of. rewrite firstn_all, Nat.sub_diag. simpl. by rewrite app_nil_r.
Qed.

Lemma length_splice mem off bs :
  (off + length bs <= length mem)%nat -> length (splice mem off bs) = length mem.
Proof.
  intros. unfold splice. rewrite !length_app, length_take, length_drop. lia.
Qed.

(** Reading what was written. *)
Lemma read_splice_eq mem off bs :
  (off + length bs <= length mem)%nat ->
  take (length bs) (drop off (splice mem off bs)) = bs.
Proof.
  intros. unfold splice.
  rewrite drop_app_length' by (rewrite length_take; lia).
  by rewrite take_app_length' by lia.
Qed.

(** Reading a region before or after the written one. *)
Lemma read_splice_ne mem off bs o n :
  (off + length bs <= length mem)%nat ->
  (o + n <= off)%nat \/ (off + length bs <= o)%nat ->
  take n (drop o (splice mem off bs)) = take n (drop o mem).
Proof.
  intros Hlen Hdis. apply list_eq. intros i. destruct (decide (i < n)%nat) as [Hi|Hi].
  - rewrite !lookup_take_lt, !lookup_drop by lia. unfold splice.
    destruct Hdis.
    + rewrite lookup_app_l by (rewrite length_take; lia). by rewrite lookup_take_lt by lia.
    + rewrite lookup_app_r by (rewrite length_take; lia).
      rewrite lookup_app_r by (rewrite length_take; lia).
      rewrite lookup_drop, !length_take. f_equal. lia.
  - by rewrite !lookup_take_ge by lia.
Qed.

(** Reading a prefix of what was written. *)
Lemma read_splice_prefix mem off bs n :
  (off + length bs <= length mem)%nat -> (n <= length bs)%nat ->
  take n (drop off (splice mem off bs)) = take n bs.
Proof.
  intros Hlen Hn. rewrite <- (read_splice_eq mem off bs) at 2 by done.
  by rewrite take_take, Nat.min_l by lia.
Qed.

Lemma get_le_encode n z : is_u (8 * Z.of_nat n) z -> get_le n (le_encode n z) = Ok z.
Proof.
  intros Hz. unfold get_le. rewrite decide_True by (by rewrite length_le_encode).
  rewrite take_ge by (by rewrite length_le_encode). by rewrite le_decode_encode_u.
Qed.

Lemma get_be_encode n z : is_u (8 * Z.of_nat n) z -> get_be n (be_encode n z) = Ok z.
Proof.
  intros Hz. unfold get_be. rewrite decide_True by (by rewrite length_be_encode).
  rewrite take_ge by (by rewrite length_be_encode). by rewrite be_decode_encode_u.
Qed.

Create HintDb slices.
#[export] Hint Rewrite length_le_encode length_be_encode length_array_of : slices.

(** ** Arrays made of segments

    A structured array is the concatenation of its fields; a write that fills a
    field replaces that segment, and reading a field gives it back. *)

Definition segOff (segs : list (list byte)) (i : nat) : nat := length (concat (take i segs)).

Lemma concat_split (segs : list (list byte)) i b :
  segs !! i = Some b ->
  concat segs = concat (take i segs) ++ b ++ concat (drop (S i) segs).
Proof.
  intros Hi. rewrite <- (take_drop_middle segs i b Hi) at 1. by rewrite concat_app.
Qed.

Lemma seg_splice segs i b b' :
  segs !! i = Some b -> length b' = length b ->
  splice (concat segs) (segOff segs i) b' = concat (<[i := b']> segs).
Proof.
  intros Hi Hlen. rewrite (concat_split segs i b Hi). unfold splice, segOff.
  rewrite take_app_length. rewrite drop_app_ge by lia.
  replace (length (concat (take i segs)) + length b' - length (concat (take i segs)))%nat
    with (length b) by lia.
  rewrite drop_app_length. pose proof (lookup_lt_Some _ _ _ Hi) as Hlt.
  rewrite insert_take_drop by done. by rewrite concat_app.
Qed.

Lemma seg_read segs i b :
  segs !! i = Some b -> sread (concat segs) (Slice (segOff segs i) (length b)) = b.
Proof.
  intros Hi. unfold sread, segOff. simpl. rewrite (concat_split segs i b Hi).
  rewrite drop_app_length. apply take_app_length.
Qed.

(** A prefix of a field. *)
Lemma seg_read_prefix segs i b n :
  segs !! i = Some b -> (n <= length b)%nat ->
  sread (concat segs) (Slice (segOff segs i) n) = take n b.
Proof.
  intros Hi Hn. unfold sread, segOff. simpl. rewrite (concat_split segs i b Hi).
  rewrite drop_app_length. by apply take_app_le.
Qed.

(** Solves [off = segOff segs i] for explicit segments of known lengths. *)
Ltac seg_off :=
  unfold segOff; cbn [take concat]; rewrite ?length_app; autorewrite with slices;
  cbn [length]; rewrite ?length_replicate; lia.

(** ** Operations on an array of segments *)

(** [make([]byte, size)] *)
Definition makeBytes (size : Z) : result (list byte) :=
  if size <? 0 then Panic else Ok (replicate (Z.to_nat size) x00).

Lemma reslice_whole data a b :
  0 <= a <= b -> b <= Z.of_nat (length data) ->
  reslice data (whole data) a b = Ok (Slice (Z.to_nat a) (Z.to_nat (b - a))).
Proof.
  intros Hab Hb. unfold reslice, s_cap, whole. simpl.
  rewrite (proj2 (Z.leb_le 0 a)), (proj2 (Z.leb_le a b)), (proj2 (Z.leb_le b _)) by lia. done.
Qed.

(** A write that fills a segment of an array given by its segments. *)
Lemma sput_seg n segs i b off len z :
  segs !! i = Some b -> length b = n -> off = segOff segs i -> (n <= len)%nat ->
  sput_be n (concat segs) (Slice off len) z = Ok (concat (<[i := be_encode n z]> segs)).
Proof.
  intros Hi Hn -> Hle. unfold sput_be. simpl. rewrite decide_True by done.
  by rewrite (seg_splice segs i b) by (done || rewrite length_be_encode; done).
Qed.

Lemma sset_seg segs i b0 off b :
  segs !! i = Some [b0] -> off = segOff segs i ->
  sset (concat segs) (Slice off 1) 0 b = Ok (concat (<[i := [b]]> segs)).
Proof.
  intros Hi ->. unfold sset. cbn [s_len s_off]. rewrite decide_True by lia.
  rewrite Nat.add_0_r. by rewrite (seg_splice segs i [b0]) by done.
Qed.

Lemma scopy_seg segs i b off c :
  segs !! i = Some b -> length b = length c -> off = segOff segs i ->
  scopy (concat segs) (Slice off (length c)) c = concat (<[i := c]> segs).
Proof.
  intros Hi Hn ->. unfold scopy. cbn [s_len s_off]. rewrite firstn_all.
  by rewrite (seg_splice segs i b).
Qed.

Lemma reslice_prefix mem s n :
  0 <= n -> (s_off s + Z.to_nat n <= length mem)%nat ->
  reslice mem s 0 n = Ok (Slice (s_off s) (Z.to_nat n)).
Proof.
  intros Hn Hle. unfold reslice, s_cap.
  rewrite (proj2 (Z.leb_le 0 n)), (proj2 (Z.leb_le n _)) by lia. simpl.
  by rewrite Nat.add_0_r, Z.sub_0_r.
Qed.

(** Field reads of an array given by its segments. *)
Lemma sget_be_seg n segs i z off :
  segs !! i = Some (be_encode n z) -> off = segOff segs i ->
  sget_be n (concat segs) (Slice off n) = Ok (z `mod` 256 ^ Z.of_nat n).
Proof.
  intros Hi ->. unfold sget_be. cbn [s_len]. rewrite decide_True by done.
  rewrite <- (length_be_encode n z) at 2. rewrite (seg_read _ _ _ Hi).
  rewrite take_ge by (rewrite length_be_encode; done). by rewrite be_decode_encode.
Qed.

Lemma sget_seg segs i b off :
  segs !! i = Some [b] -> off = segOff segs i -> sget (concat segs) (Slice off 1) 0 = Ok b.
Proof.
  intros Hi ->. unfold sget.
  change 1%nat with (length [b]). by rewrite (seg_read _ _ _ Hi).
Qed.

Lemma sread_seg segs i b off n :
  segs !! i = Some b -> off = segOff segs i -> n = length b ->
  sread (concat segs) (Slice off n) = b.
Proof. intros Hi -> ->. by apply seg_read. Qed.

(** A zeroed array, cut into zeroed segments. *)
Lemma zero_segs (ns : list nat) :
  concat (map (fun n => replicate n x00) ns) = replicate (sum_list ns) x00.
Proof. induction ns as [|n ns IH]; [done|]. simpl. by rewrite replicate_add, IH. Qed.

Lemma zero_cut (ns : list nat) size :
  size = sum_list ns -> replicate size x00 = concat (map (fun n => replicate n x00) ns).
Proof. intros ->. by rewrite zero_segs. Qed.

(** Side conditions of the segment lemmas. *)
Ltac seg_side :=
  lazymatch goal with
  | |- _ !! _ = Some _ => reflexivity
  | |- _ = segOff _ _ => seg_off
  | |- _ => rewrite ?length_be_encode, ?length_replicate; lia || done
  end.

Ltac seg_go := cbn [mbind result_bind insert list_insert].

Lemma Z_of_byte_of_Z_u8 z : is_u 8 z -> Z_of_byte (byte_of_Z z) = z.
Proof. intros. rewrite Z_of_byte_of_Z. by apply (wrapu_small 8). Qed.
