(* ===== verification/KV.v ===== *)
(** * The versioned key-value store

    [collective/versioned]: the [Object] every component stores, and the local
    [kv] (prefixes, versioned keys, upgrades) over an [ekv.KeyValue].  The
    [ekv] package is not part of this repository: it is the class [EKV], with
    what its documentation promises as the class [EKVLaws].  Components take
    the interface and are proved against the laws; [MemStore] is a concrete
    instance that shows they can hold. *)

From Stdlib Require Import Ascii.
From S2P Require Import Prelude GoBytes.

(** ** Objects *)

Record Object := mkObject {
  Version : Z;            (* uint64 *)
  Timestamp : Time;
  Data : list byte;
}.

(** [Object{}] *)
Definition emptyObject : Object := mkObject 0 zeroTime [].

(** ** The interface of the underlying store *)

Class EKV (S : Type) := {
  ekv_Get : S -> string -> error + Object;
  ekv_Set : S -> string -> Object -> S * option error;
  ekv_Delete : S -> string -> S * option error;
  ekv_Exists : error -> bool;
}.
Arguments ekv_Exists S {_} e.

(** What a successful operation promises.  Nothing is promised about the key
    written when an operation fails.  [ekv.Exists] looks for the missing-object
    message anywhere in the error, so wrapping does not change its answer. *)
Class EKVLaws (S : Type) `{EKV S} := {
  ekv_get_set_eq s k o s' :
    ekv_Set s k o = (s', None) -> ekv_Get s' k = inr o;
  ekv_get_set_ne s k k' o s' r :
    ekv_Set s k o = (s', r) -> k ≠ k' -> ekv_Get s' k' = ekv_Get s k';
  ekv_get_delete_eq s k s' :
    ekv_Delete s k = (s', None) -> exists e, ekv_Get s' k = inl e /\ ekv_Exists S e = false;
  ekv_get_delete_ne s k k' s' r :
    ekv_Delete s k = (s', r) -> k ≠ k' -> ekv_Get s' k' = ekv_Get s k';
  ekv_exists_wrap fmt args e : ekv_Exists S (Wrapf fmt args e) = ekv_Exists S e;
}.

(** A store whose writes and deletes do not fail. *)
Class EKVReliable (S : Type) `{EKV S} := {
  ekv_set_ok s k o : snd (ekv_Set s k o) = None;
  ekv_delete_ok s k : snd (ekv_Delete s k) = None;
}.

(** ** An in-memory store *)

Abbreviation MemStore := (gmap string Object).

Definition errNotFound : error := Errorf "object not found" [].

(** The error at the bottom of a chain of wrapped errors. *)
Fixpoint rootCause (e : error) : error :=
  match e with
  | Wrapf _ _ e => rootCause e
  | Errorf _ _ => e
  end.

#[export] Instance MemStore_EKV : EKV MemStore := {
  ekv_Get s k := match s !! k with Some o => inr o | None => inl errNotFound end;
  ekv_Set s k o := (<[k := o]> s, None);
  ekv_Delete s k := (delete k s, None);
  ekv_Exists e := negb (bool_decide (rootCause e = errNotFound));
}.

#[export] Instance MemStore_laws : EKVLaws MemStore.
Proof.
  split; simpl; intros; simplify_eq; simplify_map_eq; [done|done| |done|done].
  eexists. split; [done|]. by rewrite bool_decide_true.
Qed.

#[export] Instance MemStore_reliable : EKVReliable MemStore.
Proof. by split. Qed.

(** ** Network identities

    [id.ID] of the [primitives] package: a fixed-size value, used as a map key,
    printed in base 64 to make storage keys. *)

Class NetID (ID : Type) := {
  netid_eq_dec :: EqDecision ID;
  netid_countable :: Countable ID;
  id_String : ID -> string;
  id_Bytes : ID -> list byte;
  id_Unmarshal : list byte -> ID;
}.

Class NetIDLaws (ID : Type) `{NetID ID} := {
  id_String_inj a b : id_String a = id_String b -> a = b;
  id_Unmarshal_Bytes a : id_Unmarshal (id_Bytes a) = a;
}.

(** Identities for examples: numbers, printed in decimal. *)
#[export] Instance Z_NetID : NetID Z := {
  id_String z := pretty z;
  id_Bytes z := posBytes (encode z);
  id_Unmarshal b := default 0 (decode (bytesPos b));
}.

#[export] Instance Z_NetID_laws : NetIDLaws Z.
Proof.
  split.
  - intros a b Heq. by apply (inj pretty) in Heq.
  - intros a. unfold id_Unmarshal, id_Bytes, Z_NetID. by rewrite bytesPos_posBytes, decode_encode.
Qed.

(** [MakePartnerPrefix] *)
Definition MakePartnerPrefix {ID} `{NetID ID} (p : ID) : string := "Partner:" +:+ id_String p.

(** ** The local versioned store *)

(** A handle: the store itself is threaded through the operations. *)
Record kv := mkKV {
  prefix : string;
  prefixMap : gmap string Z;
  offset : Z;
}.

Definition PrefixSeparator : Ascii.ascii := "\"%char.
Definition EmptyPrefixErr : error := Errorf "empty prefix" [].
Definition PrefixContainingSeparatorErr : error :=
  Errorf "cannot accept prefix with the default separator" [].
Definition DuplicatePrefixErr : error :=
  Errorf "prefix has already been added, cannot overwrite" [].

(** [strings.Contains(s, string(c))] *)
Fixpoint strContains (c : Ascii.ascii) (s : string) : bool :=
  match s with
  | EmptyString => false
  | String a s => Ascii.eqb a c || strContains c s
  end.

(** [NewKV]: no prefix. *)
Definition NewKV : kv := mkKV "" ∅ 0.

Definition kv_makeKey (v : kv) (key : string) (version : Z) : string :=
  prefix v +:+ key +:+ "_" +:+ pretty (i64 version).

Definition kv_HasPrefix (v : kv) (p : string) : bool :=
  match prefixMap v !! p with Some _ => true | None => false end.

Definition kv_Prefix (v : kv) (p : string) : result kv :=
  if String.eqb p "" then Err (Wrapf "" [] EmptyPrefixErr)
  else if strContains PrefixSeparator p then
    Err (Wrapf "prefix: %s" [] PrefixContainingSeparatorErr)
  else if kv_HasPrefix v p then Err (Wrapf "%s: %s" [] DuplicatePrefixErr)
  else Ok {| prefix := prefix v +:+ p +:+ String PrefixSeparator "";
             prefixMap := <[p := offset v + 1]> (prefixMap v);
             offset := offset v + 1 |}.

Definition kv_Root (v : kv) : kv := mkKV "" ∅ 0.

(** Upgrade tables *)
Definition Upgrade := Object -> result Object.
Record UpgradeTable := mkUpgradeTable {
  CurrentVersion : Z;
  Table : list Upgrade;
}.

Section operations.
Context {S : Type} `{EKV S}.

Definition kv_Get (v : kv) (s : S) (key : string) (version : Z) : error + Object :=
  ekv_Get s (kv_makeKey v key version).

Definition kv_Set (v : kv) (s : S) (key : string) (o : Object) : S * option error :=
  ekv_Set s (kv_makeKey v key (Version o)) o.

Definition kv_Delete (v : kv) (s : S) (key : string) (version : Z) : S * option error :=
  ekv_Delete s (kv_makeKey v key version).

(** The first loop of [GetAndUpgrade]: [n] is the value of [version] at the
    loop test; the newest stored version at or below [n-1] is taken, and the
    last object tried is the empty one when there is none. *)
Fixpoint kv_findNewest (v : kv) (s : S) (baseKey : string) (n : nat)
    (last : option Object) : option Object :=
  match n with
  | O => last
  | Datatypes.S n' =>
      match kv_Get v s baseKey (Z.of_nat n') with
      | inr o => Some o
      | inl _ => kv_findNewest v s baseKey n' (Some emptyObject)
      end
  end.

(** The second loop: one table entry per round, until the object's version
    reaches the table's length.  [fuel] bounds the rounds. *)
Fixpoint kv_upgradeLoop (fuel : nat) (t : list Upgrade) (o : Object) : result Object :=
  if Version o <? Z.of_nat (length t) then
    match fuel with
    | O => Panic
    | Datatypes.S fuel =>
        match index t (Version o) with
        | Ok up =>
            match up o with
            | Ok o' =>
                if Version o' =? Version o then Panic else kv_upgradeLoop fuel t o'
            | _ => Panic
            end
        | _ => Panic
        end
    end
  else Ok o.

Definition kv_GetAndUpgrade (v : kv) (s : S) (key : string) (ut : UpgradeTable) :
    result Object :=
  if negb (Z.of_nat (length (Table ut)) =? CurrentVersion ut) then Panic
  else
    match kv_findNewest v s key (Z.to_nat (u64 (CurrentVersion ut + 1))) None with
    | None => Err (Errorf "Failed to get key and upgrade it for %s" [])
    | Some o =>
        if (length (Data o) =? 0)%nat
        then Err (Errorf "Failed to get key and upgrade it for %s" [])
        else kv_upgradeLoop (length (Table ut)) (Table ut) o
    end.

End operations.

(** ** Key isolation *)

Section last_separator.
Context {A : Type} (c : A).

Definition closed (l : list A) : Prop := l = [] \/ exists l', l = l' ++ [c].

Lemma last_separator_inj l1 l2 r1 r2 :
  closed l1 -> closed l2 -> c ∉ r1 -> c ∉ r2 -> l1 ++ r1 = l2 ++ r2 -> l1 = l2 /\ r1 = r2.
Proof.
  intros H1 H2 Hr1 Hr2 Heq.
  destruct (app_eq_inv l1 r1 l2 r2 Heq) as [(k & -> & ->)|(k & -> & ->)].
  - destruct H1 as [H1|(l' & H1)].
    + apply app_eq_nil in H1 as [-> ->]. done.
    + destruct k as [|x k _] using rev_ind; [by rewrite app_nil_r|].
      rewrite app_assoc in H1. apply app_inj_tail in H1 as [_ ->].
      exfalso. apply Hr2. set_solver.
  - destruct H2 as [H2|(l' & H2)].
    + apply app_eq_nil in H2 as [-> ->]. done.
    + destruct k as [|x k _] using rev_ind; [by rewrite app_nil_r|].
      rewrite app_assoc in H2. apply app_inj_tail in H2 as [_ ->].
      exfalso. apply Hr1. set_solver.
Qed.
End last_separator.

(** Strings as lists of characters. *)
Abbreviation chars := String.list_ascii_of_string.

Lemma chars_app s1 s2 : chars (s1 +:+ s2) = chars s1 ++ chars s2.
Proof. induction s1 as [|a s1 IH]; simpl; [done|]. by rewrite IH. Qed.

Lemma chars_inj s1 s2 : chars s1 = chars s2 -> s1 = s2.
Proof.
  intros Heq. rewrite <- (String.string_of_list_ascii_of_string s1), Heq.
  apply String.string_of_list_ascii_of_string.
Qed.

Lemma strContains_chars c s : strContains c s = false <-> c ∉ chars s.
Proof.
  induction s as [|a s IH]; simpl; [set_solver|].
  rewrite orb_false_iff, IH, Ascii.eqb_neq. set_solver.
Qed.

(** The decimal numerals of [strconv.Itoa] hold digits and the sign only. *)
Definition numeral_char (c : ascii) : Prop :=
  c = "-"%char \/ exists x : N, c = pretty_N_char x.

Lemma pretty_N_go_chars x s :
  (forall c, c ∈ chars s -> numeral_char c) ->
  forall c, c ∈ chars (pretty_N_go x s) -> numeral_char c.
Proof.
  revert s. induction (N.lt_wf_0 x) as [x _ IH]; intros s Hs.
  destruct (decide (0 < x)%N) as [Hx|Hx].
  - rewrite pretty_N_go_step by done. apply IH.
    + apply N.div_lt; lia.
    + simpl. intros c Hc. apply elem_of_cons in Hc as [->|Hc]; [right; eauto|by apply Hs].
  - assert (x = 0%N) as -> by lia. by rewrite pretty_N_go_0.
Qed.

Lemma pretty_Z_chars (z : Z) c : c ∈ chars (pretty z) -> numeral_char c.
Proof.
  assert (forall p : positive, forall c, c ∈ chars (pretty p) -> numeral_char c) as Hpos.
  { intros p c' Hc. unfold pretty, pretty_positive, pretty, pretty_N in Hc.
    case_decide; [done|]. eapply pretty_N_go_chars; [|done]. intros ? Hn. by apply not_elem_of_nil in Hn. }
  destruct z as [|p|p]; simpl.
  - intros Hc. right. exists 0%N. set_solver.
  - apply Hpos.
  - intros Hc. apply elem_of_cons in Hc as [->|Hc]; [by left|by eapply Hpos].
Qed.

Lemma numeral_char_not c : c = "_"%char \/ c = PrefixSeparator -> ¬ numeral_char c.
Proof.
  intros Hc [Hn|[x Hx]].
  - by destruct Hc; subst.
  - unfold pretty_N_char in Hx. destruct Hc; subst; by repeat case_match.
Qed.

Lemma pretty_no_sep (z : Z) : PrefixSeparator ∉ chars (pretty z).
Proof. intros Hc. apply pretty_Z_chars in Hc. apply numeral_char_not in Hc; auto. Qed.

Lemma pretty_no_underscore (z : Z) : "_"%char ∉ chars (pretty z).
Proof. intros Hc. apply pretty_Z_chars in Hc. apply numeral_char_not in Hc; auto. Qed.

(** The handles a program can make: the root and what [Prefix] derives. *)
Inductive kv_handle : kv -> Prop :=
| handle_new : kv_handle NewKV
| handle_prefix v p v' : kv_handle v -> kv_Prefix v p = Ok v' -> kv_handle v'.

Lemma kv_handle_closed v : kv_handle v -> closed PrefixSeparator (chars (prefix v)).
Proof.
  induction 1 as [|v p v' _ IH Hp]; [by left|].
  unfold kv_Prefix in Hp. repeat case_match; simplify_eq. simpl. right.
  exists (chars (prefix v) ++ chars p). by rewrite !chars_app, app_assoc.
Qed.

(** The part of a full key after the prefix determines the key and version. *)
Lemma key_version_inj k1 k2 (n1 n2 : Z) :
  k1 +:+ "_" +:+ pretty n1 = k2 +:+ "_" +:+ pretty n2 -> k1 = k2 /\ n1 = n2.
Proof.
  intros Heq. apply (f_equal chars) in Heq. rewrite !chars_app, !app_assoc in Heq.
  apply (last_separator_inj "_"%char) in Heq as [Hk Hn].
  - apply app_inj_tail in Hk as [Hk _]. split; [by apply chars_inj|].
    by apply chars_inj, (inj pretty) in Hn.
  - right. eauto.
  - right. eauto.
  - apply pretty_no_underscore.
  - apply pretty_no_underscore.
Qed.

(** Two handles derived from the root by [Prefix] give the same full key only
    for the same prefix, key and version, when the keys hold no separator and
    the versions fit an [int]. *)
Lemma kv_makeKey_inj v1 v2 k1 k2 n1 n2 :
  kv_handle v1 -> kv_handle v2 ->
  strContains PrefixSeparator k1 = false -> strContains PrefixSeparator k2 = false ->
  0 <= n1 < 2 ^ 63 -> 0 <= n2 < 2 ^ 63 ->
  kv_makeKey v1 k1 n1 = kv_makeKey v2 k2 n2 ->
  prefix v1 = prefix v2 /\ k1 = k2 /\ n1 = n2.
Proof.
  intros H1 H2 Hk1 Hk2 Hn1 Hn2 Heq. unfold kv_makeKey in Heq.
  rewrite !wraps_small in Heq by (simpl; lia).
  apply strContains_chars in Hk1, Hk2.
  assert (forall k (n : Z), PrefixSeparator ∉ chars k ->
    PrefixSeparator ∉ chars (k +:+ "_" +:+ pretty n)) as Hno.
  { intros k n Hk. rewrite !chars_app, !not_elem_of_app.
    split_and!; [done| |apply pretty_no_sep]. simpl. rewrite list_elem_of_singleton. done. }
  apply (f_equal chars) in Heq.
  rewrite (chars_app (prefix v1)), (chars_app (prefix v2)) in Heq.
  apply (last_separator_inj PrefixSeparator) in Heq as [Hp Hr];
    auto using kv_handle_closed.
  apply chars_inj in Hp, Hr. by apply key_version_inj in Hr.
Qed.

Section laws.
Context {S : Type} `{EKVLaws S}.

Lemma kv_get_set_eq v (s s' : S) key o :
  kv_Set v s key o = (s', None) -> kv_Get v s' key (Version o) = inr o.
Proof. apply ekv_get_set_eq. Qed.

Lemma kv_get_set_ne v v' (s s' : S) key key' o n r :
  kv_Set v s key o = (s', r) -> kv_makeKey v key (Version o) ≠ kv_makeKey v' key' n ->
  kv_Get v' s' key' n = kv_Get v' s key' n.
Proof. apply ekv_get_set_ne. Qed.

Lemma kv_get_delete_eq v (s s' : S) key n :
  kv_Delete v s key n = (s', None) ->
  exists e, kv_Get v s' key n = inl e /\ ekv_Exists S e = false.
Proof. apply ekv_get_delete_eq. Qed.

(** Keys of one handle and version: the frame of a write to another key. *)
Lemma kv_get_set_key v (s s' : S) key key' o r :
  kv_Set v s key o = (s', r) -> key ≠ key' -> 
  kv_Get v s' key' (Version o) = kv_Get v s key' (Version o).
Proof.
  intros Hset Hne. eapply kv_get_set_ne; [done|]. unfold kv_makeKey.
  intros Heq. apply (inj (String.append (prefix v))) in Heq.
  by apply key_version_inj in Heq as [].
Qed.

(** a write through a handle made by [Prefix] is read back through it,
    and changes nothing that is read under another prefix, key or version:
    the namespaces of the components sharing one store do not overlap. *)
Theorem kv_Set_isolated v v' (s s' : S) key key' o n r :
  kv_handle v -> kv_handle v' ->
  strContains PrefixSeparator key = false -> strContains PrefixSeparator key' = false ->
  0 <= Version o < 2 ^ 63 -> 0 <= n < 2 ^ 63 ->
  kv_Set v s key o = (s', r) ->
  (r = None -> kv_Get v s' key (Version o) = inr o) /\
  ((prefix v, key, Version o) ≠ (prefix v', key', n) ->
   kv_Get v' s' key' n = kv_Get v' s key' n).
Proof.
  intros Hv Hv' Hk Hk' Ho Hn Hset. split.
  - intros ->. by eapply kv_get_set_eq.
  - intros Hne. eapply kv_get_set_ne; [done|]. intros Heq. apply Hne.
    by apply kv_makeKey_inj in Heq as (-> & -> & ->).
Qed.
End laws.

(** ** Changes confined to a prefix *)

Lemma kv_get_delete_ne' {S} `{EKVLaws S} v v' (s s' : S) key key' n n' r :
  kv_Delete v s key n = (s', r) -> kv_makeKey v key n ≠ kv_makeKey v' key' n' ->
  kv_Get v' s' key' n' = kv_Get v' s key' n'.
Proof. apply ekv_get_delete_ne. Qed.

(** A change of the store that is confined to one prefix. *)
Definition confined {S} `{EKV S} (p : string) (s s' : S) : Prop :=
  forall v key n, kv_handle v -> strContains PrefixSeparator key = false -> 0 <= n < 2 ^ 63 ->
    prefix v ≠ p -> kv_Get v s' key n = kv_Get v s key n.

Section confined.
Context {S : Type} `{EKVLaws S}.

Lemma confined_refl p (s : S) : confined p s s.
Proof. by intros v key n. Qed.

Lemma confined_trans p (s1 s2 s3 : S) : confined p s1 s2 -> confined p s2 s3 -> confined p s1 s3.
Proof. intros H1 H2 v key n Hv Hk Hn Hp. by rewrite H2, H1. Qed.

Lemma kv_Set_confined v (s s' : S) key o r :
  kv_Set v s key o = (s', r) ->
  kv_handle v -> strContains PrefixSeparator key = false -> 0 <= Version o < 2 ^ 63 ->
  confined (prefix v) s s'.
Proof.
  intros Hset Hv Hk Ho v' key' n Hv' Hk' Hn Hp. eapply kv_get_set_ne; [done|].
  intros Heq. apply kv_makeKey_inj in Heq as (? & _ & _); congruence.
Qed.

Lemma kv_Delete_confined v (s s' : S) key n r :
  kv_Delete v s key n = (s', r) ->
  kv_handle v -> strContains PrefixSeparator key = false -> 0 <= n < 2 ^ 63 ->
  confined (prefix v) s s'.
Proof.
  intros Hdel Hv Hk Hn v' key' n' Hv' Hk' Hn' Hp. eapply kv_get_delete_ne'; [done|].
  intros Heq. apply kv_makeKey_inj in Heq as (? & _ & _); congruence.
Qed.
End confined.

Lemma chars_no_sep_app (s1 s2 : string) :
  strContains PrefixSeparator (s1 +:+ s2) =
    strContains PrefixSeparator s1 || strContains PrefixSeparator s2.
Proof. induction s1 as [|a s1 IH]; simpl; [done|]. by rewrite IH, orb_assoc. Qed.

Lemma kv_Prefix_Ok v p v' :
  kv_Prefix v p = Ok v' -> strContains PrefixSeparator p = false /\
    prefix v' = prefix v +:+ p +:+ String PrefixSeparator "".
Proof. unfold kv_Prefix. intros Hp. repeat case_match; simplify_eq. done. Qed.

Lemma kv_Prefix_inj v p1 p2 v1 v2 :
  kv_Prefix v p1 = Ok v1 -> kv_Prefix v p2 = Ok v2 -> prefix v1 = prefix v2 -> p1 = p2.
Proof.
  intros [_ Hp1]%kv_Prefix_Ok [_ Hp2]%kv_Prefix_Ok Heq. rewrite Hp1, Hp2 in Heq.
  apply (inj (String.append (prefix v))), (f_equal chars) in Heq. rewrite !chars_app in Heq.
  apply app_inj_tail in Heq as [Heq _]. by apply chars_inj.
Qed.

Lemma kv_Prefix_longer v p v' :
  kv_Prefix v p = Ok v' -> (length (chars (prefix v)) < length (chars (prefix v')))%nat.
Proof.
  intros [_ Hp]%kv_Prefix_Ok. rewrite Hp, !chars_app, !length_app. simpl. lia.
Qed.

Lemma kv_Prefix_ne v p v' : kv_Prefix v p = Ok v' -> prefix v' ≠ prefix v.
Proof. intros Hp%kv_Prefix_longer Heq. rewrite Heq in Hp. lia. Qed.

(** ** Handles below a handle *)

Definition below (v u : kv) : Prop := exists q, prefix u = prefix v +:+ q.

Lemma below_refl v : below v v.
Proof. exists "". apply chars_inj. by rewrite chars_app, app_nil_r. Qed.

Lemma below_prefix v p u : kv_Prefix v p = Ok u -> below v u.
Proof. intros [_ Hp]%kv_Prefix_Ok. by exists (p +:+ String PrefixSeparator ""). Qed.

Lemma below_ne v p vs u : kv_Prefix v p = Ok vs -> below vs u -> prefix u ≠ prefix v.
Proof.
  intros Hp%kv_Prefix_longer [q Hq] Heq. rewrite Heq in Hq.
  apply (f_equal chars), (f_equal length) in Hq. rewrite chars_app, length_app in Hq. lia.
Qed.

Lemma below_trans v u w : below v u -> below u w -> below v w.
Proof.
  intros [q Hq] [q' Hq']. exists (q +:+ q'). rewrite Hq', Hq. apply chars_inj.
  by rewrite !chars_app, app_assoc.
Qed.

Lemma first_separator_inj {A} (c : A) l1 l2 r1 r2 :
  c ∉ l1 -> c ∉ l2 -> l1 ++ c :: r1 = l2 ++ c :: r2 -> l1 = l2 /\ r1 = r2.
Proof.
  revert l2. induction l1 as [|x l1 IH]; intros [|y l2] H1 H2 Heq; simpl in *.
  - by simplify_eq.
  - simplify_eq. exfalso. apply H2. by left.
  - simplify_eq. exfalso. apply H1. by left.
  - injection Heq as -> Heq. apply IH in Heq as [-> ->]; [done|..]; intros ?; [apply H1|apply H2]; by right.
Qed.

(** Different prefixes of one handle have no handle in common. *)
Lemma siblings_apart v p1 p2 v1 v2 u u' :
  kv_Prefix v p1 = Ok v1 -> kv_Prefix v p2 = Ok v2 -> p1 ≠ p2 -> below v1 u -> below v2 u' ->
  prefix u ≠ prefix u'.
Proof.
  intros [Hs1 Hp1]%kv_Prefix_Ok [Hs2 Hp2]%kv_Prefix_Ok Hne [q Hq] [q' Hq'] Heq. apply Hne.
  rewrite Hq, Hq', Hp1, Hp2 in Heq. apply (f_equal chars) in Heq.
  rewrite !chars_app, <- !app_assoc in Heq. apply app_inv_head in Heq. simpl in Heq.
  apply strContains_chars in Hs1, Hs2. apply chars_inj.
  by apply (first_separator_inj PrefixSeparator) in Heq as [? _].
Qed.

Lemma below_siblings v p1 p2 v1 v2 u :
  kv_Prefix v p1 = Ok v1 -> kv_Prefix v p2 = Ok v2 -> p1 ≠ p2 -> below v1 u -> ~ below v2 u.
Proof. intros H1 H2 Hne Hb Hb'. by eapply (siblings_apart v p1 p2 v1 v2 u u). Qed.

Lemma not_below_parent v p vs : kv_Prefix v p = Ok vs -> ~ below vs v.
Proof. intros Hp Hb. by apply (below_ne v p vs v Hp Hb). Qed.

(** A change of the store that is confined to a handle and those below it. *)
Definition within {S} `{EKV S} (v : kv) (s s' : S) : Prop :=
  forall u key n, kv_handle u -> strContains PrefixSeparator key = false -> 0 <= n < 2 ^ 63 ->
    ~ below v u -> kv_Get u s' key n = kv_Get u s key n.

Section within.
Context {S : Type} `{EKV S}.

Lemma within_refl v (s : S) : within v s s.
Proof. by intros u key n. Qed.

Lemma within_trans v (s1 s2 s3 : S) : within v s1 s2 -> within v s2 s3 -> within v s1 s3.
Proof. intros H1 H2 u key n Hu Hk Hn Hb. by rewrite H2, H1. Qed.

Lemma confined_within v u (s s' : S) : confined (prefix u) s s' -> below v u -> within v s s'.
Proof.
  intros Hc [q Hq] w key n Hw Hk Hn Hb. apply Hc; [done..|]. intros Heq. apply Hb.
  exists q. by rewrite Heq.
Qed.

Lemma within_mono v u (s s' : S) : within u s s' -> below v u -> within v s s'.
Proof. intros Hw Hb w key n Hh Hk Hn Hn'. apply Hw; [done..|]. intros Hb'. apply Hn'. by eapply below_trans. Qed.
End within.

(** ** Upgrades *)

(** [upgrades t o o']: [o'] comes from [o] by the table's entries, each applied
    at the version it upgrades, until the version is at least the table's length. *)
Inductive upgrades (t : list Upgrade) : Object -> Object -> Prop :=
| upgrades_done o : Z.of_nat (length t) <= Version o -> upgrades t o o
| upgrades_step o up o1 o2 :
    0 <= Version o -> t !! Z.to_nat (Version o) = Some up -> up o = Ok o1 ->
    upgrades t o1 o2 -> upgrades t o o2.

(** The contract of an upgrade function: it returns a newer version. *)
Definition upgrade_table_ok (t : list Upgrade) : Prop :=
  forall (i : nat) up o, t !! i = Some up -> Version o = Z.of_nat i ->
    exists o', up o = Ok o' /\ Version o < Version o'.

Lemma kv_upgradeLoop_spec t fuel o :
  upgrade_table_ok t -> 0 <= Version o -> Z.of_nat (length t) <= Version o + Z.of_nat fuel ->
  exists o', kv_upgradeLoop fuel t o = Ok o' /\ upgrades t o o' /\
    Z.of_nat (length t) <= Version o'.
Proof.
  intros Ht. revert o. induction fuel as [|fuel IH]; intros o Ho Hf; cbn [kv_upgradeLoop];
    destruct (Z.ltb_spec (Version o) (Z.of_nat (length t))); try lia;
    try (exists o; split_and!; [done|by constructor|done]).
  destruct (index_in_range t (Version o)) as (up & -> & Hup); [lia|].
  destruct (Ht _ _ o Hup) as (o1 & Ho1 & Hlt); [lia|]. rewrite Ho1.
  destruct (Z.eqb_spec (Version o1) (Version o)); [lia|].
  destruct (IH o1) as (o2 & ? & ? & ?); [lia|lia|].
  exists o2. split_and!; [done| |done]. by eapply upgrades_step.
Qed.

Lemma kv_findNewest_spec {S} `{EKV S} v (s : S) key n m o last :
  (m < n)%nat -> kv_Get v s key (Z.of_nat m) = inr o ->
  (forall j, (m < j < n)%nat -> exists e, kv_Get v s key (Z.of_nat j) = inl e) ->
  kv_findNewest v s key n last = Some o.
Proof.
  revert last. induction n as [|n IH]; intros last Hm Ho Hj; [lia|]. cbn [kv_findNewest].
  destruct (decide (m = n)) as [->|].
  - by rewrite Ho.
  - destruct (Hj n) as [e ->]; [lia|]. apply IH; [lia|done|]. intros. apply Hj. lia.
Qed.

(** [GetAndUpgrade] terminates and returns the newest stored version at or
    below the current one, brought by the table's upgrades, in order, to a
    version at least the current one, whenever the table has one upgrade per
    version and each returns a newer version. *)
Theorem kv_GetAndUpgrade_newest {S} `{EKV S} v (s : S) key ut m o :
  Z.of_nat (length (Table ut)) = CurrentVersion ut -> CurrentVersion ut < 2 ^ 63 ->
  upgrade_table_ok (Table ut) ->
  0 <= m <= CurrentVersion ut -> kv_Get v s key m = inr o ->
  (forall j, m < j <= CurrentVersion ut -> exists e, kv_Get v s key j = inl e) ->
  Data o ≠ [] -> 0 <= Version o ->
  exists o', kv_GetAndUpgrade v s key ut = Ok o' /\ upgrades (Table ut) o o' /\
    CurrentVersion ut <= Version o'.
Proof.
  intros Hlen Hcur Ht Hm Ho Hj Hdata Hver. unfold kv_GetAndUpgrade.
  rewrite Hlen, Z.eqb_refl. simpl.
  rewrite (kv_findNewest_spec _ _ _ _ (Z.to_nat m) o).
  - rewrite (proj2 (Nat.eqb_neq _ _)) by (destruct (Data o); [done|simpl; lia]).
    rewrite <- Hlen. apply kv_upgradeLoop_spec; [done|done|lia].
  - rewrite wrapu_small by (unfold is_u; lia). lia.
  - by rewrite Z2Nat.id by lia.
  - intros j Hj'. apply Hj. rewrite wrapu_small in Hj' by (unfold is_u; lia). lia.
Qed.

(** *** Witnesses *)

Definition ex_obj (n : Z) : Object := mkObject n 0 [x01].
Definition ex_kv1 : kv := mkKV ("a" +:+ String PrefixSeparator "") {["a" := 1]} 1.

Lemma ex_kv1_handle : kv_handle ex_kv1.
Proof. by apply (handle_prefix NewKV "a"); [constructor|vm_compute]. Qed.

Lemma kv_Set_isolated_witness :
  kv_Get ex_kv1 (fst (kv_Set ex_kv1 (∅ : MemStore) "k" (ex_obj 0))) "k" 0 = inr (ex_obj 0) /\
  kv_Get NewKV (fst (kv_Set ex_kv1 (∅ : MemStore) "k" (ex_obj 0))) "k" 0
    = kv_Get NewKV (∅ : MemStore) "k" 0.
Proof.
  pose proof (kv_Set_isolated ex_kv1 NewKV (∅ : MemStore)
    (fst (kv_Set ex_kv1 (∅ : MemStore) "k" (ex_obj 0))) "k" "k" (ex_obj 0) 0 None
    ex_kv1_handle handle_new eq_refl eq_refl ltac:(simpl; lia) ltac:(lia) eq_refl) as [H1 H2].
  split; [by apply H1|]. apply H2. by vm_compute.
Defined.

Definition ex_table : UpgradeTable :=
  mkUpgradeTable 2 [fun o => Ok (mkObject 1 0 (Data o ++ [x02])); fun o => Ok (mkObject 2 0 (Data o ++ [x03]))].
Definition ex_store : MemStore := <[kv_makeKey NewKV "k" 0 := ex_obj 0]> ∅.

Lemma kv_GetAndUpgrade_newest_witness :
  exists o', kv_GetAndUpgrade NewKV ex_store "k" ex_table = Ok o' /\ 2 <= Version o' /\
    Data o' = [x01; x02; x03].
Proof.
  destruct (kv_GetAndUpgrade_newest NewKV ex_store "k" ex_table 0 (ex_obj 0))
    as (o' & Ho & _ & Hv).
  - reflexivity.
  - simpl. lia.
  - intros i up o Hi Hv. destruct i as [|[|i]]; simpl in *; simplify_eq; eexists; split; try done; simpl; lia.
  - simpl. lia.
  - by vm_compute.
  - intros j Hj. assert (j = 1 \/ j = 2) as [->| ->] by (simpl in Hj; lia); eexists; by vm_compute.
  - done.
  - simpl. lia.
  - exists o'. split; [done|]. split; [done|].
    vm_compute in Ho. by injection Ho as <-.
Defined.
