(* ===== verification/Base64.v ===== *)
(** * Base 64

    [base64.StdEncoding.EncodeToString], which prints identifiers into storage
    keys.  What the keys need of it is that it is injective and that its output
    never holds the prefix separator of the store. *)

From Stdlib Require Import Ascii.
From S2P Require Import Prelude GoBytes KV.

(** The alphabet; position 64 is the padding. *)
Definition b64Alphabet : list ascii :=
  chars "ABCDEFGHIJKLMNOPQRSTUVWXYZabcdefghijklmnopqrstuvwxyz0123456789+/=".

Definition b64Pad : Z := 64.
Definition b64Char (z : Z) : ascii := default "="%char (b64Alphabet !! Z.to_nat z).

(** Groups of three bytes give four digits; the last group is padded. *)
Fixpoint b64Digits (bs : list Z) : list Z :=
  match bs with
  | [] => []
  | [a] => [a / 4; a mod 4 * 16; b64Pad; b64Pad]
  | [a; b] => [a / 4; a mod 4 * 16 + b / 16; b mod 16 * 4; b64Pad]
  | a :: b :: c :: bs =>
      a / 4 :: a mod 4 * 16 + b / 16 :: b mod 16 * 4 + c / 64 :: c mod 64 :: b64Digits bs
  end.

Definition b64Encode (bs : list byte) : string :=
  String.string_of_list_ascii (b64Char <$> b64Digits (Z_of_byte <$> bs)).

(** ** Injectivity *)

Lemma list_ind3 {A} (P : list A -> Prop) :
  P [] -> (forall a, P [a]) -> (forall a b, P [a; b]) ->
  (forall a b c l, P l -> P (a :: b :: c :: l)) -> forall l, P l.
Proof.
  intros H0 H1 H2 H3. fix IH 1. intros [|a [|b [|c l]]]; [done|apply H1|apply H2|apply H3, IH].
Qed.

Definition is_byte (z : Z) : Prop := 0 <= z < 256.

Lemma b64Digits_range bs : Forall is_byte bs -> Forall (fun d => 0 <= d <= 64) (b64Digits bs).
Proof.
  induction bs as [|a|a b|a b c bs IH] using list_ind3; cbn [b64Digits]; unfold is_byte, b64Pad in *;
    intros H; repeat (apply Forall_cons_iff in H as [? H]); repeat (apply Forall_cons_iff; split);
    try apply Forall_nil; try zlia.
  by apply IH.
Qed.

Lemma b64Digits_inj bs bs' :
  Forall is_byte bs -> Forall is_byte bs' -> b64Digits bs = b64Digits bs' -> bs = bs'.
Proof.
  revert bs'. induction bs as [|a|a b|a b c bs IH] using list_ind3;
    intros [|a' [|b' [|c' bs']]] H H' Heq; cbn [b64Digits] in Heq; try done; unfold b64Pad in *;
    repeat (apply Forall_cons_iff in H as [? H]); repeat (apply Forall_cons_iff in H' as [? H']);
    unfold is_byte in *; repeat (apply (f_equal2 pair) in Heq); injection Heq; intros;
    try (exfalso; zlia).
  - f_equal. zlia.
  - f_equal; [zlia|]. f_equal. zlia.
  - f_equal; [zlia|]. f_equal; [zlia|]. f_equal; [zlia|]. by apply IH.
Qed.

Lemma b64Alphabet_NoDup : NoDup b64Alphabet.
Proof. by apply (bool_decide_unpack _); vm_compute. Qed.

Lemma b64Char_inj x y : 0 <= x <= 64 -> 0 <= y <= 64 -> b64Char x = b64Char y -> x = y.
Proof.
  intros Hx Hy Heq. unfold b64Char in Heq.
  assert (length b64Alphabet = 65%nat) as Hlen by done.
  destruct (lookup_lt_is_Some_2 b64Alphabet (Z.to_nat x)) as [c Hc]; [lia|].
  destruct (lookup_lt_is_Some_2 b64Alphabet (Z.to_nat y)) as [d Hd]; [lia|].
  rewrite Hc, Hd in Heq. simpl in Heq. subst d.
  pose proof (NoDup_lookup _ _ _ _ b64Alphabet_NoDup Hc Hd). lia.
Qed.

Lemma fmap_inj_on {A B} (f : A -> B) (P : A -> Prop) l l' :
  (forall x y, P x -> P y -> f x = f y -> x = y) ->
  Forall P l -> Forall P l' -> f <$> l = f <$> l' -> l = l'.
Proof.
  intros Hf. revert l'. induction l as [|x l IH]; intros [|y l'] H H' Heq; try done.
  apply Forall_cons_iff in H as [Hx H]. apply Forall_cons_iff in H' as [Hy H'].
  rewrite !fmap_cons in Heq. injection Heq as Hxy Hl. f_equal; [by apply Hf|by apply IH].
Qed.

Lemma bytes_range bs : Forall is_byte (Z_of_byte <$> bs).
Proof. apply Forall_fmap, Forall_true. intros b. apply Z_of_byte_range. Qed.

Lemma b64Encode_inj bs bs' : b64Encode bs = b64Encode bs' -> bs = bs'.
Proof.
  intros Heq. unfold b64Encode in Heq. apply (f_equal String.list_ascii_of_string) in Heq.
  rewrite !String.list_ascii_of_string_of_list_ascii in Heq.
  apply (fmap_inj_on Z_of_byte (fun _ => True));
    [intros ? ? _ _; apply Z_of_byte_inj|by apply Forall_true..|].
  apply b64Digits_inj; [apply bytes_range..|].
  eapply (fmap_inj_on b64Char (fun d => 0 <= d <= 64)); [apply b64Char_inj| | |done];
    apply b64Digits_range, bytes_range.
Qed.

(** The separator of the store is not a base 64 character. *)
Lemma b64Encode_no_sep bs : strContains PrefixSeparator (b64Encode bs) = false.
Proof.
  apply strContains_chars. unfold b64Encode.
  rewrite String.list_ascii_of_string_of_list_ascii. intros (z & Heq & _)%list_elem_of_fmap.
  assert (PrefixSeparator ∉ b64Alphabet) as Hn by by apply (bool_decide_unpack _); vm_compute.
  unfold b64Char in Heq. destruct (b64Alphabet !! Z.to_nat z) as [c|] eqn:E; simpl in Heq; [|done].
  apply Hn. rewrite Heq. by eapply list_elem_of_lookup_2.
Qed.

(** The encoding of the examples of RFC 4648. *)
Lemma b64Encode_rfc :
  b64Encode [x66; x6f; x6f] = "Zm9v" /\ b64Encode [x66; x6f] = "Zm8=" /\ b64Encode [x66] = "Zg==".
Proof. by vm_compute. Qed.

(** ** Decoding

    [base64.StdEncoding.DecodeString]: line breaks are skipped, the padding ends
    the text. *)

Definition b64Value (c : ascii) : option Z :=
  (fun e : nat * ascii => Z.of_nat e.1) <$> list_find (fun x => x = c) (take 64 b64Alphabet).

Fixpoint b64DecodeChars (s : list ascii) : option (list Z) :=
  match s with
  | [] => Some []
  | a :: b :: c :: d :: s =>
      a ← b64Value a;
      b ← b64Value b;
      if Ascii.eqb d "=" then
        match s with
        | [] =>
            if Ascii.eqb c "=" then Some [a * 4 + b / 16]
            else c ← b64Value c; Some [a * 4 + b / 16; b mod 16 * 16 + c / 4]
        | _ => None
        end
      else
        c ← b64Value c;
        d ← b64Value d;
        rest ← b64DecodeChars s;
        Some (a * 4 + b / 16 :: b mod 16 * 16 + c / 4 :: c mod 4 * 64 + d :: rest)
  | _ => None
  end.

Definition isLineBreak (c : ascii) : bool := Ascii.eqb c (ascii_of_nat 10) || Ascii.eqb c (ascii_of_nat 13).

Definition b64Decode (s : list ascii) : option (list byte) :=
  (fun l : list Z => byte_of_Z <$> l) <$> b64DecodeChars (List.filter (fun c => negb (isLineBreak c)) s).

Lemma b64Value_char d : 0 <= d < 64 -> b64Value (b64Char d) = Some d /\ Ascii.eqb (b64Char d) "=" = false.
Proof.
  intros Hd. assert (forallb (fun d => bool_decide (b64Value (b64Char d) = Some d) &&
    negb (Ascii.eqb (b64Char d) "=")) (seqZ 0 64) = true) as Hall by by vm_compute.
  rewrite forallb_forall in Hall. specialize (Hall d).
  rewrite <- list_elem_of_In, elem_of_seqZ in Hall. specialize (Hall ltac:(lia)).
  apply andb_true_iff in Hall as [H1%bool_decide_eq_true H2%negb_true_iff]. done.
Qed.

Lemma b64DecodeChars_digits bs : Forall is_byte bs -> b64DecodeChars (b64Char <$> b64Digits bs) = Some bs.
Proof.
  assert (b64Char b64Pad = "="%char) as Hpad by done.
  induction bs as [|a|a b|a b c bs IH] using list_ind3; intros Hb;
    repeat (apply Forall_cons_iff in Hb as [? Hb]); unfold is_byte in *; cbn [b64Digits]; rewrite ?fmap_cons; cbn [b64DecodeChars].
  - done.
  - destruct (b64Value_char (a / 4)) as [-> _]; [zlia|]. destruct (b64Value_char (a mod 4 * 16)) as [-> _]; [zlia|].
    rewrite Hpad. simpl. do 2 f_equal. zlia.
  - destruct (b64Value_char (a / 4)) as [-> _]; [zlia|]. destruct (b64Value_char (a mod 4 * 16 + b / 16)) as [-> _]; [zlia|].
    destruct (b64Value_char (b mod 16 * 4)) as [-> ->]; [zlia|]. rewrite Hpad. simpl.
    do 2 f_equal; [zlia|]. f_equal. zlia.
  - destruct (b64Value_char (a / 4)) as [-> _]; [zlia|]. destruct (b64Value_char (a mod 4 * 16 + b / 16)) as [-> _]; [zlia|].
    destruct (b64Value_char (b mod 16 * 4 + c / 64)) as [-> _]; [zlia|]. destruct (b64Value_char (c mod 64)) as [-> ->]; [zlia|].
    simpl. rewrite IH by done. simpl. f_equal. f_equal; [zlia|]. f_equal; [zlia|]. f_equal. zlia.
Qed.

Lemma b64Char_alphabet d : b64Char d ∈ b64Alphabet.
Proof.
  unfold b64Char. destruct (b64Alphabet !! Z.to_nat d) as [c|] eqn:E; simpl; [by eapply list_elem_of_lookup_2|].
  by apply (bool_decide_unpack _); vm_compute.
Qed.

(** What is encoded is decoded. *)
Lemma b64Decode_encode bs : b64Decode (chars (b64Encode bs)) = Some bs.
Proof.
  unfold b64Decode, b64Encode. rewrite String.list_ascii_of_string_of_list_ascii.
  assert (forall l : list ascii, Forall (fun c => c ∈ b64Alphabet) l ->
    List.filter (fun c => negb (isLineBreak c)) l = l) as ->.
  { assert (Forall (fun c => isLineBreak c = false) b64Alphabet) as Hno by by apply (bool_decide_unpack _); vm_compute.
    rewrite list.Forall_forall in Hno. induction 1 as [|c l Hc _ IH]; [done|]. simpl. by rewrite (Hno c Hc), IH. }
  - rewrite b64DecodeChars_digits by apply bytes_range. simpl. f_equal. rewrite <- list_fmap_compose.
    rewrite <- (list_fmap_id bs) at 2. apply list_fmap_ext. intros i b _. apply byte_of_Z_of_byte.
  - apply list.Forall_forall. intros c (d & -> & _)%list_elem_of_fmap. apply b64Char_alphabet.
Qed.
