(* ===== verification/Json.v ===== *)
(** * JSON text

    What the client uses of [encoding/json]: the compact text [json.Marshal]
    writes for numbers, strings, booleans, arrays and objects, and a parser of
    JSON text for [json.Unmarshal], with the rules for decoding a document into
    unsigned integers, slices of them and struct fields.  Bytes of 128 and above
    in strings are kept as they are. *)

From Stdlib Require Import Ascii.
From S2P Require Import Prelude GoBytes KV.

Inductive json :=
| JNull
| JBool (b : bool)
| JNum (lit : list ascii)
| JStr (s : list ascii)
| JArr (l : list json)
| JObj (l : list (list ascii * json)).

(** The quotation mark. *)
Definition dq : ascii := ascii_of_nat 34.

(** ** Writing *)

Definition hexDigit (n : nat) : ascii :=
  default "0"%char (chars "0123456789abcdef" !! n).

(** The escapes of [json.Marshal] (HTML characters included). *)
Definition escapeChar (c : ascii) : list ascii :=
  let n := nat_of_ascii c in
  if Ascii.eqb c dq then ["\"%char; dq]
  else if Ascii.eqb c "\" then ["\"; "\"]%char
  else if (n =? 10)%nat then ["\"; "n"]%char
  else if (n =? 13)%nat then ["\"; "r"]%char
  else if (n =? 9)%nat then ["\"; "t"]%char
  else if (n <? 32)%nat || Ascii.eqb c "<" || Ascii.eqb c ">" || Ascii.eqb c "&"
  then ["\"; "u"; "0"; "0"]%char ++ [hexDigit (n / 16); hexDigit (n mod 16)]
  else [c].

Definition printString (s : list ascii) : list ascii :=
  [dq] ++ concat (escapeChar <$> s) ++ [dq].

Fixpoint printJson (v : json) : list ascii :=
  match v with
  | JNull => chars "null"
  | JBool true => chars "true"
  | JBool false => chars "false"
  | JNum lit => lit
  | JStr s => printString s
  | JArr l =>
      let fix elems (l : list json) : list ascii :=
        match l with
        | [] => []
        | [v] => printJson v
        | v :: l => printJson v ++ [","%char] ++ elems l
        end in
      ["["%char] ++ elems l ++ ["]"%char]
  | JObj l =>
      let fix members (l : list (list ascii * json)) : list ascii :=
        match l with
        | [] => []
        | [(k, v)] => printString k ++ [":"%char] ++ printJson v
        | (k, v) :: l => printString k ++ [":"%char] ++ printJson v ++ [","%char] ++ members l
        end in
      ["{"%char] ++ members l ++ ["}"%char]
  end.

(** ** Reading *)

Definition isWs (c : ascii) : bool :=
  let n := nat_of_ascii c in (n =? 32)%nat || (n =? 9)%nat || (n =? 10)%nat || (n =? 13)%nat.

Fixpoint skipWs (s : list ascii) : list ascii :=
  match s with
  | c :: s' => if isWs c then skipWs s' else s
  | [] => []
  end.

Definition isDigit (c : ascii) : bool :=
  let n := nat_of_ascii c in (48 <=? n)%nat && (n <=? 57)%nat.

(** The longest prefix of characters that satisfy a test. *)
Fixpoint span (p : ascii -> bool) (s : list ascii) : list ascii * list ascii :=
  match s with
  | c :: s' => if p c then let '(a, b) := span p s' in (c :: a, b) else ([], s)
  | [] => ([], [])
  end.

(** Drops an expected text. *)
Fixpoint expect (t s : list ascii) : option (list ascii) :=
  match t, s with
  | [], _ => Some s
  | c :: t, d :: s => if Ascii.eqb c d then expect t s else None
  | _ :: _, [] => None
  end.

Definition isNumChar (c : ascii) : bool :=
  isDigit c || Ascii.eqb c "-" || Ascii.eqb c "+" || Ascii.eqb c "." ||
  Ascii.eqb c "e" || Ascii.eqb c "E".

(** [-? (0 | [1-9][0-9]* ) ([.][0-9]+)? ([eE][+-]?[0-9]+)?] *)
Definition validExp (s : list ascii) : bool :=
  match s with
  | [] => true
  | c :: s =>
      if Ascii.eqb c "e" || Ascii.eqb c "E" then
        let s := match s with
                 | d :: s' => if Ascii.eqb d "+" || Ascii.eqb d "-" then s' else s
                 | [] => s
                 end in
        negb (bool_decide (s = [])) && forallb isDigit s
      else false
  end.

Definition validFrac (s : list ascii) : bool :=
  match s with
  | c :: s' =>
      if Ascii.eqb c "." then
        let '(ds, r) := span isDigit s' in negb (bool_decide (ds = [])) && validExp r
      else validExp s
  | [] => true
  end.

Definition validNumber (s : list ascii) : bool :=
  let s := match s with c :: s' => if Ascii.eqb c "-" then s' else s | [] => s end in
  match s with
  | c :: s' =>
      if Ascii.eqb c "0" then validFrac s'
      else if isDigit c then validFrac (snd (span isDigit s'))
      else false
  | [] => false
  end.

Definition hexVal (c : ascii) : option Z :=
  let n := Z.of_nat (nat_of_ascii c) in
  if (48 <=? n) && (n <=? 57) then Some (n - 48)
  else if (97 <=? n) && (n <=? 102) then Some (n - 87)
  else if (65 <=? n) && (n <=? 70) then Some (n - 55)
  else None.

Definition hex4 (s : list ascii) : option (Z * list ascii) :=
  match s with
  | a :: b :: c :: d :: s =>
      match hexVal a, hexVal b, hexVal c, hexVal d with
      | Some a, Some b, Some c, Some d => Some (((a * 16 + b) * 16 + c) * 16 + d, s)
      | _, _, _, _ => None
      end
  | _ => None
  end.

Definition ascii_of_Z (z : Z) : ascii := ascii_of_nat (Z.to_nat z).

(** UTF-8 encoding of a code point. *)
Definition utf8 (r : Z) : list ascii :=
  if r <? 128 then [ascii_of_Z r]
  else if r <? 2048 then [ascii_of_Z (192 + r / 64); ascii_of_Z (128 + r mod 64)]
  else if r <? 65536 then
    [ascii_of_Z (224 + r / 4096); ascii_of_Z (128 + r / 64 mod 64); ascii_of_Z (128 + r mod 64)]
  else [ascii_of_Z (240 + r / 262144); ascii_of_Z (128 + r / 4096 mod 64);
        ascii_of_Z (128 + r / 64 mod 64); ascii_of_Z (128 + r mod 64)].

(** A [\uXXXX] escape, after the [u]: surrogate pairs are combined and lone
    surrogates become U+FFFD. *)
Definition unescapeU (s : list ascii) : option (list ascii * list ascii) :=
  match hex4 s with
  | None => None
  | Some (r, s1) =>
      if (55296 <=? r) && (r <? 57344) then
        match s1 with
        | a :: b :: s2 =>
            if Ascii.eqb a "\" && Ascii.eqb b "u" then
              match hex4 s2 with
              | Some (r2, s3) =>
                  if (r <? 56320) && (56320 <=? r2) && (r2 <? 57344)
                  then Some (utf8 ((r - 55296) * 1024 + (r2 - 56320) + 65536), s3)
                  else Some (utf8 65533, s1)
              | None => None
              end
            else Some (utf8 65533, s1)
        | _ => Some (utf8 65533, s1)
        end
      else Some (utf8 r, s1)
  end.

(** One character or escape of a string. *)
Definition unescape (s : list ascii) : option (list ascii * list ascii) :=
  match s with
  | [] => None
  | c :: s' =>
      if Ascii.eqb c "\" then
        match s' with
        | [] => None
        | d :: s'' =>
            if Ascii.eqb d dq || Ascii.eqb d "\" || Ascii.eqb d "/" then Some ([d], s'')
            else if Ascii.eqb d "b" then Some ([ascii_of_nat 8], s'')
            else if Ascii.eqb d "f" then Some ([ascii_of_nat 12], s'')
            else if Ascii.eqb d "n" then Some ([ascii_of_nat 10], s'')
            else if Ascii.eqb d "r" then Some ([ascii_of_nat 13], s'')
            else if Ascii.eqb d "t" then Some ([ascii_of_nat 9], s'')
            else if Ascii.eqb d "u" then unescapeU s''
            else None
        end
      else if (nat_of_ascii c <? 32)%nat then None
      else Some ([c], s')
  end.

(** The rest of a string after its opening quotation mark. *)
Fixpoint parseString (fuel : nat) (s : list ascii) : option (list ascii * list ascii) :=
  match fuel, s with
  | S fuel, c :: s' =>
      if Ascii.eqb c dq then Some ([], s')
      else
        match unescape s with
        | Some (a, s1) =>
            match parseString fuel s1 with
            | Some (b, s2) => Some (a ++ b, s2)
            | None => None
            end
        | None => None
        end
  | _, _ => None
  end.

Fixpoint parseValue (fuel : nat) (s : list ascii) : option (json * list ascii) :=
  match fuel with
  | O => None
  | S fuel =>
      match skipWs s with
      | [] => None
      | c :: r =>
          if Ascii.eqb c "n" then (fun r => (JNull, r)) <$> expect (chars "ull") r
          else if Ascii.eqb c "t" then (fun r => (JBool true, r)) <$> expect (chars "rue") r
          else if Ascii.eqb c "f" then (fun r => (JBool false, r)) <$> expect (chars "alse") r
          else if Ascii.eqb c dq then
            match parseString (S (length r)) r with
            | Some (t, r) => Some (JStr t, r)
            | None => None
            end
          else if Ascii.eqb c "[" then
            match skipWs r with
            | d :: r' =>
                if Ascii.eqb d "]" then Some (JArr [], r')
                else match parseElems fuel r with
                     | Some (l, r) => Some (JArr l, r)
                     | None => None
                     end
            | [] => None
            end
          else if Ascii.eqb c "{" then
            match skipWs r with
            | d :: r' =>
                if Ascii.eqb d "}" then Some (JObj [], r')
                else match parseMembers fuel r with
                     | Some (l, r) => Some (JObj l, r)
                     | None => None
                     end
            | [] => None
            end
          else
            let '(lit, r) := span isNumChar (c :: r) in
            if validNumber lit then Some (JNum lit, r) else None
      end
  end
with parseElems (fuel : nat) (s : list ascii) : option (list json * list ascii) :=
  match fuel with
  | O => None
  | S fuel =>
      match parseValue fuel s with
      | None => None
      | Some (v, r) =>
          match skipWs r with
          | d :: r' =>
              if Ascii.eqb d "]" then Some ([v], r')
              else if Ascii.eqb d "," then
                match parseElems fuel r' with
                | Some (l, r) => Some (v :: l, r)
                | None => None
                end
              else None
          | [] => None
          end
      end
  end
with parseMembers (fuel : nat) (s : list ascii) :
    option (list (list ascii * json) * list ascii) :=
  match fuel with
  | O => None
  | S fuel =>
      match skipWs s with
      | q :: r =>
          if Ascii.eqb q dq then
            match parseString (S (length r)) r with
            | None => None
            | Some (k, r) =>
                match skipWs r with
                | e :: r =>
                    if Ascii.eqb e ":" then
                      match parseValue fuel r with
                      | None => None
                      | Some (v, r) =>
                          match skipWs r with
                          | d :: r' =>
                              if Ascii.eqb d "}" then Some ([(k, v)], r')
                              else if Ascii.eqb d "," then
                                match parseMembers fuel r' with
                                | Some (l, r) => Some ((k, v) :: l, r)
                                | None => None
                                end
                              else None
                          | [] => None
                          end
                      end
                    else None
                | [] => None
                end
            end
          else None
      | [] => None
      end
  end.

(** A whole document: one value and white space. *)
Definition parseJson (s : list ascii) : option json :=
  match parseValue (S (length s)) s with
  | Some (v, r) => match skipWs r with [] => Some v | _ => None end
  | None => None
  end.

(** ** What is written is read back *)

Definition ascii7 (c : ascii) : Prop := (nat_of_ascii c < 128)%nat.

Fixpoint wfJson (v : json) : Prop :=
  match v with
  | JNull | JBool _ => True
  | JNum lit => validNumber lit = true /\ forallb isNumChar lit = true
  | JStr s => Forall ascii7 s
  | JArr l =>
      (fix all (l : list json) : Prop :=
         match l with [] => True | v :: l => wfJson v /\ all l end) l
  | JObj l =>
      (fix all (l : list (list ascii * json)) : Prop :=
         match l with [] => True | (k, v) :: l => Forall ascii7 k /\ wfJson v /\ all l end) l
  end.

Fixpoint printElems (l : list json) : list ascii :=
  match l with
  | [] => []
  | [v] => printJson v
  | v :: l => printJson v ++ [","%char] ++ printElems l
  end.

Fixpoint printMembers (l : list (list ascii * json)) : list ascii :=
  match l with
  | [] => []
  | [(k, v)] => printString k ++ [":"%char] ++ printJson v
  | (k, v) :: l => printString k ++ [":"%char] ++ printJson v ++ [","%char] ++ printMembers l
  end.

Lemma printJson_arr l : printJson (JArr l) = ["["%char] ++ printElems l ++ ["]"%char].
Proof. done. Qed.

Lemma printJson_obj l : printJson (JObj l) = ["{"%char] ++ printMembers l ++ ["}"%char].
Proof. done. Qed.

Lemma unescape_escape c r : ascii7 c -> unescape (escapeChar c ++ r) = Some ([c], r).
Proof.
  intros Hc. apply Nat.ltb_lt in Hc.
  destruct c as [[] [] [] [] [] [] [] []]; try reflexivity; by vm_compute in Hc.
Qed.

Lemma escapeChar_head c : exists d t, escapeChar c = d :: t /\ Ascii.eqb d dq = false.
Proof. destruct c as [[] [] [] [] [] [] [] []]; by do 2 eexists. Qed.

Lemma parseString_print fuel s r :
  Forall ascii7 s -> (length s < fuel)%nat ->
  parseString fuel (concat (escapeChar <$> s) ++ dq :: r) = Some (s, r).
Proof.
  intros Hs. revert fuel. induction Hs as [|c s Hc Hs IH]; intros fuel Hf.
  - destruct fuel as [|fuel]; [simpl in Hf; lia|]. done.
  - destruct fuel as [|fuel]; [lia|]. rewrite fmap_cons. cbn [concat].
    rewrite <- (app_assoc (escapeChar c)).
    destruct (escapeChar_head c) as (d & t & Hd & Hq).
    pose proof (unescape_escape c (concat (escapeChar <$> s) ++ dq :: r) Hc) as Hu.
    rewrite Hd in *. cbn [parseString app]. rewrite Hq. cbn [app] in Hu. rewrite Hu.
    rewrite IH by (simpl in Hf; lia). done.
Qed.

Lemma length_escape s : (length s <= length (concat (escapeChar <$> s)))%nat.
Proof.
  induction s as [|c s IH]; [simpl; lia|]. rewrite fmap_cons. cbn [concat length].
  rewrite length_app. destruct (escapeChar_head c) as (d & t & -> & _). cbn [length]. lia.
Qed.

Lemma parseString_printString s r :
  Forall ascii7 s ->
  exists t, printString s ++ r = dq :: t /\ parseString (S (length t)) t = Some (s, r).
Proof.
  intros Hs. exists (concat (escapeChar <$> s) ++ dq :: r). split.
  - unfold printString. by rewrite <- !app_assoc.
  - apply parseString_print; [done|]. rewrite length_app.
    pose proof (length_escape s). lia.
Qed.

(** What may follow a value: nothing that would extend a number. *)
Definition stops (r : list ascii) : Prop :=
  match r with [] => True | c :: _ => isNumChar c = false end.

Lemma span_all p s r :
  forallb p s = true -> match r with [] => True | c :: _ => p c = false end ->
  span p (s ++ r) = (s, r).
Proof.
  intros Hs Hr. induction s as [|c s IH]; simpl.
  - destruct r as [|c r]; [done|]. simpl. by rewrite Hr.
  - simpl in Hs. apply andb_true_iff in Hs as [-> Hs]. by rewrite IH.
Qed.

(** The first character of a number. *)
Lemma num_head lit :
  validNumber lit = true -> exists c t, lit = c :: t /\ (isDigit c = true \/ c = "-"%char).
Proof.
  destruct lit as [|c t]; [done|]. intros Hv. exists c, t. split; [done|].
  unfold validNumber in Hv. destruct (Ascii.eqb_spec c "-"); [by right|].
  destruct (Ascii.eqb_spec c "0") as [->|]; [by left|].
  destruct (isDigit c) eqn:E; [by left|done].
Qed.

Lemma num_head_classes c :
  isDigit c = true \/ c = "-"%char ->
  isWs c = false /\ Ascii.eqb c "n" = false /\ Ascii.eqb c "t" = false /\
  Ascii.eqb c "f" = false /\ Ascii.eqb c dq = false /\ Ascii.eqb c "[" = false /\
  Ascii.eqb c "{" = false /\ Ascii.eqb c "]" = false /\ Ascii.eqb c "}" = false.
Proof.
  intros [Hc| ->]; [|by vm_compute].
  destruct c as [[] [] [] [] [] [] [] []]; try (by vm_compute in Hc); by vm_compute.
Qed.

Lemma skipWs_cons c s : isWs c = false -> skipWs (c :: s) = c :: s.
Proof. intros Hc. simpl. by rewrite Hc. Qed.

(** The rounds of [parseValue] a value needs. *)
Fixpoint needs (v : json) : nat :=
  match v with
  | JArr l =>
      S ((fix go (l : list json) : nat :=
            match l with [] => O | v :: l => S (Nat.max (needs v) (go l)) end) l)
  | JObj l =>
      S ((fix go (l : list (list ascii * json)) : nat :=
            match l with [] => O | (_, v) :: l => S (Nat.max (needs v) (go l)) end) l)
  | _ => 1
  end.

Fixpoint needsElems (l : list json) : nat :=
  match l with [] => O | v :: l => S (Nat.max (needs v) (needsElems l)) end.
Fixpoint needsMembers (l : list (list ascii * json)) : nat :=
  match l with [] => O | (_, v) :: l => S (Nat.max (needs v) (needsMembers l)) end.
Fixpoint wfElems (l : list json) : Prop :=
  match l with [] => True | v :: l => wfJson v /\ wfElems l end.
Fixpoint wfMembers (l : list (list ascii * json)) : Prop :=
  match l with [] => True | (k, v) :: l => Forall ascii7 k /\ wfJson v /\ wfMembers l end.

(** Induction over the nested lists. *)
Section json_ind.
Context (P : json -> Prop).
Context (Hnull : P JNull) (Hbool : forall b, P (JBool b)) (Hnum : forall l, P (JNum l)).
Context (Hstr : forall s, P (JStr s)) (Harr : forall l, Forall P l -> P (JArr l)).
Context (Hobj : forall l, Forall (fun kv => P (snd kv)) l -> P (JObj l)).
Fixpoint json_nested_ind (v : json) : P v :=
  match v with
  | JNull => Hnull
  | JBool b => Hbool b
  | JNum l => Hnum l
  | JStr s => Hstr s
  | JArr l => Harr l ((fix go l : Forall P l :=
      match l with [] => @List.Forall_nil _ _ | v :: l => @List.Forall_cons _ P v l (json_nested_ind v) (go l) end) l)
  | JObj l => Hobj l ((fix go l : Forall (fun kv => P (snd kv)) l :=
      match l with [] => @List.Forall_nil _ _ | (k, v) :: l => @List.Forall_cons _ (fun kv => P (snd kv)) (k, v) l (json_nested_ind v) (go l) end) l)
  end.
End json_ind.

Lemma needs_arr l : needs (JArr l) = S (needsElems l).
Proof. done. Qed.
Lemma needs_obj l : needs (JObj l) = S (needsMembers l).
Proof. done. Qed.

Definition parses (v : json) : Prop :=
  forall fuel r, wfJson v -> (needs v <= fuel)%nat -> stops r ->
    parseValue fuel (printJson v ++ r) = Some (v, r).

(** The first character of a value's text. *)
Lemma printJson_head v :
  wfJson v -> exists c t, printJson v = c :: t /\ isWs c = false /\
    Ascii.eqb c "]" = false /\ Ascii.eqb c "}" = false.
Proof.
  intros Hv. destruct v as [|[]|lit|s|l|l]; try (by do 2 eexists).
  destruct Hv as [Hv _]. destruct (num_head lit Hv) as (c & t & -> & Hc).
  apply num_head_classes in Hc as (? & ? & ? & ? & ? & ? & ? & ? & ?). by exists c, t.
Qed.

Lemma parseElems_print l :
  Forall parses l -> l ≠ [] -> forall fuel r,
  wfElems l -> (needsElems l <= fuel)%nat ->
  parseElems fuel (printElems l ++ "]"%char :: r) = Some (l, r).
Proof.
  induction 1 as [|v l Hv Hl IH]; [done|]. intros _ fuel r Hwf Hf.
  destruct fuel as [|fuel]; [simpl in Hf; lia|].
  cbn [needsElems wfElems] in *. destruct Hwf as [Hwv Hwl].
  destruct l as [|w l].
  - cbn [printElems parseElems]. rewrite Hv by (done || lia). done.
  - cbn [parseElems].
    change (printElems (v :: w :: l)) with (printJson v ++ [","%char] ++ printElems (w :: l)).
    rewrite <- !app_assoc. rewrite Hv by (done || lia). cbn [app].
    rewrite skipWs_cons by done. cbn [Ascii.eqb Bool.eqb].
    rewrite IH by (done || lia). done.
Qed.

Lemma parseMembers_print l :
  Forall (fun kv => parses (snd kv)) l -> l ≠ [] -> forall fuel r,
  wfMembers l -> (needsMembers l <= fuel)%nat ->
  parseMembers fuel (printMembers l ++ "}"%char :: r) = Some (l, r).
Proof.
  induction 1 as [|[k v] l Hv Hl IH]; [done|]. intros _ fuel r Hwf Hf.
  destruct fuel as [|fuel]; [simpl in Hf; lia|].
  cbn [needsMembers wfMembers snd] in *. destruct Hwf as (Hk & Hwv & Hwl).
  destruct l as [|[k' w] l].
  - cbn [parseMembers]. change (printMembers [(k, v)]) with (printString k ++ [":"%char] ++ printJson v).
    rewrite <- !app_assoc.
    destruct (parseString_printString k ([":"%char] ++ printJson v ++ "}"%char :: r) Hk)
      as (t & -> & Ht).
    rewrite skipWs_cons by done. rewrite (Ascii.eqb_refl dq), Ht.
    cbn [app]. rewrite skipWs_cons by done. cbn [Ascii.eqb Bool.eqb].
    rewrite Hv by (done || lia). done.
  - cbn [parseMembers].
    change (printMembers ((k, v) :: (k', w) :: l)) with
      (printString k ++ [":"%char] ++ printJson v ++ [","%char] ++ printMembers ((k', w) :: l)).
    rewrite <- !app_assoc.
    destruct (parseString_printString k ([":"%char] ++ printJson v ++ [","%char] ++
      printMembers ((k', w) :: l) ++ "}"%char :: r) Hk) as (t & -> & Ht).
    rewrite skipWs_cons by done. rewrite (Ascii.eqb_refl dq), Ht.
    cbn [app]. rewrite skipWs_cons by done. cbn [Ascii.eqb Bool.eqb].
    rewrite Hv by (done || lia). rewrite skipWs_cons by done. cbn [Ascii.eqb Bool.eqb].
    rewrite IH by (done || lia). done.
Qed.

Lemma parses_all v : parses v.
Proof.
  induction v as [|b|lit|s|l IH|l IH] using json_nested_ind; intros fuel r Hwf Hf Hr;
    (destruct fuel as [|fuel]; [simpl in Hf; lia|]).
  - done.
  - by destruct b.
  - destruct Hwf as [Hv Hn]. destruct (num_head lit Hv) as (c & t & -> & Hc).
    apply num_head_classes in Hc as (Hws & H1 & H2 & H3 & H4 & H5 & H6 & _).
    cbn [parseValue printJson]. change ((c :: t) ++ r) with (c :: (t ++ r)).
    rewrite skipWs_cons, H1, H2, H3, H4, H5, H6 by done.
    change (c :: t ++ r) with ((c :: t) ++ r).
    rewrite span_all, Hv by done. done.
  - cbn [parseValue printJson].
    destruct (parseString_printString s r Hwf) as (t & -> & Ht).
    rewrite skipWs_cons by done. cbn [Ascii.eqb Bool.eqb dq]. by rewrite Ht.
  - rewrite printJson_arr, needs_arr in *. change (wfElems l) in Hwf.
    cbn [parseValue app]. rewrite skipWs_cons by done. cbn [Ascii.eqb Bool.eqb].
    destruct l as [|v l]; [done|].
    rewrite <- app_assoc. cbn [app].
    assert (exists c t, printElems (v :: l) = c :: t /\ isWs c = false /\
      Ascii.eqb c "]" = false) as (c & t & Hh & Hws & Hc).
    { destruct (printJson_head v) as (c & t & Hh & ? & ? & _); [apply Hwf|].
      destruct l; simpl; rewrite Hh; by do 2 eexists. }
    pose proof (parseElems_print (v :: l) IH ltac:(done) fuel r Hwf ltac:(lia)) as Hp.
    rewrite Hh in Hp |- *. cbn [app] in Hp |- *. rewrite skipWs_cons, Hc, Hp by done. done.
  - rewrite printJson_obj, needs_obj in *. change (wfMembers l) in Hwf.
    cbn [parseValue app]. rewrite skipWs_cons by done. cbn [Ascii.eqb Bool.eqb].
    destruct l as [|[k v] l]; [done|].
    rewrite <- app_assoc. cbn [app].
    assert (exists t, printMembers ((k, v) :: l) = dq :: t) as (t & Hh).
    { destruct l as [|[k' w] l]; by eexists. }
    pose proof (parseMembers_print ((k, v) :: l) IH ltac:(done) fuel r Hwf ltac:(lia)) as Hp.
    rewrite Hh in Hp |- *. cbn [app] in Hp |- *. rewrite skipWs_cons, Hp by done. done.
Qed.

Lemma needs_length v : wfJson v -> (needs v <= length (printJson v))%nat.
Proof.
  induction v as [|b|lit|s|l IH|l IH] using json_nested_ind; intros Hwf.
  - simpl. lia.
  - destruct b; simpl; lia.
  - destruct Hwf as [Hv _]. destruct (num_head lit Hv) as (c & t & -> & _). simpl. lia.
  - simpl. lia.
  - rewrite printJson_arr, needs_arr, !length_app. change (wfElems l) in Hwf. cbn [length].
    enough (needsElems l <= length (printElems l) + 1)%nat by lia.
    induction IH as [|v l Hv Hl IHl]; [simpl; lia|]. cbn [wfElems] in Hwf.
    destruct l as [|w l]; cbn [needsElems printElems].
    + pose proof (Hv (proj1 Hwf)). lia.
    + pose proof (Hv (proj1 Hwf)). pose proof (IHl (proj2 Hwf)) as H2.
      cbn [needsElems] in H2. rewrite !length_app. cbn [length].
      cbn [printElems] in H2. lia.
  - rewrite printJson_obj, needs_obj, !length_app. change (wfMembers l) in Hwf. cbn [length].
    enough (needsMembers l <= length (printMembers l) + 1)%nat by lia.
    induction IH as [|[k v] l Hv Hl IHl]; [simpl; lia|]. cbn [wfMembers snd] in *.
    destruct Hwf as (_ & Hwv & Hwl).
    destruct l as [|[k' w] l]; cbn [needsMembers printMembers].
    + pose proof (Hv Hwv). rewrite !length_app. lia.
    + pose proof (Hv Hwv). pose proof (IHl Hwl) as H2. rewrite !length_app. cbn [length].
      cbn [needsMembers printMembers] in H2. lia.
Qed.

Lemma parseJson_printJson v : wfJson v -> parseJson (printJson v) = Some v.
Proof.
  intros Hv. unfold parseJson.
  pose proof (parses_all v (S (length (printJson v))) [] Hv) as Hp.
  rewrite app_nil_r in Hp. rewrite Hp; [done| |done].
  pose proof (needs_length v Hv). lia.
Qed.

(** ** Unsigned integers *)

(** [strconv.ParseUint(lit, 10, 64)] without the range check. *)
Definition digitVal (c : ascii) : Z := Z.of_nat (nat_of_ascii c) - 48.

Fixpoint digitsVal (acc : Z) (s : list ascii) : Z :=
  match s with
  | [] => acc
  | c :: s => digitsVal (acc * 10 + digitVal c) s
  end.

(** A number decoded into a [uintN]; [null] leaves the old value. *)
Definition decodeUint (w : Z) (old : Z) (v : json) : option Z :=
  match v with
  | JNull => Some old
  | JNum lit =>
      if forallb isDigit lit && negb (bool_decide (lit = [])) then
        let n := digitsVal 0 lit in if n <? 2 ^ w then Some n else None
      else None
  | _ => None
  end.

Definition encodeUint (z : Z) : json := JNum (chars (pretty z)).

Lemma pretty_N_char_digit x : isDigit (pretty_N_char x) = true.
Proof. unfold pretty_N_char. by repeat case_match. Qed.

Lemma pretty_N_char_val x : (x < 10)%N -> digitVal (pretty_N_char x) = Z.of_N x.
Proof.
  intros Hx.
  assert (x = 0 \/ x = 1 \/ x = 2 \/ x = 3 \/ x = 4 \/ x = 5 \/ x = 6 \/ x = 7 \/ x = 8 \/ x = 9)%N
    by lia.
  by destruct_or!; subst.
Qed.

(** The digits [pretty_N_go] puts before [s]. *)
Lemma pretty_N_go_digits x s :
  exists ds, chars (pretty_N_go x s) = ds ++ chars s /\ forallb isDigit ds = true /\
    (forall acc, digitsVal acc ds = acc * 10 ^ Z.of_nat (length ds) + Z.of_N x) /\
    ((0 < x)%N -> exists c t, ds = c :: t /\ Ascii.eqb c "0" = false).
Proof.
  revert s. induction (N.lt_wf_0 x) as [x _ IH]; intros s.
  destruct (decide (0 < x)%N) as [Hx|Hx].
  - rewrite pretty_N_go_step by done.
    destruct (IH (x / 10)%N) with (s := String (pretty_N_char (x mod 10)) s)
      as (ds & Hds & Hd & Hval & Hhd); [apply N.div_lt; lia|].
    exists (ds ++ [pretty_N_char (x mod 10)]). split_and!.
    + rewrite Hds. simpl. by rewrite <- app_assoc.
    + rewrite forallb_app, Hd. simpl. by rewrite pretty_N_char_digit.
    + intros acc. assert (forall a s1 s2, digitsVal a (s1 ++ s2) = digitsVal (digitsVal a s1) s2) as Happ.
      { intros a s1. revert a. induction s1; simpl; auto. }
      rewrite Happ, Hval. simpl.
      rewrite pretty_N_char_val by (apply N.mod_lt; lia).
      rewrite length_app, Nat2Z.inj_add, Z.pow_add_r by lia. simpl Z.of_nat.
      rewrite Z.pow_1_r, N2Z.inj_div, N2Z.inj_mod.
      pose proof (Z.div_mod (Z.of_N x) 10 ltac:(lia)). lia.
    + intros _. destruct (N.eq_0_gt_0_cases (x / 10)) as [E|H10].
      2: { destruct (Hhd H10) as (c & t & -> & Hc). by do 2 eexists. }
      assert (ds = []) as ->.
      { rewrite E, pretty_N_go_0 in Hds.
        apply (f_equal length) in Hds. rewrite length_app in Hds.
        destruct ds; [done|]. cbn [length] in Hds. lia. }
      do 2 eexists. split; [done|].
      apply N.div_small_iff in E; [|done]. rewrite N.mod_small by done.
      assert (x = 1 \/ x = 2 \/ x = 3 \/ x = 4 \/ x = 5 \/ x = 6 \/ x = 7 \/ x = 8 \/ x = 9)%N
        by lia.
      by destruct_or!; subst.
  - assert (x = 0%N) as -> by lia. exists []. rewrite pretty_N_go_0.
    split_and!; try done.
    intros acc. simpl. rewrite Z.pow_0_r. lia.
Qed.

Lemma isDigit_isNumChar s : forallb isDigit s = true -> forallb isNumChar s = true.
Proof.
  induction s as [|c s IH]; simpl; [done|]. rewrite !andb_true_iff. intros [Hc Hs].
  split; [|by apply IH]. unfold isNumChar. by rewrite Hc.
Qed.

Lemma span_digits s : forallb isDigit s = true -> snd (span isDigit s) = [].
Proof.
  intros Hs. pose proof (span_all isDigit s [] Hs I) as Hsp. rewrite app_nil_r in Hsp. by rewrite Hsp.
Qed.

Lemma pretty_uint_text z :
  0 <= z ->
  forallb isDigit (chars (pretty z)) = true /\ chars (pretty z) ≠ [] /\
  digitsVal 0 (chars (pretty z)) = z /\ validNumber (chars (pretty z)) = true.
Proof.
  intros Hz. destruct z as [|p|p]; [by vm_compute| |lia].
  change (pretty (Z.pos p)) with (pretty (N.pos p)). unfold pretty, pretty_N.
  case_decide; [done|].
  destruct (pretty_N_go_digits (N.pos p) "") as (ds & -> & Hd & Hval & Hhd).
  simpl. rewrite app_nil_r. destruct Hhd as (c & t & -> & Hc); [lia|].
  split_and!; [done|done| |].
  - rewrite Hval. lia.
  - simpl in Hd. apply andb_true_iff in Hd as [Hc' Ht]. unfold validNumber.
    pose proof (num_head_classes c (or_introl Hc')).
    destruct (Ascii.eqb_spec c "-") as [->|]; [by vm_compute in Hc'|].
    rewrite Hc, Hc', span_digits by done. done.
Qed.

Lemma wf_encodeUint z : 0 <= z -> wfJson (encodeUint z).
Proof.
  intros Hz. destruct (pretty_uint_text z Hz) as (Hd & _ & _ & Hv).
  split; [done|]. by apply isDigit_isNumChar.
Qed.

Lemma decode_encodeUint w old z : is_u w z -> decodeUint w old (encodeUint z) = Some z.
Proof.
  intros Hz. destruct (pretty_uint_text z) as (Hd & Hne & Hval & _); [apply Hz|].
  unfold decodeUint, encodeUint. rewrite Hd, bool_decide_false by done. simpl.
  rewrite Hval. destruct (Z.ltb_spec z (2 ^ w)); [done|]. destruct Hz. lia.
Qed.

(** ** Slices and structs *)

(** A JSON array decoded into a slice; [null] gives the nil slice. *)
Definition decodeSlice {A} (dec : json -> option A) (v : json) : option (list A) :=
  match v with
  | JNull => Some []
  | JArr l => mapM dec l
  | _ => None
  end.

Definition encodeSlice {A} (enc : A -> json) (l : list A) : json := JArr (enc <$> l).

Lemma decode_encodeSlice {A} (enc : A -> json) dec l :
  (forall a, a ∈ l -> dec (enc a) = Some a) ->
  decodeSlice dec (encodeSlice enc l) = Some l.
Proof.
  intros Hdec. apply mapM_Some_2.
  induction l as [|a l IH]; constructor; [apply Hdec; set_solver|].
  apply IH. set_solver.
Qed.

Lemma wf_encodeSlice {A} (enc : A -> json) l :
  (forall a, a ∈ l -> wfJson (enc a)) -> wfJson (encodeSlice enc l).
Proof.
  intros Hwf. change (wfElems (enc <$> l)). induction l as [|a l IH]; [done|].
  simpl. split; [apply Hwf; set_solver|]. apply IH. set_solver.
Qed.

(** Field names match without regard to case. *)
Definition lower (c : ascii) : ascii :=
  let n := nat_of_ascii c in
  if (65 <=? n)%nat && (n <=? 90)%nat then ascii_of_nat (n + 32) else c.

Definition fieldEq (name : string) (k : list ascii) : bool :=
  bool_decide ((lower <$> chars name) = (lower <$> k)).

(** [json.Unmarshal] of an object into a struct: each member is decoded into
    the field it names, in the document's order; [set] leaves the struct
    unchanged for an unknown name.  [null] changes nothing. *)
Definition decodeStruct {A} (set : list ascii -> json -> A -> option A) (zero : A) (v : json) :
    option A :=
  match v with
  | JNull => Some zero
  | JObj l => foldl (fun acc kv => a ← acc; set kv.1 kv.2 a) (Some zero) l
  | _ => None
  end.

(** ** Codecs

    What a component relies on when it stores a value with [json.Marshal]. *)

Class JsonCodec (A : Type) := {
  json_Marshal : A -> list byte;
  json_Unmarshal : list byte -> option A;
  json_ok : A -> Prop;
  json_roundtrip a : json_ok a -> json_Unmarshal (json_Marshal a) = Some a;
}.

Definition bytes_of_chars (s : list ascii) : list byte := byte_of_ascii <$> s.
Definition chars_of_bytes (b : list byte) : list ascii := ascii_of_byte <$> b.

Lemma chars_of_bytes_of_chars s : chars_of_bytes (bytes_of_chars s) = s.
Proof.
  induction s as [|c s IH]; [done|]. simpl. f_equal; [apply ascii_of_byte_of_ascii|done].
Qed.

Definition marshalText (v : json) : list byte := bytes_of_chars (printJson v).
Definition unmarshalText (b : list byte) : option json := parseJson (chars_of_bytes b).

Lemma unmarshalText_marshalText v : wfJson v -> unmarshalText (marshalText v) = Some v.
Proof.
  intros Hv. unfold unmarshalText, marshalText.
  by rewrite chars_of_bytes_of_chars, parseJson_printJson.
Qed.

(** ** Automation for struct codecs *)

Lemma ascii7_name (s : string) :
  forallb (fun c => (nat_of_ascii c <? 128)%nat) (chars s) = true -> Forall ascii7 (chars s).
Proof.
  intros Hs. rewrite forallb_forall in Hs. apply List.Forall_forall. intros c Hc.
  by apply Nat.ltb_lt, Hs.
Qed.

Lemma wf_uints w (l : list Z) : 0 <= w -> Forall (is_u w) l -> wfJson (encodeSlice encodeUint l).
Proof.
  intros Hw Hl. apply wf_encodeSlice. intros z Hz. apply wf_encodeUint.
  rewrite List.Forall_forall in Hl. apply list_elem_of_In in Hz. apply (Hl z Hz).
Qed.

Lemma decode_uints w (l : list Z) :
  Forall (is_u w) l -> decodeSlice (decodeUint w 0) (encodeSlice encodeUint l) = Some l.
Proof.
  intros Hl. apply decode_encodeSlice. intros z Hz. apply decode_encodeUint.
  rewrite List.Forall_forall in Hl. apply list_elem_of_In in Hz. apply (Hl z Hz).
Qed.

(** Decides the field names of a closed document. *)
Ltac json_fields :=
  repeat match goal with
  | |- context [fieldEq ?a (chars ?b)] =>
      let r := eval vm_compute in (fieldEq a (chars b)) in
      change (fieldEq a (chars b)) with r; cbv iota
  end.

(** Proves that the document of a struct of names and unsigned integers is
    well formed. *)
Ltac json_wf :=
  repeat match goal with
  | |- wfJson (JObj ?l) => change (wfMembers l)
  | |- wfMembers _ => cbn [wfMembers]
  | |- _ /\ _ => split
  | |- True => done
  | |- Forall ascii7 (chars _) => apply ascii7_name; reflexivity
  | |- wfJson (encodeUint _) => apply wf_encodeUint
  end.

(** A codec for examples: the binary digits of the value's number. *)
Definition countableCodec (A : Type) `{Countable A} : JsonCodec A.
Proof.
  refine {| json_Marshal a := posBytes (encode a);
            json_Unmarshal b := decode (bytesPos b);
            json_ok _ := True |}.
  abstract (intros a _; rewrite bytesPos_posBytes; apply decode_encode).
Defined.
