(* ===== verification/StateVector.v ===== *)
(** * State vectors

    [storage/utility/stateVector.go]: a fixed number of keys, each used or
    unused, kept as a bit field of 64-bit blocks with a cached first unused key
    and a cached number of unused keys, and backed by the versioned store.
    Session key states and file transfer parts are tracked with it. *)

From S2P Require Import Prelude GoBytes KV Json.

(** ** The data *)

Record StateVector := mkStateVector {
  sv_vect : list Z;            (* []uint64 *)
  sv_firstAvailable : Z;       (* uint32 *)
  sv_numKeys : Z;              (* uint32 *)
  sv_numAvailable : Z;         (* uint32 *)
  sv_disableKV : bool;
  sv_key : string;
  sv_kv : kv;
}.

Definition stateVectorKey : string := "stateVector".
Definition currentStateVectorVersion : Z := 0.
Definition noKeysErr : error := Errorf "all keys used" [].
Definition loadUnmarshalErr : error := Errorf "failed to unmarshal from storage: %+v" [].

Definition makeStateVectorKey (key : string) : string := stateVectorKey +:+ key.

Definition getBlockAndPos (keyNum : Z) : Z * Z := (keyNum / 64, keyNum mod 64).

(** Functional updates of the changing fields. *)
Definition sv_setVect (sv : StateVector) (v : list Z) : StateVector :=
  mkStateVector v (sv_firstAvailable sv) (sv_numKeys sv) (sv_numAvailable sv)
    (sv_disableKV sv) (sv_key sv) (sv_kv sv).
Definition sv_setFirst (sv : StateVector) (k : Z) : StateVector :=
  mkStateVector (sv_vect sv) k (sv_numKeys sv) (sv_numAvailable sv)
    (sv_disableKV sv) (sv_key sv) (sv_kv sv).
Definition sv_setAvail (sv : StateVector) (n : Z) : StateVector :=
  mkStateVector (sv_vect sv) (sv_firstAvailable sv) (sv_numKeys sv) n
    (sv_disableKV sv) (sv_key sv) (sv_kv sv).

(** ** Key states *)

Definition StateVector_used (sv : StateVector) (keyNum : Z) : result bool :=
  let '(block, pos) := getBlockAndPos keyNum in
  v ← index (sv_vect sv) block;
  Ok (Z.land (shr64 v pos) 1 =? 1).

(** The loop of [nextAvailable]; [fuel] bounds its rounds. *)
Fixpoint nextAvailable_loop (fuel : nat) (vect : list Z) (pos : Z) : Z :=
  match fuel with
  | O => pos
  | S fuel =>
      let block := pos / 64 in
      if block <? u32 (Z.of_nat (length vect)) then
        match vect !! Z.to_nat block with
        | Some v =>
            if Z.land (shr64 v (pos mod 64)) 1 =? 1
            then nextAvailable_loop fuel vect (u32 (pos + 1))
            else pos
        | None => pos
        end
      else pos
  end.

Definition StateVector_nextAvailable (sv : StateVector) : StateVector :=
  let pos := u32 (sv_firstAvailable sv + 1) in
  sv_setFirst sv (nextAvailable_loop (64 * length (sv_vect sv) + 1) (sv_vect sv) pos).

Definition StateVector_use (sv : StateVector) (keyNum : Z) : result StateVector :=
  b ← StateVector_used sv keyNum;
  if (b : bool) then Ok sv
  else
    let '(block, pos) := getBlockAndPos keyNum in
    v ← index (sv_vect sv) block;
    vect ← store_at (sv_vect sv) block (Z.lor v (shl64 1 pos));
    let sv := sv_setVect sv vect in
    let sv := sv_setAvail sv (u32 (sv_numAvailable sv - 1)) in
    Ok (if keyNum =? sv_firstAvailable sv then StateVector_nextAvailable sv else sv).

Definition StateVector_unuse (sv : StateVector) (keyNum : Z) : result StateVector :=
  b ← StateVector_used sv keyNum;
  if negb b then Ok sv
  else
    let '(block, pos) := getBlockAndPos keyNum in
    v ← index (sv_vect sv) block;
    vect ← store_at (sv_vect sv) block (Z.land v (not64 (shl64 1 pos)));
    let sv := sv_setVect sv vect in
    let sv := sv_setAvail sv (u32 (sv_numAvailable sv + 1)) in
    Ok (if keyNum <? sv_firstAvailable sv then sv_setFirst sv keyNum else sv).

(** The loops of [UseMany] and [UnuseMany]. *)
Fixpoint StateVector_useAll (sv : StateVector) (keyNums : list Z) : result StateVector :=
  match keyNums with
  | [] => Ok sv
  | k :: ks => sv ← StateVector_use sv k; StateVector_useAll sv ks
  end.

Fixpoint StateVector_unuseAll (sv : StateVector) (keyNums : list Z) : result StateVector :=
  match keyNums with
  | [] => Ok sv
  | k :: ks => sv ← StateVector_unuse sv k; StateVector_unuseAll sv ks
  end.

(** ** Reading *)

Definition StateVector_GetNumAvailable (sv : StateVector) : Z := sv_numAvailable sv.
Definition StateVector_GetNumUsed (sv : StateVector) : Z :=
  u32 (sv_numKeys sv - sv_numAvailable sv).
Definition StateVector_GetNumKeys (sv : StateVector) : Z := sv_numKeys sv.

(** The loops of [GetUnusedKeyNums] ([want = false]) and [GetUsedKeyNums]. *)
Fixpoint collectKeys (sv : StateVector) (want : bool) (keys : list Z) : result (list Z) :=
  match keys with
  | [] => Ok []
  | k :: ks =>
      b ← StateVector_used sv k;
      rest ← collectKeys sv want ks;
      Ok (if Bool.eqb b want then k :: rest else rest)
  end.

Definition StateVector_GetUnusedKeyNums (sv : StateVector) : result (list Z) :=
  collectKeys sv false (zseq (sv_firstAvailable sv) (sv_numKeys sv)).

Definition StateVector_GetUsedKeyNums (sv : StateVector) : result (list Z) :=
  collectKeys sv true (zseq 0 (sv_numKeys sv)).

Definition StateVector_DeepCopy (sv : StateVector) : StateVector :=
  mkStateVector (sv_vect sv) (sv_firstAvailable sv) (sv_numKeys sv) (sv_numAvailable sv)
    true (sv_key sv) NewKV.

(** ** Storage *)

Record stateVectorDisk := mkStateVectorDisk {
  Vect : list Z;
  FirstAvailable : Z;
  NumKeys : Z;
  NumAvailable : Z;
}.

Definition stateVectorDisk_json (d : stateVectorDisk) : json :=
  JObj [(chars "Vect", encodeSlice encodeUint (Vect d));
        (chars "FirstAvailable", encodeUint (FirstAvailable d));
        (chars "NumKeys", encodeUint (NumKeys d));
        (chars "NumAvailable", encodeUint (NumAvailable d))].

Definition stateVectorDisk_set (k : list Ascii.ascii) (v : json) (d : stateVectorDisk) :
    option stateVectorDisk :=
  if fieldEq "Vect" k then
    l ← decodeSlice (decodeUint 64 0) v;
    Some (mkStateVectorDisk l (FirstAvailable d) (NumKeys d) (NumAvailable d))
  else if fieldEq "FirstAvailable" k then
    n ← decodeUint 32 (FirstAvailable d) v;
    Some (mkStateVectorDisk (Vect d) n (NumKeys d) (NumAvailable d))
  else if fieldEq "NumKeys" k then
    n ← decodeUint 32 (NumKeys d) v;
    Some (mkStateVectorDisk (Vect d) (FirstAvailable d) n (NumAvailable d))
  else if fieldEq "NumAvailable" k then
    n ← decodeUint 32 (NumAvailable d) v;
    Some (mkStateVectorDisk (Vect d) (FirstAvailable d) (NumKeys d) n)
  else Some d.

Definition StateVector_MarshalJSON (sv : StateVector) : list byte :=
  marshalText (stateVectorDisk_json
    (mkStateVectorDisk (sv_vect sv) (sv_firstAvailable sv) (sv_numKeys sv) (sv_numAvailable sv))).

Definition StateVector_UnmarshalJSON (sv : StateVector) (data : list byte) : result StateVector :=
  match unmarshalText data ≫= decodeStruct stateVectorDisk_set (mkStateVectorDisk [] 0 0 0) with
  | Some svd =>
      Ok (mkStateVector (Vect svd) (FirstAvailable svd) (NumKeys svd) (NumAvailable svd)
            (sv_disableKV sv) (sv_key sv) (sv_kv sv))
  | None => Err (Errorf "json" [])
  end.

Section storage.
Context {S : Type} `{EKV S}.

(** [now] is the reading of [netTime.Now()]. *)
Definition StateVector_save (s : S) (sv : StateVector) (now : Time) : S * option error :=
  if sv_disableKV sv then (s, None)
  else kv_Set (sv_kv sv) s (sv_key sv)
         (mkObject currentStateVectorVersion now (StateVector_MarshalJSON sv)).

Definition StateVector_Delete (s : S) (sv : StateVector) : S * option error :=
  if sv_disableKV sv then (s, None)
  else kv_Delete (sv_kv sv) s (sv_key sv) currentStateVectorVersion.

Definition NewStateVector (s : S) (numKeys : Z) (disableKV : bool) (key : string)
    (kv : kv) (now : Time) : StateVector * S * option error :=
  let numBlocks := u32 (numKeys + 63) / 64 in
  let sv := mkStateVector (replicate (Z.to_nat numBlocks) 0) 0 numKeys numKeys
              disableKV (makeStateVectorKey key) kv in
  let '(s, err) := StateVector_save s sv now in (sv, s, err).

Definition LoadStateVector (s : S) (kv : kv) (key : string) : result StateVector :=
  let sv := mkStateVector [] 0 0 0 false (makeStateVectorKey key) kv in
  match kv_Get kv s (sv_key sv) currentStateVectorVersion with
  | inl e => Err e
  | inr obj => wrap_err "failed to unmarshal from storage: %+v" []
                 (StateVector_UnmarshalJSON sv (Data obj))
  end.

(** [Use], [UseMany], [Unuse] and [UnuseMany]: a failed save is only logged. *)
Definition StateVector_Use (s : S) (sv : StateVector) (keyNum : Z) (now : Time) :
    result (S * StateVector) :=
  sv ← StateVector_use sv keyNum;
  Ok (fst (StateVector_save s sv now), sv).

Definition StateVector_UseMany (s : S) (sv : StateVector) (keyNums : list Z) (now : Time) :
    result (S * StateVector) :=
  sv ← StateVector_useAll sv keyNums;
  Ok (fst (StateVector_save s sv now), sv).

Definition StateVector_Unuse (s : S) (sv : StateVector) (keyNum : Z) (now : Time) :
    result (S * StateVector) :=
  sv ← StateVector_unuse sv keyNum;
  Ok (fst (StateVector_save s sv now), sv).

Definition StateVector_UnuseMany (s : S) (sv : StateVector) (keyNums : list Z) (now : Time) :
    result (S * StateVector) :=
  sv ← StateVector_unuseAll sv keyNums;
  Ok (fst (StateVector_save s sv now), sv).

(** [Next]: a failed save panics.  The error case returns [numKeys] too. *)
Definition StateVector_Next (s : S) (sv : StateVector) (now : Time) :
    result (S * StateVector * Z * option error) :=
  if sv_numKeys sv <=? sv_firstAvailable sv
  then Ok (s, sv, sv_numKeys sv, Some noKeysErr)
  else
    let nextKey := sv_firstAvailable sv in
    sv ← StateVector_use sv nextKey;
    match StateVector_save s sv now with
    | (s, None) => Ok (s, sv, nextKey, None)
    | (_, Some _) => Panic
    end.
End storage.

(** ** The bit field *)

(** The state of a key in the bit field; keys past the blocks are unused. *)
Definition bitAt (vect : list Z) (k : Z) : bool :=
  match vect !! Z.to_nat (k / 64) with
  | Some v => Z.testbit v (k mod 64)
  | None => false
  end.

Lemma block_in_range (vect : list Z) k :
  0 <= k < 64 * Z.of_nat (length vect) ->
  exists v, index vect (k / 64) = Ok v /\ vect !! Z.to_nat (k / 64) = Some v.
Proof. intros Hk. apply index_in_range. zlia. Qed.

Lemma used_bitAt sv k :
  0 <= k < 64 * Z.of_nat (length (sv_vect sv)) ->
  StateVector_used sv k = Ok (bitAt (sv_vect sv) k).
Proof.
  intros Hk. unfold StateVector_used, getBlockAndPos, bitAt.
  destruct (block_in_range _ _ Hk) as (v & -> & ->). simpl.
  unfold shr64. rewrite land_1_testbit by zlia. done.
Qed.

Lemma bitAt_past vect k : 64 * Z.of_nat (length vect) <= k -> bitAt vect k = false.
Proof.
  intros Hk. unfold bitAt. rewrite lookup_ge_None_2; [done|].
  assert (Z.of_nat (length vect) <= k / 64) by zlia. lia.
Qed.

Lemma testbit_shl64_1 p n : 0 <= p < 64 -> 0 <= n -> Z.testbit (shl64 1 p) n = (n =? p).
Proof.
  intros Hp Hn. unfold shl64. rewrite testbit_wrapu, Z.shiftl_1_l, Z.pow2_bits_eqb by lia.
  rewrite (Z.eqb_sym p). destruct (Z.eqb_spec n p); [|by rewrite andb_false_r].
  by rewrite bool_decide_true by lia.
Qed.

(** Changing one block changes one key's state. *)
Lemma bitAt_update vect k v v' j :
  0 <= k -> 0 <= j -> vect !! Z.to_nat (k / 64) = Some v ->
  (forall n, 0 <= n < 64 -> n ≠ k mod 64 -> Z.testbit v' n = Z.testbit v n) ->
  bitAt (<[Z.to_nat (k / 64) := v']> vect) j =
    if j =? k then Z.testbit v' (k mod 64) else bitAt vect j.
Proof.
  intros Hk Hj Hv Hn. unfold bitAt. rewrite list_lookup_insert.
  pose proof (lookup_lt_Some _ _ _ Hv).
  destruct (Z.eqb_spec j k) as [->|Hne].
  - by rewrite decide_True by done.
  - destruct (decide (k / 64 = j / 64)) as [Heq|Hneq].
    + rewrite decide_True by (split; [by rewrite Heq|done]). rewrite <- Heq, Hv.
      apply Hn; zlia.
    + rewrite decide_False; [done|]. intros [Heq _]. apply Hneq.
      apply Z2Nat.inj in Heq; [done|zlia|zlia].
Qed.

(** The loop stops at the first unused key at or after its start. *)
Lemma nextAvailable_loop_spec fuel vect pos :
  64 * Z.of_nat (length vect) < 2 ^ 32 -> 0 <= pos <= 64 * Z.of_nat (length vect) ->
  64 * Z.of_nat (length vect) - pos < Z.of_nat fuel ->
  let p := nextAvailable_loop fuel vect pos in
  pos <= p <= 64 * Z.of_nat (length vect) /\ bitAt vect p = false /\
  (forall j, pos <= j < p -> bitAt vect j = true).
Proof.
  intros Hlen. revert pos. induction fuel as [|fuel IH]; intros pos Hpos Hf; [lia|].
  cbn [nextAvailable_loop]. rewrite wrapu_small by (unfold is_u; lia).
  destruct (Z.ltb_spec (pos / 64) (Z.of_nat (length vect))) as [Hlt|Hge].
  - destruct (block_in_range vect pos) as (v & _ & Hv); [zlia|]. rewrite Hv.
    unfold shr64. rewrite land_1_testbit by zlia.
    assert (bitAt vect pos = Z.testbit v (pos mod 64)) as Hb by (unfold bitAt; by rewrite Hv).
    destruct (Z.testbit v (pos mod 64)).
    + assert (pos < 64 * Z.of_nat (length vect)) by zlia.
      rewrite wrapu_small by (unfold is_u; lia).
      destruct (IH (pos + 1)) as (Hp & Hu & Hall); [lia|lia|]. cbv zeta.
      split_and!; [lia|lia|done|]. intros j Hj.
      destruct (decide (j = pos)) as [->|]; [done|]. apply Hall. lia.
    + cbv zeta. split_and!; [lia|lia|done|lia].
  - assert (pos = 64 * Z.of_nat (length vect)) as -> by zlia. cbv zeta.
    split_and!; [lia|lia|apply bitAt_past; lia|lia].
Qed.

(** ** The invariant *)

Record sv_inv (sv : StateVector) : Prop := {
  inv_numKeys : 0 <= sv_numKeys sv <= 2 ^ 32 - 64;
  inv_length : Z.of_nat (length (sv_vect sv)) = (sv_numKeys sv + 63) / 64;
  inv_blocks : Forall (is_u 64) (sv_vect sv);
  inv_tail k : sv_numKeys sv <= k -> bitAt (sv_vect sv) k = false;
  inv_available :
    sv_numAvailable sv = count (fun k => negb (bitAt (sv_vect sv) k)) (zseq 0 (sv_numKeys sv));
  inv_first : 0 <= sv_firstAvailable sv <= sv_numKeys sv;
  inv_before k : 0 <= k < sv_firstAvailable sv -> bitAt (sv_vect sv) k = true;
  inv_unused : bitAt (sv_vect sv) (sv_firstAvailable sv) = false;
}.

Lemma inv_covers sv : sv_inv sv -> sv_numKeys sv <= 64 * Z.of_nat (length (sv_vect sv)).
Proof. intros [? ->]. zlia. Qed.

Lemma inv_cap sv : sv_inv sv -> 64 * Z.of_nat (length (sv_vect sv)) < 2 ^ 32.
Proof. intros [? ->]. zlia. Qed.

Lemma inv_available_range sv : sv_inv sv -> 0 <= sv_numAvailable sv <= sv_numKeys sv.
Proof.
  intros Hi. rewrite (inv_available _ Hi). split; [apply count_nonneg|].
  etrans; [apply count_le_length|]. rewrite length_zseq.
  pose proof (inv_numKeys _ Hi). lia.
Qed.

Lemma used_ok sv k :
  sv_inv sv -> 0 <= k < sv_numKeys sv -> StateVector_used sv k = Ok (bitAt (sv_vect sv) k).
Proof. intros Hi Hk. apply used_bitAt. pose proof (inv_covers _ Hi). lia. Qed.

Lemma nextAvailable_inv sv :
  0 <= sv_numKeys sv <= 2 ^ 32 - 64 ->
  Z.of_nat (length (sv_vect sv)) = (sv_numKeys sv + 63) / 64 ->
  (forall k, sv_numKeys sv <= k -> bitAt (sv_vect sv) k = false) ->
  0 <= sv_firstAvailable sv < sv_numKeys sv ->
  (forall k, 0 <= k <= sv_firstAvailable sv -> bitAt (sv_vect sv) k = true) ->
  let p := sv_firstAvailable (StateVector_nextAvailable sv) in
  0 <= p <= sv_numKeys sv /\ bitAt (sv_vect sv) p = false /\
  (forall k, 0 <= k < p -> bitAt (sv_vect sv) k = true).
Proof.
  intros Hn Hlen Htail Hf Hb. unfold StateVector_nextAvailable. cbv zeta. simpl.
  rewrite wrapu_small by (unfold is_u; lia).
  destruct (nextAvailable_loop_spec (64 * length (sv_vect sv) + 1) (sv_vect sv)
    (sv_firstAvailable sv + 1)) as (Hp & Hu & Hall); [zlia|zlia|lia|].
  set (p := nextAvailable_loop _ _ _) in *.
  assert (p <= sv_numKeys sv).
  { destruct (decide (p <= sv_numKeys sv)); [done|].
    assert (bitAt (sv_vect sv) (sv_numKeys sv) = true) as Ht by (apply Hall; lia).
    by rewrite Htail in Ht by lia. }
  split_and!; [lia|lia|done|]. intros k Hk.
  destruct (decide (k <= sv_firstAvailable sv)); [apply Hb; lia|apply Hall; lia].
Qed.

(** What a change of key states leaves alone. *)
Definition same_config (sv sv' : StateVector) : Prop :=
  sv_numKeys sv' = sv_numKeys sv /\ sv_disableKV sv' = sv_disableKV sv /\
  sv_key sv' = sv_key sv /\ sv_kv sv' = sv_kv sv.

(** The count of unused keys after one key changes state. *)
Lemma unused_count vect vect' n k b :
  0 <= k < n -> bitAt vect k = negb b ->
  (forall j, 0 <= j -> bitAt vect' j = if j =? k then b else bitAt vect j) ->
  count (fun j => negb (bitAt vect' j)) (zseq 0 n) =
    count (fun j => negb (bitAt vect j)) (zseq 0 n) + (if b then -1 else 1).
Proof.
  intros Hk Hold Hnew.
  rewrite (count_ext _ (fun j => negb (if j =? k then b else bitAt vect j))).
  2: { intros j Hj. apply elem_of_zseq in Hj. by rewrite Hnew by lia. }
  rewrite (count_update _ (fun j => negb (bitAt vect j)) _ k);
    [|apply NoDup_zseq|apply elem_of_zseq; lia|].
  - rewrite Z.eqb_refl, Hold. destruct b; simpl; lia.
  - intros j Hj. by rewrite (proj2 (Z.eqb_neq _ _) Hj).
Qed.

Lemma Forall_is_u_lookup vect i v : Forall (is_u 64) vect -> vect !! i = Some v -> is_u 64 v.
Proof. intros Hv Hi. by eapply Forall_lookup_1. Qed.

Lemma is_u_shl64 x n : is_u 64 (shl64 x n).
Proof. apply wrapu_range. lia. Qed.

(** The parts of the invariant that do not involve the first unused key, after
    the block of key [k] is replaced by one that gives [k] the state [b]. *)
Record flipped (sv : StateVector) (k : Z) (b : bool) (vect' : list Z) : Prop := {
  flip_bits j : 0 <= j -> bitAt vect' j = if j =? k then b else bitAt (sv_vect sv) j;
  flip_length : Z.of_nat (length vect') = (sv_numKeys sv + 63) / 64;
  flip_blocks : Forall (is_u 64) vect';
  flip_tail j : sv_numKeys sv <= j -> bitAt vect' j = false;
  flip_count :
    u32 (sv_numAvailable sv + (if b then -1 else 1)) =
      count (fun j => negb (bitAt vect' j)) (zseq 0 (sv_numKeys sv));
}.

Lemma flip_spec sv k b v v' :
  sv_inv sv -> 0 <= k < sv_numKeys sv -> bitAt (sv_vect sv) k = negb b ->
  sv_vect sv !! Z.to_nat (k / 64) = Some v -> is_u 64 v' ->
  (forall n, 0 <= n < 64 -> Z.testbit v' n = if n =? k mod 64 then b else Z.testbit v n) ->
  flipped sv k b (<[Z.to_nat (k / 64) := v']> (sv_vect sv)).
Proof.
  intros Hi Hk Hb Hv Hv' Hbit.
  assert (forall j, 0 <= j -> bitAt (<[Z.to_nat (k / 64) := v']> (sv_vect sv)) j =
    if j =? k then b else bitAt (sv_vect sv) j) as Hbits.
  { intros j Hj. rewrite (bitAt_update _ _ v) by
      (done || lia || intros; rewrite Hbit by done; by rewrite (proj2 (Z.eqb_neq _ _))).
    by rewrite Hbit, Z.eqb_refl by zlia. }
  pose proof (inv_numKeys _ Hi) as Hn.
  constructor; [done| | | |].
  - rewrite length_insert. apply (inv_length _ Hi).
  - apply Forall_insert; [apply (inv_blocks _ Hi)|done].
  - intros j Hj. rewrite Hbits, (inv_tail _ Hi) by lia. by rewrite (proj2 (Z.eqb_neq _ _)) by lia.
  - rewrite (unused_count (sv_vect sv) _ _ k b) by done.
    rewrite <- (inv_available _ Hi). pose proof (inv_available_range _ Hi).
    apply wrapu_small. split; [|destruct b; lia].
    destruct b; [|lia]. enough (0 < sv_numAvailable sv) by lia. rewrite (inv_available _ Hi).
    apply count_pos. exists k. rewrite elem_of_zseq, Hb. by split.
Qed.

(** [use] succeeds on a valid key, keeps the invariant and marks that key. *)
Lemma use_spec sv k :
  sv_inv sv -> 0 <= k < sv_numKeys sv ->
  exists sv', StateVector_use sv k = Ok sv' /\ sv_inv sv' /\ same_config sv sv' /\
    (forall j, 0 <= j -> bitAt (sv_vect sv') j = if j =? k then true else bitAt (sv_vect sv) j).
Proof.
  intros Hi Hk. unfold StateVector_use. rewrite used_ok by done. simpl.
  destruct (bitAt (sv_vect sv) k) eqn:Hb.
  { exists sv. split_and!; try done. intros j Hj. by destruct (Z.eqb_spec j k) as [->|]. }
  pose proof (inv_covers _ Hi) as Hc. pose proof (inv_first _ Hi) as Hf.
  pose proof (inv_numKeys _ Hi) as Hn.
  destruct (block_in_range (sv_vect sv) k) as (v & -> & Hv); [lia|]. simpl.
  rewrite (proj2 (store_at_Ok _ (<[Z.to_nat (k / 64) := Z.lor v (shl64 1 (k mod 64))]> (sv_vect sv)) _ _))
    by (split; [zlia|done]). simpl.
  destruct (flip_spec sv k true v (Z.lor v (shl64 1 (k mod 64)))) as [Hbits ? ? ? Hcnt];
    [done|done|done|done| | |].
  { apply is_u_lor; [lia| |apply is_u_shl64].
    by eapply Forall_is_u_lookup; [apply (inv_blocks _ Hi)|]. }
  { intros n Hn'. rewrite Z.lor_spec, testbit_shl64_1 by zlia.
    destruct (n =? k mod 64); [apply orb_true_r|apply orb_false_r]. }
  set (vect' := <[Z.to_nat (k / 64) := _]> (sv_vect sv)) in *.
  destruct (Z.eqb_spec k (sv_firstAvailable sv)) as [Heq|Hne]; eexists; (split; [done|]);
    (split; [|by split_and!]).
  - destruct (nextAvailable_inv (sv_setAvail (sv_setVect sv vect') (u32 (sv_numAvailable sv - 1))))
      as (Hp & Hu & Hbef); simpl; try done; [lia|].
    intros j Hj. rewrite Hbits by lia. destruct (Z.eqb_spec j k); [done|].
    apply (inv_before _ Hi). lia.
  - constructor; try done; simpl.
    + intros j Hj. rewrite Hbits, (inv_before _ Hi) by lia. by destruct (j =? k).
    + rewrite Hbits, (inv_unused _ Hi) by lia. by rewrite (proj2 (Z.eqb_neq _ _)) by done.
Qed.

(** [unuse] succeeds on a valid key, keeps the invariant and frees that key. *)
Lemma unuse_spec sv k :
  sv_inv sv -> 0 <= k < sv_numKeys sv ->
  exists sv', StateVector_unuse sv k = Ok sv' /\ sv_inv sv' /\ same_config sv sv' /\
    (forall j, 0 <= j -> bitAt (sv_vect sv') j = if j =? k then false else bitAt (sv_vect sv) j).
Proof.
  intros Hi Hk. unfold StateVector_unuse. rewrite used_ok by done. simpl.
  destruct (bitAt (sv_vect sv) k) eqn:Hb; simpl.
  2: { exists sv. split_and!; try done. intros j Hj. by destruct (Z.eqb_spec j k) as [->|]. }
  pose proof (inv_covers _ Hi) as Hc. pose proof (inv_first _ Hi) as Hf.
  pose proof (inv_numKeys _ Hi) as Hn.
  destruct (block_in_range (sv_vect sv) k) as (v & -> & Hv); [lia|]. simpl.
  rewrite (proj2 (store_at_Ok _ (<[Z.to_nat (k / 64) := Z.land v (not64 (shl64 1 (k mod 64)))]> (sv_vect sv)) _ _))
    by (split; [zlia|done]). simpl.
  destruct (flip_spec sv k false v (Z.land v (not64 (shl64 1 (k mod 64))))) as [Hbits ? ? ? Hcnt];
    [done|done|done|done| | |].
  { apply is_u_land; [lia| |apply is_u_not64, is_u_shl64].
    by eapply Forall_is_u_lookup; [apply (inv_blocks _ Hi)|]. }
  { intros n Hn'. rewrite Z.land_spec, testbit_not64, testbit_shl64_1 by zlia.
    destruct (n =? k mod 64); [apply andb_false_r|apply andb_true_r]. }
  set (vect' := <[Z.to_nat (k / 64) := _]> (sv_vect sv)) in *.
  destruct (Z.ltb_spec k (sv_firstAvailable sv)) as [Hlt'|Hge]; eexists; (split; [done|]);
    (split; [|by split_and!]); (constructor; try done; simpl; try lia).
  - intros j Hj. rewrite Hbits, (inv_before _ Hi) by lia. by rewrite (proj2 (Z.eqb_neq _ _)) by lia.
  - rewrite Hbits by lia. by rewrite Z.eqb_refl.
  - intros j Hj. rewrite Hbits, (inv_before _ Hi) by lia. by rewrite (proj2 (Z.eqb_neq _ _)) by lia.
  - rewrite Hbits, (inv_unused _ Hi) by lia. by destruct (sv_firstAvailable sv =? k).
Qed.

(** ** The abstract state: the set of used keys among [0, n) *)

Inductive svOp :=
| OpUse (k : Z)
| OpUseMany (ks : list Z)
| OpUnuse (k : Z)
| OpUnuseMany (ks : list Z)
| OpNext.

Definition opKeysOk (n : Z) (op : svOp) : Prop :=
  match op with
  | OpUse k | OpUnuse k => 0 <= k < n
  | OpUseMany ks | OpUnuseMany ks => Forall (fun k => 0 <= k < n) ks
  | OpNext => True
  end.

Definition unusedKeys (n : Z) (U : gset Z) : list Z := filter (fun k => k ∉ U) (zseq 0 n).

(** One operation on the abstract state, with the key [Next] returns, or its
    error when every key is used. *)
Definition absExec (n : Z) (op : svOp) (U : gset Z) : gset Z * option (error + Z) :=
  match op with
  | OpUse k => ({[k]} ∪ U, None)
  | OpUseMany ks => (list_to_set ks ∪ U, None)
  | OpUnuse k => (U ∖ {[k]}, None)
  | OpUnuseMany ks => (U ∖ list_to_set ks, None)
  | OpNext =>
      match unusedKeys n U with
      | [] => (U, Some (inl noKeysErr))
      | k :: _ => ({[k]} ∪ U, Some (inr k))
      end
  end.

Fixpoint absRun (n : Z) (ops : list svOp) (U : gset Z) : gset Z * list (option (error + Z)) :=
  match ops with
  | [] => (U, [])
  | op :: ops =>
      let '(U1, out) := absExec n op U in
      let '(U2, outs) := absRun n ops U1 in (U2, out :: outs)
  end.

Section concrete.
Context {S : Type} `{EKV S}.

Definition svExec (op : svOp) (st : S * StateVector) (now : Time) :
    result ((S * StateVector) * option (error + Z)) :=
  let '(s, sv) := st in
  match op with
  | OpUse k => st ← StateVector_Use s sv k now; Ok (st, None)
  | OpUseMany ks => st ← StateVector_UseMany s sv ks now; Ok (st, None)
  | OpUnuse k => st ← StateVector_Unuse s sv k now; Ok (st, None)
  | OpUnuseMany ks => st ← StateVector_UnuseMany s sv ks now; Ok (st, None)
  | OpNext =>
      '(s, sv, k, err) ← StateVector_Next s sv now;
      Ok ((s, sv), Some (match err with Some e => inl e | None => inr k end))
  end.

Fixpoint svRun (ops : list svOp) (st : S * StateVector) (now : Time) :
    result ((S * StateVector) * list (option (error + Z))) :=
  match ops with
  | [] => Ok (st, [])
  | op :: ops =>
      '(st, out) ← svExec op st now;
      '(st, outs) ← svRun ops st now;
      Ok (st, out :: outs)
  end.
End concrete.

(** The refinement relation. *)
Record sv_refines (sv : StateVector) (n : Z) (U : gset Z) : Prop := {
  ref_inv : sv_inv sv;
  ref_keys : sv_numKeys sv = n;
  ref_range k : k ∈ U -> 0 <= k < n;
  ref_used k : 0 <= k -> bitAt (sv_vect sv) k = bool_decide (k ∈ U);
}.

Lemma use_refines sv n U k :
  sv_refines sv n U -> 0 <= k < n ->
  exists sv', StateVector_use sv k = Ok sv' /\ sv_refines sv' n ({[k]} ∪ U) /\ same_config sv sv'.
Proof.
  intros [Hi <- Hr Hu] Hk. destruct (use_spec sv k Hi Hk) as (sv' & Huse & Hi' & Hc & Hb).
  exists sv'. split_and!; [done| |done]. destruct Hc as (Hn & _).
  constructor; [done|done|set_solver|]. intros j Hj. rewrite Hb, Hu by done.
  destruct (Z.eqb_spec j k); symmetry; [apply bool_decide_eq_true|apply bool_decide_ext]; set_solver.
Qed.

Lemma unuse_refines sv n U k :
  sv_refines sv n U -> 0 <= k < n ->
  exists sv', StateVector_unuse sv k = Ok sv' /\ sv_refines sv' n (U ∖ {[k]}) /\ same_config sv sv'.
Proof.
  intros [Hi <- Hr Hu] Hk. destruct (unuse_spec sv k Hi Hk) as (sv' & Huse & Hi' & Hc & Hb).
  exists sv'. split_and!; [done| |done]. destruct Hc as (Hn & _).
  constructor; [done|done|set_solver|]. intros j Hj. rewrite Hb, Hu by done.
  destruct (Z.eqb_spec j k); symmetry; [apply bool_decide_eq_false|apply bool_decide_ext]; set_solver.
Qed.

Lemma same_config_trans a b c : same_config a b -> same_config b c -> same_config a c.
Proof. unfold same_config. intuition congruence. Qed.

Lemma useAll_refines ks sv n U :
  sv_refines sv n U -> Forall (fun k => 0 <= k < n) ks ->
  exists sv', StateVector_useAll sv ks = Ok sv' /\ sv_refines sv' n (list_to_set ks ∪ U) /\
    same_config sv sv'.
Proof.
  intros Hr Hks. revert sv U Hr. induction Hks as [|k ks Hk Hks IH]; intros sv U Hr; simpl.
  - exists sv. replace (∅ ∪ U) with U by set_solver. done.
  - destruct (use_refines _ _ _ _ Hr Hk) as (sv1 & -> & Hr1 & Hc1). simpl.
    destruct (IH _ _ Hr1) as (sv2 & -> & Hr2 & Hc2). exists sv2.
    replace ({[k]} ∪ list_to_set ks ∪ U) with (list_to_set ks ∪ ({[k]} ∪ U)) by set_solver.
    eauto using same_config_trans.
Qed.

Lemma unuseAll_refines ks sv n U :
  sv_refines sv n U -> Forall (fun k => 0 <= k < n) ks ->
  exists sv', StateVector_unuseAll sv ks = Ok sv' /\ sv_refines sv' n (U ∖ list_to_set ks) /\
    same_config sv sv'.
Proof.
  intros Hr Hks. revert sv U Hr. induction Hks as [|k ks Hk Hks IH]; intros sv U Hr; simpl.
  - exists sv. replace (U ∖ ∅) with U by set_solver. done.
  - destruct (unuse_refines _ _ _ _ Hr Hk) as (sv1 & -> & Hr1 & Hc1). simpl.
    destruct (IH _ _ Hr1) as (sv2 & -> & Hr2 & Hc2). exists sv2.
    replace (U ∖ ({[k]} ∪ list_to_set ks)) with (U ∖ {[k]} ∖ list_to_set ks) by set_solver.
    eauto using same_config_trans.
Qed.

(** The cached first unused key is the head of the unused keys. *)
Lemma first_is_least sv n U :
  sv_refines sv n U ->
  unusedKeys n U = filter (fun k => k ∉ U) (zseq (sv_firstAvailable sv) n) /\
  (sv_firstAvailable sv < n -> sv_firstAvailable sv ∉ U).
Proof.
  intros [Hi <- Hr Hu]. pose proof (inv_first _ Hi) as Hf. split.
  - unfold unusedKeys. rewrite (zseq_app 0 (sv_firstAvailable sv)) by lia.
    rewrite list_filter_app, filter_none; [done|]. intros k Hk%elem_of_zseq Hn.
    pose proof (inv_before _ Hi k Hk) as Hb. rewrite Hu in Hb by lia.
    by apply bool_decide_eq_true in Hb.
  - intros _ Hin. pose proof (inv_unused _ Hi) as Hb. rewrite Hu in Hb by lia.
    by apply bool_decide_eq_false in Hb.
Qed.

Lemma save_reliable {S} `{EKVReliable S} (s : S) sv now : snd (StateVector_save s sv now) = None.
Proof. unfold StateVector_save. destruct (sv_disableKV sv); [done|]. apply ekv_set_ok. Qed.

Lemma next_spec {S} `{EKVReliable S} (s : S) sv n U now :
  sv_refines sv n U ->
  match unusedKeys n U with
  | [] => StateVector_Next s sv now = Ok (s, sv, n, Some noKeysErr)
  | k :: _ => exists sv',
      StateVector_Next s sv now = Ok (fst (StateVector_save s sv' now), sv', k, None) /\
      sv_refines sv' n ({[k]} ∪ U) /\ same_config sv sv'
  end.
Proof.
  intros Hr. destruct (first_is_least _ _ _ Hr) as [-> Hleast].
  pose proof (ref_keys _ _ _ Hr) as Hn. pose proof (inv_first _ (ref_inv _ _ _ Hr)) as Hf.
  unfold StateVector_Next. rewrite Hn.
  destruct (Z.leb_spec n (sv_firstAvailable sv)) as [Hge|Hlt].
  - by rewrite zseq_nil by done.
  - rewrite zseq_cons, filter_cons_True by auto.
    destruct (use_refines _ _ _ (sv_firstAvailable sv) Hr) as (sv' & -> & Hr' & Hc); [lia|].
    cbn [mbind result_bind]. exists sv'.
    pose proof (save_reliable s sv' now) as Hs.
    destruct (StateVector_save s sv' now) as [s' e]. simpl in Hs. by subst e.
Qed.

Lemma next_refines {S} `{EKVReliable S} (s : S) sv n U now :
  sv_refines sv n U ->
  exists s' sv', svExec OpNext (s, sv) now = Ok ((s', sv'), snd (absExec n OpNext U)) /\
    sv_refines sv' n (fst (absExec n OpNext U)).
Proof.
  intros Hr. pose proof (next_spec s sv n U now Hr) as Hnext. simpl.
  destruct (unusedKeys n U) as [|k ks].
  - rewrite Hnext. simpl. eauto.
  - destruct Hnext as (sv' & -> & Hr' & _). simpl. eauto.
Qed.

Lemma exec_refines {S} `{EKVReliable S} op (s : S) sv n U now :
  sv_refines sv n U -> opKeysOk n op ->
  exists s' sv', svExec op (s, sv) now = Ok ((s', sv'), snd (absExec n op U)) /\
    sv_refines sv' n (fst (absExec n op U)).
Proof.
  intros Hr Hop. destruct op as [k|ks|k|ks|]; [..|by apply next_refines]; simpl in *;
    unfold StateVector_Use, StateVector_UseMany, StateVector_Unuse, StateVector_UnuseMany.
  - destruct (use_refines _ _ _ _ Hr Hop) as (sv' & -> & Hr' & _). simpl. eauto.
  - destruct (useAll_refines _ _ _ _ Hr Hop) as (sv' & -> & Hr' & _). simpl. eauto.
  - destruct (unuse_refines _ _ _ _ Hr Hop) as (sv' & -> & Hr' & _). simpl. eauto.
  - destruct (unuseAll_refines _ _ _ _ Hr Hop) as (sv' & -> & Hr' & _). simpl. eauto.
Qed.

Lemma run_refines {S} `{EKVReliable S} ops (s : S) sv n U now :
  sv_refines sv n U -> Forall (opKeysOk n) ops ->
  exists s' sv', svRun ops (s, sv) now = Ok ((s', sv'), snd (absRun n ops U)) /\
    sv_refines sv' n (fst (absRun n ops U)).
Proof.
  intros Hr Hops. revert s sv U Hr. induction Hops as [|op ops Hop Hops IH]; intros s sv U Hr.
  - simpl. eauto.
  - cbn [svRun absRun].
    destruct (exec_refines op s sv n U now Hr Hop) as (s1 & sv1 & -> & Hr1).
    destruct (absExec n op U) as [U1 out]. cbn [mbind result_bind fst snd] in *.
    destruct (IH s1 sv1 U1 Hr1) as (s2 & sv2 & -> & Hr2).
    destruct (absRun n ops U1) as [U2 outs]. simpl in *. eauto.
Qed.

Lemma bitAt_zero m k : bitAt (replicate m 0) k = false.
Proof.
  unfold bitAt. destruct (replicate m 0 !! _) as [v|] eqn:E; [|done].
  apply lookup_replicate in E as [-> _]. apply Z.testbit_0_l.
Qed.

Lemma new_refines {S} `{EKV S} (s : S) n disableKV key v now :
  0 <= n <= 2 ^ 32 - 64 ->
  let '(sv, s', _) := NewStateVector s n disableKV key v now in sv_refines sv n ∅.
Proof.
  intros Hn. unfold NewStateVector.
  set (sv := mkStateVector _ _ _ _ _ _ _).
  destruct (StateVector_save s sv now) as [s' e].
  assert (u32 (n + 63) = n + 63) as Hw by (apply wrapu_small; unfold is_u; lia).
  constructor; [|done|set_solver|].
  - constructor; subst sv; simpl; try lia.
    + rewrite length_replicate, Hw. zlia.
    + apply Forall_replicate. split; lia.
    + intros k Hk. apply bitAt_zero.
    + rewrite (count_ext _ (fun _ => true)) by (intros; by rewrite bitAt_zero).
      assert (forall l : list Z, count (fun _ => true) l = Z.of_nat (length l)) as ->.
      { induction l; simpl; lia. }
      rewrite length_zseq. lia.
    + apply bitAt_zero.
  - intros k Hk. subst sv. simpl. rewrite bitAt_zero. symmetry. by apply bool_decide_eq_false.
Qed.

(** C12: a state vector refines a set of used keys.  From a new vector, any
    sequence of [Use], [UseMany], [Unuse], [UnuseMany] and [Next] on keys of
    the vector runs without a panic, leaves exactly the abstract set of used
    keys, and every [Next] returns the least unused key, or the error when all
    are used. *)
Theorem StateVector_refines_set {S} `{EKVReliable S} (s : S) n disableKV key v now ops :
  0 <= n <= 2 ^ 32 - 64 -> Forall (opKeysOk n) ops ->
  let '(sv, s0, _) := NewStateVector s n disableKV key v now in
  exists s' sv', svRun ops (s0, sv) now = Ok ((s', sv'), snd (absRun n ops ∅)) /\
    sv_refines sv' n (fst (absRun n ops ∅)).
Proof.
  intros Hn Hops. pose proof (new_refines s n disableKV key v now Hn) as Hr.
  destruct (NewStateVector s n disableKV key v now) as [[sv s0] e].
  by apply run_refines.
Qed.

Lemma collectKeys_spec sv want ks :
  (forall k, k ∈ ks -> StateVector_used sv k = Ok (bitAt (sv_vect sv) k)) ->
  collectKeys sv want ks = Ok (filter (fun k => bitAt (sv_vect sv) k = want) ks).
Proof.
  induction ks as [|k ks IH]; intros Hk; [done|]. cbn [collectKeys].
  rewrite Hk by left. cbn [mbind result_bind]. rewrite IH by (intros; apply Hk; by right).
  cbn [mbind result_bind]. rewrite filter_cons.
  destruct (Bool.eqb_spec (bitAt (sv_vect sv) k) want) as [E|E]; simpl.
  - by rewrite decide_True.
  - by rewrite decide_False.
Qed.

Lemma unused_count_filter sv n U l :
  sv_refines sv n U -> (forall k, k ∈ l -> 0 <= k) ->
  count (fun k => negb (bitAt (sv_vect sv) k)) l = Z.of_nat (length (filter (fun k => k ∉ U) l)).
Proof.
  intros [_ _ _ Hu] Hl. rewrite <- count_filter. f_equal. f_equal. apply filter_ext_in.
  intros k Hkl. rewrite Hu, negb_true_iff, bool_decide_eq_false by auto. done.
Qed.

Lemma available_unused sv n U :
  sv_refines sv n U -> StateVector_GetNumAvailable sv = Z.of_nat (length (unusedKeys n U)).
Proof.
  intros Hr. pose proof Hr as [Hi Hn _ _].
  unfold StateVector_GetNumAvailable, unusedKeys. rewrite (inv_available _ Hi), Hn.
  apply (unused_count_filter sv n U); [done|]. intros k Hk%elem_of_zseq. lia.
Qed.

Lemma unused_keys sv n U :
  sv_refines sv n U -> StateVector_GetUnusedKeyNums sv = Ok (unusedKeys n U).
Proof.
  intros Hr. pose proof Hr as [Hi Hn _ Hu]. pose proof (inv_first _ Hi).
  destruct (first_is_least _ _ _ Hr) as [Hleast _].
  unfold StateVector_GetUnusedKeyNums. rewrite Hn, Hleast, collectKeys_spec.
  - f_equal. apply filter_ext_in. intros k Hk%elem_of_zseq. rewrite Hu by lia. apply bool_decide_eq_false.
  - intros k Hk%elem_of_zseq. apply used_ok; [done|lia].
Qed.

Lemma used_number sv n U :
  sv_refines sv n U ->
  StateVector_GetNumUsed sv = Z.of_nat (length (filter (fun k => k ∈ U) (zseq 0 n))).
Proof.
  intros Hr. pose proof (available_unused _ _ _ Hr) as Ha. pose proof Hr as [Hi Hn _ _].
  pose proof (inv_numKeys _ Hi). unfold StateVector_GetNumUsed, StateVector_GetNumAvailable in *.
  rewrite Ha, Hn. unfold unusedKeys.
  pose proof (length_filter_complement (fun k => k ∈ U) (zseq 0 n)) as Hsum.
  rewrite length_zseq in Hsum. rewrite wrapu_small; unfold is_u; lia.
Qed.

(** the reading operations report the abstract set: the used keys and the
    unused keys in increasing order, their numbers, and the number of keys. *)
Theorem StateVector_reports sv n U :
  sv_refines sv n U ->
  StateVector_GetUsedKeyNums sv = Ok (filter (fun k => k ∈ U) (zseq 0 n)) /\
  StateVector_GetUnusedKeyNums sv = Ok (unusedKeys n U) /\
  StateVector_GetNumAvailable sv = Z.of_nat (length (unusedKeys n U)) /\
  StateVector_GetNumUsed sv = Z.of_nat (length (filter (fun k => k ∈ U) (zseq 0 n))) /\
  StateVector_GetNumKeys sv = n.
Proof.
  intros Hr. pose proof Hr as [Hi Hn Hrange Hu]. pose proof (inv_numKeys _ Hi).
  split_and!; [|by apply unused_keys|by apply available_unused|by apply used_number|done].
  unfold StateVector_GetUsedKeyNums. rewrite Hn, collectKeys_spec.
  - f_equal. apply filter_ext_in. intros k Hk%elem_of_zseq. rewrite Hu by lia. apply bool_decide_eq_true.
  - intros k Hk%elem_of_zseq. apply used_ok; [done|lia].
Qed.

(** ** Saving and loading *)

Lemma UnmarshalJSON_MarshalJSON sv sv0 :
  sv_inv sv ->
  StateVector_UnmarshalJSON sv0 (StateVector_MarshalJSON sv) =
    Ok (mkStateVector (sv_vect sv) (sv_firstAvailable sv) (sv_numKeys sv) (sv_numAvailable sv)
          (sv_disableKV sv0) (sv_key sv0) (sv_kv sv0)).
Proof.
  intros Hi. unfold StateVector_UnmarshalJSON, StateVector_MarshalJSON.
  pose proof (inv_first _ Hi). pose proof (inv_numKeys _ Hi). pose proof (inv_available_range _ Hi).
  unfold stateVectorDisk_json. cbn [Vect FirstAvailable NumKeys NumAvailable].
  rewrite unmarshalText_marshalText.
  2: { json_wf; [eapply wf_uints; [|apply (inv_blocks _ Hi)]|..]; lia. }
  cbn [mbind option_bind decodeStruct foldl fst snd]. unfold stateVectorDisk_set. json_fields.
  rewrite decode_uints by apply (inv_blocks _ Hi). cbn [mbind option_bind].
  rewrite decode_encodeUint by (unfold is_u; lia). cbn [mbind option_bind].
  rewrite decode_encodeUint by (unfold is_u; lia). cbn [mbind option_bind].
  rewrite decode_encodeUint by (unfold is_u; lia). done.
Qed.

Lemma load_saved {S} `{EKVLaws S} (s : S) sv key now :
  sv_inv sv -> sv_disableKV sv = false -> sv_key sv = makeStateVectorKey key ->
  kv_Get (sv_kv sv) s (sv_key sv) currentStateVectorVersion
    = inr (mkObject currentStateVectorVersion now (StateVector_MarshalJSON sv)) ->
  LoadStateVector s (sv_kv sv) key = Ok sv.
Proof.
  intros Hi Hd Hkey Hget. unfold LoadStateVector. simpl. rewrite <- Hkey, Hget. simpl.
  rewrite UnmarshalJSON_MarshalJSON by done. simpl. f_equal. destruct sv. simpl in *. by subst.
Qed.

(** what [save] stores, [LoadStateVector] reads back, field by field, for
    every state vector that satisfies the invariant and is backed by storage. *)
Theorem StateVector_save_load {S} `{EKVLaws S} (s s' : S) sv key now :
  sv_inv sv -> sv_disableKV sv = false -> sv_key sv = makeStateVectorKey key ->
  StateVector_save s sv now = (s', None) ->
  LoadStateVector s' (sv_kv sv) key = Ok sv.
Proof.
  intros Hi Hd Hkey Hsave. unfold StateVector_save in Hsave. rewrite Hd in Hsave.
  apply kv_get_set_eq in Hsave. by apply (load_saved s' sv key now).
Qed.

(** ** Vectors kept in storage

    What a component that owns a vector relies on: the vector refines the set
    of used keys [U], and the store holds its current state under its key. *)

Record sv_durable {S} `{EKV S} (s : S) (sv : StateVector) (v : kv) (key : string) (n : Z)
    (U : gset Z) : Prop := {
  dur_refines : sv_refines sv n U;
  dur_enabled : sv_disableKV sv = false;
  dur_key : sv_key sv = makeStateVectorKey key;
  dur_kv : sv_kv sv = v;
  dur_stored : exists now, kv_Get v s (makeStateVectorKey key) currentStateVectorVersion
    = inr (mkObject currentStateVectorVersion now (StateVector_MarshalJSON sv));
}.

Section durable.
Context {S : Type} `{EKVLaws S} {rel : EKVReliable S}.

(** Saving makes it durable and changes only its own key. *)
Lemma save_durable (s : S) sv v key n U now :
  sv_refines sv n U -> sv_disableKV sv = false -> sv_key sv = makeStateVectorKey key ->
  sv_kv sv = v ->
  exists s', StateVector_save s sv now = (s', None) /\ sv_durable s' sv v key n U /\
    kv_Set v s (makeStateVectorKey key)
      (mkObject currentStateVectorVersion now (StateVector_MarshalJSON sv)) = (s', None).
Proof.
  intros Hr Hd Hk Hv. pose proof (save_reliable s sv now) as Hok.
  destruct (StateVector_save s sv now) as [s' e] eqn:Hsave. simpl in Hok. subst e.
  exists s'. split; [done|]. unfold StateVector_save in Hsave.
  rewrite Hd, Hk, Hv in Hsave. split; [|done].
  constructor; [done..|]. exists now. by apply kv_get_set_eq in Hsave.
Qed.

Lemma new_durable (s : S) n key v now :
  0 <= n <= 2 ^ 32 - 64 ->
  exists sv s', NewStateVector s n false key v now = (sv, s', None) /\
    sv_durable s' sv v key n ∅ /\ 
    exists o, Version o = currentStateVectorVersion /\
    kv_Set v s (makeStateVectorKey key) o = (s', None).
Proof.
  intros Hn. pose proof (new_refines s n false key v now Hn) as Hr.
  unfold NewStateVector in *. set (sv := mkStateVector _ _ _ _ _ _ _) in *.
  destruct (save_durable s sv v key n ∅ now) as (s' & Hsave & Hdur & Hset); [|done..|].
  { by destruct (StateVector_save s sv now). }
  rewrite Hsave. exists sv, s'. split_and!; [done|done|]. eexists. by split; [|exact Hset].
Qed.

Lemma durable_Use (s : S) sv v key n U k now :
  sv_durable s sv v key n U -> 0 <= k < n ->
  exists s' sv', StateVector_Use s sv k now = Ok (s', sv') /\
    sv_durable s' sv' v key n ({[k]} ∪ U) /\
    exists o, Version o = currentStateVectorVersion /\
    kv_Set v s (makeStateVectorKey key) o = (s', None).
Proof.
  intros [Hr Hd Hk Hv _] Hkey. unfold StateVector_Use.
  destruct (use_refines _ _ _ _ Hr Hkey) as (sv' & -> & Hr' & _ & Hd' & Hk' & Hv').
  cbn [mbind result_bind]. 
  destruct (save_durable s sv' v key n ({[k]} ∪ U) now) as (s' & -> & Hdur & Hset); [done|congruence..|].
  exists s', sv'. split_and!; [done|done|]. eexists. by split; [|exact Hset].
Qed.

Lemma durable_Next (s : S) sv v key n U now :
  sv_durable s sv v key n U ->
  match unusedKeys n U with
  | [] => StateVector_Next s sv now = Ok (s, sv, n, Some noKeysErr)
  | k :: _ => exists s' sv', StateVector_Next s sv now = Ok (s', sv', k, None) /\
    sv_durable s' sv' v key n ({[k]} ∪ U) /\
    exists o, Version o = currentStateVectorVersion /\
    kv_Set v s (makeStateVectorKey key) o = (s', None)
  end.
Proof.
  intros [Hr Hd Hk Hv _]. pose proof (next_spec s sv n U now Hr) as Hnext.
  destruct (unusedKeys n U) as [|k ks]; [done|].
  destruct Hnext as (sv' & -> & Hr' & _ & Hd' & Hk' & Hv').
  destruct (save_durable s sv' v key n ({[k]} ∪ U) now) as (s' & -> & Hdur & Hset); [done|congruence..|].
  exists s', sv'. split_and!; [done|done|]. eexists. by split; [|exact Hset].
Qed.

Lemma durable_Load (s : S) sv v key n U :
  sv_durable s sv v key n U -> LoadStateVector s v key = Ok sv.
Proof.
  intros [Hr Hd Hk <- (now & Hget)]. apply (load_saved s sv key now); [apply Hr|done..|].
  by rewrite Hk.
Qed.

(** Another component's write leaves it durable. *)
Lemma durable_frame (s s' : S) sv v key n U :
  sv_durable s sv v key n U ->
  kv_Get v s' (makeStateVectorKey key) currentStateVectorVersion =
    kv_Get v s (makeStateVectorKey key) currentStateVectorVersion ->
  sv_durable s' sv v key n U.
Proof. intros [? ? ? ? (now & Hget)] Heq. constructor; [done..|]. exists now. by rewrite Heq. Qed.

Lemma durable_Delete (s : S) sv v key n U :
  sv_durable s sv v key n U ->
  exists s', StateVector_Delete s sv = (s', None) /\
    kv_Delete v s (makeStateVectorKey key) currentStateVectorVersion = (s', None).
Proof.
  intros [_ Hd Hk <- _]. unfold StateVector_Delete. rewrite Hd, Hk.
  pose proof (ekv_delete_ok s (kv_makeKey (sv_kv sv) (makeStateVectorKey key) currentStateVectorVersion)) as Hok.
  unfold kv_Delete. destruct (ekv_Delete s _) as [s' e]. simpl in Hok. subst e. by exists s'.
Qed.
End durable.

(** ** Witnesses *)

Definition ex_ops : list svOp := [OpNext; OpUse 2; OpNext; OpNext; OpUnuse 0; OpNext].
Definition ex_sv : StateVector := fst (fst (NewStateVector (∅ : MemStore) 70 false "a" NewKV 0)).

Lemma StateVector_refines_set_witness :
  absRun 70 ex_ops ∅ =
    ({[0; 1; 2; 3]}, [Some (inr 0); None; Some (inr 1); Some (inr 3); None; Some (inr 0)]) /\
  exists s' sv', svRun ex_ops (fst (StateVector_save (∅ : MemStore) ex_sv 0), ex_sv) 0
      = Ok ((s', sv'), snd (absRun 70 ex_ops ∅)) /\
    sv_refines sv' 70 (fst (absRun 70 ex_ops ∅)).
Proof.
  split; [by vm_compute|].
  exact (StateVector_refines_set (∅ : MemStore) 70 false "a" NewKV 0 ex_ops
    ltac:(lia) ltac:(repeat constructor; simpl; lia)).
Defined.

Lemma ex_sv_refines : sv_refines ex_sv 70 ∅.
Proof. exact (new_refines (∅ : MemStore) 70 false "a" NewKV 0 ltac:(lia)). Qed.

Lemma StateVector_reports_witness :
  StateVector_GetUsedKeyNums ex_sv = Ok [] /\ StateVector_GetNumAvailable ex_sv = 70.
Proof.
  destruct (StateVector_reports ex_sv 70 ∅ ex_sv_refines) as (H1 & _ & H3 & _).
  split; [etrans; [exact H1|by vm_compute]|etrans; [exact H3|by vm_compute]].
Defined.

Lemma StateVector_save_load_witness :
  LoadStateVector (fst (StateVector_save (∅ : MemStore) ex_sv 7)) NewKV "a" = Ok ex_sv.
Proof.
  apply (StateVector_save_load (∅ : MemStore) _ ex_sv "a" 7).
  - exact (ref_inv _ _ _ ex_sv_refines).
  - reflexivity.
  - reflexivity.
  - reflexivity.
Defined.
