(* ===== verification/MultiStateVector.v ===== *)
(** * Multi-state vectors

    [storage/utility/multiStateVector.go]: a fixed number of keys, each in one
    of up to eight states, packed into 64-bit blocks (a key never crosses a
    block), with an optional table of allowed transitions and a counter per
    state.  File transfers keep the status of their parts in it. *)

From S2P Require Import Prelude GoBytes KV.

(** ** The data *)

Record MultiStateVector := mkMSV {
  msv_numKeys : Z;                         (* uint16 *)
  msv_numStates : Z;                       (* uint8 *)
  msv_bitSize : Z;                         (* uint8 *)
  msv_numKeysPerBlock : Z;                 (* uint8 *)
  msv_wordSize : Z;                        (* uint8 *)
  msv_vect : list Z;                       (* []uint64 *)
  msv_stateMap : option (list (list bool)); (* nil or [][]bool *)
  msv_stateUseCount : list Z;              (* []uint16 *)
  msv_key : string;
  msv_kv : kv;
}.

Definition minNumStates : Z := 2.
Definition maxNumStates : Z := 8.
Definition multiStateVectorVersion : Z := 0.
Definition makeMultiStateVectorKey (key : string) : string := "multiStateVector/" +:+ key.

(** [uint8(math.Ceil(math.Log2(float64(n))))] *)
Definition ceilLog2 (n : Z) : Z := Z.log2_up n.

Definition msv_update (msv : MultiStateVector) (vect counts : list Z) : MultiStateVector :=
  mkMSV (msv_numKeys msv) (msv_numStates msv) (msv_bitSize msv) (msv_numKeysPerBlock msv)
    (msv_wordSize msv) vect (msv_stateMap msv) counts (msv_key msv) (msv_kv msv).

(** [checkStateMap]: the error names the first row of the wrong length. *)
Fixpoint checkStateMapRows (numStates : Z) (i : Z) (rows : list (list bool)) : option error :=
  match rows with
  | [] => None
  | row :: rows =>
      if negb (Z.of_nat (length row) =? numStates)
      then Some (Errorf "state %d in state map has %d state transitions when %d are required"
                   [i; Z.of_nat (length row); numStates])
      else checkStateMapRows numStates (i + 1) rows
  end.

Definition checkStateMap (numStates : Z) (stateMap : option (list (list bool))) : option error :=
  match stateMap with
  | None => None
  | Some m =>
      if negb (Z.of_nat (length m) =? numStates)
      then Some (Errorf "state map has %d states when %d are required"
                   [Z.of_nat (length m); numStates])
      else checkStateMapRows numStates 0 m
  end.

(** ** Positions and masks *)

Definition MultiStateVector_getMultiBlockAndPos (msv : MultiStateVector) (keyNum : Z) :
    result (Z * Z) :=
  let n := msv_numKeysPerBlock msv in
  if n =? 0 then Panic
  else Ok (keyNum / n, u16 ((keyNum mod n) * msv_bitSize msv)).

Definition maxUint64 : Z := 2 ^ 64 - 1.

Definition shiftBitsIn (bits keyNum bitSize : Z) : Z :=
  if bitSize =? 0 then bits
  else
    let keysPerBlock := 64 / bitSize in
    let keyIndex := keyNum mod keysPerBlock in
    let pos := u16 (keyIndex * bitSize) in
    shr64 bits pos.

Definition shiftBitsOut (bits keyNum bitSize : Z) : Z :=
  if bitSize =? 0 then bits
  else
    let keysPerBlock := 64 / bitSize in
    let keyIndex := keyNum mod keysPerBlock in
    let pos := u16 (keyIndex * bitSize) in
    let bitSizeShift := u64 (64 - bitSize) in
    let leftShift := shl64 bits bitSizeShift in
    shr64 leftShift pos.

Definition getSelectionMask (keyNum bitSize : Z) : Z :=
  let initialMask := shl64 maxUint64 (u8 (64 - bitSize)) in
  shiftBitsIn initialMask keyNum bitSize.

(** ** Reading and changing states *)

Definition keyNumMaxErr (keyNum max : Z) : error :=
  Errorf "key number %d greater than max %d" [keyNum; max].
Definition stateMaxErr (state max : Z) : error :=
  Errorf "given state %d greater than max %d" [state; max].

Definition MultiStateVector_get (msv : MultiStateVector) (keyNum : Z) : result Z :=
  if u16 (msv_numKeys msv - 1) <? keyNum
  then Err (keyNumMaxErr keyNum (u16 (msv_numKeys msv - 1)))
  else
    '(block, pos) ← MultiStateVector_getMultiBlockAndPos msv keyNum;
    let bitMask := shr64 maxUint64 (u8 (64 - msv_bitSize msv)) in
    let shift := u16 (64 - pos - msv_bitSize msv) in
    v ← index (msv_vect msv) block;
    Ok (u8 (Z.land (shr64 v shift) bitMask)).

(** [stateMap[oldState][state]] *)
Definition transitionAllowed (m : list (list bool)) (oldState state : Z) : result bool :=
  row ← index m oldState; index row state.

Definition MultiStateVector_set (msv : MultiStateVector) (keyNum state : Z) :
    result MultiStateVector :=
  if u16 (msv_numKeys msv - 1) <? keyNum
  then Err (keyNumMaxErr keyNum (u16 (msv_numKeys msv - 1)))
  else if u8 (msv_numStates msv - 1) <? state
  then Err (stateMaxErr state (u8 (msv_numStates msv - 1)))
  else
    oldState ← wrap_err "could not get state of key %d: %+v" [keyNum]
                 (MultiStateVector_get msv keyNum);
    if u8 (msv_numStates msv - 1) <? oldState
    then Err (Errorf "stored state %d greater than max %d (this should not happen; maybe a storage failure)"
                [oldState; u8 (msv_numStates msv - 1)])
    else
      allowed ← match msv_stateMap msv with
                | None => Ok true
                | Some m => transitionAllowed m oldState state
                end;
      if negb allowed
      then Err (Errorf "cannot change state of key %d from %d to %d" [keyNum; oldState; state])
      else
        '(block, _) ← MultiStateVector_getMultiBlockAndPos msv keyNum;
        v ← index (msv_vect msv) block;
        vect ← store_at (msv_vect msv) block
                 (Z.land v (not64 (getSelectionMask keyNum (msv_bitSize msv))));
        v ← index vect block;
        vect ← store_at vect block (Z.lor v (shiftBitsOut state keyNum (msv_bitSize msv)));
        c ← index (msv_stateUseCount msv) oldState;
        counts ← store_at (msv_stateUseCount msv) oldState (u16 (c - 1));
        c ← index counts state;
        counts ← store_at counts state (u16 (c + 1));
        Ok (msv_update msv vect counts).

Definition MultiStateVector_getCount (msv : MultiStateVector) (state : Z) : result Z :=
  if Z.of_nat (length (msv_stateUseCount msv)) <=? state
  then Err (stateMaxErr state (u8 (msv_numStates msv - 1)))
  else index (msv_stateUseCount msv) state.

(** The loop of [getKeys]. *)
Fixpoint getKeys_loop (msv : MultiStateVector) (state : Z) (keys : list Z) : result (list Z) :=
  match keys with
  | [] => Ok []
  | k :: ks =>
      keyState ← wrap_err "key number %d greater than max %d" [k] (MultiStateVector_get msv k);
      rest ← getKeys_loop msv state ks;
      Ok (if keyState =? state then k :: rest else rest)
  end.

Definition MultiStateVector_getKeys (msv : MultiStateVector) (state : Z) : result (list Z) :=
  if u8 (msv_numStates msv - 1) <? state
  then Err (stateMaxErr state (u8 (msv_numStates msv - 1)))
  else
    (* the capacity of the list reads the state's counter *)
    _ ← index (msv_stateUseCount msv) state;
    getKeys_loop msv state (zseq 0 (msv_numKeys msv)).

(** The exported readers panic on an error. *)
Definition MultiStateVector_Get (msv : MultiStateVector) (keyNum : Z) : result Z :=
  must (MultiStateVector_get msv keyNum).
Definition MultiStateVector_GetNumKeys (msv : MultiStateVector) : Z := msv_numKeys msv.
Definition MultiStateVector_GetCount (msv : MultiStateVector) (state : Z) : result Z :=
  must (MultiStateVector_getCount msv state).
Definition MultiStateVector_GetKeys (msv : MultiStateVector) (state : Z) : result (list Z) :=
  must (MultiStateVector_getKeys msv state).

(** The copy has no storage backend: its handle is the empty one. *)
Definition MultiStateVector_DeepCopy (msv : MultiStateVector) : MultiStateVector :=
  mkMSV (msv_numKeys msv) (msv_numStates msv) (msv_bitSize msv) (msv_numKeysPerBlock msv)
    (msv_wordSize msv) (msv_vect msv) (msv_stateMap msv) (msv_stateUseCount msv)
    (msv_key msv) NewKV.

(** ** Serialisation *)

Definition MultiStateVector_marshal (msv : MultiStateVector) : list byte :=
  le_encode 2 (msv_numKeys msv) ++ le_encode 1 (msv_numStates msv) ++
  le_encode 8 (Z.of_nat (length (msv_vect msv))) ++
  concat (le_encode 8 <$> msv_vect msv) ++
  concat (le_encode 2 <$> msv_stateUseCount msv).

(** [binary.Read] of [n] bytes: an error when the reader holds fewer. *)
Definition readLE (n : nat) (b : list byte) (fmt : string) (args : list Z) :
    result (Z * list byte) :=
  if decide (n <= length b)%nat then Ok (le_decode (take n b), drop n b)
  else Err (Wrapf fmt args (Errorf "EOF" [])).

(** Reads a slice of [m] values of [n] bytes, the [i]th first. *)
Fixpoint readLEs (n m : nat) (b : list byte) (fmt : string) (i : Z) :
    result (list Z * list byte) :=
  match m with
  | O => Ok ([], b)
  | S m =>
      '(z, b) ← readLE n b fmt [i];
      '(zs, b) ← readLEs n m b fmt (i + 1);
      Ok (z :: zs, b)
  end.

(** [make([]uint64, n)] panics when the slice would exceed the address space. *)
Definition maxSliceLen : Z := 2 ^ 45.

Definition MultiStateVector_unmarshal (msv : MultiStateVector) (b : list byte) :
    result MultiStateVector :=
  '(numKeys, b) ← readLE 2 b "numKeys: %+v" [];
  '(numStates, b) ← readLE 1 b "numStates: %+v" [];
  let bitSize := ceilLog2 numStates in
  if bitSize =? 0 then Panic
  else
    let numKeysPerBlock := 64 / bitSize in
    let wordSize := u8 (numKeysPerBlock * bitSize) in
    '(vectLen, b) ← readLE 8 b "length of vector: %+v" [];
    if maxSliceLen <? vectLen then Panic
    else
      '(vect, b) ← readLEs 8 (Z.to_nat vectLen) b "vector block %d/%d: %+v" 0;
      '(counts, b) ← readLEs 2 (Z.to_nat numStates) b "state use counter %d: %+v" 0;
      Ok (mkMSV numKeys numStates bitSize numKeysPerBlock wordSize vect (msv_stateMap msv)
            counts (msv_key msv) (msv_kv msv)).

(** ** Storage *)

Section storage.
Context {S : Type} `{EKV S}.

Definition MultiStateVector_save (s : S) (msv : MultiStateVector) (now : Time) :
    S * option error :=
  kv_Set (msv_kv msv) s (msv_key msv)
    (mkObject multiStateVectorVersion now (MultiStateVector_marshal msv)).

Definition MultiStateVector_Delete (s : S) (msv : MultiStateVector) : S * option error :=
  kv_Delete (msv_kv msv) s (msv_key msv) multiStateVectorVersion.

Definition NewMultiStateVector (s : S) (numKeys numStates : Z)
    (stateMap : option (list (list bool))) (key : string) (kv : kv) (now : Time) :
    result (MultiStateVector * S * option error) :=
  if numStates <? minNumStates
  then Err (Errorf "number of received states %d must be greater than %d" [numStates; minNumStates])
  else if maxNumStates <? numStates
  then Err (Errorf "number of received states %d greater than max %d" [numStates; maxNumStates])
  else
    match checkStateMap numStates stateMap with
    | Some e => Err e
    | None =>
        let numBits := ceilLog2 numStates in
        let numBlocks := u16 (u16 (numKeys * numBits) + 63) / 64 in
        counts ← store_at (replicate (Z.to_nat numStates) 0) 0 numKeys;
        let msv := mkMSV numKeys numStates numBits (64 / numBits) (u8 ((64 / numBits) * numBits))
                     (replicate (Z.to_nat numBlocks) 0) stateMap counts
                     (makeMultiStateVectorKey key) kv in
        let '(s, err) := MultiStateVector_save s msv now in
        Ok (msv, s, err)
    end.

Definition LoadMultiStateVector (s : S) (stateMap : option (list (list bool))) (key : string)
    (kv : kv) : result MultiStateVector :=
  let msv := mkMSV 0 0 0 0 0 [] stateMap [] (makeMultiStateVectorKey key) kv in
  match kv_Get kv s (msv_key msv) multiStateVectorVersion with
  | inl e => Err (Wrapf "failed to load MultiStateVector from storage: %+v" [] e)
  | inr obj => wrap_err "failed to unmarshal MultiStateVector loaded from storage: %+v" []
                 (MultiStateVector_unmarshal msv (Data obj))
  end.

Definition saved (r : S * option error) (msv : MultiStateVector) (fmt : string) (args : list Z) :
    result (S * MultiStateVector) :=
  match r with
  | (s, None) => Ok (s, msv)
  | (_, Some e) => Err (Wrapf fmt args e)
  end.

Definition MultiStateVector_setAndSave (s : S) (msv : MultiStateVector) (keyNum state : Z)
    (now : Time) : result (S * MultiStateVector) :=
  msv ← wrap_err "failed to set state of key %d: %+v" [keyNum]
          (MultiStateVector_set msv keyNum state);
  saved (MultiStateVector_save s msv now) msv
    "failed to save MultiStateVector after setting key %d state to %d: %+v" [keyNum; state].

(** The loop of [setMany]: [i] counts the keys from one, [n] is their number. *)
Fixpoint setMany_loop (msv : MultiStateVector) (keyNums : list Z) (state i n : Z) :
    result MultiStateVector :=
  match keyNums with
  | [] => Ok msv
  | k :: ks =>
      msv ← wrap_err "failed to set state of key %d (%d of %d): %+v" [k; i; n]
              (MultiStateVector_set msv k state);
      setMany_loop msv ks state (i + 1) n
  end.

Definition MultiStateVector_setMany (s : S) (msv : MultiStateVector) (keyNums : list Z)
    (state : Z) (now : Time) : result (S * MultiStateVector) :=
  msv ← setMany_loop msv keyNums state 1 (Z.of_nat (length keyNums));
  saved (MultiStateVector_save s msv now) msv
    "failed to save MultiStateVector after setting keys %d state to %d: %+v" (keyNums ++ [state]).

(** The exported writers panic on an error. *)
Definition MultiStateVector_Set (s : S) (msv : MultiStateVector) (keyNum state : Z)
    (now : Time) : result (S * MultiStateVector) :=
  must (MultiStateVector_setAndSave s msv keyNum state now).

Definition MultiStateVector_SetMany (s : S) (msv : MultiStateVector) (keyNums : list Z)
    (state : Z) (now : Time) : result (S * MultiStateVector) :=
  must (MultiStateVector_setMany s msv keyNums state now).

Definition MultiStateVector_CompareAndSwap (s : S) (msv : MultiStateVector)
    (keyNum old new : Z) (now : Time) : result (S * MultiStateVector * bool) :=
  state ← must (MultiStateVector_get msv keyNum);
  if state =? old then
    '(s, msv) ← must (MultiStateVector_setAndSave s msv keyNum new now);
    Ok (s, msv, true)
  else Ok (s, msv, false).

Definition MultiStateVector_CompareNotAndSwap (s : S) (msv : MultiStateVector)
    (keyNum old new : Z) (now : Time) : result (S * MultiStateVector * bool) :=
  state ← must (MultiStateVector_get msv keyNum);
  if negb (state =? old) then
    '(s, msv) ← must (MultiStateVector_setAndSave s msv keyNum new now);
    Ok (s, msv, true)
  else Ok (s, msv, false).
End storage.

(** ** Fields of a block *)

(** [bs] bits of a block from bit [sh] up. *)
Definition fieldAt (v sh bs : Z) : Z := Z.land (Z.shiftr v sh) (Z.ones bs).

Lemma testbit_fieldAt v sh bs n :
  0 <= sh -> 0 <= bs -> 0 <= n ->
  Z.testbit (fieldAt v sh bs) n = bool_decide (n < bs) && Z.testbit v (n + sh).
Proof.
  intros. unfold fieldAt. rewrite Z.land_spec, Z.shiftr_spec by lia.
  case_bool_decide.
  - rewrite Z.ones_spec_low by lia. by rewrite andb_true_r.
  - rewrite Z.ones_spec_high by lia. by rewrite andb_false_r.
Qed.

Lemma fieldAt_range v sh bs : 0 <= bs -> 0 <= fieldAt v sh bs < 2 ^ bs.
Proof.
  intros. unfold fieldAt. rewrite Z.land_ones by lia. apply Z.mod_pos_bound. lia.
Qed.

Lemma fieldAt_ext v v' sh bs :
  0 <= sh -> 0 <= bs ->
  (forall n, sh <= n < sh + bs -> Z.testbit v n = Z.testbit v' n) ->
  fieldAt v sh bs = fieldAt v' sh bs.
Proof.
  intros Hsh Hbs Hn. apply Z.bits_inj'. intros n Hn'. rewrite !testbit_fieldAt by lia.
  case_bool_decide; [|done]. simpl. apply Hn. lia.
Qed.

Lemma testbit_maxUint64 n : 0 <= n -> Z.testbit maxUint64 n = bool_decide (n < 64).
Proof.
  intros Hn. change maxUint64 with (Z.ones 64). case_bool_decide.
  - by apply Z.ones_spec_low; lia.
  - by apply Z.ones_spec_high; lia.
Qed.

(** The place of a key in its block: its most significant bit is bit
    [63 - pos]. *)
Definition keyPos (bs k : Z) : Z := (k mod (64 / bs)) * bs.
Definition keyShift (bs k : Z) : Z := 64 - keyPos bs k - bs.

Lemma keyPos_range bs k : 1 <= bs <= 3 -> 0 <= k -> 0 <= keyPos bs k <= 64 - bs.
Proof.
  intros Hbs Hk. unfold keyPos.
  assert (bs = 1 \/ bs = 2 \/ bs = 3) as [->|[->| ->]] by lia; simpl Z.div; zlia.
Qed.

Lemma testbit_selectionMask bs k n :
  1 <= bs <= 3 -> 0 <= k -> 0 <= n ->
  Z.testbit (getSelectionMask k bs) n
    = bool_decide (keyShift bs k <= n < keyShift bs k + bs).
Proof.
  intros Hbs Hk Hn. pose proof (keyPos_range bs k Hbs Hk) as Hp.
  unfold getSelectionMask, shiftBitsIn. rewrite (proj2 (Z.eqb_neq bs 0)) by lia. cbv zeta.
  fold (keyPos bs k). rewrite !wrapu_small by (unfold is_u; lia).
  unfold shr64, shl64. rewrite Z.shiftr_spec, testbit_wrapu by lia.
  unfold keyShift. destruct (decide (64 - bs <= n + keyPos bs k)).
  - rewrite Z.shiftl_spec, testbit_maxUint64 by lia.
    rewrite <- bool_decide_and. apply bool_decide_ext. lia.
  - rewrite Z.shiftl_spec_low by lia. rewrite andb_false_r.
    symmetry. apply bool_decide_eq_false. lia.
Qed.

Lemma testbit_shiftBitsOut bs k st n :
  1 <= bs <= 3 -> 0 <= k -> 0 <= n -> 0 <= st < 2 ^ bs ->
  Z.testbit (shiftBitsOut st k bs) n
    = bool_decide (keyShift bs k <= n < keyShift bs k + bs) && Z.testbit st (n - keyShift bs k).
Proof.
  intros Hbs Hk Hn Hst. pose proof (keyPos_range bs k Hbs Hk) as Hp.
  unfold shiftBitsOut. rewrite (proj2 (Z.eqb_neq bs 0)) by lia. cbv zeta.
  fold (keyPos bs k). rewrite !wrapu_small by (unfold is_u; lia).
  unfold shr64, shl64. rewrite Z.shiftr_spec, testbit_wrapu by lia.
  unfold keyShift. destruct (decide (64 - bs <= n + keyPos bs k)).
  - rewrite Z.shiftl_spec by lia. f_equal; [apply bool_decide_ext; lia|f_equal; lia].
  - rewrite Z.shiftl_spec_low by lia. rewrite andb_false_r.
    by rewrite bool_decide_eq_false_2 by lia.
Qed.

(** The block [set] writes. *)
Definition setBlock (v bs k st : Z) : Z :=
  Z.lor (Z.land v (not64 (getSelectionMask k bs))) (shiftBitsOut st k bs).

Lemma testbit_setBlock v bs k st n :
  1 <= bs <= 3 -> 0 <= k -> 0 <= n < 64 -> 0 <= st < 2 ^ bs ->
  Z.testbit (setBlock v bs k st) n =
    if bool_decide (keyShift bs k <= n < keyShift bs k + bs)
    then Z.testbit st (n - keyShift bs k) else Z.testbit v n.
Proof.
  intros. unfold setBlock.
  rewrite Z.lor_spec, Z.land_spec, testbit_not64, testbit_selectionMask, testbit_shiftBitsOut by lia.
  case_bool_decide; simpl.
  - by rewrite andb_false_r.
  - by rewrite andb_true_r, orb_false_r.
Qed.

Lemma is_u_setBlock v bs k st :
  1 <= bs <= 3 -> 0 <= k -> is_u 64 v -> is_u 64 (setBlock v bs k st).
Proof.
  intros Hbs Hk Hv. pose proof (keyPos_range bs k Hbs Hk) as Hp.
  assert (forall x, is_u 64 (shr64 (shl64 x (64 - bs)) (u16 (keyPos bs k)))) as Hsh.
  { intros x. apply is_u_shr64; [lia|apply wrapu_range; lia|apply wrapu_range; lia]. }
  unfold setBlock, getSelectionMask, shiftBitsIn, shiftBitsOut.
  rewrite (proj2 (Z.eqb_neq bs 0)) by lia. cbv zeta. fold (keyPos bs k).
  rewrite (wrapu_small 8), (wrapu_small 64 (64 - bs)) by (unfold is_u; lia).
  apply is_u_lor; [lia| |apply Hsh]. apply is_u_land; [lia|done|]. apply is_u_not64, Hsh.
Qed.

Lemma fieldAt_setBlock_eq v bs k st :
  1 <= bs <= 3 -> 0 <= k -> 0 <= st < 2 ^ bs ->
  fieldAt (setBlock v bs k st) (keyShift bs k) bs = st.
Proof.
  intros Hbs Hk Hst. pose proof (keyPos_range bs k Hbs Hk) as Hp.
  apply Z.bits_inj'. intros n Hn. rewrite testbit_fieldAt by (unfold keyShift in *; lia).
  case_bool_decide as Hlt.
  - rewrite testbit_setBlock by (unfold keyShift in *; lia).
    rewrite bool_decide_eq_true_2 by lia. simpl. f_equal. lia.
  - simpl. symmetry. apply (testbit_high bs); [done|lia].
Qed.

Lemma keyShift_disjoint bs k j :
  1 <= bs <= 3 -> 0 <= k -> 0 <= j -> j mod (64 / bs) ≠ k mod (64 / bs) ->
  keyShift bs j + bs <= keyShift bs k \/ keyShift bs k + bs <= keyShift bs j.
Proof. intros. unfold keyShift, keyPos. nia. Qed.

Lemma fieldAt_setBlock_ne v bs k j st :
  1 <= bs <= 3 -> 0 <= k -> 0 <= j -> 0 <= st < 2 ^ bs -> j mod (64 / bs) ≠ k mod (64 / bs) ->
  fieldAt (setBlock v bs k st) (keyShift bs j) bs = fieldAt v (keyShift bs j) bs.
Proof.
  intros Hbs Hk Hj Hst Hne. pose proof (keyPos_range bs j Hbs Hj).
  pose proof (keyShift_disjoint bs k j Hbs Hk Hj Hne).
  apply fieldAt_ext; [unfold keyShift in *; lia|lia|]. intros n Hn.
  rewrite testbit_setBlock by (unfold keyShift in *; lia).
  by rewrite bool_decide_eq_false_2 by lia.
Qed.

(** ** The invariant *)

(** The state of a key in the packed vector. *)
Definition keyState (bs : Z) (vect : list Z) (k : Z) : Z :=
  match vect !! Z.to_nat (k / (64 / bs)) with
  | Some v => fieldAt v (keyShift bs k) bs
  | None => 0
  end.

Definition stateMap_ok (n : Z) (m : option (list (list bool))) : Prop :=
  match m with
  | None => True
  | Some m => Z.of_nat (length m) = n /\ Forall (fun row => Z.of_nat (length row) = n) m
  end.

(** Is the transition in the table? *)
Definition allowed (m : option (list (list bool))) (old new : Z) : bool :=
  match m with
  | None => true
  | Some m => default false (m !! Z.to_nat old ≫= fun row => row !! Z.to_nat new)
  end.

Record msv_inv (msv : MultiStateVector) : Prop := {
  minv_keys : 0 <= msv_numKeys msv < 2 ^ 16;
  minv_states : 2 <= msv_numStates msv <= 8;
  minv_bits : msv_bitSize msv = ceilLog2 (msv_numStates msv);
  minv_perBlock : msv_numKeysPerBlock msv = 64 / msv_bitSize msv;
  minv_word : msv_wordSize msv = msv_numKeysPerBlock msv * msv_bitSize msv;
  minv_blocks : Forall (is_u 64) (msv_vect msv);
  minv_fits : msv_numKeys msv <= msv_numKeysPerBlock msv * Z.of_nat (length (msv_vect msv));
  minv_vect_len : Z.of_nat (length (msv_vect msv)) < 2 ^ 16;
  minv_map : stateMap_ok (msv_numStates msv) (msv_stateMap msv);
  minv_state k : 0 <= k < msv_numKeys msv ->
    keyState (msv_bitSize msv) (msv_vect msv) k < msv_numStates msv;
  minv_counts_len : Z.of_nat (length (msv_stateUseCount msv)) = msv_numStates msv;
  minv_counts st : 0 <= st < msv_numStates msv ->
    msv_stateUseCount msv !! Z.to_nat st =
      Some (count (fun k => keyState (msv_bitSize msv) (msv_vect msv) k =? st)
              (zseq 0 (msv_numKeys msv)));
}.

Lemma ceilLog2_range n : 2 <= n <= 8 -> 1 <= ceilLog2 n <= 3 /\ n <= 2 ^ ceilLog2 n.
Proof.
  intros Hn. unfold ceilLog2. split.
  - change 1 with (Z.log2_up 2). change 3 with (Z.log2_up 8).
    split; apply Z.log2_up_le_mono; lia.
  - apply Z.log2_log2_up_spec. lia.
Qed.

Lemma minv_bits_range msv :
  msv_inv msv -> 1 <= msv_bitSize msv <= 3 /\ msv_numStates msv <= 2 ^ msv_bitSize msv.
Proof. intros Hi. rewrite (minv_bits _ Hi). apply ceilLog2_range, (minv_states _ Hi). Qed.

Lemma perBlock_pos bs : 1 <= bs <= 3 -> 21 <= 64 / bs <= 64.
Proof. intros Hbs. assert (bs = 1 \/ bs = 2 \/ bs = 3) as [->|[->| ->]] by lia; done. Qed.

(** The block of a key of the vector is there. *)
Lemma key_block msv k :
  msv_inv msv -> 0 <= k < msv_numKeys msv ->
  exists v, index (msv_vect msv) (k / (64 / msv_bitSize msv)) = Ok v /\
    msv_vect msv !! Z.to_nat (k / (64 / msv_bitSize msv)) = Some v /\
    keyState (msv_bitSize msv) (msv_vect msv) k = fieldAt v (keyShift (msv_bitSize msv) k) (msv_bitSize msv).
Proof.
  intros Hi Hk. destruct (minv_bits_range _ Hi) as [Hbs _]. pose proof (perBlock_pos _ Hbs).
  pose proof (minv_fits _ Hi) as Hf. rewrite (minv_perBlock _ Hi) in Hf.
  destruct (index_in_range (msv_vect msv) (k / (64 / msv_bitSize msv))) as (v & Hv & Hl).
  { split; [apply Z.div_pos; lia|]. apply Z.div_lt_upper_bound; lia. }
  exists v. split_and!; [done|done|]. unfold keyState. by rewrite Hl.
Qed.

Lemma getMultiBlockAndPos_spec msv k :
  msv_inv msv -> 0 <= k < msv_numKeys msv ->
  MultiStateVector_getMultiBlockAndPos msv k =
    Ok (k / (64 / msv_bitSize msv), keyPos (msv_bitSize msv) k).
Proof.
  intros Hi Hk. destruct (minv_bits_range _ Hi) as [Hbs _]. pose proof (perBlock_pos _ Hbs).
  pose proof (keyPos_range (msv_bitSize msv) k Hbs ltac:(lia)) as Hp.
  unfold MultiStateVector_getMultiBlockAndPos. rewrite (minv_perBlock _ Hi).
  rewrite (proj2 (Z.eqb_neq _ _)) by lia. fold (keyPos (msv_bitSize msv) k).
  by rewrite wrapu_small by (unfold is_u; lia).
Qed.

Lemma key_guard msv k :
  msv_inv msv -> 0 <= k < msv_numKeys msv -> (u16 (msv_numKeys msv - 1) <? k) = false.
Proof.
  intros Hi Hk. pose proof (minv_keys _ Hi). rewrite wrapu_small by (unfold is_u; lia).
  apply Z.ltb_ge. lia.
Qed.

Lemma get_spec msv k :
  msv_inv msv -> 0 <= k < msv_numKeys msv ->
  MultiStateVector_get msv k = Ok (keyState (msv_bitSize msv) (msv_vect msv) k).
Proof.
  intros Hi Hk. destruct (minv_bits_range _ Hi) as [Hbs _].
  pose proof (keyPos_range (msv_bitSize msv) k Hbs ltac:(lia)) as Hp.
  unfold MultiStateVector_get. rewrite key_guard, getMultiBlockAndPos_spec by done.
  cbn [mbind result_bind]. destruct (key_block msv k Hi Hk) as (v & -> & _ & ->).
  cbn [mbind result_bind]. fold (keyShift (msv_bitSize msv) k).
  rewrite (wrapu_small 16) by (unfold is_u, keyShift; lia).
  rewrite (wrapu_small 8 (64 - _)) by (unfold is_u; lia).
  assert (shr64 maxUint64 (64 - msv_bitSize msv) = Z.ones (msv_bitSize msv)) as ->.
  { assert (msv_bitSize msv = 1 \/ msv_bitSize msv = 2 \/ msv_bitSize msv = 3) as [->|[->| ->]] by lia;
      done. }
  pose proof (fieldAt_range v (keyShift (msv_bitSize msv) k) (msv_bitSize msv) ltac:(lia)) as Hr.
  rewrite wrapu_small; [done|]. unfold shr64. fold (fieldAt v (keyShift (msv_bitSize msv) k) (msv_bitSize msv)).
  split; [lia|]. apply Z.lt_le_trans with (2 ^ msv_bitSize msv); [lia|].
  apply Z.pow_le_mono_r; lia.
Qed.

Lemma keyState_set bs vect k v st j :
  1 <= bs <= 3 -> 0 <= k -> 0 <= j -> 0 <= st < 2 ^ bs ->
  vect !! Z.to_nat (k / (64 / bs)) = Some v ->
  keyState bs (<[Z.to_nat (k / (64 / bs)) := setBlock v bs k st]> vect) j =
    if j =? k then st else keyState bs vect j.
Proof.
  intros Hbs Hk Hj Hst Hv. pose proof (perBlock_pos _ Hbs) as Hpb.
  pose proof (lookup_lt_Some _ _ _ Hv). unfold keyState. rewrite list_lookup_insert.
  destruct (Z.eqb_spec j k) as [->|Hne].
  - rewrite decide_True by done. by apply fieldAt_setBlock_eq.
  - destruct (decide (k / (64 / bs) = j / (64 / bs))) as [Heq|Hneq].
    + rewrite decide_True by (split; [by rewrite Heq|done]). rewrite <- Heq, Hv.
      apply fieldAt_setBlock_ne; try done. intros Hmod. apply Hne.
      rewrite (Z.div_mod j (64 / bs)), (Z.div_mod k (64 / bs)) by lia. congruence.
    + rewrite decide_False; [done|]. intros [Heq _]. apply Hneq.
      apply Z2Nat.inj in Heq; [done|apply Z.div_pos; lia|apply Z.div_pos; lia].
Qed.

(** The counters after one key moves from a state to another. *)
Lemma counts_move (f g : Z -> Z) n k q :
  0 <= k < n -> (forall j, 0 <= j -> g j = if j =? k then g k else f j) ->
  count (fun j => g j =? q) (zseq 0 n) =
    count (fun j => f j =? q) (zseq 0 n) + Z.b2z (g k =? q) - Z.b2z (f k =? q).
Proof.
  intros Hk Hg.
  rewrite (count_ext _ (fun j => (if j =? k then g k else f j) =? q)).
  2: { intros j Hj%elem_of_zseq. by rewrite Hg by lia. }
  rewrite (count_update _ (fun j => f j =? q) _ k);
    [by rewrite Z.eqb_refl|apply NoDup_zseq|apply elem_of_zseq; lia|].
  intros j Hj. by rewrite (proj2 (Z.eqb_neq _ _) Hj).
Qed.

Lemma transitionAllowed_spec n m old new :
  stateMap_ok n (Some m) -> 0 <= old < n -> 0 <= new < n ->
  transitionAllowed m old new = Ok (allowed (Some m) old new).
Proof.
  intros [Hm Hrows] Hold Hnew. unfold transitionAllowed, allowed.
  destruct (index_in_range m old) as (row & -> & Hrow); [lia|]. simpl. rewrite Hrow. simpl.
  pose proof (Forall_lookup_1 _ _ _ _ Hrows Hrow) as Hlen. simpl in Hlen.
  destruct (index_in_range row new) as (b & -> & Hb); [lia|]. by rewrite Hb.
Qed.

Lemma allowed_check msv old new :
  msv_inv msv -> 0 <= old < msv_numStates msv -> 0 <= new < msv_numStates msv ->
  match msv_stateMap msv with
  | None => Ok true
  | Some m => transitionAllowed m old new
  end = Ok (allowed (msv_stateMap msv) old new).
Proof.
  intros Hi Ho Hn. pose proof (minv_map _ Hi) as Hm. destruct (msv_stateMap msv) as [m|]; [|done].
  by eapply transitionAllowed_spec.
Qed.

Definition msv_same_config (a b : MultiStateVector) : Prop :=
  b = msv_update a (msv_vect b) (msv_stateUseCount b).

(** The counters [set] leaves: one key fewer in the old state, one more in the
    new one. *)
Definition moveCount (counts : list Z) (old new : Z) : result (list Z) :=
  c ← index counts old;
  counts ← store_at counts old (u16 (c - 1));
  c ← index counts new;
  store_at counts new (u16 (c + 1)).

Lemma moveCount_spec counts old new (f g : Z -> Z) :
  0 <= old < Z.of_nat (length counts) -> 0 <= new < Z.of_nat (length counts) ->
  (forall q, 0 <= q < Z.of_nat (length counts) -> counts !! Z.to_nat q = Some (f q)) ->
  (forall q, 0 <= q < Z.of_nat (length counts) ->
     g q = f q + Z.b2z (new =? q) - Z.b2z (old =? q)) ->
  (forall q, 0 <= q < Z.of_nat (length counts) -> is_u 16 (f q) /\ is_u 16 (g q)) ->
  1 <= f old ->
  exists counts', moveCount counts old new = Ok counts' /\ length counts' = length counts /\
    (forall q, 0 <= q < Z.of_nat (length counts) -> counts' !! Z.to_nat q = Some (g q)).
Proof.
  intros Ho Hn Hf Hg Hr Hpos. unfold moveCount.
  rewrite (proj2 (index_Ok counts old (f old))) by (split; [lia|by apply Hf]). cbn [mbind result_bind].
  destruct (Hr old Ho) as [Hfo _]. rewrite (wrapu_small 16 (f old - 1)) by (unfold is_u in *; lia).
  rewrite (proj2 (store_at_Ok _ _ _ _)) by (split; [lia|done]). cbn [mbind result_bind].
  set (counts1 := <[Z.to_nat old := f old - 1]> counts).
  assert (length counts1 = length counts) as Hl1 by apply length_insert.
  assert (forall q, 0 <= q < Z.of_nat (length counts) ->
    counts1 !! Z.to_nat q = Some (f q - Z.b2z (old =? q))) as Hc1.
  { intros q Hq. unfold counts1. rewrite list_lookup_insert.
    destruct (Z.eqb_spec old q) as [->|Hne].
    - rewrite decide_True by (split; [done|lia]). f_equal.
    - rewrite decide_False by lia. rewrite Hf by done. f_equal. simpl. lia. }
  rewrite (proj2 (index_Ok counts1 new (f new - Z.b2z (old =? new)))) by (split; [lia|by apply Hc1]).
  cbn [mbind result_bind].
  assert (u16 (f new - Z.b2z (old =? new) + 1) = g new) as ->.
  { destruct (Hr new Hn) as [_ Hgn]. rewrite Hg by done. rewrite Hg in Hgn by done.
    rewrite Z.eqb_refl in *. simpl in *. replace (f new - Z.b2z (old =? new) + 1) with (f new + 1 - Z.b2z (old =? new)) by lia.
    by apply wrapu_small. }
  rewrite (proj2 (store_at_Ok _ _ _ _)) by (split; [lia|done]).
  eexists. split; [done|]. split; [by rewrite length_insert|].
  intros q Hq. rewrite list_lookup_insert. destruct (Z.eqb_spec new q) as [->|Hne].
  - rewrite decide_True by (split; [done|lia]). done.
  - rewrite decide_False by lia. rewrite Hc1, Hg by done.
    rewrite (proj2 (Z.eqb_neq new q)) by done. simpl. f_equal. lia.
Qed.

Lemma count_range (p : Z -> bool) n : 0 <= n < 2 ^ 16 -> is_u 16 (count p (zseq 0 n)).
Proof.
  intros Hn. split; [apply count_nonneg|]. eapply Z.le_lt_trans; [apply count_le_length|].
  rewrite length_zseq. lia.
Qed.

(** [set] succeeds on a valid key, state and transition, keeps the invariant and
    changes that key's state only. *)
Lemma set_spec msv k st :
  msv_inv msv -> 0 <= k < msv_numKeys msv -> 0 <= st < msv_numStates msv ->
  allowed (msv_stateMap msv) (keyState (msv_bitSize msv) (msv_vect msv) k) st = true ->
  exists msv', MultiStateVector_set msv k st = Ok msv' /\ msv_inv msv' /\
    msv_same_config msv msv' /\
    (forall j, 0 <= j -> keyState (msv_bitSize msv) (msv_vect msv') j =
       if j =? k then st else keyState (msv_bitSize msv) (msv_vect msv) j).
Proof.
  intros Hi Hk Hst Hal. destruct (minv_bits_range _ Hi) as [Hbs Hpow].
  pose proof (minv_states _ Hi) as Hns. pose proof (minv_keys _ Hi) as Hnk.
  destruct (key_block msv k Hi Hk) as (v & Hidx & Hv & Hks).
  set (f := keyState (msv_bitSize msv) (msv_vect msv)) in *.
  assert (0 <= f k < msv_numStates msv) as Hold.
  { split; [|by apply (minv_state _ Hi)]. rewrite Hks. apply fieldAt_range. lia. }
  set (vect' := <[Z.to_nat (k / (64 / msv_bitSize msv)) := setBlock v (msv_bitSize msv) k st]> (msv_vect msv)).
  assert (forall j, 0 <= j -> keyState (msv_bitSize msv) vect' j = if j =? k then st else f j) as Hf'.
  { intros j Hj. apply keyState_set; try done; lia. }
  destruct (moveCount_spec (msv_stateUseCount msv) (f k) st
    (fun q => count (fun j => f j =? q) (zseq 0 (msv_numKeys msv)))
    (fun q => count (fun j => keyState (msv_bitSize msv) vect' j =? q) (zseq 0 (msv_numKeys msv))))
    as (counts' & Hmove & Hlen & Hcounts).
  { rewrite (minv_counts_len _ Hi). lia. }
  { rewrite (minv_counts_len _ Hi). lia. }
  { rewrite (minv_counts_len _ Hi). apply (minv_counts _ Hi). }
  { intros q _. rewrite (counts_move f _ _ k) by
      (done || intros; by rewrite !Hf', Z.eqb_refl by lia). by rewrite Hf', Z.eqb_refl by lia. }
  { intros q _. split; by apply count_range. }
  { enough (0 < count (fun j => f j =? f k) (zseq 0 (msv_numKeys msv))) by lia.
    apply count_pos. exists k. rewrite elem_of_zseq. split; [lia|apply Z.eqb_refl]. }
  exists (msv_update msv vect' counts'). split_and!.
  - unfold MultiStateVector_set. rewrite key_guard, get_spec, getMultiBlockAndPos_spec by done.
    rewrite (wrapu_small 8) by (unfold is_u; lia). fold f.
    rewrite (proj2 (Z.ltb_ge _ st)) by lia. cbn [mbind result_bind wrap_err].
    rewrite (proj2 (Z.ltb_ge _ (f k))) by lia.
    rewrite allowed_check by done. cbn [mbind result_bind]. rewrite Hal. cbn [negb].
    rewrite Hidx. cbn [mbind result_bind]. pose proof (lookup_lt_Some _ _ _ Hv).
    apply index_Ok in Hidx as [Hpos _].
    rewrite (proj2 (store_at_Ok _ _ _ _)) by (split; [lia|done]). cbn [mbind result_bind].
    assert (forall w, index (<[Z.to_nat (k / (64 / msv_bitSize msv)) := w]> (msv_vect msv))
      (k / (64 / msv_bitSize msv)) = Ok w) as Hrd.
    { intros w. apply index_Ok. split; [lia|]. by rewrite list_lookup_insert_eq. }
    rewrite Hrd. cbn [mbind result_bind].
    rewrite (proj2 (store_at_Ok _ vect' _ _)) by
      (split; [rewrite length_insert; lia|by rewrite list_insert_insert_eq]).
    cbn [mbind result_bind]. unfold moveCount in Hmove.
    apply bind_Ok in Hmove as (c1 & -> & Hmove). cbn [mbind result_bind].
    apply bind_Ok in Hmove as (c2 & -> & Hmove). cbn [mbind result_bind].
    apply bind_Ok in Hmove as (c3 & -> & Hmove). cbn [mbind result_bind].
    by rewrite Hmove.
  - destruct Hi. constructor; simpl; try done.
    + unfold vect'. apply Forall_insert; [done|]. apply is_u_setBlock; [done|lia|].
      by eapply Forall_lookup_1.
    + unfold vect'. by rewrite length_insert.
    + unfold vect'. by rewrite length_insert.
    + intros j Hj. rewrite Hf' by lia. destruct (j =? k); [lia|by auto].
    + by rewrite Hlen.
    + intros q Hq. apply Hcounts. lia.
  - done.
  - exact Hf'.
Qed.

(** [set] on every branch, in terms of the packed states. *)
Lemma set_branches msv k st :
  msv_inv msv -> 1 <= msv_numKeys msv -> 0 <= k -> 0 <= st ->
  let f := keyState (msv_bitSize msv) (msv_vect msv) in
  (msv_numKeys msv <= k ->
     MultiStateVector_set msv k st = Err (keyNumMaxErr k (msv_numKeys msv - 1))) /\
  (k < msv_numKeys msv -> msv_numStates msv <= st ->
     MultiStateVector_set msv k st = Err (stateMaxErr st (msv_numStates msv - 1))) /\
  (k < msv_numKeys msv -> st < msv_numStates msv -> allowed (msv_stateMap msv) (f k) st = false ->
     MultiStateVector_set msv k st =
       Err (Errorf "cannot change state of key %d from %d to %d" [k; f k; st])).
Proof.
  intros Hi Hn Hk Hst f. pose proof (minv_states _ Hi) as Hns. pose proof (minv_keys _ Hi) as Hnk.
  assert (u16 (msv_numKeys msv - 1) = msv_numKeys msv - 1) as Hu by (apply wrapu_small; unfold is_u; lia).
  assert (u8 (msv_numStates msv - 1) = msv_numStates msv - 1) as Hu' by (apply wrapu_small; unfold is_u; lia).
  split_and!; unfold MultiStateVector_set; rewrite ?Hu, ?Hu'.
  - intros Hge. by rewrite (proj2 (Z.ltb_lt _ k)) by lia.
  - intros Hlt Hge. by rewrite (proj2 (Z.ltb_ge _ k)), (proj2 (Z.ltb_lt _ st)) by lia.
  - intros Hlt Hslt Hal. destruct (minv_bits_range _ Hi) as [Hbs _].
    destruct (key_block msv k Hi) as (v & _ & _ & Hks); [lia|].
    assert (0 <= f k < msv_numStates msv) as Hold.
    { split; [|apply (minv_state _ Hi); lia]. unfold f. rewrite Hks. apply fieldAt_range. lia. }
    rewrite (proj2 (Z.ltb_ge _ k)), (proj2 (Z.ltb_ge _ st)), get_spec by (done || lia).
    fold (f k). cbn [mbind result_bind wrap_err]. rewrite (proj2 (Z.ltb_ge _ (f k))) by lia.
    rewrite allowed_check by (done || lia). cbn [mbind result_bind]. by rewrite Hal.
Qed.

(** [set] on every branch.  A key or a state out of range and a transition
    the table forbids are the three errors; every other call succeeds, keeps
    the invariant, and [get] then returns the new state for that key and the
    old state for every other key. *)
Theorem MultiStateVector_set_complete msv k st :
  msv_inv msv -> 1 <= msv_numKeys msv -> 0 <= k -> 0 <= st ->
  (msv_numKeys msv <= k ->
     MultiStateVector_set msv k st = Err (keyNumMaxErr k (msv_numKeys msv - 1))) /\
  (k < msv_numKeys msv -> msv_numStates msv <= st ->
     MultiStateVector_set msv k st = Err (stateMaxErr st (msv_numStates msv - 1))) /\
  (k < msv_numKeys msv -> st < msv_numStates msv ->
     exists old, MultiStateVector_get msv k = Ok old /\
     if allowed (msv_stateMap msv) old st then
       exists msv', MultiStateVector_set msv k st = Ok msv' /\ msv_inv msv' /\
         MultiStateVector_get msv' k = Ok st /\
         (forall j, 0 <= j < msv_numKeys msv -> j ≠ k ->
            MultiStateVector_get msv' j = MultiStateVector_get msv j)
     else MultiStateVector_set msv k st =
       Err (Errorf "cannot change state of key %d from %d to %d" [k; old; st])).
Proof.
  intros Hi Hn Hk Hst. destruct (set_branches msv k st Hi Hn Hk Hst) as (H1 & H2 & H3).
  split_and!; [done|done|]. intros Hlt Hslt. eexists. split; [by apply get_spec|].
  destruct (allowed _ _ _) eqn:Hal; [|by apply H3].
  destruct (set_spec msv k st) as (msv' & Hset & Hi' & Hcfg & Hks); try done.
  exists msv'. rewrite Hcfg in *. simpl in *. split_and!; [done|done| |].
  - rewrite get_spec by done. simpl. by rewrite Hks, Z.eqb_refl by lia.
  - intros j Hj Hne. rewrite !get_spec by done. simpl. rewrite Hks by lia.
    by rewrite (proj2 (Z.eqb_neq _ _)).
Qed.

(** ** Operations and reachable states *)

Lemma set_Ok_inv msv k st msv' :
  msv_inv msv -> 1 <= msv_numKeys msv -> is_u 16 k -> is_u 8 st ->
  MultiStateVector_set msv k st = Ok msv' -> msv_inv msv' /\ msv_same_config msv msv'.
Proof.
  intros Hi Hn [Hk _] [Hst _] Hset.
  destruct (set_branches msv k st Hi Hn Hk Hst) as (H1 & H2 & H3).
  destruct (decide (k < msv_numKeys msv)) as [Hlt|Hge]; [|by rewrite H1 in Hset by lia].
  destruct (decide (st < msv_numStates msv)) as [Hs|Hs]; [|by rewrite H2 in Hset by lia].
  destruct (allowed (msv_stateMap msv) (keyState (msv_bitSize msv) (msv_vect msv) k) st) eqn:Hal;
    [|by rewrite H3 in Hset].
  destruct (set_spec msv k st) as (m & Hset' & Hi' & Hc & _); try done.
  rewrite Hset in Hset'. by injection Hset' as ->.
Qed.

(** One call that returns (a panic ends the program). *)
Inductive msv_step {S} `{EKV S} : S * MultiStateVector -> S * MultiStateVector -> Prop :=
| step_Set s msv k st now r :
    is_u 16 k -> is_u 8 st -> MultiStateVector_Set s msv k st now = Ok r ->
    msv_step (s, msv) r
| step_SetMany s msv ks st now r :
    Forall (is_u 16) ks -> is_u 8 st -> MultiStateVector_SetMany s msv ks st now = Ok r ->
    msv_step (s, msv) r
| step_CompareAndSwap s msv k old new now r b :
    is_u 16 k -> is_u 8 new -> MultiStateVector_CompareAndSwap s msv k old new now = Ok (r, b) ->
    msv_step (s, msv) r
| step_CompareNotAndSwap s msv k old new now r b :
    is_u 16 k -> is_u 8 new -> MultiStateVector_CompareNotAndSwap s msv k old new now = Ok (r, b) ->
    msv_step (s, msv) r.

Definition msv_good (st : MultiStateVector) : Prop := msv_inv st /\ 1 <= msv_numKeys st.

Lemma same_config_good a b : msv_good a -> msv_inv b -> msv_same_config a b -> msv_good b.
Proof. intros [_ Hn] Hi Hc. split; [done|]. rewrite Hc. done. Qed.

Lemma wrap_err_Ok {A} fmt args (r : result A) a : wrap_err fmt args r = Ok a -> r = Ok a.
Proof. by destruct r. Qed.

Lemma setAndSave_good {S} `{EKV S} (s : S) msv k st now r :
  msv_good msv -> is_u 16 k -> is_u 8 st ->
  MultiStateVector_setAndSave s msv k st now = Ok r -> msv_good (snd r).
Proof.
  intros Hg Hk Hst Hset. unfold MultiStateVector_setAndSave in Hset.
  apply bind_Ok in Hset as (m & Hm & Hset). apply wrap_err_Ok in Hm.
  destruct (set_Ok_inv _ _ _ _ (proj1 Hg) (proj2 Hg) Hk Hst Hm).
  unfold saved in Hset. destruct (MultiStateVector_save s m now) as [s' [e|]]; [done|].
  injection Hset as <-. by eapply same_config_good.
Qed.

Lemma setMany_good ks msv st i n msv' :
  msv_good msv -> Forall (is_u 16) ks -> is_u 8 st ->
  setMany_loop msv ks st i n = Ok msv' -> msv_good msv'.
Proof.
  intros Hg Hks Hst. revert msv i Hg. induction Hks as [|k ks Hk Hks IH]; intros msv i Hg Hset;
    cbn [setMany_loop] in Hset; [by simplify_eq|].
  apply bind_Ok in Hset as (m & Hm & Hset). apply wrap_err_Ok in Hm.
  destruct (set_Ok_inv _ _ _ _ (proj1 Hg) (proj2 Hg) Hk Hst Hm).
  eapply IH; [|done]. by eapply same_config_good.
Qed.

Lemma step_good {S} `{EKV S} (a b : S * MultiStateVector) :
  msv_good (snd a) -> msv_step a b -> msv_good (snd b).
Proof.
  intros Hg Hstep. destruct Hstep as [s msv k st now r ? ? Hr|s msv ks st now r ? ? Hr
    |s msv k old new now r b ? ? Hr|s msv k old new now r b ? ? Hr]; simpl in Hg.
  - apply (proj1 (must_Ok _ _)) in Hr. by eapply (setAndSave_good s msv k st now r).
  - apply (proj1 (must_Ok _ _)) in Hr. unfold MultiStateVector_setMany in Hr.
    apply bind_Ok in Hr as (m & Hm & Hr). unfold saved in Hr.
    destruct (MultiStateVector_save s m now) as [s' [e|]]; [done|]. injection Hr as <-.
    by eapply (setMany_good ks msv st).
  - unfold MultiStateVector_CompareAndSwap in Hr. apply bind_Ok in Hr as (cur & _ & Hr).
    destruct (cur =? old); [|by simplify_eq].
    apply bind_Ok in Hr as ([s' m] & Hm & Hr). apply (proj1 (must_Ok _ _)) in Hm. simplify_eq.
    by eapply (setAndSave_good s msv k new now (s', m)).
  - unfold MultiStateVector_CompareNotAndSwap in Hr. apply bind_Ok in Hr as (cur & _ & Hr).
    destruct (negb (cur =? old)); [|by simplify_eq].
    apply bind_Ok in Hr as ([s' m] & Hm & Hr). apply (proj1 (must_Ok _ _)) in Hm. simplify_eq.
    by eapply (setAndSave_good s msv k new now (s', m)).
Qed.

(** The blocks [NewMultiStateVector] makes hold every key. *)
Definition blocksFit (numKeys numStates : Z) : Prop :=
  let bits := ceilLog2 numStates in
  numKeys <= (64 / bits) * (u16 (u16 (numKeys * bits) + 63) / 64).

Lemma checkStateMapRows_ok n rows i :
  checkStateMapRows n i rows = None -> Forall (fun row => Z.of_nat (length row) = n) rows.
Proof.
  revert i. induction rows as [|row rows IH]; intros i Hc; [done|]. simpl in Hc.
  destruct (Z.eqb_spec (Z.of_nat (length row)) n); simpl in Hc; [|done].
  constructor; eauto.
Qed.

Lemma checkStateMap_ok n m : checkStateMap n m = None -> stateMap_ok n m.
Proof.
  destruct m as [m|]; [|done]. simpl.
  destruct (Z.eqb_spec (Z.of_nat (length m)) n); simpl; [|done].
  intros Hc. split; [done|]. by eapply checkStateMapRows_ok.
Qed.

Lemma keyState_zero bs m k : keyState bs (replicate m 0) k = 0.
Proof.
  unfold keyState. destruct (replicate m 0 !! _) as [v|] eqn:E; [|done].
  apply lookup_replicate in E as [-> _]. unfold fieldAt. by rewrite Z.shiftr_0_l.
Qed.

Lemma count_const (b : bool) (l : list Z) :
  count (fun _ => b) l = if b then Z.of_nat (length l) else 0.
Proof. induction l as [|x l IH]; simpl; [by destruct b|]. rewrite IH. destruct b; simpl; lia. Qed.

Lemma New_good {S} `{EKV S} (s : S) numKeys numStates stateMap key v now msv s' e :
  1 <= numKeys < 2 ^ 16 -> 0 <= numStates -> blocksFit numKeys numStates ->
  NewMultiStateVector s numKeys numStates stateMap key v now = Ok (msv, s', e) ->
  msv_good msv /\ (forall k, 0 <= k -> keyState (msv_bitSize msv) (msv_vect msv) k = 0).
Proof.
  intros Hk Hs Hfit Hnew. unfold NewMultiStateVector in Hnew.
  destruct (Z.ltb_spec numStates minNumStates) as [|Hmin]; [done|].
  destruct (Z.ltb_spec maxNumStates numStates) as [|Hmax]; [done|].
  unfold minNumStates, maxNumStates in *.
  destruct (checkStateMap numStates stateMap) eqn:Hc; [done|]. apply checkStateMap_ok in Hc.
  apply bind_Ok in Hnew as (counts & Hcounts & Hnew). apply store_at_Ok in Hcounts as [_ ->].
  destruct (MultiStateVector_save s _ now) as [s1 e1]. injection Hnew as <- <- <-.
  destruct (ceilLog2_range numStates ltac:(lia)) as [Hbs _].
  pose proof (perBlock_pos _ Hbs) as Hpb. simpl.
  split; [|intros; apply keyState_zero]. split; [|simpl; lia].
  constructor; simpl; try lia; try done.
  - rewrite wrapu_small; [done|]. unfold is_u.
    assert (ceilLog2 numStates = 1 \/ ceilLog2 numStates = 2 \/ ceilLog2 numStates = 3)
      as [->|[->| ->]] by lia; split; by vm_compute.
  - apply Forall_replicate. split; lia.
  - rewrite length_replicate. unfold blocksFit in Hfit. cbv zeta in Hfit.
    pose proof (wrapu_range 16 (u16 (numKeys * ceilLog2 numStates) + 63)). 
    rewrite Z2Nat.id by (apply Z.div_pos; [apply wrapu_range; lia|lia]). done.
  - rewrite length_replicate. pose proof (wrapu_range 16 (u16 (numKeys * ceilLog2 numStates) + 63) ltac:(lia)) as [Hr1 Hr2].
    rewrite Z2Nat.id by (apply Z.div_pos; lia). zlia.
  - intros k _. rewrite keyState_zero. lia.
  - rewrite length_insert, length_replicate. lia.
  - intros st Hst. rewrite list_lookup_insert. rewrite length_replicate.
    rewrite (count_ext _ (fun _ => 0 =? st)) by (intros; by rewrite keyState_zero).
    rewrite count_const, length_zseq.
    destruct (Z.eqb_spec 0 st) as [<-|Hne].
    + rewrite decide_True by (split; [done|lia]). f_equal. lia.
    + rewrite decide_False by lia. apply lookup_replicate_2. lia.
Qed.

Lemma getKeys_loop_spec msv st ks :
  msv_inv msv -> (forall k, k ∈ ks -> 0 <= k < msv_numKeys msv) ->
  getKeys_loop msv st ks =
    Ok (filter (fun k => keyState (msv_bitSize msv) (msv_vect msv) k = st) ks).
Proof.
  intros Hi. induction ks as [|k ks IH]; intros Hk; [done|]. cbn [getKeys_loop].
  rewrite get_spec by (done || apply Hk; left). cbn [mbind result_bind wrap_err].
  rewrite IH by (intros; apply Hk; by right). cbn [mbind result_bind].
  rewrite filter_cons. destruct (Z.eqb_spec (keyState (msv_bitSize msv) (msv_vect msv) k) st).
  - by rewrite decide_True.
  - by rewrite decide_False.
Qed.

(** in every state reachable from a new vector whose blocks hold its keys,
    by any calls of [Set], [SetMany], [CompareAndSwap] and [CompareNotAndSwap]
    that return, the counter of each state is the number of keys [GetKeys]
    lists for it, and [GetKeys] lists, in order, exactly the keys for which
    [Get] returns that state. *)
Theorem MultiStateVector_counts {S} `{EKV S} (s s0 s' : S) numKeys numStates stateMap key v now
    msv e msv' st :
  1 <= numKeys < 2 ^ 16 -> 0 <= numStates -> blocksFit numKeys numStates ->
  NewMultiStateVector s numKeys numStates stateMap key v now = Ok (msv, s0, e) ->
  star msv_step (s0, msv) (s', msv') -> 0 <= st < msv_numStates msv' ->
  exists keys, MultiStateVector_GetKeys msv' st = Ok keys /\
    MultiStateVector_GetCount msv' st = Ok (Z.of_nat (length keys)) /\
    keys = filter (fun k => MultiStateVector_Get msv' k = Ok st) (zseq 0 (msv_numKeys msv')).
Proof.
  intros Hk Hs Hfit Hnew Hstar Hst.
  destruct (New_good _ _ _ _ _ _ _ _ _ _ Hk Hs Hfit Hnew) as [Hg _].
  pose proof (star_invariant _ (fun a => msv_good (snd a)) step_good _ _ Hstar Hg) as [Hi Hn].
  simpl in *. pose proof (minv_states _ Hi) as Hns. pose proof (minv_counts_len _ Hi) as Hlen.
  set (ks := filter (fun k => keyState (msv_bitSize msv') (msv_vect msv') k = st) (zseq 0 (msv_numKeys msv'))).
  assert (index (msv_stateUseCount msv') st = Ok (Z.of_nat (length ks))) as Hcnt.
  { apply index_Ok. split; [lia|]. rewrite (minv_counts _ Hi) by done. f_equal.
    rewrite <- count_filter. f_equal. f_equal. apply filter_ext_in. intros k _. apply Z.eqb_eq. }
  exists ks. unfold MultiStateVector_GetKeys, MultiStateVector_GetCount,
    MultiStateVector_getKeys, MultiStateVector_getCount.
  rewrite (wrapu_small 8) by (unfold is_u; lia).
  rewrite (proj2 (Z.ltb_ge _ st)), (proj2 (Z.leb_gt _ st)), Hcnt by lia. cbn [mbind result_bind].
  rewrite getKeys_loop_spec by (done || intros k Hkz; by apply elem_of_zseq).
  split_and!; [done|done|]. apply filter_ext_in. intros k Hkz%elem_of_zseq.
  unfold MultiStateVector_Get. rewrite get_spec by done. simpl.
  split; [by intros ->|by intros [= ->]].
Qed.

(** ** Saving and loading *)

Lemma readLE_encode n z r fmt args :
  is_u (8 * Z.of_nat n) z -> readLE n (le_encode n z ++ r) fmt args = Ok (z, r).
Proof.
  intros Hz. unfold readLE. rewrite length_app, length_le_encode, decide_True by lia.
  rewrite take_app_length', drop_app_length' by (by rewrite length_le_encode).
  by rewrite le_decode_encode_u.
Qed.

Lemma readLEs_encode n zs r fmt i :
  Forall (is_u (8 * Z.of_nat n)) zs ->
  readLEs n (length zs) (concat (le_encode n <$> zs) ++ r) fmt i = Ok (zs, r).
Proof.
  intros Hzs. revert i. induction Hzs as [|z zs Hz Hzs IH]; intros i; [done|].
  rewrite fmap_cons. cbn [concat length readLEs]. rewrite <- app_assoc.
  rewrite readLE_encode by done. cbn [mbind result_bind]. rewrite IH. done.
Qed.

Lemma counts_u16 msv : msv_inv msv -> Forall (is_u 16) (msv_stateUseCount msv).
Proof.
  intros Hi. apply Forall_lookup. intros i c Hc.
  pose proof (lookup_lt_Some _ _ _ Hc) as Hlt. pose proof (minv_counts_len _ Hi) as Hlen.
  pose proof (minv_counts _ Hi (Z.of_nat i) ltac:(lia)) as Hci. rewrite Nat2Z.id, Hc in Hci.
  injection Hci as ->. apply count_range, (minv_keys _ Hi).
Qed.

Lemma unmarshal_marshal msv msv0 :
  msv_inv msv ->
  MultiStateVector_unmarshal msv0 (MultiStateVector_marshal msv) =
    Ok (mkMSV (msv_numKeys msv) (msv_numStates msv) (msv_bitSize msv) (msv_numKeysPerBlock msv)
          (msv_wordSize msv) (msv_vect msv) (msv_stateMap msv0) (msv_stateUseCount msv)
          (msv_key msv0) (msv_kv msv0)).
Proof.
  intros Hi. destruct (minv_bits_range _ Hi) as [Hbs _].
  pose proof (minv_keys _ Hi). pose proof (minv_states _ Hi). pose proof (minv_vect_len _ Hi).
  unfold MultiStateVector_unmarshal, MultiStateVector_marshal.
  rewrite readLE_encode by (unfold is_u; lia). cbn [mbind result_bind].
  rewrite readLE_encode by (unfold is_u; lia). cbn [mbind result_bind].
  rewrite <- (minv_bits _ Hi). rewrite (proj2 (Z.eqb_neq _ _)) by lia.
  rewrite readLE_encode by (unfold is_u; lia). cbn [mbind result_bind].
  rewrite (proj2 (Z.ltb_ge _ _)) by (unfold maxSliceLen; lia). rewrite Nat2Z.id.
  rewrite readLEs_encode by apply (minv_blocks _ Hi). cbn [mbind result_bind].
  rewrite <- (app_nil_r (concat (le_encode 2 <$> msv_stateUseCount msv))).
  replace (Z.to_nat (msv_numStates msv)) with (length (msv_stateUseCount msv))
    by (rewrite <- (minv_counts_len _ Hi); lia).
  rewrite readLEs_encode by apply (counts_u16 _ Hi). cbn [mbind result_bind].
  rewrite <- (minv_perBlock _ Hi), wrapu_small, <- (minv_word _ Hi); [done|].
  rewrite (minv_perBlock _ Hi).
  assert (msv_bitSize msv = 1 \/ msv_bitSize msv = 2 \/ msv_bitSize msv = 3) as [->|[->| ->]] by lia;
    split; by vm_compute.
Qed.

(** what [save] stores, [LoadMultiStateVector] reads back, field by field,
    given the same transition table. *)
Theorem MultiStateVector_save_load {S} `{EKVLaws S} (s s' : S) msv key now :
  msv_inv msv -> msv_key msv = makeMultiStateVectorKey key ->
  MultiStateVector_save s msv now = (s', None) ->
  LoadMultiStateVector s' (msv_stateMap msv) key (msv_kv msv) = Ok msv.
Proof.
  intros Hi Hkey Hsave. apply kv_get_set_eq in Hsave. unfold LoadMultiStateVector. simpl in *.
  rewrite <- Hkey, Hsave. simpl. rewrite unmarshal_marshal by done. simpl. f_equal.
  destruct msv. simpl in *. by subst.
Qed.

(** ** The number of blocks

    [NewMultiStateVector] sizes the vector as if states could cross blocks.
    With one or two bits per state nothing is lost; with three bits (five to
    eight states) 63 of the 64 bits of a block are used and the last keys of
    some vectors have no block. *)

Lemma blocksFit_small numKeys numStates :
  1 <= numKeys -> 2 <= numStates <= 4 -> numKeys * ceilLog2 numStates + 63 < 2 ^ 16 ->
  blocksFit numKeys numStates.
Proof.
  intros Hk Hs Hsmall. unfold blocksFit.
  assert (ceilLog2 numStates = 1 \/ ceilLog2 numStates = 2) as [E|E].
  { assert (numStates = 2 \/ numStates = 3 \/ numStates = 4) as [->|[->| ->]] by lia; vm_compute; auto. }
  - rewrite E in *. rewrite !wrapu_small by (unfold is_u; rewrite ?wrapu_small; unfold is_u; lia).
    change (64 / 1) with 64. zlia.
  - rewrite E in *. rewrite !wrapu_small by (unfold is_u; rewrite ?wrapu_small; unfold is_u; lia).
    change (64 / 2) with 32. zlia.
Qed.

(** a vector of up to four states whose size stays within the 16-bit
    computation of its blocks can read each of its keys: every key starts in
    state 0.  A vector of 64 keys and five states is created without error, but
    reading its last key is out of range and panics. *)
Theorem MultiStateVector_capacity {S} `{EKVReliable S} (s : S) key v now :
  (forall numKeys numStates k,
     1 <= numKeys -> 2 <= numStates <= 4 -> numKeys * ceilLog2 numStates + 63 < 2 ^ 16 ->
     0 <= k < numKeys ->
     exists msv s', NewMultiStateVector s numKeys numStates None key v now = Ok (msv, s', None) /\
       MultiStateVector_Get msv k = Ok 0) /\
  (exists msv s', NewMultiStateVector s 64 5 None key v now = Ok (msv, s', None) /\
     MultiStateVector_GetNumKeys msv = 64 /\ MultiStateVector_Get msv 63 = Panic).
Proof.
  assert (forall numKeys numStates, 2 <= numStates <= 8 ->
    exists msv s', NewMultiStateVector s numKeys numStates None key v now = Ok (msv, s', None))
    as Hnew.
  { intros nk ns Hs. unfold NewMultiStateVector, minNumStates, maxNumStates.
    rewrite (proj2 (Z.ltb_ge _ _)), (proj2 (Z.ltb_ge 8 _)) by lia. simpl checkStateMap. cbv iota.
    rewrite (proj2 (store_at_Ok _ _ _ _)) by (split; [rewrite length_replicate; lia|done]).
    cbn [mbind result_bind]. unfold MultiStateVector_save, kv_Set.
    set (msv := mkMSV _ _ _ _ _ _ _ _ _ _). set (full := kv_makeKey _ _ _). set (o := mkObject _ _ _).
    pose proof (ekv_set_ok s full o). destruct (ekv_Set s full o) as [s' e]. simpl in *. subst e. eauto. }
  split.
  - intros nk ns k Hk Hs Hsmall Hkey. destruct (Hnew nk ns) as (msv & s' & Hn); [lia|].
    exists msv, s'. split; [done|].
    assert (ceilLog2 ns = 1 \/ ceilLog2 ns = 2) as E.
    { assert (ns = 2 \/ ns = 3 \/ ns = 4) as [->|[->| ->]] by lia; vm_compute; auto. }
    assert (nk < 2 ^ 16) by (destruct E as [E|E]; rewrite E in Hsmall; lia).
    destruct (New_good s nk ns None key v now msv s' None ltac:(lia) ltac:(lia) (blocksFit_small nk ns Hk Hs Hsmall) Hn)
      as [[Hi _] Hzero].
    assert (msv_numKeys msv = nk) as Hnk.
    { unfold NewMultiStateVector in Hn. do 2 (case_match; [done|]). simpl in Hn.
      apply bind_Ok in Hn as (c & _ & Hn). case_match. by simplify_eq. }
    unfold MultiStateVector_Get. rewrite get_spec, Hzero by (done || lia). done.
  - destruct (Hnew 64 5) as (msv & s' & Hn); [lia|]. exists msv, s'. split; [done|].
    unfold NewMultiStateVector in Hn. simpl in Hn. case_match. simplify_eq. by vm_compute.
Qed.

(** ** Witnesses *)

Definition ex_map : option (list (list bool)) :=
  Some [[false; true; false]; [false; false; true]; [false; false; false]].
Definition ex_msv : MultiStateVector :=
  match NewMultiStateVector (∅ : MemStore) 70 3 ex_map "a" NewKV 0 with
  | Ok (msv, _, _) => msv
  | _ => mkMSV 0 0 0 0 0 [] None [] "" NewKV
  end.

Lemma ex_fits : blocksFit 70 3.
Proof. by apply blocksFit_small; vm_compute. Qed.

Lemma ex_msv_inv : msv_good ex_msv.
Proof.
  exact (proj1 (New_good (∅ : MemStore) 70 3 ex_map "a" NewKV 0 ex_msv _ None
    ltac:(lia) ltac:(lia) ex_fits eq_refl)).
Qed.

Lemma MultiStateVector_set_complete_witness :
  (exists msv', MultiStateVector_set ex_msv 35 1 = Ok msv' /\ MultiStateVector_get msv' 35 = Ok 1) /\
  MultiStateVector_set ex_msv 70 1 = Err (keyNumMaxErr 70 69) /\
  MultiStateVector_set ex_msv 35 2 =
    Err (Errorf "cannot change state of key %d from %d to %d" [35; 0; 2]).
Proof.
  destruct (MultiStateVector_set_complete ex_msv 35 1 (proj1 ex_msv_inv)
    ltac:(by vm_compute) ltac:(lia) ltac:(lia)) as (_ & _ & H3).
  destruct (MultiStateVector_set_complete ex_msv 70 1 (proj1 ex_msv_inv)
    ltac:(by vm_compute) ltac:(lia) ltac:(lia)) as (H1 & _).
  destruct (MultiStateVector_set_complete ex_msv 35 2 (proj1 ex_msv_inv)
    ltac:(by vm_compute) ltac:(lia) ltac:(lia)) as (_ & _ & H4).
  split_and!.
  - destruct H3 as (old & Hold & Hset); [by vm_compute|by vm_compute|].
    assert (old = 0) as -> by (vm_compute in Hold; congruence).
    destruct Hset as (msv' & ? & _ & ? & _). by exists msv'.
  - etrans; [apply H1; by vm_compute|done].
  - destruct H4 as (old & Hold & Hset); [by vm_compute|by vm_compute|].
    assert (old = 0) as -> by (vm_compute in Hold; congruence). exact Hset.
Defined.

Definition ex_msv2 : MemStore * MultiStateVector :=
  match MultiStateVector_Set (fst (MultiStateVector_save (∅ : MemStore) ex_msv 0)) ex_msv 35 1 0 with
  | Ok r => r
  | _ => (∅, ex_msv)
  end.

Lemma MultiStateVector_counts_witness :
  exists keys, MultiStateVector_GetKeys (snd ex_msv2) 1 = Ok keys /\
    MultiStateVector_GetCount (snd ex_msv2) 1 = Ok (Z.of_nat (length keys)) /\ keys = [35].
Proof.
  destruct (MultiStateVector_counts (∅ : MemStore) (fst (MultiStateVector_save (∅ : MemStore) ex_msv 0))
    (fst ex_msv2) 70 3 ex_map "a" NewKV 0
    ex_msv None (snd ex_msv2) 1 ltac:(lia) ltac:(lia) ex_fits ltac:(by vm_compute)) as (keys & H1 & H2 & H3).
  - eapply star_step; [|apply star_refl].
    refine (step_Set (fst (MultiStateVector_save (∅ : MemStore) ex_msv 0)) ex_msv 35 1 0
      (fst ex_msv2, snd ex_msv2) _ _ _); [unfold is_u; lia|unfold is_u; lia|vm_compute; reflexivity].
  - by vm_compute.
  - exists keys. split_and!; [exact H1|exact H2|]. rewrite H3. by vm_compute.
Defined.

Lemma MultiStateVector_save_load_witness :
  LoadMultiStateVector (fst (MultiStateVector_save (∅ : MemStore) ex_msv 7)) ex_map "a" NewKV
    = Ok ex_msv.
Proof.
  exact (MultiStateVector_save_load (∅ : MemStore) _ ex_msv "a" 7 (proj1 ex_msv_inv)
    eq_refl eq_refl).
Defined.

Lemma MultiStateVector_capacity_witness :
  exists msv s', NewMultiStateVector (∅ : MemStore) 64 5 None "a" NewKV 0 = Ok (msv, s', None) /\
    MultiStateVector_Get msv 63 = Panic.
Proof.
  destruct (proj2 (MultiStateVector_capacity (∅ : MemStore) "a" NewKV 0)) as (msv & s' & H1 & _ & H2).
  by exists msv, s'.
Defined.
