(* ===== verification/Conversation.v ===== *)
(** * Conversations

    [e2e/parse/conversation/partner.go] and [store.go]: per partner, the next
    message identifier to send and the last one received.  A message carries
    the low 32 bits of its 64-bit identifier; the receiver finds the high bits
    from the revolutions of the last identifier it has seen. *)

From S2P Require Import Prelude GoBytes KV Json.

Definition currentConversationVersion : Z := 0.
Definition maxTruncatedID : Z := 2 ^ 32 - 1.
Definition bottomRegion : Z := maxTruncatedID / 4.
Definition topRegion : Z := bottomRegion * 3.

Record Conversation (ID : Type) := mkConversation {
  lastReceivedID : Z;            (* uint32 *)
  numReceivedRevolutions : Z;    (* uint32 *)
  nextSentID : Z;                (* uint64 *)
  c_partner : ID;
  c_kv : kv;
}.
Arguments mkConversation {ID}.
Arguments lastReceivedID {ID}.
Arguments numReceivedRevolutions {ID}.
Arguments nextSentID {ID}.
Arguments c_partner {ID}.
Arguments c_kv {ID}.

(** ** Storage format *)

Record conversationDisk := mkConversationDisk {
  LastReceivedID : Z;
  NumReceivedRevolutions : Z;
  NextSendID : Z;
}.

Definition conversationDisk_json (d : conversationDisk) : json :=
  JObj [(chars "LastReceivedID", encodeUint (LastReceivedID d));
        (chars "NumReceivedRevolutions", encodeUint (NumReceivedRevolutions d));
        (chars "NextSendID", encodeUint (NextSendID d))].

Definition conversationDisk_set (k : list Ascii.ascii) (v : json) (d : conversationDisk) :
    option conversationDisk :=
  if fieldEq "LastReceivedID" k then
    n ← decodeUint 32 (LastReceivedID d) v;
    Some (mkConversationDisk n (NumReceivedRevolutions d) (NextSendID d))
  else if fieldEq "NumReceivedRevolutions" k then
    n ← decodeUint 32 (NumReceivedRevolutions d) v;
    Some (mkConversationDisk (LastReceivedID d) n (NextSendID d))
  else if fieldEq "NextSendID" k then
    n ← decodeUint 64 (NextSendID d) v;
    Some (mkConversationDisk (LastReceivedID d) (NumReceivedRevolutions d) n)
  else Some d.

(** [cmp]: 1 when the identifier has wrapped past the maximum since the last
    one, -1 when it belongs to the previous revolution. *)
Definition cmp (a b : Z) : Z :=
  if (topRegion <? a) && (b <? bottomRegion) then 1
  else if (a <? bottomRegion) && (topRegion <? b) then -1
  else 0.

Section conversation.
Context {ID : Type} `{NetID ID}.

Definition makeConversationKey (partner : ID) : string := MakePartnerPrefix partner.

Definition Conversation_marshal (c : Conversation ID) : list byte :=
  marshalText (conversationDisk_json
    (mkConversationDisk (lastReceivedID c) (numReceivedRevolutions c) (nextSentID c))).

Definition Conversation_unmarshal (c : Conversation ID) (b : list byte) :
    result (Conversation ID) :=
  match unmarshalText b ≫= decodeStruct conversationDisk_set (mkConversationDisk 0 0 0) with
  | Some cd => Ok (mkConversation (LastReceivedID cd) (NumReceivedRevolutions cd)
                     (NextSendID cd) (c_partner c) (c_kv c))
  | None => Err (Wrapf "Failed to Unmarshal Conversation" [] (Errorf "json" []))
  end.

Context {S : Type} `{EKV S}.

Definition Conversation_save (s : S) (c : Conversation ID) (now : Time) : S * option error :=
  kv_Set (c_kv c) s (makeConversationKey (c_partner c))
    (mkObject currentConversationVersion now (Conversation_marshal c)).

Definition Conversation_delete (s : S) (c : Conversation ID) : S * option error :=
  kv_Delete (c_kv c) s (makeConversationKey (c_partner c)) currentConversationVersion.

Definition loadConversation (s : S) (v : kv) (partner : ID) : result (Conversation ID) :=
  match kv_Get v s (makeConversationKey partner) currentConversationVersion with
  | inl e => Err (Wrapf "Failed to Load conversation" [] e)
  | inr obj => wrap_err "Failed to Load conversation" []
                 (Conversation_unmarshal (mkConversation 0 0 0 partner v) (Data obj))
  end.

(** Saves or panics. *)
Definition saveOrPanic (s : S) (c : Conversation ID) (now : Time) : result S :=
  match Conversation_save s c now with
  | (s, None) => Ok s
  | (_, Some _) => Panic
  end.

Definition LoadOrMakeConversation (s : S) (v : kv) (partner : ID) (now : Time) :
    result (S * Conversation ID) :=
  match loadConversation s v partner with
  | Panic => Panic
  | Ok c => Ok (s, c)
  | Err e =>
      if ekv_Exists S e then Panic
      else
        let c := mkConversation 0 0 0 partner v in
        s ← saveOrPanic s c now; Ok (s, c)
  end.

Definition Conversation_ProcessReceivedMessageID (s : S) (c : Conversation ID) (mid : Z)
    (now : Time) : result (S * Conversation ID * Z) :=
  let full (high : Z) := Z.lor (shl64 high 32) mid in
  match cmp (lastReceivedID c) mid with
  | 1 =>
      let c := mkConversation mid (u32 (numReceivedRevolutions c + 1)) (nextSentID c)
                 (c_partner c) (c_kv c) in
      s ← saveOrPanic s c now;
      Ok (s, c, full (numReceivedRevolutions c))
  | 0 =>
      if lastReceivedID c <? mid then
        let c := mkConversation mid (numReceivedRevolutions c) (nextSentID c)
                   (c_partner c) (c_kv c) in
        s ← saveOrPanic s c now;
        Ok (s, c, full (numReceivedRevolutions c))
      else Ok (s, c, full (numReceivedRevolutions c))
  | _ => Ok (s, c, full (u32 (numReceivedRevolutions c - 1)))
  end.

Definition Conversation_GetNextSendID (s : S) (c : Conversation ID) (now : Time) :
    result (S * Conversation ID * (Z * Z)) :=
  let old := nextSentID c in
  let c := mkConversation (lastReceivedID c) (numReceivedRevolutions c) (u64 (old + 1))
             (c_partner c) (c_kv c) in
  s ← saveOrPanic s c now;
  Ok (s, c, (old, Z.land old (2 ^ 32 - 1))).

(** ** The store of loaded conversations

    The map holds the shared conversations: an operation on the conversation
    [Get] returns is an operation on the map's entry. *)
Record ConvStore := mkConvStore {
  loadedConversations : gmap ID (Conversation ID);
  cs_kv : kv;
}.

Definition conversationKeyPrefix : string := "conversation".

(** [NewStore] panics when the prefix is refused. *)
Definition ConvStore_New (v : kv) : result ConvStore :=
  match kv_Prefix v conversationKeyPrefix with
  | Ok v => Ok (mkConvStore ∅ v)
  | _ => Panic
  end.

Definition ConvStore_Get (s : S) (cs : ConvStore) (partner : ID) (now : Time) :
    result (S * ConvStore * Conversation ID) :=
  match loadedConversations cs !! partner with
  | Some c => Ok (s, cs, c)
  | None =>
      '(s, c) ← LoadOrMakeConversation s (cs_kv cs) partner now;
      Ok (s, mkConvStore (<[partner := c]> (loadedConversations cs)) (cs_kv cs), c)
  end.

Definition ConvStore_Delete (s : S) (cs : ConvStore) (partner : ID) : result (S * ConvStore) :=
  match loadedConversations cs !! partner with
  | None => Ok (s, cs)
  | Some c =>
      match Conversation_delete s c with
      | (s, None) => Ok (s, mkConvStore (delete partner (loadedConversations cs)) (cs_kv cs))
      | (_, Some _) => Panic
      end
  end.

(** The conversation of the store's map changed through its pointer. *)
Definition ConvStore_put (cs : ConvStore) (c : Conversation ID) : ConvStore :=
  mkConvStore (<[c_partner c := c]> (loadedConversations cs)) (cs_kv cs).
End conversation.
Arguments ConvStore ID {_}.

(** ** Identifiers *)

Definition fullID (last rev : Z) : Z := rev * 2 ^ 32 + last.

Record conv_ok {ID} (c : Conversation ID) : Prop := {
  conv_last : is_u 32 (lastReceivedID c);
  conv_rev : is_u 32 (numReceivedRevolutions c);
  conv_next : is_u 64 (nextSentID c);
}.

Definition lastFull {ID} (c : Conversation ID) : Z :=
  fullID (lastReceivedID c) (numReceivedRevolutions c).

Lemma lor_high_low high low :
  is_u 32 high -> is_u 32 low -> Z.lor (shl64 high 32) low = fullID low high.
Proof.
  intros Hh Hl. unfold shl64. rewrite Z.shiftl_mul_pow2 by lia.
  rewrite wrapu_small by (unfold is_u in *; lia). unfold fullID.
  rewrite <- Z.add_lor_land.
  enough (Z.land (high * 2 ^ 32) low = 0) by lia.
  apply Z.bits_inj'. intros n Hn. rewrite Z.land_spec, Z.bits_0.
  destruct (decide (n < 32)).
  - by rewrite Z.mul_pow2_bits_low by lia.
  - rewrite (testbit_high 32 low n) by (done || lia). by rewrite andb_false_r.
Qed.

Lemma land_low32 z : 0 <= z -> Z.land z (2 ^ 32 - 1) = z mod 2 ^ 32.
Proof. intros Hz. change (2 ^ 32 - 1) with (Z.ones 32). by apply Z.land_ones. Qed.

Section process.
Context {ID : Type} `{NetID ID} {S : Type} `{EKVReliable S}.

Lemma saveOrPanic_ok (s : S) (c : Conversation ID) now : exists s', saveOrPanic s c now = Ok s'.
Proof.
  unfold saveOrPanic, Conversation_save, kv_Set.
  pose proof (ekv_set_ok s (kv_makeKey (c_kv c) (makeConversationKey (c_partner c))
    currentConversationVersion) (mkObject currentConversationVersion now (Conversation_marshal c))) as He.
  simpl. destruct (ekv_Set _ _ _) as [s' e]. simpl in He. subst e. eauto.
Qed.

(** One received identifier within 2^30 of the last: the full identifier is
    found and the newest one kept. *)
Lemma process_spec (s : S) (c : Conversation ID) g now :
  conv_ok c -> is_u 64 g -> Z.abs (g - lastFull c) < 2 ^ 30 ->
  exists s' c', Conversation_ProcessReceivedMessageID s c (g mod 2 ^ 32) now = Ok (s', c', g) /\
    conv_ok c' /\ lastFull c' = Z.max (lastFull c) g /\
    nextSentID c' = nextSentID c /\ c_partner c' = c_partner c /\ c_kv c' = c_kv c.
Proof.
  intros [Hl Hr Hn] Hg Hw. unfold Conversation_ProcessReceivedMessageID, cmp, lastFull, fullID in *.
  set (mid := g mod 2 ^ 32). set (q := g / 2 ^ 32).
  assert (g = q * 2 ^ 32 + mid /\ is_u 32 mid /\ is_u 32 q) as (Hgq & Hmid & Hq).
  { subst mid q. unfold is_u in *. zlia. }
  assert (bottomRegion = 1073741823) as Hb by done.
  assert (topRegion = 3221225469) as Ht by done.
  rewrite Hb, Ht. clearbody mid q. unfold is_u in *.
  destruct (Z.ltb_spec 3221225469 (lastReceivedID c)), (Z.ltb_spec mid 1073741823); cbn [andb].
  1: { (* wrapped past the maximum *)
    assert (q = numReceivedRevolutions c + 1) as Hq' by lia.
    rewrite (wrapu_small 32) by (unfold is_u; lia).
    destruct (saveOrPanic_ok s (mkConversation mid (numReceivedRevolutions c + 1) (nextSentID c)
      (c_partner c) (c_kv c)) now) as [s' ->]. cbn [mbind result_bind].
    do 2 eexists. split; [rewrite lor_high_low by (unfold is_u; simpl; lia); unfold fullID;
      simpl; do 2 f_equal; lia|]. simpl.
    split; [constructor; unfold is_u; simpl; lia|]. split; [lia|done]. }
  all: destruct (Z.ltb_spec (lastReceivedID c) 1073741823), (Z.ltb_spec 3221225469 mid); cbn [andb];
    try lia.
  all: try (assert (q = numReceivedRevolutions c) as Hq' by lia;
    destruct (Z.ltb_spec (lastReceivedID c) mid);
    [destruct (saveOrPanic_ok s (mkConversation mid (numReceivedRevolutions c) (nextSentID c)
      (c_partner c) (c_kv c)) now) as [s' ->]; cbn [mbind result_bind]|];
    do 2 eexists; (split; [rewrite lor_high_low by (unfold is_u; simpl; lia); unfold fullID;
      simpl; do 2 f_equal; lia|]); simpl;
    (split; [constructor; unfold is_u; simpl; lia|]); (split; [lia|done])).
  (* the previous revolution *)
  assert (q = numReceivedRevolutions c - 1) as Hq' by lia.
  rewrite (wrapu_small 32) by (unfold is_u; lia).
  do 2 eexists. split; [rewrite lor_high_low by (unfold is_u; simpl; lia); unfold fullID;
    simpl; do 2 f_equal; lia|]. split; [by constructor|]. split; [lia|done].
Qed.

(** Receiving a sequence of truncated identifiers. *)
Fixpoint receiveAll (s : S) (c : Conversation ID) (mids : list Z) (now : Time) :
    result (S * Conversation ID * list Z) :=
  match mids with
  | [] => Ok (s, c, [])
  | mid :: mids =>
      '(s, c, g) ← Conversation_ProcessReceivedMessageID s c mid now;
      '(s, c, gs) ← receiveAll s c mids now;
      Ok (s, c, g :: gs)
  end.
End process.

(** Identifiers each within 2^30 of the newest received before it. *)
Fixpoint in_window (newest : Z) (gs : list Z) : Prop :=
  match gs with
  | [] => True
  | g :: gs => is_u 64 g /\ Z.abs (g - newest) < 2 ^ 30 /\ in_window (Z.max newest g) gs
  end.

(** whatever the order in which messages arrive, a receiver that sees only
    the low 32 bits of each identifier recovers every full 64-bit identifier,
    as long as each is within 2^30 of the newest one received before it. *)
Theorem Conversation_recovers_ids {ID} `{NetID ID} {S} `{EKVReliable S} (s : S)
    (c : Conversation ID) gs now :
  conv_ok c -> in_window (lastFull c) gs ->
  exists s' c', receiveAll s c ((fun g => g mod 2 ^ 32) <$> gs) now = Ok (s', c', gs) /\
    conv_ok c' /\ lastFull c' = foldl Z.max (lastFull c) gs.
Proof.
  revert s c. induction gs as [|g gs IH]; intros s c Hc Hw.
  - simpl. eauto.
  - destruct Hw as (Hg & Hd & Hw). rewrite fmap_cons. cbn [receiveAll].
    destruct (process_spec s c g now Hc Hg Hd) as (s1 & c1 & -> & Hc1 & Hl1 & _).
    cbn [mbind result_bind]. rewrite <- Hl1 in Hw.
    destruct (IH s1 c1 Hc1 Hw) as (s2 & c2 & -> & Hc2 & Hl2). cbn [mbind result_bind].
    do 2 eexists. split; [done|]. split; [done|]. simpl. by rewrite Hl2, Hl1.
Qed.

(** ** Storage *)

Section coherence.
Context {ID : Type} `{NetID ID} {S : Type} `{EKVLaws S}.

Lemma unmarshal_marshal_conversation (c c0 : Conversation ID) :
  conv_ok c ->
  Conversation_unmarshal c0 (Conversation_marshal c) =
    Ok (mkConversation (lastReceivedID c) (numReceivedRevolutions c) (nextSentID c)
          (c_partner c0) (c_kv c0)).
Proof.
  intros [Hl Hr Hn]. unfold Conversation_unmarshal, Conversation_marshal, conversationDisk_json.
  cbn [LastReceivedID NumReceivedRevolutions NextSendID].
  rewrite unmarshalText_marshalText by (json_wf; unfold is_u in *; lia).
  cbn [mbind option_bind decodeStruct foldl fst snd]. unfold conversationDisk_set. json_fields.
  rewrite decode_encodeUint by done. cbn [mbind option_bind].
  rewrite decode_encodeUint by done. cbn [mbind option_bind].
  rewrite decode_encodeUint by done. done.
Qed.

(** The conversation in memory is the one in storage. *)
Definition coherent (s : S) (c : Conversation ID) : Prop :=
  loadConversation s (c_kv c) (c_partner c) = Ok c.

Lemma save_coherent (s s' : S) (c : Conversation ID) now :
  conv_ok c -> saveOrPanic s c now = Ok s' -> coherent s' c.
Proof.
  intros Hc Hs. unfold saveOrPanic in Hs.
  destruct (Conversation_save s c now) as [s1 [e|]] eqn:E; [done|]. injection Hs as <-.
  apply kv_get_set_eq in E. unfold coherent, loadConversation. simpl in E. rewrite E. simpl.
  rewrite unmarshal_marshal_conversation by done. simpl. by destruct c.
Qed.

Lemma load_ok (s : S) v partner c :
  loadConversation s v partner = Ok c -> c_partner c = partner /\ c_kv c = v.
Proof.
  unfold loadConversation, Conversation_unmarshal. intros Hl. case_match; [done|].
  case_match; simpl in Hl; by simplify_eq.
Qed.

Lemma LoadOrMake_coherent (s s' : S) v partner c now :
  LoadOrMakeConversation s v partner now = Ok (s', c) -> coherent s' c.
Proof.
  unfold LoadOrMakeConversation. destruct (loadConversation s v partner) as [c1|e|] eqn:E; [| |done].
  - intros [= <- <-]. destruct (load_ok _ _ _ _ E) as [Hp Hk]. unfold coherent. by rewrite Hp, Hk.
  - case_match; [done|]. intros Hm. apply bind_Ok in Hm as (s1 & Hs1 & Hm). injection Hm as <- <-.
    eapply save_coherent; [|done]. constructor; unfold is_u; simpl; lia.
Qed.

Lemma process_coherent (s s' : S) (c c' : Conversation ID) mid g now :
  conv_ok c -> is_u 32 mid -> coherent s c ->
  Conversation_ProcessReceivedMessageID s c mid now = Ok (s', c', g) ->
  coherent s' c' /\ conv_ok c'.
Proof.
  intros Hc Hmid Hcoh Hp. pose proof Hc as [Hl Hr Hn].
  assert (forall rev, is_u 32 rev ->
    conv_ok (mkConversation mid rev (nextSentID c) (c_partner c) (c_kv c))) as Hok by by constructor.
  unfold Conversation_ProcessReceivedMessageID in Hp. repeat case_match; simpl_result; simplify_eq;
    try done; split; try done; try (eapply save_coherent; [|done]);
    apply Hok; done || (apply wrapu_range; lia).
Qed.

Lemma next_coherent (s s' : S) (c c' : Conversation ID) ids now :
  conv_ok c -> Conversation_GetNextSendID s c now = Ok (s', c', ids) ->
  coherent s' c' /\ conv_ok c' /\ ids = (nextSentID c, nextSentID c mod 2 ^ 32) /\
  nextSentID c' = u64 (nextSentID c + 1).
Proof.
  intros [Hl Hr Hn] Hx. unfold Conversation_GetNextSendID in Hx. simpl_result. simplify_eq.
  rewrite land_low32 by (unfold is_u in *; lia).
  assert (conv_ok (mkConversation (lastReceivedID c) (numReceivedRevolutions c)
    (u64 (nextSentID c + 1)) (c_partner c) (c_kv c))) by (constructor; auto; apply wrapu_range; lia).
  split_and!; [by eapply save_coherent|done|done|done].
Qed.

(** Steps of a conversation: receiving, sending, and restarting the client,
    which drops the conversation in memory and loads it from storage.  The
    label is the identifier the step sends, if it sends one. *)
Inductive conv_step : option Z -> S * Conversation ID -> S * Conversation ID -> Prop :=
| conv_receive s c mid now s' c' g :
    is_u 32 mid -> Conversation_ProcessReceivedMessageID s c mid now = Ok (s', c', g) ->
    conv_step None (s, c) (s', c')
| conv_send s c now s' c' full trunc :
    Conversation_GetNextSendID s c now = Ok (s', c', (full, trunc)) ->
    conv_step (Some full) (s, c) (s', c')
| conv_restart s c now s' c' :
    LoadOrMakeConversation s (c_kv c) (c_partner c) now = Ok (s', c') ->
    conv_step None (s, c) (s', c').

Inductive conv_trace : list Z -> S * Conversation ID -> S * Conversation ID -> Prop :=
| trace_refl st : conv_trace [] st st
| trace_silent st1 st2 st3 ids :
    conv_step None st1 st2 -> conv_trace ids st2 st3 -> conv_trace ids st1 st3
| trace_send st1 st2 st3 id ids :
    conv_step (Some id) st1 st2 -> conv_trace ids st2 st3 -> conv_trace (id :: ids) st1 st3.

Definition conv_inv (st : S * Conversation ID) : Prop :=
  coherent (fst st) (snd st) /\ conv_ok (snd st).

Lemma conv_step_inv l st st' :
  conv_inv st -> conv_step l st st' ->
  conv_inv st' /\
  match l with
  | Some id => id = nextSentID (snd st) /\ nextSentID (snd st') = u64 (nextSentID (snd st) + 1)
  | None => nextSentID (snd st') = nextSentID (snd st)
  end.
Proof.
  intros [Hcoh Hok] Hstep. destruct Hstep as [s c mid now s' c' g Hm Hp|s c now s' c' full trunc Hx
    |s c now s' c' Hr]; simpl in *.
  - split; [by eapply process_coherent|].
    unfold Conversation_ProcessReceivedMessageID in Hp. by repeat case_match; simpl_result; simplify_eq.
  - destruct (next_coherent _ _ _ _ _ _ Hok Hx) as (? & ? & [= -> ->] & ?). by split.
  - unfold LoadOrMakeConversation in Hr. unfold coherent in Hcoh. rewrite Hcoh in Hr.
    injection Hr as <- <-. by split.
Qed.
End coherence.

(** a conversation never sends the same identifier twice: along any run of
    receiving, sending and restarting, the identifiers sent are consecutive,
    starting from the conversation's next one, until the 64-bit counter wraps. *)
Theorem Conversation_send_ids_consecutive {ID} `{NetID ID} {S} `{EKVLaws S}
    (st st' : S * Conversation ID) ids :
  conv_inv st -> conv_trace ids st st' ->
  nextSentID (snd st) + Z.of_nat (length ids) < 2 ^ 64 ->
  ids = zseq (nextSentID (snd st)) (nextSentID (snd st) + Z.of_nat (length ids)) /\
  nextSentID (snd st') = nextSentID (snd st) + Z.of_nat (length ids) /\ conv_inv st'.
Proof.
  intros Hi Ht. induction Ht as [st|st1 st2 st3 ids Hs Ht IH|st1 st2 st3 id ids Hs Ht IH]; intros Hlt.
  - simpl. rewrite Z.add_0_r, zseq_nil by lia. done.
  - destruct (conv_step_inv _ _ _ Hi Hs) as [Hi2 Hn]. rewrite <- Hn in *. by apply IH.
  - destruct (conv_step_inv _ _ _ Hi Hs) as [Hi2 [-> Hn]].
    pose proof (conv_next _ (proj2 Hi)) as Hr. simpl length in *.
    rewrite wrapu_small in Hn by (unfold is_u in *; lia). rewrite Hn in IH.
    destruct IH as (IH1 & IH2 & IH3); [done|lia|].
    split_and!; [|lia|done]. rewrite zseq_cons by lia. rewrite IH1 at 1. f_equal. f_equal. lia.
Qed.

(** ** Witnesses *)

Definition ex_conv : Conversation Z := mkConversation (2 ^ 32 - 2) 0 7 42 NewKV.

Lemma ex_conv_ok : conv_ok ex_conv.
Proof. constructor; unfold is_u; simpl; lia. Qed.

Lemma Conversation_recovers_ids_witness :
  exists s' c', receiveAll (∅ : MemStore) ex_conv [1; 2 ^ 32 - 1; 5] 0
    = Ok (s', c', [2 ^ 32 + 1; 2 ^ 32 - 1; 2 ^ 32 + 5]).
Proof.
  destruct (Conversation_recovers_ids (∅ : MemStore) ex_conv [2 ^ 32 + 1; 2 ^ 32 - 1; 2 ^ 32 + 5] 0
    ex_conv_ok) as (s' & c' & Hr & _).
  - simpl. unfold is_u, lastFull, fullID. simpl. lia.
  - by exists s', c'.
Defined.

Definition ex_cs0 : MemStore * Conversation Z :=
  match LoadOrMakeConversation (∅ : MemStore) NewKV 42 0 with
  | Ok r => r
  | _ => (∅, ex_conv)
  end.

Lemma ex_cs0_inv : conv_inv ex_cs0.
Proof. split; [vm_compute; reflexivity|constructor; split; by vm_compute]. Qed.

Definition ex_send (st : MemStore * Conversation Z) : MemStore * Conversation Z :=
  match Conversation_GetNextSendID (fst st) (snd st) 0 with
  | Ok (s, c, _) => (s, c)
  | _ => st
  end.

Lemma ex_send_step st :
  conv_step (Some (nextSentID (snd st))) st (ex_send st).
Proof.
  destruct st as [s c]. unfold ex_send. cbn [fst snd].
  destruct (saveOrPanic_ok s (mkConversation (lastReceivedID c) (numReceivedRevolutions c)
    (u64 (nextSentID c + 1)) (c_partner c) (c_kv c)) 0) as [s' Hs'].
  assert (Conversation_GetNextSendID s c 0 = Ok (s', mkConversation (lastReceivedID c)
    (numReceivedRevolutions c) (u64 (nextSentID c + 1)) (c_partner c) (c_kv c),
    (nextSentID c, Z.land (nextSentID c) (2 ^ 32 - 1)))) as E.
  { unfold Conversation_GetNextSendID. by rewrite Hs'. }
  rewrite E. exact (conv_send _ _ _ _ _ _ _ E).
Qed.

Lemma ex_restart_step st : conv_inv st -> conv_step None st st.
Proof.
  destruct st as [s c]. intros [Hc _]. apply (conv_restart _ _ 0). unfold LoadOrMakeConversation.
  unfold coherent in Hc. simpl in Hc. by rewrite Hc.
Qed.

Lemma ex_trace : exists st', conv_trace [0; 1] ex_cs0 st'.
Proof.
  exists (ex_send (ex_send ex_cs0)).
  refine (trace_send _ (ex_send ex_cs0) _ 0 [1] (ex_send_step ex_cs0) _).
  refine (trace_silent _ (ex_send ex_cs0) _ [1] _ _).
  - apply ex_restart_step. apply (conv_step_inv _ _ _ ex_cs0_inv (ex_send_step ex_cs0)).
  - refine (trace_send _ _ _ 1 [] (ex_send_step (ex_send ex_cs0)) (trace_refl _)).
Qed.

Lemma Conversation_send_ids_consecutive_witness :
  exists st', conv_trace [0; 1] ex_cs0 st' /\ [0; 1] = zseq 0 (0 + 2) /\ nextSentID (snd st') = 2.
Proof.
  destruct ex_trace as (st' & Ht).
  destruct (Conversation_send_ids_consecutive ex_cs0 st' [0; 1] ex_cs0_inv Ht) as (H1 & H2 & _).
  - by vm_compute.
  - exists st'. split_and!; [exact Ht|exact H1|exact H2].
Defined.
