(* ===== verification/MessagePart.v ===== *)
(** * Message parts

    [e2e/parse/messagePart.go] and [firstMessagePart.go]: the byte layout of
    the parts of an end-to-end message.  The fields of a part are slices of its
    [Data]: setting a field writes into [Data]. *)

From S2P Require Import Prelude GoBytes.

(** Sizes, in bytes. *)
Definition idLen : Z := 4.
Definition partLen : Z := 1.
Definition lenLen : Z := 2.
Definition partVerLen : Z := 1.
Definition headerLen : Z := idLen + partLen + lenLen + partVerLen.
Definition numPartsLen : Z := 1.
Definition typeLen : Z := 4.
Definition timestampLen : Z := 8.
Definition firstPartVerLen : Z := 1.
Definition firstHeaderLen : Z :=
  headerLen + numPartsLen + typeLen + timestampLen + firstPartVerLen.

Record messagePart := mkMessagePart {
  mp_Data : list byte;
  mp_Id : slice;
  mp_Part : slice;
  mp_Len : slice;
  mp_Contents : slice;
  mp_Version : slice;
}.

Definition nilSlice : slice := Slice 0 0.
Definition emptyMessagePart : messagePart :=
  mkMessagePart [] nilSlice nilSlice nilSlice nilSlice nilSlice.

Definition messagePartFromBytesVer0 (data : list byte) : result messagePart :=
  let n := Z.of_nat (length data) in
  let w := whole data in
  id ← reslice data w 0 idLen;
  part ← reslice data w idLen (idLen + partLen);
  len ← reslice data w (idLen + partLen) (idLen + partLen + lenLen);
  contents ← reslice data w (idLen + partLen + lenLen) (n - partVerLen);
  version ← reslice data w (n - partVerLen) n;
  Ok (mkMessagePart data id part len contents version).

(** An unknown version gives the empty part. *)
Definition messagePartFromBytes (data : list byte) : result messagePart :=
  version ← index data (Z.of_nat (length data) - 1);
  if Z_of_byte version =? 0 then messagePartFromBytesVer0 data else Ok emptyMessagePart.

Definition mp_setData (m : messagePart) (d : list byte) : messagePart :=
  mkMessagePart d (mp_Id m) (mp_Part m) (mp_Len m) (mp_Contents m) (mp_Version m).

Definition newMessagePart (id part : Z) (contents : list byte) (size : Z) : result messagePart :=
  data ← makeBytes size;
  m ← messagePartFromBytes data;
  d ← sput_be 4 (mp_Data m) (mp_Id m) id;
  d ← sset d (mp_Part m) 0 (byte_of_Z part);
  d ← sput_be 2 d (mp_Len m) (u16 (Z.of_nat (length contents)));
  dst ← reslice d (mp_Contents m) 0 (Z.of_nat (length contents));
  let d := scopy d dst contents in
  d ← sset d (mp_Version m) 0 x00;
  Ok (mp_setData m d).

Definition messagePart_getID (m : messagePart) : result Z := sget_be 4 (mp_Data m) (mp_Id m).

Definition messagePart_getPart (m : messagePart) : result Z :=
  b ← sget (mp_Data m) (mp_Part m) 0; Ok (Z_of_byte b).

Definition messagePart_getContents (m : messagePart) : list byte :=
  sread (mp_Data m) (mp_Contents m).

Definition messagePart_getContentsLength (m : messagePart) : result Z :=
  sget_be 2 (mp_Data m) (mp_Len m).

Definition messagePart_getSizedContents (m : messagePart) : result (list byte) :=
  n ← messagePart_getContentsLength m;
  v ← reslice (mp_Data m) (mp_Contents m) 0 n;
  Ok (sread (mp_Data m) v).

Definition messagePart_bytes (m : messagePart) : list byte := mp_Data m.

(** The embedded part's [Version] is left nil. *)
Record firstMessagePart := mkFirstMessagePart {
  fm_part : messagePart;
  fm_NumParts : slice;
  fm_Type : slice;
  fm_Timestamp : slice;
  fm_Version : slice;
}.

Definition emptyFirstMessagePart : firstMessagePart :=
  mkFirstMessagePart emptyMessagePart nilSlice nilSlice nilSlice nilSlice.

Definition firstMessagePartFromBytesVer0 (data : list byte) : result firstMessagePart :=
  let n := Z.of_nat (length data) in
  let w := whole data in
  let h := idLen + partLen + lenLen in
  id ← reslice data w 0 idLen;
  part ← reslice data w idLen (idLen + partLen);
  len ← reslice data w (idLen + partLen) h;
  contents ← reslice data w (h + numPartsLen + typeLen + timestampLen) (n - firstPartVerLen - 1);
  numParts ← reslice data w h (h + numPartsLen);
  type ← reslice data w (h + numPartsLen) (h + numPartsLen + typeLen);
  timestamp ← reslice data w (h + numPartsLen + typeLen) (h + numPartsLen + typeLen + timestampLen);
  version ← reslice data w (n - firstPartVerLen) n;
  Ok (mkFirstMessagePart (mkMessagePart data id part len contents nilSlice)
        numParts type timestamp version).

Definition firstMessagePartFromBytes (data : list byte) : result firstMessagePart :=
  version ← index data (Z.of_nat (length data) - 1);
  if Z_of_byte version =? 0 then firstMessagePartFromBytesVer0 data
  else Ok emptyFirstMessagePart.

Definition fm_setData (m : firstMessagePart) (d : list byte) : firstMessagePart :=
  mkFirstMessagePart (mp_setData (fm_part m) d) (fm_NumParts m) (fm_Type m) (fm_Timestamp m)
    (fm_Version m).

Definition newFirstMessagePart (mt id numParts : Z) (timestamp : Time) (contents : list byte)
    (size : Z) : result firstMessagePart :=
  data ← makeBytes size;
  m ← firstMessagePartFromBytes data;
  d ← sput_be 4 (mp_Data (fm_part m)) (fm_Type m) mt;
  d ← sput_be 4 d (mp_Id (fm_part m)) id;
  d ← sset d (mp_Part (fm_part m)) 0 x00;
  d ← sset d (fm_NumParts m) 0 (byte_of_Z numParts);
  d ← sput_be 8 d (fm_Timestamp m) (u64 (UnixNano timestamp));
  d ← sput_be 2 d (mp_Len (fm_part m)) (u16 (Z.of_nat (length contents)));
  dst ← reslice d (mp_Contents (fm_part m)) 0 (Z.of_nat (length contents));
  let d := scopy d dst contents in
  d ← sset d (fm_Version m) 0 x00;
  Ok (fm_setData m d).

Definition firstMessagePart_getType (m : firstMessagePart) : result Z :=
  sget_be 4 (mp_Data (fm_part m)) (fm_Type m).
Definition firstMessagePart_getNumParts (m : firstMessagePart) : result Z :=
  b ← sget (mp_Data (fm_part m)) (fm_NumParts m) 0; Ok (Z_of_byte b).
Definition firstMessagePart_getTimestamp (m : firstMessagePart) : result Time :=
  z ← sget_be 8 (mp_Data (fm_part m)) (fm_Timestamp m); Ok (time_of_u64 z).
Definition firstMessagePart_getVersion (m : firstMessagePart) : result Z :=
  b ← sget (mp_Data (fm_part m)) (fm_Version m) 0; Ok (Z_of_byte b).
Definition firstMessagePart_bytes (m : firstMessagePart) : list byte := mp_Data (fm_part m).

(** ** Layout *)

Lemma messagePartFromBytesVer0_spec data :
  (8 <= length data)%nat ->
  messagePartFromBytesVer0 data =
    Ok (mkMessagePart data (Slice 0 4) (Slice 4 1) (Slice 5 2) (Slice 7 (length data - 8))
          (Slice (length data - 1) 1)).
Proof.
  intros Hlen. unfold messagePartFromBytesVer0, idLen, partLen, lenLen, partVerLen.
  rewrite !reslice_whole by lia. cbn [mbind result_bind]. do 2 f_equal; f_equal; lia.
Qed.

Lemma firstMessagePartFromBytesVer0_spec data :
  (22 <= length data)%nat ->
  firstMessagePartFromBytesVer0 data =
    Ok (mkFirstMessagePart
          (mkMessagePart data (Slice 0 4) (Slice 4 1) (Slice 5 2) (Slice 20 (length data - 22)) nilSlice)
          (Slice 7 1) (Slice 8 4) (Slice 12 8) (Slice (length data - 1) 1)).
Proof.
  intros Hlen. unfold firstMessagePartFromBytesVer0, idLen, partLen, lenLen, firstPartVerLen,
    numPartsLen, typeLen, timestampLen.
  rewrite !reslice_whole by lia. cbn [mbind result_bind].
  do 2 f_equal; [f_equal|..]; f_equal; lia.
Qed.

(** The bytes of a part. *)
Definition partBytes (id part : Z) (contents : list byte) (size : nat) : list byte :=
  concat [be_encode 4 id; [byte_of_Z part]; be_encode 2 (Z.of_nat (length contents));
          contents; replicate (size - 8 - length contents) x00; [x00]].

Definition firstPartBytes (mt id numParts : Z) (timestamp : Time) (contents : list byte)
    (size : nat) : list byte :=
  concat [be_encode 4 id; [x00]; be_encode 2 (Z.of_nat (length contents)); [byte_of_Z numParts];
          be_encode 4 mt; be_encode 8 (u64 (UnixNano timestamp));
          contents; replicate (size - 22 - length contents) x00; [x00]; [x00]].

Lemma index_last_zero n : (0 < n)%nat -> index (replicate n x00) (Z.of_nat n - 1) = Ok x00.
Proof.
  intros Hn. apply index_Ok. split; [lia|]. apply lookup_replicate_2. lia.
Qed.

(** The view of the bytes of a part. *)
Definition partView (data : list byte) : messagePart :=
  mkMessagePart data (Slice 0 4) (Slice 4 1) (Slice 5 2) (Slice 7 (length data - 8))
    (Slice (length data - 1) 1).

Definition firstPartView (data : list byte) : firstMessagePart :=
  mkFirstMessagePart
    (mkMessagePart data (Slice 0 4) (Slice 4 1) (Slice 5 2) (Slice 20 (length data - 22)) nilSlice)
    (Slice 7 1) (Slice 8 4) (Slice 12 8) (Slice (length data - 1) 1).

Lemma length_partBytes id part contents size :
  (8 + length contents <= size)%nat -> length (partBytes id part contents size) = size.
Proof.
  intros. unfold partBytes. cbn [concat]. rewrite !length_app, !length_be_encode, length_replicate.
  simpl. lia.
Qed.

Lemma length_firstPartBytes mt id np ts contents size :
  (22 + length contents <= size)%nat -> length (firstPartBytes mt id np ts contents size) = size.
Proof.
  intros. unfold firstPartBytes. cbn [concat].
  rewrite !length_app, !length_be_encode, length_replicate. simpl. lia.
Qed.

Ltac unfold_lens :=
  unfold firstHeaderLen, headerLen, idLen, partLen, lenLen, partVerLen, numPartsLen, typeLen,
    timestampLen, firstPartVerLen.

Lemma newMessagePart_spec id part contents (size : nat) :
  (8 + length contents <= size)%nat -> Z.of_nat (length contents) < 65536 ->
  newMessagePart id part contents (Z.of_nat size) =
    Ok (partView (partBytes id part contents size)).
Proof.
  intros Hlen Hmax. unfold newMessagePart, makeBytes.
  rewrite (proj2 (Z.ltb_ge _ 0)) by lia. rewrite Nat2Z.id. cbn [mbind result_bind].
  unfold messagePartFromBytes. rewrite length_replicate, index_last_zero by lia.
  cbn [mbind result_bind]. change (Z_of_byte x00 =? 0) with true. cbn iota.
  rewrite messagePartFromBytesVer0_spec by (rewrite length_replicate; lia).
  rewrite length_replicate.
  cbn [mbind result_bind mp_Data mp_Id mp_Part mp_Len mp_Contents mp_Version].
  rewrite (zero_cut [4; 1; 2; length contents; size - 8 - length contents; 1]%nat) by (simpl; lia).
  cbn [map].
  rewrite (sput_seg 4 _ 0 (replicate 4 x00)) by seg_side. seg_go.
  rewrite (sset_seg _ 1 x00) by seg_side. seg_go.
  rewrite (sput_seg 2 _ 2 (replicate 2 x00)) by seg_side. seg_go.
  rewrite reslice_prefix by (cbn [concat s_off]; rewrite ?length_app; cbn [length];
    rewrite ?length_be_encode, ?length_replicate; simpl; lia). seg_go.
  rewrite Nat2Z.id. cbn [s_off].
  rewrite (scopy_seg _ 3 (replicate (length contents) x00)) by seg_side. seg_go.
  rewrite (sset_seg _ 5 x00) by seg_side. seg_go.
  rewrite (wrapu_small 16) by (unfold is_u; lia).
  unfold mp_setData, partView. cbn [mp_Data mp_Id mp_Part mp_Len mp_Contents mp_Version].
  by rewrite length_partBytes by lia.
Qed.

Lemma newFirstMessagePart_spec mt id np ts contents (size : nat) :
  (22 + length contents <= size)%nat -> Z.of_nat (length contents) < 65536 ->
  newFirstMessagePart mt id np ts contents (Z.of_nat size) =
    Ok (firstPartView (firstPartBytes mt id np ts contents size)).
Proof.
  intros Hlen Hmax. unfold newFirstMessagePart, makeBytes.
  rewrite (proj2 (Z.ltb_ge _ 0)) by lia. rewrite Nat2Z.id. cbn [mbind result_bind].
  unfold firstMessagePartFromBytes. rewrite length_replicate, index_last_zero by lia.
  cbn [mbind result_bind]. change (Z_of_byte x00 =? 0) with true. cbn iota.
  rewrite firstMessagePartFromBytesVer0_spec by (rewrite length_replicate; lia).
  rewrite length_replicate.
  cbn [mbind result_bind fm_part fm_NumParts fm_Type fm_Timestamp fm_Version
       mp_Data mp_Id mp_Part mp_Len mp_Contents mp_Version].
  rewrite (zero_cut [4; 1; 2; 1; 4; 8; length contents; size - 22 - length contents; 1; 1]%nat)
    by (simpl; lia).
  cbn [map].
  rewrite (sput_seg 4 _ 4 (replicate 4 x00)) by seg_side. seg_go.
  rewrite (sput_seg 4 _ 0 (replicate 4 x00)) by seg_side. seg_go.
  rewrite (sset_seg _ 1 x00) by seg_side. seg_go.
  rewrite (sset_seg _ 3 x00) by seg_side. seg_go.
  rewrite (sput_seg 8 _ 5 (replicate 8 x00)) by seg_side. seg_go.
  rewrite (sput_seg 2 _ 2 (replicate 2 x00)) by seg_side. seg_go.
  rewrite reslice_prefix by (cbn [concat s_off]; rewrite ?length_app; cbn [length];
    rewrite ?length_be_encode, ?length_replicate; simpl; lia). seg_go.
  rewrite Nat2Z.id. cbn [s_off].
  rewrite (scopy_seg _ 6 (replicate (length contents) x00)) by seg_side. seg_go.
  rewrite (sset_seg _ 9 x00) by seg_side. seg_go.
  rewrite (wrapu_small 16) by (unfold is_u; lia).
  unfold fm_setData, mp_setData, firstPartView.
  cbn [fm_part fm_NumParts fm_Type fm_Timestamp fm_Version
       mp_Data mp_Id mp_Part mp_Len mp_Contents mp_Version].
  by rewrite length_firstPartBytes by lia.
Qed.

(** ** Reading a part back *)

Lemma index_last (segs : list (list byte)) b :
  index (concat (segs ++ [[b]])) (Z.of_nat (length (concat (segs ++ [[b]]))) - 1) = Ok b.
Proof.
  rewrite concat_app. cbn [concat]. rewrite app_nil_r, length_app. cbn [length].
  apply index_Ok. split; [lia|].
  replace (Z.to_nat (Z.of_nat (length (concat segs) + 1) - 1)) with (length (concat segs)) by lia.
  by apply list_lookup_middle.
Qed.

Lemma messagePartFromBytes_part id part contents size :
  (8 + length contents <= size)%nat ->
  messagePartFromBytes (partBytes id part contents size) =
    Ok (partView (partBytes id part contents size)).
Proof.
  intros Hlen. unfold messagePartFromBytes.
  assert (index (partBytes id part contents size)
            (Z.of_nat (length (partBytes id part contents size)) - 1) = Ok x00) as ->
    by apply (index_last [_; _; _; _; _] x00).
  cbn [mbind result_bind]. change (Z_of_byte x00 =? 0) with true. cbn iota.
  apply messagePartFromBytesVer0_spec. rewrite length_partBytes; lia.
Qed.

Lemma firstMessagePartFromBytes_part mt id np ts contents size :
  (22 + length contents <= size)%nat ->
  firstMessagePartFromBytes (firstPartBytes mt id np ts contents size) =
    Ok (firstPartView (firstPartBytes mt id np ts contents size)).
Proof.
  intros Hlen. unfold firstMessagePartFromBytes.
  assert (index (firstPartBytes mt id np ts contents size)
            (Z.of_nat (length (firstPartBytes mt id np ts contents size)) - 1) = Ok x00) as ->
    by apply (index_last [_; _; _; _; _; _; _; _; _] x00).
  cbn [mbind result_bind]. change (Z_of_byte x00 =? 0) with true. cbn iota.
  apply firstMessagePartFromBytesVer0_spec. rewrite length_firstPartBytes; lia.
Qed.

(** A first part, seen as any part of the message ([HandlePartition] looks at
    the part number before it knows the kind of the part). *)
Lemma messagePartFromBytes_first mt id np ts contents size :
  (22 + length contents <= size)%nat ->
  messagePartFromBytes (firstPartBytes mt id np ts contents size) =
    Ok (partView (firstPartBytes mt id np ts contents size)).
Proof.
  intros Hlen. unfold messagePartFromBytes.
  assert (index (firstPartBytes mt id np ts contents size)
            (Z.of_nat (length (firstPartBytes mt id np ts contents size)) - 1) = Ok x00) as ->
    by apply (index_last [_; _; _; _; _; _; _; _; _] x00).
  cbn [mbind result_bind]. change (Z_of_byte x00 =? 0) with true. cbn iota.
  apply messagePartFromBytesVer0_spec. rewrite length_firstPartBytes; lia.
Qed.

(** What the getters of a part return. *)
Definition part_reads (m : messagePart) (id part : Z) (contents : list byte) : Prop :=
  messagePart_getID m = Ok id /\ messagePart_getPart m = Ok part /\
  messagePart_getContentsLength m = Ok (Z.of_nat (length contents)) /\
  messagePart_getSizedContents m = Ok contents.


Lemma partView_reads id part contents size :
  is_u 32 id -> is_u 8 part ->
  (8 + length contents <= size)%nat -> Z.of_nat (length contents) < 65536 ->
  part_reads (partView (partBytes id part contents size)) id part contents.
Proof.
  intros Hid Hpart Hlen Hmax.
  assert (messagePart_getContentsLength (partView (partBytes id part contents size))
          = Ok (Z.of_nat (length contents))) as HL.
  { unfold messagePart_getContentsLength, partView, partBytes. cbn [mp_Data mp_Len].
    rewrite (sget_be_seg 2 _ 2 (Z.of_nat (length contents))) by seg_side.
    f_equal. apply Z.mod_small. lia. }
  unfold part_reads; split_and!; [| |exact HL|].
  - unfold messagePart_getID, partView, partBytes. cbn [mp_Data mp_Id].
    rewrite (sget_be_seg 4 _ 0 id) by seg_side. f_equal. by apply Z.mod_small.
  - unfold messagePart_getPart, partView, partBytes. cbn [mp_Data mp_Part].
    rewrite (sget_seg _ 1 (byte_of_Z part)) by seg_side. seg_go.
    by rewrite Z_of_byte_of_Z_u8.
  - unfold messagePart_getSizedContents. rewrite HL. seg_go.
    unfold partView. cbn [mp_Data mp_Contents].
    rewrite reslice_prefix by (rewrite ?length_partBytes; simpl; lia). seg_go. cbn [s_off].
    rewrite Nat2Z.id. f_equal. unfold partBytes. apply (sread_seg _ 3); seg_side.
Qed.

Lemma firstPartView_reads mt id np ts contents size :
  is_u 32 mt -> is_u 32 id -> is_u 8 np -> - 2 ^ 63 <= ts < 2 ^ 63 ->
  (22 + length contents <= size)%nat -> Z.of_nat (length contents) < 65536 ->
  let m := firstPartView (firstPartBytes mt id np ts contents size) in
  part_reads (fm_part m) id 0 contents /\ firstMessagePart_getType m = Ok mt /\
  firstMessagePart_getNumParts m = Ok np /\ firstMessagePart_getTimestamp m = Ok ts /\
  firstMessagePart_getVersion m = Ok 0.
Proof.
  intros Hmt Hid Hnp Hts Hlen Hmax m.
  assert (messagePart_getContentsLength (fm_part m) = Ok (Z.of_nat (length contents))) as HL.
  { unfold messagePart_getContentsLength, m, firstPartView, firstPartBytes.
    cbn [fm_part mp_Data mp_Len].
    rewrite (sget_be_seg 2 _ 2 (Z.of_nat (length contents))) by seg_side.
    f_equal. apply Z.mod_small. lia. }
  unfold part_reads; split_and!; [| |exact HL|..]; unfold m, firstPartView.
  - unfold messagePart_getID, firstPartBytes. cbn [fm_part mp_Data mp_Id].
    rewrite (sget_be_seg 4 _ 0 id) by seg_side. f_equal. by apply Z.mod_small.
  - unfold messagePart_getPart, firstPartBytes. cbn [fm_part mp_Data mp_Part].
    by rewrite (sget_seg _ 1 x00) by seg_side.
  - unfold messagePart_getSizedContents. fold (firstPartView (firstPartBytes mt id np ts contents size)).
    fold m. rewrite HL. seg_go. unfold m, firstPartView. cbn [fm_part mp_Data mp_Contents].
    rewrite reslice_prefix by (rewrite ?length_firstPartBytes; simpl; lia). seg_go. cbn [s_off].
    rewrite Nat2Z.id. f_equal. unfold firstPartBytes. apply (sread_seg _ 6); seg_side.
  - unfold firstMessagePart_getType, firstPartBytes. cbn [fm_part mp_Data fm_Type].
    rewrite (sget_be_seg 4 _ 4 mt) by seg_side. f_equal. by apply Z.mod_small.
  - unfold firstMessagePart_getNumParts, firstPartBytes. cbn [fm_part mp_Data fm_NumParts].
    rewrite (sget_seg _ 3 (byte_of_Z np)) by seg_side. seg_go. by rewrite Z_of_byte_of_Z_u8.
  - unfold firstMessagePart_getTimestamp, firstPartBytes. cbn [fm_part mp_Data fm_Timestamp].
    rewrite (sget_be_seg 8 _ 5 (u64 (UnixNano ts))) by seg_side. seg_go. f_equal.
    rewrite Z.mod_small by (apply (wrapu_range 64 (UnixNano ts)); lia). by apply time_u64_roundtrip.
  - unfold firstMessagePart_getVersion. cbn [fm_part mp_Data fm_Version].
    rewrite length_firstPartBytes by lia. unfold firstPartBytes.
    by rewrite (sget_seg _ 9 x00) by seg_side.
Qed.

(** The wire format of message parts: for contents that fit, both constructors
    succeed and fill exactly [size] bytes; parsing the bytes of an ordinary part
    gives back its ID, part number and sized contents; parsing the bytes of a
    first part gives back those (with part number 0), its type, number of parts
    and timestamp; and a first part read as an ordinary part still shows its ID
    and its part number 0, on which the receiver dispatches. *)
Theorem messageParts_roundtrip mt id part np ts contents (size : nat) :
  is_u 32 mt -> is_u 32 id -> is_u 8 part -> is_u 8 np -> - 2 ^ 63 <= ts < 2 ^ 63 ->
  Z.of_nat (length contents) < 65536 -> headerLen + Z.of_nat (length contents) <= Z.of_nat size ->
  (exists m, newMessagePart id part contents (Z.of_nat size) = Ok m /\
     length (messagePart_bytes m) = size /\
     exists m', messagePartFromBytes (messagePart_bytes m) = Ok m' /\ part_reads m' id part contents) /\
  (firstHeaderLen + Z.of_nat (length contents) <= Z.of_nat size ->
   exists m, newFirstMessagePart mt id np ts contents (Z.of_nat size) = Ok m /\
     length (firstMessagePart_bytes m) = size /\
     (exists m', firstMessagePartFromBytes (firstMessagePart_bytes m) = Ok m' /\
        part_reads (fm_part m') id 0 contents /\ firstMessagePart_getType m' = Ok mt /\
        firstMessagePart_getNumParts m' = Ok np /\ firstMessagePart_getTimestamp m' = Ok ts) /\
     exists m'', messagePartFromBytes (firstMessagePart_bytes m) = Ok m'' /\
        messagePart_getID m'' = Ok id /\ messagePart_getPart m'' = Ok 0).
Proof.
  intros Hmt Hid Hpart Hnp Hts Hmax Hlen. split.
  - assert (8 + length contents <= size)%nat by (revert Hlen; unfold_lens; lia).
    eexists. split; [by apply newMessagePart_spec|]. split; [by apply length_partBytes|].
    eexists. split; [by apply messagePartFromBytes_part|]. by apply partView_reads.
  - intros Hlen'.
    assert (22 + length contents <= size)%nat by (revert Hlen'; unfold_lens; lia).
    destruct (firstPartView_reads mt id np ts contents size) as (Hr & Ht & Hn & Hs & _); try done.
    eexists. split; [by apply newFirstMessagePart_spec|].
    split; [by apply length_firstPartBytes|]. split.
    + eexists. split; [by apply firstMessagePartFromBytes_part|]. done.
    + eexists. split; [by apply messagePartFromBytes_first|]. by destruct Hr as (? & ? & _).
Qed.

Lemma messageParts_roundtrip_witness :
  exists m, newMessagePart 7 1 [x01; x02] 10 = Ok m /\
    length (messagePart_bytes m) = 10%nat /\
    exists m', messagePartFromBytes (messagePart_bytes m) = Ok m' /\ part_reads m' 7 1 [x01; x02].
Proof.
  apply (messageParts_roundtrip 3 7 1 2 5 [x01; x02] 10);
    unfold is_u; unfold_lens; simpl; lia.
Defined.
