(* ===== verification/Ring.v ===== *)
(** * The ring buffer of received messages

    [e2e/parse/conversation/ring.go] and [message.go]: a circular buffer of the
    last messages received from a partner, with a lookup map keyed by the first
    eight bytes of the message ID, both kept in storage. *)

From S2P Require Import Prelude GoBytes KV Base64.

(** ** Messages *)

Definition MessageIdLen : Z := 32.
Definition TruncatedMessageIdLen : Z := 8.

(** [MessageID] and [truncatedMessageID] are byte arrays. *)
Abbreviation MessageID := (list byte).
Abbreviation truncatedMessageID := (list byte).

Record Message := mkMessage {
  m_id : Z;                 (* uint32 *)
  MessageId : MessageID;
  m_Timestamp : Time;
}.

#[export] Instance Message_eq_dec : EqDecision Message.
Proof. solve_decision. Defined.

Definition newMessage (id : Z) (mid : MessageID) (timestamp : Time) : Message :=
  mkMessage id mid timestamp.

Definition MessageID_Bytes (mid : MessageID) : list byte := mid.
Definition NewMessageIdFromBytes (data : list byte) : MessageID :=
  array_of (Z.to_nat MessageIdLen) data.
Definition newTruncatedMessageID (data : list byte) : truncatedMessageID :=
  array_of (Z.to_nat TruncatedMessageIdLen) data.
Definition MessageID_truncate (mid : MessageID) : truncatedMessageID :=
  newTruncatedMessageID (MessageID_Bytes mid).
Definition MessageID_String (mid : MessageID) : string := b64Encode mid.
Definition truncatedMessageID_String (tmID : truncatedMessageID) : string := b64Encode tmID.
Definition truncatedMessageID_Bytes (tmID : truncatedMessageID) : list byte := tmID.

Definition Message_marshal (m : Message) : list byte :=
  le_encode 4 (m_id m) ++ MessageID_Bytes (MessageId m) ++
  le_encode 8 (u64 (UnixNano (m_Timestamp m))).

(** [buff.Next(n)]: the next [n] bytes, or fewer at the end, and the rest. *)
Definition bufNext (n : nat) (b : list byte) : list byte * list byte := (take n b, drop n b).

Definition unmarshalMessage (data : list byte) : result Message :=
  let '(b, buff) := bufNext 4 data in
  ID ← get_le 4 b;
  let '(midData, buff) := bufNext (Z.to_nat MessageIdLen) buff in
  let mid := NewMessageIdFromBytes midData in
  let '(b, _) := bufNext 8 buff in
  tsNano ← get_le 8 b;
  Ok (mkMessage ID mid (time_of_u64 tsNano)).

(** ** The buffer *)

Definition ringBuffPrefix : string := "ringBuffPrefix".
Definition ringBuffKey : string := "ringBuffKey".
Definition ringBuffVersion : Z := 0.
Definition messageKey : string := "ringBuffMessageKey".
Definition messageVersion : Z := 0.

(** A [*Message] is never changed once it is in the buffer, so the pointers are
    their values. *)
Record Buff := mkBuff {
  buff : list (option Message);
  lookup_ : gmap truncatedMessageID Message;
  oldest : Z;      (* uint32 *)
  newest : Z;      (* uint32 *)
  rb_kv : kv;
}.

Definition maxUint32 : Z := 2 ^ 32 - 1.

(** [a % b] panics when [b] is zero. *)
Definition umod (a b : Z) : result Z := if b =? 0 then Panic else Ok (a mod b).

(** [uint32(len(b.buff))] *)
Definition Buff_len (b : Buff) : Z := u32 (Z.of_nat (length (buff b))).

Definition makeMessageKey (tmID : truncatedMessageID) : string :=
  messageKey +:+ truncatedMessageID_String tmID.

Definition Buff_next (b : Buff) : Buff :=
  let newest' := u32 (newest b + 1) in
  let oldest' := if Buff_len b <=? newest' then u32 (oldest b + 1) else oldest b in
  mkBuff (buff b) (lookup_ b) oldest' newest' (rb_kv b).

Definition Buff_handleMessageOverwrite (b : Buff) : result Buff :=
  overwriteIndex ← umod (newest b) (Buff_len b);
  messageToOverwrite ← index (buff b) overwriteIndex;
  match messageToOverwrite with
  | Some m =>
      Ok (mkBuff (buff b) (delete (MessageID_truncate (MessageId m)) (lookup_ b))
            (oldest b) (newest b) (rb_kv b))
  | None => Ok b
  end.

Definition Buff_push (b : Buff) (val : Message) : result Buff :=
  let b := Buff_next b in
  let val := mkMessage (newest b) (MessageId val) (m_Timestamp val) in
  b ← Buff_handleMessageOverwrite b;
  i ← umod (newest b) (Buff_len b);
  buff' ← store_at (buff b) i (Some val);
  Ok (mkBuff buff' (<[MessageID_truncate (MessageId val) := val]> (lookup_ b))
        (oldest b) (newest b) (rb_kv b)).

(** [nil] is [None]. *)
Definition Buff_Get (b : Buff) : result (option Message) :=
  mostRecentIndex ← umod (newest b) (Buff_len b);
  index (buff b) mostRecentIndex.

Definition noMessageFoundErr : error := Errorf "failed to find message with message ID %s" [].
Definition lookupTooOldErr : error := Errorf "requested ID %d is lower than oldest ID %d" [].
Definition lookupPastRecentErr : error :=
  Errorf "requested ID %d is higher than most recent ID %d" [].

Definition Buff_GetByMessageID (b : Buff) (id : MessageID) : result Message :=
  match lookup_ b !! MessageID_truncate id with
  | None => Err noMessageFoundErr
  | Some msg => Ok msg
  end.

Definition Buff_GetNextMessage (b : Buff) (id : MessageID) : result (option Message) :=
  match lookup_ b !! MessageID_truncate id with
  | None => Err noMessageFoundErr
  | Some msg =>
      let lookupId := u32 (m_id msg + 1) in
      if lookupId <? oldest b then Err lookupTooOldErr
      else if newest b <? lookupId then Err lookupPastRecentErr
      else i ← umod lookupId (Buff_len b); index (buff b) i
  end.

(** ** Storage *)

(** The loop body's bytes: the truncated IDs of the messages present. *)
Definition Buff_marshal (b : Buff) : list byte :=
  le_encode 4 (newest b) ++ le_encode 4 (oldest b) ++
  concat ((fun msg => match msg with
                      | Some m => truncatedMessageID_Bytes (MessageID_truncate (MessageId m))
                      | None => []
                      end) <$> buff b).

(** [for next := buff.Next(n); len(next) == n; next = buff.Next(n)]: every round
    takes [n > 0] bytes, so the number of bytes is fuel enough. *)
Fixpoint readIDs (fuel : nat) (b : list byte) : list truncatedMessageID :=
  match fuel with
  | O => []
  | Datatypes.S fuel =>
      let n := Z.to_nat TruncatedMessageIdLen in
      let '(next, b) := bufNext n b in
      if (length next =? n)%nat then newTruncatedMessageID next :: readIDs fuel b else []
  end.

Definition unmarshalBuffer (b : list byte) : result (Z * Z * list truncatedMessageID) :=
  let '(x, b) := bufNext 4 b in
  newest ← get_le 4 x;
  let '(x, b) := bufNext 4 b in
  oldest ← get_le 4 x;
  Ok (newest, oldest, readIDs (length b) b).

Section storage.
Context {S : Type} `{EKV S}.

Definition Buff_saveMessage (s : S) (b : Buff) (msg : Message) (now : Time) : S * option error :=
  kv_Set (rb_kv b) s (makeMessageKey (MessageID_truncate (MessageId msg)))
    (mkObject messageVersion now (Message_marshal msg)).

Definition Buff_saveBuff (s : S) (b : Buff) (now : Time) : S * option error :=
  kv_Set (rb_kv b) s ringBuffKey (mkObject ringBuffVersion now (Buff_marshal b)).

(** The loop of [save] over the slots. *)
Fixpoint saveMessages (s : S) (b : Buff) (slots : list (option Message)) (now : Time) :
    S * option error :=
  match slots with
  | [] => (s, None)
  | None :: slots => saveMessages s b slots now
  | Some msg :: slots =>
      match Buff_saveMessage s b msg now with
      | (s, Some e) => (s, Some (Wrapf "failed to save message with message ID %s to storage: %+v" [] e))
      | (s, None) => saveMessages s b slots now
      end
  end.

Definition Buff_save (s : S) (b : Buff) (now : Time) : S * option error :=
  match saveMessages s b (buff b) now with
  | (s, Some e) => (s, Some e)
  | (s, None) => Buff_saveBuff s b now
  end.

(** The buffer is returned with the error of the save. *)
Definition NewBuff (s : S) (v : kv) (n : Z) (now : Time) : result (S * Buff * option error) :=
  v ← kv_Prefix v ringBuffPrefix;
  if n <? 0 then Panic
  else
    let rb := mkBuff (replicate (Z.to_nat n) None) ∅ 0 maxUint32 v in
    let '(s, e) := Buff_save s rb now in
    Ok (s, rb, e).

Definition Buff_Add (s : S) (b : Buff) (id : MessageID) (timestamp now : Time) :
    result (S * Buff * option error) :=
  b ← Buff_push b (mkMessage 0 id timestamp);
  let '(s, e) := Buff_save s b now in
  Ok (s, b, e).

Definition loadMessage (s : S) (tmID : truncatedMessageID) (v : kv) : result Message :=
  match kv_Get v s (makeMessageKey tmID) messageVersion with
  | inl e => Err (Wrapf "failed to load message with truncated ID %s from storage: %+v" [] e)
  | inr vo => unmarshalMessage (Data vo)
  end.

(** The loop of [LoadBuff]. *)
Fixpoint loadMessages (s : S) (v : kv) (list : list truncatedMessageID) (i : nat) (b : Buff) :
    result Buff :=
  match list with
  | [] => Ok b
  | tmID :: list =>
      msg ← loadMessage s tmID v;
      loadMessages s v list (Datatypes.S i)
        (mkBuff (<[i := Some msg]> (buff b)) (<[tmID := msg]> (lookup_ b))
           (oldest b) (newest b) (rb_kv b))
  end.

Definition LoadBuff (s : S) (v : kv) : result Buff :=
  v ← kv_Prefix v ringBuffPrefix;
  match kv_Get v s ringBuffKey ringBuffVersion with
  | inl e => Err (Wrapf "failed to load ring buffer from storage: %+v" [] e)
  | inr vo =>
      '(newest, oldest, list) ← unmarshalBuffer (Data vo);
      loadMessages s v list 0 (mkBuff (replicate (length list) None) ∅ oldest newest v)
  end.
End storage.

(** ** What the buffer holds

    [h] is the history: every message added, oldest first, each with its
    position as its ID.  The buffer of [n] slots shows the last [n] of them. *)

Definition trunc (m : Message) : truncatedMessageID := MessageID_truncate (MessageId m).

(** Any [n] consecutive messages have distinct truncated IDs. *)
Definition distinct_window (n : nat) (h : list Message) : Prop :=
  forall i j mi mj, h !! i = Some mi -> h !! j = Some mj -> (i < j < i + n)%nat ->
    trunc mi ≠ trunc mj.

Record message_ok (i : nat) (m : Message) : Prop := {
  message_ok_id : m_id m = Z.of_nat i;
  message_ok_len : length (MessageId m) = 32%nat;
  message_ok_time : - 2 ^ 63 <= m_Timestamp m < 2 ^ 63;
}.

Record ring_inv (n : nat) (h : list Message) (b : Buff) : Prop := {
  ring_pos : (0 < n)%nat;
  ring_small : Z.of_nat n < 2 ^ 32;
  ring_len : length (buff b) = n;
  ring_hist : Z.of_nat (length h) < 2 ^ 32;
  ring_newest : newest b = u32 (Z.of_nat (length h) - 1);
  ring_oldest : oldest b = Z.of_nat (length h - n);
  ring_slots j m : h !! j = Some m -> (length h <= j + n)%nat ->
    buff b !! (j `mod` n)%nat = Some (Some m);
  ring_free i : (length h <= i < n)%nat -> buff b !! i = Some None;
  ring_lookup t m : lookup_ b !! t = Some m <->
    exists j, h !! j = Some m /\ (length h <= j + n)%nat /\ trunc m = t;
  ring_msgs i m : h !! i = Some m -> message_ok i m;
}.

Lemma Buff_len_eq n h b : ring_inv n h b -> Buff_len b = Z.of_nat n.
Proof.
  intros Hb. unfold Buff_len. rewrite (ring_len _ _ _ Hb).
  apply wrapu_small. pose proof (ring_small _ _ _ Hb). unfold is_u. lia.
Qed.

Lemma umod_ok a n : 0 < n -> umod a n = Ok (a mod n).
Proof. intros Hn. unfold umod. by rewrite (proj2 (Z.eqb_neq n 0)) by lia. Qed.

(** The slot that a new message takes: free, or holding the message [n] before. *)
Lemma ring_victim n h b :
  ring_inv n h b ->
  buff b !! (length h `mod` n)%nat = Some (if decide (length h < n)%nat then None
                                            else h !! (length h - n)%nat).
Proof.
  intros Hb. pose proof (ring_pos _ _ _ Hb). case_decide.
  - rewrite Nat.mod_small by done. by apply (ring_free _ _ _ Hb).
  - destruct (lookup_lt_is_Some_2 h (length h - n)) as [m Hm]; [lia|]. rewrite Hm.
    rewrite <- (ring_slots _ _ _ Hb _ _ Hm) by lia. f_equal.
    rewrite <- (Nat.Div0.mod_add (length h - n) 1 n). f_equal. lia.
Qed.

Lemma mod_window_inj (n i j : nat) :
  (0 < n)%nat -> (i < j < i + n)%nat -> (i `mod` n)%nat ≠ (j `mod` n)%nat.
Proof. intros Hn Hij Heq. apply (f_equal Z.of_nat) in Heq. rewrite !Nat2Z.inj_mod in Heq.
  assert (Z.of_nat j - Z.of_nat i = (Z.of_nat j / Z.of_nat n - Z.of_nat i / Z.of_nat n) * Z.of_nat n)
    as Hd.
  { pose proof (Z.div_mod (Z.of_nat i) (Z.of_nat n)). pose proof (Z.div_mod (Z.of_nat j) (Z.of_nat n)). lia. }
  destruct (decide (Z.of_nat j / Z.of_nat n - Z.of_nat i / Z.of_nat n <= 0)); nia.
Qed.

Lemma Buff_next_spec n h b :
  ring_inv n h b -> Z.of_nat (length h) + 1 < 2 ^ 32 ->
  Buff_next b = mkBuff (buff b) (lookup_ b) (Z.of_nat (length h + 1 - n)) (Z.of_nat (length h)) (rb_kv b).
Proof.
  intros Hb Hk. unfold Buff_next. rewrite (Buff_len_eq _ _ _ Hb), (ring_newest _ _ _ Hb),
    (ring_oldest _ _ _ Hb). pose proof (ring_small _ _ _ Hb).
  assert (u32 (u32 (Z.of_nat (length h) - 1) + 1) = Z.of_nat (length h)) as ->.
  { unfold wrapu. rewrite Zplus_mod_idemp_l. rewrite Z.mod_small; lia. }
  f_equal. destruct (Z.leb_spec (Z.of_nat n) (Z.of_nat (length h))); [|lia].
  rewrite wrapu_small by (unfold is_u; lia). lia.
Qed.

(** The lookup map after the overwritten message has left it. *)
Definition evicted (n : nat) (h : list Message) (l : gmap truncatedMessageID Message) :=
  match (if decide (length h < n)%nat then None else h !! (length h - n)%nat) with
  | Some m => delete (trunc m) l
  | None => l
  end.

Lemma evicted_lookup n h b t m :
  ring_inv n h b -> distinct_window n h ->
  evicted n h (lookup_ b) !! t = Some m <->
    exists j, h !! j = Some m /\ (length h < j + n)%nat /\ trunc m = t.
Proof.
  intros Hb Hd. unfold evicted. pose proof (ring_pos _ _ _ Hb). case_decide as Hlt.
  - rewrite (ring_lookup _ _ _ Hb). split; intros (j & Hj & ? & ?); exists j; split_and!; auto; lia.
  - destruct (lookup_lt_is_Some_2 h (length h - n)) as [v Hv]; [lia|]. rewrite Hv.
    rewrite lookup_delete_Some, (ring_lookup _ _ _ Hb). split.
    + intros (Hne & j & Hj & Hjn & Ht). exists j. split_and!; [done| |done].
      destruct (decide (j = length h - n)%nat) as [->|]; [|lia]. congruence.
    + intros (j & Hj & Hjn & Ht). pose proof (lookup_lt_Some _ _ _ Hj). split.
      * rewrite <- Ht. apply (Hd (length h - n)%nat j); [done|done|lia].
      * exists j. split_and!; [done|lia|done].
Qed.

Lemma Buff_push_spec n h b id0 mid ts :
  ring_inv n h b -> Z.of_nat (length h) + 1 < 2 ^ 32 ->
  Buff_push b (mkMessage id0 mid ts) =
    let m := mkMessage (Z.of_nat (length h)) mid ts in
    Ok (mkBuff (<[(length h `mod` n)%nat := Some m]> (buff b))
          (<[trunc m := m]> (evicted n h (lookup_ b)))
          (Z.of_nat (length h + 1 - n)) (Z.of_nat (length h)) (rb_kv b)).
Proof.
  intros Hb Hk. unfold Buff_push. rewrite (Buff_next_spec _ _ _ Hb Hk). cbn [newest MessageId m_Timestamp].
  pose proof (ring_pos _ _ _ Hb). pose proof (Buff_len_eq _ _ _ Hb) as Hl.
  unfold Buff_handleMessageOverwrite, Buff_len in *. cbn [newest buff lookup_ oldest rb_kv].
  rewrite Hl, umod_ok by lia. cbn [mbind result_bind].
  rewrite <- Nat2Z.inj_mod. rewrite (index_nat _ _ _ (ring_victim _ _ _ Hb)). cbn [mbind result_bind].
  unfold evicted. set (v := if decide _ then _ else _).
  assert (forall l, (umod (Z.of_nat (length h)) (Z.of_nat n) ≫= fun i =>
      store_at (buff b) i (Some (mkMessage (Z.of_nat (length h)) mid ts)) ≫= fun buff' =>
      Ok (mkBuff buff' (<[MessageID_truncate mid := mkMessage (Z.of_nat (length h)) mid ts]> l)
        (Z.of_nat (length h + 1 - n)) (Z.of_nat (length h)) (rb_kv b))) =
    Ok (mkBuff (<[(length h `mod` n)%nat := Some (mkMessage (Z.of_nat (length h)) mid ts)]> (buff b))
      (<[MessageID_truncate mid := mkMessage (Z.of_nat (length h)) mid ts]> l)
      (Z.of_nat (length h + 1 - n)) (Z.of_nat (length h)) (rb_kv b))) as Hstore.
  { intros l. rewrite umod_ok by lia. cbn [mbind result_bind]. rewrite <- Nat2Z.inj_mod.
    pose proof (Nat.mod_upper_bound (length h) n).
    by rewrite store_at_nat by (rewrite (ring_len _ _ _ Hb); lia). }
  destruct v as [m|]; cbn [mbind result_bind newest buff lookup_ oldest rb_kv]; rewrite Hl; apply Hstore.
Qed.

Lemma distinct_window_prefix n h m : distinct_window n (h ++ [m]) -> distinct_window n h.
Proof. intros Hd i j mi mj Hi Hj. apply Hd; by apply lookup_app_l_Some. Qed.

(** Pushing a message extends the history by it. *)
Lemma push_ring_inv n h b mid ts :
  let m := mkMessage (Z.of_nat (length h)) mid ts in
  ring_inv n h b -> Z.of_nat (length h) + 1 < 2 ^ 32 -> length mid = 32%nat ->
  - 2 ^ 63 <= ts < 2 ^ 63 -> distinct_window n (h ++ [m]) ->
  exists b', Buff_push b (mkMessage 0 mid ts) = Ok b' /\ ring_inv n (h ++ [m]) b' /\ rb_kv b' = rb_kv b.
Proof.
  intros m Hb Hk Hmid Hts Hd. rewrite (Buff_push_spec n h b) by done. cbn zeta. fold m.
  eexists. split; [done|]. split; [|done]. pose proof (ring_pos _ _ _ Hb) as Hn.
  pose proof (ring_len _ _ _ Hb) as Hlen. pose proof (ring_small _ _ _ Hb) as Hsm.
  pose proof (Nat.mod_upper_bound (length h) n ltac:(lia)) as Hub.
  split; cbn [buff lookup_ oldest newest]; rewrite ?length_insert, ?length_app; cbn [length]; auto; try lia.
  - rewrite wrapu_small by (unfold is_u; lia). lia.
  - intros j x Hj Hjn. apply lookup_app_Some in Hj as [Hj|[? Hj]].
    + pose proof (lookup_lt_Some _ _ _ Hj).
      rewrite list_lookup_insert_ne by (apply not_eq_sym, mod_window_inj; lia).
      apply (ring_slots _ _ _ Hb); [done|lia].
    + apply list_lookup_singleton_Some in Hj as [? <-].
      replace j with (length h) by lia. apply list_lookup_insert_eq. lia.
  - intros i Hi. rewrite list_lookup_insert_ne by (rewrite Nat.mod_small; lia).
    apply (ring_free _ _ _ Hb). lia.
  - intros t x. rewrite lookup_insert_Some, (evicted_lookup n h b)
      by eauto using distinct_window_prefix. split.
    + intros [[<- <-]|(Hne & j & Hj & ? & ?)].
      * exists (length h). split_and!; [by apply list_lookup_middle|lia|done].
      * exists j. split_and!; [by apply lookup_app_l_Some|lia|done].
    + intros (j & Hj & Hjn & <-). apply lookup_app_Some in Hj as [Hj|[? Hj]].
      * pose proof (lookup_lt_Some _ _ _ Hj). right. split; [|exists j; split_and!; done || lia].
        apply not_eq_sym, (Hd j (length h)); [by apply lookup_app_l_Some|by apply list_lookup_middle|lia].
      * apply list_lookup_singleton_Some in Hj as [? <-]. by left.
  - intros i x Hi. apply lookup_app_Some in Hi as [Hi|[? Hi]]; [by apply (ring_msgs _ _ _ Hb)|].
    apply list_lookup_singleton_Some in Hi as [? <-]. split; [simpl; lia|done..].
Qed.

(** ** Storage *)

(** The messages present, in slot order. *)
Definition present (slots : list (option Message)) : list Message := omap (fun x => x) slots.

Lemma present_cons x slots : present (x :: slots) =
  match x with Some m => m :: present slots | None => present slots end.
Proof. by destruct x. Qed.

Lemma present_app l1 l2 : present (l1 ++ l2) = present l1 ++ present l2.
Proof. apply omap_app. Qed.

Lemma present_fmap h : present (Some <$> h) = h.
Proof. induction h as [|m h IH]; [done|]. by rewrite fmap_cons, present_cons, IH. Qed.

Lemma present_free k : present (replicate k None) = [].
Proof. induction k as [|k IH]; [done|]. cbn [replicate]. by rewrite present_cons. Qed.

Lemma elem_of_present m slots : m ∈ present slots <-> Some m ∈ slots.
Proof.
  unfold present. rewrite list_elem_of_omap. split; [by intros (? & ? & ->)|]. intros ?. by exists (Some m).
Qed.

Lemma length_trunc mid : length (MessageID_truncate mid) = 8%nat.
Proof. apply length_array_of. Qed.

Lemma truncate_truncate t : length t = 8%nat -> newTruncatedMessageID t = t.
Proof. intros. by apply array_of_id. Qed.

Lemma unmarshal_marshal_message i m :
  Z.of_nat i < 2 ^ 32 -> message_ok i m -> unmarshalMessage (Message_marshal m) = Ok m.
Proof.
  intros Hi [Hid Hlen Ht]. unfold unmarshalMessage, Message_marshal, bufNext, MessageID_Bytes.
  rewrite take_app_length', drop_app_length' by (by rewrite length_le_encode).
  rewrite get_le_encode by (unfold is_u; simpl; lia). cbn [mbind result_bind].
  rewrite take_app_length', drop_app_length' by done.
  rewrite take_ge by (by rewrite length_le_encode).
  rewrite get_le_encode by apply (wrapu_range 64 _ ltac:(lia)). cbn [mbind result_bind].
  unfold NewMessageIdFromBytes. rewrite array_of_id, time_u64_roundtrip by done. by destruct m.
Qed.

Lemma readIDs_concat (ts : list truncatedMessageID) fuel :
  Forall (fun t => length t = 8%nat) ts -> (length ts <= fuel)%nat -> readIDs fuel (concat ts) = ts.
Proof.
  revert fuel. induction ts as [|t ts IH]; intros [|fuel] Hts Hf; cbn [readIDs length] in *; try done.
  - lia.
  - apply Forall_cons_iff in Hts as [Ht Hts]. unfold bufNext. cbn [concat].
    rewrite take_app_length', drop_app_length' by done.
    rewrite Ht. cbn. rewrite truncate_truncate, IH by (done || lia). done.
Qed.

Definition slotIDs (b : Buff) : list truncatedMessageID := trunc <$> present (buff b).

Lemma marshal_slots slots :
  concat ((fun msg => match msg with
    | Some m => truncatedMessageID_Bytes (MessageID_truncate (MessageId m)) | None => [] end) <$> slots)
  = concat (trunc <$> present slots).
Proof.
  induction slots as [|[m|] slots IH]; [done| |].
  - rewrite fmap_cons, present_cons, fmap_cons. cbn [concat]. by rewrite IH.
  - rewrite fmap_cons, present_cons. cbn [concat]. by rewrite IH.
Qed.

Lemma length_concat_trunc (ms : list Message) : length (concat (trunc <$> ms)) = (8 * length ms)%nat.
Proof.
  induction ms as [|m ms IH]; [done|]. rewrite fmap_cons. cbn [concat].
  rewrite length_app, IH. unfold trunc at 1. rewrite length_trunc. simpl. lia.
Qed.

Lemma unmarshal_marshal_buffer b :
  is_u 32 (newest b) -> is_u 32 (oldest b) ->
  unmarshalBuffer (Buff_marshal b) = Ok (newest b, oldest b, slotIDs b).
Proof.
  intros Hn Ho. unfold unmarshalBuffer, Buff_marshal, bufNext. rewrite marshal_slots.
  rewrite take_app_length', drop_app_length' by (by rewrite length_le_encode).
  rewrite get_le_encode by done. cbn [mbind result_bind].
  rewrite take_app_length', drop_app_length' by (by rewrite length_le_encode).
  rewrite get_le_encode by done. cbn [mbind result_bind].
  rewrite readIDs_concat; [done| |].
  - apply Forall_fmap, Forall_true. intros m. apply length_trunc.
  - rewrite length_fmap, length_concat_trunc. lia.
Qed.

(** Every slot below the number of messages is the slot of a message of the window. *)
Lemma window_index n k i :
  (i < n)%nat -> (i < k)%nat -> exists j, (j < k)%nat /\ (k <= j + n)%nat /\ (j `mod` n = i)%nat.
Proof.
  intros Hin Hik. set (d := ((k - 1 - i) `mod` n)%nat).
  assert (d < n /\ d <= k - 1 - i)%nat as [Hd Hd'].
  { split; [by apply Nat.mod_upper_bound; lia|by apply Nat.Div0.mod_le]. }
  exists (k - 1 - d)%nat. split_and!; [lia|lia|].
  pose proof (Nat.div_mod_eq (k - 1 - i) n) as He. fold d in He.
  replace (k - 1 - d)%nat with (i + ((k - 1 - i) / n) * n)%nat by lia.
  rewrite Nat.Div0.mod_add. by apply Nat.mod_small.
Qed.

(** The message in a slot is a message of the window. *)
Lemma slot_position n h b i m :
  ring_inv n h b -> buff b !! i = Some (Some m) ->
  exists j, h !! j = Some m /\ (length h <= j + n)%nat /\ i = (j `mod` n)%nat.
Proof.
  intros Hb Hi. pose proof (lookup_lt_Some _ _ _ Hi) as Hin.
  rewrite (ring_len _ _ _ Hb) in Hin. pose proof (ring_pos _ _ _ Hb).
  destruct (decide (length h <= i)%nat) as [Hge|Hlt].
  { rewrite (ring_free _ _ _ Hb) in Hi by lia. done. }
  destruct (window_index n (length h) i) as (j & Hjk & Hjn & Hm); [lia|lia|].
  destruct (lookup_lt_is_Some_2 h j) as [m' Hm']; [lia|]. exists j.
  pose proof (ring_slots _ _ _ Hb _ _ Hm' Hjn) as Hs. rewrite Hm in Hs.
  split_and!; [congruence|lia|done].
Qed.

Lemma window_same n h i j mi mj :
  distinct_window n h -> h !! i = Some mi -> h !! j = Some mj ->
  (length h <= i + n)%nat -> (length h <= j + n)%nat -> trunc mi = trunc mj -> i = j.
Proof.
  intros Hd Hi Hj Hin Hjn Heq. pose proof (lookup_lt_Some _ _ _ Hi). pose proof (lookup_lt_Some _ _ _ Hj).
  destruct (Nat.lt_trichotomy i j) as [Hlt|[->|Hlt]]; [|done|]; exfalso.
  - apply (Hd i j mi mj); [done|done|lia|done].
  - apply (Hd j i mj mi); [done|done|lia|done].
Qed.

Definition slots_distinct (slots : list (option Message)) : Prop :=
  forall i j mi mj, slots !! i = Some (Some mi) -> slots !! j = Some (Some mj) ->
    trunc mi = trunc mj -> i = j.

Lemma ring_slots_distinct n h b : ring_inv n h b -> distinct_window n h -> slots_distinct (buff b).
Proof.
  intros Hb Hd i j mi mj Hi Hj Heq.
  destruct (slot_position _ _ _ _ _ Hb Hi) as (pi & Hpi & ? & ->).
  destruct (slot_position _ _ _ _ _ Hb Hj) as (pj & Hpj & ? & ->).
  f_equal. by eapply window_same.
Qed.

Lemma slots_distinct_NoDup slots : slots_distinct slots -> NoDup (trunc <$> present slots).
Proof.
  induction slots as [|x slots IH]; intros Hd; [constructor|].
  assert (NoDup (trunc <$> present slots)) as Hnd.
  { apply IH. intros i j mi mj Hi Hj Heq. apply (Hd (Datatypes.S i) (Datatypes.S j) mi mj) in Heq; [lia|done|done]. }
  rewrite present_cons. destruct x as [m|]; [|done]. rewrite fmap_cons. constructor; [|done].
  intros (m' & Heq & Hm')%list_elem_of_fmap. apply elem_of_present, list_elem_of_lookup_1 in Hm' as [j Hj].
  by specialize (Hd 0%nat (Datatypes.S j) m m' eq_refl Hj Heq).
Qed.

Lemma makeMessageKey_inj t t' : makeMessageKey t = makeMessageKey t' -> t = t'.
Proof.
  intros Heq. unfold makeMessageKey in Heq. apply (inj (String.append messageKey)) in Heq.
  by apply b64Encode_inj.
Qed.

Lemma makeMessageKey_ne t : makeMessageKey t ≠ ringBuffKey.
Proof. done. Qed.

Section save_load.
Context {S : Type} `{EKVLaws S}.

Lemma loadMessage_saved (s s' : S) b m i now :
  Z.of_nat i < 2 ^ 32 -> message_ok i m -> Buff_saveMessage s b m now = (s', None) ->
  loadMessage s' (trunc m) (rb_kv b) = Ok m.
Proof.
  intros Hi Hm Hs. unfold loadMessage. apply kv_get_set_eq in Hs. simpl in Hs.
  unfold trunc, messageVersion in *. rewrite Hs. simpl. by eapply unmarshal_marshal_message.
Qed.

Lemma loadMessage_frame (s s' : S) v key t o r :
  kv_Set v s key o = (s', r) -> Version o = messageVersion -> key ≠ makeMessageKey t ->
  loadMessage s' t v = loadMessage s t v.
Proof.
  intros Hs Ho Hne. unfold loadMessage. rewrite <- Ho. by erewrite kv_get_set_key.
Qed.

(** After the loop of [save], every message of the slots can be loaded. *)
Lemma saveMessages_load (s s' : S) b slots now :
  slots_distinct slots ->
  (forall m, Some m ∈ slots -> exists i, Z.of_nat i < 2 ^ 32 /\ message_ok i m) ->
  saveMessages s b slots now = (s', None) ->
  (forall m, Some m ∈ slots -> loadMessage s' (trunc m) (rb_kv b) = Ok m) /\
  (forall t, t ∉ trunc <$> present slots -> loadMessage s' t (rb_kv b) = loadMessage s t (rb_kv b)).
Proof.
  revert s. induction slots as [|x slots IH]; intros s Hd Hok Hs; cbn [saveMessages] in Hs.
  { injection Hs as ->. split; [set_solver|done]. }
  assert (slots_distinct slots) as Hd'.
  { intros i j mi mj Hi Hj Heq. apply (Hd (Datatypes.S i) (Datatypes.S j) mi mj) in Heq; [lia|done|done]. }
  assert (forall m, Some m ∈ slots -> exists i, Z.of_nat i < 2 ^ 32 /\ message_ok i m) as Hok'
    by (intros m Hm; apply Hok; by right).
  pose proof (slots_distinct_NoDup _ Hd) as Hnd. rewrite present_cons in *.
  destruct x as [m|].
  - destruct (Buff_saveMessage s b m now) as [s1 [e|]] eqn:E; [done|].
    destruct (IH s1 Hd' Hok' Hs) as [Hin Hout]. rewrite fmap_cons in Hnd.
    apply list.NoDup_cons in Hnd as [Hm _].
    destruct (Hok m ltac:(left)) as (i & Hi & Hmi). split.
    + intros m' [Heq|Hm']%elem_of_cons; [|by apply Hin]. injection Heq as ->.
      rewrite Hout by done. by eapply loadMessage_saved.
    + intros t Ht. rewrite fmap_cons, not_elem_of_cons in Ht. destruct Ht as [Hne Ht].
      rewrite Hout by done. eapply loadMessage_frame; [apply E|done|].
      by intros Heq%makeMessageKey_inj.
  - destruct (IH s Hd' Hok' Hs) as [Hin Hout]. split; [|done].
    intros m [?|Hm]%elem_of_cons; [done|by apply Hin].
Qed.

(** The lookup map [LoadBuff] builds. *)
Definition buildLookup (l : gmap truncatedMessageID Message) (ms : list Message) :=
  foldl (fun l m => <[trunc m := m]> l) l ms.

Lemma loadMessages_spec (s : S) v ms pre l o n' kv' :
  (forall m, m ∈ ms -> loadMessage s (trunc m) v = Ok m) ->
  loadMessages s v (trunc <$> ms) (length pre) (mkBuff (pre ++ replicate (length ms) None) l o n' kv')
  = Ok (mkBuff (pre ++ (Some <$> ms)) (buildLookup l ms) o n' kv').
Proof.
  revert pre l. induction ms as [|m ms IH]; intros pre l Hload; [done|].
  rewrite !fmap_cons. cbn [loadMessages length replicate]. rewrite Hload by left.
  cbn [mbind result_bind buff lookup_ oldest newest rb_kv].
  specialize (IH (pre ++ [Some m]) (<[trunc m := m]> l)).
  rewrite length_app, Nat.add_1_r in IH. rewrite <- !app_assoc in IH. simpl in IH.
  rewrite insert_app_r_alt by lia. rewrite Nat.sub_diag. simpl.
  rewrite IH; [done|]. intros. apply Hload. by right.
Qed.

Lemma buildLookup_spec l ms t m :
  NoDup (trunc <$> ms) ->
  buildLookup l ms !! t = Some m <->
    (m ∈ ms /\ trunc m = t) \/ (t ∉ trunc <$> ms /\ l !! t = Some m).
Proof.
  revert l. induction ms as [|x ms IH]; intros l Hnd.
  { simpl. set_solver. }
  rewrite fmap_cons in Hnd. apply list.NoDup_cons in Hnd as [Hx Hnd].
  change (buildLookup l (x :: ms)) with (buildLookup (<[trunc x := x]> l) ms).
  rewrite IH by done. rewrite lookup_insert_Some, fmap_cons, not_elem_of_cons, elem_of_cons.
  split.
  - intros [[? ?]|[? [[? ?]|[? ?]]]]; naive_solver.
  - intros [[[->|?] ?]|[[? ?] ?]]; [right; subst|left|right]; naive_solver.
Qed.

(** [LoadBuff] after [save]: the messages present, in slot order. *)
Lemma load_after_save n h (s s' : S) v0 b now :
  ring_inv n h b -> distinct_window n h -> kv_Prefix v0 ringBuffPrefix = Ok (rb_kv b) ->
  Buff_save s b now = (s', None) ->
  LoadBuff s' v0 =
    Ok (mkBuff (Some <$> present (buff b)) (buildLookup ∅ (present (buff b)))
          (oldest b) (newest b) (rb_kv b)).
Proof.
  intros Hb Hd Hv Hs. unfold Buff_save in Hs.
  destruct (saveMessages s b (buff b) now) as [s1 [e|]] eqn:E; [done|].
  apply saveMessages_load in E as [Hin _]; [|by eapply ring_slots_distinct|].
  2: { intros m [i Hi]%list_elem_of_lookup_1.
       destruct (slot_position _ _ _ _ _ Hb Hi) as (j & Hj & _ & _). exists j.
       pose proof (ring_hist _ _ _ Hb). pose proof (lookup_lt_Some _ _ _ Hj).
       split; [lia|by apply (ring_msgs _ _ _ Hb)]. }
  unfold LoadBuff. rewrite Hv. cbn [mbind result_bind].
  pose proof (kv_get_set_eq _ _ _ _ _ Hs) as Hget. simpl in Hget. rewrite Hget. cbn [Data].
  rewrite unmarshal_marshal_buffer.
  - cbn [mbind result_bind]. unfold slotIDs. rewrite length_fmap.
    apply (loadMessages_spec s' (rb_kv b) (present (buff b)) [] ∅). intros m Hm.
    rewrite (loadMessage_frame s1 s' (rb_kv b) ringBuffKey (trunc m) _ None Hs eq_refl) by done.
    by apply Hin, elem_of_present.
  - rewrite (ring_newest _ _ _ Hb). apply wrapu_range. lia.
  - rewrite (ring_oldest _ _ _ Hb). pose proof (ring_hist _ _ _ Hb). unfold is_u. lia.
Qed.
End save_load.

(** ** Sequences of additions *)

(** The messages the buffer has been given, numbered from [k]. *)
Fixpoint historyFrom (k : Z) (ms : list (MessageID * Time)) : list Message :=
  match ms with
  | [] => []
  | (mid, ts) :: ms => mkMessage k mid ts :: historyFrom (k + 1) ms
  end.

Definition input_ok (p : MessageID * Time) : Prop :=
  length p.1 = 32%nat /\ - 2 ^ 63 <= p.2 < 2 ^ 63.

Lemma length_historyFrom k ms : length (historyFrom k ms) = length ms.
Proof. revert k. induction ms as [|[mid ts] ms IH]; intros k; simpl; [done|]. by rewrite IH. Qed.

Lemma distinct_window_app n h h' : distinct_window n (h ++ h') -> distinct_window n h.
Proof. intros Hd i j mi mj Hi Hj. apply Hd; by apply lookup_app_l_Some. Qed.

Section runs.
Context {S : Type} `{EKVReliable S}.

(** Adds the messages in turn; stops at the first error. *)
Fixpoint addAll (s : S) (b : Buff) (ms : list (MessageID * Time)) (now : Time) :
    result (S * Buff) :=
  match ms with
  | [] => Ok (s, b)
  | (mid, ts) :: ms =>
      '(s, b, e) ← Buff_Add s b mid ts now;
      match e with Some e => Err e | None => addAll s b ms now end
  end.

(** What is in storage is the buffer. *)
Definition saved (s : S) (b : Buff) : Prop := exists s0 now, Buff_save s0 b now = (s, None).

Lemma saveMessages_ok (s : S) b slots now : exists s', saveMessages s b slots now = (s', None).
Proof.
  revert s. induction slots as [|[m|] slots IH]; intros s; cbn [saveMessages]; [eauto| |apply IH].
  destruct (Buff_saveMessage s b m now) as [s1 e] eqn:E.
  pose proof (ekv_set_ok s (kv_makeKey (rb_kv b) (makeMessageKey (trunc m)) messageVersion)
    (mkObject messageVersion now (Message_marshal m))) as Hok.
  unfold Buff_saveMessage, kv_Set in E. simpl in E, Hok. unfold trunc in Hok.
  rewrite E in Hok. simpl in Hok. subst e. apply IH.
Qed.

Lemma Buff_save_ok (s : S) b now : exists s', Buff_save s b now = (s', None).
Proof.
  unfold Buff_save. destruct (saveMessages_ok s b (buff b) now) as [s1 ->].
  destruct (Buff_saveBuff s1 b now) as [s2 e] eqn:E.
  pose proof (ekv_set_ok s1 (kv_makeKey (rb_kv b) ringBuffKey ringBuffVersion)
    (mkObject ringBuffVersion now (Buff_marshal b))) as Hok.
  unfold Buff_saveBuff, kv_Set in E. simpl in E, Hok. rewrite E in Hok. simpl in Hok. subst e. eauto.
Qed.

Lemma NewBuff_inv (s : S) v v' n now :
  (0 < n)%nat -> Z.of_nat n < 2 ^ 32 -> kv_Prefix v ringBuffPrefix = Ok v' ->
  exists s' b, NewBuff s v (Z.of_nat n) now = Ok (s', b, None) /\ ring_inv n [] b /\
    saved s' b /\ rb_kv b = v'.
Proof.
  intros Hn Hn' Hv. unfold NewBuff. rewrite Hv. cbn [mbind result_bind].
  rewrite (proj2 (Z.ltb_ge _ 0)), Nat2Z.id by lia.
  set (b := mkBuff _ _ _ _ _). destruct (Buff_save_ok s b now) as [s' Hs]. rewrite Hs.
  exists s', b. split_and!; [done| |by exists s, now|done].
  split; simpl; rewrite ?length_replicate; try done; try lia.
  - intros i Hi. apply lookup_replicate_2; lia.
  - intros t m. rewrite lookup_empty. split; [done|]. by intros (j & ? & _).
Qed.

Lemma addAll_inv n ms h (s : S) b now :
  ring_inv n h b -> saved s b -> Forall input_ok ms ->
  Z.of_nat (length h + length ms) < 2 ^ 32 ->
  distinct_window n (h ++ historyFrom (Z.of_nat (length h)) ms) ->
  exists s' b', addAll s b ms now = Ok (s', b') /\
    ring_inv n (h ++ historyFrom (Z.of_nat (length h)) ms) b' /\ saved s' b' /\ rb_kv b' = rb_kv b.
Proof.
  revert h s b. induction ms as [|[mid ts] ms IH]; intros h s b Hb Hs Hok Hlen Hd; cbn [historyFrom] in *.
  { rewrite app_nil_r. simpl. eauto 10. }
  apply Forall_cons_iff in Hok as [[Hmid Hts] Hok]. cbn [length addAll] in *.
  set (m := mkMessage (Z.of_nat (length h)) mid ts) in *.
  change (m :: ?l) with ([m] ++ l) in Hd |- *. rewrite (app_assoc h [m]) in *.
  destruct (push_ring_inv n h b mid ts) as (b1 & Hp & Hb1 & Hk1); try done; [lia| |].
  { by apply distinct_window_app in Hd. }
  unfold Buff_Add. rewrite Hp. cbn [mbind result_bind].
  destruct (Buff_save_ok s b1 now) as [s1 Hs1]. rewrite Hs1. cbn [mbind result_bind].
  assert (Z.of_nat (length h) + 1 = Z.of_nat (length (h ++ [m]))) as Hk
    by (rewrite length_app; simpl; lia).
  rewrite Hk in *. destruct (IH (h ++ [m]) s1 b1) as (s' & b' & Hr & Hb' & Hs' & Hk'); try done.
  - by exists s, now.
  - rewrite length_app. simpl. lia.
  - exists s', b'. by rewrite Hr, Hk', Hk1.
Qed.
End runs.

(** ** Observations *)

Section observe.
Context (n : nat) (h : list Message) (b : Buff) (Hb : ring_inv n h b) (Hd : distinct_window n h).

Lemma ring_Get : Buff_Get b = Ok (h !! (length h - 1)%nat).
Proof.
  pose proof (ring_pos _ _ _ Hb) as Hn. pose proof (ring_len _ _ _ Hb) as Hl.
  unfold Buff_Get. rewrite (Buff_len_eq _ _ _ Hb), umod_ok by lia. cbn [mbind result_bind].
  destruct (decide (length h = 0%nat)) as [H0|H0].
  - apply nil_length_inv in H0 as ->. simpl.
    pose proof (Z.mod_pos_bound (newest b) (Z.of_nat n) ltac:(lia)).
    apply index_Ok. split; [lia|]. apply (ring_free _ _ _ Hb). simpl. lia.
  - rewrite (ring_newest _ _ _ Hb). pose proof (ring_hist _ _ _ Hb).
    rewrite wrapu_small by (unfold is_u; lia).
    replace (Z.of_nat (length h) - 1) with (Z.of_nat (length h - 1)) by lia.
    rewrite <- Nat2Z.inj_mod. apply index_nat.
    destruct (lookup_lt_is_Some_2 h (length h - 1)) as [m Hm]; [lia|].
    rewrite Hm.
    apply (ring_slots _ _ _ Hb); [done|lia].
Qed.

Lemma ring_GetByMessageID i m :
  h !! i = Some m -> (length h <= i + n)%nat -> Buff_GetByMessageID b (MessageId m) = Ok m.
Proof.
  intros Hi Hin. unfold Buff_GetByMessageID. fold (trunc m).
  rewrite (proj2 (ring_lookup _ _ _ Hb (trunc m) m)); [done|]. eauto.
Qed.

Lemma ring_GetByMessageID_none mid :
  (forall i m, h !! i = Some m -> (length h <= i + n)%nat -> trunc m ≠ MessageID_truncate mid) ->
  Buff_GetByMessageID b mid = Err noMessageFoundErr /\ Buff_GetNextMessage b mid = Err noMessageFoundErr.
Proof.
  intros Hno. unfold Buff_GetByMessageID, Buff_GetNextMessage.
  destruct (lookup_ b !! MessageID_truncate mid) as [m|] eqn:E; [|done].
  apply (ring_lookup _ _ _ Hb) in E as (j & Hj & Hjn & Ht). by destruct (Hno j m Hj Hjn).
Qed.

Lemma ring_GetNextMessage i m :
  h !! i = Some m -> (length h <= i + n)%nat ->
  Buff_GetNextMessage b (MessageId m) =
    match h !! Datatypes.S i with Some m' => Ok (Some m') | None => Err lookupPastRecentErr end.
Proof.
  intros Hi Hin. unfold Buff_GetNextMessage. fold (trunc m).
  rewrite (proj2 (ring_lookup _ _ _ Hb (trunc m) m)) by eauto.
  pose proof (ring_pos _ _ _ Hb) as Hn. pose proof (ring_hist _ _ _ Hb) as Hh.
  pose proof (lookup_lt_Some _ _ _ Hi).
  rewrite (message_ok_id _ _ (ring_msgs _ _ _ Hb _ _ Hi)), (ring_oldest _ _ _ Hb), (ring_newest _ _ _ Hb).
  rewrite !wrapu_small by (unfold is_u; lia).
  rewrite (proj2 (Z.ltb_ge _ _)) by lia.
  destruct (h !! Datatypes.S i) as [m'|] eqn:Hs.
  - pose proof (lookup_lt_Some _ _ _ Hs). rewrite (proj2 (Z.ltb_ge _ _)) by lia.
    rewrite (Buff_len_eq _ _ _ Hb), umod_ok by lia. cbn [mbind result_bind].
    replace (Z.of_nat i + 1) with (Z.of_nat (Datatypes.S i)) by lia.
    rewrite <- Nat2Z.inj_mod. apply index_nat. apply (ring_slots _ _ _ Hb); [done|lia].
  - apply lookup_ge_None in Hs. by rewrite (proj2 (Z.ltb_lt _ _)) by lia.
Qed.
End observe.

(** after any sequence of additions to a new buffer of [n] slots, whatever
    their number, the buffer answers for exactly the last [n] messages: [Get]
    returns the newest message, [GetByMessageID] finds each of the last [n] and
    no other, and [GetNextMessage] returns the message added after it, or an
    error for the newest.  Messages within [n] of each other must have distinct
    truncated IDs. *)
Theorem Ring_window {S} `{EKVReliable S} (s : S) v v' n ms now :
  (0 < n)%nat -> Z.of_nat n < 2 ^ 32 -> kv_Prefix v ringBuffPrefix = Ok v' ->
  Forall input_ok ms -> Z.of_nat (length ms) < 2 ^ 32 ->
  let h := historyFrom 0 ms in
  distinct_window n h ->
  exists s0 b0 s1 b, NewBuff s v (Z.of_nat n) now = Ok (s0, b0, None) /\
    addAll s0 b0 ms now = Ok (s1, b) /\
    Buff_Get b = Ok (h !! (length h - 1)%nat) /\
    (forall i m, h !! i = Some m -> (length h <= i + n)%nat ->
      Buff_GetByMessageID b (MessageId m) = Ok m /\
      Buff_GetNextMessage b (MessageId m) =
        match h !! Datatypes.S i with Some m' => Ok (Some m') | None => Err lookupPastRecentErr end) /\
    (forall mid, (forall i m, h !! i = Some m -> (length h <= i + n)%nat ->
        trunc m ≠ MessageID_truncate mid) ->
      Buff_GetByMessageID b mid = Err noMessageFoundErr /\
      Buff_GetNextMessage b mid = Err noMessageFoundErr).
Proof.
  intros Hn Hn' Hv Hms Hlen h Hd.
  destruct (NewBuff_inv s v v' n now Hn Hn' Hv) as (s0 & b0 & Hnew & Hb0 & Hs0 & _).
  destruct (addAll_inv n ms [] s0 b0 now Hb0 Hs0 Hms Hlen Hd) as (s1 & b & Hr & Hb & _ & _).
  exists s0, b0, s1, b. split_and!; [done|done|by eapply ring_Get| |].
  - intros i m Hi Hin. split; [by eapply ring_GetByMessageID|by eapply ring_GetNextMessage].
  - intros mid Hno. by eapply ring_GetByMessageID_none.
Qed.

Definition ex_mid (x : byte) : MessageID := replicate 32 x.

Lemma distinct_window_dec n h :
  (forall i j, (i < j < length h)%nat -> (j < i + n)%nat ->
     bool_decide (option_map trunc (h !! i) = option_map trunc (h !! j)) = false) ->
  distinct_window n h.
Proof.
  intros Hd i j mi mj Hi Hj Hij Heq. pose proof (lookup_lt_Some _ _ _ Hj).
  specialize (Hd i j ltac:(lia) ltac:(lia)). apply bool_decide_eq_false in Hd. apply Hd.
  rewrite Hi, Hj. simpl. by rewrite Heq.
Qed.

Definition ex_ring_msgs : list (MessageID * Time) :=
  [(ex_mid x01, 10); (ex_mid x02, 20); (ex_mid x01, 30)].

Lemma ex_ring_distinct : distinct_window 2 (historyFrom 0 ex_ring_msgs).
Proof.
  apply distinct_window_dec. intros i j Hi Hj.
  change (length (historyFrom 0 ex_ring_msgs)) with 3%nat in Hi.
  assert (i = 0 /\ j = 1 \/ i = 1 /\ j = 2)%nat as [[-> ->]|[-> ->]] by lia; vm_compute; reflexivity.
Qed.

Lemma ex_ring_inputs : Forall input_ok ex_ring_msgs.
Proof. repeat constructor; simpl; lia. Qed.

Lemma Ring_window_witness :
  exists s0 b0 s1 b, NewBuff (∅ : MemStore) NewKV 2 0 = Ok (s0, b0, None) /\
    addAll s0 b0 ex_ring_msgs 0 = Ok (s1, b) /\
    Buff_Get b = Ok (Some (mkMessage 2 (ex_mid x01) 30)).
Proof.
  destruct (Ring_window (∅ : MemStore) NewKV
    (mkKV (ringBuffPrefix +:+ String PrefixSeparator EmptyString) {[ringBuffPrefix := 1]} 1) 2 ex_ring_msgs 0
    ltac:(lia) ltac:(lia) ltac:(vm_compute; reflexivity) ex_ring_inputs ltac:(simpl; lia)
    ex_ring_distinct) as (s0 & b0 & s1 & b & H1 & H2 & H3 & _).
  exists s0, b0, s1, b. split; [exact H1|]. split; [exact H2|]. exact H3.
Defined.

(** ** Reloading *)

Lemma full_present (slots : list (option Message)) :
  (forall i, (i < length slots)%nat -> slots !! i ≠ Some None) -> Some <$> present slots = slots.
Proof.
  induction slots as [|[m|] slots IH]; intros Hf; [done| |].
  - rewrite present_cons, fmap_cons, IH; [done|]. intros i Hi. apply (Hf (Datatypes.S i)). simpl. lia.
  - by destruct (Hf 0%nat ltac:(simpl; lia)).
Qed.

Lemma ring_full_slots n h b :
  ring_inv n h b -> (n <= length h)%nat -> Some <$> present (buff b) = buff b.
Proof.
  intros Hb Hfull. apply full_present. rewrite (ring_len _ _ _ Hb). intros i Hi Hnone.
  pose proof (ring_pos _ _ _ Hb).
  destruct (window_index n (length h) i) as (j & Hjk & Hjn & Hm); [lia|lia|].
  destruct (lookup_lt_is_Some_2 h j) as [m' Hm']; [lia|].
  pose proof (ring_slots _ _ _ Hb _ _ Hm' Hjn) as Hs. rewrite Hm in Hs. congruence.
Qed.

Lemma present_lookup n h b :
  ring_inv n h b -> distinct_window n h -> buildLookup ∅ (present (buff b)) = lookup_ b.
Proof.
  intros Hb Hd. apply map_eq. intros t. apply option_eq. intros m.
  rewrite buildLookup_spec by eauto using slots_distinct_NoDup, ring_slots_distinct.
  rewrite lookup_empty, (ring_lookup _ _ _ Hb), elem_of_present. split.
  - intros [[Hm Ht]|[_ ?]]; [|done]. apply list_elem_of_lookup_1 in Hm as [i Hi].
    destruct (slot_position _ _ _ _ _ Hb Hi) as (j & ? & ? & _). eauto.
  - intros (j & Hj & Hjn & Ht). left. split; [|done].
    by eapply list_elem_of_lookup_2, (ring_slots _ _ _ Hb).
Qed.

(** A partly filled buffer has its messages in the first slots. *)
Lemma present_partial n h b :
  ring_inv n h b -> (length h < n)%nat -> present (buff b) = h.
Proof.
  intros Hb Hlt.
  assert (buff b = (Some <$> h) ++ replicate (n - length h) None) as ->.
  { apply list_eq. intros i. destruct (decide (i < length h)%nat) as [Hi|Hi].
    - destruct (lookup_lt_is_Some_2 h i Hi) as [m Hm].
      rewrite lookup_app_l by (by rewrite length_fmap). rewrite list_lookup_fmap, Hm. simpl.
      rewrite <- (ring_slots _ _ _ Hb i m Hm) by lia. by rewrite Nat.mod_small by lia.
    - rewrite lookup_app_r by (rewrite length_fmap; lia). rewrite length_fmap.
      destruct (decide (i < n)%nat) as [Hin|Hin].
      + rewrite lookup_replicate_2 by lia. apply (ring_free _ _ _ Hb). lia.
      + rewrite !lookup_ge_None_2; [done|rewrite length_replicate; lia|rewrite (ring_len _ _ _ Hb); lia]. }
  by rewrite present_app, present_fmap, present_free, app_nil_r.
Qed.

(** Reloading a ring buffer after any sequence of additions: a buffer that
    has filled its [n] slots comes back exactly as it was.  One that has received
    only [k < n] messages comes back with the same messages, but with only [k]
    slots, so its capacity has shrunk, and when [k] is zero [Get] panics. *)
Theorem Ring_save_load {S} `{EKVReliable S} `{!EKVLaws S} (s : S) v v' n ms now :
  (0 < n)%nat -> Z.of_nat n < 2 ^ 32 -> kv_Prefix v ringBuffPrefix = Ok v' ->
  Forall input_ok ms -> Z.of_nat (length ms) < 2 ^ 32 ->
  let h := historyFrom 0 ms in
  distinct_window n h ->
  exists s0 b0 s1 b b', NewBuff s v (Z.of_nat n) now = Ok (s0, b0, None) /\
    addAll s0 b0 ms now = Ok (s1, b) /\ LoadBuff s1 v = Ok b' /\
    ((n <= length ms)%nat -> b' = b) /\
    ((length ms < n)%nat -> buff b' = Some <$> h /\ length (buff b') = length ms /\
       lookup_ b' = lookup_ b /\ (ms = [] -> Buff_Get b' = Panic)).
Proof.
  intros Hn Hn' Hv Hms Hlen h Hd.
  destruct (NewBuff_inv s v v' n now Hn Hn' Hv) as (s0 & b0 & Hnew & Hb0 & Hs0 & Hk0).
  destruct (addAll_inv n ms [] s0 b0 now Hb0 Hs0 Hms Hlen Hd) as (s1 & b & Hr & Hb & [s' [now' Hs]] & Hk).
  change (ring_inv n h b) in Hb. assert (length h = length ms) as Hh by apply length_historyFrom.
  exists s0, b0, s1, b. eexists. split_and!; [done|done| | |].
  - eapply load_after_save; [done|done| |done]. by rewrite Hk, Hk0.
  - intros Hfull. rewrite (ring_full_slots n _ b Hb) by lia.
    rewrite (present_lookup n _ b Hb Hd). by destruct b.
  - intros Hpart. rewrite (present_partial n _ b Hb) by lia.
    cbn [buff lookup_ app length]. rewrite <- (present_lookup n _ b Hb Hd).
    rewrite (present_partial n _ b Hb) by lia.
    rewrite length_fmap. split_and!; [done|done|done|]. intros ->. done.
Qed.

Lemma Ring_save_load_witness :
  exists s0 b0 s1 b b', NewBuff (∅ : MemStore) NewKV 2 0 = Ok (s0, b0, None) /\
    addAll s0 b0 ex_ring_msgs 0 = Ok (s1, b) /\ LoadBuff s1 NewKV = Ok b' /\ b' = b.
Proof.
  destruct (Ring_save_load (∅ : MemStore) NewKV
    (mkKV (ringBuffPrefix +:+ String PrefixSeparator EmptyString) {[ringBuffPrefix := 1]} 1) 2 ex_ring_msgs 0
    ltac:(lia) ltac:(lia) ltac:(vm_compute; reflexivity) ex_ring_inputs ltac:(simpl; lia)
    ex_ring_distinct) as (s0 & b0 & s1 & b & b' & H1 & H2 & H3 & H4 & _).
  exists s0, b0, s1, b, b'. split; [exact H1|]. split; [exact H2|]. split; [exact H3|].
  apply H4. simpl. lia.
Defined.
