(* ===== verification/Partition.v ===== *)
(** * Reassembly of multi-part messages

    [e2e/parse/partition]: [multiPartMessage.go] collects the parts of one
    message in memory and in storage, [part.go] stores one part, [store.go]
    keeps the messages under reception.  The store's two maps share the
    [multiPartMessage] objects by pointer, so the model has a heap of them. *)

From S2P Require Import Prelude GoBytes KV Json.

(** What is used of the [crypto] module and of [blake2b]. *)
Class E2ECrypto (KR MID : Type) := {
  zeroKeyResidue : KR;
  zeroMessageID : MID;
  NewMessageID : list byte -> Z -> MID;
  blake2b256 : list byte -> list byte;
}.

Definition currentMultiPartMessageVersion : Z := 0.
Definition multiPartKey : string := "MultiPart".
Definition packagePrefix : string := "Partition".
Definition clearPartitionThreshold : Z := 24 * 3600 * 1000000000.
Definition activePartitions : string := "activePartitions".
Definition activePartitionVersion : Z := 0.

(** The exported fields of a [multiPartMessage], which are what is stored. *)
Record mpmData (ID KR : Type) := mkMpmData {
  Sender : ID;
  MessageID : Z;               (* uint64 *)
  NumParts : Z;                (* uint8 *)
  PresentParts : Z;            (* uint8 *)
  SenderTimestamp : Time;
  StorageTimestamp : Time;
  MessageType : Z;             (* uint32 *)
  KeyResidue : KR;
}.
Arguments mkMpmData {ID KR}.
Arguments Sender {ID KR}.
Arguments MessageID {ID KR}.
Arguments NumParts {ID KR}.
Arguments PresentParts {ID KR}.
Arguments SenderTimestamp {ID KR}.
Arguments StorageTimestamp {ID KR}.
Arguments MessageType {ID KR}.
Arguments KeyResidue {ID KR}.

(** A nil part is [None]. *)
Record multiPartMessage (ID KR : Type) := mkMpm {
  mpm_data : mpmData ID KR;
  parts : list (option (list byte));
  mpm_kv : kv;
}.
Arguments mkMpm {ID KR}.
Arguments mpm_data {ID KR}.
Arguments parts {ID KR}.
Arguments mpm_kv {ID KR}.

(** The fields of [receive.Message] that are set. *)
Record receiveMessage (ID MID : Type) := mkReceiveMessage {
  rm_Payload : list byte;
  rm_MessageType : Z;
  rm_Sender : ID;
  rm_Timestamp : Time;
  rm_ID : MID;
}.
Arguments mkReceiveMessage {ID MID}.
Arguments rm_Payload {ID MID}.
Arguments rm_MessageType {ID MID}.
Arguments rm_Sender {ID MID}.
Arguments rm_Timestamp {ID MID}.
Arguments rm_ID {ID MID}.

Definition makeMultiPartMessagePrefix (messageID : Z) : string := "MessageID:" +:+ pretty messageID.
Definition makeMultiPartMessagePartKey (part : Z) : string := "part:" +:+ pretty part.

(** [t.Sub(u)] saturates at the bounds of a [Duration]. *)
Definition timeSub (t u : Time) : Z := Z.max (- 2 ^ 63) (Z.min (2 ^ 63 - 1) (t - u)).

(** An error is fatal. *)
Definition orPanic {S} (r : S * option error) : result S :=
  match r with
  | (s, None) => Ok s
  | (_, Some _) => Panic
  end.

(** [append(parts, make([][]byte, n)...)] *)
Definition extendParts (parts : list (option (list byte))) (n : Z) : list (option (list byte)) :=
  parts ++ replicate (Z.to_nat n) None.

Section partition.
Context {ID KR MID : Type} `{NetID ID} `{E2ECrypto KR MID}.
Context {S : Type} `{EKV S} `{JsonCodec (mpmData ID KR)} `{JsonCodec (list (mpmData ID KR))}.

Abbreviation mpm_t := (multiPartMessage ID KR).

(** ** Parts ([part.go]) *)

Definition loadPart (s : S) (v : kv) (partNum : Z) : error + list byte :=
  match kv_Get v s (makeMultiPartMessagePartKey partNum) currentMultiPartMessageVersion with
  | inl e => inl e
  | inr obj => inr (Data obj)
  end.

Definition savePart (s : S) (v : kv) (partNum : Z) (part : list byte) (now : Time) :
    S * option error :=
  kv_Set v s (makeMultiPartMessagePartKey partNum)
    (mkObject currentMultiPartMessageVersion now part).

Definition deletePart (s : S) (v : kv) (partNum : Z) : S * option error :=
  kv_Delete v s (makeMultiPartMessagePartKey partNum) currentMultiPartMessageVersion.

(** ** One message ([multiPartMessage.go]) *)

Definition mpm_save (s : S) (m : mpm_t) (now : Time) : S * option error :=
  kv_Set (mpm_kv m) s multiPartKey
    (mkObject currentMultiPartMessageVersion now (json_Marshal (mpm_data m))).

Definition newMpmData (sender : ID) (messageID : Z) : mpmData ID KR :=
  mkMpmData sender messageID 0 0 zeroTime zeroTime 0 zeroKeyResidue.

Definition loadOrCreateMultiPartMessage (s : S) (sender : ID) (messageID : Z) (v : kv)
    (now : Time) : result (S * mpm_t) :=
  v ← must (kv_Prefix v (MakePartnerPrefix sender));
  v ← must (kv_Prefix v (makeMultiPartMessagePrefix messageID));
  match kv_Get v s multiPartKey currentMultiPartMessageVersion with
  | inl e =>
      if negb (ekv_Exists S e) then
        let mpm := mkMpm (newMpmData sender messageID) [] v in
        s ← orPanic (mpm_save s mpm now);
        Ok (s, mpm)
      else Panic
  | inr obj =>
      match json_Unmarshal (Data obj) with
      | None => Panic
      | Some d => Ok (s, mkMpm d [] v)
      end
  end.

Definition mpm_Add (s : S) (m : mpm_t) (partNumber : Z) (part : list byte) (now : Time) :
    result (S * mpm_t) :=
  let n := Z.of_nat (length (parts m)) in
  let ps := if n <=? partNumber then extendParts (parts m) (partNumber - n + 1) else parts m in
  ps ← store_at ps partNumber (Some part);
  let d := mpm_data m in
  let m := mkMpm (mkMpmData (Sender d) (MessageID d) (NumParts d) (u8 (PresentParts d + 1))
                    (SenderTimestamp d) (StorageTimestamp d) (MessageType d) (KeyResidue d))
             ps (mpm_kv m) in
  s ← orPanic (savePart s (mpm_kv m) partNumber part now);
  s ← orPanic (mpm_save s m now);
  Ok (s, m).

Definition mpm_AddFirst (s : S) (m : mpm_t) (mt partNumber numParts : Z)
    (senderTimestamp storageTimestamp : Time) (part : list byte) (now : Time) :
    result (S * mpm_t) :=
  let n := Z.of_nat (length (parts m)) in
  let ps := if n <=? partNumber then extendParts (parts m) (partNumber - n + 1) else parts m in
  ps ← store_at ps partNumber (Some part);
  let d := mpm_data m in
  let m := mkMpm (mkMpmData (Sender d) (MessageID d) numParts (u8 (PresentParts d + 1))
                    senderTimestamp storageTimestamp mt (KeyResidue d))
             ps (mpm_kv m) in
  s ← orPanic (savePart s (mpm_kv m) partNumber part now);
  s ← orPanic (mpm_save s m now);
  Ok (s, m).

(** The loop of [delete]: [k] more parts from part [i]. *)
Fixpoint mpm_deleteLoop (k : nat) (i : Z) (s : S) (m : mpm_t) (lenMsg : Z) :
    result (S * mpm_t * Z) :=
  match k with
  | O => Ok (s, m, lenMsg)
  | Datatypes.S k =>
      p ← index (parts m) i;
      match p with
      | Some b => mpm_deleteLoop k (i + 1) s m (lenMsg + Z.of_nat (length b))
      | None =>
          match loadPart s (mpm_kv m) i with
          | inl _ => Panic
          | inr b =>
              ps ← store_at (parts m) i (Some b);
              s ← orPanic (deletePart s (mpm_kv m) i);
              mpm_deleteLoop k (i + 1) s (mkMpm (mpm_data m) ps (mpm_kv m))
                (lenMsg + Z.of_nat (length b))
          end
      end
  end.

Definition mpm_delete (s : S) (m : mpm_t) : result (S * mpm_t * Z) :=
  '(s, m, lenMsg) ← mpm_deleteLoop (Z.to_nat (NumParts (mpm_data m))) 0 s m 0;
  s ← orPanic (kv_Delete (mpm_kv m) s multiPartKey currentMultiPartMessageVersion);
  Ok (s, m, lenMsg).

(** The loop that copies the parts into the reconstructed message. *)
Fixpoint reconstructLoop (ps : list (option (list byte))) (partOffset : Z)
    (reconstructed : list byte) : result (list byte) :=
  match ps with
  | [] => Ok reconstructed
  | p :: ps =>
      let part := default [] p in
      let n := Z.of_nat (length part) in
      dst ← reslice reconstructed (whole reconstructed) partOffset (partOffset + n);
      reconstructLoop ps (partOffset + n) (scopy reconstructed dst part)
  end.

(** [None] is the empty message with [false]. *)
Definition mpm_IsComplete (s : S) (m : mpm_t) (relationshipFingerprint : list byte) :
    result (S * mpm_t * option (receiveMessage ID MID)) :=
  let d := mpm_data m in
  if (NumParts d =? 0) || negb (NumParts d =? PresentParts d) then Ok (s, m, None)
  else
    let n := Z.of_nat (length (parts m)) in
    let ps := if n <? NumParts d then extendParts (parts m) (NumParts d - n) else parts m in
    '(s, m, lenMsg) ← mpm_delete s (mkMpm d ps (mpm_kv m));
    reconstructed ← reconstructLoop (parts m) 0 (replicate (Z.to_nat lenMsg) x00);
    let mid := if (length relationshipFingerprint =? 0)%nat then zeroMessageID
               else NewMessageID relationshipFingerprint (MessageID d) in
    Ok (s, m, Some (mkReceiveMessage reconstructed (MessageType d) (Sender d)
                      (SenderTimestamp d) mid)).

(** ** The store ([store.go]) *)

Definition getMultiPartID (partner : ID) (messageID : Z) : list byte :=
  array_of 16 (blake2b256 (id_Bytes partner ++ be_encode 8 messageID)).

(** The maps hold addresses of the heap; [ps_next] is the next free address. *)
Record PStore := mkPStore {
  ps_heap : gmap nat mpm_t;
  ps_next : nat;
  multiParts : gmap (list byte) nat;
  activeParts : gset nat;
  ps_kv : kv;
}.

Definition ps_alloc (st : PStore) (m : mpm_t) : PStore * nat :=
  (mkPStore (<[ps_next st := m]> (ps_heap st)) (Datatypes.S (ps_next st)) (multiParts st)
     (activeParts st) (ps_kv st), ps_next st).
Definition ps_write (st : PStore) (a : nat) (m : mpm_t) : PStore :=
  mkPStore (<[a := m]> (ps_heap st)) (ps_next st) (multiParts st) (activeParts st) (ps_kv st).
Definition ps_read (st : PStore) (a : nat) : result mpm_t :=
  match ps_heap st !! a with Some m => Ok m | None => Panic end.
Definition ps_setMulti (st : PStore) (mp : gmap (list byte) nat) : PStore :=
  mkPStore (ps_heap st) (ps_next st) mp (activeParts st) (ps_kv st).
Definition ps_activate (st : PStore) (a : nat) : PStore :=
  mkPStore (ps_heap st) (ps_next st) (multiParts st) ({[a]} ∪ activeParts st) (ps_kv st).

Definition ps_load (s : S) (st : PStore) (partner : ID) (messageID : Z) (now : Time) :
    result (S * PStore * nat) :=
  let mpID := getMultiPartID partner messageID in
  match multiParts st !! mpID with
  | Some a => Ok (s, st, a)
  | None =>
      '(s, mpm) ← loadOrCreateMultiPartMessage s partner messageID (ps_kv st) now;
      let '(st, a) := ps_alloc st mpm in
      Ok (s, ps_setMulti st (<[mpID := a]> (multiParts st)), a)
  end.

(** The active list, in the order in which the map is walked. *)
Definition activeList (st : PStore) : list (mpmData ID KR) :=
  omap (fun a => mpm_data <$> ps_heap st !! a) (elements (activeParts st)).

Definition saveActiveParts (s : S) (st : PStore) (now : Time) : result S :=
  orPanic (kv_Set (ps_kv st) s activePartitions
    (mkObject activePartitionVersion now (json_Marshal (activeList st)))).

(** What both handlers do with the outcome of [IsComplete]. *)
Definition ps_finish (s : S) (st : PStore) (a : nat) (m : mpm_t)
    (msg : option (receiveMessage ID MID)) (now : Time) :
    result (S * PStore * option (receiveMessage ID MID * KR)) :=
  match msg with
  | None =>
      let st := ps_activate st a in
      s ← saveActiveParts s st now;
      Ok (s, st, None)
  | Some msg =>
      let mpID := getMultiPartID (Sender (mpm_data m)) (MessageID (mpm_data m)) in
      Ok (s, ps_setMulti st (delete mpID (multiParts st)), Some (msg, KeyResidue (mpm_data m)))
  end.

Definition mpm_setResidue (m : mpm_t) (residue : KR) : mpm_t :=
  let d := mpm_data m in
  mkMpm (mkMpmData (Sender d) (MessageID d) (NumParts d) (PresentParts d) (SenderTimestamp d)
           (StorageTimestamp d) (MessageType d) residue) (parts m) (mpm_kv m).

Definition Store_AddFirst (s : S) (st : PStore) (partner : ID) (mt messageID partNum numParts : Z)
    (senderTimestamp storageTimestamp : Time) (part relationshipFingerprint : list byte)
    (residue : KR) (now : Time) : result (S * PStore * option (receiveMessage ID MID * KR)) :=
  '(s, st, a) ← ps_load s st partner messageID now;
  m ← ps_read st a;
  '(s, m) ← mpm_AddFirst s m mt partNum numParts senderTimestamp storageTimestamp part now;
  let m := mpm_setResidue m residue in
  '(s, m, msg) ← mpm_IsComplete s m relationshipFingerprint;
  ps_finish s (ps_write st a m) a m msg now.

Definition Store_Add (s : S) (st : PStore) (partner : ID) (messageID partNum : Z)
    (part relationshipFingerprint : list byte) (now : Time) :
    result (S * PStore * option (receiveMessage ID MID * KR)) :=
  '(s, st, a) ← ps_load s st partner messageID now;
  m ← ps_read st a;
  '(s, m) ← mpm_Add s m partNum part now;
  '(s, m, msg) ← mpm_IsComplete s m relationshipFingerprint;
  ps_finish s (ps_write st a m) a m msg now.

(** The loop of [prune] over the active messages. *)
Fixpoint pruneLoop (s : S) (st : PStore) (l : list nat) (now : Time) : result (S * PStore) :=
  match l with
  | [] => Ok (s, st)
  | a :: l =>
      m ← ps_read st a;
      if clearPartitionThreshold <=? timeSub now (StorageTimestamp (mpm_data m)) then
        '(s, m, _) ← mpm_delete s m;
        let mpID := getMultiPartID (Sender (mpm_data m)) (MessageID (mpm_data m)) in
        let st := ps_write st a m in
        pruneLoop s (ps_setMulti st (delete mpID (multiParts st))) l now
      else pruneLoop s st l now
  end.

Definition Store_prune (s : S) (st : PStore) (now : Time) : result (S * PStore) :=
  pruneLoop s st (elements (activeParts st)) now.

Fixpoint loadActiveLoop (s : S) (st : PStore) (l : list (mpmData ID KR)) (now : Time) :
    result (S * PStore) :=
  match l with
  | [] => Ok (s, st)
  | d :: l =>
      '(s, mpm) ← loadOrCreateMultiPartMessage s (Sender d) (MessageID d) (ps_kv st) now;
      let '(st, a) := ps_alloc st mpm in
      loadActiveLoop s (ps_activate st a) l now
  end.

Definition loadActivePartitions (s : S) (st : PStore) (now : Time) : result (S * PStore) :=
  match kv_Get (ps_kv st) s activePartitions activePartitionVersion with
  | inl _ => Ok (s, st)
  | inr obj =>
      match json_Unmarshal (Data obj) with
      | None => Panic
      | Some l => loadActiveLoop s st l now
      end
  end.

Definition NewOrLoad (s : S) (v : kv) (now : Time) : result (S * PStore) :=
  v ← must (kv_Prefix v packagePrefix);
  '(s, st) ← loadActivePartitions s (mkPStore ∅ 0 ∅ ∅ v) now;
  Store_prune s st now.
End partition.
Arguments PStore ID KR : clear implicits.

(** ** The contract: reassembly by message

    What the store promises: for each sender and message ID, the parts received
    and, once the first part is there, the description it carries; a message is
    delivered when every part it announces is present, and then forgotten. *)

Record header := mkHeader {
  h_num : Z;
  h_sent : Time;
  h_stored : Time;
  h_type : Z;
}.

Record amsg (KR : Type) := mkAmsg {
  am_parts : gmap nat (list byte);
  am_hdr : option header;
  am_res : KR;
}.
Arguments mkAmsg {KR}.
Arguments am_parts {KR}.
Arguments am_hdr {KR}.
Arguments am_res {KR}.

(** A part that arrives: the first part carries the header and the residue. *)
Record arrival (KR : Type) := mkArrival {
  ar_num : nat;
  ar_part : list byte;
  ar_first : option (header * KR);
}.
Arguments mkArrival {KR}.
Arguments ar_num {KR}.
Arguments ar_part {KR}.
Arguments ar_first {KR}.

Definition am_add {KR} (m : amsg KR) (e : arrival KR) : amsg KR :=
  mkAmsg (<[ar_num e := ar_part e]> (am_parts m))
    (match ar_first e with Some (h, _) => Some h | None => am_hdr m end)
    (match ar_first e with Some (_, r) => r | None => am_res m end).

(** Every part announced is present. *)
Definition am_complete {KR} (m : amsg KR) : option header :=
  h ← am_hdr m;
  if forallb (fun i => bool_decide (is_Some (am_parts m !! i))) (seq 0 (Z.to_nat (h_num h)))
  then Some h else None.

Definition am_payload {KR} (m : amsg KR) (h : header) : list byte :=
  concat ((fun i => default [] (am_parts m !! i)) <$> seq 0 (Z.to_nat (h_num h))).

Section contract.
Context {ID KR MID : Type} `{NetID ID} `{E2ECrypto KR MID}.

Abbreviation key := (ID * Z)%type.

Definition am_empty : amsg KR := mkAmsg ∅ None zeroKeyResidue.

Definition am_message (k : key) (m : amsg KR) (h : header) (fp : list byte) :
    receiveMessage ID MID * KR :=
  (mkReceiveMessage (am_payload m h) (h_type h) k.1 (h_sent h)
     (if (length fp =? 0)%nat then zeroMessageID else NewMessageID fp k.2), am_res m).

Definition reassemble (A : gmap key (amsg KR)) (k : key) (e : arrival KR) (fp : list byte) :
    gmap key (amsg KR) * option (receiveMessage ID MID * KR) :=
  let m := am_add (default am_empty (A !! k)) e in
  match am_complete m with
  | Some h => (delete k A, Some (am_message k m h fp))
  | None => (<[k := m]> A, None)
  end.
End contract.

(** ** What storage holds for one message *)

Lemma partKey_no_sep i : strContains PrefixSeparator (makeMultiPartMessagePartKey i) = false.
Proof.
  unfold makeMultiPartMessagePartKey. rewrite chars_no_sep_app. simpl.
  apply strContains_chars, pretty_no_sep.
Qed.

Lemma partKey_inj i j :
  makeMultiPartMessagePartKey i = makeMultiPartMessagePartKey j -> i = j.
Proof.
  unfold makeMultiPartMessagePartKey. intros Heq.
  apply (inj (String.append _)) in Heq. by apply (inj pretty) in Heq.
Qed.

Section keyKV.
Context {ID : Type} `{NetIDLaws ID}.

(** The handle of one message's storage. *)
Definition keyKV (v : kv) (k : ID * Z) : result kv :=
  v ← must (kv_Prefix v (MakePartnerPrefix k.1));
  must (kv_Prefix v (makeMultiPartMessagePrefix k.2)).

Lemma keyKV_Ok v k vk : keyKV v k = Ok vk ->
  exists v1, kv_Prefix v (MakePartnerPrefix k.1) = Ok v1 /\
    kv_Prefix v1 (makeMultiPartMessagePrefix k.2) = Ok vk.
Proof.
  unfold keyKV. intros Hk. apply bind_Ok in Hk as (v1 & H1 & H2).
  apply (proj1 (must_Ok _ _)) in H1, H2. eauto.
Qed.

Lemma keyKV_handle v k vk : kv_handle v -> keyKV v k = Ok vk -> kv_handle vk.
Proof. intros Hv (v1 & H1 & H2)%keyKV_Ok. by do 2 (econstructor; [|done]). Qed.

Lemma keyKV_prefix v k vk : keyKV v k = Ok vk ->
  chars (prefix vk) = chars (prefix v) ++ chars (MakePartnerPrefix k.1) ++
    PrefixSeparator :: chars (makeMultiPartMessagePrefix k.2) ++ [PrefixSeparator] /\
  PrefixSeparator ∉ chars (MakePartnerPrefix k.1) /\
  PrefixSeparator ∉ chars (makeMultiPartMessagePrefix k.2).
Proof.
  intros (v1 & [Hn1 Hp1]%kv_Prefix_Ok & [Hn2 Hp2]%kv_Prefix_Ok)%keyKV_Ok.
  rewrite <- !strContains_chars. split; [|done].
  rewrite Hp2, Hp1, !chars_app, <- !app_assoc. done.
Qed.

Lemma keyKV_inj v k k' vk vk' :
  keyKV v k = Ok vk -> keyKV v k' = Ok vk' -> prefix vk = prefix vk' -> k = k'.
Proof.
  intros (Hk & Hn1 & Hn2)%keyKV_prefix (Hk' & Hn1' & Hn2')%keyKV_prefix Heq.
  rewrite Heq, Hk' in Hk. apply app_inv_head in Hk.
  apply first_separator_inj in Hk as [Hp Hk]; [|done..].
  apply app_inj_tail in Hk as [Hm _]. apply chars_inj in Hp, Hm.
  unfold MakePartnerPrefix in Hp. apply (inj (String.append _)), id_String_inj in Hp.
  unfold makeMultiPartMessagePrefix in Hm.
  apply (inj (String.append _)), (inj pretty) in Hm. destruct k, k'. simpl in *. congruence.
Qed.

Lemma keyKV_prefix_ne v k vk : keyKV v k = Ok vk -> prefix vk ≠ prefix v.
Proof.
  intros (Hk & _ & _)%keyKV_prefix Heq. apply (f_equal length) in Hk.
  rewrite Heq, !length_app in Hk. simpl in Hk. rewrite !length_app in Hk. simpl in Hk. lia.
Qed.
End keyKV.

(** ** The representation of a message *)

Definition time_wf (t : Time) : Prop := zeroTime <= t < 253402300800 * 1000000000.

Record data_wf {ID KR} (d : mpmData ID KR) : Prop := {
  wf_mid : is_u 64 (MessageID d);
  wf_num : is_u 8 (NumParts d);
  wf_present : is_u 8 (PresentParts d);
  wf_sent : time_wf (SenderTimestamp d);
  wf_stored : time_wf (StorageTimestamp d);
  wf_type : is_u 32 (MessageType d);
}.

(** JSON can carry the fields of a message whose values are in range. *)
Class MpmJson (ID KR : Type) `{JsonCodec (mpmData ID KR)} : Prop :=
  mpm_json_ok : forall d : mpmData ID KR, data_wf d -> json_ok d.

Section representation.
Context {ID KR MID : Type} `{NetIDLaws ID} `{E2ECrypto KR MID}.
Context {S : Type} `{EKVLaws S} `{!EKVReliable S}.
Context `{JsonCodec (mpmData ID KR)} `{!MpmJson ID KR} `{JsonCodec (list (mpmData ID KR))}.

Abbreviation key := (ID * Z)%type.
Abbreviation mpm_t := (multiPartMessage ID KR).

(** The stored fields of an abstract message. *)
Definition data_of (k : key) (m : amsg KR) : mpmData ID KR :=
  let h := default (mkHeader 0 zeroTime zeroTime 0) (am_hdr m) in
  mkMpmData k.1 k.2 (h_num h) (Z.of_nat (size (am_parts m))) (h_sent h) (h_stored h) (h_type h)
    (am_res m).

(** The message [k] has [n] parts. *)
Record amsg_ok (n : Z) (k : key) (m : amsg KR) : Prop := {
  am_range : 1 <= n <= 255;
  am_mid : is_u 64 k.2;
  am_nums i : is_Some (am_parts m !! i) -> Z.of_nat i < n;
  am_hdr_ok h : am_hdr m = Some h ->
    h_num h = n /\ time_wf (h_sent h) /\ time_wf (h_stored h) /\ is_u 32 (h_type h);
}.

Definition with_res (m : amsg KR) (r : KR) : amsg KR := mkAmsg (am_parts m) (am_hdr m) r.

(** Storage holds the description and every part; [r] is the stored residue. *)
Definition disk_rep (s : S) (vk : kv) (k : key) (m : amsg KR) (r : KR) : Prop :=
  (exists o, kv_Get vk s multiPartKey currentMultiPartMessageVersion = inr o /\
     json_Unmarshal (Data o) = Some (data_of k (with_res m r))) /\
  (forall i p, am_parts m !! i = Some p -> loadPart s vk (Z.of_nat i) = inr p).

(** Memory holds the description and some of the parts. *)
Record ram_rep (n : Z) (vk : kv) (k : key) (m : amsg KR) (mpm : mpm_t) : Prop := {
  ram_data : mpm_data mpm = data_of k m;
  ram_kv : mpm_kv mpm = vk;
  ram_parts i p : parts mpm !! i = Some (Some p) -> am_parts m !! i = Some p;
  ram_len : Z.of_nat (length (parts mpm)) <= n;
}.

Lemma orPanic_Set (s : S) v key o :
  exists s', kv_Set v s key o = (s', None) /\ orPanic (kv_Set v s key o) = Ok s'.
Proof.
  unfold kv_Set. pose proof (ekv_set_ok s (kv_makeKey v key (Version o)) o) as Hok.
  destruct (ekv_Set _ _ _) as [s' e]. simpl in Hok. subst e. by exists s'.
Qed.

Lemma orPanic_Delete (s : S) v key n :
  exists s', kv_Delete v s key n = (s', None) /\ orPanic (kv_Delete v s key n) = Ok s'.
Proof.
  unfold kv_Delete. pose proof (ekv_delete_ok s (kv_makeKey v key n)) as Hok.
  destruct (ekv_Delete _ _) as [s' e]. simpl in Hok. subst e. by exists s'.
Qed.

Lemma am_size n k m : amsg_ok n k m -> Z.of_nat (size (am_parts m)) <= n.
Proof.
  intros Hm. pose proof (am_range _ _ _ Hm).
  assert (size (am_parts m) = size (dom (am_parts m))) as -> by (by rewrite size_dom).
  assert (dom (am_parts m) ⊆ list_to_set (seq 0 (Z.to_nat n))) as Hsub.
  { intros i Hi. apply elem_of_dom in Hi. apply (am_nums _ _ _ Hm) in Hi.
    apply elem_of_list_to_set, elem_of_seq. lia. }
  apply subseteq_size in Hsub. rewrite size_list_to_set in Hsub by apply NoDup_seq.
  rewrite length_seq in Hsub. lia.
Qed.

Lemma zeroTime_wf : time_wf zeroTime.
Proof. unfold time_wf, zeroTime. lia. Qed.

Lemma data_of_wf n k m r : amsg_ok n k m -> data_wf (data_of k (with_res m r)).
Proof.
  intros Hm. pose proof (am_size _ _ _ Hm). pose proof (am_range _ _ _ Hm).
  destruct m as [ps [h|] res]; simpl in *.
  - destruct (am_hdr_ok _ _ _ Hm h eq_refl) as (Hn & Hs & Ht & Hty).
    split; simpl; first [done|exact (am_mid _ _ _ Hm)|unfold is_u; lia].
  - split; simpl; first [exact zeroTime_wf|exact (am_mid _ _ _ Hm)|unfold is_u; lia].
Qed.

(** Saving the fields of [m]. *)
Lemma save_disk n (s : S) vk k m mpm now :
  amsg_ok n k m -> mpm_data mpm = data_of k m -> mpm_kv mpm = vk -> kv_handle vk ->
  (forall i p, am_parts m !! i = Some p -> loadPart s vk (Z.of_nat i) = inr p) ->
  exists s', orPanic (mpm_save s mpm now) = Ok s' /\ disk_rep s' vk k m (am_res m) /\
    confined (prefix vk) s s'.
Proof.
  intros Hm Hd Hkv Hvk Hparts. unfold mpm_save. rewrite Hd, Hkv.
  destruct (orPanic_Set s vk multiPartKey (mkObject currentMultiPartMessageVersion now
    (json_Marshal (data_of k m)))) as (s' & Hset & ->).
  exists s'. split; [done|]. split.
  2: { by apply (kv_Set_confined _ _ _ _ _ _ Hset). }
  assert (with_res m (am_res m) = m) as Hr by by destruct m. split.
  - apply kv_get_set_eq in Hset. simpl in Hset. eexists. split; [apply Hset|]. simpl.
    rewrite Hr. apply json_roundtrip, mpm_json_ok. rewrite <- Hr. by eapply data_of_wf.
  - intros i p Hi. unfold loadPart.
    change currentMultiPartMessageVersion with (Version (mkObject currentMultiPartMessageVersion now
      (json_Marshal (data_of k m)))). erewrite kv_get_set_key; [by apply Hparts|done|done].
Qed.

(** *** Adding a part *)

(** What [Add] and [AddFirst] have in common: [d] is the new description. *)
Definition mpm_put (s : S) (m : mpm_t) (d : mpmData ID KR) (partNumber : Z) (part : list byte)
    (now : Time) : result (S * mpm_t) :=
  let n := Z.of_nat (length (parts m)) in
  let ps := if n <=? partNumber then extendParts (parts m) (partNumber - n + 1) else parts m in
  ps ← store_at ps partNumber (Some part);
  let m := mkMpm d ps (mpm_kv m) in
  s ← orPanic (savePart s (mpm_kv m) partNumber part now);
  s ← orPanic (mpm_save s m now);
  Ok (s, m).

Lemma savePart_ok (s : S) vk i p now :
  kv_handle vk ->
  exists s', orPanic (savePart s vk i p now) = Ok s' /\ loadPart s' vk i = inr p /\
    (forall j, j ≠ i -> loadPart s' vk j = loadPart s vk j) /\ confined (prefix vk) s s'.
Proof.
  intros Hvk. unfold savePart.
  destruct (orPanic_Set s vk (makeMultiPartMessagePartKey i)
    (mkObject currentMultiPartMessageVersion now p)) as (s' & Hset & ->).
  exists s'. split; [done|]. split_and!.
  - unfold loadPart. apply kv_get_set_eq in Hset. simpl in Hset. by rewrite Hset.
  - intros j Hj. unfold loadPart.
    change currentMultiPartMessageVersion with
      (Version (mkObject currentMultiPartMessageVersion now p)).
    erewrite kv_get_set_key; [done|done|]. by intros Heq%partKey_inj.
  - apply (kv_Set_confined _ _ _ _ _ _ Hset Hvk); [apply partKey_no_sep|done].
Qed.

(** The slots after a part has been put in its place. *)
Definition put_slots (ps : list (option (list byte))) (i : nat) (p : list byte) :=
  <[i := Some p]> (if (length ps <=? i)%nat then ps ++ replicate (i - length ps + 1) None else ps).

Lemma put_slots_spec ps i p :
  store_at (if Z.of_nat (length ps) <=? Z.of_nat i
            then extendParts ps (Z.of_nat i - Z.of_nat (length ps) + 1) else ps) (Z.of_nat i) (Some p)
  = Ok (put_slots ps i p) /\
  length (put_slots ps i p) = Nat.max (length ps) (i + 1) /\
  (forall j q, put_slots ps i p !! j = Some (Some q) ->
     if decide (j = i) then q = p else ps !! j = Some (Some q)).
Proof.
  unfold put_slots, extendParts.
  replace (Z.to_nat (Z.of_nat i - Z.of_nat (length ps) + 1)) with (i + 1 - length ps)%nat by lia.
  destruct (Z.leb_spec (Z.of_nat (length ps)) (Z.of_nat i)), (Nat.leb_spec (length ps) i); try lia.
  - replace (i - length ps + 1)%nat with (i + 1 - length ps)%nat by lia.
    rewrite length_insert, length_app, length_replicate. split_and!.
    + apply store_at_nat. rewrite length_app, length_replicate. lia.
    + lia.
    + intros j q. destruct (decide (j = i)) as [->|Hj].
      * rewrite list_lookup_insert_eq by (rewrite length_app, length_replicate; lia). congruence.
      * rewrite list_lookup_insert_ne by done. intros [?|[? Hr]]%lookup_app_Some; [done|].
        by apply lookup_replicate in Hr as [? _].
  - rewrite length_insert. split_and!; [apply store_at_nat; lia|lia|].
    intros j q. destruct (decide (j = i)) as [->|Hj].
    + rewrite list_lookup_insert_eq by lia. congruence.
    + by rewrite list_lookup_insert_ne by done.
Qed.

Lemma put_spec n (s : S) vk k m m1 mpm i p now :
  amsg_ok n k m1 -> am_parts m1 = <[i := p]> (am_parts m) -> am_parts m !! i = None ->
  ram_rep n vk k m mpm -> kv_handle vk ->
  (forall j q, am_parts m !! j = Some q -> loadPart s vk (Z.of_nat j) = inr q) ->
  exists s' mpm', mpm_put s mpm (data_of k m1) (Z.of_nat i) p now = Ok (s', mpm') /\
    ram_rep n vk k m1 mpm' /\ disk_rep s' vk k m1 (am_res m1) /\ confined (prefix vk) s s'.
Proof.
  intros Hm1 Hparts Hfresh [Hd Hkv Hps Hlen] Hvk Hdisk. unfold mpm_put.
  destruct (put_slots_spec (parts mpm) i p) as (-> & Hl & Hlk). cbn [mbind result_bind mpm_kv].
  rewrite Hkv. destruct (savePart_ok s vk (Z.of_nat i) p now Hvk) as (s1 & -> & Hi & Hj & Hc1).
  cbn [mbind result_bind].
  assert (Z.of_nat i < n) as Hin.
  { apply (am_nums _ _ _ Hm1). rewrite Hparts, lookup_insert_eq. eauto. }
  destruct (save_disk n s1 vk k m1 (mkMpm (data_of k m1) (put_slots (parts mpm) i p) vk) now)
    as (s2 & -> & Hdr & Hc2); try done.
  { intros j q. rewrite Hparts, lookup_insert_Some. intros [[<- <-]|[Hne Hq]]; [done|].
    rewrite Hj by lia. by apply Hdisk. }
  cbn [mbind result_bind]. do 2 eexists. split; [done|]. split; [|split; [done|by eapply confined_trans]].
  split; simpl; [done|done| |lia].
  intros j q Hq. apply Hlk in Hq. rewrite Hparts. case_decide as Hji.
  - subst. by rewrite lookup_insert_eq.
  - rewrite lookup_insert_ne by done. by apply Hps.
Qed.

(** *** Completion *)

Lemma deletePart_ok (s : S) vk i :
  kv_handle vk ->
  exists s', orPanic (deletePart s vk i) = Ok s' /\
    (forall j, j ≠ i -> loadPart s' vk j = loadPart s vk j) /\ confined (prefix vk) s s'.
Proof.
  intros Hvk. unfold deletePart.
  destruct (orPanic_Delete s vk (makeMultiPartMessagePartKey i) currentMultiPartMessageVersion)
    as (s' & Hdel & ->).
  exists s'. split; [done|]. split.
  - intros j Hj. unfold loadPart. erewrite kv_get_delete_ne'; [done|done|].
    unfold kv_makeKey. intros Heq. apply (inj (String.append (prefix vk))) in Heq.
    apply key_version_inj in Heq as [Heq _]. by apply partKey_inj in Heq.
  - apply (kv_Delete_confined _ _ _ _ _ _ Hdel Hvk); [apply partKey_no_sep|done].
Qed.

Lemma deleteLoop_spec qs (s : S) vk (d : mpmData ID KR) pre rest len :
  kv_handle vk -> length rest = length qs ->
  (forall j x, rest !! j = Some (Some x) -> qs !! j = Some x) ->
  (forall j q, qs !! j = Some q -> loadPart s vk (Z.of_nat (length pre + j)) = inr q) ->
  exists s', mpm_deleteLoop (length qs) (Z.of_nat (length pre)) s (mkMpm d (pre ++ rest) vk) len
      = Ok (s', mkMpm d (pre ++ (Some <$> qs)) vk, len + Z.of_nat (length (concat qs))) /\
    confined (prefix vk) s s'.
Proof.
  intros Hvk. revert s pre rest len. induction qs as [|q qs IH]; intros s pre rest len Hlen Hram Hdisk.
  { destruct rest; [|done]. exists s. simpl. rewrite Z.add_0_r. by split; [|apply confined_refl]. }
  destruct rest as [|x rest]; [done|]. injection Hlen as Hlen. cbn [length mpm_deleteLoop concat parts].
  rewrite (index_nat _ _ x) by (by apply list_lookup_middle). cbn [mbind result_bind].
  assert (forall s0 len0, (forall j q', qs !! j = Some q' ->
      loadPart s0 vk (Z.of_nat (length pre + Datatypes.S j)) = inr q') -> exists s',
    mpm_deleteLoop (length qs) (Z.of_nat (length pre) + 1) s0
      (mkMpm d (pre ++ Some q :: rest) vk) len0
    = Ok (s', mkMpm d (pre ++ Some q :: (Some <$> qs)) vk, len0 + Z.of_nat (length (concat qs))) /\
    confined (prefix vk) s0 s') as Hnext.
  { intros s0 len0 Hd0. destruct (IH s0 (pre ++ [Some q]) rest len0) as (s' & Hrun & Hc); [done| | |].
    - intros j y Hy. by apply (Hram (Datatypes.S j)).
    - intros j q' Hq'. rewrite length_app. simpl. rewrite <- (Hd0 j q' Hq'). do 2 f_equal. lia.
    - rewrite length_app, <- !app_assoc in Hrun. simpl in Hrun.
      replace (Z.of_nat (length pre + 1)) with (Z.of_nat (length pre) + 1) in Hrun by lia.
      exists s'. by split. }
  destruct x as [b|].
  - assert (b = q) as -> by (specialize (Hram 0%nat b eq_refl); simpl in Hram; congruence).
    destruct (Hnext s (len + Z.of_nat (length q))) as (s' & -> & Hc).
    { intros j q' Hq'. by apply (Hdisk (Datatypes.S j)). }
    exists s'. split; [|done]. by rewrite length_app, Nat2Z.inj_add, Z.add_assoc.
  - cbn [mpm_kv]. pose proof (Hdisk 0%nat q eq_refl) as H0'. rewrite Nat.add_0_r in H0'. rewrite H0'.
    rewrite store_at_nat by (rewrite length_app; simpl; lia). cbn [mbind result_bind].
    destruct (deletePart_ok s vk (Z.of_nat (length pre)) Hvk) as (s1 & -> & Hj & Hc1).
    cbn [mbind result_bind]. rewrite insert_app_r_alt by lia. rewrite Nat.sub_diag. cbn [insert list_insert mpm_data].
    destruct (Hnext s1 (len + Z.of_nat (length q))) as (s' & -> & Hc).
    { intros j q' Hq'. rewrite Hj by lia. by apply (Hdisk (Datatypes.S j)). }
    exists s'. split; [|by eapply confined_trans]. by rewrite length_app, Nat2Z.inj_add, Z.add_assoc.
Qed.

Lemma reconstruct_spec qs pre :
  reconstructLoop (Some <$> qs) (Z.of_nat (length pre)) (pre ++ replicate (length (concat qs)) x00)
  = Ok (pre ++ concat qs).
Proof.
  revert pre. induction qs as [|q qs IH]; intros pre; [done|].
  rewrite fmap_cons. cbn [reconstructLoop concat].
  change (default [] (Some q)) with q. unfold reslice, s_cap, whole. cbn [s_off s_len].
  rewrite !length_app, length_replicate.
  set (c := (_ && _ && _)). assert (c = true) as ->
    by (subst c; rewrite !andb_true_iff, !Z.leb_le; lia).
  cbn [mbind result_bind]. unfold scopy. cbn [s_off s_len].
  replace (Z.to_nat (Z.of_nat (length pre) + Z.of_nat (length q) - Z.of_nat (length pre)))
    with (length q) by lia.
  rewrite firstn_all, Nat2Z.id. unfold splice.
  rewrite Nat.add_0_l, take_app_length. rewrite drop_app_ge by lia.
  replace (length pre + length q - length pre)%nat with (length q) by lia.
  rewrite drop_replicate. replace (length q + length (concat qs) - length q)%nat with (length (concat qs)) by lia.
  specialize (IH (pre ++ q)). rewrite length_app, <- !app_assoc in IH.
  by replace (Z.of_nat (length pre) + Z.of_nat (length q)) with (Z.of_nat (length pre + length q)) by lia.
Qed.

(** All parts are present exactly when their number is the one announced. *)
Lemma all_present_size n k m :
  amsg_ok n k m ->
  forallb (fun i => bool_decide (is_Some (am_parts m !! i))) (seq 0 (Z.to_nat n)) =
    (n =? Z.of_nat (size (am_parts m))).
Proof.
  intros Hm. pose proof (am_size _ _ _ Hm) as Hle. pose proof (am_range _ _ _ Hm).
  rewrite <- size_dom in *. set (D := dom (am_parts m)) in *.
  assert (D ⊆ list_to_set (seq 0 (Z.to_nat n))) as Hsub.
  { intros i Hi. apply elem_of_dom in Hi. apply (am_nums _ _ _ Hm) in Hi.
    apply elem_of_list_to_set, elem_of_seq. lia. }
  assert (size (list_to_set (seq 0 (Z.to_nat n)) : gset nat) = Z.to_nat n) as Hsz.
  { by rewrite size_list_to_set, length_seq by apply NoDup_seq. }
  apply eq_true_iff_eq. rewrite forallb_forall, Z.eqb_eq. split.
  - intros Hall.
    assert (list_to_set (seq 0 (Z.to_nat n)) ⊆ D) as Hsub'.
    { intros i [_ Hi]%elem_of_list_to_set%elem_of_seq. apply elem_of_dom.
      apply (bool_decide_unpack _). apply Is_true_true, Hall, in_seq. lia. }
    apply subseteq_size in Hsub'. lia.
  - intros Heq i Hi. apply bool_decide_eq_true, elem_of_dom. fold D.
    assert (D ≡ list_to_set (seq 0 (Z.to_nat n))) as -> by (apply set_subseteq_size_equiv; [done|lia]).
    apply elem_of_list_to_set. by apply list_elem_of_In.
Qed.

Lemma am_complete_size n k m :
  amsg_ok n k m ->
  am_complete m = h ← am_hdr m; if n =? Z.of_nat (size (am_parts m)) then Some h else None.
Proof.
  intros Hm. unfold am_complete. destruct (am_hdr m) as [h|] eqn:Hh; [|done]. simpl.
  destruct (am_hdr_ok _ _ _ Hm h Hh) as [-> _]. by rewrite (all_present_size n k m).
Qed.

Lemma am_complete_Some n k m h :
  amsg_ok n k m -> am_complete m = Some h ->
  am_hdr m = Some h /\ h_num h = n /\ Z.of_nat (size (am_parts m)) = n /\
  forall i, (i < Z.to_nat n)%nat -> is_Some (am_parts m !! i).
Proof.
  intros Hm Hc. rewrite (am_complete_size n k m Hm) in Hc.
  destruct (am_hdr m) as [h'|] eqn:Hh; [|done]. simpl in Hc. case_match eqn:Hn; [|done].
  injection Hc as ->. destruct (am_hdr_ok _ _ _ Hm h Hh) as [Hnum _].
  pose proof Hn as Hall. apply Z.eqb_eq in Hn. split_and!; [done|done|lia|].
  intros i Hi. rewrite <- (all_present_size n k m Hm), forallb_forall in Hall.
  apply (bool_decide_unpack _). apply Is_true_true, Hall, in_seq. lia.
Qed.

(** The parts of a complete message. *)
Definition am_list (m : amsg KR) (n : Z) : list (list byte) :=
  (fun i => default [] (am_parts m !! i)) <$> seq 0 (Z.to_nat n).

Lemma length_am_list m n : length (am_list m n) = Z.to_nat n.
Proof. unfold am_list. by rewrite length_fmap, length_seq. Qed.

Lemma am_list_lookup m n j q :
  (j < Z.to_nat n)%nat -> am_parts m !! j = Some q -> am_list m n !! j = Some q.
Proof.
  intros Hj Hq. unfold am_list. rewrite list_lookup_fmap, lookup_seq_lt by done. simpl. by rewrite Hq.
Qed.

Lemma IsComplete_none n (s : S) vk k m mpm fp :
  amsg_ok n k m -> ram_rep n vk k m mpm -> am_complete m = None ->
  mpm_IsComplete s mpm fp = Ok (s, mpm, None).
Proof.
  intros Hm [Hd _ _ _] Hc. unfold mpm_IsComplete. rewrite Hd.
  rewrite (am_complete_size n k m Hm) in Hc. unfold data_of.
  destruct (am_hdr m) as [h|] eqn:Hh; simpl in *; [|done].
  destruct (am_hdr_ok _ _ _ Hm h Hh) as [-> _]. case_match; [done|]. simpl. by rewrite orb_true_r.
Qed.

Lemma IsComplete_some n (s : S) vk k m mpm h fp :
  amsg_ok n k m -> ram_rep n vk k m mpm -> am_complete m = Some h -> kv_handle vk ->
  (forall j q, am_parts m !! j = Some q -> loadPart s vk (Z.of_nat j) = inr q) ->
  exists s' mpm', mpm_IsComplete s mpm fp = Ok (s', mpm', Some (am_message k m h fp).1) /\
    mpm_data mpm' = data_of k m /\ confined (prefix vk) s s' /\
    exists e, kv_Get vk s' multiPartKey currentMultiPartMessageVersion = inl e /\ ekv_Exists S e = false.
Proof.
  intros Hm [Hd Hkv Hram Hlen] Hc Hvk Hdisk.
  destruct (am_complete_Some n k m h Hm Hc) as (Hh & Hn & Hsz & Hall).
  pose proof (am_range _ _ _ Hm) as Hr.
  unfold mpm_IsComplete. rewrite Hd, Hkv. unfold data_of. rewrite Hh.
  cbn [default from_option id NumParts PresentParts MessageID MessageType Sender SenderTimestamp].
  rewrite Hsz, Hn, Z.eqb_refl, (proj2 (Z.eqb_neq n 0)) by lia. cbn [negb orb].
  set (ps := if _ <? _ then _ else _).
  assert (length ps = Z.to_nat n) as Hps.
  { subst ps. case_match eqn:Hlt; unfold extendParts; [|apply Z.ltb_ge in Hlt; lia].
    rewrite length_app, length_replicate. lia. }
  assert (forall j x, ps !! j = Some (Some x) -> am_list m n !! j = Some x) as Hpl.
  { intros j x Hj. pose proof (lookup_lt_Some _ _ _ Hj). apply am_list_lookup; [lia|].
    apply Hram. subst ps. case_match; [|done]. unfold extendParts in Hj.
    apply lookup_app_Some in Hj as [?|[_ Hj]]; [done|]. by apply lookup_replicate in Hj as [? _]. }
  unfold mpm_delete. cbn [mpm_data NumParts].
  destruct (deleteLoop_spec (am_list m n) s vk
    (mkMpmData k.1 k.2 n n (h_sent h) (h_stored h) (h_type h) (am_res m)) [] ps 0) as (s1 & Hrun & Hc1);
    [done|by rewrite length_am_list|done| |].
  { intros j q Hj. pose proof (lookup_lt_Some _ _ _ Hj) as Hjl. rewrite length_am_list in Hjl.
    destruct (Hall j Hjl) as [q' Hq']. rewrite (am_list_lookup _ _ _ _ Hjl Hq') in Hj.
    simplify_eq. by apply Hdisk. }
  rewrite length_am_list in Hrun. cbn [length app] in Hrun.
  change (Z.of_nat 0) with 0 in Hrun. rewrite Hrun. cbn [mbind result_bind mpm_kv app].
  destruct (orPanic_Delete s1 vk multiPartKey currentMultiPartMessageVersion) as (s2 & Hdel & ->).
  cbn [mbind result_bind parts]. rewrite Z.add_0_l, Nat2Z.id.
  pose proof (reconstruct_spec (am_list m n) []) as Hrec. rewrite !app_nil_l in Hrec.
  cbn [length] in Hrec. change (Z.of_nat 0) with 0 in Hrec. rewrite Hrec.
  cbn [mbind result_bind]. do 2 eexists. split; [|split; [|split]].
  - unfold am_message, am_payload, am_list. rewrite Hn. done.
  - done.
  - eapply confined_trans; [done|]. by apply (kv_Delete_confined _ _ _ _ _ _ Hdel).
  - by apply kv_get_delete_eq in Hdel.
Qed.
End representation.

(** ** The store refines the contract *)

Section refinement.
Context {ID KR MID : Type} `{NetIDLaws ID} `{E2ECrypto KR MID}.
Context {S : Type} `{EKVLaws S} `{!EKVReliable S}.
Context `{JsonCodec (mpmData ID KR)} `{!MpmJson ID KR} `{JsonCodec (list (mpmData ID KR))}.

Abbreviation key := (ID * Z)%type.
Abbreviation mpm_t := (multiPartMessage ID KR).

Definition mpid (k : key) : list byte := getMultiPartID k.1 k.2.

(** The messages in play: [ks], of [N k] parts each, with distinct hashes, under
    a handle [v] that has a place for each. *)
Record setting (v : kv) (ks : list key) (N : key -> Z) : Prop := {
  set_handle : kv_handle v;
  set_place k : k ∈ ks -> exists vk, keyKV v k = Ok vk;
  set_hash k k' : k ∈ ks -> k' ∈ ks -> mpid k = mpid k' -> k = k';
  set_num k : k ∈ ks -> 1 <= N k <= 255 /\ is_u 64 k.2;
}.

Context (v : kv) (ks : list key) (N : key -> Z) (Hset : setting v ks N).

(** No trace of a message in storage. *)
Definition disk_absent (s : S) (vk : kv) : Prop :=
  exists e, kv_Get vk s multiPartKey currentMultiPartMessageVersion = inl e /\ ekv_Exists S e = false.

(** The state of one message: [om] is its abstract state. *)
Definition key_rep (s : S) (st : PStore ID KR) (k : key) (vk : kv) (om : option (amsg KR)) : Prop :=
  match om with
  | None => multiParts st !! mpid k = None /\ disk_absent s vk
  | Some m =>
      amsg_ok (N k) k m /\
      match multiParts st !! mpid k with
      | None => disk_rep s vk k m (am_res m)
      | Some a => (exists r, disk_rep s vk k m r) /\
                  exists mpm, ps_heap st !! a = Some mpm /\ ram_rep (N k) vk k m mpm
      end
  end.

Record ps_inv (s : S) (st : PStore ID KR) (A : gmap key (amsg KR)) : Prop := {
  inv_kv : ps_kv st = v;
  inv_key k vk : k ∈ ks -> keyKV v k = Ok vk -> key_rep s st k vk (A !! k);
  inv_next mid a : multiParts st !! mid = Some a -> (a < ps_next st)%nat;
}.

Lemma disk_frame s s' p k vk :
  confined p s s' -> k ∈ ks -> keyKV v k = Ok vk -> prefix vk ≠ p ->
  kv_Get vk s' multiPartKey currentMultiPartMessageVersion
    = kv_Get vk s multiPartKey currentMultiPartMessageVersion /\
  forall j, loadPart s' vk j = loadPart s vk j.
Proof.
  intros Hc Hk Hvk Hp. pose proof (keyKV_handle _ _ _ (set_handle _ _ _ Hset) Hvk) as Hh. split.
  - by apply Hc.
  - intros j. unfold loadPart. rewrite Hc; [done|done|apply partKey_no_sep|done|done].
Qed.

Lemma disk_rep_frame s s' vk k m r :
  kv_Get vk s' multiPartKey currentMultiPartMessageVersion
    = kv_Get vk s multiPartKey currentMultiPartMessageVersion ->
  (forall j, loadPart s' vk j = loadPart s vk j) ->
  disk_rep s vk k m r -> disk_rep s' vk k m r.
Proof.
  intros Hg Hl [(o & Ho & Hu) Hp]. split.
  - exists o. by rewrite Hg.
  - intros i p Hi. rewrite Hl. by apply Hp.
Qed.

(** The state of a message does not change with storage under another prefix
    nor with the rest of the store. *)
Lemma key_rep_frame s s' st st' k vk p om :
  confined p s s' -> k ∈ ks -> keyKV v k = Ok vk -> prefix vk ≠ p ->
  multiParts st' !! mpid k = multiParts st !! mpid k ->
  (forall a, multiParts st !! mpid k = Some a -> ps_heap st' !! a = ps_heap st !! a) ->
  key_rep s st k vk om -> key_rep s' st' k vk om.
Proof.
  intros Hc Hk Hvk Hp Hm Hheap Hr. destruct (disk_frame s s' p k vk Hc Hk Hvk Hp) as [Hg Hl].
  unfold key_rep in *. rewrite Hm. destruct om as [m|].
  - destruct Hr as [Hok Hr]. split; [done|]. destruct (multiParts st !! mpid k) as [a|] eqn:Ha.
    + destruct Hr as [[r Hd] Hr]. split; [exists r; by eapply disk_rep_frame|].
      by rewrite Hheap by done.
    + by eapply disk_rep_frame.
  - destruct Hr as [Hn (e & He & Hex)]. split; [done|]. exists e. by rewrite Hg.
Qed.

(** A change confined to one message. *)
Lemma inv_update s st A k vk s' st' om :
  ps_inv s st A -> k ∈ ks -> keyKV v k = Ok vk -> confined (prefix vk) s s' -> ps_kv st' = v ->
  (forall k', k' ∈ ks -> k' ≠ k -> multiParts st' !! mpid k' = multiParts st !! mpid k') ->
  (forall k' a, k' ∈ ks -> k' ≠ k -> multiParts st !! mpid k' = Some a ->
     ps_heap st' !! a = ps_heap st !! a) ->
  (forall mid a, multiParts st' !! mid = Some a -> (a < ps_next st')%nat) ->
  key_rep s' st' k vk om ->
  ps_inv s' st' (partial_alter (fun _ => om) k A).
Proof.
  intros Hinv Hk Hvk Hc Hkv Hm Hheap Hnext Hrep. split; [done| |done].
  intros k' vk' Hk' Hvk'. destruct (decide (k' = k)) as [->|Hne].
  - rewrite lookup_partial_alter_eq. congruence.
  - rewrite lookup_partial_alter_ne by done.
    apply (key_rep_frame s s' st st' k' vk' (prefix vk)); try done.
    + intros Heq. apply Hne. by apply (keyKV_inj v k' k vk' vk).
    + by apply Hm.
    + intros a. by apply Hheap.
    + by apply (inv_key _ _ _ Hinv).
Qed.

(** A change of the active list. *)
Lemma inv_active s st A s' acts :
  ps_inv s st A -> confined (prefix v) s s' ->
  ps_inv s' (mkPStore (ps_heap st) (ps_next st) (multiParts st) acts (ps_kv st)) A.
Proof.
  intros Hinv Hc. split; simpl; [by apply (inv_kv _ _ _ Hinv)| |by apply (inv_next _ _ _ Hinv)].
  intros k vk Hk Hvk. apply (key_rep_frame s s' st _ k vk (prefix v)); try done.
  - by eapply keyKV_prefix_ne.
  - by apply (inv_key _ _ _ Hinv).
Qed.

(** A change of storage outside the messages' prefixes. *)
Lemma inv_frame s st A s' p :
  ps_inv s st A -> confined p s s' ->
  (forall k vk, k ∈ ks -> keyKV v k = Ok vk -> prefix vk ≠ p) -> ps_inv s' st A.
Proof.
  intros Hinv Hc Hp. split; [by apply (inv_kv _ _ _ Hinv)| |by apply (inv_next _ _ _ Hinv)].
  intros k vk Hk Hvk. apply (key_rep_frame s s' st _ k vk p); try done; [by apply (Hp k)|].
  by apply (inv_key _ _ _ Hinv).
Qed.

(** Two messages never share an object. *)
Lemma inv_disjoint s st A k k' a :
  ps_inv s st A -> k ∈ ks -> k' ∈ ks -> multiParts st !! mpid k = Some a ->
  multiParts st !! mpid k' = Some a -> k = k'.
Proof.
  intros Hinv Hk Hk' Ha Ha'.
  destruct (set_place _ _ _ Hset k Hk) as [vk Hvk], (set_place _ _ _ Hset k' Hk') as [vk' Hvk'].
  pose proof (inv_key _ _ _ Hinv k vk Hk Hvk) as Hr. pose proof (inv_key _ _ _ Hinv k' vk' Hk' Hvk') as Hr'.
  unfold key_rep in *. rewrite Ha in Hr. rewrite Ha' in Hr'.
  destruct (A !! k) as [m|]; [|by destruct Hr]. destruct (A !! k') as [m'|]; [|by destruct Hr'].
  destruct Hr as (_ & _ & mpm & Hmpm & [Hd _ _ _]). destruct Hr' as (_ & _ & mpm' & Hmpm' & [Hd' _ _ _]).
  simplify_eq. rewrite Hd in Hd'. unfold data_of in Hd'. injection Hd' as H1' H2' _ _ _ _ _ _.
  destruct k, k'. simpl in *. congruence.
Qed.

Lemma loadOrCreate_eq (s : S) k vk now :
  keyKV v k = Ok vk ->
  loadOrCreateMultiPartMessage s k.1 k.2 v now =
    match kv_Get vk s multiPartKey currentMultiPartMessageVersion with
    | inl e =>
        if negb (ekv_Exists S e) then
          s ← orPanic (mpm_save s (mkMpm (newMpmData k.1 k.2) [] vk) now);
          Ok (s, mkMpm (newMpmData k.1 k.2) [] vk)
        else Panic
    | inr obj =>
        match json_Unmarshal (Data obj) with
        | None => Panic
        | Some d => Ok (s, mkMpm d [] vk)
        end
    end.
Proof.
  intros (v1 & H1' & H2')%keyKV_Ok. unfold loadOrCreateMultiPartMessage. rewrite H1'.
  cbn [must mbind result_bind]. rewrite H2'. cbn [must mbind result_bind]. reflexivity.
Qed.

Lemma amsg_ok_empty k : k ∈ ks -> amsg_ok (N k) k am_empty.
Proof.
  intros Hk. destruct (set_num _ _ _ Hset k Hk). split; [done|done| |done].
  intros i [p Hp]. simpl in Hp. by rewrite lookup_empty in Hp.
Qed.

Lemma ram_rep_loaded (k : key) (m : amsg KR) vk :
  amsg_ok (N k) k m -> ram_rep (N k) vk k m (mkMpm (data_of k m) [] vk).
Proof.
  intros Hm. split; simpl; [done|done| |].
  - intros i p Hp. by rewrite lookup_nil in Hp.
  - pose proof (am_range _ _ _ Hm). lia.
Qed.

(** [loadOrCreate] on a message that is not in memory. *)
Lemma loadOrCreate_spec s st A k vk now :
  ps_inv s st A -> k ∈ ks -> keyKV v k = Ok vk -> multiParts st !! mpid k = None ->
  let m := default am_empty (A !! k) in
  exists s' mpm, loadOrCreateMultiPartMessage s k.1 k.2 v now = Ok (s', mpm) /\
    amsg_ok (N k) k m /\ ram_rep (N k) vk k m mpm /\ disk_rep s' vk k m (am_res m) /\
    confined (prefix vk) s s'.
Proof.
  intros Hinv Hk Hvk Hnone m. rewrite (loadOrCreate_eq s k vk now Hvk).
  pose proof (keyKV_handle _ _ _ (set_handle _ _ _ Hset) Hvk) as Hh.
  pose proof (inv_key _ _ _ Hinv k vk Hk Hvk) as Hr. subst m. unfold key_rep in Hr.
  destruct (A !! k) as [m|]; cbn [default from_option id].
  - destruct Hr as [Hok Hr]. rewrite Hnone in Hr. pose proof Hr as [(o & -> & Hu) _].
    assert (with_res m (am_res m) = m) as Hm by by destruct m. rewrite Hm in Hu. rewrite Hu.
    exists s, (mkMpm (data_of k m) [] vk). split_and!; first [done|by apply ram_rep_loaded|apply confined_refl].
  - destruct Hr as [_ (e & -> & ->)]. cbn [negb]. pose proof (amsg_ok_empty k Hk) as Hok.
    destruct (save_disk (N k) s vk k am_empty (mkMpm (newMpmData k.1 k.2) [] vk) now)
      as (s' & -> & Hd & Hc); try done.
    cbn [mbind result_bind]. do 2 eexists. split; [done|]. split_and!; try done.
    by apply (ram_rep_loaded k am_empty vk).
Qed.

(** What [load] gives: the object of the message, and nothing else changed. *)
Record loaded (s : S) (st : PStore ID KR) (k : key) (vk : kv) (m : amsg KR)
    (s1 : S) (st1 : PStore ID KR) (a : nat) (mpm : mpm_t) : Prop := {
  ld_heap : ps_heap st1 !! a = Some mpm;
  ld_ok : amsg_ok (N k) k m;
  ld_ram : ram_rep (N k) vk k m mpm;
  ld_disk : exists r, disk_rep s1 vk k m r;
  ld_conf : confined (prefix vk) s s1;
  ld_kv : ps_kv st1 = v;
  ld_multi : multiParts st1 !! mpid k = Some a;
  ld_others k' : k' ∈ ks -> k' ≠ k -> multiParts st1 !! mpid k' = multiParts st !! mpid k';
  ld_heaps k' a' : k' ∈ ks -> k' ≠ k -> multiParts st !! mpid k' = Some a' ->
    a' ≠ a /\ ps_heap st1 !! a' = ps_heap st !! a';
  ld_next mid a' : multiParts st1 !! mid = Some a' -> (a' < ps_next st1)%nat;
}.

Lemma load_spec s st A k vk now :
  ps_inv s st A -> k ∈ ks -> keyKV v k = Ok vk ->
  exists s1 st1 a mpm, ps_load s st k.1 k.2 now = Ok (s1, st1, a) /\
    loaded s st k vk (default am_empty (A !! k)) s1 st1 a mpm.
Proof.
  intros Hinv Hk Hvk. unfold ps_load. fold (mpid k).
  destruct (multiParts st !! mpid k) as [a|] eqn:Ha.
  - pose proof (inv_key _ _ _ Hinv k vk Hk Hvk) as Hr. unfold key_rep in Hr. rewrite Ha in Hr.
    destruct (A !! k) as [m|]; [|by destruct Hr]. destruct Hr as (Hok & Hd & mpm & Hmpm & Hram).
    exists s, st, a, mpm. split; [done|]. split; try done; try apply Hinv; try apply confined_refl.
    intros k' a' Hk' Hne Ha'. split; [|done]. intros ->. apply Hne.
    by apply (inv_disjoint s st A k' k a Hinv).
  - destruct (loadOrCreate_spec s st A k vk now Hinv Hk Hvk Ha) as (s1 & mpm & Hrun & Hok & Hram & Hd & Hc).
    rewrite (inv_kv _ _ _ Hinv), Hrun. cbn [mbind result_bind ps_alloc].
    do 3 eexists. exists mpm. split; [done|]. pose proof (inv_next _ _ _ Hinv) as Hnext.
    split; simpl; try done.
    + by rewrite lookup_insert_eq.
    + eauto.
    + by apply (inv_kv _ _ _ Hinv).
    + by rewrite lookup_insert_eq.
    + intros k' Hk' Hne. rewrite lookup_insert_ne; [done|]. intros Heq. apply Hne.
      by apply (set_hash _ _ _ Hset).
    + intros k' a' Hk' Hne Ha'. apply Hnext in Ha'. split; [lia|]. by rewrite lookup_insert_ne by lia.
    + intros mid a' [[<- <-]|[? Ha']]%lookup_insert_Some; [lia|]. apply Hnext in Ha'. lia.
Qed.

(** ** One arrival *)

Definition receive (s : S) (st : PStore ID KR) (k : key) (e : arrival KR) (fp : list byte) (now : Time) :
    result (S * PStore ID KR * option (receiveMessage ID MID * KR)) :=
  match ar_first e with
  | Some (h, r) =>
      Store_AddFirst s st k.1 (h_type h) k.2 (Z.of_nat (ar_num e)) (h_num h) (h_sent h) (h_stored h)
        (ar_part e) fp r now
  | None => Store_Add s st k.1 k.2 (Z.of_nat (ar_num e)) (ar_part e) fp now
  end.

(** A part of the message that has not been received yet. *)
Record arrival_ok (A : gmap key (amsg KR)) (k : key) (e : arrival KR) : Prop := {
  ao_key : k ∈ ks;
  ao_num : Z.of_nat (ar_num e) < N k;
  ao_new : am_parts (default am_empty (A !! k)) !! ar_num e = None;
  ao_first h r : ar_first e = Some (h, r) ->
    h_num h = N k /\ time_wf (h_sent h) /\ time_wf (h_stored h) /\ is_u 32 (h_type h);
}.

Lemma amsg_ok_add A k e (m : amsg KR) r :
  arrival_ok A k e -> amsg_ok (N k) k m -> amsg_ok (N k) k (with_res (am_add m e) r).
Proof.
  intros [Hk Hnum _ Hfirst] [Hr Hmid Hnums Hhdr]. split; [done|done| |]; simpl.
  - intros i [p [[<- _]|[_ Hi]]%lookup_insert_Some]; [done|]. apply Hnums. eauto.
  - intros h. destruct (ar_first e) as [[h' r']|] eqn:He; [|by apply Hhdr].
    intros [= <-]. by apply (Hfirst h' r').
Qed.

(** The handlers up to the completion check. *)
Definition receive_add (s : S) (mpm : mpm_t) (e : arrival KR) (now : Time) : result (S * mpm_t) :=
  match ar_first e with
  | Some (h, r) =>
      '(s, m) ← mpm_AddFirst s mpm (h_type h) (Z.of_nat (ar_num e)) (h_num h) (h_sent h) (h_stored h)
                  (ar_part e) now;
      Ok (s, mpm_setResidue m r)
  | None => mpm_Add s mpm (Z.of_nat (ar_num e)) (ar_part e) now
  end.

Lemma receive_eq s st k e fp now :
  receive s st k e fp now =
    '(s, st, a) ← ps_load s st k.1 k.2 now;
    m ← ps_read st a;
    '(s, m) ← receive_add s m e now;
    '(s, m, msg) ← mpm_IsComplete s m fp;
    ps_finish s (ps_write st a m) a m msg now.
Proof.
  unfold receive, receive_add, Store_AddFirst, Store_Add.
  destruct (ar_first e) as [[h r]|]; [|done].
  destruct (ps_load s st k.1 k.2 now) as [[[s1 st1] a]| |]; [|done..]. cbn [mbind result_bind].
  destruct (ps_read st1 a) as [m| |]; [|done..]. cbn [mbind result_bind].
  by destruct (mpm_AddFirst _ _ _ _ _ _ _ _ _) as [[s2 m2]| |].
Qed.

Lemma receive_add_spec s A vk k e mpm now :
  let m := default am_empty (A !! k) in
  arrival_ok A k e -> amsg_ok (N k) k m -> ram_rep (N k) vk k m mpm -> kv_handle vk ->
  (exists r, disk_rep s vk k m r) ->
  exists s' mpm', receive_add s mpm e now = Ok (s', mpm') /\
    ram_rep (N k) vk k (am_add m e) mpm' /\ (exists r, disk_rep s' vk k (am_add m e) r) /\
    confined (prefix vk) s s'.
Proof.
  intros m He Hok Hram Hvk [r0 [_ Hparts]]. pose proof (ao_new _ _ _ He) as Hnew. fold m in Hnew.
  set (m1 := with_res (am_add m e) (am_res m)).
  pose proof (amsg_ok_add A k e m (am_res m) He Hok) as Hok1. fold m1 in Hok1.
  destruct (put_spec (N k) s vk k m m1 mpm (ar_num e) (ar_part e) now)
    as (s' & mpm' & Hput & [Hd' Hkv' Hps' Hlen'] & Hdisk & Hc); try done.
  assert (is_u 8 (Z.of_nat (size (am_parts m)) + 1)) as Hu8.
  { pose proof (am_size _ _ _ Hok1) as Hs. simpl in Hs. rewrite map_size_insert_None in Hs by done.
    pose proof (am_range _ _ _ Hok). unfold is_u. lia. }
  assert (size (am_parts m1) = Datatypes.S (size (am_parts m))) as Hsz
    by (simpl; by rewrite map_size_insert_None).
  pose proof (ram_data _ _ _ _ _ Hram) as Hdata.
  unfold receive_add. destruct (ar_first e) as [[h r]|] eqn:Hf.
  - assert (mpm_AddFirst s mpm (h_type h) (Z.of_nat (ar_num e)) (h_num h) (h_sent h) (h_stored h)
      (ar_part e) now = mpm_put s mpm (data_of k m1) (Z.of_nat (ar_num e)) (ar_part e) now) as ->.
    { unfold mpm_AddFirst, mpm_put, data_of. rewrite Hsz, Hdata. simpl. rewrite Hf. simpl.
      by rewrite wrapu_small, Nat2Z.inj_succ by done. }
    rewrite Hput. cbn [mbind result_bind]. do 2 eexists. split; [done|]. split_and!.
    + split; simpl; try done. rewrite Hd'. unfold data_of. simpl. by rewrite Hf.
    + exists (am_res m). destruct Hdisk as [(o & Ho & Hu) Hp]. split; [|done].
      exists o. split; [done|]. rewrite Hu. done.
    + done.
  - assert (mpm_Add s mpm (Z.of_nat (ar_num e)) (ar_part e) now
      = mpm_put s mpm (data_of k m1) (Z.of_nat (ar_num e)) (ar_part e) now) as ->.
    { unfold mpm_Add, mpm_put, data_of. rewrite Hsz, Hdata. simpl. rewrite Hf. simpl.
      by rewrite wrapu_small, Nat2Z.inj_succ by done. }
    rewrite Hput. assert (m1 = am_add m e) as Hm1 by (subst m1; unfold with_res, am_add; by rewrite Hf).
    rewrite <- Hm1. do 2 eexists. split; [done|]. split_and!; [by split|eauto|done].
Qed.

(** The object of a message rewritten in place. *)
Lemma inv_write s st A k vk s1 st1 a mpm s2 mpm2 m' m :
  ps_inv s st A -> k ∈ ks -> keyKV v k = Ok vk -> loaded s st k vk m s1 st1 a mpm ->
  confined (prefix vk) s1 s2 -> amsg_ok (N k) k m' -> ram_rep (N k) vk k m' mpm2 ->
  (exists r, disk_rep s2 vk k m' r) ->
  ps_inv s2 (ps_write st1 a mpm2) (<[k := m']> A).
Proof.
  intros Hinv Hk Hvk Hld Hc Hok Hram Hdisk.
  apply (inv_update s st A k vk s2 (ps_write st1 a mpm2) (Some m')); try done; simpl.
  - eapply confined_trans; [apply Hld|done].
  - apply Hld.
  - apply Hld.
  - intros k' a' Hk' Hne Ha'. destruct (ld_heaps _ _ _ _ _ _ _ _ _ Hld k' a' Hk' Hne Ha') as [Hna Hh].
    by rewrite lookup_insert_ne by done.
  - apply Hld.
  - rewrite (ld_multi _ _ _ _ _ _ _ _ _ Hld). split; [done|]. split; [done|].
    exists mpm2. by rewrite lookup_insert_eq.
Qed.

(** A message delivered and forgotten. *)
Lemma inv_forget s st A k vk s1 st1 a mpm s2 mpm2 m :
  ps_inv s st A -> k ∈ ks -> keyKV v k = Ok vk -> loaded s st k vk m s1 st1 a mpm ->
  confined (prefix vk) s1 s2 -> disk_absent s2 vk ->
  ps_inv s2 (ps_setMulti (ps_write st1 a mpm2) (delete (mpid k) (multiParts st1))) (delete k A).
Proof.
  intros Hinv Hk Hvk Hld Hc Habs.
  apply (inv_update s st A k vk s2 _ None); try done; simpl.
  - eapply confined_trans; [apply Hld|done].
  - apply Hld.
  - intros k' Hk' Hne. rewrite lookup_delete_ne; [by apply Hld|].
    intros Heq. apply Hne. by apply (set_hash _ _ _ Hset).
  - intros k' a' Hk' Hne Ha'. destruct (ld_heaps _ _ _ _ _ _ _ _ _ Hld k' a' Hk' Hne Ha') as [Hna Hh].
    by rewrite lookup_insert_ne by done.
  - intros mid a' [_ Ha']%lookup_delete_Some. by eapply Hld.
  - split; [by rewrite lookup_delete_eq|done].
Qed.

Lemma receive_refines s st A k e fp now :
  ps_inv s st A -> arrival_ok A k e ->
  exists s' st', receive s st k e fp now = Ok (s', st', (reassemble A k e fp).2) /\
    ps_inv s' st' (reassemble A k e fp).1.
Proof.
  intros Hinv He. pose proof (ao_key _ _ _ He) as Hk. destruct (set_place _ _ _ Hset k Hk) as [vk Hvk].
  pose proof (keyKV_handle _ _ _ (set_handle _ _ _ Hset) Hvk) as Hh.
  rewrite receive_eq. destruct (load_spec s st A k vk now Hinv Hk Hvk) as (s1 & st1 & a & mpm & -> & Hld).
  cbn [mbind result_bind]. unfold ps_read. rewrite (ld_heap _ _ _ _ _ _ _ _ _ Hld). cbn [mbind result_bind].
  destruct (receive_add_spec s1 A vk k e mpm now He (ld_ok _ _ _ _ _ _ _ _ _ Hld)
    (ld_ram _ _ _ _ _ _ _ _ _ Hld) Hh (ld_disk _ _ _ _ _ _ _ _ _ Hld)) as (s2 & mpm2 & -> & Hram & [r Hdisk] & Hc).
  cbn [mbind result_bind]. unfold reassemble. set (m := default am_empty (A !! k)) in *.
  assert (amsg_ok (N k) k (am_add m e)) as Hok.
  { pose proof (amsg_ok_add A k e m (am_res (am_add m e)) He (ld_ok _ _ _ _ _ _ _ _ _ Hld)) as Hok.
    by destruct m. }
  destruct (am_complete (am_add m e)) as [h|] eqn:Hcm; cbn [fst snd].
  - destruct (IsComplete_some (N k) s2 vk k (am_add m e) mpm2 h fp Hok Hram Hcm Hh (proj2 Hdisk))
      as (s3 & mpm3 & -> & Hd3 & Hc3 & Habs).
    cbn [mbind result_bind ps_finish]. rewrite Hd3. cbn [data_of Sender MessageID KeyResidue].
    do 2 eexists. split; [done|]. apply (inv_forget s st A k vk s1 st1 a mpm s3 mpm3 m); try done.
    by eapply confined_trans.
  - rewrite (IsComplete_none (N k) s2 vk k (am_add m e) mpm2 fp Hok Hram Hcm).
    cbn [mbind result_bind ps_finish]. unfold saveActiveParts.
    assert (ps_inv s2 (ps_write st1 a mpm2) (<[k := am_add m e]> A)) as Hinv2
      by (eapply inv_write; eauto).
    destruct (orPanic_Set s2 (ps_kv (ps_activate (ps_write st1 a mpm2) a)) activePartitions
      (mkObject activePartitionVersion now (json_Marshal (activeList (ps_activate (ps_write st1 a mpm2) a)))))
      as (s3 & Hs3 & ->). cbn [mbind result_bind].
    do 2 eexists. split; [done|]. eapply inv_active; [done|].
    rewrite <- (inv_kv _ _ _ Hinv2). eapply kv_Set_confined; [apply Hs3| |done|done].
    simpl. rewrite (ld_kv _ _ _ _ _ _ _ _ _ Hld). apply (set_handle _ _ _ Hset).
Qed.

(** ** Sequences of arrivals *)

Fixpoint receiveSeq (s : S) (st : PStore ID KR) (es : list (key * arrival KR)) (fp : list byte)
    (now : Time) : result (S * PStore ID KR * list (option (receiveMessage ID MID * KR))) :=
  match es with
  | [] => Ok (s, st, [])
  | (k, e) :: es =>
      '(s, st, o) ← receive s st k e fp now;
      '(s, st, os) ← receiveSeq s st es fp now;
      Ok (s, st, o :: os)
  end.

Fixpoint reassembleSeq (A : gmap key (amsg KR)) (es : list (key * arrival KR)) (fp : list byte) :
    list (option (receiveMessage ID MID * KR)) :=
  match es with
  | [] => []
  | (k, e) :: es =>
      let '(A, o) := reassemble A k e fp in
      o :: reassembleSeq A es fp
  end.

(** Every arrival is a part that its message does not have yet. *)
Fixpoint arrivals_ok (A : gmap key (amsg KR)) (es : list (key * arrival KR)) : Prop :=
  match es with
  | [] => True
  | (k, e) :: es => arrival_ok A k e /\ arrivals_ok (reassemble A k e []).1 es
  end.

Lemma reassemble_fp A k e fp : (reassemble A k e fp).1 = (reassemble A k e []).1.
Proof. unfold reassemble. by destruct (am_complete _). Qed.

Lemma receiveSeq_refines es s st A fp now :
  ps_inv s st A -> arrivals_ok A es ->
  exists s' st', receiveSeq s st es fp now = Ok (s', st', reassembleSeq A es fp).
Proof.
  revert s st A. induction es as [|[k e] es IH]; intros s st A Hinv Hes; cbn [receiveSeq reassembleSeq].
  { eauto. }
  destruct Hes as [He Hes].
  destruct (receive_refines s st A k e fp now Hinv He) as (s1 & st1 & -> & Hinv1). cbn [mbind result_bind].
  rewrite <- (reassemble_fp A k e fp) in Hes. destruct (reassemble A k e fp) as [A1 o]. cbn [fst snd] in *.
  destruct (IH s1 st1 A1 Hinv1 Hes) as (s2 & st2 & ->). cbn [mbind result_bind]. eauto.
Qed.

(** An empty store, over a storage with no trace of the messages in play. *)
Lemma new_inv s :
  (forall k vk, k ∈ ks -> keyKV v k = Ok vk -> disk_absent s vk) ->
  ps_inv s (mkPStore ∅ 0 ∅ ∅ v) ∅.
Proof.
  intros Hdisk. split; simpl; [done| |].
  - intros k vk Hk Hvk. rewrite lookup_empty. split; [simpl; by rewrite lookup_empty|by eapply Hdisk].
  - intros mid a Ha. by rewrite lookup_empty in Ha.
Qed.
End refinement.

(** ** Starting up *)

Section startup.
Context {ID KR MID : Type} `{NetID ID} `{E2ECrypto KR MID}.
Context {S : Type} `{EKV S} `{JsonCodec (mpmData ID KR)} `{JsonCodec (list (mpmData ID KR))}.

Lemma NewOrLoad_empty (s : S) v0 v e now :
  kv_Prefix v0 packagePrefix = Ok v -> kv_Get v s activePartitions activePartitionVersion = inl e ->
  NewOrLoad s v0 now = Ok (s, mkPStore ∅ 0 ∅ ∅ v).
Proof.
  intros Hv Hg. unfold NewOrLoad. rewrite Hv. cbn [must mbind result_bind].
  unfold loadActivePartitions. cbn [ps_kv]. rewrite Hg. cbn [mbind result_bind].
  unfold Store_prune. cbn [activeParts]. by rewrite elements_empty.
Qed.

(** Loading the active list only adds objects. *)
Lemma loadActiveLoop_grows l (s s' : S) (st st' : PStore ID KR) now :
  loadActiveLoop s st l now = Ok (s', st') ->
  activeParts st ⊆ activeParts st' /\
  forall a, (a < ps_next st)%nat -> ps_heap st' !! a = ps_heap st !! a.
Proof.
  revert s st. induction l as [|d l IH]; intros s st Hl; cbn [loadActiveLoop] in Hl.
  { by injection Hl as <- <-. }
  apply bind_Ok in Hl as ([s1 mpm] & _ & Hl). simpl in Hl. apply IH in Hl as [Hact Hheap].
  simpl in *. split; [set_solver|]. intros a Ha. rewrite Hheap by lia.
  by rewrite lookup_insert_ne by lia.
Qed.

(** An old message that announces parts and holds none of them in memory. *)
Definition stale (m : multiPartMessage ID KR) (now : Time) : Prop :=
  0 < NumParts (mpm_data m) /\ parts m = [] /\
  clearPartitionThreshold <= timeSub now (StorageTimestamp (mpm_data m)).

Lemma delete_stale (s : S) m now : stale m now -> mpm_delete s m = Panic.
Proof.
  intros (Hn & Hp & _). unfold mpm_delete.
  destruct (Z.to_nat (NumParts (mpm_data m))) as [|k] eqn:Hk; [lia|]. cbn [mpm_deleteLoop].
  by rewrite Hp.
Qed.

Lemma pruneLoop_stale l (s : S) (st : PStore ID KR) a m now r :
  NoDup l -> a ∈ l -> ps_heap st !! a = Some m -> stale m now -> pruneLoop s st l now ≠ Ok r.
Proof.
  revert s st. induction l as [|b l IH]; intros s st Hnd Ha Hm Hst; [by apply not_elem_of_nil in Ha|].
  cbn [pruneLoop]. apply list.NoDup_cons in Hnd as [Hb Hnd]. destruct (decide (b = a)) as [->|Hne].
  - unfold ps_read. rewrite Hm. cbn [mbind result_bind].
    rewrite (proj2 (Z.leb_le _ _)) by apply Hst. by rewrite (delete_stale s m now Hst).
  - assert (a ∈ l) as Hal by (apply elem_of_cons in Ha as [->|?]; done).
    intros (mb & Hmb & Hrun)%bind_Ok. case_match.
    + apply bind_Ok in Hrun as ([[s1 m1] n1] & _ & Hrun). revert Hrun. apply IH; try done.
      simpl. by rewrite lookup_insert_ne.
    + revert Hrun. by apply IH.
Qed.
End startup.

(** C22: The store implements reassembly: starting from [NewOrLoad] on a storage
    that holds nothing of the messages, any sequence of parts, of any number of
    messages, in any order and interleaving, is answered as the contract says:
    nothing until all the announced parts of a message are there, then the
    message, with its parts put together in order.  Each message announces its
    number of parts (1 to 255), its parts come once each, and the hashes of the
    messages in play do not collide. *)
Theorem Partition_refines_reassembly {ID KR MID} `{NetIDLaws ID} `{E2ECrypto KR MID}
    {S} `{EKVLaws S} `{!EKVReliable S} `{JsonCodec (mpmData ID KR)} `{!MpmJson ID KR}
    `{JsonCodec (list (mpmData ID KR))} (s : S) v0 v ks N (es : list (ID * Z * arrival KR)) fp now :
  kv_Prefix v0 packagePrefix = Ok v -> setting v ks N ->
  (exists e, kv_Get v s activePartitions activePartitionVersion = inl e) ->
  (forall k vk, k ∈ ks -> keyKV v k = Ok vk -> disk_absent s vk) ->
  arrivals_ok ks N ∅ es ->
  exists s0 st0 s' st', NewOrLoad s v0 now = Ok (s0, st0) /\
    receiveSeq s0 st0 es fp now = Ok (s', st', reassembleSeq ∅ es fp).
Proof.
  intros Hv Hset [e He] Hdisk Hes. exists s, (mkPStore ∅ 0 ∅ ∅ v).
  destruct (receiveSeq_refines v ks N Hset es s (mkPStore ∅ 0 ∅ ∅ v) ∅ fp now) as (s' & st' & Hrun).
  - by apply new_inv.
  - done.
  - exists s', st'. split; [by eapply NewOrLoad_empty|done].
Qed.

(** Starting up with an unfinished message whose first part was stored a day
    or more ago never succeeds: [NewOrLoad] prunes it, and [delete] indexes the
    parts buffer, which is empty for a message loaded from storage. *)
Theorem Partition_restart_panics {ID KR MID} `{NetID ID} `{E2ECrypto KR MID}
    {S} `{EKV S} `{JsonCodec (mpmData ID KR)} `{JsonCodec (list (mpmData ID KR))}
    (s : S) v0 v vk obj (d : mpmData ID KR) l objd d' now :
  kv_Prefix v0 packagePrefix = Ok v ->
  kv_Get v s activePartitions activePartitionVersion = inr obj -> json_Unmarshal (Data obj) = Some (d :: l) ->
  keyKV v (Sender d, MessageID d) = Ok vk ->
  kv_Get vk s multiPartKey currentMultiPartMessageVersion = inr objd ->
  json_Unmarshal (Data objd) = Some d' -> 0 < NumParts d' ->
  clearPartitionThreshold <= timeSub now (StorageTimestamp d') ->
  ~ exists r, NewOrLoad s v0 now = Ok r.
Proof.
  intros Hv Hact Hl Hvk Hobj Hd' Hn Hold [r Hrun]. unfold NewOrLoad in Hrun. rewrite Hv in Hrun.
  cbn [must mbind result_bind] in Hrun. unfold loadActivePartitions in Hrun. cbn [ps_kv] in Hrun.
  rewrite Hact, Hl in Hrun. apply bind_Ok in Hrun as ([s1 st1] & Hloop & Hprune).
  cbn [loadActiveLoop ps_kv] in Hloop.
  rewrite (loadOrCreate_eq v s (Sender d, MessageID d) vk now Hvk) in Hloop.
  rewrite Hobj, Hd' in Hloop. cbn [mbind result_bind ps_alloc ps_next] in Hloop.
  apply loadActiveLoop_grows in Hloop as [Hsub Hheap]. cbn [ps_activate activeParts ps_next ps_heap] in *.
  revert Hprune. unfold Store_prune. apply (pruneLoop_stale _ _ _ 0%nat (mkMpm d' [] vk)).
  - apply NoDup_elements.
  - apply elem_of_elements. set_solver.
  - rewrite Hheap by lia. by rewrite lookup_insert_eq.
  - done.
Qed.

(** Completing a message whose parts are all in memory removes only its
    description from storage: every stored part of the delivered message, in
    clear, stays there. *)
Theorem Partition_parts_remain {ID KR MID} `{E2ECrypto KR MID} {S} `{EKVLaws S}
    `{JsonCodec (mpmData ID KR)} (s s' : S) (m m' : multiPartMessage ID KR) qs fp
    (msg : receiveMessage ID MID) :
  parts m = Some <$> qs -> NumParts (mpm_data m) = Z.of_nat (length qs) ->
  mpm_IsComplete s m fp = Ok (s', m', Some msg) ->
  rm_Payload msg = concat qs /\
  forall i, loadPart s' (mpm_kv m) i = loadPart s (mpm_kv m) i.
Proof.
  intros Hp Hn Hrun. unfold mpm_IsComplete in Hrun. case_match; [done|].
  rewrite Hn, Hp, length_fmap, (proj2 (Z.ltb_ge _ _)) in Hrun by lia.
  apply bind_Ok in Hrun as ([[s1 m1] n1] & Hdel & Hrun). unfold mpm_delete in Hdel.
  cbn [mpm_data] in Hdel. rewrite Hn, Nat2Z.id in Hdel.
  assert (forall pre rs len, mpm_deleteLoop (length rs) (Z.of_nat (length pre)) s
      (mkMpm (mpm_data m) (pre ++ (Some <$> rs)) (mpm_kv m)) len
    = Ok (s, mkMpm (mpm_data m) (pre ++ (Some <$> rs)) (mpm_kv m), len + Z.of_nat (length (concat rs)))) as Hloop.
  { intros pre rs. revert pre. induction rs as [|q rs IH]; intros pre len.
    - simpl. by rewrite Z.add_0_r.
    - rewrite fmap_cons. cbn [length mpm_deleteLoop parts concat].
      rewrite (index_nat _ _ (Some q)) by (by apply list_lookup_middle). cbn [mbind result_bind].
      specialize (IH (pre ++ [Some q]) (len + Z.of_nat (length q))).
      rewrite length_app, <- !app_assoc in IH. simpl in IH.
      replace (Z.of_nat (length pre + 1)) with (Z.of_nat (length pre) + 1) in IH by lia.
      rewrite IH, length_app. by rewrite Nat2Z.inj_add, Z.add_assoc. }
  specialize (Hloop [] qs 0). cbn [length app] in Hloop. change (Z.of_nat 0) with 0 in Hloop.
  rewrite Hloop in Hdel. cbn [mbind result_bind mpm_kv] in Hdel.
  apply bind_Ok in Hdel as (s2 & Hs2 & Hdel). injection Hdel as -> <- <-.
  cbn [parts] in Hrun. rewrite Z.add_0_l, Nat2Z.id in Hrun.
  pose proof (reconstruct_spec qs []) as Hrec. rewrite !app_nil_l in Hrec.
  cbn [length] in Hrec. change (Z.of_nat 0) with 0 in Hrec. rewrite Hrec in Hrun.
  cbn [mbind result_bind] in Hrun. injection Hrun as -> <- <-. split; [done|].
  intros i. unfold orPanic in Hs2. destruct (kv_Delete _ _ _ _) as [s3 [e|]] eqn:Hd; [done|].
  injection Hs2 as ->. unfold loadPart. erewrite kv_get_delete_ne'; [done|apply Hd|].
  unfold kv_makeKey. intros Heq. apply (inj (String.append (prefix (mpm_kv m)))) in Heq.
  by apply key_version_inj in Heq as [Heq _].
Qed.

(** *** Witnesses *)

#[local] Instance ex_mpmData_eq_dec : EqDecision (mpmData Z Z).
Proof. solve_decision. Defined.

#[local] Instance ex_mpmData_countable : Countable (mpmData Z Z).
Proof.
  refine (inj_countable'
    (fun d => (Sender d, MessageID d, NumParts d, PresentParts d, SenderTimestamp d,
               StorageTimestamp d, MessageType d, KeyResidue d))
    (fun '(a, b, c, d, e, f, g, h) => mkMpmData a b c d e f g h) _).
  abstract (by intros []).
Defined.

#[local] Instance ex_codec : JsonCodec (mpmData Z Z) := countableCodec _.
#[local] Instance ex_codecs : JsonCodec (list (mpmData Z Z)) := countableCodec _.
#[local] Instance ex_json : MpmJson Z Z.
Proof. by intros d _. Qed.

#[local] Instance ex_crypto : E2ECrypto Z Z := {|
  zeroKeyResidue := 0;
  zeroMessageID := 0;
  NewMessageID fp mid := mid;
  blake2b256 bs := bs;
|}.

Definition ex_key1 : Z * Z := (7, 1).
Definition ex_key2 : Z * Z := (8, 1).
Definition ex_part_kv : kv := match kv_Prefix NewKV packagePrefix with Ok v => v | _ => NewKV end.

Lemma ex_setting : setting ex_part_kv [ex_key1; ex_key2] (fun k => if decide (k = ex_key1) then 2 else 1).
Proof.
  split.
  - by apply (handle_prefix NewKV packagePrefix); [constructor|vm_compute].
  - intros k Hk. rewrite !elem_of_cons in Hk. destruct Hk as [->|[->|Hk]]; [..|by apply not_elem_of_nil in Hk];
      eexists; vm_compute; reflexivity.
  - intros k k' Hk Hk'. rewrite !elem_of_cons in Hk, Hk'.
    destruct Hk as [->|[->|Hk]]; [..|by apply not_elem_of_nil in Hk];
    (destruct Hk' as [->|[->|Hk']]; [..|by apply not_elem_of_nil in Hk']); intros Heq; try done;
    exfalso; vm_compute in Heq; congruence.
  - intros k Hk. rewrite !elem_of_cons in Hk. destruct Hk as [->|[->|Hk]]; [..|by apply not_elem_of_nil in Hk];
      vm_compute; repeat split; congruence || done.
Qed.

Definition ex_hdr (n : Z) : header := mkHeader n 5 6 3.

(** Two messages, of two parts and of one, interleaved, the last part first. *)
Definition ex_arrivals : list (Z * Z * arrival Z) :=
  [(ex_key1, mkArrival 1 [x62; x63] None);
   (ex_key2, mkArrival 0 [x7a] (Some (ex_hdr 1, 42)));
   (ex_key1, mkArrival 0 [x61] (Some (ex_hdr 2, 43)))].

Lemma ex_arrivals_ok :
  arrivals_ok [ex_key1; ex_key2] (fun k => if decide (k = ex_key1) then 2 else 1) ∅ ex_arrivals.
Proof.
  assert (time_wf 5 /\ time_wf 6) as [? ?] by (unfold time_wf, zeroTime; lia).
  cbn [arrivals_ok ex_arrivals].
  repeat (split; [split; [set_solver|vm_compute; reflexivity|vm_compute; reflexivity|
    intros h r; cbn [ar_first]; intros; simplify_eq; split_and!; done || (vm_compute; split; congruence || done)]|]).
  done.
Qed.

Lemma Partition_refines_reassembly_witness :
  exists s0 st0 s' st', NewOrLoad (∅ : MemStore) NewKV 0 = Ok (s0, st0) /\
    receiveSeq s0 st0 ex_arrivals [] 0 =
      Ok (s', st', [None; Some (mkReceiveMessage [x7a] 3 8 5 0, 42);
                    Some (mkReceiveMessage [x61; x62; x63] 3 7 5 0, 43)]).
Proof.
  destruct (Partition_refines_reassembly (∅ : MemStore) NewKV ex_part_kv [ex_key1; ex_key2]
    (fun k => if decide (k = ex_key1) then 2 else 1) ex_arrivals [] 0
    ltac:(vm_compute; reflexivity) ex_setting ltac:(eexists; vm_compute; reflexivity)
    ltac:(intros k vk _ _; eexists; split; vm_compute; reflexivity) ex_arrivals_ok)
    as (s0 & st0 & s' & st' & H1 & H2).
  exists s0, st0, s', st'. split; [exact H1|]. exact H2.
Defined.

(** The storage after the first part of a message of two parts. *)
Definition ex_stale_store : MemStore :=
  match Store_AddFirst (∅ : MemStore) (mkPStore ∅ 0 ∅ ∅ ex_part_kv) 7 3 1 0 2 5 6 [x61] [] 43 6 with
  | Ok (s, _, _) => s
  | _ => ∅
  end.

Lemma Partition_restart_panics_witness :
  ~ exists r, NewOrLoad ex_stale_store NewKV (6 + clearPartitionThreshold) = Ok r.
Proof.
  refine (Partition_restart_panics ex_stale_store NewKV ex_part_kv _ _
    (mkMpmData 7 1 2 1 5 6 3 43) [] _ (mkMpmData 7 1 2 1 5 6 3 0) (6 + clearPartitionThreshold)
    _ _ _ _ _ _ _ _); try (vm_compute; reflexivity). vm_compute. congruence.
Defined.

Definition ex_full_mpm : multiPartMessage Z Z :=
  mkMpm (mkMpmData 7 1 1 1 5 6 3 43) [Some [x61]] NewKV.
Definition ex_full_store : MemStore :=
  <[kv_makeKey NewKV (makeMultiPartMessagePartKey 0) 0 := mkObject 0 0 [x61]]> ∅.

Lemma Partition_parts_remain_witness :
  loadPart (match mpm_IsComplete ex_full_store ex_full_mpm [] with Ok (s, _, _) => s | _ => ∅ end) NewKV 0
    = inr [x61].
Proof.
  assert (mpm_IsComplete ex_full_store ex_full_mpm []
    = Ok (ex_full_store, ex_full_mpm, Some (mkReceiveMessage [x61] 3 7 5 0))) as Hrun
    by (vm_compute; reflexivity).
  rewrite Hrun. change NewKV with (mpm_kv ex_full_mpm).
  transitivity (loadPart ex_full_store (mpm_kv ex_full_mpm) 0); [|vm_compute; reflexivity].
  exact (proj2 (Partition_parts_remain ex_full_store ex_full_store ex_full_mpm ex_full_mpm [[x61]] []
    (mkReceiveMessage [x61] 3 7 5 0) eq_refl eq_refl Hrun) 0).
Defined.
