(* ===== verification/Partitioner.v ===== *)
(** * The partitioner

    [e2e/parse/partition.go]: cuts a payload into message parts on the way out
    and hands received parts to the conversation (for their full message ID)
    and to the partition store (for reassembly) on the way in. *)

From S2P Require Import Prelude GoBytes KV Json Conversation MessagePart Partition.

Definition MaxMessageParts : Z := 255.

Record Partitioner (ID KR : Type) `{NetID ID} := mkPartitioner {
  baseMessageSize : Z;
  firstContentsSize : Z;
  partContentsSize : Z;
  deltaFirstPart : Z;
  maxSize : Z;
  conversation : ConvStore ID;
  partition : PStore ID KR;
}.
Arguments mkPartitioner {ID KR _}.
Arguments baseMessageSize {ID KR _}.
Arguments firstContentsSize {ID KR _}.
Arguments partContentsSize {ID KR _}.
Arguments deltaFirstPart {ID KR _}.
Arguments maxSize {ID KR _}.
Arguments conversation {ID KR _}.
Arguments partition {ID KR _}.

(** A payload shorter than [length] is returned twice. *)
Definition splitPayload (payload : list byte) (length_ : Z) : result (list byte * list byte) :=
  if Z.of_nat (length payload) <? length_ then Ok (payload, payload)
  else if length_ <? 0 then Panic
  else Ok (take (Z.to_nat length_) payload, drop (Z.to_nat length_) payload).

Definition isFirst (payload : list byte) : result bool :=
  b ← index payload idLen; Ok (Z_of_byte b =? 0).

(** [a / b] on [int]: truncated; zero divisor panics. *)
Definition intDiv (a b : Z) : result Z := if b =? 0 then Panic else Ok (Z.quot a b).

Section partitioner.
Context {ID KR MID : Type} `{NetID ID} `{E2ECrypto KR MID}.
Context {S : Type} `{EKV S} `{JsonCodec (mpmData ID KR)} `{JsonCodec (list (mpmData ID KR))}.

Abbreviation part_t := (Partitioner ID KR).

Definition NewPartitioner (s : S) (v : kv) (messageSize : Z) (now : Time) : result (S * part_t) :=
  cs ← ConvStore_New v;
  '(s, st) ← NewOrLoad s v now;
  let fcs := messageSize - firstHeaderLen in
  let pcs := messageSize - headerLen in
  Ok (s, mkPartitioner messageSize fcs pcs (firstHeaderLen - headerLen)
           (fcs + (MaxMessageParts - 1) * pcs) cs st).

Definition setConversation (p : part_t) (cs : ConvStore ID) : part_t :=
  mkPartitioner (baseMessageSize p) (firstContentsSize p) (partContentsSize p)
    (deltaFirstPart p) (maxSize p) cs (partition p).
Definition setPartition (p : part_t) (st : PStore ID KR) : part_t :=
  mkPartitioner (baseMessageSize p) (firstContentsSize p) (partContentsSize p)
    (deltaFirstPart p) (maxSize p) (conversation p) st.

(** The loop over the parts after the first: [k] more, from part [i]. *)
Fixpoint partsLoop (k : nat) (i messageID size pcs : Z) (payload : list byte)
    (parts : list (list byte)) : result (list (list byte)) :=
  match k with
  | O => Ok parts
  | Datatypes.S k =>
      '(sub, payload) ← splitPayload payload pcs;
      m ← newMessagePart messageID i sub size;
      parts ← store_at parts i (messagePart_bytes m);
      partsLoop k (i + 1) messageID size pcs payload parts
  end.

Definition Partitioner_Partition (s : S) (p : part_t) (recipient : ID) (mt : Z)
    (timestamp : Time) (payload : list byte) (now : Time) :
    result (S * part_t * (list (list byte) * Z)) :=
  if maxSize p <? Z.of_nat (length payload) then
    Err (Errorf "Payload is too long, max payload length is %d, received %d"
           [maxSize p; Z.of_nat (length payload)])
  else
    '(s, cs, c) ← ConvStore_Get s (conversation p) recipient now;
    '(s, c, (fullMessageID, messageID)) ← Conversation_GetNextSendID s c now;
    let p := setConversation p (ConvStore_put cs c) in
    q ← intDiv (Z.of_nat (length payload) + deltaFirstPart p + partContentsSize p - 1)
          (partContentsSize p);
    let numParts := u8 q in
    let parts := replicate (Z.to_nat numParts) [] in
    '(sub, payload) ← splitPayload payload (firstContentsSize p);
    m ← newFirstMessagePart mt messageID numParts timestamp sub (baseMessageSize p);
    parts ← store_at parts 0 (firstMessagePart_bytes m);
    parts ← partsLoop (Z.to_nat (numParts - 1)) 1 messageID (baseMessageSize p)
              (partContentsSize p) payload parts;
    Ok (s, p, (parts, fullMessageID)).

(** The full ID of a received message, through the sender's conversation. *)
Definition receivedID (s : S) (p : part_t) (sender : ID) (id : Z) (now : Time) :
    result (S * part_t * Z) :=
  '(s, cs, c) ← ConvStore_Get s (conversation p) sender now;
  '(s, c, messageID) ← Conversation_ProcessReceivedMessageID s c id now;
  Ok (s, setConversation p (ConvStore_put cs c), messageID).

Definition Partitioner_HandlePartition (s : S) (p : part_t) (sender : ID)
    (contents relationshipFingerprint : list byte) (residue : KR) (now : Time) :
    result (S * part_t * option (receiveMessage ID MID * KR)) :=
  first ← isFirst contents;
  if (first : bool) then
    fm ← firstMessagePartFromBytes contents;
    id ← messagePart_getID (fm_part fm);
    '(s, p, messageID) ← receivedID s p sender id now;
    mt ← firstMessagePart_getType fm;
    part ← messagePart_getPart (fm_part fm);
    numParts ← firstMessagePart_getNumParts fm;
    timestamp ← firstMessagePart_getTimestamp fm;
    sized ← messagePart_getSizedContents (fm_part fm);
    '(s, st, r) ← Store_AddFirst s (partition p) sender mt messageID part numParts timestamp now
                    sized relationshipFingerprint residue now;
    Ok (s, setPartition p st, r)
  else
    mp ← messagePartFromBytes contents;
    id ← messagePart_getID mp;
    '(s, p, messageID) ← receivedID s p sender id now;
    part ← messagePart_getPart mp;
    sized ← messagePart_getSizedContents mp;
    '(s, st, r) ← Store_Add s (partition p) sender messageID part sized relationshipFingerprint now;
    Ok (s, setPartition p st, r).

(** [uint(x)] of the sizes. *)
Definition FirstPartitionSize (p : part_t) : Z := u64 (firstContentsSize p).
Definition SecondPartitionSize (p : part_t) : Z := u64 (partContentsSize p).
Definition PayloadSize (p : part_t) : Z := u64 (maxSize p).
End partitioner.

(** ** Cutting a payload *)

Fixpoint chunks (k : nat) (pcs : nat) (payload : list byte) : list (list byte) :=
  match k with
  | O => []
  | Datatypes.S k => take pcs payload :: chunks k pcs (drop pcs payload)
  end.

Lemma concat_chunks k pcs payload :
  (length payload <= k * pcs)%nat -> concat (chunks k pcs payload) = payload.
Proof.
  revert payload. induction k as [|k IH]; intros payload Hlen; cbn [chunks concat].
  - destruct payload; [done|simpl in Hlen; lia].
  - rewrite IH by (rewrite length_drop; lia). apply take_drop.
Qed.

Lemma length_chunks k pcs payload : length (chunks k pcs payload) = k.
Proof. revert payload. induction k as [|k IH]; intros payload; simpl; [done|]. by rewrite IH. Qed.

Lemma chunks_short k pcs payload c : c ∈ chunks k pcs payload -> (length c <= pcs)%nat.
Proof.
  revert payload. induction k as [|k IH]; intros payload; cbn [chunks].
  - by intros ?%not_elem_of_nil.
  - intros [->|Hc]%elem_of_cons; [rewrite length_take; lia|by eapply IH].
Qed.

Lemma splitPayload_spec payload n :
  exists rest, splitPayload payload (Z.of_nat n) = Ok (take n payload, rest) /\
    ((n <= length payload)%nat -> rest = drop n payload).
Proof.
  unfold splitPayload. destruct (Z.ltb_spec (Z.of_nat (length payload)) (Z.of_nat n)).
  - exists payload. rewrite take_ge by lia. split; [done|lia].
  - rewrite (proj2 (Z.ltb_ge _ 0)), Nat2Z.id by lia. eauto.
Qed.

(** The bytes of the parts after the first, numbered from [i]. *)
Fixpoint restBytes (i : nat) (messageID : Z) (size : nat) (cs : list (list byte)) : list (list byte) :=
  match cs with
  | [] => []
  | c :: cs => partBytes messageID (Z.of_nat i) c size :: restBytes (Datatypes.S i) messageID size cs
  end.

Lemma partsLoop_spec k i messageID size pcs payload pre :
  (size = pcs + 8)%nat -> Z.of_nat pcs < 65536 -> length pre = i ->
  (k = 0 \/ ((k - 1) * pcs < length payload <= k * pcs))%nat ->
  partsLoop k (Z.of_nat i) messageID (Z.of_nat size) (Z.of_nat pcs) payload (pre ++ replicate k [])
  = Ok (pre ++ restBytes i messageID size (chunks k pcs payload)).
Proof.
  intros Hsize Hpcs. revert i payload pre. induction k as [|k IH]; intros i payload pre Hi Hlen.
  { simpl. by rewrite app_nil_r. }
  cbn [partsLoop chunks restBytes replicate]. destruct (splitPayload_spec payload pcs) as (rest & -> & Hrest).
  cbn [mbind result_bind].
  assert (length (take pcs payload) <= pcs)%nat as Hc by (rewrite length_take; lia).
  rewrite newMessagePart_spec by lia. cbn [mbind result_bind].
  rewrite store_at_nat by (rewrite length_app; simpl; lia). cbn [mbind result_bind].
  rewrite insert_app_r_alt, Hi, Nat.sub_diag by lia. cbn [insert list_insert].
  unfold messagePart_bytes, partView. cbn [mp_Data].
  replace (Z.of_nat i + 1) with (Z.of_nat (Datatypes.S i)) by lia.
  rewrite cons_middle, app_assoc. rewrite (IH (Datatypes.S i) rest).
  - rewrite <- app_assoc. simpl. destruct k as [|k]; [done|]. rewrite Hrest; [done|]. lia.
  - rewrite length_app. simpl. lia.
  - destruct k as [|k]; [by left|right]. rewrite Hrest, length_drop by lia. lia.
Qed.

(** The contents of the parts. *)
Definition cut (M : nat) (payload : list byte) : list (list byte) :=
  let n := ((length payload + 14 + (M - 8) - 1) / (M - 8))%nat in
  take (M - 22) payload :: chunks (n - 1) (M - 8) (drop (M - 22) payload).

(** The number of parts: [x] bytes in boxes of [b]. *)
Lemma ceil_div (x b : nat) :
  (0 < b)%nat -> let n := ((x + b - 1) / b)%nat in (x <= n * b)%nat /\ (0 < x -> (n - 1) * b < x)%nat.
Proof.
  intros Hb n. pose proof (Nat.div_mod_eq (x + b - 1) b) as He. fold n in He.
  pose proof (Nat.mod_upper_bound (x + b - 1) b ltac:(lia)). nia.
Qed.

Lemma cut_facts M payload :
  (22 <= M)%nat -> (length payload <= (M - 22) + 254 * (M - 8))%nat ->
  let n := ((length payload + 14 + (M - 8) - 1) / (M - 8))%nat in
  (1 <= n <= 255)%nat /\ length (cut M payload) = n /\
  concat (cut M payload) = payload /\
  (length (take (M - 22) payload) <= M - 22)%nat /\
  (forall c, c ∈ chunks (n - 1) (M - 8) (drop (M - 22) payload) -> (length c <= M - 8)%nat) /\
  (n - 1 = 0 \/ ((n - 1 - 1) * (M - 8) < length (drop (M - 22) payload) <= (n - 1) * (M - 8)))%nat.
Proof.
  intros HM Hlen n. destruct (ceil_div (length payload + 14) (M - 8)) as [Hup Hlow]; [lia|].
  fold n in Hup, Hlow. specialize (Hlow ltac:(lia)). pose proof (length_drop payload (M - 22)) as Hd.
  assert (1 <= n <= 255)%nat as Hn by nia.
  assert (n - 1 = 0 \/ ((n - 1 - 1) * (M - 8) < length (drop (M - 22) payload) <= (n - 1) * (M - 8)))%nat
    as Hrest by (destruct (decide (n = 1%nat)) as [->|]; [by left|right; nia]).
  split_and!; [lia|lia| | | | |done].
  - unfold cut. cbn [length]. rewrite length_chunks. fold n. lia.
  - unfold cut. cbn [concat]. fold n. rewrite concat_chunks by (destruct Hrest; nia). apply take_drop.
  - rewrite length_take. lia.
  - intros c. apply chunks_short.
Qed.

(** A partitioner of message size [M]. *)
Record part_wf {ID KR} `{NetID ID} (M : nat) (p : Partitioner ID KR) : Prop := {
  pw_min : (22 <= M)%nat;
  pw_max : Z.of_nat M <= 65543;
  pw_base : baseMessageSize p = Z.of_nat M;
  pw_first : firstContentsSize p = Z.of_nat (M - 22);
  pw_part : partContentsSize p = Z.of_nat (M - 8);
  pw_delta : deltaFirstPart p = 14;
  pw_maxSize : maxSize p = Z.of_nat ((M - 22) + 254 * (M - 8));
}.

(** The parts on the wire. *)
Definition wire (mt messageID : Z) (ts : Time) (M : nat) (cs : list (list byte)) : list (list byte) :=
  match cs with
  | [] => []
  | c :: cs => firstPartBytes mt messageID (Z.of_nat (Datatypes.S (length cs))) ts c M
                 :: restBytes 1 messageID M cs
  end.

Section outgoing.
Context {ID KR MID : Type} `{NetID ID} `{E2ECrypto KR MID}.
Context {S : Type} `{EKV S} `{!EKVReliable S} `{JsonCodec (mpmData ID KR)} `{JsonCodec (list (mpmData ID KR))}.

Lemma NewPartitioner_wf (s s' : S) v M now (p : Partitioner ID KR) :
  (22 <= M)%nat -> Z.of_nat M <= 65543 ->
  NewPartitioner s v (Z.of_nat M) now = Ok (s', p) -> part_wf M p.
Proof.
  intros Hmin Hmax Hp. unfold NewPartitioner in Hp. apply bind_Ok in Hp as (cs & _ & Hp).
  apply bind_Ok in Hp as ([s1 st] & _ & Hp). injection Hp as <- <-.
  split; simpl; unfold_lens; unfold MaxMessageParts; lia.
Qed.

Lemma intDiv_nat (a b : nat) : (0 < b)%nat -> intDiv (Z.of_nat a) (Z.of_nat b) = Ok (Z.of_nat (a / b)).
Proof.
  intros Hb. unfold intDiv. rewrite (proj2 (Z.eqb_neq _ 0)) by lia.
  by rewrite Z.quot_div_nonneg, Nat2Z.inj_div by lia.
Qed.

Lemma Partition_ok M (s s1 : S) (p : Partitioner ID KR) recipient mt ts payload now cs c :
  part_wf M p -> (length payload <= (M - 22) + 254 * (M - 8))%nat ->
  ConvStore_Get s (conversation p) recipient now = Ok (s1, cs, c) -> conv_ok c ->
  exists s2 p', Partitioner_Partition s p recipient mt ts payload now =
    Ok (s2, p', (wire mt (nextSentID c mod 2 ^ 32) ts M (cut M payload), nextSentID c)).
Proof.
  intros [Hmin Hmax Hb Hf Hp Hd Hms] Hlen Hget Hc. unfold Partitioner_Partition.
  rewrite Hms, (proj2 (Z.ltb_ge _ _)), Hget by lia. cbn [mbind result_bind].
  unfold Conversation_GetNextSendID.
  set (c' := mkConversation _ _ _ _ _). destruct (saveOrPanic_ok s1 c' now) as [s2 ->].
  cbn [mbind result_bind setConversation deltaFirstPart partContentsSize firstContentsSize baseMessageSize].
  rewrite land_low32 by apply Hc. rewrite Hd, Hp, Hf, Hb.
  replace (Z.of_nat (length payload) + 14 + Z.of_nat (M - 8) - 1)
    with (Z.of_nat (length payload + 14 + (M - 8) - 1)) by lia.
  rewrite intDiv_nat by lia. cbn [mbind result_bind].
  destruct (cut_facts M payload Hmin Hlen) as (Hn & Hcl & _ & Hl0 & _ & Hrest).
  unfold cut in *. cbn [length] in Hcl. rewrite length_chunks in Hcl.
  set (n := ((length payload + 14 + (M - 8) - 1) / (M - 8))%nat) in *.
  rewrite wrapu_small by (unfold is_u; lia).
  destruct (splitPayload_spec payload (M - 22)) as (rest & -> & Hr). cbn [mbind result_bind].
  rewrite newFirstMessagePart_spec by lia. cbn [mbind result_bind]. rewrite Nat2Z.id.
  clearbody n. destruct n as [|n]; [lia|]. cbn [replicate].
  change (store_at ([] :: replicate n []) 0 ?x) with (store_at ([] :: replicate n []) (Z.of_nat 0) x).
  rewrite store_at_nat by (simpl; lia). cbn [mbind result_bind insert list_insert].
  replace (Z.to_nat (Z.of_nat (Datatypes.S n) - 1)) with n by lia.
  unfold firstMessagePart_bytes, firstPartView. cbn [fm_part mp_Data].
  pose proof (partsLoop_spec n 1 (nextSentID c mod 2 ^ 32) M (M - 8) rest
    [firstPartBytes mt (nextSentID c mod 2 ^ 32) (Z.of_nat (Datatypes.S n)) ts (take (M - 22) payload) M]) as Hloop.
  cbn [app] in Hloop. change (Z.of_nat 1) with 1 in Hloop. rewrite Nat.sub_succ, Nat.sub_0_r in *.
  rewrite Hloop; [|lia|lia|done|].
  - cbn [mbind result_bind]. do 2 eexists. do 3 f_equal. unfold wire. rewrite length_chunks. f_equal.
    destruct n as [|n]; [done|]. rewrite Hr; [done|]. rewrite length_drop in Hrest. lia.
  - destruct n as [|n]; [by left|]. rewrite Hr by (rewrite length_drop in Hrest; lia).
    rewrite length_drop in *. destruct Hrest as [?|?]; [done|]. by right.
Qed.
End outgoing.

(** ** Receiving the parts *)

Lemma index_seg segs (i : nat) b (off : Z) :
  segs !! i = Some [b] -> off = Z.of_nat (segOff segs i) -> index (concat segs) off = Ok b.
Proof.
  intros Hi ->. apply index_nat. rewrite (concat_split segs i [b] Hi). unfold segOff.
  by apply list_lookup_middle.
Qed.

Lemma isFirst_first mt id np ts c M : isFirst (firstPartBytes mt id np ts c M) = Ok true.
Proof.
  unfold isFirst, firstPartBytes, idLen. by rewrite (index_seg _ 1 x00) by (reflexivity || seg_off).
Qed.

Lemma isFirst_part id (i : nat) c M :
  (1 <= i <= 255)%nat -> isFirst (partBytes id (Z.of_nat i) c M) = Ok false.
Proof.
  intros Hi. unfold isFirst, partBytes, idLen.
  rewrite (index_seg _ 1 (byte_of_Z (Z.of_nat i))) by (reflexivity || seg_off).
  cbn [mbind result_bind]. rewrite Z_of_byte_of_Z_u8 by (unfold is_u; lia).
  by rewrite (proj2 (Z.eqb_neq _ 0)) by lia.
Qed.

Section incoming.
Context {ID KR MID : Type} `{NetIDLaws ID} `{E2ECrypto KR MID}.
Context {S : Type} `{EKVLaws S} `{!EKVReliable S}.
Context `{JsonCodec (mpmData ID KR)} `{!MpmJson ID KR} `{JsonCodec (list (mpmData ID KR))}.

Lemma saveOrPanic_confined (s s' : S) (c : Conversation ID) now :
  saveOrPanic s c now = Ok s' -> kv_handle (c_kv c) ->
  strContains PrefixSeparator (makeConversationKey (c_partner c)) = false ->
  confined (prefix (c_kv c)) s s'.
Proof.
  unfold saveOrPanic. destruct (Conversation_save s c now) as [s1 [e|]] eqn:Hs; [done|].
  intros [= ->] Hh Hk. by apply (kv_Set_confined _ _ _ _ _ _ Hs).
Qed.

Lemma process_confined (s s' : S) (c c' : Conversation ID) mid g now :
  Conversation_ProcessReceivedMessageID s c mid now = Ok (s', c', g) -> kv_handle (c_kv c) ->
  strContains PrefixSeparator (makeConversationKey (c_partner c)) = false ->
  confined (prefix (c_kv c)) s s'.
Proof.
  intros Hrun Hh Hk. unfold Conversation_ProcessReceivedMessageID in Hrun.
  repeat case_match; simplify_eq; try apply confined_refl;
    apply bind_Ok in Hrun as (s1 & Hs1 & Hrun); simplify_eq;
    by apply saveOrPanic_confined in Hs1.
Qed.

(** The conversation [Get] would give: loaded, or new. *)
Definition conv_state (s : S) (cs : ConvStore ID) (partner : ID) (c : Conversation ID) : Prop :=
  conv_ok c /\ c_partner c = partner /\ c_kv c = cs_kv cs /\
  (loadedConversations cs !! partner = Some c \/
   loadedConversations cs !! partner = None /\ c = mkConversation 0 0 0 partner (cs_kv cs) /\
   exists e, kv_Get (cs_kv cs) s (makeConversationKey partner) currentConversationVersion = inl e /\
     ekv_Exists S e = false).

(** Loaded in memory. *)
Definition conv_loaded (cs : ConvStore ID) (partner : ID) (c : Conversation ID) : Prop :=
  conv_ok c /\ c_partner c = partner /\ c_kv c = cs_kv cs /\
  loadedConversations cs !! partner = Some c.

Lemma conv_loaded_state (s : S) cs partner c : conv_loaded cs partner c -> conv_state s cs partner c.
Proof. intros (? & ? & ? & ?). split_and!; try done. by left. Qed.

Lemma Get_spec (s : S) cs partner c now :
  conv_state s cs partner c -> kv_handle (cs_kv cs) ->
  strContains PrefixSeparator (makeConversationKey partner) = false ->
  exists s' cs', ConvStore_Get s cs partner now = Ok (s', cs', c) /\
    cs_kv cs' = cs_kv cs /\ confined (prefix (cs_kv cs)) s s'.
Proof.
  intros (Hc & Hp & Hkv & Hst) Hh Hk. unfold ConvStore_Get.
  destruct Hst as [->|(-> & -> & e & Hg & He)].
  - exists s, cs. split_and!; [done|done|apply confined_refl].
  - unfold LoadOrMakeConversation, loadConversation. rewrite Hg, ekv_exists_wrap, He.
    set (c := mkConversation 0 0 0 partner (cs_kv cs)).
    destruct (saveOrPanic_ok s c now) as [s' Hs]. rewrite Hs. cbn [mbind result_bind].
    do 2 eexists. split_and!; [done|done|]. by apply saveOrPanic_confined in Hs.
Qed.

Lemma receivedID_spec (s : S) (p : Partitioner ID KR) sender c g now :
  let cs := conversation p in
  conv_state s cs sender c -> kv_handle (cs_kv cs) ->
  strContains PrefixSeparator (makeConversationKey sender) = false ->
  is_u 64 g -> Z.abs (g - lastFull c) < 2 ^ 30 ->
  exists s' cs' c', receivedID s p sender (g mod 2 ^ 32) now = Ok (s', setConversation p cs', g) /\
    conv_loaded cs' sender c' /\ cs_kv cs' = cs_kv cs /\
    lastFull c' = Z.max (lastFull c) g /\ confined (prefix (cs_kv cs)) s s'.
Proof.
  intros cs Hst Hh Hk Hg Hw. pose proof Hst as (Hc & Hp & Hkv & _). unfold receivedID. fold cs.
  destruct (Get_spec s cs sender c now Hst Hh Hk) as (s1 & cs1 & -> & Hkv1 & Hc1). cbn [mbind result_bind].
  destruct (process_spec s1 c g now Hc Hg Hw) as (s2 & c2 & Hrun & Hok2 & Hl2 & _ & Hp2 & Hkv2).
  pose proof (process_confined s1 s2 c c2 _ _ _ Hrun) as Hc2. rewrite Hrun. cbn [mbind result_bind].
  rewrite Hkv, Hp in *. exists s2, (ConvStore_put cs1 c2), c2.
  split; [done|]. split_and!; [|done|done|by eapply confined_trans; eauto].
  split_and!; [done|done|simpl; congruence|]. unfold ConvStore_put. cbn [loadedConversations].
  by rewrite Hp2, lookup_insert_eq.
Qed.

(** [HandlePartition] on the bytes of a part: the full ID, then the store. *)
Lemma handle_first (s : S) (p : Partitioner ID KR) sender mt id np ts c M fp r now :
  is_u 32 mt -> is_u 32 id -> is_u 8 np -> - 2 ^ 63 <= ts < 2 ^ 63 ->
  (22 + length c <= M)%nat -> Z.of_nat (length c) < 65536 ->
  Partitioner_HandlePartition s p sender (firstPartBytes mt id np ts c M) fp r now =
    '(s, p, messageID) ← receivedID s p sender id now;
    '(s, st, o) ← receive s (partition p) (sender, messageID)
                    (mkArrival 0 c (Some (mkHeader np ts now mt, r))) fp now;
    Ok (s, setPartition p st, o).
Proof.
  intros Hmt Hid Hnp Hts Hlen Hmax. unfold Partitioner_HandlePartition. rewrite isFirst_first.
  cbn [mbind result_bind]. rewrite firstMessagePartFromBytes_part by done. cbn [mbind result_bind].
  destruct (firstPartView_reads mt id np ts c M Hmt Hid Hnp Hts Hlen Hmax)
    as ((-> & Hpart & _ & Hsized) & Hty & Hn & Ht & _). cbn [mbind result_bind].
  destruct (receivedID s p sender id now) as [[[s1 p1] mid]| |]; [|done..]. cbn [mbind result_bind].
  rewrite Hty, Hpart, Hn, Ht, Hsized. cbn [mbind result_bind]. done.
Qed.

Lemma handle_part (s : S) (p : Partitioner ID KR) sender id (i : nat) c M fp r now :
  is_u 32 id -> (1 <= i <= 255)%nat -> (8 + length c <= M)%nat -> Z.of_nat (length c) < 65536 ->
  Partitioner_HandlePartition s p sender (partBytes id (Z.of_nat i) c M) fp r now =
    '(s, p, messageID) ← receivedID s p sender id now;
    '(s, st, o) ← receive s (partition p) (sender, messageID) (mkArrival i c None) fp now;
    Ok (s, setPartition p st, o).
Proof.
  intros Hid Hi Hlen Hmax. unfold Partitioner_HandlePartition. rewrite isFirst_part by done.
  cbn [mbind result_bind]. rewrite messagePartFromBytes_part by done. cbn [mbind result_bind].
  destruct (partView_reads id (Z.of_nat i) c M Hid ltac:(unfold is_u; lia) Hlen Hmax)
    as (-> & Hpart & _ & Hsized). cbn [mbind result_bind].
  destruct (receivedID s p sender id now) as [[[s1 p1] mid]| |]; [|done..]. cbn [mbind result_bind].
  rewrite Hpart, Hsized. cbn [mbind result_bind]. done.
Qed.
End incoming.

(** ** Any order of arrival *)

Section any_order.
Context {ID KR MID : Type} `{NetIDLaws ID} `{E2ECrypto KR MID}.
Context (k : ID * Z) (cs : list (list byte)) (h : header) (r0 : KR).
Context (Hnum : h_num h = Z.of_nat (length cs)).

(** The arrival of part [i]. *)
Definition arr (i : nat) : arrival KR :=
  mkArrival i (default [] (cs !! i)) (if decide (i = 0)%nat then Some (h, r0) else None).

(** The parts in [got] have been received. *)
Record received (A : gmap (ID * Z) (amsg KR)) (got : list nat) : Prop := {
  rc_parts i : am_parts (default am_empty (A !! k)) !! i = if decide (i ∈ got) then cs !! i else None;
  rc_hdr : am_hdr (default am_empty (A !! k)) = if decide (0%nat ∈ got) then Some h else None;
  rc_res : 0%nat ∈ got -> am_res (default am_empty (A !! k)) = r0;
}.

Lemma received_new A : A !! k = None -> received A [].
Proof.
  intros Hk. split; rewrite Hk; cbn [default from_option id am_empty am_parts am_hdr].
  - intros i. by rewrite lookup_empty, decide_False by (by apply not_elem_of_nil).
  - by rewrite decide_False by (by apply not_elem_of_nil).
  - by intros ?%not_elem_of_nil.
Qed.

Lemma received_add A got i :
  received A got -> (i < length cs)%nat ->
  received (<[k := am_add (default am_empty (A !! k)) (arr i)]> A) (i :: got).
Proof.
  intros [Hp Hh Hr] Hi. destruct (lookup_lt_is_Some_2 cs i Hi) as [c Hc].
  split; rewrite lookup_insert_eq; cbn [default from_option id am_add am_parts am_hdr am_res arr
    ar_num ar_part ar_first].
  - intros j. rewrite Hc. cbn [default from_option id]. destruct (decide (j = i)) as [->|Hne].
    + by rewrite lookup_insert_eq, decide_True by left.
    + rewrite lookup_insert_ne, Hp by done.
      destruct (decide (j ∈ got)), (decide (j ∈ i :: got)) as [Hj|Hj]; try done.
      * exfalso. apply Hj. by right.
      * apply elem_of_cons in Hj as [?|?]; done.
  - destruct (decide (i = 0%nat)) as [->|Hne].
    + by rewrite decide_True by left.
    + rewrite Hh. destruct (decide (0%nat ∈ got)), (decide (0%nat ∈ i :: got)) as [Hj|Hj]; try done.
      * exfalso. apply Hj. by right.
      * apply elem_of_cons in Hj as [?|?]; done.
  - intros Hj. destruct (decide (i = 0%nat)); [done|]. apply Hr. apply elem_of_cons in Hj as [?|?]; done.
Qed.

Definition all_in (got : list nat) : Prop := Forall (fun i => i ∈ got) (seq 0 (length cs)).

#[local] Instance all_in_dec got : Decision (all_in got) := _.

Lemma all_in_spec got : all_in got <-> forall i, (i < length cs)%nat -> i ∈ got.
Proof.
  unfold all_in. rewrite Forall_forall. split.
  - intros Hall i Hi. apply Hall, in_seq. lia.
  - intros Hall i Hi%in_seq. apply Hall. lia.
Qed.

Lemma am_complete_received A got :
  received A got -> (1 <= length cs)%nat ->
  am_complete (default am_empty (A !! k)) =
    if decide (all_in got) then Some h else None.
Proof.
  intros [Hp Hh Hr] Hn. unfold am_complete. rewrite Hh.
  destruct (decide (all_in got)) as [Hall|Hall]; rewrite all_in_spec in Hall.
  - rewrite decide_True by (apply Hall; lia). cbn [mbind option_bind]. rewrite Hnum, Nat2Z.id.
    rewrite (proj2 (forallb_forall _ _)); [done|]. intros i [_ Hi]%in_seq.
    apply bool_decide_eq_true. rewrite Hp, decide_True by (apply Hall; lia).
    apply lookup_lt_is_Some_2. lia.
  - destruct (decide (0%nat ∈ got)) as [H0'|H0']; [|done]. cbn [mbind option_bind].
    rewrite Hnum, Nat2Z.id. case_match eqn:Hf; [|done]. exfalso. apply Hall. intros i Hi.
    rewrite forallb_forall in Hf. specialize (Hf i ltac:(apply in_seq; lia)).
    apply bool_decide_eq_true in Hf as [x Hx]. rewrite Hp in Hx. by case_decide.
Qed.

Lemma received_payload A got :
  received A got -> all_in got ->
  am_payload (default am_empty (A !! k)) h = concat cs.
Proof.
  intros [Hp _ _] Hall. rewrite all_in_spec in Hall. unfold am_payload. rewrite Hnum, Nat2Z.id. f_equal.
  apply list_eq. intros i. rewrite list_lookup_fmap. destruct (decide (i < length cs)%nat) as [Hi|Hi].
  - rewrite lookup_seq_lt by done. simpl. rewrite Hp, decide_True by (by apply Hall).
    by destruct (lookup_lt_is_Some_2 cs i Hi) as [c ->].
  - rewrite lookup_seq_ge, lookup_ge_None_2 by lia. done.
Qed.

(** One arrival of a new part. *)
Lemma reassemble_received A got i fp :
  received A got -> (i < length cs)%nat ->
  let complete := all_in (i :: got) in
  (complete -> (reassemble A k (arr i) fp).2 =
     Some (mkReceiveMessage (concat cs) (h_type h) k.1 (h_sent h)
             (if (length fp =? 0)%nat then zeroMessageID else NewMessageID fp k.2), r0)) /\
  (~ complete -> (reassemble A k (arr i) fp).2 = None /\
     received (reassemble A k (arr i) fp).1 (i :: got)).
Proof.
  intros Hrc Hi complete. pose proof (received_add A got i Hrc Hi) as Hrc'.
  pose proof (am_complete_received _ _ Hrc' ltac:(lia)) as Hc.
  pose proof (received_payload _ _ Hrc') as Hpay. pose proof (rc_res _ _ Hrc') as Hres.
  rewrite lookup_insert_eq in Hc, Hpay, Hres. cbn [default from_option id] in Hc, Hpay, Hres.
  unfold reassemble. split.
  - intros Hcomp. rewrite Hc, decide_True by done. cbn [snd].  unfold am_message.
    rewrite Hpay by done. unfold complete in Hcomp. rewrite all_in_spec in Hcomp. rewrite Hres by (apply Hcomp; lia). done.
  - intros Hcomp. rewrite Hc, decide_False by done. split; [done|]. apply Hrc'.
Qed.

Lemma arrival_received_ok (ks : list (ID * Z)) (N : ID * Z -> Z) A got i :
  received A got -> (i < length cs)%nat -> i ∉ got -> k ∈ ks -> N k = Z.of_nat (length cs) ->
  time_wf (h_sent h) -> time_wf (h_stored h) -> is_u 32 (h_type h) ->
  arrival_ok ks N A k (arr i).
Proof.
  intros [Hp _ _] Hi Hnew Hk HN Hs Ht Hty. split; cbn [arr ar_num ar_first]; [done|lia| |].
  - by rewrite Hp, decide_False.
  - intros h' r'. case_decide; [|done]. intros [= <- <-]. rewrite HN. done.
Qed.
End any_order.

(** ** Delivery *)

Section delivery.
Context {ID KR MID : Type} `{NetIDLaws ID} `{E2ECrypto KR MID}.
Context {S : Type} `{EKVLaws S} `{!EKVReliable S}.
Context `{JsonCodec (mpmData ID KR)} `{!MpmJson ID KR} `{JsonCodec (list (mpmData ID KR))}.

(** Hands the parts over one by one; each comes with its residue. *)
Fixpoint handleSeq (s : S) (p : Partitioner ID KR) (sender : ID) (l : list (list byte * KR))
    (fp : list byte) (now : Time) :
    result (S * Partitioner ID KR * list (option (receiveMessage ID MID * KR))) :=
  match l with
  | [] => Ok (s, p, [])
  | (part, residue) :: l =>
      '(s, p, o) ← Partitioner_HandlePartition s p sender part fp residue now;
      '(s, p, os) ← handleSeq s p sender l fp now;
      Ok (s, p, o :: os)
  end.

(** A receiver that has nothing of the message [g] of [sender] yet, and whose
    conversation with the sender is within the window. *)
Record receiver_ready (v : kv) (ks : list (ID * Z)) (N : ID * Z -> Z) (s : S) (p : Partitioner ID KR)
    (A : gmap (ID * Z) (amsg KR)) (sender : ID) (g n : Z) (c : Conversation ID) : Prop := {
  rr_setting : setting v ks N;
  rr_inv : ps_inv v ks N s (partition p) A;
  rr_key : (sender, g) ∈ ks;
  rr_num : N (sender, g) = n;
  rr_new : A !! (sender, g) = None;
  rr_conv : conv_state s (conversation p) sender c;
  rr_window : Z.abs (g - lastFull c) < 2 ^ 30;
  rr_handle : kv_handle (cs_kv (conversation p));
  rr_apart k vk : k ∈ ks -> keyKV v k = Ok vk -> prefix vk ≠ prefix (cs_kv (conversation p));
}.

Lemma restBytes_lookup cs id M i j c :
  cs !! j = Some c -> restBytes i id M cs !! j = Some (partBytes id (Z.of_nat (i + j)) c M).
Proof.
  revert i j. induction cs as [|x cs IH]; intros i [|j] Hj; simpl in *; try done.
  - simplify_eq. by rewrite Nat.add_0_r.
  - rewrite (IH (Datatypes.S i) j Hj). do 3 f_equal. lia.
Qed.

Lemma wire_lookup mt id ts M cs i c :
  cs !! i = Some c ->
  wire mt id ts M cs !! i =
    Some (if decide (i = 0)%nat then firstPartBytes mt id (Z.of_nat (length cs)) ts c M
          else partBytes id (Z.of_nat i) c M).
Proof.
  destruct cs as [|c0 cs]; [done|]. destruct i as [|i]; simpl; intros Hi; [by simplify_eq|].
  by rewrite (restBytes_lookup _ _ _ 1 i c Hi).
Qed.

Context (v : kv) (ks : list (ID * Z)) (N : ID * Z -> Z) (Hset : setting v ks N).
Context (sender : ID) (g : Z) (M : nat) (cs : list (list byte)) (mt : Z) (ts now : Time) (rs : nat -> KR).
Context (Hkey : (sender, g) ∈ ks) (HN : N (sender, g) = Z.of_nat (length cs)).
Context (HM : Z.of_nat M <= 65543) (Hmt : is_u 32 mt).
Context (Hts : - 2 ^ 63 <= ts < 2 ^ 63) (Hts' : time_wf ts) (Hnow : time_wf now).
Context (Hsize : forall i c, cs !! i = Some c -> ((if decide (i = 0%nat) then 22 else 8) + length c <= M)%nat).

Definition dh : header := mkHeader (Z.of_nat (length cs)) ts now mt.
Definition darr (i : nat) : arrival KR := arr cs dh (rs 0%nat) i.
Definition dmsg (i : nat) : list byte * KR :=
  (default [] (wire mt (g mod 2 ^ 32) ts M cs !! i), rs i).

Lemma handle_receive (s : S) p i fp :
  (i < length cs)%nat ->
  Partitioner_HandlePartition s p sender (dmsg i).1 fp (dmsg i).2 now =
    '(s, p, messageID) ← receivedID s p sender (g mod 2 ^ 32) now;
    '(s, st, o) ← receive s (partition p) (sender, messageID) (darr i) fp now;
    Ok (s, setPartition p st, o).
Proof.
  intros Hi. destruct (lookup_lt_is_Some_2 cs i Hi) as [c Hc].
  pose proof (Hsize i c Hc) as Hsz. destruct (set_num _ _ _ Hset _ Hkey) as [Hn _]. rewrite HN in Hn.
  assert (is_u 32 (g mod 2 ^ 32)) as Hid by (apply (wrapu_range 32); lia).
  unfold dmsg, darr, arr, dh. rewrite (wire_lookup _ _ _ _ _ _ _ Hc), Hc. cbn [fst snd default from_option id].
  case_decide; subst.
  - apply handle_first; try done; [unfold is_u; lia|lia].
  - apply handle_part; try done; lia.
Qed.

Lemma handle_step (s : S) p A c got i fp :
  ps_inv v ks N s (partition p) A -> received (sender, g) cs dh (rs 0%nat) A got ->
  conv_state s (conversation p) sender c -> Z.abs (g - lastFull c) < 2 ^ 30 ->
  kv_handle (cs_kv (conversation p)) ->
  (forall k vk, k ∈ ks -> keyKV v k = Ok vk -> prefix vk ≠ prefix (cs_kv (conversation p))) ->
  (i < length cs)%nat -> i ∉ got ->
  exists s' p' c', Partitioner_HandlePartition s p sender (dmsg i).1 fp (dmsg i).2 now
      = Ok (s', p', (reassemble A (sender, g) (darr i) fp).2) /\
    ps_inv v ks N s' (partition p') (reassemble A (sender, g) (darr i) fp).1 /\
    conv_state s' (conversation p') sender c' /\ Z.abs (g - lastFull c') < 2 ^ 30 /\
    cs_kv (conversation p') = cs_kv (conversation p).
Proof.
  intros Hinv Hrc Hst Hw Hh Hp Hi Hnew. rewrite handle_receive by done.
  destruct (set_num _ _ _ Hset _ Hkey) as [Hn Hg]. destruct (set_place _ _ _ Hset _ Hkey) as [vk Hvk].
  assert (strContains PrefixSeparator (makeConversationKey sender) = false) as Hsep.
  { apply keyKV_Ok in Hvk as (v1 & Hv1 & _). by apply kv_Prefix_Ok in Hv1 as [? _]. }
  destruct (receivedID_spec s p sender c g now Hst Hh Hsep Hg Hw) as (s1 & cs1 & c1 & -> & Hl1 & Hkv1 & Hm1 & Hc1).
  cbn [mbind result_bind setConversation partition].
  assert (ps_inv v ks N s1 (partition p) A) as Hinv1 by (eapply inv_frame; eauto).
  destruct (receive_refines v ks N Hset s1 (partition p) A (sender, g) (darr i) fp now) as (s2 & st2 & -> & Hinv2);
    [done| |].
  { eapply arrival_received_ok; eauto. }
  cbn [mbind result_bind]. do 3 eexists. split; [done|]. cbn [setPartition partition conversation].
  split; [done|]. split; [by apply conv_loaded_state|]. split; [|done]. rewrite Hm1. lia.
Qed.

Lemma handleSeq_order (s : S) p A c got order fp :
  ps_inv v ks N s (partition p) A -> received (sender, g) cs dh (rs 0%nat) A got ->
  conv_state s (conversation p) sender c -> Z.abs (g - lastFull c) < 2 ^ 30 ->
  kv_handle (cs_kv (conversation p)) ->
  (forall k vk, k ∈ ks -> keyKV v k = Ok vk -> prefix vk ≠ prefix (cs_kv (conversation p))) ->
  got ++ order ≡ₚ seq 0 (length cs) -> order ≠ [] ->
  exists s' p', handleSeq s p sender (dmsg <$> order) fp now =
    Ok (s', p', replicate (length order - 1) None ++
      [Some (mkReceiveMessage (concat cs) mt sender ts
               (if (length fp =? 0)%nat then zeroMessageID else NewMessageID fp g), rs 0%nat)]).
Proof.
  revert s p A c got. induction order as [|i order IH];
    intros s p A c got Hinv Hrc Hst Hw Hh Hp Hperm Hne; [done|].
  assert (i < length cs /\ i ∉ got)%nat as [Hi Hnew].
  { split.
    - assert (i ∈ seq 0 (length cs)) as Hin by (rewrite <- Hperm; apply elem_of_app; right; left).
      apply elem_of_seq in Hin. lia.
    - pose proof (NoDup_seq 0 (length cs)) as Hnd. rewrite <- Hperm in Hnd.
      apply list.NoDup_app in Hnd as (_ & Hdis & _). intros Hin. apply (Hdis i Hin). left. }
  rewrite fmap_cons. cbn [handleSeq]. destruct (dmsg i) as [b r] eqn:Hbr.
  pose proof (handle_step s p A c got i fp Hinv Hrc Hst Hw Hh Hp Hi Hnew) as
    (s1 & p1 & c1 & Hrun & Hinv1 & Hst1 & Hw1 & Hkv1). rewrite Hbr in Hrun. cbn [fst snd] in Hrun. rewrite Hrun.
  cbn [mbind result_bind].
  destruct (reassemble_received (sender, g) cs dh (rs 0%nat) eq_refl A got i fp Hrc Hi) as [Hcomp Hpart].
  fold (darr i) in Hcomp, Hpart. destruct order as [|j order].
  - rewrite Hcomp. { cbn [fmap list_fmap handleSeq mbind result_bind]. eauto. }
    apply all_in_spec. intros j Hj. assert (j ∈ got ++ [i]) as Hin by (rewrite Hperm; apply elem_of_seq; lia).
    apply elem_of_app in Hin as [?|Hin]; [by right|]. apply list_elem_of_singleton in Hin as ->. left.
  - destruct Hpart as [-> Hrc1].
    { rewrite all_in_spec. intros Hall.
      assert (j ∈ i :: got) as Hin.
      { apply Hall. assert (j ∈ seq 0 (length cs)) as Hin by
          (rewrite <- Hperm; apply elem_of_app; right; right; left). apply elem_of_seq in Hin. lia. }
      pose proof (NoDup_seq 0 (length cs)) as Hnd. rewrite <- Hperm in Hnd.
      apply list.NoDup_app in Hnd as (_ & Hdis & Hnd). apply elem_of_cons in Hin as [->|Hin].
      - apply list.NoDup_cons in Hnd as [Hn _]. apply Hn. left.
      - apply (Hdis j Hin). right. left. }
    destruct (IH s1 p1 _ c1 (i :: got) Hinv1 Hrc1 Hst1 Hw1) as (s2 & p2 & ->); try (by rewrite Hkv1); try done.
    { rewrite <- Hperm. simpl. apply Permutation_middle. }
    cbn [mbind result_bind length]. replace (Datatypes.S (Datatypes.S (length order)) - 1)%nat
      with (Datatypes.S (Datatypes.S (length order) - 1)) by lia. cbn [replicate app]. eauto.
Qed.
End delivery.

Lemma length_wire mt id ts M cs : length (wire mt id ts M cs) = length cs.
Proof.
  destruct cs as [|c cs]; [done|]. simpl. f_equal. generalize 1%nat.
  induction cs as [|c' cs IH]; intros i; simpl; [done|]. by rewrite IH.
Qed.

Lemma cut_sizes M payload i c :
  (22 <= M)%nat -> (length payload <= (M - 22) + 254 * (M - 8))%nat -> cut M payload !! i = Some c ->
  ((if decide (i = 0%nat) then 22 else 8) + length c <= M)%nat.
Proof.
  intros HM Hlen Hi. destruct (cut_facts M payload HM Hlen) as (_ & _ & _ & H0 & Hr & _).
  unfold cut in Hi. destruct i as [|i]; simpl in Hi.
  - simplify_eq. rewrite decide_True by done. lia.
  - rewrite decide_False by done. apply list_elem_of_lookup_2, Hr in Hi. lia.
Qed.

(** [Partition] cuts a payload of any accepted length into 1 to 255 parts of
    exactly the base message size; the first part announces their number, type
    and timestamp, part [i] carries number [i], all carry the low 32 bits of the
    returned message ID, and the sized contents of the parts, in order, are the
    payload.  A payload longer than the maximum is an error. *)
Theorem Partitioner_splits {ID KR MID} `{NetID ID} `{E2ECrypto KR MID} {S} `{EKVReliable S}
    `{JsonCodec (mpmData ID KR)} `{JsonCodec (list (mpmData ID KR))}
    M (s s1 : S) (p : Partitioner ID KR) recipient mt ts payload now cs c :
  part_wf M p -> ConvStore_Get s (conversation p) recipient now = Ok (s1, cs, c) -> conv_ok c ->
  is_u 32 mt -> - 2 ^ 63 <= ts < 2 ^ 63 ->
  if maxSize p <? Z.of_nat (length payload) then
    exists e, Partitioner_Partition s p recipient mt ts payload now = Err e
  else
    exists s2 p' parts contents,
      Partitioner_Partition s p recipient mt ts payload now = Ok (s2, p', (parts, nextSentID c)) /\
      concat contents = payload /\ length parts = length contents /\ (1 <= length parts <= 255)%nat /\
      forall i b, parts !! i = Some b ->
        length b = M /\
        exists x, contents !! i = Some x /\
          if decide (i = 0%nat) then
            exists m, firstMessagePartFromBytes b = Ok m /\
              part_reads (fm_part m) (nextSentID c mod 2 ^ 32) 0 x /\
              firstMessagePart_getType m = Ok mt /\ firstMessagePart_getTimestamp m = Ok ts /\
              firstMessagePart_getNumParts m = Ok (Z.of_nat (length parts))
          else
            exists m, messagePartFromBytes b = Ok m /\
              part_reads m (nextSentID c mod 2 ^ 32) (Z.of_nat i) x.
Proof.
  intros Hp Hget Hc Hmt Hts. pose proof Hp as [Hmin Hmax _ _ _ _ Hms].
  destruct (Z.ltb_spec (maxSize p) (Z.of_nat (length payload))) as [Hlt|Hge].
  { unfold Partitioner_Partition. rewrite (proj2 (Z.ltb_lt _ _)) by done. eauto. }
  assert (length payload <= (M - 22) + 254 * (M - 8))%nat as Hlen by lia.
  destruct (Partition_ok M s s1 p recipient mt ts payload now cs c Hp Hlen Hget Hc) as (s2 & p' & Hrun).
  destruct (cut_facts M payload Hmin Hlen) as (Hn & Hcl & Hcc & _ & _ & _).
  do 2 eexists. exists (wire mt (nextSentID c mod 2 ^ 32) ts M (cut M payload)), (cut M payload).
  split; [exact Hrun|]. rewrite length_wire. split_and!; [done|done|lia|lia|].
  intros i b Hi. pose proof (lookup_lt_Some _ _ _ Hi) as Hil. rewrite length_wire in Hil.
  destruct (lookup_lt_is_Some_2 _ _ Hil) as [x Hx]. rewrite (wire_lookup _ _ _ _ _ _ _ Hx) in Hi.
  pose proof (cut_sizes M payload i x Hmin Hlen Hx) as Hsz.
  assert (is_u 32 (nextSentID c mod 2 ^ 32)) as Hid by (apply (wrapu_range 32); lia).
  case_decide; simplify_eq.
  - split; [by apply length_firstPartBytes|]. exists x. split; [done|].
    eexists. split; [by apply firstMessagePartFromBytes_part|].
    destruct (firstPartView_reads mt (nextSentID c mod 2 ^ 32) (Z.of_nat (length (cut M payload))) ts x M)
      as (? & ? & ? & ? & _); done || (unfold is_u; lia) || lia.
  - split; [by apply length_partBytes|]. exists x. split; [done|].
    eexists. split; [by apply messagePartFromBytes_part|].
    apply partView_reads; done || (unfold is_u; lia) || lia.
Qed.

(** C5: End to end: the parts that [Partition] returns, handed to
    [HandlePartition] of the receiver in any order, give nothing until the last
    one, which gives the message: the payload, type, timestamp and sender of the
    original, and the key residue that came with the first part.  The receiver
    may be in the middle of any other messages; it must not have the message
    yet, and its conversation with the sender must be within 2^30 messages. *)
Theorem Partitioner_delivers {ID KR MID} `{NetIDLaws ID} `{E2ECrypto KR MID} {S} `{EKVLaws S}
    `{!EKVReliable S} `{JsonCodec (mpmData ID KR)} `{!MpmJson ID KR} `{JsonCodec (list (mpmData ID KR))}
    M (s1 s1' s2 : S) (p1 p2 : Partitioner ID KR) recipient sender mt ts payload now cs1 c1 c2
    v ks N A rs fp :
  let g := nextSentID c1 in
  part_wf M p1 -> Z.of_nat (length payload) <= maxSize p1 ->
  is_u 32 mt -> - 2 ^ 63 <= ts < 2 ^ 63 -> time_wf ts -> time_wf now ->
  ConvStore_Get s1 (conversation p1) recipient now = Ok (s1', cs1, c1) -> conv_ok c1 ->
  receiver_ready v ks N s2 p2 A sender g (Z.of_nat (length (cut M payload))) c2 ->
  exists s1'' p1' parts,
    Partitioner_Partition s1 p1 recipient mt ts payload now = Ok (s1'', p1', (parts, g)) /\
    forall order, order ≡ₚ seq 0 (length parts) ->
      exists s2' p2',
        handleSeq s2 p2 sender ((fun i => (default [] (parts !! i), rs i)) <$> order) fp now =
          Ok (s2', p2', replicate (length parts - 1) None ++
            [Some (mkReceiveMessage payload mt sender ts
                     (if (length fp =? 0)%nat then zeroMessageID else NewMessageID fp g), rs 0%nat)]).
Proof.
  intros g Hp Hlen Hmt Hts Hts' Hnow Hget Hc [Hset Hinv Hk HN HA Hst Hw Hh Hap].
  pose proof Hp as [Hmin Hmax _ _ _ _ Hms].
  assert (length payload <= (M - 22) + 254 * (M - 8))%nat as Hlen' by lia.
  destruct (Partition_ok M s1 s1' p1 recipient mt ts payload now cs1 c1 Hp Hlen' Hget Hc) as (s1'' & p1' & Hrun).
  destruct (cut_facts M payload Hmin Hlen') as (Hn & Hcl & Hcc & _ & _ & _).
  do 3 eexists. split; [exact Hrun|]. rewrite length_wire. intros order Horder.
  destruct (handleSeq_order v ks N Hset sender g M (cut M payload) mt ts now rs Hk HN Hmax Hmt Hts Hts' Hnow
    (fun i c => cut_sizes M payload i c Hmin Hlen') s2 p2 A c2 [] order fp Hinv) as (s2' & p2' & Hseq); try done.
  - by apply received_new.
  - intros ->. apply Permutation_nil in Horder. destruct (cut M payload); [simpl in *; lia|done].
  - exists s2', p2'. rewrite Hcc in Hseq.
    assert (length order = length (cut M payload)) as Hlo by (rewrite Horder; apply length_seq).
    rewrite Hlo in Hseq. exact Hseq.
Qed.

(** *** Witnesses *)

#[local] Existing Instance ex_codec.
#[local] Existing Instance ex_codecs.
#[local] Existing Instance ex_json.
#[local] Existing Instance ex_crypto.

Definition ex_conv_kv : kv := match kv_Prefix NewKV conversationKeyPrefix with Ok v => v | _ => NewKV end.

Definition ex_partitioner : Partitioner Z Z :=
  mkPartitioner 30 8 22 14 (8 + 254 * 22) (mkConvStore ∅ ex_conv_kv) (mkPStore ∅ 0 ∅ ∅ ex_part_kv).

Lemma ex_partitioner_new : NewPartitioner (∅ : MemStore) NewKV 30 0 = Ok (∅, ex_partitioner).
Proof. vm_compute. reflexivity. Qed.

Lemma ex_partitioner_wf : part_wf 30 ex_partitioner.
Proof. by apply (NewPartitioner_wf (∅ : MemStore) ∅ NewKV 30 0); [lia|lia|apply ex_partitioner_new]. Qed.

Definition ex_new_conv (partner : Z) : Conversation Z := mkConversation 0 0 0 partner ex_conv_kv.

Lemma ex_new_conv_ok partner : conv_ok (ex_new_conv partner).
Proof. split; simpl; unfold is_u; lia. Qed.

Definition ex_get (partner : Z) : result (MemStore * ConvStore Z * Conversation Z) :=
  ConvStore_Get (∅ : MemStore) (conversation ex_partitioner) partner 0.

Lemma ex_get_ok partner :
  ex_get partner =
    Ok (match ex_get partner with Ok (s, _, _) => s | _ => ∅ end,
        match ex_get partner with Ok (_, cs, _) => cs | _ => mkConvStore ∅ ex_conv_kv end,
        ex_new_conv partner).
Proof. reflexivity. Qed.

Definition ex_payload : list byte := replicate 12 x61.

Lemma Partitioner_splits_witness :
  exists s2 p' parts contents,
    Partitioner_Partition (∅ : MemStore) ex_partitioner 9 3 5 ex_payload 0 = Ok (s2, p', (parts, 0)) /\
    concat contents = ex_payload /\ length parts = length contents.
Proof.
  destruct (Partitioner_splits 30 (∅ : MemStore) _ ex_partitioner 9 3 5 ex_payload 0 _ (ex_new_conv 9)
    ex_partitioner_wf (ex_get_ok 9) (ex_new_conv_ok 9) ltac:(unfold is_u; lia) ltac:(lia))
    as (s2 & p' & parts & contents & H1 & H2 & H3 & _).
  exists s2, p', parts, contents. split; [exact H1|]. split; [exact H2|exact H3].
Defined.

Definition ex_del_key : Z * Z := (7, 0).

Lemma ex_del_setting : setting ex_part_kv [ex_del_key] (fun _ => 2).
Proof.
  split.
  - by apply (handle_prefix NewKV packagePrefix); [constructor|vm_compute].
  - intros k ->%list_elem_of_singleton. eexists. vm_compute. reflexivity.
  - by intros k k' ->%list_elem_of_singleton ->%list_elem_of_singleton.
  - intros k ->%list_elem_of_singleton. unfold is_u. simpl. lia.
Qed.

Lemma ex_receiver_ready :
  receiver_ready ex_part_kv [ex_del_key] (fun _ => 2) (∅ : MemStore) ex_partitioner ∅ 7 0 2 (ex_new_conv 7).
Proof.
  split.
  - apply ex_del_setting.
  - apply new_inv. intros k vk _ _. eexists. split; vm_compute; reflexivity.
  - by apply list_elem_of_singleton.
  - done.
  - by rewrite lookup_empty.
  - split; [apply ex_new_conv_ok|]. split_and!; [done|done|]. right. split_and!; [apply lookup_empty|done|].
    eexists. split; vm_compute; reflexivity.
  - vm_compute. reflexivity.
  - by apply (handle_prefix NewKV conversationKeyPrefix); [constructor|vm_compute].
  - intros k vk ->%list_elem_of_singleton Hvk. vm_compute in Hvk. injection Hvk as <-. vm_compute. congruence.
Qed.

Lemma ex_two_parts s p parts g :
  Partitioner_Partition (∅ : MemStore) ex_partitioner 9 3 5 ex_payload 0 = Ok (s, p, (parts, g)) ->
  length parts = 2%nat.
Proof.
  intros Hrun.
  apply (f_equal (fun r => match r with Ok (_, _, (ps, _)) => length ps | _ => 0%nat end)) in Hrun.
  rewrite <- Hrun. vm_compute. reflexivity.
Qed.

(** The two parts of the example arrive in the wrong order. *)
Lemma Partitioner_delivers_witness :
  exists s1'' p1' parts,
    Partitioner_Partition (∅ : MemStore) ex_partitioner 9 3 5 ex_payload 0 = Ok (s1'', p1', (parts, 0)) /\
    length parts = 2%nat /\
    exists s2' p2',
      handleSeq (∅ : MemStore) ex_partitioner 7 [(default [] (parts !! 1%nat), 1); (default [] (parts !! 0%nat), 0)] [] 0
        = Ok (s2', p2', [None; Some (mkReceiveMessage ex_payload 3 7 5 0, 0)]).
Proof.
  assert (time_wf 5 /\ time_wf 0) as [Ht5 Ht0] by (unfold time_wf, zeroTime; lia).
  destruct (Partitioner_delivers 30 (∅ : MemStore) _ (∅ : MemStore) ex_partitioner ex_partitioner 9 7 3 5
    ex_payload 0 _ (ex_new_conv 9) (ex_new_conv 7) ex_part_kv [ex_del_key] (fun _ => 2) ∅ Z.of_nat []
    ex_partitioner_wf ltac:(simpl; lia) ltac:(unfold is_u; lia) ltac:(lia) Ht5 Ht0 (ex_get_ok 9)
    (ex_new_conv_ok 9) ex_receiver_ready) as (s1'' & p1' & parts & H1 & H2).
  pose proof (ex_two_parts _ _ _ _ H1) as Hl.
  exists s1'', p1', parts. split; [exact H1|]. split; [exact Hl|].
  rewrite Hl in H2. apply (H2 [1; 0]%nat). apply Permutation_swap.
Defined.
