(* ===== verification/Float64.v ===== *)
(** * [float64]

    The double-precision arithmetic the session parameters use, on the
    executable IEEE-754 model of the Standard Library: products rounded to 53
    bits, conversions from integers, [math.Ceil] and conversion to [uint32]. *)

From Stdlib Require Import SpecFloat.
From S2P Require Import Prelude.

Abbreviation float64 := spec_float.

Definition f64_mul (a b : float64) : float64 := SFmul 53 1024 a b.

(** [float64(z)] *)
Definition f64_of_Z (z : Z) : float64 := binary_normalize 53 1024 z 0 false.

(** [math.Ceil] of a finite value, as an integer. *)
Definition f64_ceil (f : float64) : Z :=
  match f with
  | S754_finite sign m e =>
      let v := if sign then Zneg m else Zpos m in
      if 0 <=? e then v * 2 ^ e else - (- v / 2 ^ (- e))
  | _ => 0
  end.

(** Truncation toward zero. *)
Definition f64_trunc (f : float64) : Z :=
  match f with
  | S754_finite sign m e =>
      let v := if sign then Zneg m else Zpos m in
      if 0 <=? e then v * 2 ^ e else Z.quot v (2 ^ (- e))
  | _ => 0
  end.

(** [uint32(f)] of a value in range. *)
Definition f64_to_u32 (f : float64) : Z := u32 (f64_trunc f).

(** ** [float32] *)

Definition f32_mul (a b : spec_float) : spec_float := SFmul 24 128 a b.
Definition f32_add (a b : spec_float) : spec_float := SFadd 24 128 a b.
Definition f32_of_Z (z : Z) : spec_float := binary_normalize 24 128 z 0 false.

(** [uint16(f)] of a value in range. *)
Definition f32_to_u16 (f : spec_float) : Z := u16 (f64_trunc f).

(** ** Constants

    Of the code: [0.05] and [0.0]. *)
Definition f64_0_05 : float64 := S754_finite false 7205759403792794 (-57).
Definition f64_zero : float64 := S754_zero false.

(** The product is rounded: [0.05 * 1000] is exactly 50, although the double
    nearest to 0.05 is above it. *)
Lemma f64_mul_rounds :
  f64_ceil (f64_mul f64_0_05 (f64_of_Z 1000)) = 50 /\
  f64_ceil (f64_mul f64_0_05 (f64_of_Z 1001)) = 51.
Proof. vm_compute. by split. Qed.

Lemma f64_ceil_nonneg f : f64_ceil f < 0 -> exists m e, f = S754_finite true m e.
Proof.
  destruct f as [s|s| |[|] m e]; simpl; try lia; [by eauto|]. intros Hc. exfalso.
  destruct (Z.leb_spec 0 e).
  - pose proof (Z.pow_pos_nonneg 2 e). nia.
  - pose proof (Z.pow_pos_nonneg 2 (- e) ltac:(lia) ltac:(lia)) as Hp.
    assert (Zneg m / 2 ^ (- e) <= 0); [|lia].
    pose proof (Z.div_le_mono (Zneg m) 0 (2 ^ (- e)) Hp ltac:(lia)) as Hd. by rewrite Z.div_0_l in Hd by lia.
Qed.
