(* ===== verification/Session.v ===== *)
(** * Sessions

    [e2e/ratchet/partner/session]: one direction of an end-to-end channel: its
    base key, the state of its message keys (a [StateVector]) and the status of
    its negotiation with the partner.  The group, isogeny and hash primitives
    are the class [SessionCrypto]; the keys registered for reception are the set
    of fingerprints that [CypherHandler] keeps. *)

From Stdlib Require Import SpecFloat.
From S2P Require Import Prelude GoBytes KV Base64 Json StateVector Float64.

(** ** Parameters ([params.go]) *)

Record Params := mkParams {
  MinKeys : Z;                       (* uint16 *)
  MaxKeys : Z;                       (* uint16 *)
  RekeyThreshold : float64;
  NumRekeys : Z;                     (* uint16 *)
  UnconfirmedRetryRatio : float64;
}.

Definition minKeys : Z := 1000.
Definition maxKeys : Z := 2000.
Definition rekeyThrshold : float64 := f64_0_05.
Definition numReKeys : Z := 16.

(** [1 / 10] is a division of integer constants. *)
Definition rekeyRatio : float64 := f64_of_Z (Z.quot 1 10).

Definition GetDefaultParams : Params :=
  mkParams minKeys maxKeys rekeyThrshold numReKeys rekeyRatio.

(** ** Negotiation and status ([negotiation.go], [status.go]) *)

(** The [uint8] values of the enumerations. *)
Definition Unconfirmed : Z := 0.
Definition Sending : Z := 1.
Definition Sent : Z := 2.
Definition Confirmed : Z := 3.
Definition NewSessionTriggered : Z := 4.
Definition NewSessionCreated : Z := 5.

Definition Negotiation_String (c : Z) : string :=
  if c =? Unconfirmed then "Unconfirmed"
  else if c =? Sending then "Sending"
  else if c =? Sent then "Sent"
  else if c =? Confirmed then "Confirmed"
  else if c =? NewSessionTriggered then "NewSessionTriggered"
  else if c =? NewSessionCreated then "NewSessionCreated"
  else "Unknown Negotiation " +:+ pretty c.

Inductive Status := Active | RekeyNeeded | Empty | RekeyEmpty.

#[export] Instance Status_eq_dec : EqDecision Status.
Proof. solve_decision. Defined.

(** [RelationshipType] is a [uint]. *)
Definition Send : Z := 0.
Definition Receive : Z := 1.

Definition RelationshipType_Prefix (rt : Z) : result string :=
  if rt =? Send then Ok "Send" else if rt =? Receive then Ok "Receive" else Panic.

Definition legalStateChanges : list (list bool) :=
  [[false; true; false; false; false; false];
   [true; false; true; true; false; false];
   [false; false; false; true; false; false];
   [false; false; false; false; true; false];
   [false; false; false; true; false; true];
   [false; false; true; false; false; false]].

(** ** The primitives *)

Class SessionCrypto (Int Priv Pub : Type) := {
  int_Bytes : Int -> list byte;
  NewIntFromBytes : list byte -> Int;
  dh_GeneratePublicKey : Int -> Int;
  dh_GenerateSessionKey : Int -> Int -> Int;
  priv_Variant : Priv -> Z;
  priv_Export : Priv -> list byte;
  priv_Import : Z -> list byte -> option Priv;
  priv_PublicKey : Priv -> Pub;
  priv_DeriveSecret : Priv -> Pub -> list byte;
  pub_Variant : Pub -> Z;
  pub_Export : Pub -> list byte;
  pub_Import : Z -> list byte -> option Pub;
  cmixHash : list byte -> list byte;
  ExpandKey : list byte -> Int;
  RandInInterval : Z -> list byte -> Z;
  DeriveKeyFingerprint : Int -> Z -> list byte -> list byte;
  DeriveKey : Int -> Z -> list byte -> list byte;
  NewKeyResidue : list byte -> list byte;
  Crypt : list byte -> list byte -> list byte -> list byte;
  CreateHMAC : list byte -> list byte -> list byte;
  VerifyHMAC : list byte -> list byte -> list byte -> bool;
}.

(** What their packages document. *)
Class SessionCryptoLaws (Int Priv Pub : Type) `{SessionCrypto Int Priv Pub} : Prop := {
  int_roundtrip x : NewIntFromBytes (int_Bytes x) = x;
  priv_roundtrip k : priv_Import (priv_Variant k) (priv_Export k) = Some k;
  pub_roundtrip k : pub_Import (pub_Variant k) (pub_Export k) = Some k;
  variant_range k : is_u 8 (priv_Variant k);
  pub_variant_range k : is_u 8 (pub_Variant k);
  (* both sides of a key exchange compute the same secret *)
  dh_agree x y : dh_GenerateSessionKey x (dh_GeneratePublicKey y)
                 = dh_GenerateSessionKey y (dh_GeneratePublicKey x);
  sidh_agree a b : priv_DeriveSecret a (priv_PublicKey b) = priv_DeriveSecret b (priv_PublicKey a);
  (* the stream cipher is its own inverse; a MAC verifies *)
  Crypt_Crypt key fp m : Crypt key fp (Crypt key fp m) = m;
  HMAC_verifies m key : VerifyHMAC m (CreateHMAC m key) key = true;
  RandInInterval_range n seed : 0 < n -> 0 <= RandInInterval n seed < n;
}.

(** ** Session IDs ([sessionID.go]) *)

Definition sessionIDLen : Z := 32.
Definition SessionID : Type := list byte.

Definition SessionID_String (sid : SessionID) : string := b64Encode sid.
Definition SessionID_Marshal (sid : SessionID) : list byte := sid.
Definition SessionID_Unmarshal (b : list byte) : result SessionID :=
  if Z.of_nat (length b) =? sessionIDLen then Ok (array_of (Z.to_nat sessionIDLen) b)
  else Err (Errorf "SessionID of invalid length received" []).

Definition MakeSessionPrefix (sid : SessionID) : string :=
  "session{ID:" +:+ SessionID_String sid +:+ "}".

Definition currentSessionVersion : Z := 0.
Definition sessionKey : string := "session".

(** [GetCompatibleSIDHVariant] ([storage/utility/sidh.go]); [KeyVariantSidhA] is
    bit 0 and [KeyVariantSidhB] bit 1. *)
Definition KeyVariantSidhA : Z := 1.
Definition KeyVariantSidhB : Z := 2.
Definition GetCompatibleSIDHVariant (otherVariant : Z) : Z :=
  if Z.land otherVariant KeyVariantSidhA =? KeyVariantSidhA then KeyVariantSidhB else KeyVariantSidhA.

(** ** The session *)

Record Session (ID Int Priv Pub : Type) := mkSession {
  ss_kv : kv;
  e2eParams : Params;
  sID : SessionID;
  ss_partner : ID;
  ss_t : Z;
  baseKey : Int;
  myPrivKey : Int;
  partnerPubKey : Int;
  mySIDHPrivKey : Priv;
  partnerSIDHPubKey : Pub;
  partnerSource : SessionID;
  relationshipFingerprint : list byte;
  negotiationStatus : Z;
  rekeyThreshold : Z;                (* uint32 *)
  keyState : StateVector;
}.
Arguments mkSession {ID Int Priv Pub}.
Arguments ss_kv {ID Int Priv Pub}.
Arguments e2eParams {ID Int Priv Pub}.
Arguments sID {ID Int Priv Pub}.
Arguments ss_partner {ID Int Priv Pub}.
Arguments ss_t {ID Int Priv Pub}.
Arguments baseKey {ID Int Priv Pub}.
Arguments myPrivKey {ID Int Priv Pub}.
Arguments partnerPubKey {ID Int Priv Pub}.
Arguments mySIDHPrivKey {ID Int Priv Pub}.
Arguments partnerSIDHPubKey {ID Int Priv Pub}.
Arguments partnerSource {ID Int Priv Pub}.
Arguments relationshipFingerprint {ID Int Priv Pub}.
Arguments negotiationStatus {ID Int Priv Pub}.
Arguments rekeyThreshold {ID Int Priv Pub}.
Arguments keyState {ID Int Priv Pub}.

Record SessionDisk := mkSessionDisk {
  E2EParams : Params;
  Type_ : Z;
  BaseKey : list byte;
  MyPrivKey : list byte;
  PartnerPubKey : list byte;
  MySIDHPrivKey : list byte;
  MySIDHVariant : Z;
  PartnerSIDHPubKey : list byte;
  PartnerSIDHVariant : Z;
  Trigger : list byte;
  RelationshipFingerprint : list byte;
  Confirmation : Z;
  RekeyThreshold_ : Z;
  Partner : list byte;
}.

(** The fingerprints registered with the network for reception. *)
Abbreviation handler := (gset (list byte)).

Section session.
Context {ID Int Priv Pub : Type} `{NetID ID} `{SessionCrypto Int Priv Pub}.
Context {S : Type} `{EKV S} `{JsonCodec SessionDisk}.

Abbreviation session := (Session ID Int Priv Pub).

Definition ss_setStatus (s : session) (n : Z) : session :=
  mkSession (ss_kv s) (e2eParams s) (sID s) (ss_partner s) (ss_t s) (baseKey s) (myPrivKey s)
    (partnerPubKey s) (mySIDHPrivKey s) (partnerSIDHPubKey s) (partnerSource s)
    (relationshipFingerprint s) n (rekeyThreshold s) (keyState s).
Definition ss_setKeys (s : session) (sv : StateVector) : session :=
  mkSession (ss_kv s) (e2eParams s) (sID s) (ss_partner s) (ss_t s) (baseKey s) (myPrivKey s)
    (partnerPubKey s) (mySIDHPrivKey s) (partnerSIDHPubKey s) (partnerSource s)
    (relationshipFingerprint s) (negotiationStatus s) (rekeyThreshold s) sv.

(** *** Keys ([cypher.go]) *)

Definition GenerateE2ESessionBaseKey (myDHPrivKey theirDHPubKey : Int) (mySIDH : Priv)
    (theirSIDH : Pub) : Int :=
  let dhKey := dh_GenerateSessionKey myDHPrivKey theirDHPubKey in
  let sidhKey := priv_DeriveSecret mySIDH theirSIDH in
  let keyDigest := cmixHash (int_Bytes dhKey ++ sidhKey) in
  ExpandKey keyDigest.

Definition GetSessionIDFromBaseKey (key : Int) : SessionID :=
  array_of (Z.to_nat sessionIDLen) (cmixHash (int_Bytes key)).

(** A cypher is its session and the number of its key; the fingerprint is not
    memoized. *)
Definition cypher_Fingerprint (s : session) (keyNum : Z) : list byte :=
  DeriveKeyFingerprint (baseKey s) keyNum (relationshipFingerprint s).
Definition cypher_generateKey (s : session) (keyNum : Z) : list byte :=
  DeriveKey (baseKey s) keyNum (relationshipFingerprint s).

Definition cypher_Encrypt (s : session) (keyNum : Z) (contents : list byte) :
    list byte * list byte * list byte :=
  let fp := cypher_Fingerprint s keyNum in
  let key := cypher_generateKey s keyNum in
  let residue := NewKeyResidue key in
  let ecrContents := Crypt key fp contents in
  let mac := CreateHMAC ecrContents key in
  (ecrContents, mac, residue).

(** [msg] is given by its contents and MAC. *)
Definition cypher_Decrypt (s : session) (keyNum : Z) (contents mac : list byte) :
    result (list byte * list byte) :=
  let fp := cypher_Fingerprint s keyNum in
  let key := cypher_generateKey s keyNum in
  if negb (VerifyHMAC contents mac key) then
    Err (Errorf "HMAC verification failed for E2E message" [])
  else
    let decryptedPayload := Crypt key fp contents in
    Ok (decryptedPayload, NewKeyResidue key).

Definition Session_useKey (st : S) (s : session) (keynum : Z) (now : Time) : result (S * session) :=
  '(st, sv) ← StateVector_Use st (keyState s) keynum now;
  Ok (st, ss_setKeys s sv).

(** [cypher.Use] *)
Definition cypher_Use (st : S) (s : session) (keyNum : Z) (now : Time) : result (S * session) :=
  Session_useKey st s keyNum now.

(** The unused keys, as the numbers of their cyphers. *)
Definition Session_getUnusedKeys (s : session) : result (list Z) :=
  StateVector_GetUnusedKeyNums (keyState s).

(** [cyHandler.AddKey] and [DeleteKey] on a list of keys. *)
Definition handler_AddKeys (h : handler) (s : session) (keys : list Z) : handler :=
  foldl (fun h k => {[cypher_Fingerprint s k]} ∪ h) h keys.
Definition handler_DeleteKeys (h : handler) (s : session) (keys : list Z) : handler :=
  foldl (fun h k => h ∖ {[cypher_Fingerprint s k]}) h keys.

(** *** Storage *)

(** [sd] of [marshal]; the pending states are stored as the ones they came from. *)
Definition Session_disk (s : session) : SessionDisk :=
  mkSessionDisk (e2eParams s) (u8 (ss_t s)) (int_Bytes (baseKey s))
    (int_Bytes (myPrivKey s)) (int_Bytes (partnerPubKey s))
    (priv_Export (mySIDHPrivKey s)) (u8 (priv_Variant (mySIDHPrivKey s)))
    (pub_Export (partnerSIDHPubKey s)) (u8 (pub_Variant (partnerSIDHPubKey s)))
    (partnerSource s) (relationshipFingerprint s)
    (if negotiationStatus s =? Sending then Unconfirmed
     else if negotiationStatus s =? NewSessionTriggered then Confirmed
     else u8 (negotiationStatus s))
    (rekeyThreshold s) (id_Bytes (ss_partner s)).

Definition Session_marshal (s : session) : list byte := json_Marshal (Session_disk s).

Definition Session_Save (st : S) (s : session) (now : Time) : S * option error :=
  kv_Set (ss_kv s) st sessionKey (mkObject currentSessionVersion now (Session_marshal s)).

(** The whole of [unmarshal], the key state included; [v] and [sid] are the
    fields set before. *)
Definition Session_unmarshal (st : S) (v : kv) (sid : SessionID) (b : list byte) : result session :=
  match json_Unmarshal b with
  | None => Err (Errorf "json" [])
  | Some sd =>
      match priv_Import (MySIDHVariant sd) (MySIDHPrivKey sd) with
      | None => Err (Errorf "sidh" [])
      | Some priv =>
          match pub_Import (PartnerSIDHVariant sd) (PartnerSIDHPubKey sd) with
          | None => Err (Errorf "sidh" [])
          | Some pub =>
              sv ← LoadStateVector st v "";
              Ok (mkSession v (E2EParams sd) sid (id_Unmarshal (Partner sd)) (Type_ sd)
                    (NewIntFromBytes (BaseKey sd)) (NewIntFromBytes (MyPrivKey sd))
                    (NewIntFromBytes (PartnerPubKey sd)) priv pub
                    (array_of (Z.to_nat sessionIDLen) (Trigger sd)) (RelationshipFingerprint sd)
                    (Confirmation sd) (RekeyThreshold_ sd) sv)
          end
      end
  end.

Definition LoadSession (st : S) (h : handler) (v : kv) (sessionID : SessionID)
    (relFp : list byte) : result (handler * session) :=
  v ← kv_Prefix v (MakeSessionPrefix sessionID);
  match kv_Get v st sessionKey currentSessionVersion with
  | inl e => Err (Wrapf "Failed to load %s" [] e)
  | inr obj =>
      s ← Session_unmarshal st v sessionID (Data obj);
      h ← (if ss_t s =? Receive
           then keys ← Session_getUnusedKeys s; Ok (handler_AddKeys h s keys)
           else Ok h);
      Ok (h, mkSession (ss_kv s) (e2eParams s) (sID s) (ss_partner s) (ss_t s) (baseKey s)
               (myPrivKey s) (partnerPubKey s) (mySIDHPrivKey s) (partnerSIDHPubKey s)
               (partnerSource s) relFp (negotiationStatus s) (rekeyThreshold s) (keyState s))
  end.

(** [Delete] panics when either deletion fails. *)
Definition Session_Delete (st : S) (h : handler) (s : session) : result (S * handler) :=
  keys ← Session_getUnusedKeys s;
  let h := handler_DeleteKeys h s keys in
  let '(st, stateVectorErr) := StateVector_Delete st (keyState s) in
  let '(st, sessionErr) := kv_Delete (ss_kv s) st sessionKey currentSessionVersion in
  match stateVectorErr, sessionErr with
  | None, None => Ok (st, h)
  | _, _ => Panic
  end.

(** *** Creation *)

(** The number of keys, without and with the rekey reserve. *)
Definition numKeysOf (p : Params) (key : Int) : Z :=
  u32 (RandInInterval (u16 (MaxKeys p - MinKeys p)) (int_Bytes key) + MinKeys p).

Definition rekeyThresholdOf (p : Params) (numKeys : Z) : Z :=
  u32 (f64_ceil (f64_mul (RekeyThreshold p) (f64_of_Z numKeys))).

(** [buildChildKeys]: the session before has no key state; a failed save of the
    key state is only logged. *)
Definition Session_buildChildKeys (st : S) (h : handler) (s : session) (now : Time) :
    result (S * handler * session) :=
  let p := e2eParams s in
  let numKeys := numKeysOf p (baseKey s) in
  let threshold := rekeyThresholdOf p numKeys in
  let numKeys := u32 (numKeys + NumRekeys p) in
  let '(sv, st, _) := NewStateVector st numKeys false "" (ss_kv s) now in
  let s := mkSession (ss_kv s) p (sID s) (ss_partner s) (ss_t s) (baseKey s) (myPrivKey s)
             (partnerPubKey s) (mySIDHPrivKey s) (partnerSIDHPubKey s) (partnerSource s)
             (relationshipFingerprint s) (negotiationStatus s) threshold sv in
  h ← (if ss_t s =? Receive
       then keys ← Session_getUnusedKeys s; Ok (handler_AddKeys h s keys)
       else Ok h);
  Ok (st, h, s).

(** The keys of [finalizeKeyNegotiation]: a nil private key is generated from
    the stream, [gen], for the variant opposite to the partner's; a nil base key
    is computed. *)
Definition finalizeKeyNegotiation (gen : Z -> Int * Priv) (priv : option (Int * Priv))
    (key : option Int) (partnerPub : Int) (partnerSIDH : Pub) : Int * Priv * Int * SessionID :=
  let '(myPriv, mySIDH) :=
    match priv with
    | Some p => p
    | None => gen (GetCompatibleSIDHVariant (pub_Variant partnerSIDH))
    end in
  let base := match key with
              | Some b => b
              | None => GenerateE2ESessionBaseKey myPriv partnerPub mySIDH partnerSIDH
              end in
  (myPriv, mySIDH, base, GetSessionIDFromBaseKey base).

(** A refused prefix leaves the session without a store, and the first use of it
    panics; a failed save is only logged. *)
Definition NewSession (st : S) (h : handler) (gen : Z -> Int * Priv) (v : kv) (t : Z) (partner : ID)
    (priv : option (Int * Priv)) (partnerPub : Int) (key : option Int) (partnerSIDH : Pub)
    (trigger : SessionID) (relFp : list byte) (status : Z) (params : Params) (now : Time) :
    result (S * handler * session) :=
  if MinKeys params <? 10 then Panic
  else
    let '(myPriv, mySIDH, base, sid) := finalizeKeyNegotiation gen priv key partnerPub partnerSIDH in
    v ← must (kv_Prefix v (MakeSessionPrefix sid));
    let s := mkSession v params sid partner t base myPriv partnerPub mySIDH partnerSIDH trigger
               relFp status 0 (mkStateVector [] 0 0 0 false "" v) in
    '(st, h, s) ← Session_buildChildKeys st h s now;
    let '(st, _) := Session_Save st s now in
    Ok (st, h, s).

(** *** Use *)

Definition Session_PopKey (st : S) (s : session) (now : Time) : result (S * session * Z) :=
  if StateVector_GetNumAvailable (keyState s) <=? NumRekeys (e2eParams s) then
    Err (Errorf "no more keys left, remaining reserved for rekey" [])
  else
    '(st, sv, keyNum, err) ← StateVector_Next st (keyState s) now;
    match err with
    | Some e => Err e
    | None => Ok (st, ss_setKeys s sv, keyNum)
    end.

Definition Session_PopReKey (st : S) (s : session) (now : Time) : result (S * session * Z) :=
  '(st, sv, keyNum, err) ← StateVector_Next st (keyState s) now;
  match err with
  | Some e => Err e
  | None => Ok (st, ss_setKeys s sv, keyNum)
  end.

Definition Session_Status (s : session) : Status :=
  let numAvailable := StateVector_GetNumAvailable (keyState s) in
  let numUsed := StateVector_GetNumUsed (keyState s) in
  if numAvailable =? 0 then RekeyEmpty
  else if numAvailable <=? NumRekeys (e2eParams s) then Empty
  else if rekeyThreshold s <=? numUsed then RekeyNeeded
  else Active.

(** *** Negotiation *)

Definition Session_TrySetNegotiationStatus (st : S) (s : session) (status : Z) (now : Time) :
    result (S * session) :=
  row ← index legalStateChanges (negotiationStatus s);
  legal ← index row status;
  if negb legal then
    Err (Errorf "Negotiation status change from %s to %s is not valid" [negotiationStatus s; status])
  else
    let save := negb (((negotiationStatus s =? Sending) && (status =? Unconfirmed)) ||
                      ((negotiationStatus s =? NewSessionTriggered) && (status =? Confirmed))) in
    let s := ss_setStatus s status in
    if save then
      match Session_Save st s now with
      | (st, None) => Ok (st, s)
      | (_, Some _) => Panic
      end
    else Ok (st, s).

Definition Session_SetNegotiationStatus (st : S) (s : session) (status : Z) (now : Time) :
    result (S * session) :=
  must (Session_TrySetNegotiationStatus st s status now).

(** [b] holds the four bytes read from the stream. *)
Definition decideIfResendRekey (b : list byte) (ratio : float64) : result bool :=
  randNum ← get_be 4 b;
  let max := f64_to_u32 (f64_mul (f64_of_Z (2 ^ 32 - 1)) ratio) in
  Ok (randNum <? max).

Definition Session_TriggerNegotiation (s : session) (b : list byte) : result (session * bool) :=
  if (rekeyThreshold s <=? StateVector_GetNumUsed (keyState s)) &&
     (negotiationStatus s <? NewSessionTriggered) then
    Ok (ss_setStatus s NewSessionTriggered, true)
  else if negotiationStatus s =? Unconfirmed then
    resend ← decideIfResendRekey b (UnconfirmedRetryRatio (e2eParams s));
    if (resend : bool) then Ok (ss_setStatus s Sending, true) else Ok (s, false)
  else Ok (s, false).

Definition Session_IsConfirmed (s : session) : bool := Confirmed <=? negotiationStatus s.
End session.

(** ** The session as a set of used keys *)

(** The status that survives a restart. *)
Definition durable (n : Z) : Z :=
  if n =? Sending then Unconfirmed else if n =? NewSessionTriggered then Confirmed else n.

(** [session_wf s n U]: a session of [n] keys of which [U] are used. *)
Record session_wf {ID Int Priv Pub} `{NetID ID} `{SessionCrypto Int Priv Pub}
    `{JsonCodec SessionDisk} (s : Session ID Int Priv Pub) (n : Z) (U : gset Z) : Prop := {
  wf_keys : sv_refines (keyState s) n U;
  wf_kv : sv_kv (keyState s) = ss_kv s;
  wf_key : sv_key (keyState s) = makeStateVectorKey "";
  wf_backed : sv_disableKV (keyState s) = false;
  wf_type : ss_t s = Send \/ ss_t s = Receive;
  wf_status : 0 <= negotiationStatus s <= 5;
  wf_source : length (partnerSource s) = 32%nat;
  wf_json m : 0 <= m <= 5 -> json_ok (Session_disk (ss_setStatus s m));
}.

(** [stored st s m]: the store holds the key state of [s], and its data with
    status [m]. *)
Record stored {ID Int Priv Pub} `{NetID ID} `{SessionCrypto Int Priv Pub}
    `{JsonCodec SessionDisk} {S} `{EKV S} (st : S) (s : Session ID Int Priv Pub) (m : Z) : Prop := {
  stored_status : 0 <= m <= 5;
  stored_keys : exists now, kv_Get (ss_kv s) st (makeStateVectorKey "") currentStateVectorVersion
    = inr (mkObject currentStateVectorVersion now (StateVector_MarshalJSON (keyState s)));
  stored_data : exists now, kv_Get (ss_kv s) st sessionKey currentSessionVersion
    = inr (mkObject currentSessionVersion now (Session_marshal (ss_setStatus s m)));
}.

Section storage_lemmas.
Context {ID Int Priv Pub : Type} `{NetIDLaws ID} `{SessionCryptoLaws Int Priv Pub}.
Context {S : Type} `{EKVLaws S} `{JsonCodec SessionDisk}.
Implicit Types s : Session ID Int Priv Pub.

Lemma load_stored (st : S) h v s n U m :
  session_wf s n U -> stored st s m -> kv_Prefix v (MakeSessionPrefix (sID s)) = Ok (ss_kv s) ->
  LoadSession st h v (sID s) (relationshipFingerprint s) =
    Ok (if ss_t s =? Receive then handler_AddKeys h s (unusedKeys n U) else h,
        ss_setStatus s (durable m)).
Proof.
  intros Hwf [Hm [now1 Hkeys] [now2 Hdata]] Hpre.
  destruct Hwf as [Hr Hkv Hkey Hdis Ht _ Hsrc Hj].
  unfold LoadSession. rewrite Hpre. cbn [mbind result_bind]. rewrite Hdata. cbn [Data].
  unfold Session_unmarshal, Session_marshal. rewrite json_roundtrip by auto.
  unfold Session_disk, ss_setStatus. simpl.
  rewrite (wrapu_small 8 (priv_Variant _)) by (try lia; apply variant_range).
  rewrite (wrapu_small 8 (pub_Variant _)) by (try lia; apply pub_variant_range).
  rewrite priv_roundtrip, pub_roundtrip.
  rewrite <- Hkv in Hkeys |- *. rewrite (load_saved st (keyState s) "" now1); try done.
  2: apply (ref_inv _ _ _ Hr). 2: by rewrite Hkey.
  cbn [mbind result_bind]. rewrite !int_roundtrip, id_Unmarshal_Bytes.
  rewrite array_of_length by done.
  assert (u8 (ss_t s) = ss_t s) as Hu8 by (destruct Ht as [->| ->]; reflexivity).
  assert ((if m =? Sending then Unconfirmed else if m =? NewSessionTriggered then Confirmed
     else u8 m) = durable m) as ->.
  { unfold durable. repeat case_match; try done. apply wrapu_small; unfold is_u; lia. }
  cbn [ss_t]. rewrite Hu8. unfold Session_getUnusedKeys. cbn [keyState].
  rewrite (unused_keys _ _ _ Hr). by destruct (ss_t s =? Receive).
Qed.
End storage_lemmas.


(** *** Runs of a session *)

(** The operations of a session, and a restart of the program. *)
Inductive ssOp :=
| SPop
| SPopRekey
| SUse (keyNum : Z)
| SSetStatus (status : Z)
| STrigger (b : list byte)
| SReload (h : handler).

Definition ssOpOk (n : Z) (op : ssOp) : Prop :=
  match op with
  | SUse k => 0 <= k < n
  | SSetStatus status => 0 <= status <= 5
  | STrigger b => length b = 4%nat
  | _ => True
  end.

(** One operation on the set of used keys; [reserve] keys are kept for rekeys. *)
Definition absSession (n reserve : Z) (op : ssOp) (U : gset Z) : gset Z * option Z :=
  let pop := match unusedKeys n U with [] => (U, None) | k :: _ => ({[k]} ∪ U, Some k) end in
  match op with
  | SPop => if Z.of_nat (length (unusedKeys n U)) <=? reserve then (U, None) else pop
  | SPopRekey => pop
  | SUse k => ({[k]} ∪ U, None)
  | SSetStatus _ | STrigger _ | SReload _ => (U, None)
  end.

Fixpoint absSessionRun (n reserve : Z) (ops : list ssOp) (U : gset Z) : gset Z * list (option Z) :=
  match ops with
  | [] => (U, [])
  | op :: ops =>
      let '(U1, out) := absSession n reserve op U in
      let '(U2, outs) := absSessionRun n reserve ops U1 in (U2, out :: outs)
  end.

Section runs.
Context {ID Int Priv Pub : Type} `{NetID ID} `{SessionCrypto Int Priv Pub}.
Context {S : Type} `{EKV S} `{JsonCodec SessionDisk}.

Abbreviation session := (Session ID Int Priv Pub).

(** A call that fails leaves the session as it was. *)
Definition popped (st : S) (s : session) (r : result (S * session * Z)) :
    result ((S * session) * option Z) :=
  match r with
  | Ok (st, s, k) => Ok ((st, s), Some k)
  | Err _ => Ok ((st, s), None)
  | Panic => Panic
  end.

(** [v] is the handle of the relationship the session belongs to. *)
Definition ssExec (v : kv) (op : ssOp) (x : S * session) (now : Time) :
    result ((S * session) * option Z) :=
  let '(st, s) := x in
  match op with
  | SPop => popped st s (Session_PopKey st s now)
  | SPopRekey => popped st s (Session_PopReKey st s now)
  | SUse k => x ← cypher_Use st s k now; Ok (x, None)
  | SSetStatus status =>
      match Session_TrySetNegotiationStatus st s status now with
      | Ok x => Ok (x, None)
      | Err _ => Ok ((st, s), None)
      | Panic => Panic
      end
  | STrigger b => '(s, _) ← Session_TriggerNegotiation s b; Ok ((st, s), None)
  | SReload h =>
      '(_, s) ← LoadSession st h v (sID s) (relationshipFingerprint s);
      Ok ((st, s), None)
  end.

Fixpoint ssRun (v : kv) (ops : list ssOp) (x : S * session) (now : Time) :
    result ((S * session) * list (option Z)) :=
  match ops with
  | [] => Ok (x, [])
  | op :: ops =>
      '(x, out) ← ssExec v op x now;
      '(x, outs) ← ssRun v ops x now;
      Ok (x, out :: outs)
  end.
End runs.

(** The moves of [TrySetNegotiationStatus], and those it does not write to the
    store: they undo a move that was not written. *)
Definition legal_moves : list (Z * Z) :=
  [(Unconfirmed, Sending); (Sending, Unconfirmed); (Sending, Sent); (Sending, Confirmed);
   (Sent, Confirmed); (Confirmed, NewSessionTriggered); (NewSessionTriggered, Confirmed);
   (NewSessionTriggered, NewSessionCreated); (NewSessionCreated, Sent)].
Definition reverts (a b : Z) : bool :=
  ((a =? Sending) && (b =? Unconfirmed)) || ((a =? NewSessionTriggered) && (b =? Confirmed)).

(** The invariant of a run. *)
Record session_inv {ID Int Priv Pub} `{NetID ID} `{SessionCrypto Int Priv Pub}
    `{JsonCodec SessionDisk} {S} `{EKV S} (v : kv) (p : Params) (n : Z)
    (x : S * Session ID Int Priv Pub) (U : gset Z) : Prop := {
  si_wf : session_wf (snd x) n U;
  si_stored : exists m, stored (fst x) (snd x) m;
  si_prefix : kv_Prefix v (MakeSessionPrefix (sID (snd x))) = Ok (ss_kv (snd x));
  si_params : e2eParams (snd x) = p;
}.

Section run_lemmas.
Context {ID Int Priv Pub : Type} `{NetIDLaws ID} `{SessionCryptoLaws Int Priv Pub}.
Context {S : Type} `{EKVLaws S} `{!EKVReliable S} `{JsonCodec SessionDisk}.
Implicit Types s : Session ID Int Priv Pub.

(** Storing a new key state, or a new status, keeps the other entry. *)
Lemma stored_new_keys (st : S) s sv m n U now :
  session_wf s n U -> stored st s m -> same_config (keyState s) sv ->
  stored (fst (StateVector_save st sv now)) (ss_setKeys s sv) m.
Proof.
  intros Hwf [Hm _ [now2 Hdata]] (_ & Hdis & Hkey & Hkv).
  rewrite (wf_backed _ _ _ Hwf) in Hdis. rewrite (wf_key _ _ _ Hwf) in Hkey.
  rewrite (wf_kv _ _ _ Hwf) in Hkv.
  unfold StateVector_save. rewrite Hdis, Hkey, Hkv.
  destruct (kv_Set _ _ _ _) as [st' e] eqn:Hset.
  assert (e = None) as -> by (apply (f_equal snd) in Hset; simpl in Hset; rewrite <- Hset; apply ekv_set_ok).
  split; [done| |].
  - exists now. simpl. exact (kv_get_set_eq _ _ _ _ _ Hset).
  - exists now2. simpl. etrans; [|exact Hdata].
    apply (kv_get_set_key _ _ _ _ sessionKey _ _ Hset). done.
Qed.

Lemma stored_new_status (st : S) s m n U now :
  session_wf s n U -> stored st s m ->
  exists st', Session_Save st s now = (st', None) /\ stored st' s (negotiationStatus s).
Proof.
  intros Hwf [_ [now1 Hkeys] _]. unfold Session_Save.
  destruct (kv_Set _ _ _ _) as [st' e] eqn:Hset.
  assert (e = None) as -> by (apply (f_equal snd) in Hset; simpl in Hset; rewrite <- Hset; apply ekv_set_ok).
  exists st'. split; [done|]. split; [apply (wf_status _ _ _ Hwf)| |].
  - exists now1. etrans; [|exact Hkeys].
    apply (kv_get_set_key _ _ _ _ (makeStateVectorKey "") _ _ Hset). done.
  - exists now. etrans; [exact (kv_get_set_eq _ _ _ _ _ Hset)|]. by destruct s.
Qed.

Lemma wf_set_keys s n U sv U' :
  session_wf s n U -> sv_refines sv n U' -> same_config (keyState s) sv ->
  session_wf (ss_setKeys s sv) n U'.
Proof.
  intros [? ? ? ? ? ? ? Hj] Hr (_ & Hdis & Hkey & Hkv).
  split; simpl; (done || congruence || exact Hj).
Qed.

Lemma wf_set_status s n U m :
  session_wf s n U -> 0 <= m <= 5 -> session_wf (ss_setStatus s m) n U.
Proof. intros [? ? ? ? ? ? ? Hj] Hm. by split. Qed.

Lemma stored_set_status (st : S) s k m : stored st s m -> stored st (ss_setStatus s k) m.
Proof. by intros []. Qed.

(** The moves that [legalStateChanges] accepts. *)
Lemma legal_table a b :
  0 <= a <= 5 -> 0 <= b <= 5 ->
  (row ← index legalStateChanges a; index row b) = Ok (bool_decide ((a, b) ∈ legal_moves)).
Proof.
  intros Ha Hb.
  assert (a = 0 \/ a = 1 \/ a = 2 \/ a = 3 \/ a = 4 \/ a = 5) as Ha' by lia.
  assert (b = 0 \/ b = 1 \/ b = 2 \/ b = 3 \/ b = 4 \/ b = 5) as Hb' by lia.
  destruct_or! Ha'; destruct_or! Hb'; subst; vm_compute; reflexivity.
Qed.

(** Whether a move is written to the store at once. *)
Lemma TrySet_spec (st : S) s n U m status now :
  session_wf s n U -> stored st s m -> 0 <= status <= 5 ->
  if bool_decide ((negotiationStatus s, status) ∈ legal_moves) then
    exists st', Session_TrySetNegotiationStatus st s status now = Ok (st', ss_setStatus s status) /\
      stored st' (ss_setStatus s status)
        (if reverts (negotiationStatus s) status then m else status)
  else exists e, Session_TrySetNegotiationStatus st s status now = Err e.
Proof.
  intros Hwf Hst Hstatus. pose proof (legal_table _ _ (wf_status _ _ _ Hwf) Hstatus) as Htab.
  unfold Session_TrySetNegotiationStatus.
  destruct (index legalStateChanges (negotiationStatus s)) as [row| |]; simpl in Htab; try done.
  cbn [mbind result_bind]. rewrite Htab. cbn [mbind result_bind].
  case_bool_decide; cbn [negb]; [|eauto].
  change (_ || _) with (reverts (negotiationStatus s) status). destruct (reverts _ _); cbn [negb].
  - exists st. split; [done|]. by apply stored_set_status.
  - destruct (stored_new_status st (ss_setStatus s status) m n U now) as (st' & -> & Hst').
    + by apply wf_set_status.
    + by apply stored_set_status.
    + by exists st'.
Qed.

Lemma Trigger_spec s b :
  length b = 4%nat ->
  exists s' r, Session_TriggerNegotiation s b = Ok (s', r) /\
    (s' = s \/ s' = ss_setStatus s NewSessionTriggered \/ s' = ss_setStatus s Sending).
Proof.
  intros Hb. unfold Session_TriggerNegotiation, decideIfResendRekey, get_be.
  rewrite decide_True by lia. cbn [mbind result_bind].
  repeat case_match; simplify_eq/=; eauto 6.
Qed.

Lemma pop_spec (st : S) s n U m now :
  session_wf s n U -> stored st s m ->
  match unusedKeys n U with
  | [] => Session_PopReKey st s now = Err noKeysErr
  | k :: _ => exists st' sv', Session_PopReKey st s now = Ok (st', ss_setKeys s sv', k) /\
      session_wf (ss_setKeys s sv') n ({[k]} ∪ U) /\ stored st' (ss_setKeys s sv') m
  end.
Proof.
  intros Hwf Hst. pose proof (next_spec st (keyState s) n U now (wf_keys _ _ _ Hwf)) as Hnext.
  unfold Session_PopReKey. destruct (unusedKeys n U) as [|k ks].
  - by rewrite Hnext.
  - destruct Hnext as (sv' & -> & Hr & Hc). simpl. eexists _, sv'. split; [done|].
    split; [by eapply wf_set_keys|by eapply stored_new_keys].
Qed.

(** [PopKey] is [PopReKey] behind the reserve. *)
Lemma PopKey_reserve (st : S) s n U now :
  session_wf s n U ->
  Session_PopKey st s now =
    if Z.of_nat (length (unusedKeys n U)) <=? NumRekeys (e2eParams s)
    then Err (Errorf "no more keys left, remaining reserved for rekey" [])
    else Session_PopReKey st s now.
Proof.
  intros Hwf. unfold Session_PopKey. by rewrite (available_unused _ _ _ (wf_keys _ _ _ Hwf)).
Qed.

Lemma exec_pop v p n (st : S) s U now :
  session_inv v p n (st, s) U ->
  exists x', popped st s (Session_PopReKey st s now)
      = Ok (x', snd (absSession n (NumRekeys p) SPopRekey U)) /\
    session_inv v p n x' (fst (absSession n (NumRekeys p) SPopRekey U)).
Proof.
  intros Hinv. destruct Hinv as [Hwf [m Hst] Hpre Hp]. simpl in *.
  pose proof (pop_spec st s n U m now Hwf Hst) as Hpop.
  destruct (unusedKeys n U) as [|k ks].
  - rewrite Hpop. eexists. split; [done|]. by split; [|exists m| |].
  - destruct Hpop as (st' & sv' & -> & Hwf' & Hst'). eexists. split; [done|].
    by split; [|exists m| |].
Qed.

Lemma exec_session v p n (x : S * Session ID Int Priv Pub) U op now :
  session_inv v p n x U -> ssOpOk n op ->
  exists x', ssExec v op x now = Ok (x', snd (absSession n (NumRekeys p) op U)) /\
    session_inv v p n x' (fst (absSession n (NumRekeys p) op U)).
Proof.
  intros Hinv Hop. destruct x as [st s].
  pose proof Hinv as [Hwf [m Hst] Hpre Hp]. cbn [fst snd] in *.
  destruct op as [| |k|status|b|h]; cbn [ssExec].
  - rewrite (PopKey_reserve st s n U now Hwf). rewrite Hp. cbn [absSession].
    destruct (_ <=? _); [by exists (st, s)|]. by apply exec_pop.
  - by apply exec_pop.
  - unfold cypher_Use, Session_useKey, StateVector_Use.
    destruct (use_refines _ _ _ _ (wf_keys _ _ _ Hwf) Hop) as (sv' & -> & Hr & Hc). simpl.
    eexists. split; [done|]. split; [by eapply wf_set_keys|exists m; by eapply stored_new_keys|done|done].
  - pose proof (TrySet_spec st s n U m status now Hwf Hst Hop) as Hset.
    case_bool_decide.
    + destruct Hset as (st' & -> & Hst'). eexists. split; [done|].
      split; [by apply wf_set_status|eauto|done|done].
    + destruct Hset as (e & ->). by exists (st, s).
  - destruct (Trigger_spec s b Hop) as (s' & r & -> & Hs'). simpl. exists (st, s').
    split; [done|].
    destruct Hs' as [->|[->| ->]]; [done|..];
      (split; [apply wf_set_status; [done|unfold NewSessionTriggered, Sending; lia]|
               exists m; by apply stored_set_status|done|done]).
  - rewrite (load_stored st h v s n U m) by done. simpl. eexists. split; [done|].
    split; [|exists m; by apply stored_set_status|done|done].
    apply wf_set_status; [done|]. destruct Hst as [Hm _ _].
    unfold durable, Unconfirmed, Confirmed. repeat case_match; lia.
Qed.

Lemma run_session v p n ops (x : S * Session ID Int Priv Pub) U now :
  session_inv v p n x U -> Forall (ssOpOk n) ops ->
  exists x', ssRun v ops x now = Ok (x', snd (absSessionRun n (NumRekeys p) ops U)) /\
    session_inv v p n x' (fst (absSessionRun n (NumRekeys p) ops U)).
Proof.
  intros Hinv Hops. revert x U Hinv. induction Hops as [|op ops Hop Hops IH]; intros x U Hinv.
  - simpl. eauto.
  - cbn [ssRun absSessionRun]. destruct (exec_session v p n x U op now Hinv Hop) as (x1 & -> & Hx1).
    destruct (absSession n (NumRekeys p) op U) as [U1 out]. cbn [mbind result_bind fst snd] in *.
    destruct (IH x1 U1 Hx1) as (x2 & -> & Hx2).
    destruct (absSessionRun n (NumRekeys p) ops U1) as [U2 outs]. simpl in *. eauto.
Qed.
End run_lemmas.

(** The keys that the abstract run hands out. *)
Lemma unusedKeys_spec n U k : k ∈ unusedKeys n U <-> 0 <= k < n /\ k ∉ U.
Proof. unfold unusedKeys. rewrite list_elem_of_filter, elem_of_zseq. tauto. Qed.

Lemma unusedKeys_none n : unusedKeys n ∅ = zseq 0 n.
Proof.
  unfold unusedKeys. induction (zseq 0 n) as [|k l IHl]; [done|].
  rewrite filter_cons_True by set_solver. by rewrite IHl.
Qed.

Lemma absSession_grows n reserve op U :
  U ⊆ fst (absSession n reserve op U) /\
  (forall k, snd (absSession n reserve op U) = Some k ->
     0 <= k < n /\ k ∉ U /\ k ∈ fst (absSession n reserve op U)).
Proof.
  assert (forall r, (r = (U, None) \/ exists k ks, unusedKeys n U = k :: ks /\ r = ({[k]} ∪ U, Some k)) ->
    U ⊆ fst r /\ (forall k, snd r = Some k -> 0 <= k < n /\ k ∉ U /\ k ∈ fst r)) as Hpop.
  { intros r [->|(k & ks & Hk & ->)]; cbn [fst snd]; [done|]. split; [apply union_subseteq_r|].
    intros k' [= <-]. assert (k ∈ unusedKeys n U) as Hin by (rewrite Hk; left).
    apply unusedKeys_spec in Hin as [? ?]. split; [done|]. split; [done|]. by apply elem_of_union_l, elem_of_singleton. }
  destruct op; cbn [absSession]; try by apply Hpop; left.
  - apply Hpop. destruct (_ <=? _); [by left|]. destruct (unusedKeys n U) as [|k ks]; eauto 6.
  - apply Hpop. destruct (unusedKeys n U) as [|k ks]; eauto 6.
  - cbn [fst snd]. split; [apply union_subseteq_r|done].
Qed.

Definition handedOut (outs : list (option Z)) : list Z := omap id outs.

Lemma absSessionRun_fresh n reserve ops U :
  let '(U', outs) := absSessionRun n reserve ops U in
  U ⊆ U' /\ NoDup (handedOut outs) /\
  (forall k, k ∈ handedOut outs -> 0 <= k < n /\ k ∉ U /\ k ∈ U').
Proof.
  revert U. induction ops as [|op ops IH]; intros U; cbn [absSessionRun].
  - split_and!; [done|constructor|]. intros k Hk. by apply not_elem_of_nil in Hk.
  - destruct (absSession_grows n reserve op U) as [Hsub Hnew].
    destruct (absSession n reserve op U) as [U1 out]. cbn [fst snd] in *.
    specialize (IH U1). destruct (absSessionRun n reserve ops U1) as [U2 outs].
    destruct IH as (Hsub2 & Hnd & Hk2). destruct out as [k|]; cbn [handedOut omap list_omap id].
    + destruct (Hnew k eq_refl) as (Hr & Hout & Hin). split_and!.
      * set_solver.
      * apply list.NoDup_cons. split; [|done]. intros Hbad. by apply Hk2 in Hbad as (_ & ? & _).
      * intros k' [->|Hk']%elem_of_cons; [set_solver|]. apply Hk2 in Hk'. set_solver.
    + split_and!; [set_solver|done|]. intros k' Hk'. apply Hk2 in Hk'. set_solver.
Qed.

(** *** Frames: a session changes the store under its own prefix only *)

Section frames.
Context {ID Int Priv Pub : Type} `{NetID ID} `{SessionCrypto Int Priv Pub}.
Context {S : Type} `{EKVLaws S} `{JsonCodec SessionDisk}.
Implicit Types s : Session ID Int Priv Pub.

Lemma stored_confined (st st' : S) s m p :
  stored st s m -> confined p st st' -> kv_handle (ss_kv s) -> prefix (ss_kv s) ≠ p -> stored st' s m.
Proof.
  intros [Hm [t1 Hk] [t2 Hd]] Hc Hh Hp. split; [done|exists t1|exists t2].
  - etrans; [|exact Hk]. by apply Hc.
  - etrans; [|exact Hd]. by apply Hc.
Qed.

Lemma Save_confined (st st' : S) s now e :
  Session_Save st s now = (st', e) -> kv_handle (ss_kv s) -> confined (prefix (ss_kv s)) st st'.
Proof. intros Hsave Hh. by apply (kv_Set_confined _ _ _ _ _ _ Hsave). Qed.

Lemma sv_save_confined (st : S) sv now :
  sv_key sv = makeStateVectorKey "" -> kv_handle (sv_kv sv) ->
  confined (prefix (sv_kv sv)) st (fst (StateVector_save st sv now)).
Proof.
  intros Hkey Hh. unfold StateVector_save. destruct (sv_disableKV sv); [apply confined_refl|].
  destruct (kv_Set _ _ _ _) as [st' e] eqn:Hset. rewrite Hkey in Hset.
  by apply (kv_Set_confined _ _ _ _ _ _ Hset).
Qed.

Lemma pop_confined `{!EKVReliable S} (st st' : S) s s' k n U now :
  Session_PopReKey st s now = Ok (st', s', k) -> session_wf s n U -> kv_handle (ss_kv s) ->
  confined (prefix (ss_kv s)) st st'.
Proof.
  intros Hpop Hwf Hh. pose proof (next_spec st (keyState s) n U now (wf_keys _ _ _ Hwf)) as Hnext.
  unfold Session_PopReKey in Hpop. destruct (unusedKeys n U) as [|k' ks].
  - by rewrite Hnext in Hpop.
  - destruct Hnext as (sv' & Hnext & _ & (_ & _ & Hkey & Hkv)). rewrite Hnext in Hpop.
    simpl in Hpop. simplify_eq. rewrite <- (wf_kv _ _ _ Hwf), <- Hkv in Hh |- *.
    apply sv_save_confined; [|done]. by rewrite Hkey, (wf_key _ _ _ Hwf).
Qed.

Lemma TrySet_confined (st st' : S) s s' status now :
  Session_TrySetNegotiationStatus st s status now = Ok (st', s') -> kv_handle (ss_kv s) ->
  confined (prefix (ss_kv s)) st st'.
Proof.
  intros Hset Hh. unfold Session_TrySetNegotiationStatus in Hset.
  destruct (index _ _) as [row| |]; simpl in Hset; try done.
  destruct (index _ _) as [legal| |]; simpl in Hset; try done.
  destruct legal; simpl in Hset; [|done].
  destruct (_ || _); simpl in Hset; simplify_eq; [apply confined_refl|].
  destruct (Session_Save _ _ _) as [st1 [e|]] eqn:Hsave; simplify_eq.
  by apply (Save_confined _ _ _ _ _ Hsave).
Qed.

Lemma Delete_spec `{!EKVReliable S} (st : S) h s n U :
  session_wf s n U -> kv_handle (ss_kv s) ->
  exists st', Session_Delete st h s = Ok (st', handler_DeleteKeys h s (unusedKeys n U)) /\
    confined (prefix (ss_kv s)) st st' /\
    (exists e, kv_Get (ss_kv s) st' sessionKey currentSessionVersion = inl e /\ ekv_Exists S e = false) /\
    (exists e, kv_Get (ss_kv s) st' (makeStateVectorKey "") currentStateVectorVersion = inl e /\
       ekv_Exists S e = false).
Proof.
  intros Hwf Hh. unfold Session_Delete, Session_getUnusedKeys, StateVector_Delete.
  rewrite (unused_keys _ _ _ (wf_keys _ _ _ Hwf)). cbn [mbind result_bind].
  rewrite (wf_backed _ _ _ Hwf), (wf_kv _ _ _ Hwf), (wf_key _ _ _ Hwf).
  destruct (kv_Delete _ _ (makeStateVectorKey "") _) as [st1 e1] eqn:H1'.
  destruct (kv_Delete _ st1 sessionKey _) as [st2 e2] eqn:H2'.
  assert (e1 = None) as -> by (apply (f_equal snd) in H1'; simpl in H1'; rewrite <- H1'; apply ekv_delete_ok).
  assert (e2 = None) as -> by (apply (f_equal snd) in H2'; simpl in H2'; rewrite <- H2'; apply ekv_delete_ok).
  exists st2. split; [done|]. split_and!.
  - apply (confined_trans _ _ st1); [by apply (kv_Delete_confined _ _ _ _ _ _ H1')|].
    by apply (kv_Delete_confined _ _ _ _ _ _ H2').
  - exact (kv_get_delete_eq _ _ _ _ _ H2').
  - destruct (kv_get_delete_eq _ _ _ _ _ H1') as (e & Hg & He). exists e. split; [|done].
    etrans; [|exact Hg]. apply (kv_get_delete_ne' _ _ _ _ _ _ _ _ _ H2').
    intros Heq. apply kv_makeKey_inj in Heq as (_ & Hbad & _); try done.
Qed.
End frames.

(** *** A new session *)

(** Session data with these parameters can be encoded. *)
Definition params_storable `{JsonCodec SessionDisk} (p : Params) : Prop :=
  forall d, E2EParams d = p -> is_u 8 (Type_ d) -> is_u 8 (Confirmation d) ->
    is_u 32 (RekeyThreshold_ d) -> json_ok d.

Record params_ok (p : Params) : Prop := {
  po_min : 10 <= MinKeys p;
  po_max : MinKeys p < MaxKeys p;
  po_max16 : is_u 16 (MaxKeys p);
  po_rekeys : is_u 16 (NumRekeys p);
}.

Section creation.
Context {ID Int Priv Pub : Type} `{NetID ID} `{SessionCryptoLaws Int Priv Pub}.
Context {S : Type} `{EKVLaws S} `{!EKVReliable S} `{JsonCodec SessionDisk}.

Lemma new_saved (st : S) n v now sv st' e :
  NewStateVector st n false "" v now = (sv, st', e) ->
  sv_kv sv = v /\ sv_key sv = makeStateVectorKey "" /\ sv_disableKV sv = false /\
  kv_Get v st' (makeStateVectorKey "") currentStateVectorVersion
    = inr (mkObject currentStateVectorVersion now (StateVector_MarshalJSON sv)) /\
  (kv_handle v -> confined (prefix v) st st').
Proof.
  unfold NewStateVector. set (sv0 := mkStateVector _ _ _ _ _ _ _). intros Hnew.
  pose proof (save_reliable st sv0 now) as Hok.
  assert (kv_handle v -> confined (prefix v) st (fst (StateVector_save st sv0 now))) as Hc
    by (intros Hh; by apply (sv_save_confined st sv0)).
  destruct (StateVector_save st sv0 now) as [st1 e1] eqn:Hsave. simpl in Hok, Hc. simplify_eq.
  split_and!; [done..|exact (kv_get_set_eq _ _ _ _ _ Hsave)|exact Hc].
Qed.

Lemma durable_u8 m :
  0 <= m <= 5 ->
  is_u 8 (if m =? Sending then Unconfirmed else if m =? NewSessionTriggered then Confirmed else u8 m).
Proof.
  intros Hm. repeat case_match; [vm_compute; intuition congruence..|]. apply wrapu_range. lia.
Qed.

(** The number of keys is at least [MinKeys] and below [MaxKeys]. *)
Lemma numKeysOf_range p (key : Int) : params_ok p -> MinKeys p <= numKeysOf p key < MaxKeys p.
Proof.
  intros [H1' H2' H3' _]. unfold is_u in *. unfold numKeysOf.
  rewrite (wrapu_small 16) by (unfold is_u; lia).
  pose proof (RandInInterval_range (MaxKeys p - MinKeys p) (int_Bytes key)) as Hr.
  rewrite wrapu_small; unfold is_u; lia.
Qed.

Lemma length_GetSessionID (key : Int) : length (GetSessionIDFromBaseKey key) = 32%nat.
Proof. unfold GetSessionIDFromBaseKey. by rewrite length_array_of. Qed.

Lemma MakeSessionPrefix_ok sid : strContains PrefixSeparator (MakeSessionPrefix sid) = false.
Proof.
  unfold MakeSessionPrefix, SessionID_String. rewrite !chars_no_sep_app.
  by rewrite b64Encode_no_sep.
Qed.

Lemma new_session_spec (st : S) h gen v t (partner : ID) priv partnerPub key partnerSIDH trigger
    relFp status p now :
  params_ok p -> params_storable p -> t = Send \/ t = Receive -> 0 <= status <= 5 ->
  length trigger = 32%nat ->
  let '(myPriv, mySIDH, base, sid) := finalizeKeyNegotiation gen priv key partnerPub partnerSIDH in
  kv_HasPrefix v (MakeSessionPrefix sid) = false ->
  let n := numKeysOf p base + NumRekeys p in
  exists v' st' sv,
    let s := mkSession v' p sid partner t base myPriv partnerPub mySIDH partnerSIDH trigger relFp
               status (rekeyThresholdOf p (numKeysOf p base)) sv in
    NewSession st h gen v t partner priv partnerPub key partnerSIDH trigger relFp status p now
      = Ok (st', if t =? Receive then handler_AddKeys h s (unusedKeys n ∅) else h, s) /\
    session_inv v p n (st', s) ∅ /\ stored st' s status /\
    (kv_handle v' -> confined (prefix v') st st').
Proof.
  intros Hp Hj Ht Hstatus Htrig.
  destruct (finalizeKeyNegotiation gen priv key partnerPub partnerSIDH)
    as [[[myPriv mySIDH] base] sid] eqn:Hfin. intros Hpre n.
  pose proof (numKeysOf_range p base Hp) as Hn. destruct Hp as [Hmin Hmax Hmax16 Hrek].
  unfold is_u in *. unfold NewSession. rewrite (proj2 (Z.ltb_ge _ _)) by lia. rewrite Hfin.
  assert (exists v', kv_Prefix v (MakeSessionPrefix sid) = Ok v') as [v' Hv'].
  { unfold kv_Prefix. rewrite MakeSessionPrefix_ok, Hpre. simpl. eauto. }
  rewrite Hv'. cbn [must mbind result_bind]. unfold Session_buildChildKeys.
  cbn [e2eParams baseKey ss_kv].
  assert (u32 (numKeysOf p base + NumRekeys p) = n) as -> by (apply wrapu_small; unfold is_u; lia).
  pose proof (new_refines st n false "" v' now ltac:(lia)) as Hr.
  destruct (NewStateVector st n false "" v' now) as [[sv st1] e1] eqn:Hnew.
  apply new_saved in Hnew as (Hkv & Hkey & Hdis & Hget & Hconf).
  cbn [sID ss_partner ss_t myPrivKey partnerPubKey mySIDHPrivKey partnerSIDHPubKey partnerSource
    relationshipFingerprint negotiationStatus].
  set (s := mkSession v' p _ _ _ _ _ _ _ _ _ _ _ _ sv).
  assert (session_wf s n ∅) as Hwf.
  { split; try done. intros m Hm. apply Hj; simpl; [done| | |apply wrapu_range; lia].
    - destruct Ht as [->| ->]; vm_compute; intuition congruence.
    - apply durable_u8. lia. }
  exists v'. unfold Session_getUnusedKeys. cbn [keyState s]. rewrite (unused_keys _ _ _ Hr).
  destruct (Session_Save st1 s now) as [st2 e2] eqn:Hsave. exists st2, sv.
  assert (e2 = None) as -> by (apply (f_equal snd) in Hsave; simpl in Hsave; rewrite <- Hsave; apply ekv_set_ok).
  assert (stored st2 s status) as Hst.
  { unfold Session_Save in Hsave. split; [done|exists now|exists now].
    - etrans; [|exact Hget].
      apply (kv_get_set_key _ _ _ _ (makeStateVectorKey "") _ _ Hsave). done.
    - exact (kv_get_set_eq _ _ _ _ _ Hsave). }
  split; [|split; [by split; [|exists status| |]|split; [done|]]].
  - destruct (t =? Receive); cbn [mbind result_bind]; by rewrite Hsave.
  - intros Hh. apply (confined_trans _ _ st1); [by apply Hconf|].
    exact (Save_confined _ _ _ _ _ Hsave Hh).
Qed.
End creation.

(** ** Properties *)

Lemma elem_of_AddKeys {ID Int Priv Pub} `{NetID ID} `{SessionCrypto Int Priv Pub}
    (s : Session ID Int Priv Pub) (keys : list Z) (h : handler) (fp : list byte) :
  fp ∈ handler_AddKeys h s keys <-> fp ∈ h \/ exists k, k ∈ keys /\ fp = cypher_Fingerprint s k.
Proof.
  unfold handler_AddKeys. revert h. induction keys as [|k keys IH]; intros h; cbn [foldl].
  - split; [by left|]. intros [?|(k & Hk & _)]; [done|]. by apply not_elem_of_nil in Hk.
  - rewrite IH, elem_of_union, elem_of_singleton. split.
    + intros [[->|?]|(k' & Hk' & ->)]; [right; exists k; split; [left|done]|by left|].
      right. exists k'. split; [by right|done].
    + intros [?|(k' & Hk' & ->)]; [by left; right|].
      apply elem_of_cons in Hk' as [->|Hk']; [by left; left|]. right. by exists k'.
Qed.

Section properties.
Context {ID Int Priv Pub : Type} `{NetIDLaws ID} `{SessionCryptoLaws Int Priv Pub}.
Context {S : Type} `{EKVLaws S} `{!EKVReliable S} `{JsonCodec SessionDisk}.
Implicit Types s : Session ID Int Priv Pub.

Lemma same_keys_decrypt (sA sB : Session ID Int Priv Pub) k msg :
  baseKey sA = baseKey sB -> relationshipFingerprint sA = relationshipFingerprint sB ->
  cypher_Fingerprint sA k = cypher_Fingerprint sB k /\
  let '(contents, mac, residue) := cypher_Encrypt sA k msg in
  cypher_Decrypt sB k contents mac = Ok (msg, residue).
Proof.
  intros Hb Hf. unfold cypher_Encrypt, cypher_Decrypt, cypher_generateKey, cypher_Fingerprint.
  rewrite Hb, Hf. split; [done|]. by rewrite HMAC_verifies, Crypt_Crypt.
Qed.

(** C27: no key of a session is handed out twice.  From [NewSession], any
    sequence of [PopKey], [PopReKey], [Use], status changes, negotiation
    triggers and restarts of the program runs without a panic and hands out
    keys of the session, each at most once: the least unused one each time,
    and none from the rekey reserve to [PopKey]. *)
Theorem Session_keys_handed_out_once (st : S) h gen v t (partner : ID) priv partnerPub key partnerSIDH
    trigger relFp status p now ops now' used outs :
  params_ok p -> params_storable p -> t = Send \/ t = Receive -> 0 <= status <= 5 ->
  length trigger = 32%nat ->
  let '(myPriv, mySIDH, base, sid) := finalizeKeyNegotiation gen priv key partnerPub partnerSIDH in
  kv_HasPrefix v (MakeSessionPrefix sid) = false ->
  let n := numKeysOf p base + NumRekeys p in
  Forall (ssOpOk n) ops -> absSessionRun n (NumRekeys p) ops ∅ = (used, outs) ->
  exists st0 h0 s0 st1 s1,
    NewSession st h gen v t partner priv partnerPub key partnerSIDH trigger relFp status p now
      = Ok (st0, h0, s0) /\
    ssRun v ops (st0, s0) now' = Ok ((st1, s1), outs) /\
    NoDup (handedOut outs) /\ Forall (fun k => 0 <= k < n) (handedOut outs) /\
    Session_getUnusedKeys s1 = Ok (unusedKeys n used).
Proof.
  intros Hp Hj Ht Hstatus Htrig.
  pose proof (new_session_spec st h gen v t partner priv partnerPub key partnerSIDH trigger relFp
    status p now Hp Hj Ht Hstatus Htrig) as Hnew.
  destruct (finalizeKeyNegotiation _ _ _ _ _) as [[[myPriv mySIDH] base] sid].
  intros Hpre n. destruct (Hnew Hpre) as (v' & st0 & sv & Hok & Hinv & _). fold n in Hinv, Hok.
  set (s0 := mkSession _ _ _ _ _ _ _ _ _ _ _ _ _ _ sv) in *.
  pose proof (absSessionRun_fresh n (NumRekeys p) ops ∅) as Hfresh.
  intros Hops Habs. destruct (run_session v p n ops (st0, s0) ∅ now' Hinv Hops) as ([st1 s1] & Hr & Hinv1).
  rewrite Habs in Hfresh, Hr, Hinv1. destruct Hfresh as (_ & Hnd & Hin).
  eexists st0, _, s0, st1, s1. split; [exact Hok|]. split; [exact Hr|]. split; [done|].
  split; [apply list.Forall_forall; intros k Hk; by apply Hin|].
  apply unused_keys. exact (wf_keys _ _ _ (si_wf _ _ _ _ _ Hinv1)).
Qed.

(** a saved session is read back by [LoadSession] field by field, in the
    status that survives a restart; a session for reception registers the
    fingerprints of exactly its unused keys again. *)
Theorem Session_save_load (st st' : S) h v s n U m now :
  session_wf s n U -> stored st s m ->
  kv_Prefix v (MakeSessionPrefix (sID s)) = Ok (ss_kv s) ->
  Session_Save st s now = (st', None) ->
  exists h', LoadSession st' h v (sID s) (relationshipFingerprint s)
      = Ok (h', ss_setStatus s (durable (negotiationStatus s))) /\
    forall fp, fp ∈ h' <-> fp ∈ h \/
      ss_t s = Receive /\ exists k, k ∈ unusedKeys n U /\ fp = cypher_Fingerprint s k.
Proof.
  intros Hwf Hst Hpre Hsave.
  destruct (stored_new_status st s m n U now Hwf Hst) as (st2 & Hsave' & Hst2).
  rewrite Hsave in Hsave'. simplify_eq. eexists.
  split; [by apply load_stored|]. intros fp.
  destruct (Z.eqb_spec (ss_t s) Receive) as [Heq|Hne]; [|by intuition].
  rewrite elem_of_AddKeys. naive_solver.
Qed.

(** [Status] tells what the session can be used for.  [RekeyEmpty] is
    exactly when [PopReKey] fails, [Active] and [RekeyNeeded] are exactly when
    [PopKey] succeeds, and [RekeyNeeded] adds that as many keys are used as the
    threshold. *)
Theorem Session_Status_meaning (st : S) s n U m now :
  session_wf s n U -> stored st s m -> 0 <= NumRekeys (e2eParams s) ->
  (Session_Status s = RekeyEmpty <-> exists e, Session_PopReKey st s now = Err e) /\
  (Session_Status s = Active \/ Session_Status s = RekeyNeeded <->
     exists x, Session_PopKey st s now = Ok x) /\
  (Session_Status s = RekeyNeeded ->
     rekeyThreshold s <= Z.of_nat (length (filter (fun k => k ∈ U) (zseq 0 n)))).
Proof.
  intros Hwf Hst Hres. pose proof (pop_spec st s n U m now Hwf Hst) as Hpop.
  rewrite (PopKey_reserve st s n U now Hwf). pose proof (wf_keys _ _ _ Hwf) as Hr.
  unfold Session_Status. rewrite (available_unused _ _ _ Hr), (used_number _ _ _ Hr).
  destruct (unusedKeys n U) as [|k ks]; cbn [length].
  - rewrite Hpop. rewrite (proj2 (Z.leb_le _ _)) by (simpl; lia). simpl.
    split_and!; [split; [by eexists|done]| |done]. split; [by intros [|]|by intros []].
  - destruct Hpop as (st1 & sv1 & -> & _ & _).
    rewrite (proj2 (Z.eqb_neq _ 0)) by lia.
    destruct (Z.leb_spec (Z.of_nat (Datatypes.S (length ks))) (NumRekeys (e2eParams s))).
    + split_and!; [|split; [by intros [|]|by intros []]|done]. split; [done|by intros []].
    + destruct (Z.leb_spec (rekeyThreshold s) (Z.of_nat (length (filter (fun k => k ∈ U) (zseq 0 n)))));
        (split_and!; [split; [done|by intros []]|split; eauto|done]).
Qed.

(** [TrySetNegotiationStatus] accepts exactly the legal moves; a refused
    one is an error and changes nothing.  An accepted move sets the status, and
    a restart then finds the new status, or the one stored before when the move
    only takes back a pending state. *)
Theorem TrySetNegotiationStatus_legal (st : S) h v s n U m status now :
  session_wf s n U -> stored st s m -> 0 <= status <= 5 ->
  kv_Prefix v (MakeSessionPrefix (sID s)) = Ok (ss_kv s) ->
  if bool_decide ((negotiationStatus s, status) ∈ legal_moves) then
    exists st' h', Session_TrySetNegotiationStatus st s status now = Ok (st', ss_setStatus s status) /\
      LoadSession st' h v (sID s) (relationshipFingerprint s) =
        Ok (h', ss_setStatus s (durable (if reverts (negotiationStatus s) status then m else status)))
  else (exists e, Session_TrySetNegotiationStatus st s status now = Err e) /\
       Session_SetNegotiationStatus st s status now = Panic.
Proof.
  intros Hwf Hst Hstatus Hpre. pose proof (TrySet_spec st s n U m status now Hwf Hst Hstatus) as Hset.
  unfold Session_SetNegotiationStatus. case_bool_decide.
  - destruct Hset as (st' & Hok & Hst'). eexists st', _. split; [done|].
    exact (load_stored st' h v (ss_setStatus s status) n U _
      (wf_set_status s n U status Hwf Hstatus) Hst' Hpre).
  - destruct Hset as (e & ->). eauto.
Qed.

(** [TriggerNegotiation] takes any session below [NewSessionTriggered] that
    has reached its threshold to that state, a session the partner has not
    confirmed included.  The session then counts as confirmed; a crash before
    the next save restores the stored status, and a save stores [Confirmed]. *)
Theorem TriggerNegotiation_counts_as_confirmed (st st' : S) h v s n U m b now :
  session_wf s n U -> stored st s m ->
  kv_Prefix v (MakeSessionPrefix (sID s)) = Ok (ss_kv s) ->
  rekeyThreshold s <= Z.of_nat (length (filter (fun k => k ∈ U) (zseq 0 n))) ->
  negotiationStatus s < NewSessionTriggered ->
  Session_Save st (ss_setStatus s NewSessionTriggered) now = (st', None) ->
  Session_TriggerNegotiation s b = Ok (ss_setStatus s NewSessionTriggered, true) /\
  Session_IsConfirmed (ss_setStatus s NewSessionTriggered) = true /\
  (exists h', LoadSession st h v (sID s) (relationshipFingerprint s)
      = Ok (h', ss_setStatus s (durable m))) /\
  (exists h', LoadSession st' h v (sID s) (relationshipFingerprint s)
      = Ok (h', ss_setStatus s Confirmed)).
Proof.
  intros Hwf Hst Hpre Hthr Hneg Hsave. split_and!.
  - unfold Session_TriggerNegotiation. rewrite (used_number _ _ _ (wf_keys _ _ _ Hwf)).
    by rewrite (proj2 (Z.leb_le _ _)), (proj2 (Z.ltb_lt _ _)) by done.
  - done.
  - eexists. by apply load_stored.
  - assert (0 <= NewSessionTriggered <= 5) as Hr by (unfold NewSessionTriggered; lia).
    pose proof (wf_set_status s n U NewSessionTriggered Hwf Hr) as Hwf'.
    destruct (stored_new_status st _ m n U now Hwf' (stored_set_status _ _ NewSessionTriggered _ Hst))
      as (st2 & Hsave' & Hst2).
    rewrite Hsave in Hsave'. simplify_eq. eexists.
    exact (load_stored st2 h v _ n U _ Hwf' Hst2 Hpre).
Qed.

(** with the default parameters an unconfirmed negotiation is never sent
    again: the retry ratio is the integer quotient 1/10, so that below the rekey
    threshold [TriggerNegotiation] changes nothing, whatever it draws. *)
Theorem default_params_never_retry s b :
  UnconfirmedRetryRatio (e2eParams s) = UnconfirmedRetryRatio GetDefaultParams ->
  StateVector_GetNumUsed (keyState s) < rekeyThreshold s -> length b = 4%nat ->
  Session_TriggerNegotiation s b = Ok (s, false).
Proof.
  intros Hratio Hused Hb. unfold Session_TriggerNegotiation, decideIfResendRekey, get_be.
  rewrite (proj2 (Z.leb_gt _ _)) by done. cbn [andb]. rewrite Hratio, decide_True by lia.
  destruct (_ =? Unconfirmed); [|done]. cbn [mbind result_bind].
  replace (f64_to_u32 _) with 0 by (by vm_compute).
  pose proof (be_decode_range (take 4 b)). by rewrite (proj2 (Z.ltb_ge _ _)) by lia.
Qed.

(** the two ends of a session agree.  When each end makes the session from
    its own private keys and the other's public keys, with the same parameters
    and relationship fingerprint, they compute the same base key, session ID and
    number of keys; every key of the sender has its fingerprint registered at
    the receiver, which decrypts what the sender encrypts with it. *)
Theorem Session_ends_agree (stA stB : S) hA hB genA genB vA vB (alice bob : ID)
    x y (a b : Priv) trigA trigB relFp statusA statusB p now keyNum m :
  params_ok p -> params_storable p -> 0 <= statusA <= 5 -> 0 <= statusB <= 5 ->
  length trigA = 32%nat -> length trigB = 32%nat ->
  let base := GenerateE2ESessionBaseKey x (dh_GeneratePublicKey y) a (priv_PublicKey b) in
  let n := numKeysOf p base + NumRekeys p in
  kv_HasPrefix vA (MakeSessionPrefix (GetSessionIDFromBaseKey base)) = false ->
  kv_HasPrefix vB (MakeSessionPrefix (GetSessionIDFromBaseKey base)) = false ->
  exists stA' hA' sA stB' hB' sB,
    NewSession stA hA genA vA Send bob (Some (x, a)) (dh_GeneratePublicKey y) None
      (priv_PublicKey b) trigA relFp statusA p now = Ok (stA', hA', sA) /\
    NewSession stB hB genB vB Receive alice (Some (y, b)) (dh_GeneratePublicKey x) None
      (priv_PublicKey a) trigB relFp statusB p now = Ok (stB', hB', sB) /\
    sID sA = sID sB /\
    Session_getUnusedKeys sA = Ok (zseq 0 n) /\ Session_getUnusedKeys sB = Ok (zseq 0 n) /\
    (0 <= keyNum < n -> cypher_Fingerprint sA keyNum ∈ hB') /\
    let '(contents, mac, residue) := cypher_Encrypt sA keyNum m in
    cypher_Decrypt sB keyNum contents mac = Ok (m, residue).
Proof.
  intros Hp Hj HsA HsB HtA HtB base n HpreA HpreB.
  assert (GenerateE2ESessionBaseKey y (dh_GeneratePublicKey x) b (priv_PublicKey a) = base) as Hbase.
  { unfold base, GenerateE2ESessionBaseKey. by rewrite dh_agree, sidh_agree. }
  destruct (new_session_spec stA hA genA vA Send bob (Some (x, a)) (dh_GeneratePublicKey y) None
    (priv_PublicKey b) trigA relFp statusA p now Hp Hj (or_introl eq_refl) HsA HtA HpreA)
    as (vA' & stA' & svA & HA & HinvA & _).
  pose proof (new_session_spec stB hB genB vB Receive alice (Some (y, b)) (dh_GeneratePublicKey x) None
    (priv_PublicKey a) trigB relFp statusB p now Hp Hj (or_intror eq_refl) HsB HtB) as HnewB.
  cbn [finalizeKeyNegotiation] in HnewB. rewrite Hbase in HnewB.
  destruct (HnewB HpreB) as (vB' & stB' & svB & HB & HinvB & _).
  pose proof (unused_keys _ _ _ (wf_keys _ _ _ (si_wf _ _ _ _ _ HinvA))) as HkA.
  pose proof (unused_keys _ _ _ (wf_keys _ _ _ (si_wf _ _ _ _ _ HinvB))) as HkB.
  rewrite unusedKeys_none in HkA, HkB.
  eexists stA', _, _, stB', _, _. split; [exact HA|]. split; [exact HB|]. split_and!; [done|done|done| |].
  - intros Hk. apply elem_of_AddKeys. right. exists keyNum. split; [|done].
    apply unusedKeys_spec. set_solver.
  - by apply same_keys_decrypt.
Qed.
End properties.

(** ** Witnesses *)

(** Concrete primitives that satisfy the laws, with the parameters of the
    examples. *)
Module SessionExample.

#[export] Instance ex_float_eq_dec : EqDecision float64.
Proof. solve_decision. Defined.

#[export] Instance ex_float_countable : Countable float64.
Proof.
  apply (inj_countable'
    (fun f : float64 => match f with
       | S754_zero s => inl (inl s) | S754_infinity s => inl (inr s) | S754_nan => inr (inl ())
       | S754_finite s m e => inr (inr (s, m, e)) end)
    (fun t => match t with
       | inl (inl s) => S754_zero s | inl (inr s) => S754_infinity s | inr (inl _) => S754_nan
       | inr (inr (s, m, e)) => S754_finite s m e end)).
  abstract (by intros []).
Defined.

#[export] Instance ex_Params_eq_dec : EqDecision Params.
Proof. solve_decision. Defined.

#[export] Instance ex_Params_countable : Countable Params.
Proof.
  apply (inj_countable'
    (fun p => (MinKeys p, MaxKeys p, RekeyThreshold p, NumRekeys p, UnconfirmedRetryRatio p))
    (fun '(a, b, c, d, e) => mkParams a b c d e)).
  abstract (by intros []).
Defined.

#[export] Instance ex_SessionDisk_eq_dec : EqDecision SessionDisk.
Proof. solve_decision. Defined.

#[export] Instance ex_SessionDisk_countable : Countable SessionDisk.
Proof.
  apply (inj_countable'
    (fun d => (E2EParams d, Type_ d, BaseKey d, MyPrivKey d, PartnerPubKey d, MySIDHPrivKey d,
       MySIDHVariant d, PartnerSIDHPubKey d, PartnerSIDHVariant d, Trigger d,
       RelationshipFingerprint d, Confirmation d, RekeyThreshold_ d, Partner d))
    (fun '(a, b, c, d, e, f, g, h, i, j, k, l, m, n) => mkSessionDisk a b c d e f g h i j k l m n)).
  abstract (by intros []).
Defined.

#[export] Instance ex_SessionDisk_codec : JsonCodec SessionDisk := countableCodec _.

Definition ex_bytes (z : Z) : list byte := posBytes (encode z).
Definition ex_unbytes (b : list byte) : Z := default 0 (decode (bytesPos b)).

Lemma ex_unbytes_bytes z : ex_unbytes (ex_bytes z) = z.
Proof. unfold ex_unbytes, ex_bytes. by rewrite bytesPos_posBytes, decode_encode. Qed.

#[export] Instance ex_SessionCrypto : SessionCrypto Z Z Z := {|
  int_Bytes := ex_bytes;
  NewIntFromBytes := ex_unbytes;
  dh_GeneratePublicKey x := 2 * x;
  dh_GenerateSessionKey x y := x * y;
  priv_Variant _ := KeyVariantSidhA;
  priv_Export := ex_bytes;
  priv_Import _ b := Some (ex_unbytes b);
  priv_PublicKey k := 3 * k;
  priv_DeriveSecret a b := ex_bytes (a * b);
  pub_Variant _ := KeyVariantSidhB;
  pub_Export := ex_bytes;
  pub_Import _ b := Some (ex_unbytes b);
  cmixHash b := ex_bytes (le_decode b mod 65521);
  ExpandKey b := le_decode b;
  RandInInterval n seed := le_decode seed mod n;
  DeriveKeyFingerprint key k fp := ex_bytes key ++ ex_bytes k ++ fp;
  DeriveKey key k fp := ex_bytes k ++ ex_bytes key ++ fp;
  NewKeyResidue key := reverse key;
  Crypt key fp m := reverse m;
  CreateHMAC m key := m ++ key;
  VerifyHMAC m mac key := bool_decide (mac = m ++ key);
|}.

#[export] Instance ex_SessionCryptoLaws : SessionCryptoLaws Z Z Z.
Proof.
  split; cbn; intros; rewrite ?ex_unbytes_bytes; try done.
  - lia.
  - f_equal. lia.
  - apply reverse_involutive.
  - by apply bool_decide_eq_true.
  - by apply Z.mod_pos_bound.
Qed.

Definition ex_params : Params := mkParams 10 13 f64_0_05 2 rekeyRatio.
Definition ex_trigger : SessionID := replicate 32 x00.

Lemma ex_params_ok : params_ok ex_params.
Proof. by split. Qed.
Lemma ex_storable p : params_storable p.
Proof. by intros d. Qed.
End SessionExample.

Import SessionExample.

Definition ex_new (t : Z) : result (MemStore * handler * Session Z Z Z Z) :=
  NewSession (∅ : MemStore) ∅ (fun _ => (0, 0)) NewKV t 7 (Some (3, 5)) 8 None 6 ex_trigger [x01]
    Confirmed ex_params 0.

Definition ex_n : Z :=
  numKeysOf ex_params (GenerateE2ESessionBaseKey (3 : Z) (8 : Z) (5 : Z) (6 : Z)) + NumRekeys ex_params.

Lemma ex_n_12 : ex_n = 12.
Proof. by vm_compute. Qed.

(** The example session with the store it is saved in. *)
Definition ex_st (t : Z) : MemStore := match ex_new t with Ok (st, _, _) => st | _ => ∅ end.
Definition ex_ss (t : Z) : Session Z Z Z Z :=
  match ex_new t with
  | Ok (_, _, s) => s
  | _ => mkSession NewKV ex_params [] 0 0 0 0 0 0 0 [] [] 0 0 ex_sv
  end.

Lemma ex_session_inv t :
  t = Send \/ t = Receive ->
  session_inv NewKV ex_params ex_n (ex_st t, ex_ss t) ∅ /\ stored (ex_st t) (ex_ss t) Confirmed /\
  ss_t (ex_ss t) = t /\ negotiationStatus (ex_ss t) = Confirmed /\ rekeyThreshold (ex_ss t) = 1.
Proof.
  intros Ht.
  destruct (new_session_spec (∅ : MemStore) ∅ (fun _ => (0, 0)) NewKV t 7 (Some (3, 5)) 8 None 6
    ex_trigger [x01] Confirmed ex_params 0 ex_params_ok (ex_storable _) Ht ltac:(unfold Confirmed; lia)
    eq_refl eq_refl) as (v' & st' & sv & Hnew & Hinv & Hst & _).
  unfold ex_st, ex_ss, ex_new. rewrite Hnew. 
  split; [exact Hinv|]. split; [exact Hst|]. split_and!; [done|done|].
  cbn [rekeyThreshold]. by vm_compute.
Qed.

Lemma ex_stored t : t = Send \/ t = Receive -> stored (ex_st t) (ex_ss t) Confirmed.
Proof. intros Ht. by destruct (ex_session_inv t Ht) as (_ & ? & _). Qed.

Definition ex_sops : list ssOp :=
  [SPop; SPopRekey; SSetStatus NewSessionTriggered; SReload ∅; SUse 2; SPop; STrigger [x00; x00; x00; x00]; SPopRekey].

Lemma ex_sops_ok : Forall (ssOpOk ex_n) ex_sops.
Proof. rewrite ex_n_12. repeat constructor; unfold NewSessionTriggered; lia. Qed.

Definition ex_used : gset Z := {[0; 1; 2; 3; 4]}.
Definition ex_outs : list (option Z) := [Some 0; Some 1; None; None; None; Some 3; None; Some 4].

Lemma ex_abs_run : absSessionRun ex_n (NumRekeys ex_params) ex_sops ∅ = (ex_used, ex_outs).
Proof. rewrite ex_n_12. by vm_compute. Qed.

Lemma Session_keys_handed_out_once_witness :
  exists st0 h0 s0 st1 s1,
    ex_new Send = Ok (st0, h0, s0) /\
    ssRun NewKV ex_sops (st0, s0) 5
      = Ok ((st1, s1), ex_outs) /\
    Session_getUnusedKeys s1 = Ok (unusedKeys 12 ex_used).
Proof.
  destruct (Session_keys_handed_out_once (∅ : MemStore) ∅ (fun _ => (0, 0)) NewKV Send 7 (Some (3, 5)) 8
    None 6 ex_trigger [x01] Confirmed ex_params 0 ex_sops 5 ex_used ex_outs ex_params_ok (ex_storable _)
    (or_introl eq_refl) ltac:(unfold Confirmed; lia) eq_refl eq_refl ex_sops_ok ex_abs_run)
    as (st0 & h0 & s0 & st1 & s1 & Hnew & Hrun & _ & _ & Hun).
  exists st0, h0, s0, st1, s1. split; [exact Hnew|]. split; [exact Hrun|].
  rewrite <- ex_n_12. exact Hun.
Defined.

Lemma ex_wf t : t = Send \/ t = Receive -> session_wf (ex_ss t) ex_n ∅.
Proof. intros Ht. exact (si_wf _ _ _ _ _ (proj1 (ex_session_inv t Ht))). Qed.

Lemma ex_prefix t :
  t = Send \/ t = Receive ->
  kv_Prefix NewKV (MakeSessionPrefix (sID (ex_ss t))) = Ok (ss_kv (ex_ss t)).
Proof. intros Ht. exact (si_prefix _ _ _ _ _ (proj1 (ex_session_inv t Ht))). Qed.

Lemma ex_save_ok (st : MemStore) (s : Session Z Z Z Z) now :
  Session_Save st s now = (fst (Session_Save st s now), None).
Proof. reflexivity. Qed.

Lemma Session_save_load_witness :
  exists h', LoadSession (fst (Session_Save (ex_st Receive) (ex_ss Receive) 9)) ∅ NewKV
      (sID (ex_ss Receive)) (relationshipFingerprint (ex_ss Receive))
      = Ok (h', ss_setStatus (ex_ss Receive) (durable (negotiationStatus (ex_ss Receive)))) /\
    cypher_Fingerprint (ex_ss Receive) 4 ∈ h'.
Proof.
  destruct (Session_save_load (ex_st Receive) _ ∅ NewKV (ex_ss Receive) ex_n ∅ Confirmed 9
    (ex_wf _ (or_intror eq_refl)) (ex_stored _ (or_intror eq_refl))
    (ex_prefix _ (or_intror eq_refl)) (ex_save_ok _ _ _)) as (h' & Hload & Hfp).
  exists h'. split; [exact Hload|]. apply Hfp. right.
  split; [by destruct (ex_session_inv Receive (or_intror eq_refl)) as (_ & _ & ? & _)|].
  exists 4. split; [|done]. apply unusedKeys_spec. rewrite ex_n_12.
  split; [lia|apply not_elem_of_empty].
Defined.

Lemma ex_ss_params : e2eParams (ex_ss Send) = ex_params.
Proof. exact (si_params _ _ _ _ _ (proj1 (ex_session_inv Send (or_introl eq_refl)))). Qed.

Lemma ex_ss_used : StateVector_GetNumUsed (keyState (ex_ss Send)) = 0.
Proof.
  rewrite (used_number _ _ _ (wf_keys _ _ _ (ex_wf Send (or_introl eq_refl)))), ex_n_12.
  by vm_compute.
Qed.

Lemma ex_active : Session_Status (ex_ss Send) = Active.
Proof.
  unfold Session_Status. rewrite ex_ss_used, ex_ss_params.
  rewrite (available_unused _ _ _ (wf_keys _ _ _ (ex_wf Send (or_introl eq_refl)))), ex_n_12.
  destruct (ex_session_inv Send (or_introl eq_refl)) as (_ & _ & _ & _ & ->). by vm_compute.
Qed.

Lemma Session_Status_meaning_witness :
  Session_Status (ex_ss Send) = Active /\
  exists x, Session_PopKey (ex_st Send) (ex_ss Send) 0 = Ok x.
Proof.
  pose proof ex_active as Hact. split; [exact Hact|].
  apply (Session_Status_meaning (ex_st Send) (ex_ss Send) ex_n ∅ Confirmed 0
    (ex_wf _ (or_introl eq_refl)) (ex_stored _ (or_introl eq_refl))).
  - rewrite ex_ss_params. by vm_compute.
  - by left.
Defined.

Lemma TrySetNegotiationStatus_legal_witness :
  exists st' h',
    Session_TrySetNegotiationStatus (ex_st Send) (ex_ss Send) NewSessionTriggered 0
      = Ok (st', ss_setStatus (ex_ss Send) NewSessionTriggered) /\
    LoadSession st' ∅ NewKV (sID (ex_ss Send)) (relationshipFingerprint (ex_ss Send))
      = Ok (h', ss_setStatus (ex_ss Send) Confirmed).
Proof.
  destruct (ex_session_inv Send (or_introl eq_refl)) as (_ & _ & _ & Hneg & _).
  pose proof (TrySetNegotiationStatus_legal (ex_st Send) ∅ NewKV (ex_ss Send) ex_n ∅ Confirmed
    NewSessionTriggered 0 (ex_wf _ (or_introl eq_refl))
    (ex_stored _ (or_introl eq_refl)) ltac:(unfold NewSessionTriggered; lia)
    (ex_prefix _ (or_introl eq_refl))) as Hset.
  rewrite Hneg in Hset. exact Hset.
Defined.

(** The example session once the partner's confirmation is outstanding, past
    its threshold. *)
Definition ex_unconf : Session Z Z Z Z :=
  match Session_PopKey (ex_st Send) (ex_ss Send) 0 with
  | Ok (_, s, _) => ss_setStatus s Unconfirmed
  | _ => ex_ss Send
  end.
Definition ex_unconf_st : MemStore :=
  match Session_PopKey (ex_st Send) (ex_ss Send) 0 with Ok (st, _, _) => st | _ => ∅ end.

Lemma ex_unconf_ok :
  session_wf ex_unconf ex_n {[0]} /\ stored ex_unconf_st ex_unconf Confirmed /\
  kv_Prefix NewKV (MakeSessionPrefix (sID ex_unconf)) = Ok (ss_kv ex_unconf) /\
  rekeyThreshold ex_unconf = 1 /\ negotiationStatus ex_unconf = Unconfirmed.
Proof.
  destruct (ex_session_inv Send (or_introl eq_refl)) as (Hinv & Hst & _ & _ & Hthr).
  destruct Hinv as [Hwf _ Hpre Hp]. cbn [fst snd] in *.
  pose proof (pop_spec _ _ _ _ _ 0 Hwf Hst) as Hpop.
  replace (unusedKeys ex_n ∅) with (0 :: zseq 1 12) in Hpop by (rewrite ex_n_12; by vm_compute).
  destruct Hpop as (st' & sv' & Hpop & Hwf' & Hst').
  unfold ex_unconf, ex_unconf_st. rewrite (PopKey_reserve _ _ _ _ _ Hwf), Hp, ex_n_12.
  replace (_ <=? _) with false by (by vm_compute). rewrite Hpop.
  rewrite (right_id_L ∅ (∪)) in Hwf'.
  split_and!; [apply wf_set_status; [exact Hwf'|unfold Unconfirmed; lia]|
    exact (stored_set_status _ _ _ _ Hst')|exact Hpre|exact Hthr|reflexivity].
Qed.

Lemma TriggerNegotiation_counts_as_confirmed_witness :
  Session_IsConfirmed ex_unconf = false /\
  Session_TriggerNegotiation ex_unconf [] = Ok (ss_setStatus ex_unconf NewSessionTriggered, true) /\
  Session_IsConfirmed (ss_setStatus ex_unconf NewSessionTriggered) = true.
Proof.
  destruct ex_unconf_ok as (Hwf & Hst & Hpre & Hthr & Hneg).
  destruct (TriggerNegotiation_counts_as_confirmed ex_unconf_st _ ∅ NewKV ex_unconf ex_n {[0]}
    Confirmed [] 0 Hwf Hst Hpre ltac:(rewrite Hthr; by vm_compute)
    ltac:(rewrite Hneg; done) (ex_save_ok _ _ _)) as (Htrig & Hconf & _).
  split; [unfold Session_IsConfirmed; by rewrite Hneg|]. split; [exact Htrig|exact Hconf].
Defined.

Lemma default_params_never_retry_witness :
  Session_TriggerNegotiation (ss_setStatus (ex_ss Send) Unconfirmed) [x00; x00; x00; x00]
    = Ok (ss_setStatus (ex_ss Send) Unconfirmed, false).
Proof.
  apply default_params_never_retry.
  - cbn [ss_setStatus e2eParams]. rewrite ex_ss_params. reflexivity.
  - cbn [ss_setStatus keyState rekeyThreshold]. rewrite ex_ss_used.
    destruct (ex_session_inv Send (or_introl eq_refl)) as (_ & _ & _ & _ & ->). lia.
  - reflexivity.
Defined.

Lemma Session_ends_agree_witness :
  exists stA' hA' sA stB' hB' sB,
    NewSession (∅ : MemStore) ∅ (fun _ => (0, 0)) NewKV Send 7 (Some (3, 5)) 8 None 6 ex_trigger
      [x01] Confirmed ex_params 0 = Ok (stA', hA', sA) /\
    NewSession (∅ : MemStore) ∅ (fun _ => (0, 0)) NewKV Receive 9 (Some (4, 2)) 6 None 15 ex_trigger
      [x01] Confirmed ex_params 0 = Ok (stB', hB', sB) /\
    cypher_Fingerprint sA 11 ∈ hB' /\
    let '(contents, mac, residue) := cypher_Encrypt sA 11 [x61; x62] in
    cypher_Decrypt sB 11 contents mac = Ok ([x61; x62], residue).
Proof.
  destruct (Session_ends_agree (∅ : MemStore) (∅ : MemStore) ∅ ∅ (fun _ => (0, 0)) (fun _ => (0, 0))
    NewKV NewKV 9 7 (3 : Z) 4 5 2 ex_trigger ex_trigger [x01] Confirmed Confirmed ex_params 0 11
    [x61; x62] ex_params_ok (ex_storable _) ltac:(unfold Confirmed; lia) ltac:(unfold Confirmed; lia)
    eq_refl eq_refl eq_refl eq_refl)
    as (stA' & hA' & sA & stB' & hB' & sB & HA & HB & _ & _ & _ & Hfp & Hdec).
  exists stA', hA', sA, stB', hB', sB. split; [exact HA|]. split; [exact HB|].
  split; [|exact Hdec]. apply Hfp. change (0 <= 11 < ex_n). rewrite ex_n_12. lia.
Defined.

