(* ===== verification/Relationship.v ===== *)
(** * Relationships

    [e2e/ratchet/partner/relationship.go]: the sessions of one direction of a
    partnership, newest first, with the choice of the session to send or rekey
    with, confirmation, the removal of old sessions, and storage.  Sessions are
    shared by the list and the map of a relationship and by their cyphers, so
    they live in a heap; store, registered fingerprints and heap make the
    [world] that the operations change. *)

From S2P Require Import Prelude GoBytes KV Base64 Json StateVector Float64 Session.

(** ** Data *)

Definition maxUnconfirmed : Z := 3.
Definition currentRelationshipVersion : Z := 0.
Definition relationshipKey : string := "relationship".
Definition relationshipFingerprintKey : string := "relationshipFingerprint".

(** [e2e.MakeRelationshipFingerprint] and [e2e.GenerateConnectionFingerprint] of
    the [crypto] package, and the gob form of a group element. *)
Class RelCrypto (ID Int : Type) := {
  MakeRelationshipFingerprint : Int -> Int -> ID -> ID -> list byte;
  GenerateConnectionFingerprint : list byte -> list byte -> list byte;
  int_GobEncode : Int -> list byte;
  int_GobDecode : list byte -> option Int;
}.

(** They do not depend on the order of the two keys, or of the two
    fingerprints. *)
Class RelCryptoLaws (ID Int : Type) `{RelCrypto ID Int} : Prop := {
  relFp_sym x y a b :
    MakeRelationshipFingerprint x y a b = MakeRelationshipFingerprint y x a b;
  connFp_sym x y :
    GenerateConnectionFingerprint x y = GenerateConnectionFingerprint y x;
  int_gob x : int_GobDecode (int_GobEncode x) = Some x;
}.

Record world (S ID Int Priv Pub : Type) := mkWorld {
  w_store : S;
  w_handler : handler;
  w_heap : list (Session ID Int Priv Pub);
}.
Arguments mkWorld {S ID Int Priv Pub}.
Arguments w_store {S ID Int Priv Pub}.
Arguments w_handler {S ID Int Priv Pub}.
Arguments w_heap {S ID Int Priv Pub}.

(** Sessions are given by their place in the heap. *)
Record relationship (ID : Type) := mkRelationship {
  r_t : Z;
  r_kv : kv;
  sessions : list nat;
  sessionByID : gmap SessionID nat;
  r_fingerprint : list byte;
  r_myID : ID;
  r_partnerID : ID;
}.
Arguments mkRelationship {ID}.
Arguments r_t {ID}.
Arguments r_kv {ID}.
Arguments sessions {ID}.
Arguments sessionByID {ID}.
Arguments r_fingerprint {ID}.
Arguments r_myID {ID}.
Arguments r_partnerID {ID}.

Definition r_setSessions {ID} (r : relationship ID) (l : list nat) (m : gmap SessionID nat) :
    relationship ID :=
  mkRelationship (r_t r) (r_kv r) l m (r_fingerprint r) (r_myID r) (r_partnerID r).

Section relationship.
Context {ID Int Priv Pub : Type} `{NetID ID} `{SessionCrypto Int Priv Pub} `{RelCrypto ID Int}.
Context {S : Type} `{EKV S} `{JsonCodec SessionDisk} `{JsonCodec (list SessionID)}.
(** The order in which [range] visits the entries of a map. *)
Context (iter : gmap SessionID nat -> list SessionID).

Abbreviation session := (Session ID Int Priv Pub).
Abbreviation world := (world S ID Int Priv Pub).
Abbreviation relationship := (relationship ID).

Definition w_setStore (w : world) (st : S) : world := mkWorld st (w_handler w) (w_heap w).
Definition w_deref (w : world) (l : nat) : result session :=
  match w_heap w !! l with Some s => Ok s | None => Panic end.
Definition w_assign (w : world) (l : nat) (s : session) : world :=
  mkWorld (w_store w) (w_handler w) (<[l := s]> (w_heap w)).

(** ** Fingerprints ([relationshipFingerprint.go]) *)

Definition makeRelationshipFingerprint (t : Z) (myPriv partnerPub : Int) (me partner : ID) :
    result (list byte) :=
  let myPub := dh_GeneratePublicKey myPriv in
  if t =? Send then Ok (MakeRelationshipFingerprint myPub partnerPub me partner)
  else if t =? Receive then Ok (MakeRelationshipFingerprint myPub partnerPub partner me)
  else Panic.

Definition storeRelationshipFingerprint (st : S) (fp : list byte) (v : kv) (now : Time) :
    S * option error :=
  kv_Set v st relationshipFingerprintKey (mkObject currentRelationshipVersion now fp).

Definition loadRelationshipFingerprint (st : S) (v : kv) : result (list byte) :=
  match kv_Get v st relationshipFingerprintKey currentRelationshipVersion with
  | inl _ => Panic
  | inr obj => Ok (Data obj)
  end.

Definition deleteRelationshipFingerprint (st : S) (v : kv) : S * option error :=
  kv_Delete v st relationshipFingerprintKey currentRelationshipVersion.

(** ** Storage *)

(** [marshal] fills as many entries as there are sessions; those it does not
    reach keep the zero ID, and one too many panics. *)
Definition relationship_marshal (r : relationship) : result (list byte) :=
  let ids := iter (sessionByID r) in
  let n := length (sessions r) in
  if (length ids <=? n)%nat then
    Ok (json_Marshal (ids ++ replicate (n - length ids) (replicate (Z.to_nat sessionIDLen) x00)))
  else Panic.

Definition relationship_save (st : S) (r : relationship) (now : Time) :
    result (S * option error) :=
  data ← relationship_marshal r;
  Ok (kv_Set (r_kv r) st relationshipKey (mkObject currentRelationshipVersion now data)).

(** [addSession]: the session becomes the newest. *)
Definition relationship_addSession (r : relationship) (l : nat) (sid : SessionID) : relationship :=
  r_setSessions r (l :: sessions r) (<[sid := l]> (sessionByID r)).

(** The loop of [unmarshal]. *)
Fixpoint loadSessions (w : world) (r : relationship) (ids : list SessionID) :
    result (world * relationship) :=
  match ids with
  | [] => Ok (w, r)
  | sid :: ids =>
      '(h, s) ← must (LoadSession (w_store w) (w_handler w) (r_kv r) sid (r_fingerprint r));
      let l := length (w_heap w) in
      let w := mkWorld (w_store w) h (w_heap w ++ [s]) in
      loadSessions w (relationship_addSession r l (sID s)) ids
  end.

Definition relationship_unmarshal (w : world) (r : relationship) (b : list byte) :
    result (world * relationship) :=
  match json_Unmarshal b with
  | None => Err (Errorf "json" [])
  | Some ids =>
      fp ← loadRelationshipFingerprint (w_store w) (r_kv r);
      let r := mkRelationship (r_t r) (r_kv r) (sessions r) (sessionByID r) fp (r_myID r)
                 (r_partnerID r) in
      loadSessions w r ids
  end.

Definition LoadRelationship (w : world) (v : kv) (t : Z) (me partner : ID) :
    result (world * relationship) :=
  p ← RelationshipType_Prefix t;
  v ← kv_Prefix v p;
  let r := mkRelationship t v [] ∅ [] me partner in
  match kv_Get v (w_store w) relationshipKey currentRelationshipVersion with
  | inl e => Err e
  | inr obj => relationship_unmarshal w r (Data obj)
  end.

(** ** Creation *)

(** A failed [save] of the relationship is only logged. *)
Definition NewRelationship (w : world) (gen : Z -> Int * Priv) (v : kv) (t : Z) (me partner : ID)
    (priv : Int * Priv) (partnerPub : Int) (partnerSIDH : Pub) (params : Params) (now : Time) :
    result (world * relationship) :=
  p ← RelationshipType_Prefix t;
  v ← must (kv_Prefix v p);
  fingerprint ← makeRelationshipFingerprint t (fst priv) partnerPub me partner;
  match storeRelationshipFingerprint (w_store w) fingerprint v now with
  | (_, Some _) => Panic
  | (st, None) =>
      let r := mkRelationship t v [] ∅ fingerprint me partner in
      '(st, h, s) ← NewSession st (w_handler w) gen v t partner (Some priv) partnerPub None
                      partnerSIDH (replicate (Z.to_nat sessionIDLen) x00) fingerprint Confirmed
                      params now;
      match Session_Save st s now with
      | (_, Some _) => Panic
      | (st, None) =>
          let l := length (w_heap w) in
          let r := relationship_addSession r l (sID s) in
          '(st, _) ← relationship_save st r now;
          Ok (mkWorld st h (w_heap w ++ [s]), r)
      end
  end.

Definition relationship_AddSession (w : world) (r : relationship) (gen : Z -> Int * Priv)
    (priv : option (Int * Priv)) (partnerPub : Int) (base : option Int) (partnerSIDH : Pub)
    (trigger : SessionID) (status : Z) (params : Params) (now : Time) :
    result (world * relationship * nat) :=
  '(st, h, s) ← NewSession (w_store w) (w_handler w) gen (r_kv r) (r_t r) (r_partnerID r) priv
                  partnerPub base partnerSIDH trigger (r_fingerprint r) status params now;
  let l := length (w_heap w) in
  let r := relationship_addSession r l (sID s) in
  '(st, _) ← relationship_save st r now;
  Ok (mkWorld st h (w_heap w ++ [s]), r, l).

(** ** Removal *)

(** The loop of [Delete]. *)
Fixpoint deleteSessions (w : world) (byID : gmap SessionID nat) (ls : list nat) :
    result (world * gmap SessionID nat) :=
  match ls with
  | [] => Ok (w, byID)
  | l :: ls =>
      s ← w_deref w l;
      '(st, h) ← Session_Delete (w_store w) (w_handler w) s;
      deleteSessions (mkWorld st h (w_heap w)) (delete (sID s) byID) ls
  end.

Definition relationship_Delete (w : world) (r : relationship) : result (world * relationship) :=
  '(w, byID) ← deleteSessions w (sessionByID r) (sessions r);
  Ok (w, r_setSessions r (sessions r) byID).

(** The loop of [clean]: the sessions kept so far are in [kept], the last one
    first. *)
Fixpoint cleanLoop (w : world) (byID : gmap SessionID nat) (numConfirmed : Z) (kept : list nat)
    (edits : bool) (ls : list nat) : result (world * gmap SessionID nat * list nat * bool) :=
  match ls with
  | [] => Ok (w, byID, reverse kept, edits)
  | l :: ls =>
      s ← w_deref w l;
      if Session_IsConfirmed s then
        let numConfirmed := numConfirmed + 1 in
        if maxUnconfirmed <? numConfirmed then
          '(st, h) ← Session_Delete (w_store w) (w_handler w) s;
          cleanLoop (mkWorld st h (w_heap w)) (delete (sID s) byID) numConfirmed kept true ls
        else cleanLoop w byID numConfirmed (l :: kept) edits ls
      else cleanLoop w byID numConfirmed (l :: kept) edits ls
  end.

Definition relationship_clean (w : world) (r : relationship) (now : Time) :
    result (world * relationship) :=
  '(w, byID, newSessions, edits) ← cleanLoop w (sessionByID r) 0 [] false (sessions r);
  if (edits : bool) then
    let r := r_setSessions r newSessions byID in
    '(st, _) ← relationship_save (w_store w) r now;
    Ok (w_setStore w st, r)
  else Ok (w, r_setSessions r (sessions r) byID).

(** ** Reading *)

Definition relationship_GetNewest (r : relationship) : option nat :=
  match sessions r with [] => None | l :: _ => Some l end.

Definition relationship_GetByID (r : relationship) (sid : SessionID) : option nat :=
  sessionByID r !! sid.

(** The loop of [getSessionForSending], with its three lists of candidates. *)
Fixpoint sendingLoop (w : world) (confirmedRekey unconfirmedActive unconfirmedRekey ls : list nat) :
    result (option nat) :=
  match ls with
  | [] =>
      Ok (match confirmedRekey with
          | l :: _ => Some l
          | [] => match unconfirmedActive with
                  | l :: _ => Some l
                  | [] => match unconfirmedRekey with l :: _ => Some l | [] => None end
                  end
          end)
  | l :: ls =>
      s ← w_deref w l;
      let status := Session_Status s in
      let confirmed := Session_IsConfirmed s in
      if bool_decide (status = Active) && confirmed then Ok (Some l)
      else if bool_decide (status = RekeyNeeded) && confirmed then
        sendingLoop w (confirmedRekey ++ [l]) unconfirmedActive unconfirmedRekey ls
      else if bool_decide (status = Active) && negb confirmed then
        sendingLoop w confirmedRekey (unconfirmedActive ++ [l]) unconfirmedRekey ls
      else if bool_decide (status = RekeyNeeded) && negb confirmed then
        sendingLoop w confirmedRekey unconfirmedActive (unconfirmedRekey ++ [l]) ls
      else sendingLoop w confirmedRekey unconfirmedActive unconfirmedRekey ls
  end.

Definition getSessionForSending (w : world) (r : relationship) : result (option nat) :=
  sendingLoop w [] [] [] (sessions r).

(** A cypher is its session and key number. *)
Definition getKeyForSending (w : world) (r : relationship) (now : Time) :
    result (world * (nat * Z)) :=
  o ← getSessionForSending w r;
  match o with
  | None => Err (Errorf "Failed to find a session for sending" [])
  | Some l =>
      s ← w_deref w l;
      '(st, s, k) ← Session_PopKey (w_store w) s now;
      Ok (w_assign (w_setStore w st) l s, (l, k))
  end.

(** The loop of [getNewestRekeyableSession]. *)
Fixpoint rekeyableLoop (w : world) (unconfirmed : option nat) (ls : list nat) :
    result (option nat) :=
  match ls with
  | [] => Ok unconfirmed
  | l :: ls =>
      s ← w_deref w l;
      if negb (bool_decide (Session_Status s = RekeyEmpty)) then
        if Session_IsConfirmed s then Ok (Some l)
        else rekeyableLoop w (match unconfirmed with None => Some l | Some u => Some u end) ls
      else rekeyableLoop w unconfirmed ls
  end.

Definition getNewestRekeyableSession (w : world) (r : relationship) : result (option nat) :=
  if (length (sessions r) =? 0)%nat then Ok None else rekeyableLoop w None (sessions r).

Definition getKeyForRekey (w : world) (r : relationship) (now : Time) :
    result (world * (nat * Z)) :=
  o ← getNewestRekeyableSession w r;
  match o with
  | None => Err (Errorf "Failed to find a session for rekeying" [])
  | Some l =>
      s ← w_deref w l;
      '(st, s, k) ← Session_PopReKey (w_store w) s now;
      Ok (w_assign (w_setStore w st) l s, (l, k))
  end.

(** ** Negotiation *)

(** The loop of [TriggerNegotiation]; [draws] gives each session's four random
    bytes. *)
Fixpoint triggerLoop (w : world) (draws : nat -> list byte) (ls : list nat) :
    result (world * list nat) :=
  match ls with
  | [] => Ok (w, [])
  | l :: ls =>
      s ← w_deref w l;
      '(s, triggered) ← Session_TriggerNegotiation s (draws l);
      '(w, instructions) ← triggerLoop (w_assign w l s) draws ls;
      Ok (w, if (triggered : bool) then l :: instructions else instructions)
  end.

Definition relationship_TriggerNegotiation (w : world) (r : relationship)
    (draws : nat -> list byte) : result (world * list nat) :=
  triggerLoop w draws (sessions r).

Definition relationship_Confirm (w : world) (r : relationship) (sid : SessionID) (now : Time) :
    result (world * relationship) :=
  match sessionByID r !! sid with
  | None => Err (Errorf "cannot confirm session %s, does not exist" [])
  | Some l =>
      s ← w_deref w l;
      '(st, s) ← Session_SetNegotiationStatus (w_store w) s Confirmed now;
      relationship_clean (w_assign (w_setStore w st) l s) r now
  end.
End relationship.

(** ** The choice of a session *)

(** The first session of a list, in heap order, with a property. *)
Fixpoint firstWith {S ID Int Priv Pub} (w : world S ID Int Priv Pub)
    (P : Session ID Int Priv Pub -> bool) (ls : list nat) : option nat :=
  match ls with
  | [] => None
  | l :: ls =>
      match w_heap w !! l with
      | Some s => if P s then Some l else firstWith w P ls
      | None => firstWith w P ls
      end
  end.

Definition orElse {A} (a b : option A) : option A := match a with Some x => Some x | None => b end.

Definition has {ID Int Priv Pub} (st : Status) (confirmed : bool) (s : Session ID Int Priv Pub) : bool :=
  bool_decide (Session_Status s = st) && Bool.eqb (Session_IsConfirmed s) confirmed.

(** The preference of [getSessionForSending], and of
    [getNewestRekeyableSession]. *)
Definition bestForSending {S ID Int Priv Pub} (w : world S ID Int Priv Pub) (ls : list nat) : option nat :=
  orElse (firstWith w (has Active true) ls)
    (orElse (firstWith w (has RekeyNeeded true) ls)
       (orElse (firstWith w (has Active false) ls)
          (firstWith w (has RekeyNeeded false) ls))).

Definition bestForRekey {S ID Int Priv Pub} (w : world S ID Int Priv Pub) (ls : list nat) : option nat :=
  orElse (firstWith w (fun s => negb (bool_decide (Session_Status s = RekeyEmpty)) && Session_IsConfirmed s) ls)
    (firstWith w (fun s => negb (bool_decide (Session_Status s = RekeyEmpty)) && negb (Session_IsConfirmed s)) ls).

Section choice.
Context {S ID Int Priv Pub : Type}.
Implicit Types w : world S ID Int Priv Pub.

Lemma sendingLoop_spec w ls cr ua ur :
  Forall (fun l => is_Some (w_heap w !! l)) ls ->
  sendingLoop w cr ua ur ls =
    Ok (orElse (firstWith w (has Active true) ls)
         (orElse (head (cr ++ option_list (firstWith w (has RekeyNeeded true) ls)))
           (orElse (head (ua ++ option_list (firstWith w (has Active false) ls)))
             (head (ur ++ option_list (firstWith w (has RekeyNeeded false) ls)))))).
Proof.
  intros Hls. revert cr ua ur. induction Hls as [|l ls [s Hs] _ IH]; intros cr ua ur.
  - cbn [sendingLoop firstWith option_list orElse]. rewrite !app_nil_r.
    by destruct cr, ua, ur.
  - cbn [sendingLoop firstWith]. unfold w_deref. rewrite Hs. cbn [mbind result_bind].
    unfold has. destruct (Session_Status s), (Session_IsConfirmed s); simpl; try done;
      rewrite IH; by destruct cr, ua, ur.
Qed.

Lemma rekeyableLoop_spec w ls u :
  Forall (fun l => is_Some (w_heap w !! l)) ls ->
  rekeyableLoop w u ls =
    Ok (orElse (firstWith w (fun s => negb (bool_decide (Session_Status s = RekeyEmpty)) && Session_IsConfirmed s) ls)
         (orElse u
           (firstWith w (fun s => negb (bool_decide (Session_Status s = RekeyEmpty)) && negb (Session_IsConfirmed s)) ls))).
Proof.
  intros Hls. revert u. induction Hls as [|l ls [s Hs] _ IH]; intros u; [by destruct u|].
  cbn [rekeyableLoop firstWith]. unfold w_deref. rewrite Hs. cbn [mbind result_bind].
  case_bool_decide; cbn [negb andb].
  - apply IH.
  - destruct (Session_IsConfirmed s); cbn [negb]; [done|]. rewrite IH. by destruct u.
Qed.

Lemma firstWith_Some w P ls l :
  firstWith w P ls = Some l ->
  l ∈ ls /\ exists s, w_heap w !! l = Some s /\ P s = true.
Proof.
  induction ls as [|l' ls IH]; [done|]. cbn [firstWith]. intros Hf.
  destruct (w_heap w !! l') as [s|] eqn:Hs; [destruct (P s) eqn:HP|].
  - simplify_eq. split; [left|]. eauto.
  - destruct (IH Hf). split; [by right|done].
  - destruct (IH Hf). split; [by right|done].
Qed.

Lemma firstWith_None w P ls l s :
  firstWith w P ls = None -> l ∈ ls -> w_heap w !! l = Some s -> P s = false.
Proof.
  induction ls as [|l' ls IH]; intros Hf Hl Hs; [by apply not_elem_of_nil in Hl|].
  cbn [firstWith] in Hf. apply elem_of_cons in Hl as [->|Hl].
  - rewrite Hs in Hf. by destruct (P s).
  - apply IH; [|done..]. by destruct (w_heap w !! l') as [s'|]; [destruct (P s')|].
Qed.

Lemma bestForSending_Some w ls l :
  bestForSending w ls = Some l ->
  l ∈ ls /\ exists s, w_heap w !! l = Some s /\
    (Session_Status s = Active \/ Session_Status s = RekeyNeeded).
Proof.
  intros Hb. assert (exists st c, (st = Active \/ st = RekeyNeeded) /\ firstWith w (has st c) ls = Some l)
    as (st & c & Hst & Hf).
  { unfold bestForSending in Hb.
    destruct (firstWith w (has Active true) ls) eqn:E1; [exists Active, true; simpl in *; by simplify_eq; auto|].
    destruct (firstWith w (has RekeyNeeded true) ls) eqn:E2; [exists RekeyNeeded, true; simpl in *; by simplify_eq; auto|].
    destruct (firstWith w (has Active false) ls) eqn:E3; [exists Active, false; simpl in *; by simplify_eq; auto|].
    exists RekeyNeeded, false. simpl in *. auto. }
  apply firstWith_Some in Hf as (Hl & s & Hs & HP). split; [done|]. exists s. split; [done|].
  unfold has in HP. apply andb_true_iff in HP as [HP _]. apply bool_decide_eq_true in HP.
  by rewrite HP.
Qed.

Lemma bestForSending_None w ls l s :
  bestForSending w ls = None -> l ∈ ls -> w_heap w !! l = Some s ->
  ~ (Session_Status s = Active \/ Session_Status s = RekeyNeeded).
Proof.
  intros Hb Hl Hs Hst. unfold bestForSending in Hb.
  destruct (firstWith w (has Active true) ls) eqn:E1; [done|].
  destruct (firstWith w (has RekeyNeeded true) ls) eqn:E2; [done|].
  destruct (firstWith w (has Active false) ls) eqn:E3; [done|].
  destruct (firstWith w (has RekeyNeeded false) ls) eqn:E4; [done|].
  pose proof (firstWith_None _ _ _ _ _ E1 Hl Hs) as H1. pose proof (firstWith_None _ _ _ _ _ E2 Hl Hs) as H2.
  pose proof (firstWith_None _ _ _ _ _ E3 Hl Hs) as H3. pose proof (firstWith_None _ _ _ _ _ E4 Hl Hs) as H4.
  unfold has in *. destruct Hst as [Hst|Hst]; rewrite Hst in *; destruct (Session_IsConfirmed s); done.
Qed.

Lemma bestForRekey_Some w ls l :
  bestForRekey w ls = Some l ->
  l ∈ ls /\ exists s, w_heap w !! l = Some s /\ Session_Status s ≠ RekeyEmpty.
Proof.
  unfold bestForRekey. intros Hb. destruct (firstWith w _ ls) as [l'|] eqn:E; simpl in Hb;
    [|clear E; rename Hb into E]; simplify_eq; apply firstWith_Some in E as (Hl & s & Hs & HP);
    (split; [done|]); exists s; (split; [done|]); intros Heq; rewrite Heq in HP; done.
Qed.

Lemma bestForRekey_None w ls l s :
  bestForRekey w ls = None -> l ∈ ls -> w_heap w !! l = Some s -> Session_Status s = RekeyEmpty.
Proof.
  unfold bestForRekey. intros Hb Hl Hs. destruct (firstWith w _ ls) as [l'|] eqn:E; simpl in Hb; [done|].
  pose proof (firstWith_None _ _ _ _ _ E Hl Hs) as H1. pose proof (firstWith_None _ _ _ _ _ Hb Hl Hs) as H2.
  cbv beta in H1, H2. by case_bool_decide; [|destruct (Session_IsConfirmed s)].
Qed.
End choice.

(** ** The invariant *)

(** JSON represents lists of session IDs. *)
Class IDsJson `{JsonCodec (list SessionID)} : Prop :=
  ids_json (ids : list SessionID) : Forall (fun sid => length sid = 32%nat) ids -> json_ok ids.

(** [session_at w r l s n U]: place [l] of the heap holds the session [s] of the
    relationship, with [n] keys of which [U] are used, and it is stored. *)
Record session_at {ID Int Priv Pub} `{NetID ID} `{SessionCrypto Int Priv Pub}
    `{JsonCodec SessionDisk} {S} `{EKV S} (w : world S ID Int Priv Pub) (r : relationship ID)
    (l : nat) (s : Session ID Int Priv Pub) (n : Z) (U : gset Z) : Prop := {
  sa_heap : w_heap w !! l = Some s;
  sa_wf : session_wf s n U;
  sa_stored : exists m, stored (w_store w) s m;
  sa_prefix : kv_Prefix (r_kv r) (MakeSessionPrefix (sID s)) = Ok (ss_kv s);
  sa_fp : relationshipFingerprint s = r_fingerprint r;
  sa_type : ss_t s = r_t r;
  sa_id : length (sID s) = 32%nat;
  sa_reserve : is_u 16 (NumRekeys (e2eParams s));
}.

(** The list and the map agree, every session is stored, and so is the
    fingerprint. *)
Record rel_core {ID Int Priv Pub} `{NetID ID} `{SessionCrypto Int Priv Pub}
    `{JsonCodec SessionDisk} {S} `{EKV S}
    (w : world S ID Int Priv Pub) (r : relationship ID) : Prop := {
  ri_handle : kv_handle (r_kv r);
  ri_nodup : NoDup (sessions r);
  ri_at l : l ∈ sessions r -> exists s n U, session_at w r l s n U;
  ri_byID sid l : sessionByID r !! sid = Some l <->
    l ∈ sessions r /\ exists s, w_heap w !! l = Some s /\ sID s = sid;
  ri_fp : exists now, kv_Get (r_kv r) (w_store w) relationshipFingerprintKey currentRelationshipVersion
    = inr (mkObject currentRelationshipVersion now (r_fingerprint r));
}.

(** And the stored list names the sessions. *)
Record rel_inv {ID Int Priv Pub} `{NetID ID} `{SessionCrypto Int Priv Pub}
    `{JsonCodec SessionDisk} `{JsonCodec (list SessionID)} {S} `{EKV S}
    (w : world S ID Int Priv Pub) (r : relationship ID) : Prop := {
  ri_core :> rel_core w r;
  ri_list : exists now ids, kv_Get (r_kv r) (w_store w) relationshipKey currentRelationshipVersion
      = inr (mkObject currentRelationshipVersion now (json_Marshal ids)) /\
    NoDup ids /\ (forall sid, sid ∈ ids <-> is_Some (sessionByID r !! sid));
}.

Lemma MakeSessionPrefix_inj a b : MakeSessionPrefix a = MakeSessionPrefix b -> a = b.
Proof.
  unfold MakeSessionPrefix, SessionID_String. intros Heq. apply b64Encode_inj, chars_inj.
  apply (f_equal chars) in Heq. rewrite !chars_app in Heq. simpl in Heq. simplify_eq.
  by apply app_inj_tail in Heq as [Heq _].
Qed.

Section invariant.
Context {ID Int Priv Pub : Type} `{NetIDLaws ID} `{SessionCryptoLaws Int Priv Pub}.
Context {S : Type} `{EKVLaws S} `{!EKVReliable S} `{JsonCodec SessionDisk} `{JsonCodec (list SessionID)}.
Implicit Types (w : world S ID Int Priv Pub) (r : relationship ID) (s : Session ID Int Priv Pub).

Lemma session_handle r s :
  kv_handle (r_kv r) -> kv_Prefix (r_kv r) (MakeSessionPrefix (sID s)) = Ok (ss_kv s) ->
  kv_handle (ss_kv s).
Proof. apply handle_prefix. Qed.

(** Two sessions of a relationship with different IDs have different prefixes. *)
Lemma sessions_apart v s s' :
  kv_Prefix v (MakeSessionPrefix (sID s)) = Ok (ss_kv s) ->
  kv_Prefix v (MakeSessionPrefix (sID s')) = Ok (ss_kv s') ->
  sID s ≠ sID s' -> prefix (ss_kv s) ≠ prefix (ss_kv s').
Proof.
  intros Hp Hp' Hne Heq. apply Hne, MakeSessionPrefix_inj. by apply (kv_Prefix_inj _ _ _ _ _ Hp Hp').
Qed.

(** Different places of the list hold different IDs. *)
Lemma rel_ids_unique w r l l' s s' :
  rel_core w r -> l ∈ sessions r -> l' ∈ sessions r -> w_heap w !! l = Some s ->
  w_heap w !! l' = Some s' -> sID s = sID s' -> l = l'.
Proof.
  intros Hi Hl Hl' Hs Hs' Hid.
  assert (sessionByID r !! sID s = Some l) as H1' by (apply (ri_byID _ _ Hi); eauto).
  assert (sessionByID r !! sID s = Some l') as H2' by (apply (ri_byID _ _ Hi); eauto).
  congruence.
Qed.

(** A change of one session: the new session has the same ID and place in the
    store, and the store changed under its prefix only. *)
Lemma rel_update w r l s s' n U st' :
  rel_inv w r -> l ∈ sessions r -> w_heap w !! l = Some s ->
  confined (prefix (ss_kv s)) (w_store w) st' ->
  session_at (w_assign (w_setStore w st') l s') r l s' n U -> sID s' = sID s ->
  rel_inv (w_assign (w_setStore w st') l s') r.
Proof.
  intros Hi Hl Hs Hc Hat Hid. pose proof (lookup_lt_Some _ _ _ Hs) as Hlt.
  destruct (ri_at _ _ Hi l Hl) as (s0 & n0 & U0 & Hat0).
  assert (s0 = s) as -> by (pose proof (sa_heap _ _ _ _ _ _ Hat0); congruence).
  pose proof (kv_Prefix_ne _ _ _ (sa_prefix _ _ _ _ _ _ Hat0)) as Hne.
  split; [split|].
  - apply (ri_handle _ _ Hi).
  - apply (ri_nodup _ _ Hi).
  - intros l' Hl'. destruct (decide (l' = l)) as [->|Hneq]; [eauto|].
    destruct (ri_at _ _ Hi l' Hl') as (s1 & n1 & U1 & []). exists s1, n1, U1. split; try done.
    + simpl. by rewrite list_lookup_insert_ne.
    + destruct sa_stored0 as [m Hm]. exists m. simpl.
      apply (stored_confined _ _ _ _ _ Hm Hc); [by apply (session_handle r), sa_prefix0; apply (ri_handle _ _ Hi)|].
      apply (sessions_apart (r_kv r)); [done|apply Hat0|]. intros Heq.
      apply Hneq. by apply (rel_ids_unique w r _ _ s1 s (ri_core _ _ Hi)).
  - intros sid l'. rewrite (ri_byID _ _ Hi). simpl. split; intros [Hl' (s1 & Hs1 & Hsid)]; split; try done.
    + destruct (decide (l' = l)) as [->|Hneq].
      * exists s'. rewrite list_lookup_insert_eq by done. split; [done|]. congruence.
      * exists s1. by rewrite list_lookup_insert_ne.
    + destruct (decide (l' = l)) as [->|Hneq].
      * rewrite list_lookup_insert_eq in Hs1 by done. simplify_eq. exists s. by rewrite Hid.
      * rewrite list_lookup_insert_ne in Hs1 by done. eauto.
  - destruct (ri_fp _ _ Hi) as [now Hfp]. exists now. etrans; [|exact Hfp].
    apply Hc; [apply (ri_handle _ _ Hi)|done|done|congruence].
  - destruct (ri_list _ _ Hi) as (now & ids & Hids & Hrest). exists now, ids. split; [|done].
    etrans; [|exact Hids]. apply Hc; [apply (ri_handle _ _ Hi)|done|done|congruence].
Qed.

(** Taking the least unused key of a session of the relationship. *)
Lemma pop_at w r l s n U k ks now :
  rel_inv w r -> l ∈ sessions r -> session_at w r l s n U -> unusedKeys n U = k :: ks ->
  exists st' sv', Session_PopReKey (w_store w) s now = Ok (st', ss_setKeys s sv', k) /\
    let w' := w_assign (w_setStore w st') l (ss_setKeys s sv') in
    rel_inv w' r /\ session_at w' r l (ss_setKeys s sv') n ({[k]} ∪ U).
Proof.
  intros Hi Hl Hat Hk. pose proof Hat as [Hs Hwf [m Hst] Hpre Hfp Ht Hid Hres].
  pose proof (pop_spec _ _ _ _ _ now Hwf Hst) as Hpop. rewrite Hk in Hpop.
  destruct Hpop as (st' & sv' & Hpop & Hwf' & Hst'). exists st', sv'. split; [done|].
  set (w' := w_assign _ _ _).
  assert (session_at w' r l (ss_setKeys s sv') n ({[k]} ∪ U)) as Hat'.
  { split; try done; [|by exists m]. simpl. apply list_lookup_insert_eq.
    by apply (lookup_lt_Some _ _ _ Hs). }
  split; [|done]. apply (rel_update w r l s _ n ({[k]} ∪ U)); try done.
  apply (pop_confined _ _ _ _ _ _ _ _ Hpop Hwf). apply (session_handle r); [apply (ri_handle _ _ Hi)|done].
Qed.

Lemma rel_heap w r : rel_core w r -> Forall (fun l => is_Some (w_heap w !! l)) (sessions r).
Proof.
  intros Hi. apply list.Forall_forall. intros l Hl.
  destruct (ri_at _ _ Hi l Hl) as (s & n & U & Hat). exists s. apply Hat.
Qed.

(** What the status says of the unused keys. *)
Lemma status_keys s n U :
  session_wf s n U -> is_u 16 (NumRekeys (e2eParams s)) ->
  (Session_Status s = Active \/ Session_Status s = RekeyNeeded <->
     NumRekeys (e2eParams s) < Z.of_nat (length (unusedKeys n U))) /\
  (Session_Status s ≠ RekeyEmpty <-> unusedKeys n U ≠ []).
Proof.
  intros Hwf Hres. unfold is_u in Hres. pose proof (wf_keys _ _ _ Hwf) as Hr. unfold Session_Status.
  rewrite (available_unused _ _ _ Hr).
  assert (unusedKeys n U ≠ [] <-> Z.of_nat (length (unusedKeys n U)) ≠ 0) as ->.
  { destruct (unusedKeys n U); simpl; [intuition lia|]. split; [lia|done]. }
  destruct (Z.eqb_spec (Z.of_nat (length (unusedKeys n U))) 0); [intuition (done || lia)|].
  destruct (Z.leb_spec (Z.of_nat (length (unusedKeys n U))) (NumRekeys (e2eParams s)));
    [intuition (done || lia)|].
  destruct (_ <=? _); intuition (done || lia).
Qed.

Lemma sending_finds w r now :
  rel_inv w r ->
  getSessionForSending w r = Ok (bestForSending w (sessions r)) /\
  match bestForSending w (sessions r) with
  | Some l => exists s n U k ks st' sv',
      l ∈ sessions r /\ session_at w r l s n U /\ unusedKeys n U = k :: ks /\
      let w' := w_assign (w_setStore w st') l (ss_setKeys s sv') in
      getKeyForSending w r now = Ok (w', (l, k)) /\
      rel_inv w' r /\ session_at w' r l (ss_setKeys s sv') n ({[k]} ∪ U)
  | None => (exists e, getKeyForSending w r now = Err e) /\
      forall l s n U, l ∈ sessions r -> session_at w r l s n U ->
        Z.of_nat (length (unusedKeys n U)) <= NumRekeys (e2eParams s)
  end.
Proof.
  intros Hi. assert (getSessionForSending w r = Ok (bestForSending w (sessions r))) as Hget.
  { unfold getSessionForSending. rewrite sendingLoop_spec by (apply rel_heap, Hi).
    unfold bestForSending. simpl.
    by destruct (firstWith w (has Active true) _), (firstWith w (has RekeyNeeded true) _),
      (firstWith w (has Active false) _), (firstWith w (has RekeyNeeded false) _). }
  split; [done|]. unfold getKeyForSending. rewrite Hget. cbn [mbind result_bind].
  destruct (bestForSending w (sessions r)) as [l|] eqn:Hbest.
  - apply bestForSending_Some in Hbest as (Hl & s & Hs & Hstatus).
    destruct (ri_at _ _ Hi l Hl) as (s0 & n & U & Hat).
    assert (s0 = s) as -> by (pose proof (sa_heap _ _ _ _ _ _ Hat); congruence).
    pose proof (sa_wf _ _ _ _ _ _ Hat) as Hwf. pose proof (sa_reserve _ _ _ _ _ _ Hat) as Hres.
    apply (status_keys s n U Hwf Hres) in Hstatus.
    destruct (unusedKeys n U) as [|k ks] eqn:Hk; [unfold is_u in Hres; simpl in Hstatus; lia|].
    destruct (pop_at w r l s n U k ks now Hi Hl Hat Hk) as (st' & sv' & Hpop & Hi' & Hat').
    exists s, n, U, k, ks, st', sv'. split_and!; try done.
    unfold w_deref. rewrite Hs. cbn [mbind result_bind].
    rewrite (PopKey_reserve _ s n U now Hwf), Hk, (proj2 (Z.leb_gt _ _)) by done.
    by rewrite Hpop.
  - split; [by eexists|]. intros l s n U Hl Hat.
    destruct (Z.le_gt_cases (Z.of_nat (length (unusedKeys n U))) (NumRekeys (e2eParams s))) as [|Hgt];
      [done|]. exfalso.
    pose proof (sa_wf _ _ _ _ _ _ Hat) as Hwf. pose proof (sa_reserve _ _ _ _ _ _ Hat) as Hres.
    apply (status_keys s n U Hwf Hres) in Hgt.
    apply (bestForSending_None w (sessions r) l s Hbest Hl (sa_heap _ _ _ _ _ _ Hat) Hgt).
Qed.

(** [getKeyForSending] finds a key whenever one is left.  It takes the first
    session in the order of preference (confirmed and active; confirmed and past
    its threshold; unconfirmed and active; unconfirmed and past its threshold),
    newest first, and its least unused key; only that session changes.  When it
    fails, every session has at most its rekey reserve left. *)
Theorem getKeyForSending_finds w r now :
  rel_inv w r ->
  getSessionForSending w r = Ok (bestForSending w (sessions r)) /\
  match bestForSending w (sessions r) with
  | Some l => exists s n U k ks st' sv',
      l ∈ sessions r /\ session_at w r l s n U /\ unusedKeys n U = k :: ks /\
      let w' := w_assign (w_setStore w st') l (ss_setKeys s sv') in
      getKeyForSending w r now = Ok (w', (l, k)) /\
      rel_inv w' r /\ session_at w' r l (ss_setKeys s sv') n ({[k]} ∪ U)
  | None => (exists e, getKeyForSending w r now = Err e) /\
      forall l s n U, l ∈ sessions r -> session_at w r l s n U ->
        Z.of_nat (length (unusedKeys n U)) <= NumRekeys (e2eParams s)
  end.
Proof. apply sending_finds. Qed.

Lemma rekey_finds w r now :
  rel_inv w r ->
  getNewestRekeyableSession w r = Ok (bestForRekey w (sessions r)) /\
  match bestForRekey w (sessions r) with
  | Some l => exists s n U k ks st' sv',
      l ∈ sessions r /\ session_at w r l s n U /\ unusedKeys n U = k :: ks /\
      let w' := w_assign (w_setStore w st') l (ss_setKeys s sv') in
      getKeyForRekey w r now = Ok (w', (l, k)) /\
      rel_inv w' r /\ session_at w' r l (ss_setKeys s sv') n ({[k]} ∪ U)
  | None => (exists e, getKeyForRekey w r now = Err e) /\
      forall l s n U, l ∈ sessions r -> session_at w r l s n U -> unusedKeys n U = []
  end.
Proof.
  intros Hi. assert (getNewestRekeyableSession w r = Ok (bestForRekey w (sessions r))) as Hget.
  { unfold getNewestRekeyableSession.
    destruct (sessions r) as [|l ls] eqn:Hls; [done|]. cbn [length Nat.eqb].
    rewrite <- Hls. rewrite rekeyableLoop_spec by (apply rel_heap, Hi). done. }
  split; [done|]. unfold getKeyForRekey. rewrite Hget. cbn [mbind result_bind].
  destruct (bestForRekey w (sessions r)) as [l|] eqn:Hbest.
  - apply bestForRekey_Some in Hbest as (Hl & s & Hs & Hstatus).
    destruct (ri_at _ _ Hi l Hl) as (s0 & n & U & Hat).
    assert (s0 = s) as -> by (pose proof (sa_heap _ _ _ _ _ _ Hat); congruence).
    apply (status_keys s n U (sa_wf _ _ _ _ _ _ Hat) (sa_reserve _ _ _ _ _ _ Hat)) in Hstatus.
    destruct (unusedKeys n U) as [|k ks] eqn:Hk; [done|].
    destruct (pop_at w r l s n U k ks now Hi Hl Hat Hk) as (st' & sv' & Hpop & Hi' & Hat').
    exists s, n, U, k, ks, st', sv'. split_and!; try done.
    unfold w_deref. rewrite Hs. cbn [mbind result_bind]. by rewrite Hpop.
  - split; [by eexists|]. intros l s n U Hl Hat. destruct (decide (unusedKeys n U = [])) as [|Hne]; [done|].
    apply (status_keys s n U (sa_wf _ _ _ _ _ _ Hat) (sa_reserve _ _ _ _ _ _ Hat)) in Hne.
    by destruct (bestForRekey_None w (sessions r) l s Hbest Hl (sa_heap _ _ _ _ _ _ Hat)).
Qed.

(** [getKeyForRekey] finds a key, the reserve included, whenever a session
    has one: the least unused key of the newest such session that is confirmed,
    or else of the newest one.  When it fails, no session has any key left. *)
Theorem getKeyForRekey_finds w r now :
  rel_inv w r ->
  getNewestRekeyableSession w r = Ok (bestForRekey w (sessions r)) /\
  match bestForRekey w (sessions r) with
  | Some l => exists s n U k ks st' sv',
      l ∈ sessions r /\ session_at w r l s n U /\ unusedKeys n U = k :: ks /\
      let w' := w_assign (w_setStore w st') l (ss_setKeys s sv') in
      getKeyForRekey w r now = Ok (w', (l, k)) /\
      rel_inv w' r /\ session_at w' r l (ss_setKeys s sv') n ({[k]} ∪ U)
  | None => (exists e, getKeyForRekey w r now = Err e) /\
      forall l s n U, l ∈ sessions r -> session_at w r l s n U -> unusedKeys n U = []
  end.
Proof. apply rekey_finds. Qed.
End invariant.

(** ** Removal of old sessions *)

Definition confirmedAt {S ID Int Priv Pub} (w : world S ID Int Priv Pub) (l : nat) : bool :=
  match w_heap w !! l with Some s => Session_IsConfirmed s | None => false end.

(** What [clean] keeps of a list: the unconfirmed sessions and the first [k]
    confirmed ones. *)
Definition keepList {S ID Int Priv Pub} (w : world S ID Int Priv Pub) (k : nat) (ls : list nat) : list nat :=
  filter (fun l => confirmedAt w l = false \/ l ∈ take k (filter (fun l => confirmedAt w l = true) ls)) ls.

Section keep.
Context {S ID Int Priv Pub : Type}.
Implicit Types w : world S ID Int Priv Pub.

Lemma keepList_unconfirmed w k l ls :
  confirmedAt w l = false -> keepList w k (l :: ls) = l :: keepList w k ls.
Proof.
  intros Hc. unfold keepList. rewrite (filter_cons_False (fun l => confirmedAt w l = true)) by congruence.
  by rewrite filter_cons_True by (by left).
Qed.

Lemma keepList_kept w k l ls :
  NoDup (l :: ls) -> confirmedAt w l = true ->
  keepList w (Datatypes.S k) (l :: ls) = l :: keepList w k ls.
Proof.
  intros [Hl Hnd]%list.NoDup_cons Hc. unfold keepList. rewrite (filter_cons_True (fun l => confirmedAt w l = true)) by done.
  cbn [take]. rewrite filter_cons_True by (right; left). f_equal. apply filter_ext_in.
  intros l' Hl'. rewrite elem_of_cons. split; [|tauto]. intros [?|[->|?]]; [by left|done|by right].
Qed.

Lemma keepList_dropped w l ls :
  confirmedAt w l = true -> keepList w 0 (l :: ls) = keepList w 0 ls.
Proof.
  intros Hc. unfold keepList. rewrite !take_0. rewrite filter_cons_False; [done|].
  intros [Hc'|Hin]; [congruence|]. by apply not_elem_of_nil in Hin.
Qed.

Lemma keepList_subset w k ls l : l ∈ keepList w k ls -> l ∈ ls.
Proof. unfold keepList. rewrite list_elem_of_filter. tauto. Qed.

Lemma keepList_length w k ls : (length (keepList w k ls) <= length ls)%nat.
Proof. apply length_filter. Qed.

Lemma keepList_heap w w' k ls : w_heap w' = w_heap w -> keepList w' k ls = keepList w k ls.
Proof. intros Hh. unfold keepList, confirmedAt. by rewrite Hh. Qed.

Lemma keepList_single w k l : keepList w (Datatypes.S k) [l] = [l].
Proof.
  destruct (confirmedAt w l) eqn:Hc.
  - rewrite keepList_kept; [done|apply NoDup_singleton|done].
  - by rewrite keepList_unconfirmed.
Qed.
End keep.



(** The order of iteration over a map: every key once. *)
Class IterOk (iter : gmap SessionID nat -> list SessionID) : Prop := {
  iter_nodup m : NoDup (iter m);
  iter_elem m sid : sid ∈ iter m <-> is_Some (m !! sid);
}.

(** [gone st s]: the store has nothing of [s]. *)
Definition gone {ID Int Priv Pub} {S} `{EKV S} (st : S) (s : Session ID Int Priv Pub) : Prop :=
  (exists e, kv_Get (ss_kv s) st sessionKey currentSessionVersion = inl e /\ ekv_Exists S e = false) /\
  (exists e, kv_Get (ss_kv s) st (makeStateVectorKey "") currentStateVectorVersion = inl e /\
     ekv_Exists S e = false).

Section removal.
Context {ID Int Priv Pub : Type} `{NetIDLaws ID} `{SessionCryptoLaws Int Priv Pub}.
Context {S : Type} `{EKVLaws S} `{!EKVReliable S} `{JsonCodec SessionDisk} `{JsonCodec (list SessionID)}.
Implicit Types (w : world S ID Int Priv Pub) (r : relationship ID) (s : Session ID Int Priv Pub).

Lemma gone_confined (st st' : S) s p :
  gone st s -> confined p st st' -> kv_handle (ss_kv s) -> prefix (ss_kv s) ≠ p -> gone st' s.
Proof.
  intros [(e1 & H1' & He1) (e2 & H2' & He2)] Hc Hh Hp.
  split; [exists e1|exists e2]; (split; [|done]); (etrans; [|eassumption]); by apply Hc.
Qed.

(** The IDs of the sessions, in the order of the list. *)
Definition rel_ids w (ls : list nat) : list SessionID := omap (fun l => sID <$> w_heap w !! l) ls.

Lemma rel_ids_length w ls :
  Forall (fun l => is_Some (w_heap w !! l)) ls -> length (rel_ids w ls) = length ls.
Proof.
  induction 1 as [|l ls [s Hs] _ IH]; [done|]. unfold rel_ids in *. cbn [omap list_omap].
  rewrite Hs. simpl. by rewrite IH.
Qed.

Lemma elem_of_rel_ids w ls sid :
  sid ∈ rel_ids w ls <-> exists l s, l ∈ ls /\ w_heap w !! l = Some s /\ sID s = sid.
Proof.
  unfold rel_ids. rewrite list_elem_of_omap. split.
  - intros (l & Hl & Hs). destruct (w_heap w !! l) as [s|] eqn:E; simplify_eq/=. eauto.
  - intros (l & s & Hl & Hs & <-). exists l. by rewrite Hs.
Qed.

Lemma rel_ids_nodup w r : rel_core w r -> NoDup (rel_ids w (sessions r)).
Proof.
  intros Hi. pose proof (ri_nodup _ _ Hi) as Hnd.
  assert (forall ls, ls ⊆ sessions r -> NoDup ls -> NoDup (rel_ids w ls)) as Hgen; [|by apply Hgen].
  intros ls. induction ls as [|l ls IH]; intros Hsub Hls; [constructor|].
  apply list.NoDup_cons in Hls as [Hl Hls]. unfold rel_ids in *. cbn [omap list_omap].
  destruct (w_heap w !! l) as [s|] eqn:Hs; simpl; [|apply IH; [set_solver|done]].
  apply list.NoDup_cons. split; [|apply IH; [set_solver|done]].
  intros (l' & s' & Hl' & Hs' & Hid)%elem_of_rel_ids. apply Hl.
  assert (l = l') as ->; [|done]. apply (rel_ids_unique w r l l' s s' Hi); [set_solver|set_solver|done..].
Qed.

(** A change under the relationship's own prefix that keeps the fingerprint. *)
Lemma core_frame w r st' :
  rel_core w r -> confined (prefix (r_kv r)) (w_store w) st' ->
  kv_Get (r_kv r) st' relationshipFingerprintKey currentRelationshipVersion
    = kv_Get (r_kv r) (w_store w) relationshipFingerprintKey currentRelationshipVersion ->
  rel_core (w_setStore w st') r.
Proof.
  intros Hi Hc Hfp. split; try apply Hi.
  - intros l Hl. destruct (ri_at _ _ Hi l Hl) as (s & n & U & []). exists s, n, U. split; try done.
    destruct sa_stored0 as [m Hm]. exists m.
    apply (stored_confined _ _ _ _ _ Hm Hc); [by apply (session_handle r); [apply (ri_handle _ _ Hi)|]|].
    by apply (kv_Prefix_ne _ _ _ sa_prefix0).
  - destruct (ri_fp _ _ Hi) as [now Hg]. exists now. simpl. by rewrite Hfp.
Qed.

(** Deleting one session of the list. *)
Lemma core_remove w r pre l post byID s :
  rel_core w (r_setSessions r (pre ++ l :: post) byID) -> w_heap w !! l = Some s ->
  exists st' keys, Session_getUnusedKeys s = Ok keys /\
    Session_Delete (w_store w) (w_handler w) s = Ok (st', handler_DeleteKeys (w_handler w) s keys) /\
    confined (prefix (ss_kv s)) (w_store w) st' /\ gone st' s /\
    kv_Prefix (r_kv r) (MakeSessionPrefix (sID s)) = Ok (ss_kv s) /\
    rel_core (mkWorld st' (handler_DeleteKeys (w_handler w) s keys) (w_heap w))
      (r_setSessions r (pre ++ post) (delete (sID s) byID)).
Proof.
  intros Hi Hs. set (r0 := r_setSessions r _ byID) in *.
  assert (l ∈ sessions r0) as Hl by (simpl; set_solver).
  destruct (ri_at _ _ Hi l Hl) as (s0 & n & U & Hat).
  assert (s0 = s) as -> by (pose proof (sa_heap _ _ _ _ _ _ Hat); congruence).
  pose proof (sa_prefix _ _ _ _ _ _ Hat) as Hpre. pose proof (ri_handle _ _ Hi) as Hh.
  destruct (Delete_spec (w_store w) (w_handler w) s n U (sa_wf _ _ _ _ _ _ Hat)
    (session_handle r s Hh Hpre)) as (st' & Hdel & Hc & Hg1 & Hg2).
  exists st', (unusedKeys n U). split; [apply unused_keys; apply (sa_wf _ _ _ _ _ _ Hat)|].
  split; [exact Hdel|]. split; [done|]. split; [by split|]. split; [done|].
  pose proof (ri_nodup _ _ Hi) as Hnd. simpl in Hnd.
  rewrite <- Permutation_middle in Hnd. apply list.NoDup_cons in Hnd as [Hout Hnd].
  assert (forall l', l' ∈ pre ++ post <-> l' ∈ sessions r0 /\ l' ≠ l) as Hin.
  { intros l'. simpl. rewrite !elem_of_app, elem_of_cons. rewrite elem_of_app in Hout.
    split; [|tauto]. intros Hl'. split; [tauto|]. by intros ->. }
  pose proof (kv_Prefix_ne _ _ _ Hpre) as Hne.
  split; [exact Hh|exact Hnd| | |].
  - intros l' [Hl' Hneq]%Hin. destruct (ri_at _ _ Hi l' Hl') as (s1 & n1 & U1 & []).
    exists s1, n1, U1. split; try done. destruct sa_stored0 as [m Hm]. exists m.
    apply (stored_confined _ _ _ _ _ Hm Hc); [by apply (session_handle r)|].
    apply (sessions_apart (r_kv r)); [done..|]. intros Heq. apply Hneq.
    by apply (rel_ids_unique w r0 _ _ s1 s Hi).
  - intros sid l'. simpl. rewrite lookup_delete_Some, Hin.
    pose proof (ri_byID _ _ Hi sid l') as Hby. simpl in Hby |- *. rewrite Hby. split.
    + intros [Hsid [Hl' (s1 & Hs1 & Hid)]]. split; [|by eauto]. split; [done|]. intros ->. rewrite Hs in Hs1. by injection Hs1 as <-.
    + intros [[Hl' Hneq] (s1 & Hs1 & Hid)]. split; [|by eauto]. intros <-. apply Hneq.
      by apply (rel_ids_unique w r0 _ _ s1 s Hi).
  - destruct (ri_fp _ _ Hi) as [now Hfp]. exists now. etrans; [|exact Hfp].
    apply Hc; [exact Hh|done|done|]. by apply not_eq_sym.
Qed.

Lemma elem_of_DeleteKeys s (keys : list Z) (h : handler) (fp : list byte) :
  fp ∈ handler_DeleteKeys h s keys <->
  fp ∈ h /\ ~ (exists k, k ∈ keys /\ fp = cypher_Fingerprint s k).
Proof.
  unfold handler_DeleteKeys. revert h. induction keys as [|k keys IH]; intros h; cbn [foldl].
  - split; [|tauto]. intros Hfp. split; [done|]. intros (k & Hk & _). by apply not_elem_of_nil in Hk.
  - rewrite IH, elem_of_difference, elem_of_singleton. split.
    + intros [[Hfp Hne] Hno]. split; [done|]. intros (k' & [->|Hk']%elem_of_cons & Heq); [done|eauto].
    + intros [Hfp Hno]. split; [split; [done|]|].
      * intros Heq. apply Hno. exists k. split; [left|done].
      * intros (k' & Hk' & Heq). apply Hno. exists k'. split; [by right|done].
Qed.

(** The fingerprints of the unused keys of the dropped sessions. *)
Definition withdrawn w (ls keep : list nat) (fp : list byte) : Prop :=
  exists l s keys k, l ∈ ls /\ l ∉ keep /\ w_heap w !! l = Some s /\
    Session_getUnusedKeys s = Ok keys /\ k ∈ keys /\ fp = cypher_Fingerprint s k.

(** What the loop of [clean] does to the world when it keeps [keep] of [ls]. *)
Record loop_effect w w' (ls keep : list nat) : Prop := {
  le_heap : w_heap w' = w_heap w;
  le_gone l s : l ∈ ls -> l ∉ keep -> w_heap w !! l = Some s -> gone (w_store w') s;
  le_handler fp : fp ∈ w_handler w' <-> fp ∈ w_handler w /\ ~ withdrawn w ls keep fp;
  le_frame v key n : kv_handle v -> strContains PrefixSeparator key = false -> 0 <= n < 2 ^ 63 ->
    (forall l s, l ∈ ls -> l ∉ keep -> w_heap w !! l = Some s -> prefix v ≠ prefix (ss_kv s)) ->
    kv_Get v (w_store w') key n = kv_Get v (w_store w) key n;
  le_none : keep = ls -> w' = w;
}.

Lemma effect_refl w ls : loop_effect w w ls ls.
Proof.
  split; try done. intros fp. split; [|tauto]. intros Hfp. split; [done|].
  by intros (l & s & keys & k & Hl & Hno & _).
Qed.

(** Keeping a session. *)
Lemma effect_keep w w' l ls keep :
  NoDup (l :: ls) -> loop_effect w w' ls keep -> loop_effect w w' (l :: ls) (l :: keep).
Proof.
  intros [Hl _]%list.NoDup_cons [Hh Hg Hf Hfr Hn].
  assert (forall l', l' ∈ l :: ls /\ l' ∉ l :: keep <-> l' ∈ ls /\ l' ∉ keep) as Hiff.
  { intros l'. rewrite !elem_of_cons. split; [intros [[?|?] Hno]; [by destruct Hno; left|tauto]|].
    intros [Hl' Hno]. split; [by right|]. intros [->|?]; done. }
  split; [done| | | |].
  - intros l' s H1' H2' Hs. destruct (proj1 (Hiff l') (conj H1' H2')) as [H3' H4']. eauto.
  - intros fp. rewrite Hf. unfold withdrawn. split; intros [Hfp Hno]; (split; [done|]);
      intros (l' & s & keys & k & H1' & H2' & Hrest); apply Hno; exists l', s, keys, k.
    + destruct (proj1 (Hiff l') (conj H1' H2')) as [H3' H4']. done.
    + destruct (proj2 (Hiff l') (conj H1' H2')) as [H3' H4']. done.
  - intros v key n Hv Hk Hb Hne. apply Hfr; [done..|]. intros l' s H1' H2' Hs.
    destruct (proj2 (Hiff l') (conj H1' H2')) as [H3' H4']. eauto.
  - intros [= ->]. auto.
Qed.

(** Dropping a session, and then others. *)
Lemma effect_drop w st1 keys w' r l s ls keep :
  NoDup (l :: ls) -> (forall l', l' ∈ keep -> l' ∈ ls) -> kv_handle (r_kv r) ->
  (forall l' s', l' ∈ ls -> w_heap w !! l' = Some s' ->
     kv_Prefix (r_kv r) (MakeSessionPrefix (sID s')) = Ok (ss_kv s') /\ sID s' ≠ sID s) ->
  kv_Prefix (r_kv r) (MakeSessionPrefix (sID s)) = Ok (ss_kv s) ->
  w_heap w !! l = Some s -> Session_getUnusedKeys s = Ok keys ->
  confined (prefix (ss_kv s)) (w_store w) st1 -> gone st1 s ->
  loop_effect (mkWorld st1 (handler_DeleteKeys (w_handler w) s keys) (w_heap w)) w' ls keep ->
  loop_effect w w' (l :: ls) keep.
Proof.
  intros [Hl _]%list.NoDup_cons Hsub Hh Hothers Hpre Hs Hkeys Hc Hg1 [Hheap Hg Hf Hfr Hn]. simpl in *.
  assert (l ∉ keep) as Hlk by eauto.
  split; [done| | | |].
  - intros l' s' [->|Hl']%elem_of_cons Hno Hs'; [|by eapply Hg].
    assert (s' = s) as -> by congruence.
    assert (forall key, strContains PrefixSeparator key = false -> 
      kv_Get (ss_kv s) (w_store w') key 0 = kv_Get (ss_kv s) st1 key 0) as Hsame.
    { intros key Hk. apply Hfr; [by apply (session_handle r)|done|done|].
      intros l' s2 Hl' _ Hs2. destruct (Hothers l' s2 Hl' Hs2) as [Hpre2 Hne2].
      apply (sessions_apart (r_kv r)); [done..|]. by apply not_eq_sym. }
    destruct Hg1 as [(e1 & Hg1 & He1) (e2 & Hg2 & He2)].
    split; [exists e1|exists e2]; (split; [|done]); (etrans; [apply Hsame; done|done]).
  - intros fp. rewrite Hf, elem_of_DeleteKeys. unfold withdrawn. simpl. split.
    + intros [[Hfp Hno1] Hno2]. split; [done|].
      intros (l' & s' & ks & k & [->|Hl']%elem_of_cons & Hnk & Hs' & Hks & Hk & Heq).
      * apply Hno1. exists k. assert (s' = s) as -> by congruence.
        by assert (ks = keys) as -> by congruence.
      * apply Hno2. by exists l', s', ks, k.
    + intros [Hfp Hno]. split; [split; [done|]|].
      * intros (k & Hk & Heq). apply Hno. exists l, s, keys, k. split; [left|done].
      * intros (l' & s' & ks & k & Hl' & Hrest). apply Hno. exists l', s', ks, k. split; [by right|done].
  - intros v key n Hv Hk Hb Hne. rewrite Hfr; [|done..|].
    + apply Hc; [done..|]. apply (Hne l); [left|done|done].
    + intros l' s' Hl' Hno Hs'. apply (Hne l'); [by right|done|done].
  - intros ->. exfalso. apply Hl, Hsub. left.
Qed.

Lemma nodup_tail (l : nat) kept ls : NoDup (reverse kept ++ l :: ls) -> NoDup (l :: ls).
Proof. intros (_ & _ & Hnd)%list.NoDup_app. done. Qed.

Lemma cleanLoop_spec r ls : forall w byID c kept edits,
  rel_core w (r_setSessions r (reverse kept ++ ls) byID) -> 0 <= c ->
  let keep := keepList w (Z.to_nat (3 - c)) ls in
  exists w' byID',
    cleanLoop w byID c kept edits ls
      = Ok (w', byID', reverse kept ++ keep, edits || negb (bool_decide (keep = ls))) /\
    rel_core w' (r_setSessions r (reverse kept ++ keep) byID') /\
    loop_effect w w' ls keep /\ (keep = ls -> byID' = byID).
Proof.
  induction ls as [|l ls IH]; intros w byID c kept edits Hi Hc0.
  - exists w, byID. cbn [cleanLoop]. unfold keepList. cbn [filter list_filter].
    rewrite app_nil_r in Hi |- *. rewrite bool_decide_true by done. rewrite orb_false_r.
    split_and!; [done|done|apply effect_refl|done].
  - pose proof (nodup_tail _ _ _ (ri_nodup _ _ Hi)) as Hnd.
    assert (l ∈ reverse kept ++ l :: ls) as Hin by (apply elem_of_app; right; left).
    destruct (ri_at _ _ Hi l Hin) as (s & n & U & Hat). pose proof (sa_heap _ _ _ _ _ _ Hat) as Hs.
    assert (confirmedAt w l = Session_IsConfirmed s) as Hconf by (unfold confirmedAt; by rewrite Hs).
    assert (forall k, rel_core w (r_setSessions r (reverse (l :: kept) ++ ls) byID) /\
      reverse (l :: kept) ++ keepList w k ls = reverse kept ++ l :: keepList w k ls) as Hrev.
    { intros k. rewrite !reverse_cons, <- !app_assoc. done. }
    assert (forall c' k, 0 <= c' -> keepList w (Z.to_nat (3 - c')) ls = keepList w k ls ->
      exists w' byID', cleanLoop w byID c' (l :: kept) edits ls
        = Ok (w', byID', reverse kept ++ l :: keepList w k ls,
              edits || negb (bool_decide (l :: keepList w k ls = l :: ls))) /\
      rel_core w' (r_setSessions r (reverse kept ++ l :: keepList w k ls) byID') /\
      loop_effect w w' (l :: ls) (l :: keepList w k ls) /\
      (l :: keepList w k ls = l :: ls -> byID' = byID)) as Hkeep.
    { intros c' k Hc' Hk. destruct (Hrev k) as [Hi' Heq].
      destruct (IH w byID c' (l :: kept) edits Hi' Hc') as (w' & byID' & Hloop & Hi2 & Heff & Hby).
      rewrite Hk in Hloop, Hi2, Heff, Hby. rewrite Heq in Hloop, Hi2. exists w', byID'. rewrite Hloop.
      split_and!; [|done|by apply effect_keep|intros [= Hx]; auto].
      repeat f_equal. apply bool_decide_ext. split; congruence. }
    cbn [cleanLoop]. unfold w_deref. rewrite Hs. cbn [mbind result_bind].
    destruct (Session_IsConfirmed s).
    + unfold maxUnconfirmed. destruct (Z.ltb_spec 3 (c + 1)) as [Hdrop|Hstay].
      * replace (Z.to_nat (3 - c)) with 0%nat by lia. rewrite keepList_dropped by done.
        destruct (core_remove w r _ _ _ _ s Hi Hs) as (st1 & keys & Hkeys & -> & Hconf1 & Hgone & Hpre & Hi1).
        cbn [mbind result_bind].
        destruct (IH _ (delete (sID s) byID) (c + 1) kept true Hi1 ltac:(lia)) as (w' & byID' & Hloop & Hi2 & Heff & _).
        replace (Z.to_nat (3 - (c + 1))) with 0%nat in Hloop, Hi2, Heff by lia.
        rewrite (keepList_heap w) in Hloop, Hi2, Heff by done.
        assert (keepList w 0 ls ≠ l :: ls) as Hneq.
        { intros Heq. pose proof (keepList_length w 0 ls) as Hlen. rewrite Heq in Hlen. simpl in Hlen. lia. }
        exists w', byID'. rewrite Hloop. rewrite (bool_decide_false (keepList w 0 ls = l :: ls)) by done.
        rewrite orb_true_r. split_and!; [done|done| |done].
        apply (effect_drop w st1 keys w' r l s ls); try done.
        { intros l' Hl'. by apply keepList_subset in Hl'. }
        { apply (ri_handle _ _ Hi). }
        intros l' s' Hl' Hs'. destruct (ri_at _ _ Hi l') as (s1 & n1 & U1 & Hat1);
          [apply elem_of_app; right; by right|].
        assert (s1 = s') as -> by (pose proof (sa_heap _ _ _ _ _ _ Hat1); congruence).
        split; [apply Hat1|]. intros Hid. apply list.NoDup_cons in Hnd as [Hnd _]. apply Hnd.
        rewrite <- (rel_ids_unique _ _ l' l s' s Hi); try done. apply elem_of_app; right; by right.
      * replace (Z.to_nat (3 - c)) with (Datatypes.S (Z.to_nat (3 - (c + 1)))) by lia.
        rewrite keepList_kept by done. apply Hkeep; [lia|done].
    + rewrite keepList_unconfirmed by done. by apply Hkeep.
Qed.

Lemma setSessions_id r : r_setSessions r (sessions r) (sessionByID r) = r.
Proof. by destruct r. Qed.

Context (iter : gmap SessionID nat -> list SessionID) `{!IterOk iter}.

Lemma iter_permutation w r : rel_core w r -> iter (sessionByID r) ≡ₚ rel_ids w (sessions r).
Proof.
  intros Hi. apply NoDup_Permutation; [apply iter_nodup|by apply rel_ids_nodup|].
  intros sid. rewrite iter_elem, elem_of_rel_ids. split.
  - intros [l Hl]. apply (ri_byID _ _ Hi) in Hl as [? (s & ? & ?)]. eauto.
  - intros (l & s & Hl & Hs & Hid). exists l. apply (ri_byID _ _ Hi). eauto.
Qed.

Lemma marshal_core w r : rel_core w r ->
  relationship_marshal iter r = Ok (json_Marshal (iter (sessionByID r))).
Proof.
  intros Hi. unfold relationship_marshal.
  pose proof (iter_permutation w r Hi) as Hp. apply Permutation_length in Hp.
  rewrite rel_ids_length in Hp by (by apply rel_heap). rewrite Hp.
  rewrite Nat.leb_refl, Nat.sub_diag. by rewrite app_nil_r.
Qed.

Lemma save_core w r now :
  rel_core w r ->
  exists st', relationship_save iter (w_store w) r now = Ok (st', None) /\
    rel_inv (w_setStore w st') r /\ confined (prefix (r_kv r)) (w_store w) st'.
Proof.
  intros Hi. unfold relationship_save. rewrite (marshal_core w r Hi). cbn [mbind result_bind].
  destruct (kv_Set _ _ _ _) as [st' e] eqn:Hset.
  assert (e = None) as -> by (apply (f_equal snd) in Hset; simpl in Hset; rewrite <- Hset; apply ekv_set_ok).
  assert (confined (prefix (r_kv r)) (w_store w) st') as Hc
    by (apply (kv_Set_confined _ _ _ _ _ _ Hset); by try apply (ri_handle _ _ Hi)).
  exists st'. split_and!; [done| |done]. split.
  - apply core_frame; [done|done|]. by apply (kv_get_set_key _ _ _ _ relationshipFingerprintKey _ _ Hset).
  - exists now, (iter (sessionByID r)). split; [exact (kv_get_set_eq _ _ _ _ _ Hset)|].
    split; [apply iter_nodup|intros sid; apply iter_elem].
Qed.

Lemma clean_spec w r now :
  rel_inv w r ->
  let keep := keepList w 3 (sessions r) in
  exists w' byID', relationship_clean iter w r now = Ok (w', r_setSessions r keep byID') /\
    rel_inv w' (r_setSessions r keep byID') /\ w_heap w' = w_heap w /\
    (forall l s, l ∈ sessions r -> l ∉ keep -> w_heap w !! l = Some s -> gone (w_store w') s) /\
    (forall fp, fp ∈ w_handler w' <-> fp ∈ w_handler w /\ ~ withdrawn w (sessions r) keep fp).
Proof.
  intros Hi keep. unfold relationship_clean.
  destruct (cleanLoop_spec r (sessions r) w (sessionByID r) 0 [] false) as (w1 & byID' & -> & Hc & Heff & Hby).
  { rewrite setSessions_id. apply Hi. }
  { done. }
  change (Z.to_nat (3 - 0)) with 3%nat in *. fold keep in Hc, Heff, Hby |- *.
  cbn [mbind result_bind orb reverse rev_append app] in Hc |- *.
  destruct Heff as [Hheap Hgone Hfp Hfr Hnone]. case_bool_decide as Heq; cbn [negb].
  - rewrite (Hnone Heq), (Hby Heq), Heq, setSessions_id. rewrite (Hnone Heq), Heq in Hfp.
    exists w, (sessionByID r). rewrite setSessions_id. split_and!; [done|done|done|by intros|exact Hfp].
  - destruct (save_core w1 _ now Hc) as (st' & -> & Hinv & Hconf). cbn [mbind result_bind].
    exists (w_setStore w1 st'), byID'. split_and!; [done|done|done| |exact Hfp].
    intros l s Hl Hno Hs. destruct (ri_at _ _ Hi l Hl) as (s0 & n & U & Hat).
    assert (s0 = s) as -> by (pose proof (sa_heap _ _ _ _ _ _ Hat); congruence).
    pose proof (sa_prefix _ _ _ _ _ _ Hat) as Hpre.
    apply (gone_confined _ _ _ _ (Hgone l s Hl Hno Hs) Hconf); [by apply (session_handle r); [apply (ri_handle _ _ Hi)|]|].
    by apply (kv_Prefix_ne _ _ _ Hpre).
Qed.

(** [clean] keeps every unconfirmed session and the newest three confirmed
    ones, in their order.  The others leave the list, the map and the store, and
    the fingerprints of their unused keys are withdrawn; the remaining sessions
    stay stored, and the stored list names exactly them. *)
Theorem relationship_clean_keeps w r now :
  rel_inv w r ->
  let keep := keepList w 3 (sessions r) in
  exists w' byID', relationship_clean iter w r now = Ok (w', r_setSessions r keep byID') /\
    rel_inv w' (r_setSessions r keep byID') /\ w_heap w' = w_heap w /\
    (forall l s, l ∈ sessions r -> l ∉ keep -> w_heap w !! l = Some s -> gone (w_store w') s) /\
    (forall fp, fp ∈ w_handler w' <-> fp ∈ w_handler w /\ ~ withdrawn w (sessions r) keep fp).
Proof. apply clean_spec. Qed.

(** Changing the status of a session of the relationship. *)
Lemma setStatus_at w r l s n U status now :
  rel_inv w r -> l ∈ sessions r -> session_at w r l s n U -> 0 <= status <= 5 ->
  (negotiationStatus s, status) ∈ legal_moves ->
  exists st', Session_SetNegotiationStatus (w_store w) s status now = Ok (st', ss_setStatus s status) /\
    let w' := w_assign (w_setStore w st') l (ss_setStatus s status) in
    rel_inv w' r /\ session_at w' r l (ss_setStatus s status) n U.
Proof.
  intros Hi Hl Hat Hb Hlegal. pose proof Hat as [Hs Hwf [m Hst] Hpre Hfp Ht Hid Hres].
  pose proof (TrySet_spec _ _ _ _ _ status now Hwf Hst Hb) as Hset.
  rewrite bool_decide_true in Hset by done. destruct Hset as (st' & Hset & Hst').
  exists st'. unfold Session_SetNegotiationStatus. rewrite Hset. split; [done|].
  set (w' := w_assign _ _ _).
  assert (session_at w' r l (ss_setStatus s status) n U) as Hat'.
  { split; try done; [|by apply wf_set_status|by eexists]. simpl. apply list_lookup_insert_eq.
    by apply (lookup_lt_Some _ _ _ Hs). }
  split; [|done]. apply (rel_update w r l s _ n U); try done.
  apply (TrySet_confined _ _ _ _ _ _ Hset). apply (session_handle r); [apply (ri_handle _ _ Hi)|done].
Qed.

Lemma confirm_moves a :
  0 <= a <= 5 ->
  bool_decide (a ∈ [Sending; Sent; NewSessionTriggered]) = bool_decide ((a, Confirmed) ∈ legal_moves).
Proof.
  intros Ha. assert (a = 0 \/ a = 1 \/ a = 2 \/ a = 3 \/ a = 4 \/ a = 5) as Ha' by lia.
  destruct_or! Ha'; subst; vm_compute; reflexivity.
Qed.

(** [Confirm] refuses an unknown session with an error; it confirms a
    session that is sending, sent or has triggered a new one, and then removes
    old sessions; for a session in any other state, an already confirmed one
    included, it panics. *)
Theorem relationship_Confirm_spec w r sid now :
  rel_inv w r ->
  match sessionByID r !! sid with
  | None => exists e, relationship_Confirm iter w r sid now = Err e
  | Some l => exists s, l ∈ sessions r /\ w_heap w !! l = Some s /\ sID s = sid /\
      if bool_decide (negotiationStatus s ∈ [Sending; Sent; NewSessionTriggered]) then
        exists w' r', relationship_Confirm iter w r sid now = Ok (w', r') /\ rel_inv w' r' /\
          w_heap w' = <[l := ss_setStatus s Confirmed]> (w_heap w) /\
          sessions r' = keepList w' 3 (sessions r)
      else relationship_Confirm iter w r sid now = Panic
  end.
Proof.
  intros Hi. unfold relationship_Confirm.
  destruct (sessionByID r !! sid) as [l|] eqn:Hl; [|by eexists].
  apply (ri_byID _ _ Hi) in Hl as [Hl (s & Hs & Hid)].
  destruct (ri_at _ _ Hi l Hl) as (s0 & n & U & Hat).
  assert (s0 = s) as -> by (pose proof (sa_heap _ _ _ _ _ _ Hat); congruence).
  exists s. split; [done|]. split; [done|]. split; [done|]. unfold w_deref. rewrite Hs. cbn [mbind result_bind].
  pose proof (wf_status _ _ _ (sa_wf _ _ _ _ _ _ Hat)) as Hb.
  rewrite (confirm_moves _ Hb).
  case_bool_decide as Hcase.
  - destruct (setStatus_at w r l s n U Confirmed now Hi Hl Hat) as (st' & -> & Hi' & _);
      [unfold Confirmed; lia|done|]. cbn [mbind result_bind].
    destruct (clean_spec _ r now Hi') as (w' & byID' & -> & Hinv & Hheap & _).
    eexists _, _. split; [done|]. split; [done|]. split; [exact Hheap|].
    symmetry. by apply keepList_heap.
  - destruct (sa_stored _ _ _ _ _ _ Hat) as [m Hst].
    pose proof (TrySet_spec _ _ _ _ _ Confirmed now (sa_wf _ _ _ _ _ _ Hat) Hst ltac:(unfold Confirmed; lia)) as Hset.
    rewrite bool_decide_false in Hset by done.
    destruct Hset as (e & He). unfold Session_SetNegotiationStatus. by rewrite He.
Qed.
End removal.

(** ** Additions and restarts *)

(** [session_ok st v fp t s n U]: [s] is a stored session of the relationship
    with these data, wherever it is. *)
Record session_ok {ID Int Priv Pub} `{NetID ID} `{SessionCrypto Int Priv Pub}
    `{JsonCodec SessionDisk} {S} `{EKV S} (st : S) (v : kv) (fp : list byte) (t : Z)
    (s : Session ID Int Priv Pub) (n : Z) (U : gset Z) : Prop := {
  so_wf : session_wf s n U;
  so_stored : exists m, stored st s m;
  so_prefix : kv_Prefix v (MakeSessionPrefix (sID s)) = Ok (ss_kv s);
  so_fp : relationshipFingerprint s = fp;
  so_type : ss_t s = t;
  so_id : length (sID s) = 32%nat;
  so_reserve : is_u 16 (NumRekeys (e2eParams s));
}.

Section additions.
Context {ID Int Priv Pub : Type} `{NetIDLaws ID} `{SessionCryptoLaws Int Priv Pub}.
Context {S : Type} `{EKVLaws S} `{!EKVReliable S} `{JsonCodec SessionDisk} `{JsonCodec (list SessionID)}.
Implicit Types (w : world S ID Int Priv Pub) (r : relationship ID) (s : Session ID Int Priv Pub).

Lemma at_ok w r l s n U : session_at w r l s n U <-> w_heap w !! l = Some s /\ session_ok (w_store w) (r_kv r) (r_fingerprint r) (r_t r) s n U.
Proof. split; [by intros []|by intros [? []]]. Qed.

Lemma core_add w r s n U h :
  rel_core w r -> session_ok (w_store w) (r_kv r) (r_fingerprint r) (r_t r) s n U -> sessionByID r !! sID s = None ->
  rel_core (mkWorld (w_store w) h (w_heap w ++ [s]))
    (relationship_addSession r (length (w_heap w)) (sID s)).
Proof.
  intros Hi Hok Hfresh. set (l0 := length (w_heap w)).
  assert (forall l, l ∈ sessions r -> (l < l0)%nat) as Hlt.
  { intros l Hl. destruct (ri_at _ _ Hi l Hl) as (s1 & n1 & U1 & Hat).
    apply (lookup_lt_Some _ _ _ (sa_heap _ _ _ _ _ _ Hat)). }
  assert (forall l, l ∈ sessions r -> (w_heap w ++ [s]) !! l = w_heap w !! l) as Hold.
  { intros l Hl. apply lookup_app_l. by apply Hlt. }
  assert ((w_heap w ++ [s]) !! l0 = Some s) as Hnew by (by apply list_lookup_middle).
  split; simpl.
  - apply (ri_handle _ _ Hi).
  - apply list.NoDup_cons. split; [|apply (ri_nodup _ _ Hi)]. intros Hl. apply Hlt in Hl. lia.
  - intros l [->|Hl]%elem_of_cons.
    + exists s, n, U. apply at_ok. split; [done|]. by destruct Hok.
    + destruct (ri_at _ _ Hi l Hl) as (s1 & n1 & U1 & []). exists s1, n1, U1. split; try done.
      simpl. by rewrite Hold.
  - intros sid l. rewrite elem_of_cons. destruct (decide (sid = sID s)) as [->|Hne].
    + rewrite lookup_insert_eq. split.
      * intros [= <-]. split; [by left|]. eauto.
      * intros [[->|Hl] (s1 & Hs1 & Hid)]; [done|]. rewrite Hold in Hs1 by done.
        assert (sessionByID r !! sID s = Some l) by (apply (ri_byID _ _ Hi); eauto). congruence.
    + rewrite lookup_insert_ne by done. rewrite (ri_byID _ _ Hi). split.
      * intros [Hl (s1 & Hs1 & Hid)]. split; [by right|]. exists s1. by rewrite Hold.
      * intros [[->|Hl] (s1 & Hs1 & Hid)]; [rewrite Hnew in Hs1; by simplify_eq|].
        split; [done|]. rewrite Hold in Hs1 by done. eauto.
  - apply (ri_fp _ _ Hi).
Qed.

(** A change of the store under the prefix of a session that is not in the
    list. *)
Lemma core_frame_child w r sid v' st' :
  rel_core w r -> kv_Prefix (r_kv r) (MakeSessionPrefix sid) = Ok v' -> sessionByID r !! sid = None ->
  confined (prefix v') (w_store w) st' -> rel_core (w_setStore w st') r.
Proof.
  intros Hi Hpre Hfresh Hc. pose proof (ri_handle _ _ Hi) as Hh.
  pose proof (kv_Prefix_ne _ _ _ Hpre) as Hne. split; try apply Hi.
  - intros l Hl. destruct (ri_at _ _ Hi l Hl) as (s & n & U & []). exists s, n, U. split; try done.
    destruct sa_stored0 as [m Hm]. exists m.
    apply (stored_confined _ _ _ _ _ Hm Hc); [by apply (session_handle r)|].
    intros Heq. apply (kv_Prefix_inj _ _ _ _ _ sa_prefix0 Hpre), MakeSessionPrefix_inj in Heq.
    assert (sessionByID r !! sid = Some l) by (apply (ri_byID _ _ Hi); eauto). congruence.
  - destruct (ri_fp _ _ Hi) as [now Hg]. exists now. etrans; [|exact Hg].
    apply Hc; [done..|]. by apply not_eq_sym.
Qed.

(** A new session of a relationship, before it is added. *)
Lemma core_new_session w r gen priv partnerPub base partnerSIDH trigger status p now :
  rel_core w r -> r_t r = Send \/ r_t r = Receive ->
  params_ok p -> params_storable p -> 0 <= status <= 5 -> length trigger = 32%nat ->
  let '(myPriv, mySIDH, key, sid) := finalizeKeyNegotiation gen priv base partnerPub partnerSIDH in
  let n := numKeysOf p key + NumRekeys p in
  kv_HasPrefix (r_kv r) (MakeSessionPrefix sid) = false -> sessionByID r !! sid = None ->
  exists v' st' sv,
    let s := mkSession v' p sid (r_partnerID r) (r_t r) key myPriv partnerPub mySIDH partnerSIDH trigger
               (r_fingerprint r) status (rekeyThresholdOf p (numKeysOf p key)) sv in
    NewSession (w_store w) (w_handler w) gen (r_kv r) (r_t r) (r_partnerID r) priv partnerPub base
        partnerSIDH trigger (r_fingerprint r) status p now
      = Ok (st', if r_t r =? Receive then handler_AddKeys (w_handler w) s (unusedKeys n ∅)
                 else w_handler w, s) /\
    rel_core (w_setStore w st') r /\
    session_ok st' (r_kv r) (r_fingerprint r) (r_t r) s n ∅ /\ stored st' s status /\
    confined (prefix v') (w_store w) st'.
Proof.
  intros Hi Ht Hp Hj Hst Htrig.
  pose proof (new_session_spec (w_store w) (w_handler w) gen (r_kv r) (r_t r) (r_partnerID r) priv
    partnerPub base partnerSIDH trigger (r_fingerprint r) status p now Hp Hj Ht Hst Htrig) as Hnew.
  destruct (finalizeKeyNegotiation gen priv base partnerPub partnerSIDH) as [[[myPriv mySIDH] key] sid] eqn:Hfin.
  intros n Hpre Hfresh.
  destruct (Hnew Hpre) as (v' & st1 & sv & Hok & [Hwf Hstored Hpre' _] & Hst1 & Hconf).
  exists v', st1, sv. set (s := mkSession _ _ _ _ _ _ _ _ _ _ _ _ _ _ sv) in *. cbn [fst snd] in *.
  pose proof (Hconf (handle_prefix _ _ _ (ri_handle _ _ Hi) Hpre')) as Hc.
  split_and!; [exact Hok|by apply (core_frame_child w r sid v')| |done|done].
  split; try done; [|apply (po_rekeys _ Hp)]. unfold finalizeKeyNegotiation in Hfin.
  repeat case_match; simplify_eq; apply length_GetSessionID.
Qed.

(** *** Restarts *)

(** What the store holds for the ID [sid]. *)
Definition loadable (st : S) r (sid : SessionID) s (m : Z) : Prop :=
  sID s = sid /\ stored st s m /\ exists n U, session_ok st (r_kv r) (r_fingerprint r) (r_t r) s n U.

Lemma durable_range m : 0 <= m <= 5 -> 0 <= durable m <= 5.
Proof. intros Hm. unfold durable, Unconfirmed, Confirmed. repeat case_match; lia. Qed.

Lemma load_loadable (st : S) h r sid s m :
  loadable st r sid s m ->
  exists h', LoadSession st h (r_kv r) sid (r_fingerprint r) = Ok (h', ss_setStatus s (durable m)).
Proof.
  intros (<- & Hst & n & U & Hok). rewrite <- (so_fp _ _ _ _ _ _ _ Hok). eexists.
  exact (load_stored st h (r_kv r) s n U m (so_wf _ _ _ _ _ _ _ Hok) Hst (so_prefix _ _ _ _ _ _ _ Hok)).
Qed.

Lemma ok_set_status (st : S) r s n U m :
  session_ok st (r_kv r) (r_fingerprint r) (r_t r) s n U -> 0 <= m <= 5 -> session_ok st (r_kv r) (r_fingerprint r) (r_t r) (ss_setStatus s m) n U.
Proof.
  intros [Hwf [k Hk] Hrest] Hm. split; try done; [by apply wf_set_status|].
  exists k. by apply stored_set_status.
Qed.

Lemma rel_ids_ext w w' ls :
  (forall l, l ∈ ls -> w_heap w' !! l = w_heap w !! l) -> rel_ids w' ls = rel_ids w ls.
Proof.
  induction ls as [|l ls IH]; intros Hl; [done|]. unfold rel_ids in *. cbn [omap list_omap].
  rewrite Hl by left. rewrite IH by (intros; apply Hl; by right). done.
Qed.

(** The state after the sessions [ids] have been loaded. *)
Record loads w r (ids : list SessionID) w' (r' : relationship ID) : Prop := {
  lo_core : rel_core w' r';
  lo_store : w_store w' = w_store w;
  lo_heap : w_heap w `prefix_of` w_heap w';
  lo_kv : r_kv r' = r_kv r;
  lo_fp : r_fingerprint r' = r_fingerprint r;
  lo_t : r_t r' = r_t r;
  lo_old l : l ∈ sessions r -> l ∈ sessions r';
  lo_ids : rel_ids w' (sessions r') = reverse ids ++ rel_ids w (sessions r);
  lo_new sid s m : sid ∈ ids -> loadable (w_store w) r sid s m ->
    exists l, l ∈ sessions r' /\ w_heap w' !! l = Some (ss_setStatus s (durable m));
}.

Lemma loadSessions_spec ids : forall w r,
  rel_core w r -> NoDup ids ->
  (forall sid, sid ∈ ids -> sessionByID r !! sid = None /\ exists s m, loadable (w_store w) r sid s m) ->
  exists w' r', loadSessions w r ids = Ok (w', r') /\ loads w r ids w' r'.
Proof.
  induction ids as [|sid ids IH]; intros w r Hi Hnd Hids.
  - exists w, r. split; [done|]. split; try done. intros sid s m Hin. by apply not_elem_of_nil in Hin.
  - apply list.NoDup_cons in Hnd as [Hsid Hnd].
    destruct (Hids sid ltac:(left)) as (Hfresh & s & m & Hload).
    destruct (load_loadable (w_store w) (w_handler w) r sid s m Hload) as [h' Hok].
    cbn [loadSessions]. rewrite Hok. cbn [must mbind result_bind]. set (s1 := ss_setStatus s (durable m)) in *.
    pose proof Hload as (Hid & Hst & n & U & Hsok).
    pose proof (ok_set_status _ _ _ _ _ (durable m) Hsok (durable_range m (stored_status _ _ _ Hst))) as Hsok1.
    change (sID s1) with (sID s). rewrite Hid.
    assert (sessionByID r !! sID s1 = None) as Hfresh1 by (unfold s1; simpl; by rewrite Hid).
    pose proof (core_add w r s1 n U h' Hi Hsok1 Hfresh1) as Hcore.
    change (sID s1) with (sID s) in Hcore. rewrite Hid in Hcore.
    set (w1 := mkWorld _ _ (w_heap w ++ [s1])) in *. set (r1 := relationship_addSession _ _ _) in *.
    destruct (IH w1 r1 Hcore Hnd) as (w' & r' & -> & [Hc' Hst' Hh' Hkv Hfp Hto Hold Hids' Hnew]).
    { intros sid' Hin. destruct (Hids sid' ltac:(by right)) as [Hf Hl]. split; [|exact Hl].
      simpl. rewrite lookup_insert_ne; [done|]. by intros ->. }
    assert (w_heap w1 !! length (w_heap w) = Some s1) as Hat by (by apply list_lookup_middle).
    exists w', r'. split; [done|]. split; try done.
    + etrans; [|exact Hh']. simpl. by apply prefix_app_r.
    + intros l Hl. apply Hold. by right.
    + rewrite Hids', reverse_cons, <- app_assoc. f_equal. unfold rel_ids at 1. cbn [r1 relationship_addSession sessions r_setSessions omap list_omap].
      rewrite Hat. cbn [fmap option_fmap option_map]. simpl. rewrite Hid. f_equal. apply (rel_ids_ext w w1).
      intros l Hl. destruct (ri_at _ _ Hi l Hl) as (s2 & n2 & U2 & Hat2). simpl.
      apply lookup_app_l, (lookup_lt_Some _ _ _ (sa_heap _ _ _ _ _ _ Hat2)).
    + intros sid' s' m' [->|Hin]%elem_of_cons Hl'; [|by apply (Hnew sid')].
      destruct (load_loadable (w_store w) (w_handler w) r sid s' m' Hl') as [h2 Hok2].
      assert (ss_setStatus s' (durable m') = s1) as -> by congruence.
      exists (length (w_heap w)). split; [apply Hold; left|]. by apply (prefix_lookup_Some _ _ _ _ Hat Hh').
Qed.

Lemma byID_rel_ids w r sid : rel_core w r -> is_Some (sessionByID r !! sid) <-> sid ∈ rel_ids w (sessions r).
Proof.
  intros Hi. rewrite elem_of_rel_ids. split.
  - intros [l Hl]. apply (ri_byID _ _ Hi) in Hl as [? (s & ? & ?)]. eauto.
  - intros (l & s & Hl & Hs & Hid). exists l. apply (ri_byID _ _ Hi). eauto.
Qed.

(** The stored list is an ordering of the sessions' IDs. *)
Lemma stored_ids w r :
  rel_inv w r -> exists now ids,
    kv_Get (r_kv r) (w_store w) relationshipKey currentRelationshipVersion
      = inr (mkObject currentRelationshipVersion now (json_Marshal ids)) /\
    NoDup ids /\ ids ≡ₚ rel_ids w (sessions r).
Proof.
  intros Hi. destruct (ri_list _ _ Hi) as (now & ids & Hget & Hnd & Hids). exists now, ids.
  split_and!; [done|done|]. apply NoDup_Permutation; [done|apply rel_ids_nodup; apply Hi|].
  intros sid. rewrite Hids. apply byID_rel_ids, Hi.
Qed.

Lemma at_loadable w r l s :
  rel_core w r -> l ∈ sessions r -> w_heap w !! l = Some s ->
  length (sID s) = 32%nat /\ exists m, loadable (w_store w) r (sID s) s m.
Proof.
  intros Hi Hl Hs. destruct (ri_at _ _ Hi l Hl) as (s0 & n & U & Hat).
  assert (s0 = s) as -> by (pose proof (sa_heap _ _ _ _ _ _ Hat); congruence).
  apply at_ok in Hat as [_ Hok]. split; [apply Hok|].
  destruct (so_stored _ _ _ _ _ _ _ Hok) as [m Hm]. exists m. split; eauto.
Qed.

Lemma empty_core w t v fp now me partner :
  kv_handle v -> kv_Get v (w_store w) relationshipFingerprintKey currentRelationshipVersion
    = inr (mkObject currentRelationshipVersion now fp) ->
  rel_core w (mkRelationship t v [] ∅ fp me partner).
Proof.
  intros Hh Hfp. split; simpl; [done|constructor|..|by exists now].
  - intros l Hl. by apply not_elem_of_nil in Hl.
  - intros sid l. rewrite lookup_empty. split; [done|]. intros [Hl _]. by apply not_elem_of_nil in Hl.
Qed.

Lemma load_relationship `{!IDsJson} w r v p w1 me partner :
  rel_inv w r -> RelationshipType_Prefix (r_t r) = Ok p -> kv_Prefix v p = Ok (r_kv r) ->
  w_store w1 = w_store w ->
  exists w' r' now ids, LoadRelationship w1 v (r_t r) me partner = Ok (w', r') /\
    rel_inv w' r' /\ w_store w' = w_store w /\ w_heap w1 `prefix_of` w_heap w' /\
    r_fingerprint r' = r_fingerprint r /\ r_kv r' = r_kv r /\ r_t r' = r_t r /\
    kv_Get (r_kv r) (w_store w) relationshipKey currentRelationshipVersion
      = inr (mkObject currentRelationshipVersion now (json_Marshal ids)) /\
    rel_ids w' (sessions r') = reverse ids /\
    rel_ids w' (sessions r') ≡ₚ rel_ids w (sessions r) /\
    (forall l s, l ∈ sessions r -> w_heap w !! l = Some s -> exists l' m,
       stored (w_store w) s m /\ l' ∈ sessions r' /\ w_heap w' !! l' = Some (ss_setStatus s (durable m))).
Proof.
  intros Hi Hp Hv Hst. pose proof (ri_core _ _ Hi) as Hc.
  destruct (stored_ids w r Hi) as (now & ids & Hget & Hnd & Hperm).
  destruct (ri_fp _ _ Hi) as (now2 & Hfp).
  assert (forall sid, sid ∈ ids -> exists l s, l ∈ sessions r /\ w_heap w !! l = Some s /\ sID s = sid) as Hin.
  { intros sid Hsid. apply elem_of_rel_ids. by rewrite <- Hperm. }
  unfold LoadRelationship. rewrite Hp. cbn [mbind result_bind]. rewrite Hv. cbn [mbind result_bind].
  rewrite Hst, Hget. cbn [Data]. unfold relationship_unmarshal. cbn [r_kv r_t sessions sessionByID r_myID r_partnerID].
  rewrite json_roundtrip.
  2: { apply ids_json, list.Forall_forall. intros sid (l & s & Hl & Hs & <-)%Hin.
       apply (at_loadable w r l s Hc Hl Hs). }
  unfold loadRelationshipFingerprint. rewrite Hst, Hfp. cbn [mbind result_bind Data].
  destruct (loadSessions_spec ids w1 (mkRelationship (r_t r) (r_kv r) [] ∅ (r_fingerprint r) me partner))
    as (w' & r' & -> & [Hc' Hst' Hh' Hkv Hfp' Hto _ Hids' Hnew]).
  { apply (empty_core _ _ _ _ now2); [apply (ri_handle _ _ Hi)|by rewrite Hst]. }
  { done. }
  { intros sid (l & s & Hl & Hs & <-)%Hin. split; [done|]. rewrite Hst.
    destruct (at_loadable w r l s Hc Hl Hs) as [_ [m Hm]]. exists s, m. exact Hm. }
  simpl in Hids', Hkv, Hfp', Hto. rewrite app_nil_r in Hids'. rewrite Hst in Hst', Hnew.
  exists w', r', now, ids. split; [done|]. split_and!; try done.
  - split; [done|]. exists now, ids. rewrite Hkv, Hst'. split_and!; [done|done|].
    intros sid. by rewrite (byID_rel_ids w' r' sid Hc'), Hids', elem_of_reverse.
  - by rewrite Hids', reverse_Permutation.
  - intros l s Hl Hs. destruct (at_loadable w r l s Hc Hl Hs) as [_ [m Hm]].
    destruct (Hnew (sID s) s m) as (l' & Hl' & Hs'); [|exact Hm|].
    + rewrite Hperm. apply elem_of_rel_ids. eauto.
    + exists l', m. split; [apply Hm|done].
Qed.

(** a restart restores the relationship.  [LoadRelationship] succeeds and
    loads every session with the data it had, in the status that survives a
    restart; list and map agree again.  The order of the list is that of the
    stored IDs, reversed, and those are in the order in which a map was
    iterated. *)
Theorem LoadRelationship_restores `{!IDsJson} w r v p w1 me partner :
  rel_inv w r -> RelationshipType_Prefix (r_t r) = Ok p -> kv_Prefix v p = Ok (r_kv r) ->
  w_store w1 = w_store w ->
  exists w' r' now ids, LoadRelationship w1 v (r_t r) me partner = Ok (w', r') /\
    rel_inv w' r' /\ w_store w' = w_store w /\ w_heap w1 `prefix_of` w_heap w' /\
    r_fingerprint r' = r_fingerprint r /\ r_kv r' = r_kv r /\ r_t r' = r_t r /\
    kv_Get (r_kv r) (w_store w) relationshipKey currentRelationshipVersion
      = inr (mkObject currentRelationshipVersion now (json_Marshal ids)) /\
    rel_ids w' (sessions r') = reverse ids /\
    rel_ids w' (sessions r') ≡ₚ rel_ids w (sessions r) /\
    (forall l s, l ∈ sessions r -> w_heap w !! l = Some s -> exists l' m,
       stored (w_store w) s m /\ l' ∈ sessions r' /\ w_heap w' !! l' = Some (ss_setStatus s (durable m))).
Proof. apply load_relationship. Qed.
Context (iter : gmap SessionID nat -> list SessionID) `{!IterOk iter}.

Lemma add_session w r gen priv partnerPub base partnerSIDH trigger status p now :
  rel_inv w r -> r_t r = Send \/ r_t r = Receive ->
  params_ok p -> params_storable p -> 0 <= status <= 5 -> length trigger = 32%nat ->
  let '(myPriv, mySIDH, key, sid) := finalizeKeyNegotiation gen priv base partnerPub partnerSIDH in
  let n := numKeysOf p key + NumRekeys p in
  let l := length (w_heap w) in
  kv_HasPrefix (r_kv r) (MakeSessionPrefix sid) = false -> sessionByID r !! sid = None ->
  exists v' st' sv,
    let s := mkSession v' p sid (r_partnerID r) (r_t r) key myPriv partnerPub mySIDH partnerSIDH trigger
               (r_fingerprint r) status (rekeyThresholdOf p (numKeysOf p key)) sv in
    let h := if r_t r =? Receive then handler_AddKeys (w_handler w) s (unusedKeys n ∅) else w_handler w in
    let w' := mkWorld st' h (w_heap w ++ [s]) in
    let r' := relationship_addSession r l sid in
    relationship_AddSession iter w r gen priv partnerPub base partnerSIDH trigger status p now
      = Ok (w', r', l) /\
    rel_inv w' r' /\ session_at w' r' l s n ∅ /\
    (forall u key m, kv_handle u -> strContains PrefixSeparator key = false -> 0 <= m < 2 ^ 63 ->
       prefix u ≠ prefix (r_kv r) -> prefix u ≠ prefix v' ->
       kv_Get u st' key m = kv_Get u (w_store w) key m).
Proof.
  intros Hi Ht Hp Hj Hst Htrig.
  pose proof (core_new_session w r gen priv partnerPub base partnerSIDH trigger status p now
    (ri_core _ _ Hi) Ht Hp Hj Hst Htrig) as Hnew.
  destruct (finalizeKeyNegotiation gen priv base partnerPub partnerSIDH) as [[[myPriv mySIDH] key] sid].
  intros n l Hpre Hfresh. destruct (Hnew Hpre Hfresh) as (v' & st1 & sv & Hok & Hc1 & Hsok & Hst1 & Hcf).
  fold n in Hok, Hsok. set (s := mkSession _ _ _ _ _ _ _ _ _ _ _ _ _ _ sv) in *.
  set (h := if r_t r =? Receive then _ else _) in Hok.
  pose proof (core_add (w_setStore w st1) r s _ ∅ h Hc1 Hsok Hfresh) as Hcore.
  destruct (save_core iter _ _ now Hcore) as (st2 & Hsave & Hi2 & Hc2). cbn [w_store w_heap w_setStore] in Hsave, Hi2, Hc2.
  exists v', st2, sv. cbv zeta. split.
  { unfold relationship_AddSession. rewrite Hok. cbn [mbind result_bind]. rewrite Hsave. done. }
  split; [exact Hi2|]. split.
  - apply at_ok. split; [by apply list_lookup_middle|].
    destruct Hsok as [? ? Hpre']. split; try done. exists status. apply (stored_confined _ _ _ _ _ Hst1 Hc2).
    + apply (session_handle r); [apply (ri_handle _ _ Hi)|done].
    + by apply (kv_Prefix_ne _ _ _ Hpre').
  - intros u k m Hu Hk Hm Hne1 Hne2. by rewrite (Hc2 u k m), (Hcf u k m).
Qed.

(** [AddSession] puts a session with a new ID in front of the list: it is
    created from the given keys, entered in the map, and stored together with
    the list; the other sessions stay as they were. *)
Theorem relationship_AddSession_spec w r gen priv partnerPub base partnerSIDH trigger status p now :
  rel_inv w r -> r_t r = Send \/ r_t r = Receive ->
  params_ok p -> params_storable p -> 0 <= status <= 5 -> length trigger = 32%nat ->
  let '(myPriv, mySIDH, key, sid) := finalizeKeyNegotiation gen priv base partnerPub partnerSIDH in
  kv_HasPrefix (r_kv r) (MakeSessionPrefix sid) = false -> sessionByID r !! sid = None ->
  exists w' r' s, let l := length (w_heap w) in
    relationship_AddSession iter w r gen priv partnerPub base partnerSIDH trigger status p now
      = Ok (w', r', l) /\
    rel_inv w' r' /\ sessions r' = l :: sessions r /\ w_heap w' = w_heap w ++ [s] /\
    session_at w' r' l s (numKeysOf p key + NumRekeys p) ∅ /\
    sID s = sid /\ baseKey s = key /\ negotiationStatus s = status /\ partnerSource s = trigger.
Proof.
  intros Hi Ht Hp Hj Hst Htrig.
  pose proof (add_session w r gen priv partnerPub base partnerSIDH trigger status p now Hi Ht Hp Hj Hst Htrig) as Hadd.
  destruct (finalizeKeyNegotiation gen priv base partnerPub partnerSIDH) as [[[myPriv mySIDH] key] sid].
  intros Hpre Hfresh. destruct (Hadd Hpre Hfresh) as (v' & st' & sv & Hok & Hinv & Hat & _).
  eexists _, _, _. split; [exact Hok|]. split; [exact Hinv|]. split; [done|]. split; [done|].
  split; [exact Hat|done].
Qed.
End additions.

(** ** Negotiation and creation *)

Section lifecycle.
Context {ID Int Priv Pub : Type} `{NetIDLaws ID} `{SessionCryptoLaws Int Priv Pub} `{RelCrypto ID Int}.
Context {S : Type} `{EKVLaws S} `{!EKVReliable S} `{JsonCodec SessionDisk} `{JsonCodec (list SessionID)}.
Implicit Types (w : world S ID Int Priv Pub) (r : relationship ID) (s : Session ID Int Priv Pub).

Lemma trigger_at w r l s n U b :
  rel_inv w r -> l ∈ sessions r -> session_at w r l s n U -> length b = 4%nat ->
  exists s' t, Session_TriggerNegotiation s b = Ok (s', t) /\ rel_inv (w_assign w l s') r.
Proof.
  intros Hi Hl Hat Hb. destruct (Trigger_spec s b Hb) as (s' & t & Ht & Hs').
  exists s', t. split; [done|].
  assert (exists m, (s' = s \/ s' = ss_setStatus s m) /\ 0 <= m <= 5) as (m & Hm & Hr).
  { destruct Hs' as [->|[->| ->]]; [exists 0; split; [by left|lia]|..];
      eexists; (split; [by right|]); unfold NewSessionTriggered, Sending; lia. }
  assert (sID s' = sID s) as Hid by (by destruct Hm; subst).
  apply at_ok in Hat as [Hs Hok]. change (w_assign w l s') with (w_assign (w_setStore w (w_store w)) l s').
  apply (rel_update w r l s s' n U); [done..|apply confined_refl| |done].
  apply at_ok. split; [apply list_lookup_insert_eq, (lookup_lt_Some _ _ _ Hs)|].
  destruct Hm as [->| ->]; [done|by apply ok_set_status].
Qed.

(** The sessions that [TriggerNegotiation] of a session is true of. *)
Definition triggers w (draws : nat -> list byte) (l : nat) : bool :=
  match w_heap w !! l with
  | Some s => match Session_TriggerNegotiation s (draws l) with Ok (_, t) => t | _ => false end
  | None => false
  end.

Lemma triggerLoop_spec r draws ls : forall w,
  (forall l, length (draws l) = 4%nat) -> rel_inv w r -> NoDup ls -> (forall l, l ∈ ls -> l ∈ sessions r) ->
  exists w', triggerLoop w draws ls = Ok (w', filter (fun l => triggers w draws l = true) ls) /\
    rel_inv w' r /\ w_store w' = w_store w /\ w_handler w' = w_handler w.
Proof.
  induction ls as [|l ls IH]; intros w Hd Hi Hnd Hsub; [by exists w|].
  apply list.NoDup_cons in Hnd as [Hl Hnd].
  destruct (ri_at _ _ Hi l (Hsub l ltac:(left))) as (s & n & U & Hat).
  pose proof (sa_heap _ _ _ _ _ _ Hat) as Hs.
  destruct (trigger_at w r l s n U (draws l) Hi (Hsub l ltac:(left)) Hat (Hd l)) as (s' & t & Ht & Hi').
  cbn [triggerLoop]. unfold w_deref. rewrite Hs. cbn [mbind result_bind]. rewrite Ht. cbn [mbind result_bind].
  destruct (IH _ Hd Hi' Hnd) as (w' & -> & Hinv & Hst & Hh); [intros l' Hl'; apply Hsub; by right|].
  cbn [mbind result_bind]. exists w'. split_and!; [|done|done|done].
  assert (triggers w draws l = t) as Htl by (unfold triggers; by rewrite Hs, Ht).
  assert (filter (fun x => triggers (w_assign w l s') draws x = true) ls
          = filter (fun x => triggers w draws x = true) ls) as Heq.
  { apply filter_ext_in. intros l' Hl'. unfold triggers. simpl.
    rewrite list_lookup_insert_ne; [done|]. by intros ->. }
  rewrite Heq. destruct t.
  - by rewrite filter_cons_True by done.
  - by rewrite filter_cons_False by congruence.
Qed.

(** [TriggerNegotiation] of a relationship returns exactly the sessions
    that need a negotiation, newest first, and marks them; the store is not
    touched. *)
Theorem relationship_TriggerNegotiation_spec w r draws :
  rel_inv w r -> (forall l, length (draws l) = 4%nat) ->
  exists w', relationship_TriggerNegotiation w r draws
      = Ok (w', filter (fun l => triggers w draws l = true) (sessions r)) /\
    rel_inv w' r /\ w_store w' = w_store w /\ w_handler w' = w_handler w.
Proof. intros Hi Hd. apply triggerLoop_spec; [done|done|apply (ri_nodup _ _ Hi)|done]. Qed.

Lemma session_prefix_fresh v t p v' sid :
  RelationshipType_Prefix t = Ok p -> kv_Prefix v p = Ok v' ->
  kv_HasPrefix v (MakeSessionPrefix sid) = false -> kv_HasPrefix v' (MakeSessionPrefix sid) = false.
Proof.
  intros Ht Hp Hn. unfold kv_Prefix in Hp. repeat case_match; simplify_eq.
  unfold kv_HasPrefix in *. simpl. rewrite lookup_insert_ne; [done|].
  unfold RelationshipType_Prefix in Ht. intros ->. repeat case_match; simplify_eq.
Qed.

Context (iter : gmap SessionID nat -> list SessionID) `{!IterOk iter}.

(** Saving a session once more, adding it and saving the list. *)
Lemma resave w r s n st1 st2 now h :
  rel_core (w_setStore (w_setStore w st1) st2) r ->
  session_ok st2 (r_kv r) (r_fingerprint r) (r_t r) s n ∅ -> stored st2 s Confirmed ->
  sessionByID r !! sID s = None ->
  exists st3 st4, Session_Save st2 s now = (st3, None) /\ confined (prefix (ss_kv s)) st2 st3 /\
    let r' := relationship_addSession r (length (w_heap w)) (sID s) in
    let w' := mkWorld st4 h (w_heap w ++ [s]) in
    relationship_save iter st3 r' now = Ok (st4, None) /\ rel_inv w' r' /\
    session_at w' r' (length (w_heap w)) s n ∅ /\ confined (prefix (r_kv r)) st3 st4.
Proof.
  intros Hr Hsok Hst Hfresh. pose proof (so_prefix _ _ _ _ _ _ _ Hsok) as Hpre.
  pose proof (session_handle r s (ri_handle _ _ Hr) Hpre) as Hh.
  destruct (stored_new_status st2 s Confirmed n ∅ now (so_wf _ _ _ _ _ _ _ Hsok) Hst) as (st3 & Hsave & Hst3).
  pose proof (Save_confined _ _ _ _ _ Hsave Hh) as Hc3.
  pose proof (core_frame_child _ r (sID s) (ss_kv s) st3 Hr Hpre Hfresh Hc3) as Hr3.
  assert (session_ok st3 (r_kv r) (r_fingerprint r) (r_t r) s n ∅) as Hsok3
    by (destruct Hsok; split; eauto).
  pose proof (core_add (w_setStore w st3) r s n ∅ h Hr3 Hsok3 Hfresh) as Hcore.
  destruct (save_core iter _ _ now Hcore) as (st4 & Hsave4 & Hinv & Hc4).
  exists st3, st4. split; [done|]. split; [done|]. cbv zeta. split_and!; [done|exact Hinv| |done].
  apply at_ok. split; [by apply list_lookup_middle|]. destruct Hsok3. split; try done.
  exists (negotiationStatus s). by apply (stored_confined _ _ _ _ _ Hst3 Hc4), (kv_Prefix_ne _ _ _ Hpre).
Qed.

(** The keys a session was made from. *)
Definition made_from s (priv : Int * Priv) (partnerPub : Int) (partnerSIDH : Pub) : Prop :=
  (myPrivKey s, mySIDHPrivKey s) = priv /\ partnerPubKey s = partnerPub /\
  partnerSIDHPubKey s = partnerSIDH /\ length (sID s) = 32%nat.

(** A new relationship has one confirmed session, with the keys of the
    negotiation that made the partnership. *)
Lemma new_relationship_spec w gen v t me partner priv partnerPub partnerSIDH p now pre :
  kv_handle v -> RelationshipType_Prefix t = Ok pre -> kv_HasPrefix v pre = false ->
  params_ok p -> params_storable p ->
  let base := GenerateE2ESessionBaseKey (fst priv) partnerPub (snd priv) partnerSIDH in
  let sid := GetSessionIDFromBaseKey base in
  let n := numKeysOf p base + NumRekeys p in
  kv_HasPrefix v (MakeSessionPrefix sid) = false ->
  exists fp w' r s, let l := length (w_heap w) in
    makeRelationshipFingerprint t (fst priv) partnerPub me partner = Ok fp /\
    NewRelationship iter w gen v t me partner priv partnerPub partnerSIDH p now = Ok (w', r) /\
    rel_inv w' r /\ sessions r = [l] /\ w_heap w' = w_heap w ++ [s] /\
    session_at w' r l s n ∅ /\ sID s = sid /\ baseKey s = base /\ negotiationStatus s = Confirmed /\
    e2eParams s = p /\ r_fingerprint r = fp /\ r_t r = t /\ kv_Prefix v pre = Ok (r_kv r) /\
    made_from s priv partnerPub partnerSIDH /\
    w_handler w' = (if t =? Receive then handler_AddKeys (w_handler w) s (zseq 0 n) else w_handler w) /\
    (forall u key m, kv_handle u -> strContains PrefixSeparator key = false -> 0 <= m < 2 ^ 63 ->
       prefix u ≠ prefix (r_kv r) -> prefix u ≠ prefix (ss_kv s) ->
       kv_Get u (w_store w') key m = kv_Get u (w_store w) key m).
Proof.
  intros Hh Hpre Hfree Hp Hj base sid n Hsfree. destruct priv as [x a]. cbn [fst snd] in *.
  assert (t = Send \/ t = Receive) as Ht.
  { unfold RelationshipType_Prefix in Hpre. destruct (Z.eqb_spec t Send); [by left|].
    destruct (Z.eqb_spec t Receive); [by right|done]. }
  assert (exists v', kv_Prefix v pre = Ok v') as [v' Hv'].
  { unfold kv_Prefix. rewrite Hfree. unfold RelationshipType_Prefix in Hpre.
    repeat case_match; simplify_eq; simpl; eauto. }
  assert (exists fp, makeRelationshipFingerprint t x partnerPub me partner = Ok fp) as [fp Hfp].
  { unfold makeRelationshipFingerprint. destruct Ht as [->| ->]; simpl; eauto. }
  pose proof (handle_prefix _ _ _ Hh Hv') as Hh'.
  destruct (storeRelationshipFingerprint (w_store w) fp v' now) as [st1 e1] eqn:Hset.
  assert (e1 = None) as -> by (apply (f_equal snd) in Hset; simpl in Hset; rewrite <- Hset; apply ekv_set_ok).
  pose proof (kv_Set_confined _ _ _ _ _ _ Hset Hh' eq_refl ltac:(by vm_compute)) as Hc1.
  set (r0 := mkRelationship t v' [] ∅ fp me partner).
  pose proof (empty_core (w_setStore w st1) t v' fp now me partner Hh' (kv_get_set_eq _ _ _ _ _ Hset)) as Hr0.
  destruct (core_new_session (w_setStore w st1) r0 gen (Some (x, a)) partnerPub None partnerSIDH
    (replicate 32 x00) Confirmed p now Hr0 Ht Hp Hj ltac:(unfold Confirmed; lia) eq_refl
    (session_prefix_fresh v t pre v' sid Hpre Hv' Hsfree) eq_refl)
    as (v2 & st2 & sv & Hnew & Hr1 & Hsok & Hst2 & Hc2).
  fold base in Hnew, Hsok, Hst2. fold n in Hnew, Hsok. set (s := mkSession v2 _ _ _ _ _ _ _ _ _ _ _ _ _ sv) in *.
  cbn [w_store w_handler w_setStore r_kv r_t r_partnerID r_fingerprint r0] in Hnew, Hc2, Hsok.
  rewrite unusedKeys_none in Hnew.
  set (h' := if t =? Receive then _ else _) in Hnew.
  destruct (resave w r0 s n st1 st2 now h' Hr1 Hsok Hst2 eq_refl) as (st3 & st4 & Hsave & Hc3 & Hsave4 & Hinv & Hat & Hc4).
  eexists fp, _, _, s. split; [done|]. split.
  { unfold NewRelationship. rewrite Hpre. cbn [mbind result_bind fst]. rewrite Hv'. cbn [must mbind result_bind].
    rewrite Hfp. cbn [mbind result_bind]. rewrite Hset. change (Z.to_nat sessionIDLen) with 32%nat.
    rewrite Hnew. cbn [mbind result_bind]. rewrite Hsave. fold r0. rewrite Hsave4. done. }
  split_and!; try done.
  { split_and!; try done. apply Hsok. }
  intros u key m Hu Hk Hm Hne1 Hne2. cbn [w_store].
  rewrite (Hc4 u key m), (Hc3 u key m), (Hc2 u key m), (Hc1 u key m) by done. done.
Qed.
End lifecycle.

(** ** Witnesses *)

Module RelationshipExample.
Import SessionExample.

#[export] Instance ex_RelCrypto : RelCrypto Z Z := {|
  MakeRelationshipFingerprint x y a b := ex_bytes (x + y) ++ ex_bytes a ++ ex_bytes b;
  GenerateConnectionFingerprint x y := ex_bytes (le_decode x + le_decode y);
  int_GobEncode := ex_bytes;
  int_GobDecode b := Some (ex_unbytes b);
|}.

#[export] Instance ex_RelCryptoLaws : RelCryptoLaws Z Z.
Proof.
  split; cbn; intros.
  - by rewrite (Z.add_comm x y).
  - by rewrite Z.add_comm.
  - by rewrite ex_unbytes_bytes.
Qed.

#[export] Instance ex_ids_codec : JsonCodec (list SessionID) := countableCodec _.
#[export] Instance ex_IDsJson : IDsJson.
Proof. by intros ids _. Qed.

Definition ex_iter (m : gmap SessionID nat) : list SessionID := (map_to_list m).*1.

#[export] Instance ex_IterOk : IterOk ex_iter.
Proof.
  split; unfold ex_iter; [apply NoDup_fst_map_to_list|].
  intros m sid. rewrite list_elem_of_fmap. split.
  - intros ([k l] & -> & Hkl). apply elem_of_map_to_list in Hkl. by exists l.
  - intros [l Hl]. exists (sid, l). split; [done|]. by apply elem_of_map_to_list.
Qed.

Definition ex_world : world MemStore Z Z Z Z := mkWorld ∅ ∅ [].
End RelationshipExample.

Import SessionExample RelationshipExample.

(** A new relationship in an empty store. *)
Definition ex_made : result (world MemStore Z Z Z Z * relationship Z) :=
  NewRelationship ex_iter ex_world (fun _ => (0, 0)) NewKV Send 1 7 (3, 5) 8 6 ex_params 0.
Definition ex_w : world MemStore Z Z Z Z := match ex_made with Ok (w, _) => w | _ => ex_world end.
Definition ex_r : relationship Z :=
  match ex_made with Ok (_, r) => r | _ => mkRelationship 0 NewKV [] ∅ [] 0 0 end.

Definition ex_sid : SessionID := GetSessionIDFromBaseKey (GenerateE2ESessionBaseKey (3 : Z) (8 : Z) (5 : Z) (6 : Z)).

Lemma ex_relationship :
  rel_inv ex_w ex_r /\ sessions ex_r = [0%nat] /\ r_t ex_r = Send /\
  kv_Prefix NewKV "Send" = Ok (r_kv ex_r) /\
  exists s, w_heap ex_w = [s] /\ session_at ex_w ex_r 0 s 12 ∅ /\ negotiationStatus s = Confirmed /\
    e2eParams s = ex_params /\ sID s = ex_sid.
Proof.
  destruct (new_relationship_spec ex_iter ex_world (fun _ => (0, 0)) NewKV Send 1 7 (3, 5) 8 6 ex_params 0
    "Send" handle_new eq_refl eq_refl ex_params_ok (ex_storable _) eq_refl)
    as (fp & w & r & s & _ & Hnew & Hinv & Hs & Hheap & Hat & Hid & Hbase & Hneg & Hp & _ & Ht & Hkv & _).
  unfold ex_w, ex_r, ex_made. rewrite Hnew.
  split; [exact Hinv|]. split; [exact Hs|]. split; [exact Ht|]. split; [exact Hkv|].
  exists s. rewrite <- ex_n_12. split; [exact Hheap|]. split; [exact Hat|]. split; [exact Hneg|].
  split; [exact Hp|]. exact Hid.
Qed.

#[local] Opaque ex_w ex_r.

Lemma ex_rel_inv : rel_inv ex_w ex_r.
Proof. apply ex_relationship. Qed.

Lemma getKeyForSending_finds_witness :
  exists w' l k, getKeyForSending ex_w ex_r 4 = Ok (w', (l, k)) /\ rel_inv w' ex_r.
Proof.
  destruct (getKeyForSending_finds ex_w ex_r 4 ex_rel_inv) as [_ Hget].
  destruct ex_relationship as (_ & Hs & _ & _ & s & _ & Hat & _ & Hp & _).
  destruct (bestForSending ex_w (sessions ex_r)) as [l|].
  - destruct Hget as (s1 & n & U & k & ks & st' & sv' & _ & _ & _ & Hok & Hinv & _). eauto.
  - destruct Hget as [_ Hno]. specialize (Hno 0%nat s 12 ∅). rewrite Hs, Hp in Hno.
    exfalso. specialize (Hno ltac:(left) Hat). vm_compute in Hno. exact (Hno eq_refl).
Defined.

Lemma getKeyForRekey_finds_witness :
  exists w' l k, getKeyForRekey ex_w ex_r 4 = Ok (w', (l, k)) /\ rel_inv w' ex_r.
Proof.
  destruct (getKeyForRekey_finds ex_w ex_r 4 ex_rel_inv) as [_ Hget].
  destruct ex_relationship as (_ & Hs & _ & _ & s & _ & Hat & _ & Hp & _).
  destruct (bestForRekey ex_w (sessions ex_r)) as [l|].
  - destruct Hget as (s1 & n & U & k & ks & st' & sv' & _ & _ & _ & Hok & Hinv & _). eauto.
  - destruct Hget as [_ Hno]. specialize (Hno 0%nat s 12 ∅). rewrite Hs in Hno.
    exfalso. specialize (Hno ltac:(left) Hat). vm_compute in Hno. discriminate Hno.
Defined.

Lemma relationship_clean_keeps_witness :
  exists w' byID', relationship_clean ex_iter ex_w ex_r 4 = Ok (w', r_setSessions ex_r [0%nat] byID') /\
    rel_inv w' (r_setSessions ex_r [0%nat] byID').
Proof.
  destruct (relationship_clean_keeps ex_iter ex_w ex_r 4 ex_rel_inv) as (w' & byID' & Hok & Hinv & _).
  destruct ex_relationship as (_ & Hs & _). rewrite Hs, keepList_single in Hok, Hinv.
  exists w', byID'. split; [exact Hok|exact Hinv].
Defined.

Lemma ex_byID sid : sessionByID ex_r !! sid = if bool_decide (sid = ex_sid) then Some 0%nat else None.
Proof.
  destruct ex_relationship as (Hi & Hs & _ & _ & s & Hheap & _ & _ & _ & Hid).
  assert (sessionByID ex_r !! sid = Some 0%nat <-> sid = ex_sid) as Hiff.
  { rewrite (ri_byID _ _ Hi), Hs, Hheap. split.
    - intros [_ (s1 & Hs1 & <-)]. cbn in Hs1. injection Hs1 as <-. exact Hid.
    - intros ->. split; [left|]. exists s. split; [reflexivity|exact Hid]. }
  case_bool_decide as Hd; [by apply Hiff|].
  destruct (sessionByID ex_r !! sid) as [l|] eqn:Hl; [|done]. exfalso. apply Hd, Hiff.
  pose proof (proj1 (proj1 (ri_byID _ _ Hi sid l) Hl)) as Hin. rewrite Hs in Hin.
  apply list_elem_of_singleton in Hin. by rewrite Hin.
Qed.

Lemma relationship_Confirm_spec_witness :
  relationship_Confirm ex_iter ex_w ex_r ex_sid 4 = Panic.
Proof.
  pose proof (relationship_Confirm_spec ex_iter ex_w ex_r ex_sid 4 ex_rel_inv) as Hconf.
  rewrite ex_byID, bool_decide_true in Hconf by reflexivity.
  destruct Hconf as (s & _ & Hs & _ & Hconf).
  destruct ex_relationship as (_ & _ & _ & _ & s1 & Hheap & _ & Hneg & _).
  rewrite Hheap in Hs. cbn in Hs. injection Hs as <-. rewrite Hneg in Hconf. exact Hconf.
Defined.

Definition ex_sid2 : SessionID := GetSessionIDFromBaseKey (99 : Z).

Lemma relationship_AddSession_spec_witness :
  exists w' r' (s : Session Z Z Z Z),
    relationship_AddSession ex_iter ex_w ex_r (fun _ => (0, 0)) (Some (4, 4)) 8 (Some 99) 6 ex_trigger
      Sending ex_params 2 = Ok (w', r', length (w_heap ex_w)) /\
    rel_inv w' r' /\ sessions r' = [length (w_heap ex_w); 0%nat] /\ sID s = ex_sid2 /\
    negotiationStatus s = Sending.
Proof.
  destruct ex_relationship as (Hi & Hs & Ht & Hkv & _).
  destruct (relationship_AddSession_spec ex_iter ex_w ex_r (fun _ => (0, 0)) (Some (4, 4)) 8 (Some 99) 6
    ex_trigger Sending ex_params 2 Hi (or_introl Ht) ex_params_ok (ex_storable _)
    ltac:(unfold Sending; lia) eq_refl
    (session_prefix_fresh NewKV Send "Send" (r_kv ex_r) ex_sid2 eq_refl Hkv eq_refl)
    ltac:(change (sessionByID ex_r !! ex_sid2 = None); rewrite ex_byID; by vm_compute))
    as (w' & r' & s & Hok & Hinv & Hses & _ & _ & Hid & _ & Hneg & _).
  exists w', r', s. rewrite Hs in Hses. split; [exact Hok|]. split; [exact Hinv|].
  split; [exact Hses|]. split; [exact Hid|exact Hneg].
Defined.

Lemma LoadRelationship_restores_witness :
  exists w' r', LoadRelationship (mkWorld (w_store ex_w) ∅ []) NewKV Send 1 7 = Ok (w', r') /\
    rel_inv w' r' /\ rel_ids w' (sessions r') ≡ₚ rel_ids ex_w (sessions ex_r).
Proof.
  destruct ex_relationship as (Hi & _ & Ht & Hkv & _).
  destruct (LoadRelationship_restores ex_w ex_r NewKV "Send" (mkWorld (w_store ex_w) ∅ []) 1 7 Hi
    ltac:(rewrite Ht; reflexivity) Hkv eq_refl) as (w' & r' & now & ids & Hok & Hinv & _ & _ & _ & _ & _ & _ & _ & Hperm & _).
  rewrite Ht in Hok. exists w', r'. split; [exact Hok|]. split; [exact Hinv|exact Hperm].
Defined.

Lemma relationship_TriggerNegotiation_spec_witness :
  exists w' ls, relationship_TriggerNegotiation ex_w ex_r (fun _ => [x00; x00; x00; x00]) = Ok (w', ls) /\
    rel_inv w' ex_r.
Proof.
  destruct (relationship_TriggerNegotiation_spec ex_w ex_r (fun _ => [x00; x00; x00; x00]) ex_rel_inv
    ltac:(reflexivity)) as (w' & Hok & Hinv & _).
  eexists w', _. split; [exact Hok|exact Hinv].
Defined.
