(* ===== verification/Manager.v ===== *)
(** * Partner managers

    [e2e/ratchet/partner/manager.go]: the two relationships with a partner, one
    for each direction, made from the keys of the authenticated exchange; the
    creation of the sessions of a rekey, and storage.  The long-term keys are
    stored by [storage/utility/dh.go]. *)

From S2P Require Import Prelude GoBytes KV Base64 Json StateVector Float64 Session Relationship.

(** ** Stored keys ([dh.go]) *)

Definition currentCyclicVersion : Z := 0.

Section cyclic.
Context {ID Int : Type} `{RelCrypto ID Int} {S : Type} `{EKV S}.

Definition StoreCyclicKey (st : S) (v : kv) (cy : Int) (key : string) (now : Time) : S * option error :=
  kv_Set v st key (mkObject currentCyclicVersion now (int_GobEncode cy)).

Definition LoadCyclicKey (st : S) (v : kv) (key : string) : result Int :=
  match kv_Get v st key currentCyclicVersion with
  | inl e => Err e
  | inr vo => match int_GobDecode (Data vo) with
              | Some cy => Ok cy
              | None => Err (Errorf "gob" [])
              end
  end.

Definition DeleteCyclicKey (st : S) (v : kv) (key : string) : S * option error :=
  kv_Delete v st key currentCyclicVersion.
End cyclic.

(** ** The manager *)

Definition originMyPrivKeyKey : string := "originMyPrivKey".
Definition originPartnerPubKeyKey : string := "originPartnerPubKey".
Definition relationshipFpLength : Z := 15.

Definition makeManagerPrefix {ID} `{NetID ID} (pid : ID) : string :=
  "Manager{partner:" +:+ id_String pid +:+ "}".

(** The isogeny keys are not stored: a loaded manager has none. *)
Record manager (ID Int Priv Pub : Type) := mkManager {
  m_kv : kv;
  m_myID : ID;
  m_partner : ID;
  originMyPrivKey : Int;
  originPartnerPubKey : Int;
  originMySIDHPrivKey : option Priv;
  originPartnerSIDHPubKey : option Pub;
  m_receive : relationship ID;
  m_send : relationship ID;
}.
Arguments mkManager {ID Int Priv Pub}.
Arguments m_kv {ID Int Priv Pub}.
Arguments m_myID {ID Int Priv Pub}.
Arguments m_partner {ID Int Priv Pub}.
Arguments originMyPrivKey {ID Int Priv Pub}.
Arguments originPartnerPubKey {ID Int Priv Pub}.
Arguments originMySIDHPrivKey {ID Int Priv Pub}.
Arguments originPartnerSIDHPubKey {ID Int Priv Pub}.
Arguments m_receive {ID Int Priv Pub}.
Arguments m_send {ID Int Priv Pub}.

Section manager.
Context {ID Int Priv Pub : Type} `{NetID ID} `{SessionCrypto Int Priv Pub} `{RelCrypto ID Int}.
Context {S : Type} `{EKV S} `{JsonCodec SessionDisk} `{JsonCodec (list SessionID)}.
Context (iter : gmap SessionID nat -> list SessionID).

Abbreviation world := (world S ID Int Priv Pub).
Abbreviation manager := (manager ID Int Priv Pub).

Definition m_setSend (m : manager) (r : relationship ID) : manager :=
  mkManager (m_kv m) (m_myID m) (m_partner m) (originMyPrivKey m) (originPartnerPubKey m)
    (originMySIDHPrivKey m) (originPartnerSIDHPubKey m) (m_receive m) r.
Definition m_setReceive (m : manager) (r : relationship ID) : manager :=
  mkManager (m_kv m) (m_myID m) (m_partner m) (originMyPrivKey m) (originPartnerPubKey m)
    (originMySIDHPrivKey m) (originPartnerSIDHPubKey m) r (m_send m).

(** [NewManager] panics when the prefix is refused or a key is not stored. *)
Definition NewManager (w : world) (gen : Z -> Int * Priv) (v : kv) (me partner : ID)
    (priv : Int * Priv) (partnerPub : Int) (partnerSIDH : Pub) (sendParams receiveParams : Params)
    (now : Time) : result (world * manager) :=
  v ← must (kv_Prefix v (makeManagerPrefix partner));
  match StoreCyclicKey (ID:=ID) (w_store w) v (fst priv) originMyPrivKeyKey now with
  | (_, Some _) => Panic
  | (st, None) =>
      match StoreCyclicKey (ID:=ID) st v partnerPub originPartnerPubKeyKey now with
      | (_, Some _) => Panic
      | (st, None) =>
          '(w, send) ← NewRelationship iter (w_setStore w st) gen v Send me partner priv partnerPub
                         partnerSIDH sendParams now;
          '(w, receive) ← NewRelationship iter w gen v Receive me partner priv partnerPub
                            partnerSIDH receiveParams now;
          Ok (w, mkManager v me partner (fst priv) partnerPub (Some (snd priv)) (Some partnerSIDH)
                   receive send)
      end
  end.

Definition LoadManager (w : world) (v : kv) (me partner : ID) : result (world * manager) :=
  v ← kv_Prefix v (makeManagerPrefix partner);
  priv ← must (LoadCyclicKey (ID:=ID) (w_store w) v originMyPrivKeyKey);
  pub ← must (LoadCyclicKey (ID:=ID) (w_store w) v originPartnerPubKeyKey);
  '(w, send) ← wrap_err "cannot load partner key relationship" []
                 (LoadRelationship w v Send me partner);
  '(w, receive) ← wrap_err "cannot load partner key relationship" []
                    (LoadRelationship w v Receive me partner);
  Ok (w, mkManager v me partner priv pub None None receive send).

(** One half of [deleteRelationships]. *)
Definition deleteRelationship (w : world) (v : kv) (t : Z) (r : relationship ID) :
    result (world * relationship ID) :=
  p ← RelationshipType_Prefix t;
  v ← kv_Prefix v p;
  '(w, r) ← relationship_Delete w r;
  match deleteRelationshipFingerprint (w_store w) v with
  | (_, Some e) => Err e
  | (st, None) =>
      match kv_Delete v st relationshipKey currentRelationshipVersion with
      | (_, Some _) => Err (Errorf "cannot delete relationship: %v" [])
      | (st, None) => Ok (w_setStore w st, r)
      end
  end.

Definition manager_deleteRelationships (w : world) (m : manager) : result (world * manager) :=
  '(w, send) ← deleteRelationship w (m_kv m) Send (m_send m);
  '(w, receive) ← deleteRelationship w (m_kv m) Receive (m_receive m);
  Ok (w, m_setReceive (m_setSend m send) receive).

Definition manager_Delete (w : world) (m : manager) : result (world * manager) :=
  '(w, m) ← wrap_err "Failed to delete relationship" [] (manager_deleteRelationships w m);
  match DeleteCyclicKey (w_store w) (m_kv m) originPartnerPubKeyKey with
  | (_, Some _) => Panic
  | (st, None) => Ok (w_setStore w st, m)
  end.

(** ** Sessions *)

(** The result tells whether the session was already there. *)
Definition manager_NewReceiveSession (w : world) (m : manager) (gen : Z -> Int * Priv)
    (partnerPub : Int) (partnerSIDH : Pub) (params : Params) (source : nat) (now : Time) :
    result (world * manager * nat * bool) :=
  src ← w_deref w source;
  let base := GenerateE2ESessionBaseKey (myPrivKey src) partnerPub (mySIDHPrivKey src) partnerSIDH in
  let sid := GetSessionIDFromBaseKey base in
  match relationship_GetByID (m_receive m) sid with
  | Some l => Ok (w, m, l, true)
  | None =>
      '(w, receive, l) ← relationship_AddSession iter w (m_receive m) gen
                           (Some (myPrivKey src, mySIDHPrivKey src)) partnerPub (Some base)
                           partnerSIDH (sID src) Confirmed params now;
      Ok (w, m_setReceive m receive, l, false)
  end.

Definition manager_NewSendSession (w : world) (m : manager) (gen : Z -> Int * Priv)
    (priv : option (Int * Priv)) (params : Params) (source : nat) (now : Time) :
    result (world * manager * nat) :=
  src ← w_deref w source;
  '(w, send, l) ← relationship_AddSession iter w (m_send m) gen priv (partnerPubKey src) None
                    (partnerSIDHPubKey src) (sID src) Sending params now;
  Ok (w, m_setSend m send, l).

Definition manager_PopSendCypher (w : world) (m : manager) (now : Time) : result (world * (nat * Z)) :=
  getKeyForSending w (m_send m) now.

Definition manager_PopRekeyCypher (w : world) (m : manager) (now : Time) : result (world * (nat * Z)) :=
  getKeyForRekey w (m_send m) now.

Definition manager_GetSendSession (m : manager) (sid : SessionID) : option nat :=
  relationship_GetByID (m_send m) sid.
Definition manager_GetReceiveSession (m : manager) (sid : SessionID) : option nat :=
  relationship_GetByID (m_receive m) sid.

Definition manager_Confirm (w : world) (m : manager) (sid : SessionID) (now : Time) :
    result (world * manager) :=
  '(w, send) ← relationship_Confirm iter w (m_send m) sid now;
  Ok (w, m_setSend m send).

Definition manager_TriggerNegotiations (w : world) (m : manager) (draws : nat -> list byte) :
    result (world * list nat) :=
  relationship_TriggerNegotiation w (m_send m) draws.

Definition manager_ConnectionFingerprint (m : manager) : list byte :=
  GenerateConnectionFingerprint (ID:=ID) (Int:=Int) (r_fingerprint (m_send m)) (r_fingerprint (m_receive m)).

(** The first 15 characters of the base 64 text. *)
Definition ConnectionFp_String (c : list byte) : result string :=
  let s := b64Encode c in
  if relationshipFpLength <=? Z.of_nat (String.length s)
  then Ok (String.substring 0 (Z.to_nat relationshipFpLength) s) else Panic.
End manager.

(** ** The invariant *)

(** The two directions of a manager have no handle in common. *)
Lemma directions_apart v vs vr u u' :
  kv_Prefix v "Send" = Ok vs -> kv_Prefix v "Receive" = Ok vr -> below vs u -> below vr u' ->
  prefix u ≠ prefix u'.
Proof.
  intros [_ Hs]%kv_Prefix_Ok [_ Hr]%kv_Prefix_Ok [q Hq] [q' Hq'] Heq.
  rewrite Hq, Hq', Hs, Hr in Heq. apply (f_equal chars) in Heq. rewrite !chars_app, <- !app_assoc in Heq.
  apply app_inv_head in Heq. by apply (f_equal head) in Heq.
Qed.

Record manager_inv {ID Int Priv Pub} `{NetID ID} `{SessionCrypto Int Priv Pub} `{RelCrypto ID Int}
    `{JsonCodec SessionDisk} `{JsonCodec (list SessionID)} {S} `{EKV S}
    (w : world S ID Int Priv Pub) (m : manager ID Int Priv Pub) : Prop := {
  mi_handle : kv_handle (m_kv m);
  mi_send : rel_inv w (m_send m);
  mi_receive : rel_inv w (m_receive m);
  mi_send_kv : kv_Prefix (m_kv m) "Send" = Ok (r_kv (m_send m));
  mi_receive_kv : kv_Prefix (m_kv m) "Receive" = Ok (r_kv (m_receive m));
  mi_send_t : r_t (m_send m) = Send;
  mi_receive_t : r_t (m_receive m) = Receive;
  mi_priv : LoadCyclicKey (ID:=ID) (w_store w) (m_kv m) originMyPrivKeyKey = Ok (originMyPrivKey m);
  mi_pub : LoadCyclicKey (ID:=ID) (w_store w) (m_kv m) originPartnerPubKeyKey = Ok (originPartnerPubKey m);
}.

Section lemmas.
Context {ID Int Priv Pub : Type} `{NetIDLaws ID} `{SessionCryptoLaws Int Priv Pub} `{RelCryptoLaws ID Int}.
Context {S : Type} `{EKVLaws S} `{!EKVReliable S} `{JsonCodec SessionDisk} `{JsonCodec (list SessionID)}.
Implicit Types (w : world S ID Int Priv Pub) (r : relationship ID) (s : Session ID Int Priv Pub).

Lemma at_frame w w' r l s n U :
  kv_handle (r_kv r) -> session_at w r l s n U -> w_heap w `prefix_of` w_heap w' ->
  (forall u key n, kv_handle u -> strContains PrefixSeparator key = false -> 0 <= n < 2 ^ 63 ->
     below (r_kv r) u -> kv_Get u (w_store w') key n = kv_Get u (w_store w) key n) ->
  session_at w' r l s n U.
Proof.
  intros Hh [] Hpre Hsame.
  pose proof (session_handle r s Hh sa_prefix) as Hhs. pose proof (below_prefix _ _ _ sa_prefix) as Hb.
  split; try done; [by apply (prefix_lookup_Some _ _ _ _ sa_heap Hpre)|].
  destruct sa_stored as [m [Hm [t1 Hk] [t2 Hd]]]. exists m.
  split; [done|exists t1|exists t2]; by rewrite Hsame.
Qed.

(** A change of the store elsewhere, and new sessions, keep a relationship. *)
Lemma rel_frame w w' r :
  rel_inv w r -> w_heap w `prefix_of` w_heap w' ->
  (forall u key n, kv_handle u -> strContains PrefixSeparator key = false -> 0 <= n < 2 ^ 63 ->
     below (r_kv r) u -> kv_Get u (w_store w') key n = kv_Get u (w_store w) key n) ->
  rel_inv w' r.
Proof.
  intros Hi Hpre Hsame. pose proof (ri_handle _ _ Hi) as Hh.
  assert (forall l, l ∈ sessions r -> w_heap w' !! l = w_heap w !! l) as Hheap.
  { intros l Hl. destruct (ri_at _ _ Hi l Hl) as (s & n & U & Hat). rewrite (sa_heap _ _ _ _ _ _ Hat).
    apply (prefix_lookup_Some _ _ _ _ (sa_heap _ _ _ _ _ _ Hat) Hpre). }
  split; [split; try apply Hi|].
  - intros l Hl. destruct (ri_at _ _ Hi l Hl) as (s & n & U & Hat). exists s, n, U.
    by apply (at_frame w).
  - intros sid l. rewrite (ri_byID _ _ Hi). split; intros [Hl Hs]; (split; [done|]);
      [by rewrite Hheap|by rewrite <- Hheap].
  - destruct (ri_fp _ _ Hi) as [now Hg]. exists now. rewrite Hsame; [done|done..|]. apply below_refl.
  - destruct (ri_list _ _ Hi) as (now & ids & Hg & Hrest). exists now, ids.
    rewrite Hsame; [done|done..|]. apply below_refl.
Qed.

Lemma cyclic_saved (st st' : S) v (cy : Int) key now :
  StoreCyclicKey (ID:=ID) st v cy key now = (st', None) -> LoadCyclicKey (ID:=ID) st' v key = Ok cy.
Proof.
  intros Hset. apply kv_get_set_eq in Hset. cbn [Version] in Hset. unfold LoadCyclicKey.
  rewrite Hset. cbn [Data]. by rewrite (int_gob (ID:=ID)).
Qed.

Lemma cyclic_ok (st : S) v (cy : Int) key now :
  exists st', StoreCyclicKey (ID:=ID) st v cy key now = (st', None).
Proof.
  unfold StoreCyclicKey. destruct (kv_Set _ _ _ _) as [st' e] eqn:Hset. exists st'.
  assert (e = None) as ->; [|done]. apply (f_equal snd) in Hset. simpl in Hset. rewrite <- Hset. apply ekv_set_ok.
Qed.

Context (iter : gmap SessionID nat -> list SessionID) `{!IterOk iter}.

Lemma origin_keys (st0 st1 st2 st : S) v (x y : Int) now :
  StoreCyclicKey (ID:=ID) st0 v x originMyPrivKeyKey now = (st1, None) ->
  StoreCyclicKey (ID:=ID) st1 v y originPartnerPubKeyKey now = (st2, None) ->
  (forall key, strContains PrefixSeparator key = false -> kv_Get v st key 0 = kv_Get v st2 key 0) ->
  LoadCyclicKey (ID:=ID) st v originMyPrivKeyKey = Ok x /\
  LoadCyclicKey (ID:=ID) st v originPartnerPubKeyKey = Ok y.
Proof.
  intros H1' H2' Hsame. pose proof (cyclic_saved _ _ _ _ _ _ H1') as Hx.
  pose proof (cyclic_saved _ _ _ _ _ _ H2') as Hy. unfold LoadCyclicKey, currentCyclicVersion in *.
  rewrite !Hsame by done. split; [|done].
  assert (kv_Get v st2 originMyPrivKeyKey 0 = kv_Get v st1 originMyPrivKeyKey 0) as ->; [|done].
  by apply (kv_get_set_key _ _ _ _ originMyPrivKeyKey _ _ H2').
Qed.

(** A new manager: one confirmed session in each direction, with the same base
    key. *)
Lemma new_manager_spec w gen v vm me partner priv partnerPub partnerSIDH pS pR now :
  kv_handle v -> kv_Prefix v (makeManagerPrefix partner) = Ok vm ->
  kv_HasPrefix vm "Send" = false -> kv_HasPrefix vm "Receive" = false ->
  params_ok pS -> params_storable pS -> params_ok pR -> params_storable pR ->
  let base := GenerateE2ESessionBaseKey (fst priv) partnerPub (snd priv) partnerSIDH in
  kv_HasPrefix vm (MakeSessionPrefix (GetSessionIDFromBaseKey base)) = false ->
  let nS := numKeysOf pS base + NumRekeys pS in
  let nR := numKeysOf pR base + NumRekeys pR in
  let l := length (w_heap w) in
  exists w' m sS sR,
    NewManager iter w gen v me partner priv partnerPub partnerSIDH pS pR now = Ok (w', m) /\
    manager_inv w' m /\ m_kv m = vm /\
    made_from sS priv partnerPub partnerSIDH /\ made_from sR priv partnerPub partnerSIDH /\
    m_myID m = me /\ m_partner m = partner /\
    sessions (m_send m) = [l] /\ sessions (m_receive m) = [Datatypes.S l] /\
    w_heap w' = w_heap w ++ [sS; sR] /\
    session_at w' (m_send m) l sS nS ∅ /\ session_at w' (m_receive m) (Datatypes.S l) sR nR ∅ /\
    baseKey sS = base /\ baseKey sR = base /\ sID sS = GetSessionIDFromBaseKey base /\
    sID sR = GetSessionIDFromBaseKey base /\ e2eParams sS = pS /\
    w_handler w' = handler_AddKeys (w_handler w) sR (zseq 0 nR) /\
    makeRelationshipFingerprint Send (fst priv) partnerPub me partner = Ok (r_fingerprint (m_send m)) /\
    makeRelationshipFingerprint Receive (fst priv) partnerPub me partner = Ok (r_fingerprint (m_receive m)).
Proof.
  intros Hh Hvm HfS HfR HpS HjS HpR HjR base Hfree nS nR l.
  pose proof (handle_prefix _ _ _ Hh Hvm) as Hhm.
  destruct (cyclic_ok (w_store w) vm (fst priv) originMyPrivKeyKey now) as [st1 H1'].
  destruct (cyclic_ok st1 vm partnerPub originPartnerPubKeyKey now) as [st2 H2'].
  destruct (new_relationship_spec iter (w_setStore w st2) gen vm Send me partner priv partnerPub partnerSIDH
    pS now "Send" Hhm eq_refl HfS HpS HjS Hfree)
    as (fpS & w3 & rS & sS & HfpS & HnewS & HiS & HsS & HheapS & HatS & HidS & HbS & _ & HpaS & HrfS & HtS & HkvS & HmfS & HhS & HfrS).
  destruct (new_relationship_spec iter w3 gen vm Receive me partner priv partnerPub partnerSIDH
    pR now "Receive" Hhm eq_refl HfR HpR HjR Hfree)
    as (fpR & w4 & rR & sR & HfpR & HnewR & HiR & HsR & HheapR & HatR & HidR & HbR & _ & _ & HrfR & HtR & HkvR & HmfR & HhR & HfrR).
  cbn [w_heap w_handler w_setStore] in HheapS, HhS, HsS, HatS. fold base in HbS, HbR, HatS, HatR, HhR. fold l in HsS, HatS.
  assert (length (w_heap w3) = Datatypes.S l) as Hlen by (rewrite HheapS, length_app; simpl; lia).
  rewrite Hlen in HsR, HatR.
  pose proof (below_prefix _ _ _ (sa_prefix _ _ _ _ _ _ HatR)) as HbelR.
  assert (forall u key n, kv_handle u -> strContains PrefixSeparator key = false -> 0 <= n < 2 ^ 63 ->
    below (r_kv rS) u -> kv_Get u (w_store w4) key n = kv_Get u (w_store w3) key n) as Hsame.
  { intros u key n Hu Hk Hn Hb. apply HfrR; [done..| |].
    - apply (directions_apart vm (r_kv rS) (r_kv rR)); [done..|apply below_refl].
    - by apply (directions_apart vm (r_kv rS) (r_kv rR)). }
  assert (w_heap w3 `prefix_of` w_heap w4) as Hpre by (rewrite HheapR; by apply prefix_app_r).
  assert (forall key, strContains PrefixSeparator key = false ->
    kv_Get vm (w_store w4) key 0 = kv_Get vm st2 key 0) as Hvmsame.
  { intros key Hk. rewrite HfrR, HfrS; try done; apply not_eq_sym.
    - by apply (below_ne vm "Send" (r_kv rS)); [|apply below_refl].
    - apply (below_ne vm "Send" (r_kv rS)); [done|]. apply (below_prefix _ _ _ (sa_prefix _ _ _ _ _ _ HatS)).
    - by apply (below_ne vm "Receive" (r_kv rR)); [|apply below_refl].
    - by apply (below_ne vm "Receive" (r_kv rR)). }
  destruct (origin_keys (w_store w) st1 st2 (w_store w4) vm (fst priv) partnerPub now H1' H2' Hvmsame) as [Hpriv Hpub].
  exists w4, (mkManager vm me partner (fst priv) partnerPub (Some (snd priv)) (Some partnerSIDH) rR rS), sS, sR.
  split; [by unfold NewManager; rewrite Hvm; cbn [must mbind result_bind]; rewrite H1', H2', HnewS;
    cbn [mbind result_bind]; rewrite HnewR|].
  split; [by split; try done; apply (rel_frame w3)|].
  cbn [m_send m_receive m_kv]. split_and!; try done.
  - by rewrite HheapR, HheapS, <- app_assoc.
  - apply (at_frame w3); [apply (ri_handle _ _ HiS)|done..].
  - rewrite HhR, HhS. done.
  - by rewrite HrfS.
  - by rewrite HrfR.
Qed.

(** ** Keys in order *)

(** A sequence of keys taken by the manager, for sending ([false]) or for a
    rekey ([true]), each at its time; a refusal is [None]. *)
Definition manager_pop w (m : manager ID Int Priv Pub) (rekey : bool) (now : Time) :
    result (world S ID Int Priv Pub * (nat * Z)) :=
  if rekey then manager_PopRekeyCypher w m now else manager_PopSendCypher w m now.

Fixpoint keyRun w (m : manager ID Int Priv Pub) (ops : list (bool * Time)) :
    result (world S ID Int Priv Pub * list (option (nat * Z))) :=
  match ops with
  | [] => Ok (w, [])
  | (rekey, now) :: ops =>
      match manager_pop w m rekey now with
      | Ok (w, lk) => '(w, out) ← keyRun w m ops; Ok (w, Some lk :: out)
      | Err _ => '(w, out) ← keyRun w m ops; Ok (w, None :: out)
      | Panic => Panic
      end
  end.

(** What it comes to for one session of [n] keys of which the first [c] are
    taken: the keys in order, the last [reserve] of them for rekeys only. *)
Fixpoint keySpec (n reserve c : Z) (ops : list bool) : list (option Z) :=
  match ops with
  | [] => []
  | rekey :: ops =>
      if (if rekey then c <? n else reserve <? n - c)
      then Some c :: keySpec n reserve (c + 1) ops
      else None :: keySpec n reserve c ops
  end.

Lemma keySpec_range n reserve ops c k :
  0 <= c -> 0 <= reserve -> Some k ∈ keySpec n reserve c ops -> 0 <= k < n.
Proof.
  intros Hc Hres. revert c Hc. induction ops as [|rekey ops IH]; intros c Hc; cbn [keySpec].
  { by intros ?%elem_of_nil. }
  destruct (if rekey then c <? n else reserve <? n - c) eqn:E.
  - intros [[= ->]|Hk]%elem_of_cons; [|apply (IH (c + 1)); [lia|done]]. destruct rekey; lia.
  - intros [?|Hk]%elem_of_cons; [done|by apply (IH c)].
Qed.

Lemma unusedKeys_next n U k ks : unusedKeys n U = k :: ks -> unusedKeys n ({[k]} ∪ U) = ks.
Proof.
  intros Heq. unfold unusedKeys in *.
  assert (filter (fun j => j ∉ {[k]} ∪ U) (zseq 0 n) = filter (fun j => j ≠ k) (filter (fun j => j ∉ U) (zseq 0 n))) as ->.
  { rewrite list_filter_filter. apply list_filter_iff. intros j. set_solver. }
  assert (NoDup (k :: ks)) as Hnd by (rewrite <- Heq; apply list.NoDup_filter, NoDup_zseq).
  apply list.NoDup_cons in Hnd as [Hk _]. rewrite Heq, filter_cons_False by (intros H'; by apply H').
  clear Heq. induction ks as [|j ks IH]; [done|]. apply not_elem_of_cons in Hk as [Hj Hk].
  by rewrite filter_cons_True, IH.
Qed.

(** One key of a relationship with a single session, whose unused keys are
    [c] to [n]. *)
Lemma pop_next w (m : manager ID Int Priv Pub) l s n0 U c n (rekey : bool) now :
  rel_inv w (m_send m) -> sessions (m_send m) = [l] -> session_at w (m_send m) l s n0 U ->
  unusedKeys n0 U = zseq c n -> c <= n ->
  if (if rekey then c <? n else NumRekeys (e2eParams s) <? n - c)
  then exists w' sv n1 U1, manager_pop w m rekey now = Ok (w', (l, c)) /\ rel_inv w' (m_send m) /\
         session_at w' (m_send m) l (ss_setKeys s sv) n1 U1 /\ unusedKeys n1 U1 = zseq (c + 1) n
  else exists e, manager_pop w m rekey now = Err e.
Proof.
  intros Hi Hs Hat Hun Hc. set (r := m_send m) in *.
  assert (forall s0 n1 U1, session_at w r l s0 n1 U1 -> s0 = s /\ unusedKeys n1 U1 = zseq c n) as Hsame.
  { intros s0 n1 U1 Hat0.
    assert (s0 = s) as -> by (pose proof (sa_heap _ _ _ _ _ _ Hat0); pose proof (sa_heap _ _ _ _ _ _ Hat); congruence).
    split; [done|]. rewrite <- Hun. pose proof (unused_keys _ _ _ (wf_keys _ _ _ (sa_wf _ _ _ _ _ _ Hat0))).
    pose proof (unused_keys _ _ _ (wf_keys _ _ _ (sa_wf _ _ _ _ _ _ Hat))). congruence. }
  assert (forall pop : result (world S ID Int Priv Pub * (nat * Z)),
    (exists s0 n1 U1 k ks st' sv', l ∈ sessions r /\ session_at w r l s0 n1 U1 /\ unusedKeys n1 U1 = k :: ks /\
      let w' := w_assign (w_setStore w st') l (ss_setKeys s0 sv') in
      pop = Ok (w', (l, k)) /\ rel_inv w' r /\ session_at w' r l (ss_setKeys s0 sv') n1 ({[k]} ∪ U1)) ->
    c < n /\ exists w' sv n1 U1, pop = Ok (w', (l, c)) /\ rel_inv w' r /\
      session_at w' r l (ss_setKeys s sv) n1 U1 /\ unusedKeys n1 U1 = zseq (c + 1) n) as Hfound.
  { intros pop (s0 & n1 & U1 & k & ks & st' & sv' & _ & Hat0 & Hk & Hget & Hi' & Hat').
    destruct (Hsame _ _ _ Hat0) as [-> Hk0]. pose proof (unusedKeys_next _ _ _ _ Hk) as Hnext.
    rewrite Hk in Hk0. destruct (decide (c < n)) as [Hlt|]; [|by rewrite zseq_nil in Hk0 by lia].
    rewrite zseq_cons in Hk0 by lia. injection Hk0 as -> ->. split; [done|]. eauto 10. }
  pose proof (sa_reserve _ _ _ _ _ _ Hat) as Hres. unfold is_u in Hres.
  unfold manager_pop, manager_PopRekeyCypher, manager_PopSendCypher. fold r. destruct rekey.
  - destruct (rekey_finds w r now Hi) as [_ Hf]. destruct (bestForRekey w (sessions r)) as [l'|] eqn:Hb.
    + assert (l' = l) as -> by (destruct Hf as (? & ? & ? & ? & ? & ? & ? & Hl & _);
        rewrite Hs in Hl; by apply list_elem_of_singleton in Hl).
      apply Hfound in Hf as [Hlt Hf]. by rewrite (proj2 (Z.ltb_lt _ _)).
    + destruct Hf as [He Hno]. specialize (Hno l s n0 U ltac:(rewrite Hs; left) Hat).
      rewrite Hun in Hno. destruct (Z.ltb_spec c n); [|done]. by rewrite zseq_cons in Hno.
  - destruct (sending_finds w r now Hi) as [_ Hf]. destruct (bestForSending w (sessions r)) as [l'|] eqn:Hb.
    + assert (l' = l) as -> by (destruct Hf as (? & ? & ? & ? & ? & ? & ? & Hl & _);
        rewrite Hs in Hl; by apply list_elem_of_singleton in Hl).
      assert (NumRekeys (e2eParams s) < n - c) as Hlt.
      { apply bestForSending_Some in Hb as (_ & s0 & Hs0 & Hst).
        assert (s0 = s) as -> by (pose proof (sa_heap _ _ _ _ _ _ Hat); congruence).
        apply (status_keys s n0 U (sa_wf _ _ _ _ _ _ Hat) (sa_reserve _ _ _ _ _ _ Hat)) in Hst.
        rewrite Hun, length_zseq in Hst. lia. }
      apply Hfound in Hf as [_ Hf]. by rewrite (proj2 (Z.ltb_lt _ _)).
    + destruct Hf as [He Hno]. specialize (Hno l s n0 U ltac:(rewrite Hs; left) Hat).
      rewrite Hun, length_zseq in Hno. by rewrite (proj2 (Z.ltb_ge _ _)) by lia.
Qed.

Lemma keyRun_spec (m : manager ID Int Priv Pub) l n ops : forall w s n0 U c,
  rel_inv w (m_send m) -> sessions (m_send m) = [l] -> session_at w (m_send m) l s n0 U ->
  unusedKeys n0 U = zseq c n -> c <= n ->
  exists w' s', keyRun w m ops
      = Ok (w', map (option_map (pair l)) (keySpec n (NumRekeys (e2eParams s)) c (map fst ops))) /\
    w_heap w' !! l = Some s' /\ (s' = s \/ exists sv, s' = ss_setKeys s sv).
Proof.
  induction ops as [|[rekey now] ops IH]; intros w s n0 U c Hi Hs Hat Hun Hc.
  { exists w, s. split; [done|]. split; [apply (sa_heap _ _ _ _ _ _ Hat)|by left]. }
  pose proof (pop_next w m l s n0 U c n rekey now Hi Hs Hat Hun Hc) as Hpop.
  pose proof (sa_reserve _ _ _ _ _ _ Hat) as Hres. unfold is_u in Hres.
  cbn [keyRun map keySpec fst].
  destruct (if rekey then c <? n else NumRekeys (e2eParams s) <? n - c) eqn:E.
  - destruct Hpop as (w1 & sv & n1 & U1 & -> & Hi1 & Hat1 & Hun1).
    destruct (IH w1 (ss_setKeys s sv) n1 U1 (c + 1)) as (w' & s' & -> & Hl & Hs'); [done..|destruct rekey; lia|].
    exists w', s'. split; [done|]. split; [done|]. right.
    destruct Hs' as [->|[sv' ->]]; [by exists sv|by exists sv'].
  - destruct Hpop as [e ->]. destruct (IH w s n0 U c) as (w' & s' & -> & Hl & Hs'); [done..|].
    exists w', s'. done.
Qed.

(** C35: two managers made from the two ends of a key exchange talk to each
    other.  They have the same connection fingerprint.  However many keys one
    end then takes, for sending and for rekeys in any order, it gets the keys
    of its session one after the other and is refused only when no more than
    the reserve (for a rekey: nothing) is left; and every key it gets has its
    fingerprint registered at the other end, whose receive session with the
    same ID decrypts what the key encrypts. *)
Theorem managers_exchange wA wB genA genB vA vB vmA vmB (alice bob : ID) x y (a b : Priv) pAB pBA now ops :
  kv_handle vA -> kv_Prefix vA (makeManagerPrefix bob) = Ok vmA ->
  kv_handle vB -> kv_Prefix vB (makeManagerPrefix alice) = Ok vmB ->
  let base := GenerateE2ESessionBaseKey x (dh_GeneratePublicKey y) a (priv_PublicKey b) in
  (forall p, p ∈ ["Send"; "Receive"; MakeSessionPrefix (GetSessionIDFromBaseKey base)] ->
     kv_HasPrefix vmA p = false /\ kv_HasPrefix vmB p = false) ->
  params_ok pAB -> params_storable pAB -> params_ok pBA -> params_storable pBA ->
  exists wA1 mA wB1 mB,
    NewManager iter wA genA vA alice bob (x, a) (dh_GeneratePublicKey y) (priv_PublicKey b) pAB pBA now
      = Ok (wA1, mA) /\
    NewManager iter wB genB vB bob alice (y, b) (dh_GeneratePublicKey x) (priv_PublicKey a) pBA pAB now
      = Ok (wB1, mB) /\
    manager_ConnectionFingerprint mA = manager_ConnectionFingerprint mB /\
    exists wA2 l sA lB sB,
      let keys := keySpec (numKeysOf pAB base + NumRekeys pAB) (NumRekeys pAB) 0 (map fst ops) in
      keyRun wA1 mA ops = Ok (wA2, map (option_map (pair l)) keys) /\ w_heap wA2 !! l = Some sA /\
      manager_GetReceiveSession mB (sID sA) = Some lB /\ w_heap wB1 !! lB = Some sB /\
      (forall k msg, Some k ∈ keys ->
        cypher_Fingerprint sA k ∈ w_handler wB1 /\ cypher_Fingerprint sB k = cypher_Fingerprint sA k /\
        let '(contents, mac, residue) := cypher_Encrypt sA k msg in
        cypher_Decrypt sB k contents mac = Ok (msg, residue)).
Proof.
  intros HhA HvA HhB HvB base Hfree HpAB HjAB HpBA HjBA.
  assert (GenerateE2ESessionBaseKey y (dh_GeneratePublicKey x) b (priv_PublicKey a) = base) as Hbase.
  { unfold base, GenerateE2ESessionBaseKey. by rewrite dh_agree, sidh_agree. }
  destruct (Hfree "Send") as [HA1 HB1]; [set_solver|]. destruct (Hfree "Receive") as [HA2 HB2]; [set_solver|].
  destruct (Hfree (MakeSessionPrefix (GetSessionIDFromBaseKey base))) as [HA3 HB3]; [set_solver|].
  destruct (new_manager_spec wA genA vA vmA alice bob (x, a) (dh_GeneratePublicKey y) (priv_PublicKey b)
    pAB pBA now HhA HvA HA1 HA2 HpAB HjAB HpBA HjBA HA3)
    as (wA1 & mA & sA & sA2 & HnewA & HmA & _ & _ & _ & _ & _ & HsA & _ & _ & HatA & _ & HbA & _ & HidA & _ & HpA & _ & HfA1 & HfA2).
  pose proof (new_manager_spec wB genB vB vmB bob alice (y, b) (dh_GeneratePublicKey x) (priv_PublicKey a)
    pBA pAB now HhB HvB HB1 HB2 HpBA HjBA HpAB HjAB) as HnewB.
  cbn [fst snd] in *. rewrite Hbase in HnewB.
  destruct (HnewB HB3) as (wB1 & mB & sB2 & sB & HnewB' & HmB & _ & _ & _ & _ & _ & _ & HsB & _ & _ & HatB & _ & HbB & _ & HidB & _ & HhB1 & HfB1 & HfB2).
  cbn in HfA1, HfA2, HfB1, HfB2. injection HfA1 as HfA1. injection HfA2 as HfA2.
  injection HfB1 as HfB1. injection HfB2 as HfB2.
  assert (r_fingerprint (m_send mA) = r_fingerprint (m_receive mB)) as Hfp1 by (rewrite <- HfA1, <- HfB2; apply relFp_sym).
  assert (r_fingerprint (m_receive mA) = r_fingerprint (m_send mB)) as Hfp2 by (rewrite <- HfA2, <- HfB1; apply relFp_sym).
  exists wA1, mA, wB1, mB. split; [exact HnewA|]. split; [exact HnewB'|].
  split; [unfold manager_ConnectionFingerprint; rewrite Hfp1, Hfp2; apply (connFp_sym (ID:=ID) (Int:=Int))|].
  pose proof (numKeysOf_range pAB base HpAB) as Hrange. pose proof (po_min _ HpAB). pose proof (po_rekeys _ HpAB) as Hrk.
  pose proof (mi_send _ _ HmA) as HiA. rewrite <- HpA in HatA at 2.
  destruct (keyRun_spec mA _ (numKeysOf pAB base + NumRekeys pAB) ops wA1 sA _ ∅ 0 HiA HsA HatA)
    as (wA2 & sA' & Hrun & Hl & HsA'); [rewrite HpA; apply unusedKeys_none|unfold is_u in Hrk; lia|].
  assert (baseKey sA' = baseKey sB /\ relationshipFingerprint sA' = relationshipFingerprint sB /\
    sID sA' = sID sA) as (Hbk & Hrf & HidA').
  { assert (baseKey sA = baseKey sB) as <- by by rewrite HbA, HbB.
    rewrite (sa_fp _ _ _ _ _ _ HatB), <- Hfp1, <- (sa_fp _ _ _ _ _ _ HatA).
    destruct HsA' as [->|[sv ->]]; done. }
  rewrite HpA in Hrun. eexists wA2, _, sA', _, sB. cbv zeta. split; [exact Hrun|]. split_and!.
  - exact Hl.
  - unfold manager_GetReceiveSession, relationship_GetByID.
    apply (ri_byID _ _ (mi_receive _ _ HmB)). rewrite HsB. split; [left|]. exists sB.
    split; [apply (sa_heap _ _ _ _ _ _ HatB)|]. by rewrite HidA', HidA, HidB.
  - apply (sa_heap _ _ _ _ _ _ HatB).
  - intros k msg Hk. unfold is_u in Hrk. apply keySpec_range in Hk; [|lia..].
    destruct (same_keys_decrypt sA' sB k msg Hbk Hrf) as [Hfp Hdec]. split_and!; [|done|exact Hdec].
    rewrite Hfp, HhB1. apply elem_of_AddKeys. right. exists k. split; [|done]. apply elem_of_zseq. lia.
Qed.

(** A new session on the receiving side keeps the manager's invariant. *)
Lemma manager_receive_frame w m w' r' v' :
  manager_inv w m -> rel_inv w' r' -> r_kv r' = r_kv (m_receive m) -> r_t r' = Receive ->
  w_heap w `prefix_of` w_heap w' -> below (r_kv (m_receive m)) v' ->
  (forall u key n, kv_handle u -> strContains PrefixSeparator key = false -> 0 <= n < 2 ^ 63 ->
     prefix u ≠ prefix (r_kv (m_receive m)) -> prefix u ≠ prefix v' ->
     kv_Get u (w_store w') key n = kv_Get u (w_store w) key n) ->
  manager_inv w' (m_setReceive m r').
Proof.
  intros [Hh HS HR HkS HkR HtS HtR Hpriv Hpub] Hi' Hkv Ht Hheap Hb Hsame.
  assert (forall key, strContains PrefixSeparator key = false ->
    kv_Get (m_kv m) (w_store w') key 0 = kv_Get (m_kv m) (w_store w) key 0) as Hvm.
  { intros key Hk. apply Hsame; [done..| |]; apply not_eq_sym, (below_ne _ _ _ _ HkR); [apply below_refl|done]. }
  unfold LoadCyclicKey, currentCyclicVersion in *.
  split; simpl; try done; unfold LoadCyclicKey, currentCyclicVersion;
    [|by rewrite Hkv|by rewrite Hvm|by rewrite Hvm].
  apply (rel_frame w); [done..|]. intros u key n Hu Hk Hn Hbu.
  apply Hsame; [done..| |]; apply (directions_apart _ _ _ _ _ HkS HkR Hbu); [apply below_refl|done].
Qed.

(** [NewReceiveSession] for a session that is not there yet. *)
Lemma new_receive_session w m gen partnerPub partnerSIDH p l src now :
  manager_inv w m -> w_heap w !! l = Some src -> length (sID src) = 32%nat ->
  params_ok p -> params_storable p ->
  let base := GenerateE2ESessionBaseKey (myPrivKey src) partnerPub (mySIDHPrivKey src) partnerSIDH in
  let sid := GetSessionIDFromBaseKey base in
  let n := numKeysOf p base + NumRekeys p in
  let l' := length (w_heap w) in
  kv_HasPrefix (r_kv (m_receive m)) (MakeSessionPrefix sid) = false ->
  sessionByID (m_receive m) !! sid = None ->
  exists w' r' s,
    manager_NewReceiveSession iter w m gen partnerPub partnerSIDH p l now
      = Ok (w', m_setReceive m r', l', false) /\
    manager_inv w' (m_setReceive m r') /\ w_heap w' = w_heap w ++ [s] /\
    session_at w' r' l' s n ∅ /\ sessionByID r' = <[sid := l']> (sessionByID (m_receive m)) /\
    r_fingerprint r' = r_fingerprint (m_receive m) /\ sID s = sid /\ baseKey s = base /\
    negotiationStatus s = Confirmed /\ w_handler w' = handler_AddKeys (w_handler w) s (zseq 0 n).
Proof.
  intros Hm Hsrc Hlen Hp Hj base sid n l' Hpre Hfresh.
  destruct (add_session iter w (m_receive m) gen (Some (myPrivKey src, mySIDHPrivKey src)) partnerPub (Some base)
    partnerSIDH (sID src) Confirmed p now (mi_receive _ _ Hm) (or_intror (mi_receive_t _ _ Hm)) Hp Hj
    ltac:(unfold Confirmed; lia) Hlen Hpre Hfresh) as (v' & st' & sv & Hadd & Hinv & Hat & Hfr).
  rewrite (mi_receive_t _ _ Hm), unusedKeys_none in *. fold base n sid l' in Hadd, Hinv, Hat.
  eexists _, _, _. split.
  { unfold manager_NewReceiveSession, w_deref. rewrite Hsrc. cbn [mbind result_bind]. fold base sid.
    unfold relationship_GetByID. rewrite Hfresh, Hadd. done. }
  split; [|split_and!; [done|exact Hat|done..]].
  apply (manager_receive_frame w m _ _ v'); try done.
  - by apply (mi_receive_t _ _ Hm).
  - simpl. by apply prefix_app_r.
  - apply (below_prefix _ _ _ (sa_prefix _ _ _ _ _ _ Hat)).
Qed.

(** Both ends of a rekey compute the same base key. *)
Lemma rekey_base gen priv y (b : Priv) x (a : Priv) base sid :
  finalizeKeyNegotiation gen priv None (dh_GeneratePublicKey y) (priv_PublicKey b) = (x, a, base, sid) ->
  base = GenerateE2ESessionBaseKey y (dh_GeneratePublicKey x) b (priv_PublicKey a) /\
  sid = GetSessionIDFromBaseKey base.
Proof.
  unfold finalizeKeyNegotiation. destruct (match priv with Some _ => _ | None => _ end) as [x1 a1].
  intros [= <- <- <- <-]. split; [|done]. unfold GenerateE2ESessionBaseKey. by rewrite dh_agree, sidh_agree.
Qed.

(** [NewReceiveSession] for a session that is there. *)
Lemma receive_duplicate w m gen partnerPub partnerSIDH p l src now l' :
  w_heap w !! l = Some src ->
  sessionByID (m_receive m) !! GetSessionIDFromBaseKey
    (GenerateE2ESessionBaseKey (myPrivKey src) partnerPub (mySIDHPrivKey src) partnerSIDH) = Some l' ->
  manager_NewReceiveSession iter w m gen partnerPub partnerSIDH p l now = Ok (w, m, l', true).
Proof.
  intros Hs Hl. unfold manager_NewReceiveSession, w_deref, relationship_GetByID. rewrite Hs.
  cbn [mbind result_bind]. by rewrite Hl.
Qed.

(** a rekey gives both ends the same session.  The sender makes a send
    session with a new private key and the partner's key of the source session;
    the receiver, given the new public keys, makes a receive session from its
    private keys of the source session.  Both have the same ID and number of
    keys; the receiver has registered every key of the sender and decrypts what
    it encrypts.  A repeated request returns the session already made. *)
Theorem rekey_agrees wA mA lA srcA wB mB lB srcB genA genB priv p now k msg :
  manager_inv wA mA -> w_heap wA !! lA = Some srcA -> length (sID srcA) = 32%nat ->
  manager_inv wB mB -> w_heap wB !! lB = Some srcB -> length (sID srcB) = 32%nat ->
  partnerPubKey srcA = dh_GeneratePublicKey (myPrivKey srcB) ->
  partnerSIDHPubKey srcA = priv_PublicKey (mySIDHPrivKey srcB) ->
  r_fingerprint (m_send mA) = r_fingerprint (m_receive mB) ->
  params_ok p -> params_storable p ->
  let '(x, a, base, sid) := finalizeKeyNegotiation genA priv None (partnerPubKey srcA) (partnerSIDHPubKey srcA) in
  let n := numKeysOf p base + NumRekeys p in
  kv_HasPrefix (r_kv (m_send mA)) (MakeSessionPrefix sid) = false -> sessionByID (m_send mA) !! sid = None ->
  kv_HasPrefix (r_kv (m_receive mB)) (MakeSessionPrefix sid) = false -> sessionByID (m_receive mB) !! sid = None ->
  exists wA' mA' l sA wB' mB' l' sB,
    manager_NewSendSession iter wA mA genA priv p lA now = Ok (wA', mA', l) /\ w_heap wA' !! l = Some sA /\
    negotiationStatus sA = Sending /\ partnerSource sA = sID srcA /\
    manager_NewReceiveSession iter wB mB genB (dh_GeneratePublicKey x) (priv_PublicKey a) p lB now
      = Ok (wB', mB', l', false) /\ manager_inv wB' mB' /\ w_heap wB' !! l' = Some sB /\
    sID sA = sid /\ sID sB = sid /\
    Session_getUnusedKeys sA = Ok (zseq 0 n) /\ Session_getUnusedKeys sB = Ok (zseq 0 n) /\
    (0 <= k < n -> cypher_Fingerprint sA k ∈ w_handler wB') /\
    (let '(contents, mac, residue) := cypher_Encrypt sA k msg in
     cypher_Decrypt sB k contents mac = Ok (msg, residue)) /\
    manager_NewReceiveSession iter wB' mB' genB (dh_GeneratePublicKey x) (priv_PublicKey a) p lB now
      = Ok (wB', mB', l', true).
Proof.
  intros HmA HsA HidA HmB HsB HidB Hpub Hsidh Hfp Hp Hj.
  pose proof (add_session iter wA (m_send mA) genA priv (partnerPubKey srcA) None (partnerSIDHPubKey srcA)
    (sID srcA) Sending p now (mi_send _ _ HmA) (or_introl (mi_send_t _ _ HmA)) Hp Hj
    ltac:(unfold Sending; lia) HidA) as Hadd.
  destruct (finalizeKeyNegotiation genA priv None _ _) as [[[x a] base] sid] eqn:Hfin.
  intros n HpreA HfreshA HpreB HfreshB.
  rewrite Hpub, Hsidh in Hfin. apply rekey_base in Hfin as [Hbase Hsid].
  destruct (Hadd HpreA HfreshA) as (v' & st' & sv & HaddA & HinvA & HatA & _).
  rewrite (mi_send_t _ _ HmA) in *. set (sA := mkSession v' _ _ _ _ _ _ _ _ _ _ _ _ _ sv) in *.
  rewrite Hsid, Hbase in HpreB, HfreshB.
  destruct (new_receive_session wB mB genB (dh_GeneratePublicKey x) (priv_PublicKey a) p lB srcB now HmB HsB HidB
    Hp Hj HpreB HfreshB) as (wB' & r' & sB & HnewB & HmB' & HheapB & HatB & HbyB & HfpB & HsidB & HbB & _ & HhB).
  rewrite <- Hbase in HatB, HsidB, HbB, HhB. rewrite <- Hsid in HsidB. fold n in HatB, HhB.
  destruct (same_keys_decrypt sA sB k msg) as [Hcf Hdec]; [by rewrite HbB| |].
  { by rewrite (sa_fp _ _ _ _ _ _ HatA), (sa_fp _ _ _ _ _ _ HatB), HfpB. }
  pose proof (unused_keys _ _ _ (wf_keys _ _ _ (sa_wf _ _ _ _ _ _ HatA))) as HkA.
  pose proof (unused_keys _ _ _ (wf_keys _ _ _ (sa_wf _ _ _ _ _ _ HatB))) as HkB.
  rewrite unusedKeys_none in HkA, HkB.
  eexists _, _, _, sA, wB', _, _, sB. split; [|split; [|split_and!]]; try done.
  - unfold manager_NewSendSession, w_deref. rewrite HsA. cbn [mbind result_bind]. by rewrite HaddA.
  - exact (sa_heap _ _ _ _ _ _ HatA).
  - exact (sa_heap _ _ _ _ _ _ HatB).
  - intros Hk. rewrite Hcf, HhB. apply elem_of_AddKeys. right. exists k. split; [by apply elem_of_zseq|done].
  - apply (receive_duplicate _ _ _ _ _ _ _ srcB).
    + rewrite HheapB. by apply lookup_app_l_Some.
    + cbn [m_receive m_setReceive]. by rewrite HbyB, <- Hbase, <- Hsid, lookup_insert_eq.
Qed.
End lemmas.

(** ** Deletion *)

(** [absent v st key]: the store has nothing under this key. *)
Definition absent {S} `{EKV S} (v : kv) (st : S) (key : string) : Prop :=
  exists e, kv_Get v st key 0 = inl e /\ ekv_Exists S e = false.

Section deletion.
Context {ID Int Priv Pub : Type} `{NetIDLaws ID} `{SessionCryptoLaws Int Priv Pub} `{RelCryptoLaws ID Int}.
Context {S : Type} `{EKVLaws S} `{!EKVReliable S} `{JsonCodec SessionDisk} `{JsonCodec (list SessionID)}.
Implicit Types (w : world S ID Int Priv Pub) (r : relationship ID) (s : Session ID Int Priv Pub).

Lemma deleteSessions_spec r ls : forall w byID,
  rel_core w (r_setSessions r ls byID) ->
  exists w' byID', deleteSessions w byID ls = Ok (w', byID') /\ loop_effect w w' ls [].
Proof.
  induction ls as [|l ls IH]; intros w byID Hi.
  - exists w, byID. split; [done|apply effect_refl].
  - destruct (ri_at _ _ Hi l ltac:(left)) as (s & n & U & Hat). pose proof (sa_heap _ _ _ _ _ _ Hat) as Hs.
    destruct (core_remove w r [] l ls byID s Hi Hs) as (st1 & keys & Hkeys & Hdel & Hc & Hg & Hpre & Hi1).
    cbn [deleteSessions]. unfold w_deref. rewrite Hs. cbn [mbind result_bind]. rewrite Hdel. cbn [mbind result_bind].
    destruct (IH _ _ Hi1) as (w' & byID' & -> & Heff). exists w', byID'. split; [done|].
    pose proof (ri_nodup _ _ Hi) as Hnd. simpl in Hnd.
    apply (effect_drop w st1 keys w' r l s ls); try done.
    + intros l' Hl'. by apply not_elem_of_nil in Hl'.
    + apply (ri_handle _ _ Hi).
    + intros l' s' Hl' Hs'. destruct (ri_at _ _ Hi l') as (s1 & n1 & U1 & Hat1); [by right|].
      assert (s1 = s') as -> by (pose proof (sa_heap _ _ _ _ _ _ Hat1); congruence).
      split; [apply Hat1|]. intros Hid. apply list.NoDup_cons in Hnd as [Hnd _]. apply Hnd.
      rewrite <- (rel_ids_unique _ _ l' l s' s Hi); try done; [by right|left].
Qed.

(** What is left of a relationship after its deletion. *)
Record deleted w w' r : Prop := {
  de_heap : w_heap w' = w_heap w;
  de_sessions l s : l ∈ sessions r -> w_heap w !! l = Some s -> gone (w_store w') s;
  de_fp : absent (r_kv r) (w_store w') relationshipFingerprintKey;
  de_list : absent (r_kv r) (w_store w') relationshipKey;
  de_frame u key n : kv_handle u -> strContains PrefixSeparator key = false -> 0 <= n < 2 ^ 63 ->
    ~ below (r_kv r) u -> kv_Get u (w_store w') key n = kv_Get u (w_store w) key n;
}.

Lemma delete_key (st : S) v key :
  exists st', kv_Delete v st key 0 = (st', None) /\ absent v st' key.
Proof.
  destruct (kv_Delete v st key 0) as [st' e] eqn:Hdel. exists st'.
  assert (e = None) as -> by (apply (f_equal snd) in Hdel; simpl in Hdel; rewrite <- Hdel; apply ekv_delete_ok).
  split; [done|]. exact (kv_get_delete_eq _ _ _ _ _ Hdel).
Qed.

Lemma deleteRelationship_spec w r v t p :
  rel_inv w r -> RelationshipType_Prefix t = Ok p -> kv_Prefix v p = Ok (r_kv r) ->
  exists w' r', deleteRelationship w v t r = Ok (w', r') /\ deleted w w' r.
Proof.
  intros Hi Hp Hv. pose proof (ri_handle _ _ Hi) as Hh.
  destruct (deleteSessions_spec r (sessions r) w (sessionByID r)) as (w1 & byID' & Hdel & [Hheap Hgone _ Hfr _]).
  { rewrite setSessions_id. apply Hi. }
  destruct (delete_key (w_store w1) (r_kv r) relationshipFingerprintKey) as (st2 & H2' & Habs2).
  destruct (delete_key st2 (r_kv r) relationshipKey) as (st3 & H3' & Habs3).
  assert (confined (prefix (r_kv r)) (w_store w1) st3) as Hc.
  { apply (confined_trans _ _ st2); [by apply (kv_Delete_confined _ _ _ _ _ _ H2')|].
    by apply (kv_Delete_confined _ _ _ _ _ _ H3'). }
  assert (forall l s, l ∈ sessions r -> w_heap w !! l = Some s ->
    kv_Prefix (r_kv r) (MakeSessionPrefix (sID s)) = Ok (ss_kv s)) as Hpre.
  { intros l s Hl Hs. destruct (ri_at _ _ Hi l Hl) as (s0 & n & U & Hat).
    assert (s0 = s) as -> by (pose proof (sa_heap _ _ _ _ _ _ Hat); congruence). apply Hat. }
  exists (w_setStore w1 st3), (r_setSessions r (sessions r) byID'). split.
  { unfold deleteRelationship, relationship_Delete. rewrite Hp. cbn [mbind result_bind]. rewrite Hv.
    cbn [mbind result_bind]. rewrite Hdel. cbn [mbind result_bind].
    unfold deleteRelationshipFingerprint, currentRelationshipVersion. by rewrite H2', H3'. }
  split; simpl; [done| | |done|].
  - intros l s Hl Hs. apply (gone_confined _ _ _ _ (Hgone l s Hl ltac:(by apply not_elem_of_nil) Hs) Hc);
      [by apply (session_handle r); [|eapply Hpre]|]. by apply (kv_Prefix_ne _ _ _ (Hpre l s Hl Hs)).
  - destruct Habs2 as (e & He & Hex). exists e. split; [|done]. etrans; [|exact He].
    apply (kv_get_delete_ne' _ _ _ _ _ _ _ _ _ H3'). intros Heq.
    by apply kv_makeKey_inj in Heq as (_ & Hbad & _).
  - intros u key n Hu Hk Hn Hb. rewrite (Hc u key n), (Hfr u key n); try done.
    + intros l s Hl _ Hs Heq. apply Hb. destruct (below_prefix _ _ _ (Hpre l s Hl Hs)) as [q Hq].
      exists q. by rewrite Heq.
    + intros Heq. apply Hb. destruct (below_refl (r_kv r)) as [q Hq]. exists q. by rewrite Heq.
Qed.

Lemma not_below_other v vs vr u :
  kv_Prefix v "Send" = Ok vs -> kv_Prefix v "Receive" = Ok vr ->
  (below vs u -> ~ below vr u) /\ (below vr u -> ~ below vs u).
Proof.
  intros Hs Hr. split; intros H1' H2'.
  - by apply (directions_apart v vs vr u u Hs Hr).
  - by apply (directions_apart v vs vr u u Hs Hr).
Qed.

Lemma absent_same v (st st' : S) key :
  kv_Get v st' key 0 = kv_Get v st key 0 -> absent v st key -> absent v st' key.
Proof. intros Heq (e & He & Hex). exists e. by rewrite Heq. Qed.

Lemma gone_same (st st' : S) s :
  gone st s ->
  (forall key, strContains PrefixSeparator key = false -> kv_Get (ss_kv s) st' key 0 = kv_Get (ss_kv s) st key 0) ->
  gone st' s.
Proof.
  intros [H1' H2'] Hsame. split.
  - apply (absent_same _ st); [by apply Hsame|exact H1'].
  - apply (absent_same _ st); [by apply Hsame|exact H2'].
Qed.

Lemma session_below w r l s :
  rel_inv w r -> l ∈ sessions r -> w_heap w !! l = Some s ->
  kv_handle (ss_kv s) /\ below (r_kv r) (ss_kv s).
Proof.
  intros Hi Hl Hs. destruct (ri_at _ _ Hi l Hl) as (s0 & n & U & Hat).
  assert (s0 = s) as -> by (pose proof (sa_heap _ _ _ _ _ _ Hat); congruence).
  split; [apply (session_handle r); [apply (ri_handle _ _ Hi)|apply Hat]|].
  apply (below_prefix _ _ _ (sa_prefix _ _ _ _ _ _ Hat)).
Qed.

(** deleting a manager removes every session of both directions, the stored
    lists and fingerprints and the partner's public key, but leaves the user's
    own private key for the partner in the store. *)
Theorem manager_Delete_leaves_private_key w m :
  manager_inv w m ->
  exists w' m', manager_Delete w m = Ok (w', m') /\
    (forall l s, l ∈ sessions (m_send m) \/ l ∈ sessions (m_receive m) -> w_heap w !! l = Some s ->
       gone (w_store w') s) /\
    (forall r, r = m_send m \/ r = m_receive m ->
       absent (r_kv r) (w_store w') relationshipKey /\
       absent (r_kv r) (w_store w') relationshipFingerprintKey) /\
    absent (m_kv m) (w_store w') originPartnerPubKeyKey /\
    LoadCyclicKey (ID:=ID) (w_store w') (m_kv m) originMyPrivKeyKey = Ok (originMyPrivKey m).
Proof.
  intros [Hh HS HR HkS HkR _ _ Hpriv _].
  pose proof (ri_handle _ _ HS) as HhS. pose proof (ri_handle _ _ HR) as HhR.
  destruct (deleteRelationship_spec w (m_send m) (m_kv m) Send "Send" HS eq_refl HkS) as (w1 & rS & H1' & D1).
  assert (rel_inv w1 (m_receive m)) as HR1.
  { apply (rel_frame w); [done|by rewrite (de_heap _ _ _ D1)|].
    intros u key n Hu Hk Hn Hb. apply (de_frame _ _ _ D1); [done..|].
    by apply (not_below_other _ _ _ u HkS HkR). }
  destruct (deleteRelationship_spec w1 (m_receive m) (m_kv m) Receive "Receive" HR1 eq_refl HkR) as (w2 & rR & H2' & D2).
  destruct (delete_key (w_store w2) (m_kv m) originPartnerPubKeyKey) as (st3 & H3' & Habs).
  pose proof (kv_Delete_confined _ _ _ _ _ _ H3' Hh eq_refl ltac:(done)) as Hc.
  exists (w_setStore w2 st3), (m_setReceive (m_setSend m rS) rR). split.
  { unfold manager_Delete, manager_deleteRelationships. rewrite H1'. cbn [mbind result_bind].
    rewrite H2'. cbn [mbind result_bind wrap_err]. unfold DeleteCyclicKey, currentCyclicVersion.
    cbn [m_kv m_setReceive m_setSend]. by rewrite H3'. }
  assert (forall u key, kv_handle u -> strContains PrefixSeparator key = false ->
    below (r_kv (m_send m)) u -> kv_Get u st3 key 0 = kv_Get u (w_store w1) key 0) as HkeepS.
  { intros u key Hu Hk Hb. rewrite (Hc u key 0); [|done..|by apply (below_ne _ _ _ _ HkS)].
    apply (de_frame _ _ _ D2); [done..|]. by apply (not_below_other _ _ _ u HkS HkR). }
  assert (forall u key, kv_handle u -> strContains PrefixSeparator key = false ->
    below (r_kv (m_receive m)) u -> kv_Get u st3 key 0 = kv_Get u (w_store w2) key 0) as HkeepR.
  { intros u key Hu Hk Hb. apply Hc; [done..|by apply (below_ne _ _ _ _ HkR)]. }
  cbn [w_store w_setStore]. split_and!; [| |done|].
  - intros l s Hl Hs. destruct Hl as [Hl|Hl].
    + destruct (session_below w (m_send m) l s HS Hl Hs) as [Hhs Hb].
      apply (gone_same (w_store w1)); [by apply (de_sessions _ _ _ D1 l)|]. intros key Hk. by apply HkeepS.
    + destruct (session_below w (m_receive m) l s HR Hl Hs) as [Hhs Hb].
      apply (gone_same (w_store w2)); [apply (de_sessions _ _ _ D2 l); [done|by rewrite (de_heap _ _ _ D1)]|].
      intros key Hk. by apply HkeepR.
  - intros r [->| ->]; (split; [|]).
    + apply (absent_same _ (w_store w1)); [|apply D1]. apply HkeepS; [done..|apply below_refl].
    + apply (absent_same _ (w_store w1)); [|apply D1]. apply HkeepS; [done..|apply below_refl].
    + apply (absent_same _ (w_store w2)); [|apply D2]. apply HkeepR; [done..|apply below_refl].
    + apply (absent_same _ (w_store w2)); [|apply D2]. apply HkeepR; [done..|apply below_refl].
  - unfold LoadCyclicKey, currentCyclicVersion in *.
    assert (kv_Get (m_kv m) st3 originMyPrivKeyKey 0 = kv_Get (m_kv m) (w_store w) originMyPrivKeyKey 0) as ->; [|done].
    rewrite (kv_get_delete_ne' _ _ _ _ _ _ _ _ _ H3').
    + rewrite (de_frame _ _ _ D2), (de_frame _ _ _ D1); try done;
        eapply not_below_parent; eassumption.
    + intros Heq. by apply kv_makeKey_inj in Heq as (_ & Hbad & _).
Qed.
End deletion.

(** ** Restarts *)

Section loading.
Context {ID Int Priv Pub : Type} `{NetIDLaws ID} `{SessionCryptoLaws Int Priv Pub} `{RelCryptoLaws ID Int}.
Context {S : Type} `{EKVLaws S} `{!EKVReliable S} `{JsonCodec SessionDisk} `{JsonCodec (list SessionID)} `{!IDsJson}.
Implicit Types (w : world S ID Int Priv Pub).

(** a restart restores a manager: its keys, the fingerprints and the
    sessions of both directions. *)
Theorem LoadManager_restores w m v w1 :
  manager_inv w m -> kv_Prefix v (makeManagerPrefix (m_partner m)) = Ok (m_kv m) ->
  w_store w1 = w_store w ->
  exists w' m', LoadManager w1 v (m_myID m) (m_partner m) = Ok (w', m') /\ manager_inv w' m' /\
    w_store w' = w_store w /\
    originMyPrivKey m' = originMyPrivKey m /\ originPartnerPubKey m' = originPartnerPubKey m /\
    manager_ConnectionFingerprint m' = manager_ConnectionFingerprint m /\
    rel_ids w' (sessions (m_send m')) ≡ₚ rel_ids w (sessions (m_send m)) /\
    rel_ids w' (sessions (m_receive m')) ≡ₚ rel_ids w (sessions (m_receive m)).
Proof.
  intros [Hh HS HR HkS HkR HtS HtR Hpriv Hpub] Hv Hst.
  destruct (load_relationship w (m_send m) (m_kv m) "Send" w1 (m_myID m) (m_partner m) HS
    ltac:(rewrite HtS; reflexivity) HkS Hst)
    as (w2 & rS & _ & _ & Hl2 & HS2 & Hst2 & _ & HfS & HkS2 & HtS2 & _ & _ & HpS & _).
  destruct (load_relationship w (m_receive m) (m_kv m) "Receive" w2 (m_myID m) (m_partner m) HR
    ltac:(rewrite HtR; reflexivity) HkR Hst2)
    as (w3 & rR & _ & _ & Hl3 & HR3 & Hst3 & Hpre3 & HfR & HkR2 & HtR2 & _ & _ & HpR & _).
  rewrite HtS in Hl2. rewrite HtR in Hl3.
  assert (rel_inv w3 rS) as HS3 by (apply (rel_frame w2); [done..|]; intros; by rewrite Hst3, Hst2).
  exists w3, (mkManager (m_kv m) (m_myID m) (m_partner m) (originMyPrivKey m) (originPartnerPubKey m) None None rR rS).
  split.
  { unfold LoadManager. rewrite Hv. cbn [mbind result_bind]. rewrite Hst, Hpriv. cbn [must mbind result_bind].
    rewrite Hpub. cbn [must mbind result_bind]. rewrite Hl2. cbn [wrap_err mbind result_bind]. by rewrite Hl3. }
  split; [split; simpl; rewrite ?HkS2, ?HkR2, ?HtS2, ?HtR2, ?Hst3; done|].
  unfold manager_ConnectionFingerprint. cbn [m_send m_receive originMyPrivKey originPartnerPubKey].
  rewrite HfS, HfR. split_and!; try done. etrans; [|exact HpS].
  rewrite (rel_ids_ext w2 w3); [done|]. intros l Hl.
  destruct (ri_at _ _ HS2 l Hl) as (s & n & U & Hat). rewrite (sa_heap _ _ _ _ _ _ Hat).
  apply (prefix_lookup_Some _ _ _ _ (sa_heap _ _ _ _ _ _ Hat) Hpre3).
Qed.
End loading.

(** ** Witnesses *)

Import SessionExample RelationshipExample.

(** Two ends of a key exchange in empty stores. *)
Definition ex_mA : result (world MemStore Z Z Z Z * manager Z Z Z Z) :=
  NewManager ex_iter ex_world (fun _ => (0, 0)) NewKV 1 7 (3, 5) 8 6 ex_params ex_params 0.
Definition ex_wA : world MemStore Z Z Z Z := match ex_mA with Ok (w, _) => w | _ => ex_world end.
Definition ex_A : manager Z Z Z Z :=
  match ex_mA with Ok (_, m) => m | _ => mkManager NewKV 0 0 0 0 None None ex_r ex_r end.

Definition ex_vm : kv :=
  match kv_Prefix NewKV (makeManagerPrefix 7) with Ok v => v | _ => NewKV end.

Lemma ex_vm_ok :
  kv_Prefix NewKV (makeManagerPrefix 7) = Ok ex_vm /\ kv_HasPrefix ex_vm "Send" = false /\
  kv_HasPrefix ex_vm "Receive" = false /\ kv_HasPrefix ex_vm (MakeSessionPrefix ex_sid) = false.
Proof. split_and!; by vm_compute. Qed.

Lemma ex_ok_inj (a b : list byte) : Ok a = Ok b -> b = a.
Proof. congruence. Qed.

Lemma ex_manager :
  manager_inv ex_wA ex_A /\ m_kv ex_A = ex_vm /\ m_partner ex_A = 7 /\
  r_fingerprint (m_send ex_A) = MakeRelationshipFingerprint (6 : Z) (8 : Z) (1 : Z) (7 : Z) /\
  exists sS sR, w_heap ex_wA = [sS; sR] /\ made_from sS (3, 5) 8 6 /\
    sID sS = ex_sid /\ sessions (m_send ex_A) = [0%nat].
Proof.
  destruct ex_vm_ok as (Hv & HfS & HfR & Hfs).
  destruct (new_manager_spec ex_iter ex_world (fun _ => (0, 0)) NewKV ex_vm 1 7 (3, 5) 8 6 ex_params ex_params 0
    handle_new Hv HfS HfR ex_params_ok (ex_storable _) ex_params_ok (ex_storable _) Hfs)
    as (w & m & sS & sR & Hnew & Hinv & Hkv & HmS & HmR & _ & Hp & HsS & HsR & Hheap & _ & _ & _ & _ & HidS & HidR & _ & _ & HfpS & _).
  unfold ex_wA, ex_A, ex_mA. rewrite Hnew.
  split; [exact Hinv|]. split; [exact Hkv|]. split; [exact Hp|]. split; [exact (ex_ok_inj _ _ HfpS)|].
  exists sS, sR. split; [exact Hheap|]. split; [exact HmS|]. split; [exact HidS|exact HsS].
Qed.

(** The other end. *)
Definition ex_mB : result (world MemStore Z Z Z Z * manager Z Z Z Z) :=
  NewManager ex_iter ex_world (fun _ => (0, 0)) NewKV 7 1 (4, 2) 6 15 ex_params ex_params 0.
Definition ex_wB : world MemStore Z Z Z Z := match ex_mB with Ok (w, _) => w | _ => ex_world end.
Definition ex_B : manager Z Z Z Z :=
  match ex_mB with Ok (_, m) => m | _ => mkManager NewKV 0 0 0 0 None None ex_r ex_r end.
Definition ex_vmB : kv :=
  match kv_Prefix NewKV (makeManagerPrefix 1) with Ok v => v | _ => NewKV end.

Lemma ex_vmB_ok :
  kv_Prefix NewKV (makeManagerPrefix 1) = Ok ex_vmB /\ kv_HasPrefix ex_vmB "Send" = false /\
  kv_HasPrefix ex_vmB "Receive" = false /\ kv_HasPrefix ex_vmB (MakeSessionPrefix ex_sid) = false.
Proof. split_and!; by vm_compute. Qed.

Lemma ex_managerB :
  manager_inv ex_wB ex_B /\ m_kv ex_B = ex_vmB /\
  r_fingerprint (m_receive ex_B) = MakeRelationshipFingerprint (8 : Z) (6 : Z) (1 : Z) (7 : Z) /\
  exists sS sR, w_heap ex_wB = [sS; sR] /\ made_from sR (4, 2) 6 15 /\
    sID sR = ex_sid /\ sessions (m_receive ex_B) = [1%nat].
Proof.
  destruct ex_vmB_ok as (Hv & HfS & HfR & Hfs).
  destruct (new_manager_spec ex_iter ex_world (fun _ => (0, 0)) NewKV ex_vmB 7 1 (4, 2) 6 15 ex_params ex_params 0
    handle_new Hv HfS HfR ex_params_ok (ex_storable _) ex_params_ok (ex_storable _) Hfs)
    as (w & m & sS & sR & Hnew & Hinv & Hkv & HmS & HmR & _ & Hp & HsS & HsR & Hheap & _ & _ & _ & _ & HidS & HidR & _ & _ & _ & HfpR).
  unfold ex_wB, ex_B, ex_mB. rewrite Hnew.
  split; [exact Hinv|]. split; [exact Hkv|]. split; [exact (ex_ok_inj _ _ HfpR)|].
  exists sS, sR. split; [exact Hheap|]. split; [exact HmR|]. split; [exact HidR|exact HsR].
Qed.

#[local] Opaque ex_wA ex_A ex_wB ex_B.

(** Three keys, one of them for a rekey: each is registered at the other end. *)
Lemma managers_exchange_witness :
  exists wA1 mA wB1 mB wA2 l sA,
    NewManager ex_iter ex_world (fun _ => (0, 0)) NewKV 1 7 (3, 5) 8 6 ex_params ex_params 0 = Ok (wA1, mA) /\
    NewManager ex_iter ex_world (fun _ => (0, 0)) NewKV 7 1 (4, 2) 6 15 ex_params ex_params 0 = Ok (wB1, mB) /\
    keyRun wA1 mA [(false, 5); (true, 6); (false, 7)]
      = Ok (wA2, [Some (l, 0); Some (l, 1); Some (l, 2)]) /\ w_heap wA2 !! l = Some sA /\
    cypher_Fingerprint sA 0 ∈ w_handler wB1 /\ cypher_Fingerprint sA 1 ∈ w_handler wB1 /\
    cypher_Fingerprint sA 2 ∈ w_handler wB1.
Proof.
  destruct ex_vm_ok as (HvA & HA1 & HA2 & HA3). destruct ex_vmB_ok as (HvB & HB1 & HB2 & HB3).
  destruct (managers_exchange ex_iter ex_world ex_world (fun _ => (0, 0)) (fun _ => (0, 0)) NewKV NewKV ex_vm ex_vmB
    1 7 (3 : Z) 4 5 2 ex_params ex_params 0 [(false, 5); (true, 6); (false, 7)] handle_new HvA handle_new HvB)
    as (wA1 & mA & wB1 & mB & HnA & HnB & _ & wA2 & l & sA & lB & sB & Hpop & Hs & _ & _ & Hall).
  - intros p Hp. change (p ∈ ["Send"; "Receive"; MakeSessionPrefix ex_sid]) in Hp.
    rewrite !elem_of_cons in Hp. destruct Hp as [->|[->|[->|Hp]]]; [done..|]. by apply not_elem_of_nil in Hp.
  - exact ex_params_ok.
  - exact (ex_storable _).
  - exact ex_params_ok.
  - exact (ex_storable _).
  - cbn zeta in Hpop, Hall. change (numKeysOf ex_params _ + NumRekeys ex_params) with ex_n in Hpop, Hall.
    rewrite ex_n_12 in Hpop, Hall.
    exists wA1, mA, wB1, mB, wA2, l, sA. split; [exact HnA|]. split; [exact HnB|].
    split; [exact Hpop|]. split; [exact Hs|].
    split; [apply (Hall 0 []); left|]. split; [apply (Hall 1 []); right; left|apply (Hall 2 []); right; right; left].
Defined.

Lemma manager_Delete_leaves_private_key_witness :
  exists w' m', manager_Delete ex_wA ex_A = Ok (w', m') /\
    LoadCyclicKey (ID:=Z) (w_store w') (m_kv ex_A) originMyPrivKeyKey = Ok (originMyPrivKey ex_A).
Proof.
  destruct (manager_Delete_leaves_private_key ex_wA ex_A (proj1 ex_manager)) as (w' & m' & Hdel & _ & _ & _ & Hk).
  exists w', m'. split; [exact Hdel|exact Hk].
Defined.

Lemma LoadManager_restores_witness :
  exists w' m', LoadManager (mkWorld (w_store ex_wA) ∅ []) NewKV (m_myID ex_A) (m_partner ex_A) = Ok (w', m') /\
    manager_inv w' m'.
Proof.
  destruct ex_manager as (Hinv & Hkv & Hp & _).
  destruct (LoadManager_restores ex_wA ex_A NewKV (mkWorld (w_store ex_wA) ∅ []) Hinv
    ltac:(rewrite Hp, Hkv; exact (proj1 ex_vm_ok)) eq_refl) as (w' & m' & Hl & Hi & _).
  exists w', m'. split; [exact Hl|exact Hi].
Defined.

Definition ex_sid3 : SessionID :=
  GetSessionIDFromBaseKey (GenerateE2ESessionBaseKey (11 : Z) (8 : Z) (13 : Z) (6 : Z)).

Lemma ex_sid3_new :
  ex_sid3 ≠ ex_sid /\ kv_HasPrefix ex_vm (MakeSessionPrefix ex_sid3) = false /\
  kv_HasPrefix ex_vmB (MakeSessionPrefix ex_sid3) = false.
Proof. split_and!; [|by vm_compute|by vm_compute]. intros Heq. vm_compute in Heq. discriminate Heq. Qed.

Lemma ex_only (w : world MemStore Z Z Z Z) (r : relationship Z) l s sid :
  rel_inv w r -> sessions r = [l] -> w_heap w !! l = Some s -> sID s ≠ sid -> sessionByID r !! sid = None.
Proof.
  intros Hi Hs Hl Hne. destruct (sessionByID r !! sid) as [l'|] eqn:E; [|done].
  apply (ri_byID _ _ Hi) in E as [Hin (s' & Hs' & Hid)]. rewrite Hs in Hin.
  apply list_elem_of_singleton in Hin as ->. congruence.
Qed.

Lemma rekey_agrees_witness :
  exists wA' mA' l sA wB' mB' l' sB,
    manager_NewSendSession ex_iter ex_wA ex_A (fun _ => (0, 0)) (Some (11, 13)) ex_params 0 3 = Ok (wA', mA', l) /\
    w_heap wA' !! l = Some sA /\
    manager_NewReceiveSession ex_iter ex_wB ex_B (fun _ => (0, 0)) 22 39 ex_params 1 3 = Ok (wB', mB', l', false) /\
    w_heap wB' !! l' = Some sB /\ sID sA = sID sB.
Proof.
  destruct ex_manager as (HA & HkA & _ & HfA & sA & sA0 & HhA & (HpA & HpubA & HsidhA & HlenA) & HidA & HsA).
  destruct ex_managerB as (HB & HkB & HfB & sB0 & sB & HhB & (HpB & HpubB & HsidhB & HlenB) & HidB & HsB).
  injection HpB as HyB HbB. destruct ex_sid3_new as (Hne & HnA & HnB).
  destruct (rekey_agrees ex_iter ex_wA ex_A 0 sA ex_wB ex_B 1 sB (fun _ => (0, 0)) (fun _ => (0, 0)) (Some (11, 13))
    ex_params 3 0 [] HA ltac:(rewrite HhA; reflexivity) HlenA HB ltac:(rewrite HhB; reflexivity) HlenB) as
    (wA' & mA' & l & sA' & wB' & mB' & l' & sB' & H1' & H2' & _ & _ & H3' & _ & H4' & H5' & H6' & _).
  - rewrite HpubA, HyB. reflexivity.
  - rewrite HsidhA, HbB. reflexivity.
  - rewrite HfA, HfB. apply relFp_sym.
  - exact ex_params_ok.
  - exact (ex_storable _).
  - rewrite HpubA, HsidhA. apply (session_prefix_fresh ex_vm Send "Send"); [reflexivity| |exact HnA].
    rewrite <- HkA. exact (mi_send_kv _ _ HA).
  - rewrite HpubA, HsidhA. apply (ex_only ex_wA _ 0 sA); [exact (mi_send _ _ HA)|exact HsA|by rewrite HhA|].
    rewrite HidA. by apply not_eq_sym.
  - rewrite HpubA, HsidhA. apply (session_prefix_fresh ex_vmB Receive "Receive"); [reflexivity| |exact HnB].
    rewrite <- HkB. exact (mi_receive_kv _ _ HB).
  - rewrite HpubA, HsidhA. apply (ex_only ex_wB _ 1 sB); [exact (mi_receive _ _ HB)|exact HsB|by rewrite HhB|].
    rewrite HidB. by apply not_eq_sym.
  - exists wA', mA', l, sA', wB', mB', l', sB'. rewrite H5', H6'. split; [exact H1'|]. split; [exact H2'|].
    split; [exact H3'|]. split; [exact H4'|reflexivity].
Defined.
