(* ===== verification/Effects.v ===== *)
(** * State, errors and panics

    A small monad for code that changes a store or an object in place, can
    return an error after having changed part of it, and can panic: the state
    reached is kept with the error, as the program keeps it. *)

From S2P Require Import Prelude.

Inductive outcome (S A : Type) :=
| Done (s : S) (a : A)
| Fail (s : S) (e : error)
| Crash.
Arguments Done {S A} s a.
Arguments Fail {S A} s e.
Arguments Crash {S A}.

Definition act (S A : Type) : Type := S -> outcome S A.

#[export] Instance act_ret {S} : MRet (act S) := fun A a s => Done s a.
#[export] Instance act_bind {S} : MBind (act S) := fun A B f m s =>
  match m s with
  | Done s a => f a s
  | Fail s e => Fail s e
  | Crash => Crash
  end.

Definition throw {S A} (e : error) : act S A := fun s => Fail s e.
Definition crash {S A} : act S A := fun _ => Crash.
Definition gets {S A} (f : S -> A) : act S A := fun s => Done s (f s).
Definition modify {S} (f : S -> S) : act S unit := fun s => Done (f s) tt.

(** A computation that reads no state. *)
Definition pureResult {S A} (r : result A) : act S A := fun s =>
  match r with
  | Ok a => Done s a
  | Err e => Fail s e
  | Panic => Crash
  end.

(** A write to storage. *)
Definition write {S} (f : S -> S * option error) : act S unit := fun s =>
  match f s with
  | (s, None) => Done s tt
  | (s, Some e) => Fail s e
  end.

(** A read from storage. *)
Definition read {S A} (f : S -> error + A) : act S A := fun s =>
  match f s with
  | inr a => Done s a
  | inl e => Fail s e
  end.

(** A computation that reads the state only. *)
Definition reading {S A} (f : S -> result A) : act S A := fun s => pureResult (f s) s.

(** [errors.Errorf(fmt, err)] around a call. *)
Definition annotate {S A} (fmt : string) (args : list Z) (m : act S A) : act S A := fun s =>
  match m s with
  | Fail s e => Fail s (Wrapf fmt args e)
  | o => o
  end.

(** The error of a call is only logged. *)
Definition logged {S} (m : act S unit) : act S unit := fun s =>
  match m s with
  | Fail s _ => Done s tt
  | o => o
  end.

(** A call on a part of the state. *)
Definition zoom {T S A} (get : T -> S) (set : S -> T -> T) (m : act S A) : act T A := fun t =>
  match m (get t) with
  | Done s a => Done (set s t) a
  | Fail s e => Fail (set s t) e
  | Crash => Crash
  end.

(** The store of a pair of a store and an object. *)
Definition onStore {S R A} (m : act S A) : act (S * R) A := zoom fst (fun s t => (s, snd t)) m.

Definition outcome_state {S A} (o : outcome S A) : option S :=
  match o with
  | Done s _ | Fail s _ => Some s
  | Crash => None
  end.

(** ** Running a sequence *)

Lemma bind_Done {S A B} (m : act S A) (f : A -> act S B) s s' a :
  m s = Done s' a -> mbind f m s = f a s'.
Proof. intros Hm. unfold mbind, act_bind. by rewrite Hm. Qed.

Lemma bind_Fail {S A B} (m : act S A) (f : A -> act S B) s s' e :
  m s = Fail s' e -> mbind f m s = Fail s' e.
Proof. intros Hm. unfold mbind, act_bind. by rewrite Hm. Qed.

Lemma bind_Crash {S A B} (m : act S A) (f : A -> act S B) s :
  m s = Crash -> mbind f m s = Crash.
Proof. intros Hm. unfold mbind, act_bind. by rewrite Hm. Qed.

Lemma annotate_Done {S A} fmt args (m : act S A) s s' a :
  m s = Done s' a -> annotate fmt args m s = Done s' a.
Proof. intros Hm. unfold annotate. by rewrite Hm. Qed.

Lemma annotate_Fail {S A} fmt args (m : act S A) s s' e :
  m s = Fail s' e -> annotate fmt args m s = Fail s' (Wrapf fmt args e).
Proof. intros Hm. unfold annotate. by rewrite Hm. Qed.

Lemma logged_Done {S} (m : act S unit) s s' u : m s = Done s' u -> logged m s = Done s' u.
Proof. intros Hm. unfold logged. by rewrite Hm. Qed.

Lemma zoom_Done {T S A} (get : T -> S) set (m : act S A) t s a :
  m (get t) = Done s a -> zoom get set m t = Done (set s t) a.
Proof. intros Hm. unfold zoom. by rewrite Hm. Qed.

Lemma onStore_Done {S R A} (m : act S A) s s' (r : R) a :
  m s = Done s' a -> onStore m (s, r) = Done (s', r) a.
Proof. intros Hm. unfold onStore. by erewrite zoom_Done by exact Hm. Qed.

Lemma write_Done {S} (f : S -> S * option error) s s' : f s = (s', None) -> write f s = Done s' tt.
Proof. intros Hf. unfold write. by rewrite Hf. Qed.

Lemma read_Done {S A} (f : S -> error + A) s a : f s = inr a -> read f s = Done s a.
Proof. intros Hf. unfold read. by rewrite Hf. Qed.

Lemma pureResult_Done {S A} (r : result A) (s : S) a : r = Ok a -> pureResult r s = Done s a.
Proof. by intros ->. Qed.

Lemma bind_Done_inv {S A B} (m : act S A) (f : A -> act S B) s s' b :
  mbind f m s = Done s' b -> exists s1 a, m s = Done s1 a /\ f a s1 = Done s' b.
Proof. unfold mbind, act_bind. destruct (m s) as [s1 a|s1 e|]; [eauto|done|done]. Qed.

(** ** Computations that leave the state as it is *)

Definition readonly {S A} (m : act S A) : Prop :=
  forall s, match m s with Done s' _ | Fail s' _ => s' = s | Crash => True end.

Lemma readonly_bind {S A B} (m : act S A) (f : A -> act S B) :
  readonly m -> (forall a, readonly (f a)) -> readonly (mbind f m).
Proof.
  intros Hm Hf s. unfold mbind, act_bind. specialize (Hm s).
  destruct (m s) as [s' a|s' e|]; [subst s'; apply Hf|done|done].
Qed.

Lemma readonly_annotate {S A} fmt args (m : act S A) : readonly m -> readonly (annotate fmt args m).
Proof. intros Hm s. unfold annotate. specialize (Hm s). by destruct (m s). Qed.

Lemma readonly_read {S A} (f : S -> error + A) : readonly (read f).
Proof. intros s. unfold read. by destruct (f s). Qed.

Lemma readonly_pure {S A} (r : result A) : readonly (S := S) (pureResult r).
Proof. intros s. by destruct r. Qed.

Lemma readonly_ret {S A} (a : A) : readonly (S := S) (mret a).
Proof. by intros s. Qed.

Lemma readonly_reading {S A} (f : S -> result A) : readonly (reading f).
Proof. intros s. unfold reading. apply readonly_pure. Qed.

Create HintDb effects.
#[export] Hint Resolve readonly_bind readonly_annotate readonly_read readonly_pure readonly_ret
  readonly_reading : effects.

(** Runs the next call of a sequence by an equation of the context. *)
Ltac act_step := erewrite bind_Done by
  (first [ eassumption
         | apply annotate_Done; eassumption
         | apply read_Done; eassumption
         | apply write_Done; eassumption
         | apply annotate_Done, read_Done; eassumption
         | apply annotate_Done, write_Done; eassumption
         | apply pureResult_Done; eassumption
         | apply annotate_Done, pureResult_Done; eassumption ]).
