(* ===== verification/Halting.v ===== *)
(** * A store in a program that stops

    A program can stop between two writes of one operation.  [halting S] is the
    store [S] as such a program sees it: after a number of writes and deletions
    nothing reaches the store any more.  [stoppedAfter n m] runs a whole
    operation on it and gives the store that is left for the next start. *)

From S2P Require Import Prelude GoBytes KV Effects.

Record halting (S : Type) := mkHalting {
  writesLeft : nat;
  haltStore : S;
}.
Arguments mkHalting {S}.
Arguments writesLeft {S}.
Arguments haltStore {S}.

Section halting.
Context {S : Type} `{EKV S}.

(** One write, if the program still runs. *)
Definition halted (f : S -> S * option error) (h : halting S) : halting S * option error :=
  match writesLeft h with
  | O => (h, None)
  | Datatypes.S n => let '(s, r) := f (haltStore h) in (mkHalting n s, r)
  end.

#[export] Instance halting_EKV : EKV (halting S) := {
  ekv_Get h k := ekv_Get (haltStore h) k;
  ekv_Set h k o := halted (fun s => ekv_Set s k o) h;
  ekv_Delete h k := halted (fun s => ekv_Delete s k) h;
  ekv_Exists e := ekv_Exists S e;
}.

(** The store when the program stops after [n] writes of [m], or at its end if
    that comes first. *)
Definition stoppedAfter {R A} (n : nat) (m : act (halting S * R) A) (s : S) (r : R) : option S :=
  haltStore ∘ fst <$> outcome_state (m (mkHalting n s, r)).

Lemma halt_Set n (s s' : S) v key o r :
  kv_Set v s key o = (s', r) -> kv_Set v (mkHalting (Datatypes.S n) s) key o = (mkHalting n s', r).
Proof. unfold kv_Set. simpl. unfold halted. simpl. by intros ->. Qed.

Lemma halt_Delete n (s s' : S) v key k r :
  kv_Delete v s key k = (s', r) -> kv_Delete v (mkHalting (Datatypes.S n) s) key k = (mkHalting n s', r).
Proof. unfold kv_Delete. simpl. unfold halted. simpl. by intros ->. Qed.

Lemma halt_Set_stopped (s : S) v key o : kv_Set v (mkHalting 0 s) key o = (mkHalting 0 s, None).
Proof. done. Qed.

Lemma halt_Delete_stopped (s : S) v key k : kv_Delete v (mkHalting 0 s) key k = (mkHalting 0 s, None).
Proof. done. Qed.
End halting.
