(* ===== verification/Bucket.v ===== *)
(** * Stored rate limits

    [storage/utility/bucket.go] and [bucketParams.go]: the fill of a leaky bucket
    and the parameters of the buckets, kept in storage.  The bucket itself is
    that of the package [rateLimiting], outside this repository: the class
    [RateLimiting]. *)

From S2P Require Import Prelude GoBytes KV Json Effects.

(** Capacity, leaked tokens, leak duration; the second constructor also takes
    the fill and its time. *)
Class RateLimiting (Bucket : Type) := {
  CreateBucket : Z -> Z -> Z -> Bucket;
  CreateBucketFromDB : Z -> Z -> Z -> Z -> Z -> Bucket;
}.

Definition bucketStorePrefix : string := "bucketStore".
Definition bucketStoreKey : string := "bucketStoreKey".
Definition bucketStoreVersion : Z := 0.

Record bucketDisk := mkBucketDisk {
  bd_capacity : Z;                          (* uint32 *)
  bd_timestamp : Z;                         (* int64 *)
}.

(** The fields of the struct are not exported, so [encoding/json] neither writes
    nor reads them. *)
Definition bucketDisk_MarshalJSON (bd : bucketDisk) : list byte := marshalText (JObj []).
Definition bucketDisk_UnmarshalJSON (bd : bucketDisk) (data : list byte) : result bucketDisk :=
  match unmarshalText data with
  | Some v =>
      match decodeStruct (fun _ _ bd => Some bd) bd v with
      | Some bd => Ok bd
      | None => Err (Errorf "json: cannot unmarshal into bucketDisk" [])
      end
  | None => Err (Errorf "invalid JSON" [])
  end.

Section bucket.
Context {S Bucket : Type} `{EKV S} `{RateLimiting Bucket}.

(** A [BucketStore] is its handle.  Errors are logged. *)
Definition BucketStore_save (bs : kv) (inBucket timestamp : Z) (now : Time) : act S unit :=
  let data := bucketDisk_MarshalJSON (mkBucketDisk inBucket timestamp) in
  logged (write (fun s => kv_Set bs s bucketStoreKey (mkObject bucketStoreVersion now data))).

Definition BucketStore_load (bs : kv) : act S (Z * Z) :=
  vo ← read (fun s => kv_Get bs s bucketStoreKey bucketStoreVersion);
  bd ← pureResult (bucketDisk_UnmarshalJSON (mkBucketDisk 0 0) (Data vo));
  mret (bd_capacity bd, bd_timestamp bd).

(** The bucket and the store it saves its changes with. *)
Definition NewStoredBucket (capacity leaked leakDuration : Z) (v : kv) (now : Time) : act S (Bucket * kv) :=
  match kv_Prefix v bucketStorePrefix with
  | Ok bs =>
      _ ← BucketStore_save bs 0 (UnixNano now) now;
      mret (CreateBucket capacity leaked leakDuration, bs)
  | _ => crash
  end.

Definition LoadBucket (capacity leaked leakDuration : Z) (v : kv) : act S (Bucket * kv) :=
  match kv_Prefix v bucketStorePrefix with
  | Ok bs =>
      '(inBucket, ts) ← BucketStore_load bs;
      mret (CreateBucketFromDB capacity leaked leakDuration inBucket ts, bs)
  | _ => crash
  end.
End bucket.

(** ** Parameters *)

Definition bucketParamsPrefix : string := "bucketParamPrefix".
Definition bucketParamsKey : string := "bucketParamKey".
Definition bucketParamsVersion : Z := 0.

Record MapParams := mkMapParams {
  mp_Capacity : Z;                          (* uint32 *)
  mp_LeakedTokens : Z;                      (* uint32 *)
  mp_LeakDuration : Z;                      (* time.Duration *)
}.

Record BucketParamStore := mkBucketParamStore {
  bps_params : MapParams;
  bps_kv : kv;
}.

Definition BucketParamStore_marshal (s : BucketParamStore) : list byte :=
  let p := bps_params s in
  le_encode 4 (mp_Capacity p) ++ le_encode 4 (mp_LeakedTokens p) ++ le_encode 8 (u64 (mp_LeakDuration p)).

(** The duration is eight bytes, of which [Uint32] reads four. *)
Definition unmarshalBucketParams (b : list byte) : result MapParams :=
  capacity ← get_le 4 (take 4 b);
  leakedTokens ← get_le 4 (take 4 (drop 4 b));
  leakDuration ← get_le 4 (take 8 (drop 8 b));
  Ok (mkMapParams capacity leakedTokens leakDuration).

Section params.
Context {S : Type} `{EKV S}.

Definition BucketParamStore_save (now : Time) : act (S * BucketParamStore) unit := fun '(s, bps) =>
  onStore (write (fun s => kv_Set (bps_kv bps) s bucketParamsKey
    (mkObject bucketParamsVersion now (BucketParamStore_marshal bps)))) (s, bps).

Definition BucketParamStore_load : act (S * BucketParamStore) unit := fun '(s, bps) =>
  match kv_Get (bps_kv bps) s bucketParamsKey bucketParamsVersion with
  | inl e => Fail (s, bps) (Wrapf "Failed to load from KV: %s" [] e)
  | inr vo =>
      match unmarshalBucketParams (Data vo) with
      | Ok p => Done (s, mkBucketParamStore p (bps_kv bps)) tt
      | Err e => Fail (s, bps) e
      | Panic => Crash
      end
  end.

(** The object is returned next to the error of saving or loading it. *)
Definition NewBucketParamsStore (capacity leakedTokens leakDuration : Z) (v : kv) (now : Time) (s : S) :
    outcome (S * BucketParamStore) unit :=
  match kv_Prefix v bucketParamsPrefix with
  | Ok v => BucketParamStore_save now (s, mkBucketParamStore (mkMapParams capacity leakedTokens leakDuration) v)
  | _ => Crash
  end.

Definition LoadBucketParamsStore (v : kv) (s : S) : outcome (S * BucketParamStore) unit :=
  match kv_Prefix v bucketParamsPrefix with
  | Ok v => BucketParamStore_load (s, mkBucketParamStore (mkMapParams 0 0 0) v)
  | _ => Crash
  end.

Definition BucketParamStore_UpdateParams (capacity leakedTokens leakDuration : Z) (now : Time) :
    act (S * BucketParamStore) unit :=
  _ ← modify (fun '(s, bps) => (s, mkBucketParamStore (mkMapParams capacity leakedTokens leakDuration) (bps_kv bps)));
  BucketParamStore_save now.
End params.
Definition BucketParamStore_Get (s : BucketParamStore) : MapParams := bps_params s.

(** ** What a restart finds *)

Section restart.
Context {S Bucket : Type} `{EKVLaws S, !EKVReliable S} `{RateLimiting Bucket}.

Lemma bucket_write_Done v (s : S) key (o : Object) :
  exists s', write (fun s => kv_Set v s key o) s = Done s' tt /\ kv_Get v s' key (Version o) = inr o.
Proof.
  destruct (kv_Set v s key o) as [s' r] eqn:E. assert (r = None) as -> by (pose proof (ekv_set_ok s (kv_makeKey v key (Version o)) o) as Hr;
    unfold kv_Set in E; by rewrite E in Hr).
  exists s'. split; [by apply write_Done|by apply kv_get_set_eq in E].
Qed.

Lemma BucketStore_save_ok bs inBucket ts now (s : S) :
  exists s', BucketStore_save bs inBucket ts now s = Done s' tt /\
    kv_Get bs s' bucketStoreKey bucketStoreVersion = inr (mkObject bucketStoreVersion now (marshalText (JObj []))).
Proof.
  destruct (bucket_write_Done bs s bucketStoreKey (mkObject bucketStoreVersion now (marshalText (JObj []))))
    as (s' & Hw & Hg). exists s'. split; [|exact Hg]. unfold BucketStore_save. by apply logged_Done.
Qed.

(** The saves of a bucket, one after the other. *)
Fixpoint saves (bs : kv) (l : list (Z * Z * Time)) : act S unit :=
  match l with
  | [] => mret tt
  | (inBucket, ts, now) :: l => _ ← BucketStore_save bs inBucket ts now; saves bs l
  end.

Lemma saves_ok bs l (s : S) now :
  kv_Get bs s bucketStoreKey bucketStoreVersion = inr (mkObject bucketStoreVersion now (marshalText (JObj []))) ->
  exists s' now', saves bs l s = Done s' tt /\
    kv_Get bs s' bucketStoreKey bucketStoreVersion = inr (mkObject bucketStoreVersion now' (marshalText (JObj []))).
Proof.
  revert s now. induction l as [|[[inBucket ts] t] l IH]; intros s now Hs; [by exists s, now|]. cbn [saves].
  destruct (BucketStore_save_ok bs inBucket ts t s) as (s1 & Hr & Hg). act_step. by eapply IH.
Qed.

(** The fill of a bucket is never stored: whatever the bucket saves, a restart
    makes it anew with nothing in it, at time 0. *)
Theorem bucket_fill_lost (s : S) v bs capacity leaked leakDuration now l :
  kv_Prefix v bucketStorePrefix = Ok bs ->
  exists s1 s2, NewStoredBucket (Bucket := Bucket) capacity leaked leakDuration v now s
      = Done s1 (CreateBucket capacity leaked leakDuration, bs) /\
    saves bs l s1 = Done s2 tt /\
    LoadBucket (Bucket := Bucket) capacity leaked leakDuration v s2
      = Done s2 (CreateBucketFromDB capacity leaked leakDuration 0 0, bs).
Proof.
  intros Hp. unfold NewStoredBucket, LoadBucket. rewrite Hp.
  destruct (BucketStore_save_ok bs 0 (UnixNano now) now s) as (s1 & Hr & Hg).
  destruct (saves_ok bs l s1 now Hg) as (s2 & now' & Hs & Hg'). exists s1, s2.
  split; [by erewrite bind_Done by exact Hr|]. split; [done|].
  assert (BucketStore_load bs s2 = Done s2 (0, 0)) as Hl.
  { unfold BucketStore_load. erewrite bind_Done by (apply read_Done; exact Hg'). cbn [Data]. by erewrite bind_Done by done. }
  by erewrite bind_Done by exact Hl.
Qed.

Lemma unmarshal_marshal_params p v :
  is_u 32 (mp_Capacity p) -> is_u 32 (mp_LeakedTokens p) ->
  unmarshalBucketParams (BucketParamStore_marshal (mkBucketParamStore p v))
    = Ok (mkMapParams (mp_Capacity p) (mp_LeakedTokens p) (u32 (mp_LeakDuration p))).
Proof.
  intros Hc Ht. unfold unmarshalBucketParams, BucketParamStore_marshal. cbn [bps_params].
  set (a := le_encode 4 (mp_Capacity p)). set (b := le_encode 4 (mp_LeakedTokens p)).
  set (c := le_encode 8 (u64 (mp_LeakDuration p))).
  assert (take 4 (a ++ b ++ c) = a /\ take 4 (drop 4 (a ++ b ++ c)) = b /\ take 8 (drop 8 (a ++ b ++ c)) = c)
    as (-> & -> & ->) by done. subst a b c.
  unfold get_le. rewrite !decide_True by (rewrite length_le_encode; lia).
  rewrite !(take_ge (le_encode 4 _)) by (rewrite length_le_encode; lia). cbn [mbind result_bind].
  change (take 4 (le_encode 8 (u64 (mp_LeakDuration p)))) with (le_encode 4 (u64 (mp_LeakDuration p))).
  rewrite !(le_decode_encode_u 4) by done. rewrite le_decode_encode. do 2 f_equal.
  change (256 ^ Z.of_nat 4) with (2 ^ 32). unfold wrapu. symmetry.
  apply Znumtheory.Zmod_div_mod; [done|done|by exists (2 ^ 32)].
Qed.

(** The parameters are read back with the duration reduced to 32 bits of
    nanoseconds: they come back as they were exactly when the duration is below
    about 4.3 seconds. *)
Theorem bucket_params_restart (s : S) v v' capacity leaked leakDuration now :
  kv_Prefix v bucketParamsPrefix = Ok v' ->
  is_u 32 capacity -> is_u 32 leaked -> 0 <= leakDuration < 2 ^ 63 ->
  let p := mkMapParams capacity leaked leakDuration in
  exists s1 p', NewBucketParamsStore capacity leaked leakDuration v now s = Done (s1, mkBucketParamStore p v') tt /\
    LoadBucketParamsStore v s1 = Done (s1, mkBucketParamStore p' v') tt /\
    p' = mkMapParams capacity leaked (leakDuration mod 2 ^ 32) /\ (p' = p <-> leakDuration < 2 ^ 32).
Proof.
  intros Hp Hc Hl Hd p. unfold NewBucketParamsStore, LoadBucketParamsStore. rewrite Hp.
  destruct (bucket_write_Done v' s bucketParamsKey
    (mkObject bucketParamsVersion now (BucketParamStore_marshal (mkBucketParamStore p v')))) as (s1 & Hw & Hg).
  exists s1. eexists. split; [by apply onStore_Done|]. split.
  { unfold BucketParamStore_load. cbn [bps_kv]. cbn [Version] in Hg. rewrite Hg. cbn [Data].
    by rewrite unmarshal_marshal_params by done. }
  unfold p. cbn [mp_Capacity mp_LeakedTokens mp_LeakDuration]. split; [done|]. unfold wrapu. split.
  - intros [= Heq]. rewrite <- Heq. by apply Z.mod_pos_bound.
  - intros Hlt. f_equal. apply Z.mod_small. lia.
Qed.
End restart.

(** A bucket that records how it was made. *)
#[export] Instance ex_rateLimiting : RateLimiting (list Z) := {
  CreateBucket c l d := [c; l; d];
  CreateBucketFromDB c l d i t := [c; l; d; i; t];
}.

Lemma bucket_fill_lost_witness :
  exists bs s1 s2, NewStoredBucket (S := MemStore) (Bucket := list Z) 10 1 1000 NewKV 5 ∅ = Done s1 ([10; 1; 1000], bs) /\
    saves bs [(7, 100, 6)] s1 = Done s2 tt /\
    LoadBucket (Bucket := list Z) 10 1 1000 NewKV s2 = Done s2 ([10; 1; 1000; 0; 0], bs).
Proof.
  destruct (kv_Prefix NewKV bucketStorePrefix) as [bs| |] eqn:Hp; [|vm_compute in Hp; discriminate Hp..].
  exists bs. exact (bucket_fill_lost (Bucket := list Z) (∅ : MemStore) NewKV bs 10 1 1000 5 [(7, 100, 6)] Hp).
Defined.

(** A leak duration of ten seconds. *)
Lemma bucket_params_restart_witness :
  exists v s1, NewBucketParamsStore (S := MemStore) 10 1 10000000000 NewKV 5 ∅
      = Done (s1, mkBucketParamStore (mkMapParams 10 1 10000000000) v) tt /\
    LoadBucketParamsStore NewKV s1 = Done (s1, mkBucketParamStore (mkMapParams 10 1 1410065408) v) tt.
Proof.
  destruct (kv_Prefix NewKV bucketParamsPrefix) as [v| |] eqn:Hp; [|vm_compute in Hp; discriminate Hp..].
  destruct (bucket_params_restart (∅ : MemStore) NewKV v 10 1 10000000000 5 Hp) as (s1 & p' & H1 & H2 & -> & _);
    [split; reflexivity || discriminate..|].
  exists v, s1. split; [exact H1|exact H2].
Defined.
