(* ===== verification/BlockStore.v ===== *)
(** * Block stores

    [storage/utility/blockStore.go]: a list of items that only grows, kept in
    storage in blocks of a fixed number of items, of which only the newest
    blocks are kept. *)

From Stdlib Require Import Ascii.
From S2P Require Import Prelude GoBytes KV Base64 Json Effects.

(** [[][]byte] as JSON: items are printed in base 64. *)
Definition encodeBytes (b : list byte) : json := JStr (chars (b64Encode b)).
Definition decodeBytes (v : json) : option (list byte) :=
  match v with
  | JStr s => b64Decode s
  | JNull => Some []
  | _ => None
  end.

Abbreviation block_t := (list (list byte)).

Definition marshalBlock (b : block_t) : list byte := marshalText (encodeSlice encodeBytes b).
Definition unmarshalBlock (data : list byte) : option block_t := unmarshalText data ≫= decodeSlice decodeBytes.

Definition int64Size : Z := 8.
Definition marshalledSize : Z := 4 * int64Size.
Definition blockStoreKey : string := "blockStore".
Definition blockStoreVersion : Z := 0.
Definition blockKey : string := "block".
Definition delimiter : string := "/".
Definition blockVersion : Z := 0.

Record BlockStore := mkBlockStore {
  bs_block : block_t;
  bs_numBlocks : Z;                         (* int *)
  bs_blockSize : Z;
  bs_firstSaved : Z;
  bs_lastSaved : Z;
  bs_kv : kv;
}.

Definition bs_setBlock (bs : BlockStore) (b : block_t) : BlockStore :=
  mkBlockStore b (bs_numBlocks bs) (bs_blockSize bs) (bs_firstSaved bs) (bs_lastSaved bs) (bs_kv bs).
Definition bs_setLast (bs : BlockStore) (i : Z) : BlockStore :=
  mkBlockStore (bs_block bs) (bs_numBlocks bs) (bs_blockSize bs) (bs_firstSaved bs) i (bs_kv bs).
Definition bs_setFirst (bs : BlockStore) (i : Z) : BlockStore :=
  mkBlockStore (bs_block bs) (bs_numBlocks bs) (bs_blockSize bs) i (bs_lastSaved bs) (bs_kv bs).

Definition BlockStore_getKey (i : Z) : string := blockKey +:+ delimiter +:+ pretty i.

Definition BlockStore_marshal (bs : BlockStore) : list byte :=
  concat ((fun v => le_encode 8 (u64 v)) <$> [bs_numBlocks bs; bs_blockSize bs; bs_firstSaved bs; bs_lastSaved bs]).

Definition BlockStore_unmarshal (bs : BlockStore) (b : list byte) : result BlockStore :=
  if negb (Z.of_nat (length b) =? marshalledSize) then
    Err (Errorf "length of buffer %d != %d expected" [Z.of_nat (length b); marshalledSize])
  else
    numBlocks ← get_le 8 (take 8 b);
    blockSize ← get_le 8 (take 8 (drop 8 b));
    firstSaved ← get_le 8 (take 8 (drop 16 b));
    lastSaved ← get_le 8 (take 8 (drop 24 b));
    Ok (mkBlockStore (bs_block bs) (i64 numBlocks) (i64 blockSize) (i64 firstSaved) (i64 lastSaved) (bs_kv bs)).

Section code.
Context {S : Type} `{EKV S}.

Abbreviation state := (S * BlockStore)%type.

(** Saves the block in memory under its index. *)
Definition BlockStore_saveBlock (now : Time) : act state unit := fun '(s, bs) =>
  annotate "failed to save block %d to KV: %+v" [bs_lastSaved bs]
    (onStore (write (fun s => kv_Set (bs_kv bs) s (BlockStore_getKey (bs_lastSaved bs))
       (mkObject blockVersion now (marshalBlock (bs_block bs)))))) (s, bs).

Definition BlockStore_loadBlock (v : kv) (i : Z) (s : S) : result block_t :=
  match kv_Get v s (BlockStore_getKey i) blockVersion with
  | inl e => Err (Wrapf "failed to get block %d from KV: %+v" [i] e)
  | inr obj =>
      match unmarshalBlock (Data obj) with
      | Some block => Ok block
      | None => Err (Wrapf "failed to JSON marshal block %d: %+v" [i] (Errorf "json" []))
      end
  end.

Definition BlockStore_save (now : Time) : act state unit :=
  _ ← (fun '(s, bs) => annotate "failed to save blockStore to KV: %+v" []
         (onStore (write (fun s => kv_Set (bs_kv bs) s blockStoreKey
            (mkObject blockStoreVersion now (BlockStore_marshal bs))))) (s, bs));
  annotate "failed to save initial block: %+v" [] (BlockStore_saveBlock now).

Definition BlockStore_load (bs : BlockStore) (s : S) : result BlockStore :=
  match kv_Get (bs_kv bs) s blockStoreKey blockStoreVersion with
  | inl e => Err (Wrapf "failed to get BlockStore from storage: %+v" [] e)
  | inr obj => wrap_err "failed to unmarshal BlockStore loaded from storage: %+v" [] (BlockStore_unmarshal bs (Data obj))
  end.

(** [make] of a negative capacity panics. *)
Definition NewBlockStore (numBlocks blockSize : Z) (v : kv) (now : Time) (s : S) : outcome state unit :=
  if blockSize <? 0 then Crash
  else BlockStore_save now (s, mkBlockStore [] numBlocks blockSize 0 0 v).

(** The loop of [LoadBlockStore]: the items of the blocks, and the last block. *)
Fixpoint loadBlocks (n : nat) (v : kv) (i : Z) (s : S) (data block : block_t) : result (block_t * block_t) :=
  match n with
  | O => Ok (data, block)
  | Datatypes.S n =>
      block ← BlockStore_loadBlock v i s;
      loadBlocks n v (i + 1) s (data ++ block) block
  end.

Definition LoadBlockStore (v : kv) (s : S) : result (BlockStore * block_t) :=
  bs ← BlockStore_load (mkBlockStore [] 0 0 0 0 v) s;
  '(data, block) ← loadBlocks (Z.to_nat (bs_lastSaved bs + 1 - bs_firstSaved bs)) v (bs_firstSaved bs) s [] [];
  Ok (bs_setBlock bs block, data).

(** The loop of [Store].  [items] is what the iterator still has to give; the
    items it has given are gone when an error ends the loop. *)
Fixpoint storeLoop (items : block_t) (now : Time) : S * BlockStore -> outcome (S * BlockStore * block_t) unit :=
  match items with
  | [] => fun st => Done (st, []) tt
  | item :: items => fun '(s, bs) =>
      if bs_blockSize bs <=? Z.of_nat (length (bs_block bs)) then
        match BlockStore_saveBlock now (s, bs) with
        | Done (s, bs) _ =>
            if bs_blockSize bs <? 0 then Crash
            else storeLoop items now (s, bs_setBlock (bs_setLast bs (bs_lastSaved bs + 1)) [item])
        | Fail st e => Fail (st, items) e
        | Crash => Crash
        end
      else storeLoop items now (s, bs_setBlock bs (bs_block bs ++ [item]))
  end.

(** Errors of deleting are logged. *)
Fixpoint pruneLoop (n : nat) (i : Z) : act state unit :=
  match n with
  | O => mret tt
  | Datatypes.S n => fun '(s, bs) =>
      pruneLoop n (i + 1) ((kv_Delete (bs_kv bs) s (BlockStore_getKey i) blockVersion).1, bs)
  end.

Definition BlockStore_pruneBlocks (firstSaved : Z) : act state unit := fun '(s, bs) =>
  if (bs_lastSaved bs + 1) - firstSaved <? bs_numBlocks bs then Done (s, bs) tt
  else pruneLoop (Z.to_nat (bs_firstSaved bs - firstSaved)) firstSaved (s, bs).

Definition BlockStore_Store (items : block_t) (now : Time) (st : S * BlockStore) :
    outcome (S * BlockStore * block_t) unit :=
  match storeLoop items now st with
  | Done (st, rest) _ =>
      match (_ ← BlockStore_saveBlock now;
             oldFirstSaved ← gets (fun st => bs_firstSaved st.2);
             _ ← modify (fun '(s, bs) =>
                   (s, if bs_numBlocks bs <? (bs_lastSaved bs + 1) - bs_firstSaved bs
                       then bs_setFirst bs ((bs_lastSaved bs + 1) - bs_numBlocks bs) else bs));
             _ ← BlockStore_save now;
             BlockStore_pruneBlocks oldFirstSaved) st with
      | Done st _ => Done (st, rest) tt
      | Fail st e => Fail (st, rest) e
      | Crash => Crash
      end
  | Fail st e => Fail st e
  | Crash => Crash
  end.
End code.

(** ** The newest blocks of a growing list *)

Section window.
Context (N B : nat).

(** Block [i] of the items [xs], the index of the newest block and of the oldest
    one that is kept. *)
Definition blockOf (xs : block_t) (i : nat) : block_t := take B (drop (i * B) xs).
Definition newest (xs : block_t) : nat := (length xs - 1) / B.
Definition oldest (xs : block_t) : nat := newest xs + 1 - N.
(** The items that are kept. *)
Definition kept (xs : block_t) : block_t := drop (oldest xs * B) xs.
End window.

Lemma decode_encodeBytes b : decodeBytes (encodeBytes b) = Some b.
Proof. apply b64Decode_encode. Qed.

Lemma wf_encodeBytes b : wfJson (encodeBytes b).
Proof.
  cbn [encodeBytes wfJson]. unfold b64Encode. rewrite String.list_ascii_of_string_of_list_ascii.
  apply list.Forall_forall. intros c (d & -> & _)%list_elem_of_fmap.
  assert (Forall (fun c => (nat_of_ascii c <? 128)%nat = true) b64Alphabet) as Hall by by apply (bool_decide_unpack _); vm_compute.
  rewrite list.Forall_forall in Hall. apply Nat.ltb_lt, Hall, b64Char_alphabet.
Qed.

Lemma unmarshal_marshal_block b : unmarshalBlock (marshalBlock b) = Some b.
Proof.
  unfold unmarshalBlock, marshalBlock. rewrite unmarshalText_marshalText by (apply wf_encodeSlice; intros; apply wf_encodeBytes).
  simpl. apply decode_encodeSlice. intros. apply decode_encodeBytes.
Qed.

Section blocks.
Context (B : nat) (Bpos : (0 < B)%nat).

Lemma newest_spec xs : xs ≠ [] -> (newest B xs * B < length xs <= (newest B xs + 1) * B)%nat.
Proof.
  intros Hne. unfold newest. assert (0 < length xs)%nat by (destruct xs; [done|simpl; lia]).
  pose proof (Nat.div_mod (length xs - 1) B ltac:(lia)). pose proof (Nat.mod_upper_bound (length xs - 1) B ltac:(lia)). nia.
Qed.

Lemma newest_unique xs n : (n * B < length xs <= (n + 1) * B)%nat -> newest B xs = n.
Proof.
  intros Hn. unfold newest. symmetry. apply (Nat.div_unique _ _ _ (length xs - 1 - n * B)); lia.
Qed.

Lemma newest_mono xs ys : (newest B xs <= newest B (xs ++ ys))%nat.
Proof. unfold newest. apply Nat.Div0.div_le_mono. rewrite length_app. lia. Qed.

Lemma blockOf_app xs ys i : ((i + 1) * B <= length xs)%nat -> blockOf B (xs ++ ys) i = blockOf B xs i.
Proof.
  intros Hi. unfold blockOf. rewrite drop_app_le by lia. apply take_app_le. rewrite length_drop. lia.
Qed.

Lemma length_block xs : (length (blockOf B xs (newest B xs)) <= B)%nat.
Proof. unfold blockOf. rewrite length_take. lia. Qed.

(** One more item opens a new block or goes at the end of the newest one. *)
Lemma block_full xs x :
  (B <= length (blockOf B xs (newest B xs)))%nat ->
  newest B (xs ++ [x]) = (newest B xs + 1)%nat /\ blockOf B (xs ++ [x]) (newest B xs + 1) = [x] /\
  forall i, (i <= newest B xs)%nat -> blockOf B (xs ++ [x]) i = blockOf B xs i.
Proof.
  intros Hfull. assert (xs ≠ []) as Hne by (intros ->; unfold blockOf in Hfull; rewrite drop_nil, take_nil in Hfull; simpl in *; lia).
  pose proof (newest_spec xs Hne). unfold blockOf in Hfull. rewrite length_take, length_drop in Hfull.
  set (n := newest B xs) in *. assert (length xs = (n + 1) * B)%nat as Hl by nia. split_and!.
  - apply newest_unique. rewrite length_app. simpl. nia.
  - unfold blockOf. rewrite <- Hl, drop_app_length. apply take_ge. simpl. lia.
  - intros i Hi. apply blockOf_app. nia.
Qed.

Lemma block_room xs x :
  (length (blockOf B xs (newest B xs)) < B)%nat ->
  newest B (xs ++ [x]) = newest B xs /\ blockOf B (xs ++ [x]) (newest B xs) = blockOf B xs (newest B xs) ++ [x] /\
  forall i, (i < newest B xs)%nat -> blockOf B (xs ++ [x]) i = blockOf B xs i.
Proof.
  intros Hroom. unfold blockOf in Hroom. rewrite length_take, length_drop in Hroom.
  destruct (decide (xs = [])) as [->|Hne].
  - assert (newest B [] = 0)%nat as Hn by (unfold newest; simpl; apply Nat.Div0.div_0_l). rewrite Hn. split_and!.
    + apply newest_unique. simpl. lia.
    + unfold blockOf. simpl. rewrite take_nil. rewrite take_ge; [done|simpl; lia].
    + lia.
  - pose proof (newest_spec xs Hne). set (n := newest B xs) in *. split_and!.
    + apply newest_unique. rewrite length_app. simpl. nia.
    + unfold blockOf. rewrite drop_app_le by lia. rewrite !take_ge; [done|..]; rewrite ?length_app, length_drop; simpl; nia.
    + intros i Hi. apply blockOf_app. nia.
Qed.

Lemma concat_blocks xs n i :
  (forall j, (i <= j < i + n)%nat -> (j <= newest B xs)%nat) -> (newest B xs < i + n)%nat ->
  concat (blockOf B xs <$> seq i n) = drop (i * B) xs.
Proof.
  revert i. induction n as [|n IH]; intros i Hle Hlast; cbn [seq].
  - simpl. symmetry. apply drop_ge. destruct (decide (xs = [])) as [->|Hne]; [simpl; lia|].
    pose proof (newest_spec xs Hne). nia.
  - rewrite fmap_cons. cbn [concat]. destruct (decide (n = 0%nat)) as [->|Hn].
    + simpl. rewrite app_nil_r. unfold blockOf. apply take_ge. rewrite length_drop.
      destruct (decide (xs = [])) as [->|Hne]; [simpl; lia|]. pose proof (newest_spec xs Hne).
      assert (newest B xs = i) as <- by (pose proof (Hle i ltac:(lia)); lia). nia.
    + rewrite IH; [|intros j Hj; apply Hle; lia|lia]. unfold blockOf.
      replace (S i * B)%nat with (i * B + B)%nat by lia. rewrite <- drop_drop. apply take_drop.
Qed.
End blocks.

Section storing.
Context {S : Type} `{EKVLaws S, !EKVReliable S}.
Context (N B : nat) (Npos : (0 < N)%nat) (Bpos : (0 < B)%nat) (v : kv).

Lemma getKey_inj i j : BlockStore_getKey i = BlockStore_getKey j -> i = j.
Proof. unfold BlockStore_getKey. intros Heq. do 2 apply (inj (String.append _)) in Heq. by apply (inj pretty) in Heq. Qed.

Lemma getKey_params i : BlockStore_getKey i ≠ blockStoreKey.
Proof. unfold BlockStore_getKey, blockStoreKey, blockKey, delimiter. simpl. discriminate. Qed.

(** Block [i] is stored as [b]. *)
Definition holds (s : S) (i : nat) (b : block_t) : Prop :=
  exists now, kv_Get v s (BlockStore_getKey (Z.of_nat i)) blockVersion = inr (mkObject blockVersion now (marshalBlock b)).

Definition memory (xs : block_t) (first : nat) : BlockStore :=
  mkBlockStore (blockOf B xs (newest B xs)) (Z.of_nat N) (Z.of_nat B) (Z.of_nat first) (Z.of_nat (newest B xs)) v.

(** The store holds the list [xs]: the newest blocks, and no older ones. *)
Record bs_rep (s : S) (bs : BlockStore) (xs : block_t) : Prop := {
  br_memory : bs = memory xs (oldest N B xs);
  br_params : exists now, kv_Get v s blockStoreKey blockStoreVersion
                = inr (mkObject blockStoreVersion now (BlockStore_marshal bs));
  br_blocks i : (oldest N B xs <= i <= newest B xs)%nat -> holds s i (blockOf B xs i);
  br_gone i : (i < oldest N B xs)%nat -> exists e, kv_Get v s (BlockStore_getKey (Z.of_nat i)) blockVersion = inl e;
}.

(** A write of block [i], and what it leaves. *)
Lemma bs_set_ok (s : S) key (o : Object) :
  exists s', kv_Set v s key o = (s', None) /\ kv_Get v s' key (Version o) = inr o /\
    forall key', key ≠ key' -> kv_Get v s' key' (Version o) = kv_Get v s key' (Version o).
Proof.
  destruct (kv_Set v s key o) as [s' r] eqn:E.
  assert (r = None) as -> by (pose proof (ekv_set_ok s (kv_makeKey v key (Version o)) o) as Hr; unfold kv_Set in E; by rewrite E in Hr).
  exists s'. split; [done|]. split; [by eapply kv_get_set_eq|]. intros key' Hne. by eapply kv_get_set_key.
Qed.

Lemma saveBlock_ok s xs f now :
  exists s', BlockStore_saveBlock now (s, memory xs f) = Done (s', memory xs f) tt /\
    holds s' (newest B xs) (blockOf B xs (newest B xs)) /\
    forall key, key ≠ BlockStore_getKey (Z.of_nat (newest B xs)) ->
      kv_Get v s' key blockVersion = kv_Get v s key blockVersion.
Proof.
  unfold BlockStore_saveBlock. cbn [memory bs_lastSaved bs_kv bs_block].
  destruct (bs_set_ok s (BlockStore_getKey (Z.of_nat (newest B xs)))
    (mkObject blockVersion now (marshalBlock (blockOf B xs (newest B xs))))) as (s' & Hset & Hget & Hne).
  exists s'. split; [|split; [by exists now|intros key Hk; by apply Hne]].
  apply annotate_Done, onStore_Done, write_Done. exact Hset.
Qed.

Lemma save_ok s xs f now :
  exists s', BlockStore_save now (s, memory xs f) = Done (s', memory xs f) tt /\
    holds s' (newest B xs) (blockOf B xs (newest B xs)) /\
    kv_Get v s' blockStoreKey blockStoreVersion = inr (mkObject blockStoreVersion now (BlockStore_marshal (memory xs f))) /\
    forall key, key ≠ BlockStore_getKey (Z.of_nat (newest B xs)) -> key ≠ blockStoreKey ->
      kv_Get v s' key blockVersion = kv_Get v s key blockVersion.
Proof.
  destruct (bs_set_ok s blockStoreKey (mkObject blockStoreVersion now (BlockStore_marshal (memory xs f)))) as (s1 & Hset & Hget & Hne).
  destruct (saveBlock_ok s1 xs f now) as (s' & Hsave & Hh & Hne'). exists s'. split; [|split; [done|split]].
  - unfold BlockStore_save. erewrite bind_Done; [by apply annotate_Done|].
    cbn [memory bs_kv]. apply annotate_Done, onStore_Done, write_Done. exact Hset.
  - change blockStoreVersion with blockVersion. rewrite Hne' by (apply not_eq_sym, getKey_params). exact Hget.
  - intros key Hk Hk'. rewrite Hne' by done. by apply (Hne key), not_eq_sym.
Qed.

Lemma storeLoop_ok items s xs f now :
  (forall i, (f <= i < newest B xs)%nat -> holds s i (blockOf B xs i)) -> (f <= newest B xs)%nat ->
  exists s', storeLoop items now (s, memory xs f) = Done (s', memory (xs ++ items) f, []) tt /\
    (forall i, (f <= i < newest B (xs ++ items))%nat -> holds s' i (blockOf B (xs ++ items) i)) /\
    (forall i, (i < f)%nat -> kv_Get v s' (BlockStore_getKey (Z.of_nat i)) blockVersion
                          = kv_Get v s (BlockStore_getKey (Z.of_nat i)) blockVersion).
Proof.
  revert s xs. induction items as [|x items IH]; intros s xs Hb Hf; cbn [storeLoop].
  { exists s. rewrite app_nil_r. by split_and!. }
  replace (xs ++ x :: items) with ((xs ++ [x]) ++ items) by (by rewrite <- app_assoc).
  cbn [memory bs_blockSize bs_block]. destruct (Z.leb_spec (Z.of_nat B) (Z.of_nat (length (blockOf B xs (newest B xs))))) as [Hfull|Hroom].
  - destruct (block_full B Bpos xs x ltac:(lia)) as (Hn & Hx & Hkeep).
    destruct (saveBlock_ok s xs f now) as (s1 & Hsave & Hh & Hne). rewrite Hsave.
    cbn [memory bs_blockSize]. rewrite (proj2 (Z.ltb_ge _ _)) by lia.
    destruct (IH s1 (xs ++ [x])) as (s' & Hrun & Hb' & Hold).
    { rewrite Hn. intros i Hi. rewrite Hkeep by lia. destruct (decide (i = newest B xs)) as [->|Hne']; [done|].
      unfold holds. rewrite Hne by (intros Heq%getKey_inj; lia). apply Hb. lia. }
    { lia. }
    exists s'. split; [|split; [done|]].
    + rewrite <- Hrun. unfold memory, bs_setBlock, bs_setLast. rewrite Hn, Hx, Nat2Z.inj_add. done.
    + intros i Hi. rewrite Hold by done. apply Hne. intros Heq%getKey_inj. lia.
  - destruct (block_room B Bpos xs x ltac:(lia)) as (Hn & Hx & Hkeep).
    destruct (IH s (xs ++ [x])) as (s' & Hrun & Hb' & Hold).
    { rewrite Hn. intros i Hi. rewrite Hkeep by lia. by apply Hb. }
    { lia. }
    exists s'. split; [|done]. rewrite <- Hrun. unfold memory. rewrite Hn, Hx. done.
Qed.

Lemma pruneLoop_ok n i s bs :
  bs_kv bs = v ->
  exists s', pruneLoop n (Z.of_nat i) (s, bs) = Done (s', bs) tt /\
    (forall j, (i <= j < i + n)%nat -> exists e, kv_Get v s' (BlockStore_getKey (Z.of_nat j)) blockVersion = inl e) /\
    (forall key, (forall j, (i <= j < i + n)%nat -> key ≠ BlockStore_getKey (Z.of_nat j)) ->
       kv_Get v s' key blockVersion = kv_Get v s key blockVersion).
Proof.
  intros Hv. revert i s. induction n as [|n IH]; intros i s; cbn [pruneLoop].
  { exists s. split; [done|]. split; [lia|done]. }
  destruct (kv_Delete (bs_kv bs) s (BlockStore_getKey (Z.of_nat i)) blockVersion) as [s1 r] eqn:E. rewrite Hv in E.
  assert (r = None) as -> by (pose proof (ekv_delete_ok s (kv_makeKey v (BlockStore_getKey (Z.of_nat i)) blockVersion)) as Hr;
    unfold kv_Delete in E; by rewrite E in Hr).
  assert (forall key, key ≠ BlockStore_getKey (Z.of_nat i) -> kv_Get v s1 key blockVersion = kv_Get v s key blockVersion) as Hne.
  { intros key Hk. eapply kv_get_delete_ne'; [exact E|]. unfold kv_makeKey. intros Heq.
    apply (inj (String.append (prefix v))) in Heq. by apply key_version_inj in Heq as [<- _]. }
  destruct (IH (Datatypes.S i) s1) as (s' & Hrun & Hgone & Hkeep). exists s'. split_and!.
  - cbn [fst]. replace (Z.of_nat i + 1) with (Z.of_nat (Datatypes.S i)) by lia. exact Hrun.
  - intros j Hj. destruct (decide (j = i)) as [->|Hji]; [|apply Hgone; lia].
    rewrite Hkeep by (intros k Hk Heq%getKey_inj; lia).
    destruct (kv_get_delete_eq _ _ _ _ _ E) as (e & He & _). by exists e.
  - intros key Hk. rewrite Hkeep by (intros j Hj; apply Hk; lia). apply Hne, Hk. lia.
Qed.

Lemma oldest_le xs : (oldest N B xs <= newest B xs)%nat.
Proof. unfold oldest. lia. Qed.

Lemma pruneBlocks_ok s xs f now :
  (f <= oldest N B xs)%nat -> (f = 0 \/ f + N <= newest B xs + 1)%nat ->
  kv_Get v s blockStoreKey blockStoreVersion
    = inr (mkObject blockStoreVersion now (BlockStore_marshal (memory xs (oldest N B xs)))) ->
  (forall i, (f <= i <= newest B xs)%nat -> holds s i (blockOf B xs i)) ->
  (forall i, (i < f)%nat -> exists e, kv_Get v s (BlockStore_getKey (Z.of_nat i)) blockVersion = inl e) ->
  exists s', BlockStore_pruneBlocks (Z.of_nat f) (s, memory xs (oldest N B xs)) = Done (s', memory xs (oldest N B xs)) tt /\
    bs_rep s' (memory xs (oldest N B xs)) xs.
Proof.
  intros Hf Hwin Hp Hb Hg. unfold BlockStore_pruneBlocks. cbn [memory bs_lastSaved bs_numBlocks bs_firstSaved].
  destruct (pruneLoop_ok (oldest N B xs - f) f s (memory xs (oldest N B xs)) eq_refl) as (s' & Hrun & Hgone & Hkeep).
  replace (Z.to_nat (Z.of_nat (oldest N B xs) - Z.of_nat f)) with (oldest N B xs - f)%nat by lia.
  destruct (Z.ltb_spec (Z.of_nat (newest B xs) + 1 - Z.of_nat f) (Z.of_nat N)) as [Hlt|Hge].
  - exists s. split; [done|]. assert (oldest N B xs = f) as Heq by (unfold oldest in *; lia). split; [done|by exists now|..].
    + intros i Hi. apply Hb. lia.
    + intros i Hi. apply Hg. lia.
  - exists s'. split; [exact Hrun|]. split; [done|..].
    + exists now. change blockStoreVersion with blockVersion in *.
      rewrite Hkeep by (intros j _; apply not_eq_sym, getKey_params). exact Hp.
    + intros i Hi. unfold holds. rewrite Hkeep by (intros j Hj Heq%getKey_inj; lia). apply Hb. lia.
    + intros i Hi. destruct (decide (i < f)%nat) as [Hlt|Hge'].
      * rewrite Hkeep by (intros j Hj Heq%getKey_inj; lia). by apply Hg.
      * apply Hgone. lia.
Qed.

(** [Store] appends its items and keeps the newest blocks. *)
Lemma Store_ok items s bs xs now :
  bs_rep s bs xs ->
  exists s' bs', BlockStore_Store items now (s, bs) = Done (s', bs', []) tt /\ bs_rep s' bs' (xs ++ items).
Proof.
  intros [-> _ Hb Hg]. set (f := oldest N B xs) in *. pose proof (oldest_le xs) as Hle. fold f in Hle.
  pose proof (newest_mono B Bpos xs items) as Hmono. unfold BlockStore_Store.
  destruct (storeLoop_ok items s xs f now) as (s1 & Hloop & Hb1 & Hold1); [intros i Hi; apply Hb; lia|done|].
  rewrite Hloop. set (ys := xs ++ items) in *.
  destruct (saveBlock_ok s1 ys f now) as (s2 & Hsave & Hh2 & Hne2).
  destruct (save_ok s2 ys (oldest N B ys) now) as (s3 & Hsave3 & Hh3 & Hp3 & Hne3).
  destruct (pruneBlocks_ok s3 ys f now) as (s4 & Hprune & Hrep).
  - unfold f, oldest. lia.
  - unfold f, oldest. lia.
  - exact Hp3.
  - intros i Hi. destruct (decide (i = newest B ys)) as [->|Hne]; [done|]. unfold holds.
    rewrite Hne3, Hne2 by (try apply getKey_params; intros Heq%getKey_inj; lia). apply Hb1. lia.
  - intros i Hi. rewrite Hne3, Hne2, Hold1 by (try apply getKey_params; try done; intros Heq%getKey_inj; lia). by apply Hg.
  - exists s4, (memory ys (oldest N B ys)). split; [|done].
    erewrite bind_Done by exact Hsave. erewrite bind_Done by done. erewrite bind_Done by done.
    cbn [snd memory bs_firstSaved bs_numBlocks bs_lastSaved].
    replace (if _ <? _ then _ else _) with (memory ys (oldest N B ys)).
    2: { unfold memory, bs_setFirst. destruct (Z.ltb_spec (Z.of_nat N) (Z.of_nat (newest B ys) + 1 - Z.of_nat f)); cbn; f_equal;
           unfold f, oldest in *; lia. }
    erewrite bind_Done by exact Hsave3. by rewrite Hprune.
Qed.

Lemma BlockStore_New_ok s now :
  exists s' bs, NewBlockStore (Z.of_nat N) (Z.of_nat B) v now s = Done (s', bs) tt /\ bs_rep s' bs [].
Proof.
  unfold NewBlockStore. rewrite (proj2 (Z.ltb_ge _ _)) by lia.
  assert (newest B [] = 0)%nat as Hn by (unfold newest; simpl; apply Nat.Div0.div_0_l).
  assert (oldest N B [] = 0)%nat as Ho by (unfold oldest; rewrite Hn; lia).
  assert (blockOf B [] 0 = []) as Hb by (unfold blockOf; by rewrite drop_nil, take_nil).
  destruct (save_ok s [] 0 now) as (s' & Hsave & Hh & Hp & _).
  assert (memory [] 0 = mkBlockStore [] (Z.of_nat N) (Z.of_nat B) 0 0 v) as Hm by (unfold memory; by rewrite Hn, Hb).
  exists s', (memory [] 0). split; [by rewrite <- Hm|]. split; [by rewrite Ho|by exists now|..].
  - rewrite Ho, Hn in *. intros i Hi. assert (i = 0%nat) as -> by lia. exact Hh.
  - rewrite Ho. lia.
Qed.

Lemma loadBlocks_ok n i s xs data block :
  (forall j, (i <= j < i + n)%nat -> holds s j (blockOf B xs j)) ->
  loadBlocks n v (Z.of_nat i) s data block
    = Ok (data ++ concat (blockOf B xs <$> seq i n), match n with O => block | _ => blockOf B xs (i + n - 1) end).
Proof.
  revert i data block. induction n as [|n IH]; intros i data block Hb; cbn [loadBlocks seq].
  { by rewrite app_nil_r. }
  destruct (Hb i ltac:(lia)) as [now Hi]. unfold BlockStore_loadBlock. rewrite Hi. cbn [Data].
  rewrite unmarshal_marshal_block. cbn [mbind result_bind].
  replace (Z.of_nat i + 1) with (Z.of_nat (Datatypes.S i)) by lia.
  rewrite IH by (intros j Hj; apply Hb; lia). rewrite fmap_cons. cbn [concat]. rewrite <- app_assoc. do 2 f_equal.
  destruct n; [f_equal; lia|f_equal; lia].
Qed.

Lemma unmarshal_marshal_bs bs bs0 :
  Forall (fun z => 0 <= z < 2 ^ 63) [bs_numBlocks bs; bs_blockSize bs; bs_firstSaved bs; bs_lastSaved bs] ->
  BlockStore_unmarshal bs0 (BlockStore_marshal bs)
    = Ok (mkBlockStore (bs_block bs0) (bs_numBlocks bs) (bs_blockSize bs) (bs_firstSaved bs) (bs_lastSaved bs) (bs_kv bs0)).
Proof.
  intros Hz. repeat (apply Forall_cons_iff in Hz as [? Hz]).
  unfold BlockStore_unmarshal, BlockStore_marshal. rewrite !fmap_cons. cbn [concat fmap list_fmap].
  set (a := le_encode 8 (u64 (bs_numBlocks bs))). set (b := le_encode 8 (u64 (bs_blockSize bs))).
  set (c := le_encode 8 (u64 (bs_firstSaved bs))). set (d := le_encode 8 (u64 (bs_lastSaved bs))).
  set (l := a ++ b ++ c ++ d ++ []).
  assert (take 8 l = a /\ take 8 (drop 8 l) = b /\ take 8 (drop 16 l) = c /\ take 8 (drop 24 l) = d /\ length l = 32%nat)
    as (-> & -> & -> & -> & ->) by done.
  change (Z.of_nat 32 =? marshalledSize) with true. cbn [negb]. subst a b c d l.
  assert (forall z, 0 <= z < 2 ^ 63 -> get_le 8 (le_encode 8 (u64 z)) = Ok z /\ i64 z = z) as Hget.
  { intros z Hr. split; [|apply wraps_small; lia]. unfold get_le. rewrite length_le_encode, decide_True by lia.
    rewrite take_ge by (by rewrite length_le_encode). rewrite le_decode_encode_u by (apply wrapu_range; lia).
    f_equal. apply wrapu_small. split; lia. }
  rewrite !(fun z Hz => proj1 (Hget z Hz)) by done. cbn [mbind result_bind].
  by rewrite !(fun z Hz => proj2 (Hget z Hz)) by done.
Qed.

(** Loading gives the store as it was, and the items of the blocks that are kept. *)
Lemma BlockStore_Load_ok s bs xs :
  bs_rep s bs xs -> Z.of_nat N < 2 ^ 63 -> Z.of_nat B < 2 ^ 63 -> Z.of_nat (length xs) < 2 ^ 63 ->
  LoadBlockStore v s = Ok (bs, kept N B xs).
Proof.
  intros [-> [now Hp] Hb _] HN HB Hlen. pose proof (oldest_le xs) as Hle. unfold LoadBlockStore, BlockStore_load. cbn [bs_kv].
  rewrite Hp. cbn [Data]. assert (newest B xs <= length xs)%nat as Hnl.
  { apply Nat.Div0.div_le_upper_bound. nia. }
  rewrite unmarshal_marshal_bs by (repeat constructor; cbn; lia). cbn [wrap_err mbind result_bind memory bs_lastSaved bs_firstSaved].
  replace (Z.to_nat _) with (newest B xs + 1 - oldest N B xs)%nat by lia.
  rewrite (loadBlocks_ok _ _ s xs) by (intros j Hj; apply Hb; lia). cbn [mbind result_bind app].
  rewrite (concat_blocks B Bpos) by (intros; lia). unfold bs_setBlock, memory. do 2 f_equal. cbn. f_equal.
  destruct (newest B xs + 1 - oldest N B xs)%nat eqn:E; [lia|]. f_equal. lia.
Qed.
End storing.

(** ** Runs of the store *)

Inductive bsOp := OpStore (items : block_t) | OpRestart.

Definition storedBy (op : bsOp) : block_t := match op with OpStore items => items | OpRestart => [] end.

Section runs.
Context {S : Type} `{EKVLaws S, !EKVReliable S}.

Definition bsExec (op : bsOp) (now : Time) : act (S * BlockStore) unit := fun '(s, bs) =>
  match op with
  | OpStore items =>
      match BlockStore_Store items now (s, bs) with
      | Done (st, _) _ => Done st tt
      | Fail (st, _) e => Fail st e
      | Crash => Crash
      end
  | OpRestart =>
      match LoadBlockStore (bs_kv bs) s with
      | Ok (bs, _) => Done (s, bs) tt
      | Err e => Fail (s, bs) e
      | Panic => Crash
      end
  end.

Fixpoint bsRun (ops : list bsOp) (now : Time) : act (S * BlockStore) unit :=
  match ops with
  | [] => mret tt
  | op :: ops => _ ← bsExec op now; bsRun ops now
  end.

Lemma bsRun_ok N B v ops now s bs xs :
  (0 < N)%nat -> (0 < B)%nat -> Z.of_nat N < 2 ^ 63 -> Z.of_nat B < 2 ^ 63 ->
  Z.of_nat (length (xs ++ concat (storedBy <$> ops))) < 2 ^ 63 -> bs_rep N B v s bs xs ->
  exists s' bs', bsRun ops now (s, bs) = Done (s', bs') tt /\ bs_rep N B v s' bs' (xs ++ concat (storedBy <$> ops)).
Proof.
  intros HN HB HN' HB'. revert s bs xs. induction ops as [|op ops IH]; intros s bs xs Hlen Hrep.
  { exists s, bs. by rewrite app_nil_r. }
  rewrite fmap_cons in *. cbn [concat bsRun] in *. rewrite app_assoc in *.
  assert (exists s1 bs1, bsExec op now (s, bs) = Done (s1, bs1) tt /\ bs_rep N B v s1 bs1 (xs ++ storedBy op))
    as (s1 & bs1 & Hx & Hrep1).
  { destruct op as [items|]; cbn [bsExec storedBy].
    - destruct (Store_ok N B HN HB v items s bs xs now Hrep) as (s1 & bs1 & Hst & Hr). exists s1, bs1. by rewrite Hst.
    - exists s, bs. rewrite app_nil_r. split; [|done]. assert (bs_kv bs = v) as -> by (by rewrite (br_memory _ _ _ _ _ _ Hrep)).
      rewrite (BlockStore_Load_ok N B HN HB v s bs xs); [done..|]. rewrite !length_app in Hlen. lia. }
  act_step. by apply IH.
Qed.

(** C24: A block store that has been given items in any number of calls, with
    restarts between them, loads as it was in memory, with the newest items: all
    of them while they fit in its blocks, otherwise the items of the newest
    blocks, the last of which may not be full; the older blocks are gone from
    storage. *)
Theorem BlockStore_keeps_newest (N B : nat) v (s : S) ops now :
  (0 < N)%nat -> (0 < B)%nat -> Z.of_nat N < 2 ^ 63 -> Z.of_nat B < 2 ^ 63 ->
  let xs := concat (storedBy <$> ops) in
  Z.of_nat (length xs) < 2 ^ 63 ->
  exists s1 bs1 s' bs', NewBlockStore (Z.of_nat N) (Z.of_nat B) v now s = Done (s1, bs1) tt /\
    bsRun ops now (s1, bs1) = Done (s', bs') tt /\ LoadBlockStore v s' = Ok (bs', kept N B xs) /\
    (exists old, xs = old ++ kept N B xs) /\ (length (kept N B xs) <= N * B)%nat /\
    (kept N B xs = xs \/ (N - 1) * B < length (kept N B xs))%nat /\
    (forall i, (i < oldest N B xs)%nat -> exists e, kv_Get v s' (BlockStore_getKey (Z.of_nat i)) blockVersion = inl e).
Proof.
  intros HN HB HN' HB' xs Hlen. destruct (BlockStore_New_ok N B HN HB v s now) as (s1 & bs1 & Hnew & Hrep1).
  destruct (bsRun_ok N B v ops now s1 bs1 [] HN HB HN' HB' Hlen Hrep1) as (s' & bs' & Hrun & Hrep). fold xs in Hrep. cbn [app] in Hrep.
  exists s1, bs1, s', bs'. split; [done|]. split; [done|]. split; [by apply (BlockStore_Load_ok N B)|].
  split; [exists (take (oldest N B xs * B) xs); symmetry; apply take_drop|].
  unfold kept. rewrite length_drop. destruct (decide (xs = [])) as [->|Hne].
  { rewrite drop_nil. split; [simpl; lia|]. split; [by left|]. intros i. apply Hrep. }
  pose proof (newest_spec B HB xs Hne) as Hnew'. split_and!.
  - unfold oldest. nia.
  - destruct (decide (newest B xs + 1 <= N)%nat) as [Hle|Hgt].
    + left. assert (oldest N B xs = 0)%nat as -> by (unfold oldest; lia). by rewrite drop_0.
    + right. unfold oldest. nia.
  - intros i. apply Hrep.
Qed.
End runs.

(** Four blocks of two items, given eleven. *)
Lemma BlockStore_keeps_newest_witness :
  exists s1 bs1 s' bs', NewBlockStore (S := MemStore) 4 2 NewKV 1 ∅ = Done (s1, bs1) tt /\
    bsRun [OpStore (replicate 3 [x01]); OpRestart; OpStore (replicate 8 [x02])] 1 (s1, bs1) = Done (s', bs') tt /\
    LoadBlockStore NewKV s' = Ok (bs', replicate 7 [x02]).
Proof.
  destruct (BlockStore_keeps_newest 4 2 NewKV (∅ : MemStore)
    [OpStore (replicate 3 [x01]); OpRestart; OpStore (replicate 8 [x02])] 1) as (s1 & bs1 & s' & bs' & H1 & H2 & H3 & _);
    [lia|lia|reflexivity|reflexivity|reflexivity|].
  exists s1, bs1, s', bs'. split; [exact H1|]. split; [exact H2|]. rewrite H3. reflexivity.
Defined.
