(* ===== verification/CheckedRounds.v ===== *)
(** * Checked rounds

    [cmix/identity/receptionID/store/checkedRounds.go]: the rounds an identity has
    already looked at, so that each is looked up once.  They are a set and a list
    in order of age in memory, and a block store on disk. *)

From S2P Require Import Prelude GoBytes KV Effects BlockStore.

Definition itemsPerBlock : Z := 50.

(** Rounds are [uint64]. *)
Record CheckedRounds := mkCheckedRounds {
  cr_m : gset Z;
  cr_l : list Z;                            (* oldest first *)
  cr_recent : list Z;                       (* not stored yet *)
  cr_store : BlockStore;
  cr_maxRounds : Z;
}.

Definition cr_setRecent (cr : CheckedRounds) (recent : list Z) : CheckedRounds :=
  mkCheckedRounds (cr_m cr) (cr_l cr) recent (cr_store cr) (cr_maxRounds cr).
Definition cr_setStore (cr : CheckedRounds) (bs : BlockStore) : CheckedRounds :=
  mkCheckedRounds (cr_m cr) (cr_l cr) (cr_recent cr) bs (cr_maxRounds cr).

(** [make] of a negative capacity panics. *)
Definition newCheckedRounds (maxRounds : Z) (store : BlockStore) : result CheckedRounds :=
  if maxRounds <? 0 then Panic else Ok (mkCheckedRounds ∅ [] [] store maxRounds).

Definition numBlocksFor (maxRounds : Z) : Z :=
  let numBlocks := Z.quot maxRounds itemsPerBlock in
  if negb (Z.rem maxRounds itemsPerBlock =? 0) then numBlocks + 1 else numBlocks.

(** [Next], for as long as it gives a round. *)
Definition roundBytes (rid : Z) : list byte := le_encode 8 rid.

Definition CheckedRounds_Next (cr : CheckedRounds) : CheckedRounds * option (list byte) :=
  match cr_recent cr with
  | rid :: recent => (cr_setRecent cr recent, Some (roundBytes rid))
  | [] => (cr, None)
  end.

Fixpoint CheckedRounds_unmarshal (rounds : list (list byte)) (cr : CheckedRounds) : result CheckedRounds :=
  match rounds with
  | [] => Ok cr
  | round :: rounds =>
      rid ← get_le 8 round;
      CheckedRounds_unmarshal rounds
        (mkCheckedRounds ({[ rid ]} ∪ cr_m cr) (cr_l cr ++ [rid]) (cr_recent cr) (cr_store cr) (cr_maxRounds cr))
  end.

Definition CheckedRounds_Check (rid : Z) (cr : CheckedRounds) : CheckedRounds * bool :=
  if decide (rid ∈ cr_m cr) then (cr, false)
  else (mkCheckedRounds ({[ rid ]} ∪ cr_m cr) (cr_l cr ++ [rid]) (cr_recent cr ++ [rid]) (cr_store cr) (cr_maxRounds cr), true).

Definition CheckedRounds_IsChecked (rid : Z) (cr : CheckedRounds) : bool := bool_decide (rid ∈ cr_m cr).

(** The loop of [Prune]. *)
Fixpoint pruneOld (earliestAllowed : Z) (l : list Z) (m : gset Z) : list Z * gset Z :=
  match l with
  | rid :: l' => if rid <? earliestAllowed then pruneOld earliestAllowed l' (m ∖ {[ rid ]}) else (l, m)
  | [] => (l, m)
  end.

Definition earliestAllowed (newest maxRounds : Z) : Z := u64 (u64 (newest - u64 maxRounds) + 1).

(** [cr.l.Back()] of an empty list is nil. *)
Definition CheckedRounds_Prune (cr : CheckedRounds) : result CheckedRounds :=
  if Z.of_nat (size (cr_m cr)) <? cr_maxRounds cr then Ok cr
  else
    match list.last (cr_l cr) with
    | None => Panic
    | Some newest =>
        let '(l, m) := pruneOld (earliestAllowed newest (cr_maxRounds cr)) (cr_l cr) (cr_m cr) in
        Ok (mkCheckedRounds m l (cr_recent cr) (cr_store cr) (cr_maxRounds cr))
    end.

Section storage.
Context {S : Type} `{EKV S}.

(** The block store is made with the two numbers exchanged: [itemsPerBlock]
    blocks, of [numBlocks] items each. *)
Definition NewCheckedRounds (maxRounds : Z) (v : kv) (now : Time) : act S CheckedRounds := fun s =>
  match NewBlockStore itemsPerBlock (numBlocksFor maxRounds) v now s with
  | Done (s, store) _ => pureResult (newCheckedRounds maxRounds store) s
  | Fail (s, _) e => Fail s (Wrapf "failed to save new checked rounds to storage: %+v" [] e)
  | Crash => Crash
  end.

Definition LoadCheckedRounds (maxRounds : Z) (v : kv) : act S CheckedRounds := fun s =>
  match LoadBlockStore v s with
  | Ok (store, rounds) =>
      pureResult (cr ← newCheckedRounds maxRounds store; CheckedRounds_unmarshal rounds cr) s
  | Err e => Fail s (Wrapf "failed to load CheckedRounds from storage: %+v" [] e)
  | Panic => Crash
  end.

(** [Store] takes the recent rounds one by one through [Next]. *)
Definition SaveCheckedRounds (now : Time) : act (S * CheckedRounds) unit := fun '(s, cr) =>
  let consumed (rest : list (list byte)) := drop (length (cr_recent cr) - length rest) (cr_recent cr) in
  match BlockStore_Store (roundBytes <$> cr_recent cr) now (s, cr_store cr) with
  | Done (s, bs, rest) _ => Done (s, cr_setRecent (cr_setStore cr bs) (consumed rest)) tt
  | Fail (s, bs, rest) e =>
      Fail (s, cr_setRecent (cr_setStore cr bs) (consumed rest)) (Wrapf "failed to store recent CheckedRounds: %+v" [] e)
  | Crash => Crash
  end.
End storage.

(** ** Each round is new once *)

Inductive crOp := CrCheck (rid : Z) | CrIsChecked (rid : Z) | CrSave | CrPrune | CrRestart.

Section contract.
Context {S : Type} `{EKVLaws S, !EKVReliable S} (v : kv) (now : Time).

Definition crExec (op : crOp) : act (S * CheckedRounds) (option bool) := fun '(s, cr) =>
  match op with
  | CrCheck rid => let '(cr, b) := CheckedRounds_Check rid cr in Done (s, cr) (Some b)
  | CrIsChecked rid => Done (s, cr) (Some (CheckedRounds_IsChecked rid cr))
  | CrSave => (_ ← SaveCheckedRounds now; mret None) (s, cr)
  | CrPrune =>
      match CheckedRounds_Prune cr with
      | Ok cr => Done (s, cr) None
      | Err e => Fail (s, cr) e
      | Panic => Crash
      end
  | CrRestart =>
      match LoadCheckedRounds (cr_maxRounds cr) v s with
      | Done s cr => Done (s, cr) None
      | Fail s e => Fail (s, cr) e
      | Crash => Crash
      end
  end.

Fixpoint crRun (ops : list crOp) : act (S * CheckedRounds) (list (option bool)) :=
  match ops with
  | [] => mret []
  | op :: ops => o ← crExec op; os ← crRun ops; mret (o :: os)
  end.

(** The contract: the rounds checked, oldest first; those of them that are not
    saved; and all that were saved. *)
Record crState := mkCrState {
  sp_rounds : list Z;
  sp_unsaved : list Z;
  sp_saved : list Z;
}.

Context (maxRounds : Z) (maxpos : 0 < maxRounds) (maxsmall : maxRounds < 2 ^ 62).

(** The items per block: the code exchanges the two numbers. *)
Definition nb : nat := Z.to_nat (numBlocksFor maxRounds).

(** A list without the rounds at its front that are below a bound. *)
Fixpoint dropBelow (bound : Z) (l : list Z) : list Z :=
  match l with
  | rid :: l' => if rid <? bound then dropBelow bound l' else l
  | [] => []
  end.

(** A pruning leaves a list shorter than [maxRounds] alone.  Otherwise the rounds
    at the front that are [maxRounds] or more before the last one go; all go when
    the last one is below [maxRounds - 1], where the subtraction wraps. *)
Definition crPruned (l : list Z) : list Z :=
  if Z.of_nat (length l) <? maxRounds then l
  else match list.last l with
       | Some newest => if maxRounds - 1 <=? newest then dropBelow (newest - maxRounds + 1) l else []
       | None => l
       end.

(** The newest fifty blocks of what was saved. *)
Definition crReloaded (saved : list Z) : list Z := drop (((length saved - 1) / nb + 1 - 50) * nb) saved.

Definition crSpec (op : crOp) (st : crState) : crState * option bool :=
  let '(mkCrState R U D) := st in
  match op with
  | CrCheck rid =>
      if decide (rid ∈ R) then (st, Some false) else (mkCrState (R ++ [rid]) (U ++ [rid]) D, Some true)
  | CrIsChecked rid => (st, Some (bool_decide (rid ∈ R)))
  | CrSave => (mkCrState R [] (D ++ U), None)
  | CrPrune => (mkCrState (crPruned R) U D, None)
  | CrRestart => (mkCrState (crReloaded D) [] D, None)
  end.

Fixpoint crSpecRun (ops : list crOp) (st : crState) : list (option bool) :=
  match ops with
  | [] => []
  | op :: ops => let '(st, o) := crSpec op st in o :: crSpecRun ops st
  end.

(** At each restart no round was saved twice: a round that a pruning has
    forgotten was not checked and saved again. *)
Fixpoint savedOnce (ops : list crOp) (st : crState) : Prop :=
  match ops with
  | [] => True
  | op :: ops => (op = CrRestart -> NoDup (sp_saved st)) /\ savedOnce ops (crSpec op st).1
  end.

Definition crOp_ok (op : crOp) : Prop := match op with CrCheck rid => 0 <= rid < 2 ^ 63 | _ => True end.

Lemma nb_spec : numBlocksFor maxRounds = Z.of_nat nb /\ (0 < nb)%nat /\ Z.of_nat nb < 2 ^ 63.
Proof.
  unfold nb, numBlocksFor, itemsPerBlock. rewrite Z.quot_div_nonneg, Z.rem_mod_nonneg by lia.
  destruct (Z.eqb_spec (maxRounds mod 50) 0); cbn [negb]; zlia.
Qed.

Definition isRound (r : Z) : Prop := 0 <= r < 2 ^ 63.

(** The state in memory and on disk. *)
Record cr_rep (s : S) (cr : CheckedRounds) (st : crState) : Prop := {
  cp_max : cr_maxRounds cr = maxRounds;
  cp_list : cr_l cr = sp_rounds st;
  cp_set : cr_m cr = list_to_set (sp_rounds st);
  cp_nodup : NoDup (sp_rounds st);
  cp_recent : cr_recent cr = sp_unsaved st;
  cp_rounds : Forall isRound (sp_rounds st) /\ Forall isRound (sp_unsaved st) /\ Forall isRound (sp_saved st);
  cp_store : bs_rep 50 nb v s (cr_store cr) (roundBytes <$> sp_saved st);
}.

Lemma get_roundBytes r : isRound r -> get_le 8 (roundBytes r) = Ok r.
Proof.
  intros Hr. unfold get_le, roundBytes. rewrite length_le_encode, decide_True by lia.
  rewrite take_ge by (by rewrite length_le_encode). rewrite le_decode_encode_u; [done|]. unfold isRound in Hr. unfold is_u. lia.
Qed.

Lemma cr_unmarshal_ok rounds cr :
  Forall isRound rounds ->
  CheckedRounds_unmarshal (roundBytes <$> rounds) cr
    = Ok (mkCheckedRounds (list_to_set rounds ∪ cr_m cr) (cr_l cr ++ rounds) (cr_recent cr) (cr_store cr) (cr_maxRounds cr)).
Proof.
  intros Hall. revert cr. induction Hall as [|r rounds Hr _ IH]; intros cr.
  { simpl. rewrite app_nil_r, union_empty_l_L. by destruct cr. }
  rewrite fmap_cons. cbn [CheckedRounds_unmarshal]. rewrite get_roundBytes by done. cbn [mbind result_bind]. rewrite IH. cbn [cr_m cr_l cr_recent cr_store cr_maxRounds]. rewrite <- app_assoc. cbn [list_to_set].
  do 2 f_equal. set_solver.
Qed.

Lemma kept_rounds D : kept 50 nb (roundBytes <$> D) = roundBytes <$> crReloaded D.
Proof. unfold kept, oldest, newest, crReloaded. by rewrite length_fmap, fmap_drop. Qed.

(** ** Pruning *)

Lemma pruneOld_spec e l m :
  NoDup l -> (list_to_set l : gset Z) ⊆ m ->
  exists old, l = old ++ dropBelow e l /\ pruneOld e l m = (dropBelow e l, m ∖ list_to_set old).
Proof.
  revert m. induction l as [|r l IH]; intros m Hnd Hsub.
  { exists []. simpl. by rewrite difference_empty_L. }
  apply list.NoDup_cons in Hnd as [Hr Hnd]. cbn [pruneOld dropBelow]. destruct (Z.ltb_spec r e) as [Hlt|Hge].
  - destruct (IH (m ∖ {[ r ]}) Hnd) as (old & Hl & Hrun); [simpl in Hsub; set_solver|].
    exists (r :: old). split; [simpl; by f_equal|]. rewrite Hrun. f_equal. set_solver.
  - exists []. simpl. by rewrite difference_empty_L.
Qed.

Lemma dropBelow_all e l : Forall (fun r => r < e) l -> dropBelow e l = [].
Proof. induction 1 as [|r l Hr _ IH]; [done|]. cbn [dropBelow]. by rewrite (proj2 (Z.ltb_lt _ _)). Qed.

(** The bound of the code. *)
Lemma earliestAllowed_spec newest : isRound newest ->
  if maxRounds - 1 <=? newest then earliestAllowed newest maxRounds = newest - maxRounds + 1
  else 2 ^ 63 <= earliestAllowed newest maxRounds.
Proof.
  unfold isRound. intros Hn. unfold earliestAllowed. rewrite (wrapu_small 64 maxRounds) by (unfold is_u; lia).
  destruct (Z.leb_spec (maxRounds - 1) newest); zlia.
Qed.

Lemma Prune_spec cr l :
  cr_maxRounds cr = maxRounds -> cr_l cr = l -> cr_m cr = list_to_set l -> NoDup l -> Forall isRound l ->
  CheckedRounds_Prune cr = Ok (mkCheckedRounds (list_to_set (crPruned l)) (crPruned l) (cr_recent cr) (cr_store cr) maxRounds) /\
  crPruned l `suffix_of` l.
Proof.
  intros Hmax Hl Hm Hnd Hall. unfold CheckedRounds_Prune, crPruned. rewrite Hm, Hmax, Hl, size_list_to_set by done.
  destruct (Z.ltb_spec (Z.of_nat (length l)) maxRounds) as [Hlt|Hge].
  { split; [|done]. destruct cr. simpl in *. by subst. }
  destruct (list.last l) as [newest|] eqn:Hlast; [|apply last_None in Hlast; rewrite Hlast in Hge; simpl in Hge; lia].
  assert (isRound newest) as Hn by (rewrite list.Forall_forall in Hall; by apply Hall, last_Some_elem_of).
  assert (dropBelow (earliestAllowed newest maxRounds) l =
    if maxRounds - 1 <=? newest then dropBelow (newest - maxRounds + 1) l else []) as Hd.
  { pose proof (earliestAllowed_spec newest Hn) as He. destruct (_ <=? newest); [by rewrite He|].
    apply dropBelow_all. eapply Forall_impl; [|exact Hall]. unfold isRound. intros r Hr. cbn beta. lia. }
  destruct (pruneOld_spec (earliestAllowed newest maxRounds) l (list_to_set l) Hnd) as (old & Hold & Hrun); [done|].
  rewrite Hrun, Hd in *. split; [|by exists old]. do 2 f_equal. rewrite Hold at 1.
  rewrite Hold in Hnd. apply list.NoDup_app in Hnd as (_ & Hdisj & _). rewrite list_to_set_app_L.
  clear -Hdisj. set_solver.
Qed.

(** ** The operations *)

Lemma crExec_refines op s cr st :
  cr_rep s cr st -> crOp_ok op -> (op = CrRestart -> NoDup (sp_saved st)) ->
  Z.of_nat (length (sp_saved st)) < 2 ^ 63 ->
  exists s' cr', crExec op (s, cr) = Done (s', cr') (crSpec op st).2 /\ cr_rep s' cr' (crSpec op st).1.
Proof.
  intros Hrep Hok Honce Hlen. pose proof Hrep as [Hmax Hl Hm Hnd Hrec (HR & HU & HD) Hst]. destruct st as [R U D].
  cbn [sp_rounds sp_unsaved sp_saved] in *. destruct nb_spec as (_ & Hpos & Hnb).
  destruct op as [rid|rid| | |]; cbn [crExec crSpec].
  - unfold CheckedRounds_Check. rewrite Hm, Hl, Hrec.
    destruct (decide (rid ∈ R)) as [Hin|Hout].
    + rewrite decide_True by (by apply elem_of_list_to_set). by exists s, cr.
    + rewrite decide_False by (by rewrite elem_of_list_to_set). eexists s, _. split; [done|].
      split; cbn [cr_maxRounds cr_m cr_l cr_recent cr_store sp_rounds sp_unsaved sp_saved fst]; [done|done| | |done| |exact Hst].
      * rewrite list_to_set_app_L. cbn [list_to_set]. set_solver.
      * apply list.NoDup_app. split; [done|]. split; [|apply NoDup_singleton]. by intros x Hx ->%list_elem_of_singleton.
      * assert (Forall isRound [rid]) by (apply List.Forall_cons; [exact Hok|apply List.Forall_nil]).
        by rewrite !Forall_app.
  - exists s, cr. split; [|done]. cbn [snd]. unfold CheckedRounds_IsChecked. rewrite Hm. do 3 f_equal.
    apply bool_decide_ext. apply elem_of_list_to_set.
  - destruct (Store_ok 50 nb ltac:(lia) Hpos v (roundBytes <$> cr_recent cr) s (cr_store cr) _ now Hst) as (s' & bs' & Hstore & Hst').
    eexists s', _. split; [erewrite bind_Done by (unfold SaveCheckedRounds; rewrite Hstore; done); done|].
    split; cbn [cr_setRecent cr_setStore cr_maxRounds cr_m cr_l cr_recent cr_store sp_rounds sp_unsaved sp_saved fst]; [done..| | |].
    + cbn [length]. by rewrite Nat.sub_0_r, drop_all.
    + split; [done|]. split; [constructor|]. by apply Forall_app.
    + by rewrite fmap_app, <- Hrec.
  - destruct (Prune_spec cr R Hmax Hl Hm Hnd HR) as [Hp [old Hold]]. rewrite Hp. eexists s, _. split; [done|].
    rewrite Hold in Hnd, HR. apply list.NoDup_app in Hnd as (_ & _ & Hnd). apply Forall_app in HR as [_ HR].
    by split; cbn [cr_maxRounds cr_m cr_l cr_recent cr_store sp_rounds sp_unsaved sp_saved fst].
  - unfold LoadCheckedRounds.
    rewrite (BlockStore_Load_ok 50 nb ltac:(lia) Hpos v s (cr_store cr) _ Hst); [|lia|done|by rewrite length_fmap].
    rewrite kept_rounds, Hmax. unfold newCheckedRounds. rewrite (proj2 (Z.ltb_ge _ _)) by lia. cbn [mbind result_bind].
    assert (Forall isRound (crReloaded D)) as HRl by (by apply Forall_drop).
    rewrite cr_unmarshal_ok by done. cbn [pureResult cr_m cr_l cr_recent cr_store cr_maxRounds app].
    eexists s, _. split; [done|]. rewrite union_empty_r_L.
    split; cbn [cr_maxRounds cr_m cr_l cr_recent cr_store sp_rounds sp_unsaved sp_saved fst]; [done|done|done| |done| |done].
    + eapply sublist_NoDup; [by apply Honce|]. apply sublist_drop.
    + split; [done|]. by split; [constructor|].
Qed.

(** What is saved grows with the checks only. *)
Lemma crSpec_grows op st :
  (length (sp_unsaved (crSpec op st).1) + length (sp_saved (crSpec op st).1) <= 1 + length (sp_unsaved st) + length (sp_saved st))%nat.
Proof.
  destruct st as [R U D], op; cbn [crSpec]; try case_decide; cbn; rewrite ?length_app; cbn; lia.
Qed.

Lemma crRun_refines ops s cr st :
  cr_rep s cr st -> Forall crOp_ok ops -> savedOnce ops st ->
  Z.of_nat (length ops + length (sp_unsaved st) + length (sp_saved st)) < 2 ^ 63 ->
  exists st', crRun ops (s, cr) = Done st' (crSpecRun ops st).
Proof.
  intros Hrep Hok. revert s cr st Hrep. induction Hok as [|op ops Hop _ IH]; intros s cr st Hrep Honce Hlen; [by eexists|].
  cbn [savedOnce length] in *. destruct Honce as [Hr Honce]. pose proof (crSpec_grows op st) as Hgrow.
  destruct (crExec_refines op s cr st Hrep Hop Hr ltac:(lia)) as (s' & cr' & Hx & Hrep').
  destruct (IH s' cr' _ Hrep' Honce ltac:(lia)) as (st' & Hrun).
  exists st'. cbn [crRun crSpecRun]. erewrite bind_Done by exact Hx. destruct (crSpec op st) as [st1 o]. cbn [fst snd] in *.
  by erewrite bind_Done by exact Hrun.
Qed.

(** C23: From new, under any checks, questions, saves, prunings and restarts, the
    checked rounds answer as a list of the rounds in the order they were checked:
    a round is new exactly when it is not in the list.  A pruning takes nothing
    from a list shorter than [maxRounds], and from any other the rounds at its
    front that are [maxRounds] or more before the last one checked, or all of
    them when that one is below [maxRounds - 1]; a restart gives back the newest
    fifty blocks of what was saved.  The condition [savedOnce] excludes restarts
    after a pruned round was checked and saved a second time. *)
Theorem CheckedRounds_refines (s : S) ops :
  Forall crOp_ok ops -> savedOnce ops (mkCrState [] [] []) -> Z.of_nat (length ops) < 2 ^ 63 ->
  exists s' cr st, NewCheckedRounds maxRounds v now s = Done s' cr /\
    crRun ops (s', cr) = Done st (crSpecRun ops (mkCrState [] [] [])).
Proof.
  intros Hok Honce Hlen. destruct nb_spec as (Hnb & Hpos & _). unfold NewCheckedRounds. rewrite Hnb.
  destruct (BlockStore_New_ok 50 nb ltac:(lia) Hpos v s now) as (s' & bs & Hnew & Hrep). change (Z.of_nat 50) with itemsPerBlock in Hnew.
  rewrite Hnew. unfold newCheckedRounds. rewrite (proj2 (Z.ltb_ge _ _)) by lia.
  destruct (crRun_refines ops s' (mkCheckedRounds ∅ [] [] bs maxRounds) (mkCrState [] [] [])) as (st & Hrun).
  - split; [done|done|done|constructor|done|by split_and!; constructor|exact Hrep].
  - done.
  - done.
  - cbn. lia.
  - by eexists _, _, st.
Qed.
End contract.

(** At most three rounds: a pruning forgets round 7, which is then new again; a
    restart gives back what was saved; and the newest round 0 makes a pruning
    forget all. *)
Definition ex_crOps : list crOp :=
  [CrCheck 7; CrCheck 8; CrSave; CrPrune; CrIsChecked 7; CrCheck 12; CrPrune; CrIsChecked 7; CrIsChecked 12; CrRestart;
   CrIsChecked 7; CrIsChecked 12; CrCheck 0; CrPrune; CrIsChecked 8].

Lemma CheckedRounds_refines_witness :
  exists s cr st, NewCheckedRounds (S := MemStore) 3 NewKV 1 ∅ = Done s cr /\
    crRun NewKV 1 ex_crOps (s, cr) = Done st
      [Some true; Some true; None; None; Some true; Some true; None; Some false; Some true; None;
       Some true; Some false; Some true; None; Some false].
Proof.
  destruct (CheckedRounds_refines NewKV 1 3 ltac:(lia) ltac:(lia) (∅ : MemStore) ex_crOps) as (s & cr & st & Hnew & Hrun).
  - repeat (apply List.Forall_cons; [cbn; lia || exact I|]). apply List.Forall_nil.
  - cbn. split_and!; try discriminate; try exact I. intros _. apply (bool_decide_unpack _). vm_compute. exact I.
  - reflexivity.
  - exists s, cr, st. split; [exact Hnew|]. rewrite Hrun. f_equal.
Defined.
