(* ===== verification/FileMessage.v ===== *)
(** * File part messages

    [fileTransfer/store/fileMessage]: the contents of the cMix message that
    carries one part of a file, a part number of two bytes, little-endian, and
    the part's data in the space left.  The fields are slices of one array. *)

From S2P Require Import Prelude GoBytes.

Definition partNumLen : Z := 2.
Definition fmMinSize : Z := partNumLen.

Record PartMessage := mkPartMessage {
  pm_mem : list byte;          (* the array behind the three slices *)
  pm_data : slice;
  pm_partNum : slice;
  pm_part : slice;
}.

Definition pm_setMem (m : PartMessage) (mem : list byte) : PartMessage :=
  mkPartMessage mem (pm_data m) (pm_partNum m) (pm_part m).

Definition mapPartMessage (data : list byte) : result PartMessage :=
  partNum ← reslice data (whole data) 0 partNumLen;
  part ← reslice data (whole data) partNumLen (Z.of_nat (length data));
  Ok (mkPartMessage data (whole data) partNum part).

Definition NewPartMessage (externalPayloadSize : Z) : result PartMessage :=
  if externalPayloadSize <? fmMinSize then Panic
  else mapPartMessage (replicate (Z.to_nat externalPayloadSize) x00).

Definition UnmarshalPartMessage (b : list byte) : result PartMessage :=
  if Z.of_nat (length b) <? fmMinSize then
    Err (Errorf "size of passed in bytes (%d) must be greater than %d" [Z.of_nat (length b); fmMinSize])
  else mapPartMessage b.

Definition PartMessage_Marshal (m : PartMessage) : list byte := sread (pm_mem m) (pm_data m).

Definition PartMessage_GetPartNum (m : PartMessage) : result Z :=
  get_le 2 (sread (pm_mem m) (pm_partNum m)).

Definition PartMessage_SetPartNum (m : PartMessage) (num : Z) : PartMessage :=
  pm_setMem m (scopy (pm_mem m) (pm_partNum m) (le_encode 2 num)).

Definition PartMessage_GetPart (m : PartMessage) : list byte := sread (pm_mem m) (pm_part m).

Definition PartMessage_SetPart (m : PartMessage) (b : list byte) : result PartMessage :=
  if (s_len (pm_part m) <? length b)%nat then Panic
  else Ok (pm_setMem m (scopy (pm_mem m) (pm_part m) b)).

Definition PartMessage_GetPartSize (m : PartMessage) : Z := Z.of_nat (s_len (pm_part m)).

(** ** The layout *)

(** A message of [size] bytes that holds [num] and [part]. *)
Definition partMessage_of (mem : list byte) : PartMessage :=
  mkPartMessage mem (whole mem) (Slice 0 2) (Slice 2 (length mem - 2)).

Lemma mapPartMessage_ok mem :
  (2 <= length mem)%nat -> mapPartMessage mem = Ok (partMessage_of mem).
Proof.
  intros Hl. unfold mapPartMessage, reslice, whole, s_cap, partNumLen. simpl.
  rewrite (proj2 (Z.leb_le _ _)) by lia. cbn [mbind result_bind].
  rewrite (proj2 (Z.leb_le 2 _)) by lia. cbn [andb].
  rewrite (proj2 (Z.leb_le _ _)) by lia. cbn [mbind result_bind].
  unfold partMessage_of, whole. do 3 f_equal. lia.
Qed.

Lemma UnmarshalPartMessage_ok mem :
  (2 <= length mem)%nat -> UnmarshalPartMessage mem = Ok (partMessage_of mem).
Proof.
  intros Hl. unfold UnmarshalPartMessage, fmMinSize, partNumLen.
  rewrite (proj2 (Z.ltb_ge _ _)) by lia. by apply mapPartMessage_ok.
Qed.

Lemma partMessage_Marshal mem : PartMessage_Marshal (partMessage_of mem) = mem.
Proof. unfold PartMessage_Marshal, sread. simpl. rewrite drop_0. by apply take_ge. Qed.

Lemma partMessage_GetPart mem : PartMessage_GetPart (partMessage_of mem) = drop 2 mem.
Proof.
  unfold PartMessage_GetPart, sread. simpl. apply take_ge. rewrite length_drop. lia.
Qed.

Lemma partMessage_GetPartNum mem :
  (2 <= length mem)%nat ->
  PartMessage_GetPartNum (partMessage_of mem) = Ok (le_decode (take 2 mem)).
Proof.
  intros Hl. unfold PartMessage_GetPartNum, sread, get_le. simpl. rewrite drop_0.
  rewrite decide_True by (rewrite length_take; lia). by rewrite take_take.
Qed.

Lemma partMessage_SetPartNum mem num :
  (2 <= length mem)%nat ->
  PartMessage_SetPartNum (partMessage_of mem) num = partMessage_of (le_encode 2 num ++ drop 2 mem).
Proof.
  intros Hl. unfold PartMessage_SetPartNum, pm_setMem, partMessage_of, whole.
  cbn [pm_mem pm_data pm_partNum pm_part]. unfold scopy, splice. cbn [s_len s_off]. rewrite (take_ge (le_encode 2 num)) by (by rewrite length_le_encode).
  rewrite length_le_encode, Nat.add_0_l. change (take 0 mem) with (@nil byte). rewrite app_nil_l.
  f_equal; f_equal; rewrite !length_app, length_le_encode, length_drop; lia.
Qed.

Lemma partMessage_SetPart num rest b :
  length num = 2%nat -> (length b <= length rest)%nat ->
  PartMessage_SetPart (partMessage_of (num ++ rest)) b
    = Ok (partMessage_of (num ++ b ++ drop (length b) rest)).
Proof.
  intros Hn Hb. unfold PartMessage_SetPart, partMessage_of. cbn [pm_part s_len pm_mem].
  rewrite length_app, Hn. replace (2 + length rest - 2)%nat with (length rest) by lia.
  rewrite (proj2 (Nat.ltb_ge _ _)) by lia.
  unfold pm_setMem, scopy, splice, whole. cbn [s_len s_off pm_data pm_partNum pm_part].
  rewrite (take_ge b) by lia. rewrite take_app_length' by lia.
  rewrite drop_app_ge by lia. rewrite Hn. replace (2 + length b - 2)%nat with (length b) by lia.
  do 2 f_equal; f_equal; rewrite !length_app, length_drop; lia.
Qed.

(** The bytes a sender fills in and what it marshals. *)
Definition partBytes (size : nat) (num : Z) (part : list byte) : list byte :=
  le_encode 2 num ++ part ++ replicate (size - 2 - length part) x00.

Lemma partBytes_made size num part :
  2 <= size -> Z.of_nat (length part) <= size - 2 ->
  exists m0 m, NewPartMessage size = Ok m0 /\
    PartMessage_SetPart (PartMessage_SetPartNum m0 num) part = Ok m /\
    PartMessage_Marshal m = partBytes (Z.to_nat size) num part.
Proof.
  intros Hs Hp. unfold NewPartMessage, fmMinSize, partNumLen.
  rewrite (proj2 (Z.ltb_ge _ _)) by lia.
  rewrite mapPartMessage_ok by (rewrite length_replicate; lia).
  do 2 eexists. split; [done|].
  rewrite partMessage_SetPartNum by (rewrite length_replicate; lia).
  rewrite drop_replicate, partMessage_SetPart;
    [|apply length_le_encode|rewrite length_replicate; lia].
  split; [done|]. rewrite partMessage_Marshal, drop_replicate. done.
Qed.

Lemma partBytes_parsed size num part :
  is_u 16 num -> (length part + 2 <= size)%nat ->
  exists m, UnmarshalPartMessage (partBytes size num part) = Ok m /\
    PartMessage_GetPartNum m = Ok num /\
    PartMessage_GetPart m = part ++ replicate (size - 2 - length part) x00.
Proof.
  intros Hn Hs. assert (2 <= length (partBytes size num part))%nat.
  { unfold partBytes. rewrite !length_app, length_le_encode. lia. }
  exists (partMessage_of (partBytes size num part)).
  rewrite UnmarshalPartMessage_ok, partMessage_GetPartNum, partMessage_GetPart by done.
  split; [done|]. unfold partBytes.
  rewrite take_app_length', drop_app_length' by (by rewrite length_le_encode).
  rewrite le_decode_encode_u; [done|]. apply Hn.
Qed.

(** a message filled by the sender (a new message of the contents size, the
    part number, the part) parses on the receiver's side to the same number and
    the part followed by zeros up to the size; a size too small for the number
    panics, a part too long panics, and bytes too short to hold the number are
    refused. *)
Theorem PartMessage_roundtrip size num part :
  is_u 16 num -> 2 <= size -> Z.of_nat (length part) <= size - 2 ->
  (exists m0 m m', NewPartMessage size = Ok m0 /\
    PartMessage_SetPart (PartMessage_SetPartNum m0 num) part = Ok m /\
    UnmarshalPartMessage (PartMessage_Marshal m) = Ok m' /\
    PartMessage_GetPartNum m' = Ok num /\
    PartMessage_GetPart m' = part ++ replicate (Z.to_nat size - 2 - length part) x00) /\
  (forall n, n < 2 -> NewPartMessage n = Panic) /\
  (forall b, (length b < 2)%nat -> exists e, UnmarshalPartMessage b = Err e) /\
  (forall m b, PartMessage_GetPartSize m < Z.of_nat (length b) -> PartMessage_SetPart m b = Panic).
Proof.
  intros Hn Hs Hp. split_and!.
  - destruct (partBytes_made size num part) as (m0 & m & H0 & H1 & H2); [done|done|].
    destruct (partBytes_parsed (Z.to_nat size) num part) as (m' & H3 & H4 & H5); [done|lia|].
    exists m0, m, m'. rewrite H2. done.
  - intros n Hlt. unfold NewPartMessage, fmMinSize, partNumLen. by rewrite (proj2 (Z.ltb_lt _ _)).
  - intros b Hb. unfold UnmarshalPartMessage, fmMinSize, partNumLen.
    rewrite (proj2 (Z.ltb_lt _ _)) by lia. by eexists.
  - intros m b Hb. unfold PartMessage_SetPart, PartMessage_GetPartSize in *.
    by rewrite (proj2 (Nat.ltb_lt _ _)) by lia.
Qed.

Lemma PartMessage_roundtrip_witness :
  exists m0 m m', NewPartMessage 6 = Ok m0 /\
    PartMessage_SetPart (PartMessage_SetPartNum m0 513) [xaa; xbb; xcc] = Ok m /\
    UnmarshalPartMessage (PartMessage_Marshal m) = Ok m' /\
    PartMessage_GetPartNum m' = Ok 513 /\
    PartMessage_GetPart m' = [xaa; xbb; xcc; x00].
Proof.
  assert (is_u 16 513) as H1 by (split; lia).
  assert (Z.of_nat (length [xaa; xbb; xcc]) <= 6 - 2) as H2 by (simpl; lia).
  exact (proj1 (PartMessage_roundtrip 6 513 [xaa; xbb; xcc] H1 ltac:(lia) H2)).
Defined.
