(* ===== verification/FtCypher.v ===== *)
(** * Fingerprints and cyphers of a file transfer

    [fileTransfer/store/cypher]: the manager of a transfer's key and of its
    fingerprints, each used once, and the cyphers it gives out.  The
    cryptography of file transfers ([crypto/fileTransfer]) is the class
    [FtCrypto] with the laws the code relies on. *)

From S2P Require Import Prelude GoBytes KV Json StateVector Effects.

(** ** Cryptography *)

(** A transfer key, a transfer identifier and the functions on them. *)
Class FtCrypto (Key TID : Type) := {
  tid_eq_dec :: EqDecision TID;
  tid_countable :: Countable TID;
  tid_Bytes : TID -> list byte;
  key_Bytes : Key -> list byte;
  UnmarshalTransferKey : list byte -> Key;
  GenerateFingerprint : Key -> Z -> list byte;
  EncryptPart : Key -> list byte -> Z -> list byte -> list byte * list byte;
  DecryptPart : Key -> list byte -> list byte -> Z -> list byte -> error + list byte;
}.

Class FtCryptoLaws (Key TID : Type) `{FtCrypto Key TID} := {
  tid_Bytes_inj a b : tid_Bytes a = tid_Bytes b -> a = b;
  key_roundtrip k : UnmarshalTransferKey (key_Bytes k) = k;
  part_roundtrip k contents n fp c mac :
    EncryptPart k contents n fp = (c, mac) -> DecryptPart k c mac n fp = inr contents;
}.

(** The fields of a received [format.Message] that the cypher reads. *)
Record FtMessage := mkFtMessage {
  GetContents : list byte;
  GetMac : list byte;
  GetKeyFP : list byte;
}.

Definition cypherManagerPrefix : string := "CypherManagerStore".
Definition cypherManagerFpVectorKey : string := "CypherManagerFingerprintVector".
Definition cypherManagerKeyStoreKey : string := "CypherManagerKey".
Definition cypherManagerKeyStoreVersion : Z := 0.

Record CypherManager (Key : Type) := mkCypherManager {
  cm_key : Key;
  cm_fpVector : StateVector;
  cm_kv : kv;
}.
Arguments mkCypherManager {Key}.
Arguments cm_key {Key}.
Arguments cm_fpVector {Key}.
Arguments cm_kv {Key}.

Definition cm_setVector {Key} (m : CypherManager Key) (sv : StateVector) : CypherManager Key :=
  mkCypherManager (cm_key m) sv (cm_kv m).

Section code.
Context {S Key TID : Type} `{EKV S} `{FtCrypto Key TID}.

Abbreviation CypherManager := (CypherManager Key).

(** [utility.NewStateVector] and [utility.LoadStateVector] as calls. *)
Definition newVector (n : Z) (key : string) (v : kv) (now : Time) : act S StateVector := fun s =>
  match NewStateVector s n false key v now with
  | (sv, s, None) => Done s sv
  | (_, s, Some e) => Fail s e
  end.

Definition loadVector (v : kv) (key : string) : act S StateVector := fun s =>
  pureResult (LoadStateVector s v key) s.

Definition saveKey (key : Key) (v : kv) (now : Time) : act S unit :=
  write (fun s => kv_Set v s cypherManagerKeyStoreKey
    (mkObject cypherManagerKeyStoreVersion now (key_Bytes key))).

Definition loadKey (v : kv) : act S Key :=
  obj ← read (fun s => kv_Get v s cypherManagerKeyStoreKey cypherManagerKeyStoreVersion);
  mret (UnmarshalTransferKey (Data obj)).

Definition NewCypherManager (key : Key) (numFps : Z) (v : kv) (now : Time) : act S CypherManager :=
  v ← pureResult (kv_Prefix v cypherManagerPrefix);
  fpVector ← annotate "failed to create new state vector for fingerprints: %+v" []
    (newVector numFps cypherManagerFpVectorKey v now);
  _ ← annotate "failed to save transfer key: %+v" [] (saveKey key v now);
  mret (mkCypherManager key fpVector v).

Definition LoadCypherManager (v : kv) : act S CypherManager :=
  v ← pureResult (kv_Prefix v cypherManagerPrefix);
  key ← annotate "failed to load transfer key: %+v" [] (loadKey v);
  fpVector ← annotate "failed to load state vector: %+v" []
    (loadVector v cypherManagerFpVectorKey);
  mret (mkCypherManager key fpVector v).

(** The number of the next fingerprint; the cypher is it and the manager. *)
Definition CypherManager_PopCypher (now : Time) : act (S * CypherManager) Z := fun '(s, m) =>
  match StateVector_Next s (cm_fpVector m) now with
  | Ok (s, sv, fpNum, None) => Done (s, cm_setVector m sv) (u16 fpNum)
  | Ok (s, sv, _, Some _) =>
      Fail (s, cm_setVector m sv)
        (Errorf "used all %d fingerprints" [StateVector_GetNumKeys (cm_fpVector m)])
  | Err e => Fail (s, m) e
  | Panic => Crash
  end.

Definition CypherManager_GetUnusedCyphers (m : CypherManager) : result (list Z) :=
  fpNums ← StateVector_GetUnusedKeyNums (cm_fpVector m);
  Ok (map (fun fpNum => u16 fpNum) fpNums).

Definition CypherManager_Delete (m : CypherManager) : act S unit :=
  _ ← annotate "failed to delete transfer key: %+v" []
    (write (fun s => kv_Delete (cm_kv m) s cypherManagerKeyStoreKey cypherManagerKeyStoreVersion));
  annotate "failed to delete fingerprint state vector: %+v" []
    (write (fun s => StateVector_Delete s (cm_fpVector m))).

(** ** Cyphers *)

Definition Cypher_GetFingerprint (key : Key) (fpNum : Z) : list byte := GenerateFingerprint key fpNum.

Definition Cypher_Encrypt (key : Key) (fpNum : Z) (contents : list byte) :
    list byte * list byte * list byte :=
  let fp := GenerateFingerprint key fpNum in
  let '(cipherText, mac) := EncryptPart key contents fpNum fp in
  (cipherText, mac, fp).

Definition Cypher_Decrypt (fpNum : Z) (msg : FtMessage) (now : Time) :
    act (S * CypherManager) (list byte) := fun '(s, m) =>
  match DecryptPart (cm_key m) (GetContents msg) (GetMac msg) fpNum (GetKeyFP msg) with
  | inl e => Fail (s, m) e
  | inr filePart =>
      match StateVector_Use s (cm_fpVector m) fpNum now with
      | Ok (s, sv) => Done (s, cm_setVector m sv) filePart
      | Err e => Fail (s, m) e
      | Panic => Crash
      end
  end.
End code.

(** ** Keys of one handle *)

Lemma sv_key_ne_vector key1 key2 : key1 ≠ key2 -> makeStateVectorKey key1 ≠ makeStateVectorKey key2.
Proof. intros Hne Heq. by apply (inj (String.append stateVectorKey)) in Heq. Qed.

Lemma kv_Set_ok {S} `{EKVReliable S} v (s : S) key o : exists s', kv_Set v s key o = (s', None).
Proof.
  unfold kv_Set. pose proof (ekv_set_ok s (kv_makeKey v key (Version o)) o) as Hok.
  destruct (ekv_Set s _ o) as [s' e]. simpl in Hok. subst e. eauto.
Qed.

Lemma kv_Delete_ok {S} `{EKVReliable S} v (s : S) key n : exists s', kv_Delete v s key n = (s', None).
Proof.
  unfold kv_Delete. pose proof (ekv_delete_ok s (kv_makeKey v key n)) as Hok.
  destruct (ekv_Delete s _) as [s' e]. simpl in Hok. subst e. eauto.
Qed.

Lemma pretty_inj_key p (a b : Z) : p +:+ pretty a = p +:+ pretty b -> a = b.
Proof. intros Heq. apply (inj (String.append p)) in Heq. by apply (inj pretty) in Heq. Qed.

(** ** The manager and its storage *)

(** [cm_durable s v m n U]: the manager under [v] has [n] fingerprints, [U]
    of them used, and the store holds its key and its vector. *)
Record cm_durable {S Key TID} `{EKV S} `{FtCrypto Key TID} (s : S) (v : kv)
    (m : CypherManager Key) (n : Z) (U : gset Z) : Prop := {
  cmd_kv : kv_Prefix v cypherManagerPrefix = Ok (cm_kv m);
  cmd_vector : sv_durable s (cm_fpVector m) (cm_kv m) cypherManagerFpVectorKey n U;
  cmd_key : exists now, kv_Get (cm_kv m) s cypherManagerKeyStoreKey cypherManagerKeyStoreVersion
    = inr (mkObject cypherManagerKeyStoreVersion now (key_Bytes (cm_key m)));
}.

Section laws.
Context {S Key TID : Type} `{EKVLaws S} {rel : EKVReliable S} `{FtCryptoLaws Key TID}.

(** Writes below the manager's prefix keep what is read elsewhere. *)
Lemma key_other v (s s' : S) key key' o r :
  kv_Set v s key o = (s', r) -> Version o = 0 -> key ≠ key' -> kv_Get v s' key' 0 = kv_Get v s key' 0.
Proof. intros Hset Hv Hne. rewrite <- Hv. by eapply kv_get_set_key. Qed.

Lemma key_same v (s s' : S) key o :
  kv_Set v s key o = (s', None) -> Version o = 0 -> kv_Get v s' key 0 = inr o.
Proof. intros Hset Hv. rewrite <- Hv. by eapply kv_get_set_eq. Qed.

Lemma Set_elsewhere v (s s' : S) key o :
  kv_handle v -> kv_Set v s key o = (s', None) -> strContains PrefixSeparator key = false ->
  Version o = 0 -> confined (prefix v) s s'.
Proof. intros Hv Hset Hk Ho. eapply kv_Set_confined; [done..|]. rewrite Ho. lia. Qed.

Lemma handle_cm v v' : kv_handle v -> kv_Prefix v cypherManagerPrefix = Ok v' -> kv_handle v'.
Proof. apply handle_prefix. Qed.

Lemma newVector_ok (s : S) n key v now :
  0 <= n <= 2 ^ 32 - 64 ->
  exists sv s', newVector n key v now s = Done s' sv /\ sv_durable s' sv v key n ∅ /\
    exists o, Version o = 0 /\ kv_Set v s (makeStateVectorKey key) o = (s', None).
Proof.
  intros Hn. destruct (new_durable s n key v now Hn) as (sv & s' & Hnew & Hd & Ho).
  exists sv, s'. unfold newVector. by rewrite Hnew.
Qed.

Lemma loadVector_ok (s : S) sv v key n U :
  sv_durable s sv v key n U -> loadVector v key s = Done s sv.
Proof. intros Hd. unfold loadVector. by rewrite (durable_Load s sv v key n U Hd). Qed.

Lemma NewCypherManager_ok (s : S) key n v vm now :
  kv_handle v -> kv_Prefix v cypherManagerPrefix = Ok vm -> is_u 16 n ->
  exists s' m, NewCypherManager key n v now s = Done s' m /\ cm_durable s' v m n ∅ /\
    cm_key m = key /\ confined (prefix vm) s s'.
Proof.
  intros Hv Hp Hn. unfold NewCypherManager. erewrite bind_Done by by apply pureResult_Done.
  destruct (newVector_ok s n cypherManagerFpVectorKey vm now) as (sv & s1 & Hnew & Hd & o & Ho & Hset);
    [destruct Hn; lia|].
  act_step.
  destruct (kv_Set_ok vm s1 cypherManagerKeyStoreKey
    (mkObject cypherManagerKeyStoreVersion now (key_Bytes key))) as [s2 Hkey].
  erewrite bind_Done by (apply annotate_Done, write_Done; exact Hkey).
  exists s2. eexists. split; [done|]. pose proof (handle_cm v vm Hv Hp) as Hvm.
  split; [|split; [done|]].
  - constructor; cbn [cm_kv cm_fpVector cm_key]; [done| |].
    + eapply durable_frame; [done|]. by eapply (key_other vm s1 s2); [exact Hkey|..].
    + exists now. by apply (key_same vm s1 s2).
  - eapply confined_trans; [by eapply Set_elsewhere|by eapply (Set_elsewhere vm s1 s2); [|exact Hkey|..]].
Qed.

Lemma LoadCypherManager_ok (s : S) v m n U :
  cm_durable s v m n U -> LoadCypherManager v s = Done s m.
Proof.
  intros [Hp Hd (now & Hk)]. unfold LoadCypherManager. act_step.
  erewrite bind_Done by (apply annotate_Done; unfold loadKey; erewrite bind_Done by
    (apply read_Done; exact Hk); reflexivity).
  erewrite bind_Done by (apply annotate_Done; eapply loadVector_ok; exact Hd).
  cbn [Data]. rewrite key_roundtrip. by destruct m.
Qed.

(** A change of the vector's own key keeps the rest. *)
Lemma cm_durable_step (s s' : S) v m n U sv' U' o :
  cm_durable s v m n U -> sv_durable s' sv' (cm_kv m) cypherManagerFpVectorKey n U' ->
  Version o = 0 -> kv_Set (cm_kv m) s (makeStateVectorKey cypherManagerFpVectorKey) o = (s', None) ->
  cm_durable s' v (cm_setVector m sv') n U'.
Proof.
  intros [Hp Hd (now & Hk)] Hd' Ho Hset. constructor; [done|done|]. exists now.
  etrans; [|exact Hk]. by eapply (key_other (cm_kv m) s s').
Qed.

Lemma cm_step_confined (s s' : S) v m n U o :
  kv_handle v -> cm_durable s v m n U -> Version o = 0 ->
  kv_Set (cm_kv m) s (makeStateVectorKey cypherManagerFpVectorKey) o = (s', None) ->
  confined (prefix (cm_kv m)) s s'.
Proof. intros Hv [Hp _ _] Ho Hset. eapply Set_elsewhere; [by eapply handle_cm|done..]. Qed.

(** Writes outside the manager's prefix keep it. *)
Lemma cm_durable_frame (s s' : S) v m n U p :
  kv_handle v -> cm_durable s v m n U -> confined p s s' -> prefix (cm_kv m) ≠ p ->
  cm_durable s' v m n U.
Proof.
  intros Hv [Hp Hd (now & Hk)] Hc Hne. pose proof (handle_cm v _ Hv Hp) as Hvm.
  constructor; [done| |].
  - eapply durable_frame; [done|]. by apply Hc.
  - exists now. rewrite <- Hk. by apply Hc.
Qed.

(** Popping gives the least unused number, or the error when there is none. *)
Lemma PopCypher_ok (s : S) v m n U now :
  kv_handle v -> cm_durable s v m n U -> is_u 16 n ->
  match unusedKeys n U with
  | [] => exists m', CypherManager_PopCypher now (s, m)
      = Fail (s, m') (Errorf "used all %d fingerprints" [n]) /\ m' = m
  | k :: _ => exists s' m', CypherManager_PopCypher now (s, m) = Done (s', m') k /\
      cm_durable s' v m' n ({[k]} ∪ U) /\ cm_key m' = cm_key m /\ cm_kv m' = cm_kv m /\
      confined (prefix (cm_kv m)) s s'
  end.
Proof.
  intros Hv Hc Hn. pose proof (cmd_vector _ _ _ _ _ Hc) as Hd.
  pose proof (durable_Next s _ _ _ n U now Hd) as Hnext.
  destruct (unusedKeys n U) as [|k ks] eqn:Hun; unfold CypherManager_PopCypher.
  - rewrite Hnext. eexists. split; [|done].
    unfold StateVector_GetNumKeys. rewrite (ref_keys _ _ _ (dur_refines _ _ _ _ _ _ Hd)).
    by destruct m.
  - destruct Hnext as (s' & sv' & -> & Hd' & o & Ho & Hset).
    assert (k ∈ unusedKeys n U) as Hk by (rewrite Hun; left).
    unfold unusedKeys in Hk. apply list_elem_of_filter in Hk as [_ Hk%elem_of_zseq].
    exists s', (cm_setVector m sv'). rewrite wrapu_small by (destruct Hn; split; lia).
    split_and!; [done|by eapply cm_durable_step|done|done|by eapply cm_step_confined].
Qed.

(** Decrypting an encrypted part gives its contents and marks the number. *)
Lemma Decrypt_ok (s : S) v m n U k contents now :
  kv_handle v -> cm_durable s v m n U -> 0 <= k < n ->
  let '(c, mac, fp) := Cypher_Encrypt (cm_key m) k contents in
  exists s' m', Cypher_Decrypt k (mkFtMessage c mac fp) now (s, m) = Done (s', m') contents /\
    cm_durable s' v m' n ({[k]} ∪ U) /\ cm_key m' = cm_key m /\ cm_kv m' = cm_kv m /\
    confined (prefix (cm_kv m)) s s'.
Proof.
  intros Hv Hc Hk. unfold Cypher_Encrypt.
  destruct (EncryptPart (cm_key m) contents k (GenerateFingerprint (cm_key m) k)) as [c mac] eqn:He.
  unfold Cypher_Decrypt. cbn [GetContents GetMac GetKeyFP].
  rewrite (part_roundtrip _ _ _ _ _ _ He).
  destruct (durable_Use s _ _ _ n U k now (cmd_vector _ _ _ _ _ Hc) Hk)
    as (s' & sv' & -> & Hd' & o & Ho & Hset).
  exists s', (cm_setVector m sv').
  split_and!; [done|by eapply cm_durable_step|done|done|by eapply cm_step_confined].
Qed.

Lemma GetUnusedCyphers_ok (s : S) v m n U :
  cm_durable s v m n U -> is_u 16 n -> CypherManager_GetUnusedCyphers m = Ok (unusedKeys n U).
Proof.
  intros Hc Hn. unfold CypherManager_GetUnusedCyphers.
  rewrite (unused_keys _ n U (dur_refines _ _ _ _ _ _ (cmd_vector _ _ _ _ _ Hc))).
  cbn [mbind result_bind]. f_equal.
  rewrite <- (map_id (unusedKeys n U)) at 2.
  apply map_ext_in. intros k Hk%list_elem_of_In.
  apply list_elem_of_filter in Hk as [_ Hk%elem_of_zseq].
  destruct Hn. apply wrapu_small. split; lia.
Qed.

Lemma CypherManager_Delete_ok (s : S) v m n U :
  kv_handle v -> cm_durable s v m n U ->
  exists s', CypherManager_Delete m s = Done s' tt /\ confined (prefix (cm_kv m)) s s' /\
    exists e, kv_Get (cm_kv m) s' cypherManagerKeyStoreKey cypherManagerKeyStoreVersion = inl e.
Proof.
  intros Hv Hc. pose proof (handle_cm v _ Hv (cmd_kv _ _ _ _ _ Hc)) as Hvm.
  unfold CypherManager_Delete.
  destruct (kv_Delete_ok (cm_kv m) s cypherManagerKeyStoreKey cypherManagerKeyStoreVersion) as [s1 Hdel1].
  act_step. unfold StateVector_Delete.
  destruct (cmd_vector _ _ _ _ _ Hc) as [_ Hd Hk Hkv _]. rewrite Hd, Hk, Hkv.
  destruct (kv_Delete_ok (cm_kv m) s1 (makeStateVectorKey cypherManagerFpVectorKey)
    currentStateVectorVersion) as [s2 Hdel2].
  exists s2. split; [by apply annotate_Done, write_Done|]. split.
  - eapply confined_trans; [by eapply kv_Delete_confined|].
    by eapply (kv_Delete_confined (cm_kv m) s1 s2); [exact Hdel2|..].
  - destruct (kv_get_delete_eq _ _ _ _ _ Hdel1) as (e & He & _). exists e.
    rewrite <- He. eapply kv_get_delete_ne'; [exact Hdel2|]. unfold kv_makeKey.
    intros Heq. apply (inj (String.append (prefix (cm_kv m)))) in Heq.
    by apply key_version_inj in Heq as [].
Qed.
(** The manager's prefix is below the transfer's. *)
Lemma cm_prefix_ne (s : S) v (m : CypherManager Key) n U :
  cm_durable s v m n U -> prefix (cm_kv m) ≠ prefix v.
Proof. intros [Hp _ _]. by eapply kv_Prefix_ne. Qed.

(** A write to a key of the transfer's own prefix. *)
Record own_write (s s' : S) (v : kv) (key : string) (o : Object) : Prop := {
  ow_set : kv_Set v s key o = (s', None);
  ow_version : Version o = 0;
  ow_sep : strContains PrefixSeparator key = false;
}.

Lemma own_write_same (s s' : S) v key o : own_write s s' v key o -> kv_Get v s' key 0 = inr o.
Proof. intros [Hset Hv _]. by eapply key_same. Qed.

Lemma own_write_other (s s' : S) v key o key' :
  own_write s s' v key o -> key ≠ key' -> kv_Get v s' key' 0 = kv_Get v s key' 0.
Proof. intros [Hset Hv _] Hne. by eapply key_other. Qed.

Lemma own_write_confined (s s' : S) v key o :
  own_write s s' v key o -> kv_handle v -> confined (prefix v) s s'.
Proof. intros [Hset Hver Hsep] Hv. by eapply Set_elsewhere. Qed.

Lemma own_write_cm (s s' : S) v key o (m : CypherManager Key) n U :
  own_write s s' v key o -> kv_handle v -> cm_durable s v m n U -> cm_durable s' v m n U.
Proof.
  intros Hw Hv Hc. eapply cm_durable_frame; [done..|by eapply own_write_confined|].
  by eapply cm_prefix_ne.
Qed.

Lemma delete_other v (s s' : S) key key' :
  kv_Delete v s key 0 = (s', None) -> key ≠ key' -> kv_Get v s' key' 0 = kv_Get v s key' 0.
Proof.
  intros Hdel Hne. eapply kv_get_delete_ne'; [done|]. unfold kv_makeKey. intros Heq.
  apply (inj (String.append (prefix v))) in Heq. by apply key_version_inj in Heq as [].
Qed.

End laws.

(** ** Every fingerprint is used once *)

Section fresh.
Context {S Key TID : Type} `{EKVLaws S} {rel : EKVReliable S} `{FtCryptoLaws Key TID}.

(** A sender pops cyphers and is restarted at any moment; [false] is a restart. *)
Fixpoint popRun (v : kv) (ops : list bool) (s : S) (m : CypherManager Key) (now : Time) :
    option (S * CypherManager Key * list (error + Z)) :=
  match ops with
  | [] => Some (s, m, [])
  | true :: ops =>
      match CypherManager_PopCypher now (s, m) with
      | Done (s, m) k => '(s, m, out) ← popRun v ops s m now; Some (s, m, inr k :: out)
      | Fail (s, m) e => '(s, m, out) ← popRun v ops s m now; Some (s, m, inl e :: out)
      | Crash => None
      end
  | false :: ops =>
      match LoadCypherManager v s with
      | Done s m => popRun v ops s m now
      | _ => None
      end
  end.

(** What [c] calls give when [k] numbers are used: the next ones, in order,
    then the error. *)
Fixpoint popSpec (n k : Z) (c : nat) : list (error + Z) :=
  match c with
  | O => []
  | Datatypes.S c =>
      if k <? n then inr k :: popSpec n (k + 1) c
      else inl (Errorf "used all %d fingerprints" [n]) :: popSpec n k c
  end.

Lemma unusedKeys_prefix n k : 0 <= k <= n -> unusedKeys n (list_to_set (zseq 0 k)) = zseq k n.
Proof.
  intros Hk. unfold unusedKeys. rewrite (zseq_app 0 k n) by lia.
  rewrite list_filter_app, filter_none.
  - simpl. rewrite (filter_ext_in _ (fun _ => True)).
    + generalize (zseq k n). intros l. induction l as [|x l IH]; [done|].
      by rewrite filter_cons_True, IH.
    + intros x Hx%elem_of_zseq. split; [done|]. intros _ Hin%elem_of_list_to_set%elem_of_zseq. lia.
  - intros x Hx Hn. by apply Hn, elem_of_list_to_set.
Qed.

Lemma list_to_set_zseq_S k :
  0 <= k -> {[k]} ∪ list_to_set (C := gset Z) (zseq 0 k) = list_to_set (zseq 0 (k + 1)).
Proof.
  intros Hk. apply set_eq. intros x.
  rewrite elem_of_union, elem_of_singleton, !elem_of_list_to_set, !elem_of_zseq. lia.
Qed.

Lemma popRun_spec ops v (s : S) m n k now :
  kv_handle v -> cm_durable s v m n (list_to_set (zseq 0 k)) -> is_u 16 n -> 0 <= k <= n ->
  exists s' m', popRun v ops s m now = Some (s', m', popSpec n k (length (filter (.= true) ops))).
Proof.
  intros Hv Hc Hn. revert s m k Hc. induction ops as [|op ops IH]; intros s m k Hc Hk.
  { do 2 eexists. reflexivity. }
  destruct op; cbn [popRun].
  - rewrite filter_cons_True by done. cbn [length popSpec].
    pose proof (PopCypher_ok s v m n _ now Hv Hc Hn) as Hpop.
    rewrite unusedKeys_prefix in Hpop by done. destruct (Z.ltb_spec k n).
    + rewrite zseq_cons in Hpop by done. destruct Hpop as (s1 & m1 & -> & Hc1 & _).
      rewrite list_to_set_zseq_S in Hc1 by lia.
      destruct (IH s1 m1 (k + 1) Hc1) as (s2 & m2 & ->); [lia|]. by do 2 eexists.
    + rewrite zseq_nil in Hpop by lia. destruct Hpop as (m1 & -> & ->).
      destruct (IH s m k Hc Hk) as (s2 & m2 & ->). by do 2 eexists.
  - rewrite filter_cons_False by done. rewrite (LoadCypherManager_ok s v m n _ Hc). by apply IH.
Qed.

(** a transfer's cyphers are never reused.  From a new manager of [n]
    fingerprints, however often the program is restarted between the calls,
    the first [n] calls of [PopCypher] give the numbers 0 to [n]-1 in order,
    one each, and every later call returns the error; no call panics. *)
Theorem cyphers_used_once v vm (s : S) key n now ops :
  kv_handle v -> kv_Prefix v cypherManagerPrefix = Ok vm -> is_u 16 n ->
  exists s0 m0 s' m', NewCypherManager key n v now s = Done s0 m0 /\
    popRun v ops s0 m0 now = Some (s', m', popSpec n 0 (length (filter (.= true) ops))).
Proof.
  intros Hv Hp Hn.
  destruct (NewCypherManager_ok s key n v vm now Hv Hp Hn) as (s0 & m0 & Hnew & Hc & _).
  destruct (popRun_spec ops v s0 m0 n 0 now Hv) as (s' & m' & Hrun);
    [done|done|destruct Hn; lia|]. by exists s0, m0, s', m'.
Qed.
End fresh.

(** ** Examples *)

Module FtExample.
(** Keys and identifiers are numbers; the cipher text is the plain text, and
    the MAC repeats the fingerprint. *)
Definition ex_fp (k n : Z) : list byte := le_encode 4 k ++ le_encode 4 n.

#[export] Instance ex_FtCrypto : FtCrypto Z Z := {
  tid_Bytes z := posBytes (encode z);
  key_Bytes z := posBytes (encode z);
  UnmarshalTransferKey b := default 0 (decode (bytesPos b));
  GenerateFingerprint k n := ex_fp k n;
  EncryptPart k contents n fp := (contents, fp);
  DecryptPart k c mac n fp := if decide (mac = fp) then inr c else inl (Errorf "mac" []);
}.

#[export] Instance ex_FtCryptoLaws : FtCryptoLaws Z Z.
Proof.
  split.
  - intros a b Heq. apply (f_equal bytesPos) in Heq. unfold tid_Bytes, ex_FtCrypto in Heq.
    rewrite !bytesPos_posBytes in Heq. by apply (inj encode) in Heq.
  - intros k. unfold UnmarshalTransferKey, key_Bytes, ex_FtCrypto.
    by rewrite bytesPos_posBytes, decode_encode.
  - intros k contents n fp c mac Heq. cbn in *. injection Heq as <- <-. by rewrite decide_True.
Qed.

Definition ex_vm : kv := Eval vm_compute in
  match kv_Prefix NewKV cypherManagerPrefix with Ok v => v | _ => NewKV end.
End FtExample.
Import FtExample.

Lemma cyphers_used_once_witness :
  exists s0 (m0 : CypherManager Z) s' m',
    NewCypherManager (TID := Z) 7 2 NewKV 5 (∅ : MemStore) = Done s0 m0 /\
    popRun (TID := Z) NewKV [true; false; true; false; true] s0 m0 5
      = Some (s', m', [inr 0; inr 1; inl (Errorf "used all %d fingerprints" [2])]).
Proof.
  assert (kv_Prefix NewKV cypherManagerPrefix = Ok ex_vm) as Hp by reflexivity.
  exact (cyphers_used_once (TID := Z) NewKV ex_vm (∅ : MemStore) 7 2 5
    [true; false; true; false; true] handle_new Hp ltac:(split; lia)).
Defined.
