(* ===== verification/ReceivedTransfer.v ===== *)
(** * A received file transfer

    [fileTransfer/store/receivedTransfer.go]: the parts of a file received so
    far, with a state vector of the parts received and the manager of the
    fingerprints, all kept in storage. *)

From S2P Require Import Prelude GoBytes KV Base64 Json StateVector Effects FtCypher.

Definition receivedTransferStorePrefix : string := "ReceivedFileTransferStore/".
Definition receivedTransferStoreKey : string := "ReceivedTransfer".
Definition receivedTransferStoreVersion : Z := 0.
Definition receivedTransferStatusKey : string := "ReceivedPartStatusVector".
Definition receivedPartStoreKey : string := "receivedPart#".
Definition receivedPartStoreVersion : Z := 0.

Record receivedTransferDisk := mkReceivedTransferDisk {
  rd_FileName : string;
  rd_TransferMAC : list byte;
  rd_NumParts : Z;           (* uint16 *)
  rd_FileSize : Z;           (* uint32 *)
}.

Record ReceivedTransfer (Key TID : Type) := mkReceivedTransfer {
  rt_cypherManager : CypherManager Key;
  rt_tid : TID;
  rt_fileName : string;
  rt_transferMAC : list byte;
  rt_fileSize : Z;           (* uint32 *)
  rt_numParts : Z;           (* uint16 *)
  rt_parts : list (list byte);
  rt_partStatus : StateVector;
  rt_lastCallbackFingerprint : string;
  rt_kv : kv;
}.
Arguments mkReceivedTransfer {Key TID}.
Arguments rt_cypherManager {Key TID}.
Arguments rt_tid {Key TID}.
Arguments rt_fileName {Key TID}.
Arguments rt_transferMAC {Key TID}.
Arguments rt_fileSize {Key TID}.
Arguments rt_numParts {Key TID}.
Arguments rt_parts {Key TID}.
Arguments rt_partStatus {Key TID}.
Arguments rt_lastCallbackFingerprint {Key TID}.
Arguments rt_kv {Key TID}.

Section updates.
Context {Key TID : Type}.
Implicit Types rt : ReceivedTransfer Key TID.

Definition rt_setCypher rt (m : CypherManager Key) : ReceivedTransfer Key TID :=
  mkReceivedTransfer m (rt_tid rt) (rt_fileName rt) (rt_transferMAC rt) (rt_fileSize rt)
    (rt_numParts rt) (rt_parts rt) (rt_partStatus rt) (rt_lastCallbackFingerprint rt) (rt_kv rt).
Definition rt_setParts rt (parts : list (list byte)) : ReceivedTransfer Key TID :=
  mkReceivedTransfer (rt_cypherManager rt) (rt_tid rt) (rt_fileName rt) (rt_transferMAC rt)
    (rt_fileSize rt) (rt_numParts rt) parts (rt_partStatus rt) (rt_lastCallbackFingerprint rt)
    (rt_kv rt).
Definition rt_setStatus rt (sv : StateVector) : ReceivedTransfer Key TID :=
  mkReceivedTransfer (rt_cypherManager rt) (rt_tid rt) (rt_fileName rt) (rt_transferMAC rt)
    (rt_fileSize rt) (rt_numParts rt) (rt_parts rt) sv (rt_lastCallbackFingerprint rt) (rt_kv rt).
Definition rt_setFp rt (fp : string) : ReceivedTransfer Key TID :=
  mkReceivedTransfer (rt_cypherManager rt) (rt_tid rt) (rt_fileName rt) (rt_transferMAC rt)
    (rt_fileSize rt) (rt_numParts rt) (rt_parts rt) (rt_partStatus rt) fp (rt_kv rt).
End updates.

Definition makeReceivedPartKey (partNum : Z) : string := receivedPartStoreKey +:+ pretty partNum.

Definition makeReceivedTransferPrefix {Key TID} `{FtCrypto Key TID} (tid : TID) : string :=
  receivedTransferStorePrefix +:+ b64Encode (tid_Bytes tid).

(** [strconv.FormatBool] *)
Definition FormatBool (b : bool) : string := if b then "true" else "false".

Section code.
Context {S Key TID : Type} `{EKV S} `{FtCrypto Key TID} `{JsonCodec receivedTransferDisk}.
(** [err.Error()] *)
Context (errorText : error -> string).

Abbreviation ReceivedTransfer := (ReceivedTransfer Key TID).

(** ** Storage of the fields and of the parts *)

Definition ReceivedTransfer_marshal (rt : ReceivedTransfer) : list byte :=
  json_Marshal (mkReceivedTransferDisk (rt_fileName rt) (rt_transferMAC rt) (rt_numParts rt)
    (rt_fileSize rt)).

Definition unmarshalReceivedTransfer (data : list byte) : result (string * list byte * Z * Z) :=
  match json_Unmarshal data with
  | Some disk => Ok (rd_FileName disk, rd_TransferMAC disk, rd_NumParts disk, rd_FileSize disk)
  | None => Err (Errorf "json" [])
  end.

Definition ReceivedTransfer_save (rt : ReceivedTransfer) (now : Time) : act S unit :=
  write (fun s => kv_Set (rt_kv rt) s receivedTransferStoreKey
    (mkObject receivedTransferStoreVersion now (ReceivedTransfer_marshal rt))).

Definition savePart (part : list byte) (partNum : Z) (v : kv) (now : Time) : act S unit :=
  write (fun s => kv_Set v s (makeReceivedPartKey partNum)
    (mkObject receivedPartStoreVersion now part)).

Definition loadPart (partNum : Z) (v : kv) (s : S) : error + list byte :=
  match kv_Get v s (makeReceivedPartKey partNum) receivedPartStoreVersion with
  | inl e => inl e
  | inr obj => inr (Data obj)
  end.

Definition newReceivedTransfer (key : Key) (tid : TID) (fileName : string)
    (transferMAC : list byte) (fileSize numParts numFps : Z) (v : kv) (now : Time) :
    act S ReceivedTransfer :=
  v ← pureResult (kv_Prefix v (makeReceivedTransferPrefix tid));
  cypherManager ← annotate "failed to create new cypher manager: %+v" []
    (NewCypherManager key numFps v now);
  partStatus ← annotate "failed to create new state vector for part statuses: %+v" []
    (newVector numParts receivedTransferStatusKey v now);
  let rt := mkReceivedTransfer cypherManager tid fileName transferMAC fileSize numParts
              (replicate (Z.to_nat numParts) []) partStatus "" v in
  _ ← ReceivedTransfer_save rt now;
  mret rt.

(** The loop over the parts: a part that cannot be read is logged and stays empty. *)
Fixpoint loadParts (v : kv) (partStatus : StateVector) (s : S) (idxs : list Z) :
    result (list (list byte)) :=
  match idxs with
  | [] => Ok []
  | i :: idxs =>
      used ← StateVector_used partStatus i;
      rest ← loadParts v partStatus s idxs;
      Ok ((if (used : bool) then
             match loadPart i v s with
             | inr part => part
             | inl _ => []
             end
           else []) :: rest)
  end.

Definition loadReceivedTransfer (tid : TID) (v : kv) : act S ReceivedTransfer :=
  v ← pureResult (kv_Prefix v (makeReceivedTransferPrefix tid));
  cypherManager ← annotate "failed to load cypher manager from storage: %+v" []
    (LoadCypherManager v);
  obj ← annotate "failed to load transfer MAC, number of parts, and file size: %+v" []
    (read (fun s => kv_Get v s receivedTransferStoreKey receivedTransferStoreVersion));
  '(fileName, transferMAC, numParts, fileSize) ←
    annotate "failed to unmarshal transfer MAC, number of parts, and file size: %+v" []
      (pureResult (unmarshalReceivedTransfer (Data obj)));
  partStatus ← annotate "failed to load state vector for part statuses: %+v" []
    (loadVector v receivedTransferStatusKey);
  parts ← reading (fun s => loadParts v partStatus s (zseq 0 numParts));
  mret (mkReceivedTransfer cypherManager tid fileName transferMAC fileSize numParts parts
          partStatus "" v).

(** ** Operations *)

Definition ReceivedTransfer_AddPart (part : list byte) (partNum : Z) (now : Time) :
    act (S * ReceivedTransfer) unit := fun '(s, rt) =>
  let max := Z.of_nat (length (rt_parts rt)) - 1 in
  if max <? partNum then
    Fail (s, rt) (Errorf "part number %d out of range of max %d" [partNum; max])
  else
    match store_at (rt_parts rt) partNum part with
    | Ok parts =>
        let rt := rt_setParts rt parts in
        match savePart part partNum (rt_kv rt) now s with
        | Done s _ =>
            match StateVector_Use s (rt_partStatus rt) (u32 partNum) now with
            | Ok (s, sv) => Done (s, rt_setStatus rt sv) tt
            | Err e => Fail (s, rt) e
            | Panic => Crash
            end
        | Fail s e => Fail (s, rt) (Wrapf "failed to save part #%d to storage: %+v" [partNum] e)
        | Crash => Crash
        end
    | _ => Crash
    end.

Definition ReceivedTransfer_GetFile (rt : ReceivedTransfer) : list byte :=
  let file := concat (rt_parts rt) in
  if rt_fileSize rt <? Z.of_nat (length file) then take (Z.to_nat (rt_fileSize rt)) file else file.

Definition ReceivedTransfer_GetUnusedCyphers (rt : ReceivedTransfer) : result (list Z) :=
  CypherManager_GetUnusedCyphers (rt_cypherManager rt).

Definition ReceivedTransfer_NumParts (rt : ReceivedTransfer) : Z := rt_numParts rt.

Definition ReceivedTransfer_NumReceived (rt : ReceivedTransfer) : Z :=
  u16 (StateVector_GetNumUsed (rt_partStatus rt)).

Definition ReceivedTransfer_CopyPartStatusVector (rt : ReceivedTransfer) : StateVector :=
  StateVector_DeepCopy (rt_partStatus rt).

Definition generateReceivedFp (completed : bool) (received total : Z) (err : option error) : string :=
  let errString := match err with Some e => errorText e | None => "<nil>" end in
  FormatBool completed +:+ pretty received +:+ pretty total +:+ errString.

Definition ReceivedTransfer_CompareAndSwapCallbackFps (rt : ReceivedTransfer) (completed : bool)
    (received total : Z) (err : option error) : ReceivedTransfer * bool :=
  let fp := generateReceivedFp completed received total err in
  if bool_decide (fp = rt_lastCallbackFingerprint rt) then (rt, false) else (rt_setFp rt fp, true).

Definition ReceivedTransfer_Delete (rt : ReceivedTransfer) : act S unit :=
  _ ← annotate "failed to delete cypher manager: %+v" []
    (CypherManager_Delete (rt_cypherManager rt));
  _ ← annotate "failed to delete transfer MAC, number of parts, and file size: %+v" []
    (write (fun s => kv_Delete (rt_kv rt) s receivedTransferStoreKey receivedTransferStoreVersion));
  annotate "failed to delete part status state vector: %+v" []
    (write (fun s => StateVector_Delete s (rt_partStatus rt))).
End code.

(** ** The transfer and its storage *)

(** [rt_durable s v rt nf Uf U]: the transfer under [v] has the fingerprints
    [Uf] out of [nf] used and the parts [U] received, and the store holds it. *)
Record rt_durable {S Key TID} `{EKV S} `{FtCrypto Key TID} `{JsonCodec receivedTransferDisk}
    (s : S) (v : kv) (rt : ReceivedTransfer Key TID) (nf : Z) (Uf U : gset Z) : Prop := {
  rtd_kv : kv_Prefix v (makeReceivedTransferPrefix (rt_tid rt)) = Ok (rt_kv rt);
  rtd_cypher : cm_durable s (rt_kv rt) (rt_cypherManager rt) nf Uf;
  rtd_status : sv_durable s (rt_partStatus rt) (rt_kv rt) receivedTransferStatusKey
                 (rt_numParts rt) U;
  rtd_num : is_u 16 (rt_numParts rt);
  rtd_length : Z.of_nat (length (rt_parts rt)) = rt_numParts rt;
  rtd_ok : json_ok (mkReceivedTransferDisk (rt_fileName rt) (rt_transferMAC rt)
             (rt_numParts rt) (rt_fileSize rt));
  rtd_fields : exists now, kv_Get (rt_kv rt) s receivedTransferStoreKey receivedTransferStoreVersion
    = inr (mkObject receivedTransferStoreVersion now (ReceivedTransfer_marshal rt));
  rtd_parts i part : rt_parts rt !! i = Some part ->
    if decide (Z.of_nat i ∈ U) then
      exists now, kv_Get (rt_kv rt) s (makeReceivedPartKey (Z.of_nat i)) receivedPartStoreVersion
        = inr (mkObject receivedPartStoreVersion now part)
    else part = [];
}.

Section laws.
Context {S Key TID : Type} `{EKVLaws S} {rel : EKVReliable S} `{FtCryptoLaws Key TID}.
Context `{JsonCodec receivedTransferDisk}.
Implicit Types rt : ReceivedTransfer Key TID.

Lemma handle_rt v (tid : TID) v' :
  kv_handle v -> kv_Prefix v (makeReceivedTransferPrefix tid) = Ok v' -> kv_handle v'.
Proof. apply handle_prefix. Qed.

Lemma receivedPartKey_sep (i : Z) : strContains PrefixSeparator (makeReceivedPartKey i) = false.
Proof.
  unfold makeReceivedPartKey. rewrite chars_no_sep_app.
  replace (strContains PrefixSeparator (pretty i)) with false; [done|].
  symmetry. apply strContains_chars, pretty_no_sep.
Qed.

Lemma save_own (s : S) rt now :
  exists s', ReceivedTransfer_save rt now s = Done s' tt /\
    own_write s s' (rt_kv rt) receivedTransferStoreKey
      (mkObject receivedTransferStoreVersion now (ReceivedTransfer_marshal rt)).
Proof.
  destruct (kv_Set_ok (rt_kv rt) s receivedTransferStoreKey
    (mkObject receivedTransferStoreVersion now (ReceivedTransfer_marshal rt))) as [s' Hset].
  exists s'. split; [by apply write_Done|by constructor].
Qed.

Lemma savePart_own (s : S) part i v now :
  exists s', savePart part i v now s = Done s' tt /\
    own_write s s' v (makeReceivedPartKey i) (mkObject receivedPartStoreVersion now part).
Proof.
  destruct (kv_Set_ok v s (makeReceivedPartKey i) (mkObject receivedPartStoreVersion now part))
    as [s' Hset].
  exists s'. split; [by apply write_Done|]. constructor; [done|done|apply receivedPartKey_sep].
Qed.

Lemma vector_own (s s' : S) v o :
  Version o = 0 -> kv_Set v s (makeStateVectorKey receivedTransferStatusKey) o = (s', None) ->
  own_write s s' v (makeStateVectorKey receivedTransferStatusKey) o.
Proof. by constructor. Qed.

Lemma newReceivedTransfer_ok (s : S) key tid fileName mac fileSize numParts numFps v v' vm now :
  kv_handle v -> kv_Prefix v (makeReceivedTransferPrefix tid) = Ok v' ->
  kv_Prefix v' cypherManagerPrefix = Ok vm ->
  is_u 16 numParts -> is_u 16 numFps ->
  json_ok (mkReceivedTransferDisk fileName mac numParts fileSize) ->
  exists s' rt, newReceivedTransfer key tid fileName mac fileSize numParts numFps v now s
      = Done s' rt /\ rt_durable s' v rt numFps ∅ ∅ /\
    rt_tid rt = tid /\ rt_fileSize rt = fileSize /\ rt_numParts rt = numParts /\
    cm_key (rt_cypherManager rt) = key /\ rt_lastCallbackFingerprint rt = "" /\
    rt_kv rt = v' /\ within v' s s'.
Proof.
  intros Hv Hp Hpm Hn Hf Hok. pose proof (handle_rt v tid v' Hv Hp) as Hv'.
  unfold newReceivedTransfer. erewrite bind_Done by (apply pureResult_Done; exact Hp).
  destruct (NewCypherManager_ok s key numFps v' vm now Hv' Hpm Hf) as (s1 & m & Hm & Hcm & Hkey & Hc1).
  act_step.
  destruct (newVector_ok s1 numParts receivedTransferStatusKey v' now) as
    (sv & s2 & Hsv & Hd & o & Ho & Hset); [destruct Hn; lia|].
  act_step. pose proof (vector_own _ _ _ _ Ho Hset) as Hw2. set (rt := mkReceivedTransfer _ _ _ _ _ _ _ _ _ _).
  destruct (save_own s2 rt now) as (s3 & Hsave & Hw3). act_step.
  exists s3, rt. split; [done|]. split.
  - constructor; subst rt; cbn [rt_kv rt_tid rt_cypherManager rt_partStatus rt_parts rt_numParts
      rt_fileName rt_transferMAC rt_fileSize]; [done| | |done| |done| |].
    + eapply own_write_cm; [exact Hw3|done|]. by eapply own_write_cm.
    + eapply durable_frame; [done|]. by apply (own_write_other _ _ _ _ _ _ Hw3).
    + rewrite length_replicate. destruct Hn. lia.
    + exists now. apply (own_write_same _ _ _ _ _ Hw3).
    + intros i part Hi. rewrite decide_False by set_solver.
      by apply lookup_replicate in Hi as [-> _].
  - split_and!; try done. apply (within_trans _ _ s1); [|apply (within_trans _ _ s2)].
    + eapply confined_within; [exact Hc1|by eapply below_prefix].
    + eapply confined_within; [by eapply own_write_confined|apply below_refl].
    + eapply confined_within; [by apply (own_write_confined _ _ _ _ _ Hw3)|apply below_refl].
Qed.

(** Adding a part in range. *)
Lemma AddPart_ok (s : S) v rt nf Uf U part i now :
  kv_handle v -> rt_durable s v rt nf Uf U -> 0 <= i < rt_numParts rt ->
  exists s' rt', ReceivedTransfer_AddPart part i now (s, rt) = Done (s', rt') tt /\
    rt_durable s' v rt' nf Uf ({[i]} ∪ U) /\
    rt' = rt_setStatus (rt_setParts rt (<[Z.to_nat i := part]> (rt_parts rt))) (rt_partStatus rt') /\
    within (rt_kv rt) s s'.
Proof.
  intros Hv [Hp Hcm Hd Hn Hl Hok (n0 & Hf) Hparts] Hi. pose proof (handle_rt v _ _ Hv Hp) as Hv'.
  unfold ReceivedTransfer_AddPart. rewrite Hl, (proj2 (Z.ltb_ge _ _)) by lia.
  rewrite (proj2 (store_at_Ok (rt_parts rt) _ i part)) by (split; [lia|done]). cbn [rt_kv rt_setParts].
  destruct (savePart_own s part i (rt_kv rt) now) as (s1 & -> & Hw1).
  rewrite wrapu_small by (destruct Hn; split; lia). cbn [rt_setParts rt_partStatus].
  assert (sv_durable s1 (rt_partStatus rt) (rt_kv rt) receivedTransferStatusKey (rt_numParts rt) U)
    as Hd1 by (eapply durable_frame; [done|]; by apply (own_write_other _ _ _ _ _ _ Hw1)).
  destruct (durable_Use s1 _ _ _ _ _ i now Hd1 Hi) as (s2 & sv & -> & Hd2 & o & Ho & Hset).
  pose proof (vector_own _ _ _ _ Ho Hset) as Hw2.
  exists s2. eexists. split; [done|]. split; [|split; [done|]].
  - constructor; cbn [rt_setStatus rt_setParts rt_kv rt_tid rt_cypherManager rt_partStatus rt_parts
      rt_numParts rt_fileName rt_transferMAC rt_fileSize]; [done| |done|done| |done| |].
    + eapply own_write_cm; [exact Hw2|done|]. by eapply own_write_cm.
    + by rewrite length_insert.
    + exists n0. etrans; [|exact Hf]. etrans; [by apply (own_write_other _ _ _ _ _ _ Hw2)|].
      by apply (own_write_other _ _ _ _ _ _ Hw1).
    + intros j q Hj. destruct (decide (Z.to_nat i = j)) as [<-|Hne].
      * rewrite Z2Nat.id, decide_True by (lia || set_solver).
        rewrite list_lookup_insert_eq in Hj by lia. injection Hj as <-. exists now.
        rewrite (own_write_other _ _ _ _ _ _ Hw2) by done. apply (own_write_same _ _ _ _ _ Hw1).
      * rewrite list_lookup_insert_ne in Hj by done. specialize (Hparts j q Hj).
        assert (Z.of_nat j ≠ i) by lia.
        destruct (decide (Z.of_nat j ∈ U)).
        -- rewrite decide_True by set_solver. destruct Hparts as (n1 & Hg). exists n1. rewrite <- Hg.
           rewrite (own_write_other _ _ _ _ _ _ Hw2) by done.
           apply (own_write_other _ _ _ _ _ _ Hw1). intros Heq%pretty_inj_key. lia.
        -- by rewrite decide_False by set_solver.
  - apply (within_trans _ _ s1); eapply confined_within; try apply below_refl.
    + by apply (own_write_confined _ _ _ _ _ Hw1).
    + by apply (own_write_confined _ _ _ _ _ Hw2).
Qed.

(** The manager of the fingerprints moves on its own. *)
Lemma rt_durable_cypher (s s' : S) v rt nf Uf Uf' U m' :
  kv_handle v -> rt_durable s v rt nf Uf U -> cm_durable s' (rt_kv rt) m' nf Uf' ->
  confined (prefix (cm_kv (rt_cypherManager rt))) s s' ->
  rt_durable s' v (rt_setCypher rt m') nf Uf' U.
Proof.
  intros Hv [Hp Hcm Hd Hn Hl Hok (n0 & Hf) Hparts] Hcm' Hc.
  pose proof (handle_rt v _ _ Hv Hp) as Hv'. pose proof (cm_prefix_ne _ _ _ _ _ Hcm) as Hne.
  apply not_eq_sym in Hne. constructor; try done.
  - eapply durable_frame; [done|]. by apply Hc.
  - exists n0. etrans; [|exact Hf]. by apply Hc.
  - intros i q Hi. specialize (Hparts i q Hi). destruct (decide (Z.of_nat i ∈ U)); [|done].
    destruct Hparts as (n1 & Hg). exists n1. etrans; [|exact Hg].
    apply Hc; [done|apply receivedPartKey_sep|unfold receivedPartStoreVersion; lia|done].
Qed.

(** Changes elsewhere in the store leave the transfer. *)
Lemma rt_durable_frame (s s' : S) v rt nf Uf U w :
  kv_handle v -> rt_durable s v rt nf Uf U -> within w s s' ->
  (forall u, below (rt_kv rt) u -> ~ below w u) -> rt_durable s' v rt nf Uf U.
Proof.
  intros Hv [Hp Hcm Hd Hn Hl Hok (n0 & Hf) Hparts] Hw Hapart.
  pose proof (handle_rt v _ _ Hv Hp) as Hv'.
  pose proof (Hapart _ (below_refl (rt_kv rt))) as Hr.
  pose proof (below_prefix _ _ _ (cmd_kv _ _ _ _ _ Hcm)) as Hbm%Hapart.
  pose proof (handle_cm _ _ Hv' (cmd_kv _ _ _ _ _ Hcm)) as Hvm.
  constructor; try done.
  - destruct Hcm as [Hpm Hdm (n1 & Hk)]. constructor; [done| |].
    + eapply durable_frame; [done|]. by apply Hw.
    + exists n1. rewrite <- Hk. by apply Hw.
  - eapply durable_frame; [done|]. by apply Hw.
  - exists n0. rewrite <- Hf. by apply Hw.
  - intros i q Hi. specialize (Hparts i q Hi). destruct (decide (Z.of_nat i ∈ U)); [|done].
    destruct Hparts as (n1 & Hg). exists n1. rewrite <- Hg.
    apply Hw; [done|apply receivedPartKey_sep|unfold receivedPartStoreVersion; lia|done].
Qed.

(** ** Loading *)

Lemma loadParts_ok (s : S) v sv (U : gset Z) n parts k :
  sv_refines sv n U -> 0 <= k -> k + Z.of_nat (length parts) <= n ->
  (forall i part, parts !! i = Some part ->
    if decide (k + Z.of_nat i ∈ U) then
      exists now, kv_Get v s (makeReceivedPartKey (k + Z.of_nat i)) receivedPartStoreVersion
        = inr (mkObject receivedPartStoreVersion now part)
    else part = []) ->
  loadParts v sv s (zseq k (k + Z.of_nat (length parts))) = Ok parts.
Proof.
  intros Hr. revert k. induction parts as [|part parts IH]; intros k Hk Hn Hparts.
  { cbn [length]. by rewrite zseq_nil by lia. }
  cbn [length] in *. rewrite zseq_cons by lia. cbn [loadParts].
  rewrite (used_ok sv k) by (destruct Hr; subst; done || lia).
  rewrite (ref_used _ _ _ Hr) by done. cbn [mbind result_bind].
  replace (k + Z.of_nat (Datatypes.S (length parts))) with (k + 1 + Z.of_nat (length parts)) by lia.
  rewrite IH; [|lia..|].
  - cbn [mbind result_bind]. f_equal. f_equal. specialize (Hparts 0%nat part eq_refl).
    rewrite Z.add_0_r in Hparts. destruct (decide (k ∈ U)) as [Hin|Hin].
    + rewrite bool_decide_true by done. destruct Hparts as (now & Hg). unfold loadPart. by rewrite Hg.
    + by rewrite bool_decide_false by done.
  - intros i q Hi. specialize (Hparts (Datatypes.S i) q Hi).
    replace (k + 1 + Z.of_nat i) with (k + Z.of_nat (Datatypes.S i)) by lia. done.
Qed.

(** A reload gives the transfer back, without its last callback fingerprint. *)
Lemma loadReceivedTransfer_ok (s : S) v rt nf Uf U :
  rt_durable s v rt nf Uf U -> loadReceivedTransfer (rt_tid rt) v s = Done s (rt_setFp rt "").
Proof.
  intros [Hp Hcm Hd Hn Hl Hok (n0 & Hf) Hparts]. unfold loadReceivedTransfer.
  act_step. erewrite bind_Done by (apply annotate_Done; by eapply LoadCypherManager_ok).
  act_step. cbn [Data].
  erewrite bind_Done by (apply annotate_Done, pureResult_Done; unfold unmarshalReceivedTransfer,
    ReceivedTransfer_marshal; rewrite json_roundtrip by exact Hok; reflexivity).
  cbn [rd_FileName rd_TransferMAC rd_NumParts rd_FileSize].
  erewrite bind_Done by (apply annotate_Done; by eapply loadVector_ok).
  erewrite bind_Done by (unfold reading; apply pureResult_Done;
    rewrite <- Hl; rewrite <- (Z.add_0_l (Z.of_nat _)); eapply loadParts_ok;
    [apply Hd|done|rewrite Hl; done|exact Hparts]).
  unfold rt_setFp. done.
Qed.
End laws.

(** ** What a transfer promises

    The receiver's view: each part is absent or has the bytes that came last,
    whatever the order of arrival and however often the program restarts. *)

Inductive rcvOp :=
| RcvPart (part : list byte) (i : Z)
| RcvRestart.

Definition rcvOpOk (op : rcvOp) : Prop := match op with RcvPart _ i => 0 <= i | RcvRestart => True end.

(** The contract: the parts, and the errors returned. *)
Definition rcvAbs (st : list (option (list byte))) (op : rcvOp) :
    list (option (list byte)) * option error :=
  match op with
  | RcvPart part i =>
      let max := Z.of_nat (length st) - 1 in
      if i <=? max then (<[Z.to_nat i := Some part]> st, None)
      else (st, Some (Errorf "part number %d out of range of max %d" [i; max]))
  | RcvRestart => (st, None)
  end.

Fixpoint rcvAbsRun (st : list (option (list byte))) (ops : list rcvOp) :
    list (option (list byte)) * list (option error) :=
  match ops with
  | [] => (st, [])
  | op :: ops =>
      let '(st, e) := rcvAbs st op in
      let '(st, es) := rcvAbsRun st ops in (st, e :: es)
  end.

Definition received (st : list (option (list byte))) (i : Z) : Prop :=
  exists part, st !! Z.to_nat i = Some (Some part).

#[export] Instance received_dec st i : Decision (received st i).
Proof.
  unfold received. destruct (st !! Z.to_nat i) as [[part|]|] eqn:E.
  - left. by exists part.
  - right. by intros [? ?].
  - right. by intros [? ?].
Defined.

Section contract.
Context {S Key TID : Type} `{EKVLaws S} {rel : EKVReliable S} `{FtCryptoLaws Key TID}.
Context `{JsonCodec receivedTransferDisk}.
Implicit Types rt : ReceivedTransfer Key TID.

Definition rcvExec (v : kv) (op : rcvOp) (s : S) rt (now : Time) :
    option (S * ReceivedTransfer Key TID * option error) :=
  match op with
  | RcvPart part i =>
      match ReceivedTransfer_AddPart part i now (s, rt) with
      | Done (s, rt) _ => Some (s, rt, None)
      | Fail (s, rt) e => Some (s, rt, Some e)
      | Crash => None
      end
  | RcvRestart =>
      match loadReceivedTransfer (rt_tid rt) v s with
      | Done s rt => Some (s, rt, None)
      | _ => None
      end
  end.

Fixpoint rcvRun (v : kv) (ops : list rcvOp) (s : S) rt (now : Time) :
    option (S * ReceivedTransfer Key TID * list (option error)) :=
  match ops with
  | [] => Some (s, rt, [])
  | op :: ops =>
      '(s, rt, e) ← rcvExec v op s rt now;
      '(s, rt, es) ← rcvRun v ops s rt now;
      Some (s, rt, e :: es)
  end.

(** The transfer shows the contract's state. *)
Definition rcv_refines (s : S) (v : kv) rt (nf : Z) (Uf : gset Z) (st : list (option (list byte))) :
    Prop :=
  exists U, rt_durable s v rt nf Uf U /\ rt_parts rt = default [] <$> st /\
    (forall i, 0 <= i -> i ∈ U <-> received st i).

Lemma rr_length (s : S) v rt nf Uf st :
  rcv_refines s v rt nf Uf st -> Z.of_nat (length st) = rt_numParts rt.
Proof. intros (U & Hd & Hp & _). rewrite <- (rtd_length _ _ _ _ _ _ Hd), Hp, length_fmap. done. Qed.

Lemma received_insert st i part j :
  0 <= i < Z.of_nat (length st) -> 0 <= j ->
  received (<[Z.to_nat i := Some part]> st) j <-> j = i \/ received st j.
Proof.
  intros Hi Hj. unfold received. destruct (decide (j = i)) as [->|Hne].
  - rewrite list_lookup_insert_eq by lia. split; [by left|by eauto].
  - rewrite list_lookup_insert_ne by lia. split; [by right|by intros [?|?]].
Qed.

Lemma rcvExec_refines v op (s : S) rt nf Uf st now :
  kv_handle v -> rcv_refines s v rt nf Uf st -> rcvOpOk op ->
  exists s' rt', rcvExec v op s rt now = Some (s', rt', snd (rcvAbs st op)) /\
    rcv_refines s' v rt' nf Uf (fst (rcvAbs st op)) /\ rt_fileSize rt' = rt_fileSize rt /\
    rt_numParts rt' = rt_numParts rt /\ rt_tid rt' = rt_tid rt.
Proof.
  intros Hv Hr Hop. pose proof (rr_length _ _ _ _ _ _ Hr) as Hl. destruct Hr as (U & Hd & Hp & Hset).
  destruct op as [part i|]; cbn [rcvExec rcvAbs].
  - destruct (Z.leb_spec i (Z.of_nat (length st) - 1)) as [Hi|Hi].
    + destruct (AddPart_ok s v rt nf Uf U part i now Hv Hd) as (s' & rt' & -> & Hd' & Hrt & _);
        [simpl in Hop; lia|].
      exists s', rt'. split; [done|]. rewrite Hrt. split_and!; try done. rewrite <- Hrt.
      exists ({[i]} ∪ U). split; [done|]. split; cbn [fst].
      * rewrite Hrt. cbn [rt_parts rt_setStatus rt_setParts]. by rewrite Hp, list_fmap_insert.
      * intros j Hj. rewrite received_insert by (simpl in Hop; lia).
        rewrite elem_of_union, elem_of_singleton, Hset by done. done.
    + exists s, rt. unfold ReceivedTransfer_AddPart.
      rewrite (rtd_length _ _ _ _ _ _ Hd), <- Hl, (proj2 (Z.ltb_lt _ _)) by lia.
      split; [done|]. split_and!; try done. by exists U.
  - rewrite (loadReceivedTransfer_ok s v rt nf Uf U Hd). do 2 eexists. split; [done|].
    split_and!; try done. exists U. split; [by destruct Hd|done].
Qed.

Lemma rcvRun_refines v ops (s : S) rt nf Uf st now :
  kv_handle v -> rcv_refines s v rt nf Uf st -> Forall rcvOpOk ops ->
  exists s' rt', rcvRun v ops s rt now = Some (s', rt', snd (rcvAbsRun st ops)) /\
    rcv_refines s' v rt' nf Uf (fst (rcvAbsRun st ops)) /\ rt_fileSize rt' = rt_fileSize rt /\
    rt_numParts rt' = rt_numParts rt /\ rt_tid rt' = rt_tid rt.
Proof.
  intros Hv Hr Hops. revert s rt st Hr. induction Hops as [|op ops Hop Hops IH]; intros s rt st Hr.
  { by exists s, rt. }
  destruct (rcvExec_refines v op s rt nf Uf st now Hv Hr Hop) as (s1 & rt1 & He & Hr1 & Hs1 & Hn1 & Ht1).
  cbn [rcvRun rcvAbsRun]. rewrite He. cbn [mbind option_bind].
  destruct (rcvAbs st op) as [st1 e]. cbn [fst snd] in *.
  destruct (IH s1 rt1 st1 Hr1) as (s2 & rt2 & -> & Hr2 & Hs2 & Hn2 & Ht2).
  destruct (rcvAbsRun st1 ops) as [st2 es]. cbn [fst snd mbind option_bind] in *.
  exists s2, rt2. split_and!; [done|done|congruence..].
Qed.

Lemma NumReceived_ok (s : S) v rt nf Uf st :
  rcv_refines s v rt nf Uf st ->
  ReceivedTransfer_NumReceived rt
    = Z.of_nat (length (filter (received st) (zseq 0 (rt_numParts rt)))).
Proof.
  intros (U & Hd & Hp & Hset). unfold ReceivedTransfer_NumReceived.
  rewrite (used_number _ _ _ (dur_refines _ _ _ _ _ _ (rtd_status _ _ _ _ _ _ Hd))).
  rewrite (filter_ext_in _ (received st)).
  - apply wrapu_small. pose proof (length_filter (received st) (zseq 0 (rt_numParts rt))) as Hle.
    rewrite length_zseq in Hle. pose proof (rtd_num _ _ _ _ _ _ Hd) as [? ?]. split; lia.
  - intros i Hi%elem_of_zseq. apply Hset. lia.
Qed.

Lemma GetFile_ok (s : S) v rt nf Uf st :
  rcv_refines s v rt nf Uf st -> 0 <= rt_fileSize rt ->
  ReceivedTransfer_GetFile rt = take (Z.to_nat (rt_fileSize rt)) (concat (default [] <$> st)).
Proof.
  intros (U & Hd & Hp & Hset) Hs. unfold ReceivedTransfer_GetFile. rewrite Hp.
  destruct (Z.ltb_spec (rt_fileSize rt) (Z.of_nat (length (concat (default [] <$> st))))); [done|].
  rewrite take_ge by lia. done.
Qed.

Lemma received_replicate n i : ~ received (replicate n None) i.
Proof. intros [part Hp]. by apply lookup_replicate in Hp as []. Qed.

Lemma rcv_refines_new (s : S) v rt nf Uf :
  rt_durable s v rt nf Uf ∅ -> rcv_refines s v rt nf Uf (replicate (Z.to_nat (rt_numParts rt)) None).
Proof.
  intros Hd. exists ∅. split; [done|]. split.
  - rewrite fmap_replicate. apply list_eq. intros i.
    pose proof (rtd_length _ _ _ _ _ _ Hd) as Hl.
    destruct (rt_parts rt !! i) as [part|] eqn:E.
    + pose proof (rtd_parts _ _ _ _ _ _ Hd i part E) as Hpart.
      rewrite decide_False in Hpart by set_solver. subst part.
      apply lookup_lt_Some in E. symmetry. apply lookup_replicate. split; [done|lia].
    + apply lookup_ge_None in E. symmetry. apply lookup_replicate_None. lia.
  - intros i Hi. split; [set_solver|]. by intros Hr%received_replicate.
Qed.

(** C14: a received transfer refines the receiver's view.  From a new transfer,
    parts in any order, repeated or out of range, with restarts anywhere in
    between, leave exactly the parts of the contract and return exactly its
    errors; [NumReceived] is the number of parts received, and [GetFile] is
    what was received, in order, cut to the size of the file. *)
Theorem ReceivedTransfer_refines (s : S) v v' vm key tid fileName mac fileSize numParts numFps now ops :
  kv_handle v -> kv_Prefix v (makeReceivedTransferPrefix tid) = Ok v' ->
  kv_Prefix v' cypherManagerPrefix = Ok vm ->
  is_u 16 numParts -> is_u 16 numFps -> is_u 32 fileSize ->
  json_ok (mkReceivedTransferDisk fileName mac numParts fileSize) ->
  Forall rcvOpOk ops ->
  exists s0 rt0 s' rt',
    newReceivedTransfer key tid fileName mac fileSize numParts numFps v now s = Done s0 rt0 /\
    let '(st, es) := rcvAbsRun (replicate (Z.to_nat numParts) None) ops in
    rcvRun v ops s0 rt0 now = Some (s', rt', es) /\
    rt_parts rt' = default [] <$> st /\
    ReceivedTransfer_NumReceived rt' = Z.of_nat (length (filter (received st) (zseq 0 numParts))) /\
    ReceivedTransfer_GetFile rt' = take (Z.to_nat fileSize) (concat (default [] <$> st)).
Proof.
  intros Hv Hp Hpm Hn Hf Hs Hok Hops.
  destruct (newReceivedTransfer_ok s key tid fileName mac fileSize numParts numFps v v' vm now)
    as (s0 & rt0 & Hnew & Hd & Ht & Hsz & Hnp & _); [done..|].
  pose proof (rcv_refines_new s0 v rt0 numFps ∅ Hd) as Hr. rewrite Hnp in Hr.
  destruct (rcvRun_refines v ops s0 rt0 numFps ∅ _ now Hv Hr Hops)
    as (s' & rt' & Hrun & Hr' & Hsz' & Hnp' & _).
  exists s0, rt0, s', rt'. split; [done|].
  destruct (rcvAbsRun (replicate (Z.to_nat numParts) None) ops) as [st es]. cbn [fst snd] in *.
  split_and!; [done|by destruct Hr' as (U & _ & Hp' & _)| |].
  - rewrite (NumReceived_ok s' v rt' numFps ∅ st Hr'). by rewrite Hnp', Hnp.
  - rewrite (GetFile_ok s' v rt' numFps ∅ st Hr') by (rewrite Hsz', Hsz; apply Hs).
    by rewrite Hsz', Hsz.
Qed.
End contract.

(** ** Deleting *)

Section deleting.
Context {S Key TID : Type} `{EKVLaws S} {rel : EKVReliable S} `{FtCryptoLaws Key TID}.
Context `{JsonCodec receivedTransferDisk}.
Implicit Types rt : ReceivedTransfer Key TID.

(** [Delete] succeeds; the transfer cannot be loaded any more, and the keys of
    the parts are not touched. *)
Lemma Delete_ok (s : S) v rt nf Uf U :
  kv_handle v -> rt_durable s v rt nf Uf U ->
  exists s', ReceivedTransfer_Delete rt s = Done s' tt /\ within (rt_kv rt) s s' /\
    (exists e, loadReceivedTransfer (rt_tid rt) v s' = Fail s' e) /\
    (forall i, kv_Get (rt_kv rt) s' (makeReceivedPartKey i) 0
             = kv_Get (rt_kv rt) s (makeReceivedPartKey i) 0).
Proof.
  intros Hv Hd. pose proof (handle_rt v _ _ Hv (rtd_kv _ _ _ _ _ _ Hd)) as Hv'.
  pose proof (rtd_cypher _ _ _ _ _ _ Hd) as Hcm. unfold ReceivedTransfer_Delete.
  destruct (CypherManager_Delete_ok s (rt_kv rt) _ nf Uf Hv' Hcm) as (s1 & Hs1 & Hc1 & e1 & He1).
  act_step.
  destruct (kv_Delete_ok (rt_kv rt) s1 receivedTransferStoreKey receivedTransferStoreVersion) as [s2 Hs2].
  act_step. unfold StateVector_Delete.
  destruct (rtd_status _ _ _ _ _ _ Hd) as [_ Hdis Hk Hkv _]. rewrite Hdis, Hk, Hkv.
  destruct (kv_Delete_ok (rt_kv rt) s2 (makeStateVectorKey receivedTransferStatusKey)
    currentStateVectorVersion) as [s3 Hs3].
  exists s3. split; [by apply annotate_Done, write_Done|].
  pose proof (kv_Delete_confined _ _ _ _ _ _ Hs2 Hv' eq_refl ltac:(unfold receivedTransferStoreVersion; lia)) as Hc2.
  pose proof (kv_Delete_confined _ _ _ _ _ _ Hs3 Hv' eq_refl ltac:(unfold currentStateVectorVersion; lia)) as Hc3.
  pose proof (cmd_kv _ _ _ _ _ Hcm) as Hpm. pose proof (handle_cm _ _ Hv' Hpm) as Hvm.
  pose proof (cm_prefix_ne _ _ _ _ _ Hcm) as Hne. split_and!.
  - apply (within_trans _ _ s1); [|apply (within_trans _ _ s2)]; eapply confined_within; try done;
      [by eapply below_prefix|apply below_refl|apply below_refl].
  - eexists. unfold loadReceivedTransfer.
    erewrite bind_Done by (apply pureResult_Done; exact (rtd_kv _ _ _ _ _ _ Hd)).
    erewrite bind_Fail; [done|]. apply annotate_Fail. unfold LoadCypherManager.
    erewrite bind_Done by (apply pureResult_Done; exact Hpm).
    apply bind_Fail, annotate_Fail. unfold loadKey. apply bind_Fail. unfold read.
    rewrite (Hc3 _ _ _ Hvm), (Hc2 _ _ _ Hvm), He1 by (done || unfold cypherManagerKeyStoreVersion; lia).
    done.
  - intros i. rewrite (delete_other _ _ _ _ _ Hs3), (delete_other _ _ _ _ _ Hs2) by done.
    apply Hc1; [done|apply receivedPartKey_sep|lia|done].
Qed.

(** [Delete] leaves the file in storage.  Its comment says it deletes all
    data of the transfer; it succeeds and the transfer is no longer found, but
    every part that was received is still stored and readable. *)
Theorem ReceivedTransfer_Delete_leaves_parts (s : S) v rt nf Uf st :
  kv_handle v -> rcv_refines s v rt nf Uf st ->
  exists s', ReceivedTransfer_Delete rt s = Done s' tt /\
    (exists e, loadReceivedTransfer (rt_tid rt) v s' = Fail s' e) /\
    (forall i part, st !! i = Some (Some part) -> loadPart (Z.of_nat i) (rt_kv rt) s' = inr part).
Proof.
  intros Hv (U & Hd & Hp & Hset). destruct (Delete_ok s v rt nf Uf U Hv Hd) as (s' & Hdel & _ & Hload & Hkeep).
  exists s'. split_and!; [done|done|]. intros i part Hi.
  assert (rt_parts rt !! i = Some part) as Hpart by (rewrite Hp, list_lookup_fmap, Hi; done).
  pose proof (rtd_parts _ _ _ _ _ _ Hd i part Hpart) as Hst.
  rewrite decide_True in Hst by (apply Hset; [lia|exists part; by rewrite Nat2Z.id]).
  destruct Hst as (now & Hg). unfold loadPart, receivedPartStoreVersion in *. by rewrite Hkeep, Hg.
Qed.
End deleting.

(** ** Examples *)

Module ReceivedExample.
Export FtExample.

#[export] Instance receivedTransferDisk_eq_dec : EqDecision receivedTransferDisk.
Proof. solve_decision. Defined.

#[export] Program Instance receivedTransferDisk_countable : Countable receivedTransferDisk :=
  inj_countable'
    (fun d => (rd_FileName d, rd_TransferMAC d, rd_NumParts d, rd_FileSize d))
    (fun '(a, b, c, d) => mkReceivedTransferDisk a b c d) _.
Next Obligation. by intros []. Qed.

#[export] Instance ex_receivedCodec : JsonCodec receivedTransferDisk := countableCodec _.

Definition ex_rv : kv := Eval vm_compute in
  match kv_Prefix NewKV (makeReceivedTransferPrefix (3 : Z)) with Ok v => v | _ => NewKV end.
Definition ex_rvm : kv := Eval vm_compute in
  match kv_Prefix ex_rv cypherManagerPrefix with Ok v => v | _ => NewKV end.

Lemma ex_rv_ok : kv_Prefix NewKV (makeReceivedTransferPrefix (3 : Z)) = Ok ex_rv.
Proof. vm_compute. reflexivity. Qed.
Lemma ex_rvm_ok : kv_Prefix ex_rv cypherManagerPrefix = Ok ex_rvm.
Proof. vm_compute. reflexivity. Qed.

(** Three parts of two bytes of a five-byte file. *)
Definition ex_rcvOps : list rcvOp :=
  [RcvPart [x05; x00] 2; RcvPart [x01; x02] 0; RcvRestart; RcvPart [xff] 9; RcvPart [x03; x04] 1;
   RcvPart [x01; x02] 0].
End ReceivedExample.
Import ReceivedExample.

Lemma ReceivedTransfer_refines_witness :
  exists s0 rt0 s' (rt' : ReceivedTransfer Z Z),
    newReceivedTransfer 7 3 "f" [] 5 3 4 NewKV 1 (∅ : MemStore) = Done s0 rt0 /\
    rcvRun NewKV ex_rcvOps s0 rt0 1
      = Some (s', rt', [None; None; None; Some (Errorf "part number %d out of range of max %d" [9; 2]);
                        None; None]) /\
    ReceivedTransfer_NumReceived rt' = 3 /\
    ReceivedTransfer_GetFile rt' = [x01; x02; x03; x04; x05].
Proof.
  destruct (ReceivedTransfer_refines (∅ : MemStore) NewKV ex_rv ex_rvm (7 : Z) (3 : Z) "f" [] 5 3 4 1
    ex_rcvOps handle_new ex_rv_ok ex_rvm_ok ltac:(split; lia) ltac:(split; lia) ltac:(split; lia) I
    ltac:(repeat constructor; simpl; lia)) as (s0 & rt0 & s' & rt' & H1 & H2 & _ & H4 & H5).
  exists s0, rt0, s', rt'. split; [exact H1|]. split; [exact H2|].
  split; [etrans; [exact H4|reflexivity]|etrans; [exact H5|reflexivity]].
Defined.

Lemma ReceivedTransfer_Delete_leaves_parts_witness :
  exists s0 rt0 s1 (rt1 : ReceivedTransfer Z Z) s2,
    newReceivedTransfer 7 3 "f" [] 5 3 4 NewKV 1 (∅ : MemStore) = Done s0 rt0 /\
    rcvRun NewKV ex_rcvOps s0 rt0 1 = Some (s1, rt1, snd (rcvAbsRun (replicate 3 None) ex_rcvOps)) /\
    ReceivedTransfer_Delete rt1 s1 = Done s2 tt /\
    loadPart 1 (rt_kv rt1) s2 = inr [x03; x04].
Proof.
  destruct (newReceivedTransfer_ok (∅ : MemStore) (7 : Z) (3 : Z) "f" [] 5 3 4 NewKV ex_rv ex_rvm 1
    handle_new ex_rv_ok ex_rvm_ok ltac:(split; lia) ltac:(split; lia) I)
    as (s0 & rt0 & H1 & Hd & _ & _ & Hn & _).
  pose proof (rcv_refines_new s0 NewKV rt0 4 ∅ Hd) as Hr. rewrite Hn in Hr.
  destruct (rcvRun_refines NewKV ex_rcvOps s0 rt0 4 ∅ (replicate 3 None) 1 handle_new Hr
    ltac:(repeat constructor; simpl; lia)) as (s1 & rt1 & H2 & Hr1 & _).
  destruct (ReceivedTransfer_Delete_leaves_parts s1 NewKV rt1 4 ∅ _ handle_new Hr1)
    as (s2 & H3 & _ & H4).
  exists s0, rt0, s1, rt1, s2. split; [exact H1|]. split; [exact H2|]. split; [exact H3|].
  exact (H4 1%nat [x03; x04] eq_refl).
Defined.
