(* ===== verification/Processor.v ===== *)
(** * Receiving a file part

    [fileTransfer/processor.go]: a message that arrives under one of the
    fingerprints of a transfer is decrypted, parsed and added to the file. *)

From S2P Require Import Prelude GoBytes KV Json StateVector Effects FileMessage FtCypher ReceivedTransfer.

Section code.
Context {S Key TID : Type} `{EKV S} `{FtCrypto Key TID}.

(** A call on the cypher manager of the transfer. *)
Definition onCypher {A} (m : act (S * CypherManager Key) A) : act (S * ReceivedTransfer Key TID) A :=
  zoom (fun '(s, rt) => (s, rt_cypherManager rt)) (fun '(s, m) '(_, rt) => (s, rt_setCypher rt m)) m.

(** Errors are logged; the result tells whether the progress callback is called. *)
Definition processor_Process (fpNum : Z) (msg : FtMessage) (now : Time) :
    act (S * ReceivedTransfer Key TID) bool := fun st =>
  match onCypher (Cypher_Decrypt fpNum msg now) st with
  | Done st decryptedPart =>
      match UnmarshalPartMessage decryptedPart with
      | Ok partMsg =>
          match PartMessage_GetPartNum partMsg with
          | Ok partNum =>
              match ReceivedTransfer_AddPart (PartMessage_GetPart partMsg) partNum now st with
              | Done st _ => Done st true
              | Fail st _ => Done st false
              | Crash => Crash
              end
          | _ => Crash
          end
      | Err _ => Done st false
      | Panic => Crash
      end
  | Fail st _ => Done st false
  | Crash => Crash
  end.
End code.

Section laws.
Context {S Key TID : Type} `{EKVLaws S} {rel : EKVReliable S} `{FtCryptoLaws Key TID}.
Context `{JsonCodec receivedTransferDisk}.
Implicit Types rt : ReceivedTransfer Key TID.

(** What processing a message never changes. *)
Definition same_transfer rt rt' : Prop :=
  rt_tid rt' = rt_tid rt /\ rt_fileSize rt' = rt_fileSize rt /\ rt_numParts rt' = rt_numParts rt /\
  rt_kv rt' = rt_kv rt /\ rt_fileName rt' = rt_fileName rt /\
  cm_key (rt_cypherManager rt') = cm_key (rt_cypherManager rt).

(** Decryption of any message under one of the transfer's numbers. *)
Lemma onCypher_Decrypt_ok (s : S) v rt nf Uf U k msg now :
  kv_handle v -> rt_durable s v rt nf Uf U -> 0 <= k < nf ->
  match DecryptPart (cm_key (rt_cypherManager rt)) (GetContents msg) (GetMac msg) k (GetKeyFP msg) with
  | inl e => onCypher (Cypher_Decrypt k msg now) (s, rt) = Fail (s, rt) e
  | inr contents => exists s' rt', onCypher (Cypher_Decrypt k msg now) (s, rt) = Done (s', rt') contents /\
      rt_durable s' v rt' nf ({[k]} ∪ Uf) U /\ rt' = rt_setCypher rt (rt_cypherManager rt') /\
      cm_key (rt_cypherManager rt') = cm_key (rt_cypherManager rt) /\ within (rt_kv rt) s s'
  end.
Proof.
  intros Hv Hd Hk. pose proof (handle_rt v _ _ Hv (rtd_kv _ _ _ _ _ _ Hd)) as Hv'.
  pose proof (rtd_cypher _ _ _ _ _ _ Hd) as Hcm.
  unfold onCypher, zoom, Cypher_Decrypt.
  destruct (DecryptPart _ _ _ _ _) as [e|contents].
  - by destruct rt.
  - destruct (durable_Use s _ _ _ nf Uf k now (cmd_vector _ _ _ _ _ Hcm) Hk)
      as (s' & sv' & -> & Hd' & o & Ho & Hset).
    exists s'. eexists. split; [done|].
    pose proof (cm_durable_step _ _ _ _ _ _ _ _ _ Hcm Hd' Ho Hset) as Hcm'.
    pose proof (cm_step_confined _ _ _ _ _ _ _ Hv' Hcm Ho Hset) as Hc.
    split_and!; [by eapply rt_durable_cypher|done|done|].
    eapply confined_within; [exact Hc|]. by eapply below_prefix, (cmd_kv _ _ _ _ _ Hcm).
Qed.

(** Any message leaves a durable transfer. *)
Lemma Process_ok (s : S) v rt nf Uf U k msg now :
  kv_handle v -> rt_durable s v rt nf Uf U -> 0 <= k < nf ->
  exists s' rt' b Uf' U', processor_Process k msg now (s, rt) = Done (s', rt') b /\
    rt_durable s' v rt' nf Uf' U' /\ same_transfer rt rt' /\ within (rt_kv rt) s s'.
Proof.
  intros Hv Hd Hk. unfold processor_Process.
  pose proof (onCypher_Decrypt_ok s v rt nf Uf U k msg now Hv Hd Hk) as Hdec.
  destruct (DecryptPart _ _ _ _ _) as [e|contents].
  { rewrite Hdec. exists s, rt, false, Uf, U. by split_and!. }
  destruct Hdec as (s1 & rt1 & -> & Hd1 & Hrt1 & Hkey1 & Hw1).
  assert (same_transfer rt rt1) as Hsame1 by (rewrite Hrt1; done).
  destruct (decide (2 <= length contents)%nat) as [Hlen|Hlen].
  2: { unfold UnmarshalPartMessage, fmMinSize, partNumLen.
       rewrite (proj2 (Z.ltb_lt _ _)) by lia. by exists s1, rt1, false, ({[k]} ∪ Uf), U. }
  rewrite UnmarshalPartMessage_ok, partMessage_GetPartNum, partMessage_GetPart by done.
  set (i := le_decode (take 2 contents)).
  assert (0 <= i) as Hi0 by apply le_decode_range.
  destruct (decide (i < rt_numParts rt1)) as [Hi|Hi].
  - destruct (AddPart_ok s1 v rt1 nf _ U (drop 2 contents) i now Hv Hd1) as (s2 & rt2 & -> & Hd2 & Hrt2 & Hw2);
      [lia|].
    exists s2, rt2, true, ({[k]} ∪ Uf), ({[i]} ∪ U). split; [done|]. split; [done|]. split.
    + rewrite Hrt2. exact Hsame1.
    + apply (within_trans _ _ s1); [done|]. replace (rt_kv rt) with (rt_kv rt1) by apply Hsame1. done.
  - unfold ReceivedTransfer_AddPart. rewrite (rtd_length _ _ _ _ _ _ Hd1), (proj2 (Z.ltb_lt _ _)) by lia.
    by exists s1, rt1, false, ({[k]} ∪ Uf), U.
Qed.

(** The packet of a part, encrypted by the sender, adds the part. *)
Lemma Process_delivers (s : S) v rt nf Uf st k i size part now :
  kv_handle v -> rcv_refines s v rt nf Uf st -> 0 <= k < nf ->
  is_u 16 i -> i < rt_numParts rt -> (length part + 2 = size)%nat ->
  let '(c, mac, fp) := Cypher_Encrypt (cm_key (rt_cypherManager rt)) k (partBytes size i part) in
  exists s' rt', processor_Process k (mkFtMessage c mac fp) now (s, rt) = Done (s', rt') true /\
    rcv_refines s' v rt' nf ({[k]} ∪ Uf) (<[Z.to_nat i := Some part]> st) /\ same_transfer rt rt' /\
    within (rt_kv rt) s s'.
Proof.
  intros Hv Hr Hk Hiu Hi Hsize. pose proof (rr_length _ _ _ _ _ _ Hr) as Hl.
  destruct Hr as (U & Hd & Hp & Hset). unfold Cypher_Encrypt.
  destruct (EncryptPart _ _ k _) as [c mac] eqn:He.
  pose proof (onCypher_Decrypt_ok s v rt nf Uf U k
    (mkFtMessage c mac (GenerateFingerprint (cm_key (rt_cypherManager rt)) k)) now Hv Hd Hk) as Hdec.
  cbn [GetContents GetMac GetKeyFP] in Hdec. rewrite (part_roundtrip _ _ _ _ _ _ He) in Hdec.
  destruct Hdec as (s1 & rt1 & Hdec & Hd1 & Hrt1 & Hkey1 & Hw1).
  assert (same_transfer rt rt1) as Hsame1 by (rewrite Hrt1; done).
  unfold processor_Process. rewrite Hdec.
  destruct (partBytes_parsed size i part) as (m & -> & -> & ->); [done|lia|].
  replace (size - 2 - length part)%nat with 0%nat by lia. cbn [replicate]. rewrite app_nil_r.
  destruct (AddPart_ok s1 v rt1 nf _ U part i now Hv Hd1) as (s2 & rt2 & -> & Hd2 & Hrt2 & Hw2).
  { destruct Hsame1 as (_ & _ & -> & _). destruct Hiu. lia. }
  exists s2, rt2. split; [done|]. split; [|split].
  - exists ({[i]} ∪ U). split; [done|]. split.
    + rewrite Hrt2. cbn [rt_parts rt_setStatus rt_setParts]. rewrite Hrt1.
      cbn [rt_parts rt_setCypher]. by rewrite Hp, list_fmap_insert.
    + intros j Hj. destruct Hiu. rewrite received_insert by lia.
      rewrite elem_of_union, elem_of_singleton, Hset by done. done.
  - rewrite Hrt2. exact Hsame1.
  - apply (within_trans _ _ s1); [done|]. replace (rt_kv rt) with (rt_kv rt1) by apply Hsame1. done.
Qed.
End laws.
