(* ===== verification/Received.v ===== *)
(** * The list of received transfers

    [fileTransfer/store/received.go]: the transfers being received, by their
    identifier, the list of identifiers in storage, and the start-up that loads
    them again.  Transfers are shared with the code that receives their parts,
    so the map holds places of a heap; an empty place is a nil pointer. *)

From S2P Require Import Prelude GoBytes KV Base64 Json StateVector Effects FtCypher ReceivedTransfer Processor.

Definition receivedTransfersStorePrefix : string := "ReceivedFileTransfersPrefix".
Definition receivedTransfersStoreKey : string := "ReceivedFileTransfers".
Definition receivedTransfersStoreVersion : Z := 0.

Record Received (Key TID : Type) `{FtCrypto Key TID} := mkReceived {
  rc_transfers : gmap TID (option nat);
  rc_heap : list (ReceivedTransfer Key TID);
  rc_kv : kv;
}.
Arguments mkReceived {Key TID _}.
Arguments rc_transfers {Key TID _}.
Arguments rc_heap {Key TID _}.
Arguments rc_kv {Key TID _}.

(** [json.Unmarshal] into a list of transfer identifiers. *)
Definition unmarshalTransferIdList {TID} `{JsonCodec (list TID)} (data : list byte) :
    result (list TID) :=
  match json_Unmarshal data with
  | Some l => Ok l
  | None => Err (Errorf "json" [])
  end.

Section code.
Context {S Key TID : Type} `{EKV S} `{FtCrypto Key TID}.
Context `{JsonCodec receivedTransferDisk} `{JsonCodec (list TID)}.
Context (iter : gmap TID (option nat) -> list TID).

Abbreviation Received := (Received Key TID).

Definition marshalReceivedTransfersMap (transfers : gmap TID (option nat)) : list byte :=
  json_Marshal (iter transfers).

Definition Received_save (now : Time) : act (S * Received) unit := fun '(s, r) =>
  onStore (write (fun s => kv_Set (rc_kv r) s receivedTransfersStoreKey
    (mkObject receivedTransfersStoreVersion now (marshalReceivedTransfersMap (rc_transfers r))))) (s, r).

(** [r.transfers[tid].NumReceived()]: a nil transfer panics. *)
Definition derefTransfer (r : Received) (tid : TID) : result (nat * ReceivedTransfer Key TID) :=
  match rc_transfers r !! tid with
  | Some (Some l) => rt ← index (rc_heap r) (Z.of_nat l); Ok (l, rt)
  | _ => Panic
  end.

(** The loop of [NewOrLoadReceived]: a transfer that does not load leaves a nil
    pointer in the map, which the next line dereferences. *)
Fixpoint loadReceivedLoop (tids : list TID) (unfinished : list nat) (errCount : Z) :
    act (S * Received) (list nat * Z) := fun '(s, r) =>
  match tids with
  | [] => Done (s, r) (unfinished, errCount)
  | tid :: tids =>
      let '(s, r, errCount) :=
        match loadReceivedTransfer tid (rc_kv r) s with
        | Done s rt =>
            (s, mkReceived (<[tid := Some (length (rc_heap r))]> (rc_transfers r))
                  (rc_heap r ++ [rt]) (rc_kv r), Some errCount)
        | Fail s _ =>
            (s, mkReceived (<[tid := None]> (rc_transfers r)) (rc_heap r) (rc_kv r),
             Some (errCount + 1))
        | Crash => (s, r, None)
        end in
      match errCount, derefTransfer r tid with
      | Some errCount, Ok (l, rt) =>
          if negb (ReceivedTransfer_NumReceived rt =? ReceivedTransfer_NumParts rt)
          then loadReceivedLoop tids (unfinished ++ [l]) errCount (s, r)
          else loadReceivedLoop tids unfinished errCount (s, r)
      | _, _ => Crash
      end
  end.

Definition NewOrLoadReceived (v : kv) : act S (Received * list nat) := fun s =>
  match kv_Prefix v receivedTransfersStorePrefix with
  | Ok v =>
      let r := mkReceived ∅ [] v in
      match kv_Get v s receivedTransfersStoreKey receivedTransfersStoreVersion with
      | inl e =>
          if ekv_Exists S e then
            Fail s (Wrapf "error loading received transfer list from storage: %+v" [] e)
          else Done s (r, [])
      | inr obj =>
          match unmarshalTransferIdList (Data obj) with
          | Ok tidList =>
              match loadReceivedLoop tidList [] 0 (s, r) with
              | Done (s, r) (unfinished, errCount) =>
                  if (0 <? Z.of_nat (length tidList)) && (errCount =? Z.of_nat (length tidList))
                  then Fail s (Errorf "failed to load all %d received transfers"
                                 [Z.of_nat (length tidList)])
                  else Done s (r, unfinished)
              | Fail (s, _) e => Fail s e
              | Crash => Crash
              end
          | Err e => Fail s (Wrapf "could not unmarshal received transfer list: %+v" [] e)
          | Panic => Crash
          end
      end
  | Err e => Fail s e
  | Panic => Crash
  end.

Definition Received_AddTransfer (key : Key) (tid : TID) (fileName : string)
    (transferMAC : list byte) (fileSize numParts numFps : Z) (now : Time) :
    act (S * Received) nat := fun '(s, r) =>
  match rc_transfers r !! tid with
  | Some _ => Fail (s, r) (Errorf "received transfer with ID %s already exists in map." [])
  | None =>
      match newReceivedTransfer key tid fileName transferMAC fileSize numParts numFps (rc_kv r) now s with
      | Done s rt =>
          let l := length (rc_heap r) in
          let r := mkReceived (<[tid := Some l]> (rc_transfers r)) (rc_heap r ++ [rt]) (rc_kv r) in
          (_ ← Received_save now; mret l) (s, r)
      | Fail s e => Fail (s, r) e
      | Crash => Crash
      end
  end.

Definition Received_GetTransfer (r : Received) (tid : TID) : option (option nat) :=
  rc_transfers r !! tid.

Definition Received_RemoveTransfer (tid : TID) (now : Time) : act (S * Received) unit :=
  fun '(s, r) =>
  match rc_transfers r !! tid with
  | None => Done (s, r) tt
  | Some _ =>
      Received_save now (s, mkReceived (delete tid (rc_transfers r)) (rc_heap r) (rc_kv r))
  end.

(** An operation on the transfer at a place of the heap. *)
Definition onTransfer {A} (l : nat) (m : act (S * ReceivedTransfer Key TID) A) :
    act (S * Received) A := fun '(s, r) =>
  match rc_heap r !! l with
  | Some rt =>
      match m (s, rt) with
      | Done (s, rt) a => Done (s, mkReceived (rc_transfers r) (<[l := rt]> (rc_heap r)) (rc_kv r)) a
      | Fail (s, rt) e => Fail (s, mkReceived (rc_transfers r) (<[l := rt]> (rc_heap r)) (rc_kv r)) e
      | Crash => Crash
      end
  | None => Crash
  end.
End code.

(** ** The invariant *)

Section invariant.
Context {S Key TID : Type} `{EKVLaws S} {rel : EKVReliable S} `{FtCryptoLaws Key TID}.
Context `{JsonCodec receivedTransferDisk} `{JsonCodec (list TID)}.
Hypothesis list_ok : forall l : list TID, json_ok l.
Context (iter : gmap TID (option nat) -> list TID) `{!MapOrder iter}.
Implicit Types (r : Received Key TID) (rt : ReceivedTransfer Key TID).

(** Every transfer of the map is in the heap and durable, and the store holds
    their identifiers. *)
Record received_inv (v : kv) (s : S) r : Prop := {
  ri_handle : kv_handle v;
  ri_kv : kv_Prefix v receivedTransfersStorePrefix = Ok (rc_kv r);
  ri_transfers tid ol : rc_transfers r !! tid = Some ol ->
    exists l rt nf Uf U, ol = Some l /\ rc_heap r !! l = Some rt /\ rt_tid rt = tid /\
      is_u 16 nf /\ rt_durable s (rc_kv r) rt nf Uf U;
  ri_stored :
    match kv_Get (rc_kv r) s receivedTransfersStoreKey receivedTransfersStoreVersion with
    | inr obj => exists tids, json_Unmarshal (Data obj) = Some tids /\ NoDup tids /\
        (forall tid, tid ∈ tids <-> is_Some (rc_transfers r !! tid))
    | inl e => ekv_Exists S e = false /\ rc_transfers r = ∅
    end;
}.

Lemma rc_handle v s r : received_inv v s r -> kv_handle (rc_kv r).
Proof. intros [Hh Hp _ _]. by eapply handle_prefix. Qed.

(** What the list of transfers reads in the store is not below a transfer. *)
Lemma list_not_below v tid vt : kv_Prefix v (makeReceivedTransferPrefix tid) = Ok vt -> ~ below vt v.
Proof. apply not_below_parent. Qed.

Lemma transfer_prefix_inj (t1 t2 : TID) :
  makeReceivedTransferPrefix t1 = makeReceivedTransferPrefix t2 -> t1 = t2.
Proof.
  unfold makeReceivedTransferPrefix. intros Heq.
  apply (inj (String.append receivedTransferStorePrefix)), b64Encode_inj in Heq.
  by apply tid_Bytes_inj.
Qed.

(** A change below one transfer's handle keeps the other transfers. *)
Lemma other_transfer_kept (s s' : S) v rt nf Uf U tid vt :
  kv_handle v -> rt_durable s v rt nf Uf U -> kv_Prefix v (makeReceivedTransferPrefix tid) = Ok vt ->
  tid ≠ rt_tid rt -> within vt s s' -> rt_durable s' v rt nf Uf U.
Proof.
  intros Hv Hd Hp Hne Hw. eapply rt_durable_frame; [done..|]. intros u Hu Hu'.
  eapply (below_siblings v); [exact (rtd_kv _ _ _ _ _ _ Hd)|exact Hp| |exact Hu|exact Hu'].
  intros Heq%transfer_prefix_inj. congruence.
Qed.

(** Saving the list. *)
Lemma Received_save_ok (s : S) r now :
  kv_handle (rc_kv r) ->
  exists s', Received_save iter now (s, r) = Done (s', r) tt /\
    kv_Get (rc_kv r) s' receivedTransfersStoreKey receivedTransfersStoreVersion
      = inr (mkObject receivedTransfersStoreVersion now (json_Marshal (iter (rc_transfers r)))) /\
    confined (prefix (rc_kv r)) s s'.
Proof.
  intros Hh. unfold Received_save.
  set (obj := mkObject _ _ (marshalReceivedTransfersMap iter (rc_transfers r))).
  destruct (kv_Set_ok (rc_kv r) s receivedTransfersStoreKey obj) as [s' Hset].
  exists s'. split; [by apply onStore_Done, write_Done|].
  assert (own_write s s' (rc_kv r) receivedTransfersStoreKey obj) as Hw by done.
  split; [apply (own_write_same _ _ _ _ _ Hw)|by eapply own_write_confined].
Qed.

(** The list's own key is outside every transfer. *)
Lemma confined_transfer (s s' : S) v rt nf Uf U :
  kv_handle v -> rt_durable s v rt nf Uf U -> confined (prefix v) s s' -> rt_durable s' v rt nf Uf U.
Proof.
  intros Hv Hd Hc. pose proof (rtd_kv _ _ _ _ _ _ Hd) as Hp.
  assert (forall u key n, kv_handle u -> strContains PrefixSeparator key = false -> 0 <= n < 2 ^ 63 ->
    below (rt_kv rt) u -> kv_Get u s' key n = kv_Get u s key n) as Hsame.
  { intros u key n Hu Hk Hn Hb. apply Hc; [done..|]. by eapply below_ne. }
  destruct Hd as [_ Hcm Hd Hn Hl Hok (n0 & Hf) Hparts].
  pose proof (handle_rt v _ _ Hv Hp) as Hv'. pose proof (below_refl (rt_kv rt)) as Hb.
  constructor; try done.
  - destruct Hcm as [Hpm Hdm (n1 & Hk)]. pose proof (handle_cm _ _ Hv' Hpm).
    pose proof (below_prefix _ _ _ Hpm). constructor; [done| |].
    + eapply durable_frame; [done|]. by apply Hsame.
    + exists n1. rewrite <- Hk. by apply Hsame.
  - eapply durable_frame; [done|]. by apply Hsame.
  - exists n0. rewrite <- Hf. by apply Hsame.
  - intros i q Hi. specialize (Hparts i q Hi). destruct (decide (Z.of_nat i ∈ U)); [|done].
    destruct Hparts as (n1 & Hg). exists n1. rewrite <- Hg.
    apply Hsame; [done|apply receivedPartKey_sep|unfold receivedPartStoreVersion; lia|done].
Qed.

(** The transfers of a map that changed in one place. *)
Lemma stored_list (s : S) r now :
  kv_Get (rc_kv r) s receivedTransfersStoreKey receivedTransfersStoreVersion
    = inr (mkObject receivedTransfersStoreVersion now (json_Marshal (iter (rc_transfers r)))) ->
  match kv_Get (rc_kv r) s receivedTransfersStoreKey receivedTransfersStoreVersion with
  | inr obj => exists tids, json_Unmarshal (Data obj) = Some tids /\ NoDup tids /\
      (forall tid, tid ∈ tids <-> is_Some (rc_transfers r !! tid))
  | inl e => ekv_Exists S e = false /\ rc_transfers r = ∅
  end.
Proof.
  intros ->. exists (iter (rc_transfers r)). cbn [Data]. rewrite json_roundtrip by apply list_ok.
  split_and!; [done|apply map_order_nodup|apply map_order_elem].
Qed.

(** Adding a transfer whose identifier is not in the map. *)
Lemma AddTransfer_ok v (s : S) r key tid fileName mac fileSize numParts numFps now vt vm :
  received_inv v s r -> rc_transfers r !! tid = None ->
  kv_Prefix (rc_kv r) (makeReceivedTransferPrefix tid) = Ok vt ->
  kv_Prefix vt cypherManagerPrefix = Ok vm -> is_u 16 numParts -> is_u 16 numFps ->
  json_ok (mkReceivedTransferDisk fileName mac numParts fileSize) ->
  exists s' rt, 
    let r' := mkReceived (<[tid := Some (length (rc_heap r))]> (rc_transfers r)) (rc_heap r ++ [rt])
                (rc_kv r) in
    Received_AddTransfer iter key tid fileName mac fileSize numParts numFps now (s, r)
      = Done (s', r') (length (rc_heap r)) /\
    received_inv v s' r' /\ rt_durable s' (rc_kv r) rt numFps ∅ ∅ /\
    rt_tid rt = tid /\ rt_fileSize rt = fileSize /\ rt_numParts rt = numParts /\
    cm_key (rt_cypherManager rt) = key.
Proof.
  intros Hi Hnone Hp Hpm Hn Hf Hok. pose proof (rc_handle _ _ _ Hi) as Hh.
  unfold Received_AddTransfer. rewrite Hnone.
  destruct (newReceivedTransfer_ok s key tid fileName mac fileSize numParts numFps (rc_kv r) vt vm now)
    as (s1 & rt & -> & Hd & Ht & Hsz & Hnp & Hk & _ & Hkv & Hw); [done..|].
  set (r' := mkReceived _ _ _).
  destruct (Received_save_ok s1 r' now Hh) as (s2 & Hsave & Hget & Hc).
  exists s2, rt. cbv zeta. fold r'.
  assert (rt_durable s2 (rc_kv r) rt numFps ∅ ∅) as Hd2 by by eapply confined_transfer.
  split; [|split_and!; try done].
  { unfold mbind, act_bind. by rewrite Hsave. }
  constructor; cbn [r' rc_kv rc_transfers rc_heap]; [apply Hi|apply Hi| |by eapply (stored_list s2 r')].
  intros tid' ol Hol. destruct (decide (tid' = tid)) as [->|Hne].
  - rewrite lookup_insert_eq in Hol. injection Hol as <-.
    exists (length (rc_heap r)), rt, numFps, ∅, ∅. split_and!; try done.
    by apply list_lookup_middle.
  - rewrite lookup_insert_ne in Hol by done.
    destruct (ri_transfers _ _ _ Hi tid' ol Hol) as (l & rt' & nf & Uf & U & -> & Hl & Ht' & Hnf & Hd').
    exists l, rt', nf, Uf, U. split_and!; try done; [by apply lookup_app_l_Some|].
    eapply confined_transfer; [done| |done]. eapply other_transfer_kept; [done..|congruence|exact Hw].
Qed.

(** An operation on one transfer that keeps it durable and stays below it. *)
Lemma onTransfer_inv v (s : S) r tid l rt nf Uf U s' rt' nf' Uf' U' :
  received_inv v s r -> rc_transfers r !! tid = Some (Some l) -> rc_heap r !! l = Some rt ->
  rt_durable s (rc_kv r) rt nf Uf U ->
  rt_durable s' (rc_kv r) rt' nf' Uf' U' -> is_u 16 nf' -> rt_tid rt' = rt_tid rt ->
  within (rt_kv rt) s s' ->
  received_inv v s' (mkReceived (rc_transfers r) (<[l := rt']> (rc_heap r)) (rc_kv r)).
Proof.
  intros Hi Hl Hrt Hd Hd' Hnf' Ht Hw. pose proof (rc_handle _ _ _ Hi) as Hh.
  pose proof (rtd_kv _ _ _ _ _ _ Hd) as Hp.
  constructor; cbn [rc_kv rc_transfers rc_heap]; [apply Hi|apply Hi| |].
  - intros tid' ol Hol.
    destruct (ri_transfers _ _ _ Hi tid' ol Hol) as (l' & rt2 & nf2 & Uf2 & U2 & -> & Hl' & Ht' & Hnf2 & Hd2).
    destruct (ri_transfers _ _ _ Hi tid _ Hl) as (l1 & rt1 & ? & ? & ? & [= <-] & Hl1 & Ht1 & _ & _).
    rewrite Hrt in Hl1. injection Hl1 as <-.
    destruct (decide (l' = l)) as [->|Hne].
    + assert (rt2 = rt) as -> by congruence.
      exists l, rt', nf', Uf', U'. split_and!; try done; [|congruence].
      apply list_lookup_insert_eq. by eapply lookup_lt_Some.
    + exists l', rt2, nf2, Uf2, U2. split_and!; try done.
      * by rewrite list_lookup_insert_ne by done.
      * eapply (other_transfer_kept s s' _ rt2 _ _ _ (rt_tid rt)); [done|done|exact Hp| |exact Hw].
        intros Heq. apply Hne. rewrite Ht1, Ht' in Heq. congruence.
  - rewrite (Hw (rc_kv r) receivedTransfersStoreKey receivedTransfersStoreVersion);
      [by apply Hi|done|done|unfold receivedTransfersStoreVersion; lia|].
    by eapply not_below_parent.
Qed.

Lemma RemoveTransfer_ok v (s : S) r tid now :
  received_inv v s r ->
  exists s', Received_RemoveTransfer iter tid now (s, r)
      = Done (s', mkReceived (delete tid (rc_transfers r)) (rc_heap r) (rc_kv r)) tt /\
    received_inv v s' (mkReceived (delete tid (rc_transfers r)) (rc_heap r) (rc_kv r)).
Proof.
  intros Hi. pose proof (rc_handle _ _ _ Hi) as Hh. unfold Received_RemoveTransfer.
  set (r' := mkReceived (delete tid (rc_transfers r)) _ _).
  destruct (rc_transfers r !! tid) as [ol|] eqn:E.
  - destruct (Received_save_ok s r' now Hh) as (s' & Hsave & Hget & Hc).
    exists s'. split; [done|].
    constructor; [apply Hi|apply Hi| |by eapply (stored_list s' r')].
    intros tid' ol' Hol. cbn [r' rc_transfers] in Hol. apply lookup_delete_Some in Hol as [_ Hol].
    destruct (ri_transfers _ _ _ Hi tid' ol' Hol) as (l & rt & nf & Uf & U & -> & Hl & Ht & Hnf & Hd).
    exists l, rt, nf, Uf, U. split_and!; try done. by eapply confined_transfer.
  - exists s. assert (r' = r) as -> by (subst r'; rewrite delete_id by done; by destruct r). done.
Qed.

(** ** Start-up *)

(** What the loop builds when every transfer loads. *)
Fixpoint loadedMap (k : nat) (tids : list TID) (m : gmap TID (option nat)) : gmap TID (option nat) :=
  match tids with
  | [] => m
  | tid :: tids => loadedMap (Datatypes.S k) tids (<[tid := Some k]> m)
  end.

Definition unfinished rt : bool :=
  negb (ReceivedTransfer_NumReceived rt =? ReceivedTransfer_NumParts rt).

Fixpoint unfinishedFrom (k : nat) (rts : list (ReceivedTransfer Key TID)) : list nat :=
  match rts with
  | [] => []
  | rt :: rts => (if unfinished rt then [k] else []) ++ unfinishedFrom (Datatypes.S k) rts
  end.

Lemma loadReceivedLoop_ok (s : S) tids rts r unf n :
  Forall2 (fun tid rt => loadReceivedTransfer tid (rc_kv r) s = Done s rt) tids rts ->
  loadReceivedLoop tids unf n (s, r)
    = Done (s, mkReceived (loadedMap (length (rc_heap r)) tids (rc_transfers r)) (rc_heap r ++ rts)
              (rc_kv r)) (unf ++ unfinishedFrom (length (rc_heap r)) rts, n).
Proof.
  intros Hall. remember (rc_kv r) as v eqn:Hv. revert r unf Hv.
  induction Hall as [|tid rt tids rts Hload Hall IH]; intros r unf Hv; cbn [loadReceivedLoop].
  { cbn [unfinishedFrom loadedMap]. rewrite !app_nil_r, Hv. by destruct r. }
  rewrite <- Hv, Hload.
  set (r1 := mkReceived (<[tid := Some (length (rc_heap r))]> (rc_transfers r)) (rc_heap r ++ [rt]) v).
  assert (derefTransfer r1 tid = Ok (length (rc_heap r), rt)) as ->.
  { unfold derefTransfer. cbn [rc_transfers r1]. rewrite lookup_insert_eq.
    rewrite (index_nat _ _ rt); [done|]. by apply list_lookup_middle. }
  specialize (IH r1). cbn [r1 rc_heap rc_transfers] in IH.
  rewrite length_app, Nat.add_1_r, <- app_assoc in IH.
  cbn [unfinishedFrom loadedMap app]. unfold unfinished.
  destruct (negb _); rewrite IH by done; [by rewrite <- app_assoc|done].
Qed.

(** One transfer that does not load stops the program. *)
Lemma loadReceivedLoop_crash (s : S) tids rts tid tids' e s' r unf n :
  Forall2 (fun tid rt => loadReceivedTransfer tid (rc_kv r) s = Done s rt) tids rts ->
  loadReceivedTransfer tid (rc_kv r) s = Fail s' e ->
  loadReceivedLoop (tids ++ tid :: tids') unf n (s, r) = Crash.
Proof.
  intros Hall Hfail. remember (rc_kv r) as v eqn:Hv. revert r unf Hv.
  induction Hall as [|tid1 rt tids rts Hload Hall IH]; intros r unf Hv; cbn [loadReceivedLoop app].
  - rewrite <- Hv, Hfail. unfold derefTransfer. cbn [rc_transfers]. by rewrite lookup_insert_eq.
  - rewrite <- Hv, Hload. unfold derefTransfer. cbn [rc_transfers]. rewrite lookup_insert_eq.
    cbn [rc_heap]. rewrite (index_nat _ _ rt) by by apply list_lookup_middle. cbn [mbind result_bind].
    destruct (negb _); by apply IH.
Qed.

Lemma loadedMap_spec tids k m tid :
  NoDup tids ->
  loadedMap k tids m !! tid =
    match list_find (fun t => t = tid) tids with
    | Some (i, _) => Some (Some (k + i)%nat)
    | None => m !! tid
    end.
Proof.
  revert k m. induction tids as [|t tids IH]; intros k m Hnd; cbn [loadedMap list_find]; [done|].
  apply list.NoDup_cons in Hnd as [Hni Hnd]. rewrite IH by done.
  destruct (decide (t = tid)) as [->|Hne].
  - destruct (list_find (fun t => t = tid) tids) as [[i x]|] eqn:E.
    + apply list_find_Some in E as (Hx & -> & _). exfalso. apply Hni. by eapply list_elem_of_lookup_2.
    + rewrite lookup_insert_eq. f_equal. f_equal. lia.
  - destruct (list_find (fun t => t = tid) tids) as [[i x]|] eqn:E; cbn [fmap option_fmap option_map prod_map].
    + simpl. f_equal. f_equal. lia.
    + by rewrite lookup_insert_ne by done.
Qed.

Lemma elem_unfinishedFrom rts k l :
  l ∈ unfinishedFrom k rts <-> exists rt, (k <= l)%nat /\ rts !! (l - k)%nat = Some rt /\ unfinished rt = true.
Proof.
  revert k. induction rts as [|rt rts IH]; intros k; cbn [unfinishedFrom].
  { rewrite elem_of_nil. split; [done|]. by intros (rt & _ & Hr & _). }
  rewrite elem_of_app, IH. split.
  - intros [Hin|(rt' & Hk & Hrt & Hu)].
    + destruct (unfinished rt) eqn:E; [|by apply elem_of_nil in Hin].
      apply list_elem_of_singleton in Hin as ->. exists rt. by rewrite Nat.sub_diag.
    + exists rt'. split; [lia|]. split; [|done].
      by replace (l - k)%nat with (Datatypes.S (l - Datatypes.S k)) by lia.
  - intros (rt' & Hk & Hrt & Hu). destruct (decide (l = k)) as [->|Hne].
    + rewrite Nat.sub_diag in Hrt. injection Hrt as ->. left. rewrite Hu. by apply list_elem_of_singleton.
    + right. exists rt'. split; [lia|]. split; [|done].
      by replace (l - k)%nat with (Datatypes.S (l - Datatypes.S k)) in Hrt by lia.
Qed.

(** The transfers of a list of identifiers load as they were. *)
Lemma inv_loads v (s : S) r tids :
  received_inv v s r -> (forall tid, tid ∈ tids -> is_Some (rc_transfers r !! tid)) ->
  exists rts, Forall2 (fun tid rt => loadReceivedTransfer tid (rc_kv r) s = Done s rt /\
    exists l rt0, rc_transfers r !! tid = Some (Some l) /\ rc_heap r !! l = Some rt0 /\
      rt = rt_setFp rt0 "") tids rts.
Proof.
  intros Hi. induction tids as [|tid tids IH]; intros Hin; [by exists []|].
  destruct IH as [rts Hrts]; [intros; apply Hin; by right|].
  destruct (Hin tid ltac:(left)) as [ol Hol].
  destruct (ri_transfers _ _ _ Hi tid ol Hol) as (l & rt & nf & Uf & U & -> & Hl & Ht & _ & Hd).
  exists (rt_setFp rt "" :: rts). constructor; [|done]. split; [|by exists l, rt].
  rewrite <- Ht. by eapply loadReceivedTransfer_ok.
Qed.

Lemma NewOrLoadReceived_ok v (s : S) r :
  received_inv v s r ->
  exists r' unf, NewOrLoadReceived v s = Done s (r', unf) /\
    (forall tid, is_Some (rc_transfers r' !! tid) <-> is_Some (rc_transfers r !! tid)) /\
    (forall tid l rt, rc_transfers r !! tid = Some (Some l) -> rc_heap r !! l = Some rt ->
      exists l', rc_transfers r' !! tid = Some (Some l') /\ rc_heap r' !! l' = Some (rt_setFp rt "") /\
        (l' ∈ unf <-> ReceivedTransfer_NumReceived rt ≠ ReceivedTransfer_NumParts rt)).
Proof.
  intros Hi. unfold NewOrLoadReceived. rewrite (ri_kv _ _ _ Hi).
  pose proof (ri_stored _ _ _ Hi) as Hst. destruct (kv_Get _ _ _ _) as [e|obj].
  - destruct Hst as [-> Hempty]. do 2 eexists. split; [done|]. rewrite Hempty. split; [done|].
    intros tid l rt Hl. by rewrite lookup_empty in Hl.
  - destruct Hst as (tids & Hun & Hnd & Htids). unfold unmarshalTransferIdList. rewrite Hun.
    destruct (inv_loads v s r tids Hi) as [rts Hrts]; [intros; by apply Htids|].
    set (r0 := mkReceived ∅ [] (rc_kv r)).
    assert (Forall2 (fun tid rt => loadReceivedTransfer tid (rc_kv r0) s = Done s rt) tids rts) as Hall
      by (eapply Forall2_impl; [|exact Hrts]; by intros ? ? [? _]).
    rewrite (loadReceivedLoop_ok s tids rts r0 [] 0 Hall).
    replace ((0 <? Z.of_nat (length tids)) && (0 =? Z.of_nat (length tids))) with false
      by (destruct tids; [done|]; symmetry; apply andb_false_iff; right; apply Z.eqb_neq; cbn [length]; lia).
    do 2 eexists. split; [done|]. cbn [r0 rc_transfers rc_heap app length]. split.
    + intros tid. rewrite loadedMap_spec by done.
      destruct (list_find (fun t => t = tid) tids) as [[i x]|] eqn:E.
      * apply list_find_Some in E as (Hx & -> & _). split; [intros _|by eauto].
        apply Htids. by eapply list_elem_of_lookup_2.
      * apply list_find_None in E. rewrite lookup_empty. split; [by intros [? ?]|].
        intros Hs%Htids. rewrite list.Forall_forall in E. by apply E in Hs.
    + intros tid l rt Hl Hrt. assert (tid ∈ tids) as Hin by (apply Htids; eauto).
      rewrite loadedMap_spec by done.
      destruct (list_find (fun t => t = tid) tids) as [[i x]|] eqn:E.
      2: { apply list_find_None in E. rewrite list.Forall_forall in E. by apply E in Hin. }
      apply list_find_Some in E as (Hx & -> & _).
      destruct (Forall2_lookup_l _ _ _ _ _ Hrts Hx) as (rt' & Hrt' & _ & l1 & rt1 & Hl1 & Hrt1 & ->).
      assert (rt1 = rt) as -> by congruence.
      exists i. split_and!; [done|done|]. rewrite elem_unfinishedFrom. rewrite Nat.sub_0_r.
      unfold unfinished. split.
      * intros (rt2 & _ & Hrt2 & Hu). rewrite Hrt' in Hrt2. injection Hrt2 as <-.
        apply negb_true_iff, Z.eqb_neq in Hu. exact Hu.
      * intros Hne. exists (rt_setFp rt ""). split_and!; [lia|done|].
        apply negb_true_iff, Z.eqb_neq. exact Hne.
Qed.

(** ** Runs

    From an empty store: transfers are added, messages are processed under the
    numbers of a transfer's fingerprints, transfers are removed. *)

Inductive rcStep : S * Received Key TID -> S * Received Key TID -> Prop :=
| rc_add s r key tid fileName mac fileSize numParts numFps now vt vm s' r' l :
    kv_Prefix (rc_kv r) (makeReceivedTransferPrefix tid) = Ok vt ->
    kv_Prefix vt cypherManagerPrefix = Ok vm -> is_u 16 numParts -> is_u 16 numFps ->
    json_ok (mkReceivedTransferDisk fileName mac numParts fileSize) ->
    Received_AddTransfer iter key tid fileName mac fileSize numParts numFps now (s, r)
      = Done (s', r') l ->
    rcStep (s, r) (s', r')
| rc_process s r tid l rt k msg now s' r' b :
    rc_transfers r !! tid = Some (Some l) -> rc_heap r !! l = Some rt ->
    0 <= k < StateVector_GetNumKeys (cm_fpVector (rt_cypherManager rt)) ->
    onTransfer l (processor_Process k msg now) (s, r) = Done (s', r') b ->
    rcStep (s, r) (s', r')
| rc_remove s r tid now s' r' :
    Received_RemoveTransfer iter tid now (s, r) = Done (s', r') tt ->
    rcStep (s, r) (s', r').

Lemma rcStep_inv v st st' : rcStep st st' -> received_inv v st.1 st.2 -> received_inv v st'.1 st'.2.
Proof.
  intros Hstep Hi. destruct Hstep as
    [s r key tid fileName mac fileSize numParts numFps now vt vm s' r' l Hp Hpm Hn Hf Hok Hadd
    |s r tid l rt k msg now s' r' b Hl Hrt Hk Hpr|s r tid now s' r' Hrem]; cbn [fst snd] in *.
  - destruct (rc_transfers r !! tid) as [ol|] eqn:E.
    { unfold Received_AddTransfer in Hadd. by rewrite E in Hadd. }
    destruct (AddTransfer_ok v s r key tid fileName mac fileSize numParts numFps now vt vm)
      as (s1 & rt & Hadd' & Hi' & _); [done..|].
    rewrite Hadd' in Hadd. injection Hadd as <- <- _. exact Hi'.
  - destruct (ri_transfers _ _ _ Hi tid _ Hl) as (l1 & rt1 & nf & Uf & U & [= <-] & Hl1 & Ht & Hnf & Hd).
    rewrite Hrt in Hl1. injection Hl1 as <-. pose proof (rc_handle _ _ _ Hi) as Hh.
    assert (StateVector_GetNumKeys (cm_fpVector (rt_cypherManager rt)) = nf) as Hnk
      by apply (dur_refines _ _ _ _ _ _ (cmd_vector _ _ _ _ _ (rtd_cypher _ _ _ _ _ _ Hd))).
    destruct (Process_ok s (rc_kv r) rt nf Uf U k msg now Hh Hd) as
      (s1 & rt1 & b1 & Uf1 & U1 & Hproc & Hd1 & Hsame & Hw); [lia|].
    unfold onTransfer in Hpr. rewrite Hrt, Hproc in Hpr. injection Hpr as <- <- _.
    eapply onTransfer_inv; [done..|apply Hsame|done].
  - destruct (RemoveTransfer_ok v s r tid now Hi) as (s1 & Hrem' & Hi').
    rewrite Hrem' in Hrem. injection Hrem as <- <-. exact Hi'.
Qed.

(** The states a program can reach from a store without a list of transfers. *)
Definition rcReachable (v : kv) (s : S) r : Prop :=
  exists vr s0 e, kv_handle v /\ kv_Prefix v receivedTransfersStorePrefix = Ok vr /\
    kv_Get vr s0 receivedTransfersStoreKey receivedTransfersStoreVersion = inl e /\
    ekv_Exists S e = false /\ star rcStep (s0, mkReceived ∅ [] vr) (s, r).

Lemma reachable_inv v s r : rcReachable v s r -> received_inv v s r.
Proof.
  intros (vr & s0 & e & Hv & Hp & Hg & He & Hstar).
  apply (star_invariant rcStep (fun st => received_inv v st.1 st.2)
    (fun st st' Hst Hstep => rcStep_inv v st st' Hstep Hst) _ _ Hstar). cbn [fst snd].
  constructor; cbn [rc_kv rc_transfers rc_heap]; [done|done| |by rewrite Hg].
  intros tid ol Hol. by rewrite lookup_empty in Hol.
Qed.

(** a restart resumes every transfer.  In every reachable state, start-up
    returns exactly the transfers of the list, each with the parts, the part
    status and the cyphers it had; the list of unfinished transfers, whose
    fingerprints are registered again, names exactly those with missing parts. *)
Theorem NewOrLoadReceived_resumes v (s : S) r :
  rcReachable v s r ->
  exists r' unf, NewOrLoadReceived v s = Done s (r', unf) /\
    (forall tid, is_Some (Received_GetTransfer r' tid) <-> is_Some (Received_GetTransfer r tid)) /\
    (forall tid l rt, Received_GetTransfer r tid = Some (Some l) -> rc_heap r !! l = Some rt ->
      exists l', Received_GetTransfer r' tid = Some (Some l') /\
        rc_heap r' !! l' = Some (rt_setFp rt "") /\
        (l' ∈ unf <-> ReceivedTransfer_NumReceived rt ≠ ReceivedTransfer_NumParts rt)).
Proof. intros Hr. by apply NewOrLoadReceived_ok, reachable_inv. Qed.

Lemma deleted_crash v (s s' : S) r tid l rt :
  received_inv v s r -> rc_transfers r !! tid = Some (Some l) -> rc_heap r !! l = Some rt ->
  ReceivedTransfer_Delete rt s = Done s' tt -> NewOrLoadReceived v s' = Crash.
Proof.
  intros Hi Hl Hrt Hdel. pose proof (rc_handle _ _ _ Hi) as Hh.
  destruct (ri_transfers _ _ _ Hi tid _ Hl) as (l1 & rt1 & nf & Uf & U & [= <-] & Hl1 & Ht & Hnf & Hd).
  rewrite Hrt in Hl1. injection Hl1 as <-.
  destruct (Delete_ok s (rc_kv r) rt nf Uf U Hh Hd) as (s1 & Hdel' & Hw & [e Hfail] & _).
  rewrite Hdel in Hdel'. injection Hdel' as <-.
  pose proof (rtd_kv _ _ _ _ _ _ Hd) as Hp.
  unfold NewOrLoadReceived. rewrite (ri_kv _ _ _ Hi).
  rewrite (Hw (rc_kv r) receivedTransfersStoreKey receivedTransfersStoreVersion);
    [|done|done|unfold receivedTransfersStoreVersion; lia|by eapply not_below_parent].
  pose proof (ri_stored _ _ _ Hi) as Hst. destruct (kv_Get _ s _ _) as [e'|obj].
  { destruct Hst as [_ Hempty]. rewrite Hempty, lookup_empty in Hl. done. }
  destruct Hst as (tids & Hun & Hnd & Htids). unfold unmarshalTransferIdList. rewrite Hun.
  assert (tid ∈ tids) as Hin by (apply Htids; eauto).
  apply list_elem_of_split in Hin as (t1 & t2 & ->).
  destruct (inv_loads v s r t1 Hi) as [rts Hrts]; [intros t Hin; apply Htids, elem_of_app; by left|].
  rewrite (loadReceivedLoop_crash s' t1 rts tid t2 e s'); [done| |by rewrite <- Ht].
  cbn [rc_kv]. apply Forall2_same_length_lookup. split; [by eapply Forall2_length|].
  intros i t rt' Hti Hrti.
  destruct (Forall2_lookup_lr _ _ _ _ _ _ Hrts Hti Hrti) as (_ & l2 & rt2 & Hl2 & Hrt2 & ->).
  destruct (ri_transfers _ _ _ Hi t _ Hl2) as (l3 & rt3 & nf3 & Uf3 & U3 & [= <-] & Hl3 & Ht3 & _ & Hd3).
  rewrite Hrt2 in Hl3. injection Hl3 as <-. rewrite <- Ht3.
  eapply loadReceivedTransfer_ok. eapply other_transfer_kept; [done|exact Hd3|exact Hp| |exact Hw].
  rewrite Ht, Ht3. intros <-. apply (NoDup_keys_disjoint _ _ _ Hnd). by eapply list_elem_of_lookup_2.
Qed.

(** a stop in the middle of [Receive] makes every later start panic.  A
    finished file is handed out by deleting the transfer's data and then
    removing it from the list; when the program stops in between, the list
    still names a transfer that does not load, and start-up dereferences the
    nil transfer instead of skipping it. *)
Theorem NewOrLoadReceived_panics v (s s' : S) r tid l rt :
  rcReachable v s r -> Received_GetTransfer r tid = Some (Some l) -> rc_heap r !! l = Some rt ->
  ReceivedTransfer_Delete rt s = Done s' tt -> NewOrLoadReceived v s' = Crash.
Proof. intros Hr. apply deleted_crash. by apply reachable_inv. Qed.
End invariant.

(** ** Examples *)

Module ReceivedListExample.
Export ReceivedExample.
#[export] Instance ex_tidsCodec : JsonCodec (list Z) := countableCodec _.

Lemma ex_list_ok (l : list Z) : json_ok l.
Proof. exact I. Qed.

Abbreviation iterZ := (keysInOrder (K := Z) (V := option nat)).

Definition ex_lv : kv := Eval vm_compute in
  match kv_Prefix NewKV receivedTransfersStorePrefix with Ok v => v | _ => NewKV end.
Definition ex_lt : kv := Eval vm_compute in
  match kv_Prefix ex_lv (makeReceivedTransferPrefix (3 : Z)) with Ok v => v | _ => NewKV end.
Definition ex_ltm : kv := Eval vm_compute in
  match kv_Prefix ex_lt cypherManagerPrefix with Ok v => v | _ => NewKV end.
Lemma ex_lv_ok : kv_Prefix NewKV receivedTransfersStorePrefix = Ok ex_lv.
Proof. vm_compute. reflexivity. Qed.
Lemma ex_lt_ok : kv_Prefix ex_lv (makeReceivedTransferPrefix (3 : Z)) = Ok ex_lt.
Proof. vm_compute. reflexivity. Qed.
Lemma ex_ltm_ok : kv_Prefix ex_lt cypherManagerPrefix = Ok ex_ltm.
Proof. vm_compute. reflexivity. Qed.

(** One transfer of three parts is added. *)
Lemma ex_rc_added : exists s r rt,
  rcReachable iterZ NewKV (s : MemStore) (r : Received Z Z) /\
  Received_GetTransfer r 3 = Some (Some 0%nat) /\ rc_heap r !! 0%nat = Some rt /\
  ReceivedTransfer_NumReceived rt = 0 /\ ReceivedTransfer_NumParts rt = 3 /\
  (exists s', ReceivedTransfer_Delete rt s = Done s' tt).
Proof.
  assert (received_inv NewKV (∅ : MemStore) (mkReceived (Key := Z) (TID := Z) ∅ [] ex_lv)) as Hi0.
  { constructor; cbn [rc_kv rc_transfers rc_heap]; [exact handle_new|exact ex_lv_ok| |].
    - intros tid ol Hol. by rewrite lookup_empty in Hol.
    - vm_compute. by split. }
  destruct (AddTransfer_ok ex_list_ok iterZ NewKV (∅ : MemStore)
    (mkReceived (Key := Z) (TID := Z) ∅ [] ex_lv) (7 : Z) (3 : Z) "f" [] 5 3 4 1 ex_lt ex_ltm Hi0
    eq_refl ex_lt_ok ex_ltm_ok ltac:(split; lia) ltac:(split; lia) I)
    as (s' & rt & Hadd & Hi' & Hd & Ht & _ & Hn & _).
  eexists s', _, rt. split; [|split; [|split; [|split; [|split]]]].
  - exists ex_lv, (∅ : MemStore), errNotFound.
    split; [exact handle_new|]. split; [exact ex_lv_ok|]. split; [reflexivity|]. split; [reflexivity|].
    eapply star_step; [|apply star_refl].
    eapply (rc_add iterZ); [exact ex_lt_ok|exact ex_ltm_ok|..|exact Hadd]; [split; lia|split; lia|exact I].
  - unfold Received_GetTransfer. cbn [rc_transfers]. apply lookup_insert_eq.
  - reflexivity.
  - rewrite (NumReceived_ok s' ex_lv rt 4 ∅ _ (rcv_refines_new s' ex_lv rt 4 ∅ Hd)), Hn. reflexivity.
  - exact Hn.
  - destruct (Delete_ok s' ex_lv rt 4 ∅ ∅ (handle_prefix _ _ _ handle_new ex_lv_ok) Hd)
      as (s2 & Hdel & _). by exists s2.
Qed.
End ReceivedListExample.
Import ReceivedListExample.

Lemma NewOrLoadReceived_resumes_witness :
  exists (s : MemStore) (r' : Received Z Z) l' unf,
    NewOrLoadReceived NewKV s = Done s (r', unf) /\ l' ∈ unf /\
    Received_GetTransfer r' 3 = Some (Some l').
Proof.
  destruct ex_rc_added as (s & r & rt & Hreach & Hget & Hrt & Hnr & Hnp & _).
  destruct (NewOrLoadReceived_resumes ex_list_ok iterZ NewKV s r Hreach)
    as (r' & unf & Hload & _ & Hall).
  destruct (Hall 3 0%nat rt Hget Hrt) as (l' & Hl' & _ & Hunf).
  exists s, r', l', unf. split; [exact Hload|]. split; [|exact Hl'].
  apply Hunf. rewrite Hnr, Hnp. lia.
Defined.

Lemma NewOrLoadReceived_panics_witness :
  exists (s s' : MemStore) (r : Received Z Z),
    rcReachable iterZ NewKV s r /\ NewOrLoadReceived (Key := Z) (TID := Z) NewKV s' = Crash.
Proof.
  destruct ex_rc_added as (s & r & rt & Hreach & Hget & Hrt & _ & _ & s' & Hdel).
  exists s, s', r. split; [exact Hreach|].
  exact (NewOrLoadReceived_panics ex_list_ok iterZ NewKV s s' r 3 0%nat rt Hreach Hget Hrt Hdel).
Defined.
