(* ===== verification/SentTransfer.v ===== *)
(** * A sent file transfer

    [fileTransfer/store/sentTransfer.go], [part.go] and [transferStatus.go]:
    the parts of a file being sent, with a state vector of the parts that
    arrived, the manager of the fingerprints and the status of the transfer. *)

From S2P Require Import Prelude GoBytes KV Base64 Json StateVector Effects FileMessage FtCypher.

(** ** Transfer status *)

Definition TransferStatus : Type := Z.   (* int *)
Definition Running : TransferStatus := 0.
Definition Completed : TransferStatus := 1.
Definition Failed : TransferStatus := 2.

Definition TransferStatus_String (ts : TransferStatus) : string :=
  if ts =? Running then "running"
  else if ts =? Completed then "completed"
  else if ts =? Failed then "failed"
  else "INVALID TransferStatus: " +:+ pretty ts.

Definition TransferStatus_Marshal (ts : TransferStatus) : list byte := le_encode 8 (u64 ts).

Definition UnmarshalTransferStatus (b : list byte) : result TransferStatus :=
  n ← get_le 8 b; Ok (i64 n).

(** ** The transfer *)

Definition sentTransferStorePrefix : string := "SentFileTransferStore/".
Definition sentTransferStoreKey : string := "SentTransfer".
Definition sentTransferStoreVersion : Z := 0.
Definition sentTransferStatusKey : string := "SentPartStatusVector".

Record sentTransferDisk (ID : Type) := mkSentTransferDisk {
  sd_FileName : string;
  sd_Recipient : ID;
  sd_Status : TransferStatus;
  sd_Parts : list (list byte);
}.
Arguments mkSentTransferDisk {ID}.
Arguments sd_FileName {ID}.
Arguments sd_Recipient {ID}.
Arguments sd_Status {ID}.
Arguments sd_Parts {ID}.

Record SentTransfer (ID Key TID : Type) := mkSentTransfer {
  st_cypherManager : CypherManager Key;
  st_tid : TID;
  st_fileName : string;
  st_recipient : ID;
  st_fileSize : Z;           (* uint32 *)
  st_numParts : Z;           (* uint16 *)
  st_status : TransferStatus;
  st_parts : list (list byte);
  st_partStatus : StateVector;
  st_lastCallbackFingerprint : string;
  st_kv : kv;
}.
Arguments mkSentTransfer {ID Key TID}.
Arguments st_cypherManager {ID Key TID}.
Arguments st_tid {ID Key TID}.
Arguments st_fileName {ID Key TID}.
Arguments st_recipient {ID Key TID}.
Arguments st_fileSize {ID Key TID}.
Arguments st_numParts {ID Key TID}.
Arguments st_status {ID Key TID}.
Arguments st_parts {ID Key TID}.
Arguments st_partStatus {ID Key TID}.
Arguments st_lastCallbackFingerprint {ID Key TID}.
Arguments st_kv {ID Key TID}.

Section updates.
Context {ID Key TID : Type}.
Implicit Types st : SentTransfer ID Key TID.

Definition st_setCypher st (m : CypherManager Key) : SentTransfer ID Key TID :=
  mkSentTransfer m (st_tid st) (st_fileName st) (st_recipient st) (st_fileSize st) (st_numParts st)
    (st_status st) (st_parts st) (st_partStatus st) (st_lastCallbackFingerprint st) (st_kv st).
Definition st_setStatus st (ts : TransferStatus) : SentTransfer ID Key TID :=
  mkSentTransfer (st_cypherManager st) (st_tid st) (st_fileName st) (st_recipient st)
    (st_fileSize st) (st_numParts st) ts (st_parts st) (st_partStatus st)
    (st_lastCallbackFingerprint st) (st_kv st).
Definition st_setPartStatus st (sv : StateVector) : SentTransfer ID Key TID :=
  mkSentTransfer (st_cypherManager st) (st_tid st) (st_fileName st) (st_recipient st)
    (st_fileSize st) (st_numParts st) (st_status st) (st_parts st) sv
    (st_lastCallbackFingerprint st) (st_kv st).
Definition st_setFp st (fp : string) : SentTransfer ID Key TID :=
  mkSentTransfer (st_cypherManager st) (st_tid st) (st_fileName st) (st_recipient st)
    (st_fileSize st) (st_numParts st) (st_status st) (st_parts st) (st_partStatus st) fp (st_kv st).
End updates.

Definition makeSentTransferPrefix {Key TID} `{FtCrypto Key TID} (tid : TID) : string :=
  sentTransferStorePrefix +:+ b64Encode (tid_Bytes tid).

(** The last part's size plus the first's for every other part; panics on no parts. *)
Definition calcFileSize (parts : list (list byte)) : result Z :=
  last ← index parts (Z.of_nat (length parts) - 1);
  first ← index parts 0;
  Ok (u32 (Z.of_nat (length last) + Z.of_nat (length first) * (Z.of_nat (length parts) - 1))).

Section code.
Context {S ID Key TID : Type} `{EKV S} `{FtCrypto Key TID} `{JsonCodec (sentTransferDisk ID)}.
(** [err.Error()] *)
Context (errorText : error -> string).

Abbreviation SentTransfer := (SentTransfer ID Key TID).

Definition SentTransfer_marshal (st : SentTransfer) : list byte :=
  json_Marshal (mkSentTransferDisk (st_fileName st) (st_recipient st) (st_status st) (st_parts st)).

Definition unmarshalSentTransfer (data : list byte) :
    result (string * ID * TransferStatus * list (list byte)) :=
  match json_Unmarshal data with
  | Some disk => Ok (sd_FileName disk, sd_Recipient disk, sd_Status disk, sd_Parts disk)
  | None => Err (Errorf "json" [])
  end.

Definition SentTransfer_save (st : SentTransfer) (now : Time) : act S unit :=
  write (fun s => kv_Set (st_kv st) s sentTransferStoreKey
    (mkObject sentTransferStoreVersion now (SentTransfer_marshal st))).

Definition newSentTransfer (recipient : ID) (key : Key) (tid : TID) (fileName : string)
    (fileSize : Z) (parts : list (list byte)) (numFps : Z) (v : kv) (now : Time) :
    act S SentTransfer :=
  v ← pureResult (kv_Prefix v (makeSentTransferPrefix tid));
  cypherManager ← annotate "failed to create new cypher manager: %+v" []
    (NewCypherManager key numFps v now);
  partStatus ← annotate "failed to create new state vector for part statuses: %+v" []
    (newVector (u32 (Z.of_nat (length parts))) sentTransferStatusKey v now);
  let st := mkSentTransfer cypherManager tid fileName recipient fileSize
              (u16 (Z.of_nat (length parts))) Running parts partStatus "" v in
  _ ← SentTransfer_save st now;
  mret st.

Definition loadSentTransfer (tid : TID) (v : kv) : act S SentTransfer :=
  v ← pureResult (kv_Prefix v (makeSentTransferPrefix tid));
  cypherManager ← annotate "failed to load cypher manager from storage: %+v" []
    (LoadCypherManager v);
  obj ← annotate "failed to load recipient, status, and parts list: %+v" []
    (read (fun s => kv_Get v s sentTransferStoreKey sentTransferStoreVersion));
  '(fileName, recipient, status, parts) ←
    annotate "failed to unmarshal recipient, status, and parts list: %+v" []
      (pureResult (unmarshalSentTransfer (Data obj)));
  partStatus ← annotate "failed to load state vector for part statuses: %+v" []
    (loadVector v sentTransferStatusKey);
  fileSize ← pureResult (calcFileSize parts);
  mret (mkSentTransfer cypherManager tid fileName recipient fileSize
          (u16 (Z.of_nat (length parts))) status parts partStatus "" v).

(** The unsent parts, each given by its number (and the transfer). *)
Definition SentTransfer_GetUnsentParts (st : SentTransfer) : result (list Z) :=
  unusedPartNumbers ← StateVector_GetUnusedKeyNums (st_partStatus st);
  Ok (map (fun partNum => u16 partNum) unusedPartNumbers).

Definition SentTransfer_getPartData (st : SentTransfer) (partNum : Z) : result (list byte) :=
  if Z.of_nat (length (st_parts st)) - 1 <? partNum then Panic else index (st_parts st) partNum.

Definition SentTransfer_markArrived (partNum : Z) (now : Time) : act (S * SentTransfer) unit :=
  fun '(s, st) =>
  match StateVector_Use s (st_partStatus st) partNum now with
  | Ok (s, sv) =>
      let st := st_setPartStatus st sv in
      Done (s, if StateVector_GetNumUsed sv =? st_numParts st then st_setStatus st Completed else st) tt
  | Err e => Fail (s, st) e
  | Panic => Crash
  end.

Definition SentTransfer_markTransferFailed (st : SentTransfer) : SentTransfer := st_setStatus st Failed.

Definition SentTransfer_Status (st : SentTransfer) : TransferStatus := st_status st.
Definition SentTransfer_NumParts (st : SentTransfer) : Z := st_numParts st.
Definition SentTransfer_NumArrived (st : SentTransfer) : Z := u16 (StateVector_GetNumUsed (st_partStatus st)).

Definition SentTransfer_CopyPartStatusVector (st : SentTransfer) : StateVector :=
  StateVector_DeepCopy (st_partStatus st).

Definition generateSentFp (completed : bool) (arrived total : Z) (err : option error) : string :=
  let errString := match err with Some e => errorText e | None => "<nil>" end in
  (if completed then "true" else "false") +:+ pretty arrived +:+ pretty total +:+ errString.

Definition SentTransfer_CompareAndSwapCallbackFps (st : SentTransfer) (completed : bool)
    (arrived total : Z) (err : option error) : SentTransfer * bool :=
  let fp := generateSentFp completed arrived total err in
  if bool_decide (fp = st_lastCallbackFingerprint st) then (st, false) else (st_setFp st fp, true).

Definition SentTransfer_Delete (st : SentTransfer) : act S unit :=
  _ ← annotate "failed to delete cypherManager: %+v" []
    (CypherManager_Delete (st_cypherManager st));
  _ ← annotate "failed to delete recipient ID, status, and file parts: %+v" []
    (write (fun s => kv_Delete (st_kv st) s sentTransferStoreKey sentTransferStoreVersion));
  annotate "failed to delete part status multi state vector: %+v" []
    (write (fun s => StateVector_Delete s (st_partStatus st))).

(** ** Parts: a part of a transfer, by its number *)

(** The call that takes a cypher from the transfer's manager. *)
Definition popFrom (now : Time) : act (S * SentTransfer) Z :=
  zoom (fun '(s, st) => (s, st_cypherManager st))
       (fun '(s, m) '(_, st) => (s, st_setCypher st m))
       (CypherManager_PopCypher now).

Definition Part_GetEncryptedPart (partNum contentsSize : Z) (now : Time) :
    act (S * SentTransfer) (list byte * list byte * list byte) := fun '(s, st) =>
  match
    partMsg ← NewPartMessage contentsSize;
    let partMsg := PartMessage_SetPartNum partMsg partNum in
    data ← SentTransfer_getPartData st partNum;
    PartMessage_SetPart partMsg data
  with
  | Ok partMsg =>
      match popFrom now (s, st) with
      | Done (s, st) fpNum =>
          Done (s, st)
            (Cypher_Encrypt (cm_key (st_cypherManager st)) fpNum (PartMessage_Marshal partMsg))
      | Fail (s, st) e => Fail (s, SentTransfer_markTransferFailed st) e
      | Crash => Crash
      end
  | Err e => Fail (s, st) e
  | Panic => Crash
  end.

Definition Part_MarkArrived (partNum : Z) (now : Time) : act (S * SentTransfer) unit :=
  SentTransfer_markArrived partNum now.
End code.

(** ** The transfer and its storage *)

(** The stored fields are those of the creation: the status is never saved
    again, so the store always says [Running]. *)
Record st_durable {S ID Key TID} `{EKV S} `{FtCrypto Key TID} `{JsonCodec (sentTransferDisk ID)}
    (s : S) (v : kv) (st : SentTransfer ID Key TID) (nf : Z) (Uf U : gset Z) : Prop := {
  std_kv : kv_Prefix v (makeSentTransferPrefix (st_tid st)) = Ok (st_kv st);
  std_cypher : cm_durable s (st_kv st) (st_cypherManager st) nf Uf;
  std_status : sv_durable s (st_partStatus st) (st_kv st) sentTransferStatusKey (st_numParts st) U;
  std_num : is_u 16 (st_numParts st);
  std_length : Z.of_nat (length (st_parts st)) = st_numParts st;
  std_ok : json_ok (mkSentTransferDisk (st_fileName st) (st_recipient st) Running (st_parts st));
  std_fields : exists now, kv_Get (st_kv st) s sentTransferStoreKey sentTransferStoreVersion
    = inr (mkObject sentTransferStoreVersion now
        (json_Marshal (mkSentTransferDisk (st_fileName st) (st_recipient st) Running (st_parts st))));
}.

Section laws.
Context {S ID Key TID : Type} `{EKVLaws S} {rel : EKVReliable S} `{FtCryptoLaws Key TID}.
Context `{JsonCodec (sentTransferDisk ID)}.
Implicit Types st : SentTransfer ID Key TID.

Lemma handle_st v (tid : TID) v' :
  kv_handle v -> kv_Prefix v (makeSentTransferPrefix tid) = Ok v' -> kv_handle v'.
Proof. apply handle_prefix. Qed.

Lemma newSentTransfer_ok (s : S) recipient key tid fileName fileSize parts numFps v v' vm now :
  kv_handle v -> kv_Prefix v (makeSentTransferPrefix tid) = Ok v' ->
  kv_Prefix v' cypherManagerPrefix = Ok vm ->
  is_u 16 (Z.of_nat (length parts)) -> is_u 16 numFps ->
  json_ok (mkSentTransferDisk fileName recipient Running parts) ->
  exists s' st, newSentTransfer recipient key tid fileName fileSize parts numFps v now s
      = Done s' st /\ st_durable s' v st numFps ∅ ∅ /\
    st_tid st = tid /\ st_fileSize st = fileSize /\ st_parts st = parts /\
    cm_key (st_cypherManager st) = key /\ st_status st = Running /\ st_kv st = v' /\ within v' s s'.
Proof.
  intros Hv Hp Hpm Hn Hf Hok. pose proof (handle_st v tid v' Hv Hp) as Hv'.
  unfold newSentTransfer. erewrite bind_Done by (apply pureResult_Done; exact Hp).
  destruct (NewCypherManager_ok s key numFps v' vm now Hv' Hpm Hf) as (s1 & m & Hm & Hcm & Hkey & Hc1).
  act_step. rewrite (wrapu_small 32), (wrapu_small 16) by (destruct Hn; split; lia).
  destruct (newVector_ok s1 (Z.of_nat (length parts)) sentTransferStatusKey v' now) as
    (sv & s2 & Hsv & Hd & o & Ho & Hset); [destruct Hn; lia|].
  act_step. set (st := mkSentTransfer _ _ _ _ _ _ _ _ _ _ _).
  assert (own_write s1 s2 v' (makeStateVectorKey sentTransferStatusKey) o) as Hw2 by done.
  destruct (kv_Set_ok v' s2 sentTransferStoreKey
    (mkObject sentTransferStoreVersion now (SentTransfer_marshal st))) as [s3 Hset3].
  assert (own_write s2 s3 v' sentTransferStoreKey
    (mkObject sentTransferStoreVersion now (SentTransfer_marshal st))) as Hw3 by done.
  erewrite bind_Done by (apply write_Done; exact Hset3).
  exists s3, st. split; [done|]. split.
  - constructor; subst st; cbn [st_kv st_tid st_cypherManager st_partStatus st_parts st_numParts
      st_fileName st_recipient st_fileSize]; [done| | |done|done|done|].
    + eapply own_write_cm; [exact Hw3|done|]. by eapply own_write_cm.
    + eapply durable_frame; [done|]. by apply (own_write_other _ _ _ _ _ _ Hw3).
    + exists now. apply (own_write_same _ _ _ _ _ Hw3).
  - split_and!; try done. apply (within_trans _ _ s1); [|apply (within_trans _ _ s2)].
    + eapply confined_within; [exact Hc1|by eapply below_prefix].
    + eapply confined_within; [by eapply own_write_confined|apply below_refl].
    + eapply confined_within; [by apply (own_write_confined _ _ _ _ _ Hw3)|apply below_refl].
Qed.

(** A reload: the same transfer, [Running], with the size the parts give. *)
Lemma loadSentTransfer_ok (s : S) v st nf Uf U :
  st_durable s v st nf Uf U -> 0 < st_numParts st ->
  exists size, calcFileSize (st_parts st) = Ok size /\
    loadSentTransfer (st_tid st) v s
      = Done s (mkSentTransfer (st_cypherManager st) (st_tid st) (st_fileName st) (st_recipient st)
          size (st_numParts st) Running (st_parts st) (st_partStatus st) "" (st_kv st)).
Proof.
  intros [Hp Hcm Hd Hn Hl Hok (n0 & Hf)] Hpos.
  assert (exists size, calcFileSize (st_parts st) = Ok size) as [size Hsize].
  { unfold calcFileSize.
    destruct (index_in_range (st_parts st) (Z.of_nat (length (st_parts st)) - 1)) as (l & -> & _); [lia|].
    destruct (index_in_range (st_parts st) 0) as (f & -> & _); [lia|]. by eexists. }
  exists size. split; [done|]. unfold loadSentTransfer.
  act_step. erewrite bind_Done by (apply annotate_Done; by eapply LoadCypherManager_ok).
  act_step. cbn [Data].
  erewrite bind_Done by (apply annotate_Done, pureResult_Done; unfold unmarshalSentTransfer;
    rewrite json_roundtrip by exact Hok; reflexivity).
  cbn [sd_FileName sd_Recipient sd_Status sd_Parts].
  erewrite bind_Done by (apply annotate_Done; by eapply loadVector_ok).
  act_step. rewrite Hl, wrapu_small by done. done.
Qed.

(** The manager of the fingerprints moves on its own. *)
Lemma st_durable_cypher (s s' : S) v st nf Uf Uf' U m' :
  kv_handle v -> st_durable s v st nf Uf U -> cm_durable s' (st_kv st) m' nf Uf' ->
  confined (prefix (cm_kv (st_cypherManager st))) s s' ->
  st_durable s' v (st_setCypher st m') nf Uf' U.
Proof.
  intros Hv [Hp Hcm Hd Hn Hl Hok (n0 & Hf)] Hcm' Hc.
  pose proof (handle_st v _ _ Hv Hp) as Hv'. pose proof (cm_prefix_ne _ _ _ _ _ Hcm) as Hne.
  apply not_eq_sym in Hne. constructor; try done.
  - eapply durable_frame; [done|]. by apply Hc.
  - exists n0. etrans; [|exact Hf]. by apply Hc.
Qed.

(** Encrypting a part: the message is made, and a fresh number encrypts it; with
    no number left the transfer fails. *)
Lemma GetEncryptedPart_ok (s : S) v st nf Uf U i size part now :
  kv_handle v -> st_durable s v st nf Uf U -> is_u 16 nf ->
  0 <= i -> st_parts st !! Z.to_nat i = Some part ->
  2 <= size -> Z.of_nat (length part) <= size - 2 ->
  match unusedKeys nf Uf with
  | [] => Part_GetEncryptedPart i size now (s, st)
      = Fail (s, st_setStatus st Failed) (Errorf "used all %d fingerprints" [nf])
  | k :: _ => exists s' st', Part_GetEncryptedPart i size now (s, st)
      = Done (s', st') (Cypher_Encrypt (cm_key (st_cypherManager st)) k
          (partBytes (Z.to_nat size) i part)) /\
      st_durable s' v st' nf ({[k]} ∪ Uf) U /\ st' = st_setCypher st (st_cypherManager st') /\
      cm_key (st_cypherManager st') = cm_key (st_cypherManager st) /\ within (st_kv st) s s'
  end.
Proof.
  intros Hv Hd Hnf Hi Hpart Hsize Hlen. pose proof (handle_st v _ _ Hv (std_kv _ _ _ _ _ _ Hd)) as Hv'.
  destruct (partBytes_made size i part Hsize Hlen) as (m0 & m & Hm0 & Hm & Hbytes).
  unfold Part_GetEncryptedPart, SentTransfer_getPartData.
  pose proof (lookup_lt_Some _ _ _ Hpart) as Hlt.
  rewrite Hm0. cbn [mbind result_bind]. rewrite (proj2 (Z.ltb_ge _ _)) by lia.
  rewrite (proj2 (index_Ok _ i part)) by done. cbn [mbind result_bind]. rewrite Hm.
  pose proof (PopCypher_ok s (st_kv st) _ nf Uf now Hv' (std_cypher _ _ _ _ _ _ Hd) Hnf) as Hpop.
  unfold popFrom, zoom.
  destruct (unusedKeys nf Uf) as [|k ks].
  - destruct Hpop as (m' & -> & ->). by destruct st.
  - destruct Hpop as (s' & m' & -> & Hcm' & Hkey & Hkv & Hc).
    exists s', (st_setCypher st m'). split_and!; [|by eapply st_durable_cypher|done|done|].
    + cbn [st_setCypher st_cypherManager]. by rewrite Hkey, Hbytes.
    + eapply confined_within; [exact Hc|].
      by eapply below_prefix, (cmd_kv _ _ _ _ _ (std_cypher _ _ _ _ _ _ Hd)).
Qed.

(** All keys are used exactly when their number says so. *)
Lemma all_used sv n U :
  sv_refines sv n U -> StateVector_GetNumUsed sv = n <-> unusedKeys n U = [].
Proof.
  intros Hr. rewrite (used_number _ _ _ Hr). unfold unusedKeys.
  pose proof (length_filter_complement (fun k => k ∈ U) (zseq 0 n)) as Hsum.
  rewrite length_zseq in Hsum. pose proof (inv_numKeys _ (ref_inv _ _ _ Hr)) as Hn.
  rewrite (ref_keys _ _ _ Hr) in Hn. split.
  - intros Heq. apply nil_length_inv. lia.
  - intros Heq. rewrite Heq in Hsum. simpl in Hsum. lia.
Qed.

Lemma markArrived_ok (s : S) v st nf Uf U i now :
  kv_handle v -> st_durable s v st nf Uf U -> 0 <= i < st_numParts st ->
  exists s' st', SentTransfer_markArrived i now (s, st) = Done (s', st') tt /\
    st' = st_setStatus (st_setPartStatus st (st_partStatus st'))
            (if decide (unusedKeys (st_numParts st) ({[i]} ∪ U) = []) then Completed
             else st_status st) /\
    st_durable s' v st' nf Uf ({[i]} ∪ U) /\ within (st_kv st) s s'.
Proof.
  intros Hv [Hp Hcm Hd Hn Hl Hok (n0 & Hf)] Hi. pose proof (handle_st v _ _ Hv Hp) as Hv'.
  unfold SentTransfer_markArrived.
  destruct (durable_Use s _ _ _ _ _ i now Hd Hi) as (s' & sv & -> & Hd' & o & Ho & Hset).
  assert (own_write s s' (st_kv st) (makeStateVectorKey sentTransferStatusKey) o) as Hw by done.
  exists s'. eexists. split; [done|].
  pose proof (all_used sv _ _ (dur_refines _ _ _ _ _ _ Hd')) as Hall.
  set (st1 := st_setPartStatus st sv). split; [|split].
  - cbn [st1 st_numParts st_setPartStatus].
    destruct (decide (unusedKeys (st_numParts st) ({[i]} ∪ U) = [])) as [Hc|Hc].
    + rewrite (proj2 (Z.eqb_eq _ _)) by by apply Hall. done.
    + rewrite (proj2 (Z.eqb_neq _ _)) by by rewrite Hall. done.
  - assert (st_durable s' v st1 nf Uf ({[i]} ∪ U)) as Hdur.
    { constructor; try done.
      - by eapply own_write_cm.
      - exists n0. etrans; [|exact Hf]. by apply (own_write_other _ _ _ _ _ _ Hw). }
    destruct (StateVector_GetNumUsed sv =? st_numParts st1); [|done]. by destruct Hdur.
  - eapply confined_within; [by eapply own_write_confined|apply below_refl].
Qed.

Lemma st_durable_frame (s s' : S) v st nf Uf U w :
  kv_handle v -> st_durable s v st nf Uf U -> within w s s' ->
  (forall u, below (st_kv st) u -> ~ below w u) -> st_durable s' v st nf Uf U.
Proof.
  intros Hv [Hp Hcm Hd Hn Hl Hok (n0 & Hf)] Hw Hapart.
  pose proof (handle_st v _ _ Hv Hp) as Hv'.
  pose proof (Hapart _ (below_refl (st_kv st))) as Hr.
  pose proof (below_prefix _ _ _ (cmd_kv _ _ _ _ _ Hcm)) as Hbm%Hapart.
  pose proof (handle_cm _ _ Hv' (cmd_kv _ _ _ _ _ Hcm)) as Hvm.
  constructor; try done.
  - destruct Hcm as [Hpm Hdm (n1 & Hk)]. constructor; [done| |].
    + eapply durable_frame; [done|]. by apply Hw.
    + exists n1. rewrite <- Hk. by apply Hw.
  - eapply durable_frame; [done|]. by apply Hw.
  - exists n0. rewrite <- Hf. by apply Hw.
Qed.

Lemma GetUnsentParts_ok (s : S) v st nf Uf U :
  st_durable s v st nf Uf U -> SentTransfer_GetUnsentParts st = Ok (unusedKeys (st_numParts st) U).
Proof.
  intros Hd. unfold SentTransfer_GetUnsentParts.
  rewrite (unused_keys _ _ U (dur_refines _ _ _ _ _ _ (std_status _ _ _ _ _ _ Hd))).
  cbn [mbind result_bind]. f_equal. rewrite <- (map_id (unusedKeys _ U)) at 2.
  apply map_ext_in. intros k Hk%list_elem_of_In.
  apply list_elem_of_filter in Hk as [_ Hk%elem_of_zseq].
  destruct (std_num _ _ _ _ _ _ Hd). apply wrapu_small. split; lia.
Qed.
End laws.

(** ** What a transfer promises *)

Inductive sndOp :=
| SndEncrypt (i : Z)      (* Part.GetEncryptedPart of part i *)
| SndArrived (i : Z)      (* Part.MarkArrived of part i *)
| SndRestart.             (* loadSentTransfer *)

Record sndState := mkSnd {
  snd_arrived : gset Z;
  snd_fps : Z;                   (* fingerprints used *)
  snd_status : TransferStatus;
}.

Definition sndOpOk (n : Z) (op : sndOp) : Prop :=
  match op with SndEncrypt i | SndArrived i => 0 <= i < n | SndRestart => True end.

Section contract.
Context {S ID Key TID : Type} `{EKVLaws S} {rel : EKVReliable S} `{FtCryptoLaws Key TID}.
Context `{JsonCodec (sentTransferDisk ID)}.
Implicit Types st : SentTransfer ID Key TID.

Abbreviation packet := (list byte * list byte * list byte)%type.

(** The sender's view: every encryption uses the next fingerprint; the status
    is [Completed] from the arrival of the last missing part, [Failed] after an
    encryption without fingerprints, and [Running] after a restart. *)
Definition sndAbs (nf : Z) (key : Key) (parts : list (list byte)) (size : Z) (a : sndState)
    (op : sndOp) : sndState * option (error + packet) :=
  match op with
  | SndEncrypt i =>
      if snd_fps a <? nf then
        (mkSnd (snd_arrived a) (snd_fps a + 1) (snd_status a),
         Some (inr (Cypher_Encrypt key (snd_fps a)
           (partBytes (Z.to_nat size) i (parts !!! Z.to_nat i)))))
      else
        (mkSnd (snd_arrived a) (snd_fps a) Failed,
         Some (inl (Errorf "used all %d fingerprints" [nf])))
  | SndArrived i =>
      let arrived := {[i]} ∪ snd_arrived a in
      (mkSnd arrived (snd_fps a)
         (if decide (unusedKeys (Z.of_nat (length parts)) arrived = []) then Completed
          else snd_status a), None)
  | SndRestart => (mkSnd (snd_arrived a) (snd_fps a) Running, None)
  end.

Fixpoint sndAbsRun (nf : Z) (key : Key) (parts : list (list byte)) (size : Z) (a : sndState)
    (ops : list sndOp) : sndState * list (option (error + packet)) :=
  match ops with
  | [] => (a, [])
  | op :: ops =>
      let '(a, out) := sndAbs nf key parts size a op in
      let '(a, outs) := sndAbsRun nf key parts size a ops in (a, out :: outs)
  end.

Definition sndExec (v : kv) (size : Z) (op : sndOp) (s : S) st (now : Time) :
    option (S * SentTransfer ID Key TID * option (error + packet)) :=
  match op with
  | SndEncrypt i =>
      match Part_GetEncryptedPart i size now (s, st) with
      | Done (s, st) p => Some (s, st, Some (inr p))
      | Fail (s, st) e => Some (s, st, Some (inl e))
      | Crash => None
      end
  | SndArrived i =>
      match Part_MarkArrived i now (s, st) with
      | Done (s, st) _ => Some (s, st, None)
      | _ => None
      end
  | SndRestart =>
      match loadSentTransfer (st_tid st) v s with
      | Done s st => Some (s, st, None)
      | _ => None
      end
  end.

Fixpoint sndRun (v : kv) (size : Z) (ops : list sndOp) (s : S) st (now : Time) :
    option (S * SentTransfer ID Key TID * list (option (error + packet))) :=
  match ops with
  | [] => Some (s, st, [])
  | op :: ops =>
      '(s, st, out) ← sndExec v size op s st now;
      '(s, st, outs) ← sndRun v size ops s st now;
      Some (s, st, out :: outs)
  end.

Record snd_refines (s : S) (v : kv) st (nf : Z) (key : Key) (parts : list (list byte))
    (a : sndState) : Prop := {
  sr_durable : st_durable s v st nf (list_to_set (zseq 0 (snd_fps a))) (snd_arrived a);
  sr_fps : 0 <= snd_fps a <= nf;
  sr_nf : is_u 16 nf;
  sr_key : cm_key (st_cypherManager st) = key;
  sr_parts : st_parts st = parts;
  sr_status : st_status st = snd_status a;
}.

Lemma sndExec_refines v size op (s : S) st nf key parts a now :
  kv_handle v -> snd_refines s v st nf key parts a ->
  0 < Z.of_nat (length parts) -> sndOpOk (Z.of_nat (length parts)) op ->
  2 <= size -> Forall (fun p => Z.of_nat (length p) <= size - 2) parts ->
  exists s' st', sndExec v size op s st now = Some (s', st', snd (sndAbs nf key parts size a op)) /\
    snd_refines s' v st' nf key parts (fst (sndAbs nf key parts size a op)).
Proof.
  intros Hv [Hd Hfps Hnf Hkey Hparts Hst] Hpos Hop Hsize Hall.
  pose proof (std_length _ _ _ _ _ _ Hd) as Hl. rewrite Hparts in Hl.
  destruct op as [i|i|]; cbn [sndExec sndAbs sndOpOk] in *.
  - destruct (lookup_lt_is_Some_2 parts (Z.to_nat i)) as [part Hpart]; [lia|].
    rewrite (list_lookup_total_correct _ _ _ Hpart).
    pose proof (GetEncryptedPart_ok s v st nf _ _ i size part now Hv Hd Hnf) as Henc.
    rewrite unusedKeys_prefix in Henc by done.
    rewrite Hparts in Henc. specialize (Henc ltac:(lia) Hpart Hsize).
    rewrite list.Forall_forall in Hall.
    specialize (Henc (Hall part (list_elem_of_lookup_2 _ _ _ Hpart))).
    destruct (Z.ltb_spec (snd_fps a) nf) as [Hlt|Hge].
    + rewrite zseq_cons in Henc by done. destruct Henc as (s' & st' & -> & Hd' & Hst' & Hk' & _).
      rewrite list_to_set_zseq_S in Hd' by lia. rewrite Hkey. exists s', st'. split; [done|].
      constructor; cbn [fst snd_fps snd_arrived snd_status]; [done|lia|done|congruence|..];
        by rewrite Hst'.
    + rewrite zseq_nil in Henc by lia. rewrite Henc. do 2 eexists. split; [done|].
      constructor; cbn [fst snd_fps snd_arrived snd_status]; try done. by destruct Hd.
  - unfold Part_MarkArrived.
    destruct (markArrived_ok s v st nf _ _ i now Hv Hd) as (s' & st' & -> & Hst' & Hd' & _); [lia|].
    exists s', st'. split; [done|]. rewrite Hl.
    constructor; cbn [fst snd_fps snd_arrived snd_status]; [done|done|done|..];
      rewrite Hst'; cbn [st_setStatus st_setPartStatus st_cypherManager st_parts st_status]; [done|done|].
    by rewrite Hst.
  - destruct (loadSentTransfer_ok s v st nf _ _ Hd) as (sz & _ & ->); [lia|].
    do 2 eexists. split; [done|].
    constructor; cbn [fst snd_fps snd_arrived snd_status]; try done. by destruct Hd.
Qed.

Lemma sndRun_refines v size ops (s : S) st nf key parts a now :
  kv_handle v -> snd_refines s v st nf key parts a ->
  0 < Z.of_nat (length parts) -> Forall (sndOpOk (Z.of_nat (length parts))) ops ->
  2 <= size -> Forall (fun p => Z.of_nat (length p) <= size - 2) parts ->
  exists s' st', sndRun v size ops s st now = Some (s', st', snd (sndAbsRun nf key parts size a ops)) /\
    snd_refines s' v st' nf key parts (fst (sndAbsRun nf key parts size a ops)).
Proof.
  intros Hv Hr Hpos Hops Hsize Hall. revert s st a Hr.
  induction Hops as [|op ops Hop Hops IH]; intros s st a Hr; [by exists s, st|].
  destruct (sndExec_refines v size op s st nf key parts a now) as (s1 & st1 & He & Hr1); [done..|].
  cbn [sndRun sndAbsRun]. rewrite He. cbn [mbind option_bind].
  destruct (sndAbs nf key parts size a op) as [a1 out]. cbn [fst snd] in *.
  destruct (IH s1 st1 a1 Hr1) as (s2 & st2 & -> & Hr2).
  destruct (sndAbsRun nf key parts size a1 ops) as [a2 outs]. by exists s2, st2.
Qed.

Lemma snd_refines_new (s : S) v st nf :
  is_u 16 nf -> st_durable s v st nf ∅ ∅ -> st_status st = Running ->
  snd_refines s v st nf (cm_key (st_cypherManager st)) (st_parts st) (mkSnd ∅ 0 Running).
Proof.
  intros Hnf Hd Hst. constructor; cbn [snd_fps snd_arrived snd_status]; try done.
  destruct Hnf. lia.
Qed.

(** C15: a sent transfer refines the sender's view.  From a new transfer, any
    sequence of encryptions, arrivals and restarts gives exactly the packets
    and errors of the contract: every packet is the named part under a
    fingerprint that no other packet uses; the unsent parts are the ones that
    did not arrive, and the status is [Completed] from the arrival of the last
    part until a restart, which makes every transfer [Running] again. *)
Theorem SentTransfer_refines (s : S) v v' vm recipient key tid fileName fileSize parts numFps size now ops :
  kv_handle v -> kv_Prefix v (makeSentTransferPrefix tid) = Ok v' ->
  kv_Prefix v' cypherManagerPrefix = Ok vm ->
  0 < Z.of_nat (length parts) < 2 ^ 16 -> is_u 16 numFps ->
  json_ok (mkSentTransferDisk fileName recipient Running parts) ->
  2 <= size -> Forall (fun p => Z.of_nat (length p) <= size - 2) parts ->
  Forall (sndOpOk (Z.of_nat (length parts))) ops ->
  exists s0 st0 s' st',
    newSentTransfer recipient key tid fileName fileSize parts numFps v now s = Done s0 st0 /\
    let '(a, outs) := sndAbsRun numFps key parts size (mkSnd ∅ 0 Running) ops in
    sndRun v size ops s0 st0 now = Some (s', st', outs) /\
    SentTransfer_Status st' = snd_status a /\
    SentTransfer_GetUnsentParts st' = Ok (unusedKeys (Z.of_nat (length parts)) (snd_arrived a)).
Proof.
  intros Hv Hp Hpm Hn Hf Hok Hsize Hall Hops.
  destruct (newSentTransfer_ok s recipient key tid fileName fileSize parts numFps v v' vm now)
    as (s0 & st0 & Hnew & Hd & _ & _ & Hparts & Hkey & Hst & _); [done..|split; lia|done|done|].
  pose proof (snd_refines_new s0 v st0 numFps Hf Hd Hst) as Hr. rewrite Hkey, Hparts in Hr.
  destruct (sndRun_refines v size ops s0 st0 numFps key parts _ now Hv Hr) as (s' & st' & Hrun & Hr');
    [lia|done..|].
  exists s0, st0, s', st'. split; [done|].
  destruct (sndAbsRun numFps key parts size (mkSnd ∅ 0 Running) ops) as [a outs].
  cbn [fst snd] in *. destruct Hr' as [Hd' _ _ _ Hp' Hs']. split_and!; [done|done|].
  rewrite (GetUnsentParts_ok _ _ _ _ _ _ Hd').
  by rewrite <- (std_length _ _ _ _ _ _ Hd'), Hp'.
Qed.
End contract.

(** ** Examples *)

Module SentExample.
Export FtExample.

#[export] Instance sentTransferDisk_eq_dec : EqDecision (sentTransferDisk Z).
Proof. solve_decision. Defined.

#[export] Program Instance sentTransferDisk_countable : Countable (sentTransferDisk Z) :=
  inj_countable'
    (fun d => (sd_FileName d, sd_Recipient d, (sd_Status d : Z), sd_Parts d))
    (fun '(a, b, c, d) => mkSentTransferDisk a b c d) _.
Next Obligation. by intros []. Qed.

#[export] Instance ex_sentCodec : JsonCodec (sentTransferDisk Z) := countableCodec _.

Definition ex_sv' : kv := Eval vm_compute in
  match kv_Prefix NewKV (makeSentTransferPrefix (3 : Z)) with Ok v => v | _ => NewKV end.
Definition ex_svm : kv := Eval vm_compute in
  match kv_Prefix ex_sv' cypherManagerPrefix with Ok v => v | _ => NewKV end.

Lemma ex_sv_ok : kv_Prefix NewKV (makeSentTransferPrefix (3 : Z)) = Ok ex_sv'.
Proof. vm_compute. reflexivity. Qed.
Lemma ex_svm_ok : kv_Prefix ex_sv' cypherManagerPrefix = Ok ex_svm.
Proof. vm_compute. reflexivity. Qed.

(** Two parts of two bytes, three fingerprints. *)
Definition ex_parts : list (list byte) := [[x01; x02]; [x03; x00]].
Definition ex_sndOps : list sndOp :=
  [SndEncrypt 0; SndEncrypt 1; SndArrived 1; SndRestart; SndEncrypt 0; SndArrived 0; SndEncrypt 0].
End SentExample.
Import SentExample.

Lemma SentTransfer_refines_witness :
  exists s0 st0 s' (st' : SentTransfer Z Z Z),
    newSentTransfer 9 7 3 "f" 3 ex_parts 3 NewKV 1 (∅ : MemStore) = Done s0 st0 /\
    sndRun NewKV 4 ex_sndOps s0 st0 1
      = Some (s', st',
          [Some (inr ([x00; x00; x01; x02], ex_fp 7 0, ex_fp 7 0));
           Some (inr ([x01; x00; x03; x00], ex_fp 7 1, ex_fp 7 1)); None; None;
           Some (inr ([x00; x00; x01; x02], ex_fp 7 2, ex_fp 7 2)); None;
           Some (inl (Errorf "used all %d fingerprints" [3]))]) /\
    SentTransfer_Status st' = Failed /\ SentTransfer_GetUnsentParts st' = Ok [].
Proof.
  assert (0 < Z.of_nat (length ex_parts) < 2 ^ 16) as Hn by (simpl; lia).
  assert (Forall (fun p => Z.of_nat (length p) <= 4 - 2) ex_parts) as Hp
    by (repeat constructor; simpl; lia).
  assert (Forall (sndOpOk (Z.of_nat (length ex_parts))) ex_sndOps) as Ho
    by (repeat constructor; simpl; lia).
  destruct (SentTransfer_refines (∅ : MemStore) NewKV ex_sv' ex_svm (9 : Z) (7 : Z) (3 : Z) "f" 3
    ex_parts 3 4 1 ex_sndOps handle_new ex_sv_ok ex_svm_ok Hn ltac:(split; lia) I ltac:(lia) Hp Ho)
    as (s0 & st0 & s' & st' & H1 & H2 & H3 & H4).
  exists s0, st0, s', st'. split; [exact H1|]. split; [exact H2|].
  split; [etrans; [exact H3|reflexivity]|etrans; [exact H4|reflexivity]].
Defined.
