(* ===== verification/Sent.v ===== *)
(** * The list of sent transfers

    [fileTransfer/store/sent.go]: the transfers being sent, by their
    identifier, the list of identifiers in storage, and the start-up that loads
    them again and collects the parts still to be sent.  As for received
    transfers, the map holds places of a heap, or a nil pointer. *)

From S2P Require Import Prelude GoBytes KV Base64 Json StateVector Effects FileMessage FtCypher.
From S2P Require Import Received SentTransfer.

Definition sentTransfersStorePrefix : string := "SentFileTransfersPrefix".
Definition sentTransfersStoreKey : string := "SentFileTransfers".
Definition sentTransfersStoreVersion : Z := 0.

Record Sent (ID Key TID : Type) `{FtCrypto Key TID} := mkSent {
  sn_transfers : gmap TID (option nat);
  sn_heap : list (SentTransfer ID Key TID);
  sn_kv : kv;
}.
Arguments mkSent {ID Key TID _}.
Arguments sn_transfers {ID Key TID _}.
Arguments sn_heap {ID Key TID _}.
Arguments sn_kv {ID Key TID _}.

Section code.
Context {S ID Key TID : Type} `{EKV S} `{FtCrypto Key TID}.
Context `{JsonCodec (sentTransferDisk ID)} `{JsonCodec (list TID)}.
Context (iter : gmap TID (option nat) -> list TID).

Abbreviation Sent := (Sent ID Key TID).

Definition marshalSentTransfersMap (transfers : gmap TID (option nat)) : list byte :=
  json_Marshal (iter transfers).

Definition Sent_save (now : Time) : act (S * Sent) unit := fun '(s, r) =>
  onStore (write (fun s => kv_Set (sn_kv r) s sentTransfersStoreKey
    (mkObject sentTransfersStoreVersion now (marshalSentTransfersMap (sn_transfers r))))) (s, r).

(** The loop of [NewOrLoadSent]: a transfer that does not load is skipped and
    stays in the map as a nil pointer; the unsent parts of the running ones are
    collected, each as its transfer and its number. *)
Fixpoint loadSentLoop (tids : list TID) (unsent : list (nat * Z)) (errCount : Z) :
    act (S * Sent) (list (nat * Z) * Z) := fun '(s, r) =>
  match tids with
  | [] => Done (s, r) (unsent, errCount)
  | tid :: tids =>
      match loadSentTransfer tid (sn_kv r) s with
      | Done s st =>
          let l := length (sn_heap r) in
          let r := mkSent (<[tid := Some l]> (sn_transfers r)) (sn_heap r ++ [st]) (sn_kv r) in
          if SentTransfer_Status st =? Running then
            match SentTransfer_GetUnsentParts st with
            | Ok parts => loadSentLoop tids (unsent ++ map (pair l) parts) errCount (s, r)
            | Err e => Fail (s, r) e
            | Panic => Crash
            end
          else loadSentLoop tids unsent errCount (s, r)
      | Fail s _ =>
          loadSentLoop tids unsent (errCount + 1)
            (s, mkSent (<[tid := None]> (sn_transfers r)) (sn_heap r) (sn_kv r))
      | Crash => Crash
      end
  end.

Definition NewOrLoadSent (v : kv) : act S (Sent * list (nat * Z)) := fun s =>
  match kv_Prefix v sentTransfersStorePrefix with
  | Ok v =>
      let r := mkSent ∅ [] v in
      match kv_Get v s sentTransfersStoreKey sentTransfersStoreVersion with
      | inl e =>
          if negb (ekv_Exists S e) then Done s (r, [])
          else Fail s (Wrapf "error loading sent transfer list from storage: %+v" [] e)
      | inr obj =>
          match unmarshalTransferIdList (Data obj) with
          | Ok tidList =>
              match loadSentLoop tidList [] 0 (s, r) with
              | Done (s, r) (unsent, errCount) =>
                  if (0 <? Z.of_nat (length tidList)) && (errCount =? Z.of_nat (length tidList))
                  then Fail s (Errorf "failed to load all %d sent transfers"
                                 [Z.of_nat (length tidList)])
                  else Done s (r, unsent)
              | Fail (s, _) e => Fail s e
              | Crash => Crash
              end
          | Err e => Fail s (Wrapf "could not unmarshal sent transfer list: %+v" [] e)
          | Panic => Crash
          end
      end
  | Err e => Fail s e
  | Panic => Crash
  end.

Definition Sent_AddTransfer (recipient : ID) (key : Key) (tid : TID) (fileName : string)
    (fileSize : Z) (parts : list (list byte)) (numFps : Z) (now : Time) : act (S * Sent) nat :=
  fun '(s, r) =>
  match sn_transfers r !! tid with
  | Some _ => Fail (s, r) (Errorf "sent transfer with ID %s already exists in map." [])
  | None =>
      match newSentTransfer recipient key tid fileName fileSize parts numFps (sn_kv r) now s with
      | Done s st =>
          let l := length (sn_heap r) in
          let r := mkSent (<[tid := Some l]> (sn_transfers r)) (sn_heap r ++ [st]) (sn_kv r) in
          (_ ← Sent_save now; mret l) (s, r)
      | Fail s _ => Fail (s, r) (Errorf "failed to make new sent transfer: %+v" [])
      | Crash => Crash
      end
  end.

Definition Sent_GetTransfer (r : Sent) (tid : TID) : option (option nat) := sn_transfers r !! tid.

Definition Sent_RemoveTransfer (tid : TID) (now : Time) : act (S * Sent) unit := fun '(s, r) =>
  match sn_transfers r !! tid with
  | None => Done (s, r) tt
  | Some _ => Sent_save now (s, mkSent (delete tid (sn_transfers r)) (sn_heap r) (sn_kv r))
  end.

(** An operation on the transfer at a place of the heap. *)
Definition onSent {A} (l : nat) (m : act (S * SentTransfer ID Key TID) A) : act (S * Sent) A :=
  fun '(s, r) =>
  match sn_heap r !! l with
  | Some st =>
      match m (s, st) with
      | Done (s, st) a => Done (s, mkSent (sn_transfers r) (<[l := st]> (sn_heap r)) (sn_kv r)) a
      | Fail (s, st) e => Fail (s, mkSent (sn_transfers r) (<[l := st]> (sn_heap r)) (sn_kv r)) e
      | Crash => Crash
      end
  | None => Crash
  end.
End code.

(** ** The invariant *)

Section invariant.
Context {S ID Key TID : Type} `{EKVLaws S} {rel : EKVReliable S} `{FtCryptoLaws Key TID}.
Context `{JsonCodec (sentTransferDisk ID)} `{JsonCodec (list TID)}.
Hypothesis list_ok : forall l : list TID, json_ok l.
Context (iter : gmap TID (option nat) -> list TID) `{!MapOrder iter}.
Implicit Types (r : Sent ID Key TID) (st : SentTransfer ID Key TID).

(** [tr_ok s v tid st arrived]: the transfer of the identifier, in storage, with
    the parts that arrived. *)
Definition tr_ok (s : S) (v : kv) (tid : TID) st (arrived : gset Z) : Prop :=
  exists nf Uf, st_tid st = tid /\ is_u 16 nf /\ st_durable s v st nf Uf arrived.

Record sent_inv (v : kv) (s : S) r : Prop := {
  si_handle : kv_handle v;
  si_kv : kv_Prefix v sentTransfersStorePrefix = Ok (sn_kv r);
  si_transfers tid ol : sn_transfers r !! tid = Some ol ->
    exists l st arrived, ol = Some l /\ sn_heap r !! l = Some st /\ tr_ok s (sn_kv r) tid st arrived;
  si_stored :
    match kv_Get (sn_kv r) s sentTransfersStoreKey sentTransfersStoreVersion with
    | inr obj => exists tids, json_Unmarshal (Data obj) = Some tids /\ NoDup tids /\
        (forall tid, tid ∈ tids <-> is_Some (sn_transfers r !! tid))
    | inl e => ekv_Exists S e = false /\ sn_transfers r = ∅
    end;
}.

Lemma sn_handle v s r : sent_inv v s r -> kv_handle (sn_kv r).
Proof. intros [Hh Hp _ _]. by eapply handle_prefix. Qed.

Lemma sent_prefix_inj (t1 t2 : TID) : makeSentTransferPrefix t1 = makeSentTransferPrefix t2 -> t1 = t2.
Proof.
  unfold makeSentTransferPrefix. intros Heq.
  apply (inj (String.append sentTransferStorePrefix)), b64Encode_inj in Heq.
  by apply tid_Bytes_inj.
Qed.

(** A change below one transfer's handle keeps the other transfers. *)
Lemma other_sent_kept (s s' : S) v tid' st A tid vt :
  kv_handle v -> tr_ok s v tid' st A -> kv_Prefix v (makeSentTransferPrefix tid) = Ok vt ->
  tid ≠ tid' -> within vt s s' -> tr_ok s' v tid' st A.
Proof.
  intros Hv (nf & Uf & Ht & Hnf & Hd) Hp Hne Hw. exists nf, Uf. split_and!; [done|done|].
  eapply st_durable_frame; [done..|]. intros u Hu Hu'.
  eapply (below_siblings v); [exact (std_kv _ _ _ _ _ _ Hd)|exact Hp| |exact Hu|exact Hu'].
  intros Heq%sent_prefix_inj. congruence.
Qed.

(** The list's own key is outside every transfer. *)
Lemma confined_sent (s s' : S) v tid st A :
  kv_handle v -> tr_ok s v tid st A -> confined (prefix v) s s' -> tr_ok s' v tid st A.
Proof.
  intros Hv (nf & Uf & Ht & Hnf & Hd) Hc. exists nf, Uf. split_and!; [done|done|].
  pose proof (std_kv _ _ _ _ _ _ Hd) as Hp.
  assert (forall u key n, kv_handle u -> strContains PrefixSeparator key = false -> 0 <= n < 2 ^ 63 ->
    below (st_kv st) u -> kv_Get u s' key n = kv_Get u s key n) as Hsame.
  { intros u key n Hu Hk Hn Hb. apply Hc; [done..|]. by eapply below_ne. }
  destruct Hd as [_ Hcm Hd Hn Hl Hok (n0 & Hf)].
  pose proof (handle_st v _ _ Hv Hp) as Hv'. pose proof (below_refl (st_kv st)) as Hb.
  constructor; try done.
  - destruct Hcm as [Hpm Hdm (n1 & Hk)]. pose proof (handle_cm _ _ Hv' Hpm).
    pose proof (below_prefix _ _ _ Hpm). constructor; [done| |].
    + eapply durable_frame; [done|]. by apply Hsame.
    + exists n1. rewrite <- Hk. by apply Hsame.
  - eapply durable_frame; [done|]. by apply Hsame.
  - exists n0. rewrite <- Hf. by apply Hsame.
Qed.

Lemma Sent_save_ok (s : S) r now :
  kv_handle (sn_kv r) ->
  exists s', Sent_save iter now (s, r) = Done (s', r) tt /\
    kv_Get (sn_kv r) s' sentTransfersStoreKey sentTransfersStoreVersion
      = inr (mkObject sentTransfersStoreVersion now (json_Marshal (iter (sn_transfers r)))) /\
    confined (prefix (sn_kv r)) s s'.
Proof.
  intros Hh. unfold Sent_save.
  set (obj := mkObject _ _ (marshalSentTransfersMap iter (sn_transfers r))).
  destruct (kv_Set_ok (sn_kv r) s sentTransfersStoreKey obj) as [s' Hset].
  exists s'. split; [by apply onStore_Done, write_Done|].
  assert (own_write s s' (sn_kv r) sentTransfersStoreKey obj) as Hw by done.
  split; [apply (own_write_same _ _ _ _ _ Hw)|by eapply own_write_confined].
Qed.

Lemma sent_stored_list (s : S) r now :
  kv_Get (sn_kv r) s sentTransfersStoreKey sentTransfersStoreVersion
    = inr (mkObject sentTransfersStoreVersion now (json_Marshal (iter (sn_transfers r)))) ->
  match kv_Get (sn_kv r) s sentTransfersStoreKey sentTransfersStoreVersion with
  | inr obj => exists tids, json_Unmarshal (Data obj) = Some tids /\ NoDup tids /\
      (forall tid, tid ∈ tids <-> is_Some (sn_transfers r !! tid))
  | inl e => ekv_Exists S e = false /\ sn_transfers r = ∅
  end.
Proof.
  intros ->. exists (iter (sn_transfers r)). cbn [Data]. rewrite json_roundtrip by apply list_ok.
  split_and!; [done|apply map_order_nodup|apply map_order_elem].
Qed.

Lemma Sent_AddTransfer_ok v (s : S) r recipient key tid fileName fileSize parts numFps now vt vm :
  sent_inv v s r -> sn_transfers r !! tid = None ->
  kv_Prefix (sn_kv r) (makeSentTransferPrefix tid) = Ok vt ->
  kv_Prefix vt cypherManagerPrefix = Ok vm -> is_u 16 (Z.of_nat (length parts)) -> is_u 16 numFps ->
  json_ok (mkSentTransferDisk fileName recipient Running parts) ->
  exists s' st,
    let r' := mkSent (<[tid := Some (length (sn_heap r))]> (sn_transfers r)) (sn_heap r ++ [st])
                (sn_kv r) in
    Sent_AddTransfer iter recipient key tid fileName fileSize parts numFps now (s, r)
      = Done (s', r') (length (sn_heap r)) /\
    sent_inv v s' r' /\ st_parts st = parts /\ tr_ok s' (sn_kv r) tid st ∅.
Proof.
  intros Hi Hnone Hp Hpm Hn Hf Hok. pose proof (sn_handle _ _ _ Hi) as Hh.
  unfold Sent_AddTransfer. rewrite Hnone.
  destruct (newSentTransfer_ok s recipient key tid fileName fileSize parts numFps (sn_kv r) vt vm now)
    as (s1 & st & -> & Hd & Ht & _ & Hparts & _ & _ & Hkv & Hw); [done..|].
  set (r' := mkSent _ _ _).
  destruct (Sent_save_ok s1 r' now Hh) as (s2 & Hsave & Hget & Hc).
  exists s2, st. cbv zeta. fold r'.
  assert (tr_ok s1 (sn_kv r) tid st ∅) as Hok1 by by exists numFps, ∅.
  pose proof (confined_sent _ _ _ _ _ _ Hh Hok1 Hc) as Hok2.
  split; [|split_and!; try done].
  { unfold mbind, act_bind. by rewrite Hsave. }
  constructor; cbn [r' sn_kv sn_transfers sn_heap]; [apply Hi|apply Hi| |by eapply (sent_stored_list s2 r')].
  intros tid' ol Hol. destruct (decide (tid' = tid)) as [->|Hne].
  - rewrite lookup_insert_eq in Hol. injection Hol as <-.
    exists (length (sn_heap r)), st, ∅. split_and!; try done. by apply list_lookup_middle.
  - rewrite lookup_insert_ne in Hol by done.
    destruct (si_transfers _ _ _ Hi tid' ol Hol) as (l & st' & A & -> & Hl & Hok').
    exists l, st', A. split_and!; try done; [by apply lookup_app_l_Some|].
    eapply confined_sent; [done| |done]. eapply (other_sent_kept s s1); [done|done|exact Hp|done|exact Hw].
Qed.

(** An operation on one transfer that keeps it in storage and stays below it. *)
Lemma onSent_inv v (s : S) r tid l st A s' st' A' :
  sent_inv v s r -> sn_transfers r !! tid = Some (Some l) -> sn_heap r !! l = Some st ->
  tr_ok s (sn_kv r) tid st A -> tr_ok s' (sn_kv r) tid st' A' -> within (st_kv st) s s' ->
  sent_inv v s' (mkSent (sn_transfers r) (<[l := st']> (sn_heap r)) (sn_kv r)).
Proof.
  intros Hi Hl Hst Hok Hok' Hw. pose proof (sn_handle _ _ _ Hi) as Hh.
  assert (kv_Prefix (sn_kv r) (makeSentTransferPrefix tid) = Ok (st_kv st)) as Hp.
  { destruct Hok as (nf & Uf & <- & _ & Hd). apply Hd. }
  constructor; cbn [sn_kv sn_transfers sn_heap]; [apply Hi|apply Hi| |].
  - intros tid' ol Hol.
    destruct (si_transfers _ _ _ Hi tid' ol Hol) as (l' & st2 & A2 & -> & Hl' & Hok2).
    destruct (decide (l' = l)) as [->|Hne].
    + assert (st2 = st) as -> by congruence.
      assert (tid' = tid) as ->.
      { destruct Hok as (? & ? & <- & _), Hok2 as (? & ? & <- & _). done. }
      exists l, st', A'. split_and!; try done. apply list_lookup_insert_eq. by eapply lookup_lt_Some.
    + exists l', st2, A2. split_and!; try done.
      * by rewrite list_lookup_insert_ne by done.
      * eapply (other_sent_kept s s'); [done|done|exact Hp| |exact Hw]. congruence.
  - rewrite (Hw (sn_kv r) sentTransfersStoreKey sentTransfersStoreVersion);
      [by apply Hi|done|done|unfold sentTransfersStoreVersion; lia|].
    by eapply not_below_parent.
Qed.

(** Removing a transfer of the list, whatever storage holds of that one. *)
Lemma Sent_RemoveTransfer_Some v (s : S) r tid ol now :
  kv_handle v -> kv_Prefix v sentTransfersStorePrefix = Ok (sn_kv r) -> sn_transfers r !! tid = Some ol ->
  (forall tid' ol', tid' ≠ tid -> sn_transfers r !! tid' = Some ol' ->
     exists l st A, ol' = Some l /\ sn_heap r !! l = Some st /\ tr_ok s (sn_kv r) tid' st A) ->
  exists s', Sent_RemoveTransfer iter tid now (s, r)
      = Done (s', mkSent (delete tid (sn_transfers r)) (sn_heap r) (sn_kv r)) tt /\
    sent_inv v s' (mkSent (delete tid (sn_transfers r)) (sn_heap r) (sn_kv r)).
Proof.
  intros Hv Hp Hin Hothers. pose proof (handle_prefix _ _ _ Hv Hp) as Hh.
  unfold Sent_RemoveTransfer. rewrite Hin. set (r' := mkSent (delete tid (sn_transfers r)) _ _).
  destruct (Sent_save_ok s r' now Hh) as (s' & Hsave & Hget & Hc).
  exists s'. split; [done|]. constructor; [done|done| |by eapply (sent_stored_list s' r')].
  intros tid' ol' Hol. cbn [r' sn_transfers] in Hol. apply lookup_delete_Some in Hol as [Hne Hol].
  destruct (Hothers tid' ol' (not_eq_sym Hne) Hol) as (l & st & A & -> & Hl & Hok).
  exists l, st, A. split_and!; try done. by eapply confined_sent.
Qed.

Lemma Sent_RemoveTransfer_ok v (s : S) r tid now :
  sent_inv v s r ->
  exists s', Sent_RemoveTransfer iter tid now (s, r)
      = Done (s', mkSent (delete tid (sn_transfers r)) (sn_heap r) (sn_kv r)) tt /\
    sent_inv v s' (mkSent (delete tid (sn_transfers r)) (sn_heap r) (sn_kv r)).
Proof.
  intros Hi. destruct (sn_transfers r !! tid) as [ol|] eqn:E.
  - apply (Sent_RemoveTransfer_Some v s r tid ol now); [apply Hi|apply Hi|done|].
    intros tid' ol' _. apply Hi.
  - exists s. unfold Sent_RemoveTransfer. rewrite E.
    assert (mkSent (delete tid (sn_transfers r)) (sn_heap r) (sn_kv r) = r) as ->
      by (rewrite delete_id by done; by destruct r). done.
Qed.

(** Deleting a transfer's files touches nothing above or beside it. *)
Lemma SentTransfer_Delete_ok (s : S) v tid st A :
  kv_handle v -> tr_ok s v tid st A ->
  exists s', SentTransfer_Delete st s = Done s' tt /\ within (st_kv st) s s'.
Proof.
  intros Hv (nf & Uf & Ht & Hnf & Hd). pose proof (handle_st v _ _ Hv (std_kv _ _ _ _ _ _ Hd)) as Hv'.
  pose proof (std_cypher _ _ _ _ _ _ Hd) as Hcm. unfold SentTransfer_Delete.
  destruct (CypherManager_Delete_ok s (st_kv st) _ nf Uf Hv' Hcm) as (s1 & Hs1 & Hc1 & _).
  act_step.
  destruct (kv_Delete_ok (st_kv st) s1 sentTransferStoreKey sentTransferStoreVersion) as [s2 Hs2].
  act_step. unfold StateVector_Delete.
  destruct (std_status _ _ _ _ _ _ Hd) as [_ Hdis Hk Hkv _]. rewrite Hdis, Hk, Hkv.
  destruct (kv_Delete_ok (st_kv st) s2 (makeStateVectorKey sentTransferStatusKey)
    currentStateVectorVersion) as [s3 Hs3].
  exists s3. split; [by apply annotate_Done, write_Done|].
  pose proof (kv_Delete_confined _ _ _ _ _ _ Hs2 Hv' eq_refl ltac:(unfold sentTransferStoreVersion; lia)) as Hc2.
  pose proof (kv_Delete_confined _ _ _ _ _ _ Hs3 Hv' eq_refl ltac:(unfold currentStateVectorVersion; lia)) as Hc3.
  apply (within_trans _ _ s1); [|apply (within_trans _ _ s2)]; eapply confined_within; try done;
    [by eapply below_prefix, (cmd_kv _ _ _ _ _ Hcm)|apply below_refl|apply below_refl].
Qed.

(** ** Start-up *)

Definition unsentOf st : list Z :=
  match SentTransfer_GetUnsentParts st with Ok ps => ps | _ => [] end.

Fixpoint unsentFrom (k : nat) (sts : list (SentTransfer ID Key TID)) : list (nat * Z) :=
  match sts with
  | [] => []
  | st :: sts => map (pair k) (unsentOf st) ++ unsentFrom (Datatypes.S k) sts
  end.

(** [resumes s v tid st st']: the transfer [st] of [tid] loads as [st']. *)
Definition resumes (s : S) (v : kv) (tid : TID) st st' : Prop :=
  loadSentTransfer tid v s = Done s st' /\ SentTransfer_Status st' = Running /\
  (exists ps, SentTransfer_GetUnsentParts st = Ok ps /\ SentTransfer_GetUnsentParts st' = Ok ps) /\
  st_parts st' = st_parts st /\ st_recipient st' = st_recipient st /\
  st_cypherManager st' = st_cypherManager st /\ (forall A, tr_ok s v tid st A -> tr_ok s v tid st' A).

Lemma tr_resumes (s : S) v tid st A :
  tr_ok s v tid st A -> st_parts st ≠ [] -> exists st', resumes s v tid st st'.
Proof.
  intros (nf & Uf & Ht & Hnf & Hd) Hne. pose proof (std_length _ _ _ _ _ _ Hd) as Hl.
  destruct (loadSentTransfer_ok s v st nf Uf A Hd) as (size & _ & Hload).
  { destruct (st_parts st); [done|]. cbn [length] in Hl. lia. }
  rewrite Ht in Hload. eexists. split; [exact Hload|]. split_and!; try done.
  - exists (unusedKeys (st_numParts st) A).
    pose proof (GetUnsentParts_ok s v st nf Uf A Hd) as Hu. split; exact Hu.
  - intros A' (nf' & Uf' & Ht' & Hnf' & Hd'). exists nf', Uf'. split_and!; [done|done|]. rewrite <- Ht.
    destruct Hd'; constructor; assumption.
Qed.

(** A transfer without parts stops the program when it is loaded. *)
Lemma tr_empty_crash (s : S) v tid st A :
  tr_ok s v tid st A -> st_parts st = [] -> loadSentTransfer tid v s = Crash.
Proof.
  intros (nf & Uf & Ht & Hnf & Hd) Hnil. destruct Hd as [Hp Hcm Hd Hn Hl Hok (n0 & Hf)].
  unfold loadSentTransfer. rewrite Ht in Hp. act_step.
  erewrite bind_Done by (apply annotate_Done; by eapply LoadCypherManager_ok).
  act_step. cbn [Data].
  erewrite bind_Done by (apply annotate_Done, pureResult_Done; unfold unmarshalSentTransfer;
    rewrite json_roundtrip by exact Hok; reflexivity).
  cbn [sd_FileName sd_Recipient sd_Status sd_Parts].
  erewrite bind_Done by (apply annotate_Done; by eapply loadVector_ok).
  apply bind_Crash. by rewrite Hnil.
Qed.

Lemma loadSentLoop_ok (s : S) tids sts sts' r uns n :
  Forall3 (fun tid st st' => resumes s (sn_kv r) tid st st') tids sts sts' ->
  loadSentLoop tids uns n (s, r)
    = Done (s, mkSent (loadedMap (length (sn_heap r)) tids (sn_transfers r)) (sn_heap r ++ sts')
              (sn_kv r)) (uns ++ unsentFrom (length (sn_heap r)) sts', n).
Proof.
  intros Hall. remember (sn_kv r) as v eqn:Hv. revert r uns Hv.
  induction Hall as [|tid st st' tids sts sts' (Hload & Hrun & (ps & _ & Hps) & _) Hall IH];
    intros r uns Hv; cbn [loadSentLoop].
  { cbn [unsentFrom loadedMap]. rewrite !app_nil_r, Hv. by destruct r. }
  rewrite <- Hv, Hload, Hrun, Hps, Z.eqb_refl.
  set (r1 := mkSent (<[tid := Some (length (sn_heap r))]> (sn_transfers r)) (sn_heap r ++ [st']) v).
  specialize (IH r1). cbn [r1 sn_heap sn_transfers] in IH.
  rewrite length_app, Nat.add_1_r, <- app_assoc in IH.
  cbn [unsentFrom loadedMap app]. unfold unsentOf. rewrite Hps.
  rewrite IH by done. by rewrite <- app_assoc.
Qed.

Lemma elem_unsentFrom sts k l i :
  (l, i) ∈ unsentFrom k sts <-> exists st, (k <= l)%nat /\ sts !! (l - k)%nat = Some st /\ i ∈ unsentOf st.
Proof.
  revert k. induction sts as [|st sts IH]; intros k; cbn [unsentFrom].
  { rewrite elem_of_nil. split; [done|]. by intros (st & _ & Hr & _). }
  rewrite elem_of_app, IH. split.
  - intros [Hin|(st' & Hk & Hst & Hu)].
    + apply list_elem_of_fmap in Hin as (j & [= -> ->] & Hj). exists st. by rewrite Nat.sub_diag.
    + exists st'. split; [lia|]. split; [|done].
      by replace (l - k)%nat with (Datatypes.S (l - Datatypes.S k)) by lia.
  - intros (st' & Hk & Hst & Hu). destruct (decide (l = k)) as [->|Hne].
    + rewrite Nat.sub_diag in Hst. injection Hst as ->. left. apply list_elem_of_fmap. by exists i.
    + right. exists st'. split; [lia|]. split; [|done].
      by replace (l - k)%nat with (Datatypes.S (l - Datatypes.S k)) in Hst by lia.
Qed.

(** Every transfer of the map has parts. *)
Definition noEmptyFile r : Prop :=
  forall tid l st, sn_transfers r !! tid = Some (Some l) -> sn_heap r !! l = Some st -> st_parts st ≠ [].

Lemma sent_loads v (s : S) r tids :
  sent_inv v s r -> noEmptyFile r -> (forall tid, tid ∈ tids -> is_Some (sn_transfers r !! tid)) ->
  exists sts sts', Forall3 (fun tid st st' => resumes s (sn_kv r) tid st st' /\
    exists l, sn_transfers r !! tid = Some (Some l) /\ sn_heap r !! l = Some st) tids sts sts'.
Proof.
  intros Hi Hne. induction tids as [|tid tids IH]; intros Hin; [exists [], []; constructor|].
  destruct IH as (sts & sts' & Hrest); [intros; apply Hin; by right|].
  destruct (Hin tid ltac:(left)) as [ol Hol].
  destruct (si_transfers _ _ _ Hi tid ol Hol) as (l & st & A & -> & Hl & Hok).
  destruct (tr_resumes s _ tid st A Hok (Hne tid l st Hol Hl)) as [st' Hres].
  exists (st :: sts), (st' :: sts'). constructor; [|done]. split; [done|by exists l].
Qed.

Lemma Forall3_impl' {A B C} (P Q : A -> B -> C -> Prop) l k k' :
  Forall3 P l k k' -> (forall a b c, P a b c -> Q a b c) -> Forall3 Q l k k'.
Proof. intros Hall HPQ. induction Hall; constructor; auto. Qed.

Lemma Forall3_lookup_l' {A B C} (P : A -> B -> C -> Prop) l k k' i x :
  Forall3 P l k k' -> l !! i = Some x -> exists y z, k !! i = Some y /\ k' !! i = Some z /\ P x y z.
Proof.
  intros Hall. revert i. induction Hall as [|a b c l k k' HP Hall IH]; intros i Hx; [done|].
  destruct i as [|i]; [|by apply IH]. injection Hx as ->. by exists b, c.
Qed.

Lemma NewOrLoadSent_ok v (s : S) r :
  sent_inv v s r -> noEmptyFile r ->
  exists r' uns, NewOrLoadSent v s = Done s (r', uns) /\ sn_kv r' = sn_kv r /\
    (forall tid, is_Some (sn_transfers r' !! tid) <-> is_Some (sn_transfers r !! tid)) /\
    (forall tid l st, sn_transfers r !! tid = Some (Some l) -> sn_heap r !! l = Some st ->
      exists l' st' ps, sn_transfers r' !! tid = Some (Some l') /\ sn_heap r' !! l' = Some st' /\
        resumes s (sn_kv r) tid st st' /\ SentTransfer_GetUnsentParts st = Ok ps /\
        (forall i, (l', i) ∈ uns <-> i ∈ ps)).
Proof.
  intros Hi Hne. unfold NewOrLoadSent. rewrite (si_kv _ _ _ Hi).
  pose proof (si_stored _ _ _ Hi) as Hst. destruct (kv_Get _ _ _ _) as [e|obj].
  - destruct Hst as [-> Hempty]. do 2 eexists. split; [done|]. split; [done|].
    rewrite Hempty. split; [done|]. intros tid l st Hl. by rewrite lookup_empty in Hl.
  - destruct Hst as (tids & Hun & Hnd & Htids). unfold unmarshalTransferIdList. rewrite Hun.
    destruct (sent_loads v s r tids Hi Hne) as (sts & sts' & Hall); [intros; by apply Htids|].
    set (r0 := mkSent ∅ [] (sn_kv r)).
    rewrite (loadSentLoop_ok s tids sts sts' r0 [] 0);
      [|eapply Forall3_impl'; [exact Hall|]; by intros ? ? ? [? _]].
    replace ((0 <? Z.of_nat (length tids)) && (0 =? Z.of_nat (length tids))) with false
      by (destruct tids; [done|]; symmetry; apply andb_false_iff; right; apply Z.eqb_neq; cbn [length]; lia).
    do 2 eexists. split; [done|]. split; [done|]. cbn [r0 sn_transfers sn_heap app length]. split.
    + intros tid. rewrite loadedMap_spec by done.
      destruct (list_find (fun t => t = tid) tids) as [[i x]|] eqn:E.
      * apply list_find_Some in E as (Hx & -> & _). split; [intros _|by eauto].
        apply Htids. by eapply list_elem_of_lookup_2.
      * apply list_find_None in E. rewrite lookup_empty. split; [by intros [? ?]|].
        intros Hs%Htids. rewrite list.Forall_forall in E. by apply E in Hs.
    + intros tid l st Hl Hst. assert (tid ∈ tids) as Hin by (apply Htids; eauto).
      rewrite loadedMap_spec by done.
      destruct (list_find (fun t => t = tid) tids) as [[i x]|] eqn:E.
      2: { apply list_find_None in E. rewrite list.Forall_forall in E. by apply E in Hin. }
      apply list_find_Some in E as (Hx & -> & _).
      destruct (Forall3_lookup_l' _ _ _ _ _ _ Hall Hx) as (st1 & st' & _ & Hst' & Hres & l1 & Hl1 & Hst1).
      assert (st1 = st) as -> by congruence.
      pose proof Hres as (_ & _ & (ps & Hps & Hps') & _).
      exists i, st', ps. split_and!; [done|done|done|done|]. intros j.
      rewrite elem_unsentFrom, Nat.sub_0_r. unfold unsentOf. split.
      * intros (st2 & _ & Hst2 & Hu). rewrite Hst' in Hst2. injection Hst2 as <-. by rewrite Hps' in Hu.
      * intros Hj. exists st'. split_and!; [lia|done|]. by rewrite Hps'.
Qed.

Lemma sent_loop_crash v (s : S) r tids uns n r0 :
  sent_inv v s r -> sn_kv r0 = sn_kv r ->
  (forall tid, tid ∈ tids -> is_Some (sn_transfers r !! tid)) ->
  (exists tid, tid ∈ tids /\ loadSentTransfer tid (sn_kv r) s = Crash) ->
  loadSentLoop tids uns n (s, r0) = Crash.
Proof.
  intros Hi. revert r0 uns. induction tids as [|tid tids IH]; intros r0 uns Hkv Hin Hex.
  { destruct Hex as (tid & Htid & _). by apply not_elem_of_nil in Htid. }
  cbn [loadSentLoop]. rewrite Hkv. destruct (Hin tid ltac:(left)) as [ol Hol].
  destruct (si_transfers _ _ _ Hi tid ol Hol) as (l & st & A & -> & Hl & Hok).
  destruct (decide (st_parts st = [])) as [Hnil|Hne].
  { by rewrite (tr_empty_crash s _ tid st A Hok Hnil). }
  destruct (tr_resumes s _ tid st A Hok Hne) as (st' & Hload & Hrun & (ps & _ & Hps) & _).
  rewrite Hload, Hrun, Hps, Z.eqb_refl. apply IH; [done|intros; apply Hin; by right|].
  destruct Hex as (t & Ht & Hcrash). exists t. split; [|done].
  apply elem_of_cons in Ht as [->|Ht]; [congruence|done].
Qed.

(** A start-up that succeeds met no transfer of an empty file. *)
Lemma NewOrLoadSent_nonempty v (s s' : S) r r' uns :
  sent_inv v s r -> NewOrLoadSent v s = Done s' (r', uns) -> noEmptyFile r.
Proof.
  intros Hi Hload tid l st Hl Hst Hnil. revert Hload. unfold NewOrLoadSent. rewrite (si_kv _ _ _ Hi).
  destruct (si_transfers _ _ _ Hi tid _ Hl) as (l1 & st1 & A & [= <-] & Hl1 & Hok).
  rewrite Hst in Hl1. injection Hl1 as <-. pose proof (si_stored _ _ _ Hi) as Hstored.
  destruct (kv_Get _ _ _ _) as [e|obj].
  { destruct Hstored as [_ Hempty]. rewrite Hempty in Hl. by rewrite lookup_empty in Hl. }
  destruct Hstored as (tids & Hun & Hnd & Htids). unfold unmarshalTransferIdList. rewrite Hun.
  rewrite (sent_loop_crash v s r tids [] 0 _ Hi); [done|done|intros; by apply Htids|].
  exists tid. split; [apply Htids; eauto|]. by eapply tr_empty_crash.
Qed.

(** Start-up keeps the invariant: what it loads is what storage holds. *)
Lemma NewOrLoadSent_inv v (s s' : S) r r' uns :
  sent_inv v s r -> NewOrLoadSent v s = Done s' (r', uns) -> sent_inv v s' r'.
Proof.
  intros Hi Hload. pose proof (NewOrLoadSent_nonempty _ _ _ _ _ _ Hi Hload) as Hne.
  destruct (NewOrLoadSent_ok v s r Hi Hne) as (r1 & uns1 & Hload1 & Hkv & Hdom & Hall).
  rewrite Hload1 in Hload. injection Hload as <- <- <-.
  constructor; [apply Hi|rewrite Hkv; apply Hi| |].
  - intros tid ol Hol. destruct (proj1 (Hdom tid) ltac:(eauto)) as [ol0 Hol0].
    destruct (si_transfers _ _ _ Hi tid ol0 Hol0) as (l & st & A & -> & Hl & Hok).
    destruct (Hall tid l st Hol0 Hl) as (l' & st' & ps & Hl' & Hst' & Hres & _).
    exists l', st', A. rewrite Hkv. split_and!; [congruence|done|]. by apply Hres.
  - rewrite Hkv. pose proof (si_stored _ _ _ Hi) as Hst. destruct (kv_Get _ _ _ _) as [e|obj].
    + destruct Hst as [He Hempty]. split; [done|]. apply map_eq. intros tid.
      pose proof (Hdom tid) as Hd. rewrite Hempty, lookup_empty in *.
      destruct (sn_transfers r1 !! tid); [|done]. by destruct (proj1 Hd ltac:(eauto)).
    + destruct Hst as (tids & Hun & Hnd & Htids). exists tids. split_and!; [done|done|].
      intros tid. by rewrite Htids, Hdom.
Qed.

(** ** Runs *)

(** A step of a program that holds the list of the store under [v]: a transfer
    is added, a part of a transfer of the list is encrypted or arrives, a
    transfer is removed from the list, a transfer that completed or failed is
    closed (its files are deleted and then it is removed from the list, as
    [CloseSend] does, with nothing in between), or the program stops and a new
    one loads the list. *)
Inductive snStep (v : kv) : S * Sent ID Key TID -> S * Sent ID Key TID -> Prop :=
| sn_add s r recipient key tid fileName fileSize parts numFps now vt vm s' r' l :
    kv_Prefix (sn_kv r) (makeSentTransferPrefix tid) = Ok vt ->
    kv_Prefix vt cypherManagerPrefix = Ok vm ->
    is_u 16 (Z.of_nat (length parts)) -> is_u 16 numFps ->
    json_ok (mkSentTransferDisk fileName recipient Running parts) ->
    Sent_AddTransfer iter recipient key tid fileName fileSize parts numFps now (s, r)
      = Done (s', r') l ->
    snStep v (s, r) (s', r')
| sn_encrypt s r tid l st i part size now s' r' o :
    sn_transfers r !! tid = Some (Some l) -> sn_heap r !! l = Some st ->
    0 <= i -> st_parts st !! Z.to_nat i = Some part ->
    2 <= size -> Z.of_nat (length part) <= size - 2 ->
    onSent l (Part_GetEncryptedPart i size now) (s, r) = o -> outcome_state o = Some (s', r') ->
    snStep v (s, r) (s', r')
| sn_arrived s r tid l st i now s' r' u :
    sn_transfers r !! tid = Some (Some l) -> sn_heap r !! l = Some st ->
    0 <= i < SentTransfer_NumParts st ->
    onSent l (Part_MarkArrived i now) (s, r) = Done (s', r') u ->
    snStep v (s, r) (s', r')
| sn_remove s r tid now s' r' :
    Sent_RemoveTransfer iter tid now (s, r) = Done (s', r') tt ->
    snStep v (s, r) (s', r')
| sn_close s r tid l st now s1 s' r' :
    Sent_GetTransfer r tid = Some (Some l) -> sn_heap r !! l = Some st ->
    SentTransfer_Status st = Completed \/ SentTransfer_Status st = Failed ->
    SentTransfer_Delete st s = Done s1 tt ->
    Sent_RemoveTransfer iter tid now (s1, r) = Done (s', r') tt ->
    snStep v (s, r) (s', r')
| sn_restart s r s' r' uns :
    NewOrLoadSent v s = Done s' (r', uns) ->
    snStep v (s, r) (s', r').

Lemma snStep_inv v x x' : snStep v x x' -> sent_inv v x.1 x.2 -> sent_inv v x'.1 x'.2.
Proof.
  intros Hstep Hi. destruct Hstep as
    [s r recipient key tid fileName fileSize parts numFps now vt vm s' r' l Hp Hpm Hn Hf Hok Hadd
    |s r tid l st i part size now s' r' o Hl Hst Hi0 Hpart Hsize Hlen Ho Hs'
    |s r tid l st i now s' r' u Hl Hst Hi0 Hmark|s r tid now s' r' Hrem
    |s r tid l st now s1 s' r' Hl Hst _ Hdel Hrem|s r s' r' uns Hload]; cbn [fst snd] in *.
  - destruct (sn_transfers r !! tid) as [ol|] eqn:E.
    { unfold Sent_AddTransfer in Hadd. by rewrite E in Hadd. }
    destruct (Sent_AddTransfer_ok v s r recipient key tid fileName fileSize parts numFps now vt vm)
      as (s1 & st & Hadd' & Hi' & _); [done..|].
    rewrite Hadd' in Hadd. injection Hadd as <- <- _. exact Hi'.
  - destruct (si_transfers _ _ _ Hi tid _ Hl) as (l1 & st1 & A & [= <-] & Hl1 & Hok).
    rewrite Hst in Hl1. injection Hl1 as <-. pose proof (sn_handle _ _ _ Hi) as Hh.
    pose proof Hok as (nf & Uf & Ht & Hnf & Hd).
    pose proof (GetEncryptedPart_ok s (sn_kv r) st nf Uf A i size part now Hh Hd Hnf Hi0 Hpart Hsize Hlen)
      as Henc. subst o. unfold onSent in Hs'. rewrite Hst in Hs'.
    destruct (unusedKeys nf Uf) as [|k ks].
    + rewrite Henc in Hs'. injection Hs' as <- <-.
      apply (onSent_inv v s r tid l st A s _ A); [done..| |apply within_refl].
      exists nf, Uf. split_and!; [done|done|]. by destruct Hd.
    + destruct Henc as (s1 & st1 & Henc & Hd1 & Hst1 & _ & Hw). rewrite Henc in Hs'. injection Hs' as <- <-.
      apply (onSent_inv v s r tid l st A s1 _ A); [done..| |done].
      exists nf, ({[k]} ∪ Uf). split_and!; [|done|done]. rewrite Hst1. exact Ht.
  - destruct (si_transfers _ _ _ Hi tid _ Hl) as (l1 & st1 & A & [= <-] & Hl1 & Hok).
    rewrite Hst in Hl1. injection Hl1 as <-. pose proof (sn_handle _ _ _ Hi) as Hh.
    pose proof Hok as (nf & Uf & Ht & Hnf & Hd).
    destruct (markArrived_ok s (sn_kv r) st nf Uf A i now Hh Hd Hi0) as (s1 & st1 & Hm & Hst1 & Hd1 & Hw).
    unfold onSent, Part_MarkArrived in Hmark. rewrite Hst, Hm in Hmark. injection Hmark as <- <- _.
    apply (onSent_inv v s r tid l st A s1 _ ({[i]} ∪ A)); [done..| |done].
    exists nf, Uf. split_and!; [|done|done]. rewrite Hst1. exact Ht.
  - destruct (Sent_RemoveTransfer_ok v s r tid now Hi) as (s1 & Hrem' & Hi').
    rewrite Hrem' in Hrem. injection Hrem as <- <-. exact Hi'.
  - destruct (si_transfers _ _ _ Hi tid _ Hl) as (l1 & st1 & A & [= <-] & Hl1 & Hok).
    rewrite Hst in Hl1. injection Hl1 as <-. pose proof (sn_handle _ _ _ Hi) as Hh.
    destruct (SentTransfer_Delete_ok s (sn_kv r) tid st A Hh Hok) as (s2 & Hdel' & Hw).
    rewrite Hdel' in Hdel. injection Hdel as ->.
    assert (kv_Prefix (sn_kv r) (makeSentTransferPrefix tid) = Ok (st_kv st)) as Hp
      by (destruct Hok as (nf & Uf & <- & _ & Hd); apply Hd).
    destruct (Sent_RemoveTransfer_Some v s1 r tid (Some l) now) as (s3 & Hrem' & Hi');
      [apply Hi|apply Hi|done| |].
    + intros tid' ol' Hne Hol. destruct (si_transfers _ _ _ Hi tid' ol' Hol) as (l' & st' & A' & -> & Hl' & Hok').
      exists l', st', A'. split_and!; try done. eapply (other_sent_kept s s1); [done|done|exact Hp|done|exact Hw].
    + rewrite Hrem' in Hrem. injection Hrem as <- <-. exact Hi'.
  - by eapply NewOrLoadSent_inv.
Qed.

(** The states a program and its restarts reach from a store without a list of
    transfers. *)
Definition snReachable (v : kv) (s : S) r : Prop :=
  exists vr s0 e, kv_handle v /\ kv_Prefix v sentTransfersStorePrefix = Ok vr /\
    kv_Get vr s0 sentTransfersStoreKey sentTransfersStoreVersion = inl e /\
    ekv_Exists S e = false /\ star (snStep v) (s0, mkSent ∅ [] vr) (s, r).

Lemma sent_reachable_inv v s r : snReachable v s r -> sent_inv v s r.
Proof.
  intros (vr & s0 & e & Hv & Hp & Hg & He & Hstar).
  apply (star_invariant (snStep v) (fun x => sent_inv v x.1 x.2)
    (fun x x' Hx Hstep => snStep_inv v x x' Hstep Hx) _ _ Hstar). cbn [fst snd].
  constructor; cbn [sn_kv sn_transfers sn_heap]; [done|done| |by rewrite Hg].
  intros tid ol Hol. by rewrite lookup_empty in Hol.
Qed.

(** C34: a restart resumes every sent transfer.  In every state reached by adding,
    encrypting, arrivals, removing, closing and earlier restarts in which no
    transfer is of an empty file, start-up returns exactly the transfers of the
    list, each with its parts, recipient and cyphers and [Running], whatever
    its status was, and the parts to send are exactly those that have not
    arrived, for each of them; and the program goes on from there in the same
    way ([snReachable] again). *)
Theorem NewOrLoadSent_resumes v (s : S) r :
  snReachable v s r -> noEmptyFile r ->
  exists r' uns, NewOrLoadSent v s = Done s (r', uns) /\ snReachable v s r' /\
    (forall tid, is_Some (Sent_GetTransfer r' tid) <-> is_Some (Sent_GetTransfer r tid)) /\
    (forall tid l st, Sent_GetTransfer r tid = Some (Some l) -> sn_heap r !! l = Some st ->
      exists l' st' ps, Sent_GetTransfer r' tid = Some (Some l') /\ sn_heap r' !! l' = Some st' /\
        SentTransfer_Status st' = Running /\ st_parts st' = st_parts st /\
        st_recipient st' = st_recipient st /\ st_cypherManager st' = st_cypherManager st /\
        SentTransfer_GetUnsentParts st = Ok ps /\ (forall i, (l', i) ∈ uns <-> i ∈ ps)).
Proof.
  intros Hr Hne. destruct (NewOrLoadSent_ok v s r (sent_reachable_inv _ _ _ Hr) Hne)
    as (r' & uns & Hload & _ & Hdom & Hall).
  exists r', uns. split_and!; [done| |done|].
  { destruct Hr as (vr & s0 & e & Hv & Hp & Hg & He & Hstar). exists vr, s0, e. split_and!; try done.
    eapply star_trans; [exact Hstar|]. eapply star_step; [by eapply sn_restart|apply star_refl]. }
  intros tid l st Hl Hst.
  destruct (Hall tid l st Hl Hst) as (l' & st' & ps & ? & ? & (_ & ? & _ & ? & ? & ? & _) & ? & ?).
  by exists l', st', ps.
Qed.

(** sending an empty file makes every later start panic.  A transfer of no
    parts is accepted and stored; loading it computes the file size from its
    last part, which does not exist. *)
Theorem NewOrLoadSent_empty_file_panics v (s s' : S) r r' recipient key tid fileName numFps now vt vm l :
  snReachable v s r -> kv_Prefix (sn_kv r) (makeSentTransferPrefix tid) = Ok vt ->
  kv_Prefix vt cypherManagerPrefix = Ok vm -> is_u 16 numFps ->
  json_ok (mkSentTransferDisk fileName recipient Running []) ->
  Sent_AddTransfer iter recipient key tid fileName 0 [] numFps now (s, r) = Done (s', r') l ->
  NewOrLoadSent (ID := ID) v s' = Crash.
Proof.
  intros Hr Hp Hpm Hf Hok Hadd. pose proof (sent_reachable_inv _ _ _ Hr) as Hi.
  destruct (sn_transfers r !! tid) as [ol|] eqn:E.
  { unfold Sent_AddTransfer in Hadd. by rewrite E in Hadd. }
  destruct (Sent_AddTransfer_ok v s r recipient key tid fileName 0 [] numFps now vt vm)
    as (s1 & st & Hadd' & Hi' & Hparts & Hok'); [done..|by split|done|done|].
  rewrite Hadd' in Hadd. injection Hadd as <- <- _.
  pose proof (tr_empty_crash s1 _ tid st ∅ Hok' Hparts) as Hcrash.
  unfold NewOrLoadSent. rewrite (si_kv _ _ _ Hi'). pose proof (si_stored _ _ _ Hi') as Hst.
  destruct (kv_Get _ s1 _ _) as [e'|obj].
  { destruct Hst as [_ Hempty]. cbn [sn_transfers] in Hempty. by apply insert_non_empty in Hempty. }
  destruct Hst as (tids & Hun & Hnd & Htids). unfold unmarshalTransferIdList. rewrite Hun.
  rewrite (sent_loop_crash v s1 _ tids [] 0 _ Hi'); [done|done|intros; by apply Htids|].
  exists tid. split; [|done]. apply Htids. cbn [sn_transfers]. rewrite lookup_insert_eq. eauto.
Qed.
End invariant.

(** ** Examples *)

Module SentListExample.
Export SentExample.
Export ReceivedListExample.

Definition ex_ls : kv := Eval vm_compute in
  match kv_Prefix NewKV sentTransfersStorePrefix with Ok v => v | _ => NewKV end.
Definition ex_lst : kv := Eval vm_compute in
  match kv_Prefix ex_ls (makeSentTransferPrefix (3 : Z)) with Ok v => v | _ => NewKV end.
Definition ex_lstm : kv := Eval vm_compute in
  match kv_Prefix ex_lst cypherManagerPrefix with Ok v => v | _ => NewKV end.
Lemma ex_ls_ok : kv_Prefix NewKV sentTransfersStorePrefix = Ok ex_ls.
Proof. vm_compute. reflexivity. Qed.
Lemma ex_lst_ok : kv_Prefix ex_ls (makeSentTransferPrefix (3 : Z)) = Ok ex_lst.
Proof. vm_compute. reflexivity. Qed.
Lemma ex_lstm_ok : kv_Prefix ex_lst cypherManagerPrefix = Ok ex_lstm.
Proof. vm_compute. reflexivity. Qed.

Definition ex_sent0 : Sent Z Z Z := mkSent ∅ [] ex_ls.

Lemma ex_sent0_reachable : snReachable iterZ NewKV (∅ : MemStore) ex_sent0.
Proof.
  exists ex_ls, (∅ : MemStore), errNotFound.
  split; [exact handle_new|]. split; [exact ex_ls_ok|]. split; [reflexivity|]. split; [reflexivity|].
  apply star_refl.
Qed.

(** A transfer of the parts is added. *)
Lemma ex_sent_added parts :
  is_u 16 (Z.of_nat (length parts)) ->
  exists s r st,
    Sent_AddTransfer iterZ (9 : Z) (7 : Z) 3 "f" 0 parts 3 1 ((∅ : MemStore), ex_sent0)
      = Done (s, r) 0%nat /\
    snReachable iterZ NewKV s r /\ Sent_GetTransfer r 3 = Some (Some 0%nat) /\
    sn_heap r = [st] /\ st_parts st = parts /\
    SentTransfer_GetUnsentParts st = Ok (unusedKeys (st_numParts st) ∅).
Proof.
  intros Hn.
  destruct (Sent_AddTransfer_ok ex_list_ok iterZ NewKV (∅ : MemStore) ex_sent0 (9 : Z) (7 : Z) (3 : Z)
    "f" 0 parts 3 1 ex_lst ex_lstm
    (sent_reachable_inv ex_list_ok iterZ NewKV (∅ : MemStore) ex_sent0 ex_sent0_reachable)
    eq_refl ex_lst_ok ex_lstm_ok Hn ltac:(split; lia) I) as (s & st & Hadd & Hi & Hp & Hok).
  eexists s, _, st. split; [exact Hadd|]. split; [|split; [|split; [|split]]].
  - exists ex_ls, (∅ : MemStore), errNotFound.
    split; [exact handle_new|]. split; [exact ex_ls_ok|]. split; [reflexivity|]. split; [reflexivity|].
    eapply star_step; [|apply star_refl].
    eapply (sn_add iterZ); [exact ex_lst_ok|exact ex_lstm_ok|exact Hn|..|exact Hadd];
      [split; lia|exact I].
  - unfold Sent_GetTransfer. cbn [sn_transfers]. apply lookup_insert_eq.
  - reflexivity.
  - exact Hp.
  - destruct Hok as (nf & Uf & _ & _ & Hd). exact (GetUnsentParts_ok s _ st nf Uf ∅ Hd).
Qed.
End SentListExample.
Import SentListExample.

(** A transfer of three parts is added, the program is started again, and once more. *)
Lemma NewOrLoadSent_resumes_witness :
  exists (s : MemStore) (r1 r2 : Sent Z Z Z) l2 st2 uns1 uns2,
    NewOrLoadSent NewKV s = Done s (r1, uns1) /\ snReachable iterZ NewKV s r1 /\
    NewOrLoadSent NewKV s = Done s (r2, uns2) /\ sn_heap r2 !! l2 = Some st2 /\
    st_parts st2 = ex_parts /\ SentTransfer_Status st2 = Running.
Proof.
  destruct (ex_sent_added ex_parts ltac:(split; simpl; lia)) as (s & r & st & _ & Hr & Hget & Hheap & Hp & _).
  assert (noEmptyFile r) as Hne.
  { intros tid l st1 _ Hl. rewrite Hheap in Hl. destruct l as [|l]; [|discriminate Hl].
    injection Hl as <-. rewrite Hp. discriminate. }
  destruct (NewOrLoadSent_resumes ex_list_ok iterZ NewKV s r Hr Hne) as (r1 & uns1 & Hload & Hr1 & Hdom & Hall).
  destruct (Hall 3 0%nat st Hget) as (l1 & st1 & ps & Hget1 & Hst1 & _ & Hp1 & _).
  { rewrite Hheap. reflexivity. }
  assert (noEmptyFile r1) as Hne1.
  { intros tid l st' Hl Hst'. destruct (proj1 (Hdom tid)) as [ol Hol]; [by exists (Some l)|].
    destruct (si_transfers _ _ _ (sent_reachable_inv ex_list_ok iterZ NewKV s r Hr) tid ol Hol)
      as (l0 & st0 & _ & -> & Hl0 & _).
    destruct (Hall tid l0 st0 Hol Hl0) as (l' & st2 & _ & Hg2 & Hs2 & _ & Hp2 & _).
    unfold Sent_GetTransfer in Hg2. rewrite Hl in Hg2. injection Hg2 as <-. rewrite Hst' in Hs2.
    injection Hs2 as <-. rewrite Hp2. exact (Hne tid l0 st0 Hol Hl0). }
  destruct (NewOrLoadSent_resumes ex_list_ok iterZ NewKV s r1 Hr1 Hne1) as (r2 & uns2 & Hload2 & _ & _ & Hall2).
  destruct (Hall2 3 l1 st1 Hget1 Hst1) as (l2 & st2 & _ & _ & Hst2 & Hrun2 & Hp2 & _).
  exists s, r1, r2, l2, st2, uns1, uns2. split; [exact Hload|]. split; [exact Hr1|].
  split; [exact Hload2|]. split; [exact Hst2|]. split; [|exact Hrun2].
  rewrite Hp2, Hp1. exact Hp.
Defined.

Lemma NewOrLoadSent_empty_file_panics_witness :
  exists (s : MemStore) (r : Sent Z Z Z),
    Sent_AddTransfer iterZ (9 : Z) (7 : Z) 3 "f" 0 [] 3 1 ((∅ : MemStore), ex_sent0)
      = Done (s, r) 0%nat /\
    NewOrLoadSent (ID := Z) (Key := Z) (TID := Z) NewKV s = Crash.
Proof.
  destruct (ex_sent_added [] ltac:(split; simpl; lia)) as (s & r & st & Hadd & _).
  exists s, r. split; [exact Hadd|].
  exact (NewOrLoadSent_empty_file_panics ex_list_ok iterZ NewKV (∅ : MemStore) s ex_sent0 r 9 7 3 "f" 3 1
    ex_lst ex_lstm 0%nat ex_sent0_reachable ex_lst_ok ex_lstm_ok ltac:(split; lia) I Hadd).
Defined.
