(* ===== verification/FileTransfer.v ===== *)
(** * The file transfer manager

    [fileTransfer/manager.go], [send.go], [info.go] and [partTracker.go]:
    cutting a file into parts and starting a transfer, sending packets of
    parts, accepting an announced transfer, and handing out a finished file. *)

From Stdlib Require Import SpecFloat.
From S2P Require Import Prelude GoBytes KV Base64 Json StateVector Float64 Effects FileMessage.
From S2P Require Import FtCypher ReceivedTransfer Processor Received SentTransfer Sent.

Definition FileNameMaxLen : Z := 48.
Definition FileTypeMaxLen : Z := 8.
Definition FileMaxSize : Z := 250000.
Definition PreviewMaxSize : Z := 4000.

(** ** Cutting a file *)

(** The loop over [buff.Next]; [fuel] bounds its rounds. *)
Fixpoint partitionLoop (fuel : nat) (buff : list byte) (partSize : nat) : list (list byte) :=
  match fuel with
  | O => []
  | Datatypes.S fuel =>
      let n := take partSize buff in
      if (0 <? length n)%nat
      then array_of partSize n :: partitionLoop fuel (drop partSize buff) partSize
      else []
  end.

(** A part size of zero divides by zero. *)
Definition partitionFile (file : list byte) (partSize : Z) : result (list (list byte)) :=
  if partSize =? 0 then Panic
  else Ok (partitionLoop (Datatypes.S (length file)) file (Z.to_nat partSize)).

Definition f32_one : spec_float := S754_finite false 8388608 (-23).

Definition calcNumberOfFingerprints (numParts : Z) (retry : spec_float) : Z :=
  f32_to_u16 (f32_mul (f32_of_Z numParts) (f32_add f32_one retry)).

(** ** Part trackers *)

Definition FpUnsent : Z := 0.
Definition FpSent : Z := 1.
Definition FpArrived : Z := 2.
Definition FpReceived : Z := 3.

Definition sentFilePartTracker_GetPartStatus (s : StateVector) (partNum : Z) : result Z :=
  if StateVector_GetNumKeys s <=? partNum then Ok (-1)
  else b ← StateVector_used s partNum; Ok (if (b : bool) then FpArrived else FpUnsent).

Definition sentFilePartTracker_GetNumParts (s : StateVector) : Z := u16 (StateVector_GetNumKeys s).

Definition receivedFilePartTracker_GetPartStatus (r : StateVector) (partNum : Z) : result Z :=
  if StateVector_GetNumKeys r <=? partNum then Ok (-1)
  else b ← StateVector_used r partNum; Ok (if (b : bool) then FpReceived else FpUnsent).

Definition receivedFilePartTracker_GetNumParts (r : StateVector) : Z := u16 (StateVector_GetNumKeys r).

(** ** The announcement of a transfer *)

(** The generated protobuf message and its encoding. *)
Record NewFileTransfer := mkNewFileTransfer {
  pb_FileName : string;
  pb_FileType : string;
  pb_TransferKey : list byte;
  pb_TransferMac : list byte;
  pb_NumParts : Z;           (* uint32 *)
  pb_Size : Z;               (* uint32 *)
  pb_Retry : spec_float;     (* float32 *)
  pb_Preview : list byte;
}.

Class ProtoNewFileTransfer := {
  proto_Marshal : NewFileTransfer -> error + list byte;
  proto_Unmarshal : list byte -> error + NewFileTransfer;
}.

Class ProtoNewFileTransferLaws `{ProtoNewFileTransfer} : Prop := {
  proto_roundtrip m b : proto_Marshal m = inr b -> proto_Unmarshal b = inr m;
}.

Record TransferInfo (Key : Type) := mkTransferInfo {
  ti_FileName : string;
  ti_FileType : string;
  ti_Key : Key;
  ti_Mac : list byte;
  ti_NumParts : Z;           (* uint16 *)
  ti_Size : Z;               (* uint32 *)
  ti_Retry : spec_float;
  ti_Preview : list byte;
}.
Arguments mkTransferInfo {Key}.
Arguments ti_FileName {Key}.
Arguments ti_FileType {Key}.
Arguments ti_Key {Key}.
Arguments ti_Mac {Key}.
Arguments ti_NumParts {Key}.
Arguments ti_Size {Key}.
Arguments ti_Retry {Key}.
Arguments ti_Preview {Key}.

Section info.
Context {Key TID : Type} `{FtCrypto Key TID} `{ProtoNewFileTransfer}.

Definition TransferInfo_Marshal (ti : TransferInfo Key) : error + list byte :=
  proto_Marshal (mkNewFileTransfer (ti_FileName ti) (ti_FileType ti) (key_Bytes (ti_Key ti))
    (ti_Mac ti) (ti_NumParts ti) (ti_Size ti) (ti_Retry ti) (ti_Preview ti)).

Definition UnmarshalTransferInfo (data : list byte) : error + TransferInfo Key :=
  match proto_Unmarshal data with
  | inl e => inl e
  | inr m =>
      inr (mkTransferInfo (pb_FileName m) (pb_FileType m) (UnmarshalTransferKey (pb_TransferKey m))
             (pb_TransferMac m) (u16 (pb_NumParts m)) (pb_Size m) (pb_Retry m) (pb_Preview m))
  end.
End info.

(** ** The manager *)

(** The fingerprints registered with cMix, each with its processor (the place
    of the received transfer and the cypher's number), and the queue of parts
    to send (the place of the sent transfer and the part's number). *)
Record ftManager (S ID Key TID : Type) `{FtCrypto Key TID} := mkFtManager {
  ft_store : S;
  ft_sent : Sent ID Key TID;
  ft_received : Received Key TID;
  ft_fingerprints : gmap (list byte) (nat * Z);
  ft_batchQueue : list (nat * Z);
}.
Arguments mkFtManager {S ID Key TID _}.
Arguments ft_store {S ID Key TID _}.
Arguments ft_sent {S ID Key TID _}.
Arguments ft_received {S ID Key TID _}.
Arguments ft_fingerprints {S ID Key TID _}.
Arguments ft_batchQueue {S ID Key TID _}.

Section manager.
Context {S ID Key TID : Type} `{EKV S} `{FtCrypto Key TID} `{ProtoNewFileTransfer}.
Context `{JsonCodec receivedTransferDisk} `{JsonCodec (sentTransferDisk ID)} `{JsonCodec (list TID)}.
Context (iter : gmap TID (option nat) -> list TID).
(** [ftCrypto.CreateTransferMAC] *)
Context (CreateTransferMAC : list byte -> Key -> list byte).
(** [cmix.GetMaxMessageLength()] *)
Context (maxMessageLength : Z).

Abbreviation ftManager := (ftManager S ID Key TID).

Definition onSentList {A} (m : act (S * Sent ID Key TID) A) : act ftManager A :=
  zoom (fun t => (ft_store t, ft_sent t))
       (fun '(s, r) t => mkFtManager s r (ft_received t) (ft_fingerprints t) (ft_batchQueue t)) m.

Definition onReceivedList {A} (m : act (S * Received Key TID) A) : act ftManager A :=
  zoom (fun t => (ft_store t, ft_received t))
       (fun '(s, r) t => mkFtManager s (ft_sent t) r (ft_fingerprints t) (ft_batchQueue t)) m.

Definition onFtStore {A} (m : act S A) : act ftManager A :=
  zoom ft_store
       (fun s t => mkFtManager s (ft_sent t) (ft_received t) (ft_fingerprints t) (ft_batchQueue t)) m.

Definition setFingerprints (f : gmap (list byte) (nat * Z) -> gmap (list byte) (nat * Z)) :
    act ftManager unit :=
  modify (fun t => mkFtManager (ft_store t) (ft_sent t) (ft_received t) (f (ft_fingerprints t))
                     (ft_batchQueue t)).

Definition enqueue (ps : list (nat * Z)) : act ftManager unit :=
  modify (fun t => mkFtManager (ft_store t) (ft_sent t) (ft_received t) (ft_fingerprints t)
                     (ft_batchQueue t ++ ps)).

Definition getSent (l : nat) : act ftManager (SentTransfer ID Key TID) :=
  reading (fun t => index (sn_heap (ft_sent t)) (Z.of_nat l)).
Definition getReceived (l : nat) : act ftManager (ReceivedTransfer Key TID) :=
  reading (fun t => index (rc_heap (ft_received t)) (Z.of_nat l)).

Definition guard' (b : bool) (e : error) : act ftManager unit := if b then throw e else mret tt.

(** [Send]: [healthy] is [cmix.IsHealthy()], [newKey] and [newID] the results of
    drawing a key and an identifier, [sendNew] the caller's function that sends
    the announcement. *)
Definition manager_Send (recipient : ID) (fileName fileType : string) (fileData : list byte)
    (retry : spec_float) (preview : list byte) (healthy : bool) (newKey : error + Key)
    (newID : error + TID) (sendNew : list byte -> option error) (now : Time) : act ftManager TID :=
  let size (s : string) := Z.of_nat (String.length s) in
  let len (b : list byte) := Z.of_nat (length b) in
  _ ← guard' (FileNameMaxLen <? size fileName)
    (Errorf "length of filename (%d) greater than max allowed length (%d)" [size fileName; FileNameMaxLen]);
  _ ← guard' (FileTypeMaxLen <? size fileType)
    (Errorf "length of file type (%d) greater than max allowed length (%d)" [size fileType; FileTypeMaxLen]);
  _ ← guard' (FileMaxSize <? len fileData)
    (Errorf "size of file (%d bytes) greater than max allowed size (%d bytes)" [len fileData; FileMaxSize]);
  _ ← guard' (PreviewMaxSize <? len preview)
    (Errorf "size of preview (%d bytes) greater than max allowed size (%d bytes)" [len preview; PreviewMaxSize]);
  _ ← guard' (negb healthy)
    (Errorf "cannot initiate file transfer of %q when network is not healthy." []);
  key ← annotate "could not generate new transfer key: %+v" [] (read (fun _ => newKey));
  tid ← annotate "could not generate new transfer ID: %+v" [] (read (fun _ => newID));
  let mac := CreateTransferMAC fileData key in
  partMessage ← pureResult (NewPartMessage maxMessageLength);
  parts ← pureResult (partitionFile fileData (PartMessage_GetPartSize partMessage));
  let numParts := u16 (Z.of_nat (length parts)) in
  let fileSize := u32 (len fileData) in
  transferInfo ← annotate "could not marshal transfer info: %+v" []
    (read (fun _ => TransferInfo_Marshal
       (mkTransferInfo fileName fileType key mac numParts fileSize retry preview)));
  _ ← annotate "failed to send initial file transfer message: %+v" []
    (read (fun _ => match sendNew transferInfo with Some e => inl e | None => inr tt end));
  let numFps := calcNumberOfFingerprints (Z.of_nat (length parts)) retry in
  l ← annotate "failed to add transfer: %+v" []
    (onSentList (Sent_AddTransfer iter recipient key tid fileName fileSize parts numFps now));
  st ← getSent l;
  unsent ← pureResult (SentTransfer_GetUnsentParts st);
  _ ← enqueue (map (pair l) unsent);
  mret tid.

(** [CloseSend] *)
Definition manager_CloseSend (tid : TID) (now : Time) : act ftManager unit :=
  found ← gets (fun t => Sent_GetTransfer (ft_sent t) tid);
  match found with
  | None => throw (Errorf "could not find sent transfer with ID %s" [])
  | Some None => crash
  | Some (Some l) =>
      st ← getSent l;
      _ ← guard' (negb (SentTransfer_Status st =? Completed) && negb (SentTransfer_Status st =? Failed))
        (Errorf "cannot delete transfer %s that has not completed or failed" []);
      _ ← annotate "could not delete sent transfer %s: %+v" [] (onFtStore (SentTransfer_Delete st));
      annotate "could not remove transfer %s from list: %+v" []
        (onSentList (Sent_RemoveTransfer iter tid now))
  end.

(** [addFingerprints]: one processor for each unused cypher. *)
Definition addFingerprints (l : nat) : act ftManager unit :=
  rt ← getReceived l;
  cs ← pureResult (ReceivedTransfer_GetUnusedCyphers rt);
  setFingerprints (fun fps =>
    foldl (fun fps c => <[Cypher_GetFingerprint (cm_key (rt_cypherManager rt)) c := (l, c)]> fps) fps cs).

(** [HandleIncomingTransfer] *)
Definition manager_HandleIncomingTransfer (transferInfo : list byte) (newID : error + TID)
    (now : Time) : act ftManager (TID * TransferInfo Key) :=
  t ← annotate "failed to unmarshal incoming transfer info: %+v" []
    (read (fun _ => UnmarshalTransferInfo transferInfo));
  tid ← annotate "failed to generate transfer ID for new received file transfer %q: %+v" []
    (read (fun _ => newID));
  let numFps := calcNumberOfFingerprints (ti_NumParts t) (ti_Retry t) in
  l ← annotate "failed to add new file transfer %s (%q): %+v" []
    (onReceivedList (Received_AddTransfer iter (ti_Key t) tid (ti_FileName t) (ti_Mac t) (ti_Size t)
       (ti_NumParts t) numFps now));
  _ ← addFingerprints l;
  mret (tid, t).

(** [Receive] *)
Definition manager_Receive (tid : TID) (now : Time) : act ftManager (list byte) :=
  found ← gets (fun t => Received_GetTransfer (ft_received t) tid);
  match found with
  | None => throw (Errorf "could not find received transfer with ID %s" [])
  | Some None => crash
  | Some (Some l) =>
      rt ← getReceived l;
      _ ← guard' (negb (ReceivedTransfer_NumReceived rt =? ReceivedTransfer_NumParts rt))
        (Errorf "cannot get incomplete file: missing %d of %d parts"
           [u16 (ReceivedTransfer_NumParts rt - ReceivedTransfer_NumReceived rt);
            ReceivedTransfer_NumParts rt]);
      let file := ReceivedTransfer_GetFile rt in
      cs ← pureResult (ReceivedTransfer_GetUnusedCyphers rt);
      _ ← setFingerprints (fun fps =>
        foldl (fun fps c => delete (Cypher_GetFingerprint (cm_key (rt_cypherManager rt)) c) fps) fps cs);
      _ ← annotate "could not delete received transfer %s: %+v" []
        (onFtStore (ReceivedTransfer_Delete rt));
      _ ← annotate "could not remove transfer %s from list: %+v" []
        (onReceivedList (Received_RemoveTransfer iter tid now));
      mret file
  end.

(** ** Sending packets of parts *)

(** The loop of [sendCmix]: the parts that could be encrypted and their messages. *)
Fixpoint encryptParts (packet : list (nat * Z)) (now : Time) :
    act ftManager (list (nat * Z) * list FtMessage) :=
  match packet with
  | [] => mret ([], [])
  | (l, i) :: packet =>
      fun t =>
      match onSentList (onSent l (Part_GetEncryptedPart i maxMessageLength now)) t with
      | Done t (encryptedPart, mac, fp) =>
          (rest ← encryptParts packet now;
           mret ((l, i) :: fst rest, mkFtMessage encryptedPart mac fp :: snd rest)) t
      | Fail t _ => encryptParts packet now t
      | Crash => Crash
      end
  end.

(** [sendCmix]: [sendMany] is the result of [cmix.SendMany]; the valid parts are
    handed to [roundResultsCallback] whatever that result. *)
Definition manager_sendCmix (packet : list (nat * Z)) (sendMany : list FtMessage -> option error)
    (now : Time) : act ftManager (list (nat * Z)) :=
  r ← encryptParts packet now;
  let '(validParts, messages) := r in
  _ ← (match sendMany messages with Some _ => enqueue validParts | None => mret tt end);
  mret validParts.

Fixpoint markAll (packet : list (nat * Z)) (now : Time) : act ftManager unit :=
  match packet with
  | [] => mret tt
  | (l, i) :: packet =>
      _ ← onSentList (onSent l (Part_MarkArrived i now));
      markAll packet now
  end.

(** The parts of a packet grouped by transfer. *)
Fixpoint groupParts (packet : list (nat * Z)) (g : gmap TID (list (nat * Z))) :
    act ftManager (gmap TID (list (nat * Z))) :=
  match packet with
  | [] => mret g
  | (l, i) :: packet =>
      st ← getSent l;
      groupParts packet (<[st_tid st := default [] (g !! st_tid st) ++ [(l, i)]]> g)
  end.

(** [roundResultsCallback] and the callback it makes; [order] is the order in
    which the groups are visited. *)
Definition manager_roundResultsCallback (packet : list (nat * Z))
    (order : gmap TID (list (nat * Z)) -> list TID) (allRoundsSucceeded : bool) (now : Time) :
    act ftManager unit :=
  grouped ← groupParts packet ∅;
  if (allRoundsSucceeded : bool) then
    markAll (concat ((fun tid => default [] (grouped !! tid)) <$> order grouped)) now
  else enqueue packet.
End manager.

(** ** The parts make up the file *)

Lemma partitionLoop_spec fuel buff partSize :
  (0 < partSize)%nat -> (length buff < fuel)%nat ->
  let parts := partitionLoop fuel buff partSize in
  (exists pad, (pad < partSize)%nat /\ concat parts = buff ++ replicate pad x00) /\
  Forall (fun p => length p = partSize) parts /\ (length parts <= length buff)%nat /\
  (buff ≠ [] -> parts ≠ []).
Proof.
  intros Hp. revert buff. induction fuel as [|fuel IH]; intros buff Hf; [lia|].
  cbn [partitionLoop]. destruct (Nat.ltb_spec 0 (length (take partSize buff))) as [Hlt|Hge].
  - rewrite length_take in Hlt.
    destruct (IH (drop partSize buff)) as ((pad & Hpad & Hc) & Hl & Hn & _); [rewrite length_drop; lia|].
    cbv zeta in *. rewrite length_drop in Hn. cbn [concat length]. split_and!; [|constructor| |].
    + destruct (decide (partSize <= length buff)%nat) as [Hle|Hgt].
      * exists pad. split; [done|]. rewrite Hc, array_of_length by (rewrite length_take; lia).
        by rewrite app_assoc, take_drop.
      * rewrite drop_ge in Hc |- * by lia.
        assert (partitionLoop fuel [] partSize = []) as -> by (destruct fuel; [done|]; cbn [partitionLoop]; by rewrite take_nil).
        exists (partSize - length buff)%nat. split; [lia|]. cbn [concat]. rewrite app_nil_r.
        unfold array_of. by rewrite take_take, Nat.min_id, length_take, take_ge, Nat.min_r by lia.
    + apply length_array_of.
    + done.
    + lia.
    + done.
  - rewrite length_take in Hge. assert (buff = []) as -> by (apply nil_length_inv; lia).
    split_and!; [|constructor|done|done]. exists 0%nat. split; [lia|done].
Qed.

Lemma partitionFile_spec file partSize :
  0 < partSize ->
  exists parts, partitionFile file partSize = Ok parts /\
    take (length file) (concat parts) = file /\
    Forall (fun p => Z.of_nat (length p) = partSize) parts /\
    (length parts <= length file)%nat /\ (file ≠ [] -> parts ≠ []).
Proof.
  intros Hp. unfold partitionFile. rewrite (proj2 (Z.eqb_neq _ _)) by lia. eexists. split; [done|].
  destruct (partitionLoop_spec (Datatypes.S (length file)) file (Z.to_nat partSize))
    as ((pad & _ & Hc) & Hl & Hn & Hne); [lia|lia|].
  split_and!; [|eapply Forall_impl; [|exact Hl]; simpl; lia|done|done].
  rewrite Hc. by apply take_app_length.
Qed.

(** ** From the sender to the receiver *)

Section delivery.
Context {S ID Key TID : Type} `{EKVLaws S} {rel : EKVReliable S} `{FtCryptoLaws Key TID}.
Context `{JsonCodec receivedTransferDisk} `{JsonCodec (sentTransferDisk ID)}.

Abbreviation packet := (list byte * list byte * list byte)%type.

(** The processor registered under a fingerprint, given by its number. *)
Definition processorFor (key : Key) (nf : Z) (fp : list byte) : option Z :=
  head (filter (fun k => Cypher_GetFingerprint key k = fp) (zseq 0 nf)).

(** Packets that arrive are handed to the processor of their fingerprint; a
    packet under no known fingerprint is not for this transfer. *)
Fixpoint receiveAll (nf : Z) (pkts : list packet) (s : S) (rt : ReceivedTransfer Key TID) (now : Time) :
    option (S * ReceivedTransfer Key TID) :=
  match pkts with
  | [] => Some (s, rt)
  | (c, mac, fp) :: pkts =>
      match processorFor (cm_key (rt_cypherManager rt)) nf fp with
      | None => receiveAll nf pkts s rt now
      | Some k =>
          match processor_Process k (mkFtMessage c mac fp) now (s, rt) with
          | Done (s, rt) _ => receiveAll nf pkts s rt now
          | _ => None
          end
      end
  end.

(** The packets of a sequence of parts, numbered from [k]. *)
Fixpoint packetsFrom (key : Key) (parts : list (list byte)) (size k : Z) (idxs : list Z) : list packet :=
  match idxs with
  | [] => []
  | i :: idxs =>
      Cypher_Encrypt key k (partBytes (Z.to_nat size) i (parts !!! Z.to_nat i))
      :: packetsFrom key parts size (k + 1) idxs
  end.

Lemma encrypt_run nf key parts size a idxs :
  snd_fps a + Z.of_nat (length idxs) <= nf ->
  snd (sndAbsRun nf key parts size a (SndEncrypt <$> idxs))
    = (fun p => Some (inr p)) <$> packetsFrom key parts size (snd_fps a) idxs.
Proof.
  revert a. induction idxs as [|i idxs IH]; intros a Hle; [done|].
  rewrite fmap_cons. cbn [sndAbsRun sndAbs packetsFrom length] in *.
  rewrite (proj2 (Z.ltb_lt _ _)) by lia.
  specialize (IH (mkSnd (snd_arrived a) (snd_fps a + 1) (snd_status a)) ltac:(cbn [snd_fps]; lia)).
  destruct (sndAbsRun nf key parts size _ _) as [a' outs]. cbn [snd snd_fps] in *. by rewrite IH.
Qed.

Lemma packetsFrom_lookup key parts size k idxs d i :
  idxs !! d = Some i ->
  packetsFrom key parts size k idxs !! d
    = Some (Cypher_Encrypt key (k + Z.of_nat d) (partBytes (Z.to_nat size) i (parts !!! Z.to_nat i))).
Proof.
  revert k d. induction idxs as [|j idxs IH]; intros k d Hd; [done|].
  destruct d as [|d]; cbn [packetsFrom lookup list_lookup] in *.
  - injection Hd as ->. by rewrite Z.add_0_r.
  - rewrite IH by done. do 2 f_equal. lia.
Qed.

(** Fingerprints of one key do not repeat. *)
Definition fps_distinct (key : Key) (nf : Z) : Prop :=
  forall a b, 0 <= a < nf -> 0 <= b < nf ->
    GenerateFingerprint key a = GenerateFingerprint key b -> a = b.

Lemma processorFor_ok key nf k :
  fps_distinct key nf -> 0 <= k < nf -> processorFor key nf (GenerateFingerprint key k) = Some k.
Proof.
  intros Hdis Hk. unfold processorFor, Cypher_GetFingerprint.
  assert (k ∈ filter (fun j => GenerateFingerprint key j = GenerateFingerprint key k) (zseq 0 nf)) as Hin
    by (apply list_elem_of_filter; split; [done|]; by apply elem_of_zseq).
  destruct (filter _ (zseq 0 nf)) as [|j l] eqn:E; [by apply not_elem_of_nil in Hin|].
  assert (j ∈ filter (fun j => GenerateFingerprint key j = GenerateFingerprint key k) (zseq 0 nf)) as Hj
    by (rewrite E; left).
  apply list_elem_of_filter in Hj as [Hj Hr%elem_of_zseq]. cbn [head]. f_equal. by apply Hdis.
Qed.

(** [holds parts js st]: exactly the parts numbered in [js] are present. *)
Definition holds (parts : list (list byte)) (js : list Z) (st : list (option (list byte))) : Prop :=
  length st = length parts /\
  forall i p, parts !! i = Some p -> st !! i = Some (if decide (Z.of_nat i ∈ js) then Some p else None).

Lemma holds_insert parts js st j p :
  holds parts js st -> 0 <= j -> parts !! Z.to_nat j = Some p ->
  holds parts (j :: js) (<[Z.to_nat j := Some p]> st).
Proof.
  intros [Hl Hst] Hj Hp. split; [by rewrite length_insert|]. intros i q Hq.
  pose proof (lookup_lt_Some _ _ _ Hp). destruct (decide (i = Z.to_nat j)) as [->|Hne].
  - rewrite list_lookup_insert_eq by lia. rewrite decide_True by (rewrite Z2Nat.id by lia; left). congruence.
  - rewrite list_lookup_insert_ne by done. rewrite (Hst i q Hq). f_equal.
    destruct (decide (Z.of_nat i ∈ js)) as [Hin|Hin].
    + by rewrite decide_True by by right.
    + rewrite decide_False; [done|]. intros [?|?]%elem_of_cons; [lia|done].
Qed.

Lemma holds_all parts js st :
  holds parts js st -> (forall i, 0 <= i < Z.of_nat (length parts) -> i ∈ js) ->
  st = Some <$> parts.
Proof.
  intros [Hl Hst] Hall. apply list_eq. intros i. rewrite list_lookup_fmap.
  destruct (parts !! i) as [p|] eqn:E.
  - pose proof (lookup_lt_Some _ _ _ E). rewrite (Hst i p E), decide_True by (apply Hall; lia). done.
  - apply lookup_ge_None in E. apply lookup_ge_None. lia.
Qed.

Lemma receiveAll_ok v key parts size nf idxs ds (s : S) rt Uf st js now :
  kv_handle v -> fps_distinct key nf -> Z.of_nat (length idxs) <= nf ->
  Forall (fun i => 0 <= i < Z.of_nat (length parts)) idxs ->
  Forall (fun p => Z.of_nat (length p) = size - 2) parts -> Z.of_nat (length parts) < 2 ^ 16 ->
  Forall (fun d => d < length idxs)%nat ds ->
  rcv_refines s v rt nf Uf st -> cm_key (rt_cypherManager rt) = key -> holds parts js st ->
  exists s' rt' Uf' st', receiveAll nf
      ((fun d => packetsFrom key parts size 0 idxs !!! d) <$> ds) s rt now = Some (s', rt') /\
    rcv_refines s' v rt' nf Uf' st' /\ rt_fileSize rt' = rt_fileSize rt /\
    holds parts (reverse ((fun d => idxs !!! d) <$> ds) ++ js) st'.
Proof.
  intros Hv Hdis Hnf Hidx Hlen Hn Hds. revert s rt Uf st js.
  induction Hds as [|d ds Hd Hds IH]; intros s rt Uf st js Hr Hkey Hh.
  { exists s, rt, Uf, st. by rewrite fmap_nil. }
  destruct (lookup_lt_is_Some_2 idxs d Hd) as [i Hi].
  rewrite list.Forall_forall in Hidx. pose proof (Hidx i (list_elem_of_lookup_2 _ _ _ Hi)) as Hir.
  destruct (lookup_lt_is_Some_2 parts (Z.to_nat i)) as [p Hp]; [lia|].
  rewrite list.Forall_forall in Hlen. pose proof (Hlen p (list_elem_of_lookup_2 _ _ _ Hp)) as Hpl.
  rewrite !fmap_cons, reverse_cons, (list_lookup_total_correct _ _ _ Hi).
  rewrite (list_lookup_total_correct _ _ _ (packetsFrom_lookup key parts size 0 idxs d i Hi)).
  rewrite (list_lookup_total_correct _ _ _ Hp). cbn [receiveAll].
  pose proof (Process_delivers s v rt nf Uf st (0 + Z.of_nat d) i (Z.to_nat size) p now Hv Hr) as Hdel.
  pose proof (rr_length _ _ _ _ _ _ Hr) as Hnp. destruct Hh as [Hhl Hh].
  specialize (Hdel ltac:(lia) ltac:(split; lia) ltac:(lia) ltac:(lia)). rewrite Hkey in Hdel.
  destruct (Cypher_Encrypt key (0 + Z.of_nat d) (partBytes (Z.to_nat size) i p)) as [[c mac] fp] eqn:Henc.
  assert (fp = GenerateFingerprint key (Z.of_nat d)) as ->.
  { unfold Cypher_Encrypt in Henc. destruct (EncryptPart _ _ _ _). by injection Henc. }
  rewrite Hkey, (processorFor_ok key nf (Z.of_nat d) Hdis) by lia.
  destruct Hdel as (s1 & rt1 & Hproc & Hr1 & Hsame & _). rewrite Z.add_0_l in *. rewrite Hproc.
  destruct (IH s1 rt1 _ _ (i :: js) Hr1) as (s2 & rt2 & Uf2 & st2 & Hrec & Hr2 & Hsz & Hh2).
  - rewrite <- Hkey. apply Hsame.
  - apply holds_insert; [by split|lia|done].
  - exists s2, rt2, Uf2, st2. split_and!; [done|done|rewrite Hsz; apply Hsame|].
    by rewrite <- app_assoc.
Qed.

(** C2: a file that is sent is received.  The sender cuts the file, and
    encrypts parts in any order and as often as it likes as long as the
    fingerprints last; of the packets, any selection arrives, in any order and
    possibly repeated.  If every part is among them, the receiver has received
    all parts and the file it hands out is the file that was sent. *)
Theorem file_delivered (sS sR : S) vS vS' vSm vR vR' vRm recipient key tidS tidR nameS nameR mac
    file parts size nf now idxs ds :
  kv_handle vS -> kv_Prefix vS (makeSentTransferPrefix tidS) = Ok vS' ->
  kv_Prefix vS' cypherManagerPrefix = Ok vSm ->
  kv_handle vR -> kv_Prefix vR (makeReceivedTransferPrefix tidR) = Ok vR' ->
  kv_Prefix vR' cypherManagerPrefix = Ok vRm ->
  2 < size -> file ≠ [] -> partitionFile file (size - 2) = Ok parts ->
  let n := Z.of_nat (length parts) in
  n < 2 ^ 16 -> is_u 16 nf -> is_u 32 (Z.of_nat (length file)) ->
  json_ok (mkSentTransferDisk nameS recipient Running parts) ->
  json_ok (mkReceivedTransferDisk nameR mac n (Z.of_nat (length file))) ->
  fps_distinct key nf -> Z.of_nat (length idxs) <= nf ->
  Forall (fun i => 0 <= i < n) idxs -> Forall (fun d => d < length idxs)%nat ds ->
  (forall i, 0 <= i < n -> exists d, d ∈ ds /\ idxs !! d = Some i) ->
  exists s0 st0 s1 st1 r0 rt0 r1 rt1 packets,
    newSentTransfer recipient key tidS nameS (Z.of_nat (length file)) parts nf vS now sS = Done s0 st0 /\
    sndRun vS size (SndEncrypt <$> idxs) s0 st0 now
      = Some (s1, st1, (fun p => Some (inr p)) <$> packets) /\
    newReceivedTransfer key tidR nameR mac (Z.of_nat (length file)) n nf vR now sR = Done r0 rt0 /\
    receiveAll nf ((fun d => packets !!! d) <$> ds) r0 rt0 now = Some (r1, rt1) /\
    ReceivedTransfer_NumReceived rt1 = ReceivedTransfer_NumParts rt1 /\
    ReceivedTransfer_GetFile rt1 = file.
Proof.
  intros HvS HpS HpSm HvR HpR HpRm Hsize Hne Hpart n Hn Hnf Hfs HokS HokR Hdis Hlen Hidx Hds Hall.
  destruct (partitionFile_spec file (size - 2)) as (parts' & Hpart' & Htake & Hpl & _ & Hpne); [lia|].
  rewrite Hpart in Hpart'. injection Hpart' as <-.
  assert (0 < n) as Hn0 by (subst n; specialize (Hpne Hne); destruct parts; [done|]; cbn [length]; lia).
  destruct (newSentTransfer_ok sS recipient key tidS nameS (Z.of_nat (length file)) parts nf vS vS' vSm now)
    as (s0 & st0 & HnewS & HdS & _ & _ & Hparts & HkeyS & Hst & _); [done..|split; lia|done|done|].
  pose proof (snd_refines_new s0 vS st0 nf Hnf HdS Hst) as HrS. rewrite HkeyS, Hparts in HrS.
  destruct (sndRun_refines vS size (SndEncrypt <$> idxs) s0 st0 nf key parts _ now HvS HrS)
    as (s1 & st1 & HrunS & _); [lia| |lia| |].
  { apply Forall_fmap. eapply Forall_impl; [|exact Hidx]. done. }
  { eapply Forall_impl; [|exact Hpl]. simpl. lia. }
  rewrite encrypt_run in HrunS by (cbn [snd_fps]; lia). cbn [snd_fps] in HrunS.
  destruct (newReceivedTransfer_ok sR key tidR nameR mac (Z.of_nat (length file)) n nf vR vR' vRm now)
    as (r0 & rt0 & HnewR & HdR & _ & HszR & HnpR & HkeyR & _); [done..|split; lia|done|done|].
  pose proof (rcv_refines_new r0 vR rt0 nf ∅ HdR) as HrR. rewrite HnpR in HrR.
  assert (holds parts [] (replicate (Z.to_nat n) None)) as Hh.
  { split; [rewrite length_replicate; subst n; lia|]. intros i p Hp.
    rewrite decide_False by apply not_elem_of_nil. apply lookup_replicate. split; [done|].
    apply lookup_lt_Some in Hp. subst n. lia. }
  destruct (receiveAll_ok vR key parts size nf idxs ds r0 rt0 ∅ _ [] now HvR Hdis Hlen Hidx Hpl Hn Hds
    HrR HkeyR Hh) as (r1 & rt1 & Uf & st & Hrec & Hr1 & Hsz1 & Hh1).
  assert (st = Some <$> parts) as ->.
  { apply (holds_all _ _ _ Hh1). intros i Hi. rewrite app_nil_r, elem_of_reverse.
    destruct (Hall i Hi) as (d & Hd & Hdi). apply list_elem_of_fmap. exists d. split; [|done].
    by rewrite (list_lookup_total_correct _ _ _ Hdi). }
  exists s0, st0, s1, st1, r0, rt0, r1, rt1, (packetsFrom key parts size 0 idxs).
  split_and!; [done|done|done|done| |].
  - rewrite (NumReceived_ok _ _ _ _ _ _ Hr1). unfold ReceivedTransfer_NumParts.
    pose proof (rr_length _ _ _ _ _ _ Hr1) as Hl1. rewrite length_fmap in Hl1.
    rewrite (filter_ext_in _ (fun _ => True)).
    + assert (forall l : list Z, filter (fun _ => True) l = l) as ->
        by (intros l; induction l as [|x l IHl]; [done|]; by rewrite filter_cons_True, IHl).
      rewrite length_zseq. lia.
    + intros i Hi%elem_of_zseq. split; [done|]. intros _. unfold received. rewrite list_lookup_fmap.
      destruct (lookup_lt_is_Some_2 parts (Z.to_nat i)) as [p ->]; [lia|]. by exists p.
  - rewrite (GetFile_ok _ _ _ _ _ _ Hr1) by (rewrite Hsz1, HszR; lia).
    rewrite Hsz1, HszR, Nat2Z.id, <- list_fmap_compose.
    replace ((default [] ∘ Some) <$> parts) with parts; [done|]. symmetry. apply list_fmap_id.
Qed.
End delivery.

(** ** The manager's operations *)

Section managerLaws.
Context {S ID Key TID : Type} `{EKVLaws S} {rel : EKVReliable S} `{FtCryptoLaws Key TID}.
Context `{JsonCodec receivedTransferDisk} `{JsonCodec (sentTransferDisk ID)} `{JsonCodec (list TID)}.
Hypothesis list_ok : forall l : list TID, json_ok l.
Context (iter : gmap TID (option nat) -> list TID) `{!MapOrder iter}.
Context (maxMessageLength : Z).
Implicit Types (t : ftManager S ID Key TID) (rt : ReceivedTransfer Key TID).

Lemma getReceived_ok t l rt :
  rc_heap (ft_received t) !! l = Some rt -> getReceived l t = Done t rt.
Proof. intros Hl. unfold getReceived, reading. by rewrite (index_nat _ _ _ Hl). Qed.

(** Deleting one transfer's data keeps the other transfers. *)
Lemma removed_inv v (s s1 s2 : S) r tid l rt nf Uf U :
  received_inv v s r -> rc_transfers r !! tid = Some (Some l) -> rc_heap r !! l = Some rt ->
  rt_durable s (rc_kv r) rt nf Uf U -> within (rt_kv rt) s s1 ->
  confined (prefix (rc_kv r)) s1 s2 ->
  forall tid' ol, delete tid (rc_transfers r) !! tid' = Some ol ->
    exists l' rt' nf' Uf' U', ol = Some l' /\ rc_heap r !! l' = Some rt' /\ rt_tid rt' = tid' /\
      is_u 16 nf' /\ rt_durable s2 (rc_kv r) rt' nf' Uf' U'.
Proof.
  intros Hi Hl Hrt Hd Hw Hc tid' ol Hol. apply lookup_delete_Some in Hol as [Hne Hol].
  destruct (ri_transfers _ _ _ Hi tid' ol Hol) as (l' & rt' & nf' & Uf' & U' & -> & Hl' & Ht' & Hnf' & Hd').
  destruct (ri_transfers _ _ _ Hi tid _ Hl) as (l1 & rt1 & ? & ? & ? & [= <-] & Hl1 & Ht1 & _ & _).
  rewrite Hrt in Hl1. injection Hl1 as <-. pose proof (rc_handle _ _ _ Hi) as Hh.
  exists l', rt', nf', Uf', U'. split_and!; try done. eapply confined_transfer; [done| |done].
  eapply (other_transfer_kept s s1); [done|exact Hd'|exact (rtd_kv _ _ _ _ _ _ Hd)|congruence|exact Hw].
Qed.

Lemma Receive_ok v t tid l rt now :
  received_inv v (ft_store t) (ft_received t) ->
  Received_GetTransfer (ft_received t) tid = Some (Some l) -> rc_heap (ft_received t) !! l = Some rt ->
  ReceivedTransfer_NumReceived rt = ReceivedTransfer_NumParts rt ->
  exists t', manager_Receive iter tid now t = Done t' (ReceivedTransfer_GetFile rt) /\
    received_inv v (ft_store t') (ft_received t') /\
    ft_received t' = mkReceived (delete tid (rc_transfers (ft_received t))) (rc_heap (ft_received t))
                       (rc_kv (ft_received t)) /\
    ft_sent t' = ft_sent t.
Proof.
  intros Hi Hget Hrt Hcomplete. pose proof (rc_handle _ _ _ Hi) as Hh.
  destruct (ri_transfers _ _ _ Hi tid _ Hget) as (l1 & rt1 & nf & Uf & U & [= <-] & Hl1 & Ht & Hnf & Hd).
  rewrite Hrt in Hl1. injection Hl1 as <-. unfold manager_Receive.
  erewrite bind_Done by reflexivity. rewrite Hget.
  erewrite bind_Done by (by apply getReceived_ok).
  rewrite Hcomplete, Z.eqb_refl. erewrite bind_Done by reflexivity. cbv zeta.
  erewrite bind_Done by (apply pureResult_Done; unfold ReceivedTransfer_GetUnusedCyphers;
    exact (GetUnusedCyphers_ok _ _ _ _ _ (rtd_cypher _ _ _ _ _ _ Hd) Hnf)).
  erewrite bind_Done by reflexivity.
  destruct (Delete_ok (ft_store t) _ rt nf Uf U Hh Hd) as (s1 & Hdel & Hw & _ & _).
  erewrite bind_Done by (apply annotate_Done; unfold onFtStore; apply zoom_Done; exact Hdel).
  set (r' := mkReceived (delete tid (rc_transfers (ft_received t))) (rc_heap (ft_received t))
               (rc_kv (ft_received t))).
  destruct (Received_save_ok iter s1 r' now Hh) as (s2 & Hsave & Hsaved & Hc).
  erewrite bind_Done.
  2: { apply annotate_Done. unfold onReceivedList. apply zoom_Done. cbn [ft_store ft_received].
       unfold Received_RemoveTransfer. unfold Received_GetTransfer in Hget. rewrite Hget. exact Hsave. }
  eexists. split; [done|]. cbn [ft_store ft_received ft_sent]. split_and!; [|done|done].
  constructor; [apply Hi|apply Hi| |by eapply (stored_list list_ok iter s2 r')].
  exact (removed_inv v _ s1 s2 _ tid l rt nf Uf U Hi Hget Hrt Hd Hw Hc).
Qed.

(** [Receive] hands out a file once and only when it is complete.  An
    unknown transfer and an incomplete one (with the number of missing parts)
    are refused and nothing changes; a complete one is returned whole, after
    which the transfer is gone, a second call is refused, and the other
    transfers can still be loaded. *)
Theorem manager_Receive_once v t tid now :
  rcReachable iter v (ft_store t) (ft_received t) ->
  (Received_GetTransfer (ft_received t) tid = None ->
    manager_Receive iter tid now t = Fail t (Errorf "could not find received transfer with ID %s" [])) /\
  (forall l rt, Received_GetTransfer (ft_received t) tid = Some (Some l) ->
    rc_heap (ft_received t) !! l = Some rt ->
    (ReceivedTransfer_NumReceived rt ≠ ReceivedTransfer_NumParts rt ->
      manager_Receive iter tid now t = Fail t (Errorf "cannot get incomplete file: missing %d of %d parts"
        [u16 (ReceivedTransfer_NumParts rt - ReceivedTransfer_NumReceived rt);
         ReceivedTransfer_NumParts rt])) /\
    (ReceivedTransfer_NumReceived rt = ReceivedTransfer_NumParts rt ->
      exists t' r' unf, manager_Receive iter tid now t = Done t' (ReceivedTransfer_GetFile rt) /\
        (exists e, manager_Receive iter tid now t' = Fail t' e) /\
        NewOrLoadReceived v (ft_store t') = Done (ft_store t') (r', unf) /\
        (forall tid', is_Some (Received_GetTransfer r' tid') <->
           tid' ≠ tid /\ is_Some (Received_GetTransfer (ft_received t) tid')))).
Proof.
  intros Hr%(reachable_inv list_ok iter). split.
  - intros Hnone. unfold manager_Receive. erewrite bind_Done by reflexivity. by rewrite Hnone.
  - intros l rt Hget Hrt. split.
    + intros Hne. unfold manager_Receive. erewrite bind_Done by reflexivity. rewrite Hget.
      erewrite bind_Done by (by apply getReceived_ok).
      rewrite (proj2 (Z.eqb_neq _ _) Hne). by erewrite bind_Fail by reflexivity.
    + intros Hc. destruct (Receive_ok v t tid l rt now Hr Hget Hrt Hc) as (t' & Hrec & Hi' & Hr' & _).
      destruct (NewOrLoadReceived_ok v (ft_store t') (ft_received t') Hi') as (r' & unf & Hload & Hdom & _).
      exists t', r', unf. split_and!; [done| |done|].
      * eexists. unfold manager_Receive. erewrite bind_Done by reflexivity.
        unfold Received_GetTransfer. rewrite Hr'. cbn [rc_transfers]. by rewrite lookup_delete_eq.
      * intros tid'. unfold Received_GetTransfer. rewrite Hdom, Hr'. cbn [rc_transfers].
        destruct (decide (tid' = tid)) as [->|Hne].
        -- rewrite lookup_delete_eq. split; [by intros []|by intros []].
        -- rewrite lookup_delete_ne by done. tauto.
Qed.

(** ** Parts are queued twice when a send fails *)

Lemma encryptParts_queue packet now t t' r :
  encryptParts maxMessageLength packet now t = Done t' r -> ft_batchQueue t' = ft_batchQueue t.
Proof.
  revert t t' r. induction packet as [|[l i] packet IH]; intros t t' r; cbn [encryptParts].
  { intros [= <- _]. done. }
  unfold onSentList, zoom. destruct (onSent l _ _) as [[s r1] [[c mac] fp]|[s r1] e|]; [| |done].
  - intros Hb%bind_Done_inv. destruct Hb as (t1 & x & Hx & [= <- _]). apply IH in Hx. done.
  - intros Hb. apply IH in Hb. done.
Qed.

Lemma groupParts_same packet g t t' g' : groupParts packet g t = Done t' g' -> t' = t.
Proof.
  revert g t. induction packet as [|[l i] packet IH]; intros g t; cbn [groupParts].
  { by intros [= -> _]. }
  intros (t1 & st & Hst & Hg)%bind_Done_inv.
  unfold getSent, reading in Hst. destruct (index _ _); [|done|done]. injection Hst as <- _.
  by apply IH in Hg.
Qed.

(** a failed send queues its parts twice.  After [SendMany] returns an error
    the parts are put back in the queue, and the result of a round is awaited
    all the same; when that is reported as failed, the same parts are put back
    a second time. *)
Theorem failed_send_requeues_twice t t1 t2 packet valid e order now now' :
  manager_sendCmix maxMessageLength packet (fun _ => Some e) now t = Done t1 valid ->
  manager_roundResultsCallback valid order false now' t1 = Done t2 tt ->
  ft_batchQueue t2 = ft_batchQueue t ++ valid ++ valid.
Proof.
  unfold manager_sendCmix, manager_roundResultsCallback.
  intros (ta & [vp msgs] & Henc & Hrest)%bind_Done_inv (tb & g & Hg & Hq)%bind_Done_inv.
  apply encryptParts_queue in Henc. apply groupParts_same in Hg as ->.
  apply bind_Done_inv in Hrest as (tc & [] & [= <-] & [= <- <-]).
  injection Hq as <-. cbn [ft_batchQueue]. by rewrite Henc, <- app_assoc.
Qed.
End managerLaws.

(** ** Examples *)

Module FileTransferExample.
Export SentListExample.

(** Five bytes in parts of two. *)
Definition ex_file : list byte := [x01; x02; x03; x04; x05].
Definition ex_fparts : list (list byte) := [[x01; x02]; [x03; x04]; [x05; x00]].
Definition ex_idxs : list Z := [0; 1; 1; 2].
Definition ex_ds : list nat := [3; 2; 0; 2]%nat.

Lemma ex_fps_distinct : fps_distinct (TID := Z) (7 : Z) 4.
Proof.
  intros a b Ha Hb Heq. cbn [GenerateFingerprint ex_FtCrypto] in Heq. unfold ex_fp in Heq.
  apply app_inv_head in Heq. apply (f_equal le_decode) in Heq.
  by rewrite !le_decode_encode_u in Heq by (split; lia).
Qed.

Lemma ex_covers i : 0 <= i < 3 -> exists d, d ∈ ex_ds /\ ex_idxs !! d = Some i.
Proof.
  intros Hi. assert (i = 0 \/ i = 1 \/ i = 2) as [->|[->| ->]] by lia.
  - exists 0%nat. split; [by do 2 right; left|reflexivity].
  - exists 2%nat. split; [by right; left|reflexivity].
  - exists 3%nat. split; [by left|reflexivity].
Qed.
End FileTransferExample.
Import FileTransferExample.

Lemma file_delivered_witness :
  exists (s0 : MemStore) (st0 : SentTransfer Z Z Z) s1 st1 (r0 : MemStore) (rt0 : ReceivedTransfer Z Z)
      r1 rt1 packets,
    newSentTransfer 9 7 3 "f" 5 ex_fparts 4 NewKV 1 (∅ : MemStore) = Done s0 st0 /\
    sndRun NewKV 4 (SndEncrypt <$> ex_idxs) s0 st0 1
      = Some (s1, st1, (fun p => Some (inr p)) <$> packets) /\
    newReceivedTransfer 7 3 "f" [] 5 3 4 NewKV 1 (∅ : MemStore) = Done r0 rt0 /\
    receiveAll 4 ((fun d => packets !!! d) <$> ex_ds) r0 rt0 1 = Some (r1, rt1) /\
    ReceivedTransfer_NumReceived rt1 = ReceivedTransfer_NumParts rt1 /\
    ReceivedTransfer_GetFile rt1 = ex_file.
Proof.
  assert (Forall (fun i => 0 <= i < 3) ex_idxs) as Hi by (repeat constructor; lia).
  assert (Forall (fun d => d < length ex_idxs)%nat ex_ds) as Hd by (repeat constructor; simpl; lia).
  assert (ex_file ≠ []) as Hne by discriminate.
  assert (Z.of_nat (length ex_idxs) <= 4) as Hl by (simpl; lia).
  assert (is_u 32 (Z.of_nat (length ex_file))) as Hf by (split; simpl; lia).
  exact (file_delivered (∅ : MemStore) (∅ : MemStore) NewKV ex_sv' ex_svm NewKV ex_rv ex_rvm (9 : Z) (7 : Z)
    (3 : Z) (3 : Z) "f" "f" [] ex_file ex_fparts 4 4 1 ex_idxs ex_ds handle_new ex_sv_ok ex_svm_ok
    handle_new ex_rv_ok ex_rvm_ok ltac:(lia) Hne eq_refl ltac:(simpl; lia) ltac:(split; lia) Hf I I
    ex_fps_distinct Hl Hi Hd ex_covers).
Defined.

(** A manager with one transfer of three parts, none received. *)
Lemma manager_Receive_once_witness :
  exists (t : ftManager MemStore Z Z Z),
    Received_GetTransfer (ft_received t) 3 = Some (Some 0%nat) /\
    manager_Receive iterZ 3 1 t
      = Fail t (Errorf "cannot get incomplete file: missing %d of %d parts" [3; 3]).
Proof.
  destruct ex_rc_added as (s & r & rt & Hreach & Hget & Hrt & Hnr & Hnp & _).
  set (t := mkFtManager s ex_sent0 r ∅ []).
  destruct (manager_Receive_once (ID := Z) ex_list_ok iterZ NewKV t 3 1 Hreach) as [_ H3].
  destruct (H3 0%nat rt Hget Hrt) as [H3' _].
  exists t. split; [exact Hget|]. rewrite Hnr, Hnp in H3'. exact (H3' ltac:(lia)).
Defined.

(** One part is encrypted, the send fails, the round result fails. *)
Lemma failed_send_requeues_twice_witness :
  exists t t1 t2 : ftManager MemStore Z Z Z, exists valid,
    manager_sendCmix 4 [(0%nat, 1)] (fun _ => Some (Errorf "no network" [])) 1 t = Done t1 valid /\
    manager_roundResultsCallback valid keysInOrder false 2 t1 = Done t2 tt /\
    ft_batchQueue t2 = [(0%nat, 1); (0%nat, 1)].
Proof.
  destruct (newSentTransfer_ok (∅ : MemStore) (9 : Z) (7 : Z) (3 : Z) "f" 3 ex_parts 3 NewKV ex_sv' ex_svm 1
    handle_new ex_sv_ok ex_svm_ok ltac:(split; simpl; lia) ltac:(split; lia) I)
    as (s0 & st0 & _ & Hd & _ & _ & Hparts & _).
  set (t := mkFtManager s0 (mkSent ∅ [st0] NewKV) (mkReceived ∅ [] NewKV) ∅ []).
  assert (exists s1 st1, manager_sendCmix 4 [(0%nat, 1)] (fun _ => Some (Errorf "no network" [])) 1 t
    = Done (mkFtManager s1 (mkSent ∅ [st1] NewKV) (mkReceived ∅ [] NewKV) ∅ [(0%nat, 1)]) [(0%nat, 1)])
    as (s1 & st1 & Hsend).
  { pose proof (GetEncryptedPart_ok s0 NewKV st0 3 ∅ ∅ 1 4 [x03; x00] 1 handle_new Hd
      ltac:(split; lia) ltac:(lia)) as Henc.
    rewrite Hparts in Henc. specialize (Henc eq_refl ltac:(lia) ltac:(simpl; lia)).
    change (unusedKeys 3 ∅) with [0; 1; 2] in Henc.
    destruct Henc as (s1 & st1 & Henc & _). exists s1, st1.
    unfold manager_sendCmix. destruct (Cypher_Encrypt _ _ _) as [[c mac] fp]. erewrite bind_Done.
    2: { cbn [encryptParts]. unfold onSentList, zoom, onSent.
         cbn [t ft_store ft_sent sn_heap lookup list_lookup]. rewrite Henc. reflexivity. }
    reflexivity. }
  eexists t, _, _, _. split; [exact Hsend|]. split; [reflexivity|].
  exact (failed_send_requeues_twice 4 t _ _ [(0%nat, 1)] [(0%nat, 1)] _ keysInOrder 1 2 Hsend eq_refl).
Defined.
