(* ===== verification/MessageBuffer.v ===== *)
(** * The message buffer

    [storage/utility/messageBuffer.go]: the messages that wait to be processed
    or are being processed.  The buffer holds the hashes of the messages, in
    memory and as a list in storage; the messages themselves are stored by a
    [MessageHandler], the interface through which the layers of the stack use
    the buffer for their own type of message. *)

From S2P Require Import Prelude GoBytes KV Base64 Json Effects FtCypher.

(** [MessageHash] is [[16]byte]. *)
Abbreviation MessageHash := (list byte).

Definition messageSubKey : string := "bufferedMessage".
Definition CurrentMessageBufferVersion : Z := 0.

Definition MakeStoredMessageKey (key : string) (h : MessageHash) : string :=
  key +:+ messageSubKey +:+ b64Encode h.

Class MessageHandler (S M : Type) := {
  SaveMessage : kv -> M -> string -> Time -> act S unit;
  LoadMessage : kv -> string -> act S M;
  DeleteMessage : kv -> string -> act S unit;
  HashMessage : M -> MessageHash;
}.

(** What a handler promises to the buffer, on a store whose writes succeed: a
    saved message loads as it was, loading depends on the message's own key
    only, and saving and deleting touch no other key. *)
Class MessageHandlerLaws (S M : Type) `{EKV S} `{MessageHandler S M} (ok : M -> Prop) : Prop := {
  save_message v m key now s : ok m ->
    exists s', SaveMessage v m key now s = Done s' tt /\ LoadMessage v key s' = Done s' m /\
      forall key', key' ≠ key -> kv_Get v s' key' 0 = kv_Get v s key' 0;
  load_message_frame v key s s' m :
    kv_Get v s' key 0 = kv_Get v s key 0 -> LoadMessage v key s = Done s m ->
    LoadMessage v key s' = Done s' m;
  delete_message v key s :
    exists s', DeleteMessage v key s = Done s' tt /\
      forall key', key' ≠ key -> kv_Get v s' key' 0 = kv_Get v s key' 0;
  hash_length m : length (HashMessage m) = 16%nat;
}.

(** [map[MessageHash]struct{}] *)
Abbreviation hashSet := (gmap MessageHash unit).

Record MessageBuffer := mkMessageBuffer {
  mb_messages : hashSet;                (* not processed *)
  mb_processingMessages : hashSet;
  mb_kv : kv;
  mb_key : string;
}.

(** A value of type [interface{}] that [AddProcessing] returns: a message, or
    the empty struct found in a map. *)
Inductive iface (M : Type) :=
| IMessage (m : M)
| IStruct.
Arguments IMessage {M} m.
Arguments IStruct {M}.

Definition mb_set (mb : MessageBuffer) (messages processing : hashSet) : MessageBuffer :=
  mkMessageBuffer messages processing (mb_kv mb) (mb_key mb).

(** An error that ends the program. *)
Definition orCrash {S A} (m : act S A) : act S A := fun s =>
  match m s with
  | Fail _ _ => Crash
  | o => o
  end.

Lemma orCrash_Done {S A} (m : act S A) s s' a : m s = Done s' a -> orCrash m s = Done s' a.
Proof. intros Hm. unfold orCrash. by rewrite Hm. Qed.

Section code.
Context {S M : Type} `{EKV S} `{MessageHandler S M} `{JsonCodec (list MessageHash)}.
Context (iter : hashSet -> list MessageHash).

Definition getMessageList (mb : MessageBuffer) : list MessageHash :=
  iter (mb_messages mb) ++ iter (mb_processingMessages mb).

Definition MessageBuffer_save (now : Time) : act (S * MessageBuffer) unit := fun '(s, mb) =>
  onStore (write (fun s => kv_Set (mb_kv mb) s (mb_key mb)
    (mkObject CurrentMessageBufferVersion now (json_Marshal (getMessageList mb))))) (s, mb).

Definition MessageBuffer_load : act (S * MessageBuffer) unit := fun '(s, mb) =>
  match kv_Get (mb_kv mb) s (mb_key mb) CurrentMessageBufferVersion with
  | inl e => Fail (s, mb) e
  | inr vo =>
      match json_Unmarshal (Data vo) with
      | None => Fail (s, mb) (Errorf "json" [])
      | Some msgs =>
          Done (s, mb_set mb (foldl (fun ms h => <[h := tt]> ms) (mb_messages mb) msgs)
                     (mb_processingMessages mb)) tt
      end
  end.

Definition NewMessageBuffer (v : kv) (key : string) (now : Time) : act S MessageBuffer := fun s =>
  match MessageBuffer_save now (s, mkMessageBuffer ∅ ∅ v key) with
  | Done (s, mb) _ => Done s mb
  | Fail (s, _) e => Fail s e
  | Crash => Crash
  end.

Definition LoadMessageBuffer (v : kv) (key : string) : act S MessageBuffer := fun s =>
  match MessageBuffer_load (s, mkMessageBuffer ∅ ∅ v key) with
  | Done (s, mb) _ => Done s mb
  | Fail (s, _) e => Fail s e
  | Crash => Crash
  end.

Definition inSet (h : MessageHash) (ms : hashSet) : bool :=
  match ms !! h with Some _ => true | None => false end.

Definition MessageBuffer_Add (m : M) (now : Time) : act (S * MessageBuffer) M := fun '(s, mb) =>
  let h := HashMessage m in
  let key := MakeStoredMessageKey (mb_key mb) h in
  if inSet h (mb_messages mb) then orCrash (onStore (LoadMessage (mb_kv mb) key)) (s, mb)
  else if inSet h (mb_processingMessages mb) then
    orCrash (onStore (LoadMessage (mb_kv mb) key)) (s, mb)
  else
    (_ ← orCrash (onStore (SaveMessage (mb_kv mb) m key now));
     _ ← modify (fun '(s, mb) =>
           (s, mb_set mb (<[h := tt]> (mb_messages mb)) (mb_processingMessages mb)));
     _ ← orCrash (MessageBuffer_save now);
     mret m) (s, mb).

(** A message that is already there is answered with the map's value, an empty
    struct. *)
Definition MessageBuffer_AddProcessing (m : M) (now : Time) : act (S * MessageBuffer) (iface M) :=
  fun '(s, mb) =>
  let h := HashMessage m in
  let key := MakeStoredMessageKey (mb_key mb) h in
  if inSet h (mb_messages mb) then Done (s, mb) IStruct
  else if inSet h (mb_processingMessages mb) then Done (s, mb) IStruct
  else
    (_ ← orCrash (onStore (SaveMessage (mb_kv mb) m key now));
     _ ← modify (fun '(s, mb) =>
           (s, mb_set mb (mb_messages mb) (<[h := tt]> (mb_processingMessages mb))));
     _ ← orCrash (MessageBuffer_save now);
     mret (IMessage m)) (s, mb).

(** [next]: the first key of the map, in iteration order. *)
Definition mb_next (ms : hashSet) : option MessageHash := head (iter ms).

(** The loop of [Next]: a message that does not load stays in the processing
    state and the next one is tried.  Every round takes one hash out of
    [messages], so their number bounds the rounds. *)
Fixpoint nextLoop (fuel : nat) : act (S * MessageBuffer) (option M) := fun '(s, mb) =>
  match fuel, mb_next (mb_messages mb) with
  | Datatypes.S fuel, Some h =>
      let mb := mb_set mb (delete h (mb_messages mb)) (<[h := tt]> (mb_processingMessages mb)) in
      match LoadMessage (mb_kv mb) (MakeStoredMessageKey (mb_key mb) h) s with
      | Done s m => Done (s, mb) (Some m)
      | Fail s _ => nextLoop fuel (s, mb)
      | Crash => Crash
      end
  | _, _ => Done (s, mb) None
  end.

Definition MessageBuffer_Next : act (S * MessageBuffer) (option M) := fun '(s, mb) =>
  nextLoop (size (mb_messages mb)) (s, mb).

Definition MessageBuffer_Succeeded (m : M) (now : Time) : act (S * MessageBuffer) unit :=
  fun '(s, mb) =>
  let h := HashMessage m in
  (_ ← modify (fun '(s, mb) =>
         (s, mb_set mb (delete h (mb_messages mb)) (delete h (mb_processingMessages mb))));
   _ ← logged (onStore (DeleteMessage (mb_kv mb) (MakeStoredMessageKey (mb_key mb) h)));
   orCrash (MessageBuffer_save now)) (s, mb).

Definition MessageBuffer_Failed (m : M) (now : Time) : act (S * MessageBuffer) unit :=
  fun '(s, mb) =>
  let h := HashMessage m in
  (_ ← modify (fun '(s, mb) => (s, mb_set mb (mb_messages mb) (delete h (mb_processingMessages mb))));
   _ ← orCrash (onStore (SaveMessage (mb_kv mb) m (MakeStoredMessageKey (mb_key mb) h) now));
   _ ← modify (fun '(s, mb) =>
         (s, mb_set mb (<[h := tt]> (mb_messages mb)) (mb_processingMessages mb)));
   orCrash (MessageBuffer_save now)) (s, mb).
End code.

(** ** The contract

    What the buffer promises, without its storage: a map from hashes to
    messages, each being processed ([true]) or not ([false]). *)

Abbreviation absBuffer M := (gmap MessageHash (M * bool)).

Section contract.
Context {S M : Type} `{MessageHandler S M}.

Inductive bufOp :=
| OpAdd (m : M)
| OpAddProcessing (m : M)
| OpNext
| OpSucceeded (m : M)
| OpFailed (m : M)
| OpRestart.

Inductive bufOut :=
| OutMessage (m : M)
| OutAny (i : iface M)
| OutNext (o : option M)
| OutNone.

(** All messages are unprocessed after a restart. *)
Definition restarted (A : absBuffer M) : absBuffer M := (fun e => (e.1, false)) <$> A.

Inductive bufStep : absBuffer M -> bufOp -> bufOut -> absBuffer M -> Prop :=
| step_add_new A m :
    A !! HashMessage m = None -> bufStep A (OpAdd m) (OutMessage m) (<[HashMessage m := (m, false)]> A)
| step_add_known A m m' b :
    A !! HashMessage m = Some (m', b) -> bufStep A (OpAdd m) (OutMessage m') A
| step_processing_new A m :
    A !! HashMessage m = None ->
    bufStep A (OpAddProcessing m) (OutAny (IMessage m)) (<[HashMessage m := (m, true)]> A)
| step_processing_known A m e :
    A !! HashMessage m = Some e -> bufStep A (OpAddProcessing m) (OutAny IStruct) A
| step_next_none A :
    (forall h m, A !! h ≠ Some (m, false)) -> bufStep A OpNext (OutNext None) A
| step_next A h m :
    A !! h = Some (m, false) -> bufStep A OpNext (OutNext (Some m)) (<[h := (m, true)]> A)
| step_succeeded A m : bufStep A (OpSucceeded m) OutNone (delete (HashMessage m) A)
| step_failed A m : bufStep A (OpFailed m) OutNone (<[HashMessage m := (m, false)]> A)
| step_restart A : bufStep A OpRestart OutNone (restarted A).
End contract.
Arguments bufOp : clear implicits.
Arguments bufOut : clear implicits.

(** ** The buffer and its storage *)

(** The hashes of a map are the messages of the contract in one state. *)
Definition hashes_of {M} (A : absBuffer M) (b : bool) (ms : hashSet) : Prop :=
  forall h, is_Some (ms !! h) <-> exists m, A !! h = Some (m, b).

(** JSON represents lists of hashes. *)
Class HashesJson `{JsonCodec (list MessageHash)} : Prop :=
  hashes_json (l : list MessageHash) : Forall (fun h => length h = 16%nat) l -> json_ok l.

(** [mb_rep s mb A]: memory and storage hold [A]. *)
Record mb_rep {S M} `{EKV S} `{MessageHandler S M} `{JsonCodec (list MessageHash)}
    (s : S) (mb : MessageBuffer) (A : absBuffer M) : Prop := {
  mr_messages : hashes_of A false (mb_messages mb);
  mr_processing : hashes_of A true (mb_processingMessages mb);
  mr_stored h m b : A !! h = Some (m, b) ->
    LoadMessage (mb_kv mb) (MakeStoredMessageKey (mb_key mb) h) s = Done s m;
  mr_hash h m b : A !! h = Some (m, b) -> length h = 16%nat;
  mr_list : exists o l, kv_Get (mb_kv mb) s (mb_key mb) 0 = inr o /\ json_Unmarshal (Data o) = Some l /\
    forall h, h ∈ l <-> is_Some (A !! h);
}.

(** The buffer's handle and key never change. *)
Definition same_place (mb mb' : MessageBuffer) : Prop := mb_kv mb' = mb_kv mb /\ mb_key mb' = mb_key mb.

Lemma messageKey_inj key h h' : MakeStoredMessageKey key h = MakeStoredMessageKey key h' -> h = h'.
Proof.
  unfold MakeStoredMessageKey. intros Heq. do 2 apply (inj (String.append _)) in Heq.
  by apply b64Encode_inj.
Qed.

Lemma messageKey_ne key h : key ≠ MakeStoredMessageKey key h.
Proof.
  unfold MakeStoredMessageKey. intros Heq. apply (f_equal (fun s => length (chars s))) in Heq.
  rewrite !chars_app, !length_app in Heq. simpl in Heq. lia.
Qed.

Section proofs.
Context {S M : Type} `{EKVLaws S} {rel : EKVReliable S} `{MessageHandler S M} {ok : M -> Prop}
  {laws : MessageHandlerLaws S M ok}.
Context `{JsonCodec (list MessageHash)} {hj : HashesJson}.
Context (iter : hashSet -> list MessageHash) {order : MapOrder iter}.

Implicit Types (A : absBuffer M) (mb : MessageBuffer).

(** The sets of the buffer after a change of one entry. *)
Lemma hashes_insert A ms h m b :
  hashes_of A b ms -> hashes_of (<[h := (m, b)]> A) b (<[h := tt]> ms).
Proof.
  intros Hms k. destruct (decide (k = h)) as [->|Hne].
  - rewrite !lookup_insert_eq. split; eauto.
  - rewrite !lookup_insert_ne by done. apply Hms.
Qed.

Lemma hashes_insert_other A ms h m b :
  hashes_of A b ms -> hashes_of (<[h := (m, negb b)]> A) b (delete h ms).
Proof.
  intros Hms k. destruct (decide (k = h)) as [->|Hne].
  - rewrite lookup_insert_eq, lookup_delete_eq. split; [by intros []|].
    intros [? [=]]. by destruct b.
  - rewrite lookup_insert_ne, lookup_delete_ne by done. apply Hms.
Qed.

Lemma hashes_delete A ms h b : hashes_of A b ms -> hashes_of (delete h A) b (delete h ms).
Proof.
  intros Hms k. destruct (decide (k = h)) as [->|Hne].
  - rewrite !lookup_delete_eq. split; [by intros []|by intros []].
  - rewrite !lookup_delete_ne by done. apply Hms.
Qed.

Lemma hashes_absent A ms h b : hashes_of A b ms -> (forall m, A !! h ≠ Some (m, b)) -> delete h ms = ms.
Proof.
  intros Hms Hno. apply delete_id. apply eq_None_not_Some. intros Hs.
  apply Hms in Hs as [m Hm]. by apply (Hno m).
Qed.

Lemma inSet_true A ms h b : hashes_of A b ms -> inSet h ms = true <-> exists m, A !! h = Some (m, b).
Proof.
  intros Hms. rewrite <- (Hms h). unfold inSet. destruct (ms !! h); split; try done.
Qed.

Lemma inSet_false A ms h b m b' :
  hashes_of A b ms -> A !! h = None \/ A !! h = Some (m, negb b') -> b = b' -> inSet h ms = false.
Proof.
  intros Hms HA ->. apply not_true_is_false. rewrite (inSet_true A ms h b' Hms).
  intros [m' Hm']. destruct HA as [HA|HA]; rewrite HA in Hm'; [done|]. by destruct b'; simplify_eq.
Qed.

(** Saving the list after the maps have changed: the messages stay loadable. *)
Lemma save_list s mb A now :
  hashes_of A false (mb_messages mb) -> hashes_of A true (mb_processingMessages mb) ->
  (forall h m b, A !! h = Some (m, b) ->
    LoadMessage (mb_kv mb) (MakeStoredMessageKey (mb_key mb) h) s = Done s m /\ length h = 16%nat) ->
  exists s', MessageBuffer_save iter now (s, mb) = Done (s', mb) tt /\ mb_rep s' mb A.
Proof.
  intros Hm Hp HA. unfold MessageBuffer_save.
  destruct (kv_Set_ok (mb_kv mb) s (mb_key mb)
    (mkObject CurrentMessageBufferVersion now (json_Marshal (getMessageList iter mb)))) as [s' Hset].
  exists s'. split; [by eapply onStore_Done, write_Done|].
  assert (forall h, h ∈ getMessageList iter mb <-> is_Some (A !! h)) as Hlist.
  { intros h. unfold getMessageList. rewrite elem_of_app, !map_order_elem, (Hm h), (Hp h). split.
    - by intros [[m ->]|[m ->]]; eexists.
    - intros [[m []] Hh]; [right|left]; by exists m. }
  split; [done|done| |by intros h m b HhA; apply HA in HhA as []|].
  - intros h m b [Hld _]%HA. eapply load_message_frame; [|exact Hld].
    eapply key_other; [exact Hset|done|]. apply messageKey_ne.
  - eexists _, (getMessageList iter mb). split; [by eapply key_same|]. split; [|done].
    cbn [Data]. apply json_roundtrip, hashes_json, List.Forall_forall. intros h Hh.
    apply list_elem_of_In, Hlist in Hh as [[m b] Hb]. by apply HA in Hb as [].
Qed.

(** Storing a message keeps the others. *)
Lemma save_entry s mb A m b now :
  mb_rep s mb A -> ok m ->
  exists s', SaveMessage (mb_kv mb) m (MakeStoredMessageKey (mb_key mb) (HashMessage m)) now s
      = Done s' tt /\
    forall h m' b', <[HashMessage m := (m, b)]> A !! h = Some (m', b') ->
      LoadMessage (mb_kv mb) (MakeStoredMessageKey (mb_key mb) h) s' = Done s' m' /\ length h = 16%nat.
Proof.
  intros Hrep Hok.
  destruct (save_message (mb_kv mb) m (MakeStoredMessageKey (mb_key mb) (HashMessage m)) now s Hok)
    as (s' & Hs & Hld & Hfr).
  exists s'. split; [done|]. intros h m' b' Hh. destruct (decide (h = HashMessage m)) as [->|Hne].
  - rewrite lookup_insert_eq in Hh. simplify_eq. split; [done|apply hash_length].
  - rewrite lookup_insert_ne in Hh by done. split; [|by eapply mr_hash].
    eapply load_message_frame; [|by eapply mr_stored]. apply Hfr. intros Heq%messageKey_inj. done.
Qed.

(** The maps while an entry moves to one state: it enters that state's map and
    leaves the other. *)
Lemma moved_to s mb A h m (b : bool) :
  mb_rep s mb A ->
  hashes_of (<[h := (m, b)]> A) false
    (if b then delete h (mb_messages mb) else <[h := tt]> (mb_messages mb)) /\
  hashes_of (<[h := (m, b)]> A) true
    (if b then <[h := tt]> (mb_processingMessages mb) else delete h (mb_processingMessages mb)).
Proof.
  intros [Hm Hp _ _ _]. destruct b.
  - split; [by apply (hashes_insert_other A _ h m false)|by apply hashes_insert].
  - split; [by apply hashes_insert|by apply (hashes_insert_other A _ h m true)].
Qed.

Lemma absent_false A ms h b : hashes_of A b ms -> A !! h = None -> inSet h ms = false /\ delete h ms = ms.
Proof.
  intros Hms HA. split.
  - apply not_true_is_false. rewrite (inSet_true A ms h b Hms). by intros [m Hm]; rewrite HA in Hm.
  - eapply hashes_absent; [done|]. intros m. by rewrite HA.
Qed.

Lemma Add_known s mb A m m' b now :
  mb_rep s mb A -> A !! HashMessage m = Some (m', b) ->
  MessageBuffer_Add iter m now (s, mb) = Done (s, mb) m'.
Proof.
  intros Hrep HA. unfold MessageBuffer_Add.
  pose proof (mr_stored _ _ _ Hrep _ _ _ HA) as Hld.
  assert (orCrash (onStore (LoadMessage (mb_kv mb) (MakeStoredMessageKey (mb_key mb) (HashMessage m))))
    (s, mb) = Done (s, mb) m') as Hr by (by apply orCrash_Done, onStore_Done).
  destruct b.
  - rewrite (inSet_false A _ _ false m' false (mr_messages _ _ _ Hrep) (or_intror HA) eq_refl).
    by rewrite (proj2 (inSet_true A _ _ true (mr_processing _ _ _ Hrep)) (ex_intro _ m' HA)).
  - by rewrite (proj2 (inSet_true A _ _ false (mr_messages _ _ _ Hrep)) (ex_intro _ m' HA)).
Qed.

Lemma Add_new s mb A m now :
  mb_rep s mb A -> ok m -> A !! HashMessage m = None ->
  exists s' mb', MessageBuffer_Add iter m now (s, mb) = Done (s', mb') m /\
    mb_rep s' mb' (<[HashMessage m := (m, false)]> A) /\ same_place mb mb'.
Proof.
  intros Hrep Hok HA. unfold MessageBuffer_Add.
  destruct (absent_false _ _ _ _ (mr_messages _ _ _ Hrep) HA) as [-> _].
  destruct (absent_false _ _ _ _ (mr_processing _ _ _ Hrep) HA) as [-> Hdel].
  destruct (save_entry s mb A m false now Hrep Hok) as (s1 & Hs1 & Hld).
  destruct (moved_to s mb A (HashMessage m) m false Hrep) as [Hm Hp]. simpl in Hm, Hp. rewrite Hdel in Hp.
  erewrite bind_Done by (by apply orCrash_Done, onStore_Done). cbv beta. erewrite bind_Done by done. simpl.
  destruct (save_list s1 (mb_set mb (<[HashMessage m := tt]> (mb_messages mb)) (mb_processingMessages mb))
    _ now Hm Hp Hld) as (s2 & Hs2 & Hrep2).
  erewrite bind_Done by (by apply orCrash_Done). by eexists _, _.
Qed.

Lemma AddProcessing_known s mb A m e now :
  mb_rep s mb A -> A !! HashMessage m = Some e ->
  MessageBuffer_AddProcessing iter m now (s, mb) = Done (s, mb) IStruct.
Proof.
  intros Hrep HA. destruct e as [m' b]. unfold MessageBuffer_AddProcessing. destruct b.
  - rewrite (inSet_false A _ _ false m' false (mr_messages _ _ _ Hrep) (or_intror HA) eq_refl).
    by rewrite (proj2 (inSet_true A _ _ true (mr_processing _ _ _ Hrep)) (ex_intro _ m' HA)).
  - by rewrite (proj2 (inSet_true A _ _ false (mr_messages _ _ _ Hrep)) (ex_intro _ m' HA)).
Qed.

Lemma AddProcessing_new s mb A m now :
  mb_rep s mb A -> ok m -> A !! HashMessage m = None ->
  exists s' mb', MessageBuffer_AddProcessing iter m now (s, mb) = Done (s', mb') (IMessage m) /\
    mb_rep s' mb' (<[HashMessage m := (m, true)]> A) /\ same_place mb mb'.
Proof.
  intros Hrep Hok HA. unfold MessageBuffer_AddProcessing.
  destruct (absent_false _ _ _ _ (mr_messages _ _ _ Hrep) HA) as [-> Hdel].
  destruct (absent_false _ _ _ _ (mr_processing _ _ _ Hrep) HA) as [-> _].
  destruct (save_entry s mb A m true now Hrep Hok) as (s1 & Hs1 & Hld).
  destruct (moved_to s mb A (HashMessage m) m true Hrep) as [Hm Hp]. simpl in Hm, Hp. rewrite Hdel in Hm.
  erewrite bind_Done by (by apply orCrash_Done, onStore_Done). cbv beta. erewrite bind_Done by done. simpl.
  destruct (save_list s1 (mb_set mb (mb_messages mb) (<[HashMessage m := tt]> (mb_processingMessages mb)))
    _ now Hm Hp Hld) as (s2 & Hs2 & Hrep2).
  erewrite bind_Done by (by apply orCrash_Done). by eexists _, _.
Qed.

Lemma Failed_ok s mb A m now :
  mb_rep s mb A -> ok m ->
  exists s' mb', MessageBuffer_Failed iter m now (s, mb) = Done (s', mb') tt /\
    mb_rep s' mb' (<[HashMessage m := (m, false)]> A) /\ same_place mb mb'.
Proof.
  intros Hrep Hok. unfold MessageBuffer_Failed.
  destruct (save_entry s mb A m false now Hrep Hok) as (s1 & Hs1 & Hld).
  destruct (moved_to s mb A (HashMessage m) m false Hrep) as [Hm Hp]. simpl in Hm, Hp.
  erewrite bind_Done by done. cbv beta iota.
  erewrite bind_Done by (by apply orCrash_Done, onStore_Done). cbv beta. erewrite bind_Done by done. simpl.
  destruct (save_list s1 (mb_set mb (<[HashMessage m := tt]> (mb_messages mb))
    (delete (HashMessage m) (mb_processingMessages mb))) _ now Hm Hp Hld) as (s2 & Hs2 & Hrep2).
  eexists _, _. split; [by apply orCrash_Done|done].
Qed.

Lemma Succeeded_ok s mb A m now :
  mb_rep s mb A ->
  exists s' mb', MessageBuffer_Succeeded iter m now (s, mb) = Done (s', mb') tt /\
    mb_rep s' mb' (delete (HashMessage m) A) /\ same_place mb mb'.
Proof.
  intros Hrep. unfold MessageBuffer_Succeeded.
  destruct (delete_message (mb_kv mb) (MakeStoredMessageKey (mb_key mb) (HashMessage m)) s)
    as (s1 & Hs1 & Hfr).
  set (mb1 := mb_set mb (delete (HashMessage m) (mb_messages mb))
                (delete (HashMessage m) (mb_processingMessages mb))).
  destruct (save_list s1 mb1 (delete (HashMessage m) A) now) as (s2 & Hs2 & Hrep2).
  - by apply hashes_delete, Hrep.
  - by apply hashes_delete, Hrep.
  - intros h m' b' Hh. apply lookup_delete_Some in Hh as [Hne Hh]. split; [|by eapply mr_hash].
    eapply load_message_frame; [|exact (mr_stored _ _ _ Hrep _ _ _ Hh)]. apply Hfr. intros Heq%messageKey_inj. by apply Hne.
  - erewrite bind_Done by done. fold mb1.
    erewrite bind_Done by (by apply logged_Done, onStore_Done).
    exists s2, mb1. split; [by apply orCrash_Done|done].
Qed.

Lemma Next_none s mb A :
  mb_rep s mb A -> (forall h m, A !! h ≠ Some (m, false)) ->
  MessageBuffer_Next iter (M := M) (s, mb) = Done (s, mb) None.
Proof.
  intros Hrep Hno. unfold MessageBuffer_Next.
  assert (mb_messages mb = ∅) as ->; [|done].
  apply map_eq. intros h. rewrite lookup_empty. apply eq_None_not_Some.
  intros [m Hm]%(mr_messages _ _ _ Hrep). by apply (Hno h m).
Qed.

(** Changing the state of an entry without saving: the list keeps its hashes. *)
Lemma rep_move s mb A h m b b' ms ps :
  mb_rep s mb A -> A !! h = Some (m, b) ->
  hashes_of (<[h := (m, b')]> A) false ms -> hashes_of (<[h := (m, b')]> A) true ps ->
  mb_rep s (mb_set mb ms ps) (<[h := (m, b')]> A).
Proof.
  intros Hrep HA Hm Hp. split; [done|done|..].
  - intros k m' b'' Hk. simpl. apply lookup_insert_Some in Hk as [[<- [=<- <-]]|[Hne Hk]];
      by eapply mr_stored.
  - intros k m' b'' Hk. apply lookup_insert_Some in Hk as [[<- [=<- <-]]|[Hne Hk]]; by eapply mr_hash.
  - destruct (mr_list _ _ _ Hrep) as (o & l & Ho & Hl & Hin). exists o, l. split_and!; [done..|].
    intros k. rewrite Hin. destruct (decide (k = h)) as [->|Hne].
    + rewrite lookup_insert_eq, HA. by split; eauto.
    + by rewrite lookup_insert_ne by done.
Qed.

Lemma Next_some s mb A h0 m0 :
  mb_rep s mb A -> A !! h0 = Some (m0, false) ->
  exists h m mb', A !! h = Some (m, false) /\
    MessageBuffer_Next iter (s, mb) = Done (s, mb') (Some m) /\
    mb_rep s mb' (<[h := (m, true)]> A) /\ mb_messages mb' = delete h (mb_messages mb) /\ same_place mb mb'.
Proof.
  intros Hrep HA0. unfold MessageBuffer_Next.
  assert (is_Some (mb_messages mb !! h0)) as Hin0 by (apply (mr_messages _ _ _ Hrep); eauto).
  destruct (iter (mb_messages mb)) as [|h l] eqn:Eit.
  { apply (map_order_elem (iter := iter)) in Hin0. rewrite Eit in Hin0. by apply not_elem_of_nil in Hin0. }
  assert (is_Some (mb_messages mb !! h)) as Hin.
  { apply (map_order_elem (iter := iter)). rewrite Eit. by left. }
  destruct (size (mb_messages mb)) as [|n] eqn:Esz.
  { apply map_size_empty_iff in Esz. rewrite Esz, lookup_empty in Hin. by destruct Hin. }
  apply (mr_messages _ _ _ Hrep) in Hin as [m Hm].
  exists h, m. eexists. split; [done|]. cbn [nextLoop]. unfold mb_next. rewrite Eit. cbn [head].
  cbn [mb_kv mb_key mb_set]. rewrite (mr_stored _ _ _ Hrep _ _ _ Hm). split; [done|].
  split; [|done]. destruct (moved_to s mb A h m true Hrep). by eapply rep_move.
Qed.

Lemma foldl_insert (l : list MessageHash) (ms : hashSet) h :
  is_Some (foldl (fun ms h => <[h := tt]> ms) ms l !! h) <-> is_Some (ms !! h) \/ h ∈ l.
Proof.
  revert ms. induction l as [|k l IH]; intros ms; simpl.
  - rewrite elem_of_nil. tauto.
  - rewrite IH, elem_of_cons, lookup_insert_is_Some'. naive_solver.
Qed.

Lemma Load_ok s mb A :
  mb_rep s mb A ->
  exists mb', LoadMessageBuffer (mb_kv mb) (mb_key mb) s = Done s mb' /\ mb_rep s mb' (restarted A) /\
    mb_kv mb' = mb_kv mb /\ mb_key mb' = mb_key mb.
Proof.
  intros Hrep. destruct (mr_list _ _ _ Hrep) as (o & l & Ho & Hl & Hin).
  unfold LoadMessageBuffer, MessageBuffer_load, CurrentMessageBufferVersion.
  cbn [mb_kv mb_key mb_messages mb_processingMessages]. rewrite Ho, Hl.
  eexists. split; [done|]. split; [|done]. unfold restarted. split.
  - intros h. simpl. rewrite foldl_insert, lookup_empty, Hin, lookup_fmap. split.
    + intros [[]|[[m b] ->]]; [done|]. by exists m.
    + intros [m Hm]. right. apply fmap_Some in Hm as (e & He & _). by exists e.
  - intros h. simpl. rewrite lookup_empty, lookup_fmap. split; [by intros []|].
    intros [m Hm]. apply fmap_Some in Hm as (e & He & [=]).
  - intros h m b. rewrite lookup_fmap. intros (e & He & [= -> ->])%fmap_Some. destruct e as [m b'].
    simpl. by eapply mr_stored.
  - intros h m b. rewrite lookup_fmap. intros ([m' b'] & He & _)%fmap_Some. by eapply mr_hash.
  - exists o, l. split_and!; [done..|]. intros h. by rewrite Hin, lookup_fmap, fmap_is_Some.
Qed.

Lemma New_ok s v key now :
  exists s' mb, NewMessageBuffer iter v key now s = Done s' mb /\ mb_rep s' mb (∅ : absBuffer M) /\
    mb_kv mb = v /\ mb_key mb = key.
Proof.
  unfold NewMessageBuffer.
  destruct (save_list s (mkMessageBuffer ∅ ∅ v key) ∅ now) as (s' & Hs & Hrep).
  - intros h. rewrite !lookup_empty. split; [by intros []|by intros []].
  - intros h. rewrite !lookup_empty. split; [by intros []|by intros []].
  - intros h m b. by rewrite lookup_empty.
  - rewrite Hs. by eexists _, _.
Qed.
End proofs.

(** ** Refinement *)

Section refinement.
Context {S M : Type} `{EKVLaws S} {rel : EKVReliable S} `{MessageHandler S M} {ok : M -> Prop}
  {laws : MessageHandlerLaws S M ok}.
Context `{JsonCodec (list MessageHash)} {hj : HashesJson}.
Context (iter : hashSet -> list MessageHash) {order : MapOrder iter}.

(** One operation; a restart loads the buffer again from its place. *)
Definition bufExec (now : Time) (op : bufOp M) : act (S * MessageBuffer) (bufOut M) :=
  match op with
  | OpAdd m => m' ← MessageBuffer_Add iter m now; mret (OutMessage m')
  | OpAddProcessing m => i ← MessageBuffer_AddProcessing iter m now; mret (OutAny i)
  | OpNext => o ← MessageBuffer_Next iter; mret (OutNext o)
  | OpSucceeded m => _ ← MessageBuffer_Succeeded iter m now; mret OutNone
  | OpFailed m => _ ← MessageBuffer_Failed iter m now; mret OutNone
  | OpRestart => fun '(s, mb) =>
      match LoadMessageBuffer (mb_kv mb) (mb_key mb) s with
      | Done s mb => Done (s, mb) OutNone
      | Fail s e => Fail (s, mb) e
      | Crash => Crash
      end
  end.

Fixpoint bufRun (now : Time) (ops : list (bufOp M)) : act (S * MessageBuffer) (list (bufOut M)) :=
  match ops with
  | [] => mret []
  | op :: ops => o ← bufExec now op; os ← bufRun now ops; mret (o :: os)
  end.

(** Runs of the contract. *)
Inductive bufSteps : absBuffer M -> list (bufOp M) -> list (bufOut M) -> absBuffer M -> Prop :=
| bufSteps_nil A : bufSteps A [] [] A
| bufSteps_cons A op o A1 ops os A2 :
    bufStep A op o A1 -> bufSteps A1 ops os A2 -> bufSteps A (op :: ops) (o :: os) A2.

Definition bufOp_ok (op : bufOp M) : Prop :=
  match op with
  | OpAdd m | OpAddProcessing m | OpFailed m => ok m
  | _ => True
  end.

Lemma no_unprocessed (A : absBuffer M) :
  (exists h m, A !! h = Some (m, false)) \/ (forall h m, A !! h ≠ Some (m, false)).
Proof.
  destruct (decide (map_Forall (fun _ e => e.2 = true) A)) as [Hall|Hex].
  - right. intros h m Hh. by apply (map_Forall_lookup_1 _ _ _ _ Hall) in Hh.
  - left. apply map_not_Forall in Hex as (h & [m b] & Hh & Hb); [|apply _].
    exists h, m. by destruct b.
Qed.

Lemma bufExec_refines now op s mb A :
  mb_rep s mb A -> bufOp_ok op ->
  exists s' mb' o A', bufExec now op (s, mb) = Done (s', mb') o /\ bufStep A op o A' /\ mb_rep s' mb' A'.
Proof.
  intros Hrep Hok. destruct op as [m|m| |m|m|]; cbn [bufExec bufOp_ok] in *.
  - destruct (A !! HashMessage m) as [[m' b]|] eqn:HA.
    + erewrite bind_Done by (by eapply Add_known). eexists _, _, _, _. split; [done|]. split; [|done].
      by econstructor.
    + destruct (Add_new iter s mb A m now) as (s' & mb' & Hr & Hrep' & _); [done..|]. act_step.
      eexists _, _, _, _. split; [done|]. split; [by constructor|done].
  - destruct (A !! HashMessage m) as [e|] eqn:HA.
    + erewrite bind_Done by (by eapply AddProcessing_known). eexists _, _, _, _. split; [done|].
      split; [by econstructor|done].
    + destruct (AddProcessing_new iter s mb A m now) as (s' & mb' & Hr & Hrep' & _); [done..|]. act_step.
      eexists _, _, _, _. split; [done|]. split; [by constructor|done].
  - destruct (no_unprocessed A) as [(h & m & Hh)|Hno].
    + destruct (Next_some iter s mb A h m) as (h' & m' & mb' & Hh' & Hr & Hrep' & _); [done..|]. act_step.
      eexists _, _, _, _. split; [done|]. split; [by econstructor|done].
    + erewrite bind_Done by (by eapply Next_none). eexists _, _, _, _. split; [done|].
      split; [by constructor|done].
  - destruct (Succeeded_ok iter s mb A m now Hrep) as (s' & mb' & Hr & Hrep' & _). act_step.
    eexists _, _, _, _. split; [done|]. split; [by constructor|done].
  - destruct (Failed_ok iter s mb A m now Hrep Hok) as (s' & mb' & Hr & Hrep' & _). act_step.
    eexists _, _, _, _. split; [done|]. split; [by constructor|done].
  - destruct (Load_ok s mb A Hrep) as (mb' & -> & Hrep' & _). eexists _, _, _, _. split; [done|].
    split; [by constructor|done].
Qed.

Lemma bufRun_refines now ops s mb A :
  mb_rep s mb A -> Forall bufOp_ok ops ->
  exists s' mb' os A', bufRun now ops (s, mb) = Done (s', mb') os /\ bufSteps A ops os A' /\
    mb_rep s' mb' A'.
Proof.
  intros Hrep Hok. revert s mb A Hrep. induction Hok as [|op ops Hop _ IH]; intros s mb A Hrep; simpl.
  - eexists _, _, _, _. split; [done|]. split; [constructor|done].
  - destruct (bufExec_refines now op s mb A Hrep Hop) as (s1 & mb1 & o & A1 & Hr & Hstep & Hrep1).
    act_step. destruct (IH _ _ _ Hrep1) as (s2 & mb2 & os & A2 & Hr2 & Hsteps & Hrep2). act_step.
    eexists _, _, _, _. split; [done|]. split; [by econstructor|done].
Qed.

(** C13: A new buffer, under any sequence of additions, takes, successes, failures
    and restarts, never panics and answers as its contract: a map from hashes
    to messages in which [Add] answers a known message with the stored one,
    [Next] gives out an unprocessed message whenever there is one, a failed
    message is unprocessed again with the new contents, and a restart makes
    every message unprocessed.  At the end the two maps of the buffer hold
    exactly the hashes of the contract's unprocessed and processing messages. *)
Theorem MessageBuffer_refines s v key now ops :
  Forall bufOp_ok ops ->
  exists s0 mb0 s1 mb1 os A, NewMessageBuffer iter v key now s = Done s0 mb0 /\
    bufRun now ops (s0, mb0) = Done (s1, mb1) os /\ bufSteps ∅ ops os A /\
    (forall h, is_Some (mb_messages mb1 !! h) <-> exists m, A !! h = Some (m, false)) /\
    (forall h, is_Some (mb_processingMessages mb1 !! h) <-> exists m, A !! h = Some (m, true)).
Proof.
  intros Hok. destruct (New_ok (M := M) iter s v key now) as (s0 & mb0 & Hnew & Hrep & _).
  destruct (bufRun_refines now ops s0 mb0 ∅ Hrep Hok) as (s1 & mb1 & os & A & Hrun & Hsteps & Hrep').
  exists s0, mb0, s1, mb1, os, A. split_and!; [done..|apply Hrep'|apply Hrep'].
Qed.
End refinement.

(** ** A handler that stores byte strings as they are *)

Module BufferExample.
#[export] Instance rawHandler {S} `{EKV S} : MessageHandler S (list byte) := {
  SaveMessage v m key now := write (fun s => kv_Set v s key (mkObject 0 now m));
  LoadMessage v key := read (fun s => match kv_Get v s key 0 with inl e => inl e | inr o => inr (Data o) end);
  DeleteMessage v key := write (fun s => kv_Delete v s key 0);
  HashMessage m := array_of 16 m;
}.

#[export] Instance rawHandler_laws {S} `{EKVLaws S} `{!EKVReliable S} :
  MessageHandlerLaws S (list byte) (fun _ => True).
Proof.
  split.
  - intros v m key now s _. destruct (kv_Set_ok v s key (mkObject 0 now m)) as [s' Hs'].
    exists s'. split; [by apply write_Done|]. split.
    + apply read_Done. by rewrite (key_same v s s' key _ Hs' eq_refl).
    + intros key' Hne. by eapply key_other.
  - intros v key s s' m Heq. simpl. unfold read. rewrite Heq. destruct (kv_Get v s key 0); [done|].
    by intros [= ->].
  - intros v key s. destruct (kv_Delete_ok v s key 0) as [s' Hs']. exists s'.
    split; [by apply write_Done|]. intros key' Hne. by eapply delete_other.
  - intros m. apply length_array_of.
Qed.

#[export] Instance ex_hashes_codec : JsonCodec (list MessageHash) := countableCodec _.
#[export] Instance ex_hashes_json : HashesJson.
Proof. done. Qed.

Definition ex_ops : list (bufOp (list byte)) :=
  [OpAdd [x01]; OpNext; OpAdd [x02]; OpAdd [x01]; OpFailed [x01]; OpNext; OpSucceeded [x02]; OpRestart; OpNext].
End BufferExample.
Import BufferExample.

Lemma MessageBuffer_refines_witness :
  exists s0 mb0 s1 mb1 os A, NewMessageBuffer keysInOrder NewKV "k" 7 (∅ : MemStore) = Done s0 mb0 /\
    bufRun keysInOrder 7 ex_ops (s0, mb0) = Done (s1, mb1) os /\ bufSteps ∅ ex_ops os A /\
    (forall h, is_Some (mb_messages mb1 !! h) <-> exists m, A !! h = Some (m, false)) /\
    (forall h, is_Some (mb_processingMessages mb1 !! h) <-> exists m, A !! h = Some (m, true)).
Proof.
  apply (MessageBuffer_refines (ok := fun _ => True) keysInOrder (∅ : MemStore) NewKV "k" 7 ex_ops).
  repeat constructor.
Defined.
