(* ===== verification/Fingerprints.v ===== *)
(** * Fingerprints

    [cmix/message/fingerprints.go]: for every reception identity, the
    processors that wait for a message with a given fingerprint.  A fingerprint
    is taken out when a message uses it. *)

From S2P Require Import Prelude.

Record FingerprintsManager (ID FP P : Type) `{Countable ID} `{Countable FP} := mkFingerprintsManager {
  fpMap : gmap ID (gmap FP P);
  standardID : ID;
}.
Arguments mkFingerprintsManager {ID FP P _ _ _ _}.
Arguments fpMap {ID FP P _ _ _ _}.
Arguments standardID {ID FP P _ _ _ _}.

Section code.
Context {ID FP P : Type} `{Countable ID} `{Countable FP}.

Abbreviation manager := (FingerprintsManager ID FP P).

Definition fm_setMap (f : manager) (m : gmap ID (gmap FP P)) : manager :=
  mkFingerprintsManager m (standardID f).

Definition newFingerprints (standard : ID) : manager := mkFingerprintsManager ∅ standard.

(** [f.fpMap[cid]] of a missing identity is the nil map, which reads as empty. *)
Definition fm_of (f : manager) (cid : ID) : gmap FP P := default ∅ (fpMap f !! cid).

(** Deletes the inner map when it has become empty. *)
Definition dropEmpty (m : gmap ID (gmap FP P)) (cid : ID) : gmap ID (gmap FP P) :=
  if (size (default ∅ (m !! cid)) =? 0)%nat then delete cid m else m.

Definition fm_pop (f : manager) (cid : ID) (fp : FP) : manager * option P :=
  match fpMap f !! cid with
  | Some idFpMap =>
      match idFpMap !! fp with
      | Some proc =>
          (fm_setMap f (dropEmpty (<[cid := delete fp idFpMap]> (fpMap f)) cid), Some proc)
      | None => (f, None)
      end
  | None => (f, None)
  end.

(** A nil identity stands for the standard one. *)
Definition AddFingerprint (f : manager) (clientID : option ID) (fp : FP) (mp : P) :
    manager * option error :=
  let cid := default (standardID f) clientID in
  let m := match fpMap f !! cid with
           | Some _ => fpMap f
           | None => <[cid := ∅]> (fpMap f)
           end in
  match default ∅ (m !! cid) !! fp with
  | Some _ => (fm_setMap f m, Some (Errorf "fingerprint %s already exists" []))
  | None => (fm_setMap f (<[cid := <[fp := mp]> (default ∅ (m !! cid))]> m), None)
  end.

Definition DeleteFingerprint (f : manager) (clientID : option ID) (fp : FP) : manager :=
  let cid := default (standardID f) clientID in
  match fpMap f !! cid with
  | Some idFpMap => fm_setMap f (dropEmpty (<[cid := delete fp idFpMap]> (fpMap f)) cid)
  | None => f
  end.

Definition DeleteClientFingerprints (f : manager) (cid : ID) : manager :=
  fm_setMap f (delete cid (fpMap f)).
End code.

(** ** A map from identity and fingerprint to processor *)

Section contract.
Context {ID FP P : Type} `{Countable ID} `{Countable FP}.

Inductive fpOp :=
| FpAdd (cid : option ID) (fp : FP) (p : P)
| FpPop (cid : ID) (fp : FP)
| FpDelete (cid : option ID) (fp : FP)
| FpDeleteClient (cid : ID).

Inductive fpOut :=
| FpErr (e : option error)
| FpProc (p : option P)
| FpUnit.

Definition fpExec (f : FingerprintsManager ID FP P) (op : fpOp) : FingerprintsManager ID FP P * fpOut :=
  match op with
  | FpAdd cid fp p => let '(f, e) := AddFingerprint f cid fp p in (f, FpErr e)
  | FpPop cid fp => let '(f, p) := fm_pop f cid fp in (f, FpProc p)
  | FpDelete cid fp => (DeleteFingerprint f cid fp, FpUnit)
  | FpDeleteClient cid => (DeleteClientFingerprints f cid, FpUnit)
  end.

Fixpoint fpRun (f : FingerprintsManager ID FP P) (ops : list fpOp) :
    FingerprintsManager ID FP P * list fpOut :=
  match ops with
  | [] => (f, [])
  | op :: ops => let '(f, o) := fpExec f op in let '(f, os) := fpRun f ops in (f, o :: os)
  end.

(** The contract: one map, one entry per operation. *)
Definition fpSpec (std : ID) (A : gmap (ID * FP) P) (op : fpOp) : gmap (ID * FP) P * fpOut :=
  match op with
  | FpAdd cid fp p =>
      let k := (default std cid, fp) in
      match A !! k with
      | Some _ => (A, FpErr (Some (Errorf "fingerprint %s already exists" [])))
      | None => (<[k := p]> A, FpErr None)
      end
  | FpPop cid fp => (delete (cid, fp) A, FpProc (A !! (cid, fp)))
  | FpDelete cid fp => (delete (default std cid, fp) A, FpUnit)
  | FpDeleteClient cid => (filter (fun e => e.1.1 ≠ cid) A, FpUnit)
  end.

Fixpoint fpSpecRun (std : ID) (A : gmap (ID * FP) P) (ops : list fpOp) :
    gmap (ID * FP) P * list fpOut :=
  match ops with
  | [] => (A, [])
  | op :: ops => let '(A, o) := fpSpec std A op in let '(A, os) := fpSpecRun std A ops in (A, o :: os)
  end.

(** How often a fingerprint was registered and used in a run. *)
Definition isAdd (std cid : ID) (fp : FP) (e : fpOp * fpOut) : bool :=
  match e with
  | (FpAdd c f _, FpErr None) => bool_decide ((default std c, f) = (cid, fp))
  | _ => false
  end.
Definition isUse (cid : ID) (fp : FP) (e : fpOp * fpOut) : bool :=
  match e with
  | (FpPop c f, FpProc (Some _)) => bool_decide ((c, f) = (cid, fp))
  | _ => false
  end.

(** The nested maps hold [A]; the code keeps no empty inner map. *)
Record fm_rep (f : FingerprintsManager ID FP P) (A : gmap (ID * FP) P) : Prop := {
  fr_lookup cid fp : fm_of f cid !! fp = A !! (cid, fp);
  fr_nonempty cid m : fpMap f !! cid = Some m -> m ≠ ∅;
}.

Lemma dropEmpty_lookup (m : gmap ID (gmap FP P)) cid cid' :
  default ∅ (dropEmpty m cid !! cid') = default ∅ (m !! cid').
Proof.
  unfold dropEmpty. case_match eqn:E; [|done]. apply Nat.eqb_eq, map_size_empty_iff in E.
  destruct (decide (cid = cid')) as [<-|Hne]; [by rewrite lookup_delete_eq, E|].
  by rewrite lookup_delete_ne.
Qed.

Lemma dropEmpty_nonempty (m : gmap ID (gmap FP P)) cid cid' x :
  (forall c y, c ≠ cid -> m !! c = Some y -> y ≠ ∅) -> dropEmpty m cid !! cid' = Some x -> x ≠ ∅.
Proof.
  intros Hm. unfold dropEmpty. case_match eqn:E.
  - intros [Hne Hx]%lookup_delete_Some. by eapply Hm.
  - intros Hx. destruct (decide (cid' = cid)) as [->|Hne]; [|by eapply Hm].
    rewrite Hx in E. simpl in E. intros ->. by rewrite map_size_empty in E.
Qed.

(** Replacing the map of one identity. *)
Lemma rep_update (f : FingerprintsManager ID FP P) (A : gmap (ID * FP) P) (cid : ID) (m' : gmap FP P) (A' : gmap (ID * FP) P) :
  fm_rep f A -> (forall fp : FP, m' !! fp = A' !! (cid, fp)) ->
  (forall (c : ID) (fp : FP), c ≠ cid -> A' !! (c, fp) = A !! (c, fp)) ->
  fm_rep (fm_setMap f (dropEmpty (<[cid := m']> (fpMap f)) cid)) A'.
Proof.
  intros [Hl Hn] Hm HA. split.
  - intros c fp. unfold fm_of. cbn [fpMap fm_setMap]. rewrite dropEmpty_lookup.
    destruct (decide (c = cid)) as [->|Hne]; [by rewrite lookup_insert_eq|].
    rewrite lookup_insert_ne by done. rewrite HA by done. apply Hl.
  - intros c m. cbn [fpMap fm_setMap]. apply dropEmpty_nonempty. intros c' y Hne.
    rewrite lookup_insert_ne by done. apply Hn.
Qed.

Lemma pop_refines (f : FingerprintsManager ID FP P) (A : gmap (ID * FP) P) (cid : ID) (fp : FP) :
  fm_rep f A -> fm_rep (fm_pop f cid fp).1 (delete (cid, fp) A) /\ (fm_pop f cid fp).2 = A !! (cid, fp).
Proof.
  intros Hrep. pose proof (fr_lookup _ _ Hrep cid fp) as Hlk. unfold fm_pop. unfold fm_of in Hlk.
  assert (A !! (cid, fp) = None -> delete (cid, fp) A = A) as Hid by (apply delete_id).
  destruct (fpMap f !! cid) as [m|] eqn:Em; simpl in Hlk.
  - destruct (m !! fp) as [p|] eqn:Ep; cbn [fst snd]; [|by rewrite Hid by done].
    split; [|done]. apply (rep_update f A); [done|..].
    + intros fp'. destruct (decide (fp' = fp)) as [->|Hne]; [by rewrite !lookup_delete_eq|].
      rewrite !lookup_delete_ne by congruence. pose proof (fr_lookup _ _ Hrep cid fp') as Hl.
      unfold fm_of in Hl. by rewrite Em in Hl.
    + intros c fp' Hne. by rewrite lookup_delete_ne by congruence.
  - rewrite lookup_empty in Hlk. cbn [fst snd]. by rewrite Hid by done.
Qed.

Lemma delete_refines (f : FingerprintsManager ID FP P) (A : gmap (ID * FP) P) (cid : option ID) (fp : FP) :
  fm_rep f A -> fm_rep (DeleteFingerprint f cid fp) (delete (default (standardID f) cid, fp) A).
Proof.
  intros Hrep. unfold DeleteFingerprint. set (c0 := default _ cid).
  pose proof (fr_lookup _ _ Hrep c0) as Hlk. unfold fm_of in Hlk.
  destruct (fpMap f !! c0) as [m|] eqn:Em; simpl in Hlk.
  - apply (rep_update f A); [done|..].
    + intros fp'. destruct (decide (fp' = fp)) as [->|Hne]; [by rewrite !lookup_delete_eq|].
      rewrite !lookup_delete_ne by congruence. by rewrite <- Hlk.
    + intros c fp' Hne. by rewrite lookup_delete_ne by congruence.
  - rewrite delete_id; [done|]. by rewrite <- Hlk, lookup_empty.
Qed.

Lemma delete_client_refines (f : FingerprintsManager ID FP P) (A : gmap (ID * FP) P) (cid : ID) :
  fm_rep f A -> fm_rep (DeleteClientFingerprints f cid) (filter (fun e => e.1.1 ≠ cid) A).
Proof.
  intros [Hl Hn]. split; cbn [fpMap DeleteClientFingerprints fm_setMap].
  - intros c fp. unfold fm_of. simpl. destruct (decide (c = cid)) as [->|Hne].
    + rewrite lookup_delete_eq. simpl. rewrite lookup_empty. symmetry.
      apply map_lookup_filter_None. right. by intros x _ [].
    + rewrite lookup_delete_ne by done. change (fm_of f c !! fp = filter (fun e => e.1.1 ≠ cid) A !! (c, fp)).
      rewrite Hl. destruct (A !! (c, fp)) as [p|] eqn:E; symmetry.
      * by apply map_lookup_filter_Some.
      * apply map_lookup_filter_None. by left.
  - intros c m. intros [_ Hm]%lookup_delete_Some. by eapply Hn.
Qed.

Lemma fp_new_refines (std : ID) : fm_rep (newFingerprints std) (∅ : gmap (ID * FP) P).
Proof. split; [|by intros cid m]. intros cid fp. unfold fm_of. simpl. by rewrite !lookup_empty. Qed.

Lemma add_refines (f : FingerprintsManager ID FP P) (A : gmap (ID * FP) P) (cid : option ID) (fp : FP) (p : P) :
  fm_rep f A ->
  let k := (default (standardID f) cid, fp) in
  let '(f', e) := AddFingerprint f cid fp p in
  fm_rep f' (if A !! k then A else <[k := p]> A) /\
  e = match A !! k with Some _ => Some (Errorf "fingerprint %s already exists" []) | None => None end.
Proof.
  intros Hrep k. unfold AddFingerprint. set (c0 := default _ cid) in *.
  pose proof (fr_lookup _ _ Hrep c0 fp) as Hlk. unfold fm_of in Hlk.
  assert (default ∅ (match fpMap f !! c0 with Some _ => fpMap f | None => <[c0 := ∅]> (fpMap f) end !! c0)
    = default ∅ (fpMap f !! c0)) as ->.
  { destruct (fpMap f !! c0) eqn:E; [by rewrite E|by rewrite lookup_insert_eq]. }
  rewrite Hlk. subst k. destruct (A !! (c0, fp)) as [q|] eqn:EA; cbv beta iota zeta.
  - split; [|done]. destruct (fpMap f !! c0) as [m|] eqn:Em; [by destruct f|].
    simpl in Hlk. by rewrite lookup_empty in Hlk.
  - split; [|done]. split.
    + intros c fp'. unfold fm_of. cbn [fpMap fm_setMap]. destruct (decide (c = c0)) as [->|Hne].
      * rewrite lookup_insert_eq. simpl. pose proof (fr_lookup _ _ Hrep c0 fp') as Hl.
        unfold fm_of in Hl. destruct (decide (fp' = fp)) as [->|Hf]; [by rewrite !lookup_insert_eq|].
        rewrite !lookup_insert_ne by congruence. done.
      * rewrite lookup_insert_ne, lookup_insert_ne by congruence.
        pose proof (fr_lookup _ _ Hrep c fp') as Hl. unfold fm_of in Hl. rewrite <- Hl.
        destruct (fpMap f !! c0) eqn:E; [done|]. by rewrite lookup_insert_ne by done.
    + intros c m. cbn [fpMap fm_setMap]. intros [[<- <-]|[Hne Hm]]%lookup_insert_Some; [apply insert_non_empty|].
      destruct (fpMap f !! c0) eqn:E; [by eapply fr_nonempty|].
      rewrite lookup_insert_ne in Hm by done. by eapply fr_nonempty.
Qed.
(** A run of registrations for one identity; [None] when one is refused. *)
Fixpoint addAll (f : FingerprintsManager ID FP P) (cid : ID) (l : list (FP * P)) :
    option (FingerprintsManager ID FP P) :=
  match l with
  | [] => Some f
  | (fp, p) :: l =>
      let '(f, e) := AddFingerprint f (Some cid) fp p in
      match e with None => addAll f cid l | Some _ => None end
  end.

Lemma addAll_ok (f : FingerprintsManager ID FP P) (A : gmap (ID * FP) P) (cid : ID) (l : list (FP * P)) :
  fm_rep f A -> NoDup l.*1 -> (forall fp, fp ∈ l.*1 -> A !! (cid, fp) = None) ->
  exists f' A', addAll f cid l = Some f' /\ fm_rep f' A' /\
    (forall fp p, (fp, p) ∈ l -> A' !! (cid, fp) = Some p) /\
    (forall c fp, (c, fp) ∉ (pair cid <$> l.*1) -> A' !! (c, fp) = A !! (c, fp)).
Proof.
  revert f A. induction l as [|[fp p] l IH]; intros f A Hrep Hnd Hfree.
  - exists f, A. split; [done|]. split; [done|]. split; [by intros fp p ?%elem_of_nil|done].
  - rewrite fmap_cons in Hnd, Hfree. apply list.NoDup_cons in Hnd as [Hnew Hnd]. cbn [addAll fst] in *.
    pose proof (add_refines f A (Some cid) fp p Hrep) as Hadd. cbv zeta in Hadd.
    destruct (AddFingerprint _ _ _ _) as [f1 e]. simpl in Hadd. rewrite Hfree in Hadd by (by left).
    destruct Hadd as [Hrep1 ->].
    destruct (IH f1 (<[(cid, fp) := p]> A) Hrep1 Hnd) as (f' & A' & Hrun & Hrep' & Hin & Hout).
    { intros fp' Hfp'. rewrite lookup_insert_ne by (intros [= ->]; done). apply Hfree. by right. }
    exists f', A'. split; [done|]. split; [done|]. split.
    + intros fp' p' [[= -> ->]|Hl]%elem_of_cons; [|by apply Hin]. rewrite Hout; [apply lookup_insert_eq|].
      intros (x & [= <-] & Hx)%list_elem_of_fmap. done.
    + intros c fp' Hnot. rewrite !fmap_cons in Hnot. apply not_elem_of_cons in Hnot as [Hne Hnot].
      rewrite Hout by done. by rewrite lookup_insert_ne.
Qed.
End contract.
Arguments fpOp : clear implicits.
Arguments fpOut : clear implicits.

Section theorem.
Context {ID FP P : Type} `{Countable ID} `{Countable FP}.

Lemma standardID_exec (f : FingerprintsManager ID FP P) op :
  standardID (fpExec f op).1 = standardID f.
Proof.
  destruct op as [cid fp p|cid fp|cid fp|cid]; simpl; unfold AddFingerprint, fm_pop, DeleteFingerprint;
    repeat case_match; simplify_eq/=; done.
Qed.

Lemma fp_exec_refines (f : FingerprintsManager ID FP P) (A : gmap (ID * FP) P) op :
  fm_rep f A ->
  fm_rep (fpExec f op).1 (fpSpec (standardID f) A op).1 /\
  (fpExec f op).2 = (fpSpec (standardID f) A op).2.
Proof.
  intros Hrep. destruct op as [cid fp p|cid fp|cid fp|cid]; cbn [fpExec fpSpec].
  - pose proof (add_refines f A cid fp p Hrep) as Hadd. cbv zeta in Hadd.
    destruct (AddFingerprint f cid fp p) as [f' e]. destruct Hadd as [Hrep' ->].
    by destruct (A !! _).
  - pose proof (pop_refines f A cid fp Hrep) as [Hrep' Hp]. by destruct (fm_pop f cid fp); simplify_eq/=.
  - split; [|done]. by apply delete_refines.
  - split; [|done]. by apply delete_client_refines.
Qed.

Lemma fp_run_refines (f : FingerprintsManager ID FP P) (A : gmap (ID * FP) P) ops :
  fm_rep f A ->
  fm_rep (fpRun f ops).1 (fpSpecRun (standardID f) A ops).1 /\
  (fpRun f ops).2 = (fpSpecRun (standardID f) A ops).2.
Proof.
  revert f A. induction ops as [|op ops IH]; intros f A Hrep; [done|]. cbn [fpRun fpSpecRun].
  destruct (fp_exec_refines f A op Hrep) as [Hrep1 Ho]. pose proof (standardID_exec f op) as Hstd.
  destruct (fpExec f op) as [f1 o1], (fpSpec (standardID f) A op) as [A1 o1']. simpl in *. subst o1'.
  destruct (IH f1 A1 Hrep1) as [Hrep2 Hos]. rewrite Hstd in Hrep2, Hos.
  destruct (fpRun f1 ops) as [f2 os], (fpSpecRun (standardID f) A1 ops) as [A2 os']. simpl in *.
  by subst.
Qed.

(** One step of the contract: what is there and was used is covered by what was
    there and was added. *)
Lemma spec_uses (std : ID) (A : gmap (ID * FP) P) op (cid : ID) (fp : FP) :
  let '(A', o) := fpSpec std A op in
  Z.b2z (isUse cid fp (op, o)) + Z.b2z (bool_decide (is_Some (A' !! (cid, fp))))
  <= Z.b2z (isAdd std cid fp (op, o)) + Z.b2z (bool_decide (is_Some (A !! (cid, fp)))).
Proof.
  assert (forall (A' : gmap (ID * FP) P), (is_Some (A' !! (cid, fp)) -> is_Some (A !! (cid, fp))) ->
    Z.b2z (bool_decide (is_Some (A' !! (cid, fp)))) <= Z.b2z (bool_decide (is_Some (A !! (cid, fp)))))
    as Hmono by (intros A' Himp; repeat case_bool_decide; simpl; lia || tauto).
  destruct op as [c f p|c f|c f|c]; cbn [fpSpec isUse isAdd].
  - destruct (A !! (default std c, f)) as [q|] eqn:E; [simpl; lia|].
    destruct (decide ((default std c, f) = (cid, fp))) as [Heq|Hne].
    + rewrite Heq, lookup_insert_eq. rewrite Heq in E. rewrite E.
      rewrite (bool_decide_true (is_Some (Some p))) by eauto. rewrite (bool_decide_true (_ = _)) by done.
      rewrite (bool_decide_false (is_Some None)) by (by intros []). simpl. lia.
    + rewrite lookup_insert_ne by done. rewrite (bool_decide_false (_ = _)) by done. simpl. lia.
  - destruct (decide ((c, f) = (cid, fp))) as [[= -> ->]|Hne].
    + rewrite lookup_delete_eq. rewrite (bool_decide_false (is_Some None)) by (by intros []).
      destruct (A !! (cid, fp)) as [p|] eqn:E; [|simpl; lia].
      rewrite (bool_decide_true (is_Some (Some p))) by eauto. by rewrite (bool_decide_true (_ = _)).
    + rewrite lookup_delete_ne by done.
      destruct (A !! (c, f)); [rewrite (bool_decide_false (_ = _)) by done|]; simpl; lia.
  - apply Hmono. intros [x Hx]. apply lookup_delete_Some in Hx as []. by eexists.
  - apply Hmono. intros [x Hx]. apply map_lookup_filter_Some in Hx as []. by eexists.
Qed.

Lemma spec_run_uses (std : ID) (A : gmap (ID * FP) P) ops (cid : ID) (fp : FP) :
  count (isUse cid fp) (zip ops (fpSpecRun std A ops).2)
  <= count (isAdd std cid fp) (zip ops (fpSpecRun std A ops).2)
     + Z.b2z (bool_decide (is_Some (A !! (cid, fp)))).
Proof.
  revert A. induction ops as [|op ops IH]; intros A; [simpl; destruct (bool_decide _); simpl; lia|].
  cbn [fpSpecRun]. pose proof (spec_uses std A op cid fp) as Hstep.
  destruct (fpSpec std A op) as [A1 o]. specialize (IH A1).
  destruct (fpSpecRun std A1 ops) as [A2 os]. simpl in *. lia.
Qed.

(** C28: In any sequence of registrations, uses and deletions, the manager answers
    as one map from identity and fingerprint to processor: a registered pair is
    refused a second time, a use gives the registered processor and takes it
    out.  In particular no fingerprint is used more often than it was
    registered. *)
Theorem fingerprints_used_once (std : ID) (ops : list (fpOp ID FP P)) :
  (fpRun (newFingerprints std) ops).2 = (fpSpecRun std ∅ ops).2 /\
  forall cid fp,
    count (isUse cid fp) (zip ops (fpRun (newFingerprints std) ops).2)
    <= count (isAdd std cid fp) (zip ops (fpRun (newFingerprints std) ops).2).
Proof.
  destruct (fp_run_refines _ _ ops (fp_new_refines std)) as [_ Hos]. split; [done|]. intros cid fp.
  pose proof (spec_run_uses std ∅ ops cid fp) as Huse. rewrite Hos. simpl in *.
  rewrite lookup_empty, (bool_decide_false (is_Some None)) in Huse by (by intros []). simpl in Huse. lia.
Qed.
End theorem.
