(* ===== verification/Services.v ===== *)
(** * Services

    [cmix/message/services.go], [serviceInterface.go], [serviceTracker.go] and
    [fallthrough.go]: processors for messages that no fingerprint identifies.
    Every message carries a hash that depends on its contents and on the
    preimage of the service it is for; the client tries the preimages of its
    services.  The hashes are those of [sih], outside this repository: the
    class [Sih]. *)

From S2P Require Import Prelude GoBytes.

Class Sih (ID Preimage : Type) := {
  sih_Default : string;
  MakePreimage : list byte -> string -> Preimage;
  sih_ForMe : Preimage -> list byte -> list byte -> bool;      (* preimage, contents, hash *)
  (* pickup, contents, identifier, tags, hash: the matched tags, the metadata
     and whether the message is for the service; an error is logged and
     answered with what was found *)
  EvaluateCompressedSIH : ID -> list byte -> list byte -> list string -> list byte ->
    list string * list byte * bool;
}.

Record Service := mkService {
  sv_Identifier : list byte;
  sv_Tag : string;
  sv_Metadata : list byte;
}.

Record CompressedService := mkCompressedService {
  cs_Identifier : list byte;
  cs_Tags : list string;
  cs_Metadata : list byte;
}.

(** [service]: an entry of the map.  The processor may be nil, and so may the
    list of default processors. *)
Record service (P : Type) := mkServiceEntry {
  se_Service : Service;
  se_Processor : option P;
  se_defaultList : option (list P);
}.
Arguments mkServiceEntry {P}.
Arguments se_Service {P}.
Arguments se_Processor {P}.
Arguments se_defaultList {P}.

Record compressedService (P : Type) := mkCompressedEntry {
  ce_Service : CompressedService;
  ce_Processor : option P;
}.
Arguments mkCompressedEntry {P}.
Arguments ce_Service {P}.
Arguments ce_Processor {P}.

Section types.
Context (ID Preimage P : Type) `{Countable ID} `{Countable Preimage}.

Abbreviation serviceMap := (gmap ID (gmap Preimage (service P))).
Abbreviation compressedMap := (gmap ID (gmap Preimage (compressedService P))).

(** A tracker is a callback: the number of them and what they were last
    called with are the tracked state. *)
Record ServicesManager := mkServicesManager {
  sm_services : serviceMap;
  sm_compressedServices : compressedMap;
  sm_trackers : nat;
  sm_numServices : Z;
  sm_sl : gmap ID (list Service);
  sm_csl : gmap ID (list CompressedService);
}.
End types.
Arguments mkServicesManager {ID Preimage P _ _ _ _}.
Arguments sm_services {ID Preimage P _ _ _ _}.
Arguments sm_compressedServices {ID Preimage P _ _ _ _}.
Arguments sm_trackers {ID Preimage P _ _ _ _}.
Arguments sm_numServices {ID Preimage P _ _ _ _}.
Arguments sm_sl {ID Preimage P _ _ _ _}.
Arguments sm_csl {ID Preimage P _ _ _ _}.

Section code.
Context {ID Preimage P : Type} `{Countable ID} `{Countable Preimage} `{EqDecision P}.
Context `{Sih ID Preimage}.
Context (idBytes : ID -> list byte).
(** Iteration order of the two kinds of maps. *)
Context (iterS : gmap Preimage (service P) -> list Preimage).
Context (iterC : gmap Preimage (compressedService P) -> list Preimage).

Abbreviation manager := (ServicesManager ID Preimage P).

(** The receiver is a copy, so the lazily evaluated field is never kept. *)
Definition Service_preimage (s : Service) : Preimage := MakePreimage (sv_Identifier s) (sv_Tag s).
Definition Service_ForMe (s : Service) (contents hash : list byte) : bool :=
  sih_ForMe (Service_preimage s) contents hash.
Definition CompressedService_preimage (s : CompressedService) : Preimage :=
  MakePreimage (cs_Identifier s) "compressed".
Definition CompressedService_ForMe (s : CompressedService) (pickup : ID) (contents hash : list byte) :
    list string * bool * list byte :=
  let '(tags, metadata, found) :=
    EvaluateCompressedSIH pickup contents (cs_Identifier s) (cs_Tags s) hash in
  (tags, found, metadata).

Definition GetDefaultService (recipient : ID) : Service :=
  mkService (idBytes recipient) sih_Default (idBytes recipient).

Definition NewServices : manager := mkServicesManager ∅ ∅ 0 0 ∅ ∅.

(** Processors, tags, metadata and whether the message is for the client. *)
Definition found : Type := list (option P) * list string * list byte * bool.

(** The values of a map in iteration order. *)
Definition entries {V} (iter : gmap Preimage V -> list Preimage) (m : gmap Preimage V) : list V :=
  omap (fun k => m !! k) (iter m).

(** The first loop of [get]; [None] when no service matches. *)
Fixpoint matchService (contents hash : list byte) (l : list (service P)) : option found :=
  match l with
  | [] => None
  | s :: l =>
      if Service_ForMe (se_Service s) contents hash then
        match se_defaultList s with
        | None =>
            if String.eqb (sv_Tag (se_Service s)) sih_Default then Some ([], [], [], false)
            else match se_Processor s with
                 | None => Some ([], [], [], true)
                 | Some p => Some ([Some p], [sv_Tag (se_Service s)], sv_Metadata (se_Service s), true)
                 end
        | Some ps => Some (Some <$> ps, [sih_Default], [], true)
        end
      else matchService contents hash l
  end.

(** The second loop. *)
Fixpoint matchCompressed (clientID : ID) (contents hash : list byte)
    (l : list (compressedService P)) : option found :=
  match l with
  | [] => None
  | c :: l =>
      let '(tags, forMe, metadata) := CompressedService_ForMe (ce_Service c) clientID contents hash in
      if forMe then Some ([ce_Processor c], tags, metadata, true)
      else matchCompressed clientID contents hash l
  end.

Definition sm_get (sm : manager) (cid : ID) (receivedSIH contents : list byte) : found :=
  match matchService contents receivedSIH (entries iterS (default ∅ (sm_services sm !! cid))) with
  | Some r => r
  | None =>
      match matchCompressed cid contents receivedSIH
              (entries iterC (default ∅ (sm_compressedServices sm !! cid))) with
      | Some r => r
      | None => ([], [], [], false)
      end
  end.

(** The service lists that the trackers are called with. *)
Definition makeServiceList (m : gmap ID (gmap Preimage (service P))) : gmap ID (list Service) :=
  (fun sMap => se_Service <$> entries iterS sMap) <$> m.
Definition makeCompressedServiceList (m : gmap ID (gmap Preimage (compressedService P))) :
    gmap ID (list CompressedService) :=
  (fun sMap => ce_Service <$> entries iterC sMap) <$> m.

Definition triggerServiceTracking (sm : manager) : manager :=
  if (sm_trackers sm =? 0)%nat then sm
  else mkServicesManager (sm_services sm) (sm_compressedServices sm) (sm_trackers sm)
         (sm_numServices sm) (makeServiceList (sm_services sm))
         (makeCompressedServiceList (sm_compressedServices sm)).

Definition TrackServices (sm : manager) (tracker : bool) : manager :=
  if tracker then mkServicesManager (sm_services sm) (sm_compressedServices sm)
                    (S (sm_trackers sm)) (sm_numServices sm) (sm_sl sm) (sm_csl sm)
  else sm.

Definition GetServices (sm : manager) : gmap ID (list Service) * gmap ID (list CompressedService) :=
  (sm_sl sm, sm_csl sm).

Definition sm_setServices (sm : manager) (m : gmap ID (gmap Preimage (service P))) (n : Z) : manager :=
  mkServicesManager m (sm_compressedServices sm) (sm_trackers sm) n (sm_sl sm) (sm_csl sm).
Definition sm_setCompressed (sm : manager) (m : gmap ID (gmap Preimage (compressedService P))) (n : Z) :
    manager :=
  mkServicesManager (sm_services sm) m (sm_trackers sm) n (sm_sl sm) (sm_csl sm).

(** The entry of a default service that exists is taken before its list grows,
    so the new processor is lost. *)
Definition AddService (sm : manager) (clientID : ID) (newService : Service) (response : option P) :
    result manager :=
  let newEntry := mkServiceEntry newService response None in
  let idMap := default ∅ (sm_services sm !! clientID) in
  let old := idMap !! Service_preimage newService in
  newEntry ← (if String.eqb (sv_Tag newService) sih_Default then
      if bool_decide (sv_Identifier newService = idBytes clientID) then
        match old with
        | Some oldDefault => Ok oldDefault
        | None => Ok (mkServiceEntry (mkService (sv_Identifier newService) (sv_Tag newService)
                        (idBytes clientID)) response None)
        end
      else Panic
    else match old with
         | Some _ => Panic
         | None => Ok newEntry
         end);
  Ok (triggerServiceTracking (sm_setServices sm
        (<[clientID := <[Service_preimage newService := newEntry]> idMap]> (sm_services sm))
        (u64 (sm_numServices sm + 1)))).

Definition UpsertCompressedService (sm : manager) (clientID : ID) (newService : CompressedService)
    (response : option P) : manager :=
  let idMap := default ∅ (sm_compressedServices sm !! clientID) in
  let k := CompressedService_preimage newService in
  let n := match idMap !! k with Some _ => sm_numServices sm | None => u64 (sm_numServices sm + 1) end in
  triggerServiceTracking (sm_setCompressed sm
    (<[clientID := <[k := mkCompressedEntry newService response]> idMap]> (sm_compressedServices sm)) n).

(** The place of a processor in the list. *)
Fixpoint removeProcessor (p : option P) (l : list P) : option (list P) :=
  match l with
  | [] => None
  | q :: l => if bool_decide (p = Some q) then Some l else cons q <$> removeProcessor p l
  end.

Definition DeleteService (sm : manager) (cid : ID) (toDelete : Service) (processor : option P) : manager :=
  match sm_services sm !! cid with
  | None => sm
  | Some idSMap =>
      match idSMap !! Service_preimage toDelete with
      | None => sm
      | Some e =>
          let shorter := match se_defaultList e with
                         | Some l => if (1 <? length l)%nat then removeProcessor processor l else None
                         | None => None
                         end in
          match shorter with
          | Some l =>
              sm_setServices sm (<[cid := <[Service_preimage toDelete :=
                mkServiceEntry (se_Service e) (se_Processor e) (Some l)]> idSMap]> (sm_services sm))
                (sm_numServices sm)
          | None =>
              triggerServiceTracking (sm_setServices sm
                (<[cid := delete (Service_preimage toDelete) idSMap]> (sm_services sm))
                (u64 (sm_numServices sm - 1)))
          end
      end
  end.

Definition DeleteCompressedService (sm : manager) (cid : ID) (toDelete : CompressedService) : manager :=
  match sm_compressedServices sm !! cid with
  | None => sm
  | Some idSMap =>
      match idSMap !! CompressedService_preimage toDelete with
      | None => sm
      | Some _ =>
          triggerServiceTracking (sm_setCompressed sm
            (<[cid := delete (CompressedService_preimage toDelete) idSMap]> (sm_compressedServices sm))
            (u64 (sm_numServices sm - 1)))
      end
  end.

Definition DeleteClientService (sm : manager) (cid : ID) : manager :=
  mkServicesManager (delete cid (sm_services sm)) (delete cid (sm_compressedServices sm))
    (sm_trackers sm) (sm_numServices sm) (sm_sl sm) (sm_csl sm).

(** ** Fallthrough: the processor of whatever nothing else takes *)

Definition FallthroughManager : Type := gmap ID P.
Definition newFallthroughManager : FallthroughManager := ∅.
Definition AddFallthrough (f : FallthroughManager) (c : ID) (p : P) : FallthroughManager := <[c := p]> f.
Definition RemoveFallthrough (f : FallthroughManager) (c : ID) : FallthroughManager := delete c f.
Definition getFallthrough (f : FallthroughManager) (c : ID) : option P := f !! c.
End code.

(** ** Reachable managers *)

Section reachable.
Context {ID Preimage P : Type} `{Countable ID} `{Countable Preimage} `{EqDecision P}.
Context `{Sih ID Preimage} (idBytes : ID -> list byte).
Context (iterS : gmap Preimage (service P) -> list Preimage) {orderS : MapOrder iterS}.
Context (iterC : gmap Preimage (compressedService P) -> list Preimage) {orderC : MapOrder iterC}.

Abbreviation manager := (ServicesManager ID Preimage P).

(** The operations on services; a panic has no successor. *)
Inductive smStep : manager -> manager -> Prop :=
| smAdd sm cid s p sm' : AddService idBytes iterS iterC sm cid s p = Ok sm' -> smStep sm sm'
| smUpsert sm cid c p : smStep sm (UpsertCompressedService iterS iterC sm cid c p)
| smDelete sm cid s p : smStep sm (DeleteService iterS iterC sm cid s p)
| smDeleteCompressed sm cid c : smStep sm (DeleteCompressedService iterS iterC sm cid c)
| smDeleteClient sm cid : smStep sm (DeleteClientService sm cid)
| smTrack sm t : smStep sm (TrackServices sm t).

(** A registered service is stored under its preimage, and no list of default
    processors ever exists. *)
Definition entry_ok (k : Preimage) (e : service P) : Prop :=
  k = Service_preimage (se_Service e) /\ se_defaultList e = None.

Definition sm_inv (sm : manager) : Prop :=
  (forall cid m k e, sm_services sm !! cid = Some m -> m !! k = Some e -> entry_ok k e) /\
  (forall cid m k e, sm_compressedServices sm !! cid = Some m -> m !! k = Some e ->
    k = CompressedService_preimage (ce_Service e)).

Lemma trigger_services (sm : manager) :
  sm_services (triggerServiceTracking iterS iterC sm) = sm_services sm /\
  sm_compressedServices (triggerServiceTracking iterS iterC sm) = sm_compressedServices sm.
Proof. unfold triggerServiceTracking. by case_match. Qed.

Lemma inv_trigger (sm : manager) : sm_inv sm -> sm_inv (triggerServiceTracking iterS iterC sm).
Proof. unfold sm_inv. by destruct (trigger_services sm) as [-> ->]. Qed.

Lemma inv_services (sm : manager) cid m' n :
  sm_inv sm -> (forall k e, m' !! k = Some e -> entry_ok k e) ->
  sm_inv (sm_setServices sm (<[cid := m']> (sm_services sm)) n).
Proof.
  intros [Hs Hc] Hm. split; [|exact Hc]. intros c m k e Hl. cbn [sm_services sm_setServices] in Hl.
  apply lookup_insert_Some in Hl as [[<- <-]|[_ Hl]]; [apply Hm|by eapply Hs].
Qed.

Lemma inv_compressed (sm : manager) cid m' n :
  sm_inv sm -> (forall k e, m' !! k = Some e -> k = CompressedService_preimage (ce_Service e)) ->
  sm_inv (sm_setCompressed sm (<[cid := m']> (sm_compressedServices sm)) n).
Proof.
  intros [Hs Hc] Hm. split; [exact Hs|]. intros c m k e Hl.
  cbn [sm_compressedServices sm_setCompressed] in Hl.
  apply lookup_insert_Some in Hl as [[<- <-]|[_ Hl]]; [apply Hm|by eapply Hc].
Qed.

(** The map of one identity, present or not. *)
Lemma inv_at (sm : manager) cid k e :
  sm_inv sm -> default ∅ (sm_services sm !! cid) !! k = Some e -> entry_ok k e.
Proof.
  intros [Hs _] He. destruct (sm_services sm !! cid) as [m|] eqn:E; simpl in He; [by eapply Hs|].
  by rewrite lookup_empty in He.
Qed.

Lemma inv_at_compressed (sm : manager) cid k e :
  sm_inv sm -> default ∅ (sm_compressedServices sm !! cid) !! k = Some e ->
  k = CompressedService_preimage (ce_Service e).
Proof.
  intros [_ Hc] He. destruct (sm_compressedServices sm !! cid) as [m|] eqn:E; simpl in He; [by eapply Hc|].
  by rewrite lookup_empty in He.
Qed.

Lemma AddService_inv (sm : manager) cid s p sm' :
  sm_inv sm -> AddService idBytes iterS iterC sm cid s p = Ok sm' -> sm_inv sm'.
Proof.
  intros Hinv. unfold AddService. intros Hadd. apply bind_Ok in Hadd as (e & He & [= <-]).
  apply inv_trigger, inv_services; [done|]. intros k e' Hk.
  apply lookup_insert_Some in Hk as [[<- <-]|[_ Hk]]; [|by eapply inv_at].
  repeat case_match; simplify_eq; try done. by eapply inv_at.
Qed.

Lemma DeleteService_inv (sm : manager) cid s p : sm_inv sm -> sm_inv (DeleteService iterS iterC sm cid s p).
Proof.
  intros Hinv. unfold DeleteService. destruct (sm_services sm !! cid) as [m|] eqn:Em; [|done].
  destruct (m !! Service_preimage s) as [e|] eqn:Ee; [|done].
  destruct (proj1 Hinv _ _ _ _ Em Ee) as [_ ->].
  apply inv_trigger, inv_services; [done|]. intros k e' [_ Hk]%lookup_delete_Some.
  by eapply (proj1 Hinv).
Qed.

Lemma step_inv (sm sm' : manager) : smStep sm sm' -> sm_inv sm -> sm_inv sm'.
Proof.
  intros [sm0 cid s p sm1 Hadd|sm0 cid c p|sm0 cid s p|sm0 cid c|sm0 cid|sm0 t] Hinv.
  - by eapply AddService_inv.
  - unfold UpsertCompressedService. apply inv_trigger, inv_compressed; [done|]. intros k e Hk.
    apply lookup_insert_Some in Hk as [[<- <-]|[_ Hk]]; [done|by eapply inv_at_compressed].
  - by apply DeleteService_inv.
  - unfold DeleteCompressedService. destruct (sm_compressedServices sm0 !! cid) as [m|] eqn:Em; [|done].
    case_match; [|done]. apply inv_trigger, inv_compressed; [done|].
    intros k e' [_ Hk]%lookup_delete_Some. by eapply (proj2 Hinv).
  - split; cbn; intros c m k e [_ Hm]%lookup_delete_Some; [by eapply (proj1 Hinv)|by eapply (proj2 Hinv)].
  - unfold TrackServices. by destruct t.
Qed.

Lemma reachable_sm_inv (sm : manager) : star smStep (NewServices (P := P)) sm -> sm_inv sm.
Proof.
  intros Hstar. eapply (star_invariant smStep sm_inv); [|exact Hstar|].
  - intros. by eapply step_inv.
  - split; cbn; intros c m k e; by rewrite lookup_empty.
Qed.

(** ** What [get] finds *)

Lemma elem_entries {V} (iter : gmap Preimage V -> list Preimage) `{!MapOrder iter} (m : gmap Preimage V) v :
  v ∈ entries iter m <-> exists k, m !! k = Some v.
Proof.
  unfold entries. rewrite list_elem_of_omap. split.
  - intros (k & _ & Hk). by exists k.
  - intros [k Hk]. exists k. split; [|done]. apply map_order_elem. by exists v.
Qed.

(** The answer for one entry. *)
Definition answer (e : service P) : found :=
  if String.eqb (sv_Tag (se_Service e)) sih_Default then ([], [], [], false)
  else match se_Processor e with
       | None => ([], [], [], true)
       | Some p => ([Some p], [sv_Tag (se_Service e)], sv_Metadata (se_Service e), true)
       end.

Lemma matchService_spec contents hash (l : list (service P)) :
  (forall e, e ∈ l -> se_defaultList e = None) ->
  match matchService contents hash l with
  | Some r => exists e, e ∈ l /\ Service_ForMe (se_Service e) contents hash = true /\ r = answer e
  | None => forall e, e ∈ l -> Service_ForMe (se_Service e) contents hash = false
  end.
Proof.
  induction l as [|e l IH]; intros Hd; cbn [matchService]; [by intros e He%elem_of_nil|].
  destruct (Service_ForMe (se_Service e) contents hash) eqn:E.
  - rewrite (Hd e) by (by left).
    assert (exists e0, e0 ∈ e :: l /\ Service_ForMe (se_Service e0) contents hash = true /\
      answer e = answer e0) as Hex by (exists e; split; [by left|done]).
    unfold answer at 1 in Hex. by destruct (String.eqb _ _), (se_Processor e).
  - assert (forall e', e' ∈ l -> se_defaultList e' = None) as Hd' by (intros; apply Hd; by right).
    specialize (IH Hd'). case_match.
    + destruct IH as (e' & Hin & HF & ->). exists e'. split; [by right|done].
    + intros e' [->|He']%elem_of_cons; [done|by apply IH].
Qed.

Lemma matchCompressed_spec cid contents hash (l : list (compressedService P)) :
  match matchCompressed cid contents hash l with
  | Some r => exists c tags md, c ∈ l /\
      CompressedService_ForMe (ce_Service c) cid contents hash = (tags, true, md) /\
      r = ([ce_Processor c], tags, md, true)
  | None => forall c, c ∈ l -> (CompressedService_ForMe (ce_Service c) cid contents hash).1.2 = false
  end.
Proof.
  induction l as [|c l IH]; cbn [matchCompressed]; [by intros e He%elem_of_nil|].
  destruct (CompressedService_ForMe (ce_Service c) cid contents hash) as [[tags forMe] md] eqn:E.
  destruct forMe.
  - exists c, tags, md. split; [by left|done].
  - case_match.
    + destruct IH as (c' & t' & md' & Hin & HF & ->). exists c', t', md'. split; [by right|done].
    + intros c' [->|Hc']%elem_of_cons; [by rewrite E|by apply IH].
Qed.

(** The services and compressed services registered for an identity. *)
Definition registered (sm : manager) (cid : ID) (e : service P) : Prop :=
  exists k, default ∅ (sm_services sm !! cid) !! k = Some e.
Definition registeredC (sm : manager) (cid : ID) (c : compressedService P) : Prop :=
  exists k, default ∅ (sm_compressedServices sm !! cid) !! k = Some c.

Lemma sm_get_spec (sm : manager) cid hash contents :
  sm_inv sm ->
  (exists e, registered sm cid e /\ Service_ForMe (se_Service e) contents hash = true /\
     sm_get iterS iterC sm cid hash contents = answer e) \/
  ((forall e, registered sm cid e -> Service_ForMe (se_Service e) contents hash = false) /\
   ((exists c tags md, registeredC sm cid c /\
       CompressedService_ForMe (ce_Service c) cid contents hash = (tags, true, md) /\
       sm_get iterS iterC sm cid hash contents = ([ce_Processor c], tags, md, true)) \/
    ((forall c, registeredC sm cid c ->
        (CompressedService_ForMe (ce_Service c) cid contents hash).1.2 = false) /\
     sm_get iterS iterC sm cid hash contents = ([], [], [], false)))).
Proof.
  intros Hinv. unfold sm_get.
  pose proof (matchService_spec contents hash (entries iterS (default ∅ (sm_services sm !! cid)))) as Hs.
  pose proof (matchCompressed_spec cid contents hash
    (entries iterC (default ∅ (sm_compressedServices sm !! cid)))) as Hc.
  assert (forall e, e ∈ entries iterS (default ∅ (sm_services sm !! cid)) -> se_defaultList e = None) as Hd.
  { intros e [k Hk]%elem_entries; [|done]. by eapply inv_at. }
  specialize (Hs Hd). destruct (matchService _ _ _) as [r|].
  - left. destruct Hs as (e & He%elem_entries & HF & ->); [|done]. by exists e.
  - right. split; [intros e He; apply Hs; by apply elem_entries|].
    destruct (matchCompressed _ _ _ _) as [r|]; [left|right].
    + destruct Hc as (c & tags & md & Hin%elem_entries & HF & ->); [|done]. by exists c, tags, md.
    + split; [|done]. intros c Hin. apply Hc. by apply elem_entries.
Qed.
End reachable.

Section theorems.
Context {ID Preimage P : Type} `{Countable ID} `{Countable Preimage} `{EqDecision P}.
Context `{Sih ID Preimage} (idBytes : ID -> list byte).
Context (iterS : gmap Preimage (service P) -> list Preimage) {orderS : MapOrder iterS}.
Context (iterC : gmap Preimage (compressedService P) -> list Preimage) {orderC : MapOrder iterC}.

Abbreviation manager := (ServicesManager ID Preimage P).

(** The only service of the identity a message is for. *)
Definition onlyFor (sm : manager) (cid : ID) (contents hash : list byte) (e : service P) : Prop :=
  registered sm cid e /\ Service_ForMe (se_Service e) contents hash = true /\
  forall e', registered sm cid e' -> Service_ForMe (se_Service e') contents hash = true -> e' = e.

Lemma get_only (sm : manager) cid contents hash e :
  sm_inv sm -> onlyFor sm cid contents hash e -> sm_get iterS iterC sm cid hash contents = answer e.
Proof.
  intros Hinv (Hreg & HF & Huniq).
  destruct (sm_get_spec iterS iterC sm cid hash contents Hinv) as [(e' & Hr & HF' & ->)|[Hno _]].
  - by rewrite (Huniq e' Hr HF').
  - by rewrite (Hno e Hreg) in HF.
Qed.

(** Adding a service that is not a default one, under a key not in use: the
    identity's services are the old ones and the new one, those of the other
    identities and all the compressed ones are as before. *)
Lemma AddService_adds (sm : manager) cid s p :
  sv_Tag s ≠ sih_Default -> default ∅ (sm_services sm !! cid) !! Service_preimage s = None ->
  exists sm', AddService idBytes iterS iterC sm cid s p = Ok sm' /\
    (forall e, registered sm' cid e <-> e = mkServiceEntry s p None \/ registered sm cid e) /\
    (forall cid', cid' ≠ cid -> sm_services sm' !! cid' = sm_services sm !! cid') /\
    sm_compressedServices sm' = sm_compressedServices sm.
Proof.
  intros Htag Hnew. unfold AddService. rewrite (proj2 (String.eqb_neq _ _) Htag), Hnew.
  eexists. split; [reflexivity|]. unfold registered.
  rewrite (proj1 (trigger_services _ _ _)), (proj2 (trigger_services _ _ _)).
  cbn [sm_services sm_compressedServices sm_setServices]. split_and!; [|by intros; rewrite lookup_insert_ne|done].
  intros e. rewrite lookup_insert_eq. simpl. split.
  - intros [k [[_ <-]|[_ Hk]]%lookup_insert_Some]; [by left|right; by exists k].
  - intros [->|[k Hk]]; [exists (Service_preimage s); apply lookup_insert_eq|].
    exists k. rewrite lookup_insert_ne; [exact Hk|congruence].
Qed.

(** C30: In every reachable state, whatever the iteration order of the maps: adding
    a service that is not a default one and is not there yet succeeds.  Of the
    messages no earlier service of the identity is for, those the new service
    is for are then given to its processor with its tag and metadata, and the
    others to a matching compressed service, or to nothing when there is none.
    A message to any other identity is answered as before. *)
Theorem Services_get_exact (sm : manager) cid s p :
  star (smStep idBytes iterS iterC) NewServices sm ->
  sv_Tag s ≠ sih_Default -> default ∅ (sm_services sm !! cid) !! Service_preimage s = None ->
  exists sm', AddService idBytes iterS iterC sm cid s (Some p) = Ok sm' /\
    (forall contents hash,
     (forall e, registered sm cid e -> Service_ForMe (se_Service e) contents hash = false) ->
     if Service_ForMe s contents hash
     then sm_get iterS iterC sm' cid hash contents = ([Some p], [sv_Tag s], sv_Metadata s, true)
     else (exists c tags md, registeredC sm cid c /\
             CompressedService_ForMe (ce_Service c) cid contents hash = (tags, true, md) /\
             sm_get iterS iterC sm' cid hash contents = ([ce_Processor c], tags, md, true)) \/
          ((forall c, registeredC sm cid c ->
              (CompressedService_ForMe (ce_Service c) cid contents hash).1.2 = false) /\
           sm_get iterS iterC sm' cid hash contents = ([], [], [], false))) /\
    (forall cid' contents hash, cid' ≠ cid ->
     sm_get iterS iterC sm' cid' hash contents = sm_get iterS iterC sm cid' hash contents).
Proof.
  intros Hreach Htag Hnew.
  destruct (AddService_adds sm cid s (Some p) Htag Hnew) as (sm' & Hadd & Hreg & Hsv & Hcs).
  assert (sm_inv sm') as Hinv by (by eapply AddService_inv, Hadd; eapply reachable_sm_inv).
  exists sm'. split; [done|]. split.
  2: { intros cid' contents hash Hne. unfold sm_get. by rewrite Hsv, Hcs. }
  intros contents hash Hno. destruct (Service_ForMe s contents hash) eqn:HF.
  - rewrite (get_only sm' cid contents hash (mkServiceEntry s (Some p) None) Hinv).
    { unfold answer. cbn [se_Service se_Processor]. by rewrite (proj2 (String.eqb_neq _ _) Htag). }
    split_and!; [apply Hreg; by left|done|]. intros e [He|He]%Hreg HF'; [done|].
    by rewrite (Hno e He) in HF'.
  - assert (forall c, registeredC sm' cid c <-> registeredC sm cid c) as HC
      by (intros c; unfold registeredC; by rewrite Hcs).
    destruct (sm_get_spec iterS iterC sm' cid hash contents Hinv) as [(e & Hr & HF' & _)|[_ Hr]].
    { exfalso. apply Hreg in Hr as [->|Hr]; [|rewrite (Hno e Hr) in HF'; discriminate].
      cbn [se_Service] in HF'. congruence. }
    destruct Hr as [(c & tags & md & Hc & Hr)|[Hc Hr]].
    + left. exists c, tags, md. split; [by apply HC|exact Hr].
    + right. split; [|exact Hr]. intros c Hc'. by apply Hc, HC.
Qed.

(** Default services are never called: in every reachable state a message for
    a default service is answered as not being for the client, even though
    registering default services succeeds any number of times; no list of
    default processors is ever built. *)
Theorem default_services_ignored (sm : manager) cid p contents hash :
  star (smStep idBytes iterS iterC) NewServices sm ->
  exists sm' e, AddService idBytes iterS iterC sm cid (GetDefaultService idBytes cid) p = Ok sm' /\
    registered sm' cid e /\ Service_preimage (se_Service e) = Service_preimage (GetDefaultService idBytes cid) /\
    se_defaultList e = None /\
    (sv_Tag (se_Service e) = sih_Default -> onlyFor sm' cid contents hash e ->
     sm_get iterS iterC sm' cid hash contents = ([], [], [], false)).
Proof.
  intros Hreach. pose proof (reachable_sm_inv idBytes iterS iterC sm Hreach) as Hinv.
  set (d := GetDefaultService idBytes cid).
  assert (exists e sm', AddService idBytes iterS iterC sm cid d p = Ok sm' /\
    default ∅ (sm_services sm' !! cid) !! Service_preimage d = Some e) as (e & sm' & Hadd & He).
  { unfold AddService. assert (String.eqb (sv_Tag d) sih_Default = true) as -> by apply String.eqb_refl.
    rewrite bool_decide_true by done.
    destruct (default ∅ (sm_services sm !! cid) !! Service_preimage d) as [old|];
      cbn [mbind result_bind]; eexists _, _; (split; [done|]);
      rewrite (proj1 (trigger_services _ _ _)); cbn [sm_services sm_setServices];
      rewrite lookup_insert_eq; simpl; by rewrite lookup_insert_eq. }
  assert (sm_inv sm') as Hinv' by (by eapply AddService_inv).
  destruct (inv_at sm' cid _ e Hinv' He) as [Hk Hd].
  exists sm', e. split_and!; [done|by eexists|done|done|].
  intros Htag Honly. rewrite (get_only _ _ _ _ _ Hinv' Honly). unfold answer.
  by rewrite Htag, String.eqb_refl.
Qed.
End theorems.

(** ** An instance: the preimage is the pair, and a message is for the service
    whose identifier is its hash *)

Module SihExample.
#[export] Instance ex_sih : Sih Z (list byte * string) := {
  sih_Default := "default";
  MakePreimage i t := (i, t);
  sih_ForMe p _ h := bool_decide (p.1 = h);
  EvaluateCompressedSIH _ _ _ _ _ := ([], [], false);
}.
Definition ex_idBytes (z : Z) : list byte := [byte_of_Z z].
Definition ex_service : Service := mkService [x07] "chat" [x01; x02].
Abbreviation ex_orderS := (keysInOrder (K := list byte * string) (V := service Z)).
Abbreviation ex_orderC := (keysInOrder (K := list byte * string) (V := compressedService Z)).
End SihExample.
Import SihExample.

Lemma Services_get_exact_witness :
  exists sm', AddService ex_idBytes ex_orderS ex_orderC NewServices 3 ex_service (Some 5) = Ok sm' /\
    sm_get ex_orderS ex_orderC sm' 3 [x07] [] = ([Some 5], ["chat"], [x01; x02], true) /\
    sm_get ex_orderS ex_orderC sm' 3 [x08] [] = ([], [], [], false) /\
    sm_get ex_orderS ex_orderC sm' 4 [x07] [] = ([], [], [], false).
Proof.
  destruct (Services_get_exact ex_idBytes ex_orderS ex_orderC NewServices 3 ex_service 5)
    as (sm' & Hadd & Hget & Hother); [constructor|done|done|].
  assert (forall e, ~ registered (Preimage := list byte * string) (P := Z) NewServices 3 e) as Hnone by by intros e [k Hk].
  exists sm'. split; [exact Hadd|]. split; [|split].
  - apply (Hget [] [x07]). intros e He. by apply Hnone in He.
  - destruct (Hget [] [x08]) as [(c & tags & md & [k Hk] & _)|[_ Hr]]; [|discriminate Hk|exact Hr].
    intros e He. by apply Hnone in He.
  - by rewrite Hother.
Defined.

Lemma default_services_ignored_witness :
  exists sm' e, AddService ex_idBytes ex_orderS ex_orderC NewServices 3 (GetDefaultService ex_idBytes 3)
      (Some 5) = Ok sm' /\ registered sm' 3 e /\
    sm_get ex_orderS ex_orderC sm' 3 [x03] [] = ([], [], [], false).
Proof.
  destruct (default_services_ignored ex_idBytes ex_orderS ex_orderC NewServices 3 (Some 5) [] [x03])
    as (sm' & e & Hadd & Hreg & _ & _ & Hget); [constructor|].
  assert (default ∅ (sm_services sm' !! 3) =
    {[ ([x03], "default") := mkServiceEntry (mkService [x03] "default" [x03]) (Some 5) None ]}) as Hm
    by (injection Hadd as <-; reflexivity).
  exists sm', e. split; [exact Hadd|]. split; [exact Hreg|]. unfold onlyFor, registered in *.
  rewrite Hm in *. destruct Hreg as [k Hk]. pose proof Hk as [_ <-]%lookup_singleton_Some.
  apply Hget; [done|]. split; [by exists k|]. split; [done|].
  by intros e' [k' [_ <-]%lookup_singleton_Some] _.
Defined.
