(* ===== verification/MeteredBuffer.v ===== *)
(** * The buffer of messages in process

    [cmix/message/meteredCmixMessageBuffer.go]: the message buffer for raw cMix
    messages, which counts how often a message was handed out again.  The
    message format, the round information and the identity come from packages
    outside this repository: the class [CmixFormats]. *)

From S2P Require Import Prelude GoBytes KV Base64 Json Effects FtCypher MessageBuffer.

Class CmixFormats (Msg RI Ident : Type) := {
  msg_Marshal : Msg -> list byte;
  msg_Unmarshal : list byte -> option Msg;
  msg_GetPrimeByteLen : Msg -> Z;
  ri_Marshal : RI -> option (list byte);            (* proto.Marshal *)
  ri_Unmarshal : list byte -> option RI;
  ri_Timestamps : RI -> list Z;                     (* uint64 *)
  states_QUEUED : Z;
  blake2b_256 : list byte -> list byte;
  ident_codec :: JsonCodec Ident;
}.

Class CmixFormatsLaws (Msg RI Ident : Type) `{CmixFormats Msg RI Ident} : Prop := {
  msg_roundtrip m : msg_Unmarshal (msg_Marshal m) = Some m;
  ri_roundtrip r b : ri_Marshal r = Some b -> ri_Unmarshal b = Some r;
  ident_ok (i : Ident) : json_ok i;
  blake2b_length b : length (blake2b_256 b) = 32%nat;
}.

Record meteredCmixMessage := mkMetered {
  mm_M : list byte;
  mm_Ri : list byte;
  mm_Identity : list byte;
  mm_Count : Z;                   (* uint *)
  mm_Timestamp : Time;
}.

Definition mm_setCount (m : meteredCmixMessage) (c : Z) : meteredCmixMessage :=
  mkMetered (mm_M m) (mm_Ri m) (mm_Identity m) c (mm_Timestamp m).

(** JSON represents a message whose counter and time are in range. *)
Definition metered_ok (m : meteredCmixMessage) : Prop :=
  is_u 64 (mm_Count m) /\ - 2 ^ 63 <= mm_Timestamp m < 2 ^ 63.
Class MeteredJson `{JsonCodec meteredCmixMessage} : Prop :=
  metered_json m : metered_ok m -> json_ok m.

Section handler.
Context {S Msg RI Ident : Type} `{EKV S} `{CmixFormats Msg RI Ident} `{JsonCodec meteredCmixMessage}.

Definition metered_SaveMessage (v : kv) (m : meteredCmixMessage) (key : string) (now : Time) : act S unit :=
  write (fun s => kv_Set v s key (mkObject CurrentMessageBufferVersion now (json_Marshal m))).

Definition metered_LoadMessage (v : kv) (key : string) : act S meteredCmixMessage := fun s =>
  match kv_Get v s key CurrentMessageBufferVersion with
  | inl e => Fail s e
  | inr vo =>
      match json_Unmarshal (Data vo) with
      | Some m => Done s m
      | None => Fail s (Wrapf "Failed to unmarshal metered cmix message" [] (Errorf "json" []))
      end
  end.

Definition metered_DeleteMessage (v : kv) (key : string) : act S unit :=
  write (fun s => kv_Delete v s key CurrentMessageBufferVersion).

(** The first sixteen bytes of the hash of message, round and identity. *)
Definition metered_HashMessage (m : meteredCmixMessage) : MessageHash :=
  array_of 16 (blake2b_256 (mm_M m ++ mm_Ri m ++ mm_Identity m)).

#[export] Instance meteredCmixMessageHandler : MessageHandler S meteredCmixMessage := {
  SaveMessage := metered_SaveMessage;
  LoadMessage := metered_LoadMessage;
  DeleteMessage := metered_DeleteMessage;
  HashMessage := metered_HashMessage;
}.
End handler.

Section code.
Context {S Msg RI Ident : Type} `{EKV S} `{CmixFormats Msg RI Ident} `{JsonCodec meteredCmixMessage}.
Context `{JsonCodec (list MessageHash)} (iter : hashSet -> list MessageHash).

(** The wrapper keeps the buffer's own handle and key beside it. *)
Record MeteredCmixMessageBuffer := mkMeteredBuffer {
  mcmb_mb : MessageBuffer;
  mcmb_kv : kv;
  mcmb_key : string;
}.

(** A call on the wrapped buffer. *)
Definition onBuffer {A} (m : act (S * MessageBuffer) A) : act (S * MeteredCmixMessageBuffer) A :=
  zoom (fun '(s, b) => (s, mcmb_mb b))
       (fun '(s, mb) '(_, b) => (s, mkMeteredBuffer mb (mcmb_kv b) (mcmb_key b))) m.

Definition NewMeteredCmixMessageBuffer (v : kv) (key : string) (now : Time) :
    act S MeteredCmixMessageBuffer :=
  mb ← NewMessageBuffer iter v key now;
  mret (mkMeteredBuffer mb v key).

Definition LoadMeteredCmixMessageBuffer (v : kv) (key : string) : act S MeteredCmixMessageBuffer :=
  mb ← LoadMessageBuffer v key;
  mret (mkMeteredBuffer mb v key).

Definition NewOrLoadMeteredCmixMessageBuffer (v : kv) (key : string) (now : Time) :
    act S MeteredCmixMessageBuffer := fun s =>
  match LoadMessageBuffer v key s with
  | Done s mb => Done s (mkMeteredBuffer mb v key)
  | Fail s _ => NewMeteredCmixMessageBuffer v key now s
  | Crash => Crash
  end.

Definition buildMsg (m : Msg) (ri : RI) (identity : Ident) : result meteredCmixMessage :=
  if msg_GetPrimeByteLen m =? 0 then Panic
  else match ri_Marshal ri with
  | None => Panic
  | Some riMarshal =>
      ts ← index (ri_Timestamps ri) states_QUEUED;
      Ok (mkMetered (msg_Marshal m) riMarshal (json_Marshal identity) 0 (i64 ts))
  end.

Definition MeteredBuffer_Add (m : Msg) (ri : RI) (identity : Ident) (now : Time) :
    act (S * MeteredCmixMessageBuffer) (Z * Time) :=
  if msg_GetPrimeByteLen m =? 0 then crash
  else
    msg ← pureResult (buildMsg m ri identity);
    added ← onBuffer (MessageBuffer_Add iter msg now);
    mret (mm_Count added, mm_Timestamp added).

(** The type assertion panics on the empty struct the buffer answers for a
    message it already holds. *)
Definition MeteredBuffer_AddProcessing (m : Msg) (ri : RI) (identity : Ident) (now : Time) :
    act (S * MeteredCmixMessageBuffer) (Z * Time) :=
  if msg_GetPrimeByteLen m =? 0 then crash
  else
    msg ← pureResult (buildMsg m ri identity);
    added ← onBuffer (MessageBuffer_AddProcessing iter msg now);
    match added with
    | IMessage added => mret (mm_Count added, mm_Timestamp added)
    | IStruct => crash
    end.

Definition orPanic {A} (o : option A) : result A := match o with Some a => Ok a | None => Panic end.

(** [Next] in two parts.  The first, [mb.Next()], holds the lock of the buffer;
    the second, here, runs without it: the counter is incremented in the
    thread's copy of the message, the copy is saved over the stored one, and
    the message is decoded. *)
Definition MeteredBuffer_countNext (m : meteredCmixMessage) (now : Time) :
    act (S * MeteredCmixMessageBuffer) (Msg * RI * Ident) :=
  let msg := mm_setCount m (u64 (mm_Count m + 1)) in
  b ← gets snd;
  _ ← orCrash (onStore (metered_SaveMessage (mcmb_kv b) msg
        (MakeStoredMessageKey (mcmb_key b) (metered_HashMessage msg)) now));
  msfFormat ← pureResult (orPanic (msg_Unmarshal (mm_M msg)));
  ri ← pureResult (orPanic (ri_Unmarshal (mm_Ri msg)));
  identity ← pureResult (orPanic (json_Unmarshal (mm_Identity msg)));
  mret (msfFormat, ri, identity).

Definition MeteredBuffer_Next (now : Time) :
    act (S * MeteredCmixMessageBuffer) (option (Msg * RI * Ident)) :=
  m ← onBuffer (MessageBuffer_Next iter);
  match m with
  | None => mret None
  | Some m => x ← MeteredBuffer_countNext m now; mret (Some x)
  end.

Definition MeteredBuffer_Remove (m : Msg) (ri : RI) (identity : Ident) (now : Time) :
    act (S * MeteredCmixMessageBuffer) unit :=
  msg ← pureResult (buildMsg m ri identity);
  onBuffer (MessageBuffer_Succeeded iter msg now).

(** The message is built anew, with the counter at zero. *)
Definition MeteredBuffer_Failed (m : Msg) (ri : RI) (identity : Ident) (now : Time) :
    act (S * MeteredCmixMessageBuffer) unit :=
  msg ← pureResult (buildMsg m ri identity);
  onBuffer (MessageBuffer_Failed iter msg now).
End code.

(** ** The handler keeps its promises *)

Section laws.
Context {S Msg RI Ident : Type} `{EKVLaws S} {rel : EKVReliable S} `{CmixFormatsLaws Msg RI Ident}
  `{JsonCodec meteredCmixMessage} {mj : MeteredJson}.

#[export] Instance metered_laws : MessageHandlerLaws S meteredCmixMessage metered_ok.
Proof.
  split; simpl.
  - intros v m key now s Hok. unfold metered_SaveMessage.
    destruct (kv_Set_ok v s key (mkObject CurrentMessageBufferVersion now (json_Marshal m))) as [s' Hs'].
    exists s'. split; [by apply write_Done|]. split.
    + unfold metered_LoadMessage, CurrentMessageBufferVersion.
      rewrite (key_same v s s' key _ Hs' eq_refl). cbn [Data]. by rewrite (json_roundtrip _ (metered_json m Hok)).
    + intros key' Hne. by eapply key_other.
  - intros v key s s' m Heq. unfold metered_LoadMessage, CurrentMessageBufferVersion. rewrite Heq.
    destruct (kv_Get v s key 0) as [e|o]; [done|]. destruct (json_Unmarshal (Data o)); [|done].
    by intros [= ->].
  - intros v key s. unfold metered_DeleteMessage, CurrentMessageBufferVersion.
    destruct (kv_Delete_ok v s key 0) as [s' Hs']. exists s'.
    split; [by apply write_Done|]. intros key' Hne. by eapply delete_other.
  - intros m. apply length_array_of.
Qed.

(** A message of the buffer is what [buildMsg] made, up to its counter. *)
Definition genuine (m : meteredCmixMessage) (x : Msg * RI * Ident) : Prop :=
  buildMsg x.1.1 x.1.2 x.2 = Ok (mm_setCount m 0).

Lemma build_genuine x m : buildMsg x.1.1 x.1.2 x.2 = Ok m -> genuine m x /\ metered_ok m /\ mm_Count m = 0.
Proof.
  intros Hb. unfold genuine. rewrite Hb. unfold buildMsg in Hb. repeat case_match; simplify_eq.
  apply bind_Ok in Hb as (ts & Hts & [= <-]). split; [done|]. split; [|done].
  split; simpl; [unfold is_u; lia|]. zlia.
Qed.

Lemma hash_setCount m c : metered_HashMessage (mm_setCount m c) = metered_HashMessage m.
Proof. done. Qed.

Lemma genuine_setCount m x c : genuine m x -> genuine (mm_setCount m c) x.
Proof. done. Qed.

Lemma genuine_hash m x m' : genuine m x -> buildMsg x.1.1 x.1.2 x.2 = Ok m' ->
  metered_HashMessage m' = metered_HashMessage m.
Proof. unfold genuine. intros -> [= <-]. done. Qed.

Lemma genuine_reads m x : genuine m x ->
  msg_Unmarshal (mm_M m) = Some x.1.1 /\ ri_Unmarshal (mm_Ri m) = Some x.1.2 /\
  json_Unmarshal (mm_Identity m) = Some x.2.
Proof.
  destruct x as [[msg ri] i]. unfold genuine, buildMsg. simpl. intros Hb.
  destruct (_ =? 0); [done|]. destruct (ri_Marshal ri) as [rb|] eqn:Er; [|done].
  apply bind_Ok in Hb as (ts & _ & Heq). destruct m. simplify_eq/=.
  split_and!; [apply msg_roundtrip|by apply ri_roundtrip|apply json_roundtrip, ident_ok].
Qed.
End laws.

(** ** The buffer and its contract *)

(** Memory and storage hold [A], whose messages are genuine and stored under
    their own hash. *)
Record mcmb_rep {S Msg RI Ident} `{EKV S} `{CmixFormats Msg RI Ident} `{JsonCodec meteredCmixMessage}
    `{JsonCodec (list MessageHash)} (s : S) (b : MeteredCmixMessageBuffer)
    (A : absBuffer meteredCmixMessage) : Prop := {
  mc_rep : mb_rep s (mcmb_mb b) A;
  mc_kv : mcmb_kv b = mb_kv (mcmb_mb b);
  mc_key : mcmb_key b = mb_key (mcmb_mb b);
  mc_entries h m f : A !! h = Some (m, f) ->
    h = metered_HashMessage m /\ metered_ok m /\ exists x, genuine m x;
}.

Section operations.
Context {S Msg RI Ident : Type} `{EKVLaws S} {rel : EKVReliable S} `{CmixFormatsLaws Msg RI Ident}
  `{JsonCodec meteredCmixMessage} {mj : MeteredJson} `{JsonCodec (list MessageHash)} {hj : HashesJson}.
Context (iter : hashSet -> list MessageHash) {order : MapOrder iter}.

Abbreviation buf := (absBuffer meteredCmixMessage).

(** The buffer under an entry that changes. *)
Lemma entries_insert (A : buf) m f :
  (forall h m f, A !! h = Some (m, f) ->
    h = metered_HashMessage m /\ metered_ok m /\ exists x, genuine m x) ->
  metered_ok m -> (exists x, genuine m x) ->
  forall h m' f', <[metered_HashMessage m := (m, f)]> A !! h = Some (m', f') ->
    h = metered_HashMessage m' /\ metered_ok m' /\ exists x, genuine m' x.
Proof.
  intros HA Hok Hg h m' f' Hl. apply lookup_insert_Some in Hl as [[<- [= <- <-]]|[_ Hl]]; [done|].
  by eapply HA.
Qed.

Lemma onBuffer_Done {T} (m : act (S * MessageBuffer) T) s b s' mb' a :
  m (s, mcmb_mb b) = Done (s', mb') a ->
  onBuffer m (s, b) = Done (s', mkMeteredBuffer mb' (mcmb_kv b) (mcmb_key b)) a.
Proof. intros Hm. unfold onBuffer, zoom. by rewrite Hm. Qed.

(** The state of the wrapper after an operation of the buffer. *)
Lemma rep_after s b A s' mb' A' :
  mcmb_rep s b A -> same_place (mcmb_mb b) mb' -> mb_rep s' mb' A' ->
  (forall h m f, A' !! h = Some (m, f) ->
    h = metered_HashMessage m /\ metered_ok m /\ exists x, genuine m x) ->
  mcmb_rep s' (mkMeteredBuffer mb' (mcmb_kv b) (mcmb_key b)) A'.
Proof.
  intros [_ Hkv Hkey _] [Hp1 Hp2] Hrep HA. split; [done|..|done]; simpl; congruence.
Qed.

Lemma build_prime x msg : buildMsg x.1.1 x.1.2 x.2 = Ok msg -> (msg_GetPrimeByteLen x.1.1 =? 0) = false.
Proof. unfold buildMsg. by destruct (_ =? 0). Qed.

Lemma MeteredAdd_new s b A x msg now :
  mcmb_rep s b A -> buildMsg x.1.1 x.1.2 x.2 = Ok msg -> A !! metered_HashMessage msg = None ->
  exists s' b', MeteredBuffer_Add iter x.1.1 x.1.2 x.2 now (s, b) = Done (s', b') (0, mm_Timestamp msg) /\
    mcmb_rep s' b' (<[metered_HashMessage msg := (msg, false)]> A).
Proof.
  intros Hrep Hb HA. unfold MeteredBuffer_Add. rewrite (build_prime x msg Hb). act_step.
  destruct (build_genuine x msg Hb) as (Hg & Hok & Hc).
  destruct (Add_new (ok := metered_ok) iter s (mcmb_mb b) A msg now) as (s' & mb' & Hr & Hrep' & Hpl);
    [apply Hrep|done|done|].
  erewrite bind_Done by (by apply onBuffer_Done). eexists _, _. split; [by rewrite Hc|].
  eapply rep_after; [done|done|done|]. apply entries_insert; [apply Hrep|done|eauto].
Qed.

Lemma MeteredAdd_known s b A x msg m f now :
  mcmb_rep s b A -> buildMsg x.1.1 x.1.2 x.2 = Ok msg -> A !! metered_HashMessage msg = Some (m, f) ->
  MeteredBuffer_Add iter x.1.1 x.1.2 x.2 now (s, b) = Done (s, b) (mm_Count m, mm_Timestamp m).
Proof.
  intros Hrep Hb HA. unfold MeteredBuffer_Add. rewrite (build_prime x msg Hb). act_step.
  erewrite bind_Done.
  - reflexivity.
  - destruct b. apply onBuffer_Done. eapply Add_known; [apply Hrep|done].
Qed.

Lemma MeteredFailed_ok s b A x msg now :
  mcmb_rep s b A -> buildMsg x.1.1 x.1.2 x.2 = Ok msg ->
  exists s' b', MeteredBuffer_Failed iter x.1.1 x.1.2 x.2 now (s, b) = Done (s', b') tt /\
    mcmb_rep s' b' (<[metered_HashMessage msg := (msg, false)]> A).
Proof.
  intros Hrep Hb. unfold MeteredBuffer_Failed. act_step.
  destruct (build_genuine x msg Hb) as (Hg & Hok & Hc).
  destruct (Failed_ok (ok := metered_ok) iter s (mcmb_mb b) A msg now) as (s' & mb' & Hr & Hrep' & Hpl);
    [apply Hrep|done|].
  eexists _, _. split; [by apply onBuffer_Done|].
  eapply rep_after; [done|done|done|]. apply entries_insert; [apply Hrep|done|eauto].
Qed.

Lemma MeteredRemove_ok s b A x msg now :
  mcmb_rep s b A -> buildMsg x.1.1 x.1.2 x.2 = Ok msg ->
  exists s' b', MeteredBuffer_Remove iter x.1.1 x.1.2 x.2 now (s, b) = Done (s', b') tt /\
    mcmb_rep s' b' (delete (metered_HashMessage msg) A).
Proof.
  intros Hrep Hb. unfold MeteredBuffer_Remove. act_step.
  destruct (Succeeded_ok (ok := metered_ok) iter s (mcmb_mb b) A msg now) as (s' & mb' & Hr & Hrep' & Hpl);
    [apply Hrep|].
  eexists _, _. split; [by apply onBuffer_Done|].
  eapply rep_after; [done|done|done|]. intros h m f [_ Hh]%lookup_delete_Some. by eapply mc_entries.
Qed.

(** The first part of [Next] moves a waiting message. *)
Lemma nextLocked_none s b A :
  mcmb_rep s b A -> (forall h m, A !! h ≠ Some (m, false)) ->
  onBuffer (MessageBuffer_Next iter) (s, b) = Done (s, b) None.
Proof.
  intros Hrep Hno. pose proof (Next_none iter s (mcmb_mb b) A (mc_rep _ _ _ Hrep) Hno) as Hr.
  erewrite onBuffer_Done by done. by destruct b.
Qed.

Lemma nextLocked_some s b A h0 m0 :
  mcmb_rep s b A -> A !! h0 = Some (m0, false) ->
  exists m b', A !! metered_HashMessage m = Some (m, false) /\
    onBuffer (MessageBuffer_Next iter) (s, b) = Done (s, b') (Some m) /\
    mcmb_rep s b' (<[metered_HashMessage m := (m, true)]> A).
Proof.
  intros Hrep HA. destruct (Next_some iter s (mcmb_mb b) A h0 m0) as
    (h & m & mb' & Hh & Hr & Hrep1 & _ & Hpl); [apply Hrep|done|].
  destruct (mc_entries _ _ _ Hrep _ _ _ Hh) as (-> & Hok & Hg).
  exists m, (mkMeteredBuffer mb' (mcmb_kv b) (mcmb_key b)). split; [done|]. split; [by apply onBuffer_Done|].
  eapply rep_after; [done|done|done|]. by apply entries_insert; [apply Hrep|..].
Qed.

(** The buffer after a message is saved again under its hash, in whatever
    state it has got to; nothing shows when it has left the buffer. *)
Definition recounted (m : meteredCmixMessage) (A : buf) : buf :=
  match A !! metered_HashMessage m with
  | Some (_, f) => <[metered_HashMessage m := (m, f)]> A
  | None => A
  end.

Lemma recounted_keys (m : meteredCmixMessage) (A : buf) h : is_Some (recounted m A !! h) <-> is_Some (A !! h).
Proof.
  unfold recounted. destruct (A !! metered_HashMessage m) as [[m' f]|] eqn:Hl; [|done].
  destruct (decide (h = metered_HashMessage m)) as [->|Hne].
  - rewrite lookup_insert_eq, Hl. split; eauto.
  - by rewrite lookup_insert_ne by done.
Qed.

Lemma recounted_lookup (m : meteredCmixMessage) (A : buf) h m' f : recounted m A !! h = Some (m', f) ->
  (h = metered_HashMessage m /\ m' = m /\ exists m0, A !! h = Some (m0, f)) \/
  (h ≠ metered_HashMessage m /\ A !! h = Some (m', f)).
Proof.
  unfold recounted. destruct (A !! metered_HashMessage m) as [[m0 g]|] eqn:Hl; intros Hh.
  - apply lookup_insert_Some in Hh as [[<- [= <- <-]]|[Hne Hh]]; [left; eauto|right; by split].
  - right. split; [intros ->; by rewrite Hl in Hh|done].
Qed.

Lemma recounted_hashes (m : meteredCmixMessage) (A : buf) g ms : hashes_of A g ms -> hashes_of (recounted m A) g ms.
Proof.
  intros Hms h. rewrite (Hms h). unfold recounted.
  destruct (A !! metered_HashMessage m) as [[m0 f]|] eqn:Hl; [|done].
  destruct (decide (h = metered_HashMessage m)) as [->|Hne].
  - rewrite lookup_insert_eq, Hl. split; intros [x [= ? ?]]; subst; eauto.
  - by rewrite lookup_insert_ne by done.
Qed.

Lemma resave_entry s mb A m now :
  mb_rep s mb A -> metered_ok m ->
  exists s', metered_SaveMessage (mb_kv mb) m (MakeStoredMessageKey (mb_key mb) (metered_HashMessage m)) now s
      = Done s' tt /\ mb_rep s' mb (recounted m A).
Proof.
  intros Hrep Hok.
  destruct (save_message (mb_kv mb) m (MakeStoredMessageKey (mb_key mb) (metered_HashMessage m)) now s Hok)
    as (s' & Hs' & Hld & Hfr).
  exists s'. split; [done|]. split; [by apply recounted_hashes, Hrep|by apply recounted_hashes, Hrep|..].
  - intros h m0 g [(-> & -> & _)|[Hne Hh]]%recounted_lookup; [done|].
    eapply load_message_frame; [|exact (mr_stored _ _ _ Hrep _ _ _ Hh)]. apply Hfr.
    intros Heq%messageKey_inj. by apply Hne.
  - intros h m0 g [(-> & _ & _)|[Hne Hh]]%recounted_lookup; [apply length_array_of|]. by eapply mr_hash.
  - destruct (mr_list _ _ _ Hrep) as (o & l & Ho & Hl & Hin). exists o, l. split; [|split; [done|]].
    + rewrite <- Ho. apply Hfr. apply messageKey_ne.
    + intros h. by rewrite Hin, recounted_keys.
Qed.

(** The second part of [Next], whatever has become of the message. *)
Lemma countNext_ok s b A m x now :
  mcmb_rep s b A -> metered_ok m -> genuine m x ->
  exists s', MeteredBuffer_countNext m now (s, b) = Done (s', b) x /\
    mcmb_rep s' b (recounted (mm_setCount m (u64 (mm_Count m + 1))) A).
Proof.
  intros Hrep Hok Hg. set (m' := mm_setCount m (u64 (mm_Count m + 1))).
  assert (metered_ok m') as Hok' by (split; [apply wrapu_range; lia|apply Hok]).
  destruct (resave_entry s (mcmb_mb b) A m' now (mc_rep _ _ _ Hrep) Hok') as (s' & Hs' & Hrep').
  exists s'. destruct (genuine_reads m x Hg) as (Hm & Hri & Hi).
  pose proof (mc_kv _ _ _ Hrep) as Hkv. pose proof (mc_key _ _ _ Hrep) as Hkey. split.
  - unfold MeteredBuffer_countNext. fold m'. erewrite bind_Done by done. cbn [snd].
    rewrite Hkv, Hkey. erewrite bind_Done by (by apply orCrash_Done, onStore_Done).
    change (mm_M m') with (mm_M m). change (mm_Ri m') with (mm_Ri m).
    change (mm_Identity m') with (mm_Identity m). rewrite Hm, Hri, Hi. by destruct x as [[]].
  - split; [done|done|done|]. intros h m0 f [(-> & -> & _)|[_ Hh]]%recounted_lookup; [|by eapply mc_entries].
    split; [done|]. split; [done|]. exists x. by apply genuine_setCount.
Qed.

(** Both parts, when nothing happens between them. *)
Lemma MeteredNext_none s b A now :
  mcmb_rep s b A -> (forall h m, A !! h ≠ Some (m, false)) ->
  MeteredBuffer_Next iter now (s, b) = Done (s, b) None.
Proof.
  intros Hrep Hno. unfold MeteredBuffer_Next.
  by erewrite bind_Done by (by apply nextLocked_none with A).
Qed.

Lemma MeteredNext_some s b A h0 m0 now :
  mcmb_rep s b A -> A !! h0 = Some (m0, false) ->
  exists h m x s' b', A !! h = Some (m, false) /\ genuine m x /\
    MeteredBuffer_Next iter now (s, b) = Done (s', b') (Some x) /\
    mcmb_rep s' b' (<[h := (mm_setCount m (u64 (mm_Count m + 1)), true)]> A).
Proof.
  intros Hrep HA. destruct (nextLocked_some s b A h0 m0 Hrep HA) as (m & b' & Hh & Hn & Hrep1).
  destruct (mc_entries _ _ _ Hrep _ _ _ Hh) as (_ & Hok & x & Hg).
  destruct (countNext_ok s b' _ m x now Hrep1 Hok Hg) as (s' & Hc & Hrep2).
  exists (metered_HashMessage m), m, x, s', b'. split; [done|]. split; [done|]. split.
  - unfold MeteredBuffer_Next. erewrite bind_Done by done. cbv beta iota. by erewrite bind_Done by done.
  - unfold recounted in Hrep2. rewrite hash_setCount, lookup_insert_eq in Hrep2.
    by rewrite insert_insert_eq in Hrep2.
Qed.
End operations.

Section creation.
Context {S Msg RI Ident : Type} `{EKVLaws S} {rel : EKVReliable S} `{CmixFormatsLaws Msg RI Ident}
  `{JsonCodec meteredCmixMessage} {mj : MeteredJson} `{JsonCodec (list MessageHash)} {hj : HashesJson}.
Context (iter : hashSet -> list MessageHash) {order : MapOrder iter}.

(** The first start: nothing is stored yet. *)
Lemma NewMetered_ok s v key now e :
  kv_Get v s key 0 = inl e ->
  exists s' b, NewOrLoadMeteredCmixMessageBuffer iter v key now s = Done s' b /\ mcmb_rep s' b ∅.
Proof.
  intros Hget. unfold NewOrLoadMeteredCmixMessageBuffer, LoadMessageBuffer, MessageBuffer_load,
    CurrentMessageBufferVersion. cbn [mb_kv mb_key]. rewrite Hget.
  destruct (New_ok (M := meteredCmixMessage) (ok := metered_ok) iter s v key now)
    as (s' & mb & Hnew & Hrep & Hkv & Hkey).
  unfold NewMeteredCmixMessageBuffer. act_step. eexists _, _. split; [done|].
  split; [done|done|done|]. intros h m f. by rewrite lookup_empty.
Qed.

(** A restart keeps every message, with its counter. *)
Lemma LoadMetered_ok s b A now :
  mcmb_rep s b A ->
  exists b', NewOrLoadMeteredCmixMessageBuffer iter (mcmb_kv b) (mcmb_key b) now s = Done s b' /\
    mcmb_rep s b' (restarted A).
Proof.
  intros Hrep. destruct (Load_ok s (mcmb_mb b) A (mc_rep _ _ _ Hrep)) as (mb' & Hl & Hrep' & Hkv & Hkey).
  unfold NewOrLoadMeteredCmixMessageBuffer. rewrite (mc_kv _ _ _ Hrep), (mc_key _ _ _ Hrep), Hl.
  eexists. split; [done|]. split; [done|done|done|]. intros h m f. unfold restarted.
  rewrite lookup_fmap. intros ([m' f'] & Hh & [= -> ->])%fmap_Some. by eapply mc_entries.
Qed.

(** Adding a message that is already in the buffer as one in process panics. *)
Lemma MeteredAddProcessing_known s b A x msg e now :
  mcmb_rep s b A -> buildMsg x.1.1 x.1.2 x.2 = Ok msg -> A !! metered_HashMessage msg = Some e ->
  MeteredBuffer_AddProcessing iter x.1.1 x.1.2 x.2 now (s, b) = Crash.
Proof.
  intros Hrep Hb HA. unfold MeteredBuffer_AddProcessing. rewrite (build_prime x msg Hb). act_step.
  pose proof (AddProcessing_known iter s (mcmb_mb b) A msg e now (mc_rep _ _ _ Hrep) HA) as Hr.
  by erewrite bind_Done by (by apply onBuffer_Done).
Qed.
End creation.
