(* ===== verification/Handler.v ===== *)
(** * Message reception

    [cmix/message/handler.go] and [inProgress.go]: every received message is
    put in the buffer of messages in process, then given to the processor its
    fingerprint, its service or the fallthrough names; a message nothing takes
    stays in the buffer, to be tried again when a component asks for it.

    The work runs on many goroutines: each message of a bundle is added and
    handled on its own, and the recheck thread walks the buffer beside them.
    The threads are the tasks of a pool.  A step of the system is one call that
    holds a lock (of the buffer, of the fingerprints, of the services, of a
    channel) or one write to storage made without a lock; everything else may
    happen between two steps of a thread. *)

From S2P Require Import Prelude GoBytes KV Base64 Json Effects MessageBuffer MeteredBuffer.
From S2P Require Import Fingerprints Services.

Record message_Params := mkMessageParams {
  MessageReceptionBuffLen : Z;
  MessageReceptionWorkerPoolSize : Z;
  MaxChecksInProcessMessage : Z;
  InProcessMessageWait : Z;              (* nanoseconds *)
  RealtimeOnly : bool;
}.

Definition message_GetDefaultParams : message_Params := mkMessageParams 500 2 10 (15 * 60 * 1000000000) false.

Definition inProcessKey : string := "InProcessMessagesKey".
Definition checkInProgressCap : nat := 100.

(** What the handler reads of a message and of an identity. *)
Class CmixFields (Msg Ident ID FP : Type) := {
  msg_GetKeyFP : Msg -> FP;
  msg_GetSIH : Msg -> list byte;
  msg_GetContents : Msg -> list byte;
  ident_Source : Ident -> ID;
}.

(** [Finish] is a callback of the sender of the bundle; a bundle of the recheck
    thread has one that does nothing. *)
Record Bundle (Msg RI Ident : Type) := mkBundle {
  b_RoundInfo : RI;
  b_Messages : list Msg;
  b_Finish : option nat;
  b_Identity : Ident;
}.
Arguments mkBundle {Msg RI Ident}.
Arguments b_RoundInfo {Msg RI Ident}.
Arguments b_Messages {Msg RI Ident}.
Arguments b_Finish {Msg RI Ident}.
Arguments b_Identity {Msg RI Ident}.

(** A call of [Processor.Process]. *)
Record ProcessCall (Msg RI Ident P : Type) := mkCall {
  call_proc : P;
  call_msg : Msg;
  call_tags : list string;
  call_metadata : list byte;
  call_identity : Ident;
  call_round : RI;
}.
Arguments mkCall {Msg RI Ident P}.
Arguments call_proc {Msg RI Ident P}.
Arguments call_msg {Msg RI Ident P}.
Arguments call_tags {Msg RI Ident P}.
Arguments call_metadata {Msg RI Ident P}.
Arguments call_identity {Msg RI Ident P}.
Arguments call_round {Msg RI Ident P}.

(** The threads.  The one of a message adds it to the buffer, signals the
    bundle's wait group, looks for a processor in three places, and tells the
    buffer how it went; another waits for the group and calls [Finish]. *)
Inductive task (Msg RI Ident : Type) :=
| TAdd (wg : nat) (msg : Msg) (b : Bundle Msg RI Ident)
| TDone (wg : nat) (count : Z) (ts : Time) (msg : Msg) (b : Bundle Msg RI Ident)
| TPop (count : Z) (ts : Time) (msg : Msg) (b : Bundle Msg RI Ident)
| TGet (count : Z) (ts : Time) (msg : Msg) (b : Bundle Msg RI Ident)
| TFallthrough (count : Z) (ts : Time) (msg : Msg) (b : Bundle Msg RI Ident)
| TConclude (success : bool) (count : Z) (ts : Time) (msg : Msg) (b : Bundle Msg RI Ident)
| TFinish (wg : nat) (b : Bundle Msg RI Ident).
Arguments TAdd {Msg RI Ident}.
Arguments TDone {Msg RI Ident}.
Arguments TPop {Msg RI Ident}.
Arguments TGet {Msg RI Ident}.
Arguments TFallthrough {Msg RI Ident}.
Arguments TConclude {Msg RI Ident}.
Arguments TFinish {Msg RI Ident}.

(** The recheck thread: waiting for a signal, about to ask for the next
    message, holding the message [mb.Next()] gave it, or holding the bundle it
    is about to send. *)
Inductive recheckState (Msg RI Ident : Type) :=
| RIdle
| RNext
| RPopped (m : meteredCmixMessage)
| RSend (b : Bundle Msg RI Ident).
Arguments RIdle {Msg RI Ident}.
Arguments RNext {Msg RI Ident}.
Arguments RPopped {Msg RI Ident}.
Arguments RSend {Msg RI Ident}.

Section handler.
Context (S Msg RI Ident ID FP P Preimage : Type) `{Countable ID} `{Countable FP} `{Countable Preimage}.

(** The store, the handler's state, the threads and the calls made. *)
Record hworld := mkHWorld {
  hw_store : S;
  hw_param : message_Params;
  hw_messageReception : list (Bundle Msg RI Ident);
  hw_checkInProgress : nat;
  hw_inProcess : MeteredCmixMessageBuffer;
  hw_fps : FingerprintsManager ID FP P;
  hw_services : ServicesManager ID Preimage P;
  hw_fallthrough : FallthroughManager (ID := ID) (P := P);
  hw_tasks : list (task Msg RI Ident);
  hw_waitGroups : list nat;                   (* messages not yet added *)
  hw_finished : list (Bundle Msg RI Ident);   (* calls of [Finish] *)
  hw_rechecking : recheckState Msg RI Ident;
  hw_calls : list (ProcessCall Msg RI Ident P);
}.
End handler.
Arguments mkHWorld {S Msg RI Ident ID FP P Preimage _ _ _ _ _ _}.
Arguments hw_store {S Msg RI Ident ID FP P Preimage _ _ _ _ _ _}.
Arguments hw_param {S Msg RI Ident ID FP P Preimage _ _ _ _ _ _}.
Arguments hw_messageReception {S Msg RI Ident ID FP P Preimage _ _ _ _ _ _}.
Arguments hw_checkInProgress {S Msg RI Ident ID FP P Preimage _ _ _ _ _ _}.
Arguments hw_inProcess {S Msg RI Ident ID FP P Preimage _ _ _ _ _ _}.
Arguments hw_fps {S Msg RI Ident ID FP P Preimage _ _ _ _ _ _}.
Arguments hw_services {S Msg RI Ident ID FP P Preimage _ _ _ _ _ _}.
Arguments hw_fallthrough {S Msg RI Ident ID FP P Preimage _ _ _ _ _ _}.
Arguments hw_tasks {S Msg RI Ident ID FP P Preimage _ _ _ _ _ _}.
Arguments hw_waitGroups {S Msg RI Ident ID FP P Preimage _ _ _ _ _ _}.
Arguments hw_finished {S Msg RI Ident ID FP P Preimage _ _ _ _ _ _}.
Arguments hw_rechecking {S Msg RI Ident ID FP P Preimage _ _ _ _ _ _}.
Arguments hw_calls {S Msg RI Ident ID FP P Preimage _ _ _ _ _ _}.

Section code.
Context {S Msg RI Ident ID FP P Preimage : Type} `{Countable ID} `{Countable FP} `{Countable Preimage}
  `{EqDecision P}.
Context `{EKV S} `{CmixFormats Msg RI Ident} `{CmixFields Msg Ident ID FP} `{Sih ID Preimage}.
Context `{JsonCodec meteredCmixMessage} `{JsonCodec (list MessageHash)}.
Context (iter : hashSet -> list MessageHash).
Context (iterS : gmap Preimage (service P) -> list Preimage).
Context (iterC : gmap Preimage (compressedService P) -> list Preimage).

Abbreviation world := (hworld S Msg RI Ident ID FP P Preimage).
Abbreviation bundle := (Bundle Msg RI Ident).

Definition hw_set (w : world) (s : S) (b : MeteredCmixMessageBuffer) : world :=
  mkHWorld s (hw_param w) (hw_messageReception w) (hw_checkInProgress w) b (hw_fps w) (hw_services w)
    (hw_fallthrough w) (hw_tasks w) (hw_waitGroups w) (hw_finished w) (hw_rechecking w) (hw_calls w).
Definition hw_setFps (w : world) (f : FingerprintsManager ID FP P) : world :=
  mkHWorld (hw_store w) (hw_param w) (hw_messageReception w) (hw_checkInProgress w) (hw_inProcess w) f
    (hw_services w) (hw_fallthrough w) (hw_tasks w) (hw_waitGroups w) (hw_finished w) (hw_rechecking w) (hw_calls w).
Definition hw_setServices (w : world) (sm : ServicesManager ID Preimage P)
    (ft : FallthroughManager (ID := ID) (P := P)) : world :=
  mkHWorld (hw_store w) (hw_param w) (hw_messageReception w) (hw_checkInProgress w) (hw_inProcess w)
    (hw_fps w) sm ft (hw_tasks w) (hw_waitGroups w) (hw_finished w) (hw_rechecking w) (hw_calls w).
Definition hw_setQueue (w : world) (q : list bundle) (c : nat) (r : recheckState Msg RI Ident) : world :=
  mkHWorld (hw_store w) (hw_param w) q c (hw_inProcess w) (hw_fps w) (hw_services w)
    (hw_fallthrough w) (hw_tasks w) (hw_waitGroups w) (hw_finished w) r (hw_calls w).
Definition hw_setTasks (w : world) (ts : list (task Msg RI Ident)) : world :=
  mkHWorld (hw_store w) (hw_param w) (hw_messageReception w) (hw_checkInProgress w) (hw_inProcess w)
    (hw_fps w) (hw_services w) (hw_fallthrough w) ts (hw_waitGroups w) (hw_finished w) (hw_rechecking w) (hw_calls w).
Definition hw_called (w : world) (cs : list (ProcessCall Msg RI Ident P)) : world :=
  mkHWorld (hw_store w) (hw_param w) (hw_messageReception w) (hw_checkInProgress w) (hw_inProcess w)
    (hw_fps w) (hw_services w) (hw_fallthrough w) (hw_tasks w) (hw_waitGroups w) (hw_finished w) (hw_rechecking w) (hw_calls w ++ cs).

Definition hw_setGroups (w : world) (gs : list nat) (fin : list bundle) : world :=
  mkHWorld (hw_store w) (hw_param w) (hw_messageReception w) (hw_checkInProgress w) (hw_inProcess w)
    (hw_fps w) (hw_services w) (hw_fallthrough w) (hw_tasks w) gs fin (hw_rechecking w) (hw_calls w).

(** A call on the buffer of messages in process. *)
Definition onInProcess {A} (m : act (S * MeteredCmixMessageBuffer) A) : act world A :=
  zoom (fun w => (hw_store w, hw_inProcess w)) (fun '(s, b) w => hw_set w s b) m.

Definition NewHandler (param : message_Params) (v : kv) (std : ID) (now : Time) (s : S) : outcome S world :=
  match orCrash (NewOrLoadMeteredCmixMessageBuffer iter v inProcessKey now) s with
  | Done s garbled =>
      Done s (mkHWorld s param [] 0 garbled (newFingerprints std) NewServices newFallthroughManager
                [] [] [] RIdle [])
  | Fail s e => Fail s e
  | Crash => Crash
  end.

(** Calls the processors of a list; a nil one panics. *)
Fixpoint callAll (msg : Msg) (tags : list string) (md : list byte) (i : Ident) (ri : RI)
    (ps : list (option P)) : result (list (ProcessCall Msg RI Ident P)) :=
  match ps with
  | [] => Ok []
  | Some p :: ps => cs ← callAll msg tags md i ri ps; Ok (mkCall p msg tags md i ri :: cs)
  | None :: _ => Panic
  end.

(** The three places a processor is looked for in; each is read under a lock of
    its own, and the processors found are called. *)
Definition tryFingerprint (ecrMsg : Msg) (b : bundle) : act world bool := fun w =>
  let '(fps, proc) := fm_pop (hw_fps w) (ident_Source (b_Identity b)) (msg_GetKeyFP ecrMsg) in
  let w := hw_setFps w fps in
  match proc with
  | Some p => Done (hw_called w [mkCall p ecrMsg [] [] (b_Identity b) (b_RoundInfo b)]) true
  | None => Done w false
  end.

Definition tryServices (ecrMsg : Msg) (b : bundle) : act world bool := fun w =>
  let '(services, tags, metadata, exists_) :=
    sm_get iterS iterC (hw_services w) (ident_Source (b_Identity b)) (msg_GetSIH ecrMsg)
      (msg_GetContents ecrMsg) in
  if exists_ && negb (length services =? 0)%nat then
    match callAll ecrMsg tags metadata (b_Identity b) (b_RoundInfo b) services with
    | Ok cs => Done (hw_called w cs) true
    | _ => Crash
    end
  else Done w false.

Definition tryFallthrough (ecrMsg : Msg) (b : bundle) : act world bool := fun w =>
  match getFallthrough (hw_fallthrough w) (ident_Source (b_Identity b)) with
  | Some p => Done (hw_called w [mkCall p ecrMsg [] [] (b_Identity b) (b_RoundInfo b)]) true
  | None => Done w false
  end.

(** Whether a processor was found, after calling it. *)
Definition handleMessageHelper (ecrMsg : Msg) (b : bundle) : act world bool :=
  popped ← tryFingerprint ecrMsg b;
  if (popped : bool) then mret true
  else
    served ← tryServices ecrMsg b;
    if (served : bool) then mret true else tryFallthrough ecrMsg b.

(** A message that nothing takes is given up only when it has been tried often
    enough and for long enough. *)
Definition givenUp (p : message_Params) (count : Z) (ts now : Time) : bool :=
  (count =? MaxChecksInProcessMessage p) && (InProcessMessageWait p <? now - ts).

Definition conclude (success : bool) (count : Z) (ts : Time) (msg : Msg) (b : bundle) (now : Time) :
    act world unit :=
  if success then onInProcess (MeteredBuffer_Remove iter msg (b_RoundInfo b) (b_Identity b) now)
  else
    p ← gets hw_param;
    if givenUp p count ts now then
      onInProcess (MeteredBuffer_Remove iter msg (b_RoundInfo b) (b_Identity b) now)
    else onInProcess (MeteredBuffer_Failed iter msg (b_RoundInfo b) (b_Identity b) now).

Definition handleMessage (count : Z) (ts : Time) (msg : Msg) (b : bundle) (now : Time) : act world unit :=
  success ← handleMessageHelper msg b;
  conclude success count ts msg b now.

(** [handleMessages]: a worker takes a bundle and starts a thread per message;
    the thread adds the message, then handles it. *)
Definition takeBundle (w : world) : option world :=
  match hw_messageReception w with
  | [] => None
  | b :: q =>
      let w := hw_setQueue w q (hw_checkInProgress w) (hw_rechecking w) in
      let wg := length (hw_waitGroups w) in
      let w := hw_setGroups w (hw_waitGroups w ++ [length (b_Messages b)]) (hw_finished w) in
      Some (hw_setTasks w (hw_tasks w ++ ((fun msg => TAdd wg msg b) <$> b_Messages b) ++ [TFinish wg b]))
  end.

(** [wg.Done()] *)
Definition wgDone (wg : nat) (w : world) : world :=
  hw_setGroups w (alter Nat.pred wg (hw_waitGroups w)) (hw_finished w).

(** One step of a thread, and what is left of it. *)
Definition runTask (now : Time) (t : task Msg RI Ident) : act world (list (task Msg RI Ident)) :=
  match t with
  | TAdd wg msg b =>
      '(count, ts) ← onInProcess (MeteredBuffer_Add iter msg (b_RoundInfo b) (b_Identity b) now);
      mret [TDone wg count ts msg b]
  | TDone wg count ts msg b => _ ← modify (wgDone wg); mret [TPop count ts msg b]
  | TPop count ts msg b =>
      found ← tryFingerprint msg b;
      mret [if (found : bool) then TConclude true count ts msg b else TGet count ts msg b]
  | TGet count ts msg b =>
      found ← tryServices msg b;
      mret [if (found : bool) then TConclude true count ts msg b else TFallthrough count ts msg b]
  | TFallthrough count ts msg b =>
      found ← tryFallthrough msg b; mret [TConclude found count ts msg b]
  | TConclude success count ts msg b => _ ← conclude success count ts msg b now; mret []
  | TFinish wg b =>
      _ ← modify (fun w => hw_setGroups w (hw_waitGroups w) (hw_finished w ++ [b]));
      mret []
  end.

(** A thread that waits for its group runs when the group is empty. *)
Definition ready (w : world) (t : task Msg RI Ident) : Prop :=
  match t with
  | TFinish wg _ => hw_waitGroups w !! wg = Some O
  | _ => True
  end.

(** A send that drops the value when the channel is full. *)
Definition trySend (w : world) (b : bundle) : world :=
  if Z.of_nat (length (hw_messageReception w)) <? MessageReceptionBuffLen (hw_param w)
  then hw_setQueue w (hw_messageReception w ++ [b]) (hw_checkInProgress w) (hw_rechecking w)
  else w.

Definition CheckInProgressMessages (w : world) : world :=
  if (hw_checkInProgress w <? checkInProgressCap)%nat
  then hw_setQueue w (hw_messageReception w) (hw_checkInProgress w + 1) (hw_rechecking w)
  else w.

(** One step of the recheck thread, and where it leaves the thread. *)
Definition recheckRun (now : Time) (r : recheckState Msg RI Ident) :
    act world (recheckState Msg RI Ident) :=
  match r with
  | RIdle => mret RIdle
  | RNext =>
      m ← onInProcess (onBuffer (MessageBuffer_Next iter));
      mret (match m with Some m => RPopped m | None => RIdle end)
  | RPopped m =>
      '(grbldMsg, ri, identity) ← onInProcess (MeteredBuffer_countNext m now);
      mret (RSend (mkBundle ri [grbldMsg] None identity))
  | RSend b => _ ← modify (fun w => trySend w b); mret RNext
  end.

(** One round of [recheckInProgress]: the next message, in a bundle of its own;
    [false] when there is none. *)
Definition recheckStep (now : Time) : act world bool :=
  m ← onInProcess (MeteredBuffer_Next iter now);
  match m with
  | None => mret false
  | Some (grbldMsg, ri, identity) =>
      _ ← modify (fun w => trySend w (mkBundle ri [grbldMsg] None identity));
      mret true
  end.

(** The whole loop. *)
Fixpoint recheckInProgress (fuel : nat) (now : Time) : act world unit :=
  match fuel with
  | O => mret tt
  | Datatypes.S fuel =>
      has ← recheckStep now;
      if (has : bool) then recheckInProgress fuel now else mret tt
  end.

(** ** The system *)

(** Other components register and delete fingerprints and services at any
    time; bundles of new messages arrive at any time. *)
Inductive hStep : world -> world -> Prop :=
| step_arrive w b : hStep w (trySend w b)
| step_take w w' : takeBundle w = Some w' -> hStep w w'
| step_task w l t r now w' ts :
    hw_tasks w = l ++ t :: r -> ready w t -> runTask now t (hw_setTasks w (l ++ r)) = Done w' ts ->
    hStep w (hw_setTasks w' (hw_tasks w' ++ ts))
| step_check w : hStep w (CheckInProgressMessages w)
| step_recheck_start w n :
    hw_rechecking w = RIdle -> hw_checkInProgress w = Datatypes.S n ->
    hStep w (hw_setQueue w (hw_messageReception w) n RNext)
| step_recheck w now w' r :
    hw_rechecking w ≠ RIdle -> recheckRun now (hw_rechecking w) w = Done w' r ->
    hStep w (hw_setQueue w' (hw_messageReception w') (hw_checkInProgress w') r)
| step_fps w ops : hStep w (hw_setFps w (fpRun (hw_fps w) ops).1)
| step_services w sm ft : hStep w (hw_setServices w sm ft).
End code.

(** ** The steps of a thread, run one after the other, are the functions of the
    source *)

Section phases.
Context {S Msg RI Ident ID FP P Preimage : Type} `{Countable ID} `{Countable FP} `{Countable Preimage}
  `{EqDecision P}.
Context `{EKV S} `{CmixFormats Msg RI Ident} `{CmixFields Msg Ident ID FP} `{Sih ID Preimage}.
Context `{JsonCodec meteredCmixMessage} `{JsonCodec (list MessageHash)}.
Context (iter : hashSet -> list MessageHash).
Context (iterS : gmap Preimage (service P) -> list Preimage).
Context (iterC : gmap Preimage (compressedService P) -> list Preimage).

(** A thread run to its end with nothing in between. *)
Fixpoint runAlone (n : nat) (now : Time) (t : task Msg RI Ident) :
    act (hworld S Msg RI Ident ID FP P Preimage) unit :=
  match n with
  | O => mret tt
  | Datatypes.S n =>
      ts ← runTask iter iterS iterC now t;
      match ts with
      | [] => mret tt
      | t :: _ => runAlone n now t
      end
  end.

Lemma handleMessage_phases count ts msg b now (w : hworld S Msg RI Ident ID FP P Preimage) :
  runAlone 4 now (TPop count ts msg b) w = handleMessage iter iterS iterC count ts msg b now w.
Proof.
  unfold handleMessage, handleMessageHelper, runAlone, runTask, mret, act_ret, mbind, act_bind.
  destruct (tryFingerprint msg b w) as [w1 []|w1 e|]; [|cbv beta iota|done..].
  { cbv beta iota. by destruct (conclude iter true count ts msg b now w1) as [? []| |]. }
  destruct (tryServices iterS iterC msg b w1) as [w2 []|w2 e|]; [|cbv beta iota|done..].
  { cbv beta iota. by destruct (conclude iter true count ts msg b now w2) as [? []| |]. }
  destruct (tryFallthrough msg b w2) as [w3 r|w3 e|]; [cbv beta iota|done..].
  by destruct (conclude iter r count ts msg b now w3) as [? []| |].
Qed.

(** The recheck thread through one round. *)
Definition roundAlone (now : Time) : act (hworld S Msg RI Ident ID FP P Preimage) bool :=
  r ← recheckRun iter now RNext;
  match r with
  | RPopped _ => r ← recheckRun iter now r; _ ← recheckRun iter now r; mret true
  | _ => mret false
  end.

Lemma recheckStep_phases now (w : hworld S Msg RI Ident ID FP P Preimage) :
  roundAlone now w = recheckStep iter now w.
Proof.
  unfold roundAlone, recheckStep, MeteredBuffer_Next, recheckRun, onInProcess, zoom, modify, mret, act_ret,
    mbind, act_bind.
  destruct (onBuffer _ _) as [[s1 b1] [m|]|[s1 b1] e|]; [cbn|done..].
  by destruct (MeteredBuffer_countNext m now (s1, b1)) as [[s2 b2] [[msg ri] i]|[s2 b2] e|].
Qed.
End phases.

(** ** What a step changes *)

Section proofs.
Context {S Msg RI Ident ID FP P Preimage : Type} `{Countable ID} `{Countable FP} `{Countable Preimage}
  `{EqDecision P}.
Context `{EKVLaws S} {rel : EKVReliable S} `{CmixFormatsLaws Msg RI Ident} `{CmixFields Msg Ident ID FP}
  `{Sih ID Preimage}.
Context `{JsonCodec meteredCmixMessage} {mj : MeteredJson} `{JsonCodec (list MessageHash)} {hj : HashesJson}.
Context (iter : hashSet -> list MessageHash) {order : MapOrder iter}.
Context (iterS : gmap Preimage (service P) -> list Preimage).
Context (iterC : gmap Preimage (compressedService P) -> list Preimage).

Abbreviation world := (hworld S Msg RI Ident ID FP P Preimage).
Abbreviation bundle := (Bundle Msg RI Ident).
Abbreviation call := (ProcessCall Msg RI Ident P).

(** A message of a bundle, as the buffer knows it. *)
Definition msgHash (msg : Msg) (b : bundle) : option MessageHash :=
  match buildMsg msg (b_RoundInfo b) (b_Identity b) with
  | Ok m => Some (metered_HashMessage m)
  | _ => None
  end.

(** A processor was called with the message. *)
Definition given (w : world) (msg : Msg) (b : bundle) : Prop :=
  exists c, c ∈ hw_calls w /\ call_msg c = msg /\ call_identity c = b_Identity b /\
    call_round c = b_RoundInfo b.

(** Only fingerprints and calls change; no call is lost. *)
Definition same_buffer (w w' : world) : Prop :=
  hw_store w' = hw_store w /\ hw_inProcess w' = hw_inProcess w /\ hw_param w' = hw_param w /\
  hw_tasks w' = hw_tasks w /\ hw_rechecking w' = hw_rechecking w /\ hw_calls w `prefix_of` hw_calls w'.

Lemma callAll_spec msg tags md i ri ps cs :
  callAll (RI := RI) msg tags md i ri ps = Ok cs -> length cs = length ps /\
  forall c : call, c ∈ cs -> call_msg c = msg /\ call_identity c = i /\ call_round c = ri.
Proof.
  revert cs. induction ps as [|[p|] ps IH]; intros cs Hc; simpl in Hc; [|apply bind_Ok in Hc as (cs' & Hcs & Hc)|done].
  - simplify_eq. split; [done|]. by intros c Hc%elem_of_nil.
  - simplify_eq. destruct (IH cs' Hcs) as [Hl Hin]. split; [simpl; lia|].
    intros c [->|Hc]%elem_of_cons; [done|by apply Hin].
Qed.

(** A processor that is found is called with the message. *)
Definition looks_up (msg : Msg) (b : bundle) (m : act world bool) : Prop :=
  forall (w w' : world) r, m w = Done w' r -> same_buffer w w' /\ ((r : bool) = true -> given w' msg b).

Lemma called_given (w w1 : world) msg b cs :
  hw_calls w1 = hw_calls w ++ cs -> cs ≠ [] ->
  (forall c, c ∈ cs -> call_msg c = msg /\ call_identity c = b_Identity b /\ call_round c = b_RoundInfo b) ->
  given w1 msg b.
Proof.
  intros Hcs Hne Hin. destruct cs as [|c cs]; [done|]. exists c. rewrite Hcs.
  split; [apply elem_of_app; right; by left|]. apply Hin. by left.
Qed.

Lemma tryFingerprint_looks msg b : looks_up msg b (tryFingerprint msg b).
Proof.
  intros w w' r. unfold tryFingerprint. destruct (fm_pop _ _ _) as [fps [p|]]; intros [= <- <-].
  - split; [split_and!; try done; by eexists|]. intros _. eapply (called_given w); [done|done|].
    by intros c ->%list_elem_of_singleton.
  - by split.
Qed.

Lemma tryServices_looks msg b : looks_up msg b (tryServices iterS iterC msg b).
Proof.
  intros w w' r. unfold tryServices. destruct (sm_get _ _ _ _ _ _) as [[[services tags] md] ex].
  destruct (ex && negb (length services =? 0)%nat) eqn:E; [|by intros [= <- <-]].
  destruct (callAll _ _ _ _ _ _) as [cs| |] eqn:Ec; [|done|done]. intros [= <- <-].
  apply callAll_spec in Ec as [Hl Hin]. split; [split_and!; try done; by eexists|]. intros _.
  eapply (called_given w); [done| |exact Hin]. intros ->. apply andb_prop in E as [_ E].
  by destruct services.
Qed.

Lemma tryFallthrough_looks msg b : looks_up msg b (tryFallthrough msg b).
Proof.
  intros w w' r. unfold tryFallthrough. destruct (getFallthrough _ _) as [p|]; intros [= <- <-]; [|by split].
  split; [split_and!; try done; by eexists|]. intros _. eapply (called_given w); [done|done|].
  by intros c ->%list_elem_of_singleton.
Qed.

(** Threads that report a success have called a processor. *)
Definition tasks_ok (w : world) (ts : list (task Msg RI Ident)) : Prop :=
  forall c t m b, TConclude true c t m b ∈ ts -> given w m b.

(** The message in the hands of the recheck thread is one of the buffer's. *)
Definition recheck_ok (r : recheckState Msg RI Ident) : Prop :=
  forall m, r = RPopped m -> metered_ok m /\ exists x, genuine (RI := RI) m x.

Record hw_ok (w : world) (A : absBuffer meteredCmixMessage) : Prop := {
  ho_rep : mcmb_rep (hw_store w) (hw_inProcess w) A;
  ho_tasks : tasks_ok w (hw_tasks w);
  ho_recheck : recheck_ok (hw_rechecking w);
}.

(** What a thread must be to take the message of hash [h] out of the buffer:
    one that has found a processor for it, or one that gives it up. *)
Definition releases (w : world) (t : task Msg RI Ident) (h : MessageHash) : Prop :=
  match t with
  | TConclude success count ts msg b =>
      msgHash msg b = Some h /\
      (if success then given w msg b else exists now, givenUp (hw_param w) count ts now = true)
  | _ => False
  end.

Lemma onInProcess_inv {T} (m : act (S * MeteredCmixMessageBuffer) T) (w w' : world) a :
  onInProcess m w = Done w' a ->
  exists s b, m (hw_store w, hw_inProcess w) = Done (s, b) a /\ w' = hw_set w s b.
Proof.
  unfold onInProcess, zoom. destruct (m _) as [[s b] a'|[]|]; intros Heq; simplify_eq. by exists s, b.
Qed.

Lemma insert_keeps (A : absBuffer meteredCmixMessage) h e k : is_Some (A !! k) -> is_Some (<[h := e]> A !! k).
Proof. intros Hk. apply lookup_insert_is_Some'. by right. Qed.

(** A message that cannot be built cannot be stored. *)
Lemma buildMsg_total msg ri i e : buildMsg (Msg := Msg) (RI := RI) (Ident := Ident) msg ri i ≠ Err e.
Proof.
  intros Hb. unfold buildMsg in Hb. repeat case_match; simplify_eq.
  unfold index in Hb. simpl in Hb. repeat case_match; simplify_eq/=; done.
Qed.

(** A thread that adds its message. *)
Lemma add_step s b A x now s' b' c t :
  mcmb_rep s b A ->
  MeteredBuffer_Add iter x.1.1 x.1.2 x.2 now (s, b) = Done (s', b') (c, t) ->
  exists A', mcmb_rep s' b' A' /\ forall h, is_Some (A !! h) -> is_Some (A' !! h).
Proof.
  intros Hrep Hadd. destruct (buildMsg x.1.1 x.1.2 x.2) as [msg|e|] eqn:Hb;
    [|unfold MeteredBuffer_Add in Hadd; destruct (_ =? 0); [done|]; by rewrite Hb in Hadd..].
  destruct (A !! metered_HashMessage msg) as [[m f]|] eqn:Hl.
  - rewrite (MeteredAdd_known iter s b A x msg m f now Hrep Hb Hl) in Hadd. simplify_eq. by exists A.
  - destruct (MeteredAdd_new iter s b A x msg now Hrep Hb Hl) as (s1 & b1 & Heq & Hrep1).
    rewrite Heq in Hadd. simplify_eq. eexists. split; [exact Hrep1|]. intros h. apply insert_keeps.
Qed.

(** A thread that removes its message, and one that puts it back. *)
Lemma remove_step (w w' : world) A msg (b : bundle) now :
  mcmb_rep (hw_store w) (hw_inProcess w) A ->
  onInProcess (MeteredBuffer_Remove iter msg (b_RoundInfo b) (b_Identity b) now) w = Done w' tt ->
  exists A' s' b', w' = hw_set w s' b' /\ mcmb_rep s' b' A' /\
    forall h, is_Some (A !! h) -> is_Some (A' !! h) \/ msgHash msg b = Some h.
Proof.
  intros Hrep Hh. apply onInProcess_inv in Hh as (s' & b' & Hh & ->). unfold msgHash.
  pose (x := (msg, b_RoundInfo b, b_Identity b)).
  destruct (buildMsg msg (b_RoundInfo b) (b_Identity b)) as [m|e|] eqn:Hb;
    [|by apply buildMsg_total in Hb|unfold MeteredBuffer_Remove in Hh; by rewrite Hb in Hh].
  destruct (MeteredRemove_ok iter _ _ A x m now Hrep Hb) as (s1 & b1 & Heq & Hrep').
  cbn [fst snd x] in Heq. rewrite Heq in Hh. injection Hh as <- <-.
  exists (delete (metered_HashMessage m) A), s1, b1. split; [done|]. split; [done|]. intros h Hsome.
  destruct (decide (h = metered_HashMessage m)) as [->|Hn]; [by right|left]. by rewrite lookup_delete_ne by done.
Qed.

Lemma failed_step (w w' : world) A msg (b : bundle) now :
  mcmb_rep (hw_store w) (hw_inProcess w) A ->
  onInProcess (MeteredBuffer_Failed iter msg (b_RoundInfo b) (b_Identity b) now) w = Done w' tt ->
  exists A' s' b', w' = hw_set w s' b' /\ mcmb_rep s' b' A' /\
    forall h, is_Some (A !! h) -> is_Some (A' !! h).
Proof.
  intros Hrep Hh. apply onInProcess_inv in Hh as (s' & b' & Hh & ->).
  pose (x := (msg, b_RoundInfo b, b_Identity b)).
  destruct (buildMsg msg (b_RoundInfo b) (b_Identity b)) as [m|e|] eqn:Hb;
    [|by apply buildMsg_total in Hb|unfold MeteredBuffer_Failed in Hh; by rewrite Hb in Hh].
  destruct (MeteredFailed_ok iter _ _ A x m now Hrep Hb) as (s1 & b1 & Heq & Hrep').
  cbn [fst snd x] in Heq. rewrite Heq in Hh. injection Hh as <- <-.
  eexists _, s1, b1. split; [done|]. split; [exact Hrep'|]. intros h. apply insert_keeps.
Qed.

(** The end of a thread. *)
Lemma conclude_step (w w' : world) A success c t msg b now :
  mcmb_rep (hw_store w) (hw_inProcess w) A -> (success = true -> given w msg b) ->
  conclude iter success c t msg b now w = Done w' tt ->
  exists A' s' b', w' = hw_set w s' b' /\ mcmb_rep s' b' A' /\
    forall h, is_Some (A !! h) -> is_Some (A' !! h) \/ releases w (TConclude success c t msg b) h.
Proof.
  intros Hrep Hgiven Hc. unfold conclude in Hc.
  assert (onInProcess (MeteredBuffer_Remove iter msg (b_RoundInfo b) (b_Identity b) now) w = Done w' tt /\
      (if success then given w msg b else exists now, givenUp (hw_param w) c t now = true) \/
    onInProcess (MeteredBuffer_Failed iter msg (b_RoundInfo b) (b_Identity b) now) w = Done w' tt)
    as [[Hrm Hwhy]|Hf].
  { destruct success; [left; split; [done|by apply Hgiven]|].
    apply bind_Done_inv in Hc as (w1 & p & [= <- <-] & Hc).
    destruct (givenUp (hw_param w) c t now) eqn:Eg; [left; eauto|by right]. }
  - destruct (remove_step w w' A msg b now Hrep Hrm) as (A' & s' & b' & Hw & Hrep' & Hk).
    exists A', s', b'. split; [done|]. split; [done|]. intros h [?|Hh]%Hk; [by left|right; by split].
  - destruct (failed_step w w' A msg b now Hrep Hf) as (A' & s' & b' & Hw & Hrep' & Hk).
    exists A', s', b'. split; [done|]. split; [done|]. intros h Hh. left. by apply Hk.
Qed.

Lemma given_prefix (w w' : world) msg b : hw_calls w `prefix_of` hw_calls w' -> given w msg b -> given w' msg b.
Proof. intros [cs Hcs] (c & Hc & Heq). exists c. rewrite Hcs. split; [apply elem_of_app; by left|done]. Qed.

(** A world whose buffer is [A'] and whose threads keep their promises. *)
Record advanced (w w' : world) (A A' : absBuffer meteredCmixMessage) (ts : list (task Msg RI Ident))
    (t : task Msg RI Ident) : Prop := {
  ad_rep : mcmb_rep (hw_store w') (hw_inProcess w') A';
  ad_calls : hw_calls w `prefix_of` hw_calls w';
  ad_tasks : hw_tasks w' = hw_tasks w;
  ad_recheck : hw_rechecking w' = hw_rechecking w;
  ad_left : tasks_ok w' ts;
  ad_keeps h : is_Some (A !! h) -> is_Some (A' !! h) \/ releases w t h;
}.

Lemma tasks_ok_nil w : tasks_ok w [].
Proof. by intros c t m b ?%elem_of_nil. Qed.

Lemma tasks_ok_one w t : (forall c ts m b, t = TConclude true c ts m b -> given w m b) -> tasks_ok w [t].
Proof. intros Ht c ts m b Hin%list_elem_of_singleton. by eapply Ht. Qed.

(** A step of a thread that looks for a processor. *)
Lemma lookup_step (w w' : world) A m (found : bool) t t1 t2 c ts0 msg b :
  mcmb_rep (hw_store w) (hw_inProcess w) A -> looks_up msg b m -> m w = Done w' found ->
  t1 = TConclude true c ts0 msg b -> (forall c ts m b, t2 ≠ TConclude true c ts m b) ->
  advanced w w' A A [if found then t1 else t2] t.
Proof.
  intros Hrep Hm Hr -> Ht2. destruct (Hm w w' found Hr) as ((Hs & Hb & Hp & Ht & Hrc & Hc) & Hg).
  split; [by rewrite Hs, Hb|done|done|done| |by left].
  apply tasks_ok_one. destruct found; [|intros; by destruct (Ht2 c0 ts m0 b0)].
  intros ? ? ? ? [= <- <- <- <-]. by apply Hg.
Qed.

Lemma task_step (w w' : world) A t ts now :
  mcmb_rep (hw_store w) (hw_inProcess w) A -> tasks_ok w [t] ->
  runTask iter iterS iterC now t w = Done w' ts -> exists A', advanced w w' A A' ts t.
Proof.
  intros Hrep Ht Hr. destruct t as [wg msg b|wg c t msg b|c t msg b|c t msg b|c t msg b|su c t msg b|wg b];
    cbn [runTask] in Hr; apply bind_Done_inv in Hr as (w1 & r & Hm & Hr).
  - destruct r as [c t]. injection Hr as <- <-. apply onInProcess_inv in Hm as (s' & b' & Hadd & ->).
    destruct (add_step _ _ A (msg, b_RoundInfo b, b_Identity b) now s' b' c t Hrep Hadd) as (A' & Hrep' & Hk).
    exists A'. split; try done. 2: { intros h Hh. left. by apply Hk. } by apply tasks_ok_one.
  - injection Hm as <- _. injection Hr as <- <-. exists A. split; try done; [by apply tasks_ok_one|by left].
  - injection Hr as <- <-. exists A. eapply lookup_step; [done|apply tryFingerprint_looks|exact Hm|done|done].
  - injection Hr as <- <-. exists A. eapply lookup_step; [done|apply tryServices_looks|exact Hm|done|done].
  - injection Hr as <- <-. exists A. destruct r.
    + by eapply (lookup_step w w1 A _ true _ (TConclude true c t msg b) (TGet c t msg b)); [|apply tryFallthrough_looks|..].
    + by eapply (lookup_step w w1 A _ false _ (TConclude true c t msg b) (TConclude false c t msg b)); [|apply tryFallthrough_looks|..].
  - destruct r. injection Hr as <- <-.
    destruct (conclude_step w w1 A su c t msg b now Hrep) as (A' & s' & b' & -> & Hrep' & Hk); [|done|].
    + intros ->. eapply Ht. by apply list_elem_of_singleton.
    + exists A'. split; try done. apply tasks_ok_nil.
  - injection Hm as <- _. injection Hr as <- <-. exists A. split; try done; [apply tasks_ok_nil|by left].
Qed.

(** A step of the recheck thread. *)
Lemma recheck_step (w w' : world) A r r' now :
  mcmb_rep (hw_store w) (hw_inProcess w) A -> recheck_ok r -> recheckRun iter now r w = Done w' r' ->
  exists A', mcmb_rep (hw_store w') (hw_inProcess w') A' /\ recheck_ok r' /\
    hw_calls w' = hw_calls w /\ hw_tasks w' = hw_tasks w /\
    forall h, is_Some (A !! h) -> is_Some (A' !! h).
Proof.
  intros Hrep Hok Hr. destruct r as [| |m|b]; cbn [recheckRun] in Hr.
  - injection Hr as <- <-. by exists A.
  - apply bind_Done_inv in Hr as (w1 & m & Hm & [= <- <-]). apply onInProcess_inv in Hm as (s' & b' & Hm & ->).
    destruct (no_unprocessed A) as [(h0 & m0 & Hh0)|Hno].
    + destruct (nextLocked_some iter _ _ A h0 m0 Hrep Hh0) as (m1 & b1 & Hh & Heq & Hrep').
      rewrite Heq in Hm. injection Hm as <- <- <-. eexists. split; [exact Hrep'|].
      split; [|split; [done|split; [done|intros k; apply insert_keeps]]].
      intros m [= <-]. by destruct (mc_entries _ _ _ Hrep _ _ _ Hh) as (_ & ? & ?).
    + rewrite (nextLocked_none iter _ _ A Hrep Hno) in Hm. injection Hm as <- <- <-. by exists A.
  - apply bind_Done_inv in Hr as (w1 & [[msg ri] i] & Hm & [= <- <-]).
    apply onInProcess_inv in Hm as (s' & b' & Hm & ->). destruct (Hok m eq_refl) as (Hmok & x & Hg).
    destruct (countNext_ok _ _ A m x now Hrep Hmok Hg) as (s1 & Heq & Hrep').
    rewrite Heq in Hm. injection Hm as <- <- _. eexists. split; [exact Hrep'|].
    split; [done|]. split; [done|]. split; [done|]. intros h. by rewrite recounted_keys.
  - injection Hr as <- <-. exists A. unfold trySend. by case_match.
Qed.

Lemma tasks_ok_app w ts1 ts2 : tasks_ok w (ts1 ++ ts2) <-> tasks_ok w ts1 /\ tasks_ok w ts2.
Proof.
  unfold tasks_ok. setoid_rewrite elem_of_app. split; [|naive_solver].
  intros Hts. split; intros c t m b Hin; eapply Hts; eauto.
Qed.

Lemma tasks_ok_prefix (w w' : world) ts :
  hw_calls w `prefix_of` hw_calls w' -> tasks_ok w ts -> tasks_ok w' ts.
Proof. intros Hc Hts c t m b Hin. eapply given_prefix; [done|by eapply Hts]. Qed.

(** A step took the message of hash [h] out: it ran a thread that releases it. *)
Definition released (w w' : world) (h : MessageHash) : Prop :=
  exists l t r, hw_tasks w = l ++ t :: r /\ hw_tasks w' = l ++ r /\ releases w t h.

(** Steps that do not touch the buffer. *)
Lemma unrelated_step (w w' : world) A :
  hw_ok w A -> hw_store w' = hw_store w -> hw_inProcess w' = hw_inProcess w ->
  recheck_ok (hw_rechecking w') -> tasks_ok w' (hw_tasks w') ->
  exists A', hw_ok w' A' /\ forall h, is_Some (A !! h) -> is_Some (A' !! h) \/ released w w' h.
Proof.
  intros [Hrep Ht Hp] Hs Hb Hr Hts. exists A. split; [|by left]. split; [by rewrite Hs, Hb|done|done].
Qed.

Lemma hStep_ok (w w' : world) A :
  hw_ok w A -> hStep iter iterS iterC w w' ->
  exists A', hw_ok w' A' /\ forall h, is_Some (A !! h) -> is_Some (A' !! h) \/ released w w' h.
Proof.
  intros Hok Hstep. pose proof (ho_tasks _ _ Hok) as Hts. pose proof (ho_recheck _ _ Hok) as Hrc.
  destruct Hstep as [w b|w w' Ht|w l t r now w' ts Hl _ Hr|w|w n _ _|w now w' r _ Hr|w ops|w sm ft].
  - unfold trySend. case_match; by apply (unrelated_step w).
  - unfold takeBundle in Ht. destruct (hw_messageReception w) as [|b q]; [done|].
    injection Ht as <-. apply (unrelated_step w); try done. cbn [hw_tasks hw_setTasks].
    apply tasks_ok_app. split; [done|]. intros c t m b' Hin. apply elem_of_app in Hin as [Hin|Hin].
    + by apply list_elem_of_fmap in Hin as (msg & [=] & _).
    + by apply list_elem_of_singleton in Hin.
  - rewrite Hl in Hts. change (t :: r) with ([t] ++ r) in Hts.
    apply tasks_ok_app in Hts as [Hts1 [Ht Hts2]%tasks_ok_app].
    destruct (task_step (hw_setTasks w (l ++ r)) w' A t ts now (ho_rep _ _ Hok) Ht Hr)
      as (A' & [Hrep' Hc Htk Hrc' Hnew Hk]).
    exists A'. split.
    + split; [done|..].
      * cbn [hw_tasks hw_setTasks]. rewrite Htk. cbn [hw_tasks hw_setTasks].
        apply tasks_ok_app. split; [|done]. by apply (tasks_ok_prefix w); [|apply tasks_ok_app].
      * cbn [hw_rechecking hw_setTasks]. by rewrite Hrc'.
    + intros h [Hh|Hh]%Hk; [by left|]. right. exists l, t, r. split; [done|]. split; [|done].
      cbn [hw_tasks hw_setTasks]. rewrite Htk. cbn [hw_tasks hw_setTasks].
      destruct t; try done. cbn [runTask] in Hr. apply bind_Done_inv in Hr as (w1 & u & _ & [= _ <-]).
      by rewrite app_nil_r.
  - unfold CheckInProgressMessages. case_match; by apply (unrelated_step w).
  - by apply (unrelated_step w).
  - destruct (recheck_step w w' A _ r now (ho_rep _ _ Hok) Hrc Hr) as (A' & Hrep' & Hr' & Hc & Htk & Hk).
    exists A'. split; [|intros h Hh; left; by apply Hk]. split; [done|..|done]. cbn.
    rewrite Htk. apply (tasks_ok_prefix w); [|done]. cbn. by rewrite Hc.
  - by apply (unrelated_step w).
  - by apply (unrelated_step w).
Qed.

Lemma reachable_ok (w w' : world) A :
  star (hStep iter iterS iterC) w w' -> hw_ok w A -> exists A', hw_ok w' A'.
Proof.
  intros Hstar. revert A. induction Hstar as [w|w1 w2 w3 Hst Hstar IH]; intros A Hok; [eauto|].
  destruct (hStep_ok _ _ _ Hok Hst) as (A' & Hok' & _). by eapply IH.
Qed.

(** The states a handler can reach from its first start. *)
Lemma reachable_new param v std now (s s0 : S) e (w0 w : world) :
  kv_Get v s inProcessKey 0 = inl e -> NewHandler iter param v std now s = Done s0 w0 ->
  star (hStep iter iterS iterC) w0 w -> exists A, hw_ok w A.
Proof.
  intros Hget Hnew Hstar. unfold NewHandler in Hnew.
  destruct (NewMetered_ok (RI := RI) iter s v inProcessKey now e Hget) as (s1 & b1 & Hb & Hrep).
  rewrite (orCrash_Done _ _ _ _ Hb) in Hnew. injection Hnew as <- <-.
  eapply reachable_ok; [exact Hstar|]. split; [exact Hrep|apply tasks_ok_nil|done].
Qed.

(** The messages in the buffer. *)
Definition inBuffer (w : world) (h : MessageHash) : Prop :=
  is_Some (mb_messages (mcmb_mb (hw_inProcess w)) !! h) \/
  is_Some (mb_processingMessages (mcmb_mb (hw_inProcess w)) !! h).

Lemma inBuffer_abs (w : world) A h : hw_ok w A -> inBuffer w h <-> is_Some (A !! h).
Proof.
  intros Hok. pose proof (mc_rep _ _ _ (ho_rep _ _ Hok)) as Hrep. unfold inBuffer.
  rewrite (mr_messages _ _ _ Hrep h), (mr_processing _ _ _ Hrep h). split.
  - by intros [[m ->]|[m ->]]; eauto.
  - intros [[m []] Hm]; [right|left]; eauto.
Qed.
End proofs.

Section theorem.
Context {S Msg RI Ident ID FP P Preimage : Type} `{Countable ID} `{Countable FP} `{Countable Preimage}
  `{EqDecision P}.
Context `{EKVLaws S} {rel : EKVReliable S} `{CmixFormatsLaws Msg RI Ident} `{CmixFields Msg Ident ID FP}
  `{Sih ID Preimage}.
Context `{JsonCodec meteredCmixMessage} {mj : MeteredJson} `{JsonCodec (list MessageHash)} {hj : HashesJson}.
Context (iter : hashSet -> list MessageHash) {order : MapOrder iter}.
Context (iterS : gmap Preimage (service P) -> list Preimage).
Context (iterC : gmap Preimage (compressedService P) -> list Preimage).

End theorem.

(** ** The recheck thread *)

Section recheck.
Context {S Msg RI Ident ID FP P Preimage : Type} `{Countable ID} `{Countable FP} `{Countable Preimage}
  `{EqDecision P}.
Context `{EKVLaws S} {rel : EKVReliable S} `{CmixFormatsLaws Msg RI Ident} `{CmixFields Msg Ident ID FP}
  `{Sih ID Preimage}.
Context `{JsonCodec meteredCmixMessage} {mj : MeteredJson} `{JsonCodec (list MessageHash)} {hj : HashesJson}.
Context (iter : hashSet -> list MessageHash) {order : MapOrder iter}.
Context (iterS : gmap Preimage (service P) -> list Preimage).
Context (iterC : gmap Preimage (compressedService P) -> list Preimage).

Abbreviation world := (hworld S Msg RI Ident ID FP P Preimage).
Abbreviation bundle := (Bundle Msg RI Ident).

(** A bundle of one message, as the buffer knows it. *)
Definition bundleHash (b : bundle) : option MessageHash :=
  match b_Messages b with
  | [msg] => msgHash msg b
  | _ => None
  end.

(** The hashes of the messages that wait and of those being processed. *)
Definition waiting (w : world) : hashSet := mb_messages (mcmb_mb (hw_inProcess w)).
Definition processing (w : world) : hashSet := mb_processingMessages (mcmb_mb (hw_inProcess w)).

Lemma waiting_moved (s : S) (mb : MessageBuffer) (A : absBuffer meteredCmixMessage) (s' : S) (mb' : MessageBuffer) h m :
  mb_rep s mb A -> mb_rep s' mb' (<[h := (m, true)]> A) ->
  mb_messages mb' = delete h (mb_messages mb).
Proof.
  intros [Hm _ _ _ _] [Hm' _ _ _ _]. apply map_eq. intros k. specialize (Hm k). specialize (Hm' k).
  destruct (decide (k = h)) as [->|Hne].
  - rewrite lookup_delete_eq. apply eq_None_not_Some. rewrite Hm', lookup_insert_eq. by intros [x [=]].
  - rewrite lookup_delete_ne by done. rewrite lookup_insert_ne in Hm' by done. rewrite <- Hm in Hm'.
    destruct (mb_messages mb !! k) as [[]|], (mb_messages mb' !! k) as [[]|]; try done.
    + by destruct (proj2 Hm').
    + by destruct (proj1 Hm').
Qed.

Lemma delete_keys (ms : hashSet) h : is_Some (ms !! h) -> iter ms ≡ₚ h :: iter (delete h ms).
Proof.
  intros Hh. apply NoDup_Permutation.
  - apply map_order_nodup.
  - apply list.NoDup_cons. split; [|apply map_order_nodup].
    rewrite map_order_elem, lookup_delete_eq. by intros [].
  - intros k. rewrite elem_of_cons, !map_order_elem. destruct (decide (k = h)) as [->|Hne].
    + split; [by left|done].
    + rewrite lookup_delete_ne by done. split; [by right|]. by intros [|].
Qed.

(** Room of the channel when [q] is queued. *)
Definition room (w : world) : nat :=
  Z.to_nat (MessageReceptionBuffLen (hw_param w) - Z.of_nat (length (hw_messageReception w))).

Lemma trySend_queue (w : world) b :
  hw_messageReception (trySend w b) = hw_messageReception w ++ take (room w) [b] /\
  room (trySend w b) = (room w - 1)%nat.
Proof.
  unfold trySend, room. case_match eqn:E.
  - apply Z.ltb_lt in E. cbn [hw_messageReception hw_setQueue hw_param].
    rewrite length_app. cbn [length]. rewrite (take_ge [b]) by (simpl; lia). split; [done|lia].
  - apply Z.ltb_ge in E. replace (Z.to_nat _) with 0%nat by lia. simpl. by rewrite app_nil_r.
Qed.

Lemma trySend_fields (w : world) b :
  hw_store (trySend w b) = hw_store w /\ hw_inProcess (trySend w b) = hw_inProcess w /\
  hw_param (trySend w b) = hw_param w /\ hw_calls (trySend w b) = hw_calls w /\
  hw_tasks (trySend w b) = hw_tasks w.
Proof. unfold trySend. by case_match. Qed.

(** A round with a message to give. *)
Lemma recheck_round (w : world) A now h0 m0 :
  mcmb_rep (hw_store w) (hw_inProcess w) A -> A !! h0 = Some (m0, false) ->
  exists h m b w', recheckStep iter now w = Done w' true /\ is_Some (waiting w !! h) /\
    mcmb_rep (hw_store w') (hw_inProcess w') (<[h := (m, true)]> A) /\
    waiting w' = delete h (waiting w) /\ bundleHash b = Some h /\
    hw_messageReception w' = hw_messageReception w ++ take (room w) [b] /\
    room w' = (room w - 1)%nat /\ hw_calls w' = hw_calls w /\ is_Some (A !! h).
Proof.
  intros Hrep Hh0.
  destruct (MeteredNext_some iter _ _ A h0 m0 now Hrep Hh0) as (h & m & [[msg ri] i] & s' & b' & Hh & Hg & Hn & Hrep').
  set (b := mkBundle ri [msg] None i). set (w1 := hw_set w s' b').
  exists h, (mm_setCount m (u64 (mm_Count m + 1))), b, (trySend w1 b).
  destruct (trySend_fields w1 b) as (E1 & E2 & E3 & E4 & E5).
  destruct (trySend_queue w1 b) as [Eq Er].
  split.
  { unfold recheckStep. erewrite bind_Done; [|unfold onInProcess; by apply zoom_Done].
    cbv beta iota. by erewrite bind_Done by done. }
  split; [apply (mr_messages _ _ _ (mc_rep _ _ _ Hrep)); eauto|].
  split; [by rewrite E1, E2|]. split.
  { unfold waiting. rewrite E2. eapply waiting_moved; [apply Hrep|apply Hrep']. }
  split.
  { unfold bundleHash, msgHash. cbn [b_Messages b b_RoundInfo b_Identity].
    destruct (mc_entries _ _ _ Hrep _ _ _ Hh) as (-> & _ & _). unfold genuine in Hg. cbn [fst snd] in Hg.
    by rewrite Hg. }
  split; [by rewrite Eq|]. split; [by rewrite Er|]. split; [done|]. by eexists.
Qed.

Lemma recheck_all (n : nat) (w : world) A fuel now :
  mcmb_rep (hw_store w) (hw_inProcess w) A -> size (waiting w) = n -> (n < fuel)%nat ->
  exists w' bs A', recheckInProgress iter fuel now w = Done w' tt /\
    (bundleHash <$> bs) ≡ₚ Some <$> iter (waiting w) /\
    hw_messageReception w' = hw_messageReception w ++ take (room w) bs /\
    waiting w' = ∅ /\ hw_calls w' = hw_calls w /\
    mcmb_rep (hw_store w') (hw_inProcess w') A' /\ (forall h, is_Some (A' !! h) <-> is_Some (A !! h)).
Proof.
  revert w A fuel. induction n as [|n IH]; intros w A fuel Hrep Hn Hf; (destruct fuel as [|fuel]; [lia|]);
    cbn [recheckInProgress].
  - apply map_size_empty_iff in Hn.
    assert (forall h m, A !! h ≠ Some (m, false)) as Hno.
    { intros h m Hh. assert (is_Some (waiting w !! h)) as []; [|by rewrite Hn in *].
      apply (mr_messages _ _ _ (mc_rep _ _ _ Hrep)). eauto. }
    assert (recheckStep iter now w = Done w false) as Hs.
    { unfold recheckStep. erewrite bind_Done.
      2: { unfold onInProcess. apply zoom_Done. by apply MeteredNext_none with A. }
      by destruct w. }
    act_step. exists w, [], A. split; [done|]. rewrite Hn.
    assert (iter (∅ : hashSet) = []) as ->.
    { destruct (iter ∅) as [|k l] eqn:E; [done|]. assert (k ∈ iter ∅) as Hk by (rewrite E; by left).
      apply map_order_elem in Hk as [? Hk]. by rewrite lookup_empty in Hk. }
    rewrite take_nil, app_nil_r. by split_and!.
  - destruct (no_unprocessed A) as [(h0 & m0 & Hh0)|Hno].
    2: { assert (waiting w = ∅) as Hemp.
         { apply map_eq. intros h. rewrite lookup_empty. apply eq_None_not_Some.
           intros [m Hm]%(mr_messages _ _ _ (mc_rep _ _ _ Hrep)). by apply (Hno h m). }
         by rewrite Hemp, map_size_empty in Hn. }
    destruct (recheck_round w A now h0 m0 Hrep Hh0) as
      (h & m & b & w1 & Hs & Hin & Hrep1 & Hw1 & Hb & Hq1 & Hr1 & Hc1 & HhA).
    act_step. destruct (IH w1 (<[h := (m, true)]> A) fuel Hrep1) as
      (w' & bs & A' & Hrun & Hperm & Hq & Hemp & Hc & Hrep' & HA').
    { rewrite Hw1, map_size_delete. destruct Hin as [u ->]. lia. }
    { lia. }
    exists w', (b :: bs), A'. split; [done|]. split.
    { rewrite fmap_cons, Hb. rewrite (delete_keys (waiting w) h Hin). rewrite fmap_cons, Hperm.
      by rewrite Hw1. }
    split; [|split; [done|split; [congruence|split; [done|]]]].
    + rewrite Hq, Hq1, Hr1, <- app_assoc. f_equal. destruct (room w) as [|k]; [done|]. simpl. by rewrite take_nil, Nat.sub_0_r.
    + intros k. rewrite HA'. destruct (decide (k = h)) as [->|Hne].
      * rewrite lookup_insert_eq. split; [done|eauto].
      * by rewrite lookup_insert_ne by done.
Qed.

(** C25: In every reachable state the recheck loop, when no other thread acts
    between its rounds, ends within one more round than messages wait: no
    message waits any more, every one of them is being processed, and the
    channel has received the bundles of as many as it has room for, each
    message once.  Those beyond the room are in no queue: they stay in process,
    where no later recheck looks. *)
Theorem recheck_drains param v std now now' (s s0 : S) e (w0 w : world) fuel :
  kv_Get v s inProcessKey 0 = inl e ->
  NewHandler iter param v std now s = Done s0 w0 ->
  star (hStep iter iterS iterC) w0 w -> (size (waiting w) < fuel)%nat ->
  exists w' bs, recheckInProgress iter fuel now' w = Done w' tt /\
    (bundleHash <$> bs) ≡ₚ Some <$> iter (waiting w) /\
    hw_messageReception w' = hw_messageReception w ++ take (room w) bs /\
    waiting w' = ∅ /\ (forall h, is_Some (processing w' !! h) <-> inBuffer w h).
Proof.
  intros Hget Hnew Hstar Hf.
  destruct (reachable_new iter iterS iterC param v std now s s0 e w0 w Hget Hnew Hstar) as (A & Hok).
  destruct (recheck_all (size (waiting w)) w A fuel now' (ho_rep _ _ Hok) eq_refl Hf)
    as (w' & bs & A' & Hrun & Hperm & Hq & Hemp & _ & Hrep' & HA').
  exists w', bs. split_and!; [done..|]. intros h. rewrite (inBuffer_abs _ _ _ Hok), <- HA'.
  pose proof (mc_rep _ _ _ Hrep') as Hr. unfold processing. rewrite (mr_processing _ _ _ Hr h). split.
  - intros [m Hm]. eauto.
  - intros [[m []] Hm]; [eauto|]. assert (is_Some (waiting w' !! h)) as Hx
      by (apply (mr_messages _ _ _ Hr); eauto). rewrite Hemp in Hx. by destruct Hx.
Qed.
End recheck.

(** ** A run: a message nobody waits for, added and handled *)

Module HandlerExample.
Import BufferExample SihExample.

#[export] Instance ex_formats : CmixFormats Z Z Z := {
  msg_Marshal z := posBytes (encode z);
  msg_Unmarshal b := decode (bytesPos b);
  msg_GetPrimeByteLen _ := 1;
  ri_Marshal z := Some (posBytes (encode z));
  ri_Unmarshal b := decode (bytesPos b);
  ri_Timestamps _ := [5];
  states_QUEUED := 0;
  blake2b_256 b := array_of 32 b;
  ident_codec := countableCodec Z;
}.

#[export] Instance ex_formats_laws : CmixFormatsLaws Z Z Z.
Proof.
  split.
  - intros m. unfold msg_Unmarshal, msg_Marshal, ex_formats. by rewrite bytesPos_posBytes, decode_encode.
  - intros r b [= <-]. unfold ri_Unmarshal, ex_formats. by rewrite bytesPos_posBytes, decode_encode.
  - done.
  - intros b. apply length_array_of.
Qed.

#[export] Instance ex_fields : CmixFields Z Z Z Z := {
  msg_GetKeyFP z := z;
  msg_GetSIH _ := [];
  msg_GetContents _ := [];
  ident_Source z := z;
}.

#[export] Instance meteredCmixMessage_eq_dec : EqDecision meteredCmixMessage.
Proof. solve_decision. Defined.
#[export] Instance meteredCmixMessage_countable : Countable meteredCmixMessage.
Proof.
  refine (inj_countable' (fun m => (mm_M m, mm_Ri m, mm_Identity m, mm_Count m, mm_Timestamp m))
    (fun '(a, b, c, d, e) => mkMetered a b c d e) _). by intros [].
Defined.
#[export] Instance ex_metered_codec : JsonCodec meteredCmixMessage := countableCodec _.
#[export] Instance ex_metered_json : MeteredJson.
Proof. done. Qed.

Abbreviation ex_world := (hworld MemStore Z Z Z Z Z Z (list byte * string)).
Abbreviation ex_iter := (keysInOrder (K := MessageHash) (V := unit)).

Definition ex_none : ex_world :=
  mkHWorld ∅ message_GetDefaultParams [] 0 (mkMeteredBuffer (mkMessageBuffer ∅ ∅ NewKV "") NewKV "")
    (newFingerprints 0) NewServices newFallthroughManager [] [] [] RIdle [].

Definition ex_state {T} (o : outcome T ex_world) : ex_world :=
  match o with Done _ w => w | _ => ex_none end.
Definition ex_w0 : ex_world :=
  Eval vm_compute in ex_state (NewHandler ex_iter message_GetDefaultParams NewKV 9 7 (∅ : MemStore)).

Definition ex_bundle : Bundle Z Z Z := mkBundle 4 [11] (Some 0%nat) 9.
Definition ex_w1 : ex_world := Eval vm_compute in trySend ex_w0 ex_bundle.
Definition ex_w2 : ex_world := Eval vm_compute in default ex_none (takeBundle ex_w1).

(** Runs the thread at a position. *)
Definition ex_run (i : nat) (w : ex_world) : option ex_world :=
  t ← hw_tasks w !! i;
  match runTask ex_iter ex_orderS ex_orderC 7 t
          (hw_setTasks w (take i (hw_tasks w) ++ drop (S i) (hw_tasks w))) with
  | Done w' ts => Some (hw_setTasks w' (hw_tasks w' ++ ts))
  | _ => None
  end.

(** The message is added; another component registers its fingerprint; the
    thread signals the group, finds the processor, and removes the message. *)
Definition ex_w3 : ex_world := Eval vm_compute in default ex_none (ex_run 0 ex_w2).
End HandlerExample.
Import BufferExample SihExample HandlerExample.


Abbreviation ex_step := (hStep ex_iter ex_orderS ex_orderC (P := Z)).

Lemma ex_new : exists s0, NewHandler ex_iter message_GetDefaultParams NewKV 9 7 (∅ : MemStore) = Done s0 ex_w0.
Proof. exists (hw_store ex_w0). vm_refl. Qed.

(** A run of a thread that may run is a step. *)
Lemma ex_run_step (i : nat) (w w' : ex_world) :
  match hw_tasks w !! i with Some t => ready w t | None => True end -> ex_run i w = Some w' -> ex_step w w'.
Proof.
  unfold ex_run. destruct (hw_tasks w !! i) as [t|] eqn:Et; [|done]. intros Hready Hrun. cbn in Hrun.
  destruct (runTask _ _ _ _ _ _) as [w1 ts| |] eqn:Er; [|done|done]. injection Hrun as <-.
  eapply step_task; [|exact Hready|exact Er]. symmetry. by apply take_drop_middle.
Qed.

Lemma ex_added : star ex_step ex_w0 ex_w3.
Proof.
  apply (star_step _ ex_w0 ex_w1); [exact (step_arrive _ _ _ ex_w0 ex_bundle)|].
  apply (star_step _ ex_w1 ex_w2);
    [apply (step_take ex_iter ex_orderS ex_orderC ex_w1 ex_w2); vm_refl|].
  apply (star_step _ ex_w2 ex_w3); [apply (ex_run_step 0); [exact I|vm_refl]|].
  apply star_refl.
Qed.



Lemma recheck_drains_witness :
  exists w' bs, recheckInProgress ex_iter 2 8 ex_w3 = Done w' tt /\
    (bundleHash <$> bs) ≡ₚ Some <$> ex_iter (waiting ex_w3) /\
    hw_messageReception w' = hw_messageReception ex_w3 ++ take (room ex_w3) bs /\
    waiting w' = ∅ /\ (forall h, is_Some (processing w' !! h) <-> inBuffer ex_w3 h).
Proof.
  destruct ex_new as [s0 Hnew].
  apply (recheck_drains ex_iter ex_orderS ex_orderC message_GetDefaultParams NewKV 9 7 8
    (∅ : MemStore) s0 errNotFound ex_w0 ex_w3 2); [reflexivity|exact Hnew|exact ex_added|].
  assert (size (waiting ex_w3) = 1%nat) as -> by (vm_refl). lia.
Defined.
