(* ===== verification/SingleMessage.v ===== *)
(** * Single-use message formats

    [single/message]: the request, its payload, the further parts of a request
    and the parts of a response, all byte arrays whose fields are slices of one
    array, and the collator that puts the parts of a message together.  The
    formats that carry a part implement the interface [Part]. *)

From S2P Require Import Prelude GoBytes Effects.

(** The slice of a field holds one byte. *)
Definition getByte (mem : list byte) (s : slice) : result Z :=
  b ← sget mem s 0; Ok (Z_of_byte b).

(** [contents[:binary.BigEndian.Uint16(size)]]: a size beyond the capacity
    panics. *)
Definition sizedContents (mem : list byte) (size contents : slice) : result (list byte) :=
  n ← sget_be 2 mem size;
  v ← reslice mem contents 0 n;
  Ok (sread mem v).

(** The body of the three [SetContents]: contents that are too long panic. *)
Definition setSized (mem : list byte) (size contents : slice) (b : list byte) : result (list byte) :=
  if (s_len contents <? length b)%nat then Panic
  else
    mem ← sput_be 2 mem size (u16 (Z.of_nat (length b)));
    Ok (scopy mem contents b).

(** ** Part *)

Class Part (T : Type) := {
  GetNumParts : T -> result Z;
  GetPartNum : T -> result Z;
  GetContents : T -> result (list byte);
}.

(** ** Response parts *)

Definition resPartVersionLen : Z := 1.
Definition resPartPartNumLen : Z := 1.
Definition resPartMaxPartsLen : Z := 1.
Definition resPartSizeLen : Z := 2.
Definition resPartMinSize : Z :=
  resPartVersionLen + resPartPartNumLen + resPartMaxPartsLen + resPartSizeLen.

Record ResponsePart := mkResponsePart {
  rsp_mem : list byte;
  rsp_data : slice;
  rsp_version : slice;
  rsp_partNum : slice;
  rsp_maxParts : slice;
  rsp_size : slice;
  rsp_contents : slice;
}.

Definition rsp_setMem (m : ResponsePart) (mem : list byte) : ResponsePart :=
  mkResponsePart mem (rsp_data m) (rsp_version m) (rsp_partNum m) (rsp_maxParts m) (rsp_size m)
    (rsp_contents m).

Definition mapResponsePart (data : list byte) : result ResponsePart :=
  let w := whole data in
  version ← reslice data w 0 resPartVersionLen;
  partNum ← reslice data w resPartVersionLen (resPartVersionLen + resPartPartNumLen);
  maxParts ← reslice data w (resPartVersionLen + resPartPartNumLen)
               (resPartVersionLen + resPartMaxPartsLen + resPartPartNumLen);
  size ← reslice data w (resPartVersionLen + resPartMaxPartsLen + resPartPartNumLen) resPartMinSize;
  contents ← reslice data w resPartMinSize (Z.of_nat (length data));
  Ok (mkResponsePart data w version partNum maxParts size contents).

Definition NewResponsePart (externalPayloadSize : Z) : result ResponsePart :=
  if externalPayloadSize <? resPartMinSize then Panic
  else
    data ← makeBytes externalPayloadSize;
    rmp ← mapResponsePart data;
    mem ← sset (rsp_mem rmp) (rsp_version rmp) 0 x00;
    Ok (rsp_setMem rmp mem).

Definition UnmarshalResponsePart (data : list byte) : result ResponsePart :=
  if Z.of_nat (length data) <? resPartMinSize then
    Err (Errorf "size of data (%d) must be at least %d" [Z.of_nat (length data); resPartMinSize])
  else mapResponsePart data.

Definition ResponsePart_Marshal (m : ResponsePart) : list byte := sread (rsp_mem m) (rsp_data m).
Definition ResponsePart_GetPartNum (m : ResponsePart) : result Z := getByte (rsp_mem m) (rsp_partNum m).
Definition ResponsePart_SetPartNum (m : ResponsePart) (num : Z) : ResponsePart :=
  rsp_setMem m (scopy (rsp_mem m) (rsp_partNum m) [byte_of_Z num]).
Definition ResponsePart_GetNumParts (m : ResponsePart) : result Z := getByte (rsp_mem m) (rsp_maxParts m).
Definition ResponsePart_SetNumParts (m : ResponsePart) (max : Z) : ResponsePart :=
  rsp_setMem m (scopy (rsp_mem m) (rsp_maxParts m) [byte_of_Z max]).
Definition ResponsePart_GetContents (m : ResponsePart) : result (list byte) :=
  sizedContents (rsp_mem m) (rsp_size m) (rsp_contents m).
Definition ResponsePart_GetContentsSize (m : ResponsePart) : result Z := sget_be 2 (rsp_mem m) (rsp_size m).
Definition ResponsePart_GetMaxContentsSize (m : ResponsePart) : Z := Z.of_nat (s_len (rsp_contents m)).
Definition ResponsePart_SetContents (m : ResponsePart) (contents : list byte) : result ResponsePart :=
  mem ← setSized (rsp_mem m) (rsp_size m) (rsp_contents m) contents;
  Ok (rsp_setMem m mem).

#[export] Instance ResponsePart_Part : Part ResponsePart := {
  GetNumParts := ResponsePart_GetNumParts;
  GetPartNum := ResponsePart_GetPartNum;
  GetContents := ResponsePart_GetContents;
}.

(** ** Request parts *)

Definition reqPartPartNumLen : Z := 1.
Definition reqPartSizeLen : Z := 2.
Definition reqPartMinSize : Z := reqPartPartNumLen + reqPartSizeLen.

Record RequestPart := mkRequestPart {
  rqp_mem : list byte;
  rqp_data : slice;
  rqp_partNum : slice;
  rqp_size : slice;
  rqp_contents : slice;
}.

Definition rqp_setMem (m : RequestPart) (mem : list byte) : RequestPart :=
  mkRequestPart mem (rqp_data m) (rqp_partNum m) (rqp_size m) (rqp_contents m).

Definition mapRequestPart (data : list byte) : result RequestPart :=
  let w := whole data in
  partNum ← reslice data w 0 reqPartPartNumLen;
  size ← reslice data w reqPartPartNumLen reqPartMinSize;
  contents ← reslice data w reqPartMinSize (Z.of_nat (length data));
  Ok (mkRequestPart data w partNum size contents).

Definition NewRequestPart (externalPayloadSize : Z) : result RequestPart :=
  if externalPayloadSize <? reqPartMinSize then Panic
  else data ← makeBytes externalPayloadSize; mapRequestPart data.

Definition GetRequestPartContentsSize (externalPayloadSize : Z) : Z :=
  externalPayloadSize - reqPartMinSize.

Definition UnmarshalRequestPart (b : list byte) : result RequestPart :=
  if Z.of_nat (length b) <? reqPartMinSize then
    Err (Errorf "size of data (%d) must be at least %d" [Z.of_nat (length b); reqPartMinSize])
  else mapRequestPart b.

Definition RequestPart_Marshal (m : RequestPart) : list byte := sread (rqp_mem m) (rqp_data m).
Definition RequestPart_GetPartNum (m : RequestPart) : result Z := getByte (rqp_mem m) (rqp_partNum m).
Definition RequestPart_SetPartNum (m : RequestPart) (num : Z) : RequestPart :=
  rqp_setMem m (scopy (rqp_mem m) (rqp_partNum m) [byte_of_Z num]).
(** The number of parts is in the first part only. *)
Definition RequestPart_GetNumParts (m : RequestPart) : result Z := Ok 0.
Definition RequestPart_GetContents (m : RequestPart) : result (list byte) :=
  sizedContents (rqp_mem m) (rqp_size m) (rqp_contents m).
Definition RequestPart_GetContentsSize (m : RequestPart) : result Z := sget_be 2 (rqp_mem m) (rqp_size m).
Definition RequestPart_GetMaxContentsSize (m : RequestPart) : Z := Z.of_nat (s_len (rqp_contents m)).
Definition RequestPart_SetContents (m : RequestPart) (contents : list byte) : result RequestPart :=
  mem ← setSized (rqp_mem m) (rqp_size m) (rqp_contents m) contents;
  Ok (rqp_setMem m mem).

#[export] Instance RequestPart_Part : Part RequestPart := {
  GetNumParts := RequestPart_GetNumParts;
  GetPartNum := RequestPart_GetPartNum;
  GetContents := RequestPart_GetContents;
}.

(** ** Requests *)

Definition requestVersionSize : Z := 1.

Record Request := mkRequest {
  req_mem : list byte;
  req_data : slice;
  req_version : slice;
  req_pubKey : slice;
  req_payload : slice;
}.

Definition req_setMem (m : Request) (mem : list byte) : Request :=
  mkRequest mem (req_data m) (req_version m) (req_pubKey m) (req_payload m).

Definition mapRequest (data : list byte) (pubKeySize : Z) : result Request :=
  let w := whole data in
  version ← reslice data w 0 requestVersionSize;
  pubKey ← reslice data w requestVersionSize (requestVersionSize + pubKeySize);
  payload ← reslice data w (requestVersionSize + pubKeySize) (Z.of_nat (length data));
  Ok (mkRequest data w version pubKey payload).

(** The size is compared with the public key's alone: one byte too little
    passes the check and panics in [mapRequest]. *)
Definition NewRequest (externalPayloadSize pubKeySize : Z) : result Request :=
  if externalPayloadSize <? pubKeySize then Panic
  else
    data ← makeBytes externalPayloadSize;
    tm ← mapRequest data pubKeySize;
    mem ← sset (req_mem tm) (req_version tm) 0 x00;
    Ok (req_setMem tm mem).

Definition GetRequestPayloadSize (externalPayloadSize pubKeySize : Z) : Z :=
  externalPayloadSize - requestVersionSize - pubKeySize.

Definition UnmarshalRequest (b : list byte) (pubKeySize : Z) : result Request :=
  if Z.of_nat (length b) <? pubKeySize then
    Err (Errorf "size of data (%d) must be at least %d" [Z.of_nat (length b); pubKeySize])
  else mapRequest b pubKeySize.

Definition Request_Marshal (m : Request) : list byte := sread (req_mem m) (req_data m).
(** [GetPubKey] and [SetPubKey] convert to and from a group element: the bytes
    are what they exchange with the group. *)
Definition Request_pubKeyBytes (m : Request) : list byte := sread (req_mem m) (req_pubKey m).
Definition Request_SetPubKey (m : Request) (leftpadded : list byte) : Request :=
  req_setMem m (scopy (req_mem m) (req_pubKey m) leftpadded).
Definition Request_Version (m : Request) : result Z := getByte (req_mem m) (req_version m).
Definition Request_GetPubKeySize (m : Request) : Z := Z.of_nat (s_len (req_pubKey m)).
Definition Request_GetPayload (m : Request) : list byte := sread (req_mem m) (req_payload m).
Definition Request_GetPayloadSize (m : Request) : Z := Z.of_nat (s_len (req_payload m)).
Definition Request_SetPayload (m : Request) (payload : list byte) : result Request :=
  if (length payload =? s_len (req_payload m))%nat
  then Ok (req_setMem m (scopy (req_mem m) (req_payload m) payload))
  else Panic.

(** ** Request payloads *)

Definition nonceSize : Z := 8.
Definition numRequestPartsSize : Z := 1.
Definition maxResponsePartsSize : Z := 1.
Definition sizeSize : Z := 2.
Definition requestMinSize : Z := nonceSize + numRequestPartsSize + maxResponsePartsSize + sizeSize.

Record RequestPayload := mkRequestPayload {
  rp_mem : list byte;
  rp_data : slice;
  rp_nonce : slice;
  rp_numRequestParts : slice;
  rp_maxResponseParts : slice;
  rp_size : slice;
  rp_contents : slice;
}.

Definition rp_setMem (m : RequestPayload) (mem : list byte) : RequestPayload :=
  mkRequestPayload mem (rp_data m) (rp_nonce m) (rp_numRequestParts m) (rp_maxResponseParts m)
    (rp_size m) (rp_contents m).

Definition mapRequestPayload (data : list byte) : result RequestPayload :=
  let w := whole data in
  nonce ← reslice data w 0 nonceSize;
  numRequestParts ← reslice data w nonceSize (nonceSize + numRequestPartsSize);
  maxResponseParts ← reslice data w (nonceSize + numRequestPartsSize)
                       (nonceSize + maxResponsePartsSize + numRequestPartsSize);
  size ← reslice data w (nonceSize + numRequestPartsSize + maxResponsePartsSize) requestMinSize;
  contents ← reslice data w requestMinSize (Z.of_nat (length data));
  Ok (mkRequestPayload data w nonce numRequestParts maxResponseParts size contents).

Definition RequestPayload_SetMaxResponseParts (m : RequestPayload) (num : Z) : RequestPayload :=
  rp_setMem m (scopy (rp_mem m) (rp_maxResponseParts m) [byte_of_Z num]).
Definition RequestPayload_SetNumRequestParts (m : RequestPayload) (num : Z) : RequestPayload :=
  rp_setMem m (scopy (rp_mem m) (rp_numRequestParts m) [byte_of_Z num]).
Definition RequestPayload_SetContents (m : RequestPayload) (contents : list byte) : result RequestPayload :=
  mem ← setSized (rp_mem m) (rp_size m) (rp_contents m) contents;
  Ok (rp_setMem m mem).

Definition NewRequestPayload (payloadSize : Z) (payload : list byte) (maxMsgs : Z) : result RequestPayload :=
  if payloadSize <? requestMinSize then Panic
  else
    data ← makeBytes payloadSize;
    mp ← mapRequestPayload data;
    RequestPayload_SetContents (RequestPayload_SetMaxResponseParts mp maxMsgs) payload.

Definition GetRequestContentsSize (payloadSize : Z) : Z := payloadSize - requestMinSize.

Definition UnmarshalRequestPayload (b : list byte) : result RequestPayload :=
  if Z.of_nat (length b) <? requestMinSize then
    Err (Errorf "size of data (%d) must be at least %d" [Z.of_nat (length b); requestMinSize])
  else mapRequestPayload b.

Definition RequestPayload_Marshal (m : RequestPayload) : list byte := sread (rp_mem m) (rp_data m).
Definition RequestPayload_GetNonce (m : RequestPayload) : result Z := sget_be 8 (rp_mem m) (rp_nonce m).
(** [SetNonce] reads the nonce from a random source, which gives the bytes or an
    error. *)
Definition RequestPayload_SetNonce (m : RequestPayload) (rng : error + list byte) : result RequestPayload :=
  match rng with
  | inl e => Err (Wrapf "failed to generate nonce: %+v" [] e)
  | inr b => Ok (rp_setMem m (scopy (rp_mem m) (rp_nonce m) b))
  end.
Definition RequestPayload_GetMaxResponseParts (m : RequestPayload) : result Z :=
  getByte (rp_mem m) (rp_maxResponseParts m).
Definition RequestPayload_GetNumRequestParts (m : RequestPayload) : result Z :=
  getByte (rp_mem m) (rp_numRequestParts m).
Definition RequestPayload_GetPartNum (m : RequestPayload) : result Z := Ok 0.
Definition RequestPayload_GetContents (m : RequestPayload) : result (list byte) :=
  sizedContents (rp_mem m) (rp_size m) (rp_contents m).
Definition RequestPayload_GetContentsSize (m : RequestPayload) : result Z := sget_be 2 (rp_mem m) (rp_size m).
Definition RequestPayload_GetMaxContentsSize (m : RequestPayload) : Z := Z.of_nat (s_len (rp_contents m)).

#[export] Instance RequestPayload_Part : Part RequestPayload := {
  GetNumParts := RequestPayload_GetNumRequestParts;
  GetPartNum := RequestPayload_GetPartNum;
  GetContents := RequestPayload_GetContents;
}.

(** ** The collator *)

Definition unsetCollatorMax : Z := -1.

(** A slot is nil until its part has arrived. *)
Record Collator := mkCollator {
  c_payloads : list (option (list byte));
  c_maxNum : Z;
  c_count : Z;
}.

Definition NewCollator (messageCount : Z) : Collator :=
  mkCollator (replicate (Z.to_nat messageCount) None) unsetCollatorMax 0.

Definition c_setMax (c : Collator) (n : Z) : Collator := mkCollator (c_payloads c) n (c_count c).

(** [bytes.Join(c.payloads, nil)] *)
Definition joinPayloads (l : list (option (list byte))) : list byte := concat (default [] <$> l).

(** The payload and [true] when the last part has arrived. *)
Definition Collate {T} `{Part T} (part : T) : act Collator (list byte * bool) :=
  c ← gets id;
  _ ← (if c_maxNum c =? unsetCollatorMax then
         n ← pureResult (GetNumParts part);
         if Z.of_nat (length (c_payloads c)) <? n then
           throw (Errorf "max number of parts reported by payload %d is larger than collator expected (%d)"
                    [n; Z.of_nat (length (c_payloads c))])
         else modify (fun c => c_setMax c n)
       else mret tt);
  c ← gets id;
  partNum ← pureResult (GetPartNum part);
  if c_maxNum c <=? partNum then
    throw (Errorf "payload part number %d greater than max number of expected parts (%d)"
             [partNum; c_maxNum c])
  else
    slot ← pureResult (index (c_payloads c) partNum);
    match slot with
    | Some _ => throw (Errorf "a payload for the part number %d already exists in the list" [partNum])
    | None =>
        contents ← pureResult (GetContents part);
        payloads ← pureResult (store_at (c_payloads c) partNum (Some contents));
        let c := mkCollator payloads (c_maxNum c) (c_count c + 1) in
        _ ← modify (fun _ => c);
        if c_count c <? c_maxNum c then mret ([], false)
        else mret (joinPayloads (c_payloads c), true)
    end.

(** ** Layout *)

(** The size and contents of a format behind a header [pre]. *)
Definition sized (pre c rest : list byte) : list byte :=
  pre ++ be_encode 2 (Z.of_nat (length c)) ++ c ++ rest.

Lemma length_sized pre c rest : length (sized pre c rest) = (length pre + 2 + length c + length rest)%nat.
Proof. unfold sized. rewrite !length_app, length_be_encode. lia. Qed.

Lemma setSized_ok pre sz body c :
  length sz = 2%nat -> (length c <= length body)%nat -> Z.of_nat (length c) < 65536 ->
  setSized (pre ++ sz ++ body) (Slice (length pre) 2) (Slice (length pre + 2) (length body)) c
    = Ok (sized pre c (drop (length c) body)).
Proof.
  intros Hsz Hc Hlt. unfold setSized. cbn [s_len]. rewrite (proj2 (Nat.ltb_ge _ _)) by lia.
  rewrite (wrapu_small 16) by (unfold is_u; lia). unfold sput_be. cbn [s_len s_off].
  rewrite decide_True by done. cbn [mbind result_bind]. f_equal. unfold splice, scopy, splice, sized.
  cbn [s_len s_off]. rewrite take_app_length, length_be_encode.
  rewrite (take_ge c) by lia. rewrite drop_app_ge by lia.
  replace (length pre + 2 - length pre)%nat with (length sz) by lia. rewrite drop_app_length.
  rewrite (app_assoc pre), take_app_length' by (rewrite length_app, length_be_encode; lia).
  rewrite <- app_assoc. do 3 f_equal. rewrite drop_app_ge by (rewrite length_app, length_be_encode; lia).
  f_equal. rewrite length_app, length_be_encode. lia.
Qed.

Lemma sized_size pre c rest :
  Z.of_nat (length c) < 65536 ->
  sget_be 2 (sized pre c rest) (Slice (length pre) 2) = Ok (Z.of_nat (length c)).
Proof.
  intros Hlt. unfold sget_be, sread, sized. cbn [s_len s_off]. rewrite decide_True by done.
  rewrite drop_app_length, take_take, take_app_length' by (by rewrite length_be_encode).
  by rewrite (be_decode_encode_u 2) by (unfold is_u; simpl; lia).
Qed.

Lemma sizedContents_ok pre c rest n :
  Z.of_nat (length c) < 65536 ->
  sizedContents (sized pre c rest) (Slice (length pre) 2) (Slice (length pre + 2) n) = Ok c.
Proof.
  intros Hlt. unfold sizedContents. rewrite sized_size by done. cbn [mbind result_bind].
  rewrite reslice_prefix by (cbn [s_off]; rewrite ?length_sized; lia). cbn [mbind result_bind s_off].
  f_equal. unfold sread, sized. cbn [s_len s_off]. rewrite Nat2Z.id.
  rewrite app_assoc, drop_app_length' by (rewrite length_app, length_be_encode; lia).
  apply take_app_length.
Qed.

(** A size field larger than the space that is there. *)
Lemma sizedContents_panic mem size contents z :
  sget_be 2 mem size = Ok z -> Z.of_nat (s_cap mem contents) < z -> sizedContents mem size contents = Panic.
Proof.
  intros Hz Hlt. unfold sizedContents. rewrite Hz. cbn [mbind result_bind]. unfold reslice.
  rewrite (proj2 (Z.leb_gt z _)) by lia. by rewrite andb_false_r.
Qed.

(** Solves an equation of slices made by [reslice_whole]. *)
Ltac slice_eq := cbn [mbind result_bind]; repeat f_equal; lia.

(** *** Response parts *)

Definition responseView (mem : list byte) : ResponsePart :=
  mkResponsePart mem (whole mem) (Slice 0 1) (Slice 1 1) (Slice 2 1) (Slice 3 2) (Slice 5 (length mem - 5)).

Lemma mapResponsePart_ok mem : (5 <= length mem)%nat -> mapResponsePart mem = Ok (responseView mem).
Proof.
  intros Hl. unfold mapResponsePart, resPartMinSize, resPartVersionLen, resPartPartNumLen,
    resPartMaxPartsLen, resPartSizeLen. rewrite !reslice_whole by lia. unfold responseView. slice_eq.
Qed.

Definition responseBytes (size : nat) (num max : Z) (c : list byte) : list byte :=
  sized [x00; byte_of_Z num; byte_of_Z max] c (replicate (size - 5 - length c) x00).

Lemma length_responseBytes size num max c :
  (5 + length c <= size)%nat -> length (responseBytes size num max c) = size.
Proof. intros Hc. unfold responseBytes. rewrite length_sized, length_replicate. simpl. lia. Qed.

Lemma responseView_SetPartNum a b c tl n :
  ResponsePart_SetPartNum (responseView (a :: b :: c :: tl)) n = responseView (a :: byte_of_Z n :: c :: tl).
Proof. reflexivity. Qed.

Lemma responseView_SetNumParts a b c tl n :
  ResponsePart_SetNumParts (responseView (a :: b :: c :: tl)) n = responseView (a :: b :: byte_of_Z n :: tl).
Proof. reflexivity. Qed.

Lemma responseView_SetContents h1 h2 h3 z1 z2 body c :
  (length c <= length body)%nat -> Z.of_nat (length c) < 65536 ->
  ResponsePart_SetContents (responseView (h1 :: h2 :: h3 :: z1 :: z2 :: body)) c
    = Ok (responseView (sized [h1; h2; h3] c (drop (length c) body))).
Proof.
  intros Hc Hlt. pose proof (setSized_ok [h1; h2; h3] [z1; z2] body c eq_refl Hc Hlt) as Hset.
  unfold ResponsePart_SetContents. cbn [responseView rsp_mem rsp_size rsp_contents length Nat.sub].
  cbn [length app Nat.add] in Hset. rewrite Nat.sub_0_r, Hset. cbn [mbind result_bind]. f_equal.
  unfold rsp_setMem, responseView, whole. cbn [rsp_data rsp_version rsp_partNum rsp_maxParts rsp_size rsp_contents].
  rewrite length_sized, length_drop. cbn [length]. repeat f_equal; lia.
Qed.

Lemma responseView_Marshal mem : ResponsePart_Marshal (responseView mem) = mem.
Proof. unfold ResponsePart_Marshal, sread. simpl. rewrite drop_0. by apply take_ge. Qed.

Lemma NewResponsePart_ok (size : nat) :
  (5 <= size)%nat ->
  NewResponsePart (Z.of_nat size)
    = Ok (responseView (x00 :: x00 :: x00 :: x00 :: x00 :: replicate (size - 5) x00)).
Proof.
  intros Hs. unfold NewResponsePart, makeBytes. change resPartMinSize with 5.
  rewrite !(proj2 (Z.ltb_ge _ _)) by lia. rewrite Nat2Z.id. cbn [mbind result_bind].
  rewrite mapResponsePart_ok by (rewrite length_replicate; lia). cbn [mbind result_bind].
  by destruct size as [|[|[|[|[|n]]]]]; [lia..|]; simpl; rewrite Nat.sub_0_r.
Qed.

Lemma response_made (size : nat) num max c :
  (5 + length c <= size)%nat -> Z.of_nat (length c) < 65536 ->
  exists m0 m1, NewResponsePart (Z.of_nat size) = Ok m0 /\
    ResponsePart_GetMaxContentsSize m0 = Z.of_nat size - 5 /\
    ResponsePart_SetContents (ResponsePart_SetPartNum m0 num) c = Ok m1 /\
    ResponsePart_Marshal (ResponsePart_SetNumParts m1 max) = responseBytes size num max c.
Proof.
  intros Hc Hlt. eexists _, _. split; [apply NewResponsePart_ok; lia|]. split.
  { unfold ResponsePart_GetMaxContentsSize. simpl. rewrite length_replicate. lia. }
  rewrite responseView_SetPartNum, responseView_SetContents by (rewrite ?length_replicate; lia).
  split; [done|]. unfold sized. cbn [app]. rewrite responseView_SetNumParts, responseView_Marshal.
  by rewrite drop_replicate.
Qed.

Lemma response_parsed (size : nat) num max c :
  (5 + length c <= size)%nat -> Z.of_nat (length c) < 65536 -> is_u 8 num -> is_u 8 max ->
  exists m, UnmarshalResponsePart (responseBytes size num max c) = Ok m /\
    GetPartNum m = Ok num /\ GetNumParts m = Ok max /\ GetContents m = Ok c.
Proof.
  intros Hc Hlt Hn Hm. eexists. split.
  { unfold UnmarshalResponsePart. change resPartMinSize with 5. rewrite length_responseBytes by done.
    rewrite (proj2 (Z.ltb_ge _ _)) by lia. apply mapResponsePart_ok. rewrite length_responseBytes; lia. }
  split_and!.
  - simpl. unfold ResponsePart_GetPartNum, getByte. simpl. by rewrite Z_of_byte_of_Z_u8.
  - simpl. unfold ResponsePart_GetNumParts, getByte. simpl. by rewrite Z_of_byte_of_Z_u8.
  - by apply (sizedContents_ok [x00; byte_of_Z num; byte_of_Z max]).
Qed.

(** *** Request parts *)

Definition requestPartView (mem : list byte) : RequestPart :=
  mkRequestPart mem (whole mem) (Slice 0 1) (Slice 1 2) (Slice 3 (length mem - 3)).

Lemma mapRequestPart_ok mem : (3 <= length mem)%nat -> mapRequestPart mem = Ok (requestPartView mem).
Proof.
  intros Hl. unfold mapRequestPart, reqPartMinSize, reqPartPartNumLen, reqPartSizeLen.
  rewrite !reslice_whole by lia. unfold requestPartView. slice_eq.
Qed.

Definition requestPartBytes (size : nat) (num : Z) (c : list byte) : list byte :=
  sized [byte_of_Z num] c (replicate (size - 3 - length c) x00).

Lemma length_requestPartBytes size num c :
  (3 + length c <= size)%nat -> length (requestPartBytes size num c) = size.
Proof. intros Hc. unfold requestPartBytes. rewrite length_sized, length_replicate. simpl. lia. Qed.

Lemma requestPartView_SetContents h z1 z2 body c :
  (length c <= length body)%nat -> Z.of_nat (length c) < 65536 ->
  RequestPart_SetContents (requestPartView (h :: z1 :: z2 :: body)) c
    = Ok (requestPartView (sized [h] c (drop (length c) body))).
Proof.
  intros Hc Hlt. pose proof (setSized_ok [h] [z1; z2] body c eq_refl Hc Hlt) as Hset.
  unfold RequestPart_SetContents. cbn [requestPartView rqp_mem rqp_size rqp_contents length Nat.sub].
  cbn [length app Nat.add] in Hset. rewrite Nat.sub_0_r, Hset. cbn [mbind result_bind]. f_equal.
  unfold rqp_setMem, requestPartView, whole. cbn [rqp_data rqp_partNum rqp_size rqp_contents].
  rewrite length_sized, length_drop. cbn [length]. repeat f_equal; lia.
Qed.

Lemma requestPartView_Marshal mem : RequestPart_Marshal (requestPartView mem) = mem.
Proof. unfold RequestPart_Marshal, sread. simpl. rewrite drop_0. by apply take_ge. Qed.

Lemma requestPart_made (size : nat) num c :
  (3 + length c <= size)%nat -> Z.of_nat (length c) < 65536 ->
  exists m0 m1, NewRequestPart (Z.of_nat size) = Ok m0 /\
    RequestPart_SetContents (RequestPart_SetPartNum m0 num) c = Ok m1 /\
    RequestPart_Marshal m1 = requestPartBytes size num c.
Proof.
  intros Hc Hlt. unfold NewRequestPart, makeBytes. change reqPartMinSize with 3.
  rewrite !(proj2 (Z.ltb_ge _ _)) by lia. rewrite Nat2Z.id. cbn [mbind result_bind].
  rewrite mapRequestPart_ok by (rewrite length_replicate; lia).
  assert (exists n, size = 3 + n)%nat as [n ->] by (exists (size - 3)%nat; lia).
  eexists _, _. split; [done|].
  change (RequestPart_SetPartNum (requestPartView (replicate (3 + n) x00)) num)
    with (requestPartView (byte_of_Z num :: x00 :: x00 :: replicate n x00)).
  rewrite requestPartView_SetContents by (rewrite ?length_replicate; lia). split; [done|].
  rewrite requestPartView_Marshal, drop_replicate. unfold requestPartBytes. do 2 f_equal. lia.
Qed.

Lemma requestPart_parsed (size : nat) num c :
  (3 + length c <= size)%nat -> Z.of_nat (length c) < 65536 -> is_u 8 num ->
  exists m, UnmarshalRequestPart (requestPartBytes size num c) = Ok m /\
    GetPartNum m = Ok num /\ GetNumParts m = Ok 0 /\ GetContents m = Ok c.
Proof.
  intros Hc Hlt Hn. eexists. split.
  { unfold UnmarshalRequestPart. change reqPartMinSize with 3. rewrite length_requestPartBytes by done.
    rewrite (proj2 (Z.ltb_ge _ _)) by lia. apply mapRequestPart_ok. rewrite length_requestPartBytes; lia. }
  split_and!; [|done|].
  - simpl. unfold RequestPart_GetPartNum, getByte. simpl. by rewrite Z_of_byte_of_Z_u8.
  - by apply (sizedContents_ok [byte_of_Z num]).
Qed.

(** *** Request payloads *)

Definition payloadView (mem : list byte) : RequestPayload :=
  mkRequestPayload mem (whole mem) (Slice 0 8) (Slice 8 1) (Slice 9 1) (Slice 10 2) (Slice 12 (length mem - 12)).

Lemma mapRequestPayload_ok mem : (12 <= length mem)%nat -> mapRequestPayload mem = Ok (payloadView mem).
Proof.
  intros Hl. unfold mapRequestPayload, requestMinSize, nonceSize, numRequestPartsSize, maxResponsePartsSize, sizeSize.
  rewrite !reslice_whole by lia. unfold payloadView. slice_eq.
Qed.

Definition payloadBytes (size : nat) (nonce : list byte) (num max : Z) (c : list byte) : list byte :=
  sized (nonce ++ [byte_of_Z num; byte_of_Z max]) c (replicate (size - 12 - length c) x00).

Lemma length_payloadBytes size nonce num max c :
  length nonce = 8%nat -> (12 + length c <= size)%nat -> length (payloadBytes size nonce num max c) = size.
Proof. intros Hn Hc. unfold payloadBytes. rewrite length_sized, length_app, length_replicate, Hn. simpl. lia. Qed.

Definition zeroNonce : list byte := replicate 8 x00.

(** A list of eight bytes, in full. *)
Ltac nonce_bytes H :=
  let l := lazymatch type of H with length ?l = 8%nat => l end in
  destruct l as [|?[|?[|?[|?[|?[|?[|?[|?[|]]]]]]]]]; try discriminate H.

Lemma payload_made (size : nat) max c :
  (12 + length c <= size)%nat -> Z.of_nat (length c) < 65536 ->
  NewRequestPayload (Z.of_nat size) c max = Ok (payloadView (payloadBytes size zeroNonce 0 max c)).
Proof.
  intros Hc Hlt. unfold NewRequestPayload, makeBytes. change requestMinSize with 12.
  rewrite !(proj2 (Z.ltb_ge _ _)) by lia. rewrite Nat2Z.id. cbn [mbind result_bind].
  rewrite mapRequestPayload_ok by (rewrite length_replicate; lia). cbn [mbind result_bind].
  assert (exists n, size = 12 + n)%nat as [n ->] by (exists (size - 12)%nat; lia).
  pose proof (setSized_ok (zeroNonce ++ [byte_of_Z 0; byte_of_Z max]) [x00; x00] (replicate n x00) c eq_refl
    ltac:(rewrite length_replicate; lia) Hlt) as Hset.
  unfold RequestPayload_SetContents, RequestPayload_SetMaxResponseParts.
  cbn [payloadView rp_mem rp_size rp_contents rp_maxResponseParts rp_setMem].
  rewrite length_replicate in *. replace (12 + n - 12)%nat with n by lia.
  change (length (zeroNonce ++ [byte_of_Z 0; byte_of_Z max])) with 10%nat in Hset.
  change (10 + 2)%nat with 12%nat in Hset.
  change (scopy (replicate (12 + n) x00) (Slice 9 1) [byte_of_Z max]) with
    ((zeroNonce ++ [byte_of_Z 0; byte_of_Z max]) ++ [x00; x00] ++ replicate n x00).
  rewrite Hset. cbn [mbind result_bind]. f_equal. unfold payloadBytes. rewrite drop_replicate.
  replace (12 + n - 12 - length c)%nat with (n - length c)%nat by lia.
  unfold rp_setMem, payloadView, whole. cbn [rp_data rp_nonce rp_numRequestParts rp_maxResponseParts rp_size rp_contents].
  rewrite length_sized, !length_replicate, length_app. cbn [length zeroNonce replicate]. by replace (8 + 2 + 2 + length c + (n - length c))%nat with (12 + n)%nat by lia.
Qed.

Lemma payloadView_SetNum size nonce num num' max c :
  length nonce = 8%nat ->
  RequestPayload_SetNumRequestParts (payloadView (payloadBytes size nonce num max c)) num'
    = payloadView (payloadBytes size nonce num' max c).
Proof. intros Hn. nonce_bytes Hn. reflexivity. Qed.

Lemma payloadView_SetNonce size nonce nonce' num max c :
  length nonce = 8%nat -> length nonce' = 8%nat ->
  RequestPayload_SetNonce (payloadView (payloadBytes size nonce num max c)) (inr nonce')
    = Ok (payloadView (payloadBytes size nonce' num max c)).
Proof. intros Hn Hn'. nonce_bytes Hn. nonce_bytes Hn'. reflexivity. Qed.

Lemma payloadView_Marshal mem : RequestPayload_Marshal (payloadView mem) = mem.
Proof. unfold RequestPayload_Marshal, sread. simpl. rewrite drop_0. by apply take_ge. Qed.

Lemma payload_parsed (size : nat) nonce num max c :
  length nonce = 8%nat ->
  (12 + length c <= size)%nat -> Z.of_nat (length c) < 65536 -> is_u 8 num -> is_u 8 max ->
  let m := payloadView (payloadBytes size nonce num max c) in
  UnmarshalRequestPayload (payloadBytes size nonce num max c) = Ok m /\
  RequestPayload_GetNumRequestParts m = Ok num /\ RequestPayload_GetMaxResponseParts m = Ok max /\
  GetPartNum m = Ok 0 /\ GetNumParts m = Ok num /\ GetContents m = Ok c.
Proof.
  intros Hnon Hc Hlt Hn Hm m. split.
  { unfold UnmarshalRequestPayload. change requestMinSize with 12. rewrite length_payloadBytes by done.
    rewrite (proj2 (Z.ltb_ge _ _)) by lia. apply mapRequestPayload_ok. rewrite length_payloadBytes; lia. }
  assert (RequestPayload_GetNumRequestParts m = Ok num /\ RequestPayload_GetMaxResponseParts m = Ok max) as [E1 E2].
  { unfold RequestPayload_GetNumRequestParts, RequestPayload_GetMaxResponseParts, getByte. subst m.
    nonce_bytes Hnon. simpl. by rewrite !Z_of_byte_of_Z_u8. }
  split_and!; [done|done|done|done|]. subst m.
  pose proof (sizedContents_ok (nonce ++ [byte_of_Z num; byte_of_Z max]) c (replicate (size - 12 - length c) x00)
    (length (payloadBytes size nonce num max c) - 12) Hlt) as Hget.
  rewrite length_app, Hnon in Hget. exact Hget.
Qed.

(** *** Requests *)

Definition requestView (mem : list byte) (pk : nat) : Request :=
  mkRequest mem (whole mem) (Slice 0 1) (Slice 1 pk) (Slice (1 + pk) (length mem - 1 - pk)).

Lemma mapRequest_ok mem (pk : nat) :
  (1 + pk <= length mem)%nat -> mapRequest mem (Z.of_nat pk) = Ok (requestView mem pk).
Proof.
  intros Hl. unfold mapRequest, requestVersionSize. rewrite !reslice_whole by lia. unfold requestView. slice_eq.
Qed.

Lemma request_made (size pk : nat) pub payload :
  length pub = pk -> (1 + pk + length payload = size)%nat ->
  exists m0 m1, NewRequest (Z.of_nat size) (Z.of_nat pk) = Ok m0 /\
    Request_GetPayloadSize m0 = Z.of_nat (length payload) /\
    Request_SetPayload (Request_SetPubKey m0 pub) payload = Ok m1 /\
    Request_Marshal m1 = x00 :: pub ++ payload.
Proof.
  intros Hpk Hs. unfold NewRequest, makeBytes. rewrite !(proj2 (Z.ltb_ge _ _)) by lia. rewrite Nat2Z.id.
  cbn [mbind result_bind]. rewrite mapRequest_ok by (rewrite length_replicate; lia). cbn [mbind result_bind].
  destruct size as [|n]; [lia|]. unfold sset. cbn [requestView req_version s_len req_mem s_off].
  rewrite decide_True by lia. cbn [mbind result_bind].
  change (splice (replicate (S n) x00) (0 + 0) [x00]) with (x00 :: replicate n x00).
  eexists _, _. split; [done|]. split.
  { unfold Request_GetPayloadSize. cbn [req_payload req_setMem requestView s_len]. rewrite length_replicate. lia. }
  unfold Request_SetPayload, Request_SetPubKey.
  cbn [req_setMem req_payload req_pubKey requestView s_len req_mem]. rewrite length_replicate.
  rewrite (proj2 (Nat.eqb_eq _ _)) by lia. split; [done|].
  unfold Request_Marshal. cbn [req_setMem req_mem req_data requestView].
  assert (n = pk + length payload)%nat as -> by lia. rewrite replicate_add.
  unfold scopy. cbn [s_off s_len].
  rewrite (take_ge pub) by lia. rewrite (take_ge payload) by lia.
  replace (splice (x00 :: replicate pk x00 ++ replicate (length payload) x00) 1 pub)
    with (x00 :: pub ++ replicate (length payload) x00).
  2: { unfold splice. cbn [take app Nat.add drop].
       by rewrite drop_app_length' by (rewrite length_replicate; lia). }
  unfold splice. cbn [Nat.add take drop app]. rewrite (take_app_length' pub) by lia.
  rewrite drop_ge by (rewrite length_app, length_replicate; lia). rewrite app_nil_r.
  unfold sread. cbn [s_off s_len whole]. rewrite drop_0. apply take_ge.
  cbn [length]. rewrite !length_app, !length_replicate. lia.
Qed.

Lemma request_parsed pub payload :
  exists m, UnmarshalRequest (x00 :: pub ++ payload) (Z.of_nat (length pub)) = Ok m /\
    Request_pubKeyBytes m = pub /\ Request_GetPayload m = payload.
Proof.
  unfold UnmarshalRequest. cbn [length]. rewrite (proj2 (Z.ltb_ge _ _)) by (rewrite length_app; lia).
  eexists. split; [apply mapRequest_ok; simpl; rewrite length_app; lia|].
  unfold Request_pubKeyBytes, Request_GetPayload, sread. cbn [requestView req_mem req_pubKey req_payload s_off s_len].
  cbn [Nat.add drop]. rewrite drop_0. split; [by rewrite take_app_length|].
  rewrite drop_app_length. apply take_ge. cbn [length]. rewrite length_app. lia.
Qed.

(** ** Collating *)

(** The last steps of [Collate], once the number of parts is known. *)
Definition collateRest {T} `{Part T} (part : T) : act Collator (list byte * bool) :=
  c ← gets id;
  partNum ← pureResult (GetPartNum part);
  if c_maxNum c <=? partNum then
    throw (Errorf "payload part number %d greater than max number of expected parts (%d)"
             [partNum; c_maxNum c])
  else
    slot ← pureResult (index (c_payloads c) partNum);
    match slot with
    | Some _ => throw (Errorf "a payload for the part number %d already exists in the list" [partNum])
    | None =>
        contents ← pureResult (GetContents part);
        payloads ← pureResult (store_at (c_payloads c) partNum (Some contents));
        let c := mkCollator payloads (c_maxNum c) (c_count c + 1) in
        _ ← modify (fun _ => c);
        if c_count c <? c_maxNum c then mret ([], false)
        else mret (joinPayloads (c_payloads c), true)
    end.

Lemma Collate_max {T} `{Part T} (part : T) c :
  c_maxNum c ≠ unsetCollatorMax -> Collate part c = collateRest part c.
Proof.
  intros Hmax. unfold Collate. erewrite bind_Done by done. unfold id. cbv beta.
  rewrite (proj2 (Z.eqb_neq _ _) Hmax). by erewrite bind_Done by done.
Qed.

Lemma Collate_first {T} `{Part T} (part : T) c n :
  c_maxNum c = unsetCollatorMax -> GetNumParts part = Ok n -> n <= Z.of_nat (length (c_payloads c)) ->
  Collate part c = collateRest part (c_setMax c n).
Proof.
  intros Hmax Hn Hle. unfold Collate. erewrite bind_Done by done. unfold id. cbv beta.
  rewrite Hmax, Z.eqb_refl.
  erewrite bind_Done; [|erewrite bind_Done by (by apply pureResult_Done);
    unfold id; rewrite (proj2 (Z.ltb_ge _ _)) by lia; done]. done.
Qed.

(** A set of parts is complete when it has as many as there are. *)
Lemma complete_seen {A} (cs : list A) (seen : gset nat) :
  (forall i, i ∈ seen -> (i < length cs)%nat) ->
  size seen = length cs <-> forall i, (i < length cs)%nat -> i ∈ seen.
Proof.
  intros Hs. assert (seen ⊆ set_seq 0 (length cs)) as Hsub
    by (intros i Hi; apply elem_of_set_seq; apply Hs in Hi; lia).
  split.
  - intros Hsz i Hi. assert (seen = set_seq 0 (length cs)) as ->; [|apply elem_of_set_seq; lia].
    apply set_subseteq_size_eq; [done|]. by rewrite size_set_seq, Hsz.
  - intros Hall. assert (seen = set_seq 0 (length cs)) as ->; [|apply size_set_seq].
    apply set_eq. intros i. split; [apply Hsub|]. intros Hi%elem_of_set_seq. apply Hall. lia.
Qed.

Section collating.
Context (cs : list (list byte)) (cap : nat).

(** What a run of parts gives, from the parts seen so far: a part that was seen
    is refused, and the part that completes the message gives all of it. *)
Fixpoint collateSpec (seen : gset nat) (order : list nat) : list (error + list byte * bool) :=
  match order with
  | [] => []
  | i :: order =>
      (if bool_decide (i ∈ seen) then
         inl (Errorf "a payload for the part number %d already exists in the list" [Z.of_nat i])
       else if (size ({[ i ]} ∪ seen) =? length cs)%nat then inr (concat cs, true)
       else inr ([], false)) :: collateSpec ({[ i ]} ∪ seen) order
  end.

(** The collator after the parts in [seen]. *)
Record collated (c : Collator) (seen : gset nat) : Prop := {
  co_length : length (c_payloads c) = cap;
  co_slots i : (i < cap)%nat -> c_payloads c !! i = Some (if decide (i ∈ seen) then cs !! i else None);
  co_max : c_maxNum c = Z.of_nat (length cs);
  co_count : c_count c = Z.of_nat (size seen);
  co_seen i : i ∈ seen -> (i < length cs)%nat;
}.

Context (fits : (length cs <= cap)%nat).

Lemma join_complete c seen :
  collated c seen -> size seen = length cs -> joinPayloads (c_payloads c) = concat cs.
Proof.
  intros [Hl Hs _ _ Hr] Hsize.
  assert (forall i, (i < length cs)%nat -> i ∈ seen) as Hall by (by apply complete_seen).
  assert (c_payloads c = (Some <$> cs) ++ replicate (cap - length cs) None) as ->.
  { apply list_eq_same_length with cap; [rewrite length_app, length_fmap, length_replicate; lia|done|].
    intros i x y Hi Hx Hy. rewrite Hs in Hx by done. injection Hx as <-.
    destruct (decide (i < length cs)%nat) as [Hlt|Hge].
    - rewrite decide_True by (by apply Hall).
      rewrite lookup_app_l, list_lookup_fmap in Hy by (by rewrite length_fmap).
      destruct (cs !! i) eqn:E; [by injection Hy as <-|done].
    - rewrite decide_False by (intros Hin%Hr; lia).
      rewrite lookup_app_r in Hy by (rewrite length_fmap; lia).
      by apply lookup_replicate in Hy as [-> _]. }
  unfold joinPayloads. rewrite fmap_app, concat_app, <- list_fmap_compose.
  rewrite fmap_replicate. simpl. assert (forall n, concat (replicate n []) = ([] : list byte)) as ->.
  { induction n; simpl; done. }
  rewrite app_nil_r. f_equal. rewrite <- (list_fmap_id cs) at 2. by apply list_fmap_ext.
Qed.

(** A part of the message, new or seen. *)
Lemma collateRest_ok {T} `{Part T} (part : T) c seen i x :
  collated c seen -> cs !! i = Some x -> GetPartNum part = Ok (Z.of_nat i) -> GetContents part = Ok x ->
  exists c', collated c' ({[ i ]} ∪ seen) /\
    match collateSpec seen [i] with
    | [inl e] => collateRest part c = Fail c' e
    | [inr r] => collateRest part c = Done c' r
    | _ => False
    end.
Proof.
  intros Hc Hx Hnum Hcont. pose proof (lookup_lt_Some _ _ _ Hx) as Hi. pose proof Hc as [Hl Hs Hm Hn Hr].
  assert (Hslot := Hs i ltac:(lia)).
  unfold collateRest. erewrite bind_Done by done. unfold id.
  erewrite bind_Done by (by apply pureResult_Done).
  rewrite (proj2 (Z.leb_gt _ _)) by lia. cbn [collateSpec].
  erewrite bind_Done by (apply pureResult_Done; apply index_nat, Hslot).
  destruct (decide (i ∈ seen)) as [Hin|Hout].
  - rewrite Hx, bool_decide_true by done. exists c. split; [|done].
    by replace ({[i]} ∪ seen) with seen by set_solver.
  - rewrite bool_decide_false by done. erewrite bind_Done by (by apply pureResult_Done).
    erewrite bind_Done by (apply pureResult_Done, store_at_nat; lia).
    set (c' := mkCollator _ _ _). assert (collated c' ({[i]} ∪ seen)) as Hc'.
    { assert (size ({[i]} ∪ seen) = S (size seen)) as Hsz
        by (rewrite size_union by set_solver; by rewrite size_singleton).
      split; simpl; [by rewrite length_insert|..|done|lia|set_solver by lia].
      intros j Hj. destruct (decide (j = i)) as [->|Hne].
      - rewrite list_lookup_insert_eq by lia. by rewrite decide_True, Hx by set_solver.
      - rewrite list_lookup_insert_ne by done. rewrite Hs by done.
        destruct (decide (j ∈ seen)); [by rewrite decide_True by set_solver|].
        by rewrite decide_False by set_solver. }
    exists c'. split; [done|]. erewrite bind_Done by done.
    rewrite (co_count _ _ Hc'), (co_max _ _ Hc').
    assert (size ({[i]} ∪ seen) <= length cs)%nat as Hle.
    { rewrite <- (size_set_seq (C := gset nat) 0 (length cs)). apply subseteq_size. intros j Hj.
      apply elem_of_set_seq. apply (co_seen _ _ Hc') in Hj. lia. }
    destruct (size ({[i]} ∪ seen) =? length cs)%nat eqn:E.
    + apply Nat.eqb_eq in E. rewrite (proj2 (Z.ltb_ge _ _)) by lia. by rewrite (join_complete _ _ Hc' E).
    + apply Nat.eqb_neq in E. by rewrite (proj2 (Z.ltb_lt _ _)) by lia.
Qed.

(** Part [i] of the message. *)
Definition carries {T} `{Part T} (i : nat) (part : T) : Prop :=
  exists x, cs !! i = Some x /\ GetPartNum part = Ok (Z.of_nat i) /\ GetContents part = Ok x.

End collating.

Lemma collateSpec_cons cs seen i order :
  collateSpec cs seen (i :: order) = collateSpec cs seen [i] ++ collateSpec cs ({[ i ]} ∪ seen) order.
Proof. done. Qed.

(** A run of parts; [None] when one of them panics. *)
Fixpoint collateRun {T} `{Part T} (parts : list T) (c : Collator) :
    option (Collator * list (error + list byte * bool)) :=
  match parts with
  | [] => Some (c, [])
  | p :: parts =>
      match Collate p c with
      | Done c r => prod_map id (cons (inr r)) <$> collateRun parts c
      | Fail c e => prod_map id (cons (inl e)) <$> collateRun parts c
      | Crash => None
      end
  end.

Section run.
Context {T : Type} `{Part T} (cs : list (list byte)) (cap : nat).
Context (some : (0 < length cs)%nat) (fits : (length cs <= cap)%nat).

Lemma collated_max c seen : collated cs cap c seen -> c_maxNum c ≠ unsetCollatorMax.
Proof. intros Hc. rewrite (co_max _ _ _ _ Hc). unfold unsetCollatorMax. lia. Qed.

Lemma collate_part c seen i (part : T) :
  collated cs cap c seen -> carries cs i part ->
  exists c' r, collated cs cap c' ({[ i ]} ∪ seen) /\ collateSpec cs seen [i] = [r] /\
    Collate part c = match r with inl e => Fail c' e | inr r => Done c' r end.
Proof.
  intros Hc (x & Hx & Hnum & Hcont).
  destruct (collateRest_ok cs cap fits part c seen i x Hc Hx Hnum Hcont) as (c' & Hc' & Hr).
  rewrite (Collate_max part c (collated_max _ _ Hc)).
  destruct (collateSpec cs seen [i]) as [|[e|r] [|]]; try done; [exists c', (inl e)|exists c', (inr r)]; done.
Qed.

Lemma collate_rest order (parts : list T) c seen :
  collated cs cap c seen -> Forall2 (carries cs) order parts ->
  exists c', collateRun parts c = Some (c', collateSpec cs seen order).
Proof.
  intros Hc Hall. revert c seen Hc. induction Hall as [|i part order parts Hp _ IH]; intros c seen Hc;
    [by eexists|].
  destruct (collate_part c seen i part Hc Hp) as (c1 & r & Hc1 & Hspec & Hrun).
  destruct (IH c1 _ Hc1) as (c' & Hrest). exists c'. cbn [collateRun]. rewrite Hrun, collateSpec_cons, Hspec.
  by destruct r; rewrite Hrest.
Qed.

Lemma new_collated n :
  Z.of_nat (length cs) = n -> collated cs cap (c_setMax (NewCollator (Z.of_nat cap)) n) ∅.
Proof.
  intros <-. split; simpl; rewrite ?Nat2Z.id, ?size_empty; try done.
  - apply length_replicate.
  - intros i Hi. rewrite decide_False by set_solver. by apply lookup_replicate_2.
Qed.

(** The first part says how many there are. *)
Lemma collate_first_ok i (part : T) :
  carries cs i part -> GetNumParts part = Ok (Z.of_nat (length cs)) ->
  exists c' r, collated cs cap c' ({[ i ]} ∪ ∅) /\ collateSpec cs ∅ [i] = [r] /\
    Collate part (NewCollator (Z.of_nat cap)) = match r with inl e => Fail c' e | inr r => Done c' r end.
Proof.
  intros Hp Hn.
  destruct (collate_part (c_setMax (NewCollator (Z.of_nat cap)) (Z.of_nat (length cs))) ∅ i part)
    as (c1 & r & Hc1 & Hspec & Hrun); [by apply new_collated|done|].
  exists c1, r. split; [done|]. split; [done|].
  rewrite (Collate_first part _ (Z.of_nat (length cs))); [|done|done|].
  - rewrite <- (Collate_max part); [done|]. eapply collated_max. by apply new_collated.
  - cbn [NewCollator c_payloads]. rewrite length_replicate, Nat2Z.id. lia.
Qed.

Lemma collate_all i order (part : T) parts :
  carries cs i part -> GetNumParts part = Ok (Z.of_nat (length cs)) -> Forall2 (carries cs) order parts ->
  exists c, collateRun (part :: parts) (NewCollator (Z.of_nat cap)) = Some (c, collateSpec cs ∅ (i :: order)).
Proof.
  intros Hp Hn Hall. destruct (collate_first_ok i part Hp Hn) as (c1 & r & Hc1 & Hspec & Hrun).
  destruct (collate_rest order parts c1 _ Hc1 Hall) as (c & Hrest). exists c. cbn [collateRun].
  rewrite Hrun, collateSpec_cons, Hspec. by destruct r; rewrite Hrest.
Qed.

(** C29: A new collator with room for the message, given its parts in any order and
    any number of times, refuses the repeated ones and gives the whole message
    with the part that completes it; a first part that announces more parts
    than there is room for is refused and changes nothing; a part number
    outside the announced ones is refused. *)
Theorem Collator_collates i order (part : T) parts :
  carries cs i part -> GetNumParts part = Ok (Z.of_nat (length cs)) -> Forall2 (carries cs) order parts ->
  (exists c, collateRun (part :: parts) (NewCollator (Z.of_nat cap)) = Some (c, collateSpec cs ∅ (i :: order))) /\
  (forall small, (small < length cs)%nat ->
     exists e, Collate part (NewCollator (Z.of_nat small)) = Fail (NewCollator (Z.of_nat small)) e) /\
  (forall (p : T) c n, c_maxNum c ≠ unsetCollatorMax -> GetPartNum p = Ok n -> c_maxNum c <= n ->
     exists e, Collate p c = Fail c e).
Proof.
  intros Hp Hn Hall. split; [by apply collate_all|]. split.
  - intros small Hlt. unfold Collate. erewrite bind_Done by done. unfold id. cbv beta.
    cbn [c_maxNum NewCollator c_payloads]. rewrite Z.eqb_refl. eexists. erewrite bind_Fail; [done|].
    erewrite bind_Done by (by apply pureResult_Done). rewrite length_replicate, Nat2Z.id.
    by rewrite (proj2 (Z.ltb_lt _ _)) by lia.
  - intros p c n Hmax Hnum Hle. rewrite Collate_max by done. unfold collateRest. erewrite bind_Done by done.
    unfold id. erewrite bind_Done by (by apply pureResult_Done). rewrite (proj2 (Z.leb_le _ _)) by done.
    by eexists.
Qed.
End run.

(** Three response parts, the second sent twice. *)
Definition ex_contents : list (list byte) := [[x01; x02]; [x03]; [x04; x05]].
Definition ex_part (i : nat) : ResponsePart :=
  responseView (responseBytes 12 (Z.of_nat i) 3 (default [] (ex_contents !! i))).

Lemma Collator_collates_witness :
  exists c, collateRun [ex_part 2; ex_part 1; ex_part 1; ex_part 0] (NewCollator 4)
    = Some (c, [inr ([], false); inr ([], false);
                inl (Errorf "a payload for the part number %d already exists in the list" [1]);
                inr ([x01; x02; x03; x04; x05], true)]).
Proof.
  assert (forall i, (i < 3)%nat -> carries ex_contents i (ex_part i)) as Hc.
  { intros [|[|[|i]]] Hi; [..|lia]; eexists; repeat split. }
  assert (Forall2 (carries ex_contents) [1; 1; 0]%nat [ex_part 1; ex_part 1; ex_part 0]) as Hall
    by (repeat constructor; apply Hc; lia).
  exact (proj1 (Collator_collates (T := ResponsePart) ex_contents 4 ltac:(simpl; lia) ltac:(simpl; lia) 2 [1; 1; 0]%nat
    (ex_part 2) [ex_part 1; ex_part 1; ex_part 0] (Hc 2%nat ltac:(lia)) eq_refl Hall)).
Defined.
