(* ===== verification/SingleResponse.v ===== *)
(** * Single-use responses

    [single/cypher.go], [receivedRequest.go], [responseProcessor.go],
    [roundCollector.go] and the part of [request.go] that waits for the
    response: the receiver of a request answers with a payload cut into parts,
    each encrypted with a key of its own; the requester has registered a
    processor for the fingerprint of every part it is ready to receive, and all
    of them share one collator.  The cryptography is the class [SuCrypto]. *)

From S2P Require Import Prelude GoBytes Effects Fingerprints SingleMessage.

(** Fingerprints are [[32]byte]. *)
Abbreviation Fingerprint := (list byte).

Class SuCrypto (Int ID : Type) := {
  grp_ByteLen : Z;                                  (* e2eGrp.GetP().ByteLen() *)
  NewIntFromBytes : list byte -> Int;
  LeftpadBytes : Int -> Z -> list byte;
  grp_Exp : Int -> Int -> Int;
  GeneratePublicKey : Int -> Int;
  NewRequestKey : Int -> list byte;
  NewRequestFingerprint : Int -> Fingerprint;
  NewRequestPartKey : Int -> Z -> list byte;
  NewRequestPartFingerprint : Int -> Z -> Fingerprint;
  NewResponseKey : Int -> Z -> list byte;
  NewResponseFingerprint : Int -> Z -> Fingerprint;
  NewRecipientID : Int -> list byte -> ID;
  Crypt : list byte -> list byte -> list byte -> list byte;   (* key, nonce, data *)
  MakeMAC : list byte -> list byte -> list byte;
  VerifyMAC : list byte -> list byte -> list byte -> bool;
}.

(** What the code relies on: [Crypt] is its own inverse and keeps the length,
    a MAC made with a key verifies with it, both sides of the key exchange
    reach the same key, and a public key is read back from its padded bytes. *)
Class SuCryptoLaws (Int ID : Type) `{SuCrypto Int ID} : Prop := {
  crypt_twice k n x : Crypt k n (Crypt k n x) = x;
  crypt_length k n x : length (Crypt k n x) = length x;
  mac_verifies k x : VerifyMAC k x (MakeMAC k x) = true;
  exchange_agrees a b : grp_Exp (GeneratePublicKey a) b = grp_Exp (GeneratePublicKey b) a;
  leftpad_length x : Z.of_nat (length (LeftpadBytes x grp_ByteLen)) = grp_ByteLen;
  leftpad_read x : NewIntFromBytes (LeftpadBytes x grp_ByteLen) = x;
}.

(** A cMix message as the layers above see it. *)
Record CMsg := mkCMsg {
  cm_fp : Fingerprint;
  cm_contents : list byte;
  cm_mac : list byte;
}.

(** ** Cyphers *)

Record cypher (Int : Type) := mkCypher {
  cy_dhKey : Int;
  cy_num : Z;                               (* uint8 *)
  cy_newKey : Int -> Z -> list byte;
  cy_newFp : Int -> Z -> Fingerprint;
}.
Arguments mkCypher {Int}.
Arguments cy_dhKey {Int}.
Arguments cy_num {Int}.
Arguments cy_newKey {Int}.
Arguments cy_newFp {Int}.

Definition makeCyphers {Int} (dhKey : Int) (messageCount : Z) (newKey : Int -> Z -> list byte)
    (newFp : Int -> Z -> Fingerprint) : list (cypher Int) :=
  (fun i => mkCypher dhKey (u8 i) newKey newFp) <$> seqZ 0 messageCount.

Definition cypher_getKey {Int} (c : cypher Int) : list byte := cy_newKey c (cy_dhKey c) (cy_num c).
Definition cypher_getFingerprint {Int} (c : cypher Int) : Fingerprint := cy_newFp c (cy_dhKey c) (cy_num c).

Definition cypher_encrypt {Int ID} `{SuCrypto Int ID} (c : cypher Int) (payload : list byte) : CMsg :=
  let fp := cypher_getFingerprint c in
  let key := cypher_getKey c in
  let encryptedPayload := Crypt key (take 24 fp) payload in
  mkCMsg fp encryptedPayload (MakeMAC key encryptedPayload).

Definition cypher_decrypt {Int ID} `{SuCrypto Int ID} (c : cypher Int) (contents mac : list byte) :
    result (list byte) :=
  let fp := cypher_getFingerprint c in
  let key := cypher_getKey c in
  if VerifyMAC key contents mac then Ok (Crypt key (take 24 fp) contents)
  else Err (Errorf "failed to verify the single-use MAC" []).

(** ** Rounds *)

(** A round by its identifier. *)
Abbreviation roundCollector := (gmap Z Z).
Definition newRoundIdCollector : roundCollector := ∅.
Definition roundCollector_add (rc : roundCollector) (round : Z) : roundCollector := <[round := round]> rc.
Definition roundCollector_getList (rc : roundCollector) : list Z := (map_to_list rc).*2.

(** ** The responder *)

Record SuRequest (Int ID : Type) := mkSuRequest {
  sr_sender : ID;
  sr_senderPubKey : Int;
  sr_dhKey : Int;
  sr_tag : string;
  sr_maxParts : Z;                          (* uint8 *)
  sr_used : bool;
  sr_payload : list byte;
}.
Arguments mkSuRequest {Int ID}.
Arguments sr_sender {Int ID}.
Arguments sr_senderPubKey {Int ID}.
Arguments sr_dhKey {Int ID}.
Arguments sr_tag {Int ID}.
Arguments sr_maxParts {Int ID}.
Arguments sr_used {Int ID}.
Arguments sr_payload {Int ID}.

Fixpoint splitLoop (maxParts : nat) (maxSize : nat) (buff : list byte) : list (list byte) :=
  match maxParts, buff with
  | S maxParts, _ :: _ => take maxSize buff :: splitLoop maxParts maxSize (drop maxSize buff)
  | _, _ => []
  end.

(** [make] divides by the part size. *)
Definition splitResponse (payload : list byte) (maxSize maxParts : Z) : result (list (list byte)) :=
  if maxSize =? 0 then Panic
  else if Z.quot (Z.of_nat (length payload)) maxSize <? 0 then Panic
  else Ok (splitLoop (Z.to_nat maxParts) (Z.to_nat maxSize) payload).

(** One part of the loop of [partitionResponse]. *)
Definition responsePartOf (cmixMessageLength numParts : Z) (i : nat) (c : list byte) : result ResponsePart :=
  nrp ← NewResponsePart cmixMessageLength;
  nrp ← ResponsePart_SetContents (ResponsePart_SetPartNum nrp (u8 (Z.of_nat i))) c;
  Ok (ResponsePart_SetNumParts nrp (u8 numParts)).

Fixpoint responseParts (cmixMessageLength numParts : Z) (i : nat) (cs : list (list byte)) :
    result (list ResponsePart) :=
  match cs with
  | [] => Ok []
  | c :: cs =>
      p ← responsePartOf cmixMessageLength numParts i c;
      ps ← responseParts cmixMessageLength numParts (S i) cs;
      Ok (p :: ps)
  end.

Definition partitionResponse (payload : list byte) (cmixMessageLength maxParts : Z) :
    result (list ResponsePart) :=
  responseMsg ← NewResponsePart cmixMessageLength;
  payloadParts ← splitResponse payload (ResponsePart_GetMaxContentsSize responseMsg) maxParts;
  responseParts cmixMessageLength (Z.of_nat (length payloadParts)) 0 payloadParts.

Section responder.
Context {Int ID : Type} `{SuCrypto Int ID}.
(** [r.net]: the size of a message, the outcome of sending part [i], and the
    outcome of waiting for the rounds. *)
Context (maxMessageLength : Z) (send : nat -> error + Z) (track : list Z -> result unit).

Definition GetMaxResponsePartSize : result Z :=
  responseMsg ← NewResponsePart maxMessageLength; Ok (ResponsePart_GetMaxContentsSize responseMsg).

Definition GetMaxResponseLength (r : SuRequest Int ID) : result Z :=
  n ← GetMaxResponsePartSize; Ok (n * sr_maxParts r).

Definition sr_use (r : SuRequest Int ID) : SuRequest Int ID :=
  mkSuRequest (sr_sender r) (sr_senderPubKey r) (sr_dhKey r) (sr_tag r) (sr_maxParts r) true (sr_payload r).

(** The sends, in the order of the parts: the messages that went out with
    their rounds, and the number that failed. *)
Fixpoint sendParts (i : nat) (ps : list (cypher Int * ResponsePart)) : list (CMsg * Z) * Z :=
  match ps with
  | [] => ([], 0)
  | (cy, p) :: ps =>
      let '(sent, failed) := sendParts (S i) ps in
      match send i with
      | inr round => ((cypher_encrypt cy (ResponsePart_Marshal p), round) :: sent, failed)
      | inl _ => (sent, u32 (failed + 1))
      end
  end.

(** The state is the request and the messages sent so far. *)
Definition Respond (payload : list byte) : act (SuRequest Int ID * list CMsg) (list Z) := fun '(r, out) =>
  if sr_used r then
    Fail (r, out) (Errorf "cannot respond to single-use response that has already been responded to" [])
  else
    let r := sr_use r in
    match GetMaxResponseLength r, partitionResponse payload maxMessageLength (sr_maxParts r) with
    | Ok max, parts =>
        if max <? Z.of_nat (length payload) then
          Fail (r, out) (Errorf "length of provided payload %d greater than max payload %d"
                           [Z.of_nat (length payload); max])
        else
          match parts with
          | Ok parts =>
              let cyphers := makeCyphers (sr_dhKey r) (u8 (Z.of_nat (length parts))) NewResponseKey
                               NewResponseFingerprint in
              let '(sent, failed) := sendParts 0 (zip cyphers parts) in
              let out := out ++ sent.*1 in
              if 0 <? failed then
                Fail (r, out) (Errorf "%d responses failed to send, the response will be handleable and will time out"
                                 [failed])
              else
                match track sent.*2 with
                | Ok _ => Done (r, out) sent.*2
                | Err e => Fail (r, out) e
                | Panic => Crash
                end
          | Err e => Fail (r, out) e
          | Panic => Crash
          end
    | _, _ => Crash
    end.
End responder.

(** ** The requester *)

(** The timer's thread has not started, waits, was told to stop, or has fired. *)
Inductive timer := NotStarted | Waiting | Killed | Fired.

(** A call of the response callback. *)
Inductive responseCall :=
| Response (payload : list byte) (rounds : list Z)
| ResponseError (e : error).

(** All the processors of a request share the collator, the rounds and the
    callback; a processor is its cypher. *)
Record reqState (Int ID : Type) `{Countable ID} := mkReqState {
  rs_source : option ID;                     (* sendingID.Source *)
  rs_fps : FingerprintsManager ID Fingerprint (cypher Int);
  rs_collator : Collator;
  rs_rounds : roundCollector;
  rs_once : bool;                            (* callbackOnce has run *)
  rs_timer : timer;
  rs_calls : list responseCall;
}.
Arguments mkReqState {Int ID _ _}.
Arguments rs_source {Int ID _ _}.
Arguments rs_fps {Int ID _ _}.
Arguments rs_collator {Int ID _ _}.
Arguments rs_rounds {Int ID _ _}.
Arguments rs_once {Int ID _ _}.
Arguments rs_timer {Int ID _ _}.
Arguments rs_calls {Int ID _ _}.

Section requester.
Context {Int ID : Type} `{Countable ID} `{SuCrypto Int ID}.

Abbreviation state := (reqState Int ID).

Definition rs_setCollator (s : state) (c : Collator) : state :=
  mkReqState (rs_source s) (rs_fps s) c (rs_rounds s) (rs_once s) (rs_timer s) (rs_calls s).
Definition rs_setFps (s : state) (f : FingerprintsManager ID Fingerprint (cypher Int)) : state :=
  mkReqState (rs_source s) f (rs_collator s) (rs_rounds s) (rs_once s) (rs_timer s) (rs_calls s).
Definition rs_addRound (s : state) (r : Z) : state :=
  mkReqState (rs_source s) (rs_fps s) (rs_collator s) (roundCollector_add (rs_rounds s) r) (rs_once s)
    (rs_timer s) (rs_calls s).
Definition rs_setTimer (s : state) (t : timer) : state :=
  mkReqState (rs_source s) (rs_fps s) (rs_collator s) (rs_rounds s) (rs_once s) t (rs_calls s).

(** The wrapper around the callback: a timer that waits is stopped; the first
    call deletes the fingerprints and calls the callback. *)
Definition callbackWrapper (call : responseCall) : act state unit :=
  _ ← modify (fun s => match rs_timer s with Waiting => rs_setTimer s Killed | _ => s end);
  s ← gets id;
  if rs_once s then mret tt
  else
    match rs_source s with
    | None => crash
    | Some src =>
        modify (fun s => mkReqState (rs_source s) (DeleteClientFingerprints (rs_fps s) src) (rs_collator s)
                           (rs_rounds s) true (rs_timer s) (rs_calls s ++ [call]))
    end.

(** Errors are logged: the message is dropped. *)
Definition responseProcessor_Process (cy : cypher Int) (msg : CMsg) (round : Z) : act state unit := fun s =>
  match cypher_decrypt cy (cm_contents msg) (cm_mac msg) with
  | Ok decrypted =>
      match UnmarshalResponsePart decrypted with
      | Ok responsePart =>
          match Collate responsePart (rs_collator s) with
          | Done c (payload, done) =>
              let s := rs_addRound (rs_setCollator s c) round in
              if (done : bool)
              then callbackWrapper (Response payload (roundCollector_getList (rs_rounds s))) s
              else Done s tt
          | Fail c _ => Done (rs_setCollator s c) tt
          | Crash => Crash
          end
      | Err _ => Done s tt
      | Panic => Crash
      end
  | Err _ => Done s tt
  | Panic => Crash
  end.

(** A message for the requester's identity: the processor of its fingerprint
    is taken out and called. *)
Definition receiveResponse (msg : CMsg) (round : Z) : act state unit := fun s =>
  match rs_source s with
  | None => Done s tt
  | Some src =>
      let '(fps, proc) := fm_pop (rs_fps s) src (cm_fp msg) in
      let s := rs_setFps s fps in
      match proc with
      | Some cy => responseProcessor_Process cy msg round s
      | None => Done s tt
      end
  end.

(** [waitForTimeout] fires. *)
Definition timeoutFires (timeout : Z) : act state unit :=
  s ← gets id;
  match rs_timer s with
  | Waiting =>
      _ ← modify (fun s => rs_setTimer s Fired);
      callbackWrapper (ResponseError (Errorf
        "waiting for response to single-use request timed out after %s" [timeout]))
  | _ => mret tt
  end.
End requester.

(** ** Cutting and encrypting *)

Lemma concat_splitLoop n m payload :
  (length payload <= n * m)%nat -> concat (splitLoop n m payload) = payload.
Proof.
  revert payload. induction n as [|n IH]; intros payload Hl; cbn [splitLoop].
  - destruct payload; [done|simpl in Hl; lia].
  - destruct payload as [|x p]; [done|]. cbn [concat].
    rewrite IH; [apply take_drop|]. rewrite length_drop. lia.
Qed.

Lemma length_splitLoop n m payload : (length (splitLoop n m payload) <= n)%nat.
Proof.
  revert payload. induction n as [|n IH]; intros [|x payload]; cbn [splitLoop length]; [lia..|].
  pose proof (IH (drop m (x :: payload))). lia.
Qed.

Lemma splitLoop_short n m payload c : c ∈ splitLoop n m payload -> (length c <= m)%nat.
Proof.
  revert payload. induction n as [|n IH]; intros [|x payload]; cbn [splitLoop]; try by intros ?%elem_of_nil.
  intros [->|Hc]%elem_of_cons; [rewrite length_take; lia|by eapply IH].
Qed.

Lemma splitLoop_some n m payload : payload ≠ [] -> (0 < n)%nat -> (0 < length (splitLoop n m payload))%nat.
Proof. intros Hp Hn. destruct payload; [done|]. destruct n; [lia|]. simpl. lia. Qed.

Section delivery.
Context {Int ID : Type} `{Countable ID} `{SuCryptoLaws Int ID}.
Context (dh : Int) (msize : nat).

Definition respCypher (i : nat) : cypher Int :=
  mkCypher dh (Z.of_nat i) NewResponseKey NewResponseFingerprint.

(** The message of part [i] of [n]. *)
Definition respMsg (n i : nat) (c : list byte) : CMsg :=
  cypher_encrypt (respCypher i) (responseBytes msize (Z.of_nat i) (Z.of_nat n) c).

Lemma makeCyphers_resp (n : nat) :
  (n <= 256)%nat ->
  makeCyphers dh (Z.of_nat n) NewResponseKey NewResponseFingerprint = respCypher <$> seq 0 n.
Proof.
  intros Hn. unfold makeCyphers. unfold seqZ. rewrite Nat2Z.id, <- list_fmap_compose.
  apply list_fmap_ext. intros j k Hk. apply lookup_seq in Hk as [-> Hlt]. simpl. unfold respCypher. f_equal.
  rewrite (wrapu_small 8) by (unfold is_u; lia). lia.
Qed.

Lemma responseParts_ok (n i : nat) cs :
  (i + length cs <= n)%nat -> (n <= 255)%nat -> Z.of_nat msize < 65541 ->
  (forall c, c ∈ cs -> (5 + length c <= msize)%nat) ->
  exists ps, responseParts (Z.of_nat msize) (Z.of_nat n) i cs = Ok ps /\
    ResponsePart_Marshal <$> ps = imap (fun j c => responseBytes msize (Z.of_nat (i + j)) (Z.of_nat n) c) cs.
Proof.
  intros Hi Hn Hsz Hcs. revert i Hi. induction cs as [|c cs IH]; intros i Hi; [by exists []|].
  cbn [responseParts length] in *. unfold responsePartOf.
  assert (5 + length c <= msize)%nat as Hc by (apply Hcs; by left).
  destruct (response_made msize (u8 (Z.of_nat i)) (u8 (Z.of_nat n)) c) as (m0 & m1 & -> & _ & Hset & Hmar); [lia..|].
  cbn [mbind result_bind]. rewrite Hset. cbn [mbind result_bind].
  destruct (IH ltac:(intros c' Hc'; apply Hcs; by right) (S i) ltac:(lia)) as (ps & -> & Hps). cbn [mbind result_bind].
  eexists. split; [done|]. rewrite fmap_cons, Hmar, Hps, imap_cons. f_equal.
  - rewrite !(wrapu_small 8) by (unfold is_u; lia). do 2 f_equal. lia.
  - apply imap_ext. intros j x _. simpl. do 2 f_equal. lia.
Qed.

Lemma sendParts_ok (send : nat -> error + Z) i (cys : list (cypher Int)) ps :
  (forall j, exists r, send j = inr r) ->
  exists rounds, sendParts send i (zip cys ps)
    = (zip (zip_with cypher_encrypt cys (ResponsePart_Marshal <$> ps)) rounds, 0) /\
      length rounds = length (zip cys ps).
Proof.
  intros Hsend. revert i ps. induction cys as [|cy cys IH]; intros i [|p ps]; cbn [zip zip_with sendParts];
    try by exists [].
  destruct (IH (S i) ps) as (rounds & Hr & Hl). cbn [zip] in Hr, Hl. rewrite Hr. destruct (Hsend i) as [r ->].
  exists (r :: rounds). split; [done|]. simpl in *. lia.
Qed.

Lemma zip_encrypt (n i : nat) cs :
  zip_with cypher_encrypt (respCypher <$> seq i (length cs))
    (imap (fun j c => responseBytes msize (Z.of_nat (i + j)) (Z.of_nat n) c) cs)
  = imap (fun j c => respMsg n (i + j) c) cs.
Proof.
  revert i. induction cs as [|c cs IH]; intros i; [done|]. cbn [length seq]. rewrite !imap_cons, fmap_cons.
  cbn [zip_with]. f_equal.
  - unfold respMsg. do 2 f_equal; f_equal; lia.
  - etrans; [|etrans; [apply (IH (S i))|]].
    + f_equal. apply imap_ext. intros j x _. simpl. do 2 f_equal. lia.
    + apply imap_ext. intros j x _. simpl. f_equal. lia.
Qed.

(** The contents of the parts of a response. *)
Definition respContents (maxParts : Z) (payload : list byte) : list (list byte) :=
  splitLoop (Z.to_nat maxParts) (msize - 5) payload.

(** [Respond] sends exactly the messages of the parts. *)
Lemma Respond_ok send track (r : SuRequest Int ID) out payload :
  sr_used r = false -> sr_dhKey r = dh -> is_u 8 (sr_maxParts r) ->
  5 < Z.of_nat msize < 65541 -> Z.of_nat (length payload) <= (Z.of_nat msize - 5) * sr_maxParts r ->
  (forall j, exists round, send j = inr round) -> (forall l, track l = Ok tt) ->
  let cs := respContents (sr_maxParts r) payload in
  exists rounds, Respond (Z.of_nat msize) send track payload (r, out)
    = Done (sr_use r, out ++ imap (respMsg (length cs)) cs) rounds.
Proof.
  intros Hused Hdh Hmax Hsize Hlen Hsend Htrack cs. unfold Respond. rewrite Hused.
  unfold GetMaxResponseLength, GetMaxResponsePartSize, partitionResponse.
  destruct (response_made msize 0 0 []) as (m0 & _ & Hnew & Hcap & _ & _); [simpl; lia|simpl; lia|].
  rewrite Hnew. cbn [mbind result_bind]. rewrite Hcap. cbn [sr_maxParts sr_use].
  rewrite (proj2 (Z.ltb_ge _ _)) by lia.
  unfold splitResponse. rewrite (proj2 (Z.eqb_neq _ _)) by lia.
  rewrite (proj2 (Z.ltb_ge _ _)) by (apply Z.quot_pos; lia). cbn [mbind result_bind].
  replace (Z.to_nat (Z.of_nat msize - 5)) with (msize - 5)%nat by lia. fold (respContents (sr_maxParts r) payload).
  fold cs. pose proof (length_splitLoop (Z.to_nat (sr_maxParts r)) (msize - 5) payload) as Hcs.
  unfold is_u in Hmax.
  destruct (responseParts_ok (length cs) 0 cs) as (ps & Hps & Hmar).
  { lia. }
  { unfold cs, respContents. lia. }
  { lia. }
  { intros c Hc. apply splitLoop_short in Hc. lia. }
  rewrite Hps. assert (length ps = length cs) as Hlps.
  { apply (f_equal length) in Hmar. by rewrite length_fmap, length_imap in Hmar. }
  rewrite Hlps. rewrite (wrapu_small 8) by (unfold is_u, cs, respContents; lia). cbn [sr_dhKey sr_use]. rewrite Hdh.
  rewrite makeCyphers_resp by (unfold cs, respContents; lia).
  destruct (sendParts_ok send 0 (respCypher <$> seq 0 (length cs)) ps Hsend) as (rounds & Hs & Hlr).
  rewrite Hs. cbn [Z.ltb Z.compare]. rewrite Htrack. rewrite Hmar, (zip_encrypt (length cs) 0 cs).
  eexists. rewrite fst_zip; [done|]. rewrite length_imap, Hlr, length_zip_with, length_fmap, length_seq. lia.
Qed.

(** ** Receiving the parts *)

Context (src : ID) (cap : nat) (cs : list (list byte)).

(** The requester after the parts in [seen] and no others: it still waits for
    the fingerprints of the rest. *)
Record awaiting (s : reqState Int ID) (seen : gset nat) : Prop := {
  aw_source : rs_source s = Some src;
  aw_once : rs_once s = false;
  aw_calls : rs_calls s = [];
  aw_collator : if decide (seen = ∅) then rs_collator s = NewCollator (Z.of_nat cap)
                else collated cs cap (rs_collator s) seen;
  aw_fps : exists A, fm_rep (rs_fps s) A /\ forall i, (i < length cs)%nat ->
    A !! (src, NewResponseFingerprint dh (Z.of_nat i)) = if decide (i ∈ seen) then None else Some (respCypher i);
}.

(** The requester after the response: the callback has been called once, and no
    fingerprint is left. *)
Record answered (s : reqState Int ID) : Prop := {
  an_source : rs_source s = Some src;
  an_once : rs_once s = true;
  an_calls : exists rounds, rs_calls s = [Response (concat cs) rounds];
  an_fps : exists A, fm_rep (rs_fps s) A /\ forall fp, A !! (src, fp) = None;
}.

Context (some : (0 < length cs)%nat) (fits : (length cs <= cap)%nat) (small : (cap <= 255)%nat).
Context (sizes : forall c, c ∈ cs -> (5 + length c <= msize)%nat) (bounded : Z.of_nat msize < 65541).
Context (distinct : forall i j, (i < length cs)%nat -> (j < length cs)%nat ->
  NewResponseFingerprint dh (Z.of_nat i) = NewResponseFingerprint dh (Z.of_nat j) -> i = j).

(** What the processor of part [i] finds in its message. *)
Lemma respMsg_opens i c :
  cs !! i = Some c ->
  let msg := respMsg (length cs) i c in
  exists part, cypher_decrypt (respCypher i) (cm_contents msg) (cm_mac msg)
      = Ok (responseBytes msize (Z.of_nat i) (Z.of_nat (length cs)) c) /\
    UnmarshalResponsePart (responseBytes msize (Z.of_nat i) (Z.of_nat (length cs)) c) = Ok part /\
    carries cs i part /\ GetNumParts part = Ok (Z.of_nat (length cs)).
Proof.
  intros Hc msg. pose proof (lookup_lt_Some _ _ _ Hc) as Hi.
  assert (5 + length c <= msize)%nat as Hs by (apply sizes; by eapply list_elem_of_lookup_2).
  destruct (response_parsed msize (Z.of_nat i) (Z.of_nat (length cs)) c)
    as (part & Hun & Hnum & Hmax & Hcont); [lia|lia|unfold is_u; lia|unfold is_u; lia|].
  exists part. split_and!; [|done|by exists c|done].
  unfold cypher_decrypt, msg, respMsg, cypher_encrypt. cbn [cm_contents cm_mac].
  by rewrite mac_verifies, crypt_twice.
Qed.

(** Collating part [i] from either state of the collator. *)
Lemma awaiting_collate s seen i c (part : ResponsePart) :
  awaiting s seen -> cs !! i = Some c -> carries cs i part -> GetNumParts part = Ok (Z.of_nat (length cs)) ->
  i ∉ seen ->
  exists col, collated cs cap col ({[ i ]} ∪ seen) /\
    Collate part (rs_collator s) = Done col
      (if (size ({[ i ]} ∪ seen) =? length cs)%nat then (concat cs, true) else ([], false)).
Proof.
  intros Haw Hc Hp Hn Hout. pose proof (aw_collator _ _ Haw) as Hcol.
  assert (collateSpec cs seen [i] = [inr (if (size ({[ i ]} ∪ seen) =? length cs)%nat
    then (concat cs, true) else ([], false))]) as Hspec.
  { cbn [collateSpec]. rewrite bool_decide_false by done. by destruct (_ =? _)%nat. }
  destruct (decide (seen = ∅)) as [->|Hne].
  - rewrite Hcol. destruct (collate_first_ok cs cap some fits i part Hp Hn) as (col & r & Hcl & Hr & Hrun).
    rewrite Hspec in Hr. simplify_eq. by exists col.
  - destruct (collate_part cs cap some fits (rs_collator s) seen i part Hcol Hp) as (col & r & Hcl & Hr & Hrun).
    rewrite Hspec in Hr. simplify_eq. by exists col.
Qed.

(** A message that was seen has no fingerprint any more. *)
Lemma receive_seen s seen i c round :
  awaiting s seen -> cs !! i = Some c -> i ∈ seen ->
  exists s', receiveResponse (respMsg (length cs) i c) round s = Done s' tt /\ awaiting s' seen.
Proof.
  intros Haw Hc Hin. destruct (aw_fps _ _ Haw) as (A & Hrep & HA).
  pose proof (lookup_lt_Some _ _ _ Hc) as Hi. unfold receiveResponse. rewrite (aw_source _ _ Haw).
  change (cm_fp (respMsg (length cs) i c)) with (NewResponseFingerprint dh (Z.of_nat i)).
  destruct (pop_refines (rs_fps s) A src (NewResponseFingerprint dh (Z.of_nat i)) Hrep) as [Hrep' Hp].
  destruct (fm_pop _ _ _) as [fps proc]. cbn [fst snd] in *. rewrite HA, decide_True in Hp by done. subst proc.
  eexists. split; [done|]. destruct Haw as [H1' H2' H3' H4' _]. split; [done|done|done|done|].
  eexists. split; [exact Hrep'|]. intros j Hj. rewrite delete_id; [by apply HA|].
  rewrite HA by done. by rewrite decide_True.
Qed.

(** A new part, of several or the last. *)
Lemma receive_new s seen i c round :
  awaiting s seen -> cs !! i = Some c -> i ∉ seen ->
  exists s', receiveResponse (respMsg (length cs) i c) round s = Done s' tt /\
    if (size ({[ i ]} ∪ seen) =? length cs)%nat then answered s' else awaiting s' ({[ i ]} ∪ seen).
Proof.
  intros Haw Hc Hout. destruct (aw_fps _ _ Haw) as (A & Hrep & HA).
  pose proof (lookup_lt_Some _ _ _ Hc) as Hi. unfold receiveResponse. rewrite (aw_source _ _ Haw).
  change (cm_fp (respMsg (length cs) i c)) with (NewResponseFingerprint dh (Z.of_nat i)).
  destruct (pop_refines (rs_fps s) A src (NewResponseFingerprint dh (Z.of_nat i)) Hrep) as [Hrep' Hp].
  destruct (fm_pop _ _ _) as [fps proc]. cbn [fst snd] in *. rewrite HA, decide_False in Hp by done. subst proc.
  destruct (respMsg_opens i c Hc) as (part & Hdec & Hun & Hcar & Hnum).
  destruct (awaiting_collate s seen i c part Haw Hc Hcar Hnum Hout) as (col & Hcol & Hrun).
  unfold responseProcessor_Process. rewrite Hdec, Hun. cbn [rs_collator rs_setFps]. rewrite Hrun.
  destruct (size ({[ i ]} ∪ seen) =? length cs)%nat; cbv beta iota.
  - unfold callbackWrapper.
    set (s1 := rs_addRound (rs_setCollator (rs_setFps s fps) col) round).
    set (s2 := match rs_timer s1 with Waiting => rs_setTimer s1 Killed | _ => s1 end).
    assert (rs_once s2 = false /\ rs_source s2 = Some src /\ rs_calls s2 = [] /\ rs_fps s2 = fps) as (E1 & E2 & E3 & E4).
    { unfold s2, s1. destruct Haw as [Hs Ho Hcl _ _]. cbn [rs_timer rs_addRound rs_setCollator rs_setFps].
      by destruct (rs_timer s). }
    erewrite bind_Done by done. erewrite bind_Done by done. unfold id. fold s1 s2. clearbody s2. rewrite E1, E2.
    eexists. split; [done|]. split; cbn [rs_source rs_once rs_calls rs_fps]; [done|done|rewrite E3; by eexists|].
    rewrite E4. eexists. split; [by apply delete_client_refines|].
    intros fp. apply map_lookup_filter_None. right. intros x _ Hneq. by apply Hneq.
  - eexists. split; [done|]. destruct Haw as [Hs Ho Hcl _ _]. split; cbn; [done|done|done|..].
    + by rewrite decide_False by set_solver.
    + eexists. split; [exact Hrep'|]. intros j Hj. destruct (decide (j = i)) as [->|Hne].
      * rewrite lookup_delete_eq. by rewrite decide_True by set_solver.
      * rewrite lookup_delete_ne by (intros [= Heq]; by apply Hne, eq_sym, distinct).
        rewrite HA by done. destruct (decide (j ∈ seen)); [by rewrite decide_True by set_solver|].
        by rewrite decide_False by set_solver.
Qed.

(** Nothing is received after the response. *)
Lemma receive_answered s msg round :
  answered s -> exists s', receiveResponse msg round s = Done s' tt /\ answered s'.
Proof.
  intros Han. destruct (an_fps _ Han) as (A & Hrep & HA). unfold receiveResponse. rewrite (an_source _ Han).
  destruct (pop_refines (rs_fps s) A src (cm_fp msg) Hrep) as [Hrep' Hp].
  destruct (fm_pop _ _ _) as [fps proc]. cbn [fst snd] in *. rewrite HA in Hp. subst proc.
  eexists. split; [done|]. destruct Han as [Hs Ho Hc _]. split; [done|done|done|].
  eexists. split; [exact Hrep'|]. intros fp. rewrite delete_id; [apply HA|apply HA].
Qed.

(** The messages of the parts [order], each on a round. *)
Fixpoint receiveAll (order : list (nat * Z)) : act (reqState Int ID) unit :=
  match order with
  | [] => mret tt
  | (i, round) :: order =>
      _ ← receiveResponse (respMsg (length cs) i (default [] (cs !! i))) round;
      receiveAll order
  end.

Lemma receiveAll_answered order s :
  answered s -> exists s', receiveAll order s = Done s' tt /\ answered s'.
Proof.
  revert s. induction order as [|[i round] order IH]; intros s Han; [by exists s|]. cbn [receiveAll].
  destruct (receive_answered s (respMsg (length cs) i (default [] (cs !! i))) round Han) as (s1 & Hr & Han1).
  act_step. by apply IH.
Qed.

(** The parts that have not been seen are on their way. *)
Definition covers (seen : gset nat) (order : list (nat * Z)) : Prop :=
  forall i, (i < length cs)%nat -> i ∈ seen \/ i ∈ order.*1.

Lemma receiveAll_delivers order s (seen : gset nat) :
  awaiting s seen -> Forall (fun e => (e.1 < length cs)%nat) order ->
  (forall i, i ∈ seen -> (i < length cs)%nat) -> size seen ≠ length cs ->
  exists s', receiveAll order s = Done s' tt /\
    (covers seen order -> answered s') /\ (~ covers seen order -> rs_calls s' = []).
Proof.
  intros Haw Hord. revert s seen Haw. induction Hord as [|[i round] order Hi _ IH]; intros s seen Haw Hs Hsz.
  - exists s. split; [done|]. split; [|by intros _; apply Haw]. intros Hcov. exfalso. apply Hsz.
    apply complete_seen; [done|]. intros i Hi. by destruct (Hcov i Hi) as [|?%elem_of_nil].
  - cbn [receiveAll]. simpl in Hi. destruct (lookup_lt_is_Some_2 cs i Hi) as [c Hc]. rewrite Hc. cbn [default from_option id].
    assert (forall j, j ∈ ({[i]} ∪ seen : gset nat) -> (j < length cs)%nat) as Hs' by (intros j; set_solver).
    assert (covers seen ((i, round) :: order) <-> covers ({[ i ]} ∪ seen) order) as Hcov.
    { unfold covers. rewrite fmap_cons. cbn [fst]. setoid_rewrite elem_of_cons. setoid_rewrite elem_of_union.
      setoid_rewrite elem_of_singleton. naive_solver. }
    setoid_rewrite Hcov. destruct (decide (i ∈ seen)) as [Hin|Hout].
    + destruct (receive_seen s seen i c round Haw Hc Hin) as (s1 & Hr & Haw1). act_step.
      replace ({[i]} ∪ seen) with seen by set_solver. by apply IH.
    + destruct (receive_new s seen i c round Haw Hc Hout) as (s1 & Hr & Haw1). act_step.
      destruct (size ({[ i ]} ∪ seen) =? length cs)%nat eqn:E.
      * apply Nat.eqb_eq in E. destruct (receiveAll_answered order s1 Haw1) as (s' & Hr' & Han).
        exists s'. split; [done|]. split; [done|]. intros []. intros j Hj. left.
        by apply (complete_seen cs _ Hs').
      * apply Nat.eqb_neq in E. by apply IH.
Qed.
End delivery.
