(* ===== verification/SingleRequest.v ===== *)
(** * Single-use requests

    [single/request.go], [listener.go] and [requestPartProcessor.go]: a client
    sends a request from an identity made for it, with a payload that may need
    several messages; the listener of the recipient decrypts the first message,
    waits for the others and hands the whole request to its callback. *)

From S2P Require Import Prelude GoBytes Effects Fingerprints SingleMessage SingleResponse.

Definition maxNumRequestParts : Z := 255.

(** ** Cutting the payload *)

(** The loop of [partitionPayload]; the length of the payload bounds it. *)
Fixpoint partitionRest (fuel : nat) (partSize : nat) (payload : list byte) : list (list byte) :=
  match fuel, payload with
  | S fuel, _ :: _ =>
      if (partSize <? length payload)%nat
      then take partSize payload :: partitionRest fuel partSize (drop partSize payload)
      else [payload]
  | _, _ => []
  end.

Definition partitionPayload (firstPartSize partSize : Z) (payload : list byte) :
    result (list byte * list (list byte)) :=
  if Z.of_nat (length payload) <=? firstPartSize then Ok (payload, [])
  else if (firstPartSize <? 0) || (partSize <=? 0) then Panic
  else
    let rest := drop (Z.to_nat firstPartSize) payload in
    Ok (take (Z.to_nat firstPartSize) payload, partitionRest (length rest) (Z.to_nat partSize) rest).

(** ** Keys and identities *)

(** [ephemeral.GetId]: the time window of the address of an identity. *)
Class Ephemeral (ID : Type) := {
  ephemeral_GetId : ID -> Z -> Time -> error + (Time * Time);
}.

Section transmit.
Context {Int ID : Type} `{Countable ID} `{SuCrypto Int ID} `{Ephemeral ID}.

(** The private key comes from the random source. *)
Definition generateDhKeys (dhPubKey : Int) (rng : error + Int) : result (Int * Int) :=
  match rng with
  | inl e => Err (Wrapf "failed to generate private key in group: %+v" [] e)
  | inr privKey => Ok (grp_Exp dhPubKey privKey, GeneratePublicKey privKey)
  end.

(** The loop of [makeIDs]: nonces until the window of the address holds the
    window asked for.  The source of nonces gives [reads] and then fails. *)
Fixpoint makeIDsLoop (reads : list (error + list byte)) (payload : RequestPayload) (publicKey : Int)
    (addressSize : Z) (timeNow windowStart windowEnd start end_ : Time) (rid : option ID) :
    result (RequestPayload * option ID) :=
  if (windowStart <? start) || (end_ <? windowEnd) then
    match reads with
    | [] => Err (Wrapf "failed to generate nonce: %+v" [] (Errorf "EOF" []))
    | read :: reads =>
        payload ← wrap_err "failed to generate nonce: %+v" [] (RequestPayload_SetNonce payload read);
        let rid := NewRecipientID publicKey (RequestPayload_Marshal payload) in
        match ephemeral_GetId rid addressSize (UnixNano timeNow) with
        | inl e => Err (Wrapf "failed to generate address ID from newly generated ID: %+v" [] e)
        | inr (start, end_) =>
            makeIDsLoop reads payload publicKey addressSize timeNow windowStart windowEnd start end_ (Some rid)
        end
    end
  else Ok (payload, rid).

Definition makeIDs (reads : list (error + list byte)) (payload : RequestPayload) (publicKey : Int)
    (addressSize timeout : Z) (timeNow : Time) : result (RequestPayload * option ID) :=
  makeIDsLoop reads payload publicKey addressSize timeNow (timeNow - 2 * timeout) (timeNow + 2 * timeout)
    timeNow timeNow None.

(** ** Sending *)

(** The network as the request sees it: its sizes and what its calls answer. *)
Record suNet := mkSuNet {
  net_GetMaxMessageLength : Z;
  net_IsHealthy : bool;
  net_GetAddressSpace : Z;                  (* uint8 *)
  net_Send : nat -> error + Z;              (* message by message *)
}.

Definition GetMaxRequestSize (net : suNet) : Z :=
  let payloadSize := GetRequestPayloadSize (net_GetMaxMessageLength net) grp_ByteLen in
  let requestSize := GetRequestContentsSize payloadSize in
  let requestPartSize := GetRequestPartContentsSize (net_GetMaxMessageLength net) in
  requestSize + maxNumRequestParts * requestPartSize.

(** The request's own state, what was sent, and the identities added. *)
Record txState := mkTxState {
  tx_req : reqState Int ID;
  tx_sent : list CMsg;
  tx_identities : list (option ID * Time);
}.

Definition tx_setFps (t : txState) (f : FingerprintsManager ID Fingerprint (cypher Int)) : txState :=
  mkTxState (rs_setFps (tx_req t) f) (tx_sent t) (tx_identities t).
Definition tx_send (t : txState) (m : CMsg) : txState :=
  mkTxState (tx_req t) (tx_sent t ++ [m]) (tx_identities t).

(** The loop that registers the processors. *)
Fixpoint addResponseFingerprints (i : Z) (n : Z) (source : option ID) (cyphers : list (cypher Int)) :
    act txState unit :=
  match cyphers with
  | [] => mret tt
  | cy :: cyphers => fun t =>
      let '(fps, e) := AddFingerprint (rs_fps (tx_req t)) source (cypher_getFingerprint cy) cy in
      match e with
      | Some e => Fail (tx_setFps t fps) (Wrapf "failed to add fingerprint %d of %d: %+v (%s for %s)" [i; n] e)
      | None => addResponseFingerprints (i + 1) n source cyphers (tx_setFps t fps)
      end
  end.

(** One further part, number [i]. *)
Definition requestPartMsg (maxMessageLength : Z) (dhKey : Int) (i : Z) (part : list byte) : result CMsg :=
  requestPart ← NewRequestPart maxMessageLength;
  requestPart ← RequestPart_SetContents (RequestPart_SetPartNum requestPart (u8 i)) part;
  let key := NewRequestPartKey dhKey i in
  let fp := NewRequestPartFingerprint dhKey i in
  let encryptedPayload := Crypt key (take 24 fp) (RequestPart_Marshal requestPart) in
  Ok (mkCMsg fp encryptedPayload (MakeMAC key encryptedPayload)).

(** The sends of the further parts, in their order, and how many failed. *)
Fixpoint sendRequestParts (net : suNet) (dhKey : Int) (i : nat) (parts : list (list byte)) : act txState Z :=
  match parts with
  | [] => mret 0
  | part :: parts =>
      m ← pureResult (requestPartMsg (net_GetMaxMessageLength net) dhKey (Z.of_nat i) part);
      match net_Send net i with
      | inl _ =>
          failed ← sendRequestParts net dhKey (S i) parts;
          mret (u32 (failed + 1))
      | inr _ =>
          _ ← modify (fun t => tx_send t m);
          sendRequestParts net dhKey (S i) parts
      end
  end.

(** The first message. *)
Definition buildRequest (maxMessageLength : Z) (recipientPubKey publicKey dhKey : Int)
    (requestPayload : RequestPayload) : result CMsg :=
  let fp := NewRequestFingerprint recipientPubKey in
  let key := NewRequestKey dhKey in
  let encryptedPayload := Crypt key (take 24 fp) (RequestPayload_Marshal requestPayload) in
  request ← NewRequest maxMessageLength grp_ByteLen;
  request ← Request_SetPayload (Request_SetPubKey request (LeftpadBytes publicKey (Request_GetPubKeySize request)))
              encryptedPayload;
  Ok (mkCMsg fp (Request_Marshal request) (MakeMAC key encryptedPayload)).

(** The payload of the first message, before its nonce. *)
Definition firstPayload (maxMessageLength : Z) (firstPart : list byte) (numParts maxResponses : Z) :
    result RequestPayload :=
  request ← NewRequest maxMessageLength grp_ByteLen;
  requestPayload ← NewRequestPayload (Request_GetPayloadSize request) firstPart maxResponses;
  Ok (RequestPayload_SetNumRequestParts requestPayload (u8 (1 + u8 numParts))).

Definition TransmitRequest (net : suNet) (recipientPubKey : Int) (payload : list byte)
    (maxResponseMessages timeout : Z) (rng : error + Int) (reads : list (error + list byte)) (timeStart : Time) :
    act txState (list Z * option ID) :=
  if GetMaxRequestSize net <? Z.of_nat (length payload) then
    throw (Errorf "size of payload %d exceeds the maximum size of %d (%s for %s)"
             [Z.of_nat (length payload); GetMaxRequestSize net])
  else if negb (net_IsHealthy net) then
    throw (Errorf "cannot send singe-use request when the network is not healthy" [])
  else
    '(dhKey, publicKey) ← annotate "failed to generate DH keys (%s for %s): %+v" []
       (pureResult (generateDhKeys recipientPubKey rng));
    let M := net_GetMaxMessageLength net in
    let payloadSize := GetRequestPayloadSize M grp_ByteLen in
    '(firstPart, parts) ← pureResult (partitionPayload (GetRequestContentsSize payloadSize)
                                        (GetRequestPartContentsSize M) payload);
    requestPayload ← pureResult (firstPayload M firstPart (Z.of_nat (length parts)) maxResponseMessages);
    '(requestPayload, source) ← annotate "failed to generate IDs (%s for %s): %+v" []
       (pureResult (makeIDs reads requestPayload publicKey (net_GetAddressSpace net) timeout timeStart));
    first ← pureResult (buildRequest M recipientPubKey publicKey dhKey requestPayload);
    let cyphers := makeCyphers dhKey maxResponseMessages NewResponseKey NewResponseFingerprint in
    _ ← modify (fun t => mkTxState (mkReqState source (rs_fps (tx_req t)) (NewCollator maxResponseMessages)
                                     newRoundIdCollector false NotStarted []) (tx_sent t) (tx_identities t));
    _ ← addResponseFingerprints 0 (Z.of_nat (length cyphers)) source cyphers;
    _ ← modify (fun t => mkTxState (tx_req t) (tx_sent t) (tx_identities t ++ [(source, timeStart + timeout)]));
    match net_Send net 0 with
    | inl e => throw (Wrapf "failed to send %s request to %s: %+v" [] e)
    | inr rid =>
        _ ← modify (fun t => tx_send t first);
        failed ← sendRequestParts net dhKey 1 parts;
        if 0 <? failed then
          throw (Errorf "%d requests failed to send, the request will be handleable and will time out" [failed])
        else
          _ ← modify (fun t => mkTxState (rs_setTimer (tx_req t) Waiting) (tx_sent t) (tx_identities t));
          mret ([rid], source)
    end.
End transmit.
Arguments txState Int ID {_ _}.

(** ** The listener *)

Section listening.
Context {Int ID Eph : Type} `{Countable ID} `{SuCrypto Int ID}.

(** [Eph] is the address a message was received on; the network and the
    callback of the listener are part of the state. *)
Record listener := mkListener {
  l_tag : string;
  l_myID : ID;
  l_myPrivKey : Int;
}.

(** What the callback function made for a request captures. *)
Record reqClosure := mkReqClosure {
  cl_senderPubKey : Int;
  cl_dhKey : Int;
  cl_payload : RequestPayload;
  cl_receptionID : Eph;
}.

(** The processors of a request share a collator and a collector of rounds,
    which they reach through [pp_at]. *)
Record requestPartProcessor := mkRequestPartProcessor {
  pp_cb : reqClosure;
  pp_at : nat;
  pp_cy : cypher Int;
}.

Record lState := mkLState {
  ls_fps : FingerprintsManager ID Fingerprint requestPartProcessor;
  ls_heap : list (Collator * roundCollector);
  ls_requests : list (SuRequest Int ID * Eph * list Z);   (* calls of the callback *)
  ls_checks : nat;                                        (* calls of CheckInProgressMessages *)
}.

Definition ls_setFps (s : lState) (f : FingerprintsManager ID Fingerprint requestPartProcessor) : lState :=
  mkLState f (ls_heap s) (ls_requests s) (ls_checks s).
Definition ls_setHeap (s : lState) (h : list (Collator * roundCollector)) : lState :=
  mkLState (ls_fps s) h (ls_requests s) (ls_checks s).
Definition ls_check (s : lState) : lState := mkLState (ls_fps s) (ls_heap s) (ls_requests s) (S (ls_checks s)).
Definition ls_call (s : lState) (c : SuRequest Int ID * Eph * list Z) : lState :=
  mkLState (ls_fps s) (ls_heap s) (ls_requests s ++ [c]) (ls_checks s).

Context (l : listener).

(** [requestPayload.GetRecipientID] *)
Definition RequestPayload_GetRecipientID (m : RequestPayload) (pubKey : Int) : ID :=
  NewRecipientID pubKey (RequestPayload_Marshal m).

Definition cbFunc (cl : reqClosure) (payloadContents : list byte) (rounds : list Z) : act lState unit :=
  maxParts ← pureResult (RequestPayload_GetMaxResponseParts (cl_payload cl));
  modify (fun s => ls_call s
    (mkSuRequest (RequestPayload_GetRecipientID (cl_payload cl) (cl_senderPubKey cl)) (cl_senderPubKey cl)
       (cl_dhKey cl) (l_tag l) maxParts false payloadContents, cl_receptionID cl, rounds)).

(** The loop that registers the processors. *)
Fixpoint addPartFingerprints (i numParts : Z) (cl : reqClosure) (at_ : nat) (cyphers : list (cypher Int)) :
    act lState unit :=
  match cyphers with
  | [] => mret tt
  | cy :: cyphers => fun s =>
      let '(fps, e) := AddFingerprint (ls_fps s) (Some (l_myID l)) (cypher_getFingerprint cy)
                         (mkRequestPartProcessor cl at_ cy) in
      match e with
      | Some e => Fail (ls_setFps s fps)
          (Wrapf "could not add fingerprint for single-use request part %d of %d: %+v" [i; numParts] e)
      | None => addPartFingerprints (i + 1) numParts cl at_ cyphers (ls_setFps s fps)
      end
  end.

(** What is done with a payload: wait for the other parts, or call the callback
    at once.  The rounds of the other parts are collected, not that of the
    first message. *)
Definition acceptPayload (cl : reqClosure) (round : Z) : act lState unit :=
  let requestPayload := cl_payload cl in
  numParts ← pureResult (RequestPayload_GetNumRequestParts requestPayload);
  if 1 <? numParts then
    c ← (fun s => match Collate requestPayload (NewCollator numParts) with
                  | Done c _ => Done s c
                  | Fail _ e => Fail s (Wrapf "could not collate initial payload: %+v" [] e)
                  | Crash => Crash
                  end);
    at_ ← gets (fun s => length (ls_heap s));
    _ ← modify (fun s => ls_setHeap s (ls_heap s ++ [(c, newRoundIdCollector)]));
    _ ← addPartFingerprints 0 numParts cl at_
          (makeCyphers (cl_dhKey cl) numParts NewRequestPartKey NewRequestPartFingerprint);
    modify ls_check
  else
    contents ← pureResult (RequestPayload_GetContents requestPayload);
    cbFunc cl contents [round].

Definition listener_process (ecrMsg : CMsg) (receptionID : Eph) (round : Z) : act lState unit :=
  request ← annotate "could not unmarshal contents: %+v" []
    (pureResult (UnmarshalRequest (cm_contents ecrMsg) grp_ByteLen));
  let senderPubkey := NewIntFromBytes (Request_pubKeyBytes request) in
  let dhKey := grp_Exp senderPubkey (l_myPrivKey l) in
  let key := NewRequestKey dhKey in
  if negb (VerifyMAC key (Request_GetPayload request) (cm_mac ecrMsg)) then throw (Errorf "failed to verify MAC" [])
  else
    let decryptedPayload := Crypt key (take 24 (cm_fp ecrMsg)) (Request_GetPayload request) in
    requestPayload ← annotate "could not unmarshal decrypted payload: %+v" []
      (pureResult (UnmarshalRequestPayload decryptedPayload));
    acceptPayload (mkReqClosure senderPubkey dhKey requestPayload receptionID) round.

(** Errors are logged. *)
Definition listener_Process (ecrMsg : CMsg) (receptionID : Eph) (round : Z) : act lState unit :=
  logged (listener_process ecrMsg receptionID round).

(** The processors of the further parts.  An address is always valid: it was
    given out when the collator was made. *)
Definition requestPartProcessor_Process (p : requestPartProcessor) (msg : CMsg) (round : Z) : act lState unit := fun s =>
  match cypher_decrypt (pp_cy p) (cm_contents msg) (cm_mac msg) with
  | Ok decrypted =>
      match UnmarshalRequestPart decrypted with
      | Ok requestPart =>
          match ls_heap s !! pp_at p with
          | None => Crash
          | Some (c, roundIDs) =>
              match Collate requestPart c with
              | Done c (payload, done) =>
                  let roundIDs := roundCollector_add roundIDs round in
                  let s := ls_setHeap s (<[pp_at p := (c, roundIDs)]> (ls_heap s)) in
                  if (done : bool) then cbFunc (pp_cb p) payload (roundCollector_getList roundIDs) s
                  else Done s tt
              | Fail c _ => Done (ls_setHeap s (<[pp_at p := (c, roundIDs)]> (ls_heap s))) tt
              | Crash => Crash
              end
          end
      | Err _ => Done s tt
      | Panic => Crash
      end
  | Err _ => Done s tt
  | Panic => Crash
  end.

(** A message for the listener's identity with the fingerprint of a part. *)
Definition receiveRequestPart (msg : CMsg) (round : Z) : act lState unit := fun s =>
  let '(fps, proc) := fm_pop (ls_fps s) (l_myID l) (cm_fp msg) in
  let s := ls_setFps s fps in
  match proc with
  | Some p => requestPartProcessor_Process p msg round s
  | None => Done s tt
  end.
End listening.
Arguments listener Int ID : clear implicits.
Arguments reqClosure Int Eph : clear implicits.
Arguments requestPartProcessor Int Eph : clear implicits.
Arguments lState Int ID Eph {_ _}.

(** ** Cutting and sending the request *)

Lemma fmap_seqZ_inj {A} (f : Z -> A) n (i j : nat) :
  NoDup (f <$> seqZ 0 n) -> Z.of_nat i < n -> Z.of_nat j < n -> f (Z.of_nat i) = f (Z.of_nat j) -> i = j.
Proof.
  intros Hnd Hi Hj Heq. assert (forall k, Z.of_nat k < n -> (f <$> seqZ 0 n) !! k = Some (f (Z.of_nat k))) as Hk.
  { intros k Hk. by rewrite list_lookup_fmap, lookup_seqZ_lt by lia. }
  eapply NoDup_lookup; [exact Hnd|by apply Hk|]. rewrite Heq. by apply Hk.
Qed.

Lemma partitionRest_ok p fuel l :
  (0 < p)%nat -> (length l <= fuel)%nat ->
  concat (partitionRest fuel p l) = l /\ (forall c, c ∈ partitionRest fuel p l -> (length c <= p)%nat) /\
  (forall n, (length l <= n * p)%nat <-> (length (partitionRest fuel p l) <= n)%nat).
Proof.
  intros Hp. revert l. induction fuel as [|fuel IH]; intros [|x l] Hl; cbn [partitionRest];
    try (split_and!; [done|by intros c ?%elem_of_nil|intros n; simpl; lia]); [simpl in Hl; lia|].
  destruct (p <? length (x :: l))%nat eqn:E.
  - apply Nat.ltb_lt in E.
    destruct (IH (drop p (x :: l))) as (Hc & Hs & Hn); [rewrite length_drop; simpl in *; lia|].
    split_and!.
    + cbn [concat]. by rewrite Hc, take_drop.
    + intros c [->|Hin]%elem_of_cons; [rewrite length_take; lia|by apply Hs].
    + intros [|n]; cbn [length] in *; [lia|]. specialize (Hn n). rewrite length_drop in Hn. cbn [length] in Hn. lia.
  - apply Nat.ltb_ge in E. split_and!.
    + cbn [concat]. apply app_nil_r.
    + by intros c ->%list_elem_of_singleton.
    + intros [|n]; cbn [length] in *; lia.
Qed.

Lemma partitionPayload_ok (f p : nat) payload :
  (0 < p)%nat ->
  exists rest, partitionPayload (Z.of_nat f) (Z.of_nat p) payload = Ok (take f payload, rest) /\
    take f payload ++ concat rest = payload /\ (forall c, c ∈ rest -> (length c <= p)%nat) /\
    (forall n, (length payload <= f + n * p)%nat <-> (length rest <= n)%nat).
Proof.
  intros Hp. unfold partitionPayload. destruct (Z.of_nat (length payload) <=? Z.of_nat f) eqn:E.
  - apply Z.leb_le in E. exists []. rewrite take_ge by lia. split_and!; [done|by rewrite app_nil_r|by intros c ?%elem_of_nil|].
    intros n. simpl. lia.
  - apply Z.leb_gt in E. rewrite (proj2 (Z.ltb_ge _ _)), (proj2 (Z.leb_gt _ _)) by lia. cbn [orb]. rewrite !Nat2Z.id.
    destruct (partitionRest_ok p (length (drop f payload)) (drop f payload)) as (Hc & Hs & Hn); [done|done|].
    eexists. split; [done|]. rewrite Hc, take_drop. split_and!; [done|done|].
    intros n. rewrite <- Hn, length_drop. lia.
Qed.

Section sending.
Context {Int ID : Type} `{Countable ID} `{SuCryptoLaws Int ID} `{Ephemeral ID}.
Context (dh : Int) (msize : nat).

Definition reqCypher (i : nat) : cypher Int :=
  mkCypher dh (Z.of_nat i) NewRequestPartKey NewRequestPartFingerprint.

(** The message of part [i], which follows the first. *)
Definition reqMsg (i : nat) (c : list byte) : CMsg :=
  cypher_encrypt (reqCypher i) (requestPartBytes msize (Z.of_nat i) c).

Lemma requestPartMsg_ok i c :
  (i <= 255)%nat -> (3 + length c <= msize)%nat -> Z.of_nat msize < 65536 ->
  requestPartMsg (Z.of_nat msize) dh (Z.of_nat i) c = Ok (reqMsg i c).
Proof.
  intros Hi Hc Hm. unfold requestPartMsg. rewrite (wrapu_small 8) by (unfold is_u; lia).
  destruct (requestPart_made msize (Z.of_nat i) c) as (m0 & m1 & -> & Hset & Hmar); [lia..|].
  cbn [mbind result_bind]. rewrite Hset. cbn [mbind result_bind]. by rewrite Hmar.
Qed.

(** The network answers every send. *)
Definition sends (net : suNet) : Prop := forall i, exists r, net_Send net i = inr r.

Lemma sendRequestParts_ok net i parts (t : txState Int ID) :
  net_GetMaxMessageLength net = Z.of_nat msize -> sends net -> Z.of_nat msize < 65536 ->
  (i + length parts <= 256)%nat -> (forall c, c ∈ parts -> (3 + length c <= msize)%nat) ->
  sendRequestParts net dh i parts t
    = Done (mkTxState (tx_req t) (tx_sent t ++ imap (fun j => reqMsg (i + j)) parts) (tx_identities t)) 0.
Proof.
  intros Hnet Hsend Hm. revert i t. induction parts as [|c parts IH]; intros i t Hi Hc.
  - simpl. rewrite app_nil_r. by destruct t.
  - cbn [sendRequestParts]. cbn [length] in Hi. rewrite Hnet.
    erewrite bind_Done by (apply pureResult_Done, requestPartMsg_ok; [lia|apply Hc; by left|done]).
    destruct (Hsend i) as [r ->]. erewrite bind_Done by done.
    rewrite IH; [|lia|intros c' Hc'; apply Hc; by right].
    cbn [tx_send tx_req tx_sent tx_identities]. rewrite imap_cons, <- app_assoc. cbn [app]. do 3 f_equal.
    rewrite Nat.add_0_r. f_equal. apply imap_ext. intros j x _. simpl. f_equal. lia.
Qed.

(** The first message, with the payload [bytes] in it. *)
Definition firstMsg (recipientPubKey publicKey : Int) (bytes : list byte) : CMsg :=
  let fp := NewRequestFingerprint recipientPubKey in
  let key := NewRequestKey dh in
  let enc := Crypt key (take 24 fp) bytes in
  mkCMsg fp (x00 :: LeftpadBytes publicKey grp_ByteLen ++ enc) (MakeMAC key enc).

Lemma buildRequest_ok recipientPubKey publicKey bytes :
  1 + grp_ByteLen + Z.of_nat (length bytes) = Z.of_nat msize ->
  buildRequest (Z.of_nat msize) recipientPubKey publicKey dh (payloadView bytes)
    = Ok (firstMsg recipientPubKey publicKey bytes).
Proof.
  intros Hlen. unfold buildRequest. rewrite payloadView_Marshal. set (enc := Crypt _ _ _).
  pose proof (leftpad_length publicKey) as Hpad.
  assert (length enc = length bytes) as Henc by apply crypt_length.
  destruct (request_made msize (Z.to_nat grp_ByteLen) (LeftpadBytes publicKey grp_ByteLen) enc)
    as (m0 & m1 & Hnew & Hps & Hset & Hmar); [lia|lia|].
  rewrite Z2Nat.id in Hnew by lia. rewrite Hnew. cbn [mbind result_bind].
  assert (Request_GetPubKeySize m0 = grp_ByteLen) as ->.
  { unfold NewRequest, makeBytes in Hnew. rewrite !(proj2 (Z.ltb_ge _ _)) in Hnew by lia.
    cbn [mbind result_bind] in Hnew. rewrite Nat2Z.id in Hnew.
    rewrite <- (Z2Nat.id grp_ByteLen) in Hnew by lia.
    rewrite mapRequest_ok in Hnew by (rewrite length_replicate; lia). cbn [mbind result_bind] in Hnew.
    destruct (sset _ _ _ _); simplify_eq/=. unfold Request_GetPubKeySize. cbn. lia. }
  rewrite Hset. cbn [mbind result_bind]. by rewrite Hmar.
Qed.

Lemma firstPayload_ok (c : list byte) num max :
  Z.of_nat (length c) < 65536 -> 0 <= grp_ByteLen -> 1 + grp_ByteLen + 12 + Z.of_nat (length c) <= Z.of_nat msize ->
  firstPayload (Z.of_nat msize) c num max
    = Ok (payloadView (payloadBytes (msize - 1 - Z.to_nat grp_ByteLen) zeroNonce (u8 (1 + u8 num)) max c)).
Proof.
  intros Hlt Hpk Hc. unfold firstPayload.
  destruct (request_made msize (Z.to_nat grp_ByteLen) (replicate (Z.to_nat grp_ByteLen) x00)
              (replicate (msize - 1 - Z.to_nat grp_ByteLen) x00)) as (m0 & m1 & Hnew & Hps & _ & _);
    [apply length_replicate|rewrite length_replicate; lia|].
  rewrite Z2Nat.id in Hnew by lia. rewrite Hnew. cbn [mbind result_bind]. rewrite Hps, length_replicate.
  rewrite payload_made by lia. cbn [mbind result_bind]. by rewrite payloadView_SetNum.
Qed.

(** The identity is that of the payload with the nonce found. *)
Lemma makeIDs_ok reads size num max c (publicKey : Int) addressSize timeout now p src :
  Forall (fun r => match r with inr b => length b = 8%nat | inl _ => True end) reads ->
  makeIDs reads (payloadView (payloadBytes size zeroNonce num max c)) publicKey addressSize timeout now
    = Ok (p, Some src) ->
  exists nonce, length nonce = 8%nat /\ p = payloadView (payloadBytes size nonce num max c) /\
    src = NewRecipientID publicKey (payloadBytes size nonce num max c).
Proof.
  unfold makeIDs. generalize (now - 2 * timeout) as ws. generalize (now + 2 * timeout) as we. intros we ws Hreads.
  assert (length zeroNonce = 8%nat) as Hz by done. revert Hz.
  generalize zeroNonce as nonce.
  assert (forall nonce (rid : option ID) start end_,
    length nonce = 8%nat -> (forall r, rid = Some r -> r = NewRecipientID publicKey (payloadBytes size nonce num max c)) ->
    makeIDsLoop reads (payloadView (payloadBytes size nonce num max c)) publicKey addressSize now ws we start end_ rid
      = Ok (p, Some src) ->
    exists nonce', length nonce' = 8%nat /\ p = payloadView (payloadBytes size nonce' num max c) /\
      src = NewRecipientID publicKey (payloadBytes size nonce' num max c)) as Hloop.
  { induction Hreads as [|r reads Hr Hreads IH]; intros nonce rid start end_ Hn Hrid; cbn [makeIDsLoop].
    - case_match; [done|]. intros Heq. simplify_eq. exists nonce. split_and!; [done|done|by apply Hrid].
    - destruct ((ws <? start) || (end_ <? we)); [|intros Heq; simplify_eq; exists nonce; split_and!; [done|done|by apply Hrid]].
      destruct r as [e|b]; [done|]. rewrite payloadView_SetNonce by done. cbn [mbind result_bind wrap_err].
      rewrite payloadView_Marshal. case_match; [done|]. case_match. apply IH; [done|]. intros r Hsome. by simplify_eq. }
  intros nonce Hn. by apply Hloop.
Qed.

(** The processors of the response are registered one by one. *)
Lemma addResponseFingerprints_ok src i n cyphers (t : txState Int ID) fps :
  addAll (rs_fps (tx_req t)) src ((fun cy => (cypher_getFingerprint cy, cy)) <$> cyphers) = Some fps ->
  addResponseFingerprints i n (Some src) cyphers t = Done (tx_setFps t fps) tt.
Proof.
  revert i t. induction cyphers as [|cy cyphers IH]; intros i t; rewrite ?fmap_cons; cbn [addAll addResponseFingerprints].
  - intros [= <-]. by destruct t as [[] ?].
  - destruct (AddFingerprint _ _ _ _) as [f [e|]]; [done|]. intros Hall. by rewrite IH with (t := tx_setFps t f).
Qed.
End sending.

Section exchange.
Context {Int ID Eph : Type} `{Countable ID} `{SuCryptoLaws Int ID} `{Ephemeral ID}.
Context (net : suNet) (l : listener Int ID) (priv : Int) (payload : list byte) (maxResp timeout : Z).
Context (reads : list (error + list byte)) (now : Time) (msize : nat) (src : ID).

(** The two sides of the key exchange. *)
Definition listenerPubKey : Int := GeneratePublicKey (l_myPrivKey l).
Definition senderPubKey : Int := GeneratePublicKey priv.
Definition sharedKey : Int := grp_Exp listenerPubKey priv.

(** What fits in the first message and in each of the others. *)
Definition firstRoom : nat := msize - 13 - Z.to_nat grp_ByteLen.
Definition partRoom : nat := msize - 3.

(** A request the code accepts, on a network that works: messages have room
    for a public key, nonces have their eight bytes, and the search for an
    identity ends with [src]. *)
Record sendable : Prop := {
  sd_length : net_GetMaxMessageLength net = Z.of_nat msize;
  sd_healthy : net_IsHealthy net = true;
  sd_sends : sends net;
  sd_room : 13 + grp_ByteLen <= Z.of_nat msize < 65536;
  sd_payload : Z.of_nat (length payload) <= GetMaxRequestSize net;
  sd_max : is_u 8 maxResp;
  sd_reads : Forall (fun r => match r with inr b => length b = 8%nat | inl _ => True end) reads;
  sd_found : exists first rest p0 p,
    partitionPayload (Z.of_nat firstRoom) (Z.of_nat partRoom) payload = Ok (first, rest) /\
    firstPayload (Z.of_nat msize) first (Z.of_nat (length rest)) maxResp = Ok p0 /\
    makeIDs reads p0 senderPubKey (net_GetAddressSpace net) timeout now = Ok (p, Some src);
}.

(** The fingerprints of the responses are new and distinct. *)
Definition responsesFree (A : gmap (ID * Fingerprint) (cypher Int)) : Prop :=
  NoDup ((fun i => NewResponseFingerprint sharedKey i) <$> seqZ 0 maxResp) /\
  forall i, 0 <= i < maxResp -> A !! (src, NewResponseFingerprint sharedKey i) = None.

(** The requester ready for any response of up to [maxResp] parts. *)
Record ready (s : reqState Int ID) : Prop := {
  rd_source : rs_source s = Some src;
  rd_once : rs_once s = false;
  rd_timer : rs_timer s = Waiting;
  rd_calls : rs_calls s = [];
  rd_collator : rs_collator s = NewCollator maxResp;
  rd_fps : exists A, fm_rep (rs_fps s) A /\ forall i, (Z.of_nat i < maxResp) ->
    A !! (src, NewResponseFingerprint sharedKey (Z.of_nat i)) = Some (respCypher sharedKey i);
}.

(** The bytes of the payload of the first message. *)
Definition payloadOf (nonce : list byte) (num : Z) : list byte :=
  payloadBytes (msize - 1 - Z.to_nat grp_ByteLen) nonce num maxResp (take firstRoom payload).

(** What is sent: the first message and one for each further part. *)
Record transmitted (nonce : list byte) (rest : list (list byte)) : Prop := {
  tr_nonce : length nonce = 8%nat;
  tr_source : src = NewRecipientID senderPubKey (payloadOf nonce (u8 (1 + u8 (Z.of_nat (length rest)))));
  tr_payload : take firstRoom payload ++ concat rest = payload;
  tr_parts : forall c, c ∈ rest -> (length c <= partRoom)%nat;
  tr_count : forall n, (length payload <= firstRoom + n * partRoom)%nat <-> (length rest <= n)%nat;
  tr_max : (length rest <= 255)%nat;
}.

Definition requestMsgs (nonce : list byte) (rest : list (list byte)) : list CMsg :=
  firstMsg sharedKey listenerPubKey senderPubKey (payloadOf nonce (u8 (1 + u8 (Z.of_nat (length rest)))))
    :: imap (fun j => reqMsg sharedKey msize (S j)) rest.

Lemma grp_ByteLen_nonneg : 0 <= grp_ByteLen.
Proof. rewrite <- (leftpad_length senderPubKey). lia. Qed.

Lemma max_size : sendable -> GetMaxRequestSize net = Z.of_nat firstRoom + 255 * Z.of_nat partRoom.
Proof.
  intros Hs. pose proof (sd_room Hs). pose proof grp_ByteLen_nonneg. unfold GetMaxRequestSize. rewrite (sd_length Hs).
  unfold maxNumRequestParts, GetRequestPayloadSize, GetRequestContentsSize, GetRequestPartContentsSize, requestVersionSize.
  change requestMinSize with 12. change reqPartMinSize with 3. unfold firstRoom, partRoom. lia.
Qed.

Lemma sendable_transmitted :
  sendable ->
  exists nonce rest p0, transmitted nonce rest /\
    partitionPayload (Z.of_nat firstRoom) (Z.of_nat partRoom) payload = Ok (take firstRoom payload, rest) /\
    firstPayload (Z.of_nat msize) (take firstRoom payload) (Z.of_nat (length rest)) maxResp = Ok p0 /\
    makeIDs reads p0 senderPubKey (net_GetAddressSpace net) timeout now
      = Ok (payloadView (payloadOf nonce (u8 (1 + u8 (Z.of_nat (length rest))))), Some src).
Proof.
  intros Hs. pose proof (sd_room Hs). pose proof grp_ByteLen_nonneg as Hpk.
  destruct (sd_found Hs) as (first & rest & p0 & p & Hpart & Hp0 & Hids).
  destruct (partitionPayload_ok firstRoom partRoom payload) as (rest' & Hpart' & Hpay & Hcs & Hn); [unfold partRoom; lia|].
  rewrite Hpart in Hpart'. simplify_eq.
  rewrite firstPayload_ok in Hp0 by (rewrite ?length_take; unfold firstRoom; lia). simplify_eq.
  destruct (makeIDs_ok _ _ _ _ _ _ _ _ _ _ _ (sd_reads Hs) Hids) as (nonce & Hnon & -> & Hsrc).
  exists nonce, rest'. eexists. split.
  - split; [done..|]. apply Hn. pose proof (sd_payload Hs) as Hlen. rewrite max_size in Hlen by done. lia.
  - split_and!; [done| |exact Hids]. apply firstPayload_ok; rewrite ?length_take; unfold firstRoom; lia.
Qed.

(** The request is sent, and its sender waits for the response. *)
Lemma TransmitRequest_ok (t : txState Int ID) A :
  sendable -> fm_rep (rs_fps (tx_req t)) A -> responsesFree A ->
  exists nonce rest t' rid, transmitted nonce rest /\
    TransmitRequest net listenerPubKey payload maxResp timeout (inr priv) reads now t = Done t' ([rid], Some src) /\
    tx_sent t' = tx_sent t ++ requestMsgs nonce rest /\ ready (tx_req t') /\
    tx_identities t' = tx_identities t ++ [(Some src, now + timeout)].
Proof.
  intros Hs Hrep [Hnd Hfree]. pose proof (sd_room Hs) as Hroom. pose proof grp_ByteLen_nonneg as Hpk.
  destruct (sendable_transmitted Hs) as (nonce & rest & p0 & Htr & Hpart & Hp0 & Hids).
  pose proof (sd_max Hs) as Hmax. unfold is_u in Hmax.
  unfold TransmitRequest. rewrite (proj2 (Z.ltb_ge _ _)) by apply Hs. rewrite (sd_healthy Hs). cbn [negb].
  erewrite bind_Done by done. cbv beta iota. fold sharedKey senderPubKey. rewrite (sd_length Hs).
  unfold GetRequestPayloadSize, GetRequestContentsSize, GetRequestPartContentsSize, requestVersionSize.
  change requestMinSize with 12. change reqPartMinSize with 3.
  replace (Z.of_nat msize - 1 - grp_ByteLen - 12) with (Z.of_nat firstRoom) by (unfold firstRoom; lia).
  replace (Z.of_nat msize - 3) with (Z.of_nat partRoom) by (unfold partRoom; lia).
  erewrite bind_Done by (by apply pureResult_Done). cbv beta iota.
  erewrite bind_Done by (by apply pureResult_Done).
  erewrite bind_Done by (apply annotate_Done; by apply pureResult_Done). cbv beta iota.
  erewrite bind_Done.
  2: { apply pureResult_Done, buildRequest_ok. unfold payloadOf.
       rewrite length_payloadBytes by (try apply Htr; rewrite length_take; unfold firstRoom; lia). lia. }
  assert (makeCyphers sharedKey maxResp NewResponseKey NewResponseFingerprint
    = respCypher sharedKey <$> seq 0 (Z.to_nat maxResp)) as Hcy
    by (rewrite <- makeCyphers_resp by lia; by rewrite Z2Nat.id by lia).
  erewrite bind_Done by done. rewrite Hcy.
  destruct (addAll_ok (rs_fps (tx_req t)) A src
    ((fun cy => (cypher_getFingerprint cy, cy)) <$> (respCypher sharedKey <$> seq 0 (Z.to_nat maxResp)))) as (f' & A' & Hall & Hrep' & Hin & _); [done|..].
  { rewrite <- !list_fmap_compose. unfold seqZ in Hnd. rewrite <- list_fmap_compose in Hnd.
    erewrite list_fmap_ext; [exact Hnd|]. intros i x _. simpl. unfold cypher_getFingerprint. simpl. f_equal. lia. }
  { intros fp. rewrite <- !list_fmap_compose. intros (i & -> & Hi)%list_elem_of_fmap. apply elem_of_seq in Hi.
    apply (Hfree (Z.of_nat i)). lia. }
  erewrite bind_Done by (apply addResponseFingerprints_ok; exact Hall).
  erewrite bind_Done by done. destruct (sd_sends Hs 0%nat) as [rid ->]. erewrite bind_Done by done.
  erewrite bind_Done.
  2: { apply sendRequestParts_ok; [apply Hs|apply Hs|lia|pose proof (tr_max _ _ Htr); lia|].
       intros c Hc. apply (tr_parts _ _ Htr) in Hc. unfold partRoom in Hc. lia. }
  cbn [Z.ltb Z.compare]. erewrite bind_Done by done.
  exists nonce, rest. eexists _, rid. split; [done|]. split; [done|]. cbn [tx_sent tx_req tx_identities tx_send tx_setFps].
  rewrite <- app_assoc. split; [done|]. split; [|done].
  split; [done..|]. exists A'. split; [done|]. intros i Hi. apply Hin. apply list_elem_of_fmap. exists (respCypher sharedKey i).
  split; [done|]. apply list_elem_of_fmap. exists i. split; [done|]. apply elem_of_seq. lia.
Qed.

(** ** Receiving the request *)

Definition closureOf (nonce : list byte) (num : Z) (eph : Eph) : reqClosure Int Eph :=
  mkReqClosure senderPubKey sharedKey (payloadView (payloadOf nonce num)) eph.

(** The listener reaches the key and the payload of the sender. *)
Lemma listener_opens nonce num eph round (s : lState Int ID Eph) :
  13 + grp_ByteLen <= Z.of_nat msize -> length nonce = 8%nat ->
  listener_process l (firstMsg sharedKey listenerPubKey senderPubKey (payloadOf nonce num)) eph round s
    = acceptPayload l (closureOf nonce num eph) round s.
Proof.
  intros Hroom Hnon. pose proof grp_ByteLen_nonneg as Hpk. unfold listener_process, firstMsg. cbn [cm_contents cm_mac cm_fp].
  set (enc := Crypt _ _ _).
  destruct (request_parsed (LeftpadBytes senderPubKey grp_ByteLen) enc) as (m & Hun & Hpub & Hpay).
  rewrite leftpad_length in Hun.
  erewrite bind_Done by (apply annotate_Done, pureResult_Done; exact Hun).
  assert (grp_Exp senderPubKey (l_myPrivKey l) = sharedKey) as Hdh by apply exchange_agrees.
  rewrite Hpub, Hpay, leftpad_read, Hdh, mac_verifies. cbn [negb]. unfold enc. rewrite crypt_twice.
  erewrite bind_Done.
  2: { apply annotate_Done, pureResult_Done. unfold UnmarshalRequestPayload, payloadOf. change requestMinSize with 12.
       rewrite length_payloadBytes by (rewrite ?length_take; unfold firstRoom; lia).
       rewrite (proj2 (Z.ltb_ge _ _)) by lia. apply mapRequestPayload_ok.
       rewrite length_payloadBytes by (rewrite ?length_take; unfold firstRoom; lia). lia. }
  done.
Qed.

(** The request the callback is called with. *)
Definition requestOf (contents : list byte) : SuRequest Int ID :=
  mkSuRequest src senderPubKey sharedKey (l_tag l) maxResp false contents.

(** A payload of one message is handed over at once. *)
Lemma accept_one nonce num eph round (s : lState Int ID Eph) :
  13 + grp_ByteLen <= Z.of_nat msize < 65536 -> length nonce = 8%nat -> is_u 8 maxResp ->
  src = NewRecipientID senderPubKey (payloadOf nonce num) -> 0 <= num <= 1 ->
  acceptPayload l (closureOf nonce num eph) round s
    = Done (ls_call s (requestOf (take firstRoom payload), eph, [round])) tt.
Proof.
  intros Hroom Hnon Hmax Hsrc Hnum. pose proof grp_ByteLen_nonneg as Hpk.
  destruct (payload_parsed (msize - 1 - Z.to_nat grp_ByteLen) nonce num maxResp (take firstRoom payload))
    as (_ & Hn & Hm & _ & _ & Hc); [done|rewrite length_take; unfold firstRoom; lia..|unfold is_u; lia|done|].
  unfold acceptPayload, closureOf. cbn [cl_payload]. erewrite bind_Done by (apply pureResult_Done; exact Hn).
  rewrite (proj2 (Z.ltb_ge _ _)) by lia. erewrite bind_Done by (apply pureResult_Done; exact Hc).
  unfold cbFunc. cbn [cl_payload cl_senderPubKey cl_dhKey cl_receptionID].
  erewrite bind_Done by (apply pureResult_Done; exact Hm). unfold RequestPayload_GetRecipientID.
  by rewrite payloadView_Marshal, <- Hsrc.
Qed.

Context (nonce : list byte) (rest : list (list byte)) (eph : Eph).

(** All the parts of the request, the first message's included. *)
Definition requestCuts : list (list byte) := take firstRoom payload :: rest.
Definition requestCount : Z := Z.of_nat (length requestCuts).

Definition partProc (at_ i : nat) : requestPartProcessor Int Eph :=
  mkRequestPartProcessor (closureOf nonce requestCount eph) at_ (reqCypher sharedKey i).

Abbreviation partFp i := (NewRequestPartFingerprint sharedKey (Z.of_nat i)).

(** The listener after the parts in [seen], the last of them received on the
    rounds [rnds]: one call of the callback when [seen] is complete, and the
    fingerprints of the others are registered. *)
Record collecting (at_ : nat) (base : list (SuRequest Int ID * Eph * list Z)) (s : lState Int ID Eph)
    (seen : gset nat) (rnds : list Z) : Prop := {
  cg_heap : exists c rc, ls_heap s !! at_ = Some (c, rc) /\ collated requestCuts (length requestCuts) c seen /\
              forall r x, rc !! r = Some x -> x ∈ rnds;
  cg_first : 0%nat ∈ seen;
  cg_requests : if (size seen =? length requestCuts)%nat
    then exists rounds, ls_requests s = base ++ [(requestOf payload, eph, rounds)] /\ forall r, r ∈ rounds -> r ∈ rnds
    else ls_requests s = base;
  cg_fps : exists A, fm_rep (ls_fps s) A /\ forall i, (0 < i < length requestCuts)%nat ->
    A !! (l_myID l, partFp i) = if decide (i ∈ seen) then None else Some (partProc at_ i);
}.

(** The fingerprints of the first [n] parts are new to the listener, and distinct. *)
Definition partsFree (n : Z) (A : gmap (ID * Fingerprint) (requestPartProcessor Int Eph)) : Prop :=
  NoDup ((fun i => NewRequestPartFingerprint sharedKey i) <$> seqZ 0 n) /\
  forall i, 0 <= i < n -> A !! (l_myID l, NewRequestPartFingerprint sharedKey i) = None.

Lemma partsFree_distinct n A (i j : nat) :
  partsFree n A -> Z.of_nat i < n -> Z.of_nat j < n -> partFp i = partFp j -> i = j.
Proof.
  intros [Hnd _] Hi Hj. by apply (fmap_seqZ_inj _ n).
Qed.

Lemma partsFree_le n m A : m <= n -> partsFree n A -> partsFree m A.
Proof.
  intros Hle Hfree. split; [|intros i Hi; apply Hfree; lia]. apply NoDup_alt. intros i j x Hi Hj.
  apply list_lookup_fmap_Some in Hi as (u & -> & Hu), Hj as (v & Heq & Hv).
  apply lookup_seqZ in Hu as [-> Hu], Hv as [-> Hv]. eapply partsFree_distinct; [exact Hfree|lia|lia|exact Heq].
Qed.

Lemma addPartFingerprints_ok (cl : reqClosure Int Eph) at_ i n cyphers (s : lState Int ID Eph) fps :
  addAll (ls_fps s) (l_myID l) ((fun cy => (cypher_getFingerprint cy, mkRequestPartProcessor cl at_ cy)) <$> cyphers)
    = Some fps ->
  addPartFingerprints l i n cl at_ cyphers s = Done (ls_setFps s fps) tt.
Proof.
  revert i s. induction cyphers as [|cy cyphers IH]; intros i s; rewrite ?fmap_cons; cbn [addAll addPartFingerprints].
  - intros [= <-]. by destruct s.
  - destruct (AddFingerprint _ _ _ _) as [f [e|]]; [done|]. intros Hall. by rewrite IH with (s := ls_setFps s f).
Qed.

Lemma makeCyphers_req (n : nat) :
  (n <= 256)%nat ->
  makeCyphers sharedKey (Z.of_nat n) NewRequestPartKey NewRequestPartFingerprint = reqCypher sharedKey <$> seq 0 n.
Proof.
  intros Hn. unfold makeCyphers, seqZ. rewrite Nat2Z.id, <- list_fmap_compose.
  apply list_fmap_ext. intros j k Hk. apply lookup_seq in Hk as [-> Hlt]. simpl. unfold reqCypher. f_equal.
  rewrite (wrapu_small 8) by (unfold is_u; lia). lia.
Qed.

(** The first message of several. *)
Lemma accept_several round (s : lState Int ID Eph) A :
  13 + grp_ByteLen <= Z.of_nat msize < 65536 -> length nonce = 8%nat -> is_u 8 maxResp ->
  (1 <= length rest <= 254)%nat -> fm_rep (ls_fps s) A -> partsFree requestCount A ->
  exists s', acceptPayload l (closureOf nonce requestCount eph) round s = Done s' tt /\
    collecting (length (ls_heap s)) (ls_requests s) s' {[ 0%nat ]} [].
Proof.
  intros Hroom Hnon Hmax Hlen Hrep [Hnd Hfree]. pose proof grp_ByteLen_nonneg as Hpk.
  assert (requestCount = Z.of_nat (S (length rest))) as Hcnt by done.
  destruct (payload_parsed (msize - 1 - Z.to_nat grp_ByteLen) nonce requestCount maxResp (take firstRoom payload))
    as (_ & Hn & _ & Hpn & Hgn & Hc); [done|rewrite length_take; unfold firstRoom; lia..|unfold is_u; lia|done|].
  destruct (collate_first_ok requestCuts (length requestCuts) ltac:(simpl; lia) ltac:(lia) 0%nat
              (payloadView (payloadOf nonce requestCount))) as (c & r & Hcol & Hspec & Hrun);
    [by exists (take firstRoom payload)|done|].
  cbn [collateSpec] in Hspec. rewrite bool_decide_false in Hspec by set_solver.
  rewrite union_empty_r_L in Hspec, Hcol. rewrite size_singleton, (proj2 (Nat.eqb_neq _ _)) in Hspec by (simpl; lia).
  injection Hspec as <-. fold requestCount in Hrun.
  unfold acceptPayload. cbn [cl_payload closureOf]. erewrite bind_Done by (apply pureResult_Done; exact Hn).
  rewrite (proj2 (Z.ltb_lt _ _)) by lia. erewrite bind_Done by (by rewrite Hrun).
  erewrite bind_Done by done. erewrite bind_Done by done. cbn [cl_dhKey closureOf].
  assert (makeCyphers sharedKey requestCount NewRequestPartKey NewRequestPartFingerprint
    = reqCypher sharedKey <$> seq 0 (S (length rest))) as -> by (rewrite Hcnt; apply makeCyphers_req; lia).
  destruct (addAll_ok (ls_fps s) A (l_myID l) ((fun cy => (cypher_getFingerprint cy,
    mkRequestPartProcessor (closureOf nonce requestCount eph) (length (ls_heap s)) cy))
      <$> (reqCypher sharedKey <$> seq 0 (S (length rest))))) as (f' & A' & Hall & Hrep' & Hin & _); [done|..].
  { rewrite <- !list_fmap_compose. rewrite Hcnt in Hnd. unfold seqZ in Hnd. rewrite <- list_fmap_compose, Nat2Z.id in Hnd.
    erewrite list_fmap_ext; [exact Hnd|]. intros i x _. simpl. unfold cypher_getFingerprint. simpl. f_equal. lia. }
  { intros fp. rewrite <- !list_fmap_compose. intros (i & -> & Hi)%list_elem_of_fmap. apply elem_of_seq in Hi.
    apply (Hfree (Z.of_nat i)). lia. }
  erewrite bind_Done by (apply addPartFingerprints_ok; exact Hall).
  eexists. split; [done|]. split; cbn [ls_heap ls_requests ls_fps ls_check ls_setFps ls_setHeap].
  - exists c, newRoundIdCollector. split; [by rewrite lookup_app_r, Nat.sub_diag by lia|]. split; [done|].
    intros r x Hr. unfold newRoundIdCollector in Hr. by rewrite lookup_empty in Hr.
  - set_solver.
  - rewrite size_singleton. by rewrite (proj2 (Nat.eqb_neq _ _)) by (simpl; lia).
  - exists A'. split; [done|]. intros i Hi. rewrite decide_False by set_solver by lia. apply Hin.
    apply list_elem_of_fmap. exists (reqCypher sharedKey i). split; [done|]. apply list_elem_of_fmap. exists i.
    split; [done|]. apply elem_of_seq. simpl in Hi. lia.
Qed.

(** *** The other parts *)

Context (at_ : nat) (base : list (SuRequest Int ID * Eph * list Z)).
Context (room : 13 + grp_ByteLen <= Z.of_nat msize < 65536) (u8max : is_u 8 maxResp).
Context (tr : transmitted nonce rest) (several : (1 <= length rest <= 254)%nat).
Context (partsDistinct : forall i j, (i < length requestCuts)%nat -> (j < length requestCuts)%nat ->
  partFp i = partFp j -> i = j).

Lemma several_source : src = NewRecipientID senderPubKey (payloadOf nonce requestCount).
Proof.
  rewrite (tr_source _ _ tr). rewrite !(wrapu_small 8) by (rewrite ?(wrapu_small 8); unfold is_u; lia).
  do 2 f_equal. unfold requestCount. simpl. lia.
Qed.

(** What the processor of part [i] finds in its message. *)
Lemma reqMsg_opens i c :
  requestCuts !! i = Some c -> (0 < i)%nat ->
  let msg := reqMsg sharedKey msize i c in
  exists part, cypher_decrypt (reqCypher sharedKey i) (cm_contents msg) (cm_mac msg)
      = Ok (requestPartBytes msize (Z.of_nat i) c) /\
    UnmarshalRequestPart (requestPartBytes msize (Z.of_nat i) c) = Ok part /\ carries requestCuts i part.
Proof.
  intros Hc Hpos msg. pose proof (lookup_lt_Some _ _ _ Hc) as Hi. cbn [requestCuts length] in Hi.
  assert (3 + length c <= msize)%nat as Hs.
  { destruct i as [|i]; [lia|]. change (rest !! i = Some c) in Hc. apply list_elem_of_lookup_2, (tr_parts _ _ tr) in Hc.
    unfold partRoom in Hc. pose proof grp_ByteLen_nonneg. lia. }
  destruct (requestPart_parsed msize (Z.of_nat i) c) as (part & Hun & Hnum & _ & Hcont); [lia|lia|unfold is_u; lia|].
  exists part. split_and!; [|done|by exists c].
  unfold cypher_decrypt, msg, reqMsg, cypher_encrypt. cbn [cm_contents cm_mac].
  by rewrite mac_verifies, crypt_twice.
Qed.

(** The callback of the request. *)
Lemma cbFunc_several contents rounds (s : lState Int ID Eph) :
  cbFunc l (closureOf nonce requestCount eph) contents rounds s = Done (ls_call s (requestOf contents, eph, rounds)) tt.
Proof.
  destruct (payload_parsed (msize - 1 - Z.to_nat grp_ByteLen) nonce requestCount maxResp (take firstRoom payload))
    as (_ & _ & Hm & _ & _ & _).
  { apply (tr_nonce _ _ tr). }
  { rewrite length_take. unfold firstRoom. pose proof grp_ByteLen_nonneg. lia. }
  { rewrite length_take. unfold firstRoom. lia. }
  { unfold is_u, requestCount. simpl. lia. }
  { done. }
  unfold cbFunc. cbn [closureOf cl_payload cl_senderPubKey cl_dhKey cl_receptionID].
  erewrite bind_Done by (apply pureResult_Done; exact Hm). unfold RequestPayload_GetRecipientID.
  by rewrite payloadView_Marshal, <- several_source.
Qed.

(** A part that was seen has no processor any more. *)
Lemma part_seen s seen rnds i c round :
  collecting at_ base s seen rnds -> requestCuts !! i = Some c -> (0 < i)%nat -> i ∈ seen ->
  exists s', receiveRequestPart l (reqMsg sharedKey msize i c) round s = Done s' tt /\
    collecting at_ base s' seen (round :: rnds).
Proof.
  intros Hcg Hc Hpos Hin. destruct (cg_fps _ _ _ _ _ Hcg) as (A & Hrep & HA).
  pose proof (lookup_lt_Some _ _ _ Hc) as Hi. unfold receiveRequestPart.
  change (cm_fp (reqMsg sharedKey msize i c)) with (partFp i).
  destruct (pop_refines (ls_fps s) A (l_myID l) (partFp i) Hrep) as [Hrep' Hp].
  destruct (fm_pop _ _ _) as [fps proc]. cbn [fst snd] in *. rewrite HA, decide_True in Hp by done. subst proc.
  eexists. split; [done|]. destruct Hcg as [(co & rc & Hh & Hcol & Hrc) Hf Hr _].
  split; cbn [ls_heap ls_setFps ls_requests ls_fps]; [|done|..].
  - exists co, rc. split; [done|]. split; [done|]. intros r x Hx. right. by eapply Hrc.
  - destruct (size seen =? length requestCuts)%nat; [|done]. destruct Hr as (rounds & -> & Hr).
    exists rounds. split; [done|]. intros r Hr'. right. by apply Hr.
  - eexists. split; [exact Hrep'|]. intros j Hj. rewrite delete_id; [by apply HA|].
    rewrite HA by done. by rewrite decide_True.
Qed.

(** A new part; the one that completes the request calls the callback. *)
Lemma part_new s seen rnds i c round :
  collecting at_ base s seen rnds -> requestCuts !! i = Some c -> (0 < i)%nat -> i ∉ seen ->
  exists s', receiveRequestPart l (reqMsg sharedKey msize i c) round s = Done s' tt /\
    collecting at_ base s' ({[ i ]} ∪ seen) (round :: rnds).
Proof.
  intros Hcg Hc Hpos Hout. destruct (cg_fps _ _ _ _ _ Hcg) as (A & Hrep & HA).
  pose proof (lookup_lt_Some _ _ _ Hc) as Hi. unfold receiveRequestPart.
  change (cm_fp (reqMsg sharedKey msize i c)) with (partFp i).
  destruct (pop_refines (ls_fps s) A (l_myID l) (partFp i) Hrep) as [Hrep' Hp].
  destruct (fm_pop _ _ _) as [fps proc]. cbn [fst snd] in *. rewrite HA, decide_False in Hp by done. subst proc.
  destruct (reqMsg_opens i c Hc Hpos) as (part & Hdec & Hun & Hcar).
  destruct (cg_heap _ _ _ _ _ Hcg) as (co & rc & Hh & Hcol & Hrc).
  destruct (collate_part (T := RequestPart) requestCuts (length requestCuts) ltac:(simpl; lia) ltac:(lia) co seen i part Hcol Hcar)
    as (co' & r & Hcol' & Hspec & Hrun).
  cbn [collateSpec] in Hspec. rewrite bool_decide_false in Hspec by done.
  assert (r = if (size ({[i]} ∪ seen) =? length requestCuts)%nat then inr (concat requestCuts, true)
              else inr ([], false)) as -> by (by injection Hspec as <-).
  clear Hspec. assert (forall j, (0 < j < length requestCuts)%nat ->
    delete (l_myID l, partFp i) A !! (l_myID l, partFp j)
      = if decide (j ∈ {[i]} ∪ seen) then None else Some (partProc at_ j)) as HA'.
  { intros j Hj. destruct (decide (j = i)) as [->|Hne].
    - rewrite lookup_delete_eq. by rewrite decide_True by set_solver.
    - rewrite lookup_delete_ne by (intros [= Heq]; apply partsDistinct in Heq; [done|lia|lia]).
      rewrite HA by done. destruct (decide (j ∈ seen)); [by rewrite decide_True by set_solver|].
      by rewrite decide_False by set_solver. }
  assert (forall r x, roundCollector_add rc round !! r = Some x -> x ∈ round :: rnds) as Hrc'.
  { intros r x. unfold roundCollector_add. intros [[_ <-]|[_ Hx]]%lookup_insert_Some; [by left|right; by eapply Hrc]. }
  unfold requestPartProcessor_Process. cbn [partProc pp_cy pp_at pp_cb]. rewrite Hdec, Hun.
  cbn [ls_heap ls_setFps]. rewrite Hh, Hrun. pose proof (lookup_lt_Some _ _ _ Hh) as Hat.
  pose proof (cg_requests _ _ _ _ _ Hcg) as Hreq.
  assert (size seen < size ({[i]} ∪ seen))%nat as Hgrow
    by (rewrite size_union by set_solver; rewrite size_singleton; lia).
  assert (size ({[i]} ∪ seen) <= length requestCuts)%nat as Hle.
  { rewrite <- (size_set_seq (C := gset nat) 0 (length requestCuts)). apply subseteq_size. intros j Hj.
    apply elem_of_set_seq. apply (co_seen _ _ _ _ Hcol') in Hj. lia. }
  rewrite (proj2 (Nat.eqb_neq _ _)) in Hreq by lia.
  destruct (size ({[i]} ∪ seen) =? length requestCuts)%nat eqn:E; cbv beta iota.
  - rewrite cbFunc_several. eexists. split; [done|]. split; cbn [ls_heap ls_setHeap ls_call ls_requests ls_fps].
    + exists co', (roundCollector_add rc round). split; [by apply list_lookup_insert_eq|done].
    + pose proof (cg_first _ _ _ _ _ Hcg). set_solver.
    + rewrite E. eexists. split.
      { cbn [ls_setFps ls_requests]. rewrite Hreq. do 3 f_equal. unfold requestCuts. cbn [concat].
        by rewrite (tr_payload _ _ tr). }
      intros r. unfold roundCollector_getList. intros ([k x] & -> & Hx)%list_elem_of_fmap.
      apply elem_of_map_to_list in Hx. by eapply Hrc'.
    + eexists. split; [exact Hrep'|done].
  - eexists. split; [done|]. split; cbn [ls_heap ls_setHeap ls_requests ls_fps ls_setFps].
    + exists co', (roundCollector_add rc round). split; [by apply list_lookup_insert_eq|done].
    + pose proof (cg_first _ _ _ _ _ Hcg). set_solver.
    + by rewrite E.
    + eexists. split; [exact Hrep'|done].
Qed.

(** Messages on their rounds. *)
Fixpoint receiveParts (order : list (CMsg * Z)) : act (lState Int ID Eph) unit :=
  match order with
  | [] => mret tt
  | (m, round) :: order => _ ← receiveRequestPart l m round; receiveParts order
  end.

Abbreviation others := (imap (fun j => reqMsg sharedKey msize (S j)) rest).

(** Which message is which part. *)
Lemma others_lookup m :
  m ∈ others -> exists i c, (0 < i)%nat /\ requestCuts !! i = Some c /\ m = reqMsg sharedKey msize i c.
Proof.
  intros (j & Hj)%list_elem_of_lookup. rewrite list_lookup_imap in Hj. destruct (rest !! j) as [c|] eqn:E; [|done].
  injection Hj as <-. exists (S j), c. split; [lia|done].
Qed.

Lemma others_elem i c : (0 < i)%nat -> requestCuts !! i = Some c -> reqMsg sharedKey msize i c ∈ others.
Proof.
  intros Hpos Hc. destruct i as [|j]; [lia|]. change (rest !! j = Some c) in Hc.
  apply list_elem_of_lookup_2 with j. by rewrite list_lookup_imap, Hc.
Qed.

Lemma reqMsg_part i j c d :
  requestCuts !! i = Some c -> requestCuts !! j = Some d -> reqMsg sharedKey msize i c = reqMsg sharedKey msize j d -> i = j.
Proof.
  intros Hc Hd Heq. apply (f_equal cm_fp) in Heq. apply partsDistinct in Heq; [done|by eapply lookup_lt_Some..].
Qed.

(** All the parts that have not been seen are on their way. *)
Definition remaining (seen : gset nat) (order : list (CMsg * Z)) : Prop :=
  forall i c, (0 < i)%nat -> requestCuts !! i = Some c -> i ∈ seen \/ reqMsg sharedKey msize i c ∈ order.*1.

Lemma receiveParts_ok order s (seen : gset nat) rnds :
  collecting at_ base s seen rnds -> (forall m, m ∈ order.*1 -> m ∈ others) ->
  exists s' (seen' : gset nat), receiveParts order s = Done s' tt /\ collecting at_ base s' seen' (rev order.*2 ++ rnds) /\
    forall i c, (0 < i)%nat -> requestCuts !! i = Some c ->
      i ∈ seen' <-> i ∈ seen \/ reqMsg sharedKey msize i c ∈ order.*1.
Proof.
  revert s seen rnds. induction order as [|[m round] order IH]; intros s seen rnds Hcg Hord.
  - exists s, seen. split; [done|]. split; [done|]. intros i c _ _. rewrite elem_of_nil. naive_solver.
  - rewrite fmap_cons in *. cbn [fst snd receiveParts rev] in *.
    destruct (others_lookup m) as (i & c & Hpos & Hc & ->); [apply Hord; by left|].
    assert (exists s1, receiveRequestPart l (reqMsg sharedKey msize i c) round s = Done s1 tt /\
      collecting at_ base s1 ({[i]} ∪ seen) (round :: rnds)) as (s1 & Hr & Hcg1).
    { destruct (decide (i ∈ seen)) as [Hin|Hout]; [|by apply part_new].
      replace ({[i]} ∪ seen) with seen by set_solver. by apply part_seen. }
    destruct (IH s1 ({[i]} ∪ seen) (round :: rnds) Hcg1) as (s' & seen' & Hrun & Hcg' & Hseen).
    { intros m' Hm'. apply Hord. by right. }
    exists s', seen'. split; [by erewrite bind_Done by exact Hr|]. split; [by rewrite <- app_assoc|].
    intros j d Hj Hd. rewrite (Hseen j d Hj Hd), elem_of_union, elem_of_singleton, fmap_cons, elem_of_cons. split.
    + intros [[->|?]|?]; [|naive_solver..]. right. left. rewrite Hc in Hd. by injection Hd as ->.
    + intros [?|[Heq|?]]; [naive_solver| |naive_solver]. left. left. by eapply reqMsg_part.
Qed.

(** Complete when, and only when, all the parts were seen. *)
Lemma seen_complete s seen rnds :
  collecting at_ base s seen rnds ->
  size seen = length requestCuts <-> forall i c, (0 < i)%nat -> requestCuts !! i = Some c -> i ∈ seen.
Proof.
  intros Hcg. destruct (cg_heap _ _ _ _ _ Hcg) as (co & rc & _ & Hcol & _).
  rewrite (complete_seen requestCuts seen (co_seen _ _ _ _ Hcol)). split.
  - intros Hall i c Hpos Hc. apply Hall. by eapply lookup_lt_Some.
  - intros Hall [|i] Hi; [by apply (cg_first _ _ _ _ _ Hcg)|]. destruct (lookup_lt_is_Some_2 _ _ Hi) as [c Hc].
    eapply Hall; [lia|exact Hc].
Qed.
End exchange.

(** ** Requests and responses are delivered *)

Section delivered.
Context {Int ID Eph : Type} `{Countable ID} `{SuCryptoLaws Int ID} `{Ephemeral ID}.
Context (net : suNet) (l : listener Int ID) (priv : Int) (payload : list byte) (maxResp timeout : Z).
Context (reads : list (error + list byte)) (now : Time) (msize : nat) (src : ID).

Abbreviation sendable := (sendable net priv payload maxResp timeout reads now msize src).
Abbreviation transmitted := (transmitted priv payload maxResp msize src).
Abbreviation sharedKey := (sharedKey l priv).
Abbreviation requestOf := (requestOf l priv maxResp src).
Abbreviation Transmit := (TransmitRequest net (listenerPubKey l) payload maxResp timeout (inr priv) reads now).

(** The first message and then the others, as [order] has them. *)
Definition receiveRequest (first : CMsg) (eph : Eph) (round : Z) (order : list (CMsg * Z)) : act (lState Int ID Eph) unit :=
  _ ← listener_process l first eph round; receiveParts l order.

Lemma receiveParts_none order (s : lState Int ID Eph) :
  (forall m, m ∈ order.*1 -> m ∈ ([] : list CMsg)) -> receiveParts l order s = Done s tt.
Proof. intros Hord. destruct order as [|[m r] order]; [done|]. exfalso. eapply not_elem_of_nil, Hord. by left. Qed.

(** The listener's side, from what was transmitted. *)
Lemma receiveRequest_ok nonce rest (s : lState Int ID Eph) B eph round order :
  sendable -> transmitted nonce rest -> (length rest <= 254)%nat ->
  fm_rep (ls_fps s) B -> partsFree l priv 255 B ->
  let msgs := imap (fun j => reqMsg sharedKey msize (S j)) rest in
  (forall m, m ∈ order.*1 -> m ∈ msgs) ->
  exists s', receiveRequest (firstMsg sharedKey (listenerPubKey l) (senderPubKey priv)
      (payloadOf payload maxResp msize nonce (u8 (1 + u8 (Z.of_nat (length rest)))))) eph round order s = Done s' tt /\
    ((forall m, m ∈ msgs -> m ∈ order.*1) ->
       exists rounds, ls_requests s' = ls_requests s ++ [(requestOf payload, eph, rounds)] /\
         if decide (msgs = []) then rounds = [round] else forall r, r ∈ rounds -> r ∈ order.*2) /\
    (~ (forall m, m ∈ msgs -> m ∈ order.*1) -> ls_requests s' = ls_requests s).
Proof.
  intros Hs Htr Hlen Hrep Hfree msgs Hord.
  pose proof (sd_room _ _ _ _ _ _ _ _ _ Hs) as Hroom. pose proof (sd_max _ _ _ _ _ _ _ _ _ Hs) as Hmax.
  pose proof (tr_nonce _ _ _ _ _ _ _ Htr) as Hnon.
  assert (u8 (1 + u8 (Z.of_nat (length rest))) = requestCount payload msize rest) as Hnum.
  { rewrite (wrapu_small 8 (Z.of_nat (length rest))) by (unfold is_u; lia).
    rewrite (wrapu_small 8) by (unfold is_u; lia). unfold requestCount. simpl. lia. }
  pose proof (tr_source _ _ _ _ _ _ _ Htr) as Hsrc. rewrite Hnum in Hsrc. rewrite Hnum. unfold receiveRequest.
  destruct (decide (rest = [])) as [->|Hrest].
  - assert (concat [] = ([] : list byte)) as Hnil by done.
    pose proof (tr_payload _ _ _ _ _ _ _ Htr) as Hpay. rewrite Hnil, app_nil_r in Hpay.
    erewrite bind_Done.
    2: { rewrite listener_opens by (try done; lia).
         eapply accept_one; [done|done|done|exact Hsrc|unfold requestCount; simpl; lia]. }
    rewrite receiveParts_none by done. eexists. split; [done|]. split.
    + intros _. exists [round]. split; [by rewrite Hpay|by rewrite decide_True].
    + intros []. by intros m ?%elem_of_nil.
  - assert (1 <= length rest <= 254)%nat as Hsev by (destruct rest; [done|simpl in *; lia]).
    assert (forall i j, (i < length (requestCuts payload msize rest))%nat -> (j < length (requestCuts payload msize rest))%nat ->
      NewRequestPartFingerprint sharedKey (Z.of_nat i) = NewRequestPartFingerprint sharedKey (Z.of_nat j) -> i = j) as Hdist.
    { intros i j Hi Hj. simpl in Hi, Hj. eapply (partsFree_distinct l priv 255 B); [done|lia|lia]. }
    destruct (accept_several l priv payload maxResp msize src nonce rest eph round s B) as (s1 & Hacc & Hcg);
      [done..|eapply partsFree_le; [|exact Hfree]; unfold requestCount; simpl; lia|].
    erewrite bind_Done by (rewrite listener_opens by (try done; lia); exact Hacc).
    destruct (receiveParts_ok l priv payload maxResp msize src nonce rest eph _ _ Hroom Hmax Htr Hsev Hdist order s1
                {[0%nat]} [] Hcg Hord) as (s' & seen & Hrun & Hcg' & Hseen).
    assert (size seen = length (requestCuts payload msize rest) <-> (forall m, m ∈ msgs -> m ∈ order.*1)) as Hall.
    { rewrite (seen_complete _ _ _ _ _ _ _ _ _ _ _ Hsev _ _ _ Hcg'). split.
      - intros Hc m Hm. destruct (others_lookup l priv payload msize rest Hsev m Hm) as (i & c & Hpos & Hi & ->).
        destruct (proj1 (Hseen i c Hpos Hi) (Hc i c Hpos Hi)) as [H0i%elem_of_singleton|?]; [lia|done].
      - intros Hc i c Hpos Hi. apply (Hseen i c Hpos Hi). right. apply Hc. by apply (others_elem l priv payload). }
    pose proof (cg_requests _ _ _ _ _ _ _ _ _ _ _ _ _ _ Hcg') as Hreq.
    exists s'. split; [done|]. rewrite <- Hall. destruct (Nat.eqb_spec (size seen) (length (requestCuts payload msize rest))) as [Heq|Hne].
    + split; [|by intros []]. intros _. destruct Hreq as (rounds & Hr & Hin). exists rounds. split; [done|].
      rewrite decide_False by (by destruct rest). intros r Hr'%Hin. rewrite app_nil_r in Hr'.
      by apply list_elem_of_In, in_rev, list_elem_of_In.
    + split; [done|]. by intros _.
Qed.

(** C3: A request of up to 255 messages is delivered: [TransmitRequest] sends a
    first message and others, and a listener that is given the first message
    and then some of the others, in any order and any number of times, calls
    its callback exactly once, with the payload, the identity and the key of
    the sender, when it was given all of the others, and not at all
    otherwise. *)
Theorem request_delivered (t : txState Int ID) A (s : lState Int ID Eph) B eph round :
  sendable -> (length payload <= firstRoom msize + 254 * partRoom msize)%nat ->
  fm_rep (rs_fps (tx_req t)) A -> responsesFree l priv maxResp src A ->
  fm_rep (ls_fps s) B -> partsFree l priv 255 B ->
  exists t' rid first others, Transmit t = Done t' ([rid], Some src) /\ tx_sent t' = tx_sent t ++ first :: others /\
    forall order, (forall m, m ∈ order.*1 -> m ∈ others) ->
    exists s', receiveRequest first eph round order s = Done s' tt /\
      ((forall m, m ∈ others -> m ∈ order.*1) ->
         exists rounds, ls_requests s' = ls_requests s ++ [(requestOf payload, eph, rounds)] /\
           if decide (others = []) then rounds = [round] else forall r, r ∈ rounds -> r ∈ order.*2) /\
      (~ (forall m, m ∈ others -> m ∈ order.*1) -> ls_requests s' = ls_requests s).
Proof.
  intros Hs Hlen Hrep Hfree Hrep' Hfree'.
  destruct (TransmitRequest_ok net l priv payload maxResp timeout reads now msize src t A Hs Hrep Hfree)
    as (nonce & rest & t' & rid & Htr & Hrun & Hsent & _).
  exists t', rid. eexists _, _. split; [exact Hrun|]. split; [exact Hsent|]. intros order Hord.
  apply (receiveRequest_ok nonce rest s B); [done|done|by apply (tr_count _ _ _ _ _ _ _ Htr)|done..].
Qed.

(** C32: A payload that needs 256 messages is accepted, since it is within
    [GetMaxRequestSize], and sent; its number of parts, [1 + uint8(255)], wraps
    to 0, and the listener hands over what the first message holds as if it
    were the request. *)
Theorem max_request_truncated (t : txState Int ID) A (s : lState Int ID Eph) eph round :
  sendable -> (firstRoom msize + 254 * partRoom msize < length payload)%nat ->
  fm_rep (rs_fps (tx_req t)) A -> responsesFree l priv maxResp src A ->
  exists t' rid first others, Transmit t = Done t' ([rid], Some src) /\ tx_sent t' = tx_sent t ++ first :: others /\
    length others = 255%nat /\
    listener_process l first eph round s
      = Done (ls_call s (requestOf (take (firstRoom msize) payload), eph, [round])) tt.
Proof.
  intros Hs Hlen Hrep Hfree. pose proof (sd_room _ _ _ _ _ _ _ _ _ Hs) as Hroom.
  destruct (TransmitRequest_ok net l priv payload maxResp timeout reads now msize src t A Hs Hrep Hfree)
    as (nonce & rest & t' & rid & Htr & Hrun & Hsent & _).
  pose proof (tr_count _ _ _ _ _ _ _ Htr 254) as Hcnt. pose proof (tr_max _ _ _ _ _ _ _ Htr) as Hmax.
  assert (length rest = 255%nat) as Hrest by lia.
  exists t', rid. eexists _, _. split; [exact Hrun|]. split; [exact Hsent|]. split; [by rewrite length_imap|].
  pose proof (tr_source _ _ _ _ _ _ _ Htr) as Hsrc. rewrite Hrest in Hsrc. rewrite Hrest.
  change (u8 (1 + u8 (Z.of_nat 255))) with 0 in *.
  rewrite listener_opens by (try lia; apply Htr).
  eapply accept_one; [done|apply Htr|apply Hs|exact Hsrc|lia].
Qed.

(** ** The response *)

Fixpoint receiveResponses (order : list (CMsg * Z)) : act (reqState Int ID) unit :=
  match order with
  | [] => mret tt
  | (m, round) :: order => _ ← receiveResponse m round; receiveResponses order
  end.

Lemma ready_awaiting (s : reqState Int ID) cs :
  ready l priv maxResp src s -> Z.of_nat (length cs) <= maxResp -> awaiting sharedKey src (Z.to_nat maxResp) cs s ∅.
Proof.
  intros Hr Hlen. split; [apply Hr..| |].
  - rewrite decide_True by done. rewrite (rd_collator _ _ _ _ _ Hr). by rewrite Z2Nat.id by lia.
  - destruct (rd_fps _ _ _ _ _ Hr) as (A & Hrep & HA). exists A. split; [done|]. intros i Hi.
    rewrite decide_False by set_solver. apply HA. lia.
Qed.

Section messages.
Context (cs : list (list byte)).
Abbreviation msg := (respMsg sharedKey msize (length cs)).
Abbreviation msgs := (imap msg cs).

(** The message of a part, on a round. *)
Definition atRound (e : nat * Z) : CMsg * Z := (msg e.1 (default [] (cs !! e.1)), e.2).

Lemma order_indices order :
  (forall m, m ∈ order.*1 -> m ∈ msgs) ->
  exists idx, Forall (fun e => (e.1 < length cs)%nat) idx /\
    order = atRound <$> idx.
Proof.
  induction order as [|[m r] order IH]; intros Hord; [by exists []|].
  destruct IH as (idx & Hidx & ->); [intros m' Hm'; apply Hord; by right|].
  destruct (proj1 (list_elem_of_lookup msgs m)) as (i & Hi); [apply Hord; by left|].
  rewrite list_lookup_imap in Hi. destruct (cs !! i) as [c|] eqn:E; [|done]. injection Hi as <-.
  exists ((i, r) :: idx). split.
  - constructor; [by eapply lookup_lt_Some|done].
  - rewrite fmap_cons. unfold atRound at 2. cbn [fst snd]. by rewrite E.
Qed.

Lemma receiveResponses_all idx (s : reqState Int ID) :
  receiveResponses (atRound <$> idx) s
    = receiveAll sharedKey msize cs idx s.
Proof.
  revert s. induction idx as [|[i r] idx IH]; intros s; [done|]. rewrite fmap_cons. cbn [receiveResponses receiveAll atRound fst snd].
  unfold mbind, act_bind. by destruct (receiveResponse _ _ _).
Qed.

Lemma covers_messages idx :
  (forall i j, (i < length cs)%nat -> (j < length cs)%nat ->
     NewResponseFingerprint sharedKey (Z.of_nat i) = NewResponseFingerprint sharedKey (Z.of_nat j) -> i = j) ->
  Forall (fun e => (e.1 < length cs)%nat) idx ->
  covers cs ∅ idx <->
  forall m, m ∈ msgs -> m ∈ (atRound <$> idx).*1.
Proof.
  intros Hdist Hidx. split.
  - intros Hcov m (i & Hi)%list_elem_of_lookup. rewrite list_lookup_imap in Hi.
    destruct (cs !! i) as [c|] eqn:E; [|done]. injection Hi as <-. pose proof (lookup_lt_Some _ _ _ E) as Hlt.
    destruct (Hcov i Hlt) as [?|Hin]; [set_solver|]. apply list_elem_of_fmap in Hin as ([j r] & -> & Hin).
    rewrite <- list_fmap_compose. apply list_elem_of_fmap. exists (j, r). split; [|done]. cbn in *. by rewrite E.
  - intros Hall i Hlt. right. destruct (lookup_lt_is_Some_2 _ _ Hlt) as [c Hc].
    destruct (proj1 (list_elem_of_fmap _ _ _) (Hall (msg i c) ltac:(apply list_elem_of_lookup_2 with i; by rewrite list_lookup_imap, Hc)))
      as (x & Hx & Hin). apply list_elem_of_fmap in Hin as ([j r] & -> & Hin). apply (f_equal cm_fp) in Hx.
    apply list_elem_of_fmap. exists (j, r). split; [|done]. cbn [fst] in *. apply Hdist; [done| |exact Hx].
    by apply (proj1 (list.Forall_forall _ _) Hidx (j, r)).
Qed.
End messages.

Lemma responsesFree_distinct A (i j : nat) :
  responsesFree l priv maxResp src A -> Z.of_nat i < maxResp -> Z.of_nat j < maxResp ->
  NewResponseFingerprint sharedKey (Z.of_nat i) = NewResponseFingerprint sharedKey (Z.of_nat j) -> i = j.
Proof.
  intros [Hnd _] Hi Hj. by apply (fmap_seqZ_inj _ maxResp).
Qed.

(** C4: A response is delivered: when the receiver of the request responds with a
    payload that is not empty and fits in the parts the request allowed, the
    sender of the request, given some of the messages of the response in any
    order and any number of times, calls its callback exactly once, with the
    payload, when it was given all of them, and not at all otherwise. *)
Theorem response_delivered (t : txState Int ID) A contents send track response :
  sendable -> fm_rep (rs_fps (tx_req t)) A -> responsesFree l priv maxResp src A ->
  response ≠ [] -> Z.of_nat (length response) <= (Z.of_nat msize - 5) * maxResp ->
  (forall j, exists round, send j = inr round) -> (forall rounds, track rounds = Ok tt) ->
  exists t' rid out rounds, Transmit t = Done t' ([rid], Some src) /\
    Respond (Z.of_nat msize) send track response (requestOf contents, []) = Done (sr_use (requestOf contents), out) rounds /\
    forall order, (forall m, m ∈ order.*1 -> m ∈ out) ->
    exists s', receiveResponses order (tx_req t') = Done s' tt /\
      ((forall m, m ∈ out -> m ∈ order.*1) -> exists rounds, rs_calls s' = [Response response rounds]) /\
      (~ (forall m, m ∈ out -> m ∈ order.*1) -> rs_calls s' = []).
Proof.
  intros Hs Hrep Hfree Hne Hlen Hsend Htrack. pose proof (sd_room _ _ _ _ _ _ _ _ _ Hs) as Hroom.
  pose proof (sd_max _ _ _ _ _ _ _ _ _ Hs) as Hmax. pose proof (grp_ByteLen_nonneg priv) as Hpk.
  destruct (TransmitRequest_ok net l priv payload maxResp timeout reads now msize src t A Hs Hrep Hfree)
    as (nonce & rest & t' & rid & _ & Hrun & _ & Hready & _).
  destruct (Respond_ok sharedKey msize send track (requestOf contents) [] response) as [rounds Hresp]; [done|done|done|lia|done..|].
  cbn [sr_maxParts requestOf app] in Hresp. set (cs := respContents msize maxResp response) in *.
  exists t', rid. eexists _, rounds. split; [exact Hrun|]. split; [exact Hresp|]. intros order Hord.
  unfold is_u in Hmax. assert (0 < length response)%nat as Hpos by (destruct response; [done|simpl; lia]).
  pose proof (length_splitLoop (Z.to_nat maxResp) (msize - 5) response) as Hcs. fold (respContents msize maxResp response) in Hcs.
  fold cs in Hcs. pose proof (splitLoop_some (Z.to_nat maxResp) (msize - 5) response Hne ltac:(nia)) as Hsome.
  fold (respContents msize maxResp response) in Hsome. fold cs in Hsome.
  assert (forall i j, (i < length cs)%nat -> (j < length cs)%nat -> NewResponseFingerprint sharedKey (Z.of_nat i)
    = NewResponseFingerprint sharedKey (Z.of_nat j) -> i = j) as Hdist
    by (intros i j Hi Hj; apply (responsesFree_distinct A); [done|lia|lia]).
  destruct (order_indices cs order Hord) as (idx & Hidx & ->). rewrite receiveResponses_all.
  destruct (receiveAll_delivers sharedKey msize src (Z.to_nat maxResp) cs Hsome Hcs ltac:(lia)
    ltac:(intros c Hc; apply splitLoop_short in Hc; lia) ltac:(lia) Hdist idx (tx_req t') ∅)
    as (s' & Hrecv & Hall & Hnone); [by apply ready_awaiting; [|lia]|done|set_solver|rewrite size_empty; lia|].
  exists s'. split; [done|]. rewrite <- (covers_messages cs idx Hdist Hidx). split; [|done].
  intros Hcov. destruct (an_calls _ _ _ (Hall Hcov)) as [rds ->]. exists rds. do 2 f_equal.
  apply concat_splitLoop. nia.
Qed.
End delivered.

(** ** The callback of the requester *)

Section once.
Context {Int ID : Type} `{Countable ID} `{SuCrypto Int ID}.

(** What can happen to a request: a message for its identity, genuine or not,
    and the end of the time to wait. *)
Inductive reqEvent := GotMessage (m : CMsg) (round : Z) | TimedOut (timeout : Z).

Definition reqExec (e : reqEvent) : act (reqState Int ID) unit :=
  match e with
  | GotMessage m round => receiveResponse m round
  | TimedOut timeout => timeoutFires timeout
  end.

Fixpoint reqRun (es : list reqEvent) : act (reqState Int ID) unit :=
  match es with
  | [] => mret tt
  | e :: es => _ ← reqExec e; reqRun es
  end.

(** The callback has been called when [callbackOnce] has run, once, and then no
    fingerprint of the identity is left. *)
Definition calledOnce (s : reqState Int ID) : Prop :=
  if rs_once s
  then length (rs_calls s) = 1%nat /\ (forall src, rs_source s = Some src -> fpMap (rs_fps s) !! src = None)
  else rs_calls s = [].

Definition keeps (m : act (reqState Int ID) unit) : Prop :=
  forall s, calledOnce s -> match m s with Done s' _ => calledOnce s' | Fail _ _ => False | Crash => True end.

Lemma keeps_callbackWrapper call : keeps (callbackWrapper call).
Proof.
  intros s Hs. unfold callbackWrapper. erewrite bind_Done by done. erewrite bind_Done by done. unfold id.
  set (s1 := match rs_timer s with Waiting => _ | _ => s end).
  assert (calledOnce s1 /\ rs_once s1 = rs_once s /\ rs_calls s1 = rs_calls s) as (Hs1 & Ho & Hc)
    by (unfold s1; by destruct (rs_timer s)).
  clearbody s1. destruct (rs_once s1) eqn:E; [done|]. destruct (rs_source s1) as [src|] eqn:Es; [|done].
  unfold modify, calledOnce. cbn [rs_once rs_calls rs_source rs_fps]. unfold calledOnce in Hs1. rewrite E in Hs1. rewrite Hs1.
  split; [done|]. intros src' Hsrc. rewrite Es in Hsrc. injection Hsrc as <-.
  unfold DeleteClientFingerprints. cbn [fpMap fm_setMap]. apply lookup_delete_eq.
Qed.

Lemma keeps_Process cy m round : keeps (responseProcessor_Process cy m round).
Proof.
  intros s Hs. unfold responseProcessor_Process. destruct (cypher_decrypt _ _ _); [|done..].
  destruct (UnmarshalResponsePart _) as [part| |]; [|done..].
  destruct (Collate part _) as [c [payload fin]|c e|]; [|done..].
  destruct fin; [|done]. apply keeps_callbackWrapper. done.
Qed.

Lemma keeps_event e : keeps (reqExec e).
Proof.
  destruct e as [m round|timeout]; intros s Hs; cbn [reqExec].
  - unfold receiveResponse. destruct (rs_source s) as [src|] eqn:Es; [|done].
    destruct (fm_pop (rs_fps s) src (cm_fp m)) as [fps proc] eqn:Ep.
    assert (calledOnce (rs_setFps s fps)) as Hs'.
    { unfold calledOnce in *. cbn [rs_once rs_calls rs_source rs_fps rs_setFps]. destruct (rs_once s); [|done].
      destruct Hs as [Hc Hf]. split; [done|]. intros src' Hsrc. pose proof (Hf src' Hsrc) as Hnone.
      rewrite Es in Hsrc. injection Hsrc as <-. unfold fm_pop in Ep. rewrite Hnone in Ep. by injection Ep as <- <-. }
    destruct proc as [cy|]; [|done]. by apply keeps_Process.
  - unfold timeoutFires. erewrite bind_Done by done. unfold id. destruct (rs_timer s) eqn:Et; [done| |done|done].
    erewrite bind_Done by done. by apply keeps_callbackWrapper.
Qed.

(** C31: Whatever messages arrive, and whenever the time to wait ends, the callback
    of a request is called at most once, and once it was called no processor
    of the request is left; no step is refused with an error. *)
Theorem response_callback_once es (s : reqState Int ID) :
  calledOnce s ->
  match reqRun es s with
  | Done s' _ => (length (rs_calls s') <= 1)%nat /\ calledOnce s'
  | Fail _ _ => False
  | Crash => True
  end.
Proof.
  revert s. induction es as [|e es IH]; intros s Hs; cbn [reqRun].
  - simpl. split; [|done]. unfold calledOnce in Hs. destruct (rs_once s); [lia|]. rewrite Hs. simpl. lia.
  - unfold mbind, act_bind. pose proof (keeps_event e s Hs) as He. destruct (reqExec e s); [by apply IH|done|done].
Qed.

Lemma Process_oversized `{!SuCryptoLaws Int ID} (s : reqState Int ID) cy num max z body round cap :
  rs_collator s = NewCollator cap -> 0 <= num < max -> max <= cap -> max < 256 -> is_u 16 z -> Z.of_nat (length body) < z ->
  responseProcessor_Process cy
    (cypher_encrypt cy (x00 :: byte_of_Z num :: byte_of_Z max :: be_encode 2 z ++ body)) round s = Crash.
Proof.
  intros Hc Hnum Hmax Hu8 Hz Hlt. unfold responseProcessor_Process, cypher_decrypt, cypher_encrypt. cbn [cm_contents cm_mac].
  rewrite mac_verifies, crypt_twice. set (mem := x00 :: _).
  assert (length mem = 5 + length body)%nat as Hl by (unfold mem; simpl; rewrite ?length_app; lia).
  unfold UnmarshalResponsePart. change resPartMinSize with 5. rewrite (proj2 (Z.ltb_ge _ _)) by lia.
  rewrite mapResponsePart_ok by lia.
  assert (GetNumParts (responseView mem) = Ok max) as Hgn
    by (simpl; unfold ResponsePart_GetNumParts, getByte; simpl; by rewrite Z_of_byte_of_Z_u8 by (unfold is_u; lia)).
  assert (GetPartNum (responseView mem) = Ok num) as Hgp
    by (simpl; unfold ResponsePart_GetPartNum, getByte; simpl; by rewrite Z_of_byte_of_Z_u8 by (unfold is_u; lia)).
  assert (GetContents (responseView mem) = Panic) as Hgc.
  { change (ResponsePart_GetContents (responseView mem) = Panic). apply sizedContents_panic with z;
      [|cbn [responseView rsp_mem rsp_contents]; unfold s_cap; cbn [s_off]; lia].
    unfold sget_be, sread. cbn [responseView rsp_mem rsp_size s_len s_off]. rewrite decide_True by done.
    change (drop 3 mem) with (be_encode 2 z ++ body). rewrite take_take, take_app_length' by (by rewrite length_be_encode).
    by rewrite (be_decode_encode_u 2) by done. }
  rewrite Hc, (Collate_first _ _ max); [|done|done|cbn [NewCollator c_payloads]; rewrite length_replicate; lia].
  unfold collateRest. erewrite bind_Done by done. unfold id. erewrite bind_Done by (by apply pureResult_Done).
  cbn [c_maxNum c_setMax]. rewrite (proj2 (Z.leb_gt _ _)) by lia.
  erewrite bind_Done. 2: { apply pureResult_Done. cbn [c_payloads NewCollator c_setMax].
    rewrite <- (Z2Nat.id num) by lia. apply index_nat. apply lookup_replicate_2. lia. }
  by rewrite Hgc.
Qed.

(** A part whose size field is larger than its contents, encrypted with the key
    of a part that is waited for, crashes the client: the request has not
    received anything yet, and the fingerprint of the message is registered
    with its processor. *)
Theorem oversized_part_panics `{!SuCryptoLaws Int ID} (s : reqState Int ID) src cy num max z body round cap :
  rs_source s = Some src -> fm_of (rs_fps s) src !! cypher_getFingerprint cy = Some cy ->
  rs_collator s = NewCollator cap -> 0 <= num < max -> max <= cap -> max < 256 -> is_u 16 z -> Z.of_nat (length body) < z ->
  reqExec (GotMessage (cypher_encrypt cy (x00 :: byte_of_Z num :: byte_of_Z max :: be_encode 2 z ++ body)) round) s = Crash.
Proof.
  intros Hsrc Hfp Hc Hnum Hmax Hu8 Hz Hlt. cbn [reqExec]. unfold receiveResponse, fm_pop. rewrite Hsrc.
  unfold fm_of in Hfp. destruct (fpMap (rs_fps s) !! src) as [m|]; simpl in Hfp; [|by rewrite lookup_empty in Hfp].
  cbn [cm_fp cypher_encrypt]. rewrite Hfp. by apply (Process_oversized _ _ _ _ _ _ _ cap).
Qed.
End once.

(** ** An example: keys are bytes, messages of 20 bytes *)

Module SingleExample.
#[export] Instance ex_crypto : SuCrypto byte (list byte) := {
  grp_ByteLen := 2;
  NewIntFromBytes b := last b x00;
  LeftpadBytes x n := replicate (Z.to_nat n - 1) x00 ++ [x];
  grp_Exp a b := byte_of_Z (Z_of_byte a * Z_of_byte b);
  GeneratePublicKey a := a;
  NewRequestKey x := [x];
  NewRequestFingerprint x := [x; x01];
  NewRequestPartKey x i := [x; byte_of_Z i; x02];
  NewRequestPartFingerprint x i := [x; byte_of_Z i; x03];
  NewResponseKey x i := [x; byte_of_Z i; x04];
  NewResponseFingerprint x i := [x; byte_of_Z i; x05];
  NewRecipientID x payload := x :: take 8 payload;
  Crypt k n x := reverse x;
  MakeMAC k x := k ++ take 4 x;
  VerifyMAC k x m := bool_decide (m = k ++ take 4 x);
}.

#[export] Instance ex_laws : SuCryptoLaws byte (list byte).
Proof.
  split; simpl.
  - intros _ _ x. apply reverse_involutive.
  - intros _ _ x. apply length_reverse.
  - intros k x. by apply bool_decide_true.
  - intros a b. by rewrite Z.mul_comm.
  - done.
  - done.
Qed.

(** Only identities whose nonce starts with 9 have a wide enough window. *)
#[export] Instance ex_ephemeral : Ephemeral (list byte) := {
  ephemeral_GetId rid _ t :=
    if decide (rid !! 1%nat = Some x09) then inr (t - 1000, t + 1000) else inr (t, t);
}.

Definition ex_net : suNet := mkSuNet 20 true 16 (fun i => inr (Z.of_nat i)).
Definition ex_listener : listener byte (list byte) := mkListener "tag" [x01; x02] x05.
Definition ex_reads : list (error + list byte) := [inr (replicate 8 x07); inr (replicate 8 x09)].
Definition ex_src : list byte := x03 :: replicate 8 x09.
Definition ex_tx : txState byte (list byte) :=
  mkTxState (mkReqState None (newFingerprints []) (NewCollator 0) newRoundIdCollector false NotStarted []) [] [].
Definition ex_ls : lState byte (list byte) Z := mkLState (newFingerprints []) [] [] 0.
Definition ex_bytes (n : nat) : list byte := (fun i => byte_of_Z (Z.of_nat i)) <$> seq 0 n.

(** A payload for three messages, and the largest. *)
Definition ex_short : list byte := ex_bytes 30.
Definition ex_long : list byte := ex_bytes 4340.
End SingleExample.
Import SingleExample.

Abbreviation ex_sendable p := (sendable ex_net x03 p 4 100 ex_reads 10000 20 ex_src).

Lemma ex_window x num c :
  ephemeral_GetId (NewRecipientID x03 (payloadBytes 17 (replicate 8 x) num 4 c)) 16 (UnixNano 10000)
    = if decide (x = x09) then inr (9000, 11000) else inr (10000, 10000).
Proof.
  change (UnixNano 10000) with 10000. cbn [ephemeral_GetId ex_ephemeral NewRecipientID ex_crypto].
  change ((x03 :: _) !! 1%nat) with (Some x). destruct (decide (x = x09)) as [->|Hne].
  - by rewrite decide_True by done.
  - by rewrite decide_False by congruence.
Qed.

(** The second nonce is the one that is kept. *)
Lemma ex_makeIDs num c :
  makeIDs ex_reads (payloadView (payloadBytes 17 zeroNonce num 4 c)) x03 16 100 10000
    = Ok (payloadView (payloadBytes 17 (replicate 8 x09) num 4 c), Some ex_src).
Proof.
  unfold makeIDs, ex_reads. cbn [makeIDsLoop]. change ((10000 - 2 * 100 <? 10000) || (10000 <? 10000 + 2 * 100)) with true.
  cbv beta iota. rewrite payloadView_SetNonce by done. cbn [wrap_err mbind result_bind]. rewrite payloadView_Marshal.
  rewrite (ex_window x07). cbv beta iota.
  change ((10000 - 2 * 100 <? 10000) || (10000 <? 10000 + 2 * 100)) with true. cbv beta iota.
  rewrite payloadView_SetNonce by done. cbn [wrap_err mbind result_bind]. rewrite payloadView_Marshal.
  by rewrite (ex_window x09).
Qed.

Lemma ex_sendable_ok p : Z.of_nat (length p) <= 4340 -> ex_sendable p.
Proof.
  intros Hl. split; [done|done|by intros i; eexists|simpl; lia|exact Hl|done|by repeat constructor|].
  destruct (partitionPayload_ok 5 17 p) as (rest & Hpart & _ & _ & _); [lia|].
  exists (take 5 p), rest. do 2 eexists. split; [exact Hpart|]. split.
  - apply firstPayload_ok; rewrite ?length_take; cbn [grp_ByteLen ex_crypto]; lia.
  - apply ex_makeIDs.
Qed.

Lemma ex_responsesFree : responsesFree ex_listener x03 4 ex_src ∅.
Proof.
  split; [|intros i _; apply lookup_empty].
  apply (bool_decide_unpack _). vm_compute. exact I.
Qed.

Lemma ex_partsFree : partsFree (Eph := Z) ex_listener x03 255 ∅.
Proof.
  split; [|intros i _; apply lookup_empty].
  apply (bool_decide_unpack _). vm_compute. exact I.
Qed.

(** Messages on rounds from 1 on. *)
Definition ex_rounds (ms : list CMsg) : list (CMsg * Z) := zip ms (seqZ 1 (Z.of_nat (length ms))).

Lemma ex_rounds_fst ms : (ex_rounds ms).*1 = ms.
Proof. apply fst_zip. rewrite length_seqZ. lia. Qed.

(** A payload of 30 bytes needs three messages; the first identity that is
    tried does not last long enough. *)
Lemma request_delivered_witness :
  exists t' rid first others,
    TransmitRequest ex_net x05 ex_short 4 100 (inr x03) ex_reads 10000 ex_tx = Done t' ([rid], Some ex_src) /\
    tx_sent t' = first :: others /\
    exists s', receiveRequest ex_listener first 77 1 (ex_rounds (rev others ++ others)) ex_ls = Done s' tt /\
      exists rounds, ls_requests s' = [(mkSuRequest ex_src x03 x0f "tag" 4 false ex_short, 77, rounds)].
Proof.
  destruct (request_delivered ex_net ex_listener x03 ex_short 4 100 ex_reads 10000 20 ex_src ex_tx ∅ ex_ls ∅ 77 1)
    as (t' & rid & first & others & Hrun & Hsent & Hrecv);
    [apply ex_sendable_ok; vm_compute; discriminate|vm_compute; lia|apply fp_new_refines|exact ex_responsesFree
    |apply fp_new_refines|exact ex_partsFree|].
  exists t', rid, first, others. split; [exact Hrun|]. split; [exact Hsent|].
  destruct (Hrecv (ex_rounds (rev others ++ others))) as (s' & Hr & Hall & _).
  { intros m. rewrite ex_rounds_fst, elem_of_app. intros [Hm|Hm]; [|exact Hm].
    by apply list_elem_of_In, in_rev, list_elem_of_In. }
  exists s'. split; [exact Hr|]. destruct Hall as (rounds & Hreq & _).
  { intros m Hm. rewrite ex_rounds_fst, elem_of_app. by right. }
  exists rounds. exact Hreq.
Defined.

(** The largest payload the code accepts. *)
Lemma max_request_truncated_witness :
  GetMaxRequestSize ex_net = 4340 /\
  exists t' rid first others,
    TransmitRequest ex_net x05 ex_long 4 100 (inr x03) ex_reads 10000 ex_tx = Done t' ([rid], Some ex_src) /\
    tx_sent t' = first :: others /\ length others = 255%nat /\
    listener_process ex_listener first 77 1 ex_ls
      = Done (ls_call ex_ls (mkSuRequest ex_src x03 x0f "tag" 4 false [x00; x01; x02; x03; x04], 77, [1])) tt.
Proof.
  split; [reflexivity|].
  exact (max_request_truncated ex_net ex_listener x03 ex_long 4 100 ex_reads 10000 20 ex_src ex_tx ∅ ex_ls 77 1
    (ex_sendable_ok ex_long ltac:(vm_compute; discriminate)) ltac:(apply Nat.ltb_lt; vm_compute; reflexivity) (fp_new_refines []) ex_responsesFree).
Defined.

(** A response of 40 bytes, in three parts. *)
Lemma response_delivered_witness :
  exists t' rid out rounds,
    TransmitRequest ex_net x05 ex_short 4 100 (inr x03) ex_reads 10000 ex_tx = Done t' ([rid], Some ex_src) /\
    Respond 20 (fun i => inr (Z.of_nat i)) (fun _ => Ok tt) (ex_bytes 40)
      (mkSuRequest ex_src x03 x0f "tag" 4 false ex_short, []) = Done (mkSuRequest ex_src x03 x0f "tag" 4 true ex_short, out) rounds /\
    exists s', receiveResponses (ex_rounds out) (tx_req t') = Done s' tt /\
      exists rounds, rs_calls s' = [Response (ex_bytes 40) rounds].
Proof.
  destruct (response_delivered ex_net ex_listener x03 ex_short 4 100 ex_reads 10000 20 ex_src ex_tx ∅ ex_short
    (fun i => inr (Z.of_nat i)) (fun _ => Ok tt) (ex_bytes 40)) as (t' & rid & out & rounds & Hrun & Hresp & Hrecv);
    [apply ex_sendable_ok; vm_compute; discriminate|apply fp_new_refines|exact ex_responsesFree|done
    |vm_compute; discriminate|by intros j; eexists|done|].
  exists t', rid, out, rounds. split; [exact Hrun|]. split; [exact Hresp|].
  destruct (Hrecv (ex_rounds out)) as (s' & Hr & Hall & _); [intros m; by rewrite ex_rounds_fst|].
  exists s'. split; [exact Hr|]. apply Hall. intros m. by rewrite ex_rounds_fst.
Defined.

(** A part of two bytes that claims to have nine. *)
Definition ex_req : reqState byte (list byte) :=
  mkReqState (Some ex_src) (newFingerprints []) (NewCollator 4) newRoundIdCollector false Waiting [].

Definition ex_waiting : reqState byte (list byte) :=
  rs_setFps ex_req (AddFingerprint (newFingerprints []) (Some ex_src) (cypher_getFingerprint (respCypher x0f 0)) (respCypher x0f 0)).1.

Lemma oversized_part_panics_witness :
  reqExec (GotMessage (cypher_encrypt (respCypher x0f 0) [x00; x00; x01; x00; x09; x2a; x2a]) 1) ex_waiting = Crash.
Proof.
  exact (oversized_part_panics ex_waiting ex_src (respCypher x0f 0) 0 1 9 [x2a; x2a] 1 4 eq_refl eq_refl eq_refl ltac:(lia)
    ltac:(lia) ltac:(lia) ltac:(unfold is_u; lia) ltac:(simpl; lia)).
Defined.

(** A junk message and two timeouts, on a request that waits. *)
Lemma response_callback_once_witness :
  exists s', reqRun [GotMessage (mkCMsg [x01] [] []) 1; TimedOut 100; TimedOut 100] ex_req = Done s' tt /\
    rs_once s' = true /\ (length (rs_calls s') <= 1)%nat.
Proof.
  pose proof (response_callback_once [GotMessage (mkCMsg [x01] [] []) 1; TimedOut 100; TimedOut 100] ex_req eq_refl) as Hcall.
  eexists. split; [reflexivity|]. split; [reflexivity|]. exact (proj1 Hcall).
Defined.
