(* ===== verification/CommandStore.v ===== *)
(** * Stored channel commands

    [channels/commandStore.go]: the details of the commands of a channel (pins,
    mutes), each stored under the fingerprint of its channel, kind and content. *)

From Stdlib Require Import Ascii.
From S2P Require Import Prelude GoBytes KV Json Effects.

(** [hex.EncodeToString] *)
Definition hexByte (b : byte) : list ascii :=
  let n := Z.to_nat (Z_of_byte b) in [hexDigit (n / 16); hexDigit (n mod 16)].
Definition hexEncode (bs : list byte) : string := String.string_of_list_ascii (concat (hexByte <$> bs)).

(** [hash.NewCMixHash], over all that is written to it. *)
Class CMixHash := cMixHash : list byte -> list byte.

(** [MessageType], a [uint16]. *)
Abbreviation MessageType := Z (only parsing).
Definition MessageType_Bytes (mt : MessageType) : list byte := le_encode 2 mt.

Definition commandStorePrefix : string := "channelCommandStore".
Definition commandStoreVersion : Z := 0.
Definition commandFpLen : nat := 32.

(** [SentStatus] is a [uint8], [Lease] a [time.Duration]; the round type is that
    of [cmix/rounds]. *)
Record CommandMessage {ID Rnd : Type} := mkCommandMessage {
  cm_ChannelID : ID;
  cm_MessageID : list byte;
  cm_MessageType : MessageType;
  cm_Nickname : string;
  cm_Content : list byte;
  cm_EncryptedPayload : list byte;
  cm_PubKey : list byte;
  cm_Codeset : Z;
  cm_Timestamp : Time;
  cm_OriginatingTimestamp : Time;
  cm_Lease : Z;
  cm_OriginatingRound : Z;
  cm_Round : Rnd;
  cm_Status : Z;
  cm_FromAdmin : bool;
  cm_UserMuted : bool;
}.
Arguments CommandMessage : clear implicits.

#[export] Instance CommandMessage_eq_dec {ID Rnd} `{EqDecision ID, EqDecision Rnd} : EqDecision (CommandMessage ID Rnd).
Proof. solve_decision. Defined.
#[export] Instance CommandMessage_countable {ID Rnd} `{Countable ID, Countable Rnd} : Countable (CommandMessage ID Rnd).
Proof.
  apply (inj_countable'
    (fun m => (cm_ChannelID m, cm_MessageID m, cm_MessageType m, cm_Nickname m, cm_Content m, cm_EncryptedPayload m,
      cm_PubKey m, cm_Codeset m, (cm_Timestamp m, cm_OriginatingTimestamp m, cm_Lease m, cm_OriginatingRound m, cm_Round m,
      cm_Status m, cm_FromAdmin m, cm_UserMuted m)))
    (fun '(a, b, c, d, e, f, g, h, (i, j, k, l, m, n, o, p)) => mkCommandMessage ID Rnd a b c d e f g h i j k l m n o p)).
  by intros [].
Defined.

Section code.
Context {S ID Rnd : Type} `{EKV S} `{NetID ID} `{CMixHash} `{JsonCodec (CommandMessage ID Rnd)}.

Definition newCommandFingerprint (channelID : ID) (command : MessageType) (payload : list byte) : list byte :=
  array_of commandFpLen (cMixHash (id_Bytes channelID ++ MessageType_Bytes command ++ payload)).

Definition commandFingerprint_key (afp : list byte) : string := hexEncode afp.

(** The key of a command in maps and in storage. *)
Definition commandKey (channelID : ID) (command : MessageType) (payload : list byte) : string :=
  commandFingerprint_key (newCommandFingerprint channelID command payload).

(** A [CommandStore] is its handle. *)
Definition NewCommandStore (v : kv) : result kv := must (kv_Prefix v commandStorePrefix).

Definition SaveCommand (cs : kv) (channelID : ID) (messageID : list byte) (messageType : MessageType)
    (nickname : string) (content encryptedPayload pubKey : list byte) (codeset : Z)
    (timestamp originatingTimestamp : Time) (lease originatingRound : Z) (round : Rnd) (status : Z)
    (fromAdmin userMuted : bool) (now : Time) : act S unit :=
  let m := mkCommandMessage ID Rnd channelID messageID messageType nickname content encryptedPayload pubKey
    codeset timestamp originatingTimestamp lease originatingRound round status fromAdmin userMuted in
  write (fun s => kv_Set cs s (commandKey channelID messageType content)
    (mkObject commandStoreVersion now (json_Marshal m))).

Definition LoadCommand (cs : kv) (channelID : ID) (messageType : MessageType) (content : list byte) :
    act S (CommandMessage ID Rnd) :=
  obj ← read (fun s => kv_Get cs s (commandKey channelID messageType content) commandStoreVersion);
  match json_Unmarshal (Data obj) with
  | Some m => mret m
  | None => throw (Errorf "json" [])
  end.

Definition DeleteCommand (cs : kv) (channelID : ID) (messageType : MessageType) (content : list byte) : act S unit :=
  write (fun s => kv_Delete cs s (commandKey channelID messageType content) commandStoreVersion).
End code.

(** ** Keys *)

Lemma hexDigit_inj a b : (a < 16)%nat -> (b < 16)%nat -> hexDigit a = hexDigit b -> a = b.
Proof. intros Ha Hb. do 16 (destruct a as [|a]; [do 16 (destruct b as [|b]; [done|]); lia|]). lia. Qed.

Lemma hexByte_inj a b : hexByte a = hexByte b -> a = b.
Proof.
  assert (forall x y x' y' : ascii, [x; y] = [x'; y'] -> x = x' /\ y = y') as Hpair by (intros; by simplify_eq).
  intros [H1 H2]%Hpair. apply Z_of_byte_inj.
  pose proof (Z_of_byte_range a). pose proof (Z_of_byte_range b).
  apply hexDigit_inj in H1; [|apply Nat.Div0.div_lt_upper_bound; lia..].
  apply hexDigit_inj in H2; [|apply Nat.mod_upper_bound; lia..].
  pose proof (Nat.div_mod_eq (Z.to_nat (Z_of_byte a)) 16). pose proof (Nat.div_mod_eq (Z.to_nat (Z_of_byte b)) 16). lia.
Qed.

Lemma hexEncode_inj a b : hexEncode a = hexEncode b -> a = b.
Proof.
  unfold hexEncode. intros Heq. apply (f_equal chars) in Heq. rewrite !String.list_ascii_of_string_of_list_ascii in Heq.
  revert b Heq. induction a as [|x a IH]; intros [|y b] Heq; [done..|].
  rewrite !fmap_cons in Heq. cbn [concat] in Heq.
  apply app_inj_1 in Heq as [Hxy Heq]; [|done]. f_equal; [by apply hexByte_inj|by apply IH].
Qed.

Lemma hexEncode_chars bs c : c ∈ chars (hexEncode bs) -> c ∈ chars "0123456789abcdef".
Proof.
  unfold hexEncode. rewrite String.list_ascii_of_string_of_list_ascii. induction bs as [|b bs IH]; [by intros ?%not_elem_of_nil|].
  rewrite fmap_cons. cbn [concat]. unfold hexByte at 1. cbn [app]. rewrite !elem_of_cons.
  assert (forall n, (n < 16)%nat -> hexDigit n ∈ chars "0123456789abcdef") as Hd.
  { intros n Hn. do 16 (destruct n as [|n]; [by apply (bool_decide_unpack (hexDigit _ ∈ _))|]). lia. }
  pose proof (Z_of_byte_range b).
  intros [->|[->|?]]; [|apply Hd, Nat.mod_upper_bound; lia|by apply IH].
  apply Hd, Nat.Div0.div_lt_upper_bound. lia.
Qed.

(** ** Writes and deletes of one key *)

Section steps.
Context {S : Type} `{EKVLaws S, !EKVReliable S}.

(** Only one key of one handle differs. *)
Definition changesOnly (v : kv) (key : string) (s s' : S) : Prop :=
  forall v' key', kv_handle v' -> strContains PrefixSeparator key' = false ->
    (prefix v', key') ≠ (prefix v, key) -> kv_Get v' s' key' 0 = kv_Get v' s key' 0.

(** Nothing is stored under the key. *)
Definition absent (v : kv) (s : S) (key : string) : Prop :=
  exists e, kv_Get v s key 0 = inl e /\ ekv_Exists S e = false.

Lemma set_step v (s : S) key now data :
  kv_handle v -> strContains PrefixSeparator key = false ->
  exists s', write (fun s => kv_Set v s key (mkObject 0 now data)) s = Done s' tt /\
    kv_Get v s' key 0 = inr (mkObject 0 now data) /\ changesOnly v key s s'.
Proof.
  intros Hv Hk. destruct (kv_Set v s key (mkObject 0 now data)) as [s' r] eqn:E.
  assert (r = None) as ->.
  { pose proof (ekv_set_ok s (kv_makeKey v key 0) (mkObject 0 now data)) as Hr. unfold kv_Set in E. simpl in E. by rewrite E in Hr. }
  exists s'. split; [by apply write_Done|]. split; [by apply (kv_get_set_eq v s s' key (mkObject 0 now data))|].
  intros v' key' Hv' Hk' Hne. eapply kv_get_set_ne; [done|]. simpl. intros Heq.
  apply kv_makeKey_inj in Heq as (? & ? & _); [congruence|done..|lia|lia].
Qed.

Lemma delete_step v (s : S) key :
  kv_handle v -> strContains PrefixSeparator key = false ->
  exists s', write (fun s => kv_Delete v s key 0) s = Done s' tt /\ absent v s' key /\ changesOnly v key s s'.
Proof.
  intros Hv Hk. destruct (kv_Delete v s key 0) as [s' r] eqn:E.
  assert (r = None) as ->.
  { pose proof (ekv_delete_ok s (kv_makeKey v key 0)) as Hr. unfold kv_Delete in E. by rewrite E in Hr. }
  exists s'. split; [by apply write_Done|]. split; [by eapply kv_get_delete_eq|].
  intros v' key' Hv' Hk' Hne. eapply kv_get_delete_ne'; [done|]. intros Heq.
  apply kv_makeKey_inj in Heq as (? & ? & _); [congruence|done..|lia|lia].
Qed.
End steps.

Lemma hexEncode_no_sep bs : strContains PrefixSeparator (hexEncode bs) = false.
Proof.
  apply strContains_chars. intros Hin%hexEncode_chars. revert Hin.
  by apply (bool_decide_unpack (¬ (PrefixSeparator ∈ chars "0123456789abcdef"))).
Qed.

Section commands.
Context {S ID Rnd : Type} `{EKVLaws S, !EKVReliable S} `{NetID ID} `{CMixHash} `{JsonCodec (CommandMessage ID Rnd)}.

(** A command that was saved is loaded, until it is deleted; only its key is
    touched. *)
Lemma SaveCommand_ok cs (s : S) ch mid mt nick content enc pub codeset ts ots lease oround (round : Rnd) st admin muted now :
  kv_handle cs ->
  let m := mkCommandMessage ID Rnd ch mid mt nick content enc pub codeset ts ots lease oround round st admin muted in
  exists s', SaveCommand cs ch mid mt nick content enc pub codeset ts ots lease oround round st admin muted now s = Done s' tt /\
    (json_ok m -> LoadCommand cs ch mt content s' = Done s' m) /\
    changesOnly cs (commandKey ch mt content) s s'.
Proof.
  intros Hcs m. destruct (set_step cs s (commandKey ch mt content) now (json_Marshal m) Hcs) as (s' & Hset & Hget & Hch).
  { apply hexEncode_no_sep. }
  exists s'. split; [done|]. split; [|done]. intros Hm. unfold LoadCommand.
  erewrite bind_Done by (apply read_Done; exact Hget). cbn [Data]. by rewrite json_roundtrip.
Qed.

Lemma DeleteCommand_ok cs (s : S) (ch : ID) mt content :
  kv_handle cs ->
  exists s', DeleteCommand cs ch mt content s = Done s' tt /\ absent cs s' (commandKey ch mt content) /\
    changesOnly cs (commandKey ch mt content) s s'.
Proof. intros Hcs. apply delete_step; [done|]. apply hexEncode_no_sep. Qed.
End commands.
