(* ===== verification/ReplayBlocker.v ===== *)
(** * Blocking of old replays

    [channels/replayBlocker.go]: for every command of a channel, the version of it
    that was accepted last and the round that one came from, so that another
    version from no newer round is refused and the one kept is replayed instead.
    The comments of the source speak of the newest version; a copy of the version
    kept is accepted from any round, so what is kept is the last one accepted. *)

From Stdlib Require Import Ascii.
From S2P Require Import Prelude GoBytes KV Json Effects CommandStore.

(** A Go map that may be nil: reading nil finds nothing, writing to it panics. *)
Definition goMap (K V : Type) `{Countable K} : Type := option (gmap K V).
Definition goEntries {K V} `{Countable K} (m : goMap K V) : gmap K V := default ∅ m.

(** Rounds and fingerprints are [uint64]. *)
Record commandMessage {ID : Type} := mkCommand {
  rc_ChannelID : ID;
  rc_Action : MessageType;
  rc_Payload : list byte;
  rc_OriginatingRound : Z;
  rc_UnsanitizedFP : Z;
}.
Arguments commandMessage : clear implicits.

Definition replayBlockerStoragePrefix : string := "channelReplayBlocker".
Definition commandChannelListVer : Z := 0.
Definition commandChannelListKey : string := "channelCommandList".
Definition channelCommandMessagesVer : Z := 0.

(** The [replay] function and the mutex are left to the caller. *)
Record replayBlocker {ID : Type} `{NetID ID} := mkReplayBlocker {
  rb_commandsByChannel : gmap ID (goMap string (commandMessage ID));
  rb_store : kv;                            (* the command store *)
  rb_kv : kv;
}.
Arguments replayBlocker ID {_}.

Section code.
Context {S ID Rnd : Type} `{EKV S} `{NetID ID} `{CMixHash}.
Context `{JsonCodec (CommandMessage ID Rnd)} `{JsonCodec (gmap string (commandMessage ID))} `{JsonCodec (list ID)}.
Context (channelOrder : gmap ID (goMap string (commandMessage ID)) -> list ID)
        (commandOrder : gmap string (commandMessage ID) -> list string).

Implicit Types (rb : replayBlocker ID).

Definition rb_setCommands rb (m : gmap ID (goMap string (commandMessage ID))) : replayBlocker ID :=
  mkReplayBlocker _ _ m (rb_store rb) (rb_kv rb).

Definition newReplayBlocker (store v : kv) : result (replayBlocker ID) :=
  kv ← must (kv_Prefix v replayBlockerStoragePrefix);
  Ok (mkReplayBlocker _ _ ∅ store kv).

Definition makeChannelCommandMessagesKey (channelID : ID) : string := hexEncode (id_Bytes channelID).

Definition rb_storeCommandChannelsList (now : Time) : act (S * replayBlocker ID) unit := fun '(s, rb) =>
  onStore (write (fun s => kv_Set (rb_kv rb) s commandChannelListKey
    (mkObject commandChannelListVer now (json_Marshal (channelOrder (rb_commandsByChannel rb)))))) (s, rb).

Definition rb_loadCommandChannelsList rb : act S (list ID) :=
  obj ← read (fun s => kv_Get (rb_kv rb) s commandChannelListKey commandChannelListVer);
  match json_Unmarshal (Data obj) with
  | Some channelIDs => mret channelIDs
  | None => throw (Errorf "json" [])
  end.

Definition rb_deleteCommandMessages (channelID : ID) : act (S * replayBlocker ID) unit := fun '(s, rb) =>
  onStore (write (fun s => kv_Delete (rb_kv rb) s (makeChannelCommandMessagesKey channelID) channelCommandMessagesVer)) (s, rb).

(** The commands of a channel; an unknown channel has the nil map. *)
Definition rb_commands rb (channelID : ID) : gmap string (commandMessage ID) :=
  goEntries (default None (rb_commandsByChannel rb !! channelID)).

Definition rb_storeCommandMessages (channelID : ID) (now : Time) : act (S * replayBlocker ID) unit := fun '(s, rb) =>
  if (size (rb_commands rb channelID) =? 0)%nat then rb_deleteCommandMessages channelID (s, rb)
  else onStore (write (fun s => kv_Set (rb_kv rb) s (makeChannelCommandMessagesKey channelID)
    (mkObject channelCommandMessagesVer now (json_Marshal (rb_commands rb channelID))))) (s, rb).

Definition rb_loadCommandMessages rb (channelID : ID) : act S (gmap string (commandMessage ID)) :=
  obj ← read (fun s => kv_Get (rb_kv rb) s (makeChannelCommandMessagesKey channelID) channelCommandMessagesVer);
  match json_Unmarshal (Data obj) with
  | Some messages => mret messages
  | None => throw (Errorf "json" [])
  end.

Definition rb_updateStorage (channelID : ID) (channelIdUpdate : bool) (now : Time) : act (S * replayBlocker ID) unit :=
  _ ← annotate "could not store command messages for channel %s: %+v" [] (rb_storeCommandMessages channelID now);
  if channelIdUpdate then annotate "could not store command channel IDs: %+v" [] (rb_storeCommandChannelsList now)
  else mret tt.

(** The loop of [load]: the entry of a channel is assigned before the error is
    looked at, and then is nil. *)
Fixpoint rb_loadLoop (channelIDs : list ID) : act (S * replayBlocker ID) unit := fun '(s, rb) =>
  match channelIDs with
  | [] => Done (s, rb) tt
  | channelID :: channelIDs =>
      let assign (m : goMap string (commandMessage ID)) := rb_setCommands rb (<[channelID := m]> (rb_commandsByChannel rb)) in
      match rb_loadCommandMessages rb channelID s with
      | Done s m => rb_loadLoop channelIDs (s, assign (Some m))
      | Fail s e => Fail (s, assign None) (Wrapf "could not load command messages for channel %s" [] e)
      | Crash => Crash
      end
  end.

Definition rb_load : act (S * replayBlocker ID) unit := fun '(s, rb) =>
  (channelIDs ← annotate "could not load list of channels" [] (onStore (rb_loadCommandChannelsList rb));
   rb_loadLoop channelIDs) (s, rb).

(** A start: an error that means a missing object is passed over. *)
Definition rb_loadIfPresent : act (S * replayBlocker ID) unit := fun st =>
  match rb_load st with
  | Fail st' e => if ekv_Exists S e then Fail st' e else Done st' tt
  | o => o
  end.

Definition newOrLoadReplayBlocker (store v : kv) (s : S) : outcome (S * replayBlocker ID) unit :=
  match newReplayBlocker store v with
  | Ok rb => rb_loadIfPresent (s, rb)
  | _ => Crash
  end.

(** The second result is the command whose replay is started, when one is. *)
Definition verifyReplay (channelID : ID) (messageID : list byte) (action : MessageType)
    (unsanitizedPayload sanitizedPayload encryptedPayload : list byte) (timestamp originatingTimestamp : Time)
    (lease originatingRound : Z) (round : Rnd) (fromAdmin : bool) (now : Time) :
    act (S * replayBlocker ID) (bool * option (commandMessage ID)) := fun '(s, rb) =>
  let fp := commandKey channelID action sanitizedPayload in
  let unsanitizedFp := newCommandFingerprint channelID action unsanitizedPayload in
  let newCm := mkCommand ID channelID action sanitizedPayload originatingRound (le_decode (take 8 unsanitizedFp)) in
  let accept commands channelIdUpdate :=
    (_ ← annotate "failed to save command message" []
           (onStore (SaveCommand rb.(rb_store) channelID messageID action "" sanitizedPayload encryptedPayload [] 0
             timestamp originatingTimestamp lease originatingRound round 0 fromAdmin false now));
     _ ← rb_updateStorage channelID channelIdUpdate now;
     mret (true, None)) (s, rb_setCommands rb commands) in
  match rb_commandsByChannel rb !! channelID with
  | Some messages =>
      let overwrite :=
        match messages with
        | Some ms => accept (<[channelID := Some (<[fp := newCm]> ms)]> (rb_commandsByChannel rb)) false
        | None => Crash
        end in
      match goEntries messages !! fp with
      | Some cm =>
          if (rc_OriginatingRound cm >=? rc_OriginatingRound newCm) &&
             negb (rc_UnsanitizedFP cm =? rc_UnsanitizedFP newCm)
          then Done (s, rb) (false, Some cm)
          else overwrite
      | None => overwrite
      end
  | None => accept (<[channelID := Some {[fp := newCm]}]> (rb_commandsByChannel rb)) true
  end.

Definition rb_removeCommand (channelID : ID) (action : MessageType) (payload : list byte) (now : Time) :
    act (S * replayBlocker ID) unit := fun '(s, rb) =>
  let fp := commandKey channelID action payload in
  match rb_commandsByChannel rb !! channelID with
  | Some (Some messages) =>
      match messages !! fp with
      | Some _ =>
          let messages := delete fp messages in
          if (size messages =? 0)%nat
          then rb_updateStorage channelID true now (s, rb_setCommands rb (delete channelID (rb_commandsByChannel rb)))
          else rb_updateStorage channelID false now
                 (s, rb_setCommands rb (<[channelID := Some messages]> (rb_commandsByChannel rb)))
      | None => Done (s, rb) tt
      end
  | _ => Done (s, rb) tt
  end.

(** Errors of the deletions are logged at most. *)
Fixpoint deleteCommands (cs : kv) (cms : list (commandMessage ID)) : act S unit :=
  match cms with
  | [] => mret tt
  | cm :: cms =>
      _ ← logged (DeleteCommand cs (rc_ChannelID cm) (rc_Action cm) (rc_Payload cm));
      deleteCommands cs cms
  end.

Definition rb_removeChannelCommands (channelID : ID) (now : Time) : act (S * replayBlocker ID) unit := fun '(s, rb) =>
  match rb_commandsByChannel rb !! channelID with
  | None => Done (s, rb) tt
  | Some commands =>
      let cms := omap (fun k => goEntries commands !! k) (commandOrder (goEntries commands)) in
      (_ ← onStore (deleteCommands (rb_store rb) cms);
       _ ← modify (fun '(s, rb) => (s, rb_setCommands rb (delete channelID (rb_commandsByChannel rb))));
       _ ← rb_storeCommandChannelsList now;
       rb_deleteCommandMessages channelID) (s, rb)
  end.
End code.

(** ** The contract

    For every command the version that was accepted last.  A version is refused
    when it came from the same or an older round and differs from the one kept,
    which is then replayed; every other one is accepted, a copy of the one kept
    from an older round included. *)

Inductive rbOp {ID Rnd : Type} :=
| RbVerify (channelID : ID) (messageID : list byte) (action : MessageType)
    (unsanitizedPayload sanitizedPayload encryptedPayload : list byte) (timestamp originatingTimestamp : Time)
    (lease originatingRound : Z) (round : Rnd) (fromAdmin : bool)
| RbRemove (channelID : ID) (action : MessageType) (payload : list byte)
| RbRemoveChannel (channelID : ID)
| RbRestart.
Arguments rbOp : clear implicits.

Section contract.
Context {ID Rnd : Type} `{NetID ID} `{CMixHash}.

Definition rbOut : Type := option (bool * option (commandMessage ID)).

(** Drops a command, and the channel with its last command. *)
Definition dropCommand (A : gmap ID (gmap string (commandMessage ID))) (channelID : ID) (fp : string) :=
  match A !! channelID with
  | Some ms =>
      let ms := delete fp ms in
      if decide (ms = ∅) then delete channelID A else <[channelID := ms]> A
  | None => A
  end.

Definition rbSpec (op : rbOp ID Rnd) (A : gmap ID (gmap string (commandMessage ID))) :
    gmap ID (gmap string (commandMessage ID)) * rbOut :=
  match op with
  | RbVerify ch _ action unsan san _ _ _ _ oround _ _ =>
      let fp := commandKey ch action san in
      let ufp := le_decode (take 8 (newCommandFingerprint ch action unsan)) in
      let ms := default ∅ (A !! ch) in
      let accepted := (<[ch := <[fp := mkCommand ID ch action san oround ufp]> ms]> A, Some (true, None)) in
      match ms !! fp with
      | Some cm =>
          if (oround <=? rc_OriginatingRound cm) && negb (rc_UnsanitizedFP cm =? ufp)
          then (A, Some (false, Some cm))
          else accepted
      | None => accepted
      end
  | RbRemove ch action payload => (dropCommand A ch (commandKey ch action payload), None)
  | RbRemoveChannel ch => (delete ch A, None)
  | RbRestart => (A, None)
  end.

(** The same without maps: the history of what was accepted and what was removed,
    the latest first. *)
Inductive rbEvent :=
| Accepted (cm : commandMessage ID)
| Removed (channelID : ID) (fp : string)
| LeftChannel (channelID : ID).

(** The version of a command accepted last, since the command or its channel was
    removed. *)
Fixpoint lastAccepted (h : list rbEvent) (channelID : ID) (fp : string) : option (commandMessage ID) :=
  match h with
  | [] => None
  | Accepted cm :: h =>
      if decide (rc_ChannelID cm = channelID /\ commandKey (rc_ChannelID cm) (rc_Action cm) (rc_Payload cm) = fp)
      then Some cm else lastAccepted h channelID fp
  | Removed ch fp' :: h => if decide (ch = channelID /\ fp' = fp) then None else lastAccepted h channelID fp
  | LeftChannel ch :: h => if decide (ch = channelID) then None else lastAccepted h channelID fp
  end.

(** Refused: not from a newer round than the version accepted last, and not a
    copy of it. *)
Definition refused (cm old : commandMessage ID) : bool :=
  (rc_OriginatingRound cm <=? rc_OriginatingRound old) && negb (rc_UnsanitizedFP old =? rc_UnsanitizedFP cm).

Definition rbHistory (op : rbOp ID Rnd) (h : list rbEvent) : list rbEvent * rbOut :=
  match op with
  | RbVerify ch _ action unsan san _ _ _ _ oround _ _ =>
      let cm := mkCommand ID ch action san oround (le_decode (take 8 (newCommandFingerprint ch action unsan))) in
      match lastAccepted h ch (commandKey ch action san) with
      | Some old => if refused cm old then (h, Some (false, Some old)) else (Accepted cm :: h, Some (true, None))
      | None => (Accepted cm :: h, Some (true, None))
      end
  | RbRemove ch action payload => (Removed ch (commandKey ch action payload) :: h, None)
  | RbRemoveChannel ch => (LeftChannel ch :: h, None)
  | RbRestart => (h, None)
  end.

Fixpoint rbHistoryRun (ops : list (rbOp ID Rnd)) (h : list rbEvent) : list rbOut :=
  match ops with
  | [] => []
  | op :: ops => let '(h, o) := rbHistory op h in o :: rbHistoryRun ops h
  end.

(** The maps hold what the history ends in. *)
Definition summarises (A : gmap ID (gmap string (commandMessage ID))) (h : list rbEvent) : Prop :=
  forall ch fp, default ∅ (A !! ch) !! fp = lastAccepted h ch fp.

Lemma lookup_dropCommand A ch fp ch' fp' :
  default ∅ (dropCommand A ch fp !! ch') !! fp' =
    if decide (ch = ch' /\ fp = fp') then None else default ∅ (A !! ch') !! fp'.
Proof.
  unfold dropCommand. destruct (A !! ch) as [ms|] eqn:Hch.
  2:{ case_decide as Hc; [|done]. destruct Hc as [-> ->]. by rewrite Hch. }
  destruct (decide (ch = ch')) as [->|Hne].
  - assert (default ∅ ((if decide (delete fp ms = ∅) then delete ch' A else <[ch' := delete fp ms]> A) !! ch') = delete fp ms) as ->.
    { case_decide as He; [by rewrite lookup_delete_eq, He|by rewrite lookup_insert_eq]. }
    rewrite Hch. cbn. destruct (decide (fp = fp')) as [->|Hf].
    + by rewrite lookup_delete_eq, decide_True.
    + rewrite lookup_delete_ne, decide_False by naive_solver. done.
  - rewrite (decide_False (P := ch = ch' /\ _)) by naive_solver. case_decide; [by rewrite lookup_delete_ne|by rewrite lookup_insert_ne].
Qed.

Lemma rbHistory_step op A h : summarises A h ->
  (rbSpec op A).2 = (rbHistory op h).2 /\ summarises (rbSpec op A).1 (rbHistory op h).1.
Proof.
  intros Hs. destruct op as [ch mid action unsan san enc ts ots lease oround round admin|ch action payload|ch|]; cbn [rbSpec rbHistory].
  - rewrite (Hs ch). set (cm := mkCommand _ _ _ _ _ _). set (fp := commandKey ch action san).
    assert (summarises (<[ch := <[fp := cm]> (default ∅ (A !! ch))]> A) (Accepted cm :: h)) as Hacc.
    { intros ch' fp'. cbn [lastAccepted]. change (rc_ChannelID cm) with ch. change (commandKey ch (rc_Action cm) (rc_Payload cm)) with fp.
      destruct (decide (ch = ch')) as [<-|Hne].
      - rewrite lookup_insert_eq. cbn. destruct (decide (fp = fp')) as [<-|Hf].
        + by rewrite lookup_insert_eq, decide_True.
        + rewrite lookup_insert_ne, decide_False by naive_solver. apply Hs.
      - rewrite lookup_insert_ne, decide_False by naive_solver. apply Hs. }
    destruct (lastAccepted h ch fp) as [old|]; [|done]. unfold refused. cbn [rc_OriginatingRound rc_UnsanitizedFP cm].
    by destruct (_ && _).
  - split; [done|]. intros ch' fp'. cbn [fst lastAccepted]. rewrite lookup_dropCommand. by rewrite <- Hs.
  - split; [done|]. intros ch' fp'. cbn [fst lastAccepted]. case_decide as Hc; [subst ch'; by rewrite lookup_delete_eq|].
    rewrite lookup_delete_ne by done. apply Hs.
  - by split.
Qed.

Fixpoint rbSpecRun (ops : list (rbOp ID Rnd)) (A : gmap ID (gmap string (commandMessage ID))) : list rbOut :=
  match ops with
  | [] => []
  | op :: ops => let '(A, o) := rbSpec op A in o :: rbSpecRun ops A
  end.

Lemma rbHistoryRun_spec ops A h : summarises A h -> rbSpecRun ops A = rbHistoryRun ops h.
Proof.
  revert A h. induction ops as [|op ops IH]; intros A h Hs; [done|]. cbn [rbSpecRun rbHistoryRun].
  destruct (rbHistory_step op A h Hs) as [Ho Hs']. destruct (rbSpec op A), (rbHistory op h). cbn [fst snd] in *.
  rewrite Ho. f_equal. by apply IH.
Qed.

(** The machine integers of a command are in range. *)
Definition command_ok (cm : commandMessage ID) : Prop :=
  is_u 16 (rc_Action cm) /\ is_u 64 (rc_OriginatingRound cm) /\ is_u 64 (rc_UnsanitizedFP cm).
Definition rbOp_ok (op : rbOp ID Rnd) : Prop :=
  match op with
  | RbVerify _ _ action _ _ _ _ _ _ oround _ _ => is_u 16 action /\ is_u 64 oround
  | _ => True
  end.
End contract.

(** JSON represents the commands of a channel and lists of channels. *)
Class ReplayJson {ID} `{NetID ID} `{JsonCodec (gmap string (commandMessage ID))} `{JsonCodec (list ID)} : Prop := {
  commands_json (ms : gmap string (commandMessage ID)) : map_Forall (fun _ => command_ok) ms -> json_ok ms;
  channels_json (l : list ID) : json_ok l;
}.

Section proofs.
Context {S ID Rnd : Type} `{EKVLaws S, !EKVReliable S} `{NetIDLaws ID} `{CMixHash}.
Context `{JsonCodec (CommandMessage ID Rnd)} `{JsonCodec (gmap string (commandMessage ID))} `{JsonCodec (list ID)}
        `{!ReplayJson (ID := ID)}.
Context (channelOrder : gmap ID (goMap string (commandMessage ID)) -> list ID) `{!MapOrder channelOrder}
        (commandOrder : gmap string (commandMessage ID) -> list string).
Context (v cs rv : kv) (now : Time).

Definition rbExec (op : rbOp ID Rnd) : act (S * replayBlocker ID) rbOut := fun '(s, rb) =>
  match op with
  | RbVerify ch mid action unsan san enc ts ots lease oround round admin =>
      (r ← verifyReplay channelOrder ch mid action unsan san enc ts ots lease oround round admin now; mret (Some r)) (s, rb)
  | RbRemove ch action payload => (_ ← rb_removeCommand channelOrder ch action payload now; mret None) (s, rb)
  | RbRemoveChannel ch => (_ ← rb_removeChannelCommands channelOrder commandOrder ch now; mret None) (s, rb)
  | RbRestart =>
      match newOrLoadReplayBlocker (rb_store rb) v s with
      | Done st _ => Done st None
      | Fail st e => Fail st e
      | Crash => Crash
      end
  end.

Fixpoint rbRun (ops : list (rbOp ID Rnd)) : act (S * replayBlocker ID) (list rbOut) :=
  match ops with
  | [] => mret []
  | op :: ops => o ← rbExec op; os ← rbRun ops; mret (o :: os)
  end.

Context (Hv : kv_handle v) (Hcs : kv_Prefix v commandStorePrefix = Ok cs)
        (Hrv : kv_Prefix v replayBlockerStoragePrefix = Ok rv).

Implicit Types (A : gmap ID (gmap string (commandMessage ID))) (s : S).

Lemma cs_handle : kv_handle cs. Proof. by eapply handle_prefix. Qed.
Lemma rv_handle : kv_handle rv. Proof. by eapply handle_prefix. Qed.
Lemma rv_cs : prefix rv ≠ prefix cs.
Proof. eapply (siblings_apart v); [exact Hrv|exact Hcs|done|apply below_refl..]. Qed.

Definition rb_of A : replayBlocker ID := mkReplayBlocker _ _ (Some <$> A) cs rv.

(** Storage holds [A]. *)
Record rb_stored s A : Prop := {
  rs_nonempty ch ms : A !! ch = Some ms -> ms ≠ ∅;
  rs_ok ch ms : A !! ch = Some ms -> map_Forall (fun _ => command_ok) ms;
  rs_list : (absent rv s commandChannelListKey /\ A = ∅) \/
    exists o l, kv_Get rv s commandChannelListKey 0 = inr o /\ json_Unmarshal (Data o) = Some l /\
      forall ch, ch ∈ l <-> is_Some (A !! ch);
  rs_messages ch ms : A !! ch = Some ms ->
    exists o, kv_Get rv s (makeChannelCommandMessagesKey ch) 0 = inr o /\ json_Unmarshal (Data o) = Some ms;
}.

Lemma id_Bytes_inj (a b : ID) : id_Bytes a = id_Bytes b -> a = b.
Proof. intros Heq. rewrite <- (id_Unmarshal_Bytes a), Heq. apply id_Unmarshal_Bytes. Qed.

Lemma messagesKey_inj (a b : ID) : makeChannelCommandMessagesKey a = makeChannelCommandMessagesKey b -> a = b.
Proof. intros Heq%hexEncode_inj. by apply id_Bytes_inj. Qed.

Lemma messagesKey_list (a : ID) : makeChannelCommandMessagesKey a ≠ commandChannelListKey.
Proof.
  intros Heq. apply (f_equal chars) in Heq.
  assert ("h"%char ∈ chars commandChannelListKey) as Hin by (right; left). rewrite <- Heq in Hin.
  apply hexEncode_chars in Hin. revert Hin. by apply (bool_decide_unpack (¬ ("h"%char ∈ chars "0123456789abcdef"))).
Qed.

(** Handles other than those of the replay blocker and of the command store
    read the same. *)
Definition rbKept s s' : Prop :=
  forall u key, kv_handle u -> prefix u ≠ prefix rv -> prefix u ≠ prefix cs -> strContains PrefixSeparator key = false ->
    kv_Get u s' key 0 = kv_Get u s key 0.

Lemma rbKept_refl s : rbKept s s.
Proof. by intros u key. Qed.
Lemma rbKept_trans s1 s2 s3 : rbKept s1 s2 -> rbKept s2 s3 -> rbKept s1 s3.
Proof. intros H12 H23 u key Hu Hr Hc Hk. by rewrite H23, H12. Qed.
Lemma rbKept_rv key s s' : changesOnly rv key s s' -> rbKept s s'.
Proof. intros Hch u k Hu Hr Hc Hk. apply Hch; [done..|]. by intros [= ? _]. Qed.
Lemma rbKept_cs key s s' : changesOnly cs key s s' -> rbKept s s'.
Proof. intros Hch u k Hu Hr Hc Hk. apply Hch; [done..|]. by intros [= ? _]. Qed.

(** Writes to the command store leave it alone. *)
Lemma rb_stored_frame s s' A :
  (forall key, strContains PrefixSeparator key = false -> kv_Get rv s' key 0 = kv_Get rv s key 0) ->
  rb_stored s A -> rb_stored s' A.
Proof.
  intros Hfr [Hne Hok Hl Hms]. assert (forall ch : ID, strContains PrefixSeparator (makeChannelCommandMessagesKey ch) = false) as Hk by (intros; apply hexEncode_no_sep).
  split; [done|done| |].
  - destruct Hl as [[(e & He & Hex) ->]|(o & l & Hg & Hl)]; [left; split; [|done]; exists e|right; exists o, l]; by rewrite Hfr.
  - intros ch ms Hch. rewrite Hfr by done. by apply Hms.
Qed.

Lemma rb_stored_cs s s' A key : changesOnly cs key s s' -> rb_stored s A -> rb_stored s' A.
Proof.
  intros Hch. apply rb_stored_frame. intros key' Hk. apply Hch; [apply rv_handle|done|].
  intros [= Heq _]. by apply rv_cs.
Qed.

Lemma rb_commands_of A ch : rb_commands (rb_of A) ch = default ∅ (A !! ch).
Proof. unfold rb_commands. simpl. rewrite lookup_fmap. by destruct (A !! ch). Qed.

Lemma storeChannels_ok s A :
  exists s', rb_storeCommandChannelsList channelOrder now (s, rb_of A) = Done (s', rb_of A) tt /\
    changesOnly rv commandChannelListKey s s' /\
    exists o l, kv_Get rv s' commandChannelListKey 0 = inr o /\ json_Unmarshal (Data o) = Some l /\
      forall ch, ch ∈ l <-> is_Some (A !! ch).
Proof.
  destruct (set_step rv s commandChannelListKey now (json_Marshal (channelOrder (Some <$> A))) rv_handle eq_refl) as (s' & Hset & Hget & Hch).
  exists s'. split; [unfold rb_storeCommandChannelsList; cbn [rb_of rb_kv rb_commandsByChannel]; by apply onStore_Done|].
  split; [done|]. eexists _, _. split; [done|]. split; [by apply json_roundtrip, channels_json|].
  intros ch. rewrite map_order_elem, lookup_fmap. by rewrite fmap_is_Some.
Qed.

Lemma deleteMessages_ok s A ch :
  exists s', rb_deleteCommandMessages ch (s, rb_of A) = Done (s', rb_of A) tt /\
    changesOnly rv (makeChannelCommandMessagesKey ch) s s'.
Proof.
  destruct (delete_step rv s (makeChannelCommandMessagesKey ch) rv_handle (hexEncode_no_sep _)) as (s' & Hd & _ & Hch).
  exists s'. split; [|done]. unfold rb_deleteCommandMessages. cbn [rb_of rb_kv]. by apply onStore_Done.
Qed.

Lemma storeMessages_ok s A ch :
  (forall ms, A !! ch = Some ms -> ms ≠ ∅ /\ map_Forall (fun _ => command_ok) ms) ->
  exists s', rb_storeCommandMessages ch now (s, rb_of A) = Done (s', rb_of A) tt /\
    changesOnly rv (makeChannelCommandMessagesKey ch) s s' /\
    forall ms, A !! ch = Some ms ->
      exists o, kv_Get rv s' (makeChannelCommandMessagesKey ch) 0 = inr o /\ json_Unmarshal (Data o) = Some ms.
Proof.
  intros Hok. unfold rb_storeCommandMessages. rewrite rb_commands_of.
  destruct (A !! ch) as [ms|] eqn:Hch; cbn [default from_option id].
  - destruct (Hok ms eq_refl) as [Hne Hms].
    rewrite (proj2 (Nat.eqb_neq _ _)) by (intros Hz; by apply Hne, map_size_empty_iff).
    destruct (set_step rv s (makeChannelCommandMessagesKey ch) now (json_Marshal ms) rv_handle (hexEncode_no_sep _)) as (s' & Hset & Hget & Hfr).
    exists s'. split; [cbn [rb_of rb_kv]; by apply onStore_Done|]. split; [done|]. intros ? [= <-].
    eexists. split; [done|]. by apply json_roundtrip, commands_json.
  - rewrite map_size_empty. cbn [Nat.eqb]. destruct (deleteMessages_ok s A ch) as (s' & Hd & Hfr).
    exists s'. by split_and!.
Qed.

(** Storing a change of one channel. *)
Lemma rb_updateStorage_ok s A A' ch upd :
  rb_stored s A -> (forall ch', ch' ≠ ch -> A' !! ch' = A !! ch') ->
  (forall ms, A' !! ch = Some ms -> ms ≠ ∅ /\ map_Forall (fun _ => command_ok) ms) ->
  (upd = false -> is_Some (A !! ch) /\ is_Some (A' !! ch)) ->
  exists s', rb_updateStorage channelOrder ch upd now (s, rb_of A') = Done (s', rb_of A') tt /\ rb_stored s' A' /\ rbKept s s'.
Proof.
  intros [Hne Hok Hl Hms] Heq Hnew Hupd.
  destruct (storeMessages_ok s A' ch Hnew) as (s1 & Hrun & Hfr & Hget).
  assert (forall ch' ms, A' !! ch' = Some ms ->
    exists o, kv_Get rv s1 (makeChannelCommandMessagesKey ch') 0 = inr o /\ json_Unmarshal (Data o) = Some ms) as Hms1.
  { intros ch' ms Hch'. destruct (decide (ch' = ch)) as [->|Hn]; [by apply Hget|].
    rewrite Hfr; [apply Hms; by rewrite <- Heq|apply rv_handle|apply hexEncode_no_sep|].
    intros [= Hk]. by apply Hn, messagesKey_inj. }
  assert (forall ch' ms, A' !! ch' = Some ms -> ms ≠ ∅ /\ map_Forall (fun _ => command_ok) ms) as Hall.
  { intros ch' ms Hch'. destruct (decide (ch' = ch)) as [->|Hn]; [by apply Hnew|]. rewrite Heq in Hch' by done. eauto. }
  unfold rb_updateStorage. erewrite bind_Done by (apply annotate_Done; exact Hrun). destruct upd.
  - destruct (storeChannels_ok s1 A') as (s2 & Hrun2 & Hfr2 & Hlist). exists s2. split; [by apply annotate_Done|].
    split; [|eapply rbKept_trans; by eapply rbKept_rv]. split; [naive_solver|naive_solver|by right|]. intros ch' ms Hch'.
    rewrite Hfr2; [by apply Hms1|apply rv_handle|apply hexEncode_no_sep|]. intros [= Hk]. by apply (messagesKey_list ch').
  - exists s1. split; [done|]. split; [|by eapply rbKept_rv]. split; [naive_solver|naive_solver| |done]. destruct (Hupd eq_refl) as [[x Hx] Hx'].
    destruct Hl as [[_ ->]|(o & l & Hg & Hj & Hl)]; [by rewrite lookup_empty in Hx|]. right. exists o, l.
    split; [rewrite Hfr; [done|apply rv_handle|done|intros [= Hk]; by apply (messagesKey_list ch)]|]. split; [done|].
    intros ch'. rewrite Hl. destruct (decide (ch' = ch)) as [->|Hn]; [|by rewrite Heq]. split; [done|by exists x].
Qed.

Lemma rb_set_of A A' m : m = Some <$> A' -> rb_setCommands (rb_of A) m = rb_of A'.
Proof. by intros ->. Qed.

Lemma ufp_range (fp : list byte) : length fp = commandFpLen -> is_u 64 (le_decode (take 8 fp)).
Proof.
  intros Hfp. pose proof (le_decode_range (take 8 fp)) as Hr. rewrite length_take, Hfp in Hr. exact Hr.
Qed.

Lemma verify_refines ch mid action unsan san enc ts ots lease oround (round : Rnd) admin s A :
  let op := RbVerify ch mid action unsan san enc ts ots lease oround round admin in
  rbOp_ok op -> rb_stored s A ->
  exists s' r, verifyReplay channelOrder ch mid action unsan san enc ts ots lease oround round admin now (s, rb_of A) =
      Done (s', rb_of (rbSpec op A).1) r /\ (rbSpec op A).2 = Some r /\ rb_stored s' (rbSpec op A).1 /\ rbKept s s'.
Proof.
  intros op [Ha Ho] Hst. subst op. unfold verifyReplay. cbn [rbSpec rb_of rb_commandsByChannel rb_store rc_OriginatingRound rc_UnsanitizedFP].
  set (fp := commandKey ch action san). set (ufp := le_decode _). set (cm' := mkCommand _ _ _ _ _ _).
  assert (command_ok cm') as Hok by (split_and!; [done..|]; apply ufp_range, length_array_of).
  assert (forall ms upd A', A' = <[ch := <[fp := cm']> ms]> A -> map_Forall (fun _ => command_ok) ms ->
    (upd = false -> is_Some (A !! ch)) ->
    exists s', (_ ← annotate "failed to save command message" []
           (onStore (SaveCommand cs ch mid action "" san enc [] 0 ts ots lease oround round 0 admin false now));
     _ ← rb_updateStorage channelOrder ch upd now;
     mret (true, None)) (s, rb_of A') = Done (s', rb_of A') (true, @None (commandMessage ID)) /\ rb_stored s' A' /\ rbKept s s') as Hacc.
  { intros ms upd A' -> Hms Hupd.
    destruct (SaveCommand_ok cs s ch mid action "" san enc [] 0 ts ots lease oround round 0 admin false now cs_handle) as (s1 & Hrun & _ & Hfr).
    destruct (rb_updateStorage_ok s1 A (<[ch := <[fp := cm']> ms]> A) ch upd) as (s2 & Hrun2 & Hst2 & Hk2).
    - by eapply rb_stored_cs.
    - intros ch' Hn. by rewrite lookup_insert_ne by done.
    - intros ms'. rewrite lookup_insert_eq. intros [= <-]. split; [apply insert_non_empty|]. by apply map_Forall_insert_2.
    - intros Hu. rewrite lookup_insert_eq. split; [by apply Hupd|done].
    - exists s2. split; [|split; [done|eapply rbKept_trans; [by eapply rbKept_cs|done]]]. erewrite bind_Done by (apply annotate_Done, onStore_Done; exact Hrun).
      erewrite bind_Done by exact Hrun2. done. }
  rewrite lookup_fmap. destruct (A !! ch) as [ms|] eqn:Hch; cbn [fmap option_fmap option_map default from_option id goEntries].
  - assert (map_Forall (fun _ => command_ok) ms) as Hms by (by eapply rs_ok).
    destruct (Hacc ms false _ eq_refl Hms) as (s' & Hrun & Hst'); [by exists ms|].
    assert (rb_setCommands (rb_of A) (<[ch := Some (<[fp := cm']> ms)]> (Some <$> A)) = rb_of (<[ch := <[fp := cm']> ms]> A)) as Hset
      by (apply rb_set_of; by rewrite fmap_insert).
    destruct (ms !! fp) as [cm|] eqn:Hfp.
    + rewrite Z.geb_leb. destruct ((oround <=? rc_OriginatingRound cm) && negb (rc_UnsanitizedFP cm =? ufp)); [by exists s, (false, Some cm); split_and!; [..|apply rbKept_refl]|].
      exists s', (true, None). split; [|done]. cbn [fst]. rewrite <- Hset in Hrun |- *. exact Hrun.
    + exists s', (true, None). split; [|done]. cbn [fst]. rewrite <- Hset in Hrun |- *. exact Hrun.
  - rewrite lookup_empty. destruct (Hacc ∅ true _ eq_refl) as (s' & Hrun & Hst'); [apply map_Forall_empty|done|].
    exists s', (true, None). split; [|done]. cbn [fst].
    assert (rb_setCommands (rb_of A) (<[ch := Some {[fp := cm']}]> (Some <$> A)) = rb_of (<[ch := <[fp := cm']> ∅]> A)) as Hset
      by (apply rb_set_of; by rewrite fmap_insert, insert_empty).
    rewrite <- Hset in Hrun |- *. exact Hrun.
Qed.

Lemma remove_refines ch action payload s A :
  rb_stored s A ->
  let A' := dropCommand A ch (commandKey ch action payload) in
  exists s', rb_removeCommand channelOrder ch action payload now (s, rb_of A) = Done (s', rb_of A') tt /\ rb_stored s' A' /\ rbKept s s'.
Proof.
  intros Hst. unfold rb_removeCommand, dropCommand. cbn [rb_of rb_commandsByChannel]. rewrite lookup_fmap.
  set (fp := commandKey _ _ _). destruct (A !! ch) as [ms|] eqn:Hch; cbn [fmap option_fmap option_map]; [|by exists s; split_and!; [..|apply rbKept_refl]].
  destruct (ms !! fp) as [cm|] eqn:Hfp.
  - destruct (decide (delete fp ms = ∅)) as [He|Hne].
    + rewrite He, map_size_empty. cbn [Nat.eqb]. rewrite (rb_set_of A (delete ch A)) by (by rewrite fmap_delete).
      apply (rb_updateStorage_ok s A); [done| | |done]; intros *; [intros; by rewrite lookup_delete_ne|by rewrite lookup_delete_eq].
    + rewrite (proj2 (Nat.eqb_neq _ _)) by (intros Hz; by apply Hne, map_size_empty_iff).
      rewrite (rb_set_of A (<[ch := delete fp ms]> A)) by (by rewrite fmap_insert).
      apply (rb_updateStorage_ok s A); [done| | |]; [intros; by rewrite lookup_insert_ne| |].
      * intros ms'. rewrite lookup_insert_eq. intros [= <-]. split; [done|]. by eapply map_Forall_delete, rs_ok.
      * intros _. rewrite lookup_insert_eq. split; [by exists ms|done].
  - rewrite delete_id by done. rewrite decide_False by (by eapply rs_nonempty). rewrite insert_id by done. exists s. split_and!; [done..|apply rbKept_refl].
Qed.

Lemma deleteCommands_ok (cms : list (commandMessage ID)) s :
  exists s', deleteCommands cs cms s = Done s' tt /\
    forall u key, kv_handle u -> prefix u ≠ prefix cs -> strContains PrefixSeparator key = false -> kv_Get u s' key 0 = kv_Get u s key 0.
Proof.
  revert s. induction cms as [|cm cms IH]; intros s; [by exists s|].
  destruct (DeleteCommand_ok cs s (rc_ChannelID cm) (rc_Action cm) (rc_Payload cm) cs_handle) as (s1 & Hrun & _ & Hfr).
  destruct (IH s1) as (s2 & Hrun2 & Hfr2). exists s2. split.
  - cbn [deleteCommands]. erewrite bind_Done by (apply logged_Done; exact Hrun). done.
  - intros u key Hu Hp Hk. rewrite Hfr2 by done. apply Hfr; [done..|]. by intros [= ? _].
Qed.

Lemma removeChannel_refines ch s A :
  rb_stored s A ->
  exists s', rb_removeChannelCommands channelOrder commandOrder ch now (s, rb_of A) = Done (s', rb_of (delete ch A)) tt /\
    rb_stored s' (delete ch A) /\ rbKept s s'.
Proof.
  intros Hst. unfold rb_removeChannelCommands. cbn [rb_of rb_commandsByChannel rb_store]. rewrite lookup_fmap.
  destruct (A !! ch) as [ms|] eqn:Hch; cbn [fmap option_fmap option_map]; [|rewrite delete_id by done; by exists s; split_and!; [..|apply rbKept_refl]].
  set (cms := omap _ _). destruct (deleteCommands_ok cms s) as (s1 & Hrun1 & Hfr1).
  assert (rb_stored s1 A) as Hst1 by (apply (rb_stored_frame s); [intros; apply Hfr1; [apply rv_handle|apply rv_cs|done]|done]).
  destruct (storeChannels_ok s1 (delete ch A)) as (s2 & Hrun2 & Hfr2 & o & l & Hg & Hj & Hl).
  destruct (deleteMessages_ok s2 (delete ch A) ch) as (s3 & Hrun3 & Hfr3).
  exists s3. split.
  - erewrite bind_Done by (apply onStore_Done; exact Hrun1). erewrite bind_Done by reflexivity.
    rewrite (rb_set_of A (delete ch A)) by (by rewrite fmap_delete). erewrite bind_Done by exact Hrun2. exact Hrun3.
  - split; [|eapply (rbKept_trans _ s1); [by intros ? ? ? ? ?; apply Hfr1|eapply rbKept_trans; by eapply rbKept_rv]].
    destruct Hst1 as [Hne Hok _ Hms]. split.
    + intros ch' ms'. rewrite lookup_delete_Some. intros [_ ?]. by eapply Hne.
    + intros ch' ms'. rewrite lookup_delete_Some. intros [_ ?]. by eapply Hok.
    + right. exists o, l. split; [|done]. rewrite Hfr3; [done|apply rv_handle|done|]. intros [= Hk]. by apply (messagesKey_list ch).
    + intros ch' ms'. rewrite lookup_delete_Some. intros [Hn Hch'].
      rewrite Hfr3; [|apply rv_handle|apply hexEncode_no_sep|intros [= Hk]; by apply Hn, messagesKey_inj].
      rewrite Hfr2; [by apply Hms|apply rv_handle|apply hexEncode_no_sep|]. intros [= Hk]. by apply (messagesKey_list ch').
Qed.

Lemma rb_loadLoop_ok l s A B :
  rb_stored s A -> (forall ch, ch ∈ l -> is_Some (A !! ch)) ->
  exists B', rb_loadLoop l (s, rb_of B) = Done (s, rb_of B') tt /\
    forall ch, B' !! ch = if decide (ch ∈ l) then A !! ch else B !! ch.
Proof.
  intros Hst. revert B. induction l as [|ch l IH]; intros B Hl; [by exists B|].
  destruct (Hl ch) as [ms Hch]; [left|]. destruct (rs_messages s A Hst ch ms Hch) as (o & Hg & Hj).
  destruct (IH (<[ch := ms]> B)) as (B' & Hrun & HB'); [intros ch' Hin; apply Hl; by right|].
  exists B'. split.
  - cbn [rb_loadLoop]. unfold rb_loadCommandMessages. cbn [rb_of rb_kv rb_commandsByChannel].
    erewrite bind_Done by (apply read_Done; exact Hg). rewrite Hj. unfold mret, act_ret.
    rewrite (rb_set_of B (<[ch := ms]> B)) by (by rewrite fmap_insert). done.
  - intros ch'. rewrite HB'. destruct (decide (ch' = ch)) as [->|Hn].
    + rewrite lookup_insert_eq, (decide_True (P := ch ∈ ch :: l)) by left. by case_decide.
    + rewrite lookup_insert_ne by done. destruct (decide (ch' ∈ l)); [by rewrite decide_True by (by right)|].
      rewrite decide_False; [done|]. by rewrite not_elem_of_cons.
Qed.

Lemma rb_load_ok s A : rb_stored s A -> rb_loadIfPresent (s, rb_of ∅) = Done (s, rb_of A) tt.
Proof.
  intros Hst. unfold rb_loadIfPresent, rb_load, rb_loadCommandChannelsList. cbn [rb_of rb_kv].
  destruct (rs_list s A Hst) as [[(e & He & Hex) ->]|(o & l & Hg & Hj & Hl)].
  - rewrite (bind_Fail _ _ _ (s, rb_of ∅) (Wrapf "could not load list of channels" [] e)).
    { by rewrite ekv_exists_wrap, Hex. }
    apply annotate_Fail. unfold onStore, zoom. cbn [fst]. rewrite (bind_Fail _ _ _ s e); [done|]. unfold read, commandChannelListVer. by rewrite He.
  - destruct (rb_loadLoop_ok l s A ∅ Hst) as (B' & Hrun & HB'); [intros ch; apply Hl|].
    assert (B' = A) as ->.
    { apply map_eq. intros ch. rewrite HB'. case_decide as Hin; [done|]. rewrite lookup_empty.
      destruct (A !! ch) as [ms|] eqn:Hch; [|done]. destruct Hin. apply Hl. by exists ms. }
    erewrite bind_Done; [by rewrite Hrun|]. apply annotate_Done, onStore_Done.
    erewrite bind_Done by (apply read_Done; exact Hg). by rewrite Hj.
Qed.

Lemma rbExec_step op s A :
  rbOp_ok op -> rb_stored s A ->
  exists s', rbExec op (s, rb_of A) = Done (s', rb_of (rbSpec op A).1) (rbSpec op A).2 /\ rb_stored s' (rbSpec op A).1.
Proof.
  intros Hop Hst. destruct op as [ch mid action unsan san enc ts ots lease oround round admin|ch action payload|ch|].
  - destruct (verify_refines ch mid action unsan san enc ts ots lease oround round admin s A Hop Hst) as (s' & r & Hrun & Hr & Hst' & _).
    exists s'. split; [|done]. cbn [rbExec]. erewrite bind_Done by exact Hrun. rewrite Hr. done.
  - destruct (remove_refines ch action payload s A Hst) as (s' & Hrun & Hst' & _). exists s'. split; [|done].
    cbn [rbExec]. by erewrite bind_Done by exact Hrun.
  - destruct (removeChannel_refines ch s A Hst) as (s' & Hrun & Hst' & _). exists s'. split; [|done].
    cbn [rbExec]. by erewrite bind_Done by exact Hrun.
  - exists s. split; [|done]. cbn [rbExec]. unfold newOrLoadReplayBlocker, newReplayBlocker. cbn [rb_of rb_store].
    rewrite Hrv. cbn [must mbind result_bind]. replace (mkReplayBlocker _ _ ∅ cs rv) with (rb_of ∅) by (unfold rb_of; by rewrite fmap_empty).
    by rewrite (rb_load_ok s A Hst).
Qed.

Lemma rbRun_steps ops s A :
  Forall rbOp_ok ops -> rb_stored s A ->
  exists st, rbRun ops (s, rb_of A) = Done st (rbSpecRun ops A).
Proof.
  intros Hops. revert s A. induction Hops as [|op ops Hop _ IH]; intros s A Hst; [by exists (s, rb_of A)|].
  destruct (rbExec_step op s A Hop Hst) as (s' & Hrun & Hst'). destruct (IH s' _ Hst') as (st & Hrun').
  exists st. cbn [rbRun rbSpecRun]. erewrite bind_Done by exact Hrun. erewrite bind_Done by exact Hrun'.
  by destruct (rbSpec op A).
Qed.

(** C16: The replay blocker answers every sequence of checks, removals of commands
    and channels, and restarts as its history does: a version of a command that
    is not from a newer round than the version accepted last since the command
    was removed, and is not a copy of it, is refused and that one is replayed;
    every other version is accepted and becomes the last one; a restart changes
    nothing.  The version kept need not be the newest: a copy of it from an older
    round is accepted and takes its place. *)
Theorem ReplayBlocker_refines s ops :
  absent rv s commandChannelListKey -> Forall rbOp_ok ops ->
  exists st, newOrLoadReplayBlocker cs v s = Done (s, rb_of ∅) tt /\ rbRun ops (s, rb_of ∅) = Done st (rbHistoryRun ops []).
Proof.
  intros Habs Hops. assert (rb_stored s ∅) as Hst by (by split; [..|left|]; intros *; rewrite ?lookup_empty).
  destruct (rbRun_steps ops s ∅ Hops Hst) as [st Hrun]. exists st.
  rewrite <- (rbHistoryRun_spec ops ∅ []) by (intros ch fp; by rewrite lookup_empty). split; [|done].
  unfold newOrLoadReplayBlocker, newReplayBlocker. rewrite Hrv. cbn [must mbind result_bind].
  replace (mkReplayBlocker _ _ ∅ cs rv) with (rb_of ∅) by (unfold rb_of; by rewrite fmap_empty).
  by apply rb_load_ok.
Qed.

(** A version equal to the one kept is accepted from any round and lowers the
    round kept: after it a version is accepted that is older than one accepted
    before, and that would have been refused then. *)
Theorem replay_lowers_round s ch mid action san x y enc ts ots lease hi mid_ lo (round : Rnd) admin :
  absent rv s commandChannelListKey -> is_u 16 action -> is_u 64 hi -> is_u 64 mid_ -> is_u 64 lo ->
  lo < mid_ -> mid_ <= hi ->
  take 8 (newCommandFingerprint ch action x) ≠ take 8 (newCommandFingerprint ch action y) ->
  let send p r := RbVerify ch mid action p san enc ts ots lease r round admin in
  exists st1 st2,
    rbRun [send x hi; send y mid_] (s, rb_of ∅) = Done st1 [Some (true, None);
      Some (false, Some (mkCommand ID ch action san hi (le_decode (take 8 (newCommandFingerprint ch action x)))))] /\
    rbRun [send x hi; send x lo; send y mid_] (s, rb_of ∅) = Done st2 [Some (true, None); Some (true, None); Some (true, None)].
Proof.
  intros Habs Ha Hhi Hmid Hlo Hlt Hle Hne send.
  assert (rb_stored s ∅) as Hst by (by split; [..|left|]; intros *; rewrite ?lookup_empty).
  assert (le_decode (take 8 (newCommandFingerprint ch action x)) ≠ le_decode (take 8 (newCommandFingerprint ch action y))) as Hfp.
  { intros Heq. apply Hne. rewrite <- (le_encode_decode (take 8 (newCommandFingerprint ch action x))), Heq.
    rewrite <- (le_encode_decode (take 8 (newCommandFingerprint ch action y))) at 2. f_equal.
    rewrite !length_take. unfold newCommandFingerprint. by rewrite !length_array_of. }
  destruct (rbRun_steps [send x hi; send y mid_] s ∅) as [st1 Hr1]; [repeat (apply List.Forall_cons; [by split|]); apply List.Forall_nil|done|].
  destruct (rbRun_steps [send x hi; send x lo; send y mid_] s ∅) as [st2 Hr2]; [repeat (apply List.Forall_cons; [by split|]); apply List.Forall_nil|done|].
  exists st1, st2. rewrite Hr1, Hr2. subst send. unfold rbSpecRun, rbSpec. split.
  - rewrite lookup_empty. cbn [default from_option id]. rewrite lookup_empty, lookup_insert_eq. cbn [default from_option id].
    rewrite lookup_insert_eq. cbn [rc_OriginatingRound rc_UnsanitizedFP].
    rewrite (proj2 (Z.leb_le _ _)), (proj2 (Z.eqb_neq _ _)) by done. done.
  - rewrite lookup_empty. cbn [default from_option id]. rewrite lookup_empty, lookup_insert_eq. cbn [default from_option id].
    rewrite lookup_insert_eq. cbn [rc_OriginatingRound rc_UnsanitizedFP]. rewrite Z.eqb_refl, andb_false_r.
    rewrite lookup_insert_eq. cbn [default from_option id].
    rewrite lookup_insert_eq. cbn [rc_OriginatingRound rc_UnsanitizedFP]. rewrite (proj2 (Z.leb_gt _ _)) by done. done.
Qed.

(** The loop of [load] stops at a channel without stored commands. *)
Lemma rb_loadLoop_stops l s A B ch :
  (forall ch' ms, ch' ≠ ch -> A !! ch' = Some ms ->
    exists o, kv_Get rv s (makeChannelCommandMessagesKey ch') 0 = inr o /\ json_Unmarshal (Data o) = Some ms) ->
  absent rv s (makeChannelCommandMessagesKey ch) -> ch ∈ l -> (forall ch', ch' ∈ l -> is_Some (A !! ch')) ->
  exists rb e, rb_loadLoop l (s, rb_of B) = Fail (s, rb) e /\ ekv_Exists S e = false /\
    rb_commandsByChannel rb !! ch = Some None.
Proof.
  intros Hst (e & He & Hex). revert B. induction l as [|c l IH]; intros B Hin Hl; [by apply not_elem_of_nil in Hin|].
  cbn [rb_loadLoop]. unfold rb_loadCommandMessages at 1. cbn [rb_of rb_kv rb_commandsByChannel].
  destruct (decide (c = ch)) as [->|Hn].
  - unfold mbind at 1, act_bind at 1, read at 1, channelCommandMessagesVer. rewrite He. eexists _, _. split; [done|].
    split; [by rewrite ekv_exists_wrap|]. cbn [rb_setCommands rb_commandsByChannel]. by rewrite lookup_insert_eq.
  - destruct (Hl c) as [ms Hc]; [left|]. destruct (Hst c ms Hn Hc) as (o & Hg & Hj).
    erewrite bind_Done by (apply read_Done; exact Hg). rewrite Hj. unfold mret, act_ret.
    rewrite (rb_set_of B (<[c := ms]> B)) by (by rewrite fmap_insert).
    apply IH; [|intros ch' Hin'; apply Hl; by right]. apply elem_of_cons in Hin as [->|Hin]; [done|done].
Qed.

(** Removing the last command of a channel deletes the channel's stored commands
    and then stores the list of channels.  When the program stops between the
    two, the next start passes over the missing commands without an error, and
    then the first command for the channel makes the program panic. *)
Theorem interrupted_removal_panics s A ch :
  rb_stored s A -> is_Some (A !! ch) ->
  exists s' rb, rb_storeCommandMessages ch now (s, rb_of (delete ch A)) = Done (s', rb_of (delete ch A)) tt /\
    newOrLoadReplayBlocker cs v s' = Done (s', rb) tt /\
    forall mid action unsan san enc ts ots lease oround (round : Rnd) admin,
      verifyReplay channelOrder ch mid action unsan san enc ts ots lease oround round admin now (s', rb) = Crash.
Proof.
  intros Hst Hch. unfold rb_storeCommandMessages. rewrite rb_commands_of, lookup_delete_eq.
  cbn [default from_option id]. rewrite map_size_empty. cbn [Nat.eqb].
  destruct (delete_step rv s (makeChannelCommandMessagesKey ch) rv_handle (hexEncode_no_sep _)) as (s' & Hd & Habs & Hfr).
  destruct (rs_list s A Hst) as [[_ ->]|(o & l & Hg & Hj & Hl)]; [rewrite lookup_empty in Hch; by destruct Hch|].
  destruct (rb_loadLoop_stops l s' A ∅ ch) as (rb & e & Hload & Hex & Hnil); [|done|by apply Hl|intros; by apply Hl|].
  { intros ch' ms Hn Hms. rewrite Hfr; [by eapply rs_messages|apply rv_handle|apply hexEncode_no_sep|].
    intros [= Hk]. by apply Hn, messagesKey_inj. }
  exists s', rb. split; [unfold rb_deleteCommandMessages; cbn [rb_of rb_kv]; by apply onStore_Done|]. split.
  - unfold newOrLoadReplayBlocker, newReplayBlocker. rewrite Hrv. cbn [must mbind result_bind].
    replace (mkReplayBlocker _ _ ∅ cs rv) with (rb_of ∅) by (unfold rb_of; by rewrite fmap_empty).
    unfold rb_loadIfPresent, rb_load, rb_loadCommandChannelsList. cbn [rb_of rb_kv].
    erewrite bind_Done; [by rewrite Hload, Hex|]. apply annotate_Done, onStore_Done.
    erewrite bind_Done; [by rewrite Hj|]. apply read_Done. rewrite <- Hg. apply Hfr; [apply rv_handle|done|].
    intros [= Hk]. by apply (messagesKey_list ch).
  - intros. unfold verifyReplay. rewrite Hnil. cbn [goEntries default from_option]. by rewrite lookup_empty.
Qed.
End proofs.

(** ** Examples *)

#[export] Instance commandMessage_eq_dec {ID} `{EqDecision ID} : EqDecision (commandMessage ID).
Proof. solve_decision. Defined.
#[export] Instance commandMessage_countable {ID} `{Countable ID} : Countable (commandMessage ID).
Proof.
  apply (inj_countable' (fun m => (rc_ChannelID m, rc_Action m, rc_Payload m, rc_OriginatingRound m, rc_UnsanitizedFP m))
    (fun '(a, b, c, d, e) => mkCommand ID a b c d e)). by intros [].
Defined.

Section example.
#[local] Instance ex_hash : CMixHash := fun b => b.
#[local] Instance ex_command_codec : JsonCodec (CommandMessage Z Z) := countableCodec _.
#[local] Instance ex_commands_codec : JsonCodec (gmap string (commandMessage Z)) := countableCodec _.
#[local] Instance ex_channels_codec : JsonCodec (list Z) := countableCodec _.
#[local] Instance ex_replay_json : ReplayJson (ID := Z).
Proof. by split. Qed.

Definition ex_cs : kv := mkKV ("channelCommandStore" +:+ String PrefixSeparator "") {["channelCommandStore" := 1]} 1.
Definition ex_rv : kv := mkKV ("channelReplayBlocker" +:+ String PrefixSeparator "") {["channelReplayBlocker" := 1]} 1.

Lemma ex_absent : absent (S := MemStore) ex_rv ∅ commandChannelListKey.
Proof. by exists errNotFound. Qed.

(** A pin from round 20 is followed by another version of it from round 15, by a
    copy of itself from round 10, and by the other version again. *)
Definition ex_rbOps : list (rbOp Z Z) :=
  [RbVerify 7 [] 102 [x01] [x02] [] 0 0 0 20 0 true; RbVerify 7 [] 102 [x03] [x02] [] 0 0 0 15 0 true; RbRestart;
   RbVerify 7 [] 102 [x01] [x02] [] 0 0 0 10 0 true; RbVerify 7 [] 102 [x03] [x02] [] 0 0 0 15 0 true;
   RbRemove 7 102 [x02]; RbRemoveChannel 7].

Lemma ReplayBlocker_refines_witness :
  exists st, newOrLoadReplayBlocker (S := MemStore) ex_cs NewKV ∅ = Done (∅, rb_of ex_cs ex_rv ∅) tt /\
    rbRun (S := MemStore) keysInOrder keysInOrder NewKV 0 ex_rbOps (∅, rb_of ex_cs ex_rv ∅) = Done st (rbHistoryRun ex_rbOps []) /\
    map (option_map fst) (rbHistoryRun ex_rbOps []) = [Some true; Some false; None; Some true; Some true; None; None].
Proof.
  destruct (ReplayBlocker_refines keysInOrder keysInOrder NewKV ex_cs ex_rv 0 handle_new eq_refl eq_refl (∅ : MemStore) ex_rbOps ex_absent)
    as (st & Hnew & Hrun); [repeat (apply List.Forall_cons; [done|]); apply List.Forall_nil|].
  exists st. split; [exact Hnew|]. split; [exact Hrun|]. vm_refl.
Defined.

Lemma replay_lowers_round_witness :
  let send p r := RbVerify 7 [] 102 p [x02] [] 0 0 0 r 0 true in
  exists st1 st2 cm,
    rbRun (S := MemStore) keysInOrder keysInOrder NewKV 0 [send [x01] 20; send [x03] 15] (∅, rb_of ex_cs ex_rv ∅) =
      Done st1 [Some (true, None); Some (false, Some cm)] /\
    rbRun (S := MemStore) keysInOrder keysInOrder NewKV 0 [send [x01] 20; send [x01] 10; send [x03] 15] (∅, rb_of ex_cs ex_rv ∅) =
      Done st2 [Some (true, None); Some (true, None); Some (true, None)].
Proof.
  intros send.
  destruct (replay_lowers_round (S := MemStore) keysInOrder keysInOrder NewKV ex_cs ex_rv 0 handle_new eq_refl eq_refl ∅ 7 [] 102 [x02] [x01] [x03] []
    0 0 0 20 15 10 0 true ex_absent) as (st1 & st2 & Hr1 & Hr2); [done..|by apply (bool_decide_unpack (_ ≠ _))|].
  exists st1, st2. eexists. split; [exact Hr1|exact Hr2].
Defined.

Lemma interrupted_removal_panics_witness :
  exists (s s' : MemStore) A rb, is_Some (A !! 7) /\ rb_storeCommandMessages 7 0 (s, rb_of ex_cs ex_rv (delete 7 A)) = Done (s', rb_of ex_cs ex_rv (delete 7 A)) tt /\
    newOrLoadReplayBlocker ex_cs NewKV s' = Done (s', rb) tt /\
    verifyReplay keysInOrder 7 [] 102 [x01] [x02] [] 0 0 0 20 0 true 0 (s', rb) = Crash.
Proof.
  destruct (rbExec_step (S := MemStore) keysInOrder keysInOrder NewKV ex_cs ex_rv 0 handle_new eq_refl eq_refl
    (RbVerify 7 [] 102 [x01] [x02] [] 0 0 0 20 0 true) ∅ ∅) as (s & _ & Hst); [done| |].
  { by split; [..|left; split; [apply ex_absent|]|]; intros *; rewrite ?lookup_empty. }
  destruct (interrupted_removal_panics (S := MemStore) (Rnd := Z) keysInOrder NewKV ex_cs ex_rv 0 handle_new eq_refl s _ 7 Hst)
    as (s' & rb & Hrun & Hnew & Hcrash); [by eexists|].
  eexists s, s', (rbSpec _ ∅).1, rb. split; [|split; [exact Hrun|]]; [by eexists|]. split; [done|]. apply Hcrash.
Defined.
End example.
