(* ===== verification/Lease.v ===== *)
(** * Leases of channel actions

    [channels/lease.go]: a pin or a mute of a channel holds for the length of its
    lease.  The leases are a list in the order of the times at which they are
    triggered, and a map by channel and fingerprint; both hold pointers to the
    same messages.  This file has the list, its operations and its storage; the
    thread that works through it is in [LeaseThread]. *)

From Stdlib Require Import Sorting.Sorted.
From S2P Require Import Prelude GoBytes KV Base64 Json Effects CommandStore ReplayBlocker.

(** ** Times and durations

    A [time.Duration] is an [int64] of nanoseconds. *)

Definition minute : Z := 60 * 1000000000.
Definition hour : Z := 60 * minute.
Definition gracePeriod : Z := 3 * minute.
Definition replayWaitMin : Z := 5 * minute.
Definition replayWaitMax : Z := 30 * minute.
Definition quickReplayFloor : Z := gracePeriod.
Definition quickReplayCeiling : Z := 10 * minute.
Definition MessageLife : Z := 500 * hour.
Definition ValidForever : Z := 2 ^ 63 - 1.

(** [t.Sub(u)], which stops at the ends of the range. *)
Definition Time_Sub (t u : Time) : Z := Z.max (- 2 ^ 63) (Z.min (2 ^ 63 - 1) (t - u)).

(** The stream of random bytes, and [randomness.RandInInterval] with the hash. *)
Class LeaseRandom (R : Type) := {
  rng_Read : R -> Z -> option (list byte) * R;
  RandInInterval : Z -> list byte -> Z;
}.

(** The interval holds the number, and the stream does not fail. *)
Class LeaseRandomLaws (R : Type) `{LeaseRandom R} : Prop := {
  RandInInterval_range n seed : 0 < n -> 0 <= RandInInterval n seed <= n;
  rng_Read_ok r n : 0 <= n -> exists seed r', rng_Read r n = (Some seed, r') /\ Z.of_nat (length seed) = n;
}.

Section random.
Context {R : Type} `{LeaseRandom R}.

Definition randDurationInRange (start end_ : Z) (r : R) : result (Z * R) :=
  match rng_Read r 32 with
  | (Some seed, r) =>
      if Z.of_nat (length seed) =? 32
      then Ok (i64 (start + i64 (RandInInterval (i64 (end_ - start)) seed)), r)
      else Panic
  | (None, _) => Panic
  end.

(** [None] is the zero time with [false]. *)
Definition calculateLeaseTrigger (now originatingTimestamp : Time) (lease : Z) (r : R) : result (option Time * R) :=
  let elapsedLife := Time_Sub now originatingTimestamp in
  if elapsedLife >=? lease then Ok (None, r)
  else if (lease =? ValidForever) || (i64 (lease - elapsedLife) >=? MessageLife) then
    let lease := MessageLife in
    let originatingTimestamp := now in
    let floor := originatingTimestamp + Z.quot lease 2 in
    let floor := if floor <? now then now + gracePeriod else floor in
    let ceiling := originatingTimestamp + lease in
    if (ceiling <? floor) || (Time_Sub ceiling floor <? gracePeriod) then Ok (None, r)
    else '(d, r) ← randDurationInRange 0 (Time_Sub ceiling floor) r; Ok (Some (floor + d), r)
  else Ok (Some (originatingTimestamp + lease), r).
End random.

(** ** Data *)

Record leaseMessage {ID : Type} := mkLease {
  lm_ChannelID : ID;
  lm_Action : MessageType;
  lm_Payload : list byte;
  lm_OriginatingTimestamp : Time;
  lm_Lease : Z;
  lm_LeaseEnd : Time;
  lm_LeaseTrigger : Time;
}.
Arguments leaseMessage : clear implicits.

Definition lm_setTrigger {ID} (lm : leaseMessage ID) (t : Time) : leaseMessage ID :=
  mkLease ID (lm_ChannelID lm) (lm_Action lm) (lm_Payload lm) (lm_OriginatingTimestamp lm) (lm_Lease lm) (lm_LeaseEnd lm) t.
Definition lm_setEnd {ID} (lm : leaseMessage ID) (t : Time) : leaseMessage ID :=
  mkLease ID (lm_ChannelID lm) (lm_Action lm) (lm_Payload lm) (lm_OriginatingTimestamp lm) (lm_Lease lm) t (lm_LeaseTrigger lm).

(** A message at its place in memory.  The element of the list that holds a
    message is named by the message's place; [lo_e] says whether the link [e] is
    set. *)
Record leaseObj {ID : Type} := mkLeaseObj { lo_msg : leaseMessage ID; lo_e : bool }.
Arguments leaseObj : clear implicits.

Definition channelLeaseVer : Z := 0.
Definition channelLeaseKey : string := "channelLeases".
Definition channelLeaseMessagesVer : Z := 0.
Definition channelLeaseMessagesKeyPrefix : string := "channelLeaseMessages/".

(** The channels of messages are queues: a sender that finds its channel full
    waits, and its message stands behind those in the channel.  [all_spawned] are
    the replays started by the replay blocker that have not run yet. *)
Record ActionLeaseList {ID Rnd R : Type} `{NetID ID} := mkLeaseList {
  all_heap : list (leaseObj ID);
  all_leases : list nat;
  all_messagesByChannel : gmap ID (goMap string nat);
  all_addLeaseMessage : list (leaseMessage ID * CommandMessage ID Rnd);
  all_removeLeaseMessage : list (leaseMessage ID);
  all_removeChannelCh : list ID;
  all_spawned : list (commandMessage ID);
  all_rb : replayBlocker ID;
  all_store : kv;
  all_kv : kv;
  all_rng : R;
}.
Arguments ActionLeaseList ID Rnd R {_}.

(** The arguments of [AddMessage] and [RemoveMessage]. *)
Record leaseCommand {ID Rnd : Type} := mkLeaseCommand {
  lc_channelID : ID;
  lc_messageID : list byte;
  lc_action : MessageType;
  lc_unsanitizedPayload : list byte;
  lc_sanitizedPayload : list byte;
  lc_encryptedPayload : list byte;
  lc_timestamp : Time;
  lc_originatingTimestamp : Time;
  lc_lease : Z;
  lc_originatingRound : Z;
  lc_round : Rnd;
  lc_fromAdmin : bool;
}.
Arguments leaseCommand : clear implicits.

(** [container/list] on the elements' names. *)
Definition listRemove (a : nat) (l : list nat) : list nat := filter (fun x => x ≠ a) l.
Fixpoint insertBefore (a mark : nat) (l : list nat) : list nat :=
  match l with
  | [] => []
  | x :: l => if decide (x = mark) then a :: x :: l else x :: insertBefore a mark l
  end.
Definition moveToBack (a : nat) (l : list nat) : list nat :=
  if decide (a ∈ l) then listRemove a l ++ [a] else l.
Definition moveBefore (a mark : nat) (l : list nat) : list nat :=
  if decide (a ∈ l /\ mark ∈ l /\ a ≠ mark) then insertBefore a mark (listRemove a l) else l.

(** The first element whose time is after [t]. *)
Definition findAfter (f : nat -> Time) (t : Time) (l : list nat) : option nat :=
  snd <$> list_find (fun mark => t < f mark) l.

(** ** The list *)

Section code.
Context {S ID Rnd R : Type} `{EKV S} `{NetID ID} `{CMixHash} `{LeaseRandom R}.
Context `{JsonCodec (CommandMessage ID Rnd)} `{JsonCodec (gmap string (commandMessage ID))} `{JsonCodec (list ID)}
        `{JsonCodec (gmap string (leaseMessage ID))}.
Context (rbChannelOrder : gmap ID (goMap string (commandMessage ID)) -> list ID)
        (commandOrder : gmap string (commandMessage ID) -> list string)
        (channelOrder : gmap ID (goMap string nat) -> list ID)
        (leaseOrder : gmap string nat -> list string).

Local Abbreviation ALL := (ActionLeaseList ID Rnd R).
Implicit Types (all : ALL) (lm : leaseMessage ID) (a : nat).

Definition all_setHeap all (h : list (leaseObj ID)) : ALL :=
  mkLeaseList _ _ _ _ h (all_leases all) (all_messagesByChannel all) (all_addLeaseMessage all) (all_removeLeaseMessage all)
    (all_removeChannelCh all) (all_spawned all) (all_rb all) (all_store all) (all_kv all) (all_rng all).
Definition all_setLeases all (l : list nat) : ALL :=
  mkLeaseList _ _ _ _ (all_heap all) l (all_messagesByChannel all) (all_addLeaseMessage all) (all_removeLeaseMessage all)
    (all_removeChannelCh all) (all_spawned all) (all_rb all) (all_store all) (all_kv all) (all_rng all).
Definition all_setMessages all (m : gmap ID (goMap string nat)) : ALL :=
  mkLeaseList _ _ _ _ (all_heap all) (all_leases all) m (all_addLeaseMessage all) (all_removeLeaseMessage all)
    (all_removeChannelCh all) (all_spawned all) (all_rb all) (all_store all) (all_kv all) (all_rng all).
Definition all_setQueues all (add : list (leaseMessage ID * CommandMessage ID Rnd)) (rem : list (leaseMessage ID))
    (chans : list ID) (spawned : list (commandMessage ID)) : ALL :=
  mkLeaseList _ _ _ _ (all_heap all) (all_leases all) (all_messagesByChannel all) add rem chans spawned
    (all_rb all) (all_store all) (all_kv all) (all_rng all).
Definition all_setRb all (rb : replayBlocker ID) : ALL :=
  mkLeaseList _ _ _ _ (all_heap all) (all_leases all) (all_messagesByChannel all) (all_addLeaseMessage all) (all_removeLeaseMessage all)
    (all_removeChannelCh all) (all_spawned all) rb (all_store all) (all_kv all) (all_rng all).
Definition all_setRng all (r : R) : ALL :=
  mkLeaseList _ _ _ _ (all_heap all) (all_leases all) (all_messagesByChannel all) (all_addLeaseMessage all) (all_removeLeaseMessage all)
    (all_removeChannelCh all) (all_spawned all) (all_rb all) (all_store all) (all_kv all) r.

(** The fingerprint's key of a message. *)
Definition lmKey lm : string := commandKey (lm_ChannelID lm) (lm_Action lm) (lm_Payload lm).

(** The trigger of an element of the list: a name of an element is always that
    of a message in memory. *)
Definition leaseTrigger all a : Time :=
  match all_heap all !! a with Some o => lm_LeaseTrigger (lo_msg o) | None => zeroTime end.

(** A random duration drawn from the list's stream. *)
Definition drawDuration (start end_ : Z) : act (S * ALL) Z := fun '(s, all) =>
  match randDurationInRange start end_ (all_rng all) with
  | Ok (d, r) => Done (s, all_setRng all r) d
  | Err e => Fail (s, all) e
  | Panic => Crash
  end.
Definition drawTrigger (now originatingTimestamp : Time) (lease : Z) : act (S * ALL) (option Time) := fun '(s, all) =>
  match calculateLeaseTrigger now originatingTimestamp lease (all_rng all) with
  | Ok (t, r) => Done (s, all_setRng all r) t
  | Err e => Fail (s, all) e
  | Panic => Crash
  end.

(** A call on the replay blocker. *)
Definition onRb {A} (m : act (S * replayBlocker ID) A) : act (S * ALL) A :=
  zoom (fun '(s, all) => (s, all_rb all)) (fun '(s, rb) '(_, all) => (s, all_setRb all rb)) m.

(** [NewActionLeaseList]; nothing has run. *)
Definition NewActionLeaseList (store v : kv) (r : R) : result ALL :=
  rb ← newReplayBlocker store v;
  Ok (mkLeaseList _ _ _ _ [] [] ∅ [] [] [] [] rb store v r).

(** The loop of [findSortedPosition]. *)
Definition findSortedPosition all (t : Time) : option nat :=
  findAfter (leaseTrigger all) t (all_leases all).

Definition insertLease a all : ALL :=
  all_setLeases all
    match findSortedPosition all (leaseTrigger all a) with
    | None => all_leases all ++ [a]
    | Some mark => insertBefore a mark (all_leases all)
    end.

(** [updateLease(lm.e)]: the link may be nil. *)
Definition updateLease a all : result ALL :=
  match all_heap all !! a with
  | Some (mkLeaseObj _ _ true) =>
      Ok (all_setLeases all
        match findSortedPosition all (leaseTrigger all a) with
        | None => moveToBack a (all_leases all)
        | Some mark => moveBefore a mark (all_leases all)
        end)
  | _ => Panic
  end.

(** A new message in memory, without a link. *)
Definition allocLease lm all : ALL * nat :=
  (all_setHeap all (all_heap all ++ [mkLeaseObj ID lm false]), length (all_heap all)).
Definition writeLease a (lm : leaseMessage ID) (e : bool) all : ALL :=
  all_setHeap all (<[a := mkLeaseObj ID lm e]> (all_heap all)).

(** [lm.e = all.insertLease(lm)] *)
Definition linkLease a all : ALL :=
  let all := insertLease a all in
  match all_heap all !! a with Some o => writeLease a (lo_msg o) true all | None => all end.

(** ** Storage *)

Definition makeChannelLeaseMessagesKey (channelID : ID) : string :=
  channelLeaseMessagesKeyPrefix +:+ b64Encode (id_Bytes channelID).

Definition storeLeaseChannels (now : Time) : act (S * ALL) unit := fun '(s, all) =>
  onStore (write (fun s => kv_Set (all_kv all) s channelLeaseKey
    (mkObject channelLeaseVer now (json_Marshal (channelOrder (all_messagesByChannel all)))))) (s, all).

Definition loadLeaseChannels (v : kv) : act S (list ID) :=
  obj ← read (fun s => kv_Get v s channelLeaseKey channelLeaseVer);
  match json_Unmarshal (Data obj) with
  | Some channelIDs => mret channelIDs
  | None => throw (Errorf "json" [])
  end.

Definition deleteLeaseMessages (channelID : ID) : act (S * ALL) unit := fun '(s, all) =>
  onStore (write (fun s => kv_Delete (all_kv all) s (makeChannelLeaseMessagesKey channelID) channelLeaseMessagesVer)) (s, all).

(** The places of a channel's messages, and the messages JSON sees there. *)
Definition channelPlaces all (channelID : ID) : gmap string nat :=
  goEntries (default None (all_messagesByChannel all !! channelID)).
Definition channelMessages all (channelID : ID) : gmap string (leaseMessage ID) :=
  omap (fun a => lo_msg <$> all_heap all !! a) (channelPlaces all channelID).

Definition storeLeaseMessages (channelID : ID) (now : Time) : act (S * ALL) unit := fun '(s, all) =>
  if (size (channelPlaces all channelID) =? 0)%nat then deleteLeaseMessages channelID (s, all)
  else onStore (write (fun s => kv_Set (all_kv all) s (makeChannelLeaseMessagesKey channelID)
    (mkObject channelLeaseMessagesVer now (json_Marshal (channelMessages all channelID))))) (s, all).

Definition loadLeaseMessages (v : kv) (channelID : ID) : act S (gmap string (leaseMessage ID)) :=
  obj ← read (fun s => kv_Get v s (makeChannelLeaseMessagesKey channelID) channelLeaseMessagesVer);
  match json_Unmarshal (Data obj) with
  | Some messages => mret messages
  | None => throw (Errorf "json" [])
  end.

Definition updateStorage (channelID : ID) (channelIdUpdate : bool) (now : Time) : act (S * ALL) unit :=
  _ ← annotate "could not store message leases for channel %s: %+v" [] (storeLeaseMessages channelID now);
  if channelIdUpdate then annotate "could not store lease channel IDs: %+v" [] (storeLeaseChannels now)
  else mret tt.

(** ** Adding and removing *)

(** A command that exists already is not stored anew: the link of the new
    message, which is nil, is used. *)
Definition addMessage lm (now : Time) : act (S * ALL) unit := fun '(s, all) =>
  let fp := lmKey lm in
  let '(all, a) := allocLease lm all in
  match all_messagesByChannel all !! lm_ChannelID lm with
  | None =>
      let all := linkLease a all in
      updateStorage (lm_ChannelID lm) true now
        (s, all_setMessages all (<[lm_ChannelID lm := Some {[fp := a]}]> (all_messagesByChannel all)))
  | Some messages =>
      match goEntries messages !! fp with
      | None =>
          let all := linkLease a all in
          match messages with
          | Some ms =>
              updateStorage (lm_ChannelID lm) false now
                (s, all_setMessages all (<[lm_ChannelID lm := Some (<[fp := a]> ms)]> (all_messagesByChannel all)))
          | None => Crash
          end
      | Some _ =>
          match updateLease a all with
          | Ok all => updateStorage (lm_ChannelID lm) false now (s, all)
          | _ => Crash
          end
      end
  end.

Definition addToLeaseMessageChan (c : leaseCommand ID Rnd) (payload : list byte) (leaseTrigger : Time) all : ALL :=
  let lm := mkLease ID (lc_channelID c) (lc_action c) payload (lc_originatingTimestamp c) (lc_lease c)
    (lc_originatingTimestamp c + lc_lease c) leaseTrigger in
  let cm := mkCommandMessage ID Rnd (lc_channelID c) (lc_messageID c) (lc_action c) "" payload (lc_encryptedPayload c) [] 0
    (lc_timestamp c) (lc_originatingTimestamp c) (lc_lease c) (lc_originatingRound c) (lc_round c) 0 (lc_fromAdmin c) false in
  all_setQueues all (all_addLeaseMessage all ++ [(lm, cm)]) (all_removeLeaseMessage all) (all_removeChannelCh all) (all_spawned all).

(** The check of a command against the replays: a refusal starts the replay of
    the command kept. *)
Definition verifyCommand (c : leaseCommand ID Rnd) (now : Time) : act (S * ALL) unit :=
  '(verified, replay) ← annotate "encountered error when verifying command: %+v" []
        (onRb (verifyReplay rbChannelOrder (lc_channelID c) (lc_messageID c) (lc_action c) (lc_unsanitizedPayload c)
          (lc_sanitizedPayload c) (lc_encryptedPayload c) (lc_timestamp c) (lc_originatingTimestamp c) (lc_lease c)
          (lc_originatingRound c) (lc_round c) (lc_fromAdmin c) now));
  _ ← modify (fun '(s, all) => (s, match replay with
        | Some cm => all_setQueues all (all_addLeaseMessage all) (all_removeLeaseMessage all) (all_removeChannelCh all) (all_spawned all ++ [cm])
        | None => all
        end));
  if (verified : bool) then mret tt else throw (Errorf "command replay could not be verified" []).

Definition AddMessage (c : leaseCommand ID Rnd) (now : Time) : act (S * ALL) unit :=
  t ← drawTrigger now (lc_originatingTimestamp c) (lc_lease c);
  match t with
  | None => throw (Errorf "[CH] Dropping message %s lease for action %s in channel %s that has already expired" [])
  | Some t =>
      _ ← verifyCommand c now;
      modify (fun '(s, all) => (s, addToLeaseMessageChan c (lc_sanitizedPayload c) t all))
  end.

Definition AddOrOverwrite (channelID : ID) (action : MessageType) (payload : list byte) (now : Time) : act (S * ALL) unit :=
  fun '(s, all) =>
  (cm ← onStore (R := ALL) (LoadCommand (all_store all) channelID action payload);
   d ← drawDuration quickReplayFloor quickReplayCeiling;
   let c := mkLeaseCommand ID Rnd channelID (cm_MessageID cm) action [] payload (cm_EncryptedPayload cm) (cm_Timestamp cm)
     (cm_OriginatingTimestamp cm) (cm_Lease cm) (cm_OriginatingRound cm) (cm_Round cm) (cm_FromAdmin cm) in
   modify (fun '(s, all) => (s, addToLeaseMessageChan c payload (now + d) all))) (s, all).

Definition RemoveMessage (c : leaseCommand ID Rnd) (now : Time) : act (S * ALL) unit :=
  if Time_Sub now (lc_originatingTimestamp c) >=? lc_lease c then throw (Errorf "lease already expired" [])
  else
    _ ← verifyCommand c now;
    modify (fun '(s, all) =>
      let lm := mkLease ID (lc_channelID c) (lc_action c) (lc_sanitizedPayload c) zeroTime 0 zeroTime zeroTime in
      (s, all_setQueues all (all_addLeaseMessage all) (all_removeLeaseMessage all ++ [lm]) (all_removeChannelCh all) (all_spawned all))).

Definition RemoveChannel (channelID : ID) all : ALL :=
  all_setQueues all (all_addLeaseMessage all) (all_removeLeaseMessage all) (all_removeChannelCh all ++ [channelID]) (all_spawned all).

(** The place of the message with the fingerprint of the one given. *)
Definition findLease newLm all : option nat :=
  channelPlaces all (lm_ChannelID newLm) !! lmKey newLm.

(** The message leaves the map; its channel too when it has no other. *)
Definition dropMessage (channelID : ID) (fp : string) all : ALL * bool :=
  let ms := delete fp (channelPlaces all channelID) in
  if (size ms =? 0)%nat then (all_setMessages all (delete channelID (all_messagesByChannel all)), true)
  else (all_setMessages all (<[channelID := Some ms]> (all_messagesByChannel all)), false).

Definition removeMessage newLm (leaseExpired : bool) (now : Time) : act (S * ALL) unit := fun '(s, all) =>
  let fp := lmKey newLm in
  match findLease newLm all with
  | None => Done (s, all) tt
  | Some a =>
      match all_heap all !! a with
      | Some (mkLeaseObj _ lm true) =>
          let all := all_setLeases all (listRemove a (all_leases all)) in
          let '(all, channelIdUpdate) := dropMessage (lm_ChannelID lm) fp all in
          (_ ← (if leaseExpired then
                  _ ← logged (onRb (rb_removeCommand rbChannelOrder (lm_ChannelID lm) (lm_Action lm) (lm_Payload lm) now));
                  logged (onStore (DeleteCommand (all_store all) (lm_ChannelID lm) (lm_Action lm) (lm_Payload lm)))
                else mret tt);
           updateStorage (lm_ChannelID lm) channelIdUpdate now) (s, all)
      | _ => Crash
      end
  end.

Definition updateLeaseTrigger newLm (now : Time) : act (S * ALL) unit := fun '(s, all) =>
  match findLease newLm all with
  | None => Done (s, all) tt
  | Some a =>
      match all_heap all !! a with
      | None => Crash
      | Some (mkLeaseObj _ lm e) =>
          let trigger (t : option Time) : act (S * ALL) unit :=
            match t with
            | None => removeMessage lm true now
            | Some t => fun '(s, all) =>
                match updateLease a (writeLease a (lm_setTrigger lm t) e all) with
                | Ok all => updateStorage (lm_ChannelID lm) false now (s, all)
                | _ => Crash
                end
            end in
          (drawTrigger now (lm_OriginatingTimestamp lm) (lm_Lease lm) ≫= trigger) (s, all)
      end
  end.

(** The loop of [removeChannel]. *)
Fixpoint removeLeases (places : list nat) : act (S * ALL) unit := fun '(s, all) =>
  match places with
  | [] => Done (s, all) tt
  | a :: places =>
      match all_heap all !! a with
      | Some (mkLeaseObj _ lm true) =>
          (_ ← logged (onStore (DeleteCommand (all_store all) (lm_ChannelID lm) (lm_Action lm) (lm_Payload lm)));
           removeLeases places) (s, all_setLeases all (listRemove a (all_leases all)))
      | _ => Crash
      end
  end.

Definition removeChannel (channelID : ID) (now : Time) : act (S * ALL) unit := fun '(s, all) =>
  match all_messagesByChannel all !! channelID with
  | None => Done (s, all) tt
  | Some leases =>
      let places := omap (fun k => goEntries leases !! k) (leaseOrder (goEntries leases)) in
      (_ ← removeLeases places;
       _ ← logged (onRb (rb_removeChannelCommands rbChannelOrder commandOrder channelID now));
       _ ← modify (fun '(s, all) => (s, all_setMessages all (delete channelID (all_messagesByChannel all))));
       _ ← storeLeaseChannels now;
       deleteLeaseMessages channelID) (s, all)
  end.

(** ** Start-up *)

(** The messages of a channel come to new places. *)
Fixpoint allocMessages (l : list (string * leaseMessage ID)) all : ALL * gmap string nat :=
  match l with
  | [] => (all, ∅)
  | (k, lm) :: l =>
      let '(all, a) := allocLease lm all in
      let '(all, m) := allocMessages l all in
      (all, <[k := a]> m)
  end.

(** A message whose trigger has passed waits for replays first.  The source
    compares trigger and end with [==], which on [time.Time] also compares the
    locations; both were read from JSON here, and the comparison is that of the
    instants. *)
Fixpoint loadLeases (places : list nat) (now : Time) : act (S * ALL) unit := fun '(s, all) =>
  match places with
  | [] => Done (s, all) tt
  | a :: places =>
      match all_heap all !! a with
      | None => Crash
      | Some (mkLeaseObj _ lm e) =>
          (_ ← (if lm_LeaseTrigger lm <? now then
                  d ← drawDuration replayWaitMin replayWaitMax;
                  modify (fun '(s, all) =>
                    let lm := if lm_LeaseTrigger lm =? lm_LeaseEnd lm then lm_setEnd lm (now + d) else lm in
                    (s, writeLease a (lm_setTrigger lm (now + d)) e all))
                else mret tt);
           _ ← modify (fun '(s, all) => (s, linkLease a all));
           loadLeases places now) (s, all)
      end
  end.

Fixpoint loadChannels (channelIDs : list ID) (now : Time) : act (S * ALL) unit := fun '(s, all) =>
  match channelIDs with
  | [] => Done (s, all) tt
  | channelID :: channelIDs =>
      match loadLeaseMessages (all_kv all) channelID s with
      | Done s messages =>
          let '(all, m) := allocMessages (map_to_list messages) all in
          (_ ← loadLeases (omap (fun k => m !! k) (leaseOrder m)) now;
           loadChannels channelIDs now)
          (s, all_setMessages all (<[channelID := Some m]> (all_messagesByChannel all)))
      | Fail s e =>
          Fail (s, all_setMessages all (<[channelID := None]> (all_messagesByChannel all)))
            (Wrapf "could not load message leases for channel %s" [] e)
      | Crash => Crash
      end
  end.

Definition all_load (now : Time) : act (S * ALL) unit := fun '(s, all) =>
  (channelIDs ← annotate "could not load list of channels" [] (onStore (loadLeaseChannels (all_kv all)));
   loadChannels channelIDs now) (s, all).

(** An error that means a missing object is passed over. *)
Definition ifPresent (m : act (S * ALL) unit) : act (S * ALL) unit := fun st =>
  match m st with
  | Fail st' e => if ekv_Exists S e then Fail st' e else Done st' tt
  | o => o
  end.

Definition NewOrLoadActionLeaseList (store v : kv) (r : R) (now : Time) (s : S) : outcome (S * ALL) unit :=
  match NewActionLeaseList store v r with
  | Ok all => (_ ← ifPresent (all_load now); ifPresent (onRb rb_load)) (s, all)
  | _ => Crash
  end.
End code.

(** ** The time of the trigger *)

Section trigger.
Context {R : Type} `{LeaseRandomLaws R}.

Lemma randDuration_range start end_ (r : R) :
  0 <= start < end_ -> end_ < 2 ^ 63 ->
  exists d r', randDurationInRange start end_ r = Ok (d, r') /\ start <= d <= end_.
Proof.
  intros Hs He. unfold randDurationInRange. destruct (rng_Read_ok r 32 ltac:(lia)) as (seed & r' & -> & Hlen).
  rewrite (proj2 (Z.eqb_eq _ _) Hlen). exists (i64 (start + i64 (RandInInterval (i64 (end_ - start)) seed))), r'. split; [done|].
  rewrite (wraps_small 64 (end_ - start)) by (simpl; lia).
  pose proof (RandInInterval_range (end_ - start) seed ltac:(lia)).
  rewrite (wraps_small 64 (RandInInterval _ _)) by (simpl; lia). rewrite wraps_small by (simpl; lia). lia.
Qed.

Lemma calculateLeaseTrigger_cases now orig lease (r : R) :
  - 2 ^ 63 <= now - orig < 2 ^ 63 -> - 2 ^ 63 <= lease < 2 ^ 63 ->
  let rest := lease - (now - orig) in
  exists t r', calculateLeaseTrigger now orig lease r = Ok (t, r') /\
    match t with
    | None => rest <= 0
    | Some t => 0 < rest /\
        if bool_decide (lease = ValidForever \/ MessageLife <= rest < 2 ^ 63)
        then now + 250 * hour <= t <= now + 500 * hour
        else t = orig + lease
    end.
Proof.
  intros Hel Hl rest. unfold calculateLeaseTrigger.
  assert (Time_Sub now orig = now - orig) as -> by (unfold Time_Sub; lia).
  rewrite Z.geb_leb. destruct (Z.leb_spec lease (now - orig)) as [Hover|Hact].
  { exists None, r. split; [done|]. subst rest. lia. }
  change (lease - (now - orig)) with rest.
  assert ((lease =? ValidForever) || (i64 rest >=? MessageLife) =
    bool_decide (lease = ValidForever \/ MessageLife <= rest < 2 ^ 63)) as ->.
  { apply eq_true_iff_eq. rewrite orb_true_iff, Z.eqb_eq, Z.geb_leb, Z.leb_le, bool_decide_eq_true.
    unfold MessageLife, hour, minute. assert (0 < rest < 2 ^ 64) as Hrest by (subst rest; lia). clearbody rest. clear Hel Hl Hact.
    split; (intros [?|Hr]; [by left|right]); zlia. }
  case_bool_decide as Hlong.
  - replace (now + MessageLife ÷ 2) with (now + 250 * hour) by reflexivity.
    rewrite (proj2 (Z.ltb_ge (now + 250 * hour) now)) by (unfold hour, minute; lia).
    assert (Time_Sub (now + MessageLife) (now + 250 * hour) = 250 * hour) as -> by (unfold Time_Sub, MessageLife, hour, minute; lia).
    rewrite (proj2 (Z.ltb_ge (now + MessageLife) (now + 250 * hour))) by (unfold MessageLife, hour, minute; lia).
    rewrite (proj2 (Z.ltb_ge _ _)) by (unfold gracePeriod, hour, minute; lia). cbn [orb].
    destruct (randDuration_range 0 (250 * hour) r) as (d & r' & -> & Hd); [unfold hour, minute; lia..|].
    cbn [mbind result_bind]. exists (Some (now + 250 * hour + d)), r'. split; [done|]. split; [subst rest; lia|]. lia.
  - exists (Some (orig + lease)), r. split; [done|]. subst rest. split; [lia|done].
Qed.
(** C40: A lease gives no trigger exactly when it is over.  One that lasts for ever,
    or for another message life and more, is triggered between half a message
    life and a message life from now, to be replayed; every other lease is
    triggered when it ends.  The grace period drops no message.  The time left
    of a message dated ahead can exceed an [int64] and is then taken as short. *)
Theorem calculateLeaseTrigger_spec now orig lease (r : R) :
  - 2 ^ 63 <= now - orig < 2 ^ 63 -> - 2 ^ 63 <= lease < 2 ^ 63 ->
  let rest := lease - (now - orig) in
  exists t r', calculateLeaseTrigger now orig lease r = Ok (t, r') /\
    match t with
    | None => rest <= 0
    | Some t => 0 < rest /\
        if bool_decide (lease = ValidForever \/ MessageLife <= rest < 2 ^ 63)
        then now + 250 * hour <= t <= now + 500 * hour
        else t = orig + lease
    end.
Proof. apply calculateLeaseTrigger_cases. Qed.
End trigger.

(** ** Sorted lists of places *)

Definition sortedBy (f : nat -> Z) (l : list nat) : Prop := StronglySorted (fun a b => f a <= f b) l.

(** The place of [a] in a sorted list. *)
Definition placeSorted (f : nat -> Z) (a : nat) (l : list nat) : list nat :=
  match findAfter f (f a) l with
  | None => l ++ [a]
  | Some mark => insertBefore a mark l
  end.

Lemma insertBefore_split a mark l1 l2 :
  mark ∉ l1 -> insertBefore a mark (l1 ++ mark :: l2) = l1 ++ a :: mark :: l2.
Proof.
  induction l1 as [|x l1 IH]; intros Hn; simpl; [by rewrite decide_True|].
  rewrite not_elem_of_cons in Hn. rewrite decide_False by (intros ->; tauto). by rewrite IH by tauto.
Qed.

Lemma find_split f (t : Z) l :
  match findAfter f t l with
  | None => Forall (fun x => f x <= t) l
  | Some mark => exists l1 l2, l = l1 ++ mark :: l2 /\ Forall (fun x => f x <= t) l1 /\ t < f mark
  end.
Proof.
  unfold findAfter. induction l as [|x l IH]; simpl; [constructor|]. case_decide as Hx; cbn [fmap option_fmap option_map snd].
  { exists [], l. split_and!; [done|constructor|done]. }
  destruct (list_find _ l) as [[i m]|]; simpl in *.
  - destruct IH as (l1 & l2 & -> & Hl1 & Hm). exists (x :: l1), l2. split_and!; [done|constructor; [lia|done]|done].
  - constructor; [lia|done].
Qed.

Lemma sortedBy_split f l1 a l2 :
  sortedBy f (l1 ++ l2) -> Forall (fun x => f x <= f a) l1 -> Forall (fun x => f a <= f x) l2 -> sortedBy f (l1 ++ a :: l2).
Proof.
  intros Hs H1 H2. unfold sortedBy in *. induction l1 as [|x l1 IH]; simpl in *.
  - by constructor.
  - apply StronglySorted_inv in Hs as [Hs Hx]. apply Forall_cons_iff in H1 as [Hxa H1]. constructor; [by apply IH|].
    apply Forall_app in Hx as [Hx1 Hx2]. apply Forall_app. split; [done|]. by constructor.
Qed.

Lemma placeSorted_ok f a l :
  NoDup l -> a ∉ l -> sortedBy f l -> placeSorted f a l ≡ₚ a :: l /\ sortedBy f (placeSorted f a l).
Proof.
  intros Hnd Ha Hs. unfold placeSorted. pose proof (find_split f (f a) l) as Hf.
  destruct (findAfter f (f a) l) as [mark|].
  - destruct Hf as (l1 & l2 & -> & Hl1 & Hm). apply NoDup_keys_disjoint in Hnd.
    rewrite insertBefore_split by done. split; [solve_Permutation|]. apply sortedBy_split; [done..|].
    assert (sortedBy f (mark :: l2)) as Hs2.
    { clear -Hs. induction l1 as [|x l1 IH]; [done|]. apply IH. by apply StronglySorted_inv in Hs as [? _]. }
    apply StronglySorted_inv in Hs2 as [_ Hge]. constructor; [lia|].
    apply list.Forall_forall. intros x Hx. rewrite list.Forall_forall in Hge. specialize (Hge x Hx). lia.
  - split; [solve_Permutation|]. rewrite <- (app_nil_r l) in Hs. apply sortedBy_split; [done..|constructor].
Qed.

Lemma sortedBy_remove f a l : sortedBy f l -> sortedBy f (listRemove a l).
Proof.
  unfold sortedBy, listRemove. induction 1 as [|x l Hs IH Hx]; [constructor|].
  rewrite filter_cons. case_decide; [|done]. constructor; [done|].
  apply list.Forall_forall. intros y [_ Hy]%list_elem_of_filter. rewrite list.Forall_forall in Hx. by apply Hx.
Qed.

Lemma sortedBy_ext f g l : (forall x, x ∈ l -> f x = g x) -> sortedBy f l -> sortedBy g l.
Proof.
  intros Hfg. unfold sortedBy. induction 1 as [|x l Hs IH Hx]; [constructor|].
  constructor; [apply IH; intros; apply Hfg; by right|].
  apply list.Forall_forall. intros y Hy. rewrite list.Forall_forall in Hx.
  rewrite <- (Hfg x) by left. rewrite <- (Hfg y) by (by right). by apply Hx.
Qed.

Lemma listRemove_absent a l : a ∉ l -> listRemove a l = l.
Proof.
  unfold listRemove. induction l as [|x l IH]; intros Ha; [done|]. rewrite not_elem_of_cons in Ha.
  rewrite filter_cons, decide_True by (intros ->; tauto). by rewrite IH by tauto.
Qed.

Lemma listRemove_perm a l : NoDup l -> a ∈ l -> a :: listRemove a l ≡ₚ l.
Proof.
  intros Hnd Ha. induction l as [|x l IH]; [by apply not_elem_of_nil in Ha|].
  apply list.NoDup_cons in Hnd as [Hx Hnd]. unfold listRemove in *. rewrite filter_cons. destruct (decide (x = a)) as [->|Hn].
  - rewrite decide_False by tauto. change (filter _ l) with (listRemove a l). by rewrite listRemove_absent.
  - rewrite decide_True by done. apply elem_of_cons in Ha as [->|Ha]; [done|]. rewrite <- (IH Hnd Ha) at 2. solve_Permutation.
Qed.

Lemma elem_of_listRemove a x l : x ∈ listRemove a l <-> x ∈ l /\ x ≠ a.
Proof. unfold listRemove. rewrite list_elem_of_filter. tauto. Qed.

Lemma find_remove f (t : Z) a l : f a <= t -> findAfter f t (listRemove a l) = findAfter f t l.
Proof.
  intros Ha. unfold findAfter, listRemove. induction l as [|x l IH]; [done|]. rewrite filter_cons. destruct (decide (x = a)) as [->|Hn].
  - rewrite decide_False by tauto. rewrite IH. simpl. rewrite (decide_False (P := t < f a)) by lia.
    by destruct (list_find _ l) as [[]|].
  - rewrite decide_True by done. simpl. destruct (decide (t < f x)); [done|].
    destruct (list_find _ (filter _ l)) as [[]|], (list_find _ l) as [[]|]; simpl in *; congruence.
Qed.

(** ** Examples *)

#[export] Instance leaseMessage_eq_dec {ID} `{EqDecision ID} : EqDecision (leaseMessage ID).
Proof. solve_decision. Defined.
#[export] Instance leaseMessage_countable {ID} `{Countable ID} : Countable (leaseMessage ID).
Proof.
  apply (inj_countable' (fun m => (lm_ChannelID m, lm_Action m, lm_Payload m, lm_OriginatingTimestamp m, lm_Lease m, lm_LeaseEnd m, lm_LeaseTrigger m))
    (fun '(a, b, c, d, e, f, g) => mkLease ID a b c d e f g)). by intros [].
Defined.

(** A stream of zeros, and the middle of an interval. *)
Definition ex_random : LeaseRandom unit := {|
  rng_Read r n := (Some (replicate (Z.to_nat n) x00), r);
  RandInInterval n seed := n / 2;
|}.
#[export] Existing Instance ex_random.

#[export] Instance ex_random_laws : LeaseRandomLaws unit.
Proof.
  split.
  - intros n seed Hn. cbn. split; [apply Z.div_pos; lia|]. apply Z.div_le_upper_bound; lia.
  - intros r n Hn. exists (replicate (Z.to_nat n) x00), r. split; [done|]. rewrite length_replicate. lia.
Qed.

(** A lease without end, an hour after it was given. *)
Lemma calculateLeaseTrigger_spec_witness :
  let now := 1700000000 * 1000000000 in
  let rest := ValidForever - (now - (now - hour)) in
  exists t r, calculateLeaseTrigger now (now - hour) ValidForever tt = Ok (t, r) /\
    match t with
    | None => rest <= 0
    | Some t => 0 < rest /\
        if bool_decide (ValidForever = ValidForever \/ MessageLife <= rest < 2 ^ 63)
        then now + 250 * hour <= t <= now + 500 * hour else t = now - hour + ValidForever
    end.
Proof. intros now. apply (calculateLeaseTrigger_spec now (now - hour) ValidForever tt); unfold now, hour, minute, ValidForever; lia. Defined.
