(* ===== verification/LeaseOps.v ===== *)
(** * The lease list keeps its order

    What every operation of [Lease] keeps: the list is in the order of the
    triggers, the map and the list hold the same messages, each under its own
    fingerprint, and storage holds the map. *)

From Stdlib Require Import Sorting.Sorted.
From S2P Require Import Prelude GoBytes KV Base64 Json Effects CommandStore ReplayBlocker Lease.

Section invariant.
Context {ID Rnd R : Type} `{NetID ID} `{CMixHash}.
Implicit Types (all : ActionLeaseList ID Rnd R) (lm : leaseMessage ID) (a : nat).

(** The lease of a channel with a key. *)
Definition leaseAt all (ch : ID) (k : string) : option (leaseMessage ID) := channelMessages all ch !! k.

(** [lists_ok pend all]: list and map agree, but for the messages [pend] of the
    map that are not in the list yet. *)
Record lists_ok (pend : list nat) all : Prop := {
  lk_nodup : NoDup (all_leases all);
  lk_sorted : sortedBy (leaseTrigger all) (all_leases all);
  lk_some ch m : all_messagesByChannel all !! ch = Some m -> exists ms, m = Some ms /\ ms ≠ ∅;
  lk_place ch k a : channelPlaces all ch !! k = Some a ->
    exists lm e, all_heap all !! a = Some (mkLeaseObj ID lm e) /\ lm_ChannelID lm = ch /\ lmKey lm = k /\
      (e = true /\ a ∈ all_leases all \/ a ∈ pend);
  lk_pend a : a ∈ pend -> a ∉ all_leases all;
  lk_list a : a ∈ all_leases all ->
    exists lm, all_heap all !! a = Some (mkLeaseObj ID lm true) /\
      channelPlaces all (lm_ChannelID lm) !! lmKey lm = Some a;
}.

Lemma leaseAt_Some all ch k lm :
  leaseAt all ch k = Some lm <->
  exists a e, channelPlaces all ch !! k = Some a /\ all_heap all !! a = Some (mkLeaseObj ID lm e).
Proof.
  unfold leaseAt, channelMessages. rewrite lookup_omap, bind_Some. split.
  - intros (a & Ha & Ho). destruct (all_heap all !! a) as [[lm' e]|] eqn:He; simplify_eq/=. by exists a, e.
  - intros (a & e & Ha & He). exists a. split; [done|]. cbn beta. by rewrite He.
Qed.

Lemma channelPlaces_Some all ch m : all_messagesByChannel all !! ch = Some m -> channelPlaces all ch = goEntries m.
Proof. intros Hm. unfold channelPlaces. unfold goMap in *. by rewrite Hm. Qed.
Lemma channelPlaces_None all ch : all_messagesByChannel all !! ch = None -> channelPlaces all ch = ∅.
Proof. intros Hm. unfold channelPlaces. unfold goMap in *. by rewrite Hm. Qed.

Lemma channelPlaces_insert all ch ms ch' :
  channelPlaces (all_setMessages all (<[ch := Some ms]> (all_messagesByChannel all))) ch' =
  if decide (ch' = ch) then ms else channelPlaces all ch'.
Proof.
  unfold channelPlaces. cbn [all_setMessages all_messagesByChannel]. case_decide as Hc; [subst; by rewrite lookup_insert_eq|].
  by rewrite lookup_insert_ne.
Qed.

Lemma channelPlaces_delete all ch ch' :
  channelPlaces (all_setMessages all (delete ch (all_messagesByChannel all))) ch' =
  if decide (ch' = ch) then ∅ else channelPlaces all ch'.
Proof.
  unfold channelPlaces. cbn [all_setMessages all_messagesByChannel]. case_decide as Hc; [subst; by rewrite lookup_delete_eq|].
  by rewrite lookup_delete_ne.
Qed.

(** A place of the map is the place of one message. *)
Lemma lk_fresh pend all a : lists_ok pend all -> all_heap all !! a = None ->
  a ∉ all_leases all /\ forall ch k, channelPlaces all ch !! k ≠ Some a.
Proof.
  intros Hok Ha. split.
  - intros Hin. destruct (lk_list _ _ Hok a Hin) as (lm & Hlm & _). congruence.
  - intros ch k Hk. destruct (lk_place _ _ Hok ch k a Hk) as (lm & e & Hlm & _). congruence.
Qed.

(** A new message enters the map. *)
Lemma alloc_ok pend all lm :
  let ch := lm_ChannelID lm in
  let a := length (all_heap all) in
  let all' := all_setMessages (allocLease lm all).1
    (<[ch := Some (<[lmKey lm := a]> (channelPlaces all ch))]> (all_messagesByChannel all)) in
  lists_ok pend all -> Forall (fun p => (p < a)%nat) pend -> channelPlaces all ch !! lmKey lm = None ->
  lists_ok (a :: pend) all' /\
  (forall ch' k, leaseAt all' ch' k = if decide (ch' = ch /\ k = lmKey lm) then Some lm else leaseAt all ch' k).
Proof.
  intros ch a all' Hok Hp Hnew.
  assert (all_heap all !! a = None) as Hnone by (apply lookup_ge_None; lia).
  destruct (lk_fresh _ _ _ Hok Hnone) as [Hal Ham].
  assert (forall b o, all_heap all !! b = Some o -> all_heap all' !! b = Some o) as Hheap.
  { intros b o Hb. subst all'. cbn [all_heap all_setMessages allocLease all_setHeap fst]. by apply lookup_app_l_Some. }
  assert (all_heap all' !! a = Some (mkLeaseObj ID lm false)) as Ha.
  { subst all'. cbn [all_heap all_setMessages allocLease all_setHeap fst]. by apply list_lookup_middle. }
  assert (forall ch' k, channelPlaces all' ch' !! k =
    if decide (ch' = ch /\ k = lmKey lm) then Some a else channelPlaces all ch' !! k) as Hpl.
  { intros ch' k. subst all'. rewrite (channelPlaces_insert (allocLease lm all).1 ch _ ch'). case_decide as Hc; [subst ch'|by rewrite decide_False by naive_solver].
    destruct (decide (k = lmKey lm)) as [->|Hk]; [rewrite lookup_insert_eq, decide_True by done; done|].
    rewrite lookup_insert_ne, decide_False by naive_solver. done. }
  split.
  - split.
    + apply (lk_nodup _ _ Hok).
    + eapply sortedBy_ext; [|apply (lk_sorted _ _ Hok)]. intros x Hx. destruct (lk_list _ _ Hok x Hx) as (lmx & Hlm & _).
      unfold leaseTrigger. by rewrite (Hheap _ _ Hlm), Hlm.
    + intros ch' m. subst all'. cbn [all_messagesByChannel all_setMessages]. destruct (decide (ch' = ch)) as [->|Hc].
      * rewrite lookup_insert_eq. intros [= <-]. eexists. split; [done|]. apply insert_non_empty.
      * rewrite lookup_insert_ne by done. apply (lk_some _ _ Hok).
    + intros ch' k b. rewrite Hpl. case_decide as Hc.
      * destruct Hc as [-> ->]. intros [= <-]. exists lm, false. split_and!; [done..|]. right. left.
      * intros Hb. destruct (lk_place _ _ Hok ch' k b Hb) as (lmb & e & Hlm & Hch & Hk & Hcase).
        exists lmb, e. split_and!; [by apply Hheap|done..|]. destruct Hcase as [?|?]; [by left|right; by right].
    + intros b [->|Hb]%elem_of_cons; [done|]. by apply (lk_pend _ _ Hok).
    + intros b Hb. destruct (lk_list _ _ Hok b Hb) as (lmb & Hlm & Hk). exists lmb. split; [by apply Hheap|].
      rewrite Hpl, decide_False; [done|]. intros [Hc Hk']. rewrite Hc, Hk', Hnew in Hk. done.
  - intros ch' k. apply option_eq. intros lm'. rewrite leaseAt_Some. setoid_rewrite Hpl. case_decide as Hc.
    + split; [intros (? & e & [= <-] & He); congruence|]. intros [= <-]. by exists a, false.
    + rewrite leaseAt_Some. split; intros (b & e & Hb & He); exists b, e; (split; [done|]).
      * destruct (lk_place _ _ Hok ch' k b Hb) as (lmb & e' & Hlm & _). rewrite (Hheap _ _ Hlm) in He. congruence.
      * by apply Hheap.
Qed.

Lemma linkLease_eq all a lm e :
  all_heap all !! a = Some (mkLeaseObj ID lm e) ->
  linkLease a all = all_setLeases (all_setHeap all (<[a := mkLeaseObj ID lm true]> (all_heap all)))
    (placeSorted (leaseTrigger all) a (all_leases all)).
Proof. intros Ha. unfold linkLease. cbn [insertLease all_setLeases all_heap]. by rewrite Ha. Qed.

(** Rewriting one message in memory: the leases of the map. *)
Lemma leaseAt_write all all' a lm e lm0 e0 :
  all_messagesByChannel all' = all_messagesByChannel all ->
  all_heap all' = <[a := mkLeaseObj ID lm e]> (all_heap all) -> all_heap all !! a = Some (mkLeaseObj ID lm0 e0) ->
  forall ch k, leaseAt all' ch k = if decide (channelPlaces all ch !! k = Some a) then Some lm else leaseAt all ch k.
Proof.
  intros Hm Hh Ha ch k. apply option_eq. intros lm'. rewrite leaseAt_Some. unfold channelPlaces. rewrite Hm. fold (channelPlaces all ch).
  rewrite Hh. case_decide as Hc.
  - rewrite Hc. split.
    + intros (b & e' & [= <-] & Hb). rewrite list_lookup_insert_eq in Hb by (by eapply lookup_lt_Some). congruence.
    + intros [= <-]. exists a, e. split; [done|]. apply list_lookup_insert_eq. by eapply lookup_lt_Some.
  - rewrite leaseAt_Some. split; intros (b & e' & Hb & Hlm); exists b, e'; (split; [done|]);
      assert (a ≠ b) by congruence; [by rewrite list_lookup_insert_ne in Hlm|by rewrite list_lookup_insert_ne].
Qed.

(** A pending message is put into the list. *)
Lemma link_ok pend all a ch k :
  lists_ok (a :: pend) all -> a ∉ pend -> channelPlaces all ch !! k = Some a ->
  lists_ok pend (linkLease a all) /\ (forall ch' k', leaseAt (linkLease a all) ch' k' = leaseAt all ch' k').
Proof.
  intros Hok Hap Hk. destruct (lk_place _ _ Hok ch k a Hk) as (lm & e & Ha & Hch & Hkey & _).
  rewrite (linkLease_eq all a lm e Ha). set (all' := all_setLeases _ _).
  assert (a ∉ all_leases all) as Hal by (apply (lk_pend _ _ Hok); left).
  destruct (placeSorted_ok (leaseTrigger all) a (all_leases all) (lk_nodup _ _ Hok) Hal (lk_sorted _ _ Hok)) as [Hperm Hsort].
  assert (forall b, leaseTrigger all' b = leaseTrigger all b) as Htr.
  { intros b. unfold leaseTrigger. cbn [all' all_heap all_setLeases all_setHeap]. destruct (decide (a = b)) as [<-|Hn].
    - by rewrite list_lookup_insert_eq, Ha by (by eapply lookup_lt_Some).
    - by rewrite list_lookup_insert_ne. }
  assert (forall b, b ∈ all_leases all' <-> b = a \/ b ∈ all_leases all) as Hin.
  { intros b. cbn [all' all_leases all_setLeases]. by rewrite Hperm, elem_of_cons. }
  assert (forall b lm', all_heap all !! b = Some (mkLeaseObj ID lm' true) -> all_heap all' !! b = Some (mkLeaseObj ID lm' true)) as Hheap.
  { intros b lm' Hb. cbn [all' all_heap all_setLeases all_setHeap]. destruct (decide (a = b)) as [<-|Hn];
      [rewrite list_lookup_insert_eq by (by eapply lookup_lt_Some); congruence|by rewrite list_lookup_insert_ne]. }
  assert (all_heap all' !! a = Some (mkLeaseObj ID lm true)) as Ha' by (apply list_lookup_insert_eq; by eapply lookup_lt_Some).
  split; [split|].
  - cbn [all' all_leases all_setLeases]. rewrite Hperm. apply list.NoDup_cons. split; [done|apply (lk_nodup _ _ Hok)].
  - eapply sortedBy_ext; [|exact Hsort]. done.
  - apply (lk_some _ _ Hok).
  - intros ch' k' b Hb. destruct (lk_place _ _ Hok ch' k' b Hb) as (lmb & eb & Hlm & Hchb & Hkb & Hcase).
    destruct (decide (b = a)) as [->|Hn].
    + exists lm, true. rewrite Ha in Hlm. simplify_eq. split_and!; [done..|]. left. split; [done|]. apply Hin. by left.
    + exists lmb, eb. split_and!; [|done..|].
      * cbn [all' all_heap all_setLeases all_setHeap]. by rewrite list_lookup_insert_ne.
      * destruct Hcase as [[-> Hb']|Hb']; [left; split; [done|]; apply Hin; by right|].
        right. by apply elem_of_cons in Hb' as [?|?].
  - intros b Hb Hb'. apply Hin in Hb' as [->|Hb']; [done|]. revert Hb'. apply (lk_pend _ _ Hok). by right.
  - intros b [->|Hb]%Hin; [exists lm; split; [done|]; by rewrite Hch, Hkey|].
    destruct (lk_list _ _ Hok b Hb) as (lmb & Hlm & Hkb). exists lmb. split; [by apply Hheap|done].
  - intros ch' k'. rewrite (leaseAt_write all all' a lm true lm e) by done. case_decide as Hc; [|done].
    symmetry. apply leaseAt_Some. by exists a, e.
Qed.

(** A pending message can change its times. *)
Lemma write_pending_ok pend all a ch k lm e lm' :
  lists_ok (a :: pend) all -> channelPlaces all ch !! k = Some a -> all_heap all !! a = Some (mkLeaseObj ID lm e) ->
  lm_ChannelID lm' = lm_ChannelID lm -> lmKey lm' = lmKey lm ->
  lists_ok (a :: pend) (writeLease a lm' e all) /\
  (forall ch' k', leaseAt (writeLease a lm' e all) ch' k' = if decide (channelPlaces all ch' !! k' = Some a) then Some lm' else leaseAt all ch' k').
Proof.
  intros Hok Hk Ha Hch' Hk'. split; [|by apply (leaseAt_write all _ a lm' e lm e)].
  assert (a ∉ all_leases all) as Hal by (apply (lk_pend _ _ Hok); left).
  assert (forall b, b ≠ a -> all_heap (writeLease a lm' e all) !! b = all_heap all !! b) as Hne.
  { intros b Hb. cbn [writeLease all_heap all_setHeap]. by rewrite list_lookup_insert_ne. }
  split.
  - apply (lk_nodup _ _ Hok).
  - eapply sortedBy_ext; [|apply (lk_sorted _ _ Hok)]. intros x Hx. unfold leaseTrigger. rewrite Hne; [done|]. by intros ->.
  - apply (lk_some _ _ Hok).
  - intros c kk b Hb. destruct (lk_place _ _ Hok c kk b Hb) as (lmb & eb & Hlm & Hc & Hkb & Hcase).
    destruct (decide (b = a)) as [->|Hn].
    + exists lm', e. rewrite Ha in Hlm. simplify_eq. split_and!; [|done..|right; left].
      apply list_lookup_insert_eq. by eapply lookup_lt_Some.
    + exists lmb, eb. by rewrite Hne.
  - apply (lk_pend _ _ Hok).
  - intros b Hb. destruct (lk_list _ _ Hok b Hb) as (lmb & Hlm & Hkb). exists lmb. rewrite Hne; [done|]. by intros ->.
Qed.

(** The key of a place. *)
Lemma place_key pend all ch k a lm e :
  lists_ok pend all -> channelPlaces all ch !! k = Some a -> all_heap all !! a = Some (mkLeaseObj ID lm e) ->
  ch = lm_ChannelID lm /\ k = lmKey lm.
Proof. intros Hok Hk Ha. destruct (lk_place _ _ Hok ch k a Hk) as (lm' & e' & Hlm & <- & <- & _). by simplify_eq. Qed.

Lemma place_of_lease all a lm :
  lists_ok [] all -> a ∈ all_leases all -> all_heap all !! a = Some (mkLeaseObj ID lm true) ->
  channelPlaces all (lm_ChannelID lm) !! lmKey lm = Some a.
Proof. intros Hok Ha Hlm. destruct (lk_list _ _ Hok a Ha) as (lm' & Hlm' & Hk). by simplify_eq. Qed.

(** The list and the map after a new trigger. *)
Lemma update_ok all a lm t :
  lists_ok [] all -> a ∈ all_leases all -> all_heap all !! a = Some (mkLeaseObj ID lm true) ->
  exists h l, updateLease a (writeLease a (lm_setTrigger lm t) true all) = Ok (all_setLeases (all_setHeap all h) l) /\
    lists_ok [] (all_setLeases (all_setHeap all h) l) /\
    (forall b, b ≠ a -> h !! b = all_heap all !! b) /\
    forall ch k, leaseAt (all_setLeases (all_setHeap all h) l) ch k =
      if decide (ch = lm_ChannelID lm /\ k = lmKey lm) then Some (lm_setTrigger lm t) else leaseAt all ch k.
Proof.
  intros Hok Hin Ha. pose proof (place_of_lease all a lm Hok Hin Ha) as Hpl.
  set (h := <[a := mkLeaseObj ID (lm_setTrigger lm t) true]> (all_heap all)).
  set (f := leaseTrigger (all_setHeap all h)).
  assert (h !! a = Some (mkLeaseObj ID (lm_setTrigger lm t) true)) as Hha by (apply list_lookup_insert_eq; by eapply lookup_lt_Some).
  assert (forall b, b ≠ a -> h !! b = all_heap all !! b) as Hne by (intros; by apply list_lookup_insert_ne).
  set (l := placeSorted f a (listRemove a (all_leases all))).
  assert (NoDup (listRemove a (all_leases all))) as Hnd by (apply list.NoDup_filter, (lk_nodup _ _ Hok)).
  assert (a ∉ listRemove a (all_leases all)) as Hnin by (rewrite elem_of_listRemove; tauto).
  destruct (placeSorted_ok f a (listRemove a (all_leases all)) Hnd Hnin) as [Hperm Hsort].
  { eapply sortedBy_ext; [|apply sortedBy_remove, (lk_sorted _ _ Hok)]. intros x [_ Hx]%elem_of_listRemove.
    unfold f, leaseTrigger. cbn [all_heap all_setHeap]. by rewrite Hne. }
  fold l in Hperm, Hsort. rewrite (listRemove_perm a _ (lk_nodup _ _ Hok) Hin) in Hperm.
  assert (updateLease a (writeLease a (lm_setTrigger lm t) true all) = Ok (all_setLeases (all_setHeap all h) l)) as Hrun.
  { unfold updateLease, writeLease. cbn [all_heap all_setHeap]. fold h. rewrite Hha. do 2 f_equal. subst l. unfold placeSorted.
    unfold findSortedPosition. fold f. rewrite (find_remove f (f a) a) by lia. cbn [all_leases all_setHeap].
    pose proof (find_split f (f a) (all_leases all)) as Hf. destruct (findAfter f (f a) (all_leases all)) as [mark|].
    - destruct Hf as (l1 & l2 & Hl & _ & Hm). unfold moveBefore. rewrite decide_True; [done|]. split; [done|].
      split; [rewrite Hl; apply elem_of_app; right; left|]. intros ->. lia.
    - unfold moveToBack. by rewrite decide_True. }
  exists h, l. split; [exact Hrun|]. split; [split|split; [done|]].
  - cbn [all_leases all_setLeases]. rewrite Hperm. apply (lk_nodup _ _ Hok).
  - exact Hsort.
  - apply (lk_some _ _ Hok).
  - intros ch k b Hb. destruct (lk_place _ _ Hok ch k b Hb) as (lmb & eb & Hlm & Hc & Hkb & [[-> Hl]|Hn%not_elem_of_nil]); [|done].
    cbn [all_heap all_setHeap all_setLeases all_leases]. destruct (decide (b = a)) as [->|Hn].
    + rewrite Hha. simplify_eq. exists (lm_setTrigger lm t), true. split_and!; [done..|]. left. split; [done|]. by rewrite Hperm.
    + exists lmb, true. rewrite Hne by done. split_and!; [done..|]. left. split; [done|]. by rewrite Hperm.
  - by intros b ?%not_elem_of_nil.
  - intros b Hb. cbn [all_leases all_setLeases] in Hb. rewrite Hperm in Hb. destruct (decide (b = a)) as [->|Hn].
    + exists (lm_setTrigger lm t). by split.
    + destruct (lk_list _ _ Hok b Hb) as (lmb & Hlm & Hkb). exists lmb. cbn [all_heap all_setHeap all_setLeases]. by rewrite Hne.
  - intros ch k. rewrite (leaseAt_write all _ a (lm_setTrigger lm t) true lm true) by done.
    destruct (decide (ch = lm_ChannelID lm /\ k = lmKey lm)) as [[-> ->]|Hn]; [by rewrite decide_True|].
    rewrite decide_False; [done|]. intros Hk. apply Hn. by eapply place_key.
Qed.

(** A message leaves the list and the map. *)
Lemma drop_ok all a lm :
  lists_ok [] all -> a ∈ all_leases all -> all_heap all !! a = Some (mkLeaseObj ID lm true) ->
  exists m upd, dropMessage (lm_ChannelID lm) (lmKey lm) (all_setLeases all (listRemove a (all_leases all))) =
      (all_setMessages (all_setLeases all (listRemove a (all_leases all))) m, upd) /\
    (forall ch, ch ≠ lm_ChannelID lm -> m !! ch = all_messagesByChannel all !! ch) /\
    (if upd then m !! lm_ChannelID lm = None else is_Some (m !! lm_ChannelID lm)) /\
    let all' := all_setMessages (all_setLeases all (listRemove a (all_leases all))) m in
    lists_ok [] all' /\
    forall ch k, leaseAt all' ch k = if decide (ch = lm_ChannelID lm /\ k = lmKey lm) then None else leaseAt all ch k.
Proof.
  intros Hok Hin Ha. pose proof (place_of_lease all a lm Hok Hin Ha) as Hpl.
  set (all1 := all_setLeases all (listRemove a (all_leases all))). set (ch0 := lm_ChannelID lm) in *.
  set (ms := delete (lmKey lm) (channelPlaces all1 ch0)).
  assert (exists m upd, dropMessage ch0 (lmKey lm) all1 = (all_setMessages all1 m, upd) /\
    (forall ch, ch ≠ ch0 -> m !! ch = all_messagesByChannel all !! ch) /\
    (forall x, m !! ch0 = Some x -> x = Some ms /\ ms ≠ ∅) /\
    (if upd then m !! ch0 = None else is_Some (m !! ch0)) /\
    (forall ch k, channelPlaces (all_setMessages all1 m) ch !! k =
      if decide (ch = ch0 /\ k = lmKey lm) then None else channelPlaces all ch !! k)) as (m & upd & Hdrop & Hoff & Hon & Hupd & Hm).
  { unfold dropMessage. fold ms. destruct (Nat.eqb_spec (size ms) 0) as [Hz|Hnz].
    - eexists _, _. split; [done|]. split; [intros ch Hc; by rewrite lookup_delete_ne|].
      split; [intros x; by rewrite lookup_delete_eq|]. split; [by rewrite lookup_delete_eq|].
      intros ch k. rewrite (channelPlaces_delete all1). apply map_size_empty_iff in Hz. case_decide as Hc; [subst ch|by rewrite decide_False by naive_solver].
      rewrite lookup_empty. case_decide as Hk; [done|]. assert (ms !! k = None) as Hms by (by rewrite Hz, lookup_empty).
      subst ms. rewrite lookup_delete_ne in Hms by naive_solver. done.
    - eexists _, _. split; [done|]. split; [intros ch Hc; by rewrite lookup_insert_ne|].
      split; [intros x; rewrite lookup_insert_eq; intros [= <-]; split; [done|]; intros ->; by rewrite map_size_empty in Hnz|].
      split; [by rewrite lookup_insert_eq|].
      intros ch k. rewrite (channelPlaces_insert all1). case_decide as Hc; [subst ch|by rewrite decide_False by naive_solver].
      subst ms. destruct (decide (k = lmKey lm)) as [->|Hk]; [by rewrite lookup_delete_eq, decide_True|].
      rewrite lookup_delete_ne, decide_False by naive_solver. done. }
  exists m, upd. split; [done|]. split; [done|]. split; [done|]. intros all'.
  assert (forall ch k b, channelPlaces all' ch !! k = Some b -> channelPlaces all ch !! k = Some b /\ b ≠ a) as Hsub.
  { intros ch k b. subst all'. rewrite Hm. case_decide as Hc; [done|]. intros Hb. split; [done|]. intros ->. apply Hc. by eapply place_key. }
  split; [split|].
  - apply list.NoDup_filter, (lk_nodup _ _ Hok).
  - apply sortedBy_remove. apply (lk_sorted _ _ Hok).
  - intros ch x. subst all'. cbn [all_messagesByChannel all_setMessages]. destruct (decide (ch = ch0)) as [->|Hc].
    + intros [-> ?]%Hon. eauto.
    + rewrite Hoff by done. apply (lk_some _ _ Hok).
  - intros ch k b [Hb Hba]%Hsub. destruct (lk_place _ _ Hok ch k b Hb) as (lmb & eb & Hlm & Hc & Hkb & [[-> Hl]|Hn%not_elem_of_nil]); [|done].
    exists lmb, true. split_and!; [done..|]. left. split; [done|]. apply elem_of_listRemove. by split.
  - by intros b ?%not_elem_of_nil.
  - intros b [Hb Hba]%elem_of_listRemove. destruct (lk_list _ _ Hok b Hb) as (lmb & Hlm & Hkb). exists lmb. split; [done|].
    subst all'. rewrite Hm, decide_False; [done|]. intros [Hc Hk]. rewrite Hc, Hk in Hkb. congruence.
  - intros ch k. apply option_eq. intros lm'. rewrite leaseAt_Some. subst all'. setoid_rewrite Hm. case_decide as Hc; [naive_solver|]. by rewrite (leaseAt_Some all).
Qed.
End invariant.

(** ** Storage *)

(** What JSON represents: times within some thousand years of 1970. *)
Definition time_ok (t : Time) : Prop := - 2 ^ 65 <= t <= 2 ^ 65.
Definition lease_ok {ID} (lm : leaseMessage ID) : Prop :=
  is_u 16 (lm_Action lm) /\ - 2 ^ 63 <= lm_Lease lm < 2 ^ 63 /\
  0 <= lm_OriginatingTimestamp lm < 2 ^ 63 /\ time_ok (lm_LeaseEnd lm) /\ time_ok (lm_LeaseTrigger lm).

Class LeaseJson {ID} `{JsonCodec (gmap string (leaseMessage ID))} : Prop :=
  leases_json (ms : gmap string (leaseMessage ID)) : map_Forall (fun _ => lease_ok) ms -> json_ok ms.

(** A lease but for its times, which a start can put off. *)
Definition leaseCore {ID} (lm : leaseMessage ID) : ID * MessageType * list byte * Time * Z :=
  (lm_ChannelID lm, lm_Action lm, lm_Payload lm, lm_OriginatingTimestamp lm, lm_Lease lm).

(** A stored lease and the one in memory when the program was started at [t0]:
    they are the same, or the stored one was overdue at that start and was put
    off by the waiting time for replays, its end too when it was triggered at its
    end. *)
Definition storedAs {ID} (t0 : Time) (stored lm : leaseMessage ID) : Prop :=
  lm = stored \/
  lm_LeaseTrigger stored < t0 /\ exists d, replayWaitMin <= d <= replayWaitMax /\
    lm = lm_setTrigger (if lm_LeaseTrigger stored =? lm_LeaseEnd stored then lm_setEnd stored (t0 + d) else stored) (t0 + d).

Lemma storedAs_core {ID} t0 (a b : leaseMessage ID) : storedAs t0 a b -> leaseCore b = leaseCore a.
Proof. intros [->|(_ & d & _ & ->)]; [done|]. by destruct (_ =? _). Qed.

Lemma storedAs_trans {ID} t0 (a b c : leaseMessage ID) : storedAs t0 a b -> storedAs t0 b c -> storedAs t0 a c.
Proof.
  intros [->|(Ha & d & Hd & ->)] Hbc; [done|]. right. destruct Hbc as [->|(Hb & _)]; [eauto|].
  cbn [lm_LeaseTrigger lm_setTrigger] in Hb. unfold replayWaitMin, minute in Hd. lia.
Qed.

(** The same under every key. *)
Definition allStoredAs {ID} (t0 : Time) (stored lms : option (leaseMessage ID)) : Prop :=
  option_Forall2 (storedAs t0) stored lms.

Lemma allStoredAs_refl {ID} t0 (x : option (leaseMessage ID)) : allStoredAs t0 x x.
Proof. destruct x; constructor. by left. Qed.

Lemma allStoredAs_trans {ID} t0 (x y z : option (leaseMessage ID)) :
  allStoredAs t0 x y -> allStoredAs t0 y z -> allStoredAs t0 x z.
Proof.
  intros Hxy Hyz. destruct Hxy as [a b Hab|]; inversion Hyz; subst; constructor. by eapply storedAs_trans.
Qed.

Lemma allStoredAs_core {ID} t0 (x y : option (leaseMessage ID)) :
  allStoredAs t0 x y -> leaseCore <$> x = leaseCore <$> y.
Proof. intros [a b Hab|]; [|done]. cbn. by rewrite (storedAs_core _ _ _ Hab). Qed.

(** Nothing under other handles changed. *)
Definition othersKept {S} `{EKV S} (v : kv) (s s' : S) : Prop :=
  forall u key, kv_handle u -> prefix u ≠ prefix v -> strContains PrefixSeparator key = false ->
    kv_Get u s' key 0 = kv_Get u s key 0.

Section storage.
Context {S ID Rnd R : Type} `{EKVLaws S, !EKVReliable S} `{NetIDLaws ID} `{CMixHash}.
Context `{JsonCodec (gmap string (commandMessage ID))} `{JsonCodec (list ID)} `{!ReplayJson (ID := ID)}
        `{JsonCodec (gmap string (leaseMessage ID))} `{!LeaseJson (ID := ID)}.
Context (channelOrder : gmap ID (goMap string nat) -> list ID) `{!MapOrder channelOrder}.
Context (v : kv) (Hv : kv_handle v).
Implicit Types (all : ActionLeaseList ID Rnd R) (s : S).

Lemma othersKept_refl s : othersKept v s s.
Proof. by intros u key. Qed.
Lemma othersKept_trans s1 s2 s3 : othersKept v s1 s2 -> othersKept v s2 s3 -> othersKept v s1 s3.
Proof. intros H12 H23 u key Hu Hp Hk. by rewrite H23, H12. Qed.
Lemma changesOnly_others key s s' : changesOnly v key s s' -> othersKept v s s'.
Proof. intros Hch u k Hu Hp Hk. apply Hch; [done..|]. by intros [= ? _]. Qed.

Lemma leasesKey_inj (a b : ID) : makeChannelLeaseMessagesKey a = makeChannelLeaseMessagesKey b -> a = b.
Proof.
  unfold makeChannelLeaseMessagesKey. intros Heq%(inj (String.append _)). apply b64Encode_inj in Heq.
  by apply id_Bytes_inj.
Qed.
Lemma leasesKey_list (a : ID) : makeChannelLeaseMessagesKey a ≠ channelLeaseKey.
Proof. done. Qed.
Lemma leasesKey_no_sep (a : ID) : strContains PrefixSeparator (makeChannelLeaseMessagesKey a) = false.
Proof. unfold makeChannelLeaseMessagesKey. by rewrite chars_no_sep_app, b64Encode_no_sep. Qed.

(** Storage holds the channels, and the leases with their times, but for those
    that were overdue when the program was started at [t0]. *)
Record leases_stored (t0 : Time) s all : Prop := {
  ls_list : (absent v s channelLeaseKey /\ all_messagesByChannel all = ∅) \/
    exists o l, kv_Get v s channelLeaseKey 0 = inr o /\ json_Unmarshal (Data o) = Some l /\
      NoDup l /\ forall ch, ch ∈ l <-> is_Some (all_messagesByChannel all !! ch);
  ls_messages ch : is_Some (all_messagesByChannel all !! ch) ->
    exists o M, kv_Get v s (makeChannelLeaseMessagesKey ch) 0 = inr o /\ json_Unmarshal (Data o) = Some M /\
      map_Forall (fun _ => lease_ok) M /\ forall k, allStoredAs t0 (M !! k) (leaseAt all ch k);
  ls_ok ch k lm : leaseAt all ch k = Some lm -> lease_ok lm;
}.

Lemma storeLeaseChannels_ok s all now :
  all_kv all = v ->
  exists s', storeLeaseChannels channelOrder now (s, all) = Done (s', all) tt /\
    changesOnly v channelLeaseKey s s' /\
    exists o l, kv_Get v s' channelLeaseKey 0 = inr o /\ json_Unmarshal (Data o) = Some l /\
      NoDup l /\ forall ch, ch ∈ l <-> is_Some (all_messagesByChannel all !! ch).
Proof.
  intros Hkv. destruct (set_step v s channelLeaseKey now (json_Marshal (channelOrder (all_messagesByChannel all))) Hv eq_refl) as (s' & Hset & Hget & Hch).
  exists s'. split; [unfold storeLeaseChannels; rewrite Hkv; by apply onStore_Done|]. split; [done|].
  eexists _, _. split; [done|]. split; [by apply json_roundtrip, channels_json|].
  split; [apply map_order_nodup|]. intros ch. apply map_order_elem.
Qed.

Lemma deleteLeaseMessages_ok s all ch :
  all_kv all = v ->
  exists s', deleteLeaseMessages ch (s, all) = Done (s', all) tt /\ changesOnly v (makeChannelLeaseMessagesKey ch) s s'.
Proof.
  intros Hkv. destruct (delete_step v s (makeChannelLeaseMessagesKey ch) Hv (leasesKey_no_sep ch)) as (s' & Hd & _ & Hch).
  exists s'. split; [|done]. unfold deleteLeaseMessages. rewrite Hkv. by apply onStore_Done.
Qed.

Lemma storeLeaseMessages_ok {t0 : Time} s all ch now :
  all_kv all = v -> (forall k lm, leaseAt all ch k = Some lm -> lease_ok lm) ->
  (forall m, all_messagesByChannel all !! ch = Some m -> exists ms, m = Some ms /\ ms ≠ ∅) ->
  exists s', storeLeaseMessages ch now (s, all) = Done (s', all) tt /\
    changesOnly v (makeChannelLeaseMessagesKey ch) s s' /\
    (is_Some (all_messagesByChannel all !! ch) ->
      exists o M, kv_Get v s' (makeChannelLeaseMessagesKey ch) 0 = inr o /\ json_Unmarshal (Data o) = Some M /\
        map_Forall (fun _ => lease_ok) M /\ forall k, allStoredAs t0 (M !! k) (leaseAt all ch k)).
Proof.
  intros Hkv Hok Hne. unfold storeLeaseMessages. destruct (all_messagesByChannel all !! ch) as [m|] eqn:Hch.
  - destruct (Hne m eq_refl) as (ms & -> & Hms).
    assert (channelPlaces all ch = ms) as Hpl by (exact (channelPlaces_Some _ _ _ Hch)).
    rewrite Hpl, (proj2 (Nat.eqb_neq _ _)) by (intros Hz; by apply Hms, map_size_empty_iff).
    destruct (set_step v s (makeChannelLeaseMessagesKey ch) now (json_Marshal (channelMessages all ch)) Hv (leasesKey_no_sep ch)) as (s' & Hset & Hget & Hfr).
    exists s'. split; [rewrite Hkv; by apply onStore_Done|]. split; [done|]. intros _.
    eexists _, (channelMessages all ch). split; [done|].
    assert (map_Forall (fun _ => lease_ok) (channelMessages all ch)) as Hall by (intros k lm; apply Hok).
    split; [by apply json_roundtrip, leases_json|]. split; [done|]. intros k. apply allStoredAs_refl.
  - assert (channelPlaces all ch = ∅) as -> by (exact (channelPlaces_None _ _ Hch)). rewrite map_size_empty. cbn [Nat.eqb].
    destruct (deleteLeaseMessages_ok s all ch Hkv) as (s' & Hd & Hfr). exists s'. split; [done|]. split; [done|]. by intros [].
Qed.

Lemma updateStorage_ok {t0 : Time} s all0 all ch upd now :
  leases_stored t0 s all0 -> all_kv all = v ->
  (forall ch', ch' ≠ ch -> all_messagesByChannel all !! ch' = all_messagesByChannel all0 !! ch') ->
  (forall ch' k, ch' ≠ ch -> leaseAt all ch' k = leaseAt all0 ch' k) ->
  (forall k lm, leaseAt all ch k = Some lm -> lease_ok lm) ->
  (forall m, all_messagesByChannel all !! ch = Some m -> exists ms, m = Some ms /\ ms ≠ ∅) ->
  (upd = false -> is_Some (all_messagesByChannel all0 !! ch) /\ is_Some (all_messagesByChannel all !! ch)) ->
  exists s', updateStorage channelOrder ch upd now (s, all) = Done (s', all) tt /\ leases_stored t0 s' all /\ othersKept v s s'.
Proof.
  intros [Hl Hms Hok] Hkv Hm Hle Hnew Hsome Hupd.
  destruct (storeLeaseMessages_ok (t0 := t0) s all ch now Hkv Hnew Hsome) as (s1 & Hrun & Hfr & Hget).
  assert (forall ch' k lm, leaseAt all ch' k = Some lm -> lease_ok lm) as Hok'.
  { intros ch' k lm. destruct (decide (ch' = ch)) as [->|Hn]; [apply Hnew|]. rewrite Hle by done. apply Hok. }
  assert (forall ch', is_Some (all_messagesByChannel all !! ch') ->
    exists o M, kv_Get v s1 (makeChannelLeaseMessagesKey ch') 0 = inr o /\ json_Unmarshal (Data o) = Some M /\
      map_Forall (fun _ => lease_ok) M /\ forall k, allStoredAs t0 (M !! k) (leaseAt all ch' k)) as Hms1.
  { intros ch' Hch'. destruct (decide (ch' = ch)) as [->|Hn]; [by apply Hget|]. rewrite Hm in Hch' by done.
    destruct (Hms ch' Hch') as (o & M & Hg & Hj & Hall & HM). exists o, M. split; [|split; [done|split; [done|]]].
    - rewrite Hfr; [done|done|apply leasesKey_no_sep|]. intros Hk%(f_equal snd). by apply Hn, leasesKey_inj.
    - intros k. rewrite Hle by done. apply HM. }
  unfold updateStorage. erewrite bind_Done by (apply annotate_Done; exact Hrun). destruct upd.
  - destruct (storeLeaseChannels_ok s1 all now Hkv) as (s2 & Hrun2 & Hfr2 & Hlist). exists s2. split; [by apply annotate_Done|].
    split; [|eapply othersKept_trans; by eapply changesOnly_others].
    split; [by right| |done]. intros ch' Hch'. destruct (Hms1 ch' Hch') as (o & M & Hg & HM). exists o, M. split; [|done].
    rewrite Hfr2; [done|done|apply leasesKey_no_sep|]. intros Hk%(f_equal snd); by apply (leasesKey_list ch').
  - exists s1. split; [done|]. split; [|by eapply changesOnly_others]. split; [|done|done]. destruct (Hupd eq_refl) as [[x Hx] Hx'].
    destruct Hl as [[_ He]|(o & l & Hg & Hj & Hnd & Hl)]; [by rewrite He, lookup_empty in Hx|]. right. exists o, l.
    split; [rewrite Hfr; [done|done|done|intros Hk%(f_equal snd); by apply (leasesKey_list ch)]|]. split; [done|]. split; [done|].
    intros ch'. rewrite Hl. destruct (decide (ch' = ch)) as [->|Hn]; [|by rewrite Hm]. split; [done|by exists x].
Qed.
End storage.

(** ** The operations *)

Section ops.
Context {S ID Rnd R : Type} `{EKVLaws S, !EKVReliable S} `{NetIDLaws ID} `{CMixHash} `{LeaseRandomLaws R}.
Context `{JsonCodec (CommandMessage ID Rnd)} `{JsonCodec (gmap string (commandMessage ID))} `{JsonCodec (list ID)}
        `{!ReplayJson (ID := ID)} `{JsonCodec (gmap string (leaseMessage ID))} `{!LeaseJson (ID := ID)}.
Context (rbChannelOrder : gmap ID (goMap string (commandMessage ID)) -> list ID) `{!MapOrder rbChannelOrder}
        (commandOrder : gmap string (commandMessage ID) -> list string)
        (channelOrder : gmap ID (goMap string nat) -> list ID) `{!MapOrder channelOrder}
        (leaseOrder : gmap string nat -> list string) `{!MapOrder leaseOrder}.
Context (v cs rv : kv) (Hv : kv_handle v) (Hcs : kv_Prefix v commandStorePrefix = Ok cs)
        (Hrv : kv_Prefix v replayBlockerStoragePrefix = Ok rv).
Implicit Types (all : ActionLeaseList ID Rnd R) (s : S) (lm : leaseMessage ID)
  (A : gmap ID (gmap string (commandMessage ID))).

(** Memory and storage of the lease system: the leases, and the commands [A] the
    replay blocker keeps. *)
Record lease_inv (t0 : Time) s all A : Prop := {
  li_lists : lists_ok [] all;
  li_stored : leases_stored v t0 s all;
  li_kv : all_kv all = v;
  li_store : all_store all = cs;
  li_rb : all_rb all = rb_of cs rv A;
  li_rbStored : rb_stored rv s A;
}.

Lemma v_rv : prefix v ≠ prefix rv. Proof. apply not_eq_sym. by eapply kv_Prefix_ne. Qed.
Lemma v_cs : prefix v ≠ prefix cs. Proof. apply not_eq_sym. by eapply kv_Prefix_ne. Qed.

Lemma leases_stored_frame {t0 : Time} s s' all :
  (forall key, strContains PrefixSeparator key = false -> kv_Get v s' key 0 = kv_Get v s key 0) ->
  leases_stored v t0 s all -> leases_stored v t0 s' all.
Proof.
  intros Hfr [Hl Hm Hok]. split; [| |done].
  - destruct Hl as [[(e & He & Hex) ?]|(o & l & Hg & Hl)]; [left; split; [|done]; exists e|right; exists o, l]; by rewrite Hfr.
  - intros ch Hch. destruct (Hm ch Hch) as (o & M & Hg & HM). exists o, M. rewrite Hfr by apply leasesKey_no_sep. done.
Qed.

Lemma leases_stored_rbKept {t0 : Time} s s' all : rbKept cs rv s s' -> leases_stored v t0 s all -> leases_stored v t0 s' all.
Proof. intros Hk. apply leases_stored_frame. intros key Hn. apply Hk; [done|apply v_rv|apply v_cs|done]. Qed.

Lemma rb_stored_othersKept s s' A : othersKept v s s' -> rb_stored rv s A -> rb_stored rv s' A.
Proof.
  intros Hk. apply rb_stored_frame. intros key Hn. apply Hk; [by eapply rv_handle|by apply not_eq_sym, v_rv|done].
Qed.

Lemma leaseAt_None pend all ch k : lists_ok pend all -> leaseAt all ch k = None <-> channelPlaces all ch !! k = None.
Proof.
  intros Hok. destruct (leaseAt all ch k) as [lm|] eqn:E; [apply leaseAt_Some in E as (a & e & -> & _); done|].
  split; [intros _|done]. destruct (channelPlaces all ch !! k) as [a|] eqn:Hk; [|done].
  destruct (lk_place _ _ Hok ch k a Hk) as (lm & e & Hlm & _). assert (leaseAt all ch k = Some lm); [|congruence].
  apply leaseAt_Some. by exists a, e.
Qed.

(** The queues are left alone. *)
Definition queues all :=
  (all_addLeaseMessage all, all_removeLeaseMessage all, all_removeChannelCh all, all_spawned all).

(** A lease that is new is put into the list. *)
Lemma addMessage_ok {t0 : Time} lm s all A now :
  lease_inv t0 s all A -> lease_ok lm -> leaseAt all (lm_ChannelID lm) (lmKey lm) = None ->
  exists s' all', addMessage channelOrder lm now (s, all) = Done (s', all') tt /\ lease_inv t0 s' all' A /\
    queues all' = queues all /\ othersKept v s s' /\
    forall ch k, leaseAt all' ch k = if decide (ch = lm_ChannelID lm /\ k = lmKey lm) then Some lm else leaseAt all ch k.
Proof.
  intros [Hlk Hst Hkv Hsto Hrb Hrbs] Hlm Hnone. set (ch := lm_ChannelID lm) in *. set (a := length (all_heap all)).
  pose proof (proj1 (leaseAt_None _ _ _ _ Hlk) Hnone) as Hpl.
  set (m := <[ch := Some (<[lmKey lm := a]> (channelPlaces all ch))]> (all_messagesByChannel all)).
  destruct (alloc_ok [] all lm Hlk (List.Forall_nil _) Hpl) as [Hok1 Hle1]. fold ch a m in Hok1, Hle1.
  set (all1 := all_setMessages (allocLease lm all).1 m) in *.
  assert (all_heap all1 !! a = Some (mkLeaseObj ID lm false)) as Ha by (by apply list_lookup_middle).
  assert (channelPlaces all1 ch !! lmKey lm = Some a) as Hp1.
  { unfold all1, m. rewrite (channelPlaces_insert (allocLease lm all).1 ch _ ch), decide_True by done. by rewrite lookup_insert_eq. }
  destruct (link_ok [] all1 a ch (lmKey lm) Hok1 (not_elem_of_nil _) Hp1) as [Hok2 Hle2].
  assert (linkLease a all1 = all_setMessages (linkLease a (allocLease lm all).1) m) as Heq.
  { rewrite (linkLease_eq all1 a lm false Ha). rewrite (linkLease_eq (allocLease lm all).1 a lm false); [done|]. exact Ha. }
  assert (all_messagesByChannel (linkLease a all1) = m) as Hmbc by (by rewrite Heq).
  destruct (updateStorage_ok channelOrder v Hv s all (linkLease a all1) ch
    (match all_messagesByChannel all !! ch with None => true | Some _ => false end) now Hst) as (s' & Hrun & Hst' & Hkept).
  - by rewrite (linkLease_eq all1 a lm false Ha).
  - intros ch' Hn. rewrite Hmbc. unfold m. by rewrite lookup_insert_ne.
  - intros ch' k Hn. rewrite Hle2, Hle1. rewrite decide_False; [done|]. naive_solver.
  - intros k lm'. rewrite Hle2, Hle1. case_decide; [by intros [= <-]|]. apply (ls_ok v t0 s all Hst).
  - apply (lk_some _ _ Hok2).
  - intros Hu. rewrite Hmbc. unfold m. rewrite lookup_insert_eq. split; [|done]. by destruct (all_messagesByChannel all !! ch).
  - exists s', (linkLease a all1). split; [|split; [|split; [|split; [done|intros ch' k; by rewrite Hle2, Hle1]]]].
    + unfold addMessage. cbn [allocLease]. fold a ch. change (all_setHeap all (all_heap all ++ [mkLeaseObj ID lm false])) with (allocLease lm all).1.
      change (all_messagesByChannel (allocLease lm all).1) with (all_messagesByChannel all).
      assert (all_messagesByChannel (linkLease a (allocLease lm all).1) = all_messagesByChannel all) as Hmm
        by (by rewrite (linkLease_eq (allocLease lm all).1 a lm false Ha)).
      rewrite Hmm. destruct (all_messagesByChannel all !! ch) as [ms|] eqn:Hch.
      * destruct (lk_some _ _ Hlk ch ms Hch) as (ms' & -> & _).
        assert (channelPlaces all ch = ms') as Hp by (exact (channelPlaces_Some _ _ _ Hch)).
        assert (goEntries (Some ms') !! lmKey lm = None) as -> by (by rewrite <- Hpl, Hp).
        rewrite <- Hp. fold m. by rewrite <- Heq.
      * assert (channelPlaces all ch = ∅) as Hp by (exact (channelPlaces_None _ _ Hch)).
        rewrite <- insert_empty, <- Hp. fold m. by rewrite <- Heq.
    + split; [done|done| | | |by eapply rb_stored_othersKept]; by rewrite (linkLease_eq all1 a lm false Ha).
    + by rewrite (linkLease_eq all1 a lm false Ha).
Qed.

(** A lease of the map is in the list. *)
Lemma lease_place all lm :
  lists_ok [] all -> leaseAt all (lm_ChannelID lm) (lmKey lm) = Some lm \/ is_Some (leaseAt all (lm_ChannelID lm) (lmKey lm)) ->
  exists a lm', findLease lm all = Some a /\ a ∈ all_leases all /\ all_heap all !! a = Some (mkLeaseObj ID lm' true) /\
    leaseAt all (lm_ChannelID lm) (lmKey lm) = Some lm' /\ lm_ChannelID lm' = lm_ChannelID lm /\ lmKey lm' = lmKey lm.
Proof.
  intros Hlk Hl. assert (exists lm', leaseAt all (lm_ChannelID lm) (lmKey lm) = Some lm') as [lm' Hlm] by (destruct Hl as [?|[? ?]]; eauto).
  pose proof (proj1 (leaseAt_Some _ _ _ _) Hlm) as (a & e & Hpl & Ha).
  destruct (lk_place _ _ Hlk _ _ a Hpl) as (lm0 & e0 & Ha0 & Hch & Hk & [[-> Hin]|Hn%not_elem_of_nil]); [|done].
  rewrite Ha0 in Ha. injection Ha as <- <-. by exists a, lm0.
Qed.

(** A lease that exists already makes the program panic. *)
Lemma addMessage_dup {t0 : Time} lm s all A now :
  lease_inv t0 s all A -> is_Some (leaseAt all (lm_ChannelID lm) (lmKey lm)) -> addMessage channelOrder lm now (s, all) = Crash.
Proof.
  intros [Hlk Hst Hkv Hsto Hrb Hrbs] Hl. destruct (lease_place all lm Hlk (or_intror Hl)) as (a & lm' & Hf & _).
  unfold addMessage. cbn [allocLease all_setHeap all_messagesByChannel all_heap].
  unfold findLease in Hf. destruct (all_messagesByChannel all !! lm_ChannelID lm) as [m|] eqn:Hch;
    [|by rewrite (channelPlaces_None _ _ Hch), lookup_empty in Hf].
  rewrite (channelPlaces_Some _ _ _ Hch) in Hf. rewrite Hf. unfold updateLease. cbn [all_setHeap all_heap].
  by rewrite list_lookup_middle.
Qed.

Lemma removeMessage_ok {t0 : Time} newLm expired s all A now :
  lease_inv t0 s all A ->
  let ch0 := lm_ChannelID newLm in let k0 := lmKey newLm in
  let A' := if (expired && bool_decide (is_Some (leaseAt all ch0 k0)))%bool then dropCommand A ch0 k0 else A in
  exists s' all', removeMessage rbChannelOrder channelOrder newLm expired now (s, all) = Done (s', all') tt /\ lease_inv t0 s' all' A' /\
    queues all' = queues all /\ all_rng all' = all_rng all /\ all_heap all' = all_heap all /\
    forall ch k, leaseAt all' ch k = if decide (ch = ch0 /\ k = k0) then None else leaseAt all ch k.
Proof.
  intros Hinv ch0 k0 A'. pose proof Hinv as [Hlk Hst Hkv Hsto Hrb Hrbs]. unfold removeMessage.
  destruct (leaseAt all ch0 k0) as [lm|] eqn:Hle.
  2:{ exists s, all. assert (findLease newLm all = None) as -> by (by apply (leaseAt_None [])).  unfold A'. rewrite bool_decide_false by (by intros []).
      rewrite andb_false_r. split_and!; [done..|]. intros ch k. by case_decide as Hc; [destruct Hc as [-> ->]|]. }
  destruct (lease_place all newLm Hlk) as (a & lm' & Hf & Hin & Ha & Hl & Hch & Hk); [right; by exists lm|].
  change (leaseAt all ch0 k0 = Some lm') in Hl. rewrite Hle in Hl. injection Hl as <-. rewrite Hf, Ha. fold k0 ch0 in Hk, Hch |- *. rewrite <- Hk, Hch.
  destruct (drop_ok all a lm Hlk Hin Ha) as (m & upd & Hdrop & Hoff & Hupd & Hlk' & Hle').
  rewrite Hch in Hdrop, Hoff, Hupd, Hle'. rewrite Hdrop. set (all1 := all_setMessages _ m) in *.
  assert (exists s1, (if expired then
        _ ← logged (onRb (Rnd := Rnd) (R := R) (rb_removeCommand rbChannelOrder ch0 (lm_Action lm) (lm_Payload lm) now));
        logged (onStore (DeleteCommand (all_store all) ch0 (lm_Action lm) (lm_Payload lm)))
      else mret tt) (s, all1) = Done (s1, all_setRb all1 (rb_of cs rv A')) tt /\ rb_stored rv s1 A' /\ leases_stored v t0 s1 all)
    as (s1 & Hrun1 & Hrbs1 & Hst1).
  { unfold A'. rewrite bool_decide_true by (by eexists). rewrite andb_true_r. destruct expired.
    - destruct (remove_refines rbChannelOrder commandOrder v cs rv now Hv Hrv ch0 (lm_Action lm) (lm_Payload lm) s A Hrbs) as (s1 & Hr1 & Hr1s & Hr1k).
      assert (commandKey ch0 (lm_Action lm) (lm_Payload lm) = k0) as Hck by (rewrite <- Hk, <- Hch; reflexivity). rewrite Hck in Hr1, Hr1s.
      destruct (DeleteCommand_ok cs s1 ch0 (lm_Action lm) (lm_Payload lm)) as (s2 & Hr2 & _ & Hr2f); [by eapply handle_prefix|].
      exists s2. split; [|split].
      + erewrite bind_Done; [|apply logged_Done; unfold onRb; eapply zoom_Done].
        2:{ cbn [all1 all_rb all_setMessages all_setLeases]. rewrite Hrb. exact Hr1. }
        cbn beta. rewrite Hsto. apply logged_Done. by apply onStore_Done.
      + eapply (rb_stored_cs v); [done..|exact Hr2f|done].
      + eapply leases_stored_rbKept; [|exact Hst]. eapply rbKept_trans; [exact Hr1k|]. by eapply rbKept_cs.
    - exists s. split_and!; [|done..]. unfold mret, act_ret. do 2 f_equal. unfold all_setRb.
      rewrite <- Hrb. cbn. by destruct all. }
  destruct (updateStorage_ok channelOrder v Hv s1 all (all_setRb all1 (rb_of cs rv A')) ch0 upd now Hst1) as (s2 & Hrun2 & Hst2 & Hk2).
  - done.
  - apply Hoff.
  - intros ch' k Hn. change (leaseAt (all_setRb all1 (rb_of cs rv A')) ch' k) with (leaseAt all1 ch' k). rewrite Hle', decide_False; [done|]. naive_solver.
  - intros k lm1. change (leaseAt (all_setRb all1 (rb_of cs rv A')) ch0 k) with (leaseAt all1 ch0 k). rewrite Hle'.
    case_decide; [done|]. apply (ls_ok v t0 s all Hst).
  - apply (lk_some _ _ Hlk').
  - intros ->. split; [|done]. destruct (all_messagesByChannel all !! ch0) eqn:Hm; [by eexists|].
    apply leaseAt_Some in Hle as (? & ? & Hp & _). by rewrite (channelPlaces_None _ _ Hm), lookup_empty in Hp.
  - exists s2, (all_setRb all1 (rb_of cs rv A')). split_and!; [|split|done|done|done|].
    + cbn [all_store all1 all_setMessages all_setLeases]. erewrite bind_Done by exact Hrun1. exact Hrun2.
    + by destruct Hlk'.
    + done.
    + done.
    + done.
    + done.
    + by eapply rb_stored_othersKept.
    + intros ch k. change (leaseAt (all_setRb all1 (rb_of cs rv A')) ch k) with (leaseAt all1 ch k). rewrite Hle', Hk. done.
Qed.

Lemma lease_inv_rng {t0 : Time} s all A r : lease_inv t0 s all A -> lease_inv t0 s (all_setRng all r) A.
Proof. intros [[] [] ? ? ? ?]. by split. Qed.

Lemma drawTrigger_ok s all now orig lease :
  0 <= now < 2 ^ 63 -> 0 <= orig < 2 ^ 63 -> - 2 ^ 63 <= lease < 2 ^ 63 ->
  exists t r, drawTrigger now orig lease (s, all) = Done (s, all_setRng all r) t /\
    calculateLeaseTrigger now orig lease (all_rng all) = Ok (t, r) /\
    (forall t', t = Some t' -> time_ok t' /\ now < t').
Proof.
  intros Hn Ho Hl. destruct (calculateLeaseTrigger_cases now orig lease (all_rng all)) as (t & r & Hc & Ht); [lia..|].
  exists t, r. unfold drawTrigger. rewrite Hc. split; [done|]. split; [done|]. intros t' ->. destruct Ht as [Hrest Ht].
  unfold time_ok. case_bool_decide; [|lia]. unfold hour, minute in Ht. lia.
Qed.

(** The new trigger of a lease, or its end. *)
Lemma updateLeaseTrigger_ok {t0 : Time} newLm lm s all A now :
  lease_inv t0 s all A -> 0 <= now < 2 ^ 63 ->
  let ch0 := lm_ChannelID newLm in let k0 := lmKey newLm in
  leaseAt all ch0 k0 = Some lm ->
  exists s' all' t r, updateLeaseTrigger rbChannelOrder channelOrder newLm now (s, all) = Done (s', all') tt /\
    calculateLeaseTrigger now (lm_OriginatingTimestamp lm) (lm_Lease lm) (all_rng all) = Ok (t, r) /\ all_rng all' = r /\
    lease_inv t0 s' all' (match t with Some _ => A | None => dropCommand A ch0 k0 end) /\ queues all' = queues all /\
    (forall b, findLease newLm all ≠ Some b -> all_heap all' !! b = all_heap all !! b) /\
    forall ch k, leaseAt all' ch k = if decide (ch = ch0 /\ k = k0) then lm_setTrigger lm <$> t else leaseAt all ch k.
Proof.
  intros Hinv Hnow ch0 k0 Hle. pose proof Hinv as [Hlk Hst Hkv Hsto Hrb Hrbs].
  destruct (lease_place all newLm Hlk) as (a & lm' & Hf & Hin & Ha & Hl & Hch & Hk); [right; by exists lm|].
  change (leaseAt all ch0 k0 = Some lm') in Hl. rewrite Hle in Hl. injection Hl as <-.
  pose proof (ls_ok v t0 s all Hst ch0 k0 lm Hle) as (Hact & Hlease & Horig & Hend & _).
  destruct (drawTrigger_ok s all now (lm_OriginatingTimestamp lm) (lm_Lease lm) Hnow Horig Hlease) as (t & r & Hdraw & Hcalc & Ht).
  unfold updateLeaseTrigger. rewrite Hf, Ha. destruct t as [t|].
  - destruct (Ht t eq_refl) as [Hto _].
    destruct (update_ok (all_setRng all r) a lm t) as (h & l & Hup & Hlk' & Hh & Hle'); [by destruct Hlk; split|done|done|].
    set (all' := all_setLeases (all_setHeap (all_setRng all r) h) l) in *.
    assert (all_messagesByChannel all' = all_messagesByChannel all) as Hm by done.
    destruct (updateStorage_ok channelOrder v Hv s all all' ch0 false now Hst) as (s' & Hrun & Hst' & Hkept).
    + done.
    + done.
    + intros ch' k Hn. rewrite Hle', decide_False; [done|]. rewrite Hch. naive_solver.
    + intros k lm1. rewrite Hle'. case_decide; [intros [= <-]; exact (conj Hact (conj Hlease (conj Horig (conj Hend Hto))))|]. apply (ls_ok v t0 s all Hst).
    + apply (lk_some _ _ Hlk').
    + intros _. rewrite Hm. assert (is_Some (all_messagesByChannel all !! ch0)); [|done].
      destruct (all_messagesByChannel all !! ch0) eqn:Hmm; [by eexists|].
      apply leaseAt_Some in Hle as (? & ? & Hp & _). by rewrite (channelPlaces_None _ _ Hmm), lookup_empty in Hp.
    + exists s', all', (Some t), r. split; [|split; [done|split; [done|split; [|split; [done|split; [|]]]]]].
      * erewrite bind_Done by exact Hdraw. cbn beta match. rewrite Hup. fold all'. rewrite Hch. exact Hrun.
      * split; [done|done|done|done|done|by eapply rb_stored_othersKept].
      * intros b Hb. apply Hh. congruence.
      * intros ch k. rewrite Hle', Hch, Hk. done.
  - destruct (removeMessage_ok lm true s (all_setRng all r) A now (lease_inv_rng _ _ _ r Hinv)) as (s' & all' & Hrun & Hinv' & Hq & Hr & Hheap & Hle').
    exists s', all', None, r. rewrite Hch, Hk in Hinv', Hle'.
    assert (leaseAt (all_setRng all r) ch0 k0 = Some lm) as Hlr by exact Hle.
    fold ch0 k0 in Hinv', Hle'. rewrite Hlr, bool_decide_true in Hinv' by (by eexists). cbn [andb] in Hinv'.
    split; [|split; [done|split; [done|split; [done|split; [done|split; [by intros b _; rewrite Hheap|done]]]]]].
    erewrite bind_Done by exact Hdraw. exact Hrun.
Qed.

Lemma removeLeases_ok places s all :
  (forall a, a ∈ places -> exists lm, all_heap all !! a = Some (mkLeaseObj ID lm true)) -> all_store all = cs ->
  exists s' l, removeLeases places (s, all) = Done (s', all_setLeases all l) tt /\
    (forall x, x ∈ l <-> x ∈ all_leases all /\ x ∉ places) /\
    (NoDup (all_leases all) -> NoDup l) /\ (forall f, sortedBy f (all_leases all) -> sortedBy f l) /\
    forall u key, kv_handle u -> prefix u ≠ prefix cs -> strContains PrefixSeparator key = false -> kv_Get u s' key 0 = kv_Get u s key 0.
Proof.
  revert s all. induction places as [|a places IH]; intros s all Hp Hs.
  { exists s, (all_leases all). split; [destruct all; done|]. split_and!; [|done..].
    intros x. split; [intros Hx; split; [done|apply not_elem_of_nil]|by intros []]. }
  destruct (Hp a) as [lm Ha]; [left|].
  destruct (DeleteCommand_ok cs s (lm_ChannelID lm) (lm_Action lm) (lm_Payload lm)) as (s1 & Hr1 & _ & Hf1); [by eapply handle_prefix|].
  destruct (IH s1 (all_setLeases all (listRemove a (all_leases all)))) as (s2 & l & Hr2 & Hl & Hnd & Hso & Hf2).
  { intros b Hb. apply Hp. by right. } { done. }
  exists s2, l. split; [|split; [|split; [|split]]].
  - cbn [removeLeases]. rewrite Ha. rewrite Hs. erewrite bind_Done by (apply logged_Done, onStore_Done; exact Hr1). exact Hr2.
  - intros x. rewrite Hl, not_elem_of_cons. cbn [all_leases all_setLeases]. rewrite elem_of_listRemove. tauto.
  - intros Hn. apply Hnd. by apply list.NoDup_filter.
  - intros f Hf. apply Hso. by apply sortedBy_remove.
  - intros u key Hu Hpu Hk. rewrite Hf2 by done. apply Hf1; [done..|]. by intros [= ? _].
Qed.

(** Leaving a channel drops its leases and commands. *)
Lemma removeChannel_ok {t0 : Time} ch0 s all A now :
  lease_inv t0 s all A ->
  exists s' all' A', removeChannel rbChannelOrder commandOrder channelOrder leaseOrder ch0 now (s, all) = Done (s', all') tt /\
    lease_inv t0 s' all' A' /\ queues all' = queues all /\ all_rng all' = all_rng all /\
    (A' = A \/ A' = delete ch0 A) /\
    forall ch k, leaseAt all' ch k = if decide (ch = ch0) then None else leaseAt all ch k.
Proof.
  intros Hinv. pose proof Hinv as [Hlk Hst Hkv Hsto Hrb Hrbs]. unfold removeChannel.
  destruct (all_messagesByChannel all !! ch0) as [m|] eqn:Hm.
  2:{ exists s, all, A. split_and!; [done..|by left|]. intros ch k. case_decide as Hc; [|done]. subst ch. apply (leaseAt_None [] _ _ _ Hlk).
      by rewrite (channelPlaces_None _ _ Hm), lookup_empty. }
  destruct (lk_some _ _ Hlk ch0 m Hm) as (ms & -> & Hne).
  assert (channelPlaces all ch0 = ms) as Hpl by (exact (channelPlaces_Some _ _ _ Hm)). cbn [goEntries default from_option].
  set (places := omap _ _).
  assert (forall a, a ∈ places <-> exists k, ms !! k = Some a) as Hplaces.
  { intros a. unfold places. rewrite list_elem_of_omap. split; [intros (k & _ & Hk); by exists k|].
    intros [k Hk]. exists k. split; [|done]. apply map_order_elem. by exists a. }
  destruct (removeLeases_ok places s all) as (s1 & l & Hr1 & Hl & Hnd & Hso & Hf1); [|done|].
  { intros a [k Hk]%Hplaces. rewrite <- Hpl in Hk. destruct (lk_place _ _ Hlk ch0 k a Hk) as (lm & e & Ha & _ & _ & [[-> _]|Hn%not_elem_of_nil]); [|done]. by exists lm. }
  assert (rb_stored rv s1 A) as Hrbs1.
  { eapply rb_stored_frame; [|exact Hrbs]. intros key Hk. apply Hf1; [by eapply rv_handle|by eapply (rv_cs v)|done]. }
  destruct (removeChannel_refines rbChannelOrder commandOrder v cs rv now Hv Hcs Hrv ch0 s1 A Hrbs1) as (s2 & Hr2 & Hrbs2 & Hk2).
  set (all1 := all_setMessages (all_setRb (all_setLeases all l) (rb_of cs rv (delete ch0 A))) (delete ch0 (all_messagesByChannel all))).
  destruct (storeLeaseChannels_ok (Rnd := Rnd) (R := R) channelOrder v Hv s2 all1 now Hkv) as (s3 & Hr3 & Hf3 & Hlist).
  destruct (deleteLeaseMessages_ok v Hv s3 all1 ch0 Hkv) as (s4 & Hr4 & Hf4).
  assert (forall ch, channelPlaces all1 ch = if decide (ch = ch0) then ∅ else channelPlaces all ch) as Hp1.
  { intros ch. apply (channelPlaces_delete (all_setRb (all_setLeases all l) (rb_of cs rv (delete ch0 A)))). }
  assert (forall ch k, leaseAt all1 ch k = if decide (ch = ch0) then None else leaseAt all ch k) as Hle1.
  { intros ch k. apply option_eq. intros lm. rewrite leaseAt_Some. setoid_rewrite Hp1. case_decide as Hc.
    - setoid_rewrite lookup_empty. naive_solver.
    - by rewrite (leaseAt_Some all). }
  exists s4, all1, (delete ch0 A). split; [|split; [|split; [done|split; [done|split; [by right|done]]]]].
  - erewrite bind_Done by exact Hr1. erewrite bind_Done.
    2:{ apply logged_Done. unfold onRb. eapply zoom_Done. cbn [all_rb all_setLeases]. rewrite Hrb. exact Hr2. }
    erewrite bind_Done by reflexivity. change (all_setMessages _ _) with all1. erewrite bind_Done by exact Hr3. exact Hr4.
  - split; [split| |done|done|done|].
    + apply Hnd, (lk_nodup _ _ Hlk).
    + apply Hso, (lk_sorted _ _ Hlk).
    + intros ch m. cbn [all1 all_messagesByChannel all_setMessages]. intros [_ Hx]%lookup_delete_Some. by apply (lk_some _ _ Hlk ch).
    + intros ch k a. rewrite Hp1. case_decide as Hc; [by rewrite lookup_empty|]. intros Hk.
      destruct (lk_place _ _ Hlk ch k a Hk) as (lm & e & Ha & Hch & Hkk & [[-> Hin]|Hn%not_elem_of_nil]); [|done].
      exists lm, true. split_and!; [done..|]. left. split; [done|]. apply Hl. split; [done|]. intros [k' Hk']%Hplaces.
      rewrite <- Hpl in Hk'. destruct (place_key [] all ch0 k' a lm true Hlk Hk' Ha) as [Hc' _]. congruence.
    + by intros a ?%not_elem_of_nil.
    + intros a [Hin Hnp]%Hl. destruct (lk_list _ _ Hlk a Hin) as (lm & Ha & Hk). exists lm. split; [done|].
      rewrite Hp1, decide_False; [done|]. intros Hc. apply Hnp, Hplaces. exists (lmKey lm). by rewrite <- Hpl, <- Hc.
    + split.
      * right. destruct Hlist as (o & ids & Hg & Hj & Hids). exists o, ids. split; [|done].
        rewrite Hf4; [done|done|done|]. intros Hk%(f_equal snd). by apply (leasesKey_list ch0).
      * intros ch. cbn [all1 all_messagesByChannel all_setMessages]. intros [x [Hn Hx]%lookup_delete_Some].
        destruct (ls_messages v t0 s all Hst ch) as (o & M & Hg & Hj & Hall & HM); [by exists x|]. exists o, M.
        split; [|split; [done|split; [done|intros k; rewrite Hle1, decide_False by done; apply HM]]].
        rewrite Hf4; [|done|apply leasesKey_no_sep|intros Hk%(f_equal snd); by apply Hn, leasesKey_inj].
        rewrite Hf3; [|done|apply leasesKey_no_sep|intros Hk%(f_equal snd); by apply (leasesKey_list ch)].
        rewrite Hk2; [|done|apply v_rv|apply v_cs|apply leasesKey_no_sep].
        rewrite Hf1; [done|done|apply v_cs|apply leasesKey_no_sep].
      * intros ch k lm. rewrite Hle1. case_decide; [done|]. apply (ls_ok v t0 s all Hst).
    + eapply rb_stored_othersKept; [|exact Hrbs2]. eapply othersKept_trans; by eapply changesOnly_others.
Qed.

(** ** Start-up *)

(** What a start leaves of the list's other fields. *)
Definition sameFrame all all' : Prop :=
  all_messagesByChannel all' = all_messagesByChannel all /\ all_kv all' = all_kv all /\ all_store all' = all_store all /\
  all_rb all' = all_rb all /\ queues all' = queues all.

Lemma drawDuration_ok s all start end_ :
  0 <= start < end_ -> end_ < 2 ^ 63 ->
  exists d r, drawDuration start end_ (s, all) = Done (s, all_setRng all r) d /\ start <= d <= end_.
Proof.
  intros Hs He. destruct (randDuration_range start end_ (all_rng all) Hs He) as (d & r & Hd & Hr).
  exists d, r. unfold drawDuration. by rewrite Hd.
Qed.

(** One loaded lease: an overdue one is put off. *)
Lemma loadLease_ok a pend s all now ch k :
  lists_ok (a :: pend) all -> channelPlaces all ch !! k = Some a -> 0 <= now < 2 ^ 63 ->
  (forall ch k lm, leaseAt all ch k = Some lm -> lease_ok lm) ->
  exists lm e all', all_heap all !! a = Some (mkLeaseObj ID lm e) /\
    (if lm_LeaseTrigger lm <? now then
       d ← drawDuration replayWaitMin replayWaitMax;
       modify (fun '(s, all) =>
         let lm := if lm_LeaseTrigger lm =? lm_LeaseEnd lm then lm_setEnd lm (now + d) else lm in
         (s, writeLease a (lm_setTrigger lm (now + d)) e all))
     else mret tt) (s, all) = Done (s, all') tt /\
    lists_ok (a :: pend) all' /\ sameFrame all all' /\
    (forall ch k, allStoredAs now (leaseAt all ch k) (leaseAt all' ch k)) /\
    (forall ch k lm, leaseAt all' ch k = Some lm -> lease_ok lm) /\
    (forall ch k, channelPlaces all ch !! k ≠ Some a -> leaseAt all' ch k = leaseAt all ch k) /\
    (forall lm, leaseAt all' ch k = Some lm -> now <= lm_LeaseTrigger lm).
Proof.
  intros Hok Hk Hnow Hall. destruct (lk_place _ _ Hok ch k a Hk) as (lm & e & Ha & Hch & Hkey & _).
  assert (leaseAt all ch k = Some lm) as Hle by (apply leaseAt_Some; by exists a, e).
  exists lm, e. destruct (Z.ltb_spec (lm_LeaseTrigger lm) now) as [Hlt|Hge].
  2:{ exists all. split_and!; [done..|intros; apply allStoredAs_refl|done|done|]. rewrite Hle. intros ? [= <-]. done. }
  destruct (drawDuration_ok s all replayWaitMin replayWaitMax) as (d & r & Hdraw & Hd); [unfold replayWaitMin, replayWaitMax, minute; lia..|].
  set (lm1 := if lm_LeaseTrigger lm =? lm_LeaseEnd lm then lm_setEnd lm (now + d) else lm).
  set (lm2 := lm_setTrigger lm1 (now + d)).
  assert (storedAs now lm lm2) as Hsa by (right; split; [done|by exists d]).
  pose proof (storedAs_core _ _ _ Hsa) as Hcore.
  destruct (write_pending_ok pend (all_setRng all r) a ch k lm e lm2) as [Hok' Hle']; [by destruct Hok|done|done| | |].
  { unfold leaseCore in Hcore. congruence. } { unfold lmKey, leaseCore in *. congruence. }
  pose proof (Hall ch k lm Hle) as (Hact & Hlease & Horig & Hend & _).
  assert (time_ok (now + d)) as Hto by (unfold time_ok, replayWaitMin, replayWaitMax, minute in *; lia).
  assert (lease_ok lm2) as Hok2.
  { unfold lm2, lm1. destruct (_ =? _);
      [exact (conj Hact (conj Hlease (conj Horig (conj Hto Hto))))|exact (conj Hact (conj Hlease (conj Horig (conj Hend Hto))))]. }
  exists (writeLease a lm2 e (all_setRng all r)).
  assert (forall ch' k', leaseAt (writeLease a lm2 e (all_setRng all r)) ch' k' =
    if decide (channelPlaces all ch' !! k' = Some a) then Some lm2 else leaseAt all ch' k') as Hw by exact Hle'.
  split; [done|]. split; [erewrite bind_Done by exact Hdraw; reflexivity|]. split; [exact Hok'|]. split; [done|].
  split; [|split; [|split]].
  - intros ch' k'. rewrite Hw. case_decide as Hc; [|apply allStoredAs_refl].
    destruct (place_key _ _ _ _ _ _ _ Hok Hc Ha) as [-> ->]. rewrite <- Hch, <- Hkey in Hle. rewrite Hle. by constructor.
  - intros ch' k' lm'. rewrite Hw. case_decide; [by intros [= <-]|apply Hall].
  - intros ch' k' Hn. rewrite Hw. by rewrite decide_False.
  - rewrite Hw, decide_True by done. intros ? [= <-]. simpl. unfold replayWaitMin, minute in Hd. lia.
Qed.

Lemma loadLeases_ok places s all now :
  lists_ok places all -> NoDup places -> (forall a, a ∈ places -> exists ch k, channelPlaces all ch !! k = Some a) ->
  0 <= now < 2 ^ 63 -> (forall ch k lm, leaseAt all ch k = Some lm -> lease_ok lm) ->
  (forall ch k a lm, channelPlaces all ch !! k = Some a -> a ∉ places -> leaseAt all ch k = Some lm -> now <= lm_LeaseTrigger lm) ->
  exists all', loadLeases places now (s, all) = Done (s, all') tt /\ lists_ok [] all' /\ sameFrame all all' /\
    (forall ch k, allStoredAs now (leaseAt all ch k) (leaseAt all' ch k)) /\
    (forall ch k lm, leaseAt all' ch k = Some lm -> lease_ok lm /\ now <= lm_LeaseTrigger lm).
Proof.
  intros Hok Hnd Hpl Hnow Hall Htr. revert all Hok Hpl Hall Htr. induction places as [|a places IH]; intros all Hok Hpl Hall Htr.
  { exists all. split; [done|]. split; [done|]. split; [done|]. split; [intros; apply allStoredAs_refl|]. intros ch k lm Hlm. split; [by eapply Hall|].
    pose proof Hlm as (a & e & Ha & _)%leaseAt_Some. eapply Htr; [done| |done]. apply not_elem_of_nil. }
  apply list.NoDup_cons in Hnd as [Hna Hnd]. destruct (Hpl a) as (ch & k & Hk); [left|].
  destruct (loadLease_ok a places s all now ch k Hok Hk Hnow Hall) as (lm & e & all1 & Ha & Hrun1 & Hok1 & (Hm1 & Hkv1 & Hs1 & Hrb1 & Hq1) & Hcore1 & Hall1 & Hoff1 & Htr1).
  assert (forall c, channelPlaces all1 c = channelPlaces all c) as Hp1 by (intros c; unfold channelPlaces; by rewrite Hm1).
  assert (channelPlaces all1 ch !! k = Some a) as Hk1 by (by rewrite Hp1).
  destruct (link_ok places all1 a ch k Hok1 Hna Hk1) as [Hok2 Hle2].
  destruct (lk_place _ _ Hok1 ch k a Hk1) as (lm1 & e1 & Ha1 & Hch1 & Hkey1 & _).
  assert (all_messagesByChannel (linkLease a all1) = all_messagesByChannel all) as Hm2 by (by rewrite (linkLease_eq all1 a lm1 e1 Ha1)).
  assert (forall c, channelPlaces (linkLease a all1) c = channelPlaces all c) as Hp2 by (intros c; unfold channelPlaces; by rewrite Hm2).
  destruct (IH Hnd (linkLease a all1) Hok2) as (all3 & Hrun3 & Hok3 & (Hm3 & Hkv3 & Hs3 & Hrb3 & Hq3) & Hcore3 & Hall3).
  - intros b Hb. rewrite Hp2 || setoid_rewrite Hp2. apply Hpl. by right.
  - intros c kk lm'. rewrite Hle2. apply Hall1.
  - intros c kk b lm'. rewrite Hp2, Hle2. intros Hb Hnb Hlm'. destruct (decide (b = a)) as [->|Hba].
    + destruct (place_key _ _ _ _ _ _ _ Hok1 ltac:(rewrite Hp1; exact Hb) Ha1) as [-> ->].
      rewrite Hch1, Hkey1 in Hlm'. by apply Htr1.
    + rewrite Hoff1 in Hlm' by congruence. eapply Htr; [done| |done]. rewrite not_elem_of_cons. done.
  - exists all3. split; [|split; [done|split; [|split; [|done]]]].
    + cbn [loadLeases]. rewrite Ha. erewrite bind_Done by exact Hrun1. erewrite bind_Done by reflexivity. exact Hrun3.
    + rewrite (linkLease_eq all1 a lm1 e1 Ha1) in Hm3, Hkv3, Hs3, Hrb3, Hq3.
      split_and!; (etrans; [eassumption|assumption]).
    + intros c kk. eapply allStoredAs_trans; [apply Hcore1|]. rewrite <- Hle2. apply Hcore3.
Qed.

Lemma allocMessages_spec (l : list (string * leaseMessage ID)) all :
  NoDup l.*1 ->
  exists m, allocMessages l all = (all_setHeap all (all_heap all ++ ((fun p => mkLeaseObj ID p.2 false) <$> l)), m) /\
    forall k a, m !! k = Some a <-> exists i lm, l !! i = Some (k, lm) /\ a = (length (all_heap all) + i)%nat.
Proof.
  revert all. induction l as [|[k lm] l IH]; intros all Hnd.
  { exists ∅. split; [cbn [allocMessages fmap list_fmap]; rewrite app_nil_r; by destruct all|].
    intros k a. rewrite lookup_empty. split; [done|]. by intros (i & lm & Hi & _). }
  apply list.NoDup_cons in Hnd as [Hk Hnd]. destruct (IH (allocLease lm all).1 Hnd) as (m & Heq & Hm).
  exists (<[k := length (all_heap all)]> m). split.
  - cbn [allocMessages allocLease]. cbn [allocLease fst] in Heq. rewrite Heq. cbn [all_setHeap all_heap]. by rewrite <- app_assoc.
  - intros k' a. cbn [allocLease fst all_setHeap all_heap] in Hm. setoid_rewrite length_app in Hm. cbn [length] in Hm.
    destruct (decide (k' = k)) as [->|Hn].
    + rewrite lookup_insert_eq. split; [intros [= <-]; exists 0%nat, lm; split; [done|lia]|].
      intros ([|i] & lm' & Hi & ->); [f_equal; lia|]. destruct Hk. apply list_elem_of_fmap. exists (k, lm'). split; [done|].
      by eapply list_elem_of_lookup_2.
    + rewrite lookup_insert_ne by done. rewrite Hm. split.
      * intros (i & lm' & Hi & ->). exists (Datatypes.S i), lm'. split; [done|lia].
      * intros ([|i] & lm' & Hi & ->); [by injection Hi as <- _|]. exists i, lm'. split; [done|lia].
Qed.

(** The messages of one channel come into memory, not yet in the list. *)
Lemma allocChannel_ok all ch (M : gmap string (leaseMessage ID)) :
  lists_ok [] all -> all_messagesByChannel all !! ch = None -> M ≠ ∅ ->
  (forall k lm, M !! k = Some lm -> lm_ChannelID lm = ch /\ lmKey lm = k) ->
  exists h m, allocMessages (map_to_list M) all = (all_setHeap all h, m) /\
    let all' := all_setMessages (all_setHeap all h) (<[ch := Some m]> (all_messagesByChannel all)) in
    let places := omap (fun k => m !! k) (leaseOrder m) in
    lists_ok places all' /\ NoDup places /\
    (forall a, a ∈ places <-> exists k, channelPlaces all' ch !! k = Some a) /\
    (forall ch' k, leaseAt all' ch' k = if decide (ch' = ch) then M !! k else leaseAt all ch' k).
Proof.
  intros Hok Hnone Hne HM. destruct (allocMessages_spec (map_to_list M) all (NoDup_fst_map_to_list M)) as (m & Heq & Hm).
  set (objs := (fun p => mkLeaseObj ID p.2 false) <$> map_to_list M) in Heq.
  exists (all_heap all ++ objs), m. split; [done|]. intros all' places.
  assert (forall k a, m !! k = Some a -> (length (all_heap all) <= a)%nat /\
    exists lm, M !! k = Some lm /\ all_heap all' !! a = Some (mkLeaseObj ID lm false)) as Hm1.
  { intros k a (i & lm & Hi & ->)%Hm. split; [lia|]. exists lm. split; [apply elem_of_map_to_list; by eapply list_elem_of_lookup_2|].
    cbn [all' all_heap all_setMessages all_setHeap]. rewrite lookup_app_r by lia. replace (_ + i - _)%nat with i by lia.
    unfold objs. rewrite list_lookup_fmap, Hi. done. }
  assert (forall k lm, M !! k = Some lm -> is_Some (m !! k)) as Hm2.
  { intros k lm Hk. apply elem_of_map_to_list, list_elem_of_lookup_1 in Hk as [i Hi]. eexists. apply Hm. by exists i, lm. }
  assert (forall k k' a, m !! k = Some a -> m !! k' = Some a -> k = k') as Hinj.
  { intros k k' a (i & lm & Hi & Ha)%Hm (i' & lm' & Hi' & Ha')%Hm. assert (i = i') as <- by lia. congruence. }
  assert (forall ch', channelPlaces all' ch' = if decide (ch' = ch) then m else channelPlaces all ch') as Hp
    by (intros ch'; apply (channelPlaces_insert (all_setHeap all (all_heap all ++ objs)))).
  assert (forall a, a ∈ places <-> exists k, m !! k = Some a) as Hpl.
  { intros a. unfold places. rewrite list_elem_of_omap. split; [intros (k & _ & Hk); by exists k|].
    intros [k Hk]. exists k. split; [|done]. apply map_order_elem. by exists a. }
  assert (forall a o, all_heap all !! a = Some o -> all_heap all' !! a = Some o) as Hheap by (intros; by apply lookup_app_l_Some).
  split; [split|split; [|split]].
  - apply (lk_nodup _ _ Hok).
  - eapply sortedBy_ext; [|apply (lk_sorted _ _ Hok)]. intros x Hx. destruct (lk_list _ _ Hok x Hx) as (lmx & Hlm & _).
    unfold leaseTrigger. by rewrite (Hheap _ _ Hlm), Hlm.
  - intros ch' x. cbn [all' all_messagesByChannel all_setMessages]. destruct (decide (ch' = ch)) as [->|Hn].
    + rewrite lookup_insert_eq. intros [= <-]. exists m. split; [done|]. intros He. apply Hne, map_eq. intros k. rewrite lookup_empty.
      destruct (M !! k) as [lm|] eqn:Hk; [|done]. destruct (Hm2 k lm Hk) as [a Ha]. by rewrite He, lookup_empty in Ha.
    + rewrite lookup_insert_ne by done. apply (lk_some _ _ Hok).
  - intros ch' k a. rewrite Hp. case_decide as Hc.
    + subst ch'. intros Hk. destruct (Hm1 k a Hk) as (_ & lm & HMk & Ha). exists lm, false. destruct (HM k lm HMk). split_and!; [done..|].
      right. apply Hpl. by exists k.
    + intros Hk. destruct (lk_place _ _ Hok ch' k a Hk) as (lm & e & Ha & ? & ? & [?|Hn%not_elem_of_nil]); [|done].
      exists lm, e. split_and!; [by apply Hheap|done..|by left].
  - intros a [k Hk]%Hpl Hin. destruct (Hm1 k a Hk) as [Hlen _]. destruct (lk_list _ _ Hok a Hin) as (lm & Ha & _).
    apply lookup_lt_Some in Ha. cbn [all' all_heap] in *. lia.
  - intros a Hin. destruct (lk_list _ _ Hok a Hin) as (lm & Ha & Hk). exists lm. split; [by apply Hheap|].
    rewrite Hp, decide_False; [done|]. intros Hc. by rewrite Hc, (channelPlaces_None _ _ Hnone), lookup_empty in Hk.
  - unfold places. generalize (map_order_nodup (iter := leaseOrder) m). generalize (leaseOrder m). intros ks Hnd.
    induction ks as [|k ks IH]; [constructor|]. apply list.NoDup_cons in Hnd as [Hk Hnd]. cbn [omap list_omap].
    destruct (m !! k) as [a|] eqn:Ha; [|by apply IH]. apply list.NoDup_cons. split; [|by apply IH].
    rewrite list_elem_of_omap. intros (k' & Hin & Hk'). apply Hk. by rewrite (Hinj k k' a Ha Hk').
  - intros a. rewrite Hpl, Hp, decide_True by done. done.
  - intros ch' k. apply option_eq. intros lm. rewrite leaseAt_Some, Hp. case_decide as Hc.
    + split.
      * intros (a & e & Hk & Ha). destruct (Hm1 k a Hk) as (_ & lm' & HMk & Ha'). congruence.
      * intros HMk. destruct (Hm2 k lm HMk) as [a Ha]. destruct (Hm1 k a Ha) as (_ & lm' & HMk' & Ha'). exists a, false. split; [done|]. congruence.
    + rewrite leaseAt_Some. split; intros (a & e & Hk & Ha); exists a, e; (split; [done|]).
      * destruct (lk_place _ _ Hok ch' k a Hk) as (lm' & e' & Ha' & _). rewrite (Hheap _ _ Ha') in Ha. congruence.
      * by apply Hheap.
Qed.

(** The leases of a channel in storage. *)
Definition storedLeases s (ch : ID) : gmap string (leaseMessage ID) :=
  match kv_Get v s (makeChannelLeaseMessagesKey ch) 0 with
  | inr o => default ∅ (json_Unmarshal (Data o))
  | inl _ => ∅
  end.

Lemma loadChannels_ok {t0 : Time} ids s all0 all now :
  lists_ok [] all0 -> leases_stored v t0 s all0 -> NoDup ids -> 0 <= now < 2 ^ 63 ->
  (forall ch, ch ∈ ids -> is_Some (all_messagesByChannel all0 !! ch) /\ all_messagesByChannel all !! ch = None) ->
  all_kv all = v -> lists_ok [] all ->
  (forall ch k lm, leaseAt all ch k = Some lm -> lease_ok lm /\ now <= lm_LeaseTrigger lm) ->
  exists all', loadChannels leaseOrder ids now (s, all) = Done (s, all') tt /\ lists_ok [] all' /\
    (all_kv all' = v /\ all_store all' = all_store all /\ all_rb all' = all_rb all /\ queues all' = queues all) /\
    (forall ch, is_Some (all_messagesByChannel all' !! ch) <-> ch ∈ ids \/ is_Some (all_messagesByChannel all !! ch)) /\
    (forall ch k, allStoredAs now (if decide (ch ∈ ids) then storedLeases s ch !! k else leaseAt all ch k) (leaseAt all' ch k)) /\
    (forall ch k lm, leaseAt all' ch k = Some lm -> lease_ok lm /\ now <= lm_LeaseTrigger lm).
Proof.
  intros Hok0 Hst Hnd Hnow. revert all. induction ids as [|ch ids IH]; intros all Hids Hkv Hok Hall.
  { exists all. split; [done|]. split; [done|]. split; [done|]. split; [|split; [|done]].
    - intros ch. rewrite elem_of_nil. tauto.
    - intros ch k. rewrite decide_False by apply not_elem_of_nil. apply allStoredAs_refl. }
  apply list.NoDup_cons in Hnd as [Hnin Hnd]. destruct (Hids ch) as [Hch0 Hnone]; [left|].
  destruct (ls_messages v t0 s all0 Hst ch Hch0) as (o & M & Hg & Hj & HMok & HM).
  assert (storedLeases s ch = M) as HMst by (unfold storedLeases; by rewrite Hg, Hj).
  assert (forall k lm, M !! k = Some lm -> lm_ChannelID lm = ch /\ lmKey lm = k) as HMkey.
  { intros k lm Hk. pose proof (allStoredAs_core _ _ _ (HM k)) as HMk. rewrite Hk in HMk. symmetry in HMk. apply fmap_Some in HMk as (lm' & Hle & Hcore).
    apply leaseAt_Some in Hle as (a & e & Hp & Ha). destruct (place_key _ _ _ _ _ _ _ Hok0 Hp Ha) as [-> ->].
    unfold leaseCore, lmKey in *. split; congruence. }
  assert (M ≠ ∅) as Hne.
  { intros He. destruct Hch0 as [x Hx]. destruct (lk_some _ _ Hok0 ch x Hx) as (ms & -> & Hms). apply Hms, map_eq. intros k.
    rewrite lookup_empty. pose proof (channelPlaces_Some _ _ _ Hx) as Hp. cbn [goEntries default from_option id] in Hp. rewrite <- Hp.
    apply (leaseAt_None [] _ _ _ Hok0). specialize (HM k). rewrite He, lookup_empty in HM. by inversion HM. }
  destruct (allocChannel_ok all ch M Hok Hnone Hne HMkey) as (h & m & Halloc & Hok1 & Hnd1 & Hpl1 & Hle1).
  set (all1 := all_setMessages (all_setHeap all h) (<[ch := Some m]> (all_messagesByChannel all))) in *.
  destruct (loadLeases_ok (omap (fun k => m !! k) (leaseOrder m)) s all1 now Hok1 Hnd1) as (all2 & Hrun2 & Hok2 & (Hm2 & Hkv2 & Hs2 & Hrb2 & Hq2) & Hcore2 & Hall2).
  { intros a [k Hk]%Hpl1. eauto. } { done. }
  { intros c k lm. rewrite Hle1. case_decide; [by apply HMok|]. apply Hall. }
  { intros c k a lm Hp Hna. rewrite Hle1. case_decide as Hc; [|by apply Hall]. subst c. destruct Hna. apply Hpl1. by exists k. }
  assert (forall c, all_messagesByChannel all2 !! c = if decide (c = ch) then Some (Some m) else all_messagesByChannel all !! c) as Hmbc.
  { intros c. rewrite Hm2. cbn [all1 all_messagesByChannel all_setMessages].
    case_decide as Hc; [subst c; by rewrite lookup_insert_eq|by rewrite lookup_insert_ne]. }
  destruct (IH Hnd all2) as (all3 & Hrun3 & Hok3 & (Hkv3 & Hs3 & Hrb3 & Hq3) & Hm3 & Hcore3 & Hall3).
  - intros c Hc. destruct (Hids c) as [Hc0 Hcn]; [by right|]. split; [done|]. rewrite Hmbc, decide_False; [done|]. by intros ->.
  - by rewrite Hkv2.
  - done.
  - done.
  - exists all3. split; [|split; [done|split; [|split; [|split; [|done]]]]].
    + cbn [loadChannels]. rewrite Hkv. unfold loadLeaseMessages at 1. erewrite bind_Done by (apply read_Done; exact Hg).
      rewrite Hj. cbn [mret act_ret]. unfold mret, act_ret. rewrite Halloc. erewrite bind_Done by exact Hrun2. exact Hrun3.
    + split_and!; [done|by rewrite Hs3, Hs2|by rewrite Hrb3, Hrb2|by rewrite Hq3, Hq2].
    + intros c. rewrite Hm3, Hmbc, elem_of_cons. case_decide as Hc; [subst c|].
      * split; [intros _; by left; left|]. intros _. right. by eexists.
      * split; [intros [?|?]; [left; by right|by right]|]. intros [[?|?]|?]; [done|by left|by right].
    + intros c k. specialize (Hcore3 c k). destruct (decide (c = ch)) as [->|Hc].
      * rewrite decide_False in Hcore3 by done. rewrite (decide_True (P := ch ∈ ch :: ids)) by left.
        eapply allStoredAs_trans; [|exact Hcore3]. specialize (Hcore2 ch k). by rewrite Hle1, decide_True, <- HMst in Hcore2 by done.
      * destruct (decide (c ∈ ids)) as [Hin|Hin]; [by rewrite decide_True by (by right)|].
        rewrite (decide_False (P := c ∈ ch :: ids)) by (by rewrite not_elem_of_cons).
        eapply allStoredAs_trans; [|exact Hcore3]. specialize (Hcore2 c k). by rewrite Hle1, decide_False in Hcore2 by done.
Qed.

(** The keys of a loaded list are those it was stored with. *)
Lemma load_rb_ok s all A :
  all_rb all = rb_of cs rv ∅ -> rb_stored rv s A ->
  ifPresent (onRb rb_load) (s, all) = Done (s, all_setRb all (rb_of cs rv A)) tt.
Proof.
  intros Hrb Hst. pose proof (rb_load_ok cs rv s A Hst) as Hload. unfold rb_loadIfPresent in Hload.
  unfold ifPresent, onRb, zoom. rewrite Hrb. destruct (rb_load (s, rb_of cs rv ∅)) as [[s1 rb1] u|[s1 rb1] e|] eqn:E; [| |done].
  - by simplify_eq.
  - destruct (ekv_Exists S e); [done|]. by simplify_eq.
Qed.

(** A restart gives back all leases, in order; the overdue ones are put off. *)
Lemma restart_ok {t0 : Time} s all A now (r : R) :
  lease_inv t0 s all A -> 0 <= now < 2 ^ 63 ->
  exists all', NewOrLoadActionLeaseList leaseOrder cs v r now s = Done (s, all') tt /\ lease_inv now s all' A /\
    queues all' = ([], [], [], []) /\
    (forall ch k, leaseCore <$> leaseAt all' ch k = leaseCore <$> leaseAt all ch k) /\
    (forall ch k lm, leaseAt all' ch k = Some lm -> now <= lm_LeaseTrigger lm).
Proof.
  intros Hinv Hnow. pose proof Hinv as [Hlk Hst Hkv Hsto Hrb Hrbs].
  set (all0 := mkLeaseList ID Rnd R _ [] [] ∅ [] [] [] [] (rb_of cs rv ∅) cs v r : ActionLeaseList ID Rnd R).
  assert (NewActionLeaseList cs v r = Ok all0) as Hnew.
  { unfold NewActionLeaseList, newReplayBlocker. rewrite Hrv. cbn [must mbind result_bind]. unfold all0, rb_of. by rewrite fmap_empty. }
  assert (forall ch, channelPlaces all0 ch = ∅) as Hp0 by (intros; apply channelPlaces_None, lookup_empty).
  assert (forall ch k, leaseAt all0 ch k = None) as Hl0.
  { intros ch k. unfold leaseAt, channelMessages. rewrite lookup_omap, Hp0, lookup_empty. done. }
  assert (lists_ok [] all0) as Hok0.
  { split; [apply NoDup_nil_2|apply SSorted_nil|intros ch m; cbn [all0 all_messagesByChannel]; by rewrite lookup_empty| |by intros a ?%not_elem_of_nil..].
    intros ch k a. by rewrite Hp0, lookup_empty. }
  assert (exists all1, ifPresent (all_load leaseOrder now) (s, all0) = Done (s, all1) tt /\ lists_ok [] all1 /\
    (all_kv all1 = v /\ all_store all1 = cs /\ all_rb all1 = rb_of cs rv ∅ /\ queues all1 = ([], [], [], [])) /\
    (forall ch, is_Some (all_messagesByChannel all1 !! ch) <-> is_Some (all_messagesByChannel all !! ch)) /\
    (forall ch k, is_Some (all_messagesByChannel all !! ch) -> allStoredAs now (storedLeases s ch !! k) (leaseAt all1 ch k)) /\
    (forall ch k lm, leaseAt all1 ch k = Some lm -> lease_ok lm /\ now <= lm_LeaseTrigger lm))
    as (all1 & Hrun & Hok1 & (Hkv1 & Hs1 & Hrb1 & Hq1) & Hm1 & Hcore1 & Hall1).
  { unfold ifPresent, all_load. cbn [all0 all_kv]. unfold loadLeaseChannels.
    destruct (ls_list v t0 s all Hst) as [[(e & He & Hex) Hempty]|(o & l & Hg & Hj & Hnd & Hl)].
    - rewrite (bind_Fail _ _ _ (s, all0) (Wrapf "could not load list of channels" [] e)).
      + rewrite ekv_exists_wrap, Hex. exists all0. split; [done|]. split; [done|]. split; [done|]. split; [|split].
        * intros ch. by rewrite Hempty.
        * intros ch k. rewrite Hempty, lookup_empty. by intros [].
        * intros ch k lm. by rewrite Hl0.
      + apply annotate_Fail. unfold onStore, zoom. cbn [fst]. rewrite (bind_Fail _ _ _ s e); [done|].
        unfold read, channelLeaseVer. by rewrite He.
    - destruct (loadChannels_ok l s all all0 now Hlk Hst Hnd Hnow) as (all1 & Hrun & Hok1 & (Hkv1 & Hs1 & Hrb1 & Hq1) & Hm1 & Hcore1 & Hall1).
      + intros ch Hin. split; [by apply Hl|done].
      + done.
      + done.
      + intros ch k lm. by rewrite Hl0.
      + exists all1. split; [|split; [done|split; [done|split; [|split; [|done]]]]].
        * erewrite bind_Done; [by rewrite Hrun|]. apply annotate_Done, onStore_Done.
          erewrite bind_Done by (apply read_Done; exact Hg). by rewrite Hj.
        * intros ch. rewrite Hm1, Hl. split; [intros [?|[x Hx]]; [done|]; cbn [all0 all_messagesByChannel] in Hx; by rewrite lookup_empty in Hx|by left].
        * intros ch k Hc. specialize (Hcore1 ch k). rewrite decide_True in Hcore1; [done|]. by apply Hl. }
  assert (forall ch k, leaseCore <$> leaseAt all1 ch k = leaseCore <$> leaseAt all ch k) as Hcores.
  { intros ch k. destruct (all_messagesByChannel all !! ch) as [x|] eqn:Hc.
    - assert (is_Some (all_messagesByChannel all !! ch)) as Hcs' by (by exists x).
      destruct (ls_messages v t0 s all Hst ch Hcs') as (o & M & Hg & Hj & _ & HM).
      assert (storedLeases s ch = M) as <- by (unfold storedLeases; by rewrite Hg, Hj).
      rewrite <- (allStoredAs_core _ _ _ (HM k)). symmetry. by apply (allStoredAs_core now), Hcore1.
    - assert (leaseAt all ch k = None) as -> by (apply (leaseAt_None [] _ _ _ Hlk); by rewrite (channelPlaces_None _ _ Hc), lookup_empty).
      apply fmap_None, (leaseAt_None [] _ _ _ Hok1). rewrite channelPlaces_None; [done|].
      destruct (all_messagesByChannel all1 !! ch) eqn:Hc1; [|done]. destruct (proj1 (Hm1 ch)) as [y Hy]; [by eexists|]. congruence. }
  exists (all_setRb all1 (rb_of cs rv A)). split; [|split; [split|split; [done|split]]].
  - unfold NewOrLoadActionLeaseList. rewrite Hnew. erewrite bind_Done by exact Hrun. by apply load_rb_ok.
  - by destruct Hok1.
  - split.
    + destruct (ls_list v t0 s all Hst) as [[Ha He]|(o & l & Hg & Hj & Hnd & Hl)].
      * left. split; [done|]. cbn [all_messagesByChannel all_setRb]. apply map_eq. intros ch. rewrite lookup_empty.
        destruct (all_messagesByChannel all1 !! ch) eqn:Hc; [|done]. destruct (proj1 (Hm1 ch)) as [x Hx]; [by eexists|]. by rewrite He, lookup_empty in Hx.
      * right. exists o, l. split; [done|]. split; [done|]. split; [done|]. intros ch. rewrite Hl. symmetry. apply Hm1.
    + intros ch Hc. apply Hm1 in Hc. destruct (ls_messages v t0 s all Hst ch Hc) as (o & M & Hg & Hj & HMok & HM).
      exists o, M. split; [done|]. split; [done|]. split; [done|]. intros k.
      assert (storedLeases s ch = M) as <- by (unfold storedLeases; by rewrite Hg, Hj). by apply Hcore1.
    + intros ch k lm Hlm. by apply (Hall1 ch k lm).
  - done.
  - done.
  - done.
  - done.
  - apply Hcores.
  - intros ch k lm Hlm. by apply (Hall1 ch k lm).
Qed.
End ops.
