(* ===== verification/LeaseThread.v ===== *)
(** * The thread of the lease system

    [channels/lease.go]: [updateLeasesThread] takes new leases, removals and
    channels that were left from its queues, and on every round undoes the actions
    whose lease is over and replays those that the network is about to forget. *)

From Stdlib Require Import Sorting.Sorted.
From S2P Require Import Prelude GoBytes KV Base64 Json Effects CommandStore ReplayBlocker Lease LeaseOps.

Definition millisecond : Z := 1000000.

(** What the thread starts: the undoing of an action by [triggerFn], and a replay
    by [replayFn]. *)
Inductive leaseEffect {ID Rnd : Type} :=
| Undo (lm : leaseMessage ID) (cm : CommandMessage ID Rnd)
| ReplayAction (channelID : ID) (encryptedPayload : list byte).
Arguments leaseEffect : clear implicits.

(** The cases of the [select]; stopping is left out. *)
Inductive leaseEvent := EvAdd | EvRemove | EvRemoveChannel | EvTimer.

Section code.
Context {S ID Rnd R : Type} `{EKV S} `{NetID ID} `{CMixHash} `{LeaseRandom R}.
Context `{JsonCodec (CommandMessage ID Rnd)} `{JsonCodec (gmap string (commandMessage ID))} `{JsonCodec (list ID)}
        `{JsonCodec (gmap string (leaseMessage ID))}.
Context (rbChannelOrder : gmap ID (goMap string (commandMessage ID)) -> list ID)
        (commandOrder : gmap string (commandMessage ID) -> list string)
        (channelOrder : gmap ID (goMap string nat) -> list ID)
        (leaseOrder : gmap string nat -> list string).

Local Abbreviation ALL := (ActionLeaseList ID Rnd R).
Implicit Types (all : ALL) (lm : leaseMessage ID) (a : nat).

(** [jww.FATAL.Panicf] on an error. *)
Definition fatal (m : act (S * ALL) unit) : act (S * ALL) unit := fun st =>
  match m st with
  | Fail _ _ => Crash
  | o => o
  end.

(** One round of [activatingNow] for an element, at the time [now]. *)
Definition activatingNow (now : Time) lm : bool := lm_LeaseTrigger lm <=? now - millisecond.

(** The loop through the leases that are due: those to remove, those to update,
    what is started, and the first that is not due.  Call [i] of the clock is at
    [clock i]. *)
Fixpoint triggerLoop (clock : nat -> Time) (i : nat) (es : list nat) (s : S) all :
    result (list nat * list nat * list (leaseEffect ID Rnd) * option nat) :=
  match es with
  | [] => Ok ([], [], [], None)
  | e :: es =>
      match all_heap all !! e with
      | None => Panic
      | Some (mkLeaseObj _ lm _) =>
          if activatingNow (clock i) lm then
            '(toRemove, toUpdate, eff, next) ← triggerLoop clock (i + 1) es s all;
            match LoadCommand (all_store all) (lm_ChannelID lm) (lm_Action lm) (lm_Payload lm) s with
            | Done _ cm =>
                if lm_LeaseEnd lm <=? lm_LeaseTrigger lm
                then Ok (e :: toRemove, toUpdate, Undo lm cm :: eff, next)
                else Ok (toRemove, e :: toUpdate, ReplayAction (lm_ChannelID lm) (cm_EncryptedPayload cm) :: eff, next)
            | Fail _ _ => Ok (e :: toRemove, toUpdate, eff, next)
            | Crash => Panic
            end
          else Ok ([], [], [], Some e)
      end
  end.

(** A call for every message of a list. *)
Fixpoint forMessages (f : leaseMessage ID -> act (S * ALL) unit) (places : list nat) : act (S * ALL) unit := fun '(s, all) =>
  match places with
  | [] => Done (s, all) tt
  | a :: places =>
      match all_heap all !! a with
      | None => Crash
      | Some (mkLeaseObj _ lm _) => (_ ← fatal (f lm); forMessages f places) (s, all)
      end
  end.

(** The part of the loop after the [select].  The second result is the time the
    timer is set to; it stays stopped when there is none. *)
Definition leasePass (clock : nat -> Time) (now : Time) : act (S * ALL) (list (leaseEffect ID Rnd) * option Time) := fun '(s, all) =>
  match triggerLoop clock 0 (all_leases all) s all with
  | Ok (toRemove, toUpdate, eff, e) =>
      let alarm := leaseTrigger all <$> e in
      (_ ← forMessages (fun m => removeMessage rbChannelOrder channelOrder m true now) toRemove;
       _ ← forMessages (fun m => updateLeaseTrigger rbChannelOrder channelOrder m now) toUpdate;
       mret (eff, alarm)) (s, all)
  | _ => Crash
  end.

(** The [select]: a case is taken only when its channel has something. *)
Definition enabled (ev : leaseEvent) all : bool :=
  match ev with
  | EvAdd => negb (bool_decide (length (all_addLeaseMessage all) = 0%nat))
  | EvRemove => negb (bool_decide (length (all_removeLeaseMessage all) = 0%nat))
  | EvRemoveChannel => negb (bool_decide (length (all_removeChannelCh all) = 0%nat))
  | EvTimer => true
  end.

Definition handleEvent (ev : leaseEvent) (now : Time) : act (S * ALL) unit := fun '(s, all) =>
  match ev with
  | EvAdd =>
      match all_addLeaseMessage all with
      | (lm, _) :: q =>
          fatal (addMessage channelOrder lm now)
            (s, all_setQueues all q (all_removeLeaseMessage all) (all_removeChannelCh all) (all_spawned all))
      | [] => Done (s, all) tt
      end
  | EvRemove =>
      match all_removeLeaseMessage all with
      | lm :: q =>
          fatal (removeMessage rbChannelOrder channelOrder lm false now)
            (s, all_setQueues all (all_addLeaseMessage all) q (all_removeChannelCh all) (all_spawned all))
      | [] => Done (s, all) tt
      end
  | EvRemoveChannel =>
      match all_removeChannelCh all with
      | channelID :: q =>
          fatal (removeChannel rbChannelOrder commandOrder channelOrder leaseOrder channelID now)
            (s, all_setQueues all (all_addLeaseMessage all) (all_removeLeaseMessage all) q (all_spawned all))
      | [] => Done (s, all) tt
      end
  | EvTimer => Done (s, all) tt
  end.

Definition leaseIteration (ev : leaseEvent) (clock : nat -> Time) (now : Time) :
    act (S * ALL) (list (leaseEffect ID Rnd) * option Time) :=
  _ ← handleEvent ev now;
  leasePass clock now.
End code.

(** ** What a round does *)

Section verdicts.
Context {S ID Rnd R : Type} `{EKV S} `{NetID ID} `{CMixHash} `{JsonCodec (CommandMessage ID Rnd)}.
Implicit Types (all : ActionLeaseList ID Rnd R) (lm : leaseMessage ID).

(** The command of a lease, when it can be loaded. *)
Definition commandOf (cs : kv) (s : S) lm : option (CommandMessage ID Rnd) :=
  match LoadCommand cs (lm_ChannelID lm) (lm_Action lm) (lm_Payload lm) s with Done _ cm => Some cm | _ => None end.

(** A due lease is kept, and replayed, when its command can be loaded and it is
    triggered before its end. *)
Definition replayed (cs : kv) (s : S) lm : bool :=
  bool_decide (is_Some (commandOf cs s lm)) && (lm_LeaseTrigger lm <? lm_LeaseEnd lm).

Definition effectOf (cs : kv) (s : S) lm : option (leaseEffect ID Rnd) :=
  cm ← commandOf cs s lm;
  Some (if lm_LeaseEnd lm <=? lm_LeaseTrigger lm then Undo lm cm else ReplayAction (lm_ChannelID lm) (cm_EncryptedPayload cm)).

(** The messages at places of the heap. *)
Definition messagesAt all (places : list nat) (lms : list (leaseMessage ID)) : Prop :=
  Forall2 (fun a lm => all_heap all !! a = Some (mkLeaseObj ID lm true)) places lms.

Lemma LoadCommand_total cs ch action payload (s : S) :
  (exists cm : CommandMessage ID Rnd, LoadCommand cs ch action payload s = Done s cm) \/
  (exists e, LoadCommand (Rnd := Rnd) cs ch action payload s = Fail s e).
Proof.
  unfold LoadCommand, mbind, act_bind, read. destruct (kv_Get _ _ _ _) as [e|o]; [right; by exists e|].
  destruct (json_Unmarshal (Data o)) as [cm|]; [left; by exists cm|right; by eexists].
Qed.

(** The loop stops at the first lease that is not due; those before it are
    removed or replayed. *)
Lemma lease_triggerLoop_spec clock i es lms (s : S) all :
  messagesAt all es lms ->
  exists n, (n <= length lms)%nat /\
    triggerLoop clock i es s all = Ok
      (omap (fun p => if replayed (all_store all) s p.2 then None else Some p.1) (zip (take n es) (take n lms)),
       omap (fun p => if replayed (all_store all) s p.2 then Some p.1 else None) (zip (take n es) (take n lms)),
       omap (effectOf (all_store all) s) (take n lms), es !! n) /\
    (forall j lm, (j < n)%nat -> lms !! j = Some lm -> activatingNow (clock (i + j)%nat) lm = true) /\
    (forall lm, lms !! n = Some lm -> activatingNow (clock (i + n)%nat) lm = false).
Proof.
  intros Hm. revert i. induction Hm as [|e lm es lms He _ IH]; intros i.
  { exists 0%nat. split_and!; [done|done|intros; lia|done]. }
  cbn [triggerLoop]. rewrite He. destruct (activatingNow (clock i) lm) eqn:Hact.
  2:{ exists 0%nat. split; [lia|]. split; [done|]. split; [intros; lia|]. intros ? [= <-]. by rewrite Nat.add_0_r. }
  destruct (IH (i + 1)%nat) as (n & Hn & Hrun & Hdue & Hnot). exists (Datatypes.S n). split; [simpl; lia|]. split; [|split].
  - rewrite Hrun. cbn [mbind result_bind take zip zip_with omap list_omap fst snd]. unfold replayed, effectOf, commandOf.
    destruct (LoadCommand_total (all_store all) (lm_ChannelID lm) (lm_Action lm) (lm_Payload lm) s) as [[cm Hcm]|[err Herr]].
    + rewrite Hcm, bool_decide_true by (by eexists). cbn [andb]. rewrite Z.leb_antisym.
      by destruct (lm_LeaseTrigger lm <? lm_LeaseEnd lm).
    + rewrite Herr, bool_decide_false by (by intros []). done.
  - intros [|j] lm' Hj; [intros [= <-]; by rewrite Nat.add_0_r|]. intros Hl. rewrite <- Nat.add_succ_comm, <- Nat.add_1_r. apply Hdue; [lia|done].
  - intros lm' Hl. rewrite <- Nat.add_succ_comm, <- Nat.add_1_r. by apply Hnot.
Qed.
End verdicts.

Lemma Forall2_omap_zip {A B} (Q : A -> B -> Prop) (f : B -> bool) ps ls :
  Forall2 Q ps ls ->
  Forall2 Q (omap (fun p => if f p.2 then None else Some p.1) (zip ps ls)) (filter (fun l => f l = false) ls) /\
  Forall2 Q (omap (fun p => if f p.2 then Some p.1 else None) (zip ps ls)) (filter (fun l => f l = true) ls).
Proof.
  induction 1 as [|p l ps ls Hq _ [IH1 IH2]]; [split; constructor|].
  cbn [zip zip_with omap list_omap fst snd]. rewrite !filter_cons. destruct (f l); cbn; (split; [|]); by try constructor.
Qed.

Section round.
Context {S ID Rnd R : Type} `{EKVLaws S, !EKVReliable S} `{NetIDLaws ID} `{CMixHash} `{LeaseRandomLaws R}.
Context `{JsonCodec (CommandMessage ID Rnd)} `{JsonCodec (gmap string (commandMessage ID))} `{JsonCodec (list ID)}
        `{!ReplayJson (ID := ID)} `{JsonCodec (gmap string (leaseMessage ID))} `{!LeaseJson (ID := ID)}.
Context (rbChannelOrder : gmap ID (goMap string (commandMessage ID)) -> list ID) `{!MapOrder rbChannelOrder}
        (commandOrder : gmap string (commandMessage ID) -> list string)
        (channelOrder : gmap ID (goMap string nat) -> list ID) `{!MapOrder channelOrder}
        (leaseOrder : gmap string nat -> list string) `{!MapOrder leaseOrder}.
Context (v cs rv : kv) (Hv : kv_handle v) (Hcs : kv_Prefix v commandStorePrefix = Ok cs)
        (Hrv : kv_Prefix v replayBlockerStoragePrefix = Ok rv).
Implicit Types (all : ActionLeaseList ID Rnd R) (s : S) (lm : leaseMessage ID)
  (A : gmap ID (gmap string (commandMessage ID))).

(** The channel and key of a lease. *)
Definition leaseKeyOf lm : ID * string := (lm_ChannelID lm, lmKey lm).

Lemma fatal_Done (m : act (S * ActionLeaseList ID Rnd R) unit) st st' : m st = Done st' tt -> fatal m st = Done st' tt.
Proof. intros Hm. unfold fatal. by rewrite Hm. Qed.

Lemma removeAll_ok {t0 : Time} places lms s all A now :
  lease_inv v cs rv t0 s all A -> messagesAt all places lms ->
  exists s' all' A', forMessages (fun m => removeMessage rbChannelOrder channelOrder m true now) places (s, all) = Done (s', all') tt /\
    lease_inv v cs rv t0 s' all' A' /\ queues all' = queues all /\ all_rng all' = all_rng all /\ all_heap all' = all_heap all /\
    forall ch k, leaseAt all' ch k = if decide ((ch, k) ∈ leaseKeyOf <$> lms) then None else leaseAt all ch k.
Proof.
  intros Hinv Hm. revert s all A Hinv Hm. revert lms. induction places as [|a places IH]; intros lms s all A Hinv Hm.
  { apply Forall2_nil_inv_l in Hm as ->. exists s, all, A. split_and!; [done..|]. intros ch k.
    by rewrite decide_False by apply not_elem_of_nil. }
  apply Forall2_cons_inv_l in Hm as (lm & lms' & Ha & Hm & ->).
  destruct (removeMessage_ok rbChannelOrder commandOrder channelOrder v cs rv Hv Hcs Hrv lm true s all A now Hinv)
    as (s1 & all1 & Hrun1 & Hinv1 & Hq1 & Hr1 & Hh1 & Hle1).
  assert (messagesAt all1 places lms') as Hm1 by (unfold messagesAt; by rewrite Hh1).
  destruct (IH lms' s1 all1 _ Hinv1 Hm1) as (s2 & all2 & A2 & Hrun2 & Hinv2 & Hq2 & Hr2 & Hh2 & Hle2).
  exists s2, all2, A2. split; [|split; [done|split; [congruence|split; [congruence|split; [congruence|]]]]].
  - cbn [forMessages]. rewrite Ha. erewrite bind_Done by (apply fatal_Done; exact Hrun1). exact Hrun2.
  - intros ch k. rewrite Hle2, Hle1. cbn [fmap list_fmap]. destruct (decide ((ch, k) ∈ leaseKeyOf <$> lms')) as [Hin|Hin].
    + by rewrite decide_True by (by right).
    + destruct (decide (ch = lm_ChannelID lm /\ k = lmKey lm)) as [[-> ->]|Hn]; [by rewrite decide_True by left|].
      rewrite decide_False; [done|]. intros [[= -> ->]|?]%elem_of_cons; naive_solver.
Qed.

(** The new trigger of a replayed lease, [None] when its lease is over. *)
Definition newTrigger (now : Time) lm (t : option Time) : Prop :=
  exists r r' : R, calculateLeaseTrigger now (lm_OriginatingTimestamp lm) (lm_Lease lm) r = Ok (t, r').

Lemma updateAll_ok {t0 : Time} places lms s all A now :
  lease_inv v cs rv t0 s all A -> 0 <= now < 2 ^ 63 -> messagesAt all places lms -> NoDup (leaseKeyOf <$> lms) ->
  (forall lm, lm ∈ lms -> leaseAt all (lm_ChannelID lm) (lmKey lm) = Some lm) ->
  exists s' all' A', forMessages (fun m => updateLeaseTrigger rbChannelOrder channelOrder m now) places (s, all) = Done (s', all') tt /\
    lease_inv v cs rv t0 s' all' A' /\ queues all' = queues all /\
    (forall ch k, (ch, k) ∉ leaseKeyOf <$> lms -> leaseAt all' ch k = leaseAt all ch k) /\
    (forall lm, lm ∈ lms -> exists t, newTrigger now lm t /\ leaseAt all' (lm_ChannelID lm) (lmKey lm) = lm_setTrigger lm <$> t).
Proof.
  intros Hinv Hnow Hm. revert s all A Hinv Hm. revert lms. induction places as [|a places IH]; intros lms s all A Hinv Hm Hnd Hle.
  { apply Forall2_nil_inv_l in Hm as ->. exists s, all, A. split_and!; [done..|]. by intros lm ?%not_elem_of_nil. }
  apply Forall2_cons_inv_l in Hm as (lm & lms' & Ha & Hm & ->).
  cbn [fmap list_fmap] in Hnd. apply list.NoDup_cons in Hnd as [Hnew Hnd].
  assert (leaseAt all (lm_ChannelID lm) (lmKey lm) = Some lm) as Hlm by (apply Hle; left).
  destruct (updateLeaseTrigger_ok rbChannelOrder commandOrder channelOrder v cs rv Hv Hcs Hrv lm lm s all A now Hinv Hnow Hlm)
    as (s1 & all1 & t & r & Hrun1 & Hcalc & _ & Hinv1 & Hq1 & Hh1 & Hle1).
  destruct (lease_place all lm (li_lists _ _ _ _ _ _ _ Hinv)) as (a0 & lm0 & Hf0 & _ & Ha0 & _ & Hc0 & Hk0); [by left|].
  assert (messagesAt all1 places lms') as Hm1.
  { unfold messagesAt in *. apply Forall2_same_length_lookup. split; [by eapply Forall2_length|]. intros i b lmb Hb Hlmb.
    pose proof (Forall2_lookup_lr _ _ _ _ _ _ Hm Hb Hlmb) as Hbb. rewrite Hh1; [done|]. rewrite Hf0. intros [= <-].
    rewrite Ha0 in Hbb. injection Hbb as <-. apply Hnew, list_elem_of_fmap. exists lm0.
    split; [unfold leaseKeyOf; by rewrite Hc0, Hk0|by eapply list_elem_of_lookup_2]. }
  destruct (IH lms' s1 all1 _ Hinv1 Hm1 Hnd) as (s2 & all2 & A2 & Hrun2 & Hinv2 & Hq2 & Hoff & Hon).
  { intros lmb Hb. rewrite Hle1, decide_False; [by apply Hle; right|]. intros [Hc Hk]. apply Hnew, list_elem_of_fmap.
    exists lmb. split; [unfold leaseKeyOf; by rewrite Hc, Hk|done]. }
  exists s2, all2, A2. split; [|split; [done|split; [congruence|split]]].
  - cbn [forMessages]. rewrite Ha. erewrite bind_Done by (apply fatal_Done; exact Hrun1). exact Hrun2.
  - intros ch k Hn. cbn [fmap list_fmap] in Hn. rewrite not_elem_of_cons in Hn. destruct Hn as [Hn Hn']. rewrite Hoff by done.
    rewrite Hle1, decide_False; [done|]. intros [-> ->]. done.
  - intros lmb [->|Hb]%elem_of_cons; [|by apply Hon]. exists t. split; [by exists (all_rng all), r|].
    rewrite Hoff by done. by rewrite Hle1, decide_True.
Qed.

(** The leases of the list in its order: each is that of the map under its key. *)
Lemma leases_in_order pend all :
  lists_ok pend all ->
  exists lms, messagesAt all (all_leases all) lms /\ NoDup (leaseKeyOf <$> lms) /\
    (forall lm, lm ∈ lms -> leaseAt all (lm_ChannelID lm) (lmKey lm) = Some lm) /\
    (pend = [] -> forall ch k lm, leaseAt all ch k = Some lm -> lm ∈ lms /\ ch = lm_ChannelID lm /\ k = lmKey lm).
Proof.
  intros Hok.
  assert (exists lms, messagesAt all (all_leases all) lms) as [lms Hm].
  { unfold messagesAt. pose proof (lk_list _ _ Hok) as Hl. induction (all_leases all) as [|a l IH]; [exists []; constructor|].
    destruct IH as [lms Hm]; [intros b Hb; apply Hl; by right|]. destruct (Hl a) as (lm & Ha & _); [left|]. exists (lm :: lms). by constructor. }
  assert (forall i a lm, all_leases all !! i = Some a -> lms !! i = Some lm -> channelPlaces all (lm_ChannelID lm) !! lmKey lm = Some a) as Hpl.
  { intros i a lm Hi Hlm. pose proof (Forall2_lookup_lr _ _ _ _ _ _ Hm Hi Hlm) as Ha. cbn beta in Ha.
    destruct (lk_list _ _ Hok a) as (lm' & Ha' & Hp); [by eapply list_elem_of_lookup_2|]. rewrite Ha' in Ha. by injection Ha as <-. }
  exists lms. split; [done|]. split; [|split].
  - apply NoDup_alt. intros i j x Hi Hj. apply list_lookup_fmap_Some in Hi as (lmi & Hxi & Hi). apply list_lookup_fmap_Some in Hj as (lmj & Hxj & Hj).
    destruct (Forall2_lookup_r _ _ _ _ _ Hm Hi) as (a & Ha & _). destruct (Forall2_lookup_r _ _ _ _ _ Hm Hj) as (b & Hb & _).
    pose proof (Hpl i a lmi Ha Hi) as Hpa. pose proof (Hpl j b lmj Hb Hj) as Hpb. unfold leaseKeyOf in *.
    assert (a = b) as <- by congruence. eapply NoDup_lookup; [apply (lk_nodup _ _ Hok)|done|done].
  - intros lm [i Hi]%list_elem_of_lookup_1. destruct (Forall2_lookup_r _ _ _ _ _ Hm Hi) as (a & Ha & Hh).
    apply leaseAt_Some. exists a, true. split; [by eapply Hpl|done].
  - intros -> ch k lm (a & e & Hp & Ha)%leaseAt_Some. destruct (place_key _ _ _ _ _ _ _ Hok Hp Ha) as [-> ->].
    split; [|done]. destruct (lk_place _ _ Hok _ _ a Hp) as (lm' & e' & Ha' & _ & _ & [[-> Hin]|Hn%not_elem_of_nil]); [|done].
    apply list_elem_of_lookup_1 in Hin as [i Hi]. destruct (Forall2_lookup_l _ _ _ _ _ Hm Hi) as (lm2 & Hlm2 & Ha2).
    cbn beta in Ha2. rewrite Ha in Ha2. injection Ha2 as -> _. by eapply list_elem_of_lookup_2.
Qed.

Lemma round_ok {t0 : Time} s all A clock now :
  lease_inv v cs rv t0 s all A -> 0 <= now < 2 ^ 63 ->
  exists lms n s' all' A',
    messagesAt all (all_leases all) lms /\
    (forall ch k lm, leaseAt all ch k = Some lm <-> lm ∈ lms /\ (ch, k) = leaseKeyOf lm) /\
    (forall j lm, (j < n)%nat -> lms !! j = Some lm -> activatingNow (clock j) lm = true) /\
    (forall lm, lms !! n = Some lm -> activatingNow (clock n) lm = false) /\
    leasePass rbChannelOrder channelOrder clock now (s, all) =
      Done (s', all') (omap (effectOf cs s) (take n lms), lm_LeaseTrigger <$> lms !! n) /\
    lease_inv v cs rv t0 s' all' A' /\ queues all' = queues all /\
    (forall lm, lm ∈ drop n lms -> leaseAt all' (lm_ChannelID lm) (lmKey lm) = Some lm) /\
    (forall lm, lm ∈ take n lms ->
      if replayed cs s lm
      then exists t, newTrigger now lm t /\ leaseAt all' (lm_ChannelID lm) (lmKey lm) = lm_setTrigger lm <$> t
      else leaseAt all' (lm_ChannelID lm) (lmKey lm) = None) /\
    (forall ch k, leaseAt all ch k = None -> leaseAt all' ch k = None).
Proof.
  intros Hinv Hnow. destruct (leases_in_order [] all (li_lists _ _ _ _ _ _ _ Hinv)) as (lms & Hm & Hnd & Hle & Hall).
  destruct (lease_triggerLoop_spec clock 0 (all_leases all) lms s all Hm) as (n & Hn & Hloop & Hdue & Hnot).
  rewrite (li_store _ _ _ _ _ _ _ Hinv) in Hloop.
  assert (messagesAt all (take n (all_leases all)) (take n lms)) as Hmt by (by apply Forall2_take).
  destruct (Forall2_omap_zip _ (replayed cs s) _ _ Hmt) as [Hrem Hupd].
  destruct (removeAll_ok _ _ s all A now Hinv Hrem) as (s1 & all1 & A1 & Hrun1 & Hinv1 & Hq1 & Hr1 & Hh1 & Hle1).
  assert (forall lm lm', lm ∈ lms -> lm' ∈ lms -> leaseKeyOf lm = leaseKeyOf lm' -> lm = lm') as Hinj.
  { intros lm lm' Hl Hl' Hk. apply Hle in Hl, Hl'. unfold leaseKeyOf in Hk. congruence. }
  assert (forall lm, lm ∈ take n lms -> lm ∈ lms) as Htake by (intros lm Hl; rewrite <- (take_drop n lms); apply elem_of_app; by left).
  assert (forall lm, lm ∈ drop n lms -> lm ∈ lms /\ lm ∉ take n lms) as Hdrop.
  { intros lm Hl. split; [rewrite <- (take_drop n lms); apply elem_of_app; by right|]. intros Hl'.
    rewrite <- (take_drop n lms), fmap_app in Hnd. apply list.NoDup_app in Hnd as (_ & Hd & _).
    apply (Hd (leaseKeyOf lm)); apply list_elem_of_fmap; by exists lm. }
  assert (forall f lm, lm ∈ lms -> leaseKeyOf lm ∈ leaseKeyOf <$> filter (fun l => replayed cs s l = f) (take n lms) <-> lm ∈ take n lms /\ replayed cs s lm = f) as Hin.
  { intros f lm Hl. rewrite list_elem_of_fmap. split.
    - intros (lm' & Hk & [Hf Hl']%list_elem_of_filter). rewrite (Hinj lm lm') by auto. done.
    - intros [Hl' Hf]. exists lm. split; [done|]. by apply list_elem_of_filter. }
  destruct (updateAll_ok (omap (fun p => if replayed cs s p.2 then Some p.1 else None) (zip (take n (all_leases all)) (take n lms)))
    (filter (fun l => replayed cs s l = true) (take n lms)) s1 all1 A1 now Hinv1 Hnow)
    as (s2 & all2 & A2 & Hrun2 & Hinv2 & Hq2 & Hoff & Hon).
  { unfold messagesAt. rewrite Hh1. exact Hupd. }
  { eapply sublist_NoDup; [exact Hnd|]. apply fmap_sublist. etrans; [apply sublist_filter|]. apply sublist_take. }
  { intros lm [Hf Hl]%list_elem_of_filter. rewrite Hle1, decide_False; [by apply Hle, Htake|]. fold (leaseKeyOf lm). rewrite Hin by auto. intros [_ ?]. congruence. }
  exists lms, n, s2, all2, A2. split_and!; [done| |exact Hdue|exact Hnot| |done|congruence| | |].
  - intros ch k lm. split; [intros Hl; destruct (Hall eq_refl ch k lm Hl) as (? & -> & ->); done|].
    intros [Hl [= -> ->]]. by apply Hle.
  - unfold leasePass. rewrite Hloop. erewrite bind_Done by exact Hrun1. erewrite bind_Done by exact Hrun2. unfold mret, act_ret.
    do 2 f_equal. destruct (lms !! n) as [lm|] eqn:Hln.
    + destruct (Forall2_lookup_r _ _ _ _ _ Hm Hln) as (a & -> & Ha). simpl. unfold leaseTrigger. by rewrite Ha.
    + assert (all_leases all !! n = None) as ->; [|done]. apply lookup_ge_None. apply lookup_ge_None in Hln.
      by rewrite (Forall2_length Hm).
  - intros lm Hl. destruct (Hdrop lm Hl) as [Hl1 Hl2]. fold (leaseKeyOf lm) in *.
    rewrite Hoff by (fold (leaseKeyOf lm); rewrite Hin by done; tauto). rewrite Hle1, decide_False; [by apply Hle|]. fold (leaseKeyOf lm). rewrite Hin by done. tauto.
  - intros lm Hl. destruct (replayed cs s lm) eqn:Hrep.
    + apply Hon. by apply list_elem_of_filter.
    + rewrite Hoff by (fold (leaseKeyOf lm); rewrite Hin by auto; intros [_ ?]; congruence). rewrite Hle1, decide_True; [done|].
      fold (leaseKeyOf lm). rewrite Hin by auto. done.
  - intros ch k Hnone. rewrite Hoff, Hle1; [by case_decide|]. rewrite list_elem_of_fmap.
    intros (lm & [= -> ->] & [_ Hl]%list_elem_of_filter). rewrite Hle in Hnone by auto. done.
Qed.

(** ** Every reachable state is in order *)

(** The ranges of a command's fields; times of commands are [int64] nanoseconds. *)
Definition leaseCommand_ok (c : leaseCommand ID Rnd) : Prop :=
  is_u 16 (lc_action c) /\ is_u 64 (lc_originatingRound c) /\ - 2 ^ 63 <= lc_lease c < 2 ^ 63 /\
  0 <= lc_originatingTimestamp c < 2 ^ 63.
Definition storedCommand_ok (cm : CommandMessage ID Rnd) : Prop :=
  - 2 ^ 63 <= cm_Lease cm < 2 ^ 63 /\ 0 <= cm_OriginatingTimestamp cm < 2 ^ 63.

(** The messages in the queue of new leases are in range. *)
Definition queue_ok all : Prop := Forall (fun p => lease_ok p.1) (all_addLeaseMessage all).
Definition system_ok (t0 : Time) (st : S * ActionLeaseList ID Rnd R) : Prop :=
  exists A, lease_inv v cs rv t0 st.1 st.2 A /\ queue_ok st.2.

Lemma lease_inv_queues {t0 : Time} s all A q1 q2 q3 q4 :
  lease_inv v cs rv t0 s all A -> lease_inv v cs rv t0 s (all_setQueues all q1 q2 q3 q4) A.
Proof. intros [[] [] ? ? ? ?]. by split. Qed.

Lemma verifyCommand_ok {t0 : Time} c s all A now :
  leaseCommand_ok c -> lease_inv v cs rv t0 s all A ->
  exists s' all' A', (verifyCommand rbChannelOrder c now (s, all) = Done (s', all') tt \/
      exists e, verifyCommand rbChannelOrder c now (s, all) = Fail (s', all') e) /\
    lease_inv v cs rv t0 s' all' A' /\ all_addLeaseMessage all' = all_addLeaseMessage all.
Proof.
  intros (Ha & Ho & Hl & Ht) Hinv. pose proof Hinv as [Hlk Hst Hkv Hsto Hrb Hrbs].
  destruct (verify_refines rbChannelOrder commandOrder v cs rv now Hv Hcs Hrv (lc_channelID c) (lc_messageID c) (lc_action c) (lc_unsanitizedPayload c)
    (lc_sanitizedPayload c) (lc_encryptedPayload c) (lc_timestamp c) (lc_originatingTimestamp c) (lc_lease c)
    (lc_originatingRound c) (lc_round c) (lc_fromAdmin c) s A (conj Ha Ho) Hrbs) as (s1 & [verified replay] & Hrun & _ & Hrbs1 & Hk1).
  set (A1 := (rbSpec _ A).1) in *.
  assert (lease_inv v cs rv t0 s1 (all_setRb all (rb_of cs rv A1)) A1) as Hinv1.
  { assert (leases_stored v t0 s1 all) as [] by (by eapply leases_stored_rbKept). destruct Hlk. by split. }
  set (all1 := match replay with
    | Some cm => all_setQueues (all_setRb all (rb_of cs rv A1)) (all_addLeaseMessage all) (all_removeLeaseMessage all) (all_removeChannelCh all) (all_spawned all ++ [cm])
    | None => all_setRb all (rb_of cs rv A1) end).
  exists s1, all1, A1. split; [|split; [|by destruct replay]].
  - unfold verifyCommand. erewrite bind_Done.
    2:{ apply annotate_Done. unfold onRb. eapply zoom_Done. rewrite Hrb. exact Hrun. }
    cbn beta match. erewrite bind_Done by reflexivity. fold all1. destruct verified; [by left|right; by eexists].
  - unfold all1. destruct replay; [by apply lease_inv_queues|done].
Qed.

Lemma AddMessage_ok {t0 : Time} c st st' now :
  leaseCommand_ok c -> 0 <= now < 2 ^ 63 -> system_ok t0 st ->
  outcome_state (AddMessage rbChannelOrder c now st) = Some st' -> system_ok t0 st'.
Proof.
  intros Hc Hnow (A & Hinv & Hq). destruct st as [s all]. cbn [fst snd] in *.
  pose proof Hc as (Hact & _ & Hlease & Horig). unfold AddMessage.
  destruct (drawTrigger_ok s all now (lc_originatingTimestamp c) (lc_lease c) Hnow Horig Hlease) as (t & r & Hdraw & _ & Ht).
  erewrite bind_Done by exact Hdraw. destruct t as [t|].
  2:{ cbn [outcome_state throw]. intros [= <-]. exists A. split; [by apply lease_inv_rng|done]. }
  destruct (verifyCommand_ok c s (all_setRng all r) A now Hc (lease_inv_rng _ _ _ _ _ _ r Hinv)) as (s1 & all1 & A1 & [Hrun|[e Hrun]] & Hinv1 & Hq1).
  - erewrite bind_Done by exact Hrun. cbn [outcome_state modify]. intros [= <-]. exists A1.
    split; [by apply lease_inv_queues|]. unfold queue_ok. cbn [snd addToLeaseMessageChan all_setQueues all_addLeaseMessage].
    rewrite Hq1. apply Forall_app. split; [done|]. constructor; [|constructor]. cbn [fst].
    destruct (Ht t eq_refl) as [Hto _]. refine (conj Hact (conj Hlease (conj Horig (conj _ Hto)))). unfold time_ok. cbn [lm_LeaseEnd]. lia.
  - erewrite bind_Fail by exact Hrun. cbn [outcome_state]. intros [= <-]. exists A1. split; [done|]. unfold queue_ok. cbn [snd]. by rewrite Hq1.
Qed.

Lemma RemoveMessage_ok {t0 : Time} c st st' now :
  leaseCommand_ok c -> system_ok t0 st -> outcome_state (RemoveMessage rbChannelOrder c now st) = Some st' -> system_ok t0 st'.
Proof.
  intros Hc (A & Hinv & Hq). destruct st as [s all]. cbn [fst snd] in *. unfold RemoveMessage.
  destruct (_ >=? _); [cbn; intros [= <-]; by exists A|].
  destruct (verifyCommand_ok c s all A now Hc Hinv) as (s1 & all1 & A1 & [Hrun|[e Hrun]] & Hinv1 & Hq1).
  - erewrite bind_Done by exact Hrun. cbn [outcome_state modify]. intros [= <-]. exists A1.
    split; [by apply lease_inv_queues|]. unfold queue_ok. cbn. by rewrite Hq1.
  - erewrite bind_Fail by exact Hrun. cbn [outcome_state]. intros [= <-]. exists A1. split; [done|]. unfold queue_ok. cbn [snd]. by rewrite Hq1.
Qed.

Lemma AddOrOverwrite_ok {t0 : Time} ch action payload st st' now :
  is_u 16 action -> 0 <= now < 2 ^ 63 -> system_ok t0 st ->
  (forall cm, LoadCommand cs ch action payload st.1 = Done st.1 cm -> storedCommand_ok cm) ->
  outcome_state (AddOrOverwrite ch action payload now st) = Some st' -> system_ok t0 st'.
Proof.
  intros Hact Hnow (A & Hinv & Hq) Hcm. destruct st as [s all]. cbn [fst snd] in *. unfold AddOrOverwrite.
  rewrite (li_store _ _ _ _ _ _ _ Hinv).
  destruct (LoadCommand_total (Rnd := Rnd) cs ch action payload s) as [[cm Hl]|[e Hl]].
  - erewrite bind_Done by (apply onStore_Done; exact Hl). destruct (Hcm cm Hl) as [Hlease Horig].
    destruct (drawDuration_ok (Rnd := Rnd) s all quickReplayFloor quickReplayCeiling) as (d & r & Hd & Hr);
      [unfold quickReplayFloor, quickReplayCeiling, gracePeriod, minute; lia..|].
    erewrite bind_Done by exact Hd. cbn [outcome_state modify]. intros [= <-]. exists A.
    split; [by apply lease_inv_queues, lease_inv_rng|]. unfold queue_ok. cbn [snd addToLeaseMessageChan all_setQueues all_addLeaseMessage all_setRng].
    apply Forall_app. split; [done|]. constructor; [|constructor].
    refine (conj Hact (conj Hlease (conj Horig (conj _ _)))); unfold time_ok, quickReplayFloor, quickReplayCeiling, gracePeriod, minute in *;
      cbn [fst lm_LeaseEnd lm_LeaseTrigger lc_originatingTimestamp lc_lease]; lia.
  - unfold mbind, act_bind, onStore, zoom. cbn [fst]. rewrite Hl. cbn [outcome_state]. intros [= <-]. by exists A.
Qed.

(** The thread takes a lease that is in the list already. *)
Definition takesDuplicate (ev : leaseEvent) all : Prop :=
  ev = EvAdd /\ exists lm cm q, all_addLeaseMessage all = (lm, cm) :: q /\ is_Some (leaseAt all (lm_ChannelID lm) (lmKey lm)).

Lemma handleEvent_ok {t0 : Time} ev s all now :
  system_ok t0 (s, all) -> ~ takesDuplicate ev all ->
  exists st', handleEvent rbChannelOrder commandOrder channelOrder leaseOrder ev now (s, all) = Done st' tt /\ system_ok t0 st'.
Proof.
  intros (A & Hinv & Hq) Hdup. cbn [fst snd] in *. unfold handleEvent, queue_ok in *. destruct ev.
  - destruct (all_addLeaseMessage all) as [|[lm cm] q] eqn:Hqq; [by exists (s, all); split; [|exists A; split; [|unfold queue_ok; cbn [snd]; rewrite Hqq]]|].
    set (all1 := all_setQueues all q _ _ _). apply Forall_cons_iff in Hq as [Hlm Hq].
    destruct (addMessage_ok channelOrder v cs rv Hv Hrv lm s all1 A now (lease_inv_queues _ _ _ _ _ _ _ Hinv) Hlm) as (s' & all' & Hrun & Hinv' & Hqs & _).
    { destruct (leaseAt all1 (lm_ChannelID lm) (lmKey lm)) eqn:Hl; [|done]. destruct Hdup. split; [done|]. exists lm, cm, q. split; [done|]. by eexists. }
    exists (s', all'). split; [by apply fatal_Done|]. exists A. split; [done|]. unfold queue_ok. cbn [snd].
    injection Hqs as -> _ _ _. exact Hq.
  - destruct (all_removeLeaseMessage all) as [|lm q] eqn:Hqq; [by exists (s, all); split; [|exists A]|].
    set (all1 := all_setQueues all _ q _ _).
    destruct (removeMessage_ok rbChannelOrder commandOrder channelOrder v cs rv Hv Hcs Hrv lm false s all1 A now (lease_inv_queues _ _ _ _ _ _ _ Hinv))
      as (s' & all' & Hrun & Hinv' & Hqs & _).
    exists (s', all'). split; [by apply fatal_Done|]. eexists. split; [exact Hinv'|]. unfold queue_ok. cbn [snd].
    injection Hqs as -> _ _ _. exact Hq.
  - destruct (all_removeChannelCh all) as [|ch q] eqn:Hqq; [by exists (s, all); split; [|exists A]|].
    set (all1 := all_setQueues all _ _ q _).
    destruct (removeChannel_ok rbChannelOrder commandOrder channelOrder leaseOrder v cs rv Hv Hcs Hrv ch s all1 A now (lease_inv_queues _ _ _ _ _ _ _ Hinv))
      as (s' & all' & A' & Hrun & Hinv' & Hqs & _).
    exists (s', all'). split; [by apply fatal_Done|]. exists A'. split; [done|]. unfold queue_ok. cbn [snd].
    injection Hqs as -> _ _ _. exact Hq.
  - by exists (s, all); split; [|exists A].
Qed.

Lemma iteration_ok {t0 : Time} ev clock now st :
  system_ok t0 st -> 0 <= now < 2 ^ 63 ->
  (takesDuplicate ev st.2 ->
    leaseIteration rbChannelOrder commandOrder channelOrder leaseOrder ev clock now st = Crash) /\
  (~ takesDuplicate ev st.2 ->
    exists st' o, leaseIteration rbChannelOrder commandOrder channelOrder leaseOrder ev clock now st = Done st' o /\ system_ok t0 st').
Proof.
  intros Hok Hnow. destruct st as [s all]. cbn [snd]. split.
  - intros (-> & lm & cm & q & Hq & Hl). destruct Hok as (A & Hinv & _). cbn [fst snd] in Hinv. unfold leaseIteration, handleEvent.
    rewrite bind_Crash; [done|]. rewrite Hq. unfold fatal.
    rewrite (addMessage_dup (t0 := t0) channelOrder v cs rv lm s _ A now); [done|by apply lease_inv_queues|done].
  - intros Hdup. destruct (handleEvent_ok ev s all now Hok Hdup) as ([s1 all1] & Hrun & (A1 & Hinv1 & Hq1)). cbn [fst snd] in *.
    destruct (round_ok s1 all1 A1 clock now Hinv1 Hnow) as (lms & n & s2 & all2 & A2 & _ & _ & _ & _ & Hrun2 & Hinv2 & Hq2 & _).
    eexists (s2, all2), _. split; [unfold leaseIteration; erewrite bind_Done by exact Hrun; exact Hrun2|].
    exists A2. split; [done|]. unfold queue_ok in *. cbn [snd]. injection Hq2 as -> _ _ _. exact Hq1.
Qed.

(** The running system: calls that queue commands, the replays the blocker starts,
    and rounds of the thread. *)
Inductive leaseRun : S * ActionLeaseList ID Rnd R -> S * ActionLeaseList ID Rnd R -> Prop :=
| ls_add c now st st' : leaseCommand_ok c -> 0 <= now < 2 ^ 63 ->
    outcome_state (AddMessage rbChannelOrder c now st) = Some st' -> leaseRun st st'
| ls_remove c now st st' : leaseCommand_ok c ->
    outcome_state (RemoveMessage rbChannelOrder c now st) = Some st' -> leaseRun st st'
| ls_leave channelID s all : leaseRun (s, all) (s, RemoveChannel channelID all)
| ls_replay cm rest now s all st' : all_spawned all = cm :: rest -> is_u 16 (rc_Action cm) -> 0 <= now < 2 ^ 63 ->
    (forall c, LoadCommand cs (rc_ChannelID cm) (rc_Action cm) (rc_Payload cm) s = Done s c -> storedCommand_ok c) ->
    outcome_state (AddOrOverwrite (rc_ChannelID cm) (rc_Action cm) (rc_Payload cm) now
      (s, all_setQueues all (all_addLeaseMessage all) (all_removeLeaseMessage all) (all_removeChannelCh all) rest)) = Some st' ->
    leaseRun (s, all) st'
| ls_round ev clock now st st' o : enabled ev st.2 = true -> 0 <= now < 2 ^ 63 ->
    leaseIteration rbChannelOrder commandOrder channelOrder leaseOrder ev clock now st = Done st' o -> leaseRun st st'.

(** The system with restarts. *)
Inductive leaseStep : S * ActionLeaseList ID Rnd R -> S * ActionLeaseList ID Rnd R -> Prop :=
| ls_run st st' : leaseRun st st' -> leaseStep st st'
| ls_restart r now s all st' : 0 <= now < 2 ^ 63 ->
    NewOrLoadActionLeaseList leaseOrder cs v r now s = Done st' tt -> leaseStep (s, all) st'.

Lemma leaseRun_ok {t0 : Time} st st' : leaseRun st st' -> system_ok t0 st -> system_ok t0 st'.
Proof.
  destruct 1 as [c now st st' Hc Hnow Hrun|c now st st' Hc Hrun|ch s all|cm rest now s all st' Hsp Hact Hnow Hcm Hrun|ev clock now st st' o Hen Hnow Hrun]; intros Hok.
  - by eapply AddMessage_ok.
  - by eapply RemoveMessage_ok.
  - destruct Hok as (A & Hinv & Hq). exists A. split; [by apply lease_inv_queues|done].
  - eapply AddOrOverwrite_ok; [exact Hact|exact Hnow| | |exact Hrun]; [|exact Hcm].
    destruct Hok as (A & Hinv & Hq). exists A. split; [by apply lease_inv_queues|done].
  - destruct (iteration_ok ev clock now st Hok Hnow) as [Hcrash Hdone].
    destruct st as [s all]. cbn [snd] in *.
    destruct Hdone as (st2 & o2 & Hrun2 & Hok2); [intros Hd; by rewrite (Hcrash Hd) in Hrun|].
    rewrite Hrun in Hrun2. by injection Hrun2 as -> _.
Qed.

Lemma leaseRestart_ok {t0 : Time} r now s all st' :
  0 <= now < 2 ^ 63 -> system_ok t0 (s, all) ->
  NewOrLoadActionLeaseList leaseOrder cs v r now s = Done st' tt -> system_ok now st'.
Proof.
  intros Hnow (A & Hinv & Hq) Hrun. destruct (restart_ok leaseOrder v cs rv Hrv s all A now r Hinv Hnow) as (all' & Hrun' & Hinv' & Hqs & _).
  rewrite Hrun in Hrun'. injection Hrun' as ->. exists A. split; [done|]. unfold queue_ok. cbn [snd]. by injection Hqs as -> _ _ _.
Qed.

(** A store in which the lease system has not run. *)
Definition fresh (s : S) : Prop := absent v s channelLeaseKey /\ absent rv s commandChannelListKey.

Lemma start_ok s r now :
  fresh s -> 0 <= now < 2 ^ 63 ->
  exists all, NewOrLoadActionLeaseList (Rnd := Rnd) leaseOrder cs v r now s = Done (s, all) tt /\ system_ok now (s, all) /\
    forall ch k, leaseAt all ch k = None.
Proof.
  intros [Hl Hr] Hnow. set (all0 := mkLeaseList ID Rnd R _ [] [] ∅ [] [] [] [] (rb_of cs rv ∅) cs v r : ActionLeaseList ID Rnd R).
  assert (forall ch, channelPlaces all0 ch = ∅) as Hp0 by (intros; apply channelPlaces_None, lookup_empty).
  assert (forall ch k, leaseAt all0 ch k = None) as Hl0.
  { intros ch k. unfold leaseAt, channelMessages. rewrite lookup_omap, Hp0, lookup_empty. done. }
  assert (lease_inv v cs rv now s all0 ∅) as Hinv.
  { split; [split| |done|done|done|].
    - apply NoDup_nil_2.
    - apply SSorted_nil.
    - intros ch m. cbn [all0 all_messagesByChannel]. by rewrite lookup_empty.
    - intros ch k a. by rewrite Hp0, lookup_empty.
    - by intros a ?%not_elem_of_nil.
    - by intros a ?%not_elem_of_nil.
    - split; [by left| |].
      + intros ch. cbn [all0 all_messagesByChannel]. rewrite lookup_empty. by intros [].
      + intros ch k lm. by rewrite Hl0.
    - split; [intros *; by rewrite lookup_empty|intros *; by rewrite lookup_empty|by left|intros *; by rewrite lookup_empty]. }
  destruct (restart_ok leaseOrder v cs rv Hrv s all0 ∅ now r Hinv Hnow) as (all & Hrun & Hinv' & Hq & Hcore & _).
  exists all. split; [done|]. split.
  - exists ∅. split; [done|]. unfold queue_ok. cbn [snd]. by injection Hq as -> _ _ _.
  - intros ch k. specialize (Hcore ch k). rewrite Hl0 in Hcore. by apply fmap_None in Hcore.
Qed.

Definition reachable (st : S * ActionLeaseList ID Rnd R) : Prop :=
  exists s0 all0 r now, fresh s0 /\ 0 <= now < 2 ^ 63 /\
    NewOrLoadActionLeaseList leaseOrder cs v r now s0 = Done (s0, all0) tt /\ star leaseStep (s0, all0) st.

(** The states of a program that was last started at a time. *)
Inductive runningSince : Time -> S * ActionLeaseList ID Rnd R -> Prop :=
| since_start s0 all0 r now : fresh s0 -> 0 <= now < 2 ^ 63 ->
    NewOrLoadActionLeaseList leaseOrder cs v r now s0 = Done (s0, all0) tt -> runningSince now (s0, all0)
| since_run t0 st st' : runningSince t0 st -> leaseRun st st' -> runningSince t0 st'
| since_restart t0 r now s all st' : runningSince t0 (s, all) -> 0 <= now < 2 ^ 63 ->
    NewOrLoadActionLeaseList leaseOrder cs v r now s = Done st' tt -> runningSince now st'.

Lemma reachable_runningSince st : reachable st -> exists t0, runningSince t0 st.
Proof.
  intros (s0 & all0 & r & now & Hf & Hnow & Hnew & Hstar).
  assert (exists t0, runningSince t0 (s0, all0)) as Hs by (exists now; by eapply since_start). revert Hs.
  eapply (star_invariant leaseStep (fun st => exists t0, runningSince t0 st)); [|exact Hstar].
  intros st1 st2 [t0 Ht0] Hstep. destruct Hstep as [st1 st2 Hr|r' now' s all st2 Hn Hr].
  - exists t0. by eapply since_run.
  - exists now'. by eapply since_restart.
Qed.

Lemma runningSince_ok t0 st : runningSince t0 st -> system_ok t0 st.
Proof.
  induction 1 as [s0 all0 r now Hf Hnow Hnew|t0 st st' _ IH Hr|t0 r now s all st' _ IH Hnow Hr].
  - destruct (start_ok s0 r now Hf Hnow) as (all & Hrun & Hok & _). rewrite Hnew in Hrun. by injection Hrun as <-.
  - by eapply leaseRun_ok.
  - by eapply leaseRestart_ok.
Qed.

Lemma lease_reachable_ok st : reachable st -> exists t0, system_ok t0 st.
Proof. intros [t0 Hr]%reachable_runningSince. exists t0. by apply runningSince_ok. Qed.

Lemma reachable_lists s all : reachable (s, all) -> lists_ok [] all.
Proof. intros (t0 & A & [] & _)%lease_reachable_ok. done. Qed.

(** C8: Every reachable state is one of a program that was last started at some
    time [t0], and in every such state the list of leases is in the order of the
    triggers and without repetition, it and the map hold the same messages, each
    under its channel and its own fingerprint and linked to its element, and no
    channel of the map is empty.  Storage holds exactly the channels of the map,
    and for each the same leases with the same end and trigger, except for those
    whose stored trigger was over at [t0]: the start has put these off, in memory
    only, by 5 to 30 minutes from [t0]. *)
Theorem lease_system_ordered s all :
  (reachable (s, all) -> exists t0, runningSince t0 (s, all)) /\
  (forall t0, runningSince t0 (s, all) -> lists_ok [] all /\ leases_stored v t0 s all).
Proof.
  split; [apply reachable_runningSince|]. intros t0 (A & [] & _)%runningSince_ok. done.
Qed.

(** C26: From every reachable state the thread's next round runs to its end, unless it
    takes a lease for a command that has one: then it uses the missing link of the
    new message and the program panics. *)
Theorem lease_iteration_runs ev clock now st :
  reachable st -> 0 <= now < 2 ^ 63 -> enabled ev st.2 = true ->
  (takesDuplicate ev st.2 ->
    leaseIteration rbChannelOrder commandOrder channelOrder leaseOrder ev clock now st = Crash) /\
  (~ takesDuplicate ev st.2 ->
    exists st' o, leaseIteration rbChannelOrder commandOrder channelOrder leaseOrder ev clock now st = Done st' o /\ reachable st').
Proof.
  intros Hr Hnow Hen. destruct (lease_reachable_ok st Hr) as [t1 Hok]. destruct (iteration_ok ev clock now st Hok Hnow) as [Hc Hd]. split; [done|].
  intros Hdup. destruct (Hd Hdup) as (st' & o & Hrun & _). exists st', o. split; [done|].
  destruct Hr as (s0 & all0 & r & t0 & Hf & Ht0 & Hnew & Hstar). exists s0, all0, r, t0. split; [done|split; [done|split; [done|]]].
  eapply star_snoc; [exact Hstar|]. apply ls_run. by eapply ls_round.
Qed.

(** C11: One round of the thread in a reachable state.  With [lms] the leases in the
    order of the list, the first [n], and no others, are due by the clock.  Of
    these, one whose command cannot be loaded is removed and nothing is started
    for it; one that is triggered at its end is undone and removed; every other
    one is replayed and gets a new trigger, or is removed without being undone
    when its lease is over by then ([newTrigger] is [None]).  All other leases
    stay as they are; what is started is in the order of the list, and the timer
    is set to the first lease that was not due. *)
Theorem lease_round s all clock now :
  reachable (s, all) -> 0 <= now < 2 ^ 63 ->
  exists lms n s' all',
    messagesAt all (all_leases all) lms /\
    (forall ch k lm, leaseAt all ch k = Some lm <-> lm ∈ lms /\ (ch, k) = leaseKeyOf lm) /\
    (forall j lm, (j < n)%nat -> lms !! j = Some lm -> activatingNow (clock j) lm = true) /\
    (forall lm, lms !! n = Some lm -> activatingNow (clock n) lm = false) /\
    leasePass rbChannelOrder channelOrder clock now (s, all) =
      Done (s', all') (omap (effectOf cs s) (take n lms), lm_LeaseTrigger <$> lms !! n) /\
    (forall lm, lm ∈ drop n lms -> leaseAt all' (lm_ChannelID lm) (lmKey lm) = Some lm) /\
    (forall lm, lm ∈ take n lms ->
      if replayed cs s lm
      then exists t, newTrigger now lm t /\ leaseAt all' (lm_ChannelID lm) (lmKey lm) = lm_setTrigger lm <$> t
      else leaseAt all' (lm_ChannelID lm) (lmKey lm) = None) /\
    (forall ch k, leaseAt all ch k = None -> leaseAt all' ch k = None).
Proof.
  intros (t0 & A & Hinv & _)%lease_reachable_ok Hnow.
  destruct (round_ok s all A clock now Hinv Hnow) as (lms & n & s' & all' & A' & Hm & Hall & Hdue & Hnot & Hrun & _ & _ & Hd & Ht & Hn).
  exists lms, n, s', all'. done.
Qed.

(** A restart in a reachable state gives back every lease with its action and
    length, in order, none of them to be triggered before the time of the start. *)
Theorem lease_restart s all r now :
  reachable (s, all) -> 0 <= now < 2 ^ 63 ->
  exists all', NewOrLoadActionLeaseList leaseOrder cs v r now s = Done (s, all') tt /\ lists_ok [] all' /\
    (forall ch k, leaseCore <$> leaseAt all' ch k = leaseCore <$> leaseAt all ch k) /\
    (forall ch k lm, leaseAt all' ch k = Some lm -> now <= lm_LeaseTrigger lm).
Proof.
  intros (t0 & A & Hinv & _)%lease_reachable_ok Hnow. destruct (restart_ok leaseOrder v cs rv Hrv s all A now r Hinv Hnow) as (all' & Hrun & [] & _ & Hc & Ht).
  by exists all'.
Qed.

(** When every lease is due, the timer is not set, although a lease without end
    stays in the list to be replayed again. *)
Theorem lease_alarm_lost s all ch k lm clock now :
  reachable (s, all) -> 0 <= now < 2 ^ 62 -> leaseAt all ch k = Some lm -> replayed cs s lm = true -> lm_Lease lm = ValidForever ->
  (forall ch k lm i, leaseAt all ch k = Some lm -> activatingNow (clock i) lm = true) ->
  exists s' all' eff t, leasePass rbChannelOrder channelOrder clock now (s, all) = Done (s', all') (eff, None) /\
    leaseAt all' ch k = Some (lm_setTrigger lm t) /\ now + 250 * hour <= t <= now + 500 * hour.
Proof.
  intros (t0 & A & Hinv & _)%lease_reachable_ok Hnow Hlm Hrep Hforever Hdue. cbn [fst snd] in Hinv.
  destruct (round_ok s all A clock now Hinv ltac:(lia)) as (lms & n & s' & all' & A' & Hm & Hall & _ & Hnot & Hrun & _ & _ & _ & Ht & _).
  assert (lms !! n = None) as Hn.
  { destruct (lms !! n) as [lm'|] eqn:Hn; [|done]. specialize (Hnot lm' eq_refl). rewrite (Hdue (lm_ChannelID lm') (lmKey lm')) in Hnot; [done|].
    apply Hall. split; [by eapply list_elem_of_lookup_2|done]. }
  pose proof Hlm as [Hin [= -> ->]]%Hall. specialize (Ht lm). rewrite Hrep in Ht.
  destruct Ht as (t & (r & r' & Hcalc) & Hle). { rewrite take_ge; [done|]. by apply lookup_ge_None. }
  pose proof (ls_ok v _ s all (li_stored _ _ _ _ _ _ _ Hinv) _ _ _ Hlm) as (_ & _ & Horig & _ & _).
  destruct (calculateLeaseTrigger_cases now (lm_OriginatingTimestamp lm) (lm_Lease lm) r) as (t' & r2 & Hcalc' & Hspec).
  { lia. } { rewrite Hforever. unfold ValidForever. lia. }
  rewrite Hcalc in Hcalc'. injection Hcalc' as <- <-. rewrite Hforever in Hspec.
  destruct t as [t|]; [|unfold ValidForever in Hspec; lia]. rewrite bool_decide_true in Hspec by (by left). destruct Hspec as [_ Hspec].
  exists s', all', (omap (effectOf cs s) (take n lms)), t. rewrite Hn in Hrun. split; [exact Hrun|]. by split.
Qed.
End round.

(** A list with one lease. *)
Lemma single_lease {ID Rnd R} `{NetID ID} `{CMixHash} (all : ActionLeaseList ID Rnd R) a lm0 :
  lists_ok [] all -> all_leases all = [a] -> all_heap all !! a = Some (mkLeaseObj ID lm0 true) ->
  forall ch k lm, leaseAt all ch k = Some lm -> lm = lm0.
Proof.
  intros Hlk Hl Ha ch k lm (b & e & Hp & Hb)%leaseAt_Some.
  destruct (lk_place _ _ Hlk ch k b Hp) as (lm' & e' & Hb' & _ & _ & [[_ Hin]|Hn%not_elem_of_nil]); [|done].
  rewrite Hl in Hin. apply list_elem_of_singleton in Hin as ->. congruence.
Qed.

(** ** Examples *)

Section example.
#[local] Instance lt_hash : CMixHash := fun b => b.
#[local] Instance lt_command_codec : JsonCodec (CommandMessage Z Z) := countableCodec _.
#[local] Instance lt_commands_codec : JsonCodec (gmap string (commandMessage Z)) := countableCodec _.
#[local] Instance lt_channels_codec : JsonCodec (list Z) := countableCodec _.
#[local] Instance lt_leases_codec : JsonCodec (gmap string (leaseMessage Z)) := countableCodec _.
#[local] Instance lt_replay_json : ReplayJson (ID := Z).
Proof. by split. Qed.
#[local] Instance lt_lease_json : LeaseJson (ID := Z).
Proof. done. Qed.

Local Abbreviation exState := (MemStore * ActionLeaseList Z Z unit)%type.
Definition ex_now : Time := 1700000000 * 1000000000.

(** A channel's message is pinned for ever. *)
Definition ex_pin : leaseCommand Z Z := mkLeaseCommand Z Z 7 [] 102 [x01] [x01] [x05] ex_now ex_now ValidForever 20 0 true.

Definition ex_blank : ActionLeaseList Z Z unit :=
  mkLeaseList Z Z unit _ [] [] ∅ [] [] [] [] (mkReplayBlocker Z _ ∅ ex_cs ex_rv) ex_cs NewKV tt.
Definition doneState {A} (o : outcome exState A) : exState := match o with Done st _ => st | _ => (∅, ex_blank) end.
Definition isDone {A} (o : outcome exState A) : bool := match o with Done _ _ => true | _ => false end.
Lemma doneState_eq {A} (o : outcome exState A) : isDone o = true -> exists a, o = Done (doneState o) a.
Proof. destruct o; [by eexists|done|done]. Qed.

Definition ex_st0 : exState := doneState (NewOrLoadActionLeaseList keysInOrder ex_cs NewKV tt ex_now ∅).
Definition ex_add (st : exState) : exState := doneState (AddMessage keysInOrder ex_pin ex_now st).
Definition ex_round (ev : leaseEvent) (now : Time) (st : exState) : outcome exState (list (leaseEffect Z Z) * option Time) :=
  leaseIteration keysInOrder keysInOrder keysInOrder keysInOrder ev (fun _ => now) now st.
Definition ex_st1 : exState := ex_add ex_st0.
Definition ex_st2 : exState := doneState (ex_round EvAdd ex_now ex_st1).
Definition ex_st3 : exState := ex_add ex_st2.

Lemma ex_lease_trace : isDone (NewOrLoadActionLeaseList (ID := Z) (Rnd := Z) (R := unit) keysInOrder ex_cs NewKV tt ex_now ∅) &&
  isDone (AddMessage keysInOrder ex_pin ex_now ex_st0) && isDone (ex_round EvAdd ex_now ex_st1) &&
  isDone (AddMessage keysInOrder ex_pin ex_now ex_st2) && enabled EvAdd ex_st1.2 && enabled EvAdd ex_st3.2 = true.
Proof. vm_refl. Qed.

Local Abbreviation exReachable := (reachable (S := MemStore) keysInOrder keysInOrder keysInOrder keysInOrder NewKV ex_cs ex_rv).

Lemma ex_pin_ok : leaseCommand_ok ex_pin.
Proof. unfold leaseCommand_ok, is_u, ex_now, ValidForever. cbn [lc_action lc_originatingRound lc_lease lc_originatingTimestamp ex_pin]. unfold ValidForever, ex_now. lia. Qed.

Lemma ex_now_ok : 0 <= ex_now < 2 ^ 63.
Proof. unfold ex_now. lia. Qed.

Lemma ex_fresh : fresh (S := MemStore) NewKV ex_rv ∅.
Proof. split; exists errNotFound; (split; [vm_refl|vm_refl]). Qed.

(** The pin is queued, put into the list, and queued again. *)
Local Abbreviation exRun := (leaseRun (S := MemStore) (Rnd := Z) (R := unit) keysInOrder keysInOrder keysInOrder keysInOrder ex_cs).

Lemma ex_leaseTrace :
  (exists all0, ex_st0 = (∅, all0) /\ NewOrLoadActionLeaseList keysInOrder ex_cs NewKV tt ex_now ∅ = Done (∅, all0) tt) /\
  exRun ex_st0 ex_st1 /\ exRun ex_st1 ex_st2 /\ exRun ex_st2 ex_st3.
Proof.
  pose proof ex_lease_trace as Ht. rewrite !andb_true_iff in Ht. destruct Ht as [[[[[Ht0 Ht1] Ht2] Ht3] He1] He3].
  apply doneState_eq in Ht0 as [[] Hs0], Ht1 as [u1 Hs1], Ht2 as [o2 Hs2], Ht3 as [u3 Hs3]. split_and!.
  - destruct (start_ok (S := MemStore) (Rnd := Z) keysInOrder NewKV ex_cs ex_rv eq_refl ∅ tt ex_now ex_fresh ex_now_ok) as (all0 & Hrun & _).
    exists all0. split; [|exact Hrun]. unfold ex_st0. rewrite Hrun. reflexivity.
  - eapply ls_add; [apply ex_pin_ok|apply ex_now_ok|]. rewrite Hs1. done.
  - exact (ls_round _ _ _ _ _ EvAdd (fun _ => ex_now) ex_now ex_st1 ex_st2 o2 He1 ex_now_ok Hs2).
  - eapply ls_add; [apply ex_pin_ok|apply ex_now_ok|]. rewrite Hs3. done.
Qed.

Lemma ex_reachable : exReachable ex_st0 /\ exReachable ex_st1 /\ exReachable ex_st2 /\ exReachable ex_st3.
Proof.
  destruct ex_leaseTrace as ((all0 & H0 & Hs0) & S1%(ls_run _ _ _ _ NewKV) & S2%(ls_run _ _ _ _ NewKV) & S3%(ls_run _ _ _ _ NewKV)).
  assert (forall st, star (leaseStep keysInOrder keysInOrder keysInOrder keysInOrder NewKV ex_cs) ex_st0 st -> exReachable st) as Hr.
  { intros st Hst. exists ∅, all0, tt, ex_now. split; [apply ex_fresh|]. split; [apply ex_now_ok|]. rewrite <- H0 at 2. by split. }
  split; [|split; [|split]]; apply Hr.
  - apply star_refl.
  - exact (star_step _ _ _ _ S1 (star_refl _ _)).
  - exact (star_step _ _ _ _ S1 (star_step _ _ _ _ S2 (star_refl _ _))).
  - exact (star_step _ _ _ _ S1 (star_step _ _ _ _ S2 (star_step _ _ _ _ S3 (star_refl _ _)))).
Qed.

Local Abbreviation exSince := (runningSince (S := MemStore) keysInOrder keysInOrder keysInOrder keysInOrder NewKV ex_cs ex_rv).

Lemma ex_since : exSince ex_now ex_st2.
Proof.
  destruct ex_leaseTrace as ((all0 & H0 & Hs0) & S1 & S2 & _).
  eapply since_run; [|exact S2]. eapply since_run; [|exact S1]. rewrite H0.
  exact (since_start _ _ _ _ _ _ _ ∅ all0 tt ex_now ex_fresh ex_now_ok Hs0).
Qed.

#[local] Opaque ex_st0 ex_st1 ex_st2 ex_st3.

Lemma lease_system_ordered_witness :
  exSince ex_now ex_st2 /\ length (all_leases ex_st2.2) = 1%nat /\ lists_ok [] ex_st2.2 /\ leases_stored NewKV ex_now ex_st2.1 ex_st2.2.
Proof.
  split; [exact ex_since|]. split; [vm_refl|].
  apply (lease_system_ordered (S := MemStore) keysInOrder keysInOrder keysInOrder keysInOrder NewKV ex_cs ex_rv handle_new eq_refl eq_refl
    ex_st2.1 ex_st2.2).
  rewrite <- surjective_pairing. exact ex_since.
Defined.

(** The pin is taken by the thread; sent a second time, it stops the program. *)
Lemma lease_iteration_runs_witness :
  (exists st' o, leaseIteration keysInOrder keysInOrder keysInOrder keysInOrder EvAdd (fun _ => ex_now) ex_now ex_st1 = Done st' o) /\
  leaseIteration keysInOrder keysInOrder keysInOrder keysInOrder EvAdd (fun _ => ex_now) ex_now ex_st3 = Crash.
Proof.
  pose proof ex_lease_trace as Ht. rewrite !andb_true_iff in Ht. destruct Ht as [[_ He1] He3]. split.
  - destruct (lease_iteration_runs (S := MemStore) keysInOrder keysInOrder keysInOrder keysInOrder NewKV ex_cs ex_rv handle_new eq_refl eq_refl
      EvAdd (fun _ => ex_now) ex_now ex_st1 (proj1 (proj2 ex_reachable)) ex_now_ok He1) as [_ Hd].
    destruct Hd as (st' & o & Hrun & _); [|by exists st', o].
    intros (_ & lm & cm & q & Hq & Hl). assert (all_messagesByChannel ex_st1.2 = ∅) as Hm by vm_refl.
    destruct Hl as [l Hl]. apply leaseAt_Some in Hl as (a & e & Hp & _).
    rewrite (channelPlaces_None ex_st1.2 (lm_ChannelID lm)), lookup_empty in Hp; [discriminate Hp|]. rewrite Hm. apply lookup_empty.
  - destruct (lease_iteration_runs (S := MemStore) keysInOrder keysInOrder keysInOrder keysInOrder NewKV ex_cs ex_rv handle_new eq_refl eq_refl
      EvAdd (fun _ => ex_now) ex_now ex_st3 (proj2 (proj2 (proj2 ex_reachable))) ex_now_ok He3) as [Hc _].
    apply Hc. split; [done|]. set (p := List.hd (mkLease Z 0 0 [] 0 0 0 0, mkCommandMessage Z Z 0 [] 0 "" [] [] [] 0 0 0 0 0 0 0 false false) (all_addLeaseMessage ex_st3.2)).
    exists p.1, p.2, (List.tl (all_addLeaseMessage ex_st3.2)). split; [vm_refl|].
    apply (bool_decide_eq_true_1 (is_Some _)). vm_refl.
Defined.

(** 400 hours later the pin is due. *)
Definition ex_later : Time := ex_now + 400 * hour.
Lemma ex_later_ok : 0 <= ex_later < 2 ^ 62.
Proof. unfold ex_later, ex_now, hour, minute. lia. Qed.
Definition ex_lease : leaseMessage Z := mkLease Z 7 102 [x01] ex_now ValidForever (ex_now + ValidForever) (ex_now + 375 * hour).
Definition ex_key : string := lmKey ex_lease.

Lemma ex_reachable2 : exReachable (ex_st2.1, ex_st2.2).
Proof. rewrite <- surjective_pairing. exact (proj1 (proj2 (proj2 ex_reachable))). Qed.

Lemma lease_round_witness :
  exists lms n s' all', messagesAt ex_st2.2 (all_leases ex_st2.2) lms /\
    leasePass keysInOrder keysInOrder (fun _ => ex_later) ex_later (ex_st2.1, ex_st2.2) =
      Done (s', all') (omap (effectOf ex_cs ex_st2.1) (take n lms), lm_LeaseTrigger <$> lms !! n).
Proof.
  destruct (lease_round (S := MemStore) keysInOrder keysInOrder keysInOrder keysInOrder NewKV ex_cs ex_rv handle_new eq_refl eq_refl
    ex_st2.1 ex_st2.2 (fun _ => ex_later) ex_later ex_reachable2) as (lms & n & s' & all' & Hm & _ & _ & _ & Hrun & _).
  { pose proof ex_later_ok. lia. }
  exists lms, n, s', all'. split; [exact Hm|exact Hrun].
Defined.

Lemma lease_restart_witness :
  exists all' : ActionLeaseList Z Z unit, NewOrLoadActionLeaseList keysInOrder ex_cs NewKV tt ex_later ex_st2.1 = Done (ex_st2.1, all') tt /\
    leaseCore <$> leaseAt all' 7 ex_key = Some (leaseCore ex_lease).
Proof.
  destruct (lease_restart (S := MemStore) keysInOrder keysInOrder keysInOrder keysInOrder NewKV ex_cs ex_rv handle_new eq_refl eq_refl
    ex_st2.1 ex_st2.2 tt ex_later ex_reachable2) as (all' & Hrun & _ & Hc & _).
  { pose proof ex_later_ok. lia. }
  exists all'. split; [exact Hrun|]. rewrite Hc. vm_refl.
Defined.

Lemma ex_leaseAt : leaseAt ex_st2.2 7 ex_key = Some ex_lease.
Proof. vm_refl. Qed.
Lemma ex_replayed : replayed ex_cs ex_st2.1 ex_lease = true.
Proof. vm_refl. Qed.
Lemma ex_single : all_leases ex_st2.2 = [0%nat] /\ all_heap ex_st2.2 !! 0%nat = Some (mkLeaseObj Z ex_lease true).
Proof. split; vm_refl. Qed.
Lemma ex_lease_active : activatingNow ex_later ex_lease = true.
Proof. vm_refl. Qed.

Lemma ex_due (ch : Z) (k : string) (lm : leaseMessage Z) (i : nat) :
  leaseAt ex_st2.2 ch k = Some lm -> activatingNow ((fun _ : nat => ex_later) i) lm = true.
Proof.
  intros Hl. destruct ex_single as [Hls Hh].
  pose proof (reachable_lists (S := MemStore) keysInOrder keysInOrder keysInOrder keysInOrder NewKV ex_cs ex_rv handle_new eq_refl eq_refl
    ex_st2.1 ex_st2.2 ex_reachable2) as Hlk.
  rewrite (single_lease ex_st2.2 0%nat ex_lease Hlk Hls Hh ch k lm Hl). exact ex_lease_active.
Qed.

Lemma lease_alarm_lost_witness :
  exists s' all' eff t, leasePass keysInOrder keysInOrder (fun _ => ex_later) ex_later (ex_st2.1, ex_st2.2) = Done (s', all') (eff, None) /\
    leaseAt all' 7 ex_key = Some (lm_setTrigger ex_lease t).
Proof.
  destruct (lease_alarm_lost (S := MemStore) keysInOrder keysInOrder keysInOrder keysInOrder NewKV ex_cs ex_rv handle_new eq_refl eq_refl
    ex_st2.1 ex_st2.2 7 ex_key ex_lease (fun _ => ex_later) ex_later ex_reachable2 ex_later_ok ex_leaseAt ex_replayed eq_refl ex_due)
    as (s' & all' & eff & t & Hrun & Hle & _).
  exists s', all', eff, t. split; [exact Hrun|exact Hle].
Defined.
End example.
