(* ===== verification/MapSyntax.v ===== *)
(** * Keys of stored maps

    [collective/versioned/mapSyntax.go]: a map is stored as one file per element
    and one file that lists the elements.  Both names carry a designator that
    ordinary keys may not contain. *)

From Stdlib Require Import Ascii.
From S2P Require Import Prelude KV Json.

(** ** Strings *)

Definition str_take (n : nat) (s : string) : string := String.string_of_list_ascii (take n (chars s)).
Definition str_drop (n : nat) (s : string) : string := String.string_of_list_ascii (drop n (chars s)).

(** [s[:n]] and [s[n:]] *)
Definition slicePrefix (s : string) (n : Z) : result string :=
  if (0 <=? n) && (n <=? Z.of_nat (String.length s)) then Ok (str_take (Z.to_nat n) s) else Panic.
Definition sliceSuffix (s : string) (n : Z) : result string :=
  if (0 <=? n) && (n <=? Z.of_nat (String.length s)) then Ok (str_drop (Z.to_nat n) s) else Panic.

(** [strings.HasSuffix] *)
Definition HasSuffix (s suffix : string) : bool :=
  (String.length suffix <=? String.length s)%nat &&
  String.eqb (str_drop (String.length s - String.length suffix) s) suffix.

(** [strings.Contains] *)
Fixpoint Contains (s substr : string) : bool :=
  String.prefix substr s ||
  match s with
  | EmptyString => false
  | String _ s => Contains s substr
  end.

(** [strconv.Atoi]: an optional sign, then digits; [int] has 64 bits. *)
Definition Atoi (s : string) : result Z :=
  let '(sign, ds) := match chars s with
    | c :: ds => if Ascii.eqb c "+" then (1, ds) else if Ascii.eqb c "-" then (-1, ds) else (1, c :: ds)
    | [] => (1, [])
    end in
  if (0 <? length ds)%nat && forallb isDigit ds then
    let n := sign * digitsVal 0 ds in
    if (- 2 ^ 63 <=? n) && (n <? 2 ^ 63) then Ok n else Err (Errorf "strconv.Atoi: value out of range" [])
  else Err (Errorf "strconv.Atoi: invalid syntax" []).

(** ** The syntax *)

Definition MapDesignator : string := "🗺️".
Definition MapKeysListSuffix : string := "_🗺️MapKeys".
Definition MapElementKeySuffix : string := "_🗺️MapElement".
Definition UsedMapDesignatorError : error := Errorf "cannot use the map designator in a key name, it is reserved" [].

Inductive KeyType := KeyTypeNormal | KeyTypeMapFile | KeyTypeMapElement.

(** [None] when the key may be used. *)
Definition IsValidKey (str : string) : option error :=
  if Contains str MapDesignator then Some UsedMapDesignatorError else None.

Definition MakeMapKey (mapName : string) : string := mapName +:+ MapKeysListSuffix.

Definition GetMapName (mapKey : string) : result string :=
  slicePrefix mapKey (Z.of_nat (String.length mapKey) - Z.of_nat (String.length MapKeysListSuffix)).

(** The position of the last [sep], and -1 when there is none. *)
Fixpoint lastIndex (sep : ascii) (s : list ascii) (i found : Z) : Z :=
  match s with
  | [] => found
  | c :: s => lastIndex sep s (i + 1) (if Ascii.eqb c sep then i else found)
  end.

Definition splitLast (str : string) (sep : ascii) : result (string * string) :=
  let i := lastIndex sep (chars str) 0 (-1) in
  before ← slicePrefix str i;
  after ← sliceSuffix str (i + 1);
  Ok (before, after).

Definition MakeElementKey (mapName elementName : string) : string :=
  mapName +:+ ":" +:+ elementName +:+ "_" +:+ pretty (Z.of_nat (String.length elementName)) +:+ MapElementKeySuffix.

Definition GetElementName (key : string) : result (string * string) :=
  key ← slicePrefix key (Z.of_nat (String.length key) - Z.of_nat (String.length MapElementKeySuffix));
  '(key, elementKeyLenStr) ← splitLast key "_"%char;
  elementKeyLen ← must (Atoi elementKeyLenStr);
  mapName ← slicePrefix key (Z.of_nat (String.length key) - elementKeyLen - 1);
  elementName ← sliceSuffix key (Z.of_nat (String.length key) - elementKeyLen);
  Ok (mapName, elementName).

Definition DetectMap (key : string) : result (KeyType * string * string) :=
  if HasSuffix key MapKeysListSuffix then mapName ← GetMapName key; Ok (KeyTypeMapFile, mapName, EmptyString)
  else if HasSuffix key MapElementKeySuffix then
    '(mapName, elementName) ← GetElementName key; Ok (KeyTypeMapElement, mapName, elementName)
  else Ok (KeyTypeNormal, EmptyString, EmptyString).

Definition DetectMapElement (key : string) : result (bool * string * string) :=
  if HasSuffix key MapElementKeySuffix then
    '(mapName, elementName) ← GetElementName key; Ok (true, mapName, elementName)
  else Ok (false, EmptyString, EmptyString).

(** ** Lemmas on strings *)

Lemma str_take_app a b : str_take (String.length a) (a +:+ b) = a.
Proof.
  unfold str_take. rewrite chars_app. rewrite <- (String.string_of_list_ascii_of_string a) at 3. f_equal.
  assert (String.length a = length (chars a)) as -> by (induction a; simpl; congruence). apply take_app_length.
Qed.

Lemma str_drop_app a b : str_drop (String.length a) (a +:+ b) = b.
Proof.
  unfold str_drop. rewrite chars_app. rewrite <- (String.string_of_list_ascii_of_string b) at 2. f_equal.
  assert (String.length a = length (chars a)) as -> by (induction a; simpl; congruence). apply drop_app_length.
Qed.

Lemma length_chars s : length (chars s) = String.length s.
Proof. induction s; simpl; congruence. Qed.

Lemma str_app_length a b : String.length (a +:+ b) = (String.length a + String.length b)%nat.
Proof. by rewrite <- !length_chars, chars_app, length_app. Qed.

Lemma str_app_assoc a b c : a +:+ (b +:+ c) = (a +:+ b) +:+ c.
Proof. apply chars_inj. by rewrite !chars_app, app_assoc. Qed.

Lemma slicePrefix_app a b n : n = Z.of_nat (String.length a) -> slicePrefix (a +:+ b) n = Ok a.
Proof.
  intros ->. unfold slicePrefix. rewrite str_app_length.
  rewrite !(proj2 (Z.leb_le _ _)) by lia. simpl.
  by rewrite Nat2Z.id, str_take_app.
Qed.

Lemma sliceSuffix_app a b n : n = Z.of_nat (String.length a) -> sliceSuffix (a +:+ b) n = Ok b.
Proof.
  intros ->. unfold sliceSuffix. rewrite str_app_length.
  rewrite !(proj2 (Z.leb_le _ _)) by lia. simpl.
  by rewrite Nat2Z.id, str_drop_app.
Qed.

Lemma HasSuffix_app a b : HasSuffix (a +:+ b) b = true.
Proof.
  unfold HasSuffix. rewrite str_app_length. apply andb_true_intro. split; [apply Nat.leb_le; lia|].
  replace (_ + _ - _)%nat with (String.length a) by lia. rewrite str_drop_app. apply String.eqb_refl.
Qed.

Lemma HasSuffix_spec s b : HasSuffix s b = true -> exists a, s = a +:+ b.
Proof.
  unfold HasSuffix. intros [_ Heq]%andb_true_iff. apply String.eqb_eq in Heq.
  exists (str_take (String.length s - String.length b) s). rewrite <- Heq at 2. unfold str_take, str_drop.
  apply chars_inj. rewrite chars_app, !String.list_ascii_of_string_of_list_ascii. by rewrite take_drop.
Qed.

Lemma prefix_app a b : String.prefix a (a +:+ b) = true.
Proof. induction a as [|c a IH]; simpl; [by destruct b|]. destruct (ascii_dec c c); [done|congruence]. Qed.

Lemma Contains_prefix s b : String.prefix b s = true -> Contains s b = true.
Proof. destruct s; cbn [Contains]; by intros ->. Qed.

Lemma Contains_app a b c : Contains (a +:+ b +:+ c) b = true.
Proof.
  induction a as [|x a IH]; [change (Contains (b +:+ c) b = true); apply Contains_prefix, prefix_app|].
  change (String x a +:+ b +:+ c) with (String x (a +:+ b +:+ c)). cbn [Contains]. rewrite IH. apply orb_true_r.
Qed.

Lemma lastIndex_none sep s i found : sep ∉ s -> lastIndex sep s i found = found.
Proof.
  revert i found. induction s as [|c s IH]; intros i found Hs; simpl; [done|].
  apply not_elem_of_cons in Hs as [Hc Hs]. rewrite IH by done.
  destruct (Ascii.eqb_spec c sep); [congruence|done].
Qed.

Lemma lastIndex_app sep a b i found : sep ∉ b ->
  lastIndex sep (a ++ sep :: b) i found = i + Z.of_nat (length a).
Proof.
  intros Hb. revert i found. induction a as [|c a IH]; intros i found; simpl.
  - rewrite lastIndex_none by done. rewrite Ascii.eqb_refl. lia.
  - rewrite IH. lia.
Qed.

Lemma splitLast_app a b : "_"%char ∉ chars b -> splitLast (a +:+ "_" +:+ b) "_"%char = Ok (a, b).
Proof.
  intros Hb. unfold splitLast. rewrite !chars_app. change (chars "_" ++ chars b) with ("_"%char :: chars b). rewrite lastIndex_app by done.
  rewrite length_chars, Z.add_0_l. rewrite slicePrefix_app by done. simpl.
  rewrite str_app_assoc. rewrite sliceSuffix_app; [done|]. rewrite str_app_length. simpl. lia.
Qed.

Lemma Atoi_pretty z : 0 <= z < 2 ^ 63 -> Atoi (pretty z) = Ok z.
Proof.
  intros Hz. destruct (pretty_uint_text z) as (Hd & Hne & Hval & _); [lia|]. unfold Atoi.
  destruct (chars (pretty z)) as [|c ds] eqn:E; [done|]. rewrite <- Hval.
  assert (isDigit c = true) as Hc by (simpl in Hd; by apply andb_true_iff in Hd as [? _]).
  destruct (Ascii.eqb_spec c "+") as [->|_]; [by vm_compute in Hc|].
  destruct (Ascii.eqb_spec c "-") as [->|_]; [by vm_compute in Hc|].
  rewrite Hd. cbn [length Nat.ltb Nat.leb andb]. rewrite Hval, Z.mul_1_l.
  destruct (Z.leb_spec (- 2 ^ 63) z); [|lia]. destruct (Z.ltb_spec z (2 ^ 63)); [|lia]. done.
Qed.

(** ** Round trips *)

Lemma GetElementName_Make m e : Z.of_nat (String.length e) < 2 ^ 63 -> GetElementName (MakeElementKey m e) = Ok (m, e).
Proof.
  intros Hlen. unfold GetElementName, MakeElementKey. set (n := pretty (Z.of_nat (String.length e))).
  replace (m +:+ ":" +:+ e +:+ "_" +:+ n +:+ MapElementKeySuffix)
    with (((m +:+ ":" +:+ e) +:+ "_" +:+ n) +:+ MapElementKeySuffix) by (by rewrite !str_app_assoc).
  rewrite slicePrefix_app by (rewrite str_app_length; lia). simpl.
  rewrite splitLast_app by apply pretty_no_underscore. simpl.
  unfold n. rewrite Atoi_pretty by lia. simpl.
  rewrite slicePrefix_app by (rewrite !str_app_length; simpl; lia). simpl.
  rewrite str_app_assoc, sliceSuffix_app by (rewrite !str_app_length; simpl; lia). done.
Qed.

Lemma MakeElementKey_suffix m e : exists a, MakeElementKey m e = a +:+ MapElementKeySuffix.
Proof. exists (m +:+ ":" +:+ e +:+ "_" +:+ pretty (Z.of_nat (String.length e))). unfold MakeElementKey. by rewrite !str_app_assoc. Qed.

(** The suffixes of the two kinds of key differ in their last character. *)
Lemma suffixes_differ a : HasSuffix (a +:+ MapElementKeySuffix) MapKeysListSuffix = false.
Proof.
  destruct (HasSuffix _ _) eqn:E; [|done]. apply HasSuffix_spec in E as (b & Heq).
  apply (f_equal (fun s => list.last (chars s))) in Heq. cbv beta in Heq. rewrite !chars_app in Heq. rewrite !last_app in Heq. by vm_compute in Heq.
Qed.

Lemma Contains_suffix a suf : (exists r, suf = "_" +:+ MapDesignator +:+ r) -> Contains (a +:+ suf) MapDesignator = true.
Proof. intros (r & ->). rewrite str_app_assoc. apply Contains_app. Qed.

Lemma valid_no_suffix k suf : IsValidKey k = None -> (exists r, suf = "_" +:+ MapDesignator +:+ r) -> HasSuffix k suf = false.
Proof.
  unfold IsValidKey. intros Hk Hsuf. destruct (HasSuffix k suf) eqn:E; [|done].
  apply HasSuffix_spec in E as (a & ->). by rewrite Contains_suffix in Hk.
Qed.

Lemma valid_not_element k : IsValidKey k = None -> DetectMapElement k = Ok (false, EmptyString, EmptyString).
Proof. intros Hk. unfold DetectMapElement. rewrite valid_no_suffix; [done|done|]. by exists "MapElement". Qed.

Lemma DetectMapElement_Make m e :
  Z.of_nat (String.length e) < 2 ^ 63 -> DetectMapElement (MakeElementKey m e) = Ok (true, m, e).
Proof.
  intros He. unfold DetectMapElement. destruct (MakeElementKey_suffix m e) as (a & Ha). rewrite Ha at 1.
  rewrite HasSuffix_app, GetElementName_Make by done. done.
Qed.

Lemma str_app_inj_r a b c : a +:+ c = b +:+ c -> a = b.
Proof. intros Heq. apply (f_equal chars) in Heq. rewrite !chars_app in Heq. by apply app_inv_tail, chars_inj in Heq. Qed.

Lemma MakeElementKey_inj m m' e e' : MakeElementKey m e = MakeElementKey m' e' -> m = m' /\ e = e'.
Proof.
  unfold MakeElementKey. rewrite !str_app_assoc. intros Heq%str_app_inj_r. apply (f_equal chars) in Heq. rewrite !chars_app in Heq.
  apply (last_separator_inj "_"%char) in Heq as [Hk Hn]; [|by right; eauto|by right; eauto|apply pretty_no_underscore|apply pretty_no_underscore].
  apply chars_inj, (inj pretty), Nat2Z.inj in Hn. apply app_inj_tail in Hk as [Hk _].
  apply app_inj_2 in Hk as [Hm He]; [|by rewrite !length_chars]. apply app_inj_tail in Hm as [Hm _].
  split; by apply chars_inj.
Qed.

#[export] Instance MakeElementKey_Inj m : Inj (=) (=) (MakeElementKey m).
Proof. by intros e e' [_ ?]%MakeElementKey_inj. Qed.

Lemma MakeMapKey_inj m m' : MakeMapKey m = MakeMapKey m' -> m = m'.
Proof.
  intros Heq. apply (f_equal GetMapName) in Heq. unfold GetMapName, MakeMapKey in Heq.
  rewrite !slicePrefix_app in Heq by (rewrite str_app_length; lia). by simplify_eq.
Qed.

Lemma element_not_map m m' e : MakeElementKey m e ≠ MakeMapKey m'.
Proof.
  destruct (MakeElementKey_suffix m e) as (a & ->). intros Heq. pose proof (suffixes_differ a) as Hd.
  rewrite Heq in Hd. unfold MakeMapKey in Hd. by rewrite HasSuffix_app in Hd.
Qed.

Lemma valid_not_map k m : IsValidKey k = None -> k ≠ MakeMapKey m.
Proof.
  intros Hk ->. apply (valid_no_suffix _ MapKeysListSuffix) in Hk; [|by exists "MapKeys"].
  unfold MakeMapKey in Hk. by rewrite HasSuffix_app in Hk.
Qed.

Lemma valid_ne_element k m e : IsValidKey k = None -> k ≠ MakeElementKey m e.
Proof.
  intros Hk ->. apply (valid_no_suffix _ MapElementKeySuffix) in Hk; [|by exists "MapElement"].
  destruct (MakeElementKey_suffix m e) as (a & Ha). by rewrite Ha, HasSuffix_app in Hk.
Qed.

(** The names of a map's files tell their kind, map and element, whatever the
    names of the map and the element contain, and no key an application may use
    is taken for one. *)
Theorem map_keys_detected m e k :
  Z.of_nat (String.length e) < 2 ^ 63 -> IsValidKey k = None ->
  DetectMap (MakeElementKey m e) = Ok (KeyTypeMapElement, m, e) /\
  DetectMap (MakeMapKey m) = Ok (KeyTypeMapFile, m, EmptyString) /\
  DetectMap k = Ok (KeyTypeNormal, EmptyString, EmptyString).
Proof.
  intros He Hk. split_and!.
  - unfold DetectMap. destruct (MakeElementKey_suffix m e) as (a & Ha).
    assert (HasSuffix (MakeElementKey m e) MapKeysListSuffix = false) as -> by (rewrite Ha; apply suffixes_differ).
    assert (HasSuffix (MakeElementKey m e) MapElementKeySuffix = true) as -> by (rewrite Ha; apply HasSuffix_app).
    by rewrite GetElementName_Make by done.
  - unfold DetectMap, MakeMapKey, GetMapName. rewrite HasSuffix_app.
    rewrite slicePrefix_app by (rewrite str_app_length; lia). done.
  - unfold DetectMap. rewrite !valid_no_suffix; [done|done| |done|]; [by exists "MapElement"|by exists "MapKeys"].
Qed.

Lemma map_keys_detected_witness :
  DetectMap (MakeElementKey "a:b_1" "_7:é") = Ok (KeyTypeMapElement, "a:b_1", "_7:é") /\
  DetectMap (MakeMapKey "a:b_1") = Ok (KeyTypeMapFile, "a:b_1", EmptyString) /\
  DetectMap "k" = Ok (KeyTypeNormal, EmptyString, EmptyString).
Proof. apply (map_keys_detected "a:b_1" "_7:é" "k"); [done|reflexivity]. Defined.
