(* ===== verification/ByteKV.v ===== *)
(** * The byte store under the collective store

    What [collective] uses of an [ekv.KeyValue]: reads and writes of bytes, and
    transactions.  The package is not part of this repository; it is the class
    [ByteKV], with what its documentation promises as [ByteKVLaws], and
    [MemBytes] is an instance. *)

From S2P Require Import Prelude KV Effects.

(** The files a transaction operates on; [None] when the key does not exist. *)
Abbreviation files := (gmap string (option (list byte))).

(** The operation of a transaction gets the files of its keys and the
    [Extender], which opens more.  It aborts with an error or returns the files
    as they are to be written, with what it keeps in captured variables. *)
Definition txnOp (A : Type) : Type := files -> (list string -> error + files) -> error + (files * A).

Class ByteKV (S : Type) := {
  bk_GetBytes : S -> string -> error + list byte;
  bk_SetBytes : S -> string -> list byte -> S * option error;
  bk_Delete : S -> string -> S * option error;
  bk_Transaction {A} : S -> list string -> txnOp A -> S * (error + A);
  bk_Exists : error -> bool;
}.
Arguments bk_Exists S {_} e.

Section store.
Context {S : Type} `{ByteKV S}.

(** What is stored under a key. *)
Definition stored (s : S) (k : string) : option (list byte) :=
  match bk_GetBytes s k with inr d => Some d | inl _ => None end.

Definition opened (s : S) (keys : list string) : files := list_to_map ((fun k => (k, stored s k)) <$> keys).

(** What a transaction leaves in a file. *)
Definition fileOf (fs : files) (k : string) : option (list byte) := default None (fs !! k).

Definition getBytes (k : string) : act S (list byte) := read (fun s => bk_GetBytes s k).
Definition setBytes (k : string) (d : list byte) : act S unit := write (fun s => bk_SetBytes s k d).
Definition deleteKey (k : string) : act S unit := write (fun s => bk_Delete s k).

Definition transaction {A} (keys : list string) (op : txnOp A) : act S A := fun s =>
  match bk_Transaction s keys op with
  | (s, inr a) => Done s a
  | (s, inl e) => Fail s e
  end.
End store.

(** What a successful operation promises; a transaction whose operation returns
    an error is aborted. *)
Class ByteKVLaws (S : Type) `{ByteKV S} := {
  bk_set_eq (s : S) k d s' : bk_SetBytes s k d = (s', None) -> bk_GetBytes s' k = inr d;
  bk_set_ne (s : S) k d s' r k' : bk_SetBytes s k d = (s', r) -> k ≠ k' -> bk_GetBytes s' k' = bk_GetBytes s k';
  bk_delete_eq (s : S) k s' : bk_Delete s k = (s', None) ->
    exists e, bk_GetBytes s' k = inl e /\ bk_Exists S e = false;
  bk_delete_ne (s : S) k s' r k' : bk_Delete s k = (s', r) -> k ≠ k' -> bk_GetBytes s' k' = bk_GetBytes s k';
  bk_txn {A} (s : S) keys (op : txnOp A) s' a : bk_Transaction s keys op = (s', inr a) ->
    exists fs, op (opened s keys) (fun ks => inr (opened s ks)) = inr (fs, a) /\
      forall k, stored s' k = if decide (k ∈ keys) then fileOf fs k else stored s k;
  bk_txn_abort {A} (s : S) keys (op : txnOp A) e :
    op (opened s keys) (fun ks => inr (opened s ks)) = inl e ->
    exists s', bk_Transaction s keys op = (s', inl e) /\ forall k, stored s' k = stored s k;
}.

(** A store whose operations do not fail. *)
Class ByteKVReliable (S : Type) `{ByteKV S} := {
  bk_set_ok (s : S) k d : snd (bk_SetBytes s k d) = None;
  bk_delete_ok (s : S) k : snd (bk_Delete s k) = None;
  bk_txn_ok {A} (s : S) keys (op : txnOp A) fs a :
    op (opened s keys) (fun ks => inr (opened s ks)) = inr (fs, a) ->
    exists s', bk_Transaction s keys op = (s', inr a);
}.

Section steps.
Context {S : Type} `{ByteKVLaws S, !ByteKVReliable S}.
Implicit Types (s : S) (k : string).

Lemma setBytes_Done s k d : exists s', setBytes k d s = Done s' tt /\
  forall k', stored s' k' = if decide (k' = k) then Some d else stored s k'.
Proof.
  destruct (bk_SetBytes s k d) as [s' r] eqn:E. pose proof (bk_set_ok s k d) as Hr. rewrite E in Hr. simpl in Hr. subst r.
  exists s'. split; [by apply write_Done|]. intros k'. unfold stored. case_decide as Hk.
  - subst k'. by rewrite (bk_set_eq _ _ _ _ E).
  - by rewrite (bk_set_ne _ _ _ _ _ k' E) by done.
Qed.

Lemma deleteKey_Done s k : exists s', deleteKey k s = Done s' tt /\
  forall k', stored s' k' = if decide (k' = k) then None else stored s k'.
Proof.
  destruct (bk_Delete s k) as [s' r] eqn:E. pose proof (bk_delete_ok s k) as Hr. rewrite E in Hr. simpl in Hr. subst r.
  exists s'. split; [by apply write_Done|]. intros k'. unfold stored. case_decide as Hk.
  - subst k'. destruct (bk_delete_eq _ _ _ E) as (e & -> & _). done.
  - by rewrite (bk_delete_ne _ _ _ _ k' E) by done.
Qed.

Lemma transaction_Done {A} s keys (op : txnOp A) fs a :
  op (opened s keys) (fun ks => inr (opened s ks)) = inr (fs, a) ->
  exists s', transaction keys op s = Done s' a /\
    forall k, stored s' k = if decide (k ∈ keys) then fileOf fs k else stored s k.
Proof.
  intros Hop. destruct (bk_txn_ok _ _ _ _ _ Hop) as (s' & E). exists s'. unfold transaction. rewrite E. split; [done|].
  destruct (bk_txn _ _ _ _ _ E) as (fs' & Hop' & Hk). rewrite Hop in Hop'. by simplify_eq.
Qed.

Lemma transaction_Fail {A} s keys (op : txnOp A) e :
  op (opened s keys) (fun ks => inr (opened s ks)) = inl e ->
  exists s', transaction keys op s = Fail s' e /\ forall k, stored s' k = stored s k.
Proof. intros (s' & E & Hs)%bk_txn_abort. exists s'. unfold transaction. by rewrite E. Qed.

Lemma getBytes_stored s k d : stored s k = Some d -> getBytes k s = Done s d.
Proof. unfold stored, getBytes, read. by destruct (bk_GetBytes s k); intros [= ->]. Qed.

Lemma fileOf_opened s keys k : k ∈ keys -> opened s keys !! k = Some (stored s k).
Proof.
  intros Hk. unfold opened. destruct (list_to_map _ !! k) as [o|] eqn:E.
  - apply elem_of_list_to_map_2, list_elem_of_fmap in E as (k' & ? & _). by simplify_eq.
  - exfalso. apply not_elem_of_list_to_map_2 in E. apply E. rewrite <- list_fmap_compose. by rewrite list_fmap_id.
Qed.

Lemma fileOf_open s keys k : k ∈ keys -> fileOf (opened s keys) k = stored s k.
Proof. intros Hk. unfold fileOf. by rewrite fileOf_opened. Qed.

Lemma fileOf_insert (fs : files) k k' o : fileOf (<[k := o]> fs) k' = if decide (k' = k) then o else fileOf fs k'.
Proof. unfold fileOf. case_decide; subst; by simplify_map_eq. Qed.
End steps.

(** ** An in-memory store *)

Abbreviation MemBytes := (gmap string (list byte)).

Definition errNoBytes : error := Errorf "object not found" [].

Definition mem_Get (s : MemBytes) (k : string) : error + list byte :=
  match s !! k with Some d => inr d | None => inl errNoBytes end.
Definition mem_open (s : MemBytes) (keys : list string) : files :=
  list_to_map ((fun k => (k, match mem_Get s k with inr d => Some d | inl _ => None end)) <$> keys).
Definition mem_flush (fs : files) (keys : list string) (s : MemBytes) : MemBytes :=
  foldr (fun k s => partial_alter (fun _ => fileOf fs k) k s) s keys.

#[export] Instance MemBytes_KV : ByteKV MemBytes := {
  bk_GetBytes := mem_Get;
  bk_SetBytes s k d := (<[k := d]> s, None);
  bk_Delete s k := (delete k s, None);
  bk_Transaction A s keys op :=
    match op (mem_open s keys) (fun ks => inr (mem_open s ks)) with
    | inr (fs, a) => (mem_flush fs keys s, inr a)
    | inl e => (s, inl e)
    end;
  bk_Exists e := negb (bool_decide (rootCause e = errNoBytes));
}.

Lemma mem_flush_lookup fs keys s k :
  mem_flush fs keys s !! k = if decide (k ∈ keys) then fileOf fs k else s !! k.
Proof.
  induction keys as [|k' keys IH]; simpl; [done|]. destruct (decide (k' = k)) as [->|Hne].
  - rewrite lookup_partial_alter_eq. rewrite decide_True by (by left). done.
  - rewrite lookup_partial_alter_ne by done. rewrite IH. destruct (decide (k ∈ keys)).
    + by rewrite decide_True by (by right).
    + rewrite decide_False; [done|]. intros [->|?]%elem_of_cons; congruence.
Qed.

Lemma mem_stored (s : MemBytes) k : stored s k = s !! k.
Proof. unfold stored. simpl. unfold mem_Get. by destruct (s !! k). Qed.

#[export] Instance MemBytes_laws : ByteKVLaws MemBytes.
Proof.
  split; simpl; unfold mem_Get.
  - intros s k d s' ?. simplify_eq. by rewrite lookup_insert_eq.
  - intros s k d s' r k' ? ?. simplify_eq. by rewrite lookup_insert_ne.
  - intros s k s' ?. simplify_eq. rewrite lookup_delete_eq. exists errNoBytes. split; [done|]. by rewrite bool_decide_true.
  - intros s k s' r k' ? ?. simplify_eq. by rewrite lookup_delete_ne.
  - intros A s keys op s' a E.
    change (opened s keys) with (mem_open s keys). change (fun ks => inr (opened s ks)) with (fun ks => @inr error _ (mem_open s ks)).
    destruct (op _ _) as [e|[fs b]] eqn:Eop; simplify_eq. exists fs. split; [done|].
    intros k. rewrite !mem_stored, mem_flush_lookup. done.
  - intros A s keys op e E. exists s.
    change (opened s keys) with (mem_open s keys) in E. change (fun ks => inr (opened s ks)) with (fun ks => @inr error _ (mem_open s ks)) in E.
    by rewrite E.
Qed.

#[export] Instance MemBytes_reliable : ByteKVReliable MemBytes.
Proof.
  split; simpl; [done|done|]. intros A s keys op fs a E.
  change (opened s keys) with (mem_open s keys) in E. change (fun ks => inr (opened s ks)) with (fun ks => @inr error _ (mem_open s ks)) in E.
  rewrite E. eauto.
Qed.
