(* ===== verification/Base64Raw.v ===== *)
(** * Base 64 without padding

    [base64.RawStdEncoding] and [base64.RawURLEncoding], with the strict decoder. *)

From Stdlib Require Import Ascii.
From S2P Require Import Prelude GoBytes KV Base64.

Definition rawStdAlphabet : list ascii :=
  chars "ABCDEFGHIJKLMNOPQRSTUVWXYZabcdefghijklmnopqrstuvwxyz0123456789+/".
Definition rawURLAlphabet : list ascii :=
  chars "ABCDEFGHIJKLMNOPQRSTUVWXYZabcdefghijklmnopqrstuvwxyz0123456789-_".

Fixpoint rawDigits (bs : list Z) : list Z :=
  match bs with
  | [] => []
  | [a] => [a / 4; a mod 4 * 16]
  | [a; b] => [a / 4; a mod 4 * 16 + b / 16; b mod 16 * 4]
  | a :: b :: c :: bs => (a / 4) :: (a mod 4 * 16 + b / 16) :: (b mod 16 * 4 + c / 64) :: (c mod 64) :: rawDigits bs
  end.

(** A strict decoder refuses bits that are set in the padding. *)
Fixpoint rawBytes (strict : bool) (ds : list Z) : option (list Z) :=
  match ds with
  | [] => Some []
  | [_] => None
  | [a; b] => if strict && negb (b mod 16 =? 0) then None else Some [a * 4 + b / 16]
  | [a; b; c] =>
      if strict && negb (c mod 4 =? 0) then None else Some [a * 4 + b / 16; b mod 16 * 16 + c / 4]
  | a :: b :: c :: d :: ds =>
      bs ← rawBytes strict ds;
      Some (a * 4 + b / 16 :: b mod 16 * 16 + c / 4 :: c mod 4 * 64 + d :: bs)
  end.

Section code.
Context (alphabet : list ascii).

Definition rawChar (z : Z) : ascii := default "A"%char (alphabet !! Z.to_nat z).
Definition rawValue (c : ascii) : option Z :=
  (fun e : nat * ascii => Z.of_nat e.1) <$> list_find (fun x => x = c) alphabet.

Definition rawEncode (bs : list byte) : list ascii := rawChar <$> rawDigits (Z_of_byte <$> bs).

Definition rawDecode (strict : bool) (s : list ascii) : option (list byte) :=
  match mapM rawValue (List.filter (fun c => negb (isLineBreak c)) s) with
  | Some ds => (fun l : list Z => byte_of_Z <$> l) <$> rawBytes strict ds
  | None => None
  end.
End code.

(** [EncodedLen] and [DecodedLen] *)
Definition rawEncodedLen (n : nat) : nat := (n * 8 + 5) / 6.
Definition rawDecodedLen (n : nat) : nat := n * 6 / 8.

(** ** Round trip *)

Class RawAlphabet (alphabet : list ascii) : Prop := raw_alphabet :
  length alphabet = 64%nat /\ NoDup alphabet /\ forallb (fun c => negb (isLineBreak c)) alphabet = true.

#[export] Instance rawStd_ok : RawAlphabet rawStdAlphabet.
Proof. split_and!; [done|by apply (bool_decide_unpack _); vm_compute|by vm_compute]. Qed.
#[export] Instance rawURL_ok : RawAlphabet rawURLAlphabet.
Proof. split_and!; [done|by apply (bool_decide_unpack _); vm_compute|by vm_compute]. Qed.

Definition is_digit (d : Z) : Prop := 0 <= d < 64.

Lemma rawDigits_range bs : Forall is_byte bs -> Forall is_digit (rawDigits bs).
Proof.
  induction bs as [|a|a b|a b c bs IH] using list_ind3; cbn [rawDigits]; unfold is_byte, is_digit in *;
    intros H; repeat (apply Forall_cons_iff in H as [? H]); repeat (apply Forall_cons_iff; split); try apply List.Forall_nil;
    try zlia. by apply IH.
Qed.

Lemma rawBytes_digits strict bs : Forall is_byte bs -> rawBytes strict (rawDigits bs) = Some bs.
Proof.
  induction bs as [|a|a b|a b c bs IH] using list_ind3; cbn [rawDigits rawBytes]; unfold is_byte in *;
    intros H; repeat (apply Forall_cons_iff in H as [? H]); [done| | |].
  - replace (a mod 4 * 16 mod 16) with 0 by zlia. rewrite andb_false_r. do 2 f_equal. zlia.
  - replace (b mod 16 * 4 mod 4) with 0 by zlia. rewrite andb_false_r. do 2 f_equal; [zlia|f_equal; zlia].
  - rewrite IH by done. simpl. do 2 f_equal; [zlia|f_equal; [zlia|f_equal; zlia]].
Qed.

Section laws.
Context (alphabet : list ascii) `{!RawAlphabet alphabet}.

Lemma rawChar_lookup d : is_digit d -> alphabet !! Z.to_nat d = Some (rawChar alphabet d).
Proof.
  intros Hd. destruct raw_alphabet as (Hlen & _). unfold rawChar, is_digit in *.
  destruct (alphabet !! Z.to_nat d) eqn:E; [done|]. apply lookup_ge_None in E. lia.
Qed.

Lemma rawValue_char d : is_digit d -> rawValue alphabet (rawChar alphabet d) = Some d.
Proof.
  intros Hd. pose proof (rawChar_lookup d Hd) as Hl. destruct raw_alphabet as (Hlen & Hnd & _). unfold rawValue.
  assert (list_find (fun x => x = rawChar alphabet d) alphabet = Some (Z.to_nat d, rawChar alphabet d)) as ->.
  { apply list_find_Some. split_and!; [done|done|]. intros j y Hj Hlt ->.
    pose proof (NoDup_lookup _ _ _ _ Hnd Hj Hl). lia. }
  simpl. unfold is_digit in Hd. f_equal. lia.
Qed.

Lemma rawEncode_chars bs c : c ∈ rawEncode alphabet bs -> c ∈ alphabet.
Proof.
  unfold rawEncode. intros (d & -> & Hd)%list_elem_of_fmap.
  assert (Forall is_digit (rawDigits (Z_of_byte <$> bs))) as Hr by apply rawDigits_range, bytes_range.
  rewrite list.Forall_forall in Hr. eapply list_elem_of_lookup_2, rawChar_lookup, Hr, Hd.
Qed.

Lemma rawDecode_encode strict bs : rawDecode alphabet strict (rawEncode alphabet bs) = Some bs.
Proof.
  unfold rawDecode.
  assert (List.filter (fun c => negb (isLineBreak c)) (rawEncode alphabet bs) = rawEncode alphabet bs) as ->.
  { apply forallb_filter_id, forallb_forall. intros c Hc%list_elem_of_In%rawEncode_chars.
    destruct raw_alphabet as (_ & _ & Hall). rewrite forallb_forall in Hall. apply Hall. by apply list_elem_of_In. }
  assert (Forall is_digit (rawDigits (Z_of_byte <$> bs))) as Hr by apply rawDigits_range, bytes_range.
  assert (mapM (rawValue alphabet) (rawEncode alphabet bs) = Some (rawDigits (Z_of_byte <$> bs))) as ->.
  { apply mapM_Some. unfold rawEncode. apply Forall2_fmap_l. apply Forall_Forall2_diag.
    apply (List.Forall_impl _ (P := is_digit)); [|exact Hr]. intros d Hd. by apply rawValue_char. }
  simpl. rewrite rawBytes_digits by apply bytes_range. simpl. f_equal.
  rewrite <- list_fmap_compose. rewrite <- (list_fmap_id bs) at 2. apply list_fmap_ext. intros _ b _. apply byte_of_Z_of_byte.
Qed.

Lemma rawEncode_inj bs bs' : rawEncode alphabet bs = rawEncode alphabet bs' -> bs = bs'.
Proof. intros Heq. apply (f_equal (rawDecode alphabet false)) in Heq. rewrite !rawDecode_encode in Heq. by simplify_eq. Qed.

Lemma length_rawEncode bs : length (rawEncode alphabet bs) = rawEncodedLen (length bs).
Proof.
  unfold rawEncode, rawEncodedLen. rewrite length_fmap. rewrite <- (length_fmap Z_of_byte bs).
  induction (Z_of_byte <$> bs) as [|a|a b|a b c l IH] using list_ind3; cbn [rawDigits length]; [done..|].
  rewrite IH. replace (S (S (S (length l))) * 8 + 5)%nat with (length l * 8 + 5 + 4 * 6)%nat by lia.
  rewrite Nat.div_add by lia. lia.
Qed.

(** The buffer the decoder writes to has the length of what was encoded. *)
Lemma rawDecodedLen_encode bs : rawDecodedLen (length (rawEncode alphabet bs)) = length bs.
Proof.
  rewrite length_rawEncode. unfold rawDecodedLen, rawEncodedLen. generalize (length bs). intros n.
  pose proof (Nat.div_mod_eq (n * 8 + 5) 6). pose proof (Nat.mod_upper_bound (n * 8 + 5) 6 ltac:(lia)).
  symmetry. apply (Nat.div_unique _ 8 n ((n * 8 + 5) / 6 * 6 - n * 8)); lia.
Qed.
End laws.
