(* ===== verification/Patch.v ===== *)
(** * Patches

    [collective/instanceID.go] (identities and their order), [mutate.go] and
    [patches.go], and [prepareDiff] of [collector.go]: the newest mutation every
    device made of every key, and the merge that decides which of them holds. *)

From stdpp Require Import sorting.
From S2P Require Import Prelude GoBytes.

(** ** Instances *)

Definition instanceIDLength : nat := 8.

(** [[8]byte] *)
Definition InstanceID : Type := {l : list byte | length l = 8%nat}.
Definition iid_bytes (i : InstanceID) : list byte := proj1_sig i.
Definition iid_of (l : list byte) : InstanceID := array_of 8 l ↾ length_array_of 8 l.

#[export] Instance InstanceID_eq_dec : EqDecision InstanceID.
Proof. unfold InstanceID. apply _. Defined.
#[export] Instance InstanceID_countable : Countable InstanceID.
Proof. unfold InstanceID. apply _. Defined.

Fixpoint cmpBytes (i j : list byte) : Z :=
  match i, j with
  | x :: i, y :: j =>
      if Z_of_byte x >? Z_of_byte y then 1 else if Z_of_byte x <? Z_of_byte y then -1 else cmpBytes i j
  | _, _ => 0
  end.

Definition InstanceID_Cmp (i j : InstanceID) : Z := cmpBytes (iid_bytes i) (iid_bytes j).

Definition InstanceID_Equals (i j : InstanceID) : bool := bool_decide (iid_bytes i = iid_bytes j).

Definition checkSize (n : nat) : option error :=
  if (n =? 0)%nat then Some (Errorf "empty instance ID" [])
  else if negb (n =? instanceIDLength)%nat then
    Some (Wrapf "%d != %d" [Z.of_nat instanceIDLength; Z.of_nat n] (Errorf "incorrect instance ID size" []))
  else None.

Definition NewInstanceIDFromBytes (idBytes : list byte) : result InstanceID :=
  match checkSize (length idBytes) with
  | None => Ok (iid_of idBytes)
  | Some e => Err e
  end.

(** ** Mutations *)

(** [Timestamp] is an [int64]. *)
Record Mutate := mkMutate {
  mt_Timestamp : Z;
  mt_Value : list byte;
  mt_Deletion : bool;
}.

#[export] Instance Mutate_eq_dec : EqDecision Mutate.
Proof. solve_decision. Defined.
#[export] Instance Mutate_countable : Countable Mutate.
Proof.
  apply (inj_countable' (fun m => (mt_Timestamp m, mt_Value m, mt_Deletion m)) (fun '(a, b, c) => mkMutate a b c)).
  by intros [].
Defined.

(** [ts.UTC().Unix()] *)
Definition Unix (ts : Time) : Z := ts / 1000000000.

Definition NewMutate (ts : Time) (value : list byte) (deletion : bool) : Mutate := mkMutate (Unix ts) value deletion.
Definition Mutate_GetTimestamp (m : Mutate) : Time := mt_Timestamp m.

(** ** Patches *)

Record Patch := mkPatch {
  p_myID : InstanceID;
  p_keys : gmap string Mutate;
}.

#[export] Instance Patch_eq_dec : EqDecision Patch.
Proof. solve_decision. Defined.

Definition newPatch (patchID : InstanceID) : Patch := mkPatch patchID ∅.
Definition Patch_AddUnsafe (p : Patch) (key : string) (m : Mutate) : Patch := mkPatch (p_myID p) (<[key := m]> (p_keys p)).
Definition Patch_get (p : Patch) (key : string) : option Mutate := p_keys p !! key.

Section code.
Context (keyOrder : gmap string Mutate -> list string).

(** The loop over the mutations of one patch. *)
Definition patchStep (last : Z) (m : gmap string Mutate) (acc : gset string * Z) (key : string) : gset string * Z :=
  let '(keys, newLast) := acc in
  match m !! key with
  | Some mu =>
      if mt_Timestamp mu >? last
      then ({[key]} ∪ keys, if mt_Timestamp mu >? newLast then mt_Timestamp mu else newLast)
      else (keys, newLast)
  | None => (keys, newLast)
  end.

Definition patchUpdates (keys : gset string) (last : Z) (m : gmap string Mutate) : gset string * Z :=
  foldl (patchStep last m) (keys, last) (keyOrder m).

Fixpoint findKeysLoop (p : Patch) (idx : Z) (patches : list Patch) (lastSeen : list Time) (keys : gset string) :
    result (gset string * list Time) :=
  match patches with
  | [] => Ok (keys, [])
  | patch :: patches =>
      if decide (p_myID patch = p_myID p) then
        '(keys, newLastSeen) ← findKeysLoop p (idx + 1) patches lastSeen keys;
        Ok (keys, zeroTime :: newLastSeen)
      else
        t ← index lastSeen idx;
        let '(keys, newLast) := patchUpdates keys (UnixNano t) (p_keys patch) in
        '(keys, newLastSeen) ← findKeysLoop p (idx + 1) patches lastSeen keys;
        Ok (keys, newLast :: newLastSeen)
  end.

Definition findKeysWithUpdates (p : Patch) (remotePatches : list Patch) (lastSeen : list Time) :
    result (gset string * list Time) := findKeysLoop p 0 remotePatches lastSeen ∅.

(** One key: the newest mutation, and the last of the list among equally new
    ones. *)
Definition mergeKey (patches : list Patch) (key : string) : Mutate :=
  foldl (fun defending patch =>
    match Patch_get patch key with
    | Some contender => if negb (mt_Timestamp defending >? mt_Timestamp contender) then contender else defending
    | None => defending
    end) (mkMutate 0 [] false) patches.

Definition buildMerge (patches : list Patch) (mutatedKeys : gset string) : gmap string Mutate :=
  set_to_map (fun key => (key, mergeKey patches key)) mutatedKeys.

Definition Patch_Diff (p : Patch) (patches : list Patch) (lastSeen : list Time) :
    result (gmap string Mutate * list Time) :=
  '(mutatedKeys, newLastSeen) ← findKeysWithUpdates p patches lastSeen;
  Ok (buildMerge patches mutatedKeys, newLastSeen).
End code.

(** The order of [sort.Slice] in [prepareDiff]: the larger instance first. *)
Definition supremacy (i j : InstanceID) : Prop := InstanceID_Cmp i j ≠ -1.
#[export] Instance supremacy_dec : RelDecision supremacy.
Proof. unfold supremacy. intros i j. apply _. Defined.

Definition prepareDiff (deviceOrder : gmap InstanceID Patch -> list InstanceID)
    (devicePatchTracker : gmap InstanceID Patch) (lastMutationRead : gmap InstanceID Time) :
    list InstanceID * list Patch * list Time :=
  let devices := merge_sort supremacy (deviceOrder devicePatchTracker) in
  (devices,
   (fun d => default (newPatch d) (devicePatchTracker !! d)) <$> devices,
   (fun d => default zeroTime (lastMutationRead !! d)) <$> devices).

(** ** The order of instances *)

Lemma cmpBytes_cases i j : cmpBytes i j = 1 \/ cmpBytes i j = 0 \/ cmpBytes i j = -1.
Proof. revert j. induction i as [|x i IH]; intros [|y j]; simpl; auto. repeat case_match; auto. Qed.

Lemma cmpBytes_sym i j : cmpBytes j i = - cmpBytes i j.
Proof.
  revert j. induction i as [|x i IH]; intros [|y j]; simpl; try done.
  destruct (Z.gtb_spec (Z_of_byte x) (Z_of_byte y)), (Z.ltb_spec (Z_of_byte x) (Z_of_byte y)),
    (Z.gtb_spec (Z_of_byte y) (Z_of_byte x)), (Z.ltb_spec (Z_of_byte y) (Z_of_byte x)); try lia. apply IH.
Qed.

Lemma cmpBytes_eq i j : length i = length j -> cmpBytes i j = 0 -> i = j.
Proof.
  revert j. induction i as [|x i IH]; intros [|y j] Hlen; simpl in *; try done.
  destruct (Z.gtb_spec (Z_of_byte x) (Z_of_byte y)), (Z.ltb_spec (Z_of_byte x) (Z_of_byte y)); try done.
  intros Hc. f_equal; [apply Z_of_byte_inj; lia|]. apply IH; [lia|done].
Qed.

Lemma cmpBytes_trans i j k : length i = length j -> length j = length k ->
  cmpBytes i j ≠ -1 -> cmpBytes j k ≠ -1 -> cmpBytes i k ≠ -1.
Proof.
  revert j k. induction i as [|x i IH]; intros [|y j] [|z k] H1 H2; simpl in *; try done.
  destruct (Z.gtb_spec (Z_of_byte x) (Z_of_byte y)), (Z.ltb_spec (Z_of_byte x) (Z_of_byte y)); try done;
    destruct (Z.gtb_spec (Z_of_byte y) (Z_of_byte z)), (Z.ltb_spec (Z_of_byte y) (Z_of_byte z)); try done;
    destruct (Z.gtb_spec (Z_of_byte x) (Z_of_byte z)), (Z.ltb_spec (Z_of_byte x) (Z_of_byte z)); try done; try lia.
  apply IH; lia.
Qed.

Lemma iid_eq (i j : InstanceID) : iid_bytes i = iid_bytes j -> i = j.
Proof. intros Heq. by apply (sig_eq_pi _). Qed.

Lemma iid_length (i : InstanceID) : length (iid_bytes i) = 8%nat.
Proof. apply (proj2_sig i). Qed.

Lemma iid_of_bytes (i : InstanceID) : iid_of (iid_bytes i) = i.
Proof. apply iid_eq. simpl. by apply array_of_id, iid_length. Qed.

#[export] Instance supremacy_total : Total supremacy.
Proof.
  intros i j. unfold supremacy, InstanceID_Cmp. rewrite (cmpBytes_sym (iid_bytes i) (iid_bytes j)).
  destruct (cmpBytes_cases (iid_bytes i) (iid_bytes j)) as [->|[->| ->]]; [by left|by left|by right].
Qed.

#[export] Instance supremacy_trans : Transitive supremacy.
Proof. intros i j k. apply cmpBytes_trans; by rewrite !iid_length. Qed.

#[export] Instance supremacy_antisym : AntiSymm (=) supremacy.
Proof.
  intros i j. unfold supremacy, InstanceID_Cmp. rewrite (cmpBytes_sym (iid_bytes i) (iid_bytes j)). intros H1 H2.
  apply iid_eq, cmpBytes_eq; [by rewrite !iid_length|].
  destruct (cmpBytes_cases (iid_bytes i) (iid_bytes j)) as [E|[E|E]]; lia.
Qed.

#[export] Instance supremacy_refl : Reflexive supremacy.
Proof. intros i. by destruct (total supremacy i i). Qed.

(** ** The keys a device has not seen *)

Definition int64 (z : Z) : Prop := - 2 ^ 63 <= z < 2 ^ 63.

Lemma UnixNano_id t : int64 t -> UnixNano t = t.
Proof. intros Ht. unfold UnixNano. apply wraps_small; [lia|]. unfold int64 in Ht. simpl in *. lia. Qed.

(** The newest of [last] and the mutations of a patch. *)
Definition newest (last : Z) (m : gmap string Mutate) (n : Z) : Prop :=
  last <= n /\ map_Forall (fun _ mu => mt_Timestamp mu <= n) m /\
  (n = last \/ exists k mu, m !! k = Some mu /\ mt_Timestamp mu = n).

Section updates.
Context (keyOrder : gmap string Mutate -> list string) `{!MapOrder keyOrder}.

Lemma patchLoop_spec keys last m l keys' n : foldl (patchStep last m) (keys, last) l = (keys', n) ->
  (forall k, k ∈ keys' <-> k ∈ keys \/ (k ∈ l /\ exists mu, m !! k = Some mu /\ last < mt_Timestamp mu)) /\
  last <= n /\ (forall k mu, k ∈ l -> m !! k = Some mu -> mt_Timestamp mu <= n) /\
  (n = last \/ exists k mu, m !! k = Some mu /\ mt_Timestamp mu = n).
Proof.
  revert keys' n. induction l as [|k l IH] using rev_ind; intros keys' n.
  - simpl. intros [= <- <-]. split_and!; [set_solver|lia|set_solver|by left].
  - rewrite foldl_snoc. destruct (foldl _ _ l) as [ks nl]. destruct (IH _ _ eq_refl) as (Hk & Hle & Hmax & Hn).
    setoid_rewrite elem_of_app. setoid_rewrite list_elem_of_singleton. unfold patchStep.
    destruct (m !! k) as [mu|] eqn:Emu; [destruct (Z.gtb_spec (mt_Timestamp mu) last) as [Hgt|Hngt]|]; intros [= <- <-].
    + split_and!.
      * intros k'. rewrite elem_of_union, elem_of_singleton, Hk. split; [|naive_solver].
        intros [->|[?|[? ?]]]; [right; eauto|by left|right; eauto].
      * case_match; lia.
      * intros k' mu' [Hk'| ->] Hmu'; [specialize (Hmax k' mu' Hk' Hmu')|simplify_eq];
          destruct (Z.gtb_spec (mt_Timestamp mu) nl); lia.
      * destruct (Z.gtb_spec (mt_Timestamp mu) nl); [right; eauto|done].
    + split_and!; [|done| |done].
      * intros k'. rewrite Hk. split; [naive_solver|].
        intros [?|([?| ->] & mu' & ? & ?)]; [by left|by eauto 6|]. simplify_eq. lia.
      * intros k' mu' [Hk'| ->] Hmu'; [by eapply Hmax|]. simplify_eq. lia.
    + split_and!; [|done| |done].
      * intros k'. rewrite Hk. split; [naive_solver|].
        intros [?|([?| ->] & mu' & ? & ?)]; [by left|by eauto 6|]. congruence.
      * intros k' mu' [Hk'| ->] Hmu'; [by eapply Hmax|]. congruence.
Qed.

Lemma patchUpdates_spec keys last m keys' n : patchUpdates keyOrder keys last m = (keys', n) ->
  (forall k, k ∈ keys' <-> k ∈ keys \/ exists mu, m !! k = Some mu /\ last < mt_Timestamp mu) /\ newest last m n.
Proof.
  intros (Hk & Hle & Hmax & Hn)%patchLoop_spec. split.
  - intros k. rewrite Hk. split; [naive_solver|]. intros [?|(mu & Hmu & ?)]; [by left|]. right. split; [|by exists mu].
    apply map_order_elem. by exists mu.
  - split_and!; [done| |done]. intros k mu Hmu. apply (Hmax k); [|done]. apply map_order_elem. by exists mu.
Qed.

(** A patch of another device has a mutation of the key that was not seen. *)
Definition updated (p : Patch) (patches : list Patch) (lastSeen : list Time) (k : string) : Prop :=
  exists i q t mu, patches !! i = Some q /\ p_myID q ≠ p_myID p /\ lastSeen !! i = Some t /\
    p_keys q !! k = Some mu /\ t < mt_Timestamp mu.

Lemma findKeysLoop_spec p patches seen seen0 keys :
  length patches = length seen -> Forall int64 seen ->
  exists keys' new, findKeysLoop keyOrder p (Z.of_nat (length seen0)) patches (seen0 ++ seen) keys = Ok (keys', new) /\
    (forall k, k ∈ keys' <-> k ∈ keys \/ updated p patches seen k) /\
    Forall2 (fun '(q, t) n => p_myID q ≠ p_myID p -> newest t (p_keys q) n) (zip patches seen) new.
Proof.
  revert seen seen0 keys. induction patches as [|q patches IH]; intros [|t seen] seen0 keys Hlen Hseen; simplify_eq/=.
  - exists keys, []. split_and!; [done| |constructor]. intros k. split; [by left|].
    intros [?|(i & q & t & mu & Hi & _)]; [done|]. by rewrite lookup_nil in Hi.
  - apply Forall_cons_iff in Hseen as [Ht Hseen].
    assert (Z.of_nat (length seen0) + 1 = Z.of_nat (length (seen0 ++ [t]))) as Hidx by (rewrite length_app; simpl; lia).
    replace (seen0 ++ t :: seen) with ((seen0 ++ [t]) ++ seen) by (by rewrite <- app_assoc).
    assert (forall (ks : gset string) k, (k ∈ ks \/ updated p patches seen k) \/ (p_myID q ≠ p_myID p /\ exists mu, p_keys q !! k = Some mu /\ t < mt_Timestamp mu) <->
      k ∈ ks \/ updated p (q :: patches) (t :: seen) k) as Hupd.
    { intros ks k. unfold updated. split.
      - intros [[?|(i & ?)]|(Hne & mu & ? & ?)]; [by left|right; by exists (Datatypes.S i)|right; exists 0%nat, q, t, mu; done].
      - intros [?|([|i] & q' & t' & mu & Hq & Hne & Htt & Hmu & Hlt)]; simplify_eq/=; [by left; left|right; eauto|].
        left. right. by exists i, q', t', mu. }
    case_decide as Hown.
    + destruct (IH seen (seen0 ++ [t]) keys) as (keys' & new & Hrun & Hk & Hnew); [done|done|].
      rewrite Hidx, Hrun. simpl. eexists _, _. split_and!; [done| |by constructor].
      intros k. rewrite <- Hupd, Hk. naive_solver.
    + rewrite (index_nat _ _ t) by (rewrite <- app_assoc; by apply list_lookup_middle). simpl.
      destruct (patchUpdates keyOrder keys (UnixNano t) (p_keys q)) as [ks n] eqn:E.
      rewrite UnixNano_id in E by done. apply patchUpdates_spec in E as [Hks Hn].
      destruct (IH seen (seen0 ++ [t]) ks) as (keys' & new & Hrun & Hk & Hnew); [done|done|].
      rewrite Hidx, Hrun. simpl. eexists _, _. split_and!; [done| |by constructor].
      intros k. rewrite <- Hupd, Hk, Hks. naive_solver.
Qed.
End updates.

(** ** The mutation that holds *)

Definition mutation (T : gmap InstanceID Patch) (d : InstanceID) (k : string) : option Mutate :=
  match T !! d with Some p => p_keys p !! k | None => None end.

(** The newest mutation of a key, and among equally new ones that of the
    smallest instance. *)
Definition winner (T : gmap InstanceID Patch) (k : string) (m : Mutate) : Prop :=
  exists d, mutation T d k = Some m /\ forall d' m', mutation T d' k = Some m' ->
    mt_Timestamp m' < mt_Timestamp m \/ (mt_Timestamp m' = mt_Timestamp m /\ supremacy d' d).

Lemma winner_unique T k m m' : winner T k m -> winner T k m' -> m = m'.
Proof.
  intros (d & Hd & Hmax) (d' & Hd' & Hmax').
  destruct (Hmax d' m' Hd') as [?|[? H1]], (Hmax' d m Hd) as [?|[? H2]]; [lia..|].
  assert (d = d') as -> by by apply (anti_symm supremacy). congruence.
Qed.

(** It depends on the mutations of the key only. *)
Lemma winner_ext T T' k m : (forall d, mutation T d k = mutation T' d k) -> winner T k m -> winner T' k m.
Proof.
  intros Heq (d & Hd & Hmax). exists d. rewrite <- Heq. split; [done|]. intros d' m'. rewrite <- Heq. apply Hmax.
Qed.

(** A mutation newer than all others holds. *)
Lemma winner_newest T k d m : mutation T d k = Some m ->
  (forall d' m', d' ≠ d -> mutation T d' k = Some m' -> mt_Timestamp m' < mt_Timestamp m) -> winner T k m.
Proof.
  intros Hd Hmax. exists d. split; [done|]. intros d' m' Hm'. destruct (decide (d' = d)) as [->|Hne].
  - right. split; [congruence|done].
  - left. by eapply Hmax.
Qed.

Section merge.
Context (T : gmap InstanceID Patch) (k : string).

Definition patchOf (d : InstanceID) : Patch := default (newPatch d) (T !! d).

Lemma get_patchOf d : Patch_get (patchOf d) k = mutation T d k.
Proof. unfold Patch_get, patchOf, mutation. by destruct (T !! d). Qed.

Hypothesis Hpos : forall d m, mutation T d k = Some m -> 0 <= mt_Timestamp m.

Lemma mergeKey_spec ds : StronglySorted supremacy ds ->
  let m := mergeKey (patchOf <$> ds) k in
  ((forall d, d ∈ ds -> mutation T d k = None) /\ m = mkMutate 0 [] false) \/
  exists d, d ∈ ds /\ mutation T d k = Some m /\ forall d' m', d' ∈ ds -> mutation T d' k = Some m' ->
    mt_Timestamp m' < mt_Timestamp m \/ (mt_Timestamp m' = mt_Timestamp m /\ supremacy d' d).
Proof.
  induction ds as [|d ds IH] using rev_ind; intros Hs; cbv zeta.
  { left. split; [intros d ?%not_elem_of_nil; done|done]. }
  apply StronglySorted_app in Hs as (Hlast & Hs & _). specialize (IH Hs). cbv zeta in IH.
  assert (forall d', d' ∈ ds -> supremacy d' d) as Hsup by (intros d' Hd'; apply Hlast; [done|by left]).
  rewrite fmap_app. unfold mergeKey in *. rewrite foldl_app. revert IH.
  set (def := foldl _ _ (patchOf <$> ds)). intros IH. cbn [fmap list_fmap foldl]. rewrite get_patchOf.
  setoid_rewrite elem_of_app. setoid_rewrite list_elem_of_singleton.
  destruct (mutation T d k) as [c|] eqn:Ec.
  - destruct (Z.gtb_spec (mt_Timestamp def) (mt_Timestamp c)) as [Hgt|Hle]; simpl.
    + destruct IH as [[_ Hdef]|(e & He & Hm & Hmax)]; [rewrite Hdef in Hgt; simpl in Hgt; specialize (Hpos d c Ec); lia|].
      right. exists e. split_and!; [by left|done|]. intros d' m' [Hd'| ->] Hm'; [by apply Hmax|]. left. simplify_eq. lia.
    + right. exists d. split_and!; [by right|done|]. intros d' m' [Hd'| ->] Hm'.
      * destruct IH as [[Hnone _]|(e & He & Hm & Hmax)]; [by rewrite Hnone in Hm' by done|].
        destruct (Hmax d' m' Hd' Hm') as [?|[? _]]; [left; lia|].
        destruct (Z.eq_dec (mt_Timestamp m') (mt_Timestamp c)); [right; split; [done|by apply Hsup]|left; lia].
      * right. simplify_eq. done.
  - destruct IH as [[Hnone Hdef]|(e & He & Hm & Hmax)].
    + left. split; [|done]. intros d' [Hd'| ->]; [by apply Hnone|done].
    + right. exists e. split_and!; [by left|done|]. intros d' m' [Hd'| ->] Hm'; [by apply Hmax|congruence].
Qed.
End merge.

Lemma winner_exists T k d m : (forall d m, mutation T d k = Some m -> 0 <= mt_Timestamp m) ->
  mutation T d k = Some m -> exists w, winner T k w.
Proof.
  intros Hpos Hd. set (ds := merge_sort supremacy (keysInOrder T)).
  assert (forall d' m', mutation T d' k = Some m' -> d' ∈ ds) as Hin.
  { intros d' m' Hm'. unfold ds. rewrite merge_sort_Permutation. apply map_order_elem. unfold mutation in Hm'. by destruct (T !! d'). }
  destruct (mergeKey_spec T k Hpos ds) as [[Hnone _]|(e & _ & Hm & Hmax)].
  - apply StronglySorted_merge_sort; apply _.
  - by rewrite (Hnone d (Hin d m Hd)) in Hd.
  - eexists. exists e. split; [exact Hm|]. intros d' m' Hm'. apply Hmax; [by eapply Hin|done].
Qed.

(** ** The difference *)

(** A mutation of the key by another device is newer than what was seen of it. *)
Definition unseen (T : gmap InstanceID Patch) (L : gmap InstanceID Time) (me : InstanceID) (k : string) : Prop :=
  exists d mu (t : Time), d ≠ me /\ mutation T d k = Some mu /\ L !! d = Some t /\ t < mt_Timestamp mu.

(** Patches know their device; every device has a time up to which it was read. *)
Record tracked (T : gmap InstanceID Patch) (L : gmap InstanceID Time) : Prop := {
  tr_id d p : T !! d = Some p -> p_myID p = d;
  tr_read d : is_Some (T !! d) -> exists t : Time, L !! d = Some t /\ int64 t;
  tr_pos d k m : mutation T d k = Some m -> 0 <= mt_Timestamp m;
}.

Section diff.
Context (keyOrder : gmap string Mutate -> list string) `{!MapOrder keyOrder}
        (deviceOrder : gmap InstanceID Patch -> list InstanceID) `{!MapOrder deviceOrder}.
Context (T : gmap InstanceID Patch) (L : gmap InstanceID Time) (me : InstanceID) (own : Patch).
Hypothesis (Htr : tracked T L) (Hown : T !! me = Some own).

Abbreviation devices := (merge_sort supremacy (deviceOrder T)).

Lemma elem_of_devices d : d ∈ devices <-> is_Some (T !! d).
Proof. rewrite merge_sort_Permutation. apply map_order_elem. Qed.

Lemma device_tracked d : d ∈ devices -> exists p (t : Time), T !! d = Some p /\ p_myID p = d /\ L !! d = Some t /\ int64 t.
Proof.
  intros [p Hp]%elem_of_devices. destruct (tr_read _ _ Htr d) as (t & Ht & Hr); [by exists p|].
  exists p, t. split_and!; [done|by eapply tr_id|done|done].
Qed.

Lemma mutation_device d k m : mutation T d k = Some m -> d ∈ devices.
Proof. rewrite elem_of_devices. unfold mutation. by destruct (T !! d). Qed.

(** What the merge of all devices gives for a key some device has changed. *)
Lemma merge_winner k d m : mutation T d k = Some m -> winner T k (mergeKey (patchOf T <$> devices) k).
Proof.
  intros Hd. destruct (mergeKey_spec T k (fun d m => tr_pos _ _ Htr d k m) devices) as [[Hnone _]|(e & _ & Hm & Hmax)].
  - apply StronglySorted_merge_sort; apply _.
  - rewrite Hnone in Hd; [done|]. by eapply mutation_device.
  - exists e. split; [done|]. intros d' m' Hm'. apply Hmax; [by eapply mutation_device|done].
Qed.

Abbreviation lastOf d := (default zeroTime (L !! d)).

Lemma updated_unseen k : updated own (patchOf T <$> devices) ((fun d => lastOf d) <$> devices) k <-> unseen T L me k.
Proof.
  assert (p_myID own = me) as Hme by by eapply tr_id. unfold updated, unseen. split.
  - intros (i & q & t & mu & Hq & Hne & Ht & Hmu & Hlt).
    apply list_lookup_fmap_Some in Hq as (d & -> & Hd). apply list_lookup_fmap_Some in Ht as (d' & -> & Hd'). simplify_eq.
    destruct (device_tracked d) as (p & t & Hp & Hid & Ht & _); [by eapply list_elem_of_lookup_2|].
    unfold patchOf in Hmu, Hne. rewrite Hp in Hmu, Hne. cbv beta in Hlt. rewrite Ht in Hlt. simpl in Hmu, Hne, Hlt.
    exists d, mu, t. unfold mutation. rewrite Hp. split_and!; [congruence|done|done|done].
  - intros (d & mu & t & Hne & Hmu & Ht & Hlt). pose proof (mutation_device _ _ _ Hmu) as [i Hi]%list_elem_of_lookup.
    unfold mutation in Hmu. destruct (T !! d) as [p|] eqn:Ep; [|done].
    exists i, p, t, mu. rewrite !list_lookup_fmap. rewrite !Hi. simpl. unfold patchOf. rewrite Ep, Ht. simpl.
    split_and!; [done| |done|done|done]. rewrite Hme. by rewrite (tr_id _ _ Htr d p Ep).
Qed.

Lemma Diff_spec : exists ups new,
  Patch_Diff keyOrder own (prepareDiff deviceOrder T L).1.2 (prepareDiff deviceOrder T L).2 = Ok (ups, new) /\
  (forall k m, ups !! k = Some m <-> unseen T L me k /\ winner T k m) /\
  Forall2 (fun d n => d ≠ me -> forall (t : Time) p, L !! d = Some t -> T !! d = Some p -> newest t (p_keys p) n) devices new.
Proof.
  unfold prepareDiff. cbv zeta. cbn [fst snd].
  change (fun d => default (newPatch d) (T !! d)) with (patchOf T).
  assert (Forall int64 ((fun d => lastOf d) <$> devices)) as Hseen.
  { apply Forall_fmap, list.Forall_forall. intros d Hd. destruct (device_tracked d Hd) as (p & t & _ & _ & Ht & Hr).
    change (int64 (lastOf d)). by rewrite Ht. }
  destruct (findKeysLoop_spec keyOrder own (patchOf T <$> devices) ((fun d => lastOf d) <$> devices) [] ∅ ltac:(by rewrite !length_fmap) Hseen)
    as (keys & new & Hrun & Hkeys & Hnew).
  unfold Patch_Diff, findKeysWithUpdates. change (Z.of_nat (length [])) with 0 in Hrun. cbn [app] in Hrun. rewrite Hrun. simpl.
  eexists _, _. split_and!; [done| |].
  - intros k m. unfold buildMerge. rewrite lookup_set_to_map by done. setoid_rewrite Hkeys. setoid_rewrite updated_unseen.
    assert (unseen T L me k -> winner T k (mergeKey (patchOf T <$> devices) k)) as Hw.
    { intros (d & mu & t & _ & Hmu & _). by eapply merge_winner. }
    split.
    + intros (k' & [?|Hun] & [= <- <-]); [set_solver|]. split; [done|]. by apply Hw.
    + intros [Hun Hm]. exists k. split; [by right|]. f_equal. eapply winner_unique; [by apply Hw|done].
  - assert (p_myID own = me) as Hme by by eapply tr_id. pose proof device_tracked as Hdev. clear -Hnew Hdev Hme.
    revert new Hnew Hdev. generalize devices. intros ds.
    induction ds as [|d ds IH]; intros new Hnew Hdev; simpl in Hnew; [by inversion Hnew|].
    inversion Hnew as [|? n ? new' Hn Hrest]; simplify_eq. constructor.
    + intros Hne t p Ht Hp. unfold patchOf in Hn. rewrite Hp, Ht in Hn. simpl in Hn. apply Hn.
      destruct (Hdev d) as (p' & _ & Hp' & Hid & _); [by left|]. congruence.
    + apply IH; [done|]. intros d' Hd'. apply Hdev. by right.
Qed.
End diff.
