(* ===== verification/Instances.v ===== *)
(** * Instances of a client

    The text form of an [InstanceID] and its storage: [collective/instanceID.go]
    and [getOrInitDeviceID] of [synckv.go]. *)

From Stdlib Require Import Ascii.
From S2P Require Import Prelude GoBytes KV Base64 Base64Raw Effects ByteKV Json Patch.

Definition InstanceID_String (i : InstanceID) : string :=
  String.string_of_list_ascii (rawEncode rawURLAlphabet (iid_bytes i)).

Definition InstanceID_MarshalText (i : InstanceID) : list byte := bytes_of_chars (chars (InstanceID_String i)).

(** The strict decoder writes groups of three bytes into the eight of the
    instance: a third full group of digits is out of range. *)
Definition InstanceID_UnmarshalText (text : list byte) : result InstanceID :=
  let s := List.filter (fun c => negb (isLineBreak c)) (chars_of_bytes text) in
  if (12 <=? length s)%nat && forallb (fun c => bool_decide (is_Some (rawValue rawURLAlphabet c))) (take 12 s) then Panic
  else
    match rawDecode rawURLAlphabet true s with
    | None => Err (Errorf "illegal base64 data at input byte" [])
    | Some bs =>
        match checkSize (length bs) with
        | None => Ok (iid_of bs)
        | Some e => Err e
        end
    end.

Definition NewInstanceIDFromString (idStr : string) : result InstanceID :=
  match rawDecode rawURLAlphabet true (chars idStr) with
  | Some bytes => NewInstanceIDFromBytes bytes
  | None => Err (Errorf "illegal base64 data at input byte" [])
  end.

(** The argument is what [Read] returns. *)
Definition NewRandomInstanceID (csprng : nat * list byte * option error) : result InstanceID :=
  let '(n, instanceIDBytes, err) := csprng in
  if negb (n =? instanceIDLength)%nat then Err (Errorf "short read generating instance ID" [])
  else match err with
  | None => Ok (iid_of instanceIDBytes)
  | Some e => Err e
  end.

Definition instanceIDKey : string := "ThisInstanceID".
Definition ErrInstanceIDAlreadyInitialized : error :=
  Errorf "instanceID already initialized, cannot do a second instanceID" [].

Section code.
Context {S : Type} `{ByteKV S}.

Definition InitInstanceID (rng : nat * list byte * option error) : act S InstanceID := fun s =>
  match bk_GetBytes s instanceIDKey with
  | inr _ => Fail s ErrInstanceIDAlreadyInitialized
  | inl e =>
      if bk_Exists S e then Fail s e
      else (instanceID ← pureResult (NewRandomInstanceID rng);
            _ ← setBytes instanceIDKey (InstanceID_MarshalText instanceID);
            mret instanceID) s
  end.

Definition GetInstanceID : act S InstanceID :=
  instanceIDBytes ← getBytes instanceIDKey;
  pureResult (InstanceID_UnmarshalText instanceIDBytes).

Definition IsLocalInstanceID (expected : InstanceID) : act S bool :=
  storedInstanceID ← GetInstanceID;
  mret (InstanceID_Equals storedInstanceID expected).

Definition getOrInitDeviceID (rng : nat * list byte * option error) : act S InstanceID := fun s =>
  match GetInstanceID s with
  | Fail s e => if bk_Exists S e then Fail s e else InitInstanceID rng s
  | o => o
  end.
End code.

(** ** Round trips *)

Lemma String_chars i : chars (InstanceID_String i) = rawEncode rawURLAlphabet (iid_bytes i).
Proof. apply String.list_ascii_of_string_of_list_ascii. Qed.

Lemma NewInstanceIDFromString_String i : NewInstanceIDFromString (InstanceID_String i) = Ok i.
Proof.
  unfold NewInstanceIDFromString. rewrite String_chars, rawDecode_encode by apply _.
  unfold NewInstanceIDFromBytes, checkSize. rewrite iid_length. simpl. by rewrite iid_of_bytes.
Qed.

Lemma InstanceID_String_inj i j : InstanceID_String i = InstanceID_String j -> i = j.
Proof. intros Heq. apply (f_equal NewInstanceIDFromString) in Heq. rewrite !NewInstanceIDFromString_String in Heq. by simplify_eq. Qed.

Lemma String_no_breaks i :
  List.filter (fun c => negb (isLineBreak c)) (rawEncode rawURLAlphabet (iid_bytes i)) = rawEncode rawURLAlphabet (iid_bytes i).
Proof.
  apply forallb_filter_id, forallb_forall. intros c Hc%list_elem_of_In%(rawEncode_chars _).
  destruct (raw_alphabet (alphabet := rawURLAlphabet)) as (_ & _ & Hall). rewrite forallb_forall in Hall. apply Hall. by apply list_elem_of_In.
Qed.

Lemma InstanceID_UnmarshalText_Marshal i : InstanceID_UnmarshalText (InstanceID_MarshalText i) = Ok i.
Proof.
  unfold InstanceID_UnmarshalText, InstanceID_MarshalText. rewrite chars_of_bytes_of_chars, String_chars, String_no_breaks.
  rewrite length_rawEncode, iid_length by apply _. change (12 <=? rawEncodedLen 8)%nat with false. cbn [andb].
  rewrite rawDecode_encode by apply _. unfold checkSize. rewrite iid_length. simpl. by rewrite iid_of_bytes.
Qed.

(** The identity is made once: the first start stores it, later ones read it. *)
Theorem getOrInitDeviceID_stable {S} `{ByteKVLaws S, !ByteKVReliable S} (s : S) e bytes rng :
  bk_GetBytes s instanceIDKey = inl e -> bk_Exists S e = false ->
  exists s', getOrInitDeviceID (8%nat, bytes, None) s = Done s' (iid_of bytes) /\
    getOrInitDeviceID rng s' = Done s' (iid_of bytes) /\
    InitInstanceID rng s' = Fail s' ErrInstanceIDAlreadyInitialized.
Proof.
  intros Hget He. destruct (setBytes_Done s instanceIDKey (InstanceID_MarshalText (iid_of bytes))) as (s' & Hset & Hs').
  exists s'. specialize (Hs' instanceIDKey). rewrite decide_True in Hs' by done. split_and!.
  - unfold getOrInitDeviceID, GetInstanceID. unfold mbind, act_bind, getBytes, read. rewrite Hget, He.
    unfold InitInstanceID. rewrite Hget, He. simpl. unfold mbind, act_bind. simpl. by rewrite Hset.
  - unfold getOrInitDeviceID, GetInstanceID. unfold mbind, act_bind.
    by rewrite (getBytes_stored _ _ _ Hs'), InstanceID_UnmarshalText_Marshal.
  - unfold InitInstanceID. unfold stored in Hs'. by destruct (bk_GetBytes s' instanceIDKey).
Qed.
