(* ===== verification/TxFile.v ===== *)
(** * Files of the collective store

    [collective/file.go] and [crypto.go], the serialisation of [patches.go], the
    paths of [transactionLog.go] and [handleIncomingFile] of [collector.go]: how
    a patch is written to the remote store and read back.  The cipher
    (XChaCha20-Poly1305) is the class [AEAD]. *)

From Stdlib Require Import Ascii.
From S2P Require Import Prelude GoBytes KV Base64 Base64Raw Json CommandStore Patch Instances.

(** ** Encryption *)

(** [chacha20poly1305.NewX] with the key derived from a secret. *)
Class AEAD := {
  aead_Seal : list byte -> list byte -> list byte -> list byte;          (* secret, nonce, data *)
  aead_Open : list byte -> list byte -> list byte -> option (list byte);
}.
Class AEADLaws `{AEAD} : Prop := {
  aead_open_seal secret nonce data : aead_Open secret nonce (aead_Seal secret nonce data) = Some data;
  aead_seal_tag secret nonce data : aead_Seal secret nonce data ≠ [];
}.

Definition nonceSize : nat := 24.

Section crypto.
Context `{AEAD} `{CMixHash}.

(** [nonce] is read from the random number generator. *)
Definition encrypt (data secret nonce : list byte) : list byte := nonce ++ aead_Seal secret nonce data.

Definition decrypt (data secret : list byte) : result (list byte) :=
  if Z.of_nat (length data) - Z.of_nat nonceSize <=? 0 then Err (Errorf "Read %d bytes, too short to decrypt" [Z.of_nat (length data)])
  else match aead_Open secret (take nonceSize data) (drop nonceSize data) with
  | Some plaintext => Ok plaintext
  | None => Err (Wrapf "Cannot decrypt with secret!" [] (Errorf "chacha20poly1305: message authentication failed" []))
  end.

Definition keyID (secret : list byte) (deviceID : InstanceID) : string :=
  String.string_of_list_ascii (rawEncode rawURLAlphabet (cMixHash (secret ++ iid_bytes deviceID))).
End crypto.

(** ** The header *)

Record header := mkHeader {
  h_Version : Z;               (* uint16 *)
  h_DeviceID : InstanceID;
}.

Definition headerVersion : Z := 0.
Definition newHeader (deviceID : InstanceID) : header := mkHeader headerVersion deviceID.

Definition xxdkTxLogHeader : string := "XXDKTXLOGHDR".

Definition header_json (h : header) : json :=
  JObj [(chars "version", encodeUint (h_Version h)); (chars "device", JStr (chars (InstanceID_String (h_DeviceID h))))].

(** One member of the object; a panic of the identity's decoder is one of the
    whole, unknown names are skipped. *)
Definition header_set (h : header) (name : list ascii) (v : json) : result header :=
  if fieldEq "version" name then
    match decodeUint 16 (h_Version h) v with
    | Some n => Ok (mkHeader n (h_DeviceID h))
    | None => Err (Errorf "json" [])
    end
  else if fieldEq "device" name then
    match v with
    | JStr s => d ← InstanceID_UnmarshalText (bytes_of_chars s); Ok (mkHeader (h_Version h) d)
    | JNull => Ok h
    | _ => Err (Errorf "json" [])
    end
  else Ok h.

Fixpoint header_members (h : header) (l : list (list ascii * json)) : result header :=
  match l with
  | [] => Ok h
  | (name, v) :: l => h ← header_set h name v; header_members h l
  end.

Definition header_Unmarshal (data : list byte) : result header :=
  let zero := mkHeader 0 (iid_of []) in
  match unmarshalText data with
  | Some (JObj l) => header_members zero l
  | Some JNull => Ok zero
  | _ => Err (Errorf "json" [])
  end.

Definition header_serialize (h : header) : list byte := bytes_of_chars (chars xxdkTxLogHeader) ++ marshalText (header_json h).

Definition deserializeHeader (headerSerial : list byte) : result header :=
  let p := bytes_of_chars (chars xxdkTxLogHeader) in
  if negb (bool_decide (take (length p) headerSerial = p)) then Err (Errorf "unexpected data in serialized header" [])
  else wrap_err "failed to unmarshal header json: %+v" [] (header_Unmarshal (drop (length p) headerSerial)).

(** ** The file *)

Definition newline : byte := x0a.
Definition carriageReturn : byte := x0d.

Definition buildFile (h : header) (ecrBody : list byte) : list byte :=
  header_serialize h ++ [newline] ++ bytes_of_chars (rawEncode rawStdAlphabet ecrBody).

(** The size of the buffer of [bufio.NewReader]. *)
Definition bufioSize : nat := 4096.

Definition dropLast (c : byte) (l : list byte) : list byte :=
  match list.last l with Some x => if decide (x = c) then removelast l else l | None => l end.

(** [ReadLine]: without the end of the line; a line longer than the buffer is
    cut. *)
Definition readLine (file : list byte) : result (list byte) :=
  match file with
  | [] => Err (Errorf "EOF" [])
  | _ =>
      let buf := take bufioSize file in
      match list_find (fun b => b = newline) buf with
      | Some (i, _) => Ok (dropLast carriageReturn (take i buf))
      | None => if (bufioSize <=? length file)%nat then Ok (dropLast carriageReturn buf) else Ok file
      end
  end.

Definition decodeFile (file : list byte) : result (header * list byte) :=
  headerBytes ← readLine file;
  h ← deserializeHeader headerBytes;
  if (length headerBytes + 1 <=? length file)%nat then
    let ecrBody := drop (length headerBytes + 1) file in
    match rawDecode rawStdAlphabet false (chars_of_bytes ecrBody) with
    | Some bdy => Ok (h, array_of (rawDecodedLen (length ecrBody)) bdy)
    | None => Err (Errorf "illegal base64 data at input byte" [])
    end
  else Panic.

(** ** Patches in files *)

Section patch.
Context `{JsonCodec (gmap string Mutate)} `{AEAD}.

Definition Patch_Serialize (p : Patch) : list byte := json_Marshal (p_keys p).

(** [json.Unmarshal] adds to the map. *)
Definition Patch_Deserialize (p : Patch) (b : list byte) : result Patch :=
  match json_Unmarshal b with
  | Some keys => Ok (mkPatch (p_myID p) (keys ∪ p_keys p))
  | None => Err (Errorf "json" [])
  end.

Definition handleIncomingFile (deviceID : InstanceID) (patchFile secret : list byte) : result (header * Patch) :=
  '(h, ecrPatchBytes) ← wrap_err "failed to decode the file" [] (decodeFile patchFile);
  patchBytes ← wrap_err "failed to decrypt the patch" [] (decrypt ecrPatchBytes secret);
  patch ← wrap_err "failed to decode the patch from file" [] (Patch_Deserialize (newPatch deviceID) patchBytes);
  Ok (h, patch).

(** The file a device writes. *)
Definition patchFile (p : Patch) (secret nonce : list byte) : list byte :=
  buildFile (newHeader (p_myID p)) (encrypt (Patch_Serialize p) secret nonce).
End patch.

(** ** Round trip *)

Lemma rawURL_plain c : c ∈ rawURLAlphabet -> escapeChar c = [c] /\ c ≠ ascii_of_byte newline /\ ascii7 c.
Proof.
  assert (Forall (fun c => escapeChar c = [c] /\ c ≠ ascii_of_byte newline /\ ascii7 c) rawURLAlphabet) as Hall.
  { unfold ascii7. by apply (bool_decide_unpack _); vm_compute. }
  rewrite list.Forall_forall in Hall. apply Hall.
Qed.

Lemma String_plain d : Forall (fun c => escapeChar c = [c] /\ c ≠ ascii_of_byte newline /\ ascii7 c) (chars (InstanceID_String d)).
Proof. apply list.Forall_forall. intros c. rewrite String_chars. intros Hc%(rawEncode_chars _). by apply rawURL_plain. Qed.

(** The parts of a header around the identity. *)
Definition headerPre : list ascii :=
  chars xxdkTxLogHeader ++ ["{"%char] ++ printString (chars "version") ++ [":"; "0"; ","]%char ++
  printString (chars "device") ++ [":"%char; dq].
Definition headerPost : list ascii := [dq; "}"%char].

Lemma header_text d :
  header_serialize (newHeader d) = bytes_of_chars (headerPre ++ chars (InstanceID_String d) ++ headerPost).
Proof.
  unfold header_serialize, marshalText. unfold bytes_of_chars. rewrite <- fmap_app. f_equal.
  assert (printString (chars (InstanceID_String d)) = [dq] ++ chars (InstanceID_String d) ++ [dq]) as Hstr.
  { unfold printString. do 2 f_equal. pose proof (String_plain d) as Hp.
    induction Hp as [|c l (Hc & _) _ IH]; [done|]. rewrite fmap_cons. simpl. by rewrite Hc, IH. }
  unfold header_json. cbn [printJson h_DeviceID h_Version newHeader]. rewrite Hstr.
  unfold headerPre, headerPost. change (printJson (encodeUint headerVersion)) with ["0"%char].
  rewrite <- !app_assoc. reflexivity.
Qed.

Lemma header_no_newline d : newline ∉ header_serialize (newHeader d).
Proof.
  rewrite header_text. unfold bytes_of_chars. intros (c & Hc & Hin)%list_elem_of_fmap.
  assert (c = ascii_of_byte newline) as Hc' by (rewrite Hc; by rewrite ascii_of_byte_of_ascii). clear Hc.
  rewrite !elem_of_app in Hin. destruct Hin as [Hin|[Hin|Hin]].
  - rewrite Hc' in Hin. revert Hin. by apply (bool_decide_unpack (¬ (ascii_of_byte newline ∈ headerPre))); vm_compute.
  - pose proof (String_plain d) as Hp. rewrite list.Forall_forall in Hp. by apply (Hp c Hin).
  - rewrite Hc' in Hin. revert Hin. by apply (bool_decide_unpack (¬ (ascii_of_byte newline ∈ headerPost))); vm_compute.
Qed.

Lemma header_length d : length (header_serialize (newHeader d)) = 48%nat.
Proof.
  rewrite header_text. unfold bytes_of_chars. rewrite length_fmap, !length_app, String_chars.
  rewrite length_rawEncode, iid_length by apply _. done.
Qed.

Lemma readLine_header d rest :
  readLine (header_serialize (newHeader d) ++ newline :: rest) = Ok (header_serialize (newHeader d)).
Proof.
  pose proof (header_length d) as Hlen. pose proof (header_no_newline d) as Hno.
  assert (list.last (header_serialize (newHeader d)) = Some x7d) as Hlast.
  { rewrite header_text. unfold bytes_of_chars. rewrite !fmap_app, app_assoc, last_app. done. }
  set (hd := header_serialize (newHeader d)) in *. unfold readLine.
  destruct (hd ++ newline :: rest) as [|b l] eqn:E; [by destruct hd|]. rewrite <- E. clear E b l.
  assert (take bufioSize (hd ++ newline :: rest) = hd ++ newline :: take (bufioSize - 49) rest) as ->.
  { rewrite take_app_ge by (rewrite Hlen; unfold bufioSize; lia). rewrite Hlen. unfold bufioSize.
    change (4096 - 48)%nat with (Datatypes.S (4096 - 49)). done. }
  assert (list_find (fun b => b = newline) (hd ++ newline :: take (bufioSize - 49) rest) = Some (length hd, newline)) as ->.
  { apply list_find_Some. split_and!; [by rewrite list_lookup_middle|done|]. intros j y Hj Hlt ->.
    rewrite lookup_app_l in Hj by done. by apply Hno, (list_elem_of_lookup_2 _ j). }
  rewrite take_app_length. unfold dropLast. rewrite Hlast. by rewrite decide_False.
Qed.

Lemma deserialize_serialize d : deserializeHeader (header_serialize (newHeader d)) = Ok (newHeader d).
Proof.
  unfold deserializeHeader, header_serialize. rewrite take_app_length. rewrite bool_decide_true by done. cbn [negb].
  rewrite drop_app_length. unfold header_Unmarshal. rewrite unmarshalText_marshalText.
  - unfold header_json. cbn [header_members]. unfold header_set. json_fields.
    unfold newHeader. cbn [h_Version h_DeviceID]. rewrite decode_encodeUint by (unfold is_u, headerVersion; lia). cbn [mbind result_bind].
    change (bytes_of_chars (chars (InstanceID_String d))) with (InstanceID_MarshalText d).
    rewrite InstanceID_UnmarshalText_Marshal. done.
  - unfold header_json. json_wf; [unfold newHeader, headerVersion; simpl; lia|].
    eapply List.Forall_impl; [|apply String_plain]. intros c (_ & _ & ?). done.
Qed.

Lemma decodeFile_parts hb h body :
  let file := hb ++ newline :: bytes_of_chars (rawEncode rawStdAlphabet body) in
  readLine file = Ok hb -> deserializeHeader hb = Ok h -> decodeFile file = Ok (h, body).
Proof.
  intros file Hline Hh. unfold decodeFile. rewrite Hline. cbn [mbind result_bind]. rewrite Hh. cbn [mbind result_bind].
  rewrite (proj2 (Nat.leb_le _ _)) by (unfold file; rewrite length_app; simpl; lia).
  assert (drop (length hb + 1) file = bytes_of_chars (rawEncode rawStdAlphabet body)) as ->.
  { unfold file. rewrite drop_app_ge by lia. by replace (_ + 1 - _)%nat with 1%nat by lia. }
  rewrite chars_of_bytes_of_chars, rawDecode_encode by apply _. unfold bytes_of_chars. rewrite length_fmap, rawDecodedLen_encode by apply _.
  by rewrite array_of_id.
Qed.

Lemma decodeFile_build d body : decodeFile (buildFile (newHeader d) body) = Ok (newHeader d, body).
Proof. apply decodeFile_parts; [apply readLine_header|apply deserialize_serialize]. Qed.

Section roundtrip.
Context `{JsonCodec (gmap string Mutate)} `{AEADLaws}.

(** What a device writes to the remote store, another reads: the whole patch. *)
Lemma file_roundtrip p secret nonce :
  json_ok (p_keys p) -> length nonce = 24%nat ->
  handleIncomingFile (p_myID p) (patchFile p secret nonce) secret = Ok (newHeader (p_myID p), p).
Proof.
  intros Hjson Hlen. unfold handleIncomingFile, patchFile. rewrite decodeFile_build. cbn [wrap_err mbind result_bind].
  unfold decrypt, encrypt.
  assert (0 < length (aead_Seal secret nonce (Patch_Serialize p)))%nat as Hpos.
  { pose proof (aead_seal_tag secret nonce (Patch_Serialize p)). destruct (aead_Seal _ _ _); [done|simpl; lia]. }
  rewrite length_app, Hlen. unfold nonceSize. rewrite (proj2 (Z.leb_gt _ _)) by lia.
  rewrite take_app_length', drop_app_length' by done. rewrite aead_open_seal. cbn [wrap_err mbind result_bind].
  unfold Patch_Deserialize, Patch_Serialize. rewrite json_roundtrip by done. cbn [wrap_err mbind result_bind newPatch p_keys p_myID].
  rewrite map_union_empty. by destruct p.
Qed.
End roundtrip.
