(* ===== verification/RemoteWriter.v ===== *)
(** * The transaction log

    [collective/transactionLog.go] and [mutateBuffer.go]: a write of a
    synchronised key changes the local store and a buffer element in one
    transaction and is queued; a thread adds queued mutations to the patch of
    the device, stores the patch and uploads it.

    The read lock a write takes is released when its mutation is in the patch,
    so the queue is empty whenever the collector holds the lock.  A write is one
    step here: its transaction and its place in the queue. *)

From Stdlib Require Import Ascii.
From S2P Require Import Prelude GoBytes KV Json Effects ByteKV MapSyntax CommandStore Patch Instances TxFile.

(** ** Paths *)

(** The elements of a path between slashes. *)
Fixpoint splitSlash (s : list ascii) : list (list ascii) :=
  match s with
  | [] => [[]]
  | c :: s =>
      if Ascii.eqb c "/" then [] :: splitSlash s
      else match splitSlash s with
           | e :: es => (c :: e) :: es
           | [] => [[c]]
           end
  end.

Fixpoint joinSlash (es : list (list ascii)) : list ascii :=
  match es with
  | [] => []
  | [e] => e
  | e :: es => e ++ "/"%char :: joinSlash es
  end.

(** One element of [filepath.Clean]; the elements kept so far are in reverse. *)
Definition cleanStep (rooted : bool) (out : list (list ascii)) (e : list ascii) : list (list ascii) :=
  if bool_decide (e = []) || bool_decide (e = ["."%char]) then out
  else if bool_decide (e = ["."; "."]%char) then
    match out with
    | o :: out' => if bool_decide (o = ["."; "."]%char) then e :: out else out'
    | [] => if rooted then [] else [e]
    end
  else e :: out.

Definition pathClean (p : list ascii) : list ascii :=
  let rooted := match p with c :: _ => Ascii.eqb c "/" | [] => false end in
  let body := joinSlash (rev (foldl (cleanStep rooted) [] (splitSlash p))) in
  if rooted then "/"%char :: body else if bool_decide (body = []) then ["."%char] else body.

(** [filepath.Join] of two elements. *)
Definition pathJoin (a b : string) : string :=
  String.string_of_list_ascii
    match chars a, chars b with
    | [], [] => []
    | [], b => pathClean b
    | a, [] => pathClean a
    | a, b => pathClean (a ++ "/"%char :: b)
    end.

Definition getTxLogPath (syncPath keyID : string) (deviceID : InstanceID) : string :=
  pathJoin syncPath (InstanceID_String deviceID +:+ "/" +:+ keyID +:+ "/state.xx").

(** ** The buffer of mutations *)

Definition buffElementKey : string := "⌛bufferElement_".
Definition bufferSize : Z := 1024.

Definition createElementKey (index : Z) : string := buffElementKey +:+ pretty index.

(** The variables of the loop of [loadBuffer]. *)
Record loadState := mkLoadState {
  lb_transactions : gmap Z (gmap string Mutate);
  lb_largestBucketSize : Z;
  lb_largestBucketStart : Z;
  lb_currentBucketSize : Z;
  lb_currentBucketStart : Z;
  lb_firstBucketStart : Z;
}.

Section buffer.
Context {S : Type} `{ByteKV S} `{JsonCodec (gmap string Mutate)}.

(** The mutations of a buffer element that can be read. *)
Definition bufferElement (s : S) (i : Z) : option (gmap string Mutate) :=
  match bk_GetBytes s (createElementKey i) with
  | inr data => json_Unmarshal data
  | inl _ => None
  end.

Definition loadStep (s : S) (l : loadState) (i : Z) : loadState :=
  match bufferElement s i with
  | None => mkLoadState (lb_transactions l) (lb_largestBucketSize l) (lb_largestBucketStart l)
              (lb_currentBucketSize l + 1) (lb_currentBucketStart l) (lb_firstBucketStart l)
  | Some mutates =>
      let larger := lb_currentBucketSize l >? lb_largestBucketSize l in
      mkLoadState (<[i := mutates]> (lb_transactions l))
        (if larger then lb_currentBucketSize l else lb_largestBucketSize l)
        (if larger then lb_currentBucketStart l else lb_largestBucketStart l)
        0 i
        (if lb_firstBucketStart l =? bufferSize then i else lb_firstBucketStart l)
  end.

Definition loadLoop (s : S) : loadState :=
  foldl (loadStep s) (mkLoadState ∅ 0 0 0 0 bufferSize) (seqZ 0 bufferSize).

(** The position the buffer starts at. *)
Definition bufferPosition (l : loadState) : Z :=
  if lb_firstBucketStart l =? bufferSize then 0
  else
    let size := if lb_currentBucketSize l + lb_currentBucketStart l =? bufferSize - 1
                then lb_currentBucketSize l + lb_firstBucketStart l else lb_currentBucketSize l in
    if size >? lb_largestBucketSize l then lb_currentBucketStart l else lb_largestBucketStart l.

Definition loadBuffer (s : S) : Z * gmap Z (gmap string Mutate) :=
  let l := loadLoop s in (bufferPosition l, lb_transactions l).
End buffer.

(** ** The log *)

Record txn := mkTxn {
  tx_Mutate : gmap string Mutate;
  tx_BuffIndex : Z;
}.

(** [rw_index] is the counter of the buffer, a [uint64]; [rw_adds] the channel. *)
Record remoteWriter := mkWriter {
  rw_path : string;
  rw_header : header;
  rw_state : Patch;
  rw_adds : list txn;
  rw_localWriteKey : string;
  rw_index : Z;
  rw_remoteUpToDate : bool;
  rw_uploadPeriod : Z;
}.

(** The local variables of [Runner]: the serialised patch, the timer. *)
Record runner := mkRunner {
  rn_serial : list byte;
  rn_timer : option Z;             (* the period of the timer when it runs *)
  rn_uploadPeriod : Z;
}.

Definition defaultUploadPeriod : Z := 5000000000.
Definition fiveMinutes : Z := 300000000000.

Definition makeLocalWriteKey (path : string) : string := "TransactionLog_" +:+ path.

Definition expBackoff (timeout : Z) : Z :=
  let timeout := Z.quot (i64 (timeout * 3)) 2 in if timeout >? fiveMinutes then fiveMinutes else timeout.

Definition rw_set_state (rw : remoteWriter) (p : Patch) (adds : list txn) : remoteWriter :=
  mkWriter (rw_path rw) (rw_header rw) p adds (rw_localWriteKey rw) (rw_index rw) (rw_remoteUpToDate rw) (rw_uploadPeriod rw).
Definition rw_push (rw : remoteWriter) (t : txn) : remoteWriter := rw_set_state rw (rw_state rw) (rw_adds rw ++ [t]).
Definition rw_set_index (rw : remoteWriter) (i : Z) : remoteWriter :=
  mkWriter (rw_path rw) (rw_header rw) (rw_state rw) (rw_adds rw) (rw_localWriteKey rw) i (rw_remoteUpToDate rw) (rw_uploadPeriod rw).
Definition rw_notify (rw : remoteWriter) (updatedRemote : bool) : remoteWriter :=
  mkWriter (rw_path rw) (rw_header rw) (rw_state rw) (rw_adds rw) (rw_localWriteKey rw) (rw_index rw) updatedRemote (rw_uploadPeriod rw).

(** [getMapFile]: the names of the elements of a map. *)
Definition getMapFile `{JsonCodec (gset string)} (data : option (list byte)) : error + gset string :=
  match data with
  | None => inr ∅
  | Some data => match json_Unmarshal data with Some mapSet => inr mapSet | None => inl (Errorf "json" []) end
  end.

Section writer.
Context {S : Type} `{ByteKV S} `{JsonCodec (gmap string Mutate)} `{JsonCodec (gset string)} `{AEAD} `{CMixHash}.
Context (bufferOrder : gmap Z (gmap string Mutate) -> list Z)
        (mutateOrder : gmap string Mutate -> list string)
        (elementOrder : gmap string (list byte) -> list string).

Definition newRemoteWriter (path : string) (deviceID : InstanceID) (secret : list byte) (s : S) : result remoteWriter :=
  let localWriteKey := makeLocalWriteKey path in
  state ← match bk_GetBytes s localWriteKey with
          | inr data => wrap_err "failed to deserialize log from local store at path %s: %+v" []
                          (Patch_Deserialize (newPatch deviceID) data)
          | inl _ => Ok (newPatch deviceID)
          end;
  let '(buffPos, remainingMutations) := loadBuffer s in
  let adds := omap (fun i => (fun m => mkTxn m i) <$> remainingMutations !! i) (bufferOrder remainingMutations) in
  Ok (mkWriter (getTxLogPath path (keyID secret deviceID) deviceID) (newHeader deviceID) state adds localWriteKey
        buffPos false defaultUploadPeriod).

(** [getIndex] *)
Definition rw_getIndex (rw : remoteWriter) : Z * remoteWriter :=
  let newVal := u64 (rw_index rw + 1) in
  (u64 (newVal - 1) mod bufferSize, rw_set_index rw newVal).

(** The operation and the buffer element in one transaction; then the queue. *)
Definition DoTransactionAndWriteToBuffer {A} (op : txnOp A) (keys : list string) (mutates : gmap string Mutate) :
    act (S * remoteWriter) (Z * A) := fun '(s, rw) =>
  let '(index, rw) := rw_getIndex rw in
  let mutateElementKey := createElementKey index in
  let opWrap : txnOp A := fun fs ext =>
    match op fs ext with
    | inl e => inl e
    | inr (fs, a) => inr (<[mutateElementKey := Some (json_Marshal mutates)]> fs, a)
    end in
  (a ← onStore (transaction (keys ++ [mutateElementKey]) opWrap); mret (index, a)) (s, rw).

Definition rw_transact {A} (op : txnOp A) (keys : list string) (mutates : gmap string Mutate) : act (S * remoteWriter) A :=
  '(buffIndex, a) ← DoTransactionAndWriteToBuffer op keys mutates;
  _ ← modify (fun '(s, rw) => (s, rw_push rw (mkTxn mutates buffIndex)));
  mret a.

(** The old data; none when the key did not exist. *)
Definition rw_Write (key : string) (value : list byte) (ts : Time) : act (S * remoteWriter) (option (list byte)) :=
  let m := mkMutate (UnixNano ts) value false in
  rw_transact (fun fs _ => inr (<[key := Some value]> fs, fileOf fs key)) [key] {[key := m]}.

Definition rw_Delete (key : string) (ts : Time) : act (S * remoteWriter) (option (list byte)) :=
  let m := mkMutate (UnixNano ts) [] true in
  rw_transact (fun fs _ => inr (<[key := None]> fs, fileOf fs key)) [key] {[key := m]}.

(** One edit of a map: the files, the names of its elements, the old values. *)
Definition mapEdit (key elementName : string) (mutate : Mutate) (acc : files * gset string * gmap string (option (list byte))) :
    files * gset string * gmap string (option (list byte)) :=
  let '(fs, mapSet, old) := acc in
  let old := <[elementName := fileOf fs key]> old in
  if mt_Deletion mutate then (<[key := None]> fs, mapSet ∖ {[elementName]}, old)
  else (<[key := Some (mt_Value mutate)]> fs, {[elementName]} ∪ mapSet, old).

Fixpoint mapEdits (names : gmap string string) (mutates : gmap string Mutate) (keys : list string)
    (acc : files * gset string * gmap string (option (list byte))) : files * gset string * gmap string (option (list byte)) :=
  match keys with
  | [] => acc
  | key :: keys =>
      mapEdits names mutates keys
        match mutates !! key with
        | Some mutate => mapEdit key (default EmptyString (names !! key)) mutate acc
        | None => acc
        end
  end.

(** The elements and deletions of [WriteMap] as mutations, and the names of
    their keys; a name that is in both is deleted. *)
Definition writeMutates (mapName : string) (elements : gmap string (list byte)) (toDelete : gset string) (ts : Time) :
    gmap string Mutate :=
  set_to_map (fun e => (MakeElementKey mapName e, mkMutate (UnixNano ts) [] true)) toDelete ∪
  kmap (MakeElementKey mapName) ((fun v => mkMutate (UnixNano ts) v false) <$> elements).
Definition keyConversions (mapName : string) (elements : gmap string (list byte)) (toDelete : gset string) : gmap string string :=
  set_to_map (fun e => (MakeElementKey mapName e, e)) (toDelete ∪ dom elements).

(** The operation: it edits the elements and the file of the map. *)
Definition mapOp (mapKey : string) (names : gmap string string) (mutates : gmap string Mutate) :
    txnOp (gmap string (option (list byte))) := fun fs _ =>
  match getMapFile (fileOf fs mapKey) with
  | inl e => inl e
  | inr mapSet =>
      let '(fs, mapSet, old) := mapEdits names mutates (mutateOrder mutates) (fs, mapSet, ∅) in
      inr (<[mapKey := Some (json_Marshal mapSet)]> fs, old)
  end.

Definition rw_WriteMap (mapName : string) (elements : gmap string (list byte)) (toDelete : gset string) (ts : Time) :
    act (S * remoteWriter) (gmap string (option (list byte))) :=
  let mutates := writeMutates mapName elements toDelete ts in
  let names := keyConversions mapName elements toDelete in
  let mapKey := MakeMapKey mapName in
  let keys := (MakeElementKey mapName <$> elementOrder elements) ++ (MakeElementKey mapName <$> base.elements toDelete) ++ [mapKey] in
  rw_transact (mapOp mapKey names mutates) keys mutates.
End writer.

(** ** The remote store *)

(** [RemoteStore], an interface of the application. *)
Class RemoteStore (R : Type) := {
  rs_Read : R -> string -> error + list byte;
  rs_Write : R -> string -> list byte -> R * option error;
  rs_GetLastModified : R -> string -> error + Time;
  rs_ReadDir : R -> string -> error + list string;
}.

Section run.
Context {S R : Type} `{ByteKV S} `{RemoteStore R} `{JsonCodec (gmap string Mutate)} `{AEAD}.

Definition startRunner (rw : remoteWriter) : runner := mkRunner (Patch_Serialize (rw_state rw)) (Some 1) (rw_uploadPeriod rw).

(** The mutations of a transaction, one per key, in any order. *)
Definition Patch_AddAll (p : Patch) (m : gmap string Mutate) : Patch := mkPatch (p_myID p) (m ∪ p_keys p).

(** [case t := <-rw.adds] *)
Definition runnerAdd : act (S * (remoteWriter * runner)) unit := fun '(s, (rw, rn)) =>
  match rw_adds rw with
  | [] => Done (s, (rw, rn)) tt
  | t :: adds =>
      let state := Patch_AddAll (rw_state rw) (tx_Mutate t) in
      let serial := Patch_Serialize state in
      match setBytes (rw_localWriteKey rw) serial s with
      | Done s _ =>
          match logged (deleteKey (createElementKey (tx_BuffIndex t))) s with
          | Done s _ =>
              let timer := match rn_timer rn with Some d => Some d | None => Some (rw_uploadPeriod rw) end in
              Done (s, (rw_set_state rw state adds, mkRunner serial timer (rn_uploadPeriod rn))) tt
          | _ => Crash
          end
      | _ => Crash
      end
  end.

(** [case <-timer.C] *)
Definition runnerTimer (secret nonce : list byte) : act (R * (remoteWriter * runner)) unit := fun '(r, (rw, rn)) =>
  let file := buildFile (rw_header rw) (encrypt (rn_serial rn) secret nonce) in
  match rs_Write r (rw_path rw) file with
  | (r, Some _) =>
      Done (r, (rw_notify rw false, mkRunner (rn_serial rn) (Some (rw_uploadPeriod rw)) (expBackoff (rn_uploadPeriod rn)))) tt
  | (r, None) => Done (r, (rw_notify rw true, mkRunner (rn_serial rn) None defaultUploadPeriod)) tt
  end.
End run.

(** ** Effects on the store *)

(** What a mutation leaves under its key. *)
Definition mutValue (m : Mutate) : option (list byte) := if mt_Deletion m then None else Some (mt_Value m).

(** The store after mutations of several keys. *)
Definition applied (st : string -> option (list byte)) (mutates : gmap string Mutate) (k : string) : option (list byte) :=
  match mutates !! k with Some m => mutValue m | None => st k end.

(** The elements of a map after mutations of it. *)
Definition editedSet (mapName : string) (mutates : gmap string Mutate) (mapSet mapSet' : gset string) : Prop :=
  forall e, e ∈ mapSet' <-> match mutates !! MakeElementKey mapName e with
                           | Some m => mt_Deletion m = false
                           | None => e ∈ mapSet
                           end.

Lemma decide_skip {A} (k key : string) keys (a b : A) : k ≠ key ->
  (if decide (k ∈ key :: keys) then a else b) = if decide (k ∈ keys) then a else b.
Proof.
  intros Hne. destruct (decide (k ∈ keys)) as [Hin|Hnin]; [rewrite decide_True by (by right); done|].
  rewrite decide_False; [done|]. by intros [?|?]%elem_of_cons.
Qed.

Lemma decide_here {A} (key : string) keys (a b : A) : (if decide (key ∈ key :: keys) then a else b) = a.
Proof. rewrite decide_True; [done|by left]. Qed.

Lemma mapEdits_spec mapName names mutates keys fs mapSet old fs' mapSet' old' :
  NoDup keys -> (forall key, key ∈ keys -> exists e, key = MakeElementKey mapName e /\ names !! key = Some e) ->
  mapEdits names mutates keys (fs, mapSet, old) = (fs', mapSet', old') ->
  (forall k, fileOf fs' k = match (if decide (k ∈ keys) then mutates !! k else None) with
                            | Some m => mutValue m | None => fileOf fs k end) /\
  (forall e, e ∈ mapSet' <-> match (if decide (MakeElementKey mapName e ∈ keys) then mutates !! MakeElementKey mapName e else None) with
                            | Some m => mt_Deletion m = false | None => e ∈ mapSet end).
Proof.
  revert fs mapSet old. induction keys as [|key keys IH]; intros fs mapSet old Hnd Hnames; cbn [mapEdits].
  { intros [= <- <- <-]. by split. }
  apply list.NoDup_cons in Hnd as [Hnin Hnd]. intros Hrun.
  destruct (Hnames key) as (e0 & Hkey & He0); [by left|].
  set (fs1 := match mutates !! key with Some m => <[key := mutValue m]> fs | None => fs end).
  set (set1 := match mutates !! key with Some m => if mt_Deletion m then mapSet ∖ {[e0]} else {[e0]} ∪ mapSet | None => mapSet end).
  assert (exists old1, mapEdits names mutates keys (fs1, set1, old1) = (fs', mapSet', old')) as (old1 & Hrun').
  { unfold fs1, set1, mutValue. destruct (mutates !! key) as [m|]; [|eauto]. rewrite He0 in Hrun. simpl in Hrun.
    unfold mapEdit in Hrun. destruct (mt_Deletion m); eauto. }
  destruct (IH fs1 set1 old1 Hnd) as [Hf Hs]; [intros; apply Hnames; by right|done|]. split.
  - intros k. rewrite Hf. destruct (decide (k = key)) as [->|Hne].
    + rewrite decide_here, decide_False by done. unfold fs1. destruct (mutates !! key); [|done].
      by rewrite fileOf_insert, decide_True.
    + rewrite decide_skip by done. destruct (if decide _ then _ else _); [done|]. unfold fs1.
      destruct (mutates !! key); [|done]. by rewrite fileOf_insert, decide_False.
  - intros e. rewrite Hs. destruct (decide (MakeElementKey mapName e = key)) as [Heq|Hne].
    + assert (e = e0) as -> by (apply (inj (MakeElementKey mapName)); congruence). rewrite Heq.
      rewrite decide_here, decide_False by done. unfold set1. destruct (mutates !! key) as [m|]; [|done].
      destruct (mt_Deletion m); set_solver.
    + rewrite decide_skip by done. assert (e ≠ e0) by congruence. destruct (if decide _ then _ else _); [done|]. unfold set1.
      destruct (mutates !! key) as [m|]; [|done]. destruct (mt_Deletion m); set_solver.
Qed.

Lemma lookup_writeMutates mapName elements toDelete ts e :
  writeMutates mapName elements toDelete ts !! MakeElementKey mapName e =
    if decide (e ∈ toDelete) then Some (mkMutate (UnixNano ts) [] true)
    else (fun v => mkMutate (UnixNano ts) v false) <$> elements !! e.
Proof.
  unfold writeMutates. case_decide as He.
  - apply lookup_union_Some_l. apply lookup_set_to_map; [intros ???? [= ?%(inj _)]; done|]. by exists e.
  - rewrite lookup_union_r.
    + rewrite lookup_kmap by apply _. by rewrite lookup_fmap.
    + apply eq_None_not_Some. intros [m Hm]. apply lookup_set_to_map in Hm as (e' & He' & [= Heq%(inj _) _]); [by subst|].
      intros ???? [= ?%(inj _)]; done.
Qed.

Lemma writeMutates_element mapName elements toDelete ts k :
  is_Some (writeMutates mapName elements toDelete ts !! k) -> exists e, k = MakeElementKey mapName e /\
    e ∈ toDelete ∪ dom elements.
Proof.
  unfold writeMutates. intros [m [Hm|[_ Hm]]%lookup_union_Some_raw].
  - apply lookup_set_to_map in Hm as (e & He & [= <- _]); [|intros ???? [= ?%(inj _)]; done]. exists e. set_solver.
  - apply lookup_kmap_Some in Hm as (e & -> & He); [|apply _]. exists e. split; [done|].
    rewrite lookup_fmap in He. apply elem_of_union. right. apply elem_of_dom. by destruct (elements !! e).
Qed.

Lemma keyConversions_lookup mapName elements toDelete e : e ∈ toDelete ∪ dom elements ->
  keyConversions mapName elements toDelete !! MakeElementKey mapName e = Some e.
Proof. intros He. apply lookup_set_to_map; [intros ???? [= ?%(inj _)]; done|]. by exists e. Qed.

(** The names JSON represents (those in UTF-8), and that it represents patches
    and sets of such names. *)
Class CollectiveJson `{JsonCodec (gmap string Mutate)} `{JsonCodec (gset string)} := {
  json_name : string -> Prop;
  patch_json (m : gmap string Mutate) : map_Forall (fun k mu => json_name k /\ int64 (mt_Timestamp mu)) m -> json_ok m;
  set_json (X : gset string) : (forall e, e ∈ X -> json_name e) -> json_ok X;
}.

Section effects.
Context {S : Type} `{ByteKVLaws S, !ByteKVReliable S} `{CollectiveJson}.
Context (mutateOrder : gmap string Mutate -> list string) `{!MapOrder mutateOrder}
        (elementOrder : gmap string (list byte) -> list string) `{!MapOrder elementOrder}.
Implicit Types (s : S) (rw : remoteWriter).

(** The buffer element the next write takes, and the log after it. *)
Definition nextElement rw : string := createElementKey (rw_getIndex rw).1.
Definition rw_pushed rw (mutates : gmap string Mutate) : remoteWriter :=
  rw_push (rw_getIndex rw).2 (mkTxn mutates (rw_getIndex rw).1).

Lemma rw_transact_ok {A} (op : txnOp A) keys mutates s rw fs a :
  op (opened s (keys ++ [nextElement rw])) (fun ks => inr (opened s ks)) = inr (fs, a) ->
  exists s', rw_transact op keys mutates (s, rw) = Done (s', rw_pushed rw mutates) a /\
    forall k, stored s' k = if decide (k = nextElement rw) then Some (json_Marshal mutates)
                            else if decide (k ∈ keys) then fileOf fs k else stored s k.
Proof.
  intros Hop. unfold rw_transact, DoTransactionAndWriteToBuffer. unfold mbind at 1, act_bind at 1.
  unfold rw_pushed, nextElement in *. destruct (rw_getIndex rw) as [index rw']. cbn [fst snd] in *.
  edestruct (transaction_Done s (keys ++ [createElementKey index])
    (fun fs ext => match op fs ext with
       | inl e => inl e
       | inr (fs, a) => inr (<[createElementKey index := Some (json_Marshal mutates)]> fs, a) end)) as (s' & Hrun & Hs').
  { rewrite Hop. reflexivity. }
  exists s'. unfold mbind, act_bind, onStore, zoom, mret, act_ret. cbn [fst snd]. rewrite Hrun. split; [done|].
  intros k. rewrite Hs', fileOf_insert. destruct (decide (k = createElementKey index)) as [->|Hne].
  - rewrite decide_True; [done|]. apply elem_of_app. right. by left.
  - destruct (decide (k ∈ keys)).
    + rewrite decide_True; [done|]. apply elem_of_app. by left.
    + rewrite decide_False; [done|]. rewrite elem_of_app, list_elem_of_singleton. tauto.
Qed.

Lemma rw_put_ok key m s rw : exists s',
  rw_transact (fun fs _ => inr (<[key := mutValue m]> fs, fileOf fs key)) [key] {[key := m]} (s, rw) =
    Done (s', rw_pushed rw {[key := m]}) (stored s key) /\
  forall k, k ≠ nextElement rw -> stored s' k = applied (stored s) {[key := m]} k.
Proof.
  destruct (rw_transact_ok (fun fs _ => inr (<[key := mutValue m]> fs, fileOf fs key)) [key] {[key := m]} s rw _ _ eq_refl)
    as (s' & Hrun & Hs').
  exists s'. rewrite Hrun. split.
  - f_equal. rewrite fileOf_open; [done|]. apply elem_of_app. left. by left.
  - intros k Hk. rewrite Hs', decide_False by done. unfold applied. rewrite fileOf_insert.
    destruct (decide (k = key)) as [->|Hne].
    + rewrite decide_True by (by left). by rewrite lookup_singleton_eq.
    + rewrite lookup_singleton_ne by done. rewrite decide_False; [done|]. by rewrite list_elem_of_singleton.
Qed.

Lemma rw_Write_ok key value ts s rw : exists s',
  rw_Write key value ts (s, rw) = Done (s', rw_pushed rw {[key := mkMutate (UnixNano ts) value false]}) (stored s key) /\
  forall k, k ≠ nextElement rw -> stored s' k = applied (stored s) {[key := mkMutate (UnixNano ts) value false]} k.
Proof. exact (rw_put_ok key (mkMutate (UnixNano ts) value false) s rw). Qed.

Lemma rw_Delete_ok key ts s rw : exists s',
  rw_Delete key ts (s, rw) = Done (s', rw_pushed rw {[key := mkMutate (UnixNano ts) [] true]}) (stored s key) /\
  forall k, k ≠ nextElement rw -> stored s' k = applied (stored s) {[key := mkMutate (UnixNano ts) [] true]} k.
Proof. exact (rw_put_ok key (mkMutate (UnixNano ts) [] true) s rw). Qed.

(** ** Maps *)

(** The file of a map lists exactly its elements. *)
Definition map_ok s (mapName : string) : Prop :=
  exists mapSet, getMapFile (stored s (MakeMapKey mapName)) = inr mapSet /\
    forall e, (e ∈ mapSet -> json_name e) /\ (e ∈ mapSet <-> is_Some (stored s (MakeElementKey mapName e))).

(** The shared part of the two transactions that edit a map. *)
Lemma mapOp_ok mapName names mutates s keys ext :
  map_ok s mapName -> MakeMapKey mapName ∈ keys -> (forall k, is_Some (mutates !! k) -> k ∈ keys) ->
  (forall k, is_Some (mutates !! k) -> exists e, k = MakeElementKey mapName e /\ names !! k = Some e /\ json_name e) ->
  exists fs mapSet' a,
    mapOp mutateOrder (MakeMapKey mapName) names mutates (opened s keys) ext =
      inr (<[MakeMapKey mapName := Some (json_Marshal mapSet')]> fs, a) /\
    json_Unmarshal (json_Marshal mapSet') = Some mapSet' /\ (forall e, e ∈ mapSet' -> json_name e) /\
    (forall k, k ∈ keys -> fileOf fs k = applied (stored s) mutates k) /\
    (forall e, e ∈ mapSet' <-> is_Some (applied (stored s) mutates (MakeElementKey mapName e))).
Proof.
  intros (mapSet & Hget & Hset) Hmk Hin Hel.
  assert (forall k, k ∈ keys -> fileOf (opened s keys) k = stored s k) as Hfile.
  { intros k Hk. by rewrite fileOf_open. }
  unfold mapOp. rewrite Hfile, Hget by done. destruct (mapEdits _ _ _ _) as [[fs set'] old] eqn:E.
  apply (mapEdits_spec mapName) in E as [Hf Hs].
  2: { apply map_order_nodup. }
  2: { intros key (m & Hm)%map_order_elem. destruct (Hel key) as (e & ? & ? & _); eauto. }
  assert (forall k, (if decide (k ∈ mutateOrder mutates) then mutates !! k else None) = mutates !! k) as Hall.
  { intros k. destruct (decide (k ∈ mutateOrder mutates)) as [|Hn]; [done|]. symmetry. apply eq_None_not_Some. by rewrite <- map_order_elem. }
  exists fs, set', old. split; [done|].
  assert (forall e, e ∈ set' <-> is_Some (applied (stored s) mutates (MakeElementKey mapName e))) as Hset'.
  { intros e. rewrite Hs, Hall. unfold applied, mutValue. destruct (mutates !! MakeElementKey mapName e) as [m|]; [|apply Hset].
    destruct (mt_Deletion m); by split. }
  assert (forall e, e ∈ set' -> json_name e) as Hnames.
  { intros e He. rewrite Hs, Hall in He. destruct (mutates !! MakeElementKey mapName e) as [m|] eqn:Em; [|by apply Hset].
    destruct (Hel (MakeElementKey mapName e)) as (e' & Heq & _ & ?); [by eauto|]. by apply (inj (MakeElementKey mapName)) in Heq as ->. }
  split; [by apply json_roundtrip, set_json|]. split; [done|]. split; [|done].
  intros k Hk. rewrite Hf, Hall, Hfile by done. done.
Qed.

(** What the new file of the map and the edited elements leave. *)
Lemma map_ok_edited mapName mutates s s' mapSet' :
  json_Unmarshal (json_Marshal mapSet') = Some mapSet' -> (forall e, e ∈ mapSet' -> json_name e) ->
  stored s' (MakeMapKey mapName) = Some (json_Marshal mapSet') ->
  (forall e, e ∈ mapSet' <-> is_Some (applied (stored s) mutates (MakeElementKey mapName e))) ->
  (forall e, stored s' (MakeElementKey mapName e) = applied (stored s) mutates (MakeElementKey mapName e)) ->
  map_ok s' mapName.
Proof.
  intros Hjson Hn Hmap Hset Hs'. exists mapSet'. unfold getMapFile. rewrite Hmap, Hjson. split; [done|].
  intros e. split; [apply Hn|]. by rewrite Hs', Hset.
Qed.

Lemma rw_WriteMap_ok mapName elements toDelete ts s rw :
  map_ok s mapName -> IsValidKey (nextElement rw) = None -> (forall e, e ∈ toDelete ∪ dom elements -> json_name e) ->
  let mutates := writeMutates mapName elements toDelete ts in
  exists s' old,
    rw_WriteMap mutateOrder elementOrder mapName elements toDelete ts (s, rw) = Done (s', rw_pushed rw mutates) old /\
    (forall k, k ≠ nextElement rw -> k ≠ MakeMapKey mapName -> stored s' k = applied (stored s) mutates k) /\
    map_ok s' mapName.
Proof.
  intros Hmap Hnext Hnames mutates. unfold rw_WriteMap. fold mutates.
  set (keys := (MakeElementKey mapName <$> elementOrder elements) ++ _).
  assert (forall e, e ∈ toDelete ∪ dom elements -> MakeElementKey mapName e ∈ keys) as Hkeys.
  { intros e He. unfold keys. rewrite !elem_of_app. apply elem_of_union in He as [He|He].
    - right. left. apply list_elem_of_fmap. exists e. split; [done|]. by apply elem_of_elements.
    - left. apply list_elem_of_fmap. exists e. split; [done|]. by apply map_order_elem, elem_of_dom. }
  assert (MakeMapKey mapName ∈ keys) as Hmk by (unfold keys; rewrite !elem_of_app; right; right; by left).
  destruct (mapOp_ok mapName (keyConversions mapName elements toDelete) mutates s (keys ++ [nextElement rw]) (fun ks => inr (opened s ks)) Hmap)
    as (fs & mapSet' & old & Hop & Hjson & Hsn & Hfs & Hset).
  { apply elem_of_app. by left. }
  { intros k (e & -> & He)%writeMutates_element. apply elem_of_app. left. by apply Hkeys. }
  { intros k (e & -> & He)%writeMutates_element. exists e. split_and!; [done|by apply keyConversions_lookup|by apply Hnames]. }
  destruct (rw_transact_ok _ keys mutates s rw _ _ Hop) as (s' & Hrun & Hs').
  exists s', old. split; [exact Hrun|].
  assert (forall k, k ≠ nextElement rw -> k ≠ MakeMapKey mapName -> stored s' k = applied (stored s) mutates k) as Happ.
  { intros k Hk Hk'. rewrite Hs', decide_False by done. case_decide as Hin.
    - rewrite fileOf_insert, decide_False by done. apply Hfs. apply elem_of_app. by left.
    - unfold applied. destruct (mutates !! k) eqn:Em; [|done]. exfalso. apply Hin.
      destruct (writeMutates_element mapName elements toDelete ts k) as (e & -> & He); [by eauto|]. by apply Hkeys. }
  split; [exact Happ|]. eapply map_ok_edited; [exact Hjson|exact Hsn| |exact Hset|].
  - rewrite Hs', decide_False by (intros Heq; by apply (valid_not_map (nextElement rw) mapName)).
    rewrite decide_True by done. by rewrite fileOf_insert, decide_True.
  - intros e. apply Happ; [|apply element_not_map]. intros Heq. by apply (valid_ne_element (nextElement rw) mapName e).
Qed.
End effects.

(** ** Loading the buffer *)

Section load.
Context {S : Type} `{ByteKV S} `{JsonCodec (gmap string Mutate)}.

(** After the elements below [n]: what was read is kept, and the starts of the
    buckets are zero or elements that were read. *)
Record load_inv (s : S) (n : Z) (l : loadState) : Prop := {
  lv_read i : lb_transactions l !! i = if decide (0 <= i < n) then bufferElement s i else None;
  lv_largest : lb_largestBucketStart l = 0 \/ is_Some (lb_transactions l !! lb_largestBucketStart l);
  lv_current : lb_currentBucketStart l = 0 \/ is_Some (lb_transactions l !! lb_currentBucketStart l);
}.

Lemma loadStep_inv s n l : 0 <= n -> load_inv s n l -> load_inv s (n + 1) (loadStep s l n).
Proof.
  intros Hn [Hr Hl Hc]. unfold loadStep. destruct (bufferElement s n) as [m|] eqn:E.
  - assert (forall p, p = 0 \/ is_Some (lb_transactions l !! p) -> p = 0 \/ is_Some (<[n := m]> (lb_transactions l) !! p)) as Hin.
    { intros p [?|?]; [by left|right]. rewrite lookup_insert_is_Some'. by right. }
    split; cbn.
    + intros i. destruct (decide (i = n)) as [->|Hne]; [by rewrite lookup_insert_eq, decide_True by lia|].
      rewrite lookup_insert_ne, Hr by done. by repeat case_decide; try lia.
    + case_match; by apply Hin.
    + right. by rewrite lookup_insert_eq.
  - split; cbn; [|done|done]. intros i. rewrite Hr. destruct (decide (i = n)) as [->|Hne]; repeat case_decide; try lia; done.
Qed.

Lemma loadLoop_inv s : load_inv s bufferSize (loadLoop s).
Proof.
  assert (forall m n l, 0 <= n -> load_inv s n l -> load_inv s (n + Z.of_nat m) (foldl (loadStep s) l (seqZ n (Z.of_nat m)))) as Hfold.
  { induction m as [|m IH]; intros n l Hn Hl; [by rewrite Z.add_0_r|].
    rewrite seqZ_cons by lia. simpl. replace (Z.pred (Z.of_nat (Datatypes.S m))) with (Z.of_nat m) by lia.
    replace (n + Z.of_nat (Datatypes.S m)) with (Z.succ n + Z.of_nat m) by lia. apply IH; [lia|]. by apply loadStep_inv. }
  specialize (Hfold (Z.to_nat bufferSize) 0 (mkLoadState ∅ 0 0 0 0 bufferSize)).
  rewrite Z2Nat.id, Z.add_0_l in Hfold by done. apply Hfold; [done|]. split; cbn; [|by left|by left].
  intros i. rewrite lookup_empty. case_decide; [lia|done].
Qed.

(** loading the buffer of mutations finds exactly the elements left by the
    last process, so that none is forgotten; but the position it starts to write
    at is zero or one of these elements, never a free place after one: the first
    write of the new process takes the place of a mutation that may not be in
    the transaction log yet. *)
Theorem loadBuffer_spec (s : S) : let '(position, transactions) := loadBuffer s in
  (forall i, transactions !! i = if decide (0 <= i < bufferSize) then bufferElement s i else None) /\
  (position = 0 \/ 0 <= position < bufferSize /\ is_Some (bufferElement s position)).
Proof.
  unfold loadBuffer. destruct (loadLoop_inv s) as [Hr Hl Hc]. split; [done|].
  assert (forall p, p = 0 \/ is_Some (lb_transactions (loadLoop s) !! p) -> p = 0 \/ 0 <= p < bufferSize /\ is_Some (bufferElement s p)) as Hin.
  { intros p [?|Hp]; [by left|right]. rewrite Hr in Hp. case_decide; [done|by destruct Hp]. }
  unfold bufferPosition. repeat case_match; auto.
Qed.
End load.
