(* ===== verification/InternalKV.v ===== *)
(** * The synchronised store of a device

    [collective/kv.go] and [map.go]: local writes, writes that are logged for
    the other devices, maps, and what the collector calls to apply changes made
    elsewhere.  The calls to listeners are results. *)

From S2P Require Import Prelude GoBytes KV Json Effects ByteKV MapSyntax Patch RemoteWriter.

Inductive KeyOperation := Created | Updated | Deleted | Loaded.

(** The call of a key listener: old and new value, [None] for nil. *)
Record keyEvent := mkKeyEvent {
  ke_old : option (list byte);
  ke_new : option (list byte);
  ke_op : KeyOperation;
}.

Record elementEdit := mkEdit {
  OldElement : option (list byte);
  NewElement : option (list byte);
  Operation : KeyOperation;
}.

(** Listeners with their [local] flag. *)
Record internalKV := mkInternalKV {
  ik_txLog : remoteWriter;
  ik_keyUpdateListeners : gmap string bool;
  ik_mapUpdateListeners : gmap string bool;
}.

Definition ErrMapInconsistent : error := Errorf "element is in the map file but notin the ekv" [].
Definition ErrMapElementNotFound : error := Errorf "file does not exist" [].

Section code.
Context {S : Type} `{ByteKV S} `{JsonCodec (gmap string Mutate)} `{JsonCodec (gset string)}.
Context (mutateOrder : gmap string Mutate -> list string)
        (elementOrder : gmap string (list byte) -> list string)
        (nameOrder : gset string -> list string).

(** A call on the log. *)
Definition onLog {A} (m : act (S * remoteWriter) A) : act (S * internalKV) A :=
  zoom (fun '(s, ik) => (s, ik_txLog ik))
       (fun '(s, rw) '(_, ik) => (s, mkInternalKV rw (ik_keyUpdateListeners ik) (ik_mapUpdateListeners ik))) m.

(** A guarded call: keys of maps are refused. *)
Definition validKey {T A} (key : string) (m : act T A) : act T A :=
  match IsValidKey key with
  | Some e => throw e
  | None => m
  end.

(** ** Local operations *)

Definition ik_SetBytes (key : string) (data : list byte) : act (S * internalKV) unit := validKey key (onStore (setBytes key data)).
Definition ik_GetBytes (key : string) : act (S * internalKV) (list byte) := onStore (getBytes key).
Definition ik_Delete (key : string) : act (S * internalKV) unit := validKey key (onStore (deleteKey key)).

(** ** Changes made elsewhere *)

Definition ik_SetBytesFromRemote (key : string) (data : list byte) : act (S * internalKV) (option keyEvent) := fun '(s, ik) =>
  (old ← onStore (transaction [key] (fun fs _ => inr (<[key := Some data]> fs, fileOf fs key)));
   mret match ik_keyUpdateListeners ik !! key with
        | Some _ => Some (mkKeyEvent old (Some data) (match old with Some _ => Updated | None => Created end))
        | None => None
        end) (s, ik).

Definition ik_DeleteFromRemote (key : string) : act (S * internalKV) (option keyEvent) := fun '(s, ik) =>
  (old ← onStore (transaction [key] (fun fs _ => inr (<[key := None]> fs, fileOf fs key)));
   mret match ik_keyUpdateListeners ik !! key with
        | Some _ => Some (mkKeyEvent old None Deleted)
        | None => None
        end) (s, ik).

(** The names of the elements; a key that is not one of an element panics. *)
Fixpoint keysToName (keys : list string) : result (gmap string string) :=
  match keys with
  | [] => Ok ∅
  | elementKey :: keys =>
      '(_, elementName) ← GetElementName elementKey;
      m ← keysToName keys;
      Ok (<[elementKey := elementName]> m)
  end.

Definition remoteEdit (old : option (list byte)) (value : Mutate) : elementEdit :=
  if mt_Deletion value then mkEdit old None Deleted
  else mkEdit old (Some (mt_Value value)) (match old with Some _ => Updated | None => Created end).

(** What is reported of the edits of a map, by name. *)
Definition reportedEdits (names : gmap string string) (edits : gmap string Mutate) (old : gmap string (option (list byte))) :
    gmap string elementEdit :=
  list_to_map (omap (fun key => m ← edits !! key; name ← names !! key; Some (name, remoteEdit (default None (old !! name)) m))
                 (mutateOrder edits)).

Definition ik_MapTransactionFromRemote (mapName : string) (edits : gmap string Mutate) :
    act (S * internalKV) (option (gmap string elementEdit)) := fun '(s, ik) =>
  let mapKey := MakeMapKey mapName in
  (names ← pureResult (keysToName (mutateOrder edits));
   old ← onStore (transaction (mutateOrder edits ++ [mapKey]) (mapOp mutateOrder mapKey names edits));
   mret match ik_mapUpdateListeners ik !! mapName with
        | Some _ => Some (reportedEdits names edits old)
        | None => None
        end) (s, ik).

(** ** Logged operations *)

Definition ik_SetRemote (key : string) (value : list byte) (ts : Time) : act (S * internalKV) (option keyEvent) :=
  validKey key (fun '(s, ik) =>
    (old ← onLog (rw_Write key value ts);
     mret match ik_keyUpdateListeners ik !! key with
          | Some true => Some (mkKeyEvent old (Some value) (match old with Some _ => Updated | None => Deleted end))
          | _ => None
          end) (s, ik)).

Definition ik_DeleteRemote (key : string) (ts : Time) : act (S * internalKV) (option keyEvent) :=
  validKey key (fun '(s, ik) =>
    (old ← onLog (rw_Delete key ts);
     mret match ik_keyUpdateListeners ik !! key with
          | Some true => Some (mkKeyEvent old None Deleted)
          | _ => None
          end) (s, ik)).

Definition storeEdit (old : gmap string (option (list byte))) (element : string) (value : list byte) : elementEdit :=
  let o := default None (old !! element) in
  mkEdit o (Some value) (match o with Some _ => Updated | None => Created end).

(** The listener is called whether or not the write failed; the error is
    returned with the call. *)
Definition ik_StoreMap (mapName : string) (value : gmap string (list byte)) (ts : Time) :
    act (S * internalKV) (option error * option (gmap string elementEdit)) := fun '(s, ik) =>
  let report old := match ik_mapUpdateListeners ik !! mapName with
                    | Some true => Some (map_imap (fun element v => Some (storeEdit old element v)) value)
                    | _ => None
                    end in
  match onLog (rw_WriteMap mutateOrder elementOrder mapName value ∅ ts) (s, ik) with
  | Done st old => Done st (None, report old)
  | Fail st e => Done st (Some e, report ∅)
  | Crash => Crash
  end.

Definition ik_StoreMapElement (mapName element : string) (value : list byte) (ts : Time) :
    act (S * internalKV) (option error * option (gmap string elementEdit)) := ik_StoreMap mapName {[element := value]} ts.

Definition ik_DeleteMapElement (mapName element : string) (ts : Time) :
    act (S * internalKV) (option (list byte) * option (gmap string elementEdit)) := fun '(s, ik) =>
  (oldMap ← onLog (rw_WriteMap mutateOrder elementOrder mapName ∅ {[element]} ts);
   let old := default None (oldMap !! element) in
   mret (old, match ik_mapUpdateListeners ik !! mapName with
              | Some true => Some {[element := mkEdit old None Deleted]}
              | _ => None
              end)) (s, ik).

(** ** Reading maps *)

Definition ik_GetMapElement (mapName elementName : string) : act S (list byte) :=
  let mapKey := MakeMapKey mapName in
  let elementKey := MakeElementKey mapName elementName in
  transaction [elementKey; mapKey] (fun fs _ =>
    match getMapFile (fileOf fs mapKey) with
    | inl e => inl e
    | inr mapSet =>
        if bool_decide (elementName ∈ mapSet) then
          match fileOf fs elementKey with
          | Some old => inr (fs, old)
          | None => inl (Wrapf "for map '%s' element '%s'" [] ErrMapInconsistent)
          end
        else inl (Wrapf "for map '%s' element '%s'" [] ErrMapElementNotFound)
    end).

(** An element that is listed but not stored has the value nil. *)
Definition ik_GetMap (mapName : string) : act S (gmap string (option (list byte))) :=
  let mapKey := MakeMapKey mapName in
  transaction [mapKey] (fun fs ext =>
    match getMapFile (fileOf fs mapKey) with
    | inl e => inl e
    | inr mapSet =>
        match ext (MakeElementKey mapName <$> nameOrder mapSet) with
        | inl e => inl e
        | inr elementFiles => inr (fs, set_to_map (fun e => (e, fileOf elementFiles (MakeElementKey mapName e))) mapSet)
        end
    end).

(** ** Listening *)

Definition ik_ListenOnRemoteKey (key : string) (localEvents : bool) : act (S * internalKV) (option keyEvent) := fun '(s, ik) =>
  let ik := mkInternalKV (ik_txLog ik) (<[key := localEvents]> (ik_keyUpdateListeners ik)) (ik_mapUpdateListeners ik) in
  match bk_GetBytes s key with
  | inr curData => Done (s, ik) (Some (mkKeyEvent None (Some curData) Loaded))
  | inl e => if bk_Exists S e then Fail (s, ik) e else Done (s, ik) None
  end.

Definition ik_ListenOnRemoteMap (mapName : string) (localEvents : bool) : act (S * internalKV) (option (gmap string elementEdit)) :=
  fun '(s, ik) =>
  let ik := mkInternalKV (ik_txLog ik) (ik_keyUpdateListeners ik) (<[mapName := localEvents]> (ik_mapUpdateListeners ik)) in
  match ik_GetMap mapName s with
  | Done s curMap =>
      Done (s, ik) (if (0 <? size curMap)%nat then Some ((fun v => mkEdit None v Loaded) <$> curMap) else None)
  | Fail s e => if bk_Exists S e then Fail (s, ik) e else Done (s, ik) None
  | Crash => Crash
  end.
End code.

(** ** What the operations leave *)

Section effects.
Context {S : Type} `{ByteKVLaws S, !ByteKVReliable S} `{CollectiveJson}.
Context (mutateOrder : gmap string Mutate -> list string) `{!MapOrder mutateOrder}
        (elementOrder : gmap string (list byte) -> list string) `{!MapOrder elementOrder}
        (nameOrder : gset string -> list string) (Hnames : forall X e, e ∈ nameOrder X <-> e ∈ X).
Implicit Types (s : S) (ik : internalKV).

Lemma putFromRemote_ok key o s (ik : internalKV) : exists s',
  onStore (R := internalKV) (transaction [key] (fun fs _ => inr (<[key := o]> fs, fileOf fs key))) (s, ik) = Done (s', ik) (stored s key) /\
  forall k, stored s' k = if decide (k = key) then o else stored s k.
Proof.
  destruct (transaction_Done s [key] (fun fs _ => inr (<[key := o]> fs, fileOf fs key)) _ _ eq_refl) as (s' & Hrun & Hs').
  exists s'. split.
  - rewrite (onStore_Done _ _ _ _ _ Hrun). f_equal. rewrite fileOf_open; [done|by left].
  - intros k. rewrite Hs', fileOf_insert. destruct (decide (k = key)) as [->|Hne].
    + by rewrite decide_True by (by left).
    + rewrite decide_False; [done|]. by rewrite list_elem_of_singleton.
Qed.

Lemma SetBytesFromRemote_ok key data s ik : exists s' ev,
  ik_SetBytesFromRemote key data (s, ik) = Done (s', ik) ev /\
  forall k, stored s' k = if decide (k = key) then Some data else stored s k.
Proof.
  destruct (putFromRemote_ok key (Some data) s ik) as (s' & Hrun & Hs'). unfold ik_SetBytesFromRemote.
  rewrite (bind_Done _ _ _ _ _ Hrun). eexists _, _. split; [reflexivity|done].
Qed.

Lemma DeleteFromRemote_ok key s ik : exists s' ev,
  ik_DeleteFromRemote key (s, ik) = Done (s', ik) ev /\
  forall k, stored s' k = if decide (k = key) then None else stored s k.
Proof.
  destruct (putFromRemote_ok key None s ik) as (s' & Hrun & Hs'). unfold ik_DeleteFromRemote.
  rewrite (bind_Done _ _ _ _ _ Hrun). eexists _, _. split; [reflexivity|done].
Qed.

Lemma keysToName_ok mapName keys :
  (forall k, k ∈ keys -> exists e, k = MakeElementKey mapName e /\ Z.of_nat (String.length e) < 2 ^ 63) ->
  exists names, keysToName keys = Ok names /\ forall e, MakeElementKey mapName e ∈ keys -> names !! MakeElementKey mapName e = Some e.
Proof.
  induction keys as [|k keys IH]; intros Hk; cbn [keysToName].
  { exists ∅. split; [done|]. by intros e ?%not_elem_of_nil. }
  destruct (Hk k) as (e & -> & He); [by left|]. rewrite GetElementName_Make by done. cbn [mbind result_bind].
  destruct IH as (names & -> & Hn); [intros; apply Hk; by right|]. cbn [mbind result_bind]. eexists. split; [done|].
  intros e' [Heq%(inj _)|He']%elem_of_cons; [subst; apply lookup_insert_eq|].
  destruct (decide (e = e')) as [->|Hne]; [apply lookup_insert_eq|]. rewrite lookup_insert_ne; [by apply Hn|].
  by intros ?%(inj (MakeElementKey mapName)).
Qed.

(** A key of an element of the map. *)
Definition element_key (mapName k : string) : Prop :=
  exists e, k = MakeElementKey mapName e /\ Z.of_nat (String.length e) < 2 ^ 63 /\ json_name e.

Lemma MapTransactionFromRemote_ok mapName edits s ik :
  map_ok s mapName -> (forall k, is_Some (edits !! k) -> element_key mapName k) ->
  exists s' ev, ik_MapTransactionFromRemote mutateOrder mapName edits (s, ik) = Done (s', ik) ev /\
    (forall k, k ≠ MakeMapKey mapName -> stored s' k = applied (stored s) edits k) /\ map_ok s' mapName.
Proof.
  intros Hmap Hel. unfold ik_MapTransactionFromRemote.
  destruct (keysToName_ok mapName (mutateOrder edits)) as (names & Hn & Hlook).
  { intros k (m & Hm)%map_order_elem. destruct (Hel k) as (e & ? & ? & _); eauto. }
  rewrite (bind_Done _ _ _ _ _ (pureResult_Done _ (s, ik) _ Hn)).
  set (keys := mutateOrder edits ++ [MakeMapKey mapName]).
  assert (MakeMapKey mapName ∈ keys) as Hmk by (apply elem_of_app; right; by left).
  destruct (mapOp_ok mutateOrder mapName names edits s keys (fun ks => inr (opened s ks)) Hmap)
    as (fs & mapSet' & old & Hop & Hjson & Hsn & Hfs & Hset); [done| | |].
  { intros k Hk. apply elem_of_app. left. by apply map_order_elem. }
  { intros k Hk. destruct (Hel k Hk) as (e & -> & _ & He). exists e. split_and!; [done| |done]. by apply Hlook, map_order_elem. }
  destruct (transaction_Done s keys _ _ _ Hop) as (s' & Hrun & Hs').
  rewrite (bind_Done _ _ _ _ _ (onStore_Done _ _ _ ik _ Hrun)). eexists s', _. split; [reflexivity|].
  assert (forall k, k ≠ MakeMapKey mapName -> stored s' k = applied (stored s) edits k) as Happ.
  { intros k Hk. rewrite Hs'. case_decide as Hin; [rewrite fileOf_insert, decide_False by done; by apply Hfs|].
    unfold applied. destruct (edits !! k) eqn:Em; [|done]. exfalso. apply Hin, elem_of_app. left. apply map_order_elem. eauto. }
  split; [exact Happ|]. eapply map_ok_edited; [exact Hjson|exact Hsn| |exact Hset|].
  - rewrite Hs', decide_True by done. by rewrite fileOf_insert, decide_True.
  - intros e. apply Happ, element_not_map.
Qed.

(** ** Reading maps *)

Lemma GetMapElement_ok mapName e s : map_ok s mapName -> exists s', (forall k, stored s' k = stored s k) /\
  ik_GetMapElement mapName e s =
    match stored s (MakeElementKey mapName e) with
    | Some v => Done s' v
    | None => Fail s' (Wrapf "for map '%s' element '%s'" [] ErrMapElementNotFound)
    end.
Proof.
  intros (mapSet & Hget & Hset). unfold ik_GetMapElement.
  set (keys := [MakeElementKey mapName e; MakeMapKey mapName]). set (op := fun (fs : files) _ => _).
  assert (op (opened s keys) (fun ks => inr (opened s ks)) =
    match stored s (MakeElementKey mapName e) with
    | Some v => inr (opened s keys, v)
    | None => inl (Wrapf "for map '%s' element '%s'" [] ErrMapElementNotFound)
    end) as Hop.
  { unfold op. rewrite !fileOf_open by (unfold keys; set_solver). rewrite Hget.
    destruct (stored s (MakeElementKey mapName e)) eqn:E.
    - rewrite bool_decide_true; [done|]. apply Hset. by rewrite E.
    - rewrite bool_decide_false; [done|]. intros Hin%Hset. rewrite E in Hin. by destruct Hin. }
  destruct (stored s (MakeElementKey mapName e)) as [v|].
  - destruct (transaction_Done s keys op _ _ Hop) as (s' & Hrun & Hs'). exists s'. split; [|done].
    intros k. rewrite Hs'. case_decide; [|done]. by rewrite fileOf_open.
  - destruct (transaction_Fail s keys op _ Hop) as (s' & Hrun & Hs'). by exists s'.
Qed.

Lemma GetMap_ok mapName s : map_ok s mapName -> exists s' m, (forall k, stored s' k = stored s k) /\
  ik_GetMap nameOrder mapName s = Done s' m /\
  forall e, m !! e = match stored s (MakeElementKey mapName e) with Some v => Some (Some v) | None => None end.
Proof.
  intros (mapSet & Hget & Hset). unfold ik_GetMap. set (op := fun (fs : files) ext => _).
  set (els := opened s (MakeElementKey mapName <$> nameOrder mapSet)).
  set (m := set_to_map (fun e => (e, fileOf els (MakeElementKey mapName e))) mapSet : gmap string (option (list byte))).
  assert (op (opened s [MakeMapKey mapName]) (fun ks => inr (opened s ks)) = inr (opened s [MakeMapKey mapName], m)) as Hop.
  { unfold op. rewrite fileOf_open by (by left). by rewrite Hget. }
  destruct (transaction_Done s _ op _ _ Hop) as (s' & Hrun & Hs'). exists s', m. split_and!; [|done|].
  - intros k. rewrite Hs'. case_decide; [|done]. by rewrite fileOf_open.
  - intros e. unfold m. destruct (decide (e ∈ mapSet)) as [He|He].
    + assert (fileOf els (MakeElementKey mapName e) = stored s (MakeElementKey mapName e)) as Hf.
      { apply fileOf_open. apply list_elem_of_fmap. exists e. split; [done|]. by apply Hnames. }
      destruct (proj1 (proj2 (Hset e)) He) as [v Hv]. rewrite Hv. apply lookup_set_to_map; [naive_solver|].
      exists e. split; [done|]. by rewrite Hf, Hv.
    + assert (stored s (MakeElementKey mapName e) = None) as ->.
      { apply eq_None_not_Some. intros Hv. apply He. by apply Hset. }
      apply eq_None_not_Some. intros [v Hv]. apply lookup_set_to_map in Hv as (e' & He' & [= -> _]); [done|naive_solver].
Qed.
End effects.
