(* ===== verification/Collector.v ===== *)
(** * The collector

    [collective/collector.go]: reads the patches of all devices from the remote
    store, works out which mutations hold and applies them to the local store.
    The collector holds the write lock of the log while it applies changes, so
    nothing is queued then. *)

From Stdlib Require Import Ascii.
From stdpp Require Import sorting.
From S2P Require Import Prelude GoBytes KV Json Effects ByteKV MapSyntax CommandStore Patch Instances TxFile RemoteWriter InternalKV.

Definition lastMutationReadStorageKey : string := "lastMutationReadStorageKey_".
Definition makeLastMutationKey (deviceID : InstanceID) : string := lastMutationReadStorageKey +:+ InstanceID_String deviceID.

Record collector := mkCollector {
  c_syncPath : string;
  c_myID : InstanceID;
  c_lastUpdateRead : gmap InstanceID Time;
  c_devicePatchTracker : gmap InstanceID Patch;
  c_lastMutationRead : gmap InstanceID Time;
  c_connected : bool;
  c_synched : bool;
}.

Definition c_set_tracker (c : collector) (T : gmap InstanceID Patch) : collector :=
  mkCollector (c_syncPath c) (c_myID c) (c_lastUpdateRead c) T (c_lastMutationRead c) (c_connected c) (c_synched c).
Definition c_set_mutations (c : collector) (L : gmap InstanceID Time) : collector :=
  mkCollector (c_syncPath c) (c_myID c) (c_lastUpdateRead c) (c_devicePatchTracker c) L (c_connected c) (c_synched c).
Definition c_set_updates (c : collector) (U : gmap InstanceID Time) : collector :=
  mkCollector (c_syncPath c) (c_myID c) U (c_devicePatchTracker c) (c_lastMutationRead c) (c_connected c) (c_synched c).
(** [notify], without the calls to registered callbacks. *)
Definition c_notify (c : collector) (state : bool) : collector :=
  mkCollector (c_syncPath c) (c_myID c) (c_lastUpdateRead c) (c_devicePatchTracker c) (c_lastMutationRead c) state (c_synched c).
Definition c_set_synched (c : collector) : collector :=
  mkCollector (c_syncPath c) (c_myID c) (c_lastUpdateRead c) (c_devicePatchTracker c) (c_lastMutationRead c) (c_connected c) true.

(** The calls to listeners. *)
Definition events : Type := list (string * keyEvent) * list (string * gmap string elementEdit).

Section code.
Context {S R : Type} `{ByteKV S} `{RemoteStore R} `{JsonCodec (gmap string Mutate)} `{JsonCodec (gset string)}
        `{JsonCodec (gmap InstanceID Time)} `{AEAD} `{CMixHash}.
Context (keyOrder mutateOrder : gmap string Mutate -> list string)
        (deviceOrder : gmap InstanceID Patch -> list InstanceID)
        (mapsOrder : gmap string (gmap string Mutate) -> list string).

Abbreviation dstate := (S * (internalKV * collector))%type.

Definition loadLastMutationTime (s : S) (c : collector) : collector :=
  match bk_GetBytes s (makeLastMutationKey (c_myID c)) with
  | inl _ => c
  | inr data => c_set_mutations c (default ∅ (json_Unmarshal data))
  end.

Definition newCollector (myID : InstanceID) (syncPath : string) (s : S) : collector :=
  loadLastMutationTime s (mkCollector syncPath myID ∅ ∅ ∅ false false).

(** A name that cannot be decoded gives the zero identity. *)
Definition getDevices (r : R) (path : string) : error + list InstanceID :=
  match rs_ReadDir r path with
  | inl e => inl e
  | inr devicePaths =>
      inr ((fun p => match NewInstanceIDFromString p with Ok d => d | _ => iid_of [] end) <$> devicePaths)
  end.

Definition collectChanges (r : R) (secret : list byte) (syncPath : string) (deviceID : InstanceID) : result (Patch * Time) :=
  let logPath := getTxLogPath syncPath (keyID secret deviceID) deviceID in
  match rs_GetLastModified r logPath with
  | inl e => Err (Wrapf "GetLastModified(%s) " [] e)
  | inr lastRemoteUpdate =>
      match rs_Read r logPath with
      | inl e => Err (Wrapf "path: %s" [] e)
      | inr patchFile =>
          '(_, patch) ← wrap_err "path: %s" [] (handleIncomingFile deviceID patchFile secret);
          Ok (patch, lastRemoteUpdate)
      end
  end.

(** Defaults for a device that is new in this process. *)
Definition c_newDevice (c : collector) (deviceID : InstanceID) : collector :=
  match c_lastUpdateRead c !! deviceID with
  | Some _ => c
  | None =>
      c_set_tracker (c_set_mutations (c_set_updates c (<[deviceID := 0]> (c_lastUpdateRead c)))
        (<[deviceID := 0]> (c_lastMutationRead c))) (<[deviceID := newPatch deviceID]> (c_devicePatchTracker c))
  end.

(** The loop of [collectAllChanges]; the first error is returned after all
    devices were tried. *)
Fixpoint collectDevices (r : R) (secret : list byte) (devices : list InstanceID) (c : collector)
    (newUpdates : gmap InstanceID Time) (err : option error) : result (collector * gmap InstanceID Time * option error) :=
  match devices with
  | [] => Ok (c, newUpdates, err)
  | deviceID :: devices =>
      let c := c_newDevice c deviceID in
      if decide (deviceID = c_myID c) then collectDevices r secret devices c newUpdates err
      else
        match collectChanges r secret (c_syncPath c) deviceID with
        | Ok (patch, updateTime) =>
            collectDevices r secret devices (c_set_tracker c (<[deviceID := patch]> (c_devicePatchTracker c)))
              (<[deviceID := updateTime]> newUpdates) err
        | Err e => collectDevices r secret devices c newUpdates (match err with Some e => Some e | None => Some e end)
        | Panic => Panic
        end
  end.

(** The updates of ordinary keys, and those of maps by map. *)
Fixpoint splitUpdates (updates : gmap string Mutate) (keys : list string) :
    result (list string * gmap string (gmap string Mutate)) :=
  match keys with
  | [] => Ok ([], ∅)
  | key :: keys =>
      '(isMapElement, mapName, _) ← DetectMapElement key;
      '(plain, maps) ← splitUpdates updates keys;
      match updates !! key with
      | Some m =>
          if (isMapElement : bool) then Ok (plain, <[mapName := <[key := m]> (default ∅ (maps !! mapName))]> maps)
          else Ok (key :: plain, maps)
      | None => Ok (plain, maps)
      end
  end.

Definition onKV {A} (m : act (S * internalKV) A) : act dstate A :=
  zoom (fun '(s, (ik, _)) => (s, ik)) (fun '(s, ik) '(_, (_, c)) => (s, (ik, c))) m.

Fixpoint applyKeys (updates : gmap string Mutate) (keys : list string) : act dstate (list (string * keyEvent)) := fun st =>
  match keys with
  | [] => Done st []
  | key :: keys =>
      match updates !! key with
      | None => applyKeys updates keys st
      | Some m =>
          let rest st (ev : option keyEvent) :=
            match applyKeys updates keys st with
            | Done st evs => Done st (match ev with Some e => (key, e) :: evs | None => evs end)
            | o => o
            end in
          if mt_Deletion m then
            match onKV (ik_DeleteFromRemote key) st with
            | Done st ev => rest st ev
            | Fail st _ => rest st None
            | Crash => Crash
            end
          else
            match onKV (ik_SetBytesFromRemote key (mt_Value m)) st with
            | Done st ev => rest st ev
            | _ => Crash
            end
      end
  end.

Fixpoint applyMaps (maps : gmap string (gmap string Mutate)) (names : list string) :
    act dstate (list (string * gmap string elementEdit)) := fun st =>
  match names with
  | [] => Done st []
  | mapName :: names =>
      match onKV (ik_MapTransactionFromRemote mutateOrder mapName (default ∅ (maps !! mapName))) st with
      | Done st ev =>
          match applyMaps maps names st with
          | Done st evs => Done st (match ev with Some e => (mapName, e) :: evs | None => evs end)
          | o => o
          end
      | _ => Crash
      end
  end.

Definition saveLastMutationTime : act dstate unit := fun '(s, (ik, c)) =>
  logged (onKV (ik_SetBytes (makeLastMutationKey (c_myID c)) (json_Marshal (c_lastMutationRead c)))) (s, (ik, c)).

(** The times up to which the devices were read. *)
Definition setLastSeen (me : InstanceID) (devices : list InstanceID) (lastSeen : list Time) (L : gmap InstanceID Time) : gmap InstanceID Time :=
  foldl (fun L '(device, t) => if decide (device = me) then L else <[device := t]> L) L (zip devices lastSeen).

Definition applyChanges (now : Time) : act dstate events := fun '(s, (ik, c)) =>
  let me := c_myID c in
  let localPatch := rw_state (ik_txLog ik) in
  let T := <[me := localPatch]> (c_devicePatchTracker c) in
  let L := <[me := now]> (c_lastMutationRead c) in
  let '(devices, patches, ignoreBefore) := prepareDiff deviceOrder T L in
  match Patch_Diff keyOrder localPatch patches ignoreBefore with
  | Ok (updates, lastSeen) =>
      let c := c_set_mutations (c_set_tracker c T) (setLastSeen me devices lastSeen L) in
      (_ ← saveLastMutationTime;
       '(plain, maps) ← pureResult (splitUpdates updates (mutateOrder updates));
       evs ← applyKeys updates plain;
       mapEvs ← applyMaps maps (mapsOrder maps);
       mret (evs, mapEvs)) (s, (ik, c))
  | _ => Crash
  end.

Definition collect (r : R) (secret : list byte) (now : Time) : act dstate events := fun '(s, (ik, c)) =>
  match getDevices r (c_syncPath c) with
  | inl e => Fail (s, (ik, c_notify c false)) e
  | inr [] => Fail (s, (ik, c)) (Errorf "[%s] no devices to collect" [])
  | inr devices =>
      match collectDevices r secret devices c ∅ None with
      | Ok (c, _, Some e) => Fail (s, (ik, c_notify c false)) (Wrapf "error collecting changes" [] e)
      | Ok (c, newUpdates, None) =>
          (evs ← applyChanges now;
           _ ← modify (fun '(s, (ik, c)) => (s, (ik, c_set_updates (c_set_synched c) (newUpdates ∪ c_lastUpdateRead c))));
           mret evs) (s, (ik, c_notify c true))
      | _ => Crash
      end
  end.
End code.

(** ** Keys *)

Lemma Contains_head s c d : Contains s (String c d) = true -> c ∈ chars s.
Proof.
  induction s as [|x s IH]; cbn [Contains]; [done|]. intros [Hp|Hc]%orb_true_iff; [|right; by apply IH].
  simpl in Hp. destruct (ascii_dec c x) as [->|]; [by left|done].
Qed.

Lemma valid_no_head s : (forall c, c ∈ chars s -> nat_of_ascii c ≠ 240%nat) -> IsValidKey s = None.
Proof.
  intros Hs. unfold IsValidKey. destruct (Contains s MapDesignator) eqn:E; [|done].
  apply Contains_head in E. by apply Hs in E.
Qed.

Lemma numeral_char_ascii c : numeral_char c -> nat_of_ascii c ≠ 240%nat.
Proof. intros [->|[x ->]]; [done|]. unfold pretty_N_char. by repeat case_match. Qed.

Lemma createElementKey_valid i : IsValidKey (createElementKey i) = None.
Proof.
  apply valid_no_head. intros c. unfold createElementKey. rewrite chars_app. intros [Hc|Hc]%elem_of_app.
  - revert c Hc. apply list.Forall_forall. by apply (bool_decide_unpack _); vm_compute.
  - by eapply numeral_char_ascii, pretty_Z_chars.
Qed.

Lemma makeLastMutationKey_valid d : IsValidKey (makeLastMutationKey d) = None.
Proof.
  apply valid_no_head. intros c. unfold makeLastMutationKey. rewrite chars_app. intros [Hc|Hc]%elem_of_app.
  - revert c Hc. apply list.Forall_forall. by apply (bool_decide_unpack _); vm_compute.
  - pose proof (String_plain d) as Hp. rewrite list.Forall_forall in Hp. destruct (Hp c Hc) as (_ & _ & Ha). unfold ascii7 in Ha. lia.
Qed.

(** Keys the store uses itself. *)
Definition internalKey (localWriteKey k : string) : Prop :=
  k = localWriteKey \/ (exists i, k = createElementKey i) \/ (exists d, k = makeLastMutationKey d) \/ k = instanceIDKey.

Section proofs.
Context {S R : Type} `{ByteKVLaws S, !ByteKVReliable S} `{RemoteStore R} `{CollectiveJson} `{JsonCodec (gmap InstanceID Time)} `{AEAD} `{CMixHash}.
Context (keyOrder : gmap string Mutate -> list string) `{!MapOrder keyOrder}
        (mutateOrder : gmap string Mutate -> list string) `{!MapOrder mutateOrder}
        (deviceOrder : gmap InstanceID Patch -> list InstanceID) `{!MapOrder deviceOrder}
        (mapsOrder : gmap string (gmap string Mutate) -> list string) `{!MapOrder mapsOrder}.
Context (lk : string).

Abbreviation dstate := (S * (internalKV * collector))%type.
Implicit Types (s : S) (ik : internalKV) (c : collector).

(** Keys that may be synchronised: ordinary ones and elements of maps. *)
Definition plainKey (k : string) : Prop := IsValidKey k = None /\ ~ internalKey lk k.
Definition syncKey (k : string) : Prop := json_name k /\ (plainKey k \/ exists m, element_key m k).

Definition maps_ok s : Prop := forall m, map_ok s m.

Lemma map_ok_frame s s' m : (forall e, stored s' (MakeElementKey m e) = stored s (MakeElementKey m e)) ->
  stored s' (MakeMapKey m) = stored s (MakeMapKey m) -> map_ok s m -> map_ok s' m.
Proof. intros He Hm (X & Hget & HX). exists X. rewrite Hm. split; [done|]. intros e. by rewrite He. Qed.

(** Changes of ordinary keys leave maps alone. *)
Lemma maps_ok_frame s s' : (forall k, IsValidKey k ≠ None -> stored s' k = stored s k) -> maps_ok s -> maps_ok s'.
Proof.
  intros Hk Hm m. apply (map_ok_frame s); [| |apply Hm].
  - intros e. apply Hk. intros Hv. by apply (valid_ne_element _ m e Hv).
  - apply Hk. intros Hv. by apply (valid_not_map _ m Hv).
Qed.

Lemma splitUpdates_ok updates keys : (forall k, is_Some (updates !! k) -> syncKey k) -> (forall k, k ∈ keys -> is_Some (updates !! k)) ->
  exists plain maps, splitUpdates updates keys = Ok (plain, maps) /\
    (forall k, k ∈ plain <-> k ∈ keys /\ IsValidKey k = None) /\
    (forall m k mu, (ms ← maps !! m; ms !! k) = Some mu <-> k ∈ keys /\ updates !! k = Some mu /\ exists e, k = MakeElementKey m e).
Proof.
  intros Hsync. induction keys as [|k keys IH]; intros Hin; cbn [splitUpdates].
  { exists [], ∅. split_and!; [done|set_solver|]. intros m k mu. rewrite lookup_empty. simpl. set_solver. }
  destruct IH as (plain & maps & Hrun & Hp & Hm); [set_solver|]. destruct (Hin k) as [mu Hmu]; [by left|].
  destruct (Hsync k) as (_ & [[Hv _]|(m & e & -> & He & _)]); [by eauto| |].
  - rewrite valid_not_element by done. cbn [mbind result_bind]. rewrite Hrun. cbn [mbind result_bind]. rewrite Hmu.
    exists (k :: plain), maps. split_and!; [done| |].
    + intros k'. rewrite !elem_of_cons, Hp. naive_solver.
    + intros m k' mu'. rewrite Hm, elem_of_cons. split; [naive_solver|]. intros ([->|?] & ? & e & ->); [|naive_solver].
      by apply (valid_ne_element _ m e) in Hv.
  - rewrite DetectMapElement_Make by done. cbn [mbind result_bind]. rewrite Hrun. cbn [mbind result_bind]. rewrite Hmu.
    eexists _, _. split_and!; [reflexivity| |].
    + intros k'. rewrite elem_of_cons, Hp. split; [naive_solver|]. intros [[->|?] Hv]; [by apply (valid_ne_element _ m e) in Hv|done].
    + intros m' k' mu'. destruct (decide (m = m')) as [->|Hne].
      * rewrite lookup_insert_eq. simpl. destruct (decide (k' = MakeElementKey m' e)) as [->|Hk].
        -- rewrite lookup_insert_eq, elem_of_cons. naive_solver.
        -- rewrite lookup_insert_ne by done. rewrite elem_of_cons.
           specialize (Hm m' k' mu'). destruct (maps !! m') as [ms|]; simpl in *; rewrite ?lookup_empty; naive_solver.
      * rewrite lookup_insert_ne by done. rewrite Hm, elem_of_cons. split; [naive_solver|].
        intros ([->|?] & ? & e' & Heq); [|naive_solver]. by apply MakeElementKey_inj in Heq as [? _].
Qed.

Lemma onKV_Done {A} (m : act (S * internalKV) A) s s' ik c a :
  m (s, ik) = Done (s', ik) a -> onKV m (s, (ik, c)) = Done (s', (ik, c)) a.
Proof. intros Hm. unfold onKV, zoom. by rewrite Hm. Qed.

Lemma applyKeys_ok updates keys s ik c : (forall k, k ∈ keys -> is_Some (updates !! k)) ->
  exists s' evs, applyKeys updates keys (s, (ik, c)) = Done (s', (ik, c)) evs /\
    forall k, stored s' k = if decide (k ∈ keys) then applied (stored s) updates k else stored s k.
Proof.
  revert s. induction keys as [|key keys IH]; intros s Hin; cbn [applyKeys].
  { exists s, []. by split. }
  destruct (Hin key) as [m Hm]; [by left|]. rewrite Hm.
  assert (exists s1 ev, (forall k, stored s1 k = if decide (k = key) then mutValue m else stored s k) /\
    (if mt_Deletion m then onKV (ik_DeleteFromRemote key) (s, (ik, c))
     else onKV (ik_SetBytesFromRemote key (mt_Value m)) (s, (ik, c))) = Done (s1, (ik, c)) ev) as (s1 & ev & Hs1 & Hrun).
  { unfold mutValue. destruct (mt_Deletion m).
    - destruct (DeleteFromRemote_ok key s ik) as (s1 & ev & Hrun & Hs1). exists s1, ev. split; [done|]. by apply onKV_Done.
    - destruct (SetBytesFromRemote_ok key (mt_Value m) s ik) as (s1 & ev & Hrun & Hs1). exists s1, ev. split; [done|]. by apply onKV_Done. }
  destruct (IH s1) as (s' & evs & Hrest & Hs'); [set_solver|].
  exists s', (match ev with Some e => (key, e) :: evs | None => evs end). split.
  - destruct (mt_Deletion m); by rewrite Hrun, Hrest.
  - intros k. rewrite Hs'. destruct (decide (k = key)) as [->|Hne].
    + rewrite decide_here. unfold applied. rewrite Hm, Hs1, (decide_True (P := key = key)) by done. by case_decide.
    + rewrite decide_skip by done. unfold applied. by rewrite Hs1, (decide_False (P := k = key)) by done.
Qed.

Lemma applyMaps_ok maps names s ik c : NoDup names -> maps_ok s ->
  (forall m k, is_Some ((ms ← maps !! m; ms !! k) : option Mutate) -> element_key m k) ->
  exists s' evs, applyMaps mutateOrder maps names (s, (ik, c)) = Done (s', (ik, c)) evs /\ maps_ok s' /\
    (forall m k mu, m ∈ names -> (ms ← maps !! m; ms !! k) = Some mu -> stored s' k = mutValue mu) /\
    (forall k, (forall m, k ≠ MakeMapKey m) -> (forall m, m ∈ names -> (ms ← maps !! m; ms !! k) = None) -> stored s' k = stored s k).
Proof.
  revert s. induction names as [|m names IH]; intros s Hnd Hmaps Hel; cbn [applyMaps].
  { exists s, []. split_and!; [done|done|set_solver|done]. }
  apply list.NoDup_cons in Hnd as [Hnin Hnd]. set (edits := default ∅ (maps !! m)).
  assert (forall k, edits !! k = (ms ← maps !! m; ms !! k)) as Hed by (intros k; unfold edits; by destruct (maps !! m)).
  destruct (MapTransactionFromRemote_ok mutateOrder m edits s ik (Hmaps m)) as (s1 & ev & Hrun & Hs1 & Hm1).
  { intros k. rewrite Hed. apply Hel. }
  rewrite (onKV_Done _ _ _ _ c _ Hrun).
  assert (maps_ok s1) as Hmaps1.
  { intros m'. destruct (decide (m' = m)) as [->|Hne]; [done|]. apply (map_ok_frame s); [| |apply Hmaps].
    - intros e. rewrite Hs1 by apply element_not_map. unfold applied. destruct (edits !! _) eqn:E; [|done]. rewrite Hed in E.
      destruct (Hel m (MakeElementKey m' e)) as (e' & [-> _]%MakeElementKey_inj & _); [by eauto|done].
    - rewrite Hs1 by (by intros ?%MakeMapKey_inj). unfold applied. destruct (edits !! _) eqn:E; [|done]. rewrite Hed in E.
      destruct (Hel m (MakeMapKey m')) as (e' & Heq & _); [by eauto|]. exfalso. by apply (element_not_map m m' e'). }
  destruct (IH s1 Hnd Hmaps1 Hel) as (s' & evs & Hrest & Hm' & Hs' & Hkeep). rewrite Hrest.
  eexists _, _. split_and!; [reflexivity|done| |].
  - intros m' k mu [->|Hin]%elem_of_cons Hk; [|by eapply Hs'].
    destruct (Hel m k) as (e & -> & _); [by eauto|].
    rewrite Hkeep; [|intros; apply element_not_map|].
    + rewrite Hs1 by apply element_not_map. unfold applied. by rewrite Hed, Hk.
    + intros m'' Hin. apply eq_None_not_Some. intros Hsome. destruct (Hel _ _ Hsome) as (e' & [<- _]%MakeElementKey_inj & _). done.
  - intros k Hk Hnone. rewrite Hkeep by (try done; intros; apply Hnone; by right). rewrite Hs1 by done.
    unfold applied. rewrite Hed, Hnone by (by left). done.
Qed.

Lemma setLastSeen_spec me devices lastSeen L (P : InstanceID -> Time -> Prop) : NoDup devices -> Forall2 P devices lastSeen ->
  (forall d, d ∈ devices -> d ≠ me -> exists n, setLastSeen me devices lastSeen L !! d = Some n /\ P d n) /\
  (forall d, d ∉ devices \/ d = me -> setLastSeen me devices lastSeen L !! d = L !! d).
Proof.
  intros Hnd HP. revert L. unfold setLastSeen. induction HP as [|d n devices lastSeen Hd _ IH]; intros L; simpl.
  { split; [intros d ?%not_elem_of_nil; done|done]. }
  apply list.NoDup_cons in Hnd as [Hnin Hnd]. specialize (IH Hnd). destruct (decide (d = me)) as [->|Hne].
  - destruct (IH L) as [IH1 IH2]. split; intros d' Hd'.
    + apply elem_of_cons in Hd' as [->|Hd']; [done|]. by apply IH1.
    + apply IH2. destruct Hd' as [Hd'|]; [left|by right]. by apply not_elem_of_cons in Hd' as [_ ?].
  - destruct (IH (<[d := n]> L)) as [IH1 IH2]. split; intros d' Hd'.
    + apply elem_of_cons in Hd' as [->|Hd']; [|by apply IH1]. intros _. exists n. rewrite IH2 by (by left). by rewrite lookup_insert_eq.
    + rewrite IH2.
      * rewrite lookup_insert_ne; [done|]. intros ->. destruct Hd' as [Hd'| ->]; [|done]. apply Hd'. by left.
      * destruct Hd' as [Hd'|]; [left|by right]. by apply not_elem_of_cons in Hd' as [_ ?].
Qed.

Lemma saveLastMutationTime_ok s ik c : exists s', saveLastMutationTime (s, (ik, c)) = Done (s', (ik, c)) tt /\
  forall k, k ≠ makeLastMutationKey (c_myID c) -> stored s' k = stored s k.
Proof.
  destruct (setBytes_Done s (makeLastMutationKey (c_myID c)) (json_Marshal (c_lastMutationRead c))) as (s' & Hrun & Hs').
  exists s'. split.
  - unfold saveLastMutationTime. apply logged_Done, onKV_Done. unfold ik_SetBytes, validKey.
    rewrite makeLastMutationKey_valid. by apply onStore_Done.
  - intros k Hk. by rewrite Hs', decide_False.
Qed.

(** Updates of synchronised keys are applied, whichever kind they are of. *)
Lemma applyUpdates_ok ups s ik c : (forall k, is_Some (ups !! k) -> syncKey k) -> maps_ok s ->
  exists s' evs,
    ('(plain, maps) ← pureResult (splitUpdates ups (mutateOrder ups));
     evs ← applyKeys ups plain;
     mapEvs ← applyMaps mutateOrder maps (mapsOrder maps);
     mret (evs, mapEvs)) (s, (ik, c)) = Done (s', (ik, c)) evs /\ maps_ok s' /\
    forall k, (forall m, k ≠ MakeMapKey m) -> stored s' k = applied (stored s) ups k.
Proof.
  intros Hsync Hmaps.
  destruct (splitUpdates_ok ups (mutateOrder ups)) as (plain & maps & Hsplit & Hplain & Hms); [done|by intros k ?%map_order_elem|].
  rewrite (bind_Done _ _ _ _ _ (pureResult_Done _ (s, (ik, c)) _ Hsplit)).
  destruct (applyKeys_ok ups plain s ik c) as (s1 & evs & Hrun1 & Hs1); [intros k [Hk _]%Hplain; by apply map_order_elem|].
  rewrite (bind_Done _ _ _ _ _ Hrun1).
  assert (maps_ok s1) as Hmaps1.
  { apply (maps_ok_frame s); [|done]. intros k Hk. rewrite Hs1, decide_False; [done|]. by intros [_ ?]%Hplain. }
  destruct (applyMaps_ok maps (mapsOrder maps) s1 ik c) as (s' & mevs & Hrun2 & Hmaps2 & Hedit & Hkeep); [apply map_order_nodup|done| |].
  { intros m k [mu (Hin & Hmu & e & ->)%Hms]. destruct (Hsync (MakeElementKey m e)) as (_ & [[Hv _]|(m' & e' & [-> ->]%MakeElementKey_inj & ? & ?)]).
    - by eauto.
    - by apply (valid_ne_element _ m e) in Hv.
    - by exists e'. }
  rewrite (bind_Done _ _ _ _ _ Hrun2). exists s', (evs, mevs). split_and!; [done|done|].
  assert (forall k, is_Some (ups !! k) -> k ∈ mutateOrder ups) as Hall by (intros k; apply map_order_elem).
  intros k Hnm. destruct (ups !! k) as [mu|] eqn:Eu.
  - destruct (Hsync k) as (_ & [[Hv Hni]|(m & e & -> & _)]); [by eauto| |].
    + rewrite Hkeep; [|done|].
      * rewrite Hs1, decide_True; [done|]. apply Hplain. split; [|done]. apply Hall. by eauto.
      * intros m _. apply eq_None_not_Some. intros [mu' (_ & _ & e & ->)%Hms]. by apply (valid_ne_element _ m e) in Hv.
    + assert ((ms ← maps !! m; ms !! MakeElementKey m e) = Some mu) as Hlook by (apply Hms; split_and!; [apply Hall; by eauto|done|by eauto]).
      unfold applied. rewrite Eu. apply (Hedit m); [|done]. apply map_order_elem. by destruct (maps !! m).
  - rewrite Hkeep; [|done|].
    + rewrite Hs1. unfold applied. rewrite Eu. by case_decide.
    + intros m _. apply eq_None_not_Some. intros [mu' (_ & Hu & _)%Hms]. congruence.
Qed.

(** The patches and times a collection works with. *)
Definition mergedTracker ik c : gmap InstanceID Patch := <[c_myID c := rw_state (ik_txLog ik)]> (c_devicePatchTracker c).
Definition mergedTimes c (now : Time) : gmap InstanceID Time := <[c_myID c := now]> (c_lastMutationRead c).

Lemma applyChanges_ok now s ik c :
  let T := mergedTracker ik c in let L := mergedTimes c now in let me := c_myID c in
  tracked T L -> (forall d k m, mutation T d k = Some m -> syncKey k) -> maps_ok s ->
  exists s' L' evs, applyChanges keyOrder mutateOrder deviceOrder mapsOrder now (s, (ik, c)) =
      Done (s', (ik, c_set_mutations (c_set_tracker c T) L')) evs /\ maps_ok s' /\
    (forall k m, unseen T L me k -> winner T k m -> stored s' k = mutValue m) /\
    (forall k, (forall m, k ≠ MakeMapKey m) -> k ≠ makeLastMutationKey me -> ~ unseen T L me k -> stored s' k = stored s k) /\
    (forall d (t : Time) p, d ≠ me -> L !! d = Some t -> T !! d = Some p -> exists n : Time, L' !! d = Some n /\ newest t (p_keys p) n) /\
    (forall d, T !! d = None \/ d = me -> L' !! d = L !! d).
Proof.
  intros T L me Htr Hsync Hmaps.
  assert (T !! me = Some (rw_state (ik_txLog ik))) as Hown by apply lookup_insert_eq.
  destruct (Diff_spec keyOrder deviceOrder T L me _ Htr Hown) as (ups & new & Hdiff & Hups & Hnew).
  assert (forall k, is_Some (ups !! k) -> syncKey k) as Hus.
  { intros k [m [_ (d & Hd & _)]%Hups]. by eapply Hsync. }
  unfold applyChanges. cbv zeta. fold me.
  change (<[me := rw_state (ik_txLog ik)]> (c_devicePatchTracker c)) with T. change (<[me := now]> (c_lastMutationRead c)) with L.
  destruct (prepareDiff deviceOrder T L) as [[devices patches] before] eqn:Ep. cbn [fst snd] in Hdiff. rewrite Hdiff.
  assert (devices = merge_sort supremacy (deviceOrder T)) as -> by (unfold prepareDiff in Ep; by simplify_eq).
  assert (NoDup (merge_sort supremacy (deviceOrder T))) as Hnd by (rewrite merge_sort_Permutation; apply map_order_nodup).
  pose proof (setLastSeen_spec me _ _ L _ Hnd Hnew) as [Hseen Hrest].
  set (L' := setLastSeen _ _ _ _) in *. set (c' := c_set_mutations _ L').
  destruct (saveLastMutationTime_ok s ik c') as (s1 & Hsave & Hs1). rewrite (bind_Done _ _ _ _ _ Hsave).
  assert (maps_ok s1) as Hmaps1.
  { apply (maps_ok_frame s); [|done]. intros k Hk. apply Hs1. intros ->. apply Hk, makeLastMutationKey_valid. }
  destruct (applyUpdates_ok ups s1 ik c' Hus Hmaps1) as (s' & evs & Hrun & Hmaps' & Hs').
  exists s', L', evs. split; [exact Hrun|]. split; [done|]. split_and!.
  - intros k m Hun Hw. assert (ups !! k = Some m) as Hk by by apply Hups.
    assert (syncKey k) as Hk' by (apply Hus; by eauto).
    rewrite Hs'; [unfold applied; by rewrite Hk|]. destruct Hk' as (_ & [[Hv _]|(m' & e & -> & _)]).
    + intros m'. by apply valid_not_map.
    + intros m''. apply element_not_map.
  - intros k Hnm Hk Hnu. rewrite Hs' by done. unfold applied. destruct (ups !! k) as [m|] eqn:E; [by apply Hups in E as [? _]|]. by apply Hs1.
  - intros d t p Hne Ht Hp. destruct (Hseen d) as (n & Hn & Hnt); [apply elem_of_devices; [done|by exists p]|done|].
    exists n. split; [done|]. by apply Hnt.
  - intros d [Hd|Hd]; apply Hrest; [left|by right]. rewrite elem_of_devices by done. rewrite Hd. by intros [].
Qed.
End proofs.
