(* ===== verification/CollectiveSync.v ===== *)
(** * Synchronisation of devices

    The parts of [collective] put together: devices that write to their own
    stores, upload their patches to a shared remote store and collect those of
    the others, in any order, with restarts.  Under clocks that do not fall
    behind what a device has applied, all devices agree once all patches are
    uploaded and collected. *)

From Stdlib Require Import Ascii.
From stdpp Require Import sorting.
From S2P Require Import Prelude GoBytes KV Base64Raw Json Effects ByteKV MapSyntax CommandStore Patch Instances TxFile RemoteWriter InternalKV Collector.

(** ** The remote store

    What the devices rely on: a file written is read back, and the directory of
    the store lists the devices that have written. *)

Section remote.
Context {R : Type} `{RemoteStore R} `{CMixHash} (syncPath : string) (secret : list byte).

Definition logPath (d : InstanceID) : string := getTxLogPath syncPath (keyID secret d) d.

Class RemoteLaws := {
  rs_holds : R -> gmap InstanceID (list byte) -> Prop;
  rs_read r F d b : rs_holds r F -> F !! d = Some b -> rs_Read r (logPath d) = inr b;
  rs_read_none r F d : rs_holds r F -> F !! d = None -> exists e, rs_Read r (logPath d) = inl e;
  rs_modified r F d : rs_holds r F -> is_Some (F !! d) -> exists t, rs_GetLastModified r (logPath d) = inr t;
  rs_dir r F : rs_holds r F -> exists names, rs_ReadDir r syncPath = inr names /\
    forall n, n ∈ names <-> exists d, is_Some (F !! d) /\ n = InstanceID_String d;
  rs_write r F d b : rs_holds r F -> exists r', rs_Write r (logPath d) b = (r', None) /\ rs_holds r' (<[d := b]> F);
}.
End remote.
Arguments rs_holds {R _ _ syncPath secret _}.
Arguments rs_read {R _ _ syncPath secret _}.
Arguments rs_read_none {R _ _ syncPath secret _}.
Arguments rs_modified {R _ _ syncPath secret _}.
Arguments rs_dir {R _ _ syncPath secret _}.
Arguments rs_write {R _ _ syncPath secret _}.

(** ** Devices and their steps *)

(** [dv_seen] is a history variable: the patches of the last collection. *)
Record device {S : Type} := mkDevice {
  dv_store : S;
  dv_kv : internalKV;
  dv_runner : runner;
  dv_col : collector;
  dv_seen : gmap InstanceID Patch;
}.
Arguments device : clear implicits.

Record world {S R : Type} := mkWorld {
  w_remote : R;
  w_devices : gmap InstanceID (device S);
}.
Arguments world : clear implicits.

(** What an application does to synchronised data. *)
Inductive localOp :=
| LSet (key : string) (value : list byte)
| LDelete (key : string)
| LStoreMap (mapName : string) (value : gmap string (list byte))
| LDeleteElement (mapName element : string).

Section system.
Context {S R : Type} `{ByteKV S} `{RemoteStore R} `{JsonCodec (gmap string Mutate)} `{JsonCodec (gset string)}
        `{JsonCodec (gmap InstanceID Time)} `{AEAD} `{CMixHash} `{!CollectiveJson}.
Context (bufferOrder : gmap Z (gmap string Mutate) -> list Z)
        (keyOrder mutateOrder : gmap string Mutate -> list string)
        (elementOrder : gmap string (list byte) -> list string)
        (deviceOrder : gmap InstanceID Patch -> list InstanceID)
        (mapsOrder : gmap string (gmap string Mutate) -> list string).
Context (syncPath : string) (secret : list byte).

Abbreviation lk := (makeLocalWriteKey syncPath).
Abbreviation dev := (device S).

Definition dv_log (dv : dev) : remoteWriter := ik_txLog (dv_kv dv).

(** The patch of a device with all that is queued. *)
Definition fullPatch (rw : remoteWriter) : Patch := foldl (fun p t => Patch_AddAll p (tx_Mutate t)) (rw_state rw) (rw_adds rw).

(** The patches a device has applied, its own included. *)
Definition knowledge (e : InstanceID) (dv : dev) : gmap InstanceID Patch := <[e := fullPatch (dv_log dv)]> (dv_seen dv).

Definition runLocal (op : localOp) (now : Time) : act (S * internalKV) unit := fun st =>
  match op with
  | LSet key value => (_ ← ik_SetRemote key value now; mret tt) st
  | LDelete key => (_ ← ik_DeleteRemote key now; mret tt) st
  | LStoreMap mapName value =>
      match ik_StoreMap mutateOrder elementOrder mapName value now st with
      | Done st (None, _) => Done st tt
      | Done st (Some e, _) => Fail st e
      | Fail st e => Fail st e
      | Crash => Crash
      end
  | LDeleteElement mapName element => (_ ← ik_DeleteMapElement mutateOrder elementOrder mapName element now; mret tt) st
  end.

(** The keys of an operation are not those the store uses itself. *)
Definition localOp_ok (op : localOp) : Prop :=
  match op with
  | LSet key _ | LDelete key => json_name key /\ plainKey lk key
  | LStoreMap mapName value => forall e, is_Some (value !! e) -> json_name (MakeElementKey mapName e) /\ json_name e /\ Z.of_nat (String.length e) < 2 ^ 63
  | LDeleteElement mapName e => json_name (MakeElementKey mapName e) /\ json_name e /\ Z.of_nat (String.length e) < 2 ^ 63
  end.

(** The clock is ahead of every mutation the device has applied. *)
Definition clock_ahead (e : InstanceID) (dv : dev) (now : Time) : Prop :=
  0 < UnixNano now /\ forall d k m, mutation (knowledge e dv) d k = Some m -> mt_Timestamp m < UnixNano now.

(** A device whose store holds at most its identity. *)
Definition blank (s : S) : Prop := forall k, k ≠ instanceIDKey -> stored s k = None.

Definition startDevice (e : InstanceID) (s : S) (kl ml : gmap string bool) (seen : gmap InstanceID Patch) : result dev :=
  rw ← newRemoteWriter bufferOrder syncPath e secret s;
  Ok (mkDevice S s (mkInternalKV rw kl ml) (startRunner rw) (newCollector e syncPath s) seen).

Definition put (w : world S R) (e : InstanceID) (dv : dev) : world S R := mkWorld _ _ (w_remote w) (<[e := dv]> (w_devices w)).

(** One step of the system.  A write of an application ([StepLocal]) is one
    step: [Write], [Delete] and [WriteMap] hold the lock of the log for reading
    only while they take their time, change the store and the buffer in one
    transaction and queue the mutation, so two of them on one device may in the
    code take their times in one order and be stored in the other; such a pair
    is not a run of this system.  The queue is unbounded, where the code's
    channel makes the writer wait when it is full.  A restart is one of a
    device whose queue is empty ([loadBuffer_spec] of [RemoteWriter] says what
    a start makes of a buffer that is not). *)
Inductive syncStep : world S R -> world S R -> Prop :=
| StepJoin w e s kl ml dv :                      (* a new device *)
    w_devices w !! e = None -> blank s -> startDevice e s kl ml ∅ = Ok dv ->
    syncStep w (put w e dv)
| StepRestart w e dv kl ml dv' :                 (* of an idle device *)
    w_devices w !! e = Some dv -> rw_adds (dv_log dv) = [] ->
    startDevice e (dv_store dv) kl ml (dv_seen dv) = Ok dv' ->
    syncStep w (put w e dv')
| StepLocal w e dv op now s ik :
    w_devices w !! e = Some dv -> localOp_ok op -> clock_ahead e dv now ->
    runLocal op now (dv_store dv, dv_kv dv) = Done (s, ik) tt ->
    syncStep w (put w e (mkDevice S s ik (dv_runner dv) (dv_col dv) (dv_seen dv)))
| StepAdd w e dv s rw rn :                       (* the thread of the log takes a transaction *)
    w_devices w !! e = Some dv ->
    runnerAdd (dv_store dv, (dv_log dv, dv_runner dv)) = Done (s, (rw, rn)) tt ->
    syncStep w (put w e (mkDevice S s (mkInternalKV rw (ik_keyUpdateListeners (dv_kv dv)) (ik_mapUpdateListeners (dv_kv dv))) rn
                           (dv_col dv) (dv_seen dv)))
| StepUpload w e dv nonce r rw rn :              (* its timer fires *)
    w_devices w !! e = Some dv -> is_Some (rn_timer (dv_runner dv)) -> length nonce = 24%nat ->
    runnerTimer secret nonce (w_remote w, (dv_log dv, dv_runner dv)) = Done (r, (rw, rn)) tt ->
    syncStep w (mkWorld _ _ r (<[e := mkDevice S (dv_store dv)
      (mkInternalKV rw (ik_keyUpdateListeners (dv_kv dv)) (ik_mapUpdateListeners (dv_kv dv))) rn (dv_col dv) (dv_seen dv)]> (w_devices w)))
| StepCollect w e dv now s ik c evs :            (* the collector has the lock *)
    w_devices w !! e = Some dv -> rw_adds (dv_log dv) = [] -> int64 now ->
    collect keyOrder mutateOrder deviceOrder mapsOrder (w_remote w) secret now (dv_store dv, (dv_kv dv, dv_col dv)) =
      Done (s, (ik, c)) evs ->
    syncStep w (put w e (mkDevice S s ik (dv_runner dv) c (c_devicePatchTracker c))).
End system.

(** ** Versions of a patch *)

(** [q] is a later version of [p]: what differs is newer than all of [p]. *)
Definition later (p q : gmap string Mutate) : Prop :=
  forall k, p !! k = q !! k \/
    exists m', q !! k = Some m' /\ map_Forall (fun _ m => mt_Timestamp m < mt_Timestamp m') p.

#[export] Instance later_preorder : PreOrder later.
Proof.
  split; [by left|]. intros p q r Hpq Hqr k. destruct (Hqr k) as [Heq|(m2 & Hm2 & Hnew2)].
  - rewrite <- Heq. apply Hpq.
  - right. exists m2. split; [done|]. intros k0 m0 Hm0. destruct (Hpq k0) as [Heq|(m1 & Hm1 & Hnew1)].
    + apply (Hnew2 k0). by rewrite <- Heq.
    + specialize (Hnew1 k0 m0 Hm0). specialize (Hnew2 k0 m1 Hm1). simpl in *. lia.
Qed.

Lemma later_add p m ts : map_Forall (fun _ mu => mt_Timestamp mu = ts) m -> map_Forall (fun _ mu => mt_Timestamp mu < ts) p ->
  later p (m ∪ p).
Proof.
  intros Hm Hp k. destruct (m !! k) as [mu|] eqn:E.
  - right. exists mu. split; [by apply lookup_union_Some_l|]. intros k0 m0 Hm0. rewrite (Hm k mu E). by apply (Hp k0).
  - left. by rewrite lookup_union_r.
Qed.

(** Each queued transaction is newer than what came before it. *)
Fixpoint queue_ok (p : Patch) (adds : list txn) : Prop :=
  match adds with
  | [] => True
  | t :: adds => later (p_keys p) (p_keys (Patch_AddAll p (tx_Mutate t))) /\ queue_ok (Patch_AddAll p (tx_Mutate t)) adds
  end.

Definition addAll (p : Patch) (adds : list txn) : Patch := foldl (fun p t => Patch_AddAll p (tx_Mutate t)) p adds.

Lemma queue_ok_snoc p adds t :
  queue_ok p (adds ++ [t]) <->
  queue_ok p adds /\ later (p_keys (addAll p adds)) (p_keys (Patch_AddAll (addAll p adds) (tx_Mutate t))).
Proof. revert p. induction adds as [|t' adds IH]; intros p; simpl; [tauto|]. rewrite IH. tauto. Qed.

Lemma p_myID_addAll p adds : p_myID (addAll p adds) = p_myID p.
Proof. revert p. induction adds as [|t adds IH]; intros p; simpl; [done|]. by rewrite IH. Qed.

(** The times a device has read up to, and what it has seen. *)
Lemma newest_again q q' (t n : Z) : later q q' -> newest 0 q t -> newest t q' n -> newest 0 q' n.
Proof.
  intros Hl (Ht & Hq & Hat) (Hle & Hq' & Hn). split_and!; [lia|done|]. destruct Hn as [->|?]; [|by right].
  destruct Hat as [->|(k & m & Hm & Hts)]; [by left|]. destruct (Hl k) as [Heq|(m' & Hm' & Hnew)].
  - right. exists k, m. by rewrite <- Heq.
  - specialize (Hnew k m Hm). specialize (Hq' k m' Hm'). simpl in *. lia.
Qed.

(** ** The invariant *)

Section invariant.
Context {S R : Type} `{ByteKVLaws S, !ByteKVReliable S} `{RemoteStore R} `{CollectiveJson}
        `{JsonCodec (gmap InstanceID Time)} `{AEADLaws} `{CMixHash}.
Context (bufferOrder : gmap Z (gmap string Mutate) -> list Z) `{!MapOrder bufferOrder}
        (keyOrder : gmap string Mutate -> list string) `{!MapOrder keyOrder}
        (mutateOrder : gmap string Mutate -> list string) `{!MapOrder mutateOrder}
        (elementOrder : gmap string (list byte) -> list string) `{!MapOrder elementOrder}
        (deviceOrder : gmap InstanceID Patch -> list InstanceID) `{!MapOrder deviceOrder}
        (mapsOrder : gmap string (gmap string Mutate) -> list string) `{!MapOrder mapsOrder}.
Context (syncPath : string) (secret : list byte) `{!RemoteLaws (R := R) syncPath secret}.
Hypothesis Hlk : IsValidKey (makeLocalWriteKey syncPath) = None.

Abbreviation lk := (makeLocalWriteKey syncPath).
Abbreviation sync := (syncKey lk).
Implicit Types (s : S) (dv : device S) (w : world S R) (e d : InstanceID).

Definition mutates_ok (m : gmap string Mutate) : Prop :=
  map_Forall (fun k mu => sync k /\ 0 < mt_Timestamp mu /\ int64 (mt_Timestamp mu)) m.

(** The store of a device holds, for every synchronised key, what the mutations
    it has applied come to. *)
Definition agrees s (K : gmap InstanceID Patch) : Prop := forall k, sync k ->
  (forall m, winner K k m -> stored s k = mutValue m) /\ ((forall d, mutation K d k = None) -> stored s k = None).

Record log_inv e s (rw : remoteWriter) (rn : runner) : Prop := {
  li_id : p_myID (rw_state rw) = e;
  li_header : rw_header rw = newHeader e;
  li_path : rw_path rw = logPath syncPath secret e;
  li_key : rw_localWriteKey rw = lk;
  li_serial : rn_serial rn = Patch_Serialize (rw_state rw);
  li_disk : (stored s lk = None /\ p_keys (rw_state rw) = ∅) \/ stored s lk = Some (Patch_Serialize (rw_state rw));
  li_queue : queue_ok (rw_state rw) (rw_adds rw);
  li_buffer i : is_Some (stored s (createElementKey i)) -> exists t, t ∈ rw_adds rw /\ tx_BuffIndex t = i;
  li_ok : mutates_ok (p_keys (rw_state rw)) /\ Forall (fun t => mutates_ok (tx_Mutate t)) (rw_adds rw);
}.

(** Every device the collector knows has a patch and a time; the time is zero
    in a new process, else that of the newest mutation seen. *)
Record col_inv e (seen : gmap InstanceID Patch) (c : collector) : Prop := {
  ci_id : c_myID c = e;
  ci_path : c_syncPath c = syncPath;
  ci_known d : d ≠ e -> is_Some (c_lastUpdateRead c !! d) <-> is_Some (c_devicePatchTracker c !! d);
  ci_read d : d ≠ e -> is_Some (c_lastUpdateRead c !! d) -> exists t : Time, c_lastMutationRead c !! d = Some t /\
    (t = 0 \/ exists q, seen !! d = Some q /\ newest 0 (p_keys q) t);
}.

(** The patches [U] in the remote store. *)
Record dev_inv (U : gmap InstanceID Patch) e dv : Prop := {
  di_log : log_inv e (dv_store dv) (dv_log dv) (dv_runner dv);
  di_col : col_inv e (dv_seen dv) (dv_col dv);
  di_maps : maps_ok (dv_store dv);
  di_agrees : agrees (dv_store dv) (knowledge e dv);
  di_seen d q : d ≠ e -> dv_seen dv !! d = Some q -> exists q', U !! d = Some q' /\ later (p_keys q) (p_keys q');
  di_tracker d : d ≠ e -> is_Some (c_devicePatchTracker (dv_col dv) !! d) -> is_Some (U !! d);
  di_upload q : U !! e = Some q -> later (p_keys q) (p_keys (rw_state (dv_log dv)));
  di_timer : rn_timer (dv_runner dv) = None -> U !! e = Some (rw_state (dv_log dv));
}.

Record world_inv w : Prop := {
  wi_remote : exists U F, rs_holds (w_remote w) F /\ (forall d, is_Some (F !! d) <-> is_Some (U !! d)) /\
    (forall d q, U !! d = Some q -> p_myID q = d /\ mutates_ok (p_keys q) /\ is_Some (w_devices w !! d) /\
      exists nonce, length nonce = 24%nat /\ F !! d = Some (patchFile q secret nonce)) /\
    forall e dv, w_devices w !! e = Some dv -> dev_inv U e dv;
}.

(** ** Local operations *)

Definition opMutates (op : localOp) (now : Time) : gmap string Mutate :=
  match op with
  | LSet key value => {[key := mkMutate (UnixNano now) value false]}
  | LDelete key => {[key := mkMutate (UnixNano now) [] true]}
  | LStoreMap mapName value => writeMutates mapName value ∅ now
  | LDeleteElement mapName element => writeMutates mapName ∅ {[element]} now
  end.

Definition ik_pushed (ik : internalKV) (m : gmap string Mutate) : internalKV :=
  mkInternalKV (rw_pushed (ik_txLog ik) m) (ik_keyUpdateListeners ik) (ik_mapUpdateListeners ik).

Lemma writeMutates_ts mapName elements toDelete now k mu :
  writeMutates mapName elements toDelete now !! k = Some mu -> mt_Timestamp mu = UnixNano now.
Proof.
  intros Hmu. destruct (writeMutates_element mapName elements toDelete now k) as (e & -> & _); [by eauto|].
  rewrite lookup_writeMutates in Hmu. case_decide; simplify_eq/=; [done|]. destruct (elements !! e); by simplify_eq/=.
Qed.

Lemma opMutates_ok op now k mu : localOp_ok syncPath op -> opMutates op now !! k = Some mu ->
  sync k /\ mt_Timestamp mu = UnixNano now.
Proof.
  intros Hok Hmu. destruct op as [key v|key|m value|m e]; simpl in *.
  - apply lookup_singleton_Some in Hmu as [<- <-]. split; [|done]. destruct Hok. split; [done|by left].
  - apply lookup_singleton_Some in Hmu as [<- <-]. split; [|done]. destruct Hok. split; [done|by left].
  - split; [|by eapply writeMutates_ts]. destruct (writeMutates_element m value ∅ now k) as (e & -> & He); [by eauto|].
    destruct (Hok e) as (? & ? & ?); [apply elem_of_dom; set_solver|]. split; [done|right]. exists m, e. done.
  - split; [|by eapply writeMutates_ts]. destruct (writeMutates_element m ∅ {[e]} now k) as (e' & -> & He); [by eauto|].
    assert (e' = e) as -> by set_solver. destruct Hok as (? & ? & ?). split; [done|right]. exists m, e. done.
Qed.

Lemma nextElement_valid rw : IsValidKey (nextElement rw) = None.
Proof. apply createElementKey_valid. Qed.

Lemma sync_not_map k m : sync k -> k ≠ MakeMapKey m.
Proof. intros (_ & [[Hv _]|(m' & e & -> & _)]); [by apply valid_not_map|apply element_not_map]. Qed.

Lemma sync_not_internal k : sync k -> ~ internalKey lk k.
Proof.
  intros (_ & [[_ Hi]|(m & e & -> & _)]); [done|]. intros [Heq|[(i & Heq)|[(d & Heq)|Heq]]].
  - by apply (valid_ne_element lk m e).
  - by apply (valid_ne_element (createElementKey i) m e); [apply createElementKey_valid|].
  - by apply (valid_ne_element (makeLastMutationKey d) m e); [apply makeLastMutationKey_valid|].
  - by apply (valid_ne_element instanceIDKey m e).
Qed.

Lemma internal_not_map k m : internalKey lk k -> k ≠ MakeMapKey m.
Proof.
  intros [->|[(i & ->)|[(d & ->)| ->]]]; apply valid_not_map; [done|apply createElementKey_valid|apply makeLastMutationKey_valid|done].
Qed.

Lemma onLog_Done {A} (m : act (S * remoteWriter) A) s s' (ik : internalKV) rw a :
  m (s, ik_txLog ik) = Done (s', rw) a ->
  onLog m (s, ik) = Done (s', mkInternalKV rw (ik_keyUpdateListeners ik) (ik_mapUpdateListeners ik)) a.
Proof. intros Hm. unfold onLog, zoom. by rewrite Hm. Qed.

(** A write of one ordinary key keeps the maps. *)
Lemma put_maps s s' rw key m : plainKey lk key -> maps_ok s ->
  (forall k, k ≠ nextElement rw -> stored s' k = applied (stored s) {[key := m]} k) -> maps_ok s'.
Proof.
  intros [Hv _] Hmaps Hs'. apply (maps_ok_frame s); [|done]. intros k Hk. rewrite Hs'.
  - unfold applied. rewrite lookup_singleton_ne; [done|]. by intros ->.
  - intros ->. apply Hk, nextElement_valid.
Qed.

Lemma writeMap_maps s s' rw mapName elements toDelete now : maps_ok s -> map_ok s' mapName ->
  (forall k, k ≠ nextElement rw -> k ≠ MakeMapKey mapName -> stored s' k = applied (stored s) (writeMutates mapName elements toDelete now) k) ->
  maps_ok s'.
Proof.
  intros Hmaps Hm Hs' m. destruct (decide (m = mapName)) as [->|Hne]; [done|].
  assert (forall k : string, (forall e : string, k ≠ MakeElementKey mapName e) -> IsValidKey k ≠ None -> k ≠ MakeMapKey mapName -> stored s' k = stored s k) as Hk.
  { intros k Hel Hv Hmk. rewrite Hs'; [|by intros ->; apply Hv, nextElement_valid|done].
    unfold applied. destruct (writeMutates _ _ _ _ !! k) eqn:E; [|done].
    destruct (writeMutates_element mapName elements toDelete now k) as (e & -> & _); [by eauto|]. by destruct (Hel e). }
  apply (map_ok_frame s); [| |apply Hmaps].
  - intros e. apply Hk; [by intros e' [? _]%MakeElementKey_inj| |apply element_not_map].
    intros Hv. by apply (valid_ne_element _ m e Hv).
  - apply Hk; [intros e Heq; by apply (element_not_map mapName m e)| |by intros ?%MakeMapKey_inj].
    intros Hv. by apply (valid_not_map _ m Hv).
Qed.

Lemma runLocal_ok op now s ik : localOp_ok syncPath op -> maps_ok s ->
  exists s', runLocal mutateOrder elementOrder op now (s, ik) = Done (s', ik_pushed ik (opMutates op now)) tt /\ maps_ok s' /\
    forall k, (forall m, k ≠ MakeMapKey m) -> k ≠ nextElement (ik_txLog ik) -> stored s' k = applied (stored s) (opMutates op now) k.
Proof.
  intros Hok Hmaps. destruct op as [key v|key|m value|m e]; cbn [runLocal opMutates localOp_ok] in *.
  - destruct Hok as [_ Hp]. destruct (rw_Write_ok key v now s (ik_txLog ik)) as (s' & Hrun & Hs'). exists s'. split_and!.
    + unfold ik_SetRemote, validKey. destruct Hp as [-> _]. unfold mbind, act_bind.
      by rewrite (onLog_Done _ _ _ _ _ _ Hrun).
    + by eapply put_maps.
    + intros k _ Hk. by apply Hs'.
  - destruct Hok as [_ Hp]. destruct (rw_Delete_ok key now s (ik_txLog ik)) as (s' & Hrun & Hs'). exists s'. split_and!.
    + unfold ik_DeleteRemote, validKey. destruct Hp as [-> _]. unfold mbind, act_bind.
      by rewrite (onLog_Done _ _ _ _ _ _ Hrun).
    + by eapply put_maps.
    + intros k _ Hk. by apply Hs'.
  - destruct (rw_WriteMap_ok mutateOrder elementOrder m value ∅ now s (ik_txLog ik) (Hmaps m) (nextElement_valid _))
      as (s' & old & Hrun & Hs' & Hm').
    { intros e He. apply Hok. apply elem_of_dom. set_solver. }
    exists s'. split_and!.
    + unfold ik_StoreMap. by rewrite (onLog_Done _ _ _ _ _ _ Hrun).
    + by eapply writeMap_maps.
    + intros k Hk Hk'. by apply Hs'.
  - destruct (rw_WriteMap_ok mutateOrder elementOrder m ∅ {[e]} now s (ik_txLog ik) (Hmaps m) (nextElement_valid _))
      as (s' & old & Hrun & Hs' & Hm').
    { intros e' He. assert (e' = e) as -> by set_solver. apply Hok. }
    exists s'. split_and!.
    + unfold ik_DeleteMapElement. unfold mbind, act_bind. by rewrite (onLog_Done _ _ _ _ _ _ Hrun).
    + by eapply writeMap_maps.
    + intros k Hk Hk'. by apply Hs'.
Qed.

Lemma createElementKey_inj i j : createElementKey i = createElementKey j -> i = j.
Proof. unfold createElementKey. intros Heq%(inj (String.append _)). by apply (inj pretty) in Heq. Qed.

Lemma lk_not_element i : lk ≠ createElementKey i.
Proof. discriminate. Qed.

Lemma internal_lk : internalKey lk lk. Proof. by left. Qed.
Lemma internal_element i : internalKey lk (createElementKey i). Proof. right. left. by exists i. Qed.
Lemma internal_times d : internalKey lk (makeLastMutationKey d). Proof. right. right. left. by exists d. Qed.

(** Synchronised mutations do not touch the keys of the store itself. *)
Lemma applied_internal st m k : map_Forall (fun k _ => sync k) m -> internalKey lk k -> applied st m k = st k.
Proof.
  intros Hm Hk. unfold applied. destruct (m !! k) as [mu|] eqn:E; [|done]. exfalso. by apply (sync_not_internal k (Hm k mu E)).
Qed.

Lemma fullPatch_pushed rw m : fullPatch (rw_pushed rw m) = Patch_AddAll (fullPatch rw) m.
Proof. unfold fullPatch. simpl. by rewrite foldl_app. Qed.

Lemma mutation_insert T e p d k : mutation (<[e := p]> T) d k = if decide (d = e) then p_keys p !! k else mutation T d k.
Proof. unfold mutation. case_decide; subst; by simplify_map_eq. Qed.

Lemma mutates_ok_union m p : mutates_ok m -> mutates_ok p -> mutates_ok (m ∪ p).
Proof. apply map_Forall_union_2. Qed.

Section local.
Context (e : InstanceID) (dv : device S) (op : localOp) (now : Time).
Hypothesis (Hop : localOp_ok syncPath op) (Hclock : clock_ahead e dv now).

Lemma opMutates_all : mutates_ok (opMutates op now).
Proof.
  intros k mu Hmu. destruct (opMutates_ok op now k mu Hop Hmu) as [Hk ->]. split; [done|]. destruct Hclock as [Hpos _].
  split; [done|]. unfold int64, UnixNano, wraps in *. zlia.
Qed.

Lemma full_before : map_Forall (fun _ mu => mt_Timestamp mu < UnixNano now) (p_keys (fullPatch (dv_log dv))).
Proof.
  intros k mu Hmu. destruct Hclock as [_ Hc]. apply (Hc e k). unfold knowledge. rewrite mutation_insert. by rewrite decide_True.
Qed.

Lemma local_later : later (p_keys (fullPatch (dv_log dv))) (opMutates op now ∪ p_keys (fullPatch (dv_log dv))).
Proof.
  apply (later_add _ _ (UnixNano now)); [|apply full_before]. intros k mu Hmu. by apply (opMutates_ok op now k mu Hop Hmu).
Qed.

Lemma local_log s' : log_inv e (dv_store dv) (dv_log dv) (dv_runner dv) ->
  (forall k, (forall m, k ≠ MakeMapKey m) -> k ≠ nextElement (dv_log dv) ->
     stored s' k = applied (stored (dv_store dv)) (opMutates op now) k) ->
  log_inv e s' (rw_pushed (dv_log dv) (opMutates op now)) (dv_runner dv).
Proof.
  intros [Hid Hh Hp Hkey Hser Hdisk Hq Hbuf [Hok1 Hok2]] Hs'.
  assert (map_Forall (fun k _ => sync k) (opMutates op now)) as Hsync by (eapply map_Forall_impl; [apply opMutates_all|by intros ?? [? _]]).
  split; try done.
  - rewrite Hs', applied_internal; [done|done|apply internal_lk| |apply lk_not_element].
    intros m. apply internal_not_map, internal_lk.
  - change (queue_ok (rw_state (dv_log dv)) (rw_adds (dv_log dv) ++ [mkTxn (opMutates op now) (rw_getIndex (dv_log dv)).1])).
    apply queue_ok_snoc. split; [done|]. apply local_later.
  - intros i Hi. change (rw_adds (rw_pushed _ _)) with (rw_adds (dv_log dv) ++ [mkTxn (opMutates op now) (rw_getIndex (dv_log dv)).1]).
    destruct (decide (createElementKey i = nextElement (dv_log dv))) as [Heq|Hne].
    + apply createElementKey_inj in Heq. subst i. eexists. split; [apply elem_of_app; right; by left|done].
    + rewrite Hs', applied_internal in Hi; [|done|apply internal_element| |done].
      * destruct (Hbuf i Hi) as (t & Ht & ?). exists t. split; [apply elem_of_app; by left|done].
      * intros m. apply internal_not_map, internal_element.
  - split; [done|]. apply Forall_app. split; [done|]. apply List.Forall_cons; [apply opMutates_all|apply List.Forall_nil].
Qed.

Lemma local_agrees s' : agrees (dv_store dv) (knowledge e dv) ->
  (forall k, (forall m, k ≠ MakeMapKey m) -> k ≠ nextElement (dv_log dv) ->
     stored s' k = applied (stored (dv_store dv)) (opMutates op now) k) ->
  agrees s' (<[e := Patch_AddAll (fullPatch (dv_log dv)) (opMutates op now)]> (dv_seen dv)).
Proof.
  intros Hag Hs' k Hk. destruct (Hag k Hk) as [Hwin Hnone]. rewrite Hs'; cycle 1.
  { intros m. by apply sync_not_map. }
  { intros ->. eapply sync_not_internal; [exact Hk|]. apply internal_element. }
  set (K' := <[e := _]> _).
  assert (forall d, mutation K' d k = match (if decide (d = e) then opMutates op now !! k else None) with
                                      | Some m => Some m | None => mutation (knowledge e dv) d k end) as HK'.
  { intros d. unfold K', knowledge. rewrite !mutation_insert. case_decide; [|done]. simpl.
    rewrite lookup_union. by destruct (opMutates op now !! k), (p_keys _ !! k). }
  unfold applied. destruct (opMutates op now !! k) as [m|] eqn:Em.
  - assert (winner K' k m) as Hw.
    { apply (winner_newest _ _ e); [by rewrite HK', decide_True|]. intros d' m' Hne Hm'. rewrite HK', decide_False in Hm' by done.
      destruct (opMutates_ok op now k m Hop Em) as [_ ->]. destruct Hclock as [_ Hc]. by eapply Hc. }
    split; [intros m' Hm'; by rewrite (winner_unique _ _ _ _ Hm' Hw)|]. intros Hn. specialize (Hn e). by rewrite HK', decide_True in Hn.
  - assert (forall d, mutation K' d k = mutation (knowledge e dv) d k) as Heq by (intros d; rewrite HK'; by case_decide).
    split.
    + intros m Hm. apply Hwin. by eapply winner_ext.
    + intros Hn. apply Hnone. intros d. by rewrite <- Heq.
Qed.

Lemma local_step U s' ik' : dev_inv U e dv ->
  runLocal mutateOrder elementOrder op now (dv_store dv, dv_kv dv) = Done (s', ik') tt ->
  dev_inv U e (mkDevice S s' ik' (dv_runner dv) (dv_col dv) (dv_seen dv)).
Proof.
  intros [Hlog Hcol Hmaps Hag Hseen Htr Hup Htm] Hrun.
  destruct (runLocal_ok op now (dv_store dv) (dv_kv dv) Hop Hmaps) as (s1 & Hrun1 & Hmaps1 & Hs1).
  rewrite Hrun1 in Hrun. injection Hrun as <- <-. split; try done.
  - by apply local_log.
  - unfold knowledge, dv_log. cbn [dv_kv dv_seen ik_txLog ik_pushed]. rewrite fullPatch_pushed. by apply local_agrees.
Qed.
End local.

(** ** The thread of the log *)

Lemma maps_ok_internal s s' : (forall k, ~ internalKey lk k -> stored s' k = stored s k) -> maps_ok s -> maps_ok s'.
Proof.
  intros Hs'. apply maps_ok_frame. intros k Hk. apply Hs'.
  intros [->|[(i & ->)|[(d & ->)| ->]]]; apply Hk; [done|apply createElementKey_valid|apply makeLastMutationKey_valid|done].
Qed.

Lemma agrees_internal s s' K : (forall k, ~ internalKey lk k -> stored s' k = stored s k) -> agrees s K -> agrees s' K.
Proof. intros Hs' Hag k Hk. rewrite Hs' by by apply sync_not_internal. by apply Hag. Qed.

Lemma runnerAdd_ok s rw rn t adds : rw_localWriteKey rw = lk -> rw_adds rw = t :: adds ->
  exists s' rn', runnerAdd (s, (rw, rn)) = Done (s', (rw_set_state rw (Patch_AddAll (rw_state rw) (tx_Mutate t)) adds, rn')) tt /\
    rn_serial rn' = Patch_Serialize (Patch_AddAll (rw_state rw) (tx_Mutate t)) /\ is_Some (rn_timer rn') /\
    stored s' lk = Some (Patch_Serialize (Patch_AddAll (rw_state rw) (tx_Mutate t))) /\
    stored s' (createElementKey (tx_BuffIndex t)) = None /\
    forall k, k ≠ lk -> k ≠ createElementKey (tx_BuffIndex t) -> stored s' k = stored s k.
Proof.
  intros Hkey Hadds. unfold runnerAdd. rewrite Hadds, Hkey.
  destruct (setBytes_Done s lk (Patch_Serialize (Patch_AddAll (rw_state rw) (tx_Mutate t)))) as (s1 & -> & Hs1).
  destruct (deleteKey_Done s1 (createElementKey (tx_BuffIndex t))) as (s2 & Hdel & Hs2).
  rewrite (logged_Done _ _ _ _ Hdel). eexists s2, _. split_and!; [reflexivity|done|by case_match| | |].
  - rewrite Hs2, decide_False by apply lk_not_element. by rewrite Hs1, decide_True.
  - by rewrite Hs2, decide_True.
  - intros k Hk1 Hk2. by rewrite Hs2, decide_False, Hs1, decide_False by done.
Qed.

Lemma sync_add_step U e dv s' rw' rn' : dev_inv U e dv ->
  runnerAdd (dv_store dv, (dv_log dv, dv_runner dv)) = Done (s', (rw', rn')) tt ->
  dev_inv U e (mkDevice S s' (mkInternalKV rw' (ik_keyUpdateListeners (dv_kv dv)) (ik_mapUpdateListeners (dv_kv dv))) rn'
                 (dv_col dv) (dv_seen dv)).
Proof.
  intros Hinv Hrun. destruct (rw_adds (dv_log dv)) as [|t adds] eqn:Eadds.
  { unfold runnerAdd in Hrun. rewrite Eadds in Hrun. injection Hrun as <- <- <-. by destruct dv as [s ik rn c seen], ik. }
  destruct Hinv as [[Hid Hh Hp Hkey Hser Hdisk Hq Hbuf [Hok1 Hok2]] Hcol Hmaps Hag Hseen Htr Hup Htm].
  rewrite Eadds in Hq, Hbuf, Hok2.
  destruct (runnerAdd_ok (dv_store dv) (dv_log dv) (dv_runner dv) t adds Hkey Eadds) as (s1 & rn1 & Hrun1 & Hser1 & [tm Htm1] & Hlk1 & Hel & Hs1).
  rewrite Hrun1 in Hrun. injection Hrun as <- <- <-. destruct Hq as [Hlater Hq].
  assert (fullPatch (rw_set_state (dv_log dv) (Patch_AddAll (rw_state (dv_log dv)) (tx_Mutate t)) adds) = fullPatch (dv_log dv)) as Hfull.
  { unfold fullPatch. by rewrite Eadds. }
  assert (forall k, ~ internalKey lk k -> stored s1 k = stored (dv_store dv) k) as Hs1'.
  { intros k Hk. apply Hs1; intros ->; apply Hk; [apply internal_lk|apply internal_element]. }
  split.
  - split; try done.
    + right. done.
    + intros i Hi. destruct (decide (i = tx_BuffIndex t)) as [->|Hne]; [cbn [dv_store] in Hi; rewrite Hel in Hi; by destruct Hi|].
      cbn [dv_store] in Hi. rewrite Hs1 in Hi; [|intros Heq; by apply (lk_not_element i)|by intros ?%createElementKey_inj].
      destruct (Hbuf i Hi) as (t' & [->|Ht']%elem_of_cons & Hi'); [done|]. by exists t'.
    + apply Forall_cons_iff in Hok2 as [Ht Hrest]. split; [by apply mutates_ok_union|done].
  - done.
  - by apply (maps_ok_internal (dv_store dv)).
  - assert (agrees s1 (<[e := fullPatch (dv_log dv)]> (dv_seen dv))) as Hag1 by by apply (agrees_internal (dv_store dv)).
    rewrite <- Hfull in Hag1. exact Hag1.
  - done.
  - done.
  - intros q Hu. cbn. etrans; [by apply Hup|done].
  - cbn. by rewrite Htm1.
Qed.

(** ** Uploads *)

Lemma dev_inv_uploaded U e p e' dv : e' ≠ e -> (forall q, U !! e = Some q -> later (p_keys q) (p_keys p)) ->
  dev_inv U e' dv -> dev_inv (<[e := p]> U) e' dv.
Proof.
  intros Hne Hlater [Hlog Hcol Hmaps Hag Hseen Htr Hup Htm]. split; try done.
  - intros d q Hd Hq. destruct (Hseen d q Hd Hq) as (q' & Hq' & Hl). destruct (decide (d = e)) as [->|Hde].
    + exists p. split; [apply lookup_insert_eq|]. etrans; [exact Hl|by apply Hlater].
    + exists q'. by rewrite lookup_insert_ne.
  - intros d Hd Hsome. apply Htr in Hsome; [|done]. destruct (decide (d = e)) as [->|Hde]; [by rewrite lookup_insert_eq|by rewrite lookup_insert_ne].
  - intros q. rewrite lookup_insert_ne by done. apply Hup.
  - intros Hnone. rewrite lookup_insert_ne by done. by apply Htm.
Qed.

Lemma runnerTimer_ok (r : R) F e s rw rn nonce : rs_holds r F -> log_inv e s rw rn ->
  exists r', runnerTimer secret nonce (r, (rw, rn)) =
      Done (r', (rw_notify rw true, mkRunner (rn_serial rn) None defaultUploadPeriod)) tt /\
    rs_holds r' (<[e := patchFile (rw_state rw) secret nonce]> F).
Proof.
  intros Hholds [Hid Hh Hp Hkey Hser Hdisk Hq Hbuf Hok].
  destruct (rs_write r F e (patchFile (rw_state rw) secret nonce) Hholds) as (r' & Hw & Hholds'). exists r'. split; [|done].
  unfold runnerTimer. rewrite Hh, Hser, Hp. unfold patchFile in Hw. rewrite Hid in Hw. by rewrite Hw.
Qed.

Lemma upload_step w e dv nonce r' rw' rn' : world_inv w -> w_devices w !! e = Some dv -> length nonce = 24%nat ->
  runnerTimer secret nonce (w_remote w, (dv_log dv, dv_runner dv)) = Done (r', (rw', rn')) tt ->
  world_inv (mkWorld _ _ r' (<[e := mkDevice S (dv_store dv)
    (mkInternalKV rw' (ik_keyUpdateListeners (dv_kv dv)) (ik_mapUpdateListeners (dv_kv dv))) rn' (dv_col dv) (dv_seen dv)]> (w_devices w))).
Proof.
  intros [(U & F & Hholds & Hdom & HU & Hdev)] Hdv Hlen Hrun. pose proof (Hdev e dv Hdv) as Hinv.
  destruct (runnerTimer_ok _ F e _ _ _ nonce Hholds (di_log _ _ _ Hinv)) as (r1 & Hrun1 & Hholds1).
  rewrite Hrun1 in Hrun. injection Hrun as <- <- <-.
  destruct Hinv as [Hlog Hcol Hmaps Hag Hseen Htr Hup Htm]. set (p := rw_state (dv_log dv)) in *.
  split. exists (<[e := p]> U), (<[e := patchFile p secret nonce]> F). split_and!; [done| | |]; cbn [w_remote w_devices].
  - intros d. destruct (decide (d = e)) as [->|Hd]; [by rewrite !lookup_insert_eq|]. by rewrite !lookup_insert_ne.
  - intros d q. destruct (decide (d = e)) as [->|Hd].
    + rewrite !lookup_insert_eq. intros [= <-]. split_and!; [by apply (li_id _ _ _ _ Hlog)|apply (li_ok _ _ _ _ Hlog)|done|by exists nonce].
    + rewrite !lookup_insert_ne by done. apply HU.
  - intros e' dv'. destruct (decide (e' = e)) as [->|Hne].
    + rewrite lookup_insert_eq. intros [= <-]. split; try done.
      * by destruct Hlog.
      * intros d q Hd Hq. rewrite lookup_insert_ne by done. by apply Hseen.
      * intros d Hd Hsome. rewrite lookup_insert_ne by done. by apply Htr.
      * intros q. rewrite lookup_insert_eq. intros [= <-]. done.
      * intros _. by rewrite lookup_insert_eq.
    + rewrite lookup_insert_ne by done. intros Hdv'. apply dev_inv_uploaded; [done| |by apply Hdev]. intros q Hq. by apply Hup.
Qed.

(** ** Starts *)

Lemma loadLoop_empty s : (forall i, stored s (createElementKey i) = None) -> loadBuffer s = (0, ∅).
Proof.
  intros Hs. unfold loadBuffer, loadLoop.
  assert (forall l st, lb_transactions st = ∅ -> lb_firstBucketStart st = bufferSize ->
    lb_transactions (foldl (loadStep s) st l) = ∅ /\ lb_firstBucketStart (foldl (loadStep s) st l) = bufferSize) as Hl.
  { induction l as [|i l IH]; intros st H1' H2'; [done|]. simpl.
    assert (bufferElement s i = None) as Hb by (specialize (Hs i); unfold stored in Hs; unfold bufferElement; by destruct (bk_GetBytes s _)).
    apply IH; unfold loadStep; by rewrite Hb. }
  destruct (Hl (seqZ 0 bufferSize) (mkLoadState ∅ 0 0 0 0 bufferSize)) as [-> Hf]; [done|done|].
  f_equal. unfold bufferPosition. by rewrite Hf, Z.eqb_refl.
Qed.

Lemma newRemoteWriter_ok e s p : (forall i, stored s (createElementKey i) = None) -> p_myID p = e -> mutates_ok (p_keys p) ->
  (stored s lk = None /\ p_keys p = ∅) \/ stored s lk = Some (Patch_Serialize p) ->
  newRemoteWriter bufferOrder syncPath e secret s =
    Ok (mkWriter (logPath syncPath secret e) (newHeader e) p [] lk 0 false defaultUploadPeriod).
Proof.
  intros Hbuf Hid Hok Hdisk. unfold newRemoteWriter. rewrite loadLoop_empty by done.
  assert (omap (fun i => (fun m => mkTxn m i) <$> (∅ : gmap Z (gmap string Mutate)) !! i) (bufferOrder ∅) = []) as Hadds.
  { induction (bufferOrder ∅) as [|i l IH]; [done|]. simpl. by rewrite lookup_empty. }
  destruct Hdisk as [[Hd Hk]|Hd]; unfold stored in Hd; destruct (bk_GetBytes s lk) as [err|data]; simplify_eq.
  - cbn [mbind result_bind]. rewrite Hadds. destruct p as [i ks]. simpl in *. by subst.
  - unfold Patch_Deserialize, Patch_Serialize. rewrite json_roundtrip.
    + cbn [wrap_err mbind result_bind]. rewrite Hadds. cbn [newPatch p_keys p_myID]. rewrite map_union_empty. by destruct p.
    + apply patch_json. eapply map_Forall_impl; [exact Hok|]. intros k mu ([? _] & _ & ?). done.
Qed.

Lemma startDevice_ok U e s p kl ml seen :
  (forall i, stored s (createElementKey i) = None) -> p_myID p = e -> mutates_ok (p_keys p) ->
  (stored s lk = None /\ p_keys p = ∅) \/ stored s lk = Some (Patch_Serialize p) ->
  maps_ok s -> agrees s (<[e := p]> seen) ->
  (forall d q, d ≠ e -> seen !! d = Some q -> exists q', U !! d = Some q' /\ later (p_keys q) (p_keys q')) ->
  (forall q, U !! e = Some q -> later (p_keys q) (p_keys p)) ->
  exists dv, startDevice bufferOrder syncPath secret e s kl ml seen = Ok dv /\ dev_inv U e dv.
Proof.
  intros Hbuf Hid Hok Hdisk Hmaps Hag Hseen Hup. unfold startDevice. rewrite (newRemoteWriter_ok e s p) by done.
  cbn [mbind result_bind]. eexists. split; [reflexivity|]. split; try done.
  - split; try done. intros i Hi. cbn [dv_store] in Hi. rewrite Hbuf in Hi. by destruct Hi.
  - unfold newCollector, loadLastMutationTime. cbn [dv_col c_myID]. destruct (bk_GetBytes s _); split; try done;
      cbn [c_lastUpdateRead c_devicePatchTracker c_set_mutations]; intros d Hd; rewrite ?lookup_empty; [done|by intros []|done|by intros []].
  - intros d Hd. unfold newCollector, loadLastMutationTime. cbn [dv_col c_myID]. destruct (bk_GetBytes s _); cbn; rewrite lookup_empty; by intros [].
Qed.

(** ** Collections *)

Lemma getDevices_ok (r : R) F : rs_holds r F -> exists devices, getDevices r syncPath = inr devices /\
  forall d, d ∈ devices <-> is_Some (F !! d).
Proof.
  intros Hholds. destruct (rs_dir r F Hholds) as (names & Hdir & Hnames). unfold getDevices. rewrite Hdir.
  eexists. split; [reflexivity|]. intros d. rewrite list_elem_of_fmap. setoid_rewrite Hnames. split.
  - intros (n & -> & d' & Hd' & ->). by rewrite NewInstanceIDFromString_String.
  - intros Hd. exists (InstanceID_String d). rewrite NewInstanceIDFromString_String. eauto.
Qed.

Lemma collectChanges_ok (r : R) F d q nonce : rs_holds r F -> F !! d = Some (patchFile q secret nonce) ->
  p_myID q = d -> mutates_ok (p_keys q) -> length nonce = 24%nat ->
  exists t, collectChanges r secret syncPath d = Ok (q, t).
Proof.
  intros Hholds HF Hid Hok Hlen. unfold collectChanges. change (getTxLogPath syncPath (keyID secret d) d) with (logPath syncPath secret d).
  destruct (rs_modified r F d Hholds) as (t & ->); [by eauto|]. rewrite (rs_read r F d _ Hholds HF). exists t.
  rewrite <- Hid, file_roundtrip; [done| |done].
  apply patch_json. eapply map_Forall_impl; [exact Hok|]. intros k mu ([? _] & _ & ?). done.
Qed.

Lemma newDevice_inv e seen c d : col_inv e seen c -> col_inv e seen (c_newDevice c d) /\
  is_Some (c_lastUpdateRead (c_newDevice c d) !! d) /\
  forall d', d' ≠ d -> c_devicePatchTracker (c_newDevice c d) !! d' = c_devicePatchTracker c !! d'.
Proof.
  intros [Hid Hp Hk Hr]. unfold c_newDevice. destruct (c_lastUpdateRead c !! d) eqn:E; [split_and!; [done|by eauto|done]|].
  cbn. split_and!; [|by rewrite lookup_insert_eq|by intros d' Hd'; rewrite lookup_insert_ne].
  split; [done|done| |]; cbn; intros d' Hd'; destruct (decide (d' = d)) as [->|Hne].
  - by rewrite !lookup_insert_eq.
  - rewrite !lookup_insert_ne by done. by apply Hk.
  - intros _. rewrite lookup_insert_eq. eauto.
  - rewrite !lookup_insert_ne by done. by apply Hr.
Qed.

Lemma track_inv e seen c d q : col_inv e seen c -> is_Some (c_lastUpdateRead c !! d) ->
  col_inv e seen (c_set_tracker c (<[d := q]> (c_devicePatchTracker c))).
Proof.
  intros [Hid Hp Hk Hr] Hd. split; [done|done| |done]. cbn. intros d' Hd'. destruct (decide (d' = d)) as [->|Hne].
  - by rewrite lookup_insert_eq.
  - rewrite lookup_insert_ne by done. by apply Hk.
Qed.

Lemma collectDevices_ok (r : R) F (U : gmap InstanceID Patch) e seen devices c nu : rs_holds r F ->
  (forall d q, U !! d = Some q -> p_myID q = d /\ mutates_ok (p_keys q) /\
    exists nonce, length nonce = 24%nat /\ F !! d = Some (patchFile q secret nonce)) ->
  (forall d, d ∈ devices -> is_Some (U !! d)) -> col_inv e seen c ->
  exists c' nu', collectDevices r secret devices c nu None = Ok (c', nu', None) /\ col_inv e seen c' /\
    (forall d, is_Some (nu' !! d) -> is_Some (nu !! d) \/ d ∈ devices) /\
    (forall d, d ≠ e -> d ∈ devices -> c_devicePatchTracker c' !! d = U !! d) /\
    (forall d, d ≠ e -> d ∉ devices -> c_devicePatchTracker c' !! d = c_devicePatchTracker c !! d).
Proof.
  intros Hholds HU. revert c nu. induction devices as [|d devices IH]; intros c nu Hin Hc; cbn [collectDevices].
  { exists c, nu. split_and!; [done|done|by left|set_solver|done]. }
  destruct (newDevice_inv e seen c d Hc) as (Hc1 & Hd1 & Htr1). set (c1 := c_newDevice c d) in *.
  assert (c_myID c1 = e) as -> by apply (ci_id _ _ _ Hc1). assert (c_syncPath c1 = syncPath) as -> by apply (ci_path _ _ _ Hc1).
  case_decide as Hde.
  - destruct (IH c1 nu) as (c' & nu' & Hrun & Hc' & Hnu & Hall & Hrest); [set_solver|done|].
    exists c', nu'. split_and!; [done|done| | |].
    + intros d' Hd'. destruct (Hnu d' Hd'); [by left|right; by right].
    + intros d' Hd' [->|Hd'']%elem_of_cons; [done|]. by apply Hall.
    + intros d' Hd' [Hne Hd'']%not_elem_of_cons. rewrite Hrest by done. by apply Htr1.
  - destruct (Hin d) as [q Hq]; [by left|]. destruct (HU d q Hq) as (Hid & Hok & nonce & Hlen & HF).
    destruct (collectChanges_ok r F d q nonce Hholds HF Hid Hok Hlen) as (t & ->).
    set (c2 := c_set_tracker c1 _).
    destruct (IH c2 (<[d := t]> nu)) as (c' & nu' & Hrun & Hc' & Hnu & Hall & Hrest); [set_solver|by apply track_inv|].
    exists c', nu'. split_and!; [done|done| | |].
    + intros d' Hd'. destruct (Hnu d' Hd') as [Hs|?]; [|right; by right].
      destruct (decide (d' = d)) as [->|Hne]; [right; by left|]. rewrite lookup_insert_ne in Hs by done. by left.
    + intros d' Hd' Hd''. destruct (decide (d' ∈ devices)) as [Hi|Hn]; [by apply Hall|].
      apply elem_of_cons in Hd'' as [->|?]; [|done]. rewrite Hrest by done. cbn. by rewrite lookup_insert_eq.
    + intros d' Hd' [Hne Hd'']%not_elem_of_cons. rewrite Hrest by done. cbn. rewrite lookup_insert_ne by done. by apply Htr1.
Qed.

Section merge.
Context (U : gmap InstanceID Patch) (e : InstanceID) (p : Patch) (seen T : gmap InstanceID Patch) (L : gmap InstanceID Time).
Hypothesis (HU : forall d q, U !! d = Some q -> p_myID q = d /\ mutates_ok (p_keys q)) (Hp : p_myID p = e /\ mutates_ok (p_keys p)).
Hypothesis (HTe : T !! e = Some p) (HT : forall d, d ≠ e -> T !! d = U !! d).
Hypothesis (Hseen : forall d q, d ≠ e -> seen !! d = Some q -> exists q', U !! d = Some q' /\ later (p_keys q) (p_keys q')).
Hypothesis (HL : forall d, d ≠ e -> is_Some (T !! d) -> exists t : Time, L !! d = Some t /\
  (t = 0 \/ exists q, seen !! d = Some q /\ newest 0 (p_keys q) t)).

Lemma merged_ok d k m : mutation T d k = Some m -> sync k /\ 0 < mt_Timestamp m /\ int64 (mt_Timestamp m).
Proof.
  unfold mutation. destruct (decide (d = e)) as [->|Hne].
  - rewrite HTe. intros Hm. by apply (proj2 Hp k).
  - rewrite HT by done. destruct (U !! d) as [q|] eqn:E; [|done]. intros Hm. by apply (proj2 (HU d q E) k).
Qed.

(** Times are those of known mutations. *)
Lemma seen_time d q (t : Time) : d ≠ e -> seen !! d = Some q -> newest 0 (p_keys q) t -> int64 t.
Proof.
  intros Hd Hq (Ht & _ & [->|(k & m & Hm & <-)]); [by unfold int64; lia|].
  destruct (Hseen d q Hd Hq) as (q' & Hq' & Hl). destruct (HU d q' Hq') as [_ Hok]. destruct (Hl k) as [Heq|(m' & Hm' & Hnew)].
  - rewrite Heq in Hm. apply (Hok k m Hm).
  - specialize (Hnew k m Hm). destruct (Hok k m' Hm') as (_ & _ & Hi). unfold int64 in *. simpl in *. lia.
Qed.

Lemma merged_tracked now : int64 now -> L !! e = Some now -> tracked T L.
Proof.
  intros Hnow Hme. split.
  - intros d q Hq. destruct (decide (d = e)) as [->|Hne]; [rewrite HTe in Hq; simplify_eq; apply Hp|].
    rewrite HT in Hq by done. by apply HU.
  - intros d Hd. destruct (decide (d = e)) as [->|Hne]; [by exists now|]. destruct (HL d Hne Hd) as (t & Ht & Hor).
    exists t. split; [done|]. destruct Hor as [->|(q & Hq & Hn)]; [unfold int64; lia|by eapply seen_time].
  - intros d k m Hm. destruct (merged_ok d k m Hm) as (_ & ? & _). lia.
Qed.

Lemma unseen_or_same k : ~ unseen T L e k -> forall d, mutation T d k = mutation (<[e := p]> seen) d k.
Proof.
  intros Hun d. rewrite mutation_insert. unfold mutation. destruct (decide (d = e)) as [->|Hne]; [by rewrite HTe|].
  assert (forall q' m', T !! d = Some q' -> p_keys q' !! k = Some m' -> exists (t : Time) q, L !! d = Some t /\ seen !! d = Some q /\
    newest 0 (p_keys q) t /\ mt_Timestamp m' <= t) as Hold.
  { intros q' m' Hq' Hm'. destruct (HL d Hne) as (t & Ht & Hor); [by eauto|].
    destruct (Z.le_gt_cases (mt_Timestamp m') t) as [Hle|Hgt].
    - destruct Hor as [->|(q & Hq & Hn)]; [|by exists t, q]. exfalso.
      destruct (merged_ok d k m') as (_ & ? & _); [unfold mutation; by rewrite Hq'|lia].
    - exfalso. apply Hun. exists d, m', t. split_and!; [done|unfold mutation; by rewrite Hq'|done|lia]. }
  destruct (seen !! d) as [q|] eqn:Eq.
  - destruct (Hseen d q Hne Eq) as (q' & Hq' & Hl). rewrite HT, Hq' by done. destruct (Hl k) as [Heq|(m' & Hm' & Hnew)]; [done|].
    destruct (Hold q' m') as (t & q1 & Ht & [= <-] & (_ & _ & Hat) & Hle); [by rewrite HT|done|].
    destruct Hat as [->|(k0 & m0 & Hm0 & <-)].
    + destruct (merged_ok d k m') as (_ & ? & _); [unfold mutation; by rewrite HT, Hq'|lia].
    + specialize (Hnew k0 m0 Hm0). simpl in Hnew. lia.
  - destruct (T !! d) as [q'|] eqn:ET; [|done]. destruct (p_keys q' !! k) as [m'|] eqn:Em; [|done].
    destruct (Hold q' m' eq_refl Em) as (t & q & _ & Hq & _). done.
Qed.

Lemma unseen_or_not k : unseen T L e k \/ ~ unseen T L e k.
Proof.
  destruct (Exists_dec (fun d => exists mu (t : Time), d ≠ e /\ mutation T d k = Some mu /\ L !! d = Some t /\ t < mt_Timestamp mu) (elements (dom T))) as [He|He].
  - intros d. destruct (decide (d = e)) as [->|Hd]; [right; naive_solver|]. destruct (mutation T d k) as [mu|]; [|right; naive_solver].
    destruct (L !! d) as [t|]; [|right; naive_solver].
    destruct (Z_lt_dec t (mt_Timestamp mu)); [left; naive_solver|right; naive_solver].
  - left. apply list.Exists_exists in He as (d & _ & mu & t & Hd). exists d, mu, t. exact Hd.
  - right. intros (d & mu & t & Hd & Hmu & Ht & Hlt). apply He, list.Exists_exists. exists d. split; [|by exists mu, t].
    apply elem_of_elements, elem_of_dom. unfold mutation in Hmu. by destruct (T !! d).
Qed.

Lemma merge_agrees s s' : agrees s (<[e := p]> seen) ->
  (forall k m, unseen T L e k -> winner T k m -> stored s' k = mutValue m) ->
  (forall k, (forall m, k ≠ MakeMapKey m) -> k ≠ makeLastMutationKey e -> ~ unseen T L e k -> stored s' k = stored s k) ->
  agrees s' T.
Proof.
  intros Hag Hwin Hsame k Hk. destruct (Hag k Hk) as [Hw Hn].
  destruct (unseen_or_not k) as [Hun|Hun].
  - split; [by intros m Hm; apply Hwin|]. intros Hnone. destruct Hun as (d & mu & t & _ & Hmu & _). by rewrite Hnone in Hmu.
  - rewrite Hsame; [|by intros m; apply sync_not_map| |done].
    2: { intros ->. eapply sync_not_internal; [exact Hk|apply internal_times]. }
    pose proof (unseen_or_same k Hun) as Heq. split.
    + intros m Hm. apply Hw. eapply winner_ext; [|exact Hm]. done.
    + intros Hnone. apply Hn. intros d. by rewrite <- Heq.
Qed.
End merge.

(** What a collection of an idle device comes to. *)
Section collection.
Context (U : gmap InstanceID Patch) (F : gmap InstanceID (list byte)) (r : R) (e : InstanceID) (dv : device S) (now : Time).
Hypothesis (Hholds : rs_holds r F) (Hdom : forall d, is_Some (F !! d) <-> is_Some (U !! d)).
Hypothesis (HU : forall d q, U !! d = Some q -> p_myID q = d /\ mutates_ok (p_keys q) /\
  exists nonce, length nonce = 24%nat /\ F !! d = Some (patchFile q secret nonce)).
Hypothesis (Hdev : dev_inv U e dv) (Hidle : rw_adds (dv_log dv) = []) (Hnow : int64 now).

Abbreviation own := (rw_state (dv_log dv)).

Lemma gathered : (exists d, is_Some (U !! d)) -> exists devices c nu, getDevices r syncPath = inr devices /\ devices ≠ [] /\
  collectDevices r secret devices (dv_col dv) ∅ None = Ok (c, nu, None) /\ col_inv e (dv_seen dv) c /\
  (forall d, is_Some (nu !! d) -> is_Some (U !! d)) /\ (forall d, d ≠ e -> c_devicePatchTracker c !! d = U !! d).
Proof.
  intros [d0 Hd0]. destruct (getDevices_ok r F Hholds) as (devices & Hget & Hin). exists devices.
  assert (forall d, d ∈ devices <-> is_Some (U !! d)) as Hin' by (intros d; by rewrite Hin, Hdom).
  destruct (collectDevices_ok r F U e (dv_seen dv) devices (dv_col dv) ∅ Hholds) as (c & nu & Hrun & Hc & Hnu & Hall & Hrest).
  { intros d q Hq. by apply HU. }
  { by intros d ?%Hin'. }
  { apply Hdev. }
  exists c, nu. split_and!; [done| |done|done| |].
  - intros ->. apply Hin' in Hd0. by apply not_elem_of_nil in Hd0.
  - intros d Hd. apply Hnu in Hd as [[? Hd]|?]; [by rewrite lookup_empty in Hd|by apply Hin'].
  - intros d Hd. destruct (decide (d ∈ devices)) as [Hi|Hn]; [by apply Hall|]. rewrite Hrest by done.
    transitivity (@None Patch); [|symmetry]; apply eq_None_not_Some; [intros Hs; apply Hn, Hin'; by eapply di_tracker|].
    intros Hs. by apply Hn, Hin'.
Qed.

Lemma full_idle : fullPatch (dv_log dv) = own.
Proof. unfold fullPatch. by rewrite Hidle. Qed.

(** The log is left alone, and the times stay those of what was seen. *)
Lemma collected_log s' : log_inv e (dv_store dv) (dv_log dv) (dv_runner dv) ->
  (forall k, internalKey lk k -> k ≠ makeLastMutationKey e -> stored s' k = stored (dv_store dv) k) ->
  log_inv e s' (dv_log dv) (dv_runner dv).
Proof.
  intros [Hid Hh Hp Hkey Hser Hdisk Hq Hbuf Hok] Hs'. split; try done.
  - by rewrite Hs'; [|apply internal_lk|].
  - intros i. rewrite Hs' by (apply internal_element || done). apply Hbuf.
Qed.

Lemma collected_times (T : gmap InstanceID Patch) c c' : col_inv e (dv_seen dv) c -> c_myID c' = e -> c_syncPath c' = syncPath ->
  (forall d, d ≠ e -> c_devicePatchTracker c !! d = U !! d) -> (forall d, d ≠ e -> T !! d = U !! d) ->
  (forall d, d ≠ e -> is_Some (c_lastUpdateRead c' !! d) <-> is_Some (T !! d)) -> c_devicePatchTracker c' = T ->
  (forall d (t : Time) q, d ≠ e -> c_lastMutationRead c !! d = Some t -> T !! d = Some q ->
    exists n : Time, c_lastMutationRead c' !! d = Some n /\ newest t (p_keys q) n) ->
  (forall d q, d ≠ e -> T !! d = Some q -> exists n : Time, c_lastMutationRead c' !! d = Some n /\ newest 0 (p_keys q) n) /\ col_inv e T c'.
Proof.
  intros Hc Hid Hpath Htr HT Hknown HTc Htimes.
  assert (forall d q, d ≠ e -> T !! d = Some q -> exists n : Time, c_lastMutationRead c' !! d = Some n /\ newest 0 (p_keys q) n) as Hread.
  { intros d q Hd Hq. destruct (ci_read _ _ _ Hc d Hd) as (t & Ht & Hor).
    { apply (ci_known _ _ _ Hc d Hd). rewrite Htr, <- HT, Hq by done. by eauto. }
    destruct (Htimes d t q Hd Ht Hq) as (n & Hn & Hnew). exists n. split; [done|].
    destruct Hor as [->|(q0 & Hq0 & Hn0)]; [done|].
    destruct (di_seen _ _ _ Hdev d q0 Hd Hq0) as (q' & Hq' & Hl). rewrite HT, Hq' in Hq by done. simplify_eq. by eapply newest_again. }
  split; [exact Hread|]. split; [done|done| |].
  - intros d Hd. rewrite HTc. by apply Hknown.
  - intros d Hd [q Hq]%Hknown; [|done]. destruct (Hread d q Hd Hq) as (n & Hn & Hnew). exists n. split; [done|right]. by exists q.
Qed.

Lemma collect_ok : (exists d, is_Some (U !! d)) -> exists s' c' evs,
  collect keyOrder mutateOrder deviceOrder mapsOrder r secret now (dv_store dv, (dv_kv dv, dv_col dv)) =
    Done (s', (dv_kv dv, c')) evs /\
  dev_inv U e (mkDevice S s' (dv_kv dv) (dv_runner dv) c' (c_devicePatchTracker c')) /\
  agrees s' (c_devicePatchTracker c') /\ c_devicePatchTracker c' !! e = Some own /\
  (forall d, d ≠ e -> c_devicePatchTracker c' !! d = U !! d) /\
  (forall d q, d ≠ e -> U !! d = Some q -> exists t : Time, c_lastMutationRead c' !! d = Some t /\ newest 0 (p_keys q) t).
Proof.
  intros Hne. destruct (gathered Hne) as (devices & c & nu & Hget & Hd & Hrun & Hc & Hnu & Htr).
  destruct Hdev as [Hlog Hcol Hmaps Hag Hseen Htrk Hup Htm]. unfold knowledge in Hag. rewrite full_idle in Hag.
  set (c1 := c_notify c true). set (T := mergedTracker (dv_kv dv) c1). set (L := mergedTimes c1 now).
  assert (c_myID c1 = e) as Hme by apply (ci_id _ _ _ Hc).
  assert (T !! e = Some own) as HTe by (unfold T, mergedTracker; rewrite Hme; apply lookup_insert_eq).
  assert (forall d, d ≠ e -> T !! d = U !! d) as HT by (intros d Hde; unfold T, mergedTracker; rewrite Hme, lookup_insert_ne by done; by apply Htr).
  assert (L !! e = Some now) as HLe by (unfold L, mergedTimes; rewrite Hme; apply lookup_insert_eq).
  assert (forall d, d ≠ e -> is_Some (T !! d) -> exists t : Time, L !! d = Some t /\
    (t = 0 \/ exists q, dv_seen dv !! d = Some q /\ newest 0 (p_keys q) t)) as HL.
  { intros d Hde Hsome. unfold L, mergedTimes. rewrite Hme, lookup_insert_ne by done. apply (ci_read _ _ _ Hc d Hde).
    apply (ci_known _ _ _ Hc d Hde). rewrite Htr by done. by rewrite <- HT. }
  assert (p_myID own = e /\ mutates_ok (p_keys own)) as Hp by (split; [apply (li_id _ _ _ _ Hlog)|apply (li_ok _ _ _ _ Hlog)]).
  assert (forall d q, U !! d = Some q -> p_myID q = d /\ mutates_ok (p_keys q)) as HU' by (intros d q Hq; destruct (HU d q Hq) as (? & ? & _); done).
  destruct (applyChanges_ok keyOrder mutateOrder deviceOrder mapsOrder lk now (dv_store dv) (dv_kv dv) c1)
    as (s' & L' & evs & Happ & Hmaps' & Hwin & Hsame & Htimes & _); fold T; fold L; rewrite ?Hme in *.
  { by apply (merged_tracked U e own (dv_seen dv) T L HU' Hp HTe HT Hseen HL now). }
  { intros d k m Hm. by apply (merged_ok U e own T HU' Hp HTe HT d k m). }
  { done. }
  fold T in Happ, Hwin, Hsame, Htimes. fold L in Hwin, Hsame, Htimes.
  set (c2 := c_set_mutations (c_set_tracker c1 T) L') in Happ.
  exists s', (c_set_updates (c_set_synched c2) (nu ∪ c_lastUpdateRead c2)), evs.
  assert (agrees s' T) as Hag' by by apply (merge_agrees U e own (dv_seen dv) T L HU' Hp HTe HT Hseen HL (dv_store dv) s').
  destruct (collected_times T c (c_set_updates (c_set_synched c2) (nu ∪ c_lastUpdateRead c2))) as [Hread Hcol']; try done; cbn.
  { apply (ci_path _ _ _ Hc). }
  { intros d Hde. rewrite HT, <- Htr by done. rewrite <- (ci_known _ _ _ Hc d Hde). rewrite lookup_union_is_Some.
    split; [|by right]. intros [Hs|Hs]; [|done]. apply (ci_known _ _ _ Hc d Hde). rewrite Htr by done. by apply Hnu. }
  { intros d t q Hde Ht Hq. apply Htimes; [done| |done]. unfold L, mergedTimes. rewrite Hme, lookup_insert_ne by done. done. }
  split_and!; [| |done|done|done|by intros d q Hde Hq; apply Hread; [done|rewrite HT]].
  - unfold collect. rewrite (ci_path _ _ _ Hcol), Hget. destruct devices as [|d0 ds]; [done|]. rewrite Hrun.
    by rewrite (bind_Done _ _ _ _ _ Happ).
  - cbn [c_devicePatchTracker c_set_updates c_set_synched c2 c_set_mutations c_set_tracker]. split; try done.
    + apply collected_log; [done|]. intros k Hk Hkt. apply Hsame; [intros m; by apply internal_not_map|done|].
      intros (d & mu & t & _ & Hmu & _). destruct (merged_ok U e own T HU' Hp HTe HT d k mu Hmu) as (Hs & _). by apply sync_not_internal in Hs.
    + unfold knowledge. change (dv_log (mkDevice S s' (dv_kv dv) _ _ _)) with (dv_log dv). rewrite full_idle. cbn [dv_seen dv_store].
      by rewrite insert_id.
    + intros d q Hde Hq. cbn in Hq. rewrite HT in Hq by done. by exists q.
    + intros d Hde Hs. cbn in Hs. by rewrite <- HT.
Qed.
End collection.

(** ** Reachable states *)

Abbreviation step := (syncStep bufferOrder keyOrder mutateOrder elementOrder deviceOrder mapsOrder syncPath secret).

(** From a remote store without files. *)
Definition reachable w : Prop := exists r, rs_holds r ∅ /\ star step (mkWorld S R r ∅) w.

Lemma world_put w e dv dv' : world_inv w -> (w_devices w !! e = Some dv \/ w_devices w !! e = None) ->
  (forall U, (w_devices w !! e = Some dv -> dev_inv U e dv) -> (w_devices w !! e = None -> U !! e = None) -> dev_inv U e dv') ->
  world_inv (put w e dv').
Proof.
  intros [(U & F & Hholds & Hdom & HU & Hdev)] Hor Hdv'. split. exists U, F. split_and!; [done|done| |].
  - intros d q Hq. destruct (HU d q Hq) as (? & ? & ? & ?). split_and!; [done|done| |done]. cbn.
    destruct (decide (d = e)) as [->|Hne]; [by rewrite lookup_insert_eq|by rewrite lookup_insert_ne].
  - intros e' dv0. cbn. destruct (decide (e' = e)) as [->|Hne].
    + rewrite lookup_insert_eq. intros [= <-]. apply Hdv'; [apply Hdev|]. intros Hnone. apply eq_None_not_Some. intros [q Hq].
      destruct (HU e q Hq) as (_ & _ & Hs & _). rewrite Hnone in Hs. by destruct Hs.
    + rewrite lookup_insert_ne by done. apply Hdev.
Qed.

Lemma blank_agrees e s : blank s -> agrees s (<[e := newPatch e]> ∅).
Proof.
  intros Hb k Hk. assert (stored s k = None) as ->.
  { apply Hb. intros ->. eapply sync_not_internal; [exact Hk|]. right. right. by right. }
  split; [|done]. intros m (d & Hd & _). rewrite mutation_insert in Hd. unfold mutation in Hd. case_decide; by rewrite ?lookup_empty in Hd.
Qed.

Lemma blank_maps s : blank s -> maps_ok s.
Proof.
  intros Hb m. exists ∅. rewrite Hb by (by apply not_eq_sym, valid_not_map). split; [done|]. intros x. split; [set_solver|].
  rewrite Hb by (by apply not_eq_sym, valid_ne_element). split; [set_solver|by intros []].
Qed.

Lemma join_inv U e s kl ml dv : blank s -> U !! e = None ->
  startDevice bufferOrder syncPath secret e s kl ml ∅ = Ok dv -> dev_inv U e dv.
Proof.
  intros Hb HUe Hst.
  destruct (startDevice_ok U e s (newPatch e) kl ml ∅) as (dv' & Hst' & Hinv); [| | | |by apply blank_maps|by apply blank_agrees| | |].
  - intros i. by apply Hb.
  - done.
  - apply map_Forall_empty.
  - left. split; [by apply Hb|done].
  - intros d q _. by rewrite lookup_empty.
  - by rewrite HUe.
  - rewrite Hst in Hst'. by injection Hst' as <-.
Qed.

Lemma restart_inv U e dv kl ml dv' : dev_inv U e dv -> rw_adds (dv_log dv) = [] ->
  startDevice bufferOrder syncPath secret e (dv_store dv) kl ml (dv_seen dv) = Ok dv' -> dev_inv U e dv'.
Proof.
  intros [[Hid Hh Hp Hkey Hser Hdisk Hq Hbuf Hok] Hcol Hmaps Hag Hseen Htr Hup Htm] Hidle Hst.
  destruct (startDevice_ok U e (dv_store dv) (rw_state (dv_log dv)) kl ml (dv_seen dv)) as (dv1 & Hst1 & Hinv); try done.
  - intros i. apply eq_None_not_Some. intros Hi. destruct (Hbuf i Hi) as (t & Ht & _). rewrite Hidle in Ht. by apply not_elem_of_nil in Ht.
  - by apply Hok.
  - unfold knowledge in Hag. by rewrite full_idle in Hag.
  - rewrite Hst in Hst1. by injection Hst1 as <-.
Qed.

Lemma sync_step_inv w w' : world_inv w -> step w w' -> world_inv w'.
Proof.
  intros Hw Hstep. destruct Hstep as [w e s kl ml dv Hnone Hb Hst|w e dv kl ml dv' Hdv Hidle Hst|w e dv op now s ik Hdv Hop Hc Hrun
    |w e dv s rw rn Hdv Hrun|w e dv nonce r rw rn Hdv Hfire Hlen Hrun|w e dv now s ik c evs Hdv Hidle Hnow Hrun].
  - apply (world_put w e dv); [done|by right|]. intros U _ HU. eapply join_inv; [done|by apply HU|done].
  - apply (world_put w e dv); [done|by left|]. intros U Hinv _. eapply restart_inv; [by apply Hinv|done|done].
  - apply (world_put w e dv); [done|by left|]. intros U Hinv _. eapply local_step; [done|done|by apply Hinv|done].
  - apply (world_put w e dv); [done|by left|]. intros U Hinv _. eapply sync_add_step; [by apply Hinv|done].
  - by eapply upload_step.
  - destruct Hw as [(U & F & Hholds & Hdom & HU & Hdev)].
    assert (exists d, is_Some (U !! d)) as Hne.
    { destruct (getDevices_ok (w_remote w) F Hholds) as (devices & Hget & Hin). unfold collect in Hrun.
      rewrite (ci_path _ _ _ (di_col _ _ _ (Hdev e dv Hdv))), Hget in Hrun. destruct devices as [|d ds]; [done|]. exists d. apply Hdom, Hin. by left. }
    destruct (collect_ok U F (w_remote w) e dv now Hholds Hdom) as (s1 & c1 & evs1 & Hrun1 & Hinv1 & _); [|by apply Hdev|done|done|done|].
    { intros d q Hq. destruct (HU d q Hq) as (? & ? & _ & ?). done. }
    rewrite Hrun in Hrun1. injection Hrun1 as <- -> <- <-. split. exists U, F. split_and!; [done|done| |].
    + intros d q Hq. destruct (HU d q Hq) as (? & ? & ? & ?). split_and!; [done|done| |done]. cbn.
      destruct (decide (d = e)) as [->|Hne']; [by rewrite lookup_insert_eq|by rewrite lookup_insert_ne].
    + intros e' dv0. cbn. destruct (decide (e' = e)) as [->|Hne']; [rewrite lookup_insert_eq; by intros [= <-]|].
      rewrite lookup_insert_ne by done. apply Hdev.
Qed.

Lemma sync_reachable_inv w : reachable w -> world_inv w.
Proof.
  intros (r & Hr & Hstar). eapply (star_invariant step world_inv); [|exact Hstar|].
  - intros w1 w2 H1' H2'. by eapply sync_step_inv.
  - split. exists ∅, ∅. split_and!; [done| | |].
    + intros d. rewrite !lookup_empty. by split; intros [? [=]].
    + intros d q. by rewrite lookup_empty.
    + intros e dv. cbn. by rewrite lookup_empty.
Qed.

(** C10: at every moment of every run - devices joining, restarting, writing,
    queueing, uploading and collecting in any order - the store of a device
    holds for each synchronised key what the mutations it has applied come to:
    the newest one, of equally new ones that of the smallest instance, nothing
    for a deletion or a key never written; and the files of its maps list
    exactly the elements stored. *)
Theorem device_agrees w e dv : reachable w -> w_devices w !! e = Some dv ->
  agrees (dv_store dv) (knowledge e dv) /\ maps_ok (dv_store dv).
Proof.
  intros [(U & F & _ & _ & _ & Hdev)]%sync_reachable_inv Hdv. destruct (Hdev e dv Hdv) as [_ _ Hmaps Hag _ _ _ _]. done.
Qed.
End invariant.
