(* ===== verification/StoredMaps.v ===== *)
(** * Maps of the collective store

    A map of [collective] is a file that lists its elements and a file per
    element, edited together in transactions ([map.go], [transactionLog.go]).
    Here: it behaves as one finite map. *)

From S2P Require Import Prelude GoBytes KV Json Effects ByteKV MapSyntax CommandStore Patch Instances TxFile RemoteWriter InternalKV Collector CollectiveSync.

(** An edit of a map by the application. *)
Inductive mapCmd :=
| CmdStore (value : gmap string (list byte)) (now : Time)      (* StoreMap *)
| CmdDelete (element : string) (now : Time).                   (* DeleteMapElement *)

(** What it does to the finite map. *)
Definition applyCmd (M : gmap string (list byte)) (c : mapCmd) : gmap string (list byte) :=
  match c with
  | CmdStore value _ => value ∪ M
  | CmdDelete element _ => delete element M
  end.

Section maps.
Context {S : Type} `{ByteKVLaws S, !ByteKVReliable S} `{CollectiveJson}.
Context (mutateOrder : gmap string Mutate -> list string) `{!MapOrder mutateOrder}
        (elementOrder : gmap string (list byte) -> list string) `{!MapOrder elementOrder}
        (nameOrder : gset string -> list string) (Hnames : forall X e, e ∈ nameOrder X <-> e ∈ X).
Implicit Types (s : S) (ik : internalKV).

(** The call of the code. *)
Definition runCmd (mapName : string) (c : mapCmd) : act (S * internalKV) unit :=
  match c with
  | CmdStore value now => runLocal mutateOrder elementOrder (LStoreMap mapName value) now
  | CmdDelete element now => runLocal mutateOrder elementOrder (LDeleteElement mapName element) now
  end.

Fixpoint runCmds (mapName : string) (cs : list mapCmd) : act (S * internalKV) unit :=
  match cs with
  | [] => mret tt
  | c :: cs => _ ← runCmd mapName c; runCmds mapName cs
  end.

Definition cmd_ok (c : mapCmd) : Prop :=
  match c with
  | CmdStore value _ => forall e, is_Some (value !! e) -> json_name e
  | CmdDelete e _ => json_name e
  end.

(** The files of the map hold [M]. *)
Definition represents s (mapName : string) (M : gmap string (list byte)) : Prop :=
  map_ok s mapName /\ forall e, stored s (MakeElementKey mapName e) = M !! e.

Lemma writeMap_represents mapName elements toDelete now s rw M : represents s mapName M ->
  (forall e, e ∈ toDelete ∪ dom elements -> json_name e) ->
  exists s' old, rw_WriteMap mutateOrder elementOrder mapName elements toDelete now (s, rw) =
      Done (s', rw_pushed rw (writeMutates mapName elements toDelete now)) old /\
    forall M', (forall e, M' !! e = if decide (e ∈ toDelete) then None else (elements ∪ M) !! e) -> represents s' mapName M'.
Proof.
  intros [Hmap HM] Hn.
  destruct (rw_WriteMap_ok mutateOrder elementOrder mapName elements toDelete now s rw Hmap (createElementKey_valid _) Hn)
    as (s' & old & Hrun & Hs' & Hmap').
  exists s', old. split; [exact Hrun|]. intros M' HM'. split; [exact Hmap'|]. intros e.
  rewrite Hs'; [|intros Heq; by apply (valid_ne_element (nextElement rw) mapName e); [apply createElementKey_valid|]|apply element_not_map].
  unfold applied. rewrite lookup_writeMutates, HM'. case_decide; [done|]. rewrite lookup_union, HM.
  by destruct (elements !! e), (M !! e).
Qed.

Lemma runCmd_ok mapName c s ik M : represents s mapName M -> cmd_ok c ->
  exists s' ik', runCmd mapName c (s, ik) = Done (s', ik') tt /\ represents s' mapName (applyCmd M c).
Proof.
  intros Hrep Hok. destruct c as [value now|e now]; cbn [runCmd applyCmd].
  - destruct (writeMap_represents mapName value ∅ now s (ik_txLog ik) M Hrep) as (s' & old & Hrun & Hs').
    { intros e He. apply Hok, elem_of_dom. set_solver. }
    eexists s', _. split; [|apply Hs'; intros e; by rewrite decide_False by set_solver].
    cbn [runLocal]. unfold ik_StoreMap. by rewrite (onLog_Done _ _ _ _ _ _ Hrun).
  - destruct (writeMap_represents mapName ∅ {[e]} now s (ik_txLog ik) M Hrep) as (s' & old & Hrun & Hs').
    { intros e' He. assert (e' = e) as -> by set_solver. exact Hok. }
    eexists s', _. split.
    + cbn [runLocal]. unfold ik_DeleteMapElement, mbind, act_bind. by rewrite (onLog_Done _ _ _ _ _ _ Hrun).
    + apply Hs'. intros e'. rewrite (left_id_L ∅ (∪)). destruct (decide (e' = e)) as [->|Hne].
      * by rewrite lookup_delete_eq, decide_True by set_solver.
      * by rewrite lookup_delete_ne, decide_False by set_solver.
Qed.

Lemma runCmds_ok mapName cs s ik M : represents s mapName M -> Forall cmd_ok cs ->
  exists s' ik', runCmds mapName cs (s, ik) = Done (s', ik') tt /\ represents s' mapName (foldl applyCmd M cs).
Proof.
  revert s ik M. induction cs as [|c cs IH]; intros s ik M Hrep Hok.
  { exists s, ik. done. }
  apply Forall_cons_iff in Hok as [Hc Hcs]. destruct (runCmd_ok mapName c s ik M Hrep Hc) as (s1 & ik1 & Hrun & Hrep1).
  destruct (IH s1 ik1 _ Hrep1 Hcs) as (s2 & ik2 & Hrun2 & Hrep2). exists s2, ik2. split; [|exact Hrep2].
  cbn [runCmds]. unfold mbind, act_bind. by rewrite Hrun.
Qed.

(** C17: a map of the collective store refines a finite map.  After any sequence
    of [StoreMap] and [DeleteMapElement] calls, none of which fails, [GetMap]
    returns exactly the elements the same sequence leaves in a finite map, and
    [GetMapElement] its element or the error that there is none.  [StoreMap] adds
    and replaces elements: those it does not name stay, although the comment of
    the source says that keys no longer used are deleted. *)
Theorem stored_map_refines mapName cs s ik M : represents s mapName M -> Forall cmd_ok cs ->
  exists s' ik', runCmds mapName cs (s, ik) = Done (s', ik') tt /\
    let M' := foldl applyCmd M cs in
    (exists t, ik_GetMap nameOrder mapName s' = Done t (Some <$> M')) /\
    forall e, exists t, ik_GetMapElement mapName e s' =
      match M' !! e with
      | Some v => Done t v
      | None => Fail t (Wrapf "for map '%s' element '%s'" [] ErrMapElementNotFound)
      end.
Proof.
  intros Hrep Hok. destruct (runCmds_ok mapName cs s ik M Hrep Hok) as (s' & ik' & Hrun & Hmap & HM).
  exists s', ik'. split; [exact Hrun|]. split.
  - destruct (GetMap_ok nameOrder Hnames mapName s' Hmap) as (t & m & _ & Hget & Hm). exists t. rewrite Hget. f_equal.
    apply map_eq. intros e. rewrite Hm, HM, lookup_fmap. by destruct (_ !! e).
  - intros e. destruct (GetMapElement_ok mutateOrder elementOrder nameOrder Hnames mapName e s' Hmap) as (t & _ & Hget). exists t. by rewrite Hget, HM.
Qed.
End maps.

(** ** A map in memory *)

Section example.
#[local] Instance sm_aead_hash : CMixHash := fun b => x00 :: b.
#[local] Instance sm_patch : JsonCodec (gmap string Mutate) := countableCodec _.
#[local] Instance sm_set : JsonCodec (gset string) := countableCodec _.
#[local] Instance sm_json : CollectiveJson := {| json_name _ := True; patch_json _ _ := I; set_json _ _ := I |}.

Definition sm_kv : internalKV :=
  mkInternalKV (mkWriter "" (newHeader (iid_of [])) (newPatch (iid_of [])) [] (makeLocalWriteKey "sync") 0 false defaultUploadPeriod) ∅ ∅.

(** Two elements are stored and one is deleted: the other is left. *)
Lemma stored_map_refines_witness : exists s' ik',
  runCmds keysInOrder keysInOrder "map" [CmdStore {["a" := [x01]; "b" := [x02]]} 5; CmdDelete "a" 6] (∅ : MemBytes, sm_kv) = Done (s', ik') tt /\
  exists t, ik_GetMap elements "map" s' = Done t (Some <$> {["b" := [x02]]}).
Proof.
  destruct (stored_map_refines keysInOrder keysInOrder elements (fun X e => elem_of_elements X e) "map"
    [CmdStore {["a" := [x01]; "b" := [x02]]} 5; CmdDelete "a" 6] ∅ sm_kv ∅) as (s' & ik' & Hrun & Hget & _).
  - split; [|reflexivity]. exists ∅. split; [reflexivity|]. intros e. split; [exact (fun _ => I)|].
    split; [intros []%not_elem_of_empty|by intros []].
  - apply List.Forall_cons; [intros e _; exact I|]. apply List.Forall_cons; [exact I|apply List.Forall_nil].
  - exists s', ik'. split; [exact Hrun|exact Hget].
Defined.
End example.
