(* ===== verification/FileTree.v ===== *)
(** * A remote store in memory

    The remote store that [collective] is given (a [RemoteStore] of the
    application) as a tree of files, and that it keeps what [RemoteLaws] asks
    for: the path of a device's patch is one directory below the
    synchronisation path per device, so that the directory lists the devices. *)

From Stdlib Require Import Ascii.
From S2P Require Import Prelude GoBytes KV Base64Raw Json Effects ByteKV CommandStore Patch Instances TxFile RemoteWriter CollectiveSync.

(** ** Paths *)

Lemma splitSlash_ne p : splitSlash p ≠ [].
Proof. induction p as [|c p IH]; simpl; [done|]. case_match; [done|]. by destruct (splitSlash p). Qed.

Lemma splitSlash_app a b : splitSlash (a ++ "/"%char :: b) = splitSlash a ++ splitSlash b.
Proof.
  induction a as [|c a IH]; [done|]. simpl. rewrite IH. case_match; [done|].
  pose proof (splitSlash_ne a). by destruct (splitSlash a).
Qed.

Lemma splitSlash_plain e : "/"%char ∉ e -> splitSlash e = [e].
Proof.
  induction e as [|c e IH]; [done|]. intros [Hc He]%not_elem_of_cons. simpl. rewrite IH by done.
  destruct (Ascii.eqb_spec c "/"%char); congruence.
Qed.

Lemma joinSlash_split p : joinSlash (splitSlash p) = p.
Proof.
  induction p as [|c p IH]; [done|]. simpl. pose proof (splitSlash_ne p).
  destruct (Ascii.eqb_spec c "/"%char) as [->|Hc]; destruct (splitSlash p) as [|e es]; simpl in *; [done|by rewrite IH|done|].
  destruct es; simpl in *; by rewrite <- IH.
Qed.

(** An element [filepath.Clean] keeps. *)
Definition plainElement (e : list ascii) : Prop := e ≠ [] /\ e ≠ ["."%char] /\ e ≠ ["."; "."]%char.

Lemma clean_plain rooted es out : Forall plainElement es -> foldl (cleanStep rooted) out es = rev es ++ out.
Proof.
  intros Hes. revert out. induction Hes as [|e es (H1 & H2 & H3) _ IH]; intros out; [done|]. simpl. rewrite IH, <- app_assoc. simpl.
  unfold cleanStep. by rewrite !bool_decide_false by done.
Qed.

Lemma pathClean_plain p : Forall plainElement (splitSlash p) -> pathClean p = p.
Proof.
  intros Hp. unfold pathClean. rewrite clean_plain, app_nil_r, rev_involutive, joinSlash_split by done.
  destruct p as [|c p]; simpl in *; [by apply Forall_cons_iff in Hp as [(? & _) _]|].
  destruct (Ascii.eqb c "/"); [by apply Forall_cons_iff in Hp as [(? & _) _]|done].
Qed.

Lemma rawURL_element bs : bs ≠ [] -> splitSlash (rawEncode rawURLAlphabet bs) = [rawEncode rawURLAlphabet bs] /\
  plainElement (rawEncode rawURLAlphabet bs).
Proof.
  intros Hbs. assert (forall c, c ∈ rawEncode rawURLAlphabet bs -> c ≠ "/"%char /\ c ≠ "."%char) as Hc.
  { assert (Forall (fun c => c ≠ "/"%char /\ c ≠ "."%char) rawURLAlphabet) as Hall by by apply (bool_decide_unpack _); vm_compute.
    rewrite list.Forall_forall in Hall. intros c Hc%(rawEncode_chars _). by apply Hall. }
  split; [apply splitSlash_plain; by intros [? _]%Hc|]. split_and!.
  - intros E. apply Hbs. apply (rawEncode_inj rawURLAlphabet). by rewrite E.
  - intros E. rewrite E in Hc. by destruct (Hc "."%char (list_elem_of_here _ _)).
  - intros E. rewrite E in Hc. by destruct (Hc "."%char (list_elem_of_here _ _)).
Qed.

(** ** The tree of files *)

Abbreviation fileTree := (gmap string (list byte)).

(** The directory below [dir] that the file is in. *)
Definition childOf (dir file : string) : option string :=
  let ds := splitSlash (chars dir) in
  let fs := splitSlash (chars file) in
  if bool_decide (take (length ds) fs = ds) then
    match drop (length ds) fs with
    | e :: _ :: _ => Some (String.string_of_list_ascii e)
    | _ => None
    end
  else None.

#[export] Instance fileTree_store : RemoteStore fileTree := {
  rs_Read r path := match r !! path with Some b => inr b | None => inl errNoBytes end;
  rs_Write r path data := (<[path := data]> r, None);
  rs_GetLastModified r path := match r !! path with Some _ => inr 0 | None => inl errNoBytes end;
  rs_ReadDir r path := inr (remove_dups (omap (childOf path) (keysInOrder r)));
}.

Section laws.
Context `{CMixHash} (syncPath : string) (secret : list byte).
Hypothesis (Hhash : forall b, cMixHash b ≠ []) (Hpath : Forall plainElement (splitSlash (chars syncPath))).

Lemma logPath_elements d : splitSlash (chars (logPath syncPath secret d)) =
  splitSlash (chars syncPath) ++ [chars (InstanceID_String d); chars (keyID secret d); chars "state.xx"].
Proof.
  destruct (rawURL_element (iid_bytes d)) as [Hd1 Hd2]; [intros E; pose proof (iid_length d) as Hl; by rewrite E in Hl|].
  destruct (rawURL_element (cMixHash (secret ++ iid_bytes d)) (Hhash _)) as [Hk1 Hk2].
  rewrite <- String_chars in Hd1, Hd2.
  assert (chars (keyID secret d) = rawEncode rawURLAlphabet (cMixHash (secret ++ iid_bytes d))) as Hkey
    by apply String.list_ascii_of_string_of_list_ascii. rewrite <- Hkey in Hk1, Hk2.
  unfold logPath, getTxLogPath, pathJoin. rewrite !chars_app. change (chars "/") with ["/"%char].
  change (chars "/state.xx") with ("/"%char :: chars "state.xx"). cbn [app].
  assert (splitSlash (chars syncPath ++ "/"%char :: chars (InstanceID_String d) ++ "/"%char :: chars (keyID secret d) ++ "/"%char :: chars "state.xx") =
    splitSlash (chars syncPath) ++ [chars (InstanceID_String d); chars (keyID secret d); chars "state.xx"]) as Hsplit.
  { rewrite !splitSlash_app, Hd1, Hk1. done. }
  destruct (chars syncPath) as [|a p] eqn:Ep; [by apply Forall_cons_iff in Hpath as [(? & _) _]|].
  destruct (chars (InstanceID_String d)) as [|b q] eqn:Eq; [by destruct Hd2|]. cbn [app] in *. cbn match.
  unfold chars at 1. rewrite String.list_ascii_of_string_of_list_ascii.
  rewrite pathClean_plain; [exact Hsplit|]. rewrite Hsplit. apply Forall_app. split; [done|]. repeat apply List.Forall_cons; try done.
Qed.

Lemma childOf_log d : childOf syncPath (logPath syncPath secret d) = Some (InstanceID_String d).
Proof.
  unfold childOf. rewrite logPath_elements, take_app_length, drop_app_length, bool_decide_true by done.
  f_equal. apply String.string_of_list_ascii_of_string.
Qed.

Lemma logPath_inj d d' : logPath syncPath secret d = logPath syncPath secret d' -> d = d'.
Proof.
  intros E. apply (f_equal (childOf syncPath)) in E. rewrite !childOf_log in E. apply InstanceID_String_inj. congruence.
Qed.

Definition fileTree_laws : RemoteLaws (R := fileTree) syncPath secret.
Proof.
  assert (Inj (=) (=) (logPath syncPath secret)) as Hinj by exact logPath_inj.
  refine {| rs_holds r F := r = kmap (logPath syncPath secret) F |}; simpl.
  - intros r F d b -> HF. by rewrite lookup_kmap, HF by done.
  - intros r F d -> HF. rewrite lookup_kmap, HF by done. eauto.
  - intros r F d -> [b HF]. rewrite lookup_kmap, HF by done. eauto.
  - intros r F ->. eexists. split; [reflexivity|]. intros n. rewrite elem_of_remove_dups, list_elem_of_omap. split.
    + intros (p & Hp & Hn). apply map_order_elem in Hp as [b Hb]. apply lookup_kmap_Some in Hb as (d & -> & HF); [|done].
      rewrite childOf_log in Hn. exists d. split; [by eauto|congruence].
    + intros (d & [b HF] & ->). exists (logPath syncPath secret d). split; [|by apply childOf_log].
      apply map_order_elem. rewrite lookup_kmap, HF by done. eauto.
  - intros r F d b ->. eexists. split; [reflexivity|]. by rewrite kmap_insert.
Defined.
End laws.
