(* ===== verification/Convergence.v ===== *)
(** * Convergence of the devices

    What the synchronisation of [collective] promises.  At every moment the
    store of a device holds what the mutations it has applied come to; the
    threads of the transaction logs bring every device to a settled state; and
    from there one collection each makes the stores equal: every key holds the
    newest mutation any device made. *)

From Stdlib Require Import Ascii.
From S2P Require Import Prelude GoBytes KV Base64Raw Json Effects ByteKV MapSyntax CommandStore Patch Instances TxFile RemoteWriter InternalKV Collector CollectiveSync FileTree.

Section convergence.
Context {S R : Type} `{ByteKVLaws S, !ByteKVReliable S} `{RemoteStore R} `{CollectiveJson}
        `{JsonCodec (gmap InstanceID Time)} `{AEADLaws} `{CMixHash}.
Context (bufferOrder : gmap Z (gmap string Mutate) -> list Z) `{!MapOrder bufferOrder}
        (keyOrder : gmap string Mutate -> list string) `{!MapOrder keyOrder}
        (mutateOrder : gmap string Mutate -> list string) `{!MapOrder mutateOrder}
        (elementOrder : gmap string (list byte) -> list string) `{!MapOrder elementOrder}
        (deviceOrder : gmap InstanceID Patch -> list InstanceID) `{!MapOrder deviceOrder}
        (mapsOrder : gmap string (gmap string Mutate) -> list string) `{!MapOrder mapsOrder}.
Context (syncPath : string) (secret : list byte) `{!RemoteLaws (R := R) syncPath secret}.

Abbreviation lk := (makeLocalWriteKey syncPath).
Abbreviation step := (syncStep bufferOrder keyOrder mutateOrder elementOrder deviceOrder mapsOrder syncPath secret).
Abbreviation run := (collect keyOrder mutateOrder deviceOrder mapsOrder).
Implicit Types (s : S) (dv : device S) (w : world S R) (e d : InstanceID).

(** All that the devices have written, uploaded or not. *)
Definition written w : gmap InstanceID Patch := (fun dv => fullPatch (dv_log dv)) <$> w_devices w.

(** The log of a device is idle and its patch is in the remote store. *)
Definition uploaded w e : Prop := exists dv nonce, w_devices w !! e = Some dv /\ rw_adds (dv_log dv) = [] /\ length nonce = 24%nat /\
  rs_Read (w_remote w) (logPath syncPath secret e) = inr (patchFile (rw_state (dv_log dv)) secret nonce).

Definition settled w : Prop := forall e, is_Some (w_devices w !! e) -> uploaded w e.

Lemma lookup_written w e : is_Some (written w !! e) <-> is_Some (w_devices w !! e).
Proof. unfold written. rewrite lookup_fmap. apply fmap_is_Some. Qed.

Lemma mutates_json (m : gmap string Mutate) : mutates_ok syncPath m -> json_ok m.
Proof. intros Hok. apply patch_json. eapply map_Forall_impl; [exact Hok|]. intros k mu ([? _] & _ & ?). done. Qed.

(** ** Settling *)

Lemma rs_frame (r r' : R) F e e' x b : rs_holds r F -> rs_holds r' (<[e := x]> F) -> e' ≠ e ->
  rs_Read r (logPath syncPath secret e') = inr b -> rs_Read r' (logPath syncPath secret e') = inr b.
Proof.
  intros Hr Hr' Hne Hb. destruct (F !! e') as [b'|] eqn:EF.
  - rewrite (rs_read r F e' b' Hr EF) in Hb. injection Hb as <-. apply (rs_read r' _ e' b' Hr'). by rewrite lookup_insert_ne.
  - destruct (rs_read_none r F e' Hr EF) as [x' Hx]. congruence.
Qed.

(** The device after the thread of its log took a transaction, or uploaded. *)
Definition dv_with dv s (rw : remoteWriter) (rn : runner) : device S :=
  mkDevice S s (mkInternalKV rw (ik_keyUpdateListeners (dv_kv dv)) (ik_mapUpdateListeners (dv_kv dv))) rn (dv_col dv) (dv_seen dv).

Lemma put_put w e dv1 dv2 : put (put w e dv1) e dv2 = put w e dv2.
Proof. unfold put. cbn. by rewrite insert_insert_eq. Qed.

Lemma put_id w e dv : w_devices w !! e = Some dv -> put w e dv = w.
Proof. intros Hdv. unfold put. rewrite insert_id by done. by destruct w. Qed.

Lemma written_put w e dv dv' : w_devices w !! e = Some dv -> fullPatch (dv_log dv') = fullPatch (dv_log dv) ->
  (fun dv => fullPatch (dv_log dv)) <$> <[e := dv']> (w_devices w) = written w.
Proof.
  intros Hdv Hfull. unfold written. rewrite fmap_insert, Hfull. apply insert_id. by rewrite lookup_fmap, Hdv.
Qed.

Hypothesis Hlk : IsValidKey lk = None.

Lemma inv_step w w' : world_inv syncPath secret w -> step w w' -> world_inv syncPath secret w'.
Proof. by apply sync_step_inv. Qed.

(** ** The threads of the logs *)

(** A step of the thread of a device's log: it takes a transaction from its
    queue, or its timer fires and it uploads. *)
Inductive logStep : world S R -> world S R -> Prop :=
| LogAdd w e dv s rw rn :
    w_devices w !! e = Some dv -> rw_adds (dv_log dv) ≠ [] ->
    runnerAdd (dv_store dv, (dv_log dv, dv_runner dv)) = Done (s, (rw, rn)) tt ->
    logStep w (put w e (dv_with dv s rw rn))
| LogUpload w e dv nonce r rw rn :
    w_devices w !! e = Some dv -> is_Some (rn_timer (dv_runner dv)) -> length nonce = 24%nat ->
    runnerTimer secret nonce (w_remote w, (dv_log dv, dv_runner dv)) = Done (r, (rw, rn)) tt ->
    logStep w (mkWorld S R r (<[e := dv_with dv (dv_store dv) rw rn]> (w_devices w))).

Lemma logStep_step w w' : logStep w w' -> step w w'.
Proof.
  destruct 1 as [w e dv s rw rn Hdv _ Hrun|w e dv nonce r rw rn Hdv Htm Hlen Hrun].
  - by apply (StepAdd _ _ _ _ _ _ _ _ w e dv s rw rn).
  - by apply (StepUpload _ _ _ _ _ _ _ _ w e dv nonce r rw rn).
Qed.

Lemma log_inv_step w w' : world_inv syncPath secret w -> logStep w w' -> world_inv syncPath secret w'.
Proof. intros Hw Hs%logStep_step. by eapply inv_step. Qed.

(** The work left to the thread of a log: each queued transaction may set the
    timer. *)
Definition devWork dv : nat :=
  2 * length (rw_adds (dv_log dv)) + match rn_timer (dv_runner dv) with Some _ => 1 | None => 0 end.
Definition logWork w : nat := sum_list (devWork <$> (map_to_list (w_devices w)).*2).

Lemma logWork_insert w r e dv dv' : w_devices w !! e = Some dv -> (devWork dv' < devWork dv)%nat ->
  (logWork (mkWorld S R r (<[e := dv']> (w_devices w))) < logWork w)%nat.
Proof.
  intros Hdv Hlt. unfold logWork. cbn [w_devices].
  rewrite <- (insert_delete_eq (w_devices w) e dv'), (map_to_list_insert (delete e (w_devices w)) e dv') by apply lookup_delete_eq.
  rewrite <- (insert_delete_id (w_devices w) e dv) at 2 by done.
  rewrite (map_to_list_insert (delete e (w_devices w)) e dv) by apply lookup_delete_eq. cbn [fmap list_fmap sum_list snd foldr]. apply Nat.add_lt_mono_r, Hlt.
Qed.

(** A step does some of the work and changes nothing that was written. *)
Lemma logStep_works w w' : world_inv syncPath secret w -> logStep w w' ->
  (logWork w' < logWork w)%nat /\ written w' = written w.
Proof.
  intros [(U & F & Hholds & _ & _ & Hdev)] Hstep.
  destruct Hstep as [w e dv s rw rn Hdv Hne Hrun|w e dv nonce r rw rn Hdv [tm Htm] Hlen Hrun].
  - destruct (rw_adds (dv_log dv)) as [|t adds] eqn:Eadds; [done|]. clear Hne.
    pose proof (li_key _ _ _ _ _ _ (di_log _ _ _ _ _ (Hdev e dv Hdv))) as Hkey.
    destruct (runnerAdd_ok syncPath (dv_store dv) (dv_log dv) (dv_runner dv) t adds Hkey Eadds) as (s1 & rn1 & Hrun1 & _).
    rewrite Hrun1 in Hrun. injection Hrun as <- <- <-. split.
    + apply (logWork_insert w _ e dv); [done|]. unfold devWork. rewrite Eadds. cbn. destruct (rn_timer rn1); lia.
    + apply (written_put w e dv); [done|]. unfold fullPatch. by rewrite Eadds.
  - destruct (runnerTimer_ok syncPath secret _ F e _ _ _ nonce Hholds (di_log _ _ _ _ _ (Hdev e dv Hdv))) as (r' & Hrun1 & _).
    rewrite Hrun1 in Hrun. injection Hrun as <- <- <-. split.
    + apply (logWork_insert w _ e dv); [done|]. unfold devWork. rewrite Htm. cbn. lia.
    + by apply (written_put w e dv).
Qed.

(** No run is longer than the work at its start. *)
Inductive logRun : nat -> world S R -> world S R -> Prop :=
| logRun_nil w : logRun 0 w w
| logRun_cons n w1 w2 w3 : logStep w1 w2 -> logRun n w2 w3 -> logRun (Datatypes.S n) w1 w3.

Lemma logRun_works n w w' : world_inv syncPath secret w -> logRun n w w' ->
  world_inv syncPath secret w' /\ (n + logWork w' <= logWork w)%nat /\ written w' = written w /\ star step w w'.
Proof.
  intros Hw Hrun. induction Hrun as [w|n w1 w2 w3 Hstep _ IH]; [split_and!; [done|lia|done|apply star_refl]|].
  destruct (logStep_works w1 w2 Hw Hstep) as [Hlt Hwr]. pose proof (log_inv_step w1 w2 Hw Hstep) as Hw2.
  destruct (IH Hw2) as (Hw3 & Hle & Hwr3 & Hst). split_and!; [done|lia|congruence|].
  eapply star_step; [by apply logStep_step|done].
Qed.

Lemma star_logRun w w' : star logStep w w' -> exists n, logRun n w w'.
Proof.
  induction 1 as [w|w1 w2 w3 Hst _ [n Hn]]; [exists 0%nat; constructor|]. exists (Datatypes.S n). by econstructor.
Qed.

(** The thread of the log empties its queue. *)
Lemma drain w e dv : world_inv syncPath secret w -> w_devices w !! e = Some dv ->
  exists dv', star logStep w (put w e dv') /\ world_inv syncPath secret (put w e dv') /\
    rw_adds (dv_log dv') = [] /\ fullPatch (dv_log dv') = fullPatch (dv_log dv).
Proof.
  remember (rw_adds (dv_log dv)) as adds eqn:Eadds. revert w dv Eadds.
  induction adds as [|t adds IH]; intros w dv Eadds Hw Hdv.
  { exists dv. rewrite put_id by done. split_and!; [apply star_refl|done|done|done]. }
  pose proof Hw as [(U & F & _ & _ & _ & Hdev)]. pose proof (li_key _ _ _ _ _ _ (di_log _ _ _ _ _ (Hdev e dv Hdv))) as Hkey.
  destruct (runnerAdd_ok syncPath (dv_store dv) (dv_log dv) (dv_runner dv) t adds Hkey (eq_sym Eadds)) as (s1 & rn1 & Hrun & _).
  set (rw1 := rw_set_state _ _ _) in Hrun. set (dv1 := dv_with dv s1 rw1 rn1).
  assert (logStep w (put w e dv1)) as Hstep by (apply (LogAdd w e dv s1 rw1 rn1); [done|by rewrite <- Eadds|done]).
  assert (world_inv syncPath secret (put w e dv1)) as Hw1 by by eapply log_inv_step.
  destruct (IH (put w e dv1) dv1) as (dv' & Hstar & Hw' & Hidle & Hfull); [reflexivity|exact Hw1|apply lookup_insert_eq|].
  rewrite put_put in Hstar, Hw'. exists dv'. split_and!; [by eapply star_step|done|done|].
  rewrite Hfull. unfold fullPatch. by rewrite <- Eadds.
Qed.

(** An idle device uploads, or has uploaded already. *)
Lemma upload w e dv : world_inv syncPath secret w -> w_devices w !! e = Some dv -> rw_adds (dv_log dv) = [] ->
  exists w', star logStep w w' /\ world_inv syncPath secret w' /\ written w' = written w /\ uploaded w' e /\
    forall e', e' ≠ e -> uploaded w e' -> uploaded w' e'.
Proof.
  intros Hw Hdv Hidle. pose proof Hw as [(U & F & Hholds & _ & HU & Hdev)]. pose proof (Hdev e dv Hdv) as Hinv.
  destruct (rn_timer (dv_runner dv)) as [tm|] eqn:Etm.
  - set (nonce := replicate 24 x00). destruct (runnerTimer_ok syncPath secret _ F e _ _ _ nonce Hholds (di_log _ _ _ _ _ Hinv)) as (r' & Hrun & Hr').
    set (rn1 := mkRunner _ _ _) in Hrun. set (rw1 := rw_notify _ _) in Hrun. set (dv1 := dv_with dv (dv_store dv) rw1 rn1).
    exists (mkWorld S R r' (<[e := dv1]> (w_devices w))).
    assert (logStep w (mkWorld S R r' (<[e := dv1]> (w_devices w)))) as Hstep
      by exact (LogUpload w e dv nonce r' rw1 rn1 Hdv (mk_is_Some _ _ Etm) eq_refl Hrun).
    split_and!; [apply (star_step _ _ _ _ Hstep), star_refl|exact (log_inv_step _ _ Hw Hstep)| | |].
    + by apply (written_put w e dv).
    + exists dv1, nonce. split_and!; [cbn; apply lookup_insert_eq|done|done|]. apply (rs_read r' _ e _ Hr'). apply lookup_insert_eq.
    + intros e' Hne (dv' & nonce' & Hdv' & Hidle' & Hlen & Hread). exists dv', nonce'. cbn. rewrite lookup_insert_ne by done.
      split_and!; [done|done|done|]. by apply (rs_frame (w_remote w) r' F e e' _ _ Hholds Hr').
  - exists w. split_and!; [apply star_refl|done|done| |done].
    destruct (HU e _ (di_timer _ _ _ _ _ Hinv Etm)) as (_ & _ & _ & nonce & Hlen & HF).
    exists dv, nonce. split_and!; [done|done|done|]. by apply (rs_read _ F).
Qed.

Lemma settle_device w e : world_inv syncPath secret w -> is_Some (w_devices w !! e) ->
  exists w', star logStep w w' /\ world_inv syncPath secret w' /\ written w' = written w /\ uploaded w' e /\
    forall e', e' ≠ e -> uploaded w e' -> uploaded w' e'.
Proof.
  intros Hw [dv Hdv]. destruct (drain w e dv Hw Hdv) as (dv1 & Hstar1 & Hw1 & Hidle & Hfull).
  destruct (upload (put w e dv1) e dv1 Hw1) as (w' & Hstar & Hw' & Hwr & Hup & Hrest); [cbn; apply lookup_insert_eq|done|].
  exists w'. split_and!; [by eapply star_trans|done| |done|].
  - rewrite Hwr. by apply (written_put w e dv).
  - intros e' Hne (dv' & nonce' & Hdv' & ?). apply Hrest; [done|]. exists dv', nonce'. cbn. by rewrite lookup_insert_ne.
Qed.

Lemma settle w : world_inv syncPath secret w -> exists w', star logStep w w' /\ settled w' /\ written w' = written w.
Proof.
  intros Hw.
  assert (forall l : list InstanceID, NoDup l -> (forall e, e ∈ l -> is_Some (w_devices w !! e)) ->
    exists w', star logStep w w' /\ world_inv syncPath secret w' /\ written w' = written w /\ forall e, e ∈ l -> uploaded w' e) as Hl.
  { induction 1 as [|e l Hnin Hnd IH]; intros Hin.
    { exists w. split_and!; [apply star_refl|done|done|]. intros e He. by apply not_elem_of_nil in He. }
    destruct IH as (w1 & Hstar1 & Hw1 & Hwr1 & Hup1); [set_solver|].
    destruct (settle_device w1 e Hw1) as (w2 & Hstar2 & Hw2 & Hwr2 & Hup2 & Hrest).
    { apply (lookup_written w1). rewrite Hwr1. apply lookup_written. apply Hin. by left. }
    exists w2. split_and!; [by eapply star_trans|done|congruence|]. intros e' [->|He']%elem_of_cons; [done|].
    apply Hrest; [by intros ->|by apply Hup1]. }
  destruct (Hl (elements (dom (w_devices w)))) as (w' & Hstar & Hw' & Hwr & Hup).
  { apply NoDup_elements. }
  { intros e He. by apply elem_of_dom, elem_of_elements. }
  exists w'. split_and!; [done| |done]. intros e He. apply Hup, elem_of_elements, elem_of_dom, lookup_written.
  rewrite <- Hwr. by apply lookup_written.
Qed.

(** A state in which no thread of a log can take a step is settled. *)
Lemma stuck_settled w : world_inv syncPath secret w -> (forall w', ~ logStep w w') -> settled w.
Proof.
  intros Hw Hstuck e [dv Hdv]. pose proof Hw as [(U & F & Hholds & _ & HU & Hdev)]. pose proof (Hdev e dv Hdv) as Hinv.
  assert (rw_adds (dv_log dv) = []) as Hidle.
  { destruct (rw_adds (dv_log dv)) as [|t adds] eqn:Eadds; [done|]. exfalso.
    destruct (runnerAdd_ok syncPath (dv_store dv) (dv_log dv) (dv_runner dv) t adds
      (li_key _ _ _ _ _ _ (di_log _ _ _ _ _ Hinv)) Eadds) as (s1 & rn1 & Hrun & _).
    eapply Hstuck, LogAdd; [done| |exact Hrun]. by rewrite Eadds. }
  destruct (rn_timer (dv_runner dv)) as [tm|] eqn:Etm.
  - exfalso. destruct (runnerTimer_ok syncPath secret _ F e _ _ _ (replicate 24 x00) Hholds (di_log _ _ _ _ _ Hinv)) as (r' & Hrun & _).
    eapply Hstuck, LogUpload; [done|by rewrite Etm| |exact Hrun]. done.
  - destruct (HU e _ (di_timer _ _ _ _ _ Hinv Etm)) as (_ & _ & _ & nonce & Hlen & HF).
    exists dv, nonce. split_and!; [done|done|done|]. by apply (rs_read _ F).
Qed.

(** ** Agreement *)

(** What is in the remote store of a settled world. *)
Lemma settled_remote w U F e : rs_holds (w_remote w) F -> (forall d, is_Some (F !! d) <-> is_Some (U !! d)) ->
  (forall d q, U !! d = Some q -> p_myID q = d /\ mutates_ok syncPath (p_keys q) /\ is_Some (w_devices w !! d) /\
      exists nonce, length nonce = 24%nat /\ F !! d = Some (patchFile q secret nonce)) ->
  (forall e dv, w_devices w !! e = Some dv -> dev_inv syncPath secret U e dv) ->
  settled w -> U !! e = written w !! e.
Proof.
  intros Hholds Hdom HU Hdev Hset. unfold written. rewrite lookup_fmap. destruct (w_devices w !! e) as [dv|] eqn:Edv; simpl.
  - destruct (Hset e) as (dv' & nonce & Hdv' & Hidle & Hlen & Hread); [by rewrite Edv|]. rewrite Edv in Hdv'. injection Hdv' as <-.
    destruct (F !! e) as [b|] eqn:EF.
    2:{ destruct (rs_read_none _ F e Hholds EF) as [x Hx]. congruence. }
    destruct (proj1 (Hdom e)) as [q Hq]; [by rewrite EF|]. rewrite Hq. f_equal. unfold fullPatch. rewrite Hidle. simpl.
    destruct (HU e q Hq) as (Hid & Hok & _ & nonce' & Hlen' & HF). rewrite (rs_read _ F e _ Hholds HF) in Hread.
    pose proof (di_log _ _ _ _ _ (Hdev e dv Edv)) as Hlog. apply (inj inr) in Hread as Hfile.
    pose proof (file_roundtrip q secret nonce' (mutates_json _ Hok) Hlen') as H1'.
    pose proof (file_roundtrip (rw_state (dv_log dv)) secret nonce (mutates_json _ (proj1 (li_ok _ _ _ _ _ _ Hlog))) Hlen) as H2'.
    rewrite (li_id _ _ _ _ _ _ Hlog) in H2'. rewrite Hid, Hfile, H2' in H1'. by injection H1' as ->.
  - apply eq_None_not_Some. intros [q Hq]. destruct (HU e q Hq) as (_ & _ & Hs & _). rewrite Edv in Hs. by destruct Hs.
Qed.

(** A collection of a settled world brings a device to what all have written. *)
Lemma collect_settled w e dv now : world_inv syncPath secret w -> settled w -> w_devices w !! e = Some dv -> int64 now ->
  exists s c evs, run (w_remote w) secret now (dv_store dv, (dv_kv dv, dv_col dv)) = Done (s, (dv_kv dv, c)) evs /\
    agrees syncPath s (written w) /\ maps_ok s.
Proof.
  intros [(U & F & Hholds & Hdom & HU & Hdev)] Hset Hdv Hnow.
  assert (forall d, U !! d = written w !! d) as HUw by (intros d; by eapply settled_remote).
  destruct (Hset e) as (dv' & nonce & Hdv' & Hidle & _); [by rewrite Hdv|]. rewrite Hdv in Hdv'. injection Hdv' as <-.
  assert (written w !! e = Some (rw_state (dv_log dv))) as Hown.
  { unfold written. rewrite lookup_fmap, Hdv. simpl. unfold fullPatch. by rewrite Hidle. }
  destruct (collect_ok bufferOrder keyOrder mutateOrder elementOrder deviceOrder mapsOrder syncPath secret Hlk U F (w_remote w) e dv now Hholds Hdom)
    as (s & c & evs & Hrun & Hinv & Hag & Htr & Htrs & _); [|by apply Hdev|done|done|exists e; by rewrite HUw, Hown|].
  { intros d q Hq. destruct (HU d q Hq) as (? & ? & _ & ?). done. }
  exists s, c, evs. split_and!; [done| |apply (di_maps _ _ _ _ _ Hinv)].
  assert (c_devicePatchTracker c = written w) as <-; [|done].
  apply map_eq. intros d. destruct (decide (d = e)) as [->|Hne]; [by rewrite Htr, Hown|by rewrite Htrs].
Qed.

(** Two stores that hold what the same mutations come to are the same. *)
Lemma agrees_same s1 s2 T k : (forall d m, mutation T d k = Some m -> 0 <= mt_Timestamp m) ->
  agrees syncPath s1 T -> agrees syncPath s2 T -> syncKey lk k -> stored s1 k = stored s2 k.
Proof.
  intros Hts H1' H2' Hk. destruct (H1' k Hk) as [Hw1 Hn1], (H2' k Hk) as [Hw2 Hn2].
  destruct (decide (map_Forall (fun _ p => p_keys p !! k = None) T)) as [Hall|Hex].
  - assert (forall d, mutation T d k = None) as Hnone.
    { intros d. unfold mutation. destruct (T !! d) as [p|] eqn:E; [by apply (Hall d)|done]. }
    by rewrite Hn1, Hn2.
  - apply map_not_Forall in Hex as (d & p & Hd & Hp); [|intros; apply _].
    apply not_eq_None_Some in Hp as [m Hm]. destruct (winner_exists T k d m Hts) as [m' Hw]; [unfold mutation; by rewrite Hd|].
    by rewrite (Hw1 m' Hw), (Hw2 m' Hw).
Qed.

Lemma written_times w d k m : world_inv syncPath secret w -> settled w -> mutation (written w) d k = Some m -> 0 <= mt_Timestamp m.
Proof.
  intros [(U & F & Hholds & Hdom & HU & Hdev)] Hset. unfold mutation.
  rewrite <- (settled_remote w U F d Hholds Hdom HU Hdev Hset). destruct (U !! d) as [q|] eqn:Eq; [|done]. intros Hm.
  destruct (HU d q Eq) as (_ & Hok & _). destruct (Hok k m Hm) as (_ & ? & _). lia.
Qed.

(** ** What the synchronisation promises *)

Abbreviation reaches := (reachable bufferOrder keyOrder mutateOrder elementOrder deviceOrder mapsOrder syncPath secret).

(** C9: from every reachable state the threads of the transaction logs alone,
    taking what is queued and uploading when their timers fire, with no restart,
    collection, join or write in between, bring about a settled state: every
    queue is empty and the remote store holds the patch of every device.  Such a
    state is reached by some run of the threads; no run is longer than
    [logWork]; and wherever a run can go no further the state is settled.  No
    run loses or adds anything written. *)
Theorem collective_settles w : reaches w ->
  (exists n w', logRun n w w' /\ settled w') /\
  forall n w', logRun n w w' ->
    reaches w' /\ written w' = written w /\ (n <= logWork w)%nat /\ ((forall w2, ~ logStep w' w2) -> settled w').
Proof.
  intros Hr. pose proof Hr as (r & Hrh & Hstar). pose proof Hr as Hw. apply sync_reachable_inv in Hw; try done. split.
  - destruct (settle w Hw) as (w' & Hstar' & Hset & _). destruct (star_logRun w w' Hstar') as [n Hn]. by exists n, w'.
  - intros n w' Hn. destruct (logRun_works n w w' Hw Hn) as (Hw' & Hle & Hwr & Hst). split_and!; [|done|lia|by apply stuck_settled].
    exists r. split; [done|]. by eapply star_trans.
Qed.

(** C1: in a settled state a collection succeeds on every device, and two
    devices that have collected hold the same data: under every synchronised
    key the newest mutation written on any device (of equally new ones that of
    the smallest instance). *)
Theorem collective_converges w e1 e2 dv1 dv2 now1 now2 : reaches w -> settled w ->
  w_devices w !! e1 = Some dv1 -> w_devices w !! e2 = Some dv2 -> int64 now1 -> int64 now2 ->
  exists s1 c1 evs1 s2 c2 evs2,
    run (w_remote w) secret now1 (dv_store dv1, (dv_kv dv1, dv_col dv1)) = Done (s1, (dv_kv dv1, c1)) evs1 /\
    run (w_remote w) secret now2 (dv_store dv2, (dv_kv dv2, dv_col dv2)) = Done (s2, (dv_kv dv2, c2)) evs2 /\
    forall k, syncKey lk k -> stored s1 k = stored s2 k /\ forall m, winner (written w) k m -> stored s1 k = mutValue m.
Proof.
  intros Hw Hset Hdv1 Hdv2 Hnow1 Hnow2. apply sync_reachable_inv in Hw; try done.
  destruct (collect_settled w e1 dv1 now1 Hw Hset Hdv1 Hnow1) as (s1 & c1 & evs1 & Hrun1 & Hag1 & _).
  destruct (collect_settled w e2 dv2 now2 Hw Hset Hdv2 Hnow2) as (s2 & c2 & evs2 & Hrun2 & Hag2 & _).
  exists s1, c1, evs1, s2, c2, evs2. split_and!; [done|done|]. intros k Hk. split.
  - apply (agrees_same s1 s2 (written w)); [intros d m; by apply written_times|done|done|done].
  - intros m Hm. by apply Hag1.
Qed.
End convergence.

(** ** Two devices and a file tree *)

Section example.
#[local] Instance cv_hash : CMixHash := fun b => x00 :: b.
#[local] Instance cv_aead : AEAD := {| aead_Seal _ _ data := x00 :: data; aead_Open _ _ c := Some (tail c) |}.
#[local] Instance cv_aead_laws : AEADLaws.
Proof. by split. Qed.
#[local] Instance cv_patch : JsonCodec (gmap string Mutate) := countableCodec _.
#[local] Instance cv_set : JsonCodec (gset string) := countableCodec _.
#[local] Instance cv_times : JsonCodec (gmap InstanceID Time) := countableCodec (gmap InstanceID Z).
#[local] Instance cv_json : CollectiveJson := {| json_name _ := True; patch_json _ _ := I; set_json _ _ := I |}.
#[local] Instance cv_remote : RemoteLaws (R := fileTree) "sync" [].
Proof. apply fileTree_laws; [done|by apply (bool_decide_unpack _)]. Defined.

Abbreviation cv_step := (syncStep (S := MemBytes) (R := fileTree) keysInOrder keysInOrder keysInOrder keysInOrder keysInOrder keysInOrder "sync" []).
Abbreviation cv_reaches := (reachable (S := MemBytes) (R := fileTree) keysInOrder keysInOrder keysInOrder keysInOrder keysInOrder keysInOrder "sync" []).

Definition cv_id (n : Z) : InstanceID := iid_of [byte_of_Z n].
Definition cv_device (e : InstanceID) : device MemBytes :=
  let rw := mkWriter (logPath "sync" [] e) (newHeader e) (newPatch e) [] (makeLocalWriteKey "sync") 0 false defaultUploadPeriod in
  mkDevice MemBytes ∅ (mkInternalKV rw ∅ ∅) (startRunner rw) (newCollector e "sync" (∅ : MemBytes)) ∅.

Lemma cv_start e : startDevice keysInOrder "sync" [] e (∅ : MemBytes) ∅ ∅ ∅ = Ok (cv_device e).
Proof.
  unfold startDevice. rewrite (newRemoteWriter_ok keysInOrder "sync" [] e ∅ (newPatch e)); try done. by left.
Qed.

Lemma cv_plain : plainKey (makeLocalWriteKey "sync") "key".
Proof.
  split; [done|]. intros [?|[(i & Hi)|[(d & Hd)|?]]]; [done| | |done].
  - by apply (f_equal (String.get 0)) in Hi.
  - by apply (f_equal (String.get 0)) in Hd.
Qed.

Lemma cv_key : syncKey (makeLocalWriteKey "sync") "key".
Proof. split; [done|]. left. apply cv_plain. Qed.

Definition cv_written (e : InstanceID) (now : Time) (value : list byte) (s : MemBytes) : device MemBytes :=
  let dv := cv_device e in
  mkDevice MemBytes s (ik_pushed (dv_kv dv) (opMutates (LSet "key" value) now)) (dv_runner dv) (dv_col dv) (dv_seen dv).

Lemma cv_join (w : world MemBytes fileTree) e : w_devices w !! e = None -> cv_step w (put w e (cv_device e)).
Proof. intros He. apply (StepJoin _ _ _ _ _ _ _ _ w e ∅ ∅ ∅); [done|done|apply cv_start]. Qed.

Lemma cv_write (w : world MemBytes fileTree) e now value : w_devices w !! e = Some (cv_device e) -> 0 < UnixNano now ->
  exists s, cv_step w (put w e (cv_written e now value s)).
Proof.
  intros He Hnow.
  assert (localOp_ok "sync" (LSet "key" value)) as Hop by by split; [|apply cv_plain].
  destruct (runLocal_ok keysInOrder keysInOrder keysInOrder keysInOrder keysInOrder keysInOrder "sync" eq_refl (LSet "key" value) now ∅ (dv_kv (cv_device e)) Hop) as (s & Hrun & _);
    [apply (blank_maps keysInOrder keysInOrder keysInOrder keysInOrder keysInOrder keysInOrder "sync" eq_refl); by intros k _|].
  exists s. apply (StepLocal _ _ _ _ _ _ _ _ w e (cv_device e) (LSet "key" value) now); [done|done| |done].
  split; [done|]. intros d k m. unfold mutation, knowledge. cbn. rewrite insert_empty.
  destruct (decide (d = e)) as [->|Hne]; [by rewrite lookup_singleton_eq|by rewrite lookup_singleton_ne].
Qed.

(** Two devices join, each sets the key, and the logs are uploaded. *)
Lemma cv_world : exists w dv1 dv2, cv_reaches w /\ settled "sync" [] w /\
  w_devices w !! cv_id 1 = Some dv1 /\ w_devices w !! cv_id 2 = Some dv2 /\
  mutation (written w) (cv_id 2) "key" = Some (mkMutate 8 [x02] false) /\ winner (written w) "key" (mkMutate 8 [x02] false) /\
  forall k m, mutation (written w) (cv_id 1) k = Some m -> mt_Timestamp m < 6.
Proof.
  set (w0 := mkWorld MemBytes fileTree ∅ ∅). set (w1 := put w0 (cv_id 1) (cv_device (cv_id 1))).
  set (w2 := put w1 (cv_id 2) (cv_device (cv_id 2))).
  assert (cv_step w0 w1) as H1 by by apply cv_join. assert (cv_step w1 w2) as H2 by by apply cv_join.
  destruct (cv_write w2 (cv_id 1) 5 [x01]) as (s1 & H3); [done|done|]. set (w3 := put w2 _ _) in H3.
  destruct (cv_write w3 (cv_id 2) 8 [x02]) as (s2 & H4); [done|done|]. set (w4 := put w3 _ _) in H4.
  assert (cv_reaches w4) as Hw4.
  { exists ∅. split; [done|]. eapply star_step; [exact H1|]. eapply star_step; [exact H2|]. eapply star_step; [exact H3|].
    eapply star_step; [exact H4|]. apply star_refl. }
  assert (written w4 = {[cv_id 1 := mkPatch (cv_id 1) {["key" := mkMutate 5 [x01] false]};
                         cv_id 2 := mkPatch (cv_id 2) {["key" := mkMutate 8 [x02] false]}]}) as Hwr by (by apply map_eq).
  pose proof (sync_reachable_inv keysInOrder keysInOrder keysInOrder keysInOrder keysInOrder keysInOrder "sync" [] eq_refl w4 Hw4) as Hinv.
  destruct (settle keysInOrder keysInOrder keysInOrder keysInOrder keysInOrder keysInOrder "sync" [] eq_refl w4 Hinv) as (w & [n Hstar]%star_logRun & Hset & Hw).
  apply (logRun_works keysInOrder keysInOrder keysInOrder keysInOrder keysInOrder keysInOrder "sync" [] eq_refl) in Hstar as (_ & _ & _ & Hstar); [|exact Hinv].
  destruct (proj1 (lookup_written w (cv_id 1))) as [dv1 Hdv1]; [by rewrite Hw, Hwr|].
  destruct (proj1 (lookup_written w (cv_id 2))) as [dv2 Hdv2]; [by rewrite Hw, Hwr|].
  exists w, dv1, dv2. split_and!; [|done|done|done|by rewrite Hw, Hwr| |].
  - destruct Hw4 as (r & Hr & Hstar4). exists r. split; [done|]. by eapply star_trans.
  - rewrite Hw, Hwr. apply (winner_newest _ _ (cv_id 2)); [done|]. intros d m Hd. unfold mutation.
    destruct (decide (d = cv_id 1)) as [->|Hne]; [by intros [= <-]|]. by rewrite lookup_insert_ne, lookup_singleton_ne.
  - intros k m. rewrite Hw, Hwr. unfold mutation. rewrite lookup_insert_eq. cbn. by intros [_ <-]%lookup_singleton_Some.
Qed.

Lemma device_agrees_witness : exists (w : world MemBytes fileTree) dv, cv_reaches w /\
  w_devices w !! cv_id 1 = Some dv /\ agrees "sync" (dv_store dv) (knowledge (cv_id 1) dv) /\ maps_ok (dv_store dv).
Proof.
  destruct cv_world as (w & dv1 & dv2 & Hw & _ & Hdv1 & _). exists w, dv1. split; [exact Hw|]. split; [exact Hdv1|].
  apply (device_agrees keysInOrder keysInOrder keysInOrder keysInOrder keysInOrder keysInOrder "sync" [] eq_refl w (cv_id 1) dv1 Hw Hdv1).
Defined.

(** The written value of a device is still queued. *)
Lemma collective_settles_witness : exists (w : world MemBytes fileTree) n w',
  cv_reaches w /\ logRun [] n w w' /\ settled "sync" [] w' /\ written w' = written w /\ (0 < logWork w)%nat.
Proof.
  set (w := put (mkWorld MemBytes fileTree ∅ ∅) (cv_id 1) (cv_device (cv_id 1))).
  destruct (cv_write w (cv_id 1) 5 [x01]) as (s & Hstep); [reflexivity|reflexivity|].
  set (w1 := put w _ _) in Hstep.
  assert (cv_reaches w1) as Hw.
  { exists ∅. split; [reflexivity|]. eapply star_step; [apply cv_join; reflexivity|]. eapply star_step; [exact Hstep|apply star_refl]. }
  destruct (collective_settles keysInOrder keysInOrder keysInOrder keysInOrder keysInOrder keysInOrder "sync" [] eq_refl w1 Hw)
    as [(n & w' & Hrun & Hset) Hall].
  destruct (Hall n w' Hrun) as (_ & Hwr & _). exists w1, n, w'.
  split_and!; [exact Hw|exact Hrun|exact Hset|exact Hwr|]. unfold logWork, w1, w, put. cbn [w_devices].
  rewrite insert_insert_eq, insert_empty, map_to_list_singleton. cbn. lia.
Defined.

(** Both devices hold the later value. *)
Lemma collective_converges_witness : exists (w : world MemBytes fileTree) dv1 dv2 s1 c1 evs1 s2 c2 evs2,
  cv_reaches w /\ w_devices w !! cv_id 1 = Some dv1 /\ w_devices w !! cv_id 2 = Some dv2 /\
  collect keysInOrder keysInOrder keysInOrder keysInOrder (w_remote w) [] 9 (dv_store dv1, (dv_kv dv1, dv_col dv1)) =
    Done (s1, (dv_kv dv1, c1)) evs1 /\
  collect keysInOrder keysInOrder keysInOrder keysInOrder (w_remote w) [] 10 (dv_store dv2, (dv_kv dv2, dv_col dv2)) =
    Done (s2, (dv_kv dv2, c2)) evs2 /\
  stored s1 "key" = Some [x02] /\ stored s2 "key" = Some [x02].
Proof.
  destruct cv_world as (w & dv1 & dv2 & Hw & Hset & Hdv1 & Hdv2 & _ & Hwin & _).
  destruct (collective_converges keysInOrder keysInOrder keysInOrder keysInOrder keysInOrder keysInOrder "sync" [] eq_refl
    w (cv_id 1) (cv_id 2) dv1 dv2 9 10 Hw Hset Hdv1 Hdv2) as (s1 & c1 & evs1 & s2 & c2 & evs2 & H1 & H2 & Hall); [by split|by split|].
  destruct (Hall "key" cv_key) as [Heq Hv]. exists w, dv1, dv2, s1, c1, evs1, s2, c2, evs2.
  split_and!; [exact Hw|exact Hdv1|exact Hdv2|exact H1|exact H2|exact (Hv _ Hwin)|]. rewrite <- Heq. exact (Hv _ Hwin).
Defined.
End example.
