(* ===== verification/LateWrite.v ===== *)
(** * A write with a clock that is behind

    The convergence of the devices needs clocks that are not behind what a
    device has applied.  Here: what happens otherwise.  A device that has
    applied the newest mutation of a key and then writes the key with a clock
    behind it keeps its own value however often it collects, while every other
    device keeps that of the mutation. *)

From Stdlib Require Import Ascii.
From S2P Require Import Prelude GoBytes KV Json Effects ByteKV MapSyntax CommandStore Patch Instances TxFile RemoteWriter InternalKV Collector CollectiveSync FileTree Convergence.

Section late.
Context {S R : Type} `{ByteKVLaws S, !ByteKVReliable S} `{RemoteStore R} `{CollectiveJson}
        `{JsonCodec (gmap InstanceID Time)} `{AEADLaws} `{CMixHash}.
Context (bufferOrder : gmap Z (gmap string Mutate) -> list Z) `{!MapOrder bufferOrder}
        (keyOrder : gmap string Mutate -> list string) `{!MapOrder keyOrder}
        (mutateOrder : gmap string Mutate -> list string) `{!MapOrder mutateOrder}
        (elementOrder : gmap string (list byte) -> list string) `{!MapOrder elementOrder}
        (deviceOrder : gmap InstanceID Patch -> list InstanceID) `{!MapOrder deviceOrder}
        (mapsOrder : gmap string (gmap string Mutate) -> list string) `{!MapOrder mapsOrder}.
Context (syncPath : string) (secret : list byte) `{!RemoteLaws (R := R) syncPath secret}.
Hypothesis Hlk : IsValidKey (makeLocalWriteKey syncPath) = None.

Abbreviation lk := (makeLocalWriteKey syncPath).
Abbreviation run := (collect keyOrder mutateOrder deviceOrder mapsOrder).
Implicit Types (s : S) (dv : device S) (w : world S R) (e d : InstanceID) (ik : internalKV) (c : collector).

(** The epochs of the collector's thread, one collection each. *)
Fixpoint collects (r : R) (nows : list Time) : act (S * (internalKV * collector)) unit :=
  match nows with
  | [] => mret tt
  | now :: nows => _ ← run r secret now; collects r nows
  end.

(** ** Collections that bring nothing new *)

(** The patches [U] are in the remote store. *)
Definition remote_has (r : R) (U : gmap InstanceID Patch) : Prop := exists F, rs_holds r F /\
  (forall d, is_Some (F !! d) <-> is_Some (U !! d)) /\
  forall d q, U !! d = Some q -> p_myID q = d /\ mutates_ok syncPath (p_keys q) /\
    exists nonce, length nonce = 24%nat /\ F !! d = Some (patchFile q secret nonce).

(** The collector has read the patches of all others. *)
Record up_to_date (U : gmap InstanceID Patch) e c : Prop := {
  ud_id : c_myID c = e;
  ud_path : c_syncPath c = syncPath;
  ud_known d : d ≠ e -> is_Some (c_lastUpdateRead c !! d) <-> is_Some (U !! d);
  ud_tracker d : d ≠ e -> c_devicePatchTracker c !! d = U !! d;
  ud_read d q : d ≠ e -> U !! d = Some q -> exists t : Time, c_lastMutationRead c !! d = Some t /\ newest 0 (p_keys q) t;
}.

Lemma up_to_date_col U e c : up_to_date U e c -> col_inv syncPath e U c.
Proof.
  intros [Hid Hp Hk Ht Hr]. split; [done|done| |].
  - intros d Hd. by rewrite Ht, Hk.
  - intros d Hd [q Hq]%Hk; [|done]. destruct (Hr d q Hd Hq) as (t & Hl & Hn). exists t. split; [done|]. right. by exists q.
Qed.

Lemma up_to_date_own U e c p : up_to_date U e c -> up_to_date (<[e := p]> U) e c.
Proof.
  intros [Hid Hp Hk Ht Hr]. split; [done|done|..].
  - intros d Hd. rewrite lookup_insert_ne by done. by apply Hk.
  - intros d Hd. rewrite lookup_insert_ne by done. by apply Ht.
  - intros d q Hd. rewrite lookup_insert_ne by done. by apply Hr.
Qed.

(** The times of known devices stay. *)
Lemma collectDevices_times (r : R) devices c nu err c' nu' err' d : is_Some (c_lastUpdateRead c !! d) ->
  collectDevices r secret devices c nu err = Ok (c', nu', err') ->
  is_Some (c_lastUpdateRead c' !! d) /\ c_lastMutationRead c' !! d = c_lastMutationRead c !! d.
Proof.
  revert c nu err. induction devices as [|d0 devices IH]; intros c nu err Hd; cbn [collectDevices]; [by intros [= <- _ _]|].
  assert (is_Some (c_lastUpdateRead (c_newDevice c d0) !! d) /\ c_lastMutationRead (c_newDevice c d0) !! d = c_lastMutationRead c !! d) as [Hd1 <-].
  { unfold c_newDevice. destruct (c_lastUpdateRead c !! d0) eqn:E; [done|]. cbn.
    destruct (decide (d = d0)) as [->|Hne]; [rewrite E in Hd; by destruct Hd|]. by rewrite !lookup_insert_ne. }
  set (c1 := c_newDevice c d0) in *. case_decide; [by apply IH|].
  destruct (collectChanges r secret (c_syncPath c1) d0) as [[q t]|err1|]; [|by apply IH|done].
  apply (IH (c_set_tracker c1 _)). done.
Qed.

Section quiet.
Context (U : gmap InstanceID Patch) (r : R) (e : InstanceID).
Hypothesis (Hr : remote_has r U) (Hne : exists d, is_Some (U !! d)).

Lemma quiet_collect now s ik c : up_to_date U e c -> p_myID (rw_state (ik_txLog ik)) = e ->
  mutates_ok syncPath (p_keys (rw_state (ik_txLog ik))) -> maps_ok s -> int64 now ->
  exists s' c' evs, run r secret now (s, (ik, c)) = Done (s', (ik, c')) evs /\ up_to_date U e c' /\ maps_ok s' /\
    forall k, syncKey lk k -> stored s' k = stored s k.
Proof.
  intros Hud Hid Hok Hmaps Hnow. pose proof (up_to_date_col U e c Hud) as Hcol.
  destruct Hr as (F & Hholds & Hdom & HU), Hne as [d0 Hd0].
  destruct (getDevices_ok syncPath secret r F Hholds) as (devices & Hget & Hin).
  destruct (collectDevices_ok bufferOrder keyOrder mutateOrder elementOrder deviceOrder mapsOrder syncPath secret Hlk r F U e U devices c ∅ Hholds HU) as (c0 & nu & Hrun & Hc0 & Hnu & Hall & Hrest);
    [intros d Hd; by apply Hdom, Hin|done|].
  set (c1 := c_notify c0 true). set (T := mergedTracker ik c1). set (L := mergedTimes c1 now). set (own := rw_state (ik_txLog ik)) in *.
  assert (c_myID c1 = e) as Hme by apply (ci_id _ _ _ _ Hc0).
  assert (forall d, d ≠ e -> c_devicePatchTracker c1 !! d = U !! d) as Htr.
  { intros d Hd. destruct (decide (d ∈ devices)) as [Hi|Hn]; [by apply Hall|]. change (c_devicePatchTracker c1) with (c_devicePatchTracker c0).
    rewrite Hrest by done. by apply (ud_tracker _ _ _ Hud). }
  assert (T !! e = Some own) as HTe by (unfold T, mergedTracker; rewrite Hme; apply lookup_insert_eq).
  assert (forall d, d ≠ e -> T !! d = U !! d) as HT by (intros d Hde; unfold T, mergedTracker; rewrite Hme, lookup_insert_ne by done; by apply Htr).
  assert (L !! e = Some now) as HLe by (unfold L, mergedTimes; rewrite Hme; apply lookup_insert_eq).
  assert (forall d q, d ≠ e -> U !! d = Some q -> is_Some (c_lastUpdateRead c0 !! d) /\ exists t : Time, L !! d = Some t /\ newest 0 (p_keys q) t) as HL.
  { intros d q Hde Hq. destruct (ud_read _ _ _ Hud d q Hde Hq) as (t & Ht & Hn).
    destruct (collectDevices_times r devices c ∅ None c0 nu None d) as [Hk Heq]; [apply (ud_known _ _ _ Hud d Hde); by eauto|done|].
    split; [done|]. exists t. split; [|done]. unfold L, mergedTimes. rewrite Hme, lookup_insert_ne by done. by rewrite <- Ht, <- Heq. }
  assert (forall d q, U !! d = Some q -> p_myID q = d /\ mutates_ok syncPath (p_keys q)) as HU' by (intros d q Hq; destruct (HU d q Hq) as (? & ? & _); done).
  assert (forall d q, d ≠ e -> U !! d = Some q -> exists q', U !! d = Some q' /\ later (p_keys q) (p_keys q')) as Hrefl by (intros d q _ Hq; by exists q).
  assert (forall d, d ≠ e -> is_Some (T !! d) -> exists t : Time, L !! d = Some t /\ (t = 0 \/ exists q, U !! d = Some q /\ newest 0 (p_keys q) t)) as HL'.
  { intros d Hde [q Hq]. rewrite HT in Hq by done. destruct (HL d q Hde Hq) as (_ & t & Ht & Hn). exists t. split; [done|]. right. by exists q. }
  assert (forall k, ~ unseen T L e k) as Hun.
  { intros k (d & mu & t & Hde & Hmu & Ht & Hlt). unfold mutation in Hmu. rewrite HT in Hmu by done.
    destruct (U !! d) as [q|] eqn:Eq; [|done]. destruct (HL d q Hde Eq) as (_ & t' & Ht' & _ & Hmax & _).
    rewrite Ht' in Ht. simplify_eq. specialize (Hmax k mu Hmu). simpl in Hmax. lia. }
  destruct (applyChanges_ok keyOrder mutateOrder deviceOrder mapsOrder lk now s ik c1)
    as (s' & L' & evs & Happ & Hmaps' & _ & Hsame & Htimes & _); fold T; fold L; rewrite ?Hme in *.
  { by apply (merged_tracked syncPath U e own U T L HU' (conj Hid Hok) HTe HT Hrefl HL' now). }
  { intros d k m Hm. by apply (merged_ok syncPath U e own T HU' (conj Hid Hok) HTe HT d k m). }
  { done. }
  fold T in Happ, Hsame, Htimes. fold L in Hsame, Htimes. set (c2 := c_set_mutations (c_set_tracker c1 T) L') in Happ.
  exists s', (c_set_updates (c_set_synched c2) (nu ∪ c_lastUpdateRead c2)), evs. split_and!; [| |done|].
  - unfold collect. rewrite (ud_path _ _ _ Hud), Hget. destruct devices as [|d1 ds]; [|by rewrite Hrun, (bind_Done _ _ _ _ _ Happ)].
    exfalso. apply Hdom, Hin in Hd0. by apply not_elem_of_nil in Hd0.
  - split; cbn; [done|apply (ci_path _ _ _ _ Hc0)| |done|].
    + intros d Hde. rewrite lookup_union_is_Some. split; [|intros [q Hq]; right; by apply (HL d q)].
      intros [Hs|Hs]; [destruct (Hnu d Hs) as [[? Hx]|Hi]; [by rewrite lookup_empty in Hx|by apply Hdom, Hin]|].
      rewrite <- Htr by done. by apply (ci_known _ _ _ _ Hc0 d Hde).
    + intros d q Hde Hq. destruct (HL d q Hde Hq) as (_ & t & Ht & Hn). destruct (Htimes d t q Hde Ht) as (n & HLn & Hnew); [by rewrite HT|].
      exists n. split; [done|]. by eapply newest_again.
  - intros k Hk. apply Hsame; [intros m; by eapply sync_not_map|intros ->; by eapply sync_not_internal, internal_times|done].
Qed.

Lemma quiet_collects nows s ik c : up_to_date U e c -> p_myID (rw_state (ik_txLog ik)) = e ->
  mutates_ok syncPath (p_keys (rw_state (ik_txLog ik))) -> maps_ok s -> Forall int64 nows ->
  exists s' c', collects r nows (s, (ik, c)) = Done (s', (ik, c')) tt /\ forall k, syncKey lk k -> stored s' k = stored s k.
Proof.
  intros Hud Hid Hok Hmaps Hnows. revert s c Hud Hmaps.
  induction Hnows as [|now nows Hnow _ IH]; intros s c Hud Hmaps; [by exists s, c|].
  destruct (quiet_collect now s ik c Hud Hid Hok Hmaps Hnow) as (s1 & c1 & evs & Hrun & Hud1 & Hmaps1 & Hs1).
  destruct (IH s1 c1 Hud1 Hmaps1) as (s' & c' & Hrest & Hs'). exists s', c'. split.
  - cbn [collects]. by rewrite (bind_Done _ _ _ _ _ Hrun).
  - intros k Hk. by rewrite Hs', Hs1.
Qed.
End quiet.

(** ** The write *)

(** After an idle device has set a key and the thread of its log has taken the
    transaction: whatever the clock says. *)
Lemma set_logged e s ik rn k value now : log_inv syncPath secret e s (ik_txLog ik) rn -> rw_adds (ik_txLog ik) = [] -> maps_ok s ->
  json_name k -> plainKey lk k -> 0 < UnixNano now ->
  exists s1 ik1 s2 rw2 rn2, runLocal mutateOrder elementOrder (LSet k value) now (s, ik) = Done (s1, ik1) tt /\
    runnerAdd (s1, (ik_txLog ik1, rn)) = Done (s2, (rw2, rn2)) tt /\ log_inv syncPath secret e s2 rw2 rn2 /\ maps_ok s2 /\
    p_keys (rw_state rw2) = <[k := mkMutate (UnixNano now) value false]> (p_keys (rw_state (ik_txLog ik))) /\ rw_adds rw2 = [] /\
    stored s2 k = Some value.
Proof.
  intros [Hid Hh Hp Hkey Hser Hdisk Hq Hbuf [Hok _]] Hidle Hmaps Hname Hplain Hnow.
  set (m := mkMutate (UnixNano now) value false). set (rw := ik_txLog ik) in *.
  destruct (runLocal_ok bufferOrder keyOrder mutateOrder elementOrder deviceOrder mapsOrder syncPath Hlk (LSet k value) now s ik)
    as (s1 & Hrun1 & Hmaps1 & Hs1); [by split|done|]. cbn [opMutates] in Hrun1, Hs1. fold m in Hrun1, Hs1.
  set (t := mkTxn {[k := m]} (rw_getIndex rw).1).
  destruct (runnerAdd_ok syncPath s1 (rw_pushed rw {[k := m]}) rn t []) as (s2 & rn2 & Hrun2 & Hser2 & _ & Hlk2 & Hel & Hs2); [done|by simpl; rewrite Hidle|].
  assert (syncKey lk k) as Hsync by (split; [done|by left]).
  assert (forall k', internalKey lk k' -> k ≠ k') as Hni by (intros k' Hi E; apply (sync_not_internal syncPath Hlk k Hsync); by rewrite E).
  eexists s1, _, s2, _, rn2. split_and!; [exact Hrun1|exact Hrun2| | | |done|].
  - split; try done.
    + by right.
    + intros i Hi. exfalso. destruct (decide (createElementKey i = createElementKey (tx_BuffIndex t))) as [E|Hne].
      { rewrite E, Hel in Hi. by destruct Hi. }
      rewrite Hs2 in Hi; [|intros E; by apply (lk_not_element syncPath i)|done].
      rewrite Hs1 in Hi; [|intros m'; apply valid_not_map, createElementKey_valid|done].
      rewrite applied_internal with (syncPath := syncPath) in Hi; [|done| |apply internal_element].
      * destruct (Hbuf i Hi) as (t' & Ht' & _). rewrite Hidle in Ht'. by apply not_elem_of_nil in Ht'.
      * intros k' m' [<- _]%lookup_singleton_Some. done.
    + split; [|apply List.Forall_nil]. apply mutates_ok_union; [|done]. cbn. intros k' m' [<- <-]%lookup_singleton_Some.
      split_and!; [done|done|]. unfold int64, m, UnixNano, wraps. cbn. zlia.
  - apply (maps_ok_internal syncPath Hlk s1); [|done].
    intros k' Hk'. apply Hs2; intros ->; apply Hk'; [apply internal_lk|apply internal_element].
  - cbn. by rewrite insert_union_singleton_l.
  - rewrite Hs2 by (apply Hni; apply internal_lk || apply internal_element).
    rewrite Hs1; [|intros m'; by eapply sync_not_map|apply Hni, internal_element].
    unfold applied. by rewrite lookup_singleton_eq.
Qed.

Abbreviation reaches := (reachable bufferOrder keyOrder mutateOrder elementOrder deviceOrder mapsOrder syncPath secret).

(** A collection of a settled world leaves the collector up to date. *)
Lemma collect_up_to_date w e dv now : world_inv syncPath secret w -> settled syncPath secret w -> w_devices w !! e = Some dv -> int64 now ->
  exists s c evs, run (w_remote w) secret now (dv_store dv, (dv_kv dv, dv_col dv)) = Done (s, (dv_kv dv, c)) evs /\
    rw_adds (dv_log dv) = [] /\ log_inv syncPath secret e s (dv_log dv) (dv_runner dv) /\ maps_ok s /\
    up_to_date (written w) e c /\ remote_has (w_remote w) (written w).
Proof.
  intros [(U & F & Hholds & Hdom & HU & Hdev)] Hset Hdv Hnow.
  assert (U = written w) as HUw by (apply map_eq; intros d; by eapply (settled_remote syncPath secret)).
  destruct (Hset e) as (dv' & nonce & Hdv' & Hidle & _); [by rewrite Hdv|]. rewrite Hdv in Hdv'. injection Hdv' as <-.
  assert (is_Some (U !! e)) as Hown by (rewrite HUw; apply lookup_written; by rewrite Hdv).
  assert (forall d q, U !! d = Some q -> p_myID q = d /\ mutates_ok syncPath (p_keys q) /\
    exists nonce, length nonce = 24%nat /\ F !! d = Some (patchFile q secret nonce)) as HU'.
  { intros d q Hq. destruct (HU d q Hq) as (? & ? & _ & ?). done. }
  destruct (collect_ok bufferOrder keyOrder mutateOrder elementOrder deviceOrder mapsOrder syncPath secret Hlk U F (w_remote w) e dv now Hholds Hdom HU')
    as (s & c & evs & Hrun & [Hlog Hcol Hmaps _ _ _ _ _] & _ & _ & Htr & Hread); [by apply Hdev|done|done|by exists e|].
  rewrite <- HUw. exists s, c, evs. split_and!; [done|done|done|done| |by exists F].
  split; [apply (ci_id _ _ _ _ Hcol)|apply (ci_path _ _ _ _ Hcol)| |done|done].
  intros d Hd. rewrite <- Htr by done. apply (ci_known _ _ _ _ Hcol d Hd).
Qed.

(** Any number of collections of an idle device leave in its store what the
    patches in the remote store come to. *)
Lemma collects_agree U (r : R) d dv now nows : remote_has r U -> dev_inv syncPath secret U d dv -> rw_adds (dv_log dv) = [] ->
  U !! d = Some (rw_state (dv_log dv)) -> int64 now -> Forall int64 nows ->
  exists s c, collects r (now :: nows) (dv_store dv, (dv_kv dv, dv_col dv)) = Done (s, (dv_kv dv, c)) tt /\ agrees syncPath s U.
Proof.
  intros (F & Hholds & Hdom & HU) Hinv Hidle Hown Hnow Hnows. revert now dv Hnow Hinv Hidle Hown.
  induction Hnows as [|now' nows Hnow' _ IH]; intros now dv Hnow Hinv Hidle Hown.
  all: destruct (collect_ok bufferOrder keyOrder mutateOrder elementOrder deviceOrder mapsOrder syncPath secret Hlk U F r d dv now Hholds Hdom HU)
    as (s & c & evs & Hrun & Hinv' & Hag & Htr & Htrs & _); [done|done|done|by exists d; rewrite Hown|].
  all: cbn [collects]; rewrite (bind_Done _ _ _ _ _ Hrun).
  - exists s, c. split; [done|]. assert (c_devicePatchTracker c = U) as <-; [|done].
    apply map_eq. intros d'. destruct (decide (d' = d)) as [->|Hne]; [by rewrite Htr, Hown|by rewrite Htrs].
  - destruct (IH now' (mkDevice S s (dv_kv dv) (dv_runner dv) c (c_devicePatchTracker c)) Hnow' Hinv' Hidle Hown) as (s' & c' & Hcs & Hag').
    exists s', c'. done.
Qed.

(** The newest mutation of a key stays the newest when a device writes the key
    behind it. *)
Lemma winner_behind (T : gmap InstanceID Patch) e p k m : winner T k m ->
  (forall m', mutation T e k = Some m' -> mt_Timestamp m' < mt_Timestamp m) ->
  (forall m', p_keys p !! k = Some m' -> mt_Timestamp m' < mt_Timestamp m) -> winner (<[e := p]> T) k m.
Proof.
  intros (d & Hd & Hmax) Hold Hnew. assert (d ≠ e) as Hde by (intros ->; specialize (Hold m Hd); lia).
  exists d. rewrite mutation_insert, decide_False by done. split; [done|]. intros d' m'. rewrite mutation_insert.
  case_decide; [intros Hm'; left; by apply Hnew|apply Hmax].
Qed.

(** C39: the condition on the clocks is needed.  In a settled state with two
    devices [e] and [d], [m] is the newest mutation of a key.  Device [e]
    collects, and so holds the value of [m]; then it sets the key to another
    value with a clock that is ahead of all it has written itself but behind the
    timestamp of [m], and the write is logged and uploaded.  From then on,
    however often the two devices collect, [e] holds the value it set and [d]
    that of [m]: they differ. *)
Theorem late_write_diverges w e d dve dvd k m value now0 now nonce : reaches w -> settled syncPath secret w ->
  w_devices w !! e = Some dve -> w_devices w !! d = Some dvd -> d ≠ e -> winner (written w) k m -> mutValue m ≠ Some value ->
  json_name k -> plainKey lk k -> 0 < UnixNano now -> UnixNano now < mt_Timestamp m ->
  (forall k' m', mutation (written w) e k' = Some m' -> mt_Timestamp m' < UnixNano now) ->
  int64 now0 -> length nonce = 24%nat ->
  exists s0 c evs s1 ik1 s2 rw2 rn2 r rw rn,
    run (w_remote w) secret now0 (dv_store dve, (dv_kv dve, dv_col dve)) = Done (s0, (dv_kv dve, c)) evs /\
    stored s0 k = mutValue m /\
    runLocal mutateOrder elementOrder (LSet k value) now (s0, dv_kv dve) = Done (s1, ik1) tt /\
    runnerAdd (s1, (ik_txLog ik1, dv_runner dve)) = Done (s2, (rw2, rn2)) tt /\
    runnerTimer secret nonce (w_remote w, (rw2, rn2)) = Done (r, (rw, rn)) tt /\
    forall nowsE nowD nowsD kl ml, Forall int64 nowsE -> int64 nowD -> Forall int64 nowsD -> exists sE cE sD cD,
      collects r nowsE (s2, (mkInternalKV rw kl ml, c)) = Done (sE, (mkInternalKV rw kl ml, cE)) tt /\
      collects r (nowD :: nowsD) (dv_store dvd, (dv_kv dvd, dv_col dvd)) = Done (sD, (dv_kv dvd, cD)) tt /\
      stored sE k = Some value /\ stored sD k = mutValue m /\ stored sE k ≠ stored sD k.
Proof.
  intros Hw Hset Hdve Hdvd Hde Hwin Hdiff Hname Hplain Hpos Hlate Hown Hnow0 Hlen. apply sync_reachable_inv in Hw; try done.
  assert (syncKey lk k) as Hsync by (split; [done|by left]).
  destruct (collect_up_to_date w e dve now0 Hw Hset Hdve Hnow0) as (s0 & c & evs & Hrun & Hidle & Hlog & Hmaps & Hud & Hrem).
  destruct (collect_settled bufferOrder keyOrder mutateOrder elementOrder deviceOrder mapsOrder syncPath secret Hlk w e dve now0 Hw Hset Hdve Hnow0)
    as (s0' & c0' & evs0' & Hrun' & Hag0 & _).
  rewrite Hrun in Hrun'. injection Hrun' as <- <- <-.
  destruct (set_logged e s0 (dv_kv dve) (dv_runner dve) k value now Hlog Hidle Hmaps Hname Hplain Hpos)
    as (s1 & ik1 & s2 & rw2 & rn2 & Hset1 & Hadd & Hlog2 & Hmaps2 & Hkeys & Hidle2 & Hs2).
  assert (written w !! e = Some (rw_state (dv_log dve))) as Hwe.
  { unfold written. rewrite lookup_fmap, Hdve. simpl. unfold fullPatch. by rewrite Hidle. }
  assert (map_Forall (fun _ mu => mt_Timestamp mu < UnixNano now) (p_keys (rw_state (dv_log dve)))) as Hold.
  { intros k' m' Hm'. apply (Hown k' m'). unfold mutation. by rewrite Hwe. }
  set (U := <[e := rw_state rw2]> (written w)).
  pose proof Hrem as (F & Hholds & Hdom & HU).
  destruct (runnerTimer_ok syncPath secret _ F e s2 rw2 rn2 nonce Hholds Hlog2) as (r & Hup & Hr).
  assert (remote_has r U) as Hrem'.
  { eexists. split; [exact Hr|]. unfold U. split; intros d'; destruct (decide (d' = e)) as [->|Hne];
      rewrite ?lookup_insert_eq, ?lookup_insert_ne by done; [done|by apply Hdom| |by apply HU].
    intros q [= <-]. split_and!; [apply (li_id _ _ _ _ _ _ Hlog2)|apply (li_ok _ _ _ _ _ _ Hlog2)|]. by exists nonce. }
  assert (winner U k m) as HwinU.
  { apply winner_behind; [done| |].
    - intros m' Hm'. specialize (Hown k m' Hm'). lia.
    - intros m'. rewrite Hkeys, lookup_insert_eq. intros [= <-]. done. }
  destruct Hw as [(U0 & F0 & Hholds0 & Hdom0 & HU0 & Hdev0)].
  assert (U0 = written w) as -> by (apply map_eq; intros d'; exact (settled_remote syncPath secret w U0 F0 d' Hholds0 Hdom0 HU0 Hdev0 Hset)).
  assert (dev_inv syncPath secret U d dvd) as HinvD.
  { apply dev_inv_uploaded; [done| |by apply Hdev0]. intros q. rewrite Hwe. intros [= <-]. rewrite Hkeys, insert_union_singleton_l.
    apply (later_add _ _ (UnixNano now)); [|exact Hold]. apply map_Forall_singleton. done. }
  destruct (Hset d) as (dv' & nonceD & Hdv' & HidleD & _); [by rewrite Hdvd|]. rewrite Hdvd in Hdv'. injection Hdv' as <-.
  eexists s0, c, evs, s1, ik1, s2, rw2, rn2, r, _, _. split_and!; [exact Hrun|by apply Hag0|exact Hset1|exact Hadd|exact Hup|].
  intros nowsE nowD nowsD kl ml HnE HnD HnsD.
  destruct (quiet_collects U r e) with (nows := nowsE) (s := s2) (ik := mkInternalKV (rw_notify rw2 true) kl ml) (c := c)
    as (sE & cE & HcE & HsE); [done| |by apply up_to_date_own|apply (li_id _ _ _ _ _ _ Hlog2)|apply (li_ok _ _ _ _ _ _ Hlog2)|done|done|].
  { exists e. unfold U. by rewrite lookup_insert_eq. }
  destruct (collects_agree U r d dvd nowD nowsD Hrem' HinvD HidleD) as (sD & cD & HcD & HagD); [|done|done|].
  { unfold U. rewrite lookup_insert_ne by done. unfold written. rewrite lookup_fmap, Hdvd. simpl. unfold fullPatch. by rewrite HidleD. }
  assert (stored sE k = Some value) as HE by by rewrite HsE.
  assert (stored sD k = mutValue m) as HD by by apply HagD.
  exists sE, cE, sD, cD. split_and!; [exact HcE|exact HcD|done|done|]. rewrite HE, HD. congruence.
Qed.
End late.

(** ** Two devices *)

Section example.
#[local] Existing Instances cv_hash cv_aead cv_aead_laws cv_patch cv_set cv_times cv_json cv_remote.

(** Device 2 has set the key at time 8; device 1, which set it at time 5, sets it
    again when its clock says 6. *)
Lemma late_write_diverges_witness : exists (w : world MemBytes fileTree) dv1 dv2 s0 c evs s1 ik1 s2 rw2 rn2 r rw rn sE cE sD cD,
  w_devices w !! cv_id 1 = Some dv1 /\ w_devices w !! cv_id 2 = Some dv2 /\
  collect keysInOrder keysInOrder keysInOrder keysInOrder (w_remote w) [] 9 (dv_store dv1, (dv_kv dv1, dv_col dv1)) = Done (s0, (dv_kv dv1, c)) evs /\
  runLocal keysInOrder keysInOrder (LSet "key" [x03]) 6 (s0, dv_kv dv1) = Done (s1, ik1) tt /\
  runnerAdd (s1, (ik_txLog ik1, dv_runner dv1)) = Done (s2, (rw2, rn2)) tt /\
  runnerTimer [] (replicate 24 x00) (w_remote w, (rw2, rn2)) = Done (r, (rw, rn)) tt /\
  collects keysInOrder keysInOrder keysInOrder keysInOrder [] r [10; 11] (s2, (mkInternalKV rw ∅ ∅, c)) =
    Done (sE, (mkInternalKV rw ∅ ∅, cE)) tt /\
  collects keysInOrder keysInOrder keysInOrder keysInOrder [] r [12; 13] (dv_store dv2, (dv_kv dv2, dv_col dv2)) =
    Done (sD, (dv_kv dv2, cD)) tt /\
  stored sE "key" = Some [x03] /\ stored sD "key" = Some [x02].
Proof.
  destruct cv_world as (w & dv1 & dv2 & Hw & Hset & Hdv1 & Hdv2 & Hm & Hwin & Hown).
  destruct (late_write_diverges keysInOrder keysInOrder keysInOrder keysInOrder keysInOrder keysInOrder "sync" [] eq_refl
    w (cv_id 1) (cv_id 2) dv1 dv2 "key" (mkMutate 8 [x02] false) [x03] 9 6 (replicate 24 x00) Hw Hset Hdv1 Hdv2)
    as (s0 & c & evs & s1 & ik1 & s2 & rw2 & rn2 & r & rw & rn & H1 & _ & H2 & H3 & H4 & H5);
    [discriminate|exact Hwin|discriminate|exact I|exact cv_plain|reflexivity|reflexivity|exact Hown|by split|reflexivity|].
  destruct (H5 [10; 11] 12 [13] ∅ ∅) as (sE & cE & sD & cD & HE & HD & HvE & HvD & _);
    [repeat apply List.Forall_cons; [by split|by split|apply List.Forall_nil]|by split|apply List.Forall_cons; [by split|apply List.Forall_nil]|].
  exists w, dv1, dv2, s0, c, evs, s1, ik1, s2, rw2, rn2, r, rw, rn, sE, cE, sD, cD.
  split_and!; [exact Hdv1|exact Hdv2|exact H1|exact H2|exact H3|exact H4|exact HE|exact HD|exact HvE|exact HvD].
Defined.
End example.
