(* ===== verification/Attempts.v ===== *)
(** * Attempts of sends

    [cmix/attempts/histrogram.go]: the number of attempts the last sends took,
    in a ring of a hundred places, and the percentile of them that later sends
    are planned with. *)

From stdpp Require Import sorting.
From S2P Require Import Prelude GoBytes.

Definition maxHistogramSize : Z := 100.
Definition minElements : Z := 3.
Definition percentileNumerator : Z := 66.
Definition percentileDenominator : Z := 99.
Definition percentileDenominatorOffset : Z := 49.
Definition optimalAttemptsInitValue : Z := -1.

(** [optimalAttempts] is an [int32]. *)
Record sendAttempts := mkAttempts {
  sa_optimalAttempts : Z;
  sa_isFull : bool;
  sa_currentIndex : Z;
  sa_numAttempts : list Z;
}.

Definition NewSendAttempts : sendAttempts :=
  mkAttempts optimalAttemptsInitValue false 0 (replicate (Z.to_nat maxHistogramSize) 0).

Definition percentileIndex (toCopy : Z) : Z :=
  (toCopy * percentileNumerator + percentileDenominatorOffset) / percentileDenominator.

Definition computeOptimalUnsafe (sa : sendAttempts) : result sendAttempts :=
  if negb (sa_isFull sa) && (sa_currentIndex sa <? minElements) then Ok sa
  else
    let toCopy := if sa_isFull sa then maxHistogramSize else sa_currentIndex sa in
    let histogramCopy := merge_sort Z.le (take (Z.to_nat toCopy) (sa_numAttempts sa)) in
    optimal ← index histogramCopy (percentileIndex toCopy);
    Ok (mkAttempts (wraps 32 optimal) (sa_isFull sa) (sa_currentIndex sa) (sa_numAttempts sa)).

Definition SubmitProbeAttempt (sa : sendAttempts) (numAttemptsUntilSuccessful : Z) : result sendAttempts :=
  numAttempts ← store_at (sa_numAttempts sa) (sa_currentIndex sa) numAttemptsUntilSuccessful;
  let currentIndex := sa_currentIndex sa + 1 in
  computeOptimalUnsafe
    (if currentIndex =? Z.of_nat (length numAttempts) then mkAttempts (sa_optimalAttempts sa) true 0 numAttempts
     else mkAttempts (sa_optimalAttempts sa) (sa_isFull sa) currentIndex numAttempts).

Definition GetOptimalNumAttempts (sa : sendAttempts) : Z * bool :=
  if sa_optimalAttempts sa =? optimalAttemptsInitValue then (0, false) else (sa_optimalAttempts sa, true).

(** Submissions in order. *)
Fixpoint submitAll (sa : sendAttempts) (xs : list Z) : result sendAttempts :=
  match xs with
  | [] => Ok sa
  | x :: xs => sa ← SubmitProbeAttempt sa x; submitAll sa xs
  end.

(** ** The ring *)

(** The submissions that are kept. *)
Definition kept (xs : list Z) : list Z := drop (length xs - Z.to_nat maxHistogramSize) xs.

(** [A] is what was written since the ring started over, [B] what follows. *)
Record ring_of (sa : sendAttempts) (xs A B : list Z) : Prop := {
  ro_list : sa_numAttempts sa = A ++ B;
  ro_index : sa_currentIndex sa = Z.of_nat (length A);
  ro_size : length (A ++ B) = Z.to_nat maxHistogramSize;
  ro_room : B ≠ [];
  ro_kept : if sa_isFull sa then exists pre, xs = pre ++ B ++ A else xs = A;
}.

Lemma ring_new : ring_of NewSendAttempts [] [] (replicate (Z.to_nat maxHistogramSize) 0).
Proof. split; try done. Qed.

(** The places read are those of the submissions kept. *)
Lemma ring_kept sa xs A B : ring_of sa xs A B ->
  let toCopy := if sa_isFull sa then maxHistogramSize else sa_currentIndex sa in
  take (Z.to_nat toCopy) (sa_numAttempts sa) ≡ₚ kept xs /\ toCopy = Z.of_nat (length (kept xs)).
Proof.
  intros [Hl Hi Hs Hr Hk]. rewrite Hl, Hi. unfold kept. destruct (sa_isFull sa).
  - destruct Hk as [pre ->]. rewrite length_app, (length_app B), (Nat.add_comm (length B)), <- length_app, Hs.
    rewrite Nat.add_sub, drop_app_length. rewrite take_ge by (rewrite Hs; done). split; [apply Permutation_app_comm|].
    rewrite length_app, Nat.add_comm, <- length_app, Hs. done.
  - subst xs. rewrite length_app in Hs. rewrite Nat2Z.id, take_app_length.
    replace (length A - Z.to_nat maxHistogramSize)%nat with 0%nat by lia. by rewrite drop_0.
Qed.

(** The ring after one more submission, before the percentile is taken. *)
Lemma ring_push sa xs A B x : ring_of sa xs A B -> exists l,
  store_at (sa_numAttempts sa) (sa_currentIndex sa) x = Ok l /\
  let i := sa_currentIndex sa + 1 in
  let sa' := if i =? Z.of_nat (length l) then mkAttempts (sa_optimalAttempts sa) true 0 l
             else mkAttempts (sa_optimalAttempts sa) (sa_isFull sa) i l in
  exists A' B', ring_of sa' (xs ++ [x]) A' B'.
Proof.
  intros [Hl Hi Hs Hr Hk]. destruct B as [|b B]; [done|]. rewrite Hl, Hi. exists (A ++ x :: B).
  assert (length (A ++ x :: B) = length (A ++ b :: B)) as Hlen by by rewrite !length_app.
  split. { rewrite store_at_nat by (rewrite length_app; simpl; lia). f_equal. by rewrite insert_app_r_alt, Nat.sub_diag. }
  cbv zeta. rewrite Hlen, Hs. destruct (Z.eqb_spec (Z.of_nat (length A) + 1) (Z.of_nat (Z.to_nat maxHistogramSize))) as [Hfull|Hnot].
  - assert (B = []) as ->. { destruct B; [done|]. rewrite length_app in Hs. simpl in Hs. lia. }
    exists [], (A ++ [x]). split; cbn; [done|done|by rewrite <- Hs, Hlen|by destruct A|]. destruct (sa_isFull sa).
    + destruct Hk as [pre ->]. exists (pre ++ [b]). simpl. rewrite ?app_nil_r. by rewrite <- !(assoc_L (++)).
    + exists []. subst xs. by rewrite app_nil_r.
  - assert (B ≠ []) as HB. { intros ->. rewrite length_app in Hs. simpl in Hs. lia. }
    exists (A ++ [x]), B. split; cbn; [by rewrite <- app_assoc|rewrite length_app; simpl; lia| |done|].
    + rewrite <- Hs, <- Hlen, <- app_assoc. done.
    + destruct (sa_isFull sa); [|by subst xs]. destruct Hk as [pre ->]. exists (pre ++ [b]). simpl. rewrite <- !app_assoc. simpl. by rewrite <- ?app_assoc.
Qed.

(** ** The percentile *)

(** More than [percentileIndex] of the values are at most [v], and all but as
    many are at least [v]. *)
Definition percentile (w : list Z) (v : Z) : Prop :=
  v ∈ w /\
  percentileIndex (Z.of_nat (length w)) < Z.of_nat (length (filter (fun x => x <= v) w)) /\
  Z.of_nat (length w) - percentileIndex (Z.of_nat (length w)) <= Z.of_nat (length (filter (fun x => v <= x) w)).

Lemma length_filter_split {A} (P Q : A -> Prop) `{!forall x, Decision (P x), !forall x, Decision (Q x)} l :
  (forall x, P x -> Q x -> False) -> (length (filter P l) + length (filter Q l) <= length l)%nat.
Proof.
  intros HPQ. induction l as [|x l IH]; [done|]. rewrite !filter_cons.
  destruct (decide (P x)), (decide (Q x)); simpl; [by destruct (HPQ x)|lia..].
Qed.

(** So it is one value. *)
Lemma percentile_unique w v v' : percentile w v -> percentile w v' -> v = v'.
Proof.
  assert (forall a b, percentile w a -> percentile w b -> ~ a < b) as Hlt.
  { intros a b (_ & Ha & _) (_ & _ & Hb) Hab.
    pose proof (length_filter_split (fun x => x <= a) (fun x => b <= x) w ltac:(simpl; intros; lia)) as Hsum. lia. }
  intros Hv Hv'. destruct (Z.lt_trichotomy v v') as [?|[?|?]]; [by destruct (Hlt v v')|done|by destruct (Hlt v' v)].
Qed.

Lemma percentileIndex_range m : minElements <= m <= maxHistogramSize -> 0 <= percentileIndex m < m.
Proof. unfold percentileIndex, minElements, maxHistogramSize, percentileNumerator, percentileDenominatorOffset, percentileDenominator. zlia. Qed.

Lemma filter_all {A} (P : A -> Prop) `{!forall x, Decision (P x)} l : Forall P l -> filter P l = l.
Proof. induction 1 as [|x l Hx _ IH]; [done|]. by rewrite filter_cons_True, IH. Qed.

Lemma sorted_percentile l w (i : Z) v : l ≡ₚ w -> StronglySorted Z.le l -> i = percentileIndex (Z.of_nat (length w)) ->
  0 <= i -> l !! Z.to_nat i = Some v -> percentile w v.
Proof.
  intros Hp Hsort -> Hi Hv. set (i := Z.to_nat (percentileIndex (Z.of_nat (length w)))) in *.
  assert (l = take i l ++ v :: drop (S i) l) as Hsplit by by rewrite take_drop_middle.
  rewrite Hsplit in Hsort. apply StronglySorted_app in Hsort as (Hcross & _ & Htail).
  apply StronglySorted_inv in Htail as [_ Hafter].
  assert (length (take i l) = i) as Hti by (rewrite length_take; apply lookup_lt_Some in Hv; lia).
  pose proof (lookup_lt_Some _ _ _ Hv) as Hlt. pose proof (Permutation_length Hp) as Hlen.
  assert (i < length (filter (fun x => (x <= v)%Z) l))%nat as Hlow.
  { rewrite Hsplit, list.filter_app, length_app, filter_cons_True by lia.
    rewrite (filter_all _ (take i l)); [simpl; lia|]. apply list.Forall_forall. intros x Hx. apply Hcross; [done|by left]. }
  assert (length l - i <= length (filter (fun x => (v <= x)%Z) l))%nat as Hhigh.
  { rewrite Hsplit at 2. rewrite list.filter_app, length_app, filter_cons_True by lia.
    rewrite (filter_all _ (drop (S i) l)); [|exact Hafter]. simpl. rewrite length_drop. lia. }
  split_and!.
  - rewrite <- Hp. by eapply list_elem_of_lookup_2.
  - rewrite Hp in Hlow. lia.
  - rewrite Hp in Hhigh. lia.
Qed.

(** ** Submissions *)

Definition optimal_of (sa : sendAttempts) (xs : list Z) : Prop :=
  if Z.of_nat (length xs) <? minElements then sa_optimalAttempts sa = optimalAttemptsInitValue
  else 0 <= sa_optimalAttempts sa /\ percentile (kept xs) (sa_optimalAttempts sa).

Lemma compute_ok sa xs A B : ring_of sa xs A B -> Forall (fun x => 0 <= x < 2 ^ 31) xs ->
  (Z.of_nat (length xs) < minElements -> sa_optimalAttempts sa = optimalAttemptsInitValue) ->
  exists sa', computeOptimalUnsafe sa = Ok sa' /\ ring_of sa' xs A B /\ optimal_of sa' xs.
Proof.
  intros Hring Hxs Hinit. destruct (ring_kept sa xs A B Hring) as [Hperm Hcopy]. cbv zeta in Hperm, Hcopy.
  set (toCopy := if sa_isFull sa then maxHistogramSize else sa_currentIndex sa) in *.
  assert (minElements <= Z.of_nat (length xs) -> minElements <= toCopy <= maxHistogramSize) as Hbig.
  { intros Hmin. rewrite Hcopy. unfold kept. rewrite length_drop. unfold minElements, maxHistogramSize in *. lia. }
  assert (negb (sa_isFull sa) && (sa_currentIndex sa <? minElements) = (Z.of_nat (length xs) <? minElements)) as Hguard.
  { destruct Hring as [_ Hi Hs _ Hk]. rewrite length_app in Hs. destruct (sa_isFull sa); simpl.
    - destruct Hk as [pre ->]. symmetry. apply Z.ltb_ge. rewrite !length_app. unfold minElements, maxHistogramSize in *. lia.
    - by subst xs; rewrite Hi. }
  unfold computeOptimalUnsafe, optimal_of. rewrite Hguard. destruct (Z.ltb_spec (Z.of_nat (length xs)) minElements) as [Hlt|Hge].
  { exists sa. split_and!; [done|done|by apply Hinit]. }
  fold toCopy. set (l := merge_sort Z.le _). specialize (Hbig Hge).
  assert (l ≡ₚ kept xs) as Hl by (unfold l; by rewrite merge_sort_Permutation).
  destruct (index_in_range l (percentileIndex toCopy)) as (v & -> & Hv).
  { rewrite Hl, <- Hcopy. by apply percentileIndex_range. }
  assert (percentile (kept xs) v) as Hpv.
  { eapply sorted_percentile; [exact Hl|apply StronglySorted_merge_sort; apply _|by rewrite Hcopy| |by rewrite <- Hcopy].
    rewrite <- Hcopy. by apply percentileIndex_range. }
  assert (0 <= v < 2 ^ 31) as Hvr.
  { destruct Hpv as [Hin _]. rewrite list.Forall_forall in Hxs. apply Hxs. unfold kept in Hin.
    rewrite <- (take_drop (length xs - Z.to_nat maxHistogramSize) xs). apply elem_of_app. by right. }
  assert (wraps 32 v = v) as Hw by (apply wraps_small; [lia|]; change (2 ^ (32 - 1)) with (2 ^ 31); lia).
  cbn [mbind result_bind]. eexists. split; [reflexivity|]. rewrite Hw. split; [by destruct Hring|]. split; [cbn; lia|done].
Qed.

Lemma submitAll_ok xs ys sa A B : ring_of sa ys A B -> optimal_of sa ys -> Forall (fun x => 0 <= x < 2 ^ 31) (ys ++ xs) ->
  exists sa' A' B', submitAll sa xs = Ok sa' /\ ring_of sa' (ys ++ xs) A' B' /\ optimal_of sa' (ys ++ xs).
Proof.
  revert ys sa A B. induction xs as [|x xs IH]; intros ys sa A B Hring Hopt Hxs; simpl.
  { exists sa, A, B. by rewrite app_nil_r. }
  destruct (ring_push sa ys A B x Hring) as (l & Hst & A1 & B1 & Hring1). cbv zeta in Hring1.
  unfold SubmitProbeAttempt. rewrite Hst. cbn [mbind result_bind]. match type of Hring1 with ring_of ?t _ _ _ => set (sa1 := t) in * end.
  rewrite (cons_middle x), (assoc_L (++)) in Hxs |- *.
  destruct (compute_ok sa1 (ys ++ [x]) A1 B1 Hring1) as (sa2 & -> & Hring2 & Hopt2).
  { by apply Forall_app in Hxs as [? _]. }
  { rewrite length_app. simpl. intros Hlt. assert (sa_optimalAttempts sa1 = sa_optimalAttempts sa) as -> by (unfold sa1; by case_match).
    unfold optimal_of in Hopt. rewrite (proj2 (Z.ltb_lt _ _)) in Hopt; [done|lia]. }
  cbn [mbind result_bind]. by apply (IH (ys ++ [x]) sa2 A1 B1).
Qed.

(** after any number of submissions of attempts, none of which panics, no
    optimum is reported while there are fewer than three, and else the value
    that has [percentileIndex] of the last hundred below it in order: more than
    that many are at most it, all others at least, which only one value
    satisfies. *)
Theorem attempts_optimal xs : Forall (fun x => 0 <= x < 2 ^ 31) xs -> exists sa, submitAll NewSendAttempts xs = Ok sa /\
  (if Z.of_nat (length xs) <? minElements then GetOptimalNumAttempts sa = (0, false)
   else exists v, GetOptimalNumAttempts sa = (v, true) /\ percentile (kept xs) v /\ forall v', percentile (kept xs) v' -> v' = v).
Proof.
  intros Hxs. destruct (submitAll_ok xs [] NewSendAttempts _ _ ring_new) as (sa & A & B & Hrun & _ & Hopt); [done|done|].
  exists sa. split; [exact Hrun|]. unfold optimal_of in Hopt. simpl in Hopt. unfold GetOptimalNumAttempts. case_match.
  - by rewrite Hopt.
  - destruct Hopt as [Hpos Hp]. exists (sa_optimalAttempts sa). rewrite (proj2 (Z.eqb_neq _ _)) by (unfold optimalAttemptsInitValue; lia).
    split_and!; [done|done|]. intros v' Hv'. by eapply percentile_unique.
Qed.

Lemma attempts_optimal_witness : exists sa, submitAll NewSendAttempts [4; 1; 7; 2; 9] = Ok sa /\
  exists v, GetOptimalNumAttempts sa = (v, true) /\ percentile [4; 1; 7; 2; 9] v.
Proof.
  destruct (attempts_optimal [4; 1; 7; 2; 9]) as (sa & Hrun & v & Hget & Hp & _).
  - repeat (apply List.Forall_cons; [by split|]). apply List.Forall_nil.
  - exists sa. split; [exact Hrun|]. exists v. split; [exact Hget|exact Hp].
Defined.
