(* ===== verification/SyncKV.v ===== *)
(** * The synchronised versioned store

    [collective/synckv.go]: the versioned store the client is built on when it
    synchronises.  Handles whose prefixes include a synchronised one write
    through the transaction log, all others to the local store only; maps are
    allowed in synchronised handles only. *)

From Stdlib Require Import Ascii.
From S2P Require Import Prelude GoBytes KV Json Effects ByteKV MapSyntax CommandStore Patch Instances TxFile RemoteWriter InternalKV Collector CollectiveSync.

Definition StandardRemoteSyncPrefix : string := "remoteSync".

(** The remote store of the handles, [internalKV], is part of the state. *)
Record versionedKV := mkVersionedKV {
  vk_synchronizedPrefixes : list string;
  vk_inSynchronizedPrefix : bool;
  vk_local : kv;
}.

Definition updateIfSynchronizedPrefix (v : versionedKV) : versionedKV :=
  mkVersionedKV (vk_synchronizedPrefixes v) (existsb (kv_HasPrefix (vk_local v)) (vk_synchronizedPrefixes v)) (vk_local v).

(** [nil] is not the empty list. *)
Definition newVersionedKV (synchedPrefixes : option (list string)) : versionedKV :=
  let sPrefixes :=
    match synchedPrefixes with
    | None => [StandardRemoteSyncPrefix]
    | Some ps => if existsb (String.eqb StandardRemoteSyncPrefix) ps then ps else ps ++ [StandardRemoteSyncPrefix]
    end in
  mkVersionedKV sPrefixes false NewKV.

Definition vkv_Prefix (v : versionedKV) (p : string) : result versionedKV :=
  subKV ← kv_Prefix (vk_local v) p;
  Ok (updateIfSynchronizedPrefix (mkVersionedKV (vk_synchronizedPrefixes v) false subKV)).

Definition vkv_Root (v : versionedKV) : versionedKV :=
  updateIfSynchronizedPrefix (mkVersionedKV (vk_synchronizedPrefixes v) false (kv_Root (vk_local v))).

Definition GetFullKey (v : versionedKV) (key : string) (version : Z) : string := kv_makeKey (vk_local v) key version.

Definition errMapLocal : error := Errorf "Map operations must be remoteoperations" [].
Definition errMapVersion : error := Errorf "mismatched map and element versions" [].
Definition errUnmarshal : error := Errorf "json" [].

Definition Object_Unmarshal `{JsonCodec Object} (data : list byte) : error + Object :=
  match json_Unmarshal data with Some o => inr o | None => inl errUnmarshal end.

Section code.
Context {S : Type} `{ByteKV S} `{JsonCodec (gmap string Mutate)} `{JsonCodec (gset string)} `{JsonCodec Object}.
Context (mutateOrder : gmap string Mutate -> list string) (elementOrder : gmap string (list byte) -> list string)
        (nameOrder : gset string -> list string) (objectOrder : gmap string (option (list byte)) -> list string).
Abbreviation vact := (act (S * internalKV)).

Definition vkv_Get (v : versionedKV) (key : string) (version : Z) : vact Object :=
  data ← ik_GetBytes (GetFullKey v key version);
  match Object_Unmarshal data with inr o => mret o | inl e => throw e end.

Definition vkv_Delete (v : versionedKV) (key : string) (version : Z) : vact unit := ik_Delete (GetFullKey v key version).

(** The event is what a listener on the key is called with. *)
Definition vkv_Set (v : versionedKV) (key : string) (object : Object) (now : Time) : vact (option keyEvent) :=
  let k := GetFullKey v key (Version object) in
  if vk_inSynchronizedPrefix v then ik_SetRemote k (json_Marshal object) now
  else _ ← ik_SetBytes k (json_Marshal object); mret None.

(** A guarded map operation. *)
Definition onMap {A} (v : versionedKV) (m : vact A) : vact A := if vk_inSynchronizedPrefix v then m else throw errMapLocal.

Definition vkv_StoreMapElement (v : versionedKV) (mapName elementName : string) (value : Object) (mapVersion : Z) (now : Time) :
    vact (option error * option (gmap string elementEdit)) :=
  onMap v (if Version value =? mapVersion
           then ik_StoreMapElement mutateOrder elementOrder (GetFullKey v mapName mapVersion) elementName (json_Marshal value) now
           else throw errMapVersion).

Definition vkv_StoreMap (v : versionedKV) (mapName : string) (values : gmap string Object) (mapVersion : Z) (now : Time) :
    vact (option error * option (gmap string elementEdit)) :=
  onMap v (if bool_decide (map_Forall (fun _ value => Version value = mapVersion) values)
           then ik_StoreMap mutateOrder elementOrder (GetFullKey v mapName mapVersion) (json_Marshal <$> values) now
           else throw errMapVersion).

(** The objects of the bytes of a map; a nil element is unmarshalled as no
    bytes. *)
Fixpoint mapBytesToVersioned (m : gmap string (option (list byte))) (keys : list string) : error + gmap string Object :=
  match keys with
  | [] => inr ∅
  | key :: keys =>
      match m !! key with
      | None => mapBytesToVersioned m keys
      | Some data =>
          match Object_Unmarshal (default [] data) with
          | inl e => inl (Wrapf "with key: %s" [] e)
          | inr obj =>
              match mapBytesToVersioned m keys with
              | inl e => inl e
              | inr versionedM => inr (<[key := obj]> versionedM)
              end
          end
      end
  end.

Definition vkv_GetMap (v : versionedKV) (mapName : string) (mapVersion : Z) : vact (gmap string Object) :=
  onMap v (m ← onStore (ik_GetMap nameOrder (GetFullKey v mapName mapVersion));
           match mapBytesToVersioned m (objectOrder m) with inr M => mret M | inl e => throw e end).

Definition vkv_GetMapElement (v : versionedKV) (mapName elementName : string) (mapVersion : Z) : vact Object :=
  onMap v (data ← onStore (ik_GetMapElement (GetFullKey v mapName mapVersion) elementName);
           match Object_Unmarshal data with inr o => mret o | inl e => throw e end).

(** [None] for the nil object of an element that did not exist. *)
Definition vkv_DeleteMapElement (v : versionedKV) (mapName elementName : string) (mapVersion : Z) (now : Time) :
    vact (option Object * option (gmap string elementEdit)) :=
  onMap v ('(data, ev) ← ik_DeleteMapElement mutateOrder elementOrder (GetFullKey v mapName mapVersion) elementName now;
           match data with
           | None => mret (None, ev)
           | Some data => match Object_Unmarshal data with inr o => mret (Some o, ev) | inl e => throw e end
           end).
End code.

(** ** Opening the store *)

Definition isRemoteKey : string := "kv_remote_status_0".
Definition kvIsRemoteVal : list byte := bytes_of_chars (chars "REMOTE").

Section start.
Context {S R : Type} `{ByteKV S} `{RemoteStore R} `{JsonCodec (gmap string Mutate)} `{JsonCodec (gset string)}
        `{JsonCodec (gmap InstanceID Time)} `{AEAD} `{CMixHash}.
Context (bufferOrder : gmap Z (gmap string Mutate) -> list Z).

Definition isRemoteKV (s : S) : bool :=
  match bk_GetBytes s isRemoteKey with
  | inr val => bool_decide (val = kvIsRemoteVal)
  | inl _ => false
  end.

Definition enableRemoteKV : act S unit := fun s =>
  match setBytes isRemoteKey kvIsRemoteVal s with
  | Done s _ => Done s tt
  | _ => Crash
  end.

Definition newKV (txLog : remoteWriter) : act S internalKV := fun s =>
  match GetInstanceID s with
  | Done s _ => Done s (mkInternalKV txLog ∅ ∅)
  | _ => Crash
  end.

Definition SynchronizedKV (path : string) (deviceSecret : list byte) (synchedPrefixes : option (list string))
    (rng : nat * list byte * option error) : act S (versionedKV * internalKV * collector) :=
  deviceID ← getOrInitDeviceID rng;
  isRemote ← gets isRemoteKV;
  _ ← (if (isRemote : bool) then mret tt else enableRemoteKV : act S unit);
  txLog ← reading (fun s => newRemoteWriter bufferOrder path deviceID deviceSecret s);
  remote ← newKV txLog;
  col ← gets (newCollector deviceID path);
  mret (newVersionedKV synchedPrefixes, remote, col).

(** The transaction log of a local store writes to a dummy. *)
Definition LocalKV (deviceSecret : list byte) (rng : nat * list byte * option error) : act S (versionedKV * internalKV) := fun s =>
  if isRemoteKV s then Crash
  else
    (deviceID ← getOrInitDeviceID rng;
     txLog ← reading (fun s => newRemoteWriter bufferOrder EmptyString deviceID deviceSecret s);
     remote ← newKV txLog;
     mret (newVersionedKV None, remote)) s.
End start.

(** ** Prefixes *)

Fixpoint vkv_Prefixes (v : versionedKV) (ps : list string) : result versionedKV :=
  match ps with
  | [] => Ok v
  | p :: ps => v ← vkv_Prefix v p; vkv_Prefixes v ps
  end.

Lemma kv_Prefix_map v p v' q : kv_Prefix v p = Ok v' -> is_Some (prefixMap v' !! q) <-> q = p \/ is_Some (prefixMap v !! q).
Proof.
  unfold kv_Prefix. repeat case_match; try done. intros [= <-]. simpl. rewrite lookup_insert_is_Some'. naive_solver.
Qed.

Lemma vkv_Prefixes_ok v ps v' : vkv_Prefixes v ps = Ok v' ->
  vk_synchronizedPrefixes v' = vk_synchronizedPrefixes v /\
  (forall q, is_Some (prefixMap (vk_local v') !! q) <-> q ∈ ps \/ is_Some (prefixMap (vk_local v) !! q)) /\
  (ps ≠ [] -> vk_inSynchronizedPrefix v' = existsb (kv_HasPrefix (vk_local v')) (vk_synchronizedPrefixes v')) /\
  (ps = [] -> v' = v).
Proof.
  revert v. induction ps as [|p ps IH]; intros v; simpl.
  { intros [= <-]. split_and!; [done|set_solver|done|done]. }
  unfold vkv_Prefix. destruct (kv_Prefix (vk_local v) p) as [sub| |] eqn:Ep; [|done..]. cbn [mbind result_bind].
  intros Hrun. destruct (IH _ Hrun) as (Hs & Hq & Hin & Hnil). split_and!; [done| | |done].
  - intros q. rewrite Hq. cbn. rewrite (kv_Prefix_map _ _ _ q Ep), elem_of_cons. tauto.
  - intros _. destruct ps as [|p' ps]; [|by apply Hin]. by rewrite Hnil.
Qed.

(** a handle made by prefixing the root is synchronised exactly when one of
    its prefixes is a synchronised one, and the standard prefix always is,
    whatever list the store was opened with. *)
Theorem prefixes_synchronised synched ps v : vkv_Prefixes (newVersionedKV synched) ps = Ok v ->
  vk_inSynchronizedPrefix v = true <-> exists p, p ∈ ps /\ (p = StandardRemoteSyncPrefix \/ p ∈ default [] synched).
Proof.
  intros Hrun. destruct (vkv_Prefixes_ok _ _ _ Hrun) as (Hs & Hq & Hin & Hnil).
  assert (forall p, p ∈ vk_synchronizedPrefixes v <-> p = StandardRemoteSyncPrefix \/ p ∈ default [] synched) as Hsp.
  { intros p. rewrite Hs. unfold newVersionedKV. destruct synched as [l|]; cbn [vk_synchronizedPrefixes default from_option]; [|set_solver].
    destruct (existsb (String.eqb StandardRemoteSyncPrefix) l) eqn:E; [|set_solver].
    apply existsb_exists in E as (x & Hx & <-%String.eqb_eq). apply list_elem_of_In in Hx. set_solver. }
  destruct ps as [|p0 ps].
  { rewrite Hnil by done. split; [done|]. intros (p & Hp & _). by apply not_elem_of_nil in Hp. }
  rewrite Hin by done. rewrite existsb_exists. unfold kv_HasPrefix. split.
  - intros (p & Hp & Hm). apply list_elem_of_In, Hsp in Hp. exists p. split; [|done].
    destruct (Hq p) as [Hq1 _]. destruct Hq1 as [?|Hn]; [by destruct (prefixMap (vk_local v) !! p)|done|].
    cbn in Hn. rewrite lookup_empty in Hn. by destruct Hn.
  - intros (p & Hp & Hor). exists p. split; [by apply list_elem_of_In, Hsp|].
    destruct (proj2 (Hq p) (or_introl Hp)) as [x ->]. done.
Qed.

Lemma prefixes_synchronised_witness : exists v,
  vkv_Prefixes (newVersionedKV (Some ["channels"])) ["channels"; "a"] = Ok v /\ vk_inSynchronizedPrefix v = true.
Proof.
  destruct (vkv_Prefixes (newVersionedKV (Some ["channels"])) ["channels"; "a"]) as [v| |] eqn:E; [|discriminate E..].
  exists v. split; [reflexivity|]. apply (prefixes_synchronised (Some ["channels"]) ["channels"; "a"] v E).
  exists "channels". split; [by left|right; by left].
Defined.

(** ** Objects *)

(** What the client does to objects, through any handles. *)
Inductive vop :=
| VSet (v : versionedKV) (key : string) (object : Object) (now : Time)
| VDelete (v : versionedKV) (key : string) (version : Z).

Definition vop_key (o : vop) : string :=
  match o with
  | VSet v key object _ => GetFullKey v key (Version object)
  | VDelete v key version => GetFullKey v key version
  end.

(** What it does to the objects by full key. *)
Definition applyOp (M : gmap string Object) (o : vop) : gmap string Object :=
  match o with
  | VSet _ _ object _ => <[vop_key o := object]> M
  | VDelete _ _ _ => delete (vop_key o) M
  end.

(** What it adds to the transaction log. *)
Definition logged_by `{JsonCodec Object} (o : vop) : list (gmap string Mutate) :=
  match o with
  | VSet v _ object now =>
      if vk_inSynchronizedPrefix v then [{[vop_key o := mkMutate (UnixNano now) (json_Marshal object) false]}] else []
  | VDelete _ _ _ => []
  end.

Section objects.
Context {S : Type} `{ByteKVLaws S, !ByteKVReliable S} `{CollectiveJson} `{JsonCodec Object}.
Context (lk : string).
Implicit Types (s : S) (ik : internalKV) (M : gmap string Object).

Definition runOp (o : vop) : act (S * internalKV) unit :=
  match o with
  | VSet v key object now => _ ← vkv_Set v key object now; mret tt
  | VDelete v key version => vkv_Delete v key version
  end.

Fixpoint runOps (os : list vop) : act (S * internalKV) unit :=
  match os with
  | [] => mret tt
  | o :: os => _ ← runOp o; runOps os
  end.

Definition vop_ok (o : vop) : Prop :=
  plainKey lk (vop_key o) /\ match o with VSet _ _ object _ => json_ok object | VDelete _ _ _ => True end.

(** The store holds the objects [M]. *)
Definition has_objects s M : Prop :=
  (forall k, plainKey lk k -> stored s k = json_Marshal <$> M !! k) /\ map_Forall (fun _ o => json_ok o) M.

Definition queued ik : list (gmap string Mutate) := tx_Mutate <$> rw_adds (ik_txLog ik).

Lemma has_objects_put s s' M k object : has_objects s M -> json_ok object ->
  (forall k', plainKey lk k' -> stored s' k' = if decide (k' = k) then Some (json_Marshal object) else stored s k') ->
  has_objects s' (<[k := object]> M).
Proof.
  intros [HM Hok] Ho Hs'. split; [|by apply map_Forall_insert_2]. intros k' Hk'. rewrite Hs', HM by done.
  case_decide; subst; [by rewrite lookup_insert_eq|by rewrite lookup_insert_ne].
Qed.

Lemma runOp_ok o s ik M : has_objects s M -> vop_ok o -> exists s' ik', runOp o (s, ik) = Done (s', ik') tt /\
  has_objects s' (applyOp M o) /\ queued ik' = queued ik ++ logged_by o.
Proof.
  intros HM [Hk Ho]. pose proof Hk as [Hv Hni]. destruct o as [v key object now|v key version]; cbn [runOp applyOp logged_by vop_key] in *.
  - unfold vkv_Set. set (k := GetFullKey v key (Version object)) in *. destruct (vk_inSynchronizedPrefix v).
    + destruct (rw_Write_ok k (json_Marshal object) now s (ik_txLog ik)) as (s' & Hrun & Hs'). eexists s', _. split_and!.
      * unfold ik_SetRemote, validKey. rewrite Hv. unfold mbind, act_bind. by rewrite (onLog_Done _ _ _ _ _ _ Hrun).
      * apply (has_objects_put s); [done|done|]. intros k' [_ Hk']. rewrite Hs'.
        -- unfold applied. case_decide; subst; [by rewrite lookup_singleton_eq|by rewrite lookup_singleton_ne].
        -- intros ->. apply Hk'. right. left. by eexists.
      * unfold queued. cbn. by rewrite fmap_app.
    + destruct (setBytes_Done s k (json_Marshal object)) as (s' & Hrun & Hs'). exists s', ik. split_and!.
      * unfold ik_SetBytes, validKey. rewrite Hv. unfold mbind, act_bind. by rewrite (onStore_Done _ _ _ _ _ Hrun).
      * by apply (has_objects_put s).
      * by rewrite app_nil_r.
  - unfold vkv_Delete. set (k := GetFullKey v key version) in *.
    destruct (deleteKey_Done s k) as (s' & Hrun & Hs'). exists s', ik. split_and!.
    + unfold ik_Delete, validKey. rewrite Hv. by rewrite (onStore_Done _ _ _ _ _ Hrun).
    + destruct HM as [HM Hok]. split; [|by apply map_Forall_delete]. intros k' Hk'. rewrite Hs', HM by done.
      case_decide; subst; [by rewrite lookup_delete_eq|by rewrite lookup_delete_ne].
    + by rewrite app_nil_r.
Qed.

Lemma runOps_ok os s ik M : has_objects s M -> Forall vop_ok os -> exists s' ik', runOps os (s, ik) = Done (s', ik') tt /\
  has_objects s' (foldl applyOp M os) /\ queued ik' = queued ik ++ mjoin (logged_by <$> os).
Proof.
  revert s ik M. induction os as [|o os IH]; intros s ik M HM Hok; simpl.
  { exists s, ik. by rewrite app_nil_r. }
  apply Forall_cons_iff in Hok as [Ho Hos]. destruct (runOp_ok o s ik M HM Ho) as (s1 & ik1 & Hrun & HM1 & Hq1).
  destruct (IH s1 ik1 _ HM1 Hos) as (s' & ik' & Hrest & HM' & Hq'). exists s', ik'. split_and!; [|done|].
  - by rewrite (bind_Done _ _ _ _ _ Hrun).
  - by rewrite Hq', Hq1, <- (assoc_L (++)).
Qed.

(** C21: the synchronised store is a map of objects by full key: after any
    writes and deletions through any handles, none of which fails, a read
    returns the object last written and not deleted since, else an error.  The
    transaction log gets exactly the writes made in synchronised prefixes, in
    order - and no deletion, so that what is deleted stays on the other
    devices. *)
Theorem synckv_refines os s ik M : has_objects s M -> Forall vop_ok os ->
  exists s' ik', runOps os (s, ik) = Done (s', ik') tt /\
    queued ik' = queued ik ++ mjoin (logged_by <$> os) /\
    forall v key version, plainKey lk (GetFullKey v key version) ->
      match foldl applyOp M os !! GetFullKey v key version with
      | Some object => vkv_Get v key version (s', ik') = Done (s', ik') object
      | None => exists e, vkv_Get v key version (s', ik') = Fail (s', ik') e
      end.
Proof.
  intros HM Hok. destruct (runOps_ok os s ik M HM Hok) as (s' & ik' & Hrun & [HM' Hok'] & Hq).
  exists s', ik'. split_and!; [done|done|]. intros v key version Hk. pose proof (HM' _ Hk) as Hst.
  unfold vkv_Get, ik_GetBytes. set (k := GetFullKey v key version) in *. destruct (foldl applyOp M os !! k) as [object|] eqn:E; simpl in Hst.
  - rewrite (bind_Done _ _ (s', ik') (s', ik') (json_Marshal object)) by (by rewrite (onStore_Done _ _ _ _ _ (getBytes_stored _ _ _ Hst))).
    unfold Object_Unmarshal. rewrite json_roundtrip; [done|]. by apply (Hok' k).
  - unfold stored in Hst. unfold mbind, act_bind, onStore, zoom, getBytes, read. cbn. destruct (bk_GetBytes s' k) as [e|]; [|done]. by exists e.
Qed.
End objects.

(** ** Opening it again *)

Section reopen.
Context {S : Type} `{ByteKVLaws S} `{JsonCodec (gmap string Mutate)} `{JsonCodec (gset string)}
        `{JsonCodec (gmap InstanceID Time)} `{AEAD} `{CMixHash}.
Context (bufferOrder : gmap Z (gmap string Mutate) -> list Z).
Implicit Types (s : S).

Lemma GetInstanceID_pure s s' i : GetInstanceID s = Done s' i -> s' = s.
Proof.
  unfold GetInstanceID, mbind, act_bind, getBytes, read, pureResult. destruct (bk_GetBytes s instanceIDKey); [done|].
  destruct (InstanceID_UnmarshalText _); [|done..]. by intros [= <- _].
Qed.

Lemma GetInstanceID_frame s s' i : bk_GetBytes s' instanceIDKey = bk_GetBytes s instanceIDKey -> GetInstanceID s = Done s i ->
  GetInstanceID s' = Done s' i.
Proof.
  unfold GetInstanceID, mbind, act_bind, getBytes, read, pureResult. intros ->. destruct (bk_GetBytes s instanceIDKey); [done|].
  destruct (InstanceID_UnmarshalText _); [|done..]. by intros [= ->].
Qed.

(** The identity found or made is there afterwards. *)
Lemma getOrInit_found rng s s' i : getOrInitDeviceID rng s = Done s' i -> GetInstanceID s' = Done s' i.
Proof.
  unfold getOrInitDeviceID. destruct (GetInstanceID s) as [s1 i1|s1 e|] eqn:E; [| |done].
  - intros [= <- <-]. pose proof (GetInstanceID_pure _ _ _ E). by subst.
  - destruct (bk_Exists S e); [done|]. unfold InitInstanceID. destruct (bk_GetBytes s1 instanceIDKey) as [e'|]; [|done].
    destruct (bk_Exists S e'); [done|]. unfold mbind, act_bind, pureResult, setBytes, write.
    destruct (NewRandomInstanceID rng) as [i1| |]; [|done..].
    destruct (bk_SetBytes s1 instanceIDKey (InstanceID_MarshalText i1)) as [s2 [e2|]] eqn:Es; [done|]. intros [= <- <-].
    unfold GetInstanceID, mbind, act_bind, getBytes, read. rewrite (bk_set_eq _ _ _ _ Es), InstanceID_UnmarshalText_Marshal. done.
Qed.

(** a store that has been opened as a synchronised one gives the same
    device, log and handles every time it is opened again, without a change to
    it, and can no longer be opened as a local one. *)
Theorem synchronised_reopens path secret synched rng s s' opened :
  SynchronizedKV bufferOrder path secret synched rng s = Done s' opened ->
  forall rng', SynchronizedKV bufferOrder path secret synched rng' s' = Done s' opened /\ LocalKV bufferOrder secret rng' s' = Crash.
Proof.
  unfold SynchronizedKV. intros Hrun. unfold mbind, act_bind, gets in Hrun.
  destruct (getOrInitDeviceID rng s) as [s1 i| |] eqn:E1; [|done..]. apply getOrInit_found in E1.
  assert (exists s2, (if isRemoteKV s1 then (mret tt : act S unit) else enableRemoteKV) s1 = Done s2 tt /\ isRemoteKV s2 = true /\
    GetInstanceID s2 = Done s2 i) as (s2 & E2 & Hrem & Hid).
  { destruct (isRemoteKV s1) eqn:Er; [by exists s1|]. unfold enableRemoteKV, setBytes, write in *.
    destruct (bk_SetBytes s1 isRemoteKey kvIsRemoteVal) as [s2 [e|]] eqn:Es; [done|]. exists s2. split_and!; [done| |].
    - unfold isRemoteKV. by rewrite (bk_set_eq _ _ _ _ Es), bool_decide_true.
    - eapply GetInstanceID_frame; [|exact E1]. by eapply bk_set_ne. }
  rewrite E2 in Hrun. unfold reading, pureResult in Hrun. destruct (newRemoteWriter bufferOrder path i secret s2) as [rw| |] eqn:E3; [|done..].
  unfold newKV in Hrun. rewrite Hid in Hrun. injection Hrun as <- <-. intros rng'. split.
  - unfold mbind, act_bind, gets, getOrInitDeviceID. rewrite Hid, Hrem. unfold mret, act_ret, reading, pureResult. rewrite E3.
    unfold newKV. by rewrite Hid.
  - unfold LocalKV. by rewrite Hrem.
Qed.
End reopen.

(** ** A store in memory *)

#[export] Instance Object_eq_dec : EqDecision Object.
Proof. solve_decision. Defined.
#[export] Instance Object_countable : Countable Object.
Proof.
  apply (inj_countable' (fun o => (Version o, (Timestamp o : Z), Data o)) (fun '(a, b, c) => mkObject a b c)). by intros [].
Defined.

Section example.
#[local] Instance sk_hash : CMixHash := fun b => x00 :: b.
#[local] Instance sk_aead : AEAD := {| aead_Seal _ _ data := x00 :: data; aead_Open _ _ c := Some (tail c) |}.
#[local] Instance sk_patch : JsonCodec (gmap string Mutate) := countableCodec _.
#[local] Instance sk_set : JsonCodec (gset string) := countableCodec _.
#[local] Instance sk_times : JsonCodec (gmap InstanceID Time) := countableCodec (gmap InstanceID Z).
#[local] Instance sk_object : JsonCodec Object := countableCodec _.
#[local] Instance sk_json : CollectiveJson := {| json_name _ := True; patch_json _ _ := I; set_json _ _ := I |}.

Definition sk_kv : internalKV :=
  mkInternalKV (mkWriter "" (newHeader (iid_of [])) (newPatch (iid_of [])) [] (makeLocalWriteKey "sync") 0 false defaultUploadPeriod) ∅ ∅.
Definition sk_local : versionedKV := newVersionedKV None.
Definition sk_sync : versionedKV := mkVersionedKV [StandardRemoteSyncPrefix] true (mkKV "remoteSync\" {[StandardRemoteSyncPrefix := 1]} 1).
Definition sk_ops : list vop := [VSet sk_local "k" (mkObject 0 1 [x01]) 5; VSet sk_sync "k" (mkObject 0 2 [x02]) 6; VDelete sk_sync "k" 0].

Lemma sk_plain v key version c : String.get 0 (GetFullKey v key version) = Some c -> c ∈ ["k"; "r"]%char ->
  IsValidKey (GetFullKey v key version) = None -> plainKey (makeLocalWriteKey "sync") (GetFullKey v key version).
Proof.
  intros Hget Hc Hv. split; [done|]. intros [E|[[i E]|[[d E]|E]]]; rewrite E in Hget; simpl in Hget; injection Hget as <-; set_solver.
Qed.

Lemma sk_ops_ok : Forall (vop_ok (makeLocalWriteKey "sync")) sk_ops.
Proof.
  assert (forall o, plainKey (makeLocalWriteKey "sync") (vop_key o) -> vop_ok (makeLocalWriteKey "sync") o) as Hok by (intros [] ?; by split).
  repeat apply List.Forall_cons; [..|apply List.Forall_nil]; apply Hok; cbn [vop_key]; (eapply sk_plain; [reflexivity|set_solver|reflexivity]).
Qed.

(** The local write stays, the synchronised one is logged; its deletion is not. *)
Lemma synckv_refines_witness : exists s' ik', runOps sk_ops (∅ : MemBytes, sk_kv) = Done (s', ik') tt /\
  queued ik' = [{["remoteSync\k_0" := mkMutate 6 (json_Marshal (mkObject 0 2 [x02])) false]}] /\
  vkv_Get sk_local "k" 0 (s', ik') = Done (s', ik') (mkObject 0 1 [x01]) /\
  exists e, vkv_Get sk_sync "k" 0 (s', ik') = Fail (s', ik') e.
Proof.
  destruct (synckv_refines (makeLocalWriteKey "sync") sk_ops (∅ : MemBytes) sk_kv ∅) as (s' & ik' & Hrun & Hq & Hget).
  - split; [reflexivity|]. intros k o Hk. discriminate Hk.
  - exact sk_ops_ok.
  - exists s', ik'. split; [exact Hrun|]. split; [exact Hq|]. split.
    + apply (Hget sk_local "k" 0). by eapply sk_plain; [reflexivity|set_solver|reflexivity].
    + apply (Hget sk_sync "k" 0). by eapply sk_plain; [reflexivity|set_solver|reflexivity].
Defined.

Definition sk_opened := SynchronizedKV keysInOrder "sync" [] None (8%nat, replicate 8 x05, None) (∅ : MemBytes).

Lemma synchronised_reopens_witness : exists s' opened, sk_opened = Done s' opened /\
  SynchronizedKV keysInOrder "sync" [] None (8%nat, replicate 8 x06, None) s' = Done s' opened /\
  LocalKV keysInOrder [] (8%nat, replicate 8 x06, None) s' = Crash.
Proof.
  destruct sk_opened as [s' opened| |] eqn:E; [|discriminate (f_equal (fun o => match o with Done _ _ => true | _ => false end) E)..].
  exists s', opened. split; [reflexivity|].
  exact (synchronised_reopens keysInOrder "sync" [] None (8%nat, replicate 8 x05, None) ∅ s' opened E (8%nat, replicate 8 x06, None)).
Defined.
End example.
