(* ===== verification/MutedUsers.v ===== *)
(** * Muted users

    [channels/mutedUsers.go]: the users muted in each channel, by the hex form of
    their public key; a file per channel and a file with the list of channels. *)

From Stdlib Require Import Ascii.
From S2P Require Import Prelude GoBytes KV Json Effects Halting Base64 CommandStore.

(** [hex.DecodeString] *)
Definition hexValue (c : ascii) : option nat :=
  let n := nat_of_ascii c in
  if (48 <=? n)%nat && (n <=? 57)%nat then Some (n - 48)%nat
  else if (97 <=? n)%nat && (n <=? 102)%nat then Some (n - 87)%nat
  else if (65 <=? n)%nat && (n <=? 70)%nat then Some (n - 55)%nat
  else None.

Fixpoint hexDecode (cs : list ascii) : option (list byte) :=
  match cs with
  | [] => Some []
  | [_] => None
  | hi :: lo :: cs =>
      h ← hexValue hi; l ← hexValue lo; bs ← hexDecode cs;
      Some (byte_of_Z (Z.of_nat (16 * h + l)) :: bs)
  end.

Definition PublicKeySize : nat := 32.

Definition makeMutedUserKey (pubKey : list byte) : string := hexEncode pubKey.

Definition mutedUserKey_decode (k : string) : option (list byte) :=
  data ← hexDecode (chars k);
  if (length data =? PublicKeySize)%nat then Some data else None.

Definition mutedChannelListStoreVer : Z := 0.
Definition mutedChannelListStoreKey : string := "mutedChannelList".
Definition mutedUserListStoreVer : Z := 0.
Definition mutedUserListStorePrefix : string := "mutedUserList/".

(** The inner Go maps have no values and are never nil. *)
Record mutedUserManager {ID : Type} `{NetID ID} := mkMutedUserManager {
  mum_list : gmap ID (gset string);
  mum_kv : kv;
}.
Arguments mutedUserManager ID {_}.

Section code.
Context {S ID : Type} `{EKV S} `{NetID ID} `{JsonCodec (gset string)} `{JsonCodec (list ID)}.
Context (channelOrder : gmap ID (gset string) -> list ID) (userOrder : gset string -> list string).
Implicit Types (mum : mutedUserManager ID).

Definition newMutedUserManager (v : kv) : mutedUserManager ID := mkMutedUserManager _ _ ∅ v.

Definition mum_setList mum (l : gmap ID (gset string)) : mutedUserManager ID := mkMutedUserManager _ _ l (mum_kv mum).

(** An unknown channel has the nil map. *)
Definition mum_users mum (channelID : ID) : gset string := default ∅ (mum_list mum !! channelID).

Definition makeMutedChannelStoreKey (channelID : ID) : string := mutedUserListStorePrefix +:+ b64Encode (id_Bytes channelID).

Definition saveChannelList (now : Time) : act (S * mutedUserManager ID) unit := fun '(s, mum) =>
  onStore (write (fun s => kv_Set (mum_kv mum) s mutedChannelListStoreKey
    (mkObject mutedChannelListStoreVer now (json_Marshal (channelOrder (mum_list mum)))))) (s, mum).

Definition loadChannelList mum : act S (list ID) :=
  obj ← read (fun s => kv_Get (mum_kv mum) s mutedChannelListStoreKey mutedChannelListStoreVer);
  match json_Unmarshal (Data obj) with
  | Some channelIdList => mret channelIdList
  | None => throw (Errorf "json" [])
  end.

Definition deleteMutedUsers (channelID : ID) : act (S * mutedUserManager ID) unit := fun '(s, mum) =>
  onStore (write (fun s => kv_Delete (mum_kv mum) s (makeMutedChannelStoreKey channelID) mutedChannelListStoreVer)) (s, mum).

Definition saveMutedUsers (channelID : ID) (now : Time) : act (S * mutedUserManager ID) unit := fun '(s, mum) =>
  if (size (mum_users mum channelID) =? 0)%nat then deleteMutedUsers channelID (s, mum)
  else onStore (write (fun s => kv_Set (mum_kv mum) s (makeMutedChannelStoreKey channelID)
    (mkObject mutedUserListStoreVer now (json_Marshal (mum_users mum channelID))))) (s, mum).

Definition loadMutedUsers mum (channelID : ID) : act S (gset string) :=
  obj ← read (fun s => kv_Get (mum_kv mum) s (makeMutedChannelStoreKey channelID) mutedChannelListStoreVer);
  match json_Unmarshal (Data obj) with
  | Some list => mret list
  | None => throw (Errorf "json" [])
  end.

Definition mum_save (channelID : ID) (channelIdUpdate : bool) (now : Time) : act (S * mutedUserManager ID) unit :=
  _ ← annotate "could not store muted users for channel %s: %+v" [] (saveMutedUsers channelID now);
  if channelIdUpdate then annotate "could not store muted channel IDs: %+v" [] (saveChannelList now) else mret tt.

Fixpoint mum_loadLoop (channelIDs : list ID) : act (S * mutedUserManager ID) unit := fun '(s, mum) =>
  match channelIDs with
  | [] => Done (s, mum) tt
  | channelID :: channelIDs =>
      match loadMutedUsers mum channelID s with
      | Done s channelList => mum_loadLoop channelIDs (s, mum_setList mum (<[channelID := channelList]> (mum_list mum)))
      | Fail s e => Fail (s, mum) (Wrapf "could not load muted users for channel %s" [] e)
      | Crash => Crash
      end
  end.

Definition mum_load : act (S * mutedUserManager ID) unit := fun '(s, mum) =>
  (channelIDs ← annotate "could not load list of muted channels: %+v" [] (onStore (loadChannelList mum));
   mum_loadLoop channelIDs) (s, mum).

(** An error that means a missing object is passed over. *)
Definition newOrLoadMutedUserManager (v : kv) (s : S) : outcome (S * mutedUserManager ID) unit :=
  match mum_load (s, newMutedUserManager v) with
  | Fail st e => if ekv_Exists S e then Fail st e else Done st tt
  | o => o
  end.

(** A failed save is fatal. *)
Definition mum_fatal {T} (m : act T unit) : act T unit := fun st =>
  match m st with
  | Fail _ _ => Crash
  | o => o
  end.

Definition muteUser (channelID : ID) (userPubKey : list byte) (now : Time) : act (S * mutedUserManager ID) unit := fun '(s, mum) =>
  let channelIdUpdate := match mum_list mum !! channelID with Some _ => false | None => true end in
  let users := {[makeMutedUserKey userPubKey]} ∪ mum_users mum channelID in
  mum_fatal (mum_save channelID channelIdUpdate now) (s, mum_setList mum (<[channelID := users]> (mum_list mum))).

Definition unmuteUser (channelID : ID) (userPubKey : list byte) (now : Time) : act (S * mutedUserManager ID) unit := fun '(s, mum) =>
  match mum_list mum !! channelID with
  | None => Done (s, mum) tt
  | Some mutedUsers =>
      let mutedUsers := mutedUsers ∖ {[makeMutedUserKey userPubKey]} in
      if (size mutedUsers =? 0)%nat
      then mum_fatal (mum_save channelID true now) (s, mum_setList mum (delete channelID (mum_list mum)))
      else mum_fatal (mum_save channelID false now) (s, mum_setList mum (<[channelID := mutedUsers]> (mum_list mum)))
  end.

Definition isMuted mum (channelID : ID) (userPubKey : list byte) : bool :=
  match mum_list mum !! channelID with
  | None => false
  | Some mutedUsers => bool_decide (makeMutedUserKey userPubKey ∈ mutedUsers)
  end.

Definition getMutedUsers mum (channelID : ID) : list (list byte) :=
  match mum_list mum !! channelID with
  | None => []
  | Some mutedUsers => omap mutedUserKey_decode (userOrder mutedUsers)
  end.

Definition mum_removeChannel (channelID : ID) (now : Time) : act (S * mutedUserManager ID) unit := fun '(s, mum) =>
  match mum_list mum !! channelID with
  | None => Done (s, mum) tt
  | Some _ =>
      (_ ← saveChannelList now; deleteMutedUsers channelID) (s, mum_setList mum (delete channelID (mum_list mum)))
  end.

Definition mum_len mum (channelID : ID) : nat := size (mum_users mum channelID).
End code.

(** ** Hexadecimal *)

Lemma hexValue_digit n : (n < 16)%nat -> hexValue (hexDigit n) = Some n.
Proof. intros Hn. do 16 (destruct n as [|n]; [done|]). lia. Qed.

Lemma hexDecode_encode bs : hexDecode (chars (hexEncode bs)) = Some bs.
Proof.
  unfold hexEncode. rewrite String.list_ascii_of_string_of_list_ascii.
  induction bs as [|b bs IH]; [done|]. rewrite fmap_cons. cbn [concat hexByte app hexDecode].
  pose proof (Z_of_byte_range b). set (n := Z.to_nat (Z_of_byte b)).
  rewrite !hexValue_digit by (try (apply Nat.mod_upper_bound; lia); apply Nat.Div0.div_lt_upper_bound; lia).
  cbn [mbind option_bind]. rewrite IH. cbn [mbind option_bind].
  rewrite <- Nat.div_mod_eq. unfold n. rewrite Z2Nat.id by lia. by rewrite byte_of_Z_of_byte.
Qed.

Lemma decode_key k pk : mutedUserKey_decode k = Some pk -> length pk = PublicKeySize /\ hexDecode (chars k) = Some pk.
Proof.
  unfold mutedUserKey_decode. destruct (hexDecode (chars k)) as [data|]; cbn [mbind option_bind]; [|done].
  destruct (length data =? PublicKeySize)%nat eqn:E; [|done]. intros [= <-]. by apply Nat.eqb_eq in E.
Qed.

Lemma decode_make pk : mutedUserKey_decode (makeMutedUserKey pk) = if decide (length pk = PublicKeySize) then Some pk else None.
Proof.
  unfold mutedUserKey_decode, makeMutedUserKey. rewrite hexDecode_encode. cbn [mbind option_bind].
  case_decide as E; [by rewrite (proj2 (Nat.eqb_eq _ _) E)|by rewrite (proj2 (Nat.eqb_neq _ _) E)].
Qed.

Lemma size_image {A B} `{Countable A, Countable B} (f : A -> B) (X : gset B) (Y : gset A) :
  (forall y y', y ∈ Y -> y' ∈ Y -> f y = f y' -> y = y') -> (forall x, x ∈ X <-> exists y, x = f y /\ y ∈ Y) -> size X = size Y.
Proof.
  intros Hinj HX. assert (X = list_to_set (f <$> elements Y)) as ->.
  { apply set_eq. intros x. rewrite HX, elem_of_list_to_set, list_elem_of_fmap. set_solver. }
  rewrite size_list_to_set, length_fmap; [done|]. apply NoDup_fmap_2_strong; [|apply NoDup_elements].
  intros y y' Hy Hy'. apply Hinj; by apply elem_of_elements.
Qed.

(** ** The contract

    A set of pairs of a channel and a public key. *)

Inductive mumOp {ID : Type} :=
| MumMute (channelID : ID) (userPubKey : list byte)
| MumUnmute (channelID : ID) (userPubKey : list byte)
| MumRemoveChannel (channelID : ID)
| MumRestart
| MumIsMuted (channelID : ID) (userPubKey : list byte)
| MumUsers (channelID : ID)
| MumLen (channelID : ID).
Arguments mumOp : clear implicits.

Inductive mumAnswer := MumDone | MumYesNo (b : bool) | MumKeys (l : list (list byte)) | MumCount (n : nat).

Section contract.
Context {ID : Type} `{NetID ID}.

Definition mumNext (op : mumOp ID) (A : gset (ID * list byte)) : gset (ID * list byte) :=
  match op with
  | MumMute ch pk => {[(ch, pk)]} ∪ A
  | MumUnmute ch pk => A ∖ {[(ch, pk)]}
  | MumRemoveChannel ch => filter (fun x => x.1 ≠ ch) A
  | _ => A
  end.

(** The keys are listed in any order; those that are not of the size of a key
    are counted but not listed. *)
Definition mumAnswers (op : mumOp ID) (A : gset (ID * list byte)) (o : mumAnswer) : Prop :=
  match op with
  | MumIsMuted ch pk => o = MumYesNo (bool_decide ((ch, pk) ∈ A))
  | MumUsers ch => exists l, o = MumKeys l /\ NoDup l /\ forall pk, pk ∈ l <-> (ch, pk) ∈ A /\ length pk = PublicKeySize
  | MumLen ch => o = MumCount (size (filter (fun x => x.1 = ch) A))
  | _ => o = MumDone
  end.

Fixpoint mumTrace (ops : list (mumOp ID)) (A : gset (ID * list byte)) (os : list mumAnswer) : Prop :=
  match ops, os with
  | [], [] => True
  | op :: ops, o :: os => mumAnswers op A o /\ mumTrace ops (mumNext op A) os
  | _, _ => False
  end.
End contract.

(** JSON represents sets of keys and lists of channels. *)
Class MutedJson {ID} `{NetID ID} `{JsonCodec (gset string)} `{JsonCodec (list ID)} : Prop := {
  users_json (ks : gset string) : set_Forall (fun k => exists pk, k = hexEncode pk) ks -> json_ok ks;
  mutedChannels_json (l : list ID) : json_ok l;
}.

Section proofs.
Context {S ID : Type} `{EKVLaws S, !EKVReliable S} `{NetIDLaws ID} `{JsonCodec (gset string)} `{JsonCodec (list ID)} `{!MutedJson (ID := ID)}.
Context (channelOrder : gmap ID (gset string) -> list ID) `{!MapOrder channelOrder}
        (userOrder : gset string -> list string) (HuserN : forall X, NoDup (userOrder X)) (Huser : forall X k, k ∈ userOrder X <-> k ∈ X).
Context (v : kv) (now : Time) (Hv : kv_handle v).
Implicit Types (L : gmap ID (gset string)) (A : gset (ID * list byte)) (s : S).

Definition mumExec (op : mumOp ID) : act (S * mutedUserManager ID) mumAnswer := fun '(s, mum) =>
  match op with
  | MumMute ch pk => (_ ← muteUser channelOrder ch pk now; mret MumDone) (s, mum)
  | MumUnmute ch pk => (_ ← unmuteUser channelOrder ch pk now; mret MumDone) (s, mum)
  | MumRemoveChannel ch => (_ ← mum_removeChannel channelOrder ch now; mret MumDone) (s, mum)
  | MumRestart =>
      match newOrLoadMutedUserManager (mum_kv mum) s with
      | Done st _ => Done st MumDone
      | Fail st e => Fail st e
      | Crash => Crash
      end
  | MumIsMuted ch pk => Done (s, mum) (MumYesNo (isMuted mum ch pk))
  | MumUsers ch => Done (s, mum) (MumKeys (getMutedUsers userOrder mum ch))
  | MumLen ch => Done (s, mum) (MumCount (mum_len mum ch))
  end.

Fixpoint mumRun (ops : list (mumOp ID)) : act (S * mutedUserManager ID) (list mumAnswer) :=
  match ops with
  | [] => mret []
  | op :: ops => o ← mumExec op; os ← mumRun ops; mret (o :: os)
  end.

Definition mum_of L : mutedUserManager ID := mkMutedUserManager _ _ L v.

(** The sets of a manager hold keys and are not empty. *)
Definition mum_wf L : Prop := map_Forall (fun _ ks => ks ≠ ∅ /\ set_Forall (fun k => exists pk, k = hexEncode pk) ks) L.

(** Storage holds [L]. *)
Record mum_stored s L : Prop := {
  mums_wf : mum_wf L;
  mums_list : (absent v s mutedChannelListStoreKey /\ L = ∅) \/
    exists o l, kv_Get v s mutedChannelListStoreKey 0 = inr o /\ json_Unmarshal (Data o) = Some l /\
      NoDup l /\ forall ch, ch ∈ l <-> is_Some (L !! ch);
  mums_users ch ks : L !! ch = Some ks ->
    exists o, kv_Get v s (makeMutedChannelStoreKey ch) 0 = inr o /\ json_Unmarshal (Data o) = Some ks;
}.

(** [L] stands for [A]. *)
Definition mum_rep L A : Prop :=
  forall ch k, k ∈ default ∅ (L !! ch) <-> exists pk, k = makeMutedUserKey pk /\ (ch, pk) ∈ A.

Lemma storeKey_inj (a b : ID) : makeMutedChannelStoreKey a = makeMutedChannelStoreKey b -> a = b.
Proof.
  unfold makeMutedChannelStoreKey. intros Heq%(inj _)%b64Encode_inj. rewrite <- (id_Unmarshal_Bytes a), Heq. apply id_Unmarshal_Bytes.
Qed.

Lemma storeKey_list (a : ID) : makeMutedChannelStoreKey a ≠ mutedChannelListStoreKey.
Proof. unfold makeMutedChannelStoreKey, mutedUserListStorePrefix, mutedChannelListStoreKey. intros Heq. discriminate Heq. Qed.

Lemma storeKey_no_sep (a : ID) : strContains PrefixSeparator (makeMutedChannelStoreKey a) = false.
Proof. unfold makeMutedChannelStoreKey. by rewrite chars_no_sep_app, b64Encode_no_sep. Qed.

Lemma file_ne (a b : ID) : a ≠ b -> (prefix v, makeMutedChannelStoreKey a) ≠ (prefix v, makeMutedChannelStoreKey b).
Proof. intros Hn Heq. apply Hn, storeKey_inj. exact (f_equal snd Heq). Qed.
Lemma file_ne_list (a : ID) : (prefix v, makeMutedChannelStoreKey a) ≠ (prefix v, mutedChannelListStoreKey).
Proof. intros Heq. apply (storeKey_list a). exact (f_equal snd Heq). Qed.
Lemma list_ne_file (a : ID) : (prefix v, mutedChannelListStoreKey) ≠ (prefix v, makeMutedChannelStoreKey a).
Proof. intros Heq. by apply (file_ne_list a). Qed.

Lemma mum_wf_lookup L ch ks : mum_wf L -> L !! ch = Some ks -> ks ≠ ∅ /\ set_Forall (fun k => exists pk, k = hexEncode pk) ks.
Proof. intros Hwf Hch. exact (Hwf ch ks Hch). Qed.

Lemma saveChannelList_ok s L :
  exists s', saveChannelList channelOrder now (s, mum_of L) = Done (s', mum_of L) tt /\ changesOnly v mutedChannelListStoreKey s s' /\
    exists o l, kv_Get v s' mutedChannelListStoreKey 0 = inr o /\ json_Unmarshal (Data o) = Some l /\
      NoDup l /\ forall ch, ch ∈ l <-> is_Some (L !! ch).
Proof.
  destruct (set_step v s mutedChannelListStoreKey now (json_Marshal (channelOrder L)) Hv eq_refl) as (s' & Hset & Hget & Hch).
  exists s'. split; [by apply onStore_Done|]. split; [done|]. eexists _, _. split; [done|].
  split; [by apply json_roundtrip, mutedChannels_json|]. split; [apply map_order_nodup|apply map_order_elem].
Qed.

Lemma deleteMutedUsers_ok s L ch :
  exists s', deleteMutedUsers ch (s, mum_of L) = Done (s', mum_of L) tt /\ absent v s' (makeMutedChannelStoreKey ch) /\
    changesOnly v (makeMutedChannelStoreKey ch) s s'.
Proof.
  destruct (delete_step v s (makeMutedChannelStoreKey ch) Hv (storeKey_no_sep _)) as (s' & Hd & Habs & Hch).
  exists s'. split; [|done]. by apply onStore_Done.
Qed.

Lemma saveMutedUsers_ok s L ch :
  mum_wf L -> exists s', saveMutedUsers ch now (s, mum_of L) = Done (s', mum_of L) tt /\
    changesOnly v (makeMutedChannelStoreKey ch) s s' /\
    forall ks, L !! ch = Some ks ->
      exists o, kv_Get v s' (makeMutedChannelStoreKey ch) 0 = inr o /\ json_Unmarshal (Data o) = Some ks.
Proof.
  intros Hwf. unfold saveMutedUsers, mum_users. cbn [mum_of mum_list mum_kv].
  destruct (L !! ch) as [ks|] eqn:Hch; cbn [default from_option id].
  - destruct (mum_wf_lookup L ch ks Hwf Hch) as [Hne Hks].
    rewrite (proj2 (Nat.eqb_neq _ _)) by (intros Hz; apply Hne; by apply size_empty_inv, leibniz_equiv in Hz).
    destruct (set_step v s (makeMutedChannelStoreKey ch) now (json_Marshal ks) Hv (storeKey_no_sep _)) as (s' & Hset & Hget & Hfr).
    exists s'. split; [by apply onStore_Done|]. split; [done|]. intros ? [= <-].
    eexists. split; [done|]. by apply json_roundtrip, users_json.
  - rewrite size_empty. cbn [Nat.eqb]. destruct (deleteMutedUsers_ok s L ch) as (s' & Hd & _ & Hfr). exists s'. by split_and!.
Qed.

(** Saving a change of one channel. *)
Lemma mum_save_ok s L L' ch upd :
  mum_stored s L -> mum_wf L' -> (forall ch', ch' ≠ ch -> L' !! ch' = L !! ch') ->
  (upd = false -> is_Some (L !! ch) /\ is_Some (L' !! ch)) ->
  exists s', mum_fatal (mum_save channelOrder ch upd now) (s, mum_of L') = Done (s', mum_of L') tt /\ mum_stored s' L'.
Proof.
  intros [Hwf Hl Hks] Hwf' Heq Hupd. destruct (saveMutedUsers_ok s L' ch Hwf') as (s1 & Hrun & Hfr & Hget).
  assert (forall ch' ks, L' !! ch' = Some ks ->
    exists o, kv_Get v s1 (makeMutedChannelStoreKey ch') 0 = inr o /\ json_Unmarshal (Data o) = Some ks) as Hks1.
  { intros ch' ks Hch'. destruct (decide (ch' = ch)) as [->|Hn]; [by apply Hget|].
    rewrite Hfr; [apply Hks; by rewrite <- Heq|done|apply storeKey_no_sep|by apply file_ne]. }
  unfold mum_fatal, mum_save. erewrite bind_Done by (apply annotate_Done; exact Hrun). destruct upd.
  - destruct (saveChannelList_ok s1 L') as (s2 & Hrun2 & Hfr2 & Hlist). exists s2.
    rewrite (annotate_Done _ _ _ _ _ _ Hrun2). split; [done|]. split; [done|by right|]. intros ch' ks Hch'.
    rewrite Hfr2; [by apply Hks1|done|apply storeKey_no_sep|apply file_ne_list].
  - exists s1. split; [done|]. split; [done| |done]. destruct (Hupd eq_refl) as [[x Hx] Hx'].
    destruct Hl as [[_ ->]|(o & l & Hg & Hj & Hnd & Hl)]; [by rewrite lookup_empty in Hx|]. right. exists o, l.
    split; [rewrite Hfr; [done|done|done|apply list_ne_file]|]. split_and!; [done..|].
    intros ch'. rewrite Hl. destruct (decide (ch' = ch)) as [->|Hn]; [|by rewrite Heq]. split; [done|by exists x].
Qed.

Lemma wf_insert L ch ks : mum_wf L -> ks ≠ ∅ -> set_Forall (fun k => exists pk, k = hexEncode pk) ks -> mum_wf (<[ch := ks]> L).
Proof. intros HL Hne Hks. by apply map_Forall_insert_2. Qed.

Lemma wf_users L ch : mum_wf L -> set_Forall (fun k => exists pk, k = hexEncode pk) (default ∅ (L !! ch)).
Proof. intros HL. destruct (L !! ch) eqn:E; [by eapply mum_wf_lookup|]. by intros k ?%not_elem_of_empty. Qed.

Lemma mute_ok ch pk s L A : mum_stored s L -> mum_rep L A -> exists s' L',
  muteUser channelOrder ch pk now (s, mum_of L) = Done (s', mum_of L') tt /\ mum_stored s' L' /\ mum_rep L' ({[(ch, pk)]} ∪ A).
Proof.
  intros Hst Hrep. unfold muteUser, mum_users. cbn [mum_of mum_list]. set (L' := <[ch := _]> L).
  destruct (mum_save_ok s L L' ch (match L !! ch with Some _ => false | None => true end) Hst) as (s' & Hrun & Hst').
  - apply wf_insert; [by eapply mums_wf|set_solver|]. intros k [->%elem_of_singleton|Hk]%elem_of_union; [by exists pk|].
    by eapply (wf_users L ch); [eapply mums_wf|].
  - intros ch' Hn. by apply lookup_insert_ne.
  - unfold L'. rewrite lookup_insert_eq. by destruct (L !! ch).
  - exists s', L'. split_and!; [done|done|]. intros ch' k. unfold L'. destruct (decide (ch' = ch)) as [->|Hn].
    + rewrite lookup_insert_eq. cbn [default from_option id]. rewrite elem_of_union, (Hrep ch k). set_solver.
    + rewrite lookup_insert_ne by done. rewrite (Hrep ch' k). set_solver.
Qed.

Lemma unmute_ok ch pk s L A : mum_stored s L -> mum_rep L A -> exists s' L',
  unmuteUser channelOrder ch pk now (s, mum_of L) = Done (s', mum_of L') tt /\ mum_stored s' L' /\ mum_rep L' (A ∖ {[(ch, pk)]}).
Proof.
  intros Hst Hrep. unfold unmuteUser. cbn [mum_of mum_list].
  assert (forall L', (forall ch', ch' ≠ ch -> L' !! ch' = L !! ch') ->
    default ∅ (L' !! ch) = default ∅ (L !! ch) ∖ {[makeMutedUserKey pk]} -> mum_rep L' (A ∖ {[(ch, pk)]})) as Hrep'.
  { intros L' Hne Heq ch' k. destruct (decide (ch' = ch)) as [->|Hn]; [|rewrite Hne, (Hrep ch' k) by done; set_solver].
    rewrite Heq, elem_of_difference, (Hrep ch k), elem_of_singleton. split.
    - intros [(pk' & -> & Hin) Hk]. exists pk'. set_solver.
    - intros (pk' & -> & [Hin Hne']%elem_of_difference). split; [by exists pk'|]. intros ->%hexEncode_inj. set_solver. }
  destruct (L !! ch) as [ks|] eqn:Hch; [|exists s, L; split_and!; [done|done|]; apply Hrep'; [done|by rewrite Hch; set_solver]].
  set (ks' := ks ∖ _). destruct (size ks' =? 0)%nat eqn:Hsz.
  - apply Nat.eqb_eq, size_empty_inv, leibniz_equiv in Hsz. fold (mum_of (delete ch L)).
    destruct (mum_save_ok s L (delete ch L) ch true Hst) as (s' & Hrun & Hst').
    + by apply map_Forall_delete; eapply mums_wf.
    + intros ch' Hn. by rewrite lookup_delete_ne.
    + done.
    + exists s', (delete ch L). split_and!; [done|done|]. apply Hrep'; [intros; by rewrite lookup_delete_ne|].
      rewrite lookup_delete_eq. exact (eq_sym Hsz).
  - apply Nat.eqb_neq in Hsz. set (L' := <[ch := ks']> L).
    destruct (mum_save_ok s L L' ch false Hst) as (s' & Hrun & Hst').
    + apply wf_insert; [by eapply mums_wf| |].
      * intros Heq. apply Hsz. by rewrite Heq, size_empty.
      * intros k [Hk _]%elem_of_difference. by eapply (mum_wf_lookup L ch ks); [eapply mums_wf|..].
    + intros ch' Hn. by apply lookup_insert_ne.
    + intros _. unfold L'. rewrite lookup_insert_eq. by rewrite Hch.
    + exists s', L'. split_and!; [done|done|]. apply Hrep'; [intros; by apply lookup_insert_ne|].
      unfold L'. by rewrite lookup_insert_eq.
Qed.

Lemma unmuteChannel_ok ch s L A : mum_stored s L -> mum_rep L A -> exists s' L',
  mum_removeChannel channelOrder ch now (s, mum_of L) = Done (s', mum_of L') tt /\ mum_stored s' L' /\
  mum_rep L' (filter (fun x => x.1 ≠ ch) A).
Proof.
  intros Hst Hrep. unfold mum_removeChannel. cbn [mum_of mum_list].
  assert (mum_rep (delete ch L) (filter (fun x => x.1 ≠ ch) A)) as Hrep'.
  { intros ch' k. destruct (decide (ch' = ch)) as [->|Hn].
    - rewrite lookup_delete_eq. cbn [default from_option]. set_solver.
    - rewrite lookup_delete_ne, (Hrep ch' k) by done. set_solver. }
  destruct (L !! ch) as [ks|] eqn:Hch; [|exists s, L; split_and!; [done|done|]; by rewrite delete_id in Hrep'].
  destruct (saveChannelList_ok s (delete ch L)) as (s1 & Hrun1 & Hfr1 & o & l & Hg & Hj & Hnd & Hl).
  destruct (deleteMutedUsers_ok s1 (delete ch L) ch) as (s2 & Hrun2 & _ & Hfr2).
  exists s2, (delete ch L). split; [fold (mum_of (delete ch L)); erewrite bind_Done by exact Hrun1; exact Hrun2|].
  split; [|done]. split.
  - by apply map_Forall_delete; eapply mums_wf.
  - right. exists o, l. split; [|done]. rewrite Hfr2; [done|done|done|apply list_ne_file].
  - intros ch' ks'. rewrite lookup_delete_Some. intros [Hn Hch'].
    rewrite Hfr2; [|done|apply storeKey_no_sep|by apply file_ne].
    rewrite Hfr1; [by eapply mums_users|done|apply storeKey_no_sep|apply file_ne_list].
Qed.

Lemma loadMutedUsers_ok s B ch o ks : kv_Get v s (makeMutedChannelStoreKey ch) 0 = inr o -> json_Unmarshal (Data o) = Some ks ->
  loadMutedUsers (mum_of B) ch s = Done s ks.
Proof. intros Hg Hj. unfold loadMutedUsers. erewrite bind_Done by (apply read_Done; exact Hg). by rewrite Hj. Qed.

(** Loading channels whose files hold what [L] has. *)
Lemma mum_loadLoop_app l l' s L B :
  (forall ch, ch ∈ l -> exists o ks, L !! ch = Some ks /\ kv_Get v s (makeMutedChannelStoreKey ch) 0 = inr o /\ json_Unmarshal (Data o) = Some ks) ->
  exists B', mum_loadLoop (l ++ l') (s, mum_of B) = mum_loadLoop l' (s, mum_of B') /\
    forall ch, B' !! ch = if decide (ch ∈ l) then L !! ch else B !! ch.
Proof.
  revert B. induction l as [|ch l IH]; intros B Hl; [by exists B|].
  destruct (Hl ch) as (o & ks & Hch & Hg & Hj); [left|].
  destruct (IH (<[ch := ks]> B)) as (B' & Hrun & HB'); [intros ch' Hin; apply Hl; by right|].
  exists B'. split.
  - cbn [app mum_loadLoop]. by rewrite (loadMutedUsers_ok _ _ _ _ _ Hg Hj).
  - intros ch'. rewrite HB'. destruct (decide (ch' = ch)) as [->|Hn].
    + rewrite lookup_insert_eq, (decide_True (P := ch ∈ ch :: l)) by left. by case_decide.
    + rewrite lookup_insert_ne by done. destruct (decide (ch' ∈ l)); [by rewrite decide_True by (by right)|].
      rewrite decide_False; [done|]. by rewrite not_elem_of_cons.
Qed.

Lemma mum_load_list s o l B : kv_Get v s mutedChannelListStoreKey 0 = inr o -> json_Unmarshal (Data o) = Some l ->
  mum_load (s, mum_of B) = mum_loadLoop l (s, mum_of B).
Proof.
  intros Hg Hj. unfold mum_load. erewrite bind_Done; [done|]. apply annotate_Done, onStore_Done. unfold loadChannelList.
  erewrite bind_Done by (apply read_Done; exact Hg). by rewrite Hj.
Qed.

Lemma mum_restart_ok s L : mum_stored s L -> newOrLoadMutedUserManager v s = Done (s, mum_of L) tt.
Proof.
  intros [Hwf Hl Hks]. unfold newOrLoadMutedUserManager. change (newMutedUserManager v) with (mum_of ∅).
  destruct Hl as [[(e & He & Hex) ->]|(o & l & Hg & Hj & Hnd & Hl)].
  - unfold mum_load. rewrite (bind_Fail _ _ _ (s, mum_of ∅) (Wrapf "could not load list of muted channels: %+v" [] e)).
    { by rewrite ekv_exists_wrap, Hex. }
    apply annotate_Fail. unfold onStore, zoom, loadChannelList. cbn [fst]. rewrite (bind_Fail _ _ _ s e); [done|].
    unfold read. cbn [mum_of mum_kv]. unfold mutedChannelListStoreVer. by rewrite He.
  - rewrite (mum_load_list _ _ _ _ Hg Hj), <- (app_nil_r l). destruct (mum_loadLoop_app l [] s L ∅) as (B' & -> & HB').
    { intros ch [ks Hch]%Hl. destruct (Hks ch ks Hch) as (o' & ? & ?). by exists o', ks. }
    assert (B' = L) as ->; [|done]. apply map_eq. intros ch. rewrite HB', lookup_empty. case_decide as Hin; [done|].
    rewrite Hl in Hin. by apply eq_None_not_Some in Hin.
Qed.

Lemma isMuted_spec L A ch pk : mum_rep L A -> isMuted (mum_of L) ch pk = bool_decide ((ch, pk) ∈ A).
Proof.
  intros Hrep. transitivity (bool_decide (makeMutedUserKey pk ∈ default ∅ (L !! ch))).
  - unfold isMuted. cbn [mum_of mum_list]. by destruct (L !! ch).
  - apply bool_decide_ext. rewrite (Hrep ch). split; [|by exists pk]. by intros (pk' & ->%hexEncode_inj & ?).
Qed.

Lemma getMutedUsers_spec L A ch : mum_rep L A ->
  NoDup (getMutedUsers userOrder (mum_of L) ch) /\
  forall pk, pk ∈ getMutedUsers userOrder (mum_of L) ch <-> (ch, pk) ∈ A /\ length pk = PublicKeySize.
Proof.
  intros Hrep. assert (getMutedUsers userOrder (mum_of L) ch = omap mutedUserKey_decode (userOrder (default ∅ (L !! ch)))) as ->.
  { unfold getMutedUsers. cbn [mum_of mum_list]. destruct (L !! ch); [done|]. cbn [default from_option].
    destruct (userOrder ∅) as [|k ks] eqn:E; [done|]. assert (k ∈ userOrder ∅) as []%Huser%not_elem_of_empty by (rewrite E; left). }
  assert (forall k, k ∈ userOrder (default ∅ (L !! ch)) -> exists pk, k = makeMutedUserKey pk /\ (ch, pk) ∈ A) as Hk
    by (intros k; by rewrite Huser, (Hrep ch)).
  split.
  - generalize (HuserN (default ∅ (L !! ch))). revert Hk. generalize (userOrder (default ∅ (L !! ch))). intros ks Hks Hnd.
    induction Hnd as [|k ks Hn _ IH]; [apply NoDup_nil_2|]. cbn [omap list_omap].
    destruct (Hks k) as (pk & -> & _); [left|]. rewrite decode_make. case_decide; [|apply IH; intros; apply Hks; by right].
    apply NoDup_cons_2; [|apply IH; intros; apply Hks; by right]. rewrite list_elem_of_omap. intros (k' & Hk' & Hd).
    destruct (Hks k') as (pk' & -> & _); [by right|]. rewrite decode_make in Hd. case_decide; [|done]. by injection Hd as ->.
  - intros pk. rewrite list_elem_of_omap. split.
    + intros (k & Hin & Hd). destruct (Hk k Hin) as (pk' & -> & HA). rewrite decode_make in Hd. case_decide; [|done]. by injection Hd as ->.
    + intros [HA Hlen]. exists (makeMutedUserKey pk). rewrite decode_make, decide_True, Huser, (Hrep ch) by done. split; [by exists pk|done].
Qed.

Lemma mum_len_spec L A ch : mum_rep L A -> mum_len (mum_of L) ch = size (filter (fun x => x.1 = ch) A).
Proof.
  intros Hrep. apply (size_image (fun x => makeMutedUserKey x.2)).
  - intros [c pk] [c' pk'] [? _]%elem_of_filter [? _]%elem_of_filter Heq%hexEncode_inj. by simplify_eq/=.
  - intros k. unfold mum_users. cbn [mum_of mum_list]. rewrite (Hrep ch). split.
    + intros (pk & -> & HA). exists (ch, pk). split; [done|]. by apply elem_of_filter.
    + intros ([c pk] & -> & [Hc HA]%elem_of_filter). simpl in Hc. subst c. by exists pk.
Qed.

Lemma mumExec_step op s L A : mum_stored s L -> mum_rep L A ->
  exists s' L' o, mumExec op (s, mum_of L) = Done (s', mum_of L') o /\ mumAnswers op A o /\
    mum_stored s' L' /\ mum_rep L' (mumNext op A).
Proof.
  intros Hst Hrep. destruct op as [ch pk|ch pk|ch| |ch pk|ch|ch]; cbn [mumExec mumAnswers mumNext].
  - destruct (mute_ok ch pk s L A Hst Hrep) as (s' & L' & Hrun & ? & ?). exists s', L', MumDone. by erewrite bind_Done by exact Hrun.
  - destruct (unmute_ok ch pk s L A Hst Hrep) as (s' & L' & Hrun & ? & ?). exists s', L', MumDone. by erewrite bind_Done by exact Hrun.
  - destruct (unmuteChannel_ok ch s L A Hst Hrep) as (s' & L' & Hrun & ? & ?). exists s', L', MumDone. by erewrite bind_Done by exact Hrun.
  - exists s, L, MumDone. cbn [mum_of mum_kv]. by rewrite (mum_restart_ok s L Hst).
  - exists s, L. eexists. split; [done|]. by rewrite (isMuted_spec L A).
  - exists s, L. eexists. split; [done|]. split_and!; [|done..]. eexists. split; [done|]. by apply getMutedUsers_spec.
  - exists s, L. eexists. split; [done|]. by rewrite (mum_len_spec L A).
Qed.

Lemma mumRun_steps ops s L A : mum_stored s L -> mum_rep L A ->
  exists s' L' os, mumRun ops (s, mum_of L) = Done (s', mum_of L') os /\ mumTrace ops A os /\
    mum_stored s' L' /\ mum_rep L' (foldl (fun A op => mumNext op A) A ops).
Proof.
  revert s L A. induction ops as [|op ops IH]; intros s L A Hst Hrep; [by exists s, L, []|].
  destruct (mumExec_step op s L A Hst Hrep) as (s1 & L1 & o & Hrun1 & Ho & Hst1 & Hrep1).
  destruct (IH s1 L1 _ Hst1 Hrep1) as (s' & L' & os & Hrun & Hos & Hst' & Hrep'). exists s', L', (o :: os). split; [|done].
  cbn [mumRun]. erewrite bind_Done by exact Hrun1. by erewrite bind_Done by exact Hrun.
Qed.

Lemma mum_stored_fresh s : absent v s mutedChannelListStoreKey -> mum_stored s ∅.
Proof. intros Habs. split; [apply map_Forall_empty|by left|]. intros ch ks. by rewrite lookup_empty. Qed.

Lemma mum_rep_fresh : mum_rep ∅ ∅.
Proof. clear. intros ch k. rewrite lookup_empty. cbn [default from_option]. set_solver. Qed.

(** C18: the muted users are a set of pairs of a channel and a public key:
    from a first start on, every sequence of mutes, unmutes, removals of
    channels, questions and restarts runs without an error and is answered
    from that set, which a restart keeps.  Only keys of the right size are
    listed, each once. *)
Theorem MutedUsers_refines s ops : absent v s mutedChannelListStoreKey ->
  newOrLoadMutedUserManager v s = Done (s, newMutedUserManager v) tt /\
  exists st os, mumRun ops (s, newMutedUserManager v) = Done st os /\ mumTrace ops ∅ os.
Proof.
  intros Hst%mum_stored_fresh. split; [by apply (mum_restart_ok s ∅)|].
  destruct (mumRun_steps ops s ∅ ∅ Hst mum_rep_fresh) as (s' & L' & os & Hrun & Hos & _). by eexists _, os.
Qed.

(** The first write of unmuting the last user of a channel is the deletion of
    the channel's file. *)
Lemma unmute_stopped s s' L ch pk :
  L !! ch = Some {[makeMutedUserKey pk]} -> deleteMutedUsers ch (s, mum_of L) = Done (s', mum_of L) tt ->
  stoppedAfter 1 (unmuteUser channelOrder ch pk now) s (mum_of L) = Some s'.
Proof.
  intros Hch Hdel. unfold stoppedAfter, unmuteUser. cbn [mum_of mum_list].
  rewrite Hch, difference_diag_L, size_empty. cbn [Nat.eqb].
  unfold mum_fatal, mum_save, mbind, act_bind, annotate, saveMutedUsers, mum_users, mum_setList.
  cbn [mum_of mum_list mum_kv]. rewrite lookup_delete_eq.
  change (size (default ∅ (None : option (gset string))) =? 0)%nat with true. cbv iota.
  unfold deleteMutedUsers, onStore, zoom, write in Hdel. cbn [fst snd mum_of mum_kv] in Hdel.
  destruct (kv_Delete v s (makeMutedChannelStoreKey ch) mutedChannelListStoreVer) as [s1 [e|]] eqn:E; [done|].
  injection Hdel as <-. apply (halt_Delete 0) in E.
  unfold deleteMutedUsers, saveChannelList, onStore, zoom, write. cbn [fst snd mum_kv]. by rewrite E.
Qed.

(** C36: unmuting the last user of a channel deletes the channel's file and then
    stores the list of channels.  When the program stops after the first write
    of [unmuteUser], the next start reports no error and has forgotten every
    user muted in a channel that comes after it in the stored list. *)
Theorem interrupted_unmute_forgets s L A o l1 l2 ch pk :
  mum_stored s L -> mum_rep L A -> kv_Get v s mutedChannelListStoreKey 0 = inr o -> json_Unmarshal (Data o) = Some (l1 ++ ch :: l2) ->
  L !! ch = Some {[makeMutedUserKey pk]} ->
  (forall ch' pk', isMuted (mum_of L) ch' pk' = bool_decide ((ch', pk') ∈ A)) /\
  exists s' mum, stoppedAfter 1 (unmuteUser channelOrder ch pk now) s (mum_of L) = Some s' /\
    newOrLoadMutedUserManager v s' = Done (s', mum) tt /\
    forall ch' pk', isMuted mum ch' pk' = bool_decide ((ch', pk') ∈ A /\ ch' ∈ l1).
Proof.
  intros [Hwf Hl Hks] Hrep Hg Hj Hch. split; [by intros; apply isMuted_spec|].
  destruct Hl as [[(e & He & _) _]|(o' & l & Hg' & Hj' & Hnd & Hl)]; [congruence|].
  assert (o' = o) as -> by congruence. assert (l = l1 ++ ch :: l2) as -> by congruence.
  destruct (deleteMutedUsers_ok s L ch) as (s' & Hrun & (e & He & Hex) & Hfr).
  destruct (mum_loadLoop_app l1 (ch :: l2) s' L ∅) as (B & Hload & HB).
  { intros ch' Hin. destruct (proj1 (Hl ch')) as [ks Hch']; [apply elem_of_app; by left|]. destruct (Hks ch' ks Hch') as (o' & Ho & Hjo). exists o', ks.
    split_and!; [done| |done]. rewrite Hfr; [done|done|apply storeKey_no_sep|]. apply file_ne. intros ->.
    apply list.NoDup_app in Hnd as (_ & Hnd & _). by apply (Hnd ch); [|left]. }
  exists s', (mum_of B). split_and!.
  - by apply unmute_stopped.
  - unfold newOrLoadMutedUserManager. change (newMutedUserManager v) with (mum_of ∅).
    rewrite (mum_load_list s' o (l1 ++ ch :: l2)); [|rewrite Hfr; [done|done|done|apply list_ne_file]|done]. rewrite Hload. cbn [mum_loadLoop].
    assert (loadMutedUsers (mum_of B) ch s' = Fail s' e) as ->.
    { unfold loadMutedUsers. rewrite (bind_Fail _ _ _ s' e); [done|]. unfold read, mutedChannelListStoreVer. cbn [mum_of mum_kv]. by rewrite He. }
    by rewrite ekv_exists_wrap, Hex.
  - intros ch' pk'. rewrite (isMuted_spec B (filter (fun x => x.1 ∈ l1) A)).
    { apply bool_decide_ext. rewrite elem_of_filter. simpl. tauto. }
    intros c k. rewrite HB, lookup_empty. case_decide as Hin.
    + rewrite (Hrep c). clear -Hin. set_solver.
    + cbn [default from_option]. clear -Hin. set_solver.
Qed.
End proofs.

(** ** Examples *)

Section example.
#[local] Instance mu_users_codec : JsonCodec (gset string) := countableCodec _.
#[local] Instance mu_channels_codec : JsonCodec (list Z) := countableCodec _.
#[local] Instance mu_json : MutedJson (ID := Z).
Proof. by split. Qed.

Definition mu_elements (X : gset string) : list string := elements X.

Lemma mu_absent : absent (S := MemStore) NewKV ∅ mutedChannelListStoreKey.
Proof. by exists errNotFound. Qed.

Definition mu_ops : list (mumOp Z) := [MumMute 7 [x01]; MumMute 8 [x02]; MumUnmute 7 [x01]; MumRestart; MumIsMuted 8 [x02]].

Lemma MutedUsers_refines_witness : exists st os,
  mumRun (S := MemStore) keysInOrder mu_elements 0 mu_ops (∅, newMutedUserManager NewKV) = Done st os /\ mumTrace mu_ops ∅ os.
Proof.
  apply (MutedUsers_refines keysInOrder mu_elements (fun X => NoDup_elements X) (fun X k => elem_of_elements X k) NewKV 0 handle_new ∅ mu_ops mu_absent).
Defined.

(** The same user muted in two channels: unmuting it in the first of the stored
    list, stopped after one write, forgets it in the other one. *)
Lemma interrupted_unmute_forgets_witness : exists (s s' : MemStore) mum L ch1 ch2,
  isMuted (ID := Z) (mum_of NewKV L) ch1 [x01] = true /\ isMuted (ID := Z) (mum_of NewKV L) ch2 [x01] = true /\ ch1 ≠ ch2 /\
  newOrLoadMutedUserManager NewKV s = Done (s, mum_of NewKV L) tt /\
  stoppedAfter 1 (unmuteUser keysInOrder ch1 [x01] 0) s (mum_of NewKV L) = Some s' /\
  newOrLoadMutedUserManager NewKV s' = Done (s', mum) tt /\ isMuted mum ch2 [x01] = false.
Proof.
  destruct (mumRun_steps (S := MemStore) keysInOrder mu_elements (fun X => NoDup_elements X) (fun X k => elem_of_elements X k) NewKV 0 handle_new
    [MumMute 7 [x01]; MumMute 8 [x01]] ∅ ∅ ∅)
    as (s & L & os & Hrun & _ & Hst & Hrep); [by apply mum_stored_fresh, mu_absent|apply mum_rep_fresh|].
  simpl in Hrep.
  assert (forall ch, ch = 7 \/ ch = 8 -> L !! ch = Some {[makeMutedUserKey [x01]]}) as HL.
  { intros ch Hch. assert (default ∅ (L !! ch) = {[makeMutedUserKey [x01]]}) as Hd.
    { apply set_eq. intros k. rewrite (Hrep ch k), elem_of_singleton. clear -Hch. set_solver. }
    destruct (L !! ch) as [ks|]; [simpl in Hd; by subst ks|]. exfalso. cbn in Hd. clear -Hd. set_solver. }
  destruct (mums_list _ _ _ Hst) as [[_ ->]|(o & l & Hg & Hj & Hnd & Hl)].
  { specialize (HL 7 ltac:(by left)). by rewrite lookup_empty in HL. }
  assert (7 ∈ l /\ 8 ∈ l) as [H7 H8] by (split; apply Hl; rewrite HL; eauto).
  assert (exists ch1 ch2 l2, l = ch1 :: l2 /\ ch2 ∈ l2 /\ ch1 ≠ ch2 /\ (ch1 = 7 \/ ch1 = 8) /\ (ch2 = 7 \/ ch2 = 8))
    as (ch1 & ch2 & l2 & -> & Hin & Hne & H1 & H2).
  { destruct l as [|c l2]; [by apply not_elem_of_nil in H7|].
    assert (c = 7 \/ c = 8) as Hc.
    { assert (is_Some (L !! c)) as [ks Hks] by (apply Hl; left).
      destruct (decide (c = 7 \/ c = 8)) as [|Hno]; [done|]. exfalso.
      pose proof (mums_wf _ _ _ Hst c ks Hks) as Hks'. apply Hks', set_eq. intros k.
      pose proof (Hrep c k) as Hk. rewrite Hks in Hk. simpl in Hk. rewrite Hk. clear -Hno. set_solver. }
    apply elem_of_cons in H7, H8. destruct Hc as [-> | ->].
    - destruct H8 as [H8|H8]; [discriminate H8|]. exists 7, 8, l2. auto 10.
    - destruct H7 as [H7|H7]; [discriminate H7|]. exists 8, 7, l2. auto 10. }
  destruct (interrupted_unmute_forgets keysInOrder NewKV 0 handle_new s L _ o [] l2 ch1 [x01] Hst Hrep Hg Hj (HL ch1 H1))
    as (Hm & s' & mum & Hstop & Hnew & Hm').
  exists s, s', mum, L, ch1, ch2. split_and!; [| |done|by apply (mum_restart_ok NewKV)|done|done|].
  - rewrite Hm. apply bool_decide_eq_true. clear -H1. set_solver.
  - rewrite Hm. apply bool_decide_eq_true. clear -H2. set_solver.
  - rewrite Hm'. apply bool_decide_eq_false. intros [_ Hno]. by apply not_elem_of_nil in Hno.
Defined.
End example.
