(* ===== verification/GroupStore.v ===== *)
(** * Groups and their storage

    [groupChat/groupStore]: a group with its members and the keys shared with
    them, its byte form, and the store of the groups a user has joined: a file
    per group and a file with the identities of all groups. *)

From Stdlib Require Import Ascii.
From S2P Require Import Prelude GoBytes KV Effects Halting Base64 CommandStore.

(** [id.ID] is an array of 33 bytes. *)
Definition ArrIDLen : nat := 33.

Class ArrID (ID : Type) `{NetID ID} : Prop := {
  arrid_laws :: NetIDLaws ID;
  arrid_length (a : ID) : length (id_Bytes a) = ArrIDLen;
  arrid_bytes b : length b = ArrIDLen -> id_Bytes (id_Unmarshal b : ID) = b;
  arrid_string (a : ID) : strContains PrefixSeparator (id_String a) = false;
}.

(** [group.Member] of the crypto library; public and shared keys are integers of
    the cyclic group. *)
Record Member {ID Int : Type} := mkMember { mem_ID : ID; mem_DhKey : Int }.
Arguments Member : clear implicits.

(** The byte forms of the crypto library. *)
Class GroupFormat (ID Int : Type) := {
  gf_KeyLen : nat;
  gf_IdPreimageLen : nat;
  gf_KeyPreimageLen : nat;
  Membership_Serialize : list (Member ID Int) -> list byte;
  DeserializeMembership : list byte -> error + list (Member ID Int);
  BinaryEncode : Int -> list byte;
  BinaryDecode : list byte -> error + Int;
}.

Class GroupFormatLaws (ID Int : Type) `{GroupFormat ID Int} : Prop := {
  membership_roundtrip m : DeserializeMembership (Membership_Serialize m) = inr m;
  int_roundtrip k : BinaryDecode (BinaryEncode k) = inr k;
}.

(** Keys and preimages are arrays; the identity is a pointer that can be nil. *)
Record Group {ID Int : Type} `{NetID ID} := mkGroup {
  g_Name : list byte;
  g_ID : option ID;
  g_Key : list byte;
  g_IdPreimage : list byte;
  g_KeyPreimage : list byte;
  g_InitMessage : list byte;
  g_Created : Time;
  g_Members : list (Member ID Int);
  g_DhKeys : gmap ID Int;
}.
Arguments Group ID Int {_}.

Definition groupStorageKey : string := "GroupChat/".
Definition groupStoreVersion : Z := 0.
Definition groupStoragePrefix : string := "GroupChatListStore".
Definition groupListStorageKey : string := "GroupChatList".
Definition groupListVersion : Z := 0.
Definition MaxGroupChats : nat := 64.

(** [buff.Next(n)]: at most what is left, a negative [n] panics. *)
Definition buffNext (n : Z) (b : list byte) : result (list byte * list byte) :=
  if n <? 0 then Panic else Ok (take (Z.to_nat n) b, drop (Z.to_nat n) b).

(** A [uint64] read from a buffer. *)
Definition buffU64 (b : list byte) : result (Z * list byte) :=
  '(n, b) ← buffNext 8 b;
  x ← get_le 8 n;
  Ok (x, b).

Section format.
Context {ID Int : Type} `{NetID ID} `{GroupFormat ID Int}.
Context (dhOrder : gmap ID Int -> list ID).
Implicit Types (g : Group ID Int).

Definition DhKeyList_Serialize (dkl : gmap ID Int) : list byte :=
  concat ((fun uid => match dkl !! uid with
    | Some key => id_Bytes uid ++ le_encode 8 (Z.of_nat (length (BinaryEncode key))) ++ BinaryEncode key
    | None => []
    end) <$> dhOrder dkl).

Fixpoint dhKeyLoop (fuel : nat) (buff : list byte) (dkl : gmap ID Int) : result (gmap ID Int) :=
  match fuel with
  | O => Ok dkl
  | S fuel =>
      '(n, buff) ← buffNext (Z.of_nat ArrIDLen) buff;
      if (length n =? ArrIDLen)%nat then
        '(keyLen, buff) ← buffU64 buff;
        '(kb, buff) ← buffNext (i64 keyLen) buff;
        match BinaryDecode kb with
        | inl e => Err (Wrapf "failed to decode member DH key: %+v" [] e)
        | inr key => dhKeyLoop fuel buff (<[id_Unmarshal n := key]> dkl)
        end
      else Ok dkl
  end.

(** Every turn takes at least an identity: the length of the data is enough. *)
Definition DeserializeDhKeyList (data : list byte) : result (gmap ID Int) :=
  dhKeyLoop (length data) data ∅.

Definition Group_Serialize g : list byte :=
  le_encode 8 (Z.of_nat (length (g_Name g))) ++ g_Name g ++
  match g_ID g with Some i => id_Bytes i | None => replicate ArrIDLen x00 end ++
  g_Key g ++ g_IdPreimage g ++ g_KeyPreimage g ++
  le_encode 8 (Z.of_nat (length (g_InitMessage g))) ++ g_InitMessage g ++
  le_encode 8 (UnixNano (g_Created g)) ++
  le_encode 8 (Z.of_nat (length (Membership_Serialize (g_Members g)))) ++ Membership_Serialize (g_Members g) ++
  DhKeyList_Serialize (g_DhKeys g).

(** Bytes with their length before them. *)
Definition buffBytes (b : list byte) : result (list byte * list byte) :=
  '(n, b) ← buffU64 b;
  if 0 <? n then buffNext (i64 n) b else Ok ([], b).

Definition DeserializeGroup (data : list byte) : result (Group ID Int) :=
  '(name, buff) ← buffBytes data;
  '(n, buff) ← buffNext (Z.of_nat ArrIDLen) buff;
  let groupID := array_of ArrIDLen n in
  let gid := if decide (groupID = replicate ArrIDLen x00) then None else Some (id_Unmarshal groupID) in
  '(key, buff) ← buffNext (Z.of_nat gf_KeyLen) buff;
  '(idPre, buff) ← buffNext (Z.of_nat gf_IdPreimageLen) buff;
  '(keyPre, buff) ← buffNext (Z.of_nat gf_KeyPreimageLen) buff;
  '(initMessage, buff) ← buffBytes buff;
  '(c, buff) ← buffU64 buff;
  let createdNano := i64 c in
  let created := if createdNano =? UnixNano zeroTime then zeroTime else createdNano in
  '(membersLength, buff) ← buffU64 buff;
  '(mb, buff) ← buffNext (i64 membersLength) buff;
  match DeserializeMembership mb with
  | inl e => Err (Wrapf "failed to deserialize member list: %+v" [] e)
  | inr members =>
      match DeserializeDhKeyList buff with
      | Ok dhKeys => Ok (mkGroup ID Int _ name gid (array_of gf_KeyLen key) (array_of gf_IdPreimageLen idPre)
          (array_of gf_KeyPreimageLen keyPre) initMessage created members dhKeys)
      | Err e => Err (Wrapf "failed to deserialize DH key list: %+v" [] e)
      | Panic => Panic
      end
  end.
End format.

(** ** The byte form *)

(** Arrays have their sizes, byte strings fit in memory; the identity is not the
    zero one and the time is representable, the two values the byte form uses
    for nil and for no time. *)
Record group_ok {ID Int} `{NetID ID} `{GroupFormat ID Int} (g : Group ID Int) : Prop := {
  go_Key : length (g_Key g) = gf_KeyLen;
  go_IdPreimage : length (g_IdPreimage g) = gf_IdPreimageLen;
  go_KeyPreimage : length (g_KeyPreimage g) = gf_KeyPreimageLen;
  go_Name : Z.of_nat (length (g_Name g)) < 2 ^ 63;
  go_InitMessage : Z.of_nat (length (g_InitMessage g)) < 2 ^ 63;
  go_Members : Z.of_nat (length (Membership_Serialize (g_Members g))) < 2 ^ 63;
  go_DhKeys : map_Forall (fun _ key => Z.of_nat (length (BinaryEncode key)) < 2 ^ 63) (g_DhKeys g);
  go_ID : forall i, g_ID g = Some i -> id_Bytes i ≠ replicate ArrIDLen x00;
  go_Created : g_Created g = zeroTime \/ - 2 ^ 63 <= g_Created g < 2 ^ 63 /\ g_Created g ≠ UnixNano zeroTime;
}.

Lemma buffNext_app n (b c : list byte) : length b = n -> buffNext (Z.of_nat n) (b ++ c) = Ok (b, c).
Proof.
  intros <-. unfold buffNext. rewrite (proj2 (Z.ltb_ge _ _)) by lia.
  by rewrite Nat2Z.id, take_app_length, drop_app_length.
Qed.

Lemma buffU64_app z (c : list byte) : buffU64 (le_encode 8 z ++ c) = Ok (u64 z, c).
Proof.
  unfold buffU64. rewrite (buffNext_app 8) by apply length_le_encode. cbn [mbind result_bind].
  unfold get_le. rewrite decide_True by (by rewrite length_le_encode).
  rewrite take_ge by (by rewrite length_le_encode). by rewrite le_decode_encode.
Qed.

Lemma u64_nat n : Z.of_nat n < 2 ^ 63 -> u64 (Z.of_nat n) = Z.of_nat n.
Proof. intros Hn. apply wrapu_small. unfold is_u. lia. Qed.

Lemma i64_nat n : Z.of_nat n < 2 ^ 63 -> i64 (Z.of_nat n) = Z.of_nat n.
Proof. intros Hn. apply wraps_small; lia. Qed.

Lemma buffBytes_app (b c : list byte) : Z.of_nat (length b) < 2 ^ 63 ->
  buffBytes (le_encode 8 (Z.of_nat (length b)) ++ b ++ c) = Ok (b, c).
Proof.
  intros Hb. unfold buffBytes. rewrite buffU64_app, u64_nat by done. cbn [mbind result_bind].
  destruct (0 <? Z.of_nat (length b)) eqn:E.
  - by rewrite i64_nat, buffNext_app by done.
  - apply Z.ltb_ge in E. by destruct b.
Qed.

Section roundtrip.
Context {ID Int : Type} `{NetID ID} `{!ArrID ID} `{GroupFormatLaws ID Int}.
Context (dhOrder : gmap ID Int -> list ID) `{!MapOrder dhOrder}.

Lemma dhKeyLoop_spec (dkl : gmap ID Int) uids fuel acc :
  map_Forall (fun _ key => Z.of_nat (length (BinaryEncode key)) < 2 ^ 63) dkl ->
  (length (concat ((fun uid => match dkl !! uid with
    | Some key => id_Bytes uid ++ le_encode 8 (Z.of_nat (length (BinaryEncode key))) ++ BinaryEncode key
    | None => []
    end) <$> uids)) <= fuel)%nat ->
  (forall uid, uid ∈ uids -> is_Some (dkl !! uid)) ->
  exists r, dhKeyLoop fuel (concat ((fun uid => match dkl !! uid with
    | Some key => id_Bytes uid ++ le_encode 8 (Z.of_nat (length (BinaryEncode key))) ++ BinaryEncode key
    | None => []
    end) <$> uids)) acc = Ok r /\
    forall uid, r !! uid = if decide (uid ∈ uids) then dkl !! uid else acc !! uid.
Proof.
  intros Hshort. revert fuel acc. induction uids as [|u uids IH]; intros fuel acc Hfuel Hin.
  { exists acc. split; [|done]. by destruct fuel. }
  destruct (Hin u) as [key Hu]; [left|]. rewrite fmap_cons in *. cbn [concat] in *. rewrite Hu in *. rewrite <- !(assoc_L (++)) in *.
  destruct fuel as [|fuel]; [rewrite length_app, arrid_length in Hfuel; unfold ArrIDLen in Hfuel; lia|].
  destruct (IH fuel (<[u := key]> acc)) as (r & Hrun & Hr); [|intros; apply Hin; by right|].
  { rewrite length_app, arrid_length in Hfuel. unfold ArrIDLen in Hfuel. rewrite !length_app in Hfuel. lia. }
  exists r. split.
  - cbn [dhKeyLoop]. rewrite buffNext_app by apply arrid_length. cbn [mbind result_bind].
    rewrite (proj2 (Nat.eqb_eq _ _)) by apply arrid_length. rewrite buffU64_app. cbn [mbind result_bind].
    pose proof (Hshort u key Hu : Z.of_nat (length (BinaryEncode key)) < 2 ^ 63). rewrite u64_nat, i64_nat, buffNext_app by done. cbn [mbind result_bind].
    by rewrite int_roundtrip, id_Unmarshal_Bytes.
  - intros uid. rewrite Hr. destruct (decide (uid = u)) as [->|Hn].
    + rewrite lookup_insert_eq, (decide_True (P := u ∈ u :: uids)) by left. by case_decide.
    + rewrite lookup_insert_ne by done. destruct (decide (uid ∈ uids)); [by rewrite decide_True by (by right)|].
      rewrite decide_False; [done|]. by rewrite not_elem_of_cons.
Qed.

Lemma DhKeyList_roundtrip (dkl : gmap ID Int) :
  map_Forall (fun _ key => Z.of_nat (length (BinaryEncode key)) < 2 ^ 63) dkl -> DeserializeDhKeyList (DhKeyList_Serialize dhOrder dkl) = Ok dkl.
Proof.
  intros Hshort. unfold DeserializeDhKeyList, DhKeyList_Serialize.
  destruct (dhKeyLoop_spec dkl (dhOrder dkl) (length (DhKeyList_Serialize dhOrder dkl)) ∅) as (r & Hrun & Hr);
    [done|done|intros uid; apply map_order_elem|].
  unfold DhKeyList_Serialize in Hrun. rewrite Hrun. f_equal. apply map_eq. intros uid. rewrite Hr.
  case_decide as Hin; [done|]. rewrite lookup_empty. rewrite map_order_elem in Hin. by apply eq_None_not_Some in Hin.
Qed.

Lemma group_roundtrip_ok (g : Group ID Int) : group_ok g -> DeserializeGroup (Group_Serialize dhOrder g) = Ok g.
Proof.
  intros [Hkey Hidp Hkp Hname Hinit Hm Hdh Hid Hcr]. unfold DeserializeGroup, Group_Serialize.
  assert (exists ib, match g_ID g with Some i => id_Bytes i | None => replicate ArrIDLen x00 end = ib /\ length ib = ArrIDLen /\
    (if decide (ib = replicate ArrIDLen x00) then None else Some (id_Unmarshal ib : ID)) = g_ID g) as (ib & -> & Hib & Hgid).
  { eexists. split; [done|]. destruct (g_ID g) as [i|] eqn:Ei; [|done].
    rewrite decide_False by (by apply Hid). by rewrite arrid_length, id_Unmarshal_Bytes. }
  rewrite buffBytes_app by done. cbn [mbind result_bind]. rewrite buffNext_app by done. cbn [mbind result_bind].
  rewrite buffNext_app by done. cbn [mbind result_bind]. rewrite buffNext_app by done. cbn [mbind result_bind].
  rewrite buffNext_app by done. cbn [mbind result_bind]. rewrite buffBytes_app by done. cbn [mbind result_bind].
  rewrite buffU64_app. cbn [mbind result_bind]. rewrite buffU64_app. cbn [mbind result_bind].
  rewrite u64_nat, i64_nat, buffNext_app by done. cbn [mbind result_bind].
  rewrite membership_roundtrip, DhKeyList_roundtrip, !array_of_id, Hgid by done.
  assert ((if i64 (u64 (UnixNano (g_Created g))) =? UnixNano zeroTime then zeroTime else i64 (u64 (UnixNano (g_Created g)))) = g_Created g) as ->.
  { destruct Hcr as [->|[Hr Hne]]; [done|]. change (i64 (u64 (UnixNano (g_Created g)))) with (time_of_u64 (u64 (UnixNano (g_Created g)))).
    rewrite time_u64_roundtrip by done. by rewrite (proj2 (Z.eqb_neq _ _)). }
  by destruct g.
Qed.

(** C33: a group is read back from its bytes in full, with its members and
    shared keys, whatever order the keys were written in. *)
Theorem group_roundtrip (g : Group ID Int) : group_ok g -> DeserializeGroup (Group_Serialize dhOrder g) = Ok g.
Proof. apply group_roundtrip_ok. Qed.
End roundtrip.

(** ** The store *)

Record groupStore {ID Int : Type} `{NetID ID} := mkGroupStore {
  gst_list : gmap ID (Group ID Int);
  gst_user : Member ID Int;
  gst_kv : kv;
}.
Arguments groupStore ID Int {_}.

Section store.
Context {S ID Int : Type} `{EKV S} `{NetID ID} `{GroupFormat ID Int}.
Context (dhOrder : gmap ID Int -> list ID) (groupOrder : gmap ID (Group ID Int) -> list ID).
Implicit Types (gst : groupStore ID Int) (g : Group ID Int).

Definition gst_setList gst (l : gmap ID (Group ID Int)) : groupStore ID Int := mkGroupStore _ _ _ l (gst_user gst) (gst_kv gst).

Definition groupStoreKey (groupID : ID) : string := groupStorageKey +:+ id_String groupID.

(** The key of a nil identity is a nil pointer. *)
Definition group_store g (v : kv) (now : Time) : act S unit :=
  match g_ID g with
  | Some groupID => write (fun s => kv_Set v s (groupStoreKey groupID) (mkObject groupStoreVersion now (Group_Serialize dhOrder g)))
  | None => crash
  end.

Definition loadGroup (groupID : ID) (v : kv) : act S (Group ID Int) :=
  obj ← annotate "failed to get group %s from storage: %+v" [] (read (fun s => kv_Get v s (groupStoreKey groupID) groupStoreVersion));
  pureResult (DeserializeGroup (Data obj)).

Definition removeGroup (groupID : ID) (v : kv) : act S unit :=
  write (fun s => kv_Delete v s (groupStoreKey groupID) groupStoreVersion).

Definition serializeGroupIdList (groups : gmap ID (Group ID Int)) : list byte := concat (id_Bytes <$> groupOrder groups).

Fixpoint groupIdLoop (fuel : nat) (buff : list byte) : list ID :=
  match fuel with
  | O => []
  | Datatypes.S fuel =>
      if (length (take ArrIDLen buff) =? ArrIDLen)%nat
      then id_Unmarshal (take ArrIDLen buff) :: groupIdLoop fuel (drop ArrIDLen buff)
      else []
  end.

Definition deserializeGroupIdList (data : list byte) : list ID := groupIdLoop (length data) data.

Definition saveGroupList (now : Time) : act (S * groupStore ID Int) unit := fun '(s, gst) =>
  onStore (write (fun s => kv_Set (gst_kv gst) s groupListStorageKey (mkObject groupListVersion now (serializeGroupIdList (gst_list gst))))) (s, gst).

Fixpoint saveGroups gst (ids : list ID) (now : Time) : act S unit :=
  match ids with
  | [] => mret tt
  | i :: ids =>
      _ ← match gst_list gst !! i with
          | Some g => annotate "failed to save group %s to storage: %+v" [] (group_store g (gst_kv gst) now)
          | None => mret tt
          end;
      saveGroups gst ids now
  end.

Definition gst_save (now : Time) : act (S * groupStore ID Int) unit := fun '(s, gst) =>
  (_ ← saveGroupList now; onStore (saveGroups gst (groupOrder (gst_list gst)) now)) (s, gst).

Definition NewStore (v : kv) (user : Member ID Int) (now : Time) (s : S) : outcome (S * groupStore ID Int) unit :=
  let nil := mkGroupStore ID Int _ ∅ user v in
  match kv_Prefix v groupStoragePrefix with
  | Ok pv => gst_save now (s, mkGroupStore ID Int _ ∅ user pv)
  | Err e => Fail (s, nil) e
  | Panic => Crash
  end.

Fixpoint loadGroups (ids : list ID) : act (S * groupStore ID Int) unit := fun '(s, gst) =>
  match ids with
  | [] => Done (s, gst) tt
  | i :: ids =>
      match loadGroup i (gst_kv gst) s with
      | Done s g => loadGroups ids (s, gst_setList gst (<[i := g]> (gst_list gst)))
      | Fail s e => Fail (s, gst) (Wrapf "failed to load group %d/%d: %+v" [] e)
      | Crash => Crash
      end
  end.

Definition loadStore (data : list byte) (pv : kv) (user : Member ID Int) (s : S) : outcome (S * groupStore ID Int) unit :=
  loadGroups (deserializeGroupIdList data) (s, mkGroupStore ID Int _ ∅ user pv).

Definition NewOrLoadStore (v : kv) (user : Member ID Int) (now : Time) (s : S) : outcome (S * groupStore ID Int) unit :=
  match kv_Prefix v groupStoragePrefix with
  | Ok pv =>
      match kv_Get pv s groupListStorageKey groupListVersion with
      | inr vo => loadStore (Data vo) pv user s
      | inl _ => NewStore v user now s
      end
  | Err e => Fail (s, mkGroupStore ID Int _ ∅ user v) e
  | Panic => Crash
  end.

Definition LoadStore (v : kv) (user : Member ID Int) (s : S) : outcome (S * groupStore ID Int) unit :=
  match kv_Prefix v groupStoragePrefix with
  | Ok pv =>
      match kv_Get pv s groupListStorageKey groupListVersion with
      | inr vo => loadStore (Data vo) pv user s
      | inl e => Fail (s, mkGroupStore ID Int _ ∅ user pv) (Wrapf "failed to get list of group IDs from storage: %+v" [] e)
      end
  | Err e => Fail (s, mkGroupStore ID Int _ ∅ user v) e
  | Panic => Crash
  end.

Definition errMaxGroups : error := Errorf "failed to add new group, max number of groups (%d) reached" [Z.of_nat MaxGroupChats].
Definition errGroupExists : error := Errorf "group with ID %s already exists" [].
Definition errGroupRemove : error := Errorf "failed to remove group with ID %s, group not found in memory" [].

Definition gst_Add g (now : Time) : act (S * groupStore ID Int) unit := fun '(s, gst) =>
  if (MaxGroupChats <=? size (gst_list gst))%nat then Fail (s, gst) errMaxGroups
  else
    match g_ID g with
    | None => Crash
    | Some i =>
        match gst_list gst !! i with
        | Some _ => Fail (s, gst) errGroupExists
        | None =>
            (_ ← saveGroupList now; onStore (group_store g (gst_kv gst) now)) (s, gst_setList gst (<[i := g]> (gst_list gst)))
        end
    end.

Definition gst_Remove (groupID : ID) (now : Time) : act (S * groupStore ID Int) unit := fun '(s, gst) =>
  match gst_list gst !! groupID with
  | None => Fail (s, gst) errGroupRemove
  | Some _ =>
      (_ ← annotate "failed to save new group ID list after removing group %s" [] (saveGroupList now);
       onStore (removeGroup groupID (gst_kv gst))) (s, gst_setList gst (delete groupID (gst_list gst)))
  end.

Definition gst_Get gst (groupID : ID) : option (Group ID Int) := gst_list gst !! groupID.
Definition gst_Len gst : nat := size (gst_list gst).
Definition gst_GroupIDs gst : list ID := groupOrder (gst_list gst).
Definition gst_Groups gst : list (Group ID Int) := omap (fun i => gst_list gst !! i) (groupOrder (gst_list gst)).

(** [group.CheckKeyFingerprint] is a parameter. *)
Definition gst_GetByKeyFp (checkKeyFp : list byte -> list byte -> list byte -> ID -> bool) gst (keyFp salt : list byte) : option (Group ID Int) :=
  List.find (fun g => checkKeyFp keyFp (g_Key g) salt (mem_ID (gst_user gst))) (gst_Groups gst).
End store.

(** ** The contract

    At most 64 groups by identity. *)

Inductive gstOp {ID Int : Type} `{NetID ID} :=
| GAdd (g : Group ID Int)
| GRemove (groupID : ID)
| GGet (groupID : ID)
| GLen
| GIDs
| GRestart.
Arguments gstOp ID Int {_}.

Inductive gstAnswer {ID Int : Type} `{NetID ID} :=
| GDone
| GErr (e : error)
| GFound (g : option (Group ID Int))
| GCount (n : nat)
| GList (ids : list ID).
Arguments gstAnswer ID Int {_}.

Section contract.
Context {ID Int : Type} `{NetID ID} `{GroupFormat ID Int}.
Implicit Types (A : gmap ID (Group ID Int)).

Definition gstSpec (op : gstOp ID Int) A (A' : gmap ID (Group ID Int)) (o : gstAnswer ID Int) : Prop :=
  match op with
  | GAdd g => exists i, g_ID g = Some i /\
      if decide (MaxGroupChats <= size A)%nat then A' = A /\ o = GErr errMaxGroups
      else if decide (is_Some (A !! i)) then A' = A /\ o = GErr errGroupExists
      else A' = <[i := g]> A /\ o = GDone
  | GRemove i => if decide (is_Some (A !! i)) then A' = delete i A /\ o = GDone else A' = A /\ o = GErr errGroupRemove
  | GGet i => A' = A /\ o = GFound (A !! i)
  | GLen => A' = A /\ o = GCount (size A)
  | GIDs => A' = A /\ exists ids, o = GList ids /\ NoDup ids /\ forall i, i ∈ ids <-> is_Some (A !! i)
  | GRestart => A' = A /\ o = GDone
  end.

Fixpoint gstTrace (ops : list (gstOp ID Int)) A (os : list (gstAnswer ID Int)) : Prop :=
  match ops, os with
  | [], [] => True
  | op :: ops, o :: os => exists A', gstSpec op A A' o /\ gstTrace ops A' os
  | _, _ => False
  end.

Definition gstOp_ok (op : gstOp ID Int) : Prop :=
  match op with GAdd g => is_Some (g_ID g) /\ group_ok g | _ => True end.
End contract.

Section proofs.
Context {S ID Int : Type} `{EKVLaws S, !EKVReliable S} `{NetID ID, !ArrID ID} `{GroupFormatLaws ID Int}.
Context (dhOrder : gmap ID Int -> list ID) `{!MapOrder dhOrder} (groupOrder : gmap ID (Group ID Int) -> list ID) `{!MapOrder groupOrder}.
Context (v pv : kv) (user : Member ID Int) (now : Time) (Hv : kv_handle v) (Hpv : kv_Prefix v groupStoragePrefix = Ok pv).
Implicit Types (A : gmap ID (Group ID Int)) (s : S).

(** The error of an operation is its answer. *)
Definition answered {T} (m : act T unit) : act T (gstAnswer ID Int) := fun st =>
  match m st with
  | Done st _ => Done st GDone
  | Fail st e => Done st (GErr e)
  | Crash => Crash
  end.

Definition gstExec (op : gstOp ID Int) : act (S * groupStore ID Int) (gstAnswer ID Int) := fun '(s, gst) =>
  match op with
  | GAdd g => answered (gst_Add dhOrder groupOrder g now) (s, gst)
  | GRemove i => answered (gst_Remove groupOrder i now) (s, gst)
  | GGet i => Done (s, gst) (GFound (gst_Get gst i))
  | GLen => Done (s, gst) (GCount (gst_Len gst))
  | GIDs => Done (s, gst) (GList (gst_GroupIDs groupOrder gst))
  | GRestart => match NewOrLoadStore dhOrder groupOrder v (gst_user gst) now s with
                | Done st _ => Done st GDone | Fail st e => Done st (GErr e) | Crash => Crash end
  end.

Fixpoint gstRun (ops : list (gstOp ID Int)) : act (S * groupStore ID Int) (list (gstAnswer ID Int)) :=
  match ops with
  | [] => mret []
  | op :: ops => o ← gstExec op; os ← gstRun ops; mret (o :: os)
  end.

Definition gst_of A : groupStore ID Int := mkGroupStore _ _ _ A user pv.

Lemma pv_handle : kv_handle pv.
Proof. by eapply handle_prefix. Qed.

Lemma groupKey_ne (a b : ID) : a ≠ b -> (prefix pv, groupStoreKey a) ≠ (prefix pv, groupStoreKey b).
Proof.
  intros Hn Heq. apply Hn, id_String_inj, (inj (String.append groupStorageKey)). exact (f_equal snd Heq).
Qed.
Lemma groupKey_ne_list (a : ID) : (prefix pv, groupStoreKey a) ≠ (prefix pv, groupListStorageKey).
Proof. intros Heq. apply (f_equal snd) in Heq. discriminate Heq. Qed.
Lemma list_ne_groupKey (a : ID) : (prefix pv, groupListStorageKey) ≠ (prefix pv, groupStoreKey a).
Proof. intros Heq. by apply (groupKey_ne_list a). Qed.
Lemma groupKey_no_sep (a : ID) : strContains PrefixSeparator (groupStoreKey a) = false.
Proof. unfold groupStoreKey. by rewrite chars_no_sep_app, arrid_string. Qed.

(** Storage holds the groups [A]. *)
Record gst_stored s A : Prop := {
  gs_ids : map_Forall (fun i g => g_ID g = Some i /\ group_ok g) A;
  gs_list : exists o, kv_Get pv s groupListStorageKey 0 = inr o /\ NoDup (deserializeGroupIdList (Data o) : list ID) /\
    forall i, i ∈ deserializeGroupIdList (Data o) <-> is_Some (A !! i);
  gs_groups : map_Forall (fun i g => exists o, kv_Get pv s (groupStoreKey i) 0 = inr o /\ Data o = Group_Serialize dhOrder g) A;
}.

Lemma groupIds_roundtrip (ids : list ID) fuel :
  (length (concat (id_Bytes <$> ids)) <= fuel)%nat -> groupIdLoop fuel (concat (id_Bytes <$> ids)) = ids.
Proof.
  revert fuel. induction ids as [|i ids IH]; intros fuel Hf; [by destruct fuel|].
  rewrite fmap_cons in *. cbn [concat] in *. rewrite length_app, arrid_length in Hf. unfold ArrIDLen in Hf.
  destruct fuel as [|fuel]; [lia|]. cbn [groupIdLoop].
  rewrite take_app_length', drop_app_length' by (by rewrite arrid_length).
  rewrite (proj2 (Nat.eqb_eq _ _)) by apply arrid_length. rewrite id_Unmarshal_Bytes, IH by lia. done.
Qed.

Lemma saveGroupList_ok s A :
  exists s', saveGroupList groupOrder now (s, gst_of A) = Done (s', gst_of A) tt /\ changesOnly pv groupListStorageKey s s' /\
    exists o, kv_Get pv s' groupListStorageKey 0 = inr o /\ NoDup (deserializeGroupIdList (Data o) : list ID) /\
      forall i, i ∈ deserializeGroupIdList (Data o) <-> is_Some (A !! i).
Proof.
  destruct (set_step pv s groupListStorageKey now (serializeGroupIdList groupOrder A) pv_handle eq_refl) as (s' & Hset & Hget & Hch).
  exists s'. split; [by apply onStore_Done|]. split; [done|]. eexists. split; [done|]. cbn [Data].
  unfold deserializeGroupIdList, serializeGroupIdList. rewrite groupIds_roundtrip by done. split; [apply map_order_nodup|apply map_order_elem].
Qed.

Lemma group_store_ok s g i : g_ID g = Some i ->
  exists s', group_store dhOrder g pv now s = Done s' tt /\ changesOnly pv (groupStoreKey i) s s' /\
    exists o, kv_Get pv s' (groupStoreKey i) 0 = inr o /\ Data o = Group_Serialize dhOrder g.
Proof.
  intros Hi. destruct (set_step pv s (groupStoreKey i) now (Group_Serialize dhOrder g) pv_handle (groupKey_no_sep i)) as (s' & Hset & Hget & Hch).
  exists s'. unfold group_store. rewrite Hi. split; [done|]. split; [done|]. by eexists.
Qed.

(** The files of groups other than [i]. *)
Lemma groups_frame i s s' A : changesOnly pv (groupStoreKey i) s s' -> A !! i = None ->
  map_Forall (fun i g => exists o, kv_Get pv s (groupStoreKey i) 0 = inr o /\ Data o = Group_Serialize dhOrder g) A ->
  map_Forall (fun i g => exists o, kv_Get pv s' (groupStoreKey i) 0 = inr o /\ Data o = Group_Serialize dhOrder g) A.
Proof.
  intros Hch Hi HA j g Hj. rewrite Hch; [by apply HA|apply pv_handle|apply groupKey_no_sep|]. apply groupKey_ne. intros ->. congruence.
Qed.

Lemma groups_frame_list s s' A : changesOnly pv groupListStorageKey s s' ->
  map_Forall (fun i g => exists o, kv_Get pv s (groupStoreKey i) 0 = inr o /\ Data o = Group_Serialize dhOrder g) A ->
  map_Forall (fun i g => exists o, kv_Get pv s' (groupStoreKey i) 0 = inr o /\ Data o = Group_Serialize dhOrder g) A.
Proof.
  intros Hch HA j g Hj. rewrite Hch; [by apply HA|apply pv_handle|apply groupKey_no_sep|apply groupKey_ne_list].
Qed.

Lemma add_ok g i s A : gst_stored s A -> g_ID g = Some i -> group_ok g -> (size A < MaxGroupChats)%nat -> A !! i = None ->
  exists s', gst_Add dhOrder groupOrder g now (s, gst_of A) = Done (s', gst_of (<[i := g]> A)) tt /\ gst_stored s' (<[i := g]> A).
Proof.
  intros [Hids _ Hg] Hi Hok Hsz Hnone. unfold gst_Add. cbn [gst_of gst_list gst_kv].
  rewrite (proj2 (Nat.leb_gt _ _)), Hi, Hnone by done.
  destruct (saveGroupList_ok s (<[i := g]> A)) as (s1 & Hrun1 & Hfr1 & o & Hget & Hnd & Hl).
  destruct (group_store_ok s1 g i Hi) as (s2 & Hrun2 & Hfr2 & Hfile). exists s2. split.
  - fold (gst_of (<[i := g]> A)). erewrite bind_Done by exact Hrun1. by apply onStore_Done.
  - split.
    + by apply map_Forall_insert_2.
    + exists o. split; [|done]. rewrite Hfr2; [done|apply pv_handle|done|apply list_ne_groupKey].
    + apply map_Forall_insert; [done|]. split; [done|]. eapply groups_frame; [done|done|]. by eapply groups_frame_list.
Qed.

Lemma remove_ok i s A : gst_stored s A -> is_Some (A !! i) ->
  exists s', gst_Remove groupOrder i now (s, gst_of A) = Done (s', gst_of (delete i A)) tt /\ gst_stored s' (delete i A).
Proof.
  intros [Hids _ Hg] [g Hi]. unfold gst_Remove. cbn [gst_of gst_list gst_kv]. rewrite Hi.
  destruct (saveGroupList_ok s (delete i A)) as (s1 & Hrun1 & Hfr1 & o & Hget & Hnd & Hl).
  destruct (delete_step pv s1 (groupStoreKey i) pv_handle (groupKey_no_sep i)) as (s2 & Hrun2 & _ & Hfr2). exists s2. split.
  - fold (gst_of (delete i A)). erewrite bind_Done by (apply annotate_Done; exact Hrun1). by apply onStore_Done.
  - split.
    + by apply map_Forall_delete.
    + exists o. split; [|done]. rewrite Hfr2; [done|apply pv_handle|done|apply list_ne_groupKey].
    + eapply groups_frame; [done|apply lookup_delete_eq|]. eapply groups_frame_list; [done|]. by apply map_Forall_delete.
Qed.

Lemma loadGroups_ok ids s A B : gst_stored s A -> (forall i, i ∈ ids -> is_Some (A !! i)) ->
  exists B', loadGroups ids (s, gst_of B) = Done (s, gst_of B') tt /\ forall i, B' !! i = if decide (i ∈ ids) then A !! i else B !! i.
Proof.
  intros Hst. revert B. induction ids as [|i ids IH]; intros B Hin; [by exists B|].
  destruct (Hin i) as [g Hi]; [left|]. destruct (gs_groups s A Hst i g Hi) as (o & Ho & Hd). destruct (gs_ids s A Hst i g Hi) as [_ Hok].
  destruct (IH (<[i := g]> B)) as (B' & Hrun & HB'); [intros; apply Hin; by right|]. exists B'. split.
  - cbn [loadGroups]. unfold loadGroup. cbn [gst_of gst_kv].
    erewrite bind_Done by (apply annotate_Done, read_Done; exact Ho). rewrite Hd, group_roundtrip_ok by done. exact Hrun.
  - intros j. rewrite HB'. destruct (decide (j = i)) as [->|Hn].
    + rewrite lookup_insert_eq, (decide_True (P := i ∈ i :: ids)) by left. by case_decide.
    + rewrite lookup_insert_ne by done. destruct (decide (j ∈ ids)); [by rewrite decide_True by (by right)|].
      rewrite decide_False; [done|]. by rewrite not_elem_of_cons.
Qed.

Lemma groupRestart_ok s A : gst_stored s A -> NewOrLoadStore dhOrder groupOrder v user now s = Done (s, gst_of A) tt.
Proof.
  intros Hst. pose proof Hst as [_ (o & Ho & Hnd & Hl) _]. unfold NewOrLoadStore, loadStore. rewrite Hpv. unfold groupListVersion. rewrite Ho.
  destruct (loadGroups_ok (deserializeGroupIdList (Data o)) s A ∅ Hst) as (B & Hrun & HB); [intros; by apply Hl|].
  fold (gst_of ∅). rewrite Hrun. do 3 f_equal. apply map_eq. intros i. rewrite HB, lookup_empty. case_decide as Hin; [done|].
  rewrite Hl in Hin. by apply eq_None_not_Some in Hin.
Qed.

Lemma groupFresh_ok s : absent pv s groupListStorageKey ->
  exists s', NewOrLoadStore dhOrder groupOrder v user now s = Done (s', gst_of ∅) tt /\ gst_stored s' ∅ /\ changesOnly pv groupListStorageKey s s'.
Proof.
  intros (e & He & _). unfold NewOrLoadStore, NewStore, gst_save. rewrite Hpv. unfold groupListVersion. rewrite He.
  destruct (saveGroupList_ok s ∅) as (s' & Hrun & Hfr & Hl). fold (gst_of ∅). exists s'. split_and!; [| |done].
  - erewrite bind_Done by exact Hrun. cbn [gst_of gst_list]. destruct (groupOrder ∅) as [|i ids] eqn:E; [done|].
    assert (i ∈ groupOrder ∅) as Hi by (rewrite E; left). apply map_order_elem in Hi as [? Hi]. by rewrite lookup_empty in Hi.
  - split; [apply map_Forall_empty|done|apply map_Forall_empty].
Qed.

Lemma gstExec_step op s A : gstOp_ok op -> gst_stored s A ->
  exists s' A' o, gstExec op (s, gst_of A) = Done (s', gst_of A') o /\ gstSpec op A A' o /\ gst_stored s' A'.
Proof.
  intros Hop Hst. destruct op as [g|i|i| | |]; cbn [gstExec gstSpec gstOp_ok] in *.
  - destruct Hop as [[i Hi] Hok]. destruct (decide (MaxGroupChats <= size A)%nat) as [Hsz|Hsz].
    { exists s, A, (GErr errMaxGroups). split_and!; [|by exists i|done]. unfold answered, gst_Add. cbn [gst_of gst_list]. by rewrite (proj2 (Nat.leb_le _ _)). }
    destruct (decide (is_Some (A !! i))) as [[g' Hg']|Hn].
    { exists s, A, (GErr errGroupExists). split_and!; [|exists i; split; [done|]; rewrite decide_True by (by exists g'); done|done].
      unfold answered, gst_Add. cbn [gst_of gst_list]. by rewrite (proj2 (Nat.leb_gt _ _)), Hi, Hg' by lia. }
    destruct (add_ok g i s A Hst Hi Hok) as (s' & Hrun & Hst'); [lia|by apply eq_None_not_Some|].
    exists s', (<[i := g]> A), GDone. unfold answered. rewrite Hrun. split_and!; [done| |done]. exists i. split; [done|]. by rewrite decide_False.
  - destruct (decide (is_Some (A !! i))) as [Hi|Hn].
    + destruct (remove_ok i s A Hst Hi) as (s' & Hrun & Hst'). exists s', (delete i A), GDone. unfold answered. by rewrite Hrun.
    + exists s, A, (GErr errGroupRemove). split_and!; [|done..]. unfold answered, gst_Remove. cbn [gst_of gst_list].
      by apply eq_None_not_Some in Hn as ->.
  - exists s, A. by eexists.
  - exists s, A. by eexists.
  - exists s, A. eexists. split; [done|]. split; [|done]. split; [done|]. eexists. split; [done|].
    unfold gst_GroupIDs. split; [apply map_order_nodup|apply map_order_elem].
  - exists s, A, GDone. cbn [gst_of gst_user]. by rewrite (groupRestart_ok s A Hst).
Qed.

Lemma gstRun_steps ops s A : Forall gstOp_ok ops -> gst_stored s A ->
  exists st os, gstRun ops (s, gst_of A) = Done st os /\ gstTrace ops A os.
Proof.
  intros Hops. revert s A. induction Hops as [|op ops Hop _ IH]; intros s A Hst; [by exists (s, gst_of A), []|].
  destruct (gstExec_step op s A Hop Hst) as (s1 & A1 & o & Hrun1 & Ho & Hst1). destruct (IH s1 A1 Hst1) as (st & os & Hrun & Hos).
  exists st, (o :: os). split; [|by exists A1]. cbn [gstRun]. erewrite bind_Done by exact Hrun1. by erewrite bind_Done by exact Hrun.
Qed.

(** C19: from a first start on, the store of groups answers every sequence of
    additions, removals, questions and restarts as a map of at most 64 groups
    by identity does: a group is refused when the map is full or has it, and a
    restart gives every group back in full. *)
Theorem GroupStore_refines s ops : absent pv s groupListStorageKey -> Forall gstOp_ok ops ->
  exists s0 st os, NewOrLoadStore dhOrder groupOrder v user now s = Done (s0, gst_of ∅) tt /\
    gstRun ops (s0, gst_of ∅) = Done st os /\ gstTrace ops ∅ os.
Proof.
  intros Habs Hops. destruct (groupFresh_ok s Habs) as (s0 & Hnew & Hst & _).
  destruct (gstRun_steps ops s0 ∅ Hops Hst) as (st & os & Hrun & Hos). by exists s0, st, os.
Qed.

(** The first write of adding a group is the list of groups. *)
Lemma add_stopped s s' A g i :
  (size A < MaxGroupChats)%nat -> g_ID g = Some i -> A !! i = None ->
  saveGroupList groupOrder now (s, gst_of (<[i := g]> A)) = Done (s', gst_of (<[i := g]> A)) tt ->
  stoppedAfter 1 (gst_Add dhOrder groupOrder g now) s (gst_of A) = Some s'.
Proof.
  intros Hsz Hi Hnone Hsave. unfold stoppedAfter, gst_Add. cbn [gst_of gst_list].
  rewrite (proj2 (Nat.leb_gt _ _)), Hi, Hnone by lia.
  unfold saveGroupList, onStore, zoom, write in Hsave. cbn [fst snd gst_of gst_kv gst_list] in Hsave.
  destruct (kv_Set pv s groupListStorageKey _) as [s1 [e|]] eqn:E; [done|]. injection Hsave as <-. apply (halt_Set 0) in E.
  unfold mbind, act_bind, saveGroupList, group_store, onStore, zoom, write, gst_setList. rewrite Hi.
  cbn [fst snd gst_of gst_kv gst_list]. by rewrite E.
Qed.

(** C37: adding a group stores the list of groups before the group.  When the
    program stops after the first write of [Add], every later start fails: the
    store of groups cannot be opened any more. *)
Theorem interrupted_add_locks s A g i : gst_stored s A -> (size A < MaxGroupChats)%nat -> A !! i = None ->
  absent pv s (groupStoreKey i) -> g_ID g = Some i ->
  exists s', stoppedAfter 1 (gst_Add dhOrder groupOrder g now) s (gst_of A) = Some s' /\
    forall user' now', exists gst e, NewOrLoadStore dhOrder groupOrder v user' now' s' = Fail (s', gst) e.
Proof.
  intros Hst Hsz Hnone (e & He & Hex) Hi. destruct (saveGroupList_ok s (<[i := g]> A)) as (s' & Hrun & Hfr & o & Ho & Hnd & Hl).
  exists s'. split; [by apply (add_stopped s s' A g i)|]. intros user' now'. unfold NewOrLoadStore, loadStore. rewrite Hpv. unfold groupListVersion. rewrite Ho.
  assert (i ∈ deserializeGroupIdList (Data o)) as Hin by (apply Hl; by rewrite lookup_insert_eq).
  assert (forall j, j ∈ deserializeGroupIdList (Data o) -> j = i \/ is_Some (A !! j)) as Hids.
  { intros j Hj. destruct (decide (j = i)) as [->|Hn]; [by left|right]. apply Hl in Hj. by rewrite lookup_insert_ne in Hj. }
  revert Hin Hids. generalize (deserializeGroupIdList (Data o)). generalize (∅ : gmap ID (Group ID Int)). intros B ids.
  revert B. clear Ho Hnd Hl. induction ids as [|j ids IH]; intros B Hin Hids; [by apply not_elem_of_nil in Hin|].
  cbn [loadGroups gst_kv]. unfold loadGroup at 1. destruct (decide (j = i)) as [->|Hn].
  - erewrite bind_Fail; [by eexists _, _|]. apply annotate_Fail. unfold read, groupStoreVersion.
    rewrite Hfr; [by rewrite He|apply pv_handle|apply groupKey_no_sep|apply groupKey_ne_list].
  - destruct (Hids j) as [?|[g' Hj]]; [left|done|]. destruct (gs_groups s A Hst j g' Hj) as (oj & Hoj & Hdj).
    destruct (gs_ids s A Hst j g' Hj) as [_ Hok].
    erewrite bind_Done; [rewrite Hdj, group_roundtrip_ok by done|].
    + apply IH; [by apply elem_of_cons in Hin as [?|?]|]. intros j' ?. apply Hids. by right.
    + apply annotate_Done, read_Done. unfold groupStoreVersion. rewrite Hfr; [exact Hoj|apply pv_handle|apply groupKey_no_sep|apply groupKey_ne_list].
Qed.
End proofs.

(** ** Examples *)

(** Identities of 33 bytes, printed in base 64. *)
Definition arrID : Type := { b : list byte | length b = ArrIDLen }.
Definition arrID_of (b : list byte) : arrID := exist _ (array_of ArrIDLen b) (length_array_of _ _).

#[export] Instance arrID_NetID : NetID arrID := {
  id_String a := b64Encode (proj1_sig a);
  id_Bytes a := proj1_sig a;
  id_Unmarshal b := arrID_of b;
}.

#[export] Instance arrID_ArrID : ArrID arrID.
Proof.
  split.
  - split.
    + intros a b Heq%b64Encode_inj. by apply (sig_eq_pi _).
    + intros [b Hb]. apply (sig_eq_pi _). simpl. by apply array_of_id.
  - by intros [b Hb].
  - intros b Hb. simpl. by apply array_of_id.
  - intros a. apply b64Encode_no_sep.
Qed.

#[export] Instance Member_eq_dec {ID Int} `{EqDecision ID, EqDecision Int} : EqDecision (Member ID Int).
Proof. solve_decision. Defined.
#[export] Instance Member_countable {ID Int} `{Countable ID, Countable Int} : Countable (Member ID Int).
Proof. apply (inj_countable' (fun m => (mem_ID m, mem_DhKey m)) (fun '(a, b) => mkMember ID Int a b)). by intros []. Defined.

(** Keys of one byte. *)
#[export] Instance byteFormat : GroupFormat arrID byte := {
  gf_KeyLen := 1; gf_IdPreimageLen := 1; gf_KeyPreimageLen := 1;
  Membership_Serialize m := posBytes (encode m);
  DeserializeMembership b := match decode (bytesPos b) with Some m => inr m | None => inl (Errorf "membership" []) end;
  BinaryEncode k := [k];
  BinaryDecode b := match b with k :: _ => inr k | [] => inl (Errorf "empty" []) end;
}.

#[export] Instance byteFormat_laws : GroupFormatLaws arrID byte.
Proof. split; [|done]. intros m. simpl. by rewrite bytesPos_posBytes, decode_encode. Qed.

Definition ex_group : Group arrID byte :=
  mkGroup _ _ _ [x61] (Some (arrID_of [x01])) [x02] [x03] [x04] [x68; x69] 1000 [] {[arrID_of [x05] := x06]}.

Lemma ex_group_ok : group_ok ex_group.
Proof.
  split; [done|done|done|done|done|done| | |].
  - by apply map_Forall_singleton.
  - intros i [= <-]. discriminate.
  - right. done.
Qed.

Lemma group_roundtrip_witness : DeserializeGroup (Group_Serialize keysInOrder ex_group) = Ok ex_group.
Proof. apply (group_roundtrip keysInOrder ex_group ex_group_ok). Defined.

Definition ex_gpv : kv := mkKV ("GroupChatListStore" +:+ String PrefixSeparator "") {["GroupChatListStore" := 1]} 1.
Definition ex_member : Member arrID byte := mkMember _ _ (arrID_of [x05]) x07.

Lemma ex_gabsent : absent (S := MemStore) ex_gpv ∅ groupListStorageKey.
Proof. by exists errNotFound. Qed.

Definition ex_gops : list (gstOp arrID byte) := [GAdd ex_group; GRestart; GAdd ex_group; GGet (arrID_of [x01]); GRemove (arrID_of [x01]); GLen].

Lemma GroupStore_refines_witness : exists (s0 : MemStore) st os,
  NewOrLoadStore keysInOrder keysInOrder NewKV ex_member 0 ∅ = Done (s0, gst_of ex_gpv ex_member ∅) tt /\
  gstRun keysInOrder keysInOrder NewKV 0 ex_gops (s0, gst_of ex_gpv ex_member ∅) = Done st os /\ gstTrace ex_gops ∅ os.
Proof.
  apply (GroupStore_refines keysInOrder keysInOrder NewKV ex_gpv ex_member 0 handle_new eq_refl ∅ ex_gops ex_gabsent).
  repeat (apply List.Forall_cons; [by first [done|split; [done|apply ex_group_ok]]|]). apply List.Forall_nil.
Defined.

Lemma interrupted_add_locks_witness : exists s s' : MemStore,
  NewOrLoadStore keysInOrder keysInOrder NewKV ex_member 0 (∅ : MemStore) = Done (s, gst_of ex_gpv ex_member ∅) tt /\
  stoppedAfter 1 (gst_Add keysInOrder keysInOrder ex_group 0) s (gst_of ex_gpv ex_member ∅) = Some s' /\
  exists gst e, NewOrLoadStore keysInOrder keysInOrder NewKV ex_member 0 s' = Fail (s', gst) e.
Proof.
  destruct (groupFresh_ok keysInOrder keysInOrder NewKV ex_gpv ex_member 0 handle_new eq_refl (∅ : MemStore) ex_gabsent) as (s & Hnew & Hst & Hfr).
  destruct (interrupted_add_locks keysInOrder keysInOrder NewKV ex_gpv ex_member 0 handle_new eq_refl s ∅ ex_group (arrID_of [x01]) Hst)
    as (s' & Hrun & Hlock); [rewrite map_size_empty; unfold MaxGroupChats; lia|apply lookup_empty| |done|].
  { exists errNotFound. rewrite Hfr; [done|apply (pv_handle NewKV ex_gpv handle_new eq_refl)|apply groupKey_no_sep|apply groupKey_ne_list]. }
  exists s, s'. split; [exact Hnew|]. split; [exact Hrun|]. apply Hlock.
Defined.
