(* ===== verification/GroupMessage.v ===== *)
(** * Group messages

    [groupChat/internalFormat.go], [publicFormat.go], [send.go], [receive.go]: the
    message of a member, encrypted once for every other member with a key derived
    from the group's key, a salt and the epoch, and authenticated with the key
    the two members share. *)

From Stdlib Require Import Ascii.
From S2P Require Import Prelude GoBytes KV Services GroupStore.

(** ** The internal message

    Timestamp, sender, size of the payload, payload. *)

Definition timestampLen : Z := 8.
Definition gmIdLen : Z := Z.of_nat ArrIDLen.
Definition internalPayloadSizeLen : Z := 2.
Definition internalMinLen : Z := timestampLen + gmIdLen + internalPayloadSizeLen.

(** The fields are slices of one array. *)
Record internalMsg := mkInternalMsg {
  im_mem : list byte;
  im_data : slice;
  im_timestamp : slice;
  im_senderID : slice;
  im_size : slice;
  im_payload : slice;
}.

Definition im_setMem (im : internalMsg) (mem : list byte) : internalMsg :=
  mkInternalMsg mem (im_data im) (im_timestamp im) (im_senderID im) (im_size im) (im_payload im).

Definition mapInternalMsg (data : list byte) : result internalMsg :=
  let w := whole data in
  timestamp ← reslice data w 0 timestampLen;
  senderID ← reslice data w timestampLen (timestampLen + gmIdLen);
  size ← reslice data w (timestampLen + gmIdLen) (timestampLen + gmIdLen + internalPayloadSizeLen);
  payload ← reslice data w (timestampLen + gmIdLen + internalPayloadSizeLen) (Z.of_nat (length data));
  Ok (mkInternalMsg data w timestamp senderID size payload).

Definition newInternalMsg (maxDataSize : Z) : result internalMsg :=
  if maxDataSize <? internalMinLen then Err (Errorf "max message size %d < %d minimum required" [maxDataSize; internalMinLen])
  else data ← makeBytes maxDataSize; mapInternalMsg data.

Definition unmarshalInternalMsg (data : list byte) : result internalMsg :=
  if Z.of_nat (length data) <? internalMinLen
  then Err (Errorf "size of data %d < %d minimum required" [Z.of_nat (length data); internalMinLen])
  else mapInternalMsg data.

(** [binary.LittleEndian.PutUint64(s, z)] and the like: panics when the slice is
    shorter. *)
Definition sput_le (n : nat) (mem : list byte) (s : slice) (z : Z) : result (list byte) :=
  if decide (n <= s_len s)%nat then Ok (splice mem (s_off s) (le_encode n z)) else Panic.
Definition sget_le (n : nat) (mem : list byte) (s : slice) : result Z := get_le n (sread mem s).

Definition im_Marshal (im : internalMsg) : list byte := sread (im_mem im) (im_data im).

Definition im_GetTimestamp (im : internalMsg) : result Time :=
  x ← sget_le 8 (im_mem im) (im_timestamp im); Ok (time_of_u64 x).

Definition im_SetTimestamp (im : internalMsg) (t : Time) : result internalMsg :=
  mem ← sput_le 8 (im_mem im) (im_timestamp im) (u64 (UnixNano t)); Ok (im_setMem im mem).

(** [id.Unmarshal] refuses other lengths. *)
Definition errIDLen : error := Errorf "invalid length for an ID" [].
Definition im_GetSenderID {ID} `{NetID ID} (im : internalMsg) : result ID :=
  let b := sread (im_mem im) (im_senderID im) in
  if (length b =? ArrIDLen)%nat then Ok (id_Unmarshal b) else Err errIDLen.

Definition im_SetSenderID {ID} `{NetID ID} (im : internalMsg) (sid : ID) : internalMsg :=
  im_setMem im (scopy (im_mem im) (im_senderID im) (id_Bytes sid)).

Definition im_GetPayloadSize (im : internalMsg) : result Z := sget_le 2 (im_mem im) (im_size im).

Definition im_GetPayload (im : internalMsg) : result (list byte) :=
  size ← im_GetPayloadSize im;
  s ← reslice (im_mem im) (im_payload im) 0 size;
  Ok (sread (im_mem im) s).

Definition im_SetPayload (im : internalMsg) (payload : list byte) : result internalMsg :=
  mem ← sput_le 2 (im_mem im) (im_size im) (u16 (Z.of_nat (length payload)));
  Ok (im_setMem im (scopy mem (im_payload im) payload)).

Definition im_GetPayloadMaxSize (im : internalMsg) : Z := Z.of_nat (s_len (im_payload im)).

(** ** The public message

    Salt and encrypted internal message. *)

Definition SaltLen : nat := 32.
Definition publicMinLen : Z := Z.of_nat SaltLen.

Record publicMsg := mkPublicMsg {
  gpm_mem : list byte;
  gpm_data : slice;
  gpm_salt : slice;
  gpm_payload : slice;
}.

Definition gpm_setMem (pm : publicMsg) (mem : list byte) : publicMsg :=
  mkPublicMsg mem (gpm_data pm) (gpm_salt pm) (gpm_payload pm).

Definition mapPublicMsg (data : list byte) : result publicMsg :=
  let w := whole data in
  salt ← reslice data w 0 publicMinLen;
  payload ← reslice data w publicMinLen (Z.of_nat (length data));
  Ok (mkPublicMsg data w salt payload).

Definition newPublicMsg (maxDataSize : Z) : result publicMsg :=
  if maxDataSize <? publicMinLen then Err (Errorf "max message size %d < %d minimum required" [maxDataSize; publicMinLen])
  else data ← makeBytes maxDataSize; mapPublicMsg data.

Definition unmarshalPublicMsg (data : list byte) : result publicMsg :=
  if Z.of_nat (length data) <? publicMinLen
  then Err (Errorf "size of data %d < %d minimum required" [Z.of_nat (length data); publicMinLen])
  else mapPublicMsg data.

Definition gpm_Marshal (pm : publicMsg) : list byte := sread (gpm_mem pm) (gpm_data pm).
Definition gpm_GetSalt (pm : publicMsg) : list byte := array_of SaltLen (sread (gpm_mem pm) (gpm_salt pm)).
Definition gpm_SetSalt (pm : publicMsg) (salt : list byte) : publicMsg := gpm_setMem pm (scopy (gpm_mem pm) (gpm_salt pm) salt).
Definition gpm_GetPayload (pm : publicMsg) : list byte := sread (gpm_mem pm) (gpm_payload pm).
Definition gpm_SetPayload (pm : publicMsg) (payload : list byte) : publicMsg :=
  gpm_setMem pm (scopy (gpm_mem pm) (gpm_payload pm) payload).
Definition gpm_GetPayloadSize (pm : publicMsg) : Z := Z.of_nat (s_len (gpm_payload pm)).

(** ** Sending and receiving *)

(** [crypto/group]; a shared key that is missing is a nil pointer. *)
Class GroupCrypto (ID Int CryptKey : Type) := {
  NewKeyFingerprint : list byte -> list byte -> ID -> list byte;
  NewKdfKey : list byte -> Z -> list byte -> error + CryptKey;
  ComputeEpoch : Time -> Z;
  gEncrypt : CryptKey -> list byte -> list byte -> list byte;
  gDecrypt : CryptKey -> list byte -> list byte -> list byte;
  gNewMAC : CryptKey -> list byte -> option Int -> result (list byte);
  gCheckMAC : list byte -> CryptKey -> list byte -> Int -> bool;
  NewMessageID : option ID -> list byte -> list byte;
}.

(** Decryption inverts encryption, which keeps the length; a MAC is accepted
    with the keys it was made with, and with no other encryption key; epochs are
    [uint32]s. *)
Class GroupCryptoLaws (ID Int CryptKey : Type) `{GroupCrypto ID Int CryptKey} : Prop := {
  group_decrypt_encrypt k fp m : gDecrypt k fp (gEncrypt k fp m) = m;
  group_encrypt_length k fp m : length (gEncrypt k fp m) = length m;
  group_kdf k e salt : exists key, NewKdfKey k e salt = inr key;
  group_mac k m d : exists mac, gNewMAC k m (Some d) = Ok mac /\ gCheckMAC mac k m d = true;
  group_mac_key k k' m d d' mac : gNewMAC k m (Some d) = Ok mac -> gCheckMAC mac k' m d' = true -> k' = k;
  group_epoch t : is_u 32 (ComputeEpoch t);
}.

Definition catalogGroup : string := "group".
Definition makeServiceTag (tag : string) : string := catalogGroup +:+ "-" +:+ tag.

Record TargetedCmixMessage {ID : Type} := mkTargeted {
  tm_Recipient : ID;
  tm_Fingerprint : list byte;
  tm_Service : Service;
  tm_Payload : list byte;
  tm_Mac : list byte;
}.
Arguments TargetedCmixMessage : clear implicits.

Record MessageReceive {ID : Type} := mkMessageReceive {
  mr_GroupID : option ID;
  mr_ID : list byte;
  mr_Payload : list byte;
  mr_SenderID : ID;
  mr_Timestamp : Time;
}.
Arguments MessageReceive : clear implicits.

Section code.
Context {ID Int CryptKey : Type} `{NetID ID} `{GroupCrypto ID Int CryptKey}.
Context (dhOrder : gmap ID Int -> list ID).
Implicit Types (g : Group ID Int).

(** One read of the random source: the number of bytes read, the bytes, an
    error. *)
Definition rngRead : Type := nat * list byte * option error.

Definition newSalt (rng : rngRead) : result (list byte) :=
  let '(n, b, err) := rng in
  match err with
  | Some e => Err (Wrapf "failed to generate salt for group message: %+v" [] e)
  | None => if (n =? SaltLen)%nat then Ok (array_of SaltLen b)
            else Err (Errorf "length of generated salt %d != %d required" [Z.of_nat SaltLen; Z.of_nat n])
  end.

Definition setInternalPayload (im : internalMsg) (timestamp : Time) (sender : ID) (msg : list byte) : result (list byte) :=
  im ← im_SetTimestamp im timestamp;
  im ← im_SetPayload (im_SetSenderID im sender) msg;
  Ok (im_Marshal im).

Definition setPublicPayload (pm : publicMsg) (salt encryptedPayload : list byte) : list byte :=
  gpm_Marshal (gpm_SetPayload (gpm_SetSalt pm salt) encryptedPayload).

Definition newCmixMsg g (tag : string) (timestamp : Time) (mem : Member ID Int) (rng : rngRead) (maxCmixMessageSize : Z)
    (internalMessagePayload : list byte) : result (TargetedCmixMessage ID) :=
  match g_ID g with
  | None => Panic
  | Some gid =>
      pubMsg ← newPublicMsg maxCmixMessageSize;
      salt ← newSalt rng;
      let fp := NewKeyFingerprint (g_Key g) salt (mem_ID mem) in
      match NewKdfKey (g_Key g) (ComputeEpoch timestamp) salt with
      | inl e => Err (Wrapf "failed to generate key for encrypting group payload" [] e)
      | inr key =>
          let encryptedPayload := gEncrypt key fp internalMessagePayload in
          mac ← gNewMAC key encryptedPayload (g_DhKeys g !! mem_ID mem);
          Ok (mkTargeted ID (mem_ID mem) fp (mkService (id_Bytes gid) (makeServiceTag tag) (id_Bytes gid))
                (setPublicPayload pubMsg salt encryptedPayload) mac)
      end
  end.

(** The loop of [newMessages]; [k] counts the reads of the random source. *)
Fixpoint messagesLoop g (me : ID) (tag : string) (timestamp : Time) (rng : nat -> rngRead) (max : Z) (payload : list byte)
    (members : list (Member ID Int)) (k : nat) : result (list (TargetedCmixMessage ID)) :=
  match members with
  | [] => Ok []
  | member :: members =>
      if decide (me = mem_ID member) then messagesLoop g me tag timestamp rng max payload members k
      else
        m ← newCmixMsg g tag timestamp member (rng k) max payload;
        ms ← messagesLoop g me tag timestamp rng max payload members (Datatypes.S k);
        Ok (m :: ms)
  end.

(** Errors with the text of the call put before them. *)
Definition wrapErr {A} (fmt : string) (r : result A) : result A :=
  match r with Err e => Err (Wrapf fmt [] e) | r => r end.

(** [me] is the reception identity, [max] the largest cMix message. *)
Definition newMessages (me : ID) (max : Z) (rng : nat -> rngRead) g (tag : string) (msg : list byte) (timestamp : Time) :
    result (list (TargetedCmixMessage ID) * list byte) :=
  pubMsg ← wrapErr "failed to create new public group message for cMix message: %+v" (newPublicMsg max);
  intlMsg ← wrapErr "failed to create new internal group message for cMix message: %+v" (newInternalMsg (gpm_GetPayloadSize pubMsg));
  if im_GetPayloadMaxSize intlMsg <? Z.of_nat (length msg)
  then Err (Errorf "message length %d is greater than maximum payload size %d" [Z.of_nat (length msg); im_GetPayloadMaxSize intlMsg])
  else
    payload ← setInternalPayload intlMsg timestamp me msg;
    messages ← messagesLoop g me tag timestamp rng max payload (g_Members g) 0;
    Ok (messages, NewMessageID (g_ID g) payload).

(** The epochs around the one of the round are tried for one shared key. *)
Fixpoint tryEpochs (key salt mac payload : list byte) (dhKey : Int) (epochs : list Z) : error + option CryptKey :=
  match epochs with
  | [] => inr None
  | e :: epochs =>
      match NewKdfKey key e salt with
      | inl e => inl (Wrapf "failed to generate key for decrypting group payload: %+v" [] e)
      | inr cryptKey => if gCheckMAC mac cryptKey payload dhKey then inr (Some cryptKey) else tryEpochs key salt mac payload dhKey epochs
      end
  end.

Fixpoint tryKeys (key salt mac payload : list byte) (epochs : list Z) (dhKeys : list Int) : error + option CryptKey :=
  match dhKeys with
  | [] => inr None
  | dhKey :: dhKeys =>
      match tryEpochs key salt mac payload dhKey epochs with
      | inr None => tryKeys key salt mac payload epochs dhKeys
      | r => r
      end
  end.

Definition getCryptKey (key salt mac payload : list byte) (dhKeys : gmap ID Int) (roundTimestamp now : Time) : result CryptKey :=
  let roundTimestamp := if roundTimestamp =? 0 then now else roundTimestamp in
  let epoch := ComputeEpoch roundTimestamp in
  match tryKeys key salt mac payload [epoch; u32 (epoch - 1); u32 (epoch + 1)] (omap (fun i => dhKeys !! i) (dhOrder dhKeys)) with
  | inl e => Err e
  | inr (Some cryptKey) => Ok cryptKey
  | inr None => Err (Errorf "MAC verification failed (epoch %d could be off)" [epoch])
  end.

Definition decryptMessage g (fingerprint : list byte) (key : CryptKey) (payload : list byte) : result (MessageReceive ID) :=
  let decryptedPayload := gDecrypt key fingerprint payload in
  intlMsg ← wrapErr "failed to unmarshal group internal message: %+v" (unmarshalInternalMsg decryptedPayload);
  senderID ← wrapErr "failed to unmarshal sender ID: %+v" (im_GetSenderID intlMsg);
  msgPayload ← im_GetPayload intlMsg;
  timestamp ← im_GetTimestamp intlMsg;
  Ok (mkMessageReceive ID None (NewMessageID (g_ID g) (im_Marshal intlMsg)) msgPayload senderID timestamp).

(** The processor of a group, on the contents, MAC and fingerprint of a message:
    what it hands on, if anything; errors are logged. *)
Definition receptionProcessor_Process g (contents mac keyFP : list byte) (roundTimestamp now : Time) : result (option (MessageReceive ID)) :=
  match unmarshalPublicMsg contents with
  | Ok pubMsg =>
      match getCryptKey (g_Key g) (gpm_GetSalt pubMsg) mac (gpm_GetPayload pubMsg) (g_DhKeys g) roundTimestamp now with
      | Ok key =>
          match decryptMessage g keyFP key (gpm_GetPayload pubMsg) with
          | Ok r => Ok (Some (mkMessageReceive ID (g_ID g) (mr_ID r) (mr_Payload r) (mr_SenderID r) (mr_Timestamp r)))
          | Err _ => Ok None
          | Panic => Panic
          end
      | Err _ => Ok None
      | Panic => Panic
      end
  | Err _ => Ok None
  | Panic => Panic
  end.
End code.

(** ** Layout *)

Lemma sput_le_seg n segs i b off len z :
  segs !! i = Some b -> length b = n -> off = segOff segs i -> (n <= len)%nat ->
  sput_le n (concat segs) (Slice off len) z = Ok (concat (<[i := le_encode n z]> segs)).
Proof.
  intros Hi Hn -> Hle. unfold sput_le. cbn [s_len s_off]. rewrite decide_True by done.
  by rewrite (seg_splice segs i b) by (done || by rewrite length_le_encode).
Qed.

Lemma sget_le_seg n segs i z off :
  segs !! i = Some (le_encode n z) -> off = segOff segs i -> is_u (8 * Z.of_nat n) z ->
  sget_le n (concat segs) (Slice off n) = Ok z.
Proof.
  intros Hi Ho Hz. unfold sget_le. rewrite (sread_seg _ _ _ _ _ Hi Ho) by (by rewrite length_le_encode). by apply get_le_encode.
Qed.

(** A message over its array, which has room for the fields. *)
Definition internal_of (mem : list byte) : internalMsg :=
  mkInternalMsg mem (whole mem) (Slice 0 8) (Slice 8 33) (Slice 41 2) (Slice 43 (length mem - 43)).
Definition public_of (mem : list byte) : publicMsg := mkPublicMsg mem (whole mem) (Slice 0 32) (Slice 32 (length mem - 32)).

Lemma mapInternal_ok mem : (43 <= length mem)%nat -> mapInternalMsg mem = Ok (internal_of mem).
Proof.
  intros Hl. unfold mapInternalMsg, timestampLen, gmIdLen, internalPayloadSizeLen, ArrIDLen.
  rewrite !reslice_whole by lia. cbn [mbind result_bind]. unfold internal_of. do 2 f_equal. f_equal; lia.
Qed.

Lemma mapPublic_ok mem : (32 <= length mem)%nat -> mapPublicMsg mem = Ok (public_of mem).
Proof.
  intros Hl. unfold mapPublicMsg, publicMinLen, SaltLen.
  rewrite !reslice_whole by lia. cbn [mbind result_bind]. unfold public_of. do 2 f_equal. f_equal; lia.
Qed.

Lemma newInternal_ok size : 43 <= size -> newInternalMsg size = Ok (internal_of (replicate (Z.to_nat size) x00)).
Proof.
  intros Hs. unfold newInternalMsg. change internalMinLen with 43. unfold makeBytes.
  rewrite !(proj2 (Z.ltb_ge _ _)) by lia. cbn [mbind result_bind]. apply mapInternal_ok. rewrite length_replicate. lia.
Qed.

Lemma newPublic_ok size : 32 <= size -> newPublicMsg size = Ok (public_of (replicate (Z.to_nat size) x00)).
Proof.
  intros Hs. unfold newPublicMsg. change publicMinLen with 32. unfold makeBytes.
  rewrite !(proj2 (Z.ltb_ge _ _)) by lia. cbn [mbind result_bind]. apply mapPublic_ok. rewrite length_replicate. lia.
Qed.

Section layout.
Context {ID : Type} `{NetID ID, !ArrID ID}.

(** The bytes of an internal message. *)
Definition internalSegs (ts : Time) (sender : ID) (msg : list byte) (pad : nat) : list (list byte) :=
  [le_encode 8 (u64 (UnixNano ts)); id_Bytes sender; le_encode 2 (u16 (Z.of_nat (length msg))); msg; replicate pad x00].

Lemma length_internal ts sender msg pad : length (concat (internalSegs ts sender msg pad)) = (43 + length msg + pad)%nat.
Proof. unfold internalSegs. cbn [concat]. rewrite !length_app, !length_le_encode, arrid_length, length_replicate. cbn [length]. unfold ArrIDLen. lia. Qed.

Lemma im_of_eq im mem : im = internal_of (im_mem im) -> length mem = length (im_mem im) -> im_setMem im mem = internal_of mem.
Proof. intros -> Hl. unfold im_setMem, internal_of, whole. cbn in *. by rewrite Hl. Qed.

Lemma setInternalPayload_ok size ts (sender : ID) msg : (43 + length msg <= size)%nat ->
  setInternalPayload (internal_of (replicate size x00)) ts sender msg = Ok (concat (internalSegs ts sender msg (size - 43 - length msg))).
Proof.
  intros Hs. set (pad := (size - 43 - length msg)%nat). pose proof (arrid_length sender) as Hid. unfold ArrIDLen in Hid.
  unfold setInternalPayload, im_SetTimestamp, internal_of, whole. cbn [im_mem im_timestamp]. rewrite length_replicate.
  rewrite (zero_cut [8; 33; 2; length msg; pad]%nat size) by (unfold pad; simpl; lia). cbn [map].
  rewrite (sput_le_seg 8 _ 0 (replicate 8 x00)) by done. cbn [mbind result_bind insert list_insert].
  unfold im_SetSenderID, im_setMem. cbn [im_mem im_senderID im_data im_timestamp im_size im_payload].
  replace (Slice 8 33) with (Slice 8 (length (id_Bytes sender))) by (by rewrite Hid).
  rewrite (scopy_seg _ 1 (replicate 33 x00)); [|done|by rewrite length_replicate|by unfold segOff; cbn [take concat]; rewrite length_app, length_le_encode].
  cbn [insert list_insert]. unfold im_SetPayload. cbn [im_mem im_size im_payload].
  rewrite (sput_le_seg 2 _ 2 (replicate 2 x00)); [|done|done|by unfold segOff; cbn [take concat]; rewrite !length_app, length_le_encode, Hid|done].
  cbn [mbind result_bind insert list_insert]. unfold im_setMem, im_Marshal. cbn [im_mem im_data im_payload].
  unfold scopy. cbn [s_off s_len]. rewrite (take_ge msg) by lia.
  replace 43%nat with (segOff [le_encode 8 (u64 (UnixNano ts)); id_Bytes sender; le_encode 2 (u16 (Z.of_nat (length msg))); replicate (length msg) x00; replicate pad x00] 3)
    by (by unfold segOff; cbn [take concat]; rewrite !length_app, !length_le_encode, Hid).
  rewrite (seg_splice _ 3 (replicate (length msg) x00)) by (done || by rewrite length_replicate).
  cbn [insert list_insert]. fold (internalSegs ts sender msg pad). unfold sread. cbn [s_len s_off]. rewrite drop_0, take_ge; [done|].
  rewrite length_internal. unfold pad. lia.
Qed.

(** What the receiver reads from these bytes. *)
Lemma internal_read ts (sender : ID) msg pad : - 2 ^ 63 <= ts < 2 ^ 63 -> Z.of_nat (length msg) < 2 ^ 16 ->
  let mem := concat (internalSegs ts sender msg pad) in
  unmarshalInternalMsg mem = Ok (internal_of mem) /\ im_GetSenderID (internal_of mem) = Ok sender /\
  im_GetPayload (internal_of mem) = Ok msg /\ im_GetTimestamp (internal_of mem) = Ok ts /\ im_Marshal (internal_of mem) = mem.
Proof.
  intros Hts Hmsg mem. pose proof (length_internal ts sender msg pad) as Hlen. fold mem in Hlen. subst mem.
  pose proof (arrid_length sender) as Hid. unfold ArrIDLen in Hid. split_and!.
  - unfold unmarshalInternalMsg. change internalMinLen with 43. rewrite (proj2 (Z.ltb_ge _ _)) by lia. apply mapInternal_ok. lia.
  - unfold im_GetSenderID. cbn [internal_of im_mem im_senderID].
    rewrite (sread_seg _ 1 (id_Bytes sender)); [|done|by unfold segOff, internalSegs; cbn [take concat]; rewrite length_app, length_le_encode|done].
    rewrite Hid. cbn. by rewrite id_Unmarshal_Bytes.
  - unfold im_GetPayload, im_GetPayloadSize. cbn [internal_of im_mem im_size im_payload].
    assert (is_u 16 (Z.of_nat (length msg))) as Hu by (split; lia).
    rewrite (sget_le_seg 2 _ 2 (u16 (Z.of_nat (length msg)))); [|done|by unfold segOff, internalSegs; cbn [take concat]; rewrite !length_app, length_le_encode, Hid|apply wrapu_range; lia].
    cbn [mbind result_bind]. rewrite wrapu_small by done. rewrite reslice_prefix by (cbn [s_off]; lia). cbn [mbind result_bind s_off].
    rewrite Nat2Z.id. f_equal. apply (sread_seg _ 3); [done|by unfold segOff, internalSegs; cbn [take concat]; rewrite !length_app, !length_le_encode, Hid|done].
  - unfold im_GetTimestamp. cbn [internal_of im_mem im_timestamp].
    rewrite (sget_le_seg 8 _ 0 (u64 (UnixNano ts))); [|done|done|apply wrapu_range; lia]. cbn [mbind result_bind]. by rewrite time_u64_roundtrip.
  - unfold im_Marshal, sread. cbn [internal_of im_mem im_data whole s_len s_off]. by rewrite drop_0, take_ge.
Qed.

Lemma setPublicPayload_ok size salt enc : length salt = SaltLen -> size = (32 + length enc)%nat ->
  setPublicPayload (public_of (replicate size x00)) salt enc = salt ++ enc.
Proof.
  unfold SaltLen. intros Hsalt ->. unfold setPublicPayload, gpm_SetPayload, gpm_SetSalt, gpm_setMem, public_of, whole.
  cbn [gpm_mem gpm_salt gpm_data gpm_payload]. rewrite length_replicate, (zero_cut [32; length enc]%nat) by (simpl; lia). cbn [map].
  replace (Slice 0 32) with (Slice 0 (length salt)) by (by rewrite Hsalt).
  rewrite (scopy_seg _ 0 (replicate 32 x00)); [|done|by rewrite Hsalt|done]. cbn [insert list_insert].
  replace (Slice 32 (32 + length enc - 32)) with (Slice 32 (length enc)) by (f_equal; lia).
  rewrite (scopy_seg _ 1 (replicate (length enc) x00)); [|done|by rewrite length_replicate|by unfold segOff; cbn [take concat]; rewrite app_nil_r].
  cbn [insert list_insert concat]. rewrite app_nil_r. unfold gpm_Marshal, sread. cbn [gpm_mem gpm_data s_len s_off].
  rewrite drop_0, take_ge; [done|]. rewrite length_app. lia.
Qed.

Lemma public_read salt enc : length salt = SaltLen ->
  exists pm, unmarshalPublicMsg (salt ++ enc) = Ok pm /\ gpm_GetSalt pm = salt /\ gpm_GetPayload pm = enc.
Proof.
  unfold SaltLen. intros Hsalt. exists (public_of (salt ++ enc)). split_and!.
  - unfold unmarshalPublicMsg. change publicMinLen with 32. rewrite length_app, (proj2 (Z.ltb_ge _ _)) by lia.
    apply mapPublic_ok. rewrite length_app. lia.
  - unfold gpm_GetSalt, sread. cbn [public_of gpm_mem gpm_salt s_len s_off]. rewrite drop_0, take_app_length' by done. by apply array_of_id.
  - unfold gpm_GetPayload, sread. cbn [public_of gpm_mem gpm_payload s_len s_off]. rewrite drop_app_length' by done.
    apply take_ge. rewrite length_app. lia.
Qed.
End layout.

(** ** Delivery *)

Section delivery.
Context {ID Int CryptKey : Type} `{NetID ID, !ArrID ID} `{GroupCryptoLaws ID Int CryptKey}.
Context (dhOrder : gmap ID Int -> list ID) `{!MapOrder dhOrder}.
Implicit Types (g : Group ID Int).

(** A read of the random source that fills the salt. *)
Definition rng_ok (rng : rngRead) : Prop := rng.1.1 = SaltLen /\ rng.2 = None.

Lemma newSalt_ok rng : rng_ok rng -> exists salt, newSalt rng = Ok salt /\ length salt = SaltLen.
Proof. destruct rng as [[n b] err]. intros [Hn He]. simpl in *. subst n err. eexists. split; [done|]. apply length_array_of. Qed.

Lemma tryEpochs_spec key salt mac payload dhKey epochs k :
  (forall k' d', gCheckMAC mac k' payload d' = true -> k' = k) ->
  tryEpochs key salt mac payload dhKey epochs = inr None \/ tryEpochs key salt mac payload dhKey epochs = inr (Some k).
Proof.
  intros Hmac. induction epochs as [|e epochs IH]; cbn [tryEpochs]; [by left|].
  destruct (group_kdf key e salt) as [ck ->]. destruct (gCheckMAC mac ck payload dhKey) eqn:E; [|done].
  right. by rewrite (Hmac _ _ E).
Qed.

Lemma tryEpochs_finds key salt mac payload dhKey epochs e k :
  (forall k' d', gCheckMAC mac k' payload d' = true -> k' = k) -> e ∈ epochs -> NewKdfKey key e salt = inr k ->
  gCheckMAC mac k payload dhKey = true -> tryEpochs key salt mac payload dhKey epochs = inr (Some k).
Proof.
  intros Hmac Hin Hk Hc. induction epochs as [|e' epochs IH]; [by apply not_elem_of_nil in Hin|]. cbn [tryEpochs].
  destruct (group_kdf key e' salt) as [ck Hck]. rewrite Hck. destruct (gCheckMAC mac ck payload dhKey) eqn:E; [by rewrite (Hmac _ _ E)|].
  apply elem_of_cons in Hin as [->|Hin]; [|by apply IH]. congruence.
Qed.

Lemma tryKeys_finds key salt mac payload epochs dhKeys e dhKey k :
  (forall k' d', gCheckMAC mac k' payload d' = true -> k' = k) -> dhKey ∈ dhKeys -> e ∈ epochs -> NewKdfKey key e salt = inr k ->
  gCheckMAC mac k payload dhKey = true -> tryKeys key salt mac payload epochs dhKeys = inr (Some k).
Proof.
  intros Hmac Hin He Hk Hc. induction dhKeys as [|d dhKeys IH]; [by apply not_elem_of_nil in Hin|]. cbn [tryKeys].
  apply elem_of_cons in Hin as [->|Hin]; [by rewrite (tryEpochs_finds _ _ _ _ _ _ e k)|].
  destruct (tryEpochs_spec key salt mac payload d epochs k Hmac) as [-> | ->]; [by apply IH|done].
Qed.

(** The epoch of a round, its time taken as now when it is missing, is at most
    one from that of the message. *)
Definition epoch_near (ts roundTimestamp now : Time) : Prop :=
  let e := ComputeEpoch (if roundTimestamp =? 0 then now else roundTimestamp) in
  ComputeEpoch ts ∈ [e; u32 (e - 1); u32 (e + 1)].

(** The group of a receiver fits that of the sender: they have the same identity
    and key, and hold the same key for each other. *)
Definition fits (me r : ID) g g' : Prop :=
  g_ID g' = g_ID g /\ g_Key g' = g_Key g /\ exists d, g_DhKeys g !! r = Some d /\ g_DhKeys g' !! me = Some d.

(** What is read from the message for one member. *)
Lemma cmixMsg_received g tag ts (me : ID) mem rng max msg pad gid d :
  g_ID g = Some gid -> g_DhKeys g !! mem_ID mem = Some d -> rng_ok rng -> - 2 ^ 63 <= ts < 2 ^ 63 -> Z.of_nat (length msg) < 2 ^ 16 ->
  max = Z.of_nat (75 + length msg + pad) ->
  let payload := concat (internalSegs ts me msg pad) in
  exists m, newCmixMsg g tag ts mem rng max payload = Ok m /\ tm_Recipient m = mem_ID mem /\
    tm_Service m = mkService (id_Bytes gid) (makeServiceTag tag) (id_Bytes gid) /\
    forall g' rts now, fits me (mem_ID mem) g g' -> epoch_near ts rts now ->
    receptionProcessor_Process dhOrder g' (tm_Payload m) (tm_Mac m) (tm_Fingerprint m) rts now =
      Ok (Some (mkMessageReceive ID (Some gid) (NewMessageID (Some gid) payload) msg me ts)).
Proof.
  intros Hgid Hd Hrng Hts Hmsg Hmax payload. destruct (newSalt_ok rng Hrng) as (salt & Hsalt & Hlen).
  destruct (group_kdf (g_Key g) (ComputeEpoch ts) salt) as (k & Hk). set (fp := NewKeyFingerprint (g_Key g) salt (mem_ID mem)).
  set (enc := gEncrypt k fp payload). destruct (group_mac k enc d) as (mac & Hmac & Hcheck).
  pose proof (length_internal ts me msg pad) as Hpl. fold payload in Hpl.
  assert (length enc = length payload) as Hel by apply group_encrypt_length.
  exists (mkTargeted ID (mem_ID mem) fp (mkService (id_Bytes gid) (makeServiceTag tag) (id_Bytes gid)) (salt ++ enc) mac). split_and!; [|done|done|].
  - unfold newCmixMsg. rewrite Hgid, newPublic_ok by lia. cbn [mbind result_bind]. rewrite Hsalt. cbn [mbind result_bind].
    rewrite Hk. fold fp enc. rewrite Hd, Hmac. cbn [mbind result_bind]. rewrite setPublicPayload_ok by (done || lia). done.
  - intros g' rts now (Hid' & Hkey' & d' & Hd1 & Hd') Hep. assert (d' = d) as -> by congruence.
    cbn [tm_Payload tm_Mac tm_Fingerprint]. unfold receptionProcessor_Process.
    destruct (public_read salt enc Hlen) as (pm & -> & -> & ->). rewrite Hkey', Hid', Hgid.
    unfold getCryptKey. rewrite (tryKeys_finds _ _ _ _ _ _ (ComputeEpoch ts) d k); [|..].
    + unfold decryptMessage, enc. rewrite group_decrypt_encrypt, Hid', Hgid.
      destruct (internal_read ts me msg pad Hts Hmsg) as (Hu & Hs & Hp & Ht & Hm). fold payload in Hu, Hs, Hp, Ht, Hm.
      rewrite Hu. cbn [wrapErr mbind result_bind]. rewrite Hs. cbn [wrapErr mbind result_bind]. rewrite Hp. cbn [mbind result_bind].
      rewrite Ht. cbn [mbind result_bind]. rewrite Hm. done.
    + intros k' d' Hc. by eapply group_mac_key.
    + apply list_elem_of_omap. exists me. split; [|done]. apply map_order_elem. by exists d.
    + exact Hep.
    + done.
    + done.
Qed.

(** a message of a group that fits is delivered: one message is made for
    every member but the sender, and each of them, received by a member whose
    group fits the sender's in a round whose epoch is at most one off, is handed
    on with the group, the identity of the message the sender was given, its
    text, its sender and its time. *)
Theorem group_message_delivered g gid (me : ID) max rng tag msg ts :
  g_ID g = Some gid -> (forall k, rng_ok (rng k)) -> - 2 ^ 63 <= ts < 2 ^ 63 -> Z.of_nat (length msg) < 2 ^ 16 ->
  75 + Z.of_nat (length msg) <= max ->
  (forall mem, mem ∈ g_Members g -> me ≠ mem_ID mem -> is_Some (g_DhKeys g !! mem_ID mem)) ->
  exists msgs mid, newMessages me max rng g tag msg ts = Ok (msgs, mid) /\
    tm_Recipient <$> msgs = filter (fun i => i ≠ me) (mem_ID <$> g_Members g) /\
    forall m g' rts now, m ∈ msgs -> fits me (tm_Recipient m) g g' -> epoch_near ts rts now ->
      receptionProcessor_Process dhOrder g' (tm_Payload m) (tm_Mac m) (tm_Fingerprint m) rts now =
        Ok (Some (mkMessageReceive ID (Some gid) mid msg me ts)).
Proof.
  intros Hgid Hrng Hts Hmsg Hmax Hdh. set (pad := (Z.to_nat max - 75 - length msg)%nat). set (payload := concat (internalSegs ts me msg pad)).
  assert (forall members k, (forall mem, mem ∈ members -> me ≠ mem_ID mem -> is_Some (g_DhKeys g !! mem_ID mem)) ->
    exists msgs, messagesLoop g me tag ts rng max payload members k = Ok msgs /\
      tm_Recipient <$> msgs = filter (fun i => i ≠ me) (mem_ID <$> members) /\
      forall m g' rts now, m ∈ msgs -> fits me (tm_Recipient m) g g' -> epoch_near ts rts now ->
        receptionProcessor_Process dhOrder g' (tm_Payload m) (tm_Mac m) (tm_Fingerprint m) rts now =
          Ok (Some (mkMessageReceive ID (Some gid) (NewMessageID (Some gid) payload) msg me ts))) as Hloop.
  { intros members. induction members as [|mem members IH]; intros k Hm; cbn [messagesLoop].
    { exists []. split_and!; [done|done|]. by intros ? ? ? ? ?%not_elem_of_nil. }
    rewrite fmap_cons. destruct (decide (me = mem_ID mem)) as [Heq|Hne].
    { rewrite list.filter_cons_False by (by intros []). apply IH. intros; apply Hm; [by right|done]. }
    rewrite list.filter_cons_True by done. destruct (Hm mem) as [d Hd]; [left|done|].
    destruct (cmixMsg_received g tag ts me mem (rng k) max msg pad gid d) as (m & Hnew & Hrec & _ & Hproc); [done|done|done|done|done|unfold pad; lia|].
    destruct (IH (Datatypes.S k)) as (msgs & Hrun & Hrecs & Hprocs); [intros; apply Hm; [by right|done]|].
    exists (m :: msgs). fold payload in Hnew. rewrite Hnew. cbn [mbind result_bind]. rewrite Hrun. split_and!; [done|by rewrite fmap_cons, Hrec, Hrecs|].
    intros m' g' rts now [->|Hin]%elem_of_cons Hf Hep; [apply Hproc; [by rewrite <- Hrec|done]|by apply Hprocs]. }
  destruct (Hloop (g_Members g) 0%nat Hdh) as (msgs & Hrun & Hrec & Hproc). exists msgs, (NewMessageID (Some gid) payload). split_and!; [|done|done].
  unfold newMessages. rewrite newPublic_ok by lia. cbn [wrapErr mbind result_bind].
  unfold gpm_GetPayloadSize. cbn [public_of gpm_payload s_len]. rewrite length_replicate.
  rewrite newInternal_ok by lia. cbn [wrapErr mbind result_bind]. unfold im_GetPayloadMaxSize. cbn [internal_of im_payload s_len].
  rewrite length_replicate, (proj2 (Z.ltb_ge _ _)) by lia. rewrite Nat2Z.id, setInternalPayload_ok by lia. cbn [mbind result_bind].
  replace (Z.to_nat max - 32 - 43 - length msg)%nat with pad by (unfold pad; lia). fold payload. rewrite Hrun. cbn [mbind result_bind]. by rewrite Hgid.
Qed.

(** A member can crash the others: a message whose size field says more than the
    message holds is authenticated and decrypted, and then makes the receiver
    panic. *)
Lemma oversized_group_message g fp k ts (sender : ID) size payload :
  - 2 ^ 63 <= ts < 2 ^ 63 -> is_u 16 size -> Z.of_nat (length payload) < size ->
  decryptMessage g fp k (gEncrypt k fp (le_encode 8 (u64 (UnixNano ts)) ++ id_Bytes sender ++ le_encode 2 size ++ payload)) = Panic.
Proof.
  intros Hts Hs Hlt. unfold decryptMessage. rewrite group_decrypt_encrypt. pose proof (arrid_length sender) as Hid. unfold ArrIDLen in Hid.
  set (mem := le_encode 8 _ ++ _). assert (length mem = 43 + length payload)%nat as Hlen
    by (unfold mem; rewrite !length_app, !length_le_encode, Hid; lia).
  assert (mem = concat [le_encode 8 (u64 (UnixNano ts)); id_Bytes sender; le_encode 2 size; payload]) as Hmem by (unfold mem; cbn [concat]; by rewrite app_nil_r).
  unfold unmarshalInternalMsg. change internalMinLen with 43. rewrite (proj2 (Z.ltb_ge _ _)), mapInternal_ok by lia. cbn [wrapErr mbind result_bind].
  unfold im_GetSenderID. cbn [internal_of im_mem im_senderID]. rewrite Hmem at 1.
  rewrite (sread_seg _ 1 (id_Bytes sender)); [|done|by unfold segOff; cbn [take concat]; rewrite length_app, length_le_encode|done].
  rewrite Hid. cbn [Nat.eqb ArrIDLen wrapErr mbind result_bind].
  unfold im_GetPayload, im_GetPayloadSize. cbn [internal_of im_mem im_size im_payload]. rewrite Hmem at 1.
  rewrite (sget_le_seg 2 _ 2 size); [|done|by unfold segOff; cbn [take concat]; rewrite !length_app, length_le_encode, Hid|done].
  cbn [mbind result_bind]. unfold reslice, s_cap. cbn [s_off]. rewrite Hlen, (proj2 (Z.leb_gt size _)) by lia. by rewrite andb_false_r.
Qed.
End delivery.

(** ** Example *)

Section example.
#[local] Instance gmx_crypto : GroupCrypto arrID byte (list byte * Z * list byte) := {
  NewKeyFingerprint k salt i := salt;
  NewKdfKey k e salt := inr (k, e, salt);
  ComputeEpoch t := u32 t;
  gEncrypt k fp m := m;
  gDecrypt k fp m := m;
  gNewMAC k m d := Ok (posBytes (encode (k, d)));
  gCheckMAC mac k m d := bool_decide (mac = posBytes (encode (k, Some d)));
  NewMessageID i m := m;
}.

#[local] Instance gmx_laws : GroupCryptoLaws arrID byte (list byte * Z * list byte).
Proof.
  split; [done|done|by eexists| | |].
  - intros k m d. eexists. split; [done|]. by apply bool_decide_eq_true.
  - intros k k' m d d' mac [= <-] Heq%bool_decide_eq_true. apply (f_equal bytesPos) in Heq. rewrite !bytesPos_posBytes in Heq.
    apply (inj encode) in Heq. congruence.
  - intros t. apply wrapu_range. lia.
Qed.

Definition gmx_group (peer : byte) : Group arrID byte :=
  mkGroup _ _ _ [] (Some (arrID_of [x01])) [x02] [x03] [x04] [] 0 [mkMember _ _ (arrID_of [x05]) x00; mkMember _ _ (arrID_of [x09]) x00]
    {[arrID_of [peer] := x06]}.

Lemma gmx_ids : arrID_of [x05] ≠ arrID_of [x09].
Proof. intros Heq. apply (f_equal (fun a => proj1_sig a !! 0%nat)) in Heq. discriminate Heq. Qed.

Lemma group_message_delivered_witness : exists m mid,
  newMessages (arrID_of [x05]) 100 (fun _ => (32%nat, [], None)) (gmx_group x09) "default" [x68; x69] 5 = Ok ([m], mid) /\
  receptionProcessor_Process keysInOrder (gmx_group x05) (tm_Payload m) (tm_Mac m) (tm_Fingerprint m) 6 0 =
    Ok (Some (mkMessageReceive arrID (Some (arrID_of [x01])) mid [x68; x69] (arrID_of [x05]) 5)).
Proof.
  destruct (group_message_delivered keysInOrder (gmx_group x09) (arrID_of [x01]) (arrID_of [x05]) 100 (fun _ => (32%nat, [], None)) "default" [x68; x69] 5)
    as (msgs & mid & Hnew & Hrec & Hproc); [done|done|lia|done|simpl; lia| |].
  - intros mem [->|[->|[]%not_elem_of_nil]%elem_of_cons]%elem_of_cons Hne; [done|]. exists x06. apply lookup_singleton_eq.
  - cbn [gmx_group g_Members fmap list_fmap mem_ID] in Hrec. rewrite list.filter_cons_False in Hrec by (by intros []).
    rewrite list.filter_cons_True, list.filter_nil in Hrec by (intros Heq; by apply gmx_ids).
    destruct msgs as [|m [|? ?]]; try discriminate Hrec. exists m, mid. split; [exact Hnew|]. cbn [fmap list_fmap] in Hrec.
    injection Hrec as Hm. apply Hproc; [by left| |].
    + split_and!; [done|done|]. exists x06. rewrite Hm. split; apply lookup_singleton_eq.
    + cbn. right. left.
Defined.
End example.
