(* ===== verification/GroupManager.v ===== *)
(** * The manager of group chats

    [groupChat/manager.go] and [service.go]: joining and leaving groups and adding
    and removing services.  For every joined group and every service a processor
    is registered with cMix, so that messages of the group reach it. *)

From Stdlib Require Import Ascii.
From S2P Require Import Prelude GoBytes KV Effects Services CommandStore GroupStore GroupMessage.

Definition defaultServiceTag : string := "default".

(** A [receptionProcessor] holds its group and the processor given for the
    service.  cMix is the manager of services of the client. *)
Record gcManager {S ID Int Preimage P : Type} `{NetID ID} `{Countable Preimage} := mkGcManager {
  gcm_store : S;
  gcm_gs : groupStore ID Int;
  gcm_services : gmap string P;
  gcm_cmix : ServicesManager ID Preimage (Group ID Int * P);
}.
Arguments gcManager S ID Int Preimage P {_ _ _}.
Arguments mkGcManager {S ID Int Preimage P _ _ _}.

Section code.
Context {S ID Int Preimage P : Type} `{EKV S} `{NetID ID} `{GroupFormat ID Int} `{Countable Preimage} `{Sih ID Preimage}.
Context `{EqDecision Int} `{EqDecision P}.
Context (dhOrder : gmap ID Int -> list ID) (groupOrder : gmap ID (Group ID Int) -> list ID) (tagOrder : gmap string P -> list string).
Context (iterS : gmap Preimage (service (Group ID Int * P)) -> list Preimage)
        (iterC : gmap Preimage (compressedService (Group ID Int * P)) -> list Preimage).
(** The reception identity. *)
Context (me : ID).

#[local] Instance group_eq_dec : EqDecision (Group ID Int).
Proof. solve_decision. Defined.

Abbreviation manager := (gcManager S ID Int Preimage P).
Abbreviation cmix := (ServicesManager ID Preimage (Group ID Int * P)).

Definition makeService (groupID : ID) (tag : string) : Service :=
  mkService (id_Bytes groupID) (makeServiceTag tag) (id_Bytes groupID).

(** A group without an identity is a nil pointer that is read. *)
Definition registerGroup (sm : cmix) (g : Group ID Int) (tag : string) (p : P) : result cmix :=
  match g_ID g with
  | Some gid => AddService id_Bytes iterS iterC sm me (makeService gid tag) (Some (g, p))
  | None => Panic
  end.

Fixpoint addForGroups (gs : list (Group ID Int)) (tag : string) (p : P) (sm : cmix) : result cmix :=
  match gs with
  | [] => Ok sm
  | g :: gs => sm ← registerGroup sm g tag p; addForGroups gs tag p sm
  end.

Definition errServiceExists : error := Errorf "service with tag %q already exists" [].
Definition errServiceNotExists : error := Errorf "service with tag %q does not exist" [].

Definition gcm_setServices (m : manager) (services : gmap string P) (sm : cmix) : manager :=
  mkGcManager (gcm_store m) (gcm_gs m) services sm.

Definition gcm_AddService (tag : string) (p : P) : act manager unit := fun m =>
  match gcm_services m !! tag with
  | Some _ => Fail m errServiceExists
  | None =>
      match addForGroups (gst_Groups groupOrder (gcm_gs m)) tag p (gcm_cmix m) with
      | Ok sm => Done (gcm_setServices m (<[tag := p]> (gcm_services m)) sm) tt
      | _ => Crash
      end
  end.

(** The processor given is a new one, which equals none that is registered, as
    nil does not. *)
Fixpoint deleteForGroups (gs : list (Group ID Int)) (tag : string) (sm : cmix) : result cmix :=
  match gs with
  | [] => Ok sm
  | g :: gs =>
      match g_ID g with
      | Some gid => deleteForGroups gs tag (DeleteService iterS iterC sm me (makeService gid tag) None)
      | None => Panic
      end
  end.

(** The condition is the wrong way round: a service that exists is refused. *)
Definition gcm_RemoveService (tag : string) : act manager unit := fun m =>
  match gcm_services m !! tag with
  | Some _ => Fail m errServiceNotExists
  | None =>
      match deleteForGroups (gst_Groups groupOrder (gcm_gs m)) tag (gcm_cmix m) with
      | Ok sm => Done (gcm_setServices m (delete tag (gcm_services m)) sm) tt
      | _ => Crash
      end
  end.

Fixpoint addTags (tags : list string) (services : gmap string P) (g : Group ID Int) (sm : cmix) : result cmix :=
  match tags with
  | [] => Ok sm
  | tag :: tags =>
      sm ← match services !! tag with Some p => registerGroup sm g tag p | None => Ok sm end;
      addTags tags services g sm
  end.

Definition addAllServices (m : manager) (g : Group ID Int) : result cmix := addTags (tagOrder (gcm_services m)) (gcm_services m) g (gcm_cmix m).

Definition deleteAllServices (m : manager) (groupID : ID) : cmix :=
  foldl (fun sm tag => DeleteService iterS iterC sm me (makeService groupID tag) None) (gcm_cmix m) (tagOrder (gcm_services m)).

(** A call on the store of groups. *)
Definition onGroups (f : act (S * groupStore ID Int) unit) : act manager unit := fun m =>
  match f (gcm_store m, gcm_gs m) with
  | Done (s, gs) u => Done (mkGcManager s gs (gcm_services m) (gcm_cmix m)) u
  | Fail (s, gs) e => Fail (mkGcManager s gs (gcm_services m) (gcm_cmix m)) e
  | Crash => Crash
  end.

Definition joinServices (g : Group ID Int) : act manager unit := fun m =>
  match addAllServices m g with
  | Ok sm => Done (gcm_setServices m (gcm_services m) sm) tt
  | _ => Crash
  end.

Definition JoinGroup (g : Group ID Int) (now : Time) : act manager unit :=
  _ ← annotate "failed to join new group %s: %+v" [] (onGroups (gst_Add dhOrder groupOrder g now));
  joinServices g.

Definition LeaveGroup (groupID : ID) (now : Time) : act manager unit :=
  _ ← annotate "failed to leave group %s: %+v" [] (onGroups (gst_Remove groupOrder groupID now));
  modify (fun m => gcm_setServices m (gcm_services m) (deleteAllServices m groupID)).

(** The listener and the service for requests are registered with the end-to-end
    layer, outside this state. *)
Definition gc_NewManager (v : kv) (user : Member ID Int) (receiveFunc : P) (now : Time) (s : S) (sm : cmix) : outcome manager unit :=
  match NewOrLoadStore dhOrder groupOrder v user now s with
  | Done (s, gs) _ => annotate "could not add default service: %+v" [] (gcm_AddService defaultServiceTag receiveFunc) (mkGcManager s gs ∅ sm)
  | Fail (s, gs) e => Fail (mkGcManager s gs ∅ sm) (Wrapf "failed to create new group store: %+v" [] e)
  | Crash => Crash
  end.
End code.

(** ** The contract

    The groups joined and the services by tag.  A service cannot be removed. *)

Inductive gcmOp {ID Int P : Type} `{NetID ID} :=
| GmAddService (tag : string) (p : P)
| GmRemoveService (tag : string)
| GmJoin (g : Group ID Int)
| GmLeave (groupID : ID)
| GmRestart (receiveFunc : P).
Arguments gcmOp ID Int P {_}.

Section contract.
Context {ID Int P : Type} `{NetID ID} `{GroupFormat ID Int}.

Definition gcmSpec (op : gcmOp ID Int P) (A : gmap ID (Group ID Int)) (T : gmap string P) :
    gmap ID (Group ID Int) * gmap string P * option error :=
  let joinErr e := Some (Wrapf "failed to join new group %s: %+v" [] e) in
  match op with
  | GmAddService tag p => if decide (is_Some (T !! tag)) then (A, T, Some errServiceExists) else (A, <[tag := p]> T, None)
  | GmRemoveService tag => (A, T, if decide (is_Some (T !! tag)) then Some errServiceNotExists else None)
  | GmJoin g =>
      match g_ID g with
      | Some i =>
          if decide (MaxGroupChats <= size A)%nat then (A, T, joinErr errMaxGroups)
          else if decide (is_Some (A !! i)) then (A, T, joinErr errGroupExists)
          else (<[i := g]> A, T, None)
      | None => (A, T, None)
      end
  | GmLeave i =>
      if decide (is_Some (A !! i)) then (delete i A, T, None)
      else (A, T, Some (Wrapf "failed to leave group %s: %+v" [] errGroupRemove))
  | GmRestart p => (A, {[defaultServiceTag := p]}, None)
  end.

Fixpoint gcmSpecRun (ops : list (gcmOp ID Int P)) (A : gmap ID (Group ID Int)) (T : gmap string P) :
    gmap ID (Group ID Int) * gmap string P * list (option error) :=
  match ops with
  | [] => (A, T, [])
  | op :: ops =>
      let '(A, T, o) := gcmSpec op A T in
      let '(A, T, os) := gcmSpecRun ops A T in
      (A, T, o :: os)
  end.

Definition gcmOp_ok (op : gcmOp ID Int P) : Prop :=
  match op with GmJoin g => is_Some (g_ID g) /\ group_ok g | _ => True end.
End contract.

(** Preimages of services differ, and no tag of a group is the default one. *)
Class GroupPreimages {ID Preimage} `{Sih ID Preimage} : Prop := {
  preimage_inj a b (t u : string) : MakePreimage a t = MakePreimage b u -> a = b /\ t = u;
  default_apart tag : makeServiceTag tag ≠ sih_Default;
}.

Section proofs.
Context {S ID Int Preimage P : Type} `{EKVLaws S, !EKVReliable S} `{NetID ID, !ArrID ID} `{GroupFormatLaws ID Int}.
Context `{Countable Preimage} `{Sih ID Preimage, !GroupPreimages} `{EqDecision Int} `{EqDecision P}.
Context (dhOrder : gmap ID Int -> list ID) `{!MapOrder dhOrder} (groupOrder : gmap ID (Group ID Int) -> list ID) `{!MapOrder groupOrder}
        (tagOrder : gmap string P -> list string) `{!MapOrder tagOrder}.
Context (iterS : gmap Preimage (service (Group ID Int * P)) -> list Preimage)
        (iterC : gmap Preimage (compressedService (Group ID Int * P)) -> list Preimage).
Context (me : ID) (v pv : kv) (user : Member ID Int) (now : Time) (Hv : kv_handle v) (Hpv : kv_Prefix v groupStoragePrefix = Ok pv).

#[local] Existing Instance group_eq_dec.

Abbreviation manager := (gcManager S ID Int Preimage P).
Abbreviation cmix := (ServicesManager ID Preimage (Group ID Int * P)).
Implicit Types (A : gmap ID (Group ID Int)) (T : gmap string P) (sm : cmix).

Definition reported (f : act manager unit) : act manager (option error) := fun m =>
  match f m with
  | Done m _ => Done m None
  | Fail m e => Done m (Some e)
  | Crash => Crash
  end.

(** A restart finds the storage, and a cMix client without services. *)
Definition gcmExec (op : gcmOp ID Int P) : act manager (option error) :=
  match op with
  | GmAddService tag p => reported (gcm_AddService groupOrder iterS iterC me tag p)
  | GmRemoveService tag => reported (gcm_RemoveService groupOrder iterS iterC me tag)
  | GmJoin g => reported (JoinGroup dhOrder groupOrder tagOrder iterS iterC me g now)
  | GmLeave i => reported (LeaveGroup groupOrder tagOrder iterS iterC me i now)
  | GmRestart p => reported (fun m => gc_NewManager dhOrder groupOrder iterS iterC me v user p now (gcm_store m) NewServices)
  end.

Fixpoint gcmRun (ops : list (gcmOp ID Int P)) : act manager (list (option error)) :=
  match ops with
  | [] => mret []
  | op :: ops => o ← gcmExec op; os ← gcmRun ops; mret (o :: os)
  end.

(** The service of a group that is registered for the client. *)
Definition registeredAt sm (i : ID) (tag : string) : option (service (Group ID Int * P)) :=
  sm_services sm !! me ≫= (.!! Service_preimage (makeService i tag)).

(** What is registered is what the groups and the services call for. *)
Definition services_match sm A T : Prop := forall i tag, registeredAt sm i tag =
  match A !! i, T !! tag with
  | Some g, Some p => Some (mkServiceEntry (makeService i tag) (Some (g, p)) None)
  | _, _ => None
  end.

Lemma makeService_inj i j t u : Service_preimage (makeService i t) = Service_preimage (makeService j u) -> i = j /\ t = u.
Proof.
  intros [Hi Ht]%preimage_inj. cbn [makeService sv_Identifier sv_Tag] in Hi, Ht. split.
  - rewrite <- (id_Unmarshal_Bytes i), Hi. apply id_Unmarshal_Bytes.
  - unfold makeServiceTag in Ht. by repeat apply (inj _) in Ht.
Qed.

Lemma triggered sm : sm_services (triggerServiceTracking iterS iterC sm) = sm_services sm.
Proof. apply trigger_services. Qed.

Lemma register_ok sm i tag g p : registeredAt sm i tag = None ->
  exists sm', AddService id_Bytes iterS iterC sm me (makeService i tag) (Some (g, p)) = Ok sm' /\
    forall j u, registeredAt sm' j u = if decide (j = i /\ u = tag) then Some (mkServiceEntry (makeService i tag) (Some (g, p)) None) else registeredAt sm j u.
Proof.
  intros Hno. unfold AddService. cbn [makeService sv_Tag]. rewrite (proj2 (String.eqb_neq _ _)) by apply default_apart.
  assert (default ∅ (sm_services sm !! me) !! Service_preimage (makeService i tag) = None) as Hnone.
  { unfold registeredAt in Hno. by destruct (sm_services sm !! me). }
  rewrite Hnone. cbn [mbind result_bind]. eexists. split; [done|]. intros j u.
  unfold registeredAt at 1. rewrite triggered. cbn [sm_setServices sm_services]. rewrite lookup_insert_eq. cbn [mbind option_bind].
  case_decide as Hd.
  - destruct Hd as [-> ->]. by rewrite lookup_insert_eq.
  - rewrite lookup_insert_ne; [unfold registeredAt; by destruct (sm_services sm !! me)|].
    intros [-> ->]%(makeService_inj i j tag u). by apply Hd.
Qed.

Lemma unregister_ok sm i tag e0 : registeredAt sm i tag = e0 -> (forall e, e0 = Some e -> se_defaultList e = None) ->
  forall j u, registeredAt (DeleteService iterS iterC sm me (makeService i tag) None) j u =
    if decide (j = i /\ u = tag) then None else registeredAt sm j u.
Proof.
  intros He Hdef j u. unfold DeleteService, registeredAt in *. destruct (sm_services sm !! me) as [m|] eqn:Hme; cbn [mbind option_bind] in He.
  - rewrite He. destruct e0 as [e|].
    + rewrite (Hdef e eq_refl). rewrite triggered. cbn [sm_setServices sm_services]. rewrite lookup_insert_eq. cbn [mbind option_bind].
      case_decide as Hd; [destruct Hd as [-> ->]; apply lookup_delete_eq|].
      rewrite lookup_delete_ne; [done|]. intros [-> ->]%makeService_inj. by apply Hd.
    + rewrite Hme. cbn [mbind option_bind]. case_decide as Hd; [by destruct Hd as [-> ->]|done].
  - rewrite Hme. cbn [mbind option_bind]. by case_decide.
Qed.

Lemma addForGroups_ok gs tag p sm : NoDup (g_ID <$> gs) -> (forall g, g ∈ gs -> exists i, g_ID g = Some i /\ registeredAt sm i tag = None) ->
  exists sm', addForGroups iterS iterC me gs tag p sm = Ok sm' /\
    (forall g i, g ∈ gs -> g_ID g = Some i -> registeredAt sm' i tag = Some (mkServiceEntry (makeService i tag) (Some (g, p)) None)) /\
    (forall j u, (u ≠ tag \/ Some j ∉ g_ID <$> gs) -> registeredAt sm' j u = registeredAt sm j u).
Proof.
  revert sm. induction gs as [|g gs IH]; intros sm Hnd Hgs; cbn [addForGroups].
  { exists sm. split_and!; [done| |done]. by intros ? ? ?%not_elem_of_nil. }
  rewrite fmap_cons in Hnd. apply list.NoDup_cons in Hnd as [Hg Hnd]. destruct (Hgs g) as (i & Hi & Hno); [left|].
  destruct (register_ok sm i tag g p Hno) as (sm1 & Hreg & Hat). unfold registerGroup. rewrite Hi, Hreg. cbn [mbind result_bind].
  destruct (IH sm1 Hnd) as (sm' & Hrun & Hin & Hout).
  { intros g' Hg'. destruct (Hgs g') as (j & Hj & Hnoj); [by right|]. exists j. split; [done|]. rewrite Hat, decide_False; [done|].
    intros [-> _]. apply Hg. rewrite Hi, <- Hj. by apply list_elem_of_fmap_2. }
  exists sm'. split_and!; [done| |].
  - intros g' j [->|Hg']%elem_of_cons Hj; [|by apply Hin]. assert (j = i) as -> by congruence.
    rewrite Hout by (right; by rewrite <- Hi). rewrite Hat. by rewrite decide_True.
  - intros j u Hju. rewrite fmap_cons in Hju. rewrite Hout by set_solver. rewrite Hat. rewrite decide_False; [done|]. rewrite Hi in Hju.
    intros [-> ->]. destruct Hju as [?|Hju]; [done|]. apply Hju. left.
Qed.

Lemma addTags_ok tags T g i sm : NoDup tags -> g_ID g = Some i -> (forall tag, tag ∈ tags -> registeredAt sm i tag = None) ->
  exists sm', addTags iterS iterC me tags T g sm = Ok sm' /\
    forall j u, registeredAt sm' j u =
      if decide (j = i /\ u ∈ tags) then (fun p => mkServiceEntry (makeService i u) (Some (g, p)) None) <$> T !! u else registeredAt sm j u.
Proof.
  intros Hnd Hi. revert sm. induction Hnd as [|tag tags Hn _ IH]; intros sm Hno; cbn [addTags].
  { exists sm. split; [done|]. intros j u. rewrite decide_False; [done|]. by intros [_ ?%not_elem_of_nil]. }
  assert (exists sm1, match T !! tag with Some p => registerGroup iterS iterC me sm g tag p | None => Ok sm end = Ok sm1 /\
    forall j u, registeredAt sm1 j u = if decide (j = i /\ u = tag) then (fun p => mkServiceEntry (makeService i tag) (Some (g, p)) None) <$> T !! tag else registeredAt sm j u)
    as (sm1 & -> & Hat).
  { destruct (T !! tag) as [p|]; [unfold registerGroup; rewrite Hi; apply register_ok, Hno; left|].
    exists sm. split; [done|]. intros j u. case_decide as Hd; [|done]. destruct Hd as [-> ->]. apply Hno. left. }
  cbn [mbind result_bind]. destruct (IH sm1) as (sm' & Hrun & Hat').
  { intros u Hu. rewrite Hat, decide_False; [apply Hno; by right|]. intros [_ ->]. done. }
  exists sm'. split; [done|]. intros j u. rewrite Hat', Hat. destruct (decide (u = tag)) as [->|Hne].
  - rewrite (decide_False (P := j = i /\ tag ∈ tags)) by (by intros [_ ?]). destruct (decide (j = i)) as [->|Hj].
    + by rewrite !decide_True by (split; [done|]; (done || left)).
    + by rewrite !decide_False by (by intros [? _]).
  - rewrite (decide_False (P := j = i /\ u = tag)) by (by intros [_ ?]).
    destruct (decide (j = i /\ u ∈ tags)) as [[-> Hu]|Hd]; [rewrite decide_True; [done|]; split; [done|by right]|].
    rewrite decide_False; [done|]. intros [-> [?|?]%elem_of_cons]; [done|]. by apply Hd.
Qed.

Lemma foldDelete_ok tags i sm : (forall j u e, registeredAt sm j u = Some e -> se_defaultList e = None) ->
  forall j u, registeredAt (foldl (fun sm tag => DeleteService iterS iterC sm me (makeService i tag) None) sm tags) j u =
    if decide (j = i /\ u ∈ tags) then None else registeredAt sm j u.
Proof.
  revert sm. induction tags as [|tag tags IH]; intros sm Hdef j u; cbn [foldl].
  { rewrite decide_False; [done|]. by intros [_ ?%not_elem_of_nil]. }
  pose proof (unregister_ok sm i tag _ eq_refl (fun e => Hdef i tag e)) as Hat. rewrite IH.
  - rewrite Hat. destruct (decide (j = i)) as [->|Hj]; [|by rewrite !decide_False by (by intros [? _])].
    destruct (decide (u ∈ tags)); [by rewrite !decide_True by (split; [done|]; (done || by right))|].
    rewrite (decide_False (P := i = i /\ u ∈ tags)) by (by intros [_ ?]). destruct (decide (u = tag)) as [->|Hu].
    + by rewrite !decide_True by (split; [done|]; (done || left)).
    + rewrite !decide_False; [done|intros [_ [?|?]%elem_of_cons]; done|by intros [_ ?]].
  - intros j' u' e. rewrite Hat. case_decide; [done|]. apply Hdef.
Qed.

Lemma deleteForGroups_none gs tag sm : (forall g, g ∈ gs -> exists i, g_ID g = Some i /\ registeredAt sm i tag = None) ->
  deleteForGroups iterS iterC me gs tag sm = Ok sm.
Proof.
  induction gs as [|g gs IH]; intros Hgs; [done|]. cbn [deleteForGroups]. destruct (Hgs g) as (i & Hi & Hno); [left|]. rewrite Hi.
  assert (DeleteService iterS iterC sm me (makeService i tag) None = sm) as ->; [|apply IH; intros; apply Hgs; by right].
  unfold DeleteService, registeredAt in *. destruct (sm_services sm !! me) as [m|]; [|done]. cbn [mbind option_bind] in Hno. by rewrite Hno.
Qed.

(** The state that stands for the groups [A] and the services [T]. *)
Definition gcm_rep (m : manager) A T : Prop :=
  gst_stored dhOrder pv (gcm_store m) A /\ gcm_gs m = gst_of pv user A /\ gcm_services m = T /\ services_match (gcm_cmix m) A T.

Lemma groups_listed A : map_Forall (fun i g => g_ID g = Some i /\ group_ok g) A ->
  NoDup (g_ID <$> gst_Groups groupOrder (gst_of pv user A)) /\
  forall g, g ∈ gst_Groups groupOrder (gst_of pv user A) <-> exists i, g_ID g = Some i /\ A !! i = Some g.
Proof.
  intros Hids. unfold gst_Groups. cbn [gst_of gst_list]. split.
  - assert (forall ids, NoDup ids -> (forall i, i ∈ ids -> is_Some (A !! i)) -> g_ID <$> omap (fun i => A !! i) ids = Some <$> ids) as Heq.
    { intros ids. induction ids as [|i ids IH]; intros Hnd Hin; [done|]. apply list.NoDup_cons in Hnd as [_ Hnd]. cbn [omap list_omap].
      destruct (Hin i) as [g Hg]; [left|]. rewrite Hg, !fmap_cons, IH; [|done|intros; apply Hin; by right]. destruct (Hids i g Hg) as [-> _]. done. }
    rewrite Heq; [|apply map_order_nodup|intros i; apply map_order_elem]. apply NoDup_fmap_2; [apply _|apply map_order_nodup].
  - intros g. rewrite list_elem_of_omap. split.
    + intros (i & _ & Hg). exists i. split; [|done]. by destruct (Hids i g Hg).
    + intros (i & _ & Hg). exists i. split; [|done]. apply map_order_elem. by exists g.
Qed.

Lemma gm_addService_ok tag p m A T : gcm_rep m A T ->
  exists m', reported (gcm_AddService groupOrder iterS iterC me tag p) m = Done m' (gcmSpec (GmAddService tag p) A T).2 /\
    gcm_rep m' A (gcmSpec (GmAddService tag p) A T).1.2.
Proof.
  intros (Hst & Hgs & HT & Hm). cbn [gcmSpec]. unfold reported, gcm_AddService. rewrite HT, Hgs.
  case_decide as Hd; [destruct Hd as [q Hq]; rewrite Hq; by exists m|]. apply eq_None_not_Some in Hd. rewrite Hd.
  destruct (groups_listed A (gs_ids _ _ _ _ Hst)) as [Hnd Hin].
  destruct (addForGroups_ok (gst_Groups groupOrder (gst_of pv user A)) tag p (gcm_cmix m) Hnd) as (sm & -> & Hreg & Hout).
  { intros g (i & Hi & Hg)%Hin. exists i. split; [done|]. rewrite Hm, Hg, Hd. done. }
  eexists. split; [done|]. cbn [fst snd]. split_and!; [done|exact Hgs|done|]. intros i u. cbn [gcm_setServices gcm_cmix].
  destruct (decide (u = tag)) as [->|Hu].
  - rewrite lookup_insert_eq. destruct (A !! i) as [g|] eqn:Hi.
    + destruct (gs_ids _ _ _ _ Hst i g Hi) as [Hgi _]. apply Hreg; [|done]. apply Hin. by exists i.
    + rewrite Hout; [by rewrite Hm, Hi|]. right. rewrite list_elem_of_fmap. intros (g & Hgi & (j & Hj & Hg)%Hin). congruence.
  - rewrite lookup_insert_ne by done. rewrite Hout by (by left). apply Hm.
Qed.

Lemma gm_removeService_ok tag m A T : gcm_rep m A T ->
  reported (gcm_RemoveService groupOrder iterS iterC me tag) m = Done m (gcmSpec (GmRemoveService tag) A T).2.
Proof.
  intros (Hst & Hgs & HT & Hm). cbn [gcmSpec]. unfold reported, gcm_RemoveService. rewrite HT, Hgs.
  case_decide as Hd; [destruct Hd as [q Hq]; by rewrite Hq|]. apply eq_None_not_Some in Hd. rewrite Hd.
  destruct (groups_listed A (gs_ids _ _ _ _ Hst)) as [_ Hin]. rewrite delete_id by done. rewrite deleteForGroups_none.
  2: { intros g (i & Hi & Hg)%Hin. exists i. split; [done|]. by rewrite Hm, Hg, Hd. }
  f_equal. destruct m. simpl in *. by subst.
Qed.

Lemma gm_join_ok g i m A T : gcm_rep m A T -> g_ID g = Some i -> group_ok g ->
  exists m', reported (JoinGroup dhOrder groupOrder tagOrder iterS iterC me g now) m = Done m' (gcmSpec (GmJoin g) A T).2 /\
    gcm_rep m' (gcmSpec (GmJoin g) A T).1.1 T.
Proof.
  intros (Hst & Hgs & HT & Hm) Hi Hok. cbn [gcmSpec]. rewrite Hi. unfold reported, JoinGroup.
  destruct (decide (MaxGroupChats <= size A)%nat) as [Hsz|Hsz].
  { erewrite bind_Fail; [exists m; done|]. apply annotate_Fail. unfold onGroups, gst_Add. rewrite Hgs. cbn [gst_of gst_list].
    rewrite (proj2 (Nat.leb_le _ _)) by done. f_equal. destruct m; simpl in *; by subst. }
  destruct (decide (is_Some (A !! i))) as [[g' Hg']|Hn].
  { erewrite bind_Fail; [exists m; done|]. apply annotate_Fail. unfold onGroups, gst_Add. rewrite Hgs. cbn [gst_of gst_list].
    rewrite (proj2 (Nat.leb_gt _ _)), Hi, Hg' by lia. f_equal. destruct m; simpl in *; by subst. }
  apply eq_None_not_Some in Hn.
  destruct (add_ok dhOrder groupOrder v pv user now Hv Hpv g i _ A Hst Hi Hok) as (s' & Hadd & Hst'); [lia|done|].
  erewrite bind_Done; [|apply annotate_Done; unfold onGroups; rewrite Hgs, Hadd; done].
  unfold joinServices, addAllServices. cbn [gcm_services gcm_cmix].
  destruct (addTags_ok (tagOrder (gcm_services m)) (gcm_services m) g i (gcm_cmix m)) as (sm & -> & Hat); [apply map_order_nodup|done| |].
  { intros tag _. by rewrite Hm, Hn. }
  eexists. split; [done|]. cbn [fst snd]. split_and!; [done|done|done|]. intros j u. cbn [gcm_setServices gcm_cmix]. rewrite Hat, HT, Hm.
  destruct (decide (j = i)) as [->|Hj]; [|rewrite decide_False by (by intros [? _]); by rewrite lookup_insert_ne].
  rewrite lookup_insert_eq, Hn. destruct (T !! u) as [p|] eqn:Hu.
  - rewrite decide_True; [done|]. split; [done|]. apply map_order_elem. by exists p.
  - by case_decide.
Qed.

Lemma gm_leave_ok i m A T : gcm_rep m A T ->
  exists m', reported (LeaveGroup groupOrder tagOrder iterS iterC me i now) m = Done m' (gcmSpec (GmLeave i : gcmOp ID Int P) A T).2 /\
    gcm_rep m' (gcmSpec (GmLeave i : gcmOp ID Int P) A T).1.1 T.
Proof.
  intros (Hst & Hgs & HT & Hm). cbn [gcmSpec]. unfold reported, LeaveGroup. destruct (decide (is_Some (A !! i))) as [Hi|Hn].
  - destruct (remove_ok dhOrder groupOrder v pv user now Hv Hpv i _ A Hst Hi) as (s' & Hrem & Hst').
    erewrite bind_Done; [|apply annotate_Done; unfold onGroups; rewrite Hgs, Hrem; done]. unfold modify.
    eexists. split; [done|]. cbn [fst snd]. split_and!; [done|done|done|]. intros j u. cbn [gcm_setServices gcm_cmix deleteAllServices gcm_services].
    unfold deleteAllServices. cbn [gcm_services gcm_cmix]. rewrite foldDelete_ok.
    + rewrite HT, Hm. destruct (decide (j = i)) as [->|Hj]; [|rewrite decide_False by (by intros [? _]); by rewrite lookup_delete_ne].
      rewrite lookup_delete_eq. destruct (T !! u) as [p|] eqn:Hu; [|case_decide; [done|]; by destruct (A !! i)].
      rewrite decide_True; [done|]. split; [done|]. apply map_order_elem. by exists p.
    + intros j' u' e. rewrite Hm. destruct (A !! j'), (T !! u'); try done. by intros [= <-].
  - apply eq_None_not_Some in Hn. erewrite bind_Fail; [by exists m|]. apply annotate_Fail. unfold onGroups, gst_Remove. rewrite Hgs. cbn [gst_of gst_list].
    rewrite Hn. f_equal. destruct m; simpl in *; by subst.
Qed.

Lemma services_fresh A : services_match NewServices A ∅.
Proof. intros i tag. unfold registeredAt. cbn [NewServices sm_services]. rewrite !lookup_empty. by destruct (A !! i). Qed.

(** A start over storage that holds [A]. *)
Lemma gm_start_ok p s A : A = ∅ /\ absent pv s groupListStorageKey \/ gst_stored dhOrder pv s A ->
  exists m, gc_NewManager dhOrder groupOrder iterS iterC me v user p now s NewServices = Done m tt /\ gcm_rep m A {[defaultServiceTag := p]}.
Proof.
  intros Hst. assert (exists s', NewOrLoadStore dhOrder groupOrder v user now s = Done (s', gst_of pv user A) tt /\ gst_stored dhOrder pv s' A) as (s' & Hload & Hst').
  { destruct Hst as [[-> Habs]|Hst].
    - destruct (groupFresh_ok dhOrder groupOrder v pv user now Hv Hpv s Habs) as (s' & ? & ? & _). by exists s'.
    - exists s. split; [|done]. by apply groupRestart_ok. }
  unfold gc_NewManager. rewrite Hload. set (m0 := mkGcManager s' (gst_of pv user A) ∅ NewServices : manager).
  assert (gcm_rep m0 A ∅) as Hrep by (split_and!; [done|done|done|apply services_fresh]).
  destruct (gm_addService_ok defaultServiceTag p m0 A ∅ Hrep) as (m' & Hadd & Hrep'). cbn [gcmSpec] in Hadd, Hrep'.
  rewrite decide_False in Hadd, Hrep' by (rewrite lookup_empty; by intros []). exists m'. split.
  - unfold reported in Hadd. unfold annotate. destruct (gcm_AddService groupOrder iterS iterC me defaultServiceTag p m0) as [m1 []|m1 e|]; simplify_eq/=; done.
  - cbn [fst snd] in Hrep'. by rewrite insert_empty in Hrep'.
Qed.

Lemma gcmExec_step op m A T : gcmOp_ok op -> gcm_rep m A T ->
  exists m', gcmExec op m = Done m' (gcmSpec op A T).2 /\ gcm_rep m' (gcmSpec op A T).1.1 (gcmSpec op A T).1.2.
Proof.
  intros Hop Hrep. destruct op as [tag p|tag|g|i|p]; cbn [gcmExec gcmOp_ok] in *.
  - destruct (gm_addService_ok tag p m A T Hrep) as (m' & Hrun & Hrep'). exists m'. split; [done|]. cbn [gcmSpec] in *. by case_decide.
  - exists m. by rewrite (gm_removeService_ok tag m A T Hrep).
  - destruct Hop as [[i Hi] Hok]. destruct (gm_join_ok g i m A T Hrep Hi Hok) as (m' & Hrun & Hrep'). exists m'. split; [done|].
    cbn [gcmSpec] in *. rewrite Hi in *. by repeat case_decide.
  - destruct (gm_leave_ok i m A T Hrep) as (m' & Hrun & Hrep'). exists m'. split; [done|]. cbn [gcmSpec] in *. by case_decide.
  - destruct (gm_start_ok p (gcm_store m) A) as (m' & Hrun & Hrep'); [right; apply Hrep|].
    exists m'. split; [|done]. unfold reported. by rewrite Hrun.
Qed.

Lemma gcmRun_steps ops m A T : Forall gcmOp_ok ops -> gcm_rep m A T ->
  exists m', gcmRun ops m = Done m' (gcmSpecRun ops A T).2 /\ gcm_rep m' (gcmSpecRun ops A T).1.1 (gcmSpecRun ops A T).1.2.
Proof.
  intros Hops. revert m A T. induction Hops as [|op ops Hop _ IH]; intros m A T Hrep; [by exists m|].
  destruct (gcmExec_step op m A T Hop Hrep) as (m1 & Hrun1 & Hrep1). cbn [gcmSpecRun gcmRun]. destruct (gcmSpec op A T) as [[A1 T1] o]. cbn [fst snd] in *.
  destruct (IH m1 A1 T1 Hrep1) as (m' & Hrun & Hrep'). exists m'. erewrite bind_Done by exact Hrun1. erewrite bind_Done by exact Hrun.
  by destruct (gcmSpecRun ops A1 T1) as [[? ?] ?].
Qed.

(** C20: joining and leaving groups, adding and removing services and restarts,
    in any order, keep cMix in step with the groups and the services: they
    answer as a map of groups and a map of services, and then the processor of
    a service is registered for a group exactly when the group is joined and
    the service is there.  Removing a service never removes one: it reports a
    service that exists as missing, and success for one that does not. *)
Theorem GroupManager_refines s p ops : absent pv s groupListStorageKey -> Forall gcmOp_ok ops ->
  exists m0 m, gc_NewManager dhOrder groupOrder iterS iterC me v user p now s NewServices = Done m0 tt /\
    let '(A, T, os) := gcmSpecRun ops ∅ {[defaultServiceTag := p]} in
    gcmRun ops m0 = Done m os /\ gst_list (gcm_gs m) = A /\ gcm_services m = T /\
    forall i tag, registeredAt (gcm_cmix m) i tag =
      match A !! i, T !! tag with
      | Some g, Some q => Some (mkServiceEntry (makeService i tag) (Some (g, q)) None)
      | _, _ => None
      end.
Proof.
  intros Habs Hops. destruct (gm_start_ok p s ∅) as (m0 & Hnew & Hrep0); [by left|].
  destruct (gcmRun_steps ops m0 ∅ _ Hops Hrep0) as (m & Hrun & Hst & Hgs & HT & Hm). exists m0, m. split; [done|].
  destruct (gcmSpecRun ops ∅ {[defaultServiceTag := p]}) as [[A T] os]. cbn [fst snd] in *. split_and!; [done|by rewrite Hgs|done|exact Hm].
Qed.
End proofs.

(** ** Example *)

Section example.
#[local] Instance gcx_sih : Sih arrID (list byte * string) := {
  sih_Default := "default";
  MakePreimage a t := (a, t);
  sih_ForMe k contents hash := false;
  EvaluateCompressedSIH i contents ident tags hash := ([], [], false);
}.

#[local] Instance gcx_preimages : GroupPreimages (ID := arrID) (Preimage := list byte * string).
Proof. split; [by intros a b t u [= -> ->]|]. intros tag Heq. discriminate Heq. Qed.

Definition gcx_ops : list (gcmOp arrID byte Z) :=
  [GmJoin ex_group; GmAddService "extra" 2; GmRemoveService "extra"; GmRemoveService "none"; GmRestart 3; GmLeave (arrID_of [x01])].

Lemma GroupManager_refines_witness : exists m0 m : gcManager MemStore arrID byte (list byte * string) Z,
  gc_NewManager keysInOrder keysInOrder keysInOrder keysInOrder (arrID_of [x05]) NewKV ex_member 1 0 ∅ NewServices = Done m0 tt /\
  gcmRun keysInOrder keysInOrder keysInOrder keysInOrder keysInOrder (arrID_of [x05]) NewKV ex_member 0 gcx_ops m0 =
    Done m (gcmSpecRun gcx_ops ∅ {[defaultServiceTag := 1]}).2.
Proof.
  destruct (GroupManager_refines keysInOrder keysInOrder keysInOrder keysInOrder keysInOrder (arrID_of [x05]) NewKV ex_gpv ex_member 0 handle_new eq_refl
    ∅ 1 gcx_ops ex_gabsent) as (m0 & m & Hnew & Hrun).
  { repeat (apply List.Forall_cons; [by first [done|split; [done|apply ex_group_ok]]|]). apply List.Forall_nil. }
  exists m0, m. split; [exact Hnew|]. destruct (gcmSpecRun gcx_ops ∅ {[defaultServiceTag := 1]}) as [[A T] os]. apply Hrun.
Defined.
End example.
