(* ===== verification/GroupRequest.v ===== *)
(** * Making and joining groups

    [groupChat/makeGroup.go], [sendRequests.go], [receiveRequest.go] and the keys of
    [groupStore/dhKeyList.go]: the leader builds a group out of partners and sends
    each of them a request, from which they build the same group, each with the
    keys it shares with the others. *)

From Stdlib Require Import Ascii.
From S2P Require Import Prelude GoBytes KV Effects Services CommandStore GroupStore GroupMessage GroupManager.

(** The message of [gcMessages.proto]. *)
Record gcRequest := mkRequest {
  rq_Name : list byte;
  rq_IdPreimage : list byte;
  rq_KeyPreimage : list byte;
  rq_Members : list byte;
  rq_Message : list byte;
  rq_Created : Z;
}.

(** A partner of the end-to-end layer, as far as groups use it: its identity, its
    public key and the private key used with it. *)
Record Partner {ID Int : Type} := mkPartner { pt_PartnerId : ID; pt_PartnerRootPublicKey : Int; pt_MyRootPrivateKey : Int }.
Arguments Partner : clear implicits.

(** What the crypto library, protobuf and Diffie-Hellman give. *)
Class GroupMaking (ID Int : Type) := {
  MinParticipants : nat;
  MaxParticipants : nat;
  NewMembership : Member ID Int -> list (Member ID Int) -> error + list (Member ID Int);
  NewID : list byte -> list (Member ID Int) -> ID;
  NewKey : list byte -> list (Member ID Int) -> list byte;
  GenerateSessionKey : Int -> Int -> Int;
  proto_Marshal : gcRequest -> error + list byte;
  proto_Unmarshal : list byte -> error + gcRequest;
}.

(** A membership starts with the leader, and the others are the given ones in
    some order; the shared key does not depend on the side; [pub] gives the
    public key of a private one. *)
Class GroupMakingLaws (ID Int : Type) `{GroupMaking ID Int} (pub : Int -> Int) : Prop := {
  membership_leader l cs m : NewMembership l cs = inr m -> exists ms, m = l :: ms /\ ms ≡ₚ cs;
  session_key_comm a b : GenerateSessionKey a (pub b) = GenerateSessionKey b (pub a);
  proto_roundtrip r b : proto_Marshal r = inr b -> proto_Unmarshal b = inr r;
}.

Definition MaxInitMessageSize : nat := 256.
Definition GroupCreationRequest : Z := 40.

Inductive RequestStatus := NotSent | AllFail | PartialSent | AllSent.

Section code.
Context {ID Int : Type} `{NetID ID} `{GroupFormat ID Int} `{GroupMaking ID Int}.
Implicit Types (g : Group ID Int).

Definition dkl_Add (dkl : gmap ID Int) (privKey : Int) (m : Member ID Int) : gmap ID Int :=
  <[mem_ID m := GenerateSessionKey privKey (mem_DhKey m)]> dkl.

Definition GenerateDhKeyList (userID : ID) (privKey : Int) (members : list (Member ID Int)) : gmap ID Int :=
  foldl (fun dkl m => if decide (userID = mem_ID m) then dkl else dkl_Add dkl privKey m) ∅ members.

(** Names and messages are copied, the time loses its monotonic reading. *)
Definition NewGroup (name : list byte) (groupID : ID) (groupKey idPreimage keyPreimage initMessage : list byte) (created : Time)
    (members : list (Member ID Int)) (dhKeys : gmap ID Int) : Group ID Int :=
  mkGroup ID Int _ name (Some groupID) groupKey idPreimage keyPreimage initMessage created members dhKeys.

(** The loop of [buildMembership] over the identities; [GetPartner] is the
    end-to-end layer's. *)
Fixpoint partnersLoop (GetPartner : ID -> error + Partner ID Int) (members : list ID) (dkl : gmap ID Int) :
    error + list (Member ID Int) * gmap ID Int :=
  match members with
  | [] => inr ([], dkl)
  | uid :: members =>
      match GetPartner uid with
      | inl e => inl (Wrapf "failed to get partner %s: %+v" [] e)
      | inr partner =>
          let contact := mkMember ID Int (pt_PartnerId partner) (pt_PartnerRootPublicKey partner) in
          match partnersLoop GetPartner members (dkl_Add dkl (pt_MyRootPrivateKey partner) contact) with
          | inl e => inl e
          | inr (contacts, dkl) => inr (contact :: contacts, dkl)
          end
      end
  end.

Definition buildMembership (GetPartner : ID -> error + Partner ID Int) (user : Member ID Int) (members : list ID) :
    error + list (Member ID Int) * gmap ID Int :=
  let n := length members in
  if (n <? MinParticipants)%nat then inl (Errorf "length of membership list %d < %d minimum allowed" [Z.of_nat n; Z.of_nat MinParticipants])
  else if (MaxParticipants <? n)%nat then inl (Errorf "length of membership list %d > %d maximum allowed" [Z.of_nat n; Z.of_nat MaxParticipants])
  else
    match partnersLoop GetPartner members ∅ with
    | inl e => inl e
    | inr (contacts, dkl) =>
        match NewMembership user contacts with
        | inl e => inl (Wrapf "failed to assemble group chat membership: %+v" [] e)
        | inr mem => inr (mem, dkl)
        end
    end.

(** The two preimages are drawn from the random source by the crypto library. *)
Definition getPreimages (idPre keyPre : error + list byte) : error + list byte * list byte :=
  match idPre with
  | inl e => inl (Wrapf "failed to create group ID preimage: %+v" [] e)
  | inr idPreimage =>
      match keyPre with
      | inl e => inl (Wrapf "failed to create group key preimage: %+v" [] e)
      | inr keyPreimage => inr (idPreimage, keyPreimage)
      end
  end.

Definition gcRequestOf g : gcRequest :=
  mkRequest (g_Name g) (g_IdPreimage g) (g_KeyPreimage g) (Membership_Serialize (g_Members g)) (g_InitMessage g) (UnixNano (g_Created g)).

Definition sendRequest (SendE2E : ID -> list byte -> error + list Z) (memberID : ID) (request : list byte) : error + list Z :=
  match SendE2E memberID request with
  | inl e => inl (Wrapf "failed to send group request via E2E to member %s: %+v" [] e)
  | inr roundList => inr roundList
  end.

Definition roundIdMap2List (roundOrder : gset Z -> list Z) (m : gset Z) : list Z := roundOrder m.

(** The sends run in threads of their own and their results are gathered in any
    order: as a set of rounds and a number of errors.  Panics when there is no
    leader to leave out. *)
Definition sendRequests (SendE2E : ID -> list byte -> error + list Z) (roundOrder : gset Z -> list Z) g :
    result (list Z * RequestStatus * option error) :=
  match proto_Marshal (gcRequestOf g) with
  | inl e => Ok ([], NotSent, Some (Wrapf "failed to form outgoing group chat request: %+v" [] e))
  | inr request =>
      match g_Members g with
      | [] => Panic
      | _ :: others =>
          let results : list (error + list Z) := (fun m => sendRequest SendE2E (mem_ID m) request) <$> others in
          let roundIDs := list_to_set (mjoin ((fun r : error + list Z => match r with inr l => l | inl _ => [] end) <$> results)) : gset Z in
          let errs := List.filter (fun r => match r with inl _ => true | inr _ => false end) results in
          let n := length others in
          if (length errs =? n)%nat
          then Ok ([], AllFail, Some (Errorf "failed to send all %d group request messages: %s" [Z.of_nat (length errs)]))
          else if (0 <? length errs)%nat
          then Ok (roundIdMap2List roundOrder roundIDs, PartialSent,
                 Some (Errorf "failed to send %d/%d group request messages: %s" [Z.of_nat (length errs); Z.of_nat n]))
          else Ok (roundIdMap2List roundOrder roundIDs, AllSent, None)
      end
  end.

(** [readRequest]: the leader's public key is replaced by that of the partnership
    while the shared keys are made. *)
Definition readRequest (GetPartner : ID -> error + Partner ID Int) (me : ID) (messageType : Z) (payload : list byte) : result (Group ID Int) :=
  if negb (messageType =? GroupCreationRequest) then Err (Errorf "message not of type GroupCreationRequest" [])
  else
    match proto_Unmarshal payload with
    | inl e => Err (Wrapf "failed to unmarshal request: %+v" [] e)
    | inr request =>
        match DeserializeMembership (rq_Members request) with
        | inl e => Err (Wrapf "failed to deserialize membership: %+v" [] e)
        | inr [] => Panic
        | inr (leader :: rest) =>
            let membership := leader :: rest in
            match GetPartner (mem_ID leader) with
            | inl e => Err (Wrapf "failed to get private key from partner: %+v" [] e)
            | inr partner =>
                let dkl := GenerateDhKeyList me (pt_MyRootPrivateKey partner)
                             (mkMember ID Int (mem_ID leader) (pt_PartnerRootPublicKey partner) :: rest) in
                let idPreimage := array_of gf_IdPreimageLen (rq_IdPreimage request) in
                let keyPreimage := array_of gf_KeyPreimageLen (rq_KeyPreimage request) in
                Ok (NewGroup (rq_Name request) (NewID idPreimage membership) (NewKey keyPreimage membership) idPreimage keyPreimage
                      (rq_Message request) (rq_Created request) membership dkl)
            end
        end
    end.
End code.

(** ** The leader's side, with its manager *)

Section leader.
Context {S ID Int Preimage P : Type} `{EKV S} `{NetID ID} `{GroupFormat ID Int} `{GroupMaking ID Int} `{Countable Preimage} `{Sih ID Preimage}.
Context `{EqDecision Int} `{EqDecision P}.
Context (dhOrder : gmap ID Int -> list ID) (groupOrder : gmap ID (Group ID Int) -> list ID) (tagOrder : gmap string P -> list string).
Context (iterS : gmap Preimage (service (Group ID Int * P)) -> list Preimage)
        (iterC : gmap Preimage (compressedService (Group ID Int * P)) -> list Preimage).
Context (me : ID) (GetPartner : ID -> error + Partner ID Int) (SendE2E : ID -> list byte -> error + list Z) (roundOrder : gset Z -> list Z).

Abbreviation manager := (gcManager S ID Int Preimage P).

(** What the call returns: no group and no rounds when nothing was sent. *)
Definition made : Type := option (Group ID Int) * list Z * RequestStatus * option error.

Definition MakeGroup (membership : list ID) (name msg : list byte) (idPre keyPre : error + list byte) (now : Time) : act manager made := fun m =>
  if (MaxInitMessageSize <? length msg)%nat
  then Done m (None, [], NotSent, Some (Errorf "new group request message length %d > %d maximum size" [Z.of_nat (length msg); Z.of_nat MaxInitMessageSize]))
  else
    match buildMembership GetPartner (gst_user (gcm_gs m)) membership with
    | inl e => Done m (None, [], NotSent, Some e)
    | inr (mem, dkl) =>
        match getPreimages idPre keyPre with
        | inl e => Done m (None, [], NotSent, Some e)
        | inr (idPreimage, keyPreimage) =>
            let g := NewGroup name (NewID idPreimage mem) (NewKey keyPreimage mem) idPreimage keyPreimage msg now mem dkl in
            match sendRequests SendE2E roundOrder g with
            | Ok (roundIDs, status, None) =>
                match JoinGroup dhOrder groupOrder tagOrder iterS iterC me g now m with
                | Done m _ => Done m (Some g, roundIDs, status, None)
                | Fail m e => Done m (Some g, roundIDs, status, Some e)
                | Crash => Crash
                end
            | Ok (roundIDs, status, Some e) => Done m (Some g, roundIDs, status, Some e)
            | _ => Crash
            end
        end
    end.

Definition ResendRequest (groupID : ID) (m : manager) : result (list Z * RequestStatus * option error) :=
  match gst_Get (gcm_gs m) groupID with
  | None => Ok ([], NotSent, Some (Errorf "cannot resend request to nonexistent group with ID %s" []))
  | Some g => sendRequests SendE2E roundOrder g
  end.

(** [requestListener.Hear]: the group the request callback is called with, if it
    is. *)
Definition Hear (messageType : Z) (payload : list byte) (m : manager) : result (option (Group ID Int)) :=
  match readRequest GetPartner me messageType payload with
  | Ok g =>
      match g_ID g with
      | None => Panic
      | Some gid => Ok (match gst_Get (gcm_gs m) gid with None => Some g | Some _ => None end)
      end
  | Err _ => Ok None
  | Panic => Panic
  end.
End leader.

(** [manager.Send]; the cMix client sends the messages in one round. *)
Section send.
Context {S ID Int Preimage P CryptKey Rnd : Type} `{NetID ID} `{Countable Preimage} `{GroupCrypto ID Int CryptKey}.

Definition gc_Send (me : ID) (max : Z) (rng : nat -> rngRead) (SendMany : list (TargetedCmixMessage ID) -> error + Rnd)
    (groupID : ID) (tag : string) (message : list byte) (timeNow : Time) (m : gcManager S ID Int Preimage P) : result (Rnd * Time * list byte) :=
  let tag := if String.eqb tag "" then defaultServiceTag else tag in
  match gst_Get (gcm_gs m) groupID with
  | None => Err (Errorf "no group found with ID %s" [])
  | Some g =>
      '(groupMessages, msgId) ← wrapErr "failed to generate cMix messages for group chat %q (%s): %+v" (newMessages me max rng g tag message timeNow);
      match SendMany groupMessages with
      | inl e => Err (Wrapf "failed to send group chat message from member %s to group %q (%s): %+v" [] e)
      | inr rid => Ok (rid, timeNow, msgId)
      end
  end.
End send.

(** ** The members agree *)

Section agreement.
Context {ID Int : Type} `{NetID ID} `{GroupFormatLaws ID Int} (pub : Int -> Int) `{GroupMakingLaws ID Int pub}.

(** The partners of the leader [l]: for each the private keys on both sides. *)
Context (l : ID) (lpriv rpriv : ID -> Int).
Definition leaderPartner (r : ID) : Partner ID Int := mkPartner ID Int r (pub (rpriv r)) (lpriv r).
Definition memberPartner (r : ID) : Partner ID Int := mkPartner ID Int l (pub (lpriv r)) (rpriv r).

Lemma partnersLoop_spec GetPartner members dkl :
  (forall r, r ∈ members -> GetPartner r = inr (leaderPartner r)) ->
  exists dkl', partnersLoop GetPartner members dkl = inr ((fun r => mkMember ID Int r (pub (rpriv r))) <$> members, dkl') /\
    forall r, dkl' !! r = if decide (r ∈ members) then Some (GenerateSessionKey (lpriv r) (pub (rpriv r))) else dkl !! r.
Proof.
  revert dkl. induction members as [|r members IH]; intros dkl Hp; cbn [partnersLoop].
  { exists dkl. done. }
  rewrite Hp by left. cbn [leaderPartner pt_PartnerId pt_PartnerRootPublicKey pt_MyRootPrivateKey].
  destruct (IH (dkl_Add dkl (lpriv r) (mkMember ID Int r (pub (rpriv r))))) as (dkl' & -> & Hd); [intros; apply Hp; by right|].
  exists dkl'. split; [done|]. intros r'. rewrite Hd. unfold dkl_Add. cbn [mem_ID mem_DhKey]. destruct (decide (r' = r)) as [->|Hn].
  - rewrite lookup_insert_eq, (decide_True (P := r ∈ r :: members)) by left. by case_decide.
  - rewrite lookup_insert_ne by done. destruct (decide (r' ∈ members)); [by rewrite decide_True by (by right)|].
    rewrite decide_False; [done|]. by rewrite not_elem_of_cons.
Qed.

Lemma GenerateDhKeyList_spec me priv (pubOf : ID -> Int) members :
  (forall m, m ∈ members -> mem_DhKey m = pubOf (mem_ID m)) ->
  forall r, GenerateDhKeyList me priv members !! r =
    if decide (r ∈ mem_ID <$> members /\ r ≠ me) then Some (GenerateSessionKey priv (pubOf r)) else None.
Proof.
  intros Hpub r. unfold GenerateDhKeyList.
  assert (forall dkl, foldl (fun dkl m => if decide (me = mem_ID m) then dkl else dkl_Add dkl priv m) dkl members !! r =
    if decide (r ∈ mem_ID <$> members /\ r ≠ me) then Some (GenerateSessionKey priv (pubOf r)) else dkl !! r) as Hgen; [|by rewrite Hgen, lookup_empty].
  induction members as [|m members IH]; intros dkl; cbn [foldl].
  { rewrite decide_False; [done|]. by intros [?%not_elem_of_nil _]. }
  rewrite IH by (intros; apply Hpub; by right). rewrite fmap_cons. destruct (decide (r ∈ mem_ID <$> members /\ r ≠ me)) as [[Hin Hne]|Hno].
  { rewrite decide_True; [done|]. split; [by right|done]. }
  destruct (decide (me = mem_ID m)) as [Heq|Hme].
  { rewrite decide_False; [done|]. intros [[->|?]%elem_of_cons ?]; [done|]. by apply Hno. }
  unfold dkl_Add. destruct (decide (r = mem_ID m)) as [->|Hr].
  - rewrite lookup_insert_eq, decide_True by (split; [left|congruence]). by rewrite Hpub by left.
  - rewrite lookup_insert_ne by done. rewrite decide_False; [done|]. intros [[?|?]%elem_of_cons ?]; [done|]. by apply Hno.
Qed.

Lemma buildMembership_spec GetPartner user members mem dkl :
  (forall r, r ∈ members -> GetPartner r = inr (leaderPartner r)) -> buildMembership GetPartner user members = inr (mem, dkl) ->
  exists ms, mem = user :: ms /\ ms ≡ₚ (fun r => mkMember ID Int r (pub (rpriv r))) <$> members /\
    forall r, dkl !! r = if decide (r ∈ members) then Some (GenerateSessionKey (lpriv r) (pub (rpriv r))) else None.
Proof.
  intros Hget. unfold buildMembership. case_match; [done|]. case_match; [done|].
  destruct (partnersLoop_spec GetPartner members ∅ Hget) as (dkl' & -> & Hd).
  destruct (NewMembership user _) as [e|m] eqn:E; [done|]. intros [= -> ->].
  destruct (membership_leader _ _ _ E) as (ms & -> & Hp). exists ms. split_and!; [done|done|]. intros r. by rewrite Hd, lookup_empty.
Qed.

(** The keys a member makes out of the membership. *)
Lemma memberKeys_spec r (user : Member ID Int) ms members : mem_ID user = l -> l ∉ members -> ms ≡ₚ (fun r => mkMember ID Int r (pub (rpriv r))) <$> members ->
  forall b, b ∈ l :: members -> b ≠ r ->
  GenerateDhKeyList r (rpriv r) (mkMember ID Int (mem_ID user) (pub (lpriv r)) :: ms) !! b =
    Some (GenerateSessionKey (rpriv r) (if decide (b = l) then pub (lpriv r) else pub (rpriv b))).
Proof.
  intros Hu Hl Hms b Hb Hne.
  rewrite (GenerateDhKeyList_spec r (rpriv r) (fun b => if decide (b = l) then pub (lpriv r) else pub (rpriv b))).
  - rewrite decide_True; [done|]. split; [|done]. rewrite fmap_cons. cbn [mem_ID]. rewrite Hu.
    apply elem_of_cons in Hb as [->|Hb]; [left|right]. apply list_elem_of_fmap. exists (mkMember ID Int b (pub (rpriv b))). split; [done|].
    rewrite Hms. by apply (list_elem_of_fmap_2 (fun r => mkMember ID Int r (pub (rpriv r)))).
  - intros m [->|Hm]%elem_of_cons; cbn [mem_ID mem_DhKey]; [by rewrite decide_True|].
    rewrite Hms in Hm. apply list_elem_of_fmap in Hm as (b' & -> & Hb'). cbn [mem_ID mem_DhKey]. rewrite decide_False; [done|]. by intros ->.
Qed.

(** The members of a group agree.  From the request of the leader every
    member reads the same group, with its identity, key, members, name, text and
    time, and with the keys to talk to every other one: any two of them, the
    leader included, hold the same key for each other. *)
Lemma group_members_agree GetPartner user members mem dkl name msg idPre keyPre now request (get : ID -> ID -> error + Partner ID Int) :
  mem_ID user = l -> l ∉ members -> (forall r, r ∈ members -> GetPartner r = inr (leaderPartner r)) ->
  (forall r, r ∈ members -> get r l = inr (memberPartner r)) ->
  buildMembership GetPartner user members = inr (mem, dkl) ->
  length idPre = gf_IdPreimageLen -> length keyPre = gf_KeyPreimageLen -> - 2 ^ 63 <= now < 2 ^ 63 ->
  let g := NewGroup name (NewID idPre mem) (NewKey keyPre mem) idPre keyPre msg now mem dkl in
  proto_Marshal (gcRequestOf g) = inr request ->
  exists joined : ID -> Group ID Int,
    joined l = g /\ (exists ms, mem = user :: ms /\ (mem_ID <$> ms) ≡ₚ members) /\
    (forall r, r ∈ members -> readRequest (get r) r GroupCreationRequest request = Ok (joined r)) /\
    (forall r, r ∈ l :: members -> exists d,
       joined r = NewGroup name (NewID idPre mem) (NewKey keyPre mem) idPre keyPre msg now mem d) /\
    forall a b, a ∈ l :: members -> b ∈ l :: members -> a ≠ b -> fits a b (joined a) (joined b).
Proof.
  intros Hu Hl Hget Hget' Hbuild Hidp Hkp Hnow g Hmar.
  destruct (buildMembership_spec GetPartner user members mem dkl Hget Hbuild) as (ms & -> & Hms & Hdkl).
  set (keys r := GenerateDhKeyList r (rpriv r) (mkMember ID Int (mem_ID user) (pub (lpriv r)) :: ms)).
  exists (fun r => if decide (r = l) then g else NewGroup name (NewID idPre (user :: ms)) (NewKey keyPre (user :: ms)) idPre keyPre msg now (user :: ms) (keys r)).
  split_and!.
  - by rewrite decide_True.
  - exists ms. split; [done|]. rewrite Hms, <- list_fmap_compose. by rewrite list_fmap_id.
  - intros r Hr. rewrite decide_False by (by intros ->). unfold readRequest. rewrite Z.eqb_refl. cbn [negb].
    rewrite (proto_roundtrip _ _ Hmar). cbn [gcRequestOf rq_Members g NewGroup g_Members]. rewrite membership_roundtrip, Hu, Hget' by done.
    cbn [gcRequestOf memberPartner pt_MyRootPrivateKey pt_PartnerRootPublicKey rq_Name rq_IdPreimage rq_KeyPreimage rq_Message rq_Created g NewGroup g_Name g_IdPreimage g_KeyPreimage g_InitMessage g_Created].
    rewrite !array_of_id by done. unfold UnixNano. rewrite wraps_small by lia. unfold keys. by rewrite Hu.
  - intros r Hr. case_decide; [by exists dkl|by eexists].
  - assert (forall a b, a ∈ members -> b ∈ l :: members -> b ≠ a -> keys a !! b =
      Some (GenerateSessionKey (rpriv a) (if decide (b = l) then pub (lpriv a) else pub (rpriv b)))) as Hkeys
      by (intros a b _; by apply (memberKeys_spec a user ms members)).
    assert (forall a, a ∈ members -> a ≠ l) as Hnl by (by intros a ? ->).
    intros a b Ha Hb Hab. apply elem_of_cons in Ha as [->|Ha]; apply elem_of_cons in Hb as [->|Hb]; [done| | |].
    + rewrite decide_True, decide_False by auto. split_and!; [done|done|]. exists (GenerateSessionKey (lpriv b) (pub (rpriv b))).
      cbn [g NewGroup g_DhKeys]. rewrite Hdkl, decide_True by done. split; [done|]. rewrite Hkeys by (done || left || auto).
      by rewrite decide_True, session_key_comm.
    + rewrite decide_False, decide_True by auto. split_and!; [done|done|]. exists (GenerateSessionKey (lpriv a) (pub (rpriv a))).
      cbn [g NewGroup g_DhKeys]. rewrite Hdkl, decide_True by done. split; [|done]. rewrite Hkeys by (done || left || auto).
      by rewrite decide_True, session_key_comm.
    + rewrite !decide_False by auto. split_and!; [done|done|]. exists (GenerateSessionKey (rpriv a) (pub (rpriv b))). cbn [NewGroup g_DhKeys].
      rewrite !Hkeys by (done || (by right) || auto). rewrite !decide_False by auto. split; [done|]. by rewrite session_key_comm.
Qed.
End agreement.

(** ** A conversation *)

Section conversation.
Context {ID Int CryptKey : Type} `{NetID ID, !ArrID ID} `{GroupFormatLaws ID Int} (pub : Int -> Int) `{GroupMakingLaws ID Int pub} `{GroupCryptoLaws ID Int CryptKey}.
Context (dhOrder : gmap ID Int -> list ID) `{!MapOrder dhOrder}.

(** C6: from the making of a group to its messages: when the leader has built a
    group out of its partners and sent the request, every member reads a group
    from it, and then a message that any of them sends to the group is received
    by each other one, with its text, its sender, its time and the identity the
    sender was given. *)
Theorem group_conversation (l : ID) (lpriv rpriv : ID -> Int) GetPartner user members mem dkl name invitation idPre keyPre now request
    (get : ID -> ID -> error + Partner ID Int) :
  mem_ID user = l -> l ∉ members -> (forall r, r ∈ members -> GetPartner r = inr (leaderPartner pub lpriv rpriv r)) ->
  (forall r, r ∈ members -> get r l = inr (memberPartner pub l lpriv rpriv r)) ->
  buildMembership GetPartner user members = inr (mem, dkl) ->
  length idPre = gf_IdPreimageLen -> length keyPre = gf_KeyPreimageLen -> - 2 ^ 63 <= now < 2 ^ 63 ->
  let g := NewGroup name (NewID idPre mem) (NewKey keyPre mem) idPre keyPre invitation now mem dkl in
  proto_Marshal (gcRequestOf g) = inr request ->
  exists joined : ID -> Group ID Int,
    joined l = g /\ (forall r, r ∈ members -> readRequest (get r) r GroupCreationRequest request = Ok (joined r)) /\
    forall a b text ts max rng tag rts rnow,
      a ∈ l :: members -> b ∈ l :: members -> a ≠ b ->
      (forall k, rng_ok (rng k)) -> - 2 ^ 63 <= ts < 2 ^ 63 -> Z.of_nat (length text) < 2 ^ 16 -> 75 + Z.of_nat (length text) <= max ->
      epoch_near ts rts rnow ->
      exists msgs mid m, newMessages a max rng (joined a) tag text ts = Ok (msgs, mid) /\ m ∈ msgs /\ tm_Recipient m = b /\
        receptionProcessor_Process dhOrder (joined b) (tm_Payload m) (tm_Mac m) (tm_Fingerprint m) rts rnow =
          Ok (Some (mkMessageReceive ID (Some (NewID idPre mem)) mid text a ts)).
Proof.
  intros Hu Hl Hget Hget' Hbuild Hidp Hkp Hnow g Hmar.
  destruct (group_members_agree pub l lpriv rpriv GetPartner user members mem dkl name invitation idPre keyPre now request get Hu Hl Hget Hget' Hbuild Hidp Hkp Hnow Hmar)
    as (joined & Hjl & (ms & Hmem & Hms) & Hread & Hsame & Hfits).
  exists joined. split; [done|]. split; [done|]. intros a b text ts max rng tag rts rnow Ha Hb Hab Hrng Hts Htext Hmax Hep.
  destruct (Hsame a Ha) as (da & Hja).
  assert (forall i, i ∈ mem_ID <$> g_Members (joined a) <-> i ∈ l :: members) as Hids.
  { intros i. rewrite Hja. cbn [NewGroup g_Members]. rewrite Hmem, fmap_cons, Hu, !elem_of_cons. by rewrite Hms. }
  destruct (group_message_delivered dhOrder (joined a) (NewID idPre mem) a max rng tag text ts) as (msgs & mid & Hnew & Hrec & Hproc);
    [by rewrite Hja|done|done|done|done| |].
  { intros m0 Hm0 Hne. destruct (Hfits a (mem_ID m0) Ha) as (_ & _ & d & Hd & _); [|done|by exists d]. apply Hids. by apply list_elem_of_fmap_2. }
  assert (b ∈ tm_Recipient <$> msgs) as Hbm by (rewrite Hrec, list_elem_of_filter; split; [done|by apply Hids]).
  apply list_elem_of_fmap in Hbm as (m & -> & Hm). exists msgs, mid, m. split_and!; [done|done|done|].
  apply Hproc; [done| |done]. by apply Hfits.
Qed.
End conversation.

(** ** Requests that fail *)

Lemma filter_count {A} (f : A -> bool) l :
  (length (List.filter f l) = length l <-> forall x, x ∈ l -> f x = true) /\ (length (List.filter f l) = 0%nat <-> forall x, x ∈ l -> f x = false).
Proof.
  induction l as [|a l [IH1 IH2]]; [split; split; done || by intros _ x ?%not_elem_of_nil|]. cbn [List.filter].
  pose proof (List.filter_length_le f l). setoid_rewrite elem_of_cons. destruct (f a) eqn:E; cbn [length]; split; split.
  - intros Heq x [->|Hx]; [done|]. apply IH1; [lia|done].
  - intros Hf. f_equal. apply IH1. auto.
  - done.
  - intros Hf. rewrite (Hf a) in E by auto. done.
  - lia.
  - intros Hf. rewrite (Hf a) in E by auto. done.
  - intros Heq x [->|Hx]; [done|]. by apply IH2.
  - intros Hf. apply IH2. auto.
Qed.

Section failing.
Context {S ID Int Preimage P : Type} `{EKV S} `{NetID ID} `{GroupFormat ID Int} `{GroupMaking ID Int} `{Countable Preimage} `{Sih ID Preimage}.
Context `{EqDecision Int} `{EqDecision P}.
Context (dhOrder : gmap ID Int -> list ID) (groupOrder : gmap ID (Group ID Int) -> list ID) (tagOrder : gmap string P -> list string).
Context (iterS : gmap Preimage (service (Group ID Int * P)) -> list Preimage)
        (iterC : gmap Preimage (compressedService (Group ID Int * P)) -> list Preimage).
Context (me : ID) (GetPartner : ID -> error + Partner ID Int) (SendE2E : ID -> list byte -> error + list Z) (roundOrder : gset Z -> list Z).

(** The status says whether all, some or none of the requests failed. *)
Lemma sendRequests_spec (g : Group ID Int) request leader others : proto_Marshal (gcRequestOf g) = inr request -> g_Members g = leader :: others ->
  others ≠ [] ->
  exists rounds status err, sendRequests SendE2E roundOrder g = Ok (rounds, status, err) /\
    match status with
    | NotSent => False
    | AllFail => (forall m, m ∈ others -> exists e, SendE2E (mem_ID m) request = inl e) /\ is_Some err
    | PartialSent => is_Some err
    | AllSent => (forall m, m ∈ others -> exists r, SendE2E (mem_ID m) request = inr r) /\ err = None
    end.
Proof.
  intros Hmar Hmem Hne. unfold sendRequests. rewrite Hmar, Hmem.
  set (res := (fun m : Member ID Int => sendRequest SendE2E (mem_ID m) request) <$> others). set (isErr := fun r : error + list Z => match r with inl _ => true | inr _ => false end).
  assert (forall (m : Member ID Int) b, m ∈ others -> (forall r, r ∈ res -> isErr r = b) ->
    match SendE2E (mem_ID m) request with inl _ => true | inr _ => false end = b) as Hres.
  { intros m b Hm Hb. rewrite <- (Hb (sendRequest SendE2E (mem_ID m) request)); [unfold sendRequest; by destruct (SendE2E (mem_ID m) request)|].
    by apply (list_elem_of_fmap_2 (fun m : Member ID Int => sendRequest SendE2E (mem_ID m) request)). }
  destruct (filter_count isErr res) as [Hall Hnone]. assert (length res = length others) as Hlen by apply length_fmap. rewrite Hlen in Hall.
  destruct (length (List.filter isErr res) =? length others)%nat eqn:E1.
  { apply Nat.eqb_eq in E1. eexists _, _, _. split; [done|]. split; [|done]. intros m Hm. specialize (Hres m true Hm (proj1 Hall E1)).
    destruct (SendE2E (mem_ID m) request) as [e|]; [by exists e|done]. }
  destruct (0 <? length (List.filter isErr res))%nat eqn:E2.
  { eexists _, _, _. split; [done|]. by eexists. }
  apply Nat.ltb_ge in E2. eexists _, _, _. split; [done|]. split; [|done]. intros m Hm. specialize (Hres m false Hm (proj1 Hnone ltac:(lia))).
  destruct (SendE2E (mem_ID m) request) as [|r]; [done|by exists r].
Qed.

(** C38: a group whose requests were sent only in part is lost: some members have
    been invited and can join, but the leader has not joined, and cannot send
    the missing requests again. *)
Theorem partial_group_lost (m : gcManager S ID Int Preimage P) membership name msg idPre keyPre now leader ms dkl request bad good :
  (length msg <= MaxInitMessageSize)%nat -> buildMembership GetPartner (gst_user (gcm_gs m)) membership = inr (leader :: ms, dkl) ->
  let gid := NewID idPre (leader :: ms) in
  let g := NewGroup name gid (NewKey keyPre (leader :: ms)) idPre keyPre msg now (leader :: ms) dkl in
  proto_Marshal (gcRequestOf g) = inr request -> gst_Get (gcm_gs m) gid = None ->
  bad ∈ ms -> good ∈ ms -> (exists e, SendE2E (mem_ID bad) request = inl e) -> (exists r, SendE2E (mem_ID good) request = inr r) ->
  exists rounds e, MakeGroup dhOrder groupOrder tagOrder iterS iterC me GetPartner SendE2E roundOrder membership name msg (inr idPre) (inr keyPre) now m =
      Done m (Some g, rounds, PartialSent, Some e) /\
    exists e', ResendRequest SendE2E roundOrder gid m = Ok ([], NotSent, Some e').
Proof.
  intros Hmsg Hbuild gid g Hmar Hno Hbad Hgood [e He] [r Hr].
  destruct (sendRequests_spec g request leader ms Hmar eq_refl) as (rounds & status & err & Hsend & Hst); [by intros ->; apply not_elem_of_nil in Hbad|].
  destruct status; [done| | |].
  - destruct Hst as [Hall _]. destruct (Hall good Hgood). congruence.
  - destruct Hst as [e1 ->]. exists rounds, e1. split.
    + unfold MakeGroup. rewrite (proj2 (Nat.ltb_ge _ _)), Hbuild by done. cbn [getPreimages]. fold gid g. by rewrite Hsend.
    + unfold ResendRequest. rewrite Hno. by eexists.
  - destruct Hst as [Hall _]. destruct (Hall bad Hbad). congruence.
Qed.
End failing.

(** ** Examples *)

Section example.
#[local] Existing Instance gmx_crypto.
#[local] Existing Instance gmx_laws.
#[local] Existing Instance gcx_sih.

#[local] Instance grx_making : GroupMaking arrID byte := {
  MinParticipants := 1;
  MaxParticipants := 10;
  NewMembership l cs := inr (l :: cs);
  NewID pre mem := arrID_of pre;
  NewKey pre mem := pre;
  GenerateSessionKey a b := byte_of_Z (Z_of_byte a + Z_of_byte b);
  proto_Marshal r := inr (posBytes (encode (rq_Name r, rq_IdPreimage r, rq_KeyPreimage r, rq_Members r, rq_Message r, rq_Created r)));
  proto_Unmarshal b :=
    match decode (bytesPos b) with
    | Some (n, i, k, m, t, c) => inr (mkRequest n i k m t c)
    | None => inl (Errorf "proto" [])
    end;
}.

#[local] Instance grx_laws : GroupMakingLaws arrID byte (fun k => k).
Proof.
  split.
  - intros l cs m [= <-]. by exists cs.
  - intros a b. simpl. by rewrite Z.add_comm.
  - intros r b [= <-]. simpl. rewrite bytesPos_posBytes, decode_encode. by destruct r.
Qed.

Definition grx_bytes (r : gcRequest) : list byte :=
  posBytes (encode (rq_Name r, rq_IdPreimage r, rq_KeyPreimage r, rq_Members r, rq_Message r, rq_Created r)).
Definition grx_group (created : Time) (mem : list (Member arrID byte)) (dkl : gmap arrID byte) : Group arrID byte :=
  NewGroup [x61] (arrID_of [x07]) [x08] [x07] [x08] [x62] created mem dkl.

Definition grx_key (i : arrID) : byte := default x00 (proj1_sig i !! 0%nat).
Definition grx_members : list arrID := [arrID_of [x05]; arrID_of [x09]].
Definition grx_leader : Member arrID byte := mkMember _ _ (arrID_of [x01]) x00.

Lemma grx_leader_out : arrID_of [x01] ∉ grx_members.
Proof.
  assert (forall i, i ∈ grx_members -> proj1_sig i !! 0%nat ≠ Some x01) as Hout.
  { intros i [->|[->|[]%not_elem_of_nil]%elem_of_cons]%elem_of_cons; discriminate. }
  intros Hin. by apply (Hout _ Hin).
Qed.

Definition grx_partner (r : arrID) : error + Partner arrID byte := inr (leaderPartner (fun k => k) (fun _ => x03) grx_key r).
Definition grx_get (r l : arrID) : error + Partner arrID byte := inr (memberPartner (fun k => k) (arrID_of [x01]) (fun _ => x03) grx_key r).

Lemma group_conversation_witness : exists mem dkl request (joined : arrID -> Group arrID byte) msgs mid m,
  buildMembership grx_partner grx_leader grx_members = inr (mem, dkl) /\
  proto_Marshal (gcRequestOf (joined (arrID_of [x01]))) = inr request /\
  readRequest (grx_get (arrID_of [x09])) (arrID_of [x09]) GroupCreationRequest request = Ok (joined (arrID_of [x09])) /\
  newMessages (arrID_of [x05]) 100 (fun _ => (32%nat, [], None)) (joined (arrID_of [x05])) "default" [x68; x69] 5 = Ok (msgs, mid) /\ m ∈ msgs /\
  receptionProcessor_Process keysInOrder (joined (arrID_of [x09])) (tm_Payload m) (tm_Mac m) (tm_Fingerprint m) 6 0 =
    Ok (Some (mkMessageReceive arrID (Some (arrID_of [x07])) mid [x68; x69] (arrID_of [x05]) 5)).
Proof.
  destruct (buildMembership grx_partner grx_leader grx_members) as [e|[mem dkl]] eqn:Hbuild; [discriminate Hbuild|].
  destruct (group_conversation (fun k => k) keysInOrder (arrID_of [x01]) (fun _ => x03) grx_key grx_partner grx_leader grx_members mem dkl
    [x61] [x62] [x07] [x08] 1000 (grx_bytes (gcRequestOf (grx_group 1000 mem dkl))) grx_get eq_refl grx_leader_out (fun r _ => eq_refl) (fun r _ => eq_refl) Hbuild)
    as (joined & Hl & Hread & Hsay); [done|done|lia|done|].
  destruct (Hsay (arrID_of [x05]) (arrID_of [x09]) [x68; x69] 5 100 (fun _ => (32%nat, [], None)) "default" 6 0) as (msgs & mid & m & Hnew & Hm & _ & Hproc);
    [by right; left|by right; right; left|apply gmx_ids|done|lia|done|simpl; lia|by right; left|].
  eexists mem, dkl, _, joined, msgs, mid, m. split; [done|]. split; [by rewrite Hl|]. split; [apply Hread; by right; left|]. split; [exact Hnew|]. by split.
Defined.

(** Only the first member can be reached. *)
Definition grx_send (r : arrID) (b : list byte) : error + list Z := if decide (r = arrID_of [x05]) then inr [7] else inl (Errorf "offline" []).

Definition grx_manager : gcManager MemStore arrID byte (list byte * string) Z :=
  mkGcManager ∅ (mkGroupStore _ _ _ ∅ grx_leader NewKV) ∅ NewServices.

Lemma partial_group_lost_witness : exists g rounds e e',
  MakeGroup keysInOrder keysInOrder keysInOrder keysInOrder keysInOrder (arrID_of [x01]) grx_partner grx_send elements grx_members [x61] [x62] (inr [x07]) (inr [x08]) 0 grx_manager =
    Done grx_manager (Some g, rounds, PartialSent, Some e) /\
  ResendRequest grx_send elements (arrID_of [x07]) grx_manager = Ok ([], NotSent, Some e').
Proof.
  destruct (buildMembership grx_partner grx_leader grx_members) as [e|[mem dkl]] eqn:Hbuild; [discriminate Hbuild|].
  destruct (buildMembership_spec (fun k => k) (fun _ => x03) grx_key grx_partner grx_leader grx_members mem dkl (fun r _ => eq_refl) Hbuild) as (ms & Hmem & Hms & _).
  subst mem.
  destruct (partial_group_lost keysInOrder keysInOrder keysInOrder keysInOrder keysInOrder (arrID_of [x01]) grx_partner grx_send elements grx_manager grx_members
    [x61] [x62] [x07] [x08] 0 grx_leader ms dkl (grx_bytes (gcRequestOf (grx_group 0 (grx_leader :: ms) dkl))) (mkMember _ _ (arrID_of [x09]) (grx_key (arrID_of [x09]))) (mkMember _ _ (arrID_of [x05]) (grx_key (arrID_of [x05]))))
    as (rounds & e & Hmake & e' & Hresend); [unfold MaxInitMessageSize; simpl; lia|exact Hbuild|done|done| | | | |].
  - rewrite Hms. by right; left.
  - rewrite Hms. by left.
  - eexists. unfold grx_send. cbn [mem_ID]. rewrite decide_False; [done|]. intros Heq. by apply gmx_ids.
  - eexists. unfold grx_send. cbn [mem_ID]. by rewrite decide_True.
  - eexists _, rounds, e, e'. split; [exact Hmake|exact Hresend].
Defined.
End example.
